(* ===== verification/_CoqProject ===== *)
-Q . S2P
Prelude.v
Arith64.v
FixedPoint.v
Bitmap.v
Block.v
Partition.v
Ide.v
Intq.v
Kbd.v
Vga.v
Serial.v
Clock.v
Descriptors.v
Random.v
Cache.v
FsState.v
Palloc.v
CString.v
CStringSpec.v
CStdlib.v
CStdlibSpec.v
Boot.v
Registry.v
CStdio.v
CStdioSpec.v
Console.v
Ustar.v
UstarSpec.v
Pagedir.v
PagedirSpec.v
PagedirLife.v
Paging.v
Thread.v
ThreadSpec.v
RoundRobin.v
Queues.v
Synch.v
SynchSpec.v
SynchSteps.v
SynchSafe.v
Inode.v
InodeView.v
InodeGrow.v
File.v
FreeMap.v
FreeMapSpec.v
FileSpec.v
InodeLimits.v
InodeClose.v
InodeRefs.v
CList.v
CListSpec.v
CListOps.v
CListSort.v
CListArray.v
Allocator.v
Malloc.v
MallocSpec.v
MallocHeap.v
Hash.v
HashSpec.v
Directory.v
DirectorySpec.v
Filesys.v
Process.v
ProcessSpec.v
ProcessArgs.v
ProcessLoad.v
Syscall.v
SyscallSpec.v
SyscallFiles.v
Fsutil.v
Wait.v
WaitSpec.v
Start.v
Exception.v
Exec.v
