(* ===== verification/Prelude.v ===== *)
(** * Verification of the Pintos kernel (CS162 Group 13)

    A model of the kernel under src/pintos/src, translated from the C source function by function, with
    theorems about it.  A definition has the name of the C function it translates; a loop is a
    definition of its own, [<name>_loop] or named after what it does.

    ** The program and its parts

    A 32-bit x86 kernel.  Threads run on one processor and are switched by a timer; interrupts come
    from the timer, the keyboard, the serial port and the disk.  User processes have page directories,
    file descriptors and a working directory, and enter the kernel by system calls.  Files live on a disk
    behind a cache of sectors, in inodes that a bitmap of free sectors and directories of names manage.
    Below all of it is a small C library: lists, hash tables, bitmaps, strings, formatted output, and
    64-bit division.

    ** How the code is modelled

    - Integers are numbers of type [Z] in the range of their C type; every operation that can leave it is followed by
      the wrap-around, [uwrap] and [swrap] ([u32], [s32] and so on).
    - A function that can fail returns an [outcome]: [Panic] is a failed [ASSERT], a [PANIC] or
      a hardware trap, [Undef] an access outside an object, and [OutOfFuel] a loop cut off by its fuel or a thread
      that waits for something the model does not contain.  [M S A] is a computation on a state [S], sequenced with [let!].
    - A component has a record for its state.  Objects that code shares through pointers are maps from
      addresses (inodes, files, list elements, page tables); the rest of memory is a function from
      addresses to bytes.
    - Functions that sleep stop where they do: they return that they sleep (Intq, Wait), or
      are cut into steps that other threads and interrupts come between (Synch, Start).
      Where a lock is held over the whole of an operation that cannot be observed halfway, the operation is one step.
    - Hardware and code that is not there to be read is a parameter: what a port reads
      (Clock, Serial, Kbd), a disk controller (the classes [Ata] and [AtaDisk] of Ide), the addresses of constants
      and of assembly stubs.  Assumptions on them are hypotheses of the theorems, and a witness shows that they can hold.

    ** Files

    Library.
    - Prelude: machine integers, outcomes, the state monad, lemmas on lists and bytes.
    - Arith64 (lib/arithmetic.c), FixedPoint (threads/fixed-point.h), Random (lib/random.c).
    - Bitmap (lib/kernel/bitmap.c): the arrays of words as arrays of bits.
    - CString, CStringSpec (lib/string.c); CStdlib, CStdlibSpec (lib/stdlib.c, lib/ctype.h); CStdio,
      CStdioSpec (lib/stdio.c); Ustar, UstarSpec (lib/ustar.c): functions on memory and what they compute.
    - CList, CListSpec, CListOps, CListSort, CListArray (lib/kernel/list.c): list elements in memory
      and the sequences they hold.
    - Hash, HashSpec (lib/kernel/hash.c): over the lists and any allocator that keeps the promise of Allocator.

    Memory.
    - Palloc (threads/palloc.c, threads/vaddr.h), Allocator (the interface of threads/malloc.h), Malloc, MallocSpec, MallocHeap
      (threads/malloc.c), Pagedir, PagedirSpec, PagedirLife, Paging (userprog/pagedir.c, threads/pte.h, [paging_init]).

    Threads.
    - Thread, ThreadSpec, RoundRobin (threads/thread.c, threads/interrupt.c), Synch, Queues, SynchSpec, SynchSteps,
      SynchSafe (threads/synch.c): the machine of all threads with their stacks of unfinished functions, its invariant,
      and what follows for every state it reaches.
    - Descriptors (userprog/gdt.c, threads/interrupt.c), Exception (userprog/exception.c).

    Devices.
    - Block, Registry (devices/block.c), Partition (devices/partition.c), Ide (devices/ide.c).
    - Intq (devices/intq.c, devices/input.c), Kbd (devices/kbd.c), Vga (devices/vga.c), Serial (devices/serial.c),
      Console (lib/kernel/console.c), Clock (devices/timer.c, devices/pit.c, devices/rtc.c).
    - Boot (threads/init.c): the kernel command line.

    File system.
    - Cache (the cache of filesys/inode.c; the class [SectorStore] is what the inodes need of it), FsState (the objects in memory), Inode, InodeView,
      InodeGrow, InodeLimits, InodeClose, InodeRefs (filesys/inode.c), File, FileSpec (filesys/file.c), FreeMap, FreeMapSpec
      (filesys/free-map.c; it implements the class [SectorAllocator] that growing a file relies on), Directory, DirectorySpec
      (filesys/directory.c), Filesys (filesys/filesys.c), Fsutil (filesys/fsutil.c).

    Processes.
    - Process, ProcessSpec, ProcessArgs, ProcessLoad (userprog/process.c): loading a program.
    - Exec, Start, Wait, WaitSpec (userprog/process.c, [handle_exit]): starting, ending and waiting for processes.
    - Syscall, SyscallSpec, SyscallFiles (userprog/syscall.c): the system calls.

    ** What is shown

    - Refinement.  Under any sequence of operations a list behaves as a sequence, a hash table as a set, a page directory as a
      map that grants no more than it says, the cache and the disk as an array of sectors, an interrupt queue
      as a bounded queue, the screen as the end of a roll of paper, a file descriptor as bytes and a position,
      the memory allocator as its interface.
    - Functions.  Loading a program puts every segment and the arguments in place; sorting, searching, formatting,
      parsing, allocation, registration of interrupts and partitions, directory entries and the kernel command line do what
      their comments say, on all branches.
    - Round trips.  What is written to a file is read back, through the cache, also when the file grows; a file
      survives an archive.
    - Safety and invariants.  No interleaving of threads and interrupts fails an assertion, lets two threads hold
      a lock, or loses a wake-up; a process start sees the outcome of its own child; writes to a file or an address space change no other.
    - Liveness and termination.  Every ready thread runs after a bounded number of ticks; loops end, and where
      fuel bounds them the theorems say how much is enough.
    - Errors.  Where the code fails, the theorem says when: a scan that does not end, an exit code that is
      lost, a full disk that overwrites sector 0, system calls that stop the kernel.

    ** Bounds and fuel

    Fuel is the number of rounds of a loop or the length of the strings it may read; theorems ask for as much as
    the data needs and conclude that the function returns.  Fixed bounds come from the code: 32 entries of
    the cache, 252 sectors of a file that direct and indirect blocks reach, 63 bytes of an interrupt queue,
    3000 rounds of waiting for a disk, 100 bytes of a command line.  The recursion of the free map through
    the file system is cut at a nesting of 2, and 1 is enough because the file of the free map never grows.

    ** Not modelled

    - Assembly: threads/loader.S, start.S, switch.S, intr-stubs.S.  The context switch is the change of the
      running thread; the entry into user mode is the end of [start_process].
    - Start-up code that runs once and only calls others: [main], [bss_init], [thread_init], [thread_start], [timer_init],
      [kbd_init], [tss_init].
    - Port writes with nothing to observe: the interrupt controllers, the speaker, power off and reboot.
    - Messages and statistics on the console, with [hex_dump], [intr_dump_frame], [partition_type_name] and the backtraces of
      lib/debug.c and lib/kernel/debug.c.
    - The registration of disks: Ide, Registry and Partition are modelled each, but not the call of the latter
      two for every disk that is found.
    - lib/user, examples, tests and utils: user programs and tools of the host.  The directory vm has no code. *)

From Stdlib Require Export ZArith Lia.
From stdpp Require Export base tactics numbers list list_numbers gmap functions.

#[global] Open Scope Z_scope.

(** ** Machine integers

    A [w]-bit C integer is a [Z] in range; every operation that can leave the
    range is followed by the wrap-around the compiler emits. *)

Definition uwrap (w x : Z) : Z := x `mod` 2 ^ w.
Definition swrap (w x : Z) : Z := (x + 2 ^ (w - 1)) `mod` 2 ^ w - 2 ^ (w - 1).

Abbreviation u8 := (uwrap 8).
Abbreviation u32 := (uwrap 32).
Abbreviation u64 := (uwrap 64).
Abbreviation s32 := (swrap 32).
Abbreviation s64 := (swrap 64).

Definition in_u (w x : Z) : Prop := 0 ≤ x < 2 ^ w.
Definition in_s (w x : Z) : Prop := - 2 ^ (w - 1) ≤ x < 2 ^ (w - 1).

Lemma uwrap_range w x : 0 ≤ w → in_u w (uwrap w x).
Proof. intros. unfold in_u, uwrap. apply Z.mod_pos_bound. lia. Qed.

Lemma uwrap_id w x : in_u w x → uwrap w x = x.
Proof. intros. by apply Z.mod_small. Qed.

Lemma uwrap_le w x : 0 ≤ w → 0 ≤ x → uwrap w x ≤ x.
Proof. intros. unfold uwrap. apply Z.mod_le; lia. Qed.

Lemma swrap_range w x : 1 ≤ w → in_s w (swrap w x).
Proof.
  intros. unfold in_s, swrap.
  assert (2 ^ w = 2 * 2 ^ (w - 1)) as E by (rewrite <-Z.pow_succ_r by lia; f_equal; lia).
  pose proof (Z.mod_pos_bound (x + 2 ^ (w - 1)) (2 ^ w) ltac:(lia)). lia.
Qed.

Lemma swrap_id w x : 1 ≤ w → in_s w x → swrap w x = x.
Proof.
  intros ? Hx. unfold in_s, swrap in *.
  assert (2 ^ w = 2 * 2 ^ (w - 1)) as E by (rewrite <-Z.pow_succ_r by lia; f_equal; lia).
  rewrite Z.mod_small; lia.
Qed.

(** Evaluates the powers of two with a closed exponent. *)
Ltac eval_pow2 :=
  repeat match goal with
  | |- context [2 ^ ?k] =>
      let v := eval vm_compute in (2 ^ k) in change (2 ^ k) with v
  | H : context [2 ^ ?k] |- _ =>
      let v := eval vm_compute in (2 ^ k) in change (2 ^ k) with v in H
  end.

(** ** Outcomes

    [Panic] is a failed [ASSERT], a [PANIC] or a hardware trap, all of which
    stop the kernel; [Undef] is an access outside an object, after which C says
    nothing; [OutOfFuel] is the end of the fuel given to a loop whose recursion
    is not structural. *)

Inductive outcome (A : Type) : Type :=
| Ok (a : A)
| Panic
| Undef
| OutOfFuel.
Arguments Ok {A} a.
Arguments Panic {A}.
Arguments Undef {A}.
Arguments OutOfFuel {A}.

Definition obind {A B} (m : outcome A) (k : A → outcome B) : outcome B :=
  match m with
  | Ok a => k a
  | Panic => Panic
  | Undef => Undef
  | OutOfFuel => OutOfFuel
  end.

(** State-passing computations over a kernel state [S]. *)
Definition M (S A : Type) : Type := S → outcome (A * S).

Definition ret {S A} (a : A) : M S A := λ s, Ok (a, s).
Definition bind {S A B} (m : M S A) (k : A → M S B) : M S B := λ s,
  match m s with
  | Ok (a, s') => k a s'
  | Panic => Panic
  | Undef => Undef
  | OutOfFuel => OutOfFuel
  end.

(** [let? x := m in k] sequences fallible computations, [let! x := m in k]
    stateful ones. *)
Declare Scope kernel_scope.
Delimit Scope kernel_scope with kernel.
Notation "'let?' x := m 'in' k" := (obind m (fun x => k))
  (at level 10, x binder, m at level 100, k at level 200,
   format "'[v' 'let?'  x  :=  m  'in' '/' k ']'") : kernel_scope.
Notation "'let!' x := m 'in' k" := (bind m (fun x => k))
  (at level 10, x binder, m at level 100, k at level 200,
   format "'[v' 'let!'  x  :=  m  'in' '/' k ']'") : kernel_scope.
#[global] Open Scope kernel_scope.

Definition panic {S A} : M S A := λ _, Panic.
Definition undef {S A} : M S A := λ _, Undef.
Definition out_of_fuel {S A} : M S A := λ _, OutOfFuel.
Definition gets {S A} (k : S → A) : M S A := λ s, Ok (k s, s).
Definition modify {S} (k : S → S) : M S unit := λ s, Ok (tt, k s).

(** [ASSERT (b)] of lib/debug.h. *)
Definition ASSERT {S} (b : bool) : M S unit := if b then ret tt else panic.
Definition assert_ok (b : bool) : outcome unit := if b then Ok tt else Panic.

(** Lifts a pure fallible computation into the state monad. *)
Definition lift {S A} (m : outcome A) : M S A := λ s, let? a := m in Ok (a, s).

(** The rules by which a run of a sequence is taken apart. *)
Lemma bind_Ok {S A B} (m : M S A) (k : A → M S B) s a s' :
  m s = Ok (a, s') → bind m k s = k a s'.
Proof. unfold bind. by intros ->. Qed.

Lemma bind_inv {S A B} (m : M S A) (k : A → M S B) s b s'' :
  bind m k s = Ok (b, s'') → ∃ a s', m s = Ok (a, s') ∧ k a s' = Ok (b, s'').
Proof. unfold bind. intros. repeat case_match; simplify_eq; eauto. Qed.

Lemma obind_Ok {A B} (m : outcome A) (k : A → outcome B) a :
  m = Ok a → obind m k = k a.
Proof. by intros ->. Qed.

Lemma obind_inv {A B} (m : outcome A) (k : A → outcome B) b :
  obind m k = Ok b → ∃ a, m = Ok a ∧ k a = Ok b.
Proof. destruct m; cbn; eauto; done. Qed.

(** ** Words in memory

    An array of 32-bit words is its little-endian bytes. *)

Definition words_to_bytes (ws : list Z) : list Z := ws ≫= Z_to_little_endian 4 8.
Fixpoint bytes_to_words (n : nat) (bs : list Z) : list Z :=
  match n with
  | O => []
  | S n => u32 (little_endian_to_Z 8 (take 4 bs)) :: bytes_to_words n (drop 4 bs)
  end.

Lemma length_le4 w : length (Z_to_little_endian 4 8 w) = 4%nat.
Proof. apply Nat2Z.inj. rewrite length_Z_to_little_endian; lia. Qed.

Lemma length_words_to_bytes ws : length (words_to_bytes ws) = (4 * length ws)%nat.
Proof.
  induction ws as [|w ws IH]; [done|]. unfold words_to_bytes in *.
  rewrite bind_cons, length_app, IH, length_le4. cbn [length]. lia.
Qed.

Lemma length_bytes_to_words n bs : length (bytes_to_words n bs) = n.
Proof. revert bs. induction n as [|n IH]; intros bs; cbn; [done|]. by rewrite IH. Qed.

Lemma words_bytes_roundtrip ws :
  Forall (in_u 32) ws → bytes_to_words (length ws) (words_to_bytes ws) = ws.
Proof.
  induction 1 as [|w ws Hw _ IH]; [done|]. unfold words_to_bytes. rewrite bind_cons.
  cbn [length bytes_to_words]. rewrite take_app_length', drop_app_length' by (by rewrite length_le4).
  rewrite little_endian_to_Z_to_little_endian by lia. f_equal; [|done].
  change (2 ^ (4 * 8)) with (2 ^ 32). fold (u32 w).
  by rewrite (uwrap_id 32 w), uwrap_id.
Qed.

Lemma bytes_to_words_u32 n bs : Forall (in_u 32) (bytes_to_words n bs).
Proof. revert bs. induction n; intros bs; cbn; constructor; [|done]. by apply uwrap_range. Qed.

Lemma words_to_bytes_app ws ws' :
  words_to_bytes (ws ++ ws') = words_to_bytes ws ++ words_to_bytes ws'.
Proof. apply bind_app. Qed.

(** ** Buffers

    [splice i data buf] is [memcpy (buf + i, data, ...)]. *)
Definition splice {A} (i : nat) (data buf : list A) : list A :=
  take i buf ++ data ++ drop (i + length data) buf.

Lemma length_splice {A} i (data buf : list A) :
  (i + length data ≤ length buf)%nat → length (splice i data buf) = length buf.
Proof. intros. unfold splice. rewrite !length_app, length_take, length_drop. lia. Qed.

(** The [n] bytes at offset [i], and a copy to offset [i]; outside the object
    they are undefined. *)
Definition slice {A} (buf : list A) (i n : Z) : outcome (list A) :=
  if (0 <=? i) && (0 <=? n) && (i + n <=? Z.of_nat (length buf))
  then Ok (take (Z.to_nat n) (drop (Z.to_nat i) buf)) else Undef.
Definition memcpy_at {A} (buf : list A) (i : Z) (data : list A) : outcome (list A) :=
  if (0 <=? i) && (i + Z.of_nat (length data) <=? Z.of_nat (length buf))
  then Ok (splice (Z.to_nat i) data buf) else Undef.

Lemma slice_ok {A} (buf : list A) i n :
  0 ≤ i → 0 ≤ n → i + n ≤ Z.of_nat (length buf) →
  slice buf i n = Ok (take (Z.to_nat n) (drop (Z.to_nat i) buf)).
Proof. intros. unfold slice. by rewrite !(proj2 (Z.leb_le _ _)) by lia. Qed.

Lemma memcpy_at_ok {A} (buf : list A) i data :
  0 ≤ i → i + Z.of_nat (length data) ≤ Z.of_nat (length buf) →
  memcpy_at buf i data = Ok (splice (Z.to_nat i) data buf).
Proof. intros. unfold memcpy_at. by rewrite !(proj2 (Z.leb_le _ _)) by lia. Qed.

Lemma splice_splice {A} i (d1 d2 buf : list A) :
  (i + length d1 + length d2 ≤ length buf)%nat →
  splice (i + length d1) d2 (splice i d1 buf) = splice i (d1 ++ d2) buf.
Proof.
  intros Hlen. unfold splice. rewrite length_app.
  rewrite take_app_ge, drop_app_ge by (rewrite length_take; lia).
  rewrite length_take_le by lia.
  replace (i + length d1 - i)%nat with (length d1) by lia.
  replace (i + length d1 + length d2 - i)%nat with (length d1 + length d2)%nat by lia.
  rewrite take_app_length, drop_app_add, drop_drop, <-!app_assoc. do 4 f_equal. lia.
Qed.

Lemma splice_nil {A} i (buf : list A) : splice i [] buf = buf.
Proof. unfold splice. cbn. by rewrite Nat.add_0_r, take_drop. Qed.

Lemma splice_full {A} (data buf : list A) : length data = length buf → splice 0 data buf = data.
Proof. intros H. unfold splice. cbn. by rewrite drop_ge, app_nil_r by lia. Qed.

Lemma lookup_splice {A} i (data buf : list A) k :
  (i + length data ≤ length buf)%nat →
  splice i data buf !! k =
    if decide (i ≤ k < i + length data)%nat then data !! (k - i)%nat else buf !! k.
Proof.
  intros. unfold splice. case_decide.
  - rewrite lookup_app_r by (rewrite length_take; lia). rewrite length_take_le by lia.
    by rewrite lookup_app_l by lia.
  - destruct (decide (k < i)%nat).
    + rewrite lookup_app_l by (rewrite length_take; lia). by rewrite lookup_take_lt.
    + rewrite !lookup_app_r; rewrite ?length_take_le; try lia. rewrite lookup_drop. f_equal. lia.
Qed.

(** Arrays of equal blocks, laid out one after the other. *)
Section Blocks.
Context {A : Type} (b : nat).
Implicit Types (bs : list (list A)) (x : list A).

Lemma lookup_concat bs i o :
  Forall (λ x, length x = b) bs → (o < b)%nat →
  concat bs !! (b * i + o)%nat = bs !! i ≫= (.!! o).
Proof.
  intros H Ho. revert i. induction H as [|x bs Hx _ IH]; intros i; [done|].
  destruct i as [|i]; cbn.
  - rewrite lookup_app_l by lia. f_equal. lia.
  - rewrite lookup_app_r by lia. rewrite <-IH. f_equal. lia.
Qed.

Lemma length_concat_blocks bs :
  Forall (λ x, length x = b) bs → length (concat bs) = (b * length bs)%nat.
Proof. induction 1; cbn; [lia|]. rewrite length_app. lia. Qed.

Lemma slice_concat bs i o c x :
  Forall (λ x, length x = b) bs → bs !! i = Some x → (o + c ≤ b)%nat →
  take c (drop o x) = take c (drop (b * i + o) (concat bs)).
Proof.
  intros H Hx Hc. apply list_eq. intros k. destruct (decide (k < c)%nat).
  - rewrite !lookup_take_lt, !lookup_drop by lia.
    replace (b * i + o + k)%nat with (b * i + (o + k))%nat by lia.
    rewrite lookup_concat by (done || lia). by rewrite Hx.
  - by rewrite !lookup_take_ge by lia.
Qed.

Lemma splice_concat bs i o data x :
  Forall (λ x, length x = b) bs → bs !! i = Some x → (o + length data ≤ b)%nat → (0 < b)%nat →
  concat (<[i := splice o data x]> bs) = splice (b * i + o) data (concat bs).
Proof.
  intros H Hx Hc Hb. assert (length x = b) as Hlx by (by eapply Forall_lookup_1 in H).
  assert (i < length bs)%nat as Hi by (by eapply lookup_lt_Some).
  assert (Forall (λ x, length x = b) (<[i := splice o data x]> bs)) as H'.
  { apply Forall_insert; [done|]. by rewrite length_splice; lia. }
  apply list_eq. intros k. rewrite lookup_splice.
  2:{ rewrite length_concat_blocks by done. nia. }
  rewrite (Nat.div_mod_eq k b). pose proof (Nat.mod_upper_bound k b ltac:(lia)).
  set (q := (k / b)%nat) in *. set (r := (k mod b)%nat) in *.
  rewrite !lookup_concat by (done || lia). destruct (decide (q = i)) as [->|Hq].
  - rewrite list_lookup_insert_eq, Hx by done. cbn. rewrite lookup_splice by lia.
    repeat case_decide; try lia; [|done]. f_equal. lia.
  - rewrite list_lookup_insert_ne by done. case_decide; [|done]. nia.
Qed.
End Blocks.

Lemma take_splice {A} n i (data buf : list A) :
  (i + length data ≤ n)%nat → (n ≤ length buf)%nat →
  take n (splice i data buf) = splice i data (take n buf).
Proof.
  intros. apply list_eq. intros k. destruct (decide (k < n)%nat).
  - rewrite lookup_take_lt, !lookup_splice by (rewrite ?length_take; lia).
    case_decide; [done|]. by rewrite lookup_take_lt.
  - rewrite lookup_take_ge by lia. rewrite lookup_ge_None_2; [done|].
    rewrite length_splice; rewrite length_take; lia.
Qed.

Lemma insert_splice {A} i (x : A) (buf : list A) :
  (i < length buf)%nat → <[i := x]> buf = splice i [x] buf.
Proof.
  intros H. apply list_eq. intros k. rewrite lookup_splice by (cbn; lia). cbn [length].
  destruct (decide (k = i)) as [->|].
  - rewrite list_lookup_insert_eq, decide_True by lia. by rewrite Nat.sub_diag.
  - rewrite list_lookup_insert_ne, decide_False by lia. done.
Qed.

Lemma take_splice_end {A} i (data buf : list A) :
  (i + length data ≤ length buf)%nat → take (i + length data) (splice i data buf) = take i buf ++ data.
Proof.
  intros. unfold splice. rewrite take_app_ge by (rewrite length_take; lia).
  rewrite length_take_le by lia. replace (i + length data - i)%nat with (length data) by lia.
  by rewrite take_app_length.
Qed.

Lemma drop_splice_after {A} n i (data buf : list A) :
  (i + length data ≤ n)%nat → (i ≤ length buf)%nat → drop n (splice i data buf) = drop n buf.
Proof.
  intros. unfold splice. rewrite drop_app_ge by (rewrite length_take; lia).
  rewrite length_take_le by lia. rewrite drop_app_ge by lia. rewrite drop_drop. f_equal. lia.
Qed.

Lemma slice_splice {A} i (data buf : list A) :
  (i ≤ length buf)%nat → take (length data) (drop i (splice i data buf)) = data.
Proof.
  intros. unfold splice. rewrite drop_app_length' by (by rewrite length_take_le). apply take_app_length.
Qed.

(** ** Filtering out one element *)

Lemma filter_ne_id (e : Z) (xs : list Z) : e ∉ xs → filter (λ x, x ≠ e) xs = xs.
Proof.
  induction xs as [|x xs IH]; intros He; [done|].
  rewrite filter_cons_True by set_solver. rewrite IH; set_solver.
Qed.

Lemma length_filter_ne (e : Z) (xs : list Z) :
  NoDup xs → (length xs ≤ S (length (filter (λ x, x ≠ e) xs)))%nat.
Proof.
  induction 1 as [|x xs Hx Hd IH]; [simpl; lia|].
  destruct (decide (x = e)) as [->|Hne].
  - rewrite filter_cons_False by naive_solver. rewrite filter_ne_id by done. simpl. lia.
  - rewrite filter_cons_True by done. simpl. lia.
Qed.

Lemma filter_none {X} (P : X → Prop) `{!∀ x, Decision (P x)} (l : list X) :
  (∀ x, x ∈ l → ¬ P x) → filter P l = [].
Proof.
  induction l as [|x l IH]; intros Hn; [done|]. rewrite filter_cons_False by (apply Hn; constructor).
  apply IH. intros y Hy. apply Hn. by constructor.
Qed.

Lemma filter_all {X} (P : X → Prop) `{!∀ x, Decision (P x)} (l : list X) :
  (∀ x, x ∈ l → P x) → filter P l = l.
Proof.
  induction l as [|x l IH]; intros Hn; [done|]. rewrite filter_cons_True by (apply Hn; constructor).
  f_equal. apply IH. intros y Hy. apply Hn. by constructor.
Qed.

(** Case analysis on a lookup in a map given by its entries. *)
Ltac lookups :=
  repeat match goal with
  | H : {[ _ := _ ]} !! _ = Some _ |- _ => apply lookup_singleton_Some in H as [<- <-]
  | H : <[_ := _]> _ !! _ = Some _ |- _ => apply lookup_insert_Some in H as [[<- <-]|[_ H]]
  end.
