(* ===== verification/Arith64.v ===== *)
(** * 64-bit division (lib/arithmetic.c)

    The routines GCC calls for [long long] division on a 32-bit x86: the
    [DIVL] instruction, the leading-zero count, the unsigned and signed
    divisions built on them, and the entry points.  Every arithmetic step is
    kept at its C width; a hardware divide error is [Panic]. *)

From S2P Require Import Prelude.

(** [asm ("divl")]: divides the 64-bit [n] by the 32-bit [d]; #DE when [d] is
    zero or the quotient does not fit in 32 bits. *)
Definition divl (n d : Z) : outcome Z :=
  if (d =? 0) || (2 ^ 32 <=? n / d) then Panic else Ok (n / d).

Definition nlz (x : Z) : Z :=
  let n := 0 in
  let '(n, x) := if x <=? 0x0000FFFF then (n + 16, u32 (Z.shiftl x 16)) else (n, x) in
  let '(n, x) := if x <=? 0x00FFFFFF then (n + 8, u32 (Z.shiftl x 8)) else (n, x) in
  let '(n, x) := if x <=? 0x0FFFFFFF then (n + 4, u32 (Z.shiftl x 4)) else (n, x) in
  let '(n, x) := if x <=? 0x3FFFFFFF then (n + 2, u32 (Z.shiftl x 2)) else (n, x) in
  if x <=? 0x7FFFFFFF then n + 1 else n.

Definition udiv64 (n d : Z) : outcome Z :=
  if Z.shiftr d 32 =? 0 then
    let b := u64 (Z.shiftl 1 32) in
    let n1 := u32 (Z.shiftr n 32) in
    let n0 := u32 n in
    let d0 := u32 d in
    if d0 =? 0 then Panic else
    let? q := divl (u64 (u64 (b * (n1 `mod` d0)) + n0)) d0 in
    Ok (u64 (q + u64 (b * (n1 / d0))))
  else if n <? d then Ok 0
  else
    let d1 := u32 (Z.shiftr d 32) in
    let s := nlz d1 in
    let? q := divl (Z.shiftr n 1) (u32 (Z.shiftr (u64 (Z.shiftl d s)) 32)) in
    let q := Z.shiftr q (31 - s) in
    Ok (if u64 (n - u64 (u64 (q - 1) * d)) <? d then u64 (q - 1) else q).

Definition umod64 (n d : Z) : outcome Z :=
  let? q := udiv64 n d in Ok (u32 (u64 (n - u64 (d * q)))).

Definition sdiv64 (n d : Z) : outcome Z :=
  let n_abs := if 0 <=? n then u64 n else u64 (- u64 n) in
  let d_abs := if 0 <=? d then u64 d else u64 (- u64 d) in
  let? q_abs := udiv64 n_abs d_abs in
  Ok (if Bool.eqb (n <? 0) (d <? 0) then s64 q_abs else s64 (- s64 q_abs)).

Definition smod64 (n d : Z) : outcome Z :=
  let? q := sdiv64 n d in Ok (s32 (s64 (n - s64 (d * q)))).

Definition __divdi3 (n d : Z) : outcome Z := sdiv64 n d.
Definition __moddi3 (n d : Z) : outcome Z := smod64 n d.
Definition __udivdi3 (n d : Z) : outcome Z := udiv64 n d.
Definition __umoddi3 (n d : Z) : outcome Z := umod64 n d.

(** ** Leading zeros *)

(** One step of the binary search of [nlz]: shifting left by [k] when the top
    [k] bits are clear. *)
Lemma nlz_step k x :
  0 < k < 32 → 0 < x → x * 2 ^ k < 2 ^ 32 → u32 (Z.shiftl x k) = x * 2 ^ k.
Proof.
  intros. rewrite Z.shiftl_mul_pow2 by lia. apply uwrap_id. unfold in_u. nia.
Qed.

(** [nlz x] is the shift that normalises [x]. *)
Lemma nlz_spec x :
  0 < x < 2 ^ 32 → 0 ≤ nlz x ≤ 31 ∧ 2 ^ 31 ≤ x * 2 ^ nlz x < 2 ^ 32.
Proof.
  intros Hx. unfold nlz.
  repeat match goal with
  | |- context [ u32 (Z.shiftl ?y ?k) ] =>
      rewrite (nlz_step k y ltac:(lia) ltac:(lia) ltac:(lia))
  | |- context [ ?y <=? ?c ] => destruct (Z.leb_spec y c)
  end; eval_pow2; lia.
Qed.

(** ** Unsigned division *)

Lemma divl_ok n d : 0 < d → 0 ≤ n < d * 2 ^ 32 → divl n d = Ok (n / d).
Proof.
  intros Hd Hn. unfold divl.
  rewrite (proj2 (Z.eqb_neq d 0)) by lia.
  rewrite (proj2 (Z.leb_gt _ _)); [done|]. apply Z.div_lt_upper_bound; lia.
Qed.

Lemma udiv64_small_divisor n d :
  in_u 64 n → 0 < d < 2 ^ 32 → udiv64 n d = Ok (n / d).
Proof.
  unfold in_u. intros Hn Hd. unfold udiv64.
  rewrite Z.shiftr_div_pow2, (Z.div_small d) by lia. simpl.
  rewrite !Z.shiftr_div_pow2, (uwrap_id 32 d) by (unfold in_u; lia).
  rewrite (proj2 (Z.eqb_neq d 0)) by lia.
  change (u64 (Z.shiftl 1 32)) with (2 ^ 32).
  assert (0 ≤ n / 2 ^ 32 < 2 ^ 32) by (split; [apply Z.div_pos | apply Z.div_lt_upper_bound]; lia).
  rewrite (uwrap_id 32 (n / 2 ^ 32)) by (unfold in_u; lia).
  pose proof (Z.div_mod n (2 ^ 32) ltac:(lia)) as En.
  pose proof (Z.mod_pos_bound n (2 ^ 32) ltac:(lia)).
  change (u32 n) with (n `mod` 2 ^ 32).
  set (n1 := n / 2 ^ 32) in *. set (n0 := n `mod` 2 ^ 32) in *.
  pose proof (Z.div_mod n1 d ltac:(lia)) as En1.
  pose proof (Z.mod_pos_bound n1 d ltac:(lia)).
  assert (0 ≤ n1 / d < 2 ^ 32) by (split; [apply Z.div_pos | apply Z.div_lt_upper_bound]; nia).
  rewrite !(uwrap_id 64 (2 ^ 32 * _)) by (unfold in_u; nia).
  rewrite (uwrap_id 64 (_ + n0)) by (unfold in_u; nia).
  rewrite divl_ok by nia. cbn [obind].
  replace (n / d) with ((2 ^ 32 * (n1 `mod` d) + n0) / d + 2 ^ 32 * (n1 / d)).
  - f_equal. apply uwrap_id. unfold in_u. split; [apply Z.add_nonneg_nonneg; [apply Z.div_pos|]; nia|].
    assert ((2 ^ 32 * (n1 `mod` d) + n0) / d < 2 ^ 32) by (apply Z.div_lt_upper_bound; nia).
    nia.
  - rewrite <-Z.div_add by lia. f_equal. nia.
Qed.

(** The quotient estimate of the large-divisor branch is exact or one too
    large.  [P] is the weight of the low bits of [d] that the normalised
    32-bit divisor [d'] drops. *)
Lemma quotient_estimate n d d' P :
  2 ≤ P → 2 ^ 31 ≤ d' → d' * P ≤ d < d' * P + P → 0 ≤ n < 2 ^ 64 →
  n / d ≤ n / (d' * P) ≤ n / d + 1.
Proof.
  intros HP Hd' Hd Hn. set (D := d' * P) in *.
  assert (2 ^ 31 * P ≤ D) by nia.
  split; [apply Z.div_le_compat_l; lia|].
  assert (n * (d - D) < d * D) as Hgap.
  { assert (n * (d - D) ≤ n * (P - 1)) by nia.
    assert (n * (P - 1) ≤ (2 ^ 64 - 1) * (P - 1)) by nia.
    assert (2 ^ 62 * (P * P) ≤ D * D) by nia.
    assert (2 ^ 64 * (P - 1) ≤ 2 ^ 62 * (P * P)) by nia.
    nia. }
  set (k := n / D).
  assert (k * D ≤ n) by (subst k; rewrite Z.mul_comm; apply Z.mul_div_le; lia).
  assert (k * D * d ≤ n * d) by nia.
  assert (k * d < n + d) by nia.
  assert (k - 1 ≤ n / d); [|lia].
  apply Z.div_le_lower_bound; lia.
Qed.

(** The correction step turns the estimate into the quotient. *)
Lemma quotient_correction n d q :
  0 < d ≤ n → n < 2 ^ 64 → n / d ≤ q ≤ n / d + 1 →
  (if u64 (n - u64 (u64 (q - 1) * d)) <? d then u64 (q - 1) else q) = n / d.
Proof.
  intros Hd Hn Hq.
  pose proof (Z.div_mod n d ltac:(lia)) as En.
  pose proof (Z.mod_pos_bound n d ltac:(lia)).
  assert (1 ≤ n / d) by (apply Z.div_le_lower_bound; lia).
  assert (n / d ≤ n) by (apply Z.div_le_upper_bound; nia).
  rewrite (uwrap_id 64 (q - 1)) by (unfold in_u; lia).
  assert (0 ≤ (q - 1) * d ≤ n) by nia.
  rewrite (uwrap_id 64 ((q - 1) * d)) by (unfold in_u; lia).
  rewrite (uwrap_id 64) by (unfold in_u; lia).
  assert (q = n / d ∨ q = n / d + 1) as [->| ->] by lia.
  - rewrite (proj2 (Z.ltb_ge _ _)); [done|lia].
  - rewrite (proj2 (Z.ltb_lt _ _)); lia.
Qed.

(** The normalised divisor: [d] shifted so that its top bit is bit 63, upper
    half. *)
Lemma normalised_divisor d (s := nlz (d / 2 ^ 32)) (d' := u64 (Z.shiftl d s) / 2 ^ 32) :
  2 ^ 32 ≤ d < 2 ^ 64 →
  0 ≤ s ≤ 31 ∧ 2 ^ 31 ≤ d' < 2 ^ 32 ∧
  d' * 2 ^ (32 - s) ≤ d < d' * 2 ^ (32 - s) + 2 ^ (32 - s).
Proof.
  intros Hd.
  assert (0 < d / 2 ^ 32 < 2 ^ 32) as Hd1.
  { split; [|apply Z.div_lt_upper_bound; lia].
    pose proof (Z.div_le_lower_bound d (2 ^ 32) 1 ltac:(lia) ltac:(lia)). lia. }
  destruct (nlz_spec _ Hd1) as [Hs Hx]. fold s in Hs, Hx.
  pose proof (Z.div_mod d (2 ^ 32) ltac:(lia)).
  pose proof (Z.mod_pos_bound d (2 ^ 32) ltac:(lia)).
  assert (0 < 2 ^ s) by lia.
  assert (2 ^ 32 = 2 ^ (32 - s) * 2 ^ s) as E32 by (rewrite <-Z.pow_add_r by lia; f_equal; lia).
  assert (d / 2 ^ 32 + 1 ≤ 2 ^ (32 - s)) by nia.
  assert (2 ^ 63 ≤ d * 2 ^ s < 2 ^ 64) by (change (2 ^ 64) with (2 ^ 32 * 2 ^ 32); nia).
  assert (d' = d * 2 ^ s / 2 ^ 32) as Ed'.
  { subst d'. rewrite Z.shiftl_mul_pow2 by lia. by rewrite uwrap_id by (unfold in_u; lia). }
  assert (d' = d / 2 ^ (32 - s)) as Ed''.
  { rewrite Ed', E32, Z.div_mul_cancel_r by lia. done. }
  split; [done|]. split.
  - rewrite Ed'. split; [apply Z.div_le_lower_bound | apply Z.div_lt_upper_bound]; lia.
  - pose proof (Z.div_mod d (2 ^ (32 - s)) ltac:(lia)).
    pose proof (Z.mod_pos_bound d (2 ^ (32 - s)) ltac:(lia)). lia.
Qed.

Lemma udiv64_large_divisor n d :
  in_u 64 n → 2 ^ 32 ≤ d < 2 ^ 64 → udiv64 n d = Ok (n / d).
Proof.
  unfold in_u. intros Hn Hd. unfold udiv64.
  rewrite !(Z.shiftr_div_pow2 _ 32), Z.shiftr_div_pow2 by lia.
  assert (1 ≤ d / 2 ^ 32) by (apply Z.div_le_lower_bound; lia).
  assert (d / 2 ^ 32 < 2 ^ 32) by (apply Z.div_lt_upper_bound; lia).
  rewrite (proj2 (Z.eqb_neq _ _)) by lia.
  destruct (Z.ltb_spec n d); [by rewrite Z.div_small by lia|].
  rewrite (uwrap_id 32 (d / 2 ^ 32)) by (unfold in_u; lia).
  destruct (normalised_divisor d Hd) as (Hs & Hd' & HD).
  set (s := nlz (d / 2 ^ 32)) in *. set (d' := u64 (Z.shiftl d s) / 2 ^ 32) in *.
  rewrite (uwrap_id 32 d') by (unfold in_u; lia).
  assert (0 ≤ n / 2 ^ 1 < 2 ^ 63) by (split; [apply Z.div_pos | apply Z.div_lt_upper_bound]; lia).
  rewrite divl_ok by nia. cbn [obind].
  f_equal. apply quotient_correction; [lia..|].
  rewrite Z.shiftr_div_pow2, Z.div_div, Z.div_div by lia.
  replace (2 ^ 1 * (d' * 2 ^ (31 - s))) with (d' * 2 ^ (32 - s)).
  - apply quotient_estimate; [|lia..].
    replace (32 - s) with (Z.succ (31 - s)) by lia. rewrite Z.pow_succ_r; lia.
  - replace (32 - s) with (Z.succ (31 - s)) by lia. rewrite Z.pow_succ_r; lia.
Qed.

Lemma udiv64_correct n d : in_u 64 n → 0 < d < 2 ^ 64 → udiv64 n d = Ok (n / d).
Proof.
  intros Hn Hd. destruct (decide (d < 2 ^ 32)).
  - apply udiv64_small_divisor; [done|lia].
  - apply udiv64_large_divisor; [done|lia].
Qed.

(** ** Signed division *)

Lemma u64_abs x : in_s 64 x → (if 0 <=? x then u64 x else u64 (- u64 x)) = Z.abs x.
Proof.
  unfold in_s. change (64 - 1) with 63. intros Hx. destruct (Z.leb_spec 0 x).
  - rewrite uwrap_id by (unfold in_u; lia). lia.
  - assert (u64 x = x + 2 ^ 64) as ->.
    { unfold uwrap. rewrite <-(Z.mod_add x 1) by lia. rewrite Z.mod_small; lia. }
    unfold uwrap. rewrite <-(Z.mod_add _ 1) by lia. rewrite Z.mod_small; lia.
Qed.

Lemma swrap_opp_swrap w x : 1 ≤ w → swrap w (- swrap w x) = swrap w (- x).
Proof.
  intros. unfold swrap. f_equal.
  replace (- ((x + 2 ^ (w - 1)) `mod` 2 ^ w - 2 ^ (w - 1)) + 2 ^ (w - 1))
    with (2 * 2 ^ (w - 1) - (x + 2 ^ (w - 1)) `mod` 2 ^ w) by lia.
  rewrite Zminus_mod_idemp_r. f_equal. lia.
Qed.

Lemma sdiv64_correct n d :
  in_s 64 n → in_s 64 d → d ≠ 0 → sdiv64 n d = Ok (s64 (Z.quot n d)).
Proof.
  intros Hn Hd Hd0. unfold sdiv64. rewrite !u64_abs by done.
  unfold in_s in *. change (64 - 1) with 63 in *.
  rewrite udiv64_correct by (unfold in_u; lia). cbn [obind].
  rewrite swrap_opp_swrap by lia. rewrite <-Z.quot_div_nonneg by lia.
  destruct (Z.ltb_spec n 0), (Z.ltb_spec d 0); simpl;
    rewrite ?(Z.abs_neq n), ?(Z.abs_neq d), ?(Z.abs_eq n), ?(Z.abs_eq d) by lia;
    rewrite ?Z.quot_opp_opp, ?Z.quot_opp_l, ?Z.quot_opp_r, ?Z.opp_involutive by lia; done.
Qed.

(** ** The entry points *)

(** C35. [__udivdi3] never traps for a nonzero divisor and returns the exact
    64-bit quotient, on both the 32-bit-divisor and the normalised branch. *)
Theorem udivdi3_correct (n d : Z) :
  in_u 64 n → in_u 64 d → d ≠ 0 → __udivdi3 n d = Ok (n / d).
Proof. intros Hn Hd ?. apply udiv64_correct; unfold in_u in *; [done|lia]. Qed.

Lemma udivdi3_correct_witness :
  __udivdi3 (2 ^ 64 - 1) (2 ^ 32 + 1) = Ok ((2 ^ 64 - 1) / (2 ^ 32 + 1)).
Proof. apply udivdi3_correct; [split; lia | split; lia | lia]. Defined.

(** [__divdi3] is C's truncating division, wrapped to 64 bits (the wrap
    only shows for INT64_MIN / -1). *)
Theorem divdi3_correct (n d : Z) :
  in_s 64 n → in_s 64 d → d ≠ 0 → __divdi3 n d = Ok (s64 (Z.quot n d)).
Proof. apply sdiv64_correct. Qed.

Lemma divdi3_correct_witness :
  __divdi3 (- 7) 2 = Ok (s64 (Z.quot (- 7) 2)).
Proof. apply divdi3_correct; [split; lia | split; lia | lia]. Defined.

(** [umod64] returns [uint32_t], so [__umoddi3] computes the remainder
    exactly when it fits in 32 bits and truncates it otherwise. *)
Theorem umoddi3_exact_iff (n d : Z) :
  in_u 64 n → in_u 64 d → d ≠ 0 →
  __umoddi3 n d = Ok (u32 (n `mod` d)) ∧
  (__umoddi3 n d = Ok (n `mod` d) ↔ n `mod` d < 2 ^ 32).
Proof.
  intros Hn Hd Hd0. unfold in_u in *.
  assert (__umoddi3 n d = Ok (u32 (n `mod` d))) as ->.
  { unfold __umoddi3, umod64. rewrite udiv64_correct by (unfold in_u; lia).
    cbn [obind]. do 2 f_equal.
    pose proof (Z.div_mod n d ltac:(lia)). pose proof (Z.mod_pos_bound n d ltac:(lia)).
    assert (0 ≤ n / d) by (apply Z.div_pos; lia).
    rewrite (uwrap_id 64 (d * (n / d))) by (unfold in_u; nia).
    rewrite uwrap_id; [lia|]. unfold in_u; nia. }
  split; [done|]. pose proof (Z.mod_pos_bound n d ltac:(lia)). split.
  - intros [= E]. rewrite <-E. by apply uwrap_range.
  - intros ?. by rewrite uwrap_id by (unfold in_u; lia).
Qed.

Lemma umoddi3_exact_iff_witness :
  __umoddi3 (2 ^ 40 + 2 ^ 33) (2 ^ 40) = Ok (u32 ((2 ^ 40 + 2 ^ 33) `mod` 2 ^ 40)) ∧
  (__umoddi3 (2 ^ 40 + 2 ^ 33) (2 ^ 40) = Ok ((2 ^ 40 + 2 ^ 33) `mod` 2 ^ 40)
   ↔ (2 ^ 40 + 2 ^ 33) `mod` 2 ^ 40 < 2 ^ 32).
Proof. apply umoddi3_exact_iff; [split; lia | split; lia | lia]. Defined.
