(* ===== verification/FixedPoint.v ===== *)
(** * Fixed point arithmetic (threads/fixed-point.h)

    [fixed_point_t] is a struct around a 32-bit [int]; each operation is one C
    expression, evaluated at [int] or [long long] width as the casts say. *)

From S2P Require Import Prelude.

Definition FIX_P : Z := 16.
Definition FIX_Q : Z := 16.
Definition FIX_F : Z := Z.shiftl 1 FIX_Q.
Definition FIX_MAX_INT : Z := Z.shiftl 1 FIX_P - 1.
Definition FIX_MIN_INT : Z := - FIX_MAX_INT.

Record fixed_point_t := mk_fixed { f : Z }.

(** The conversion of the argument to [int] is where results wrap. *)
Definition __mk_fix (v : Z) : fixed_point_t := mk_fixed (s32 v).

Definition fix_int (n : Z) : outcome fixed_point_t :=
  if (FIX_MIN_INT <=? n) && (n <=? FIX_MAX_INT) then Ok (__mk_fix (s32 (n * FIX_F))) else Panic.

Definition fix_frac (n d : Z) : outcome fixed_point_t :=
  if d =? 0 then Panic
  else if (FIX_MIN_INT <=? s32 (Z.quot n d)) && (s32 (Z.quot n d) <=? FIX_MAX_INT)
  then Ok (__mk_fix (s64 (Z.quot (s64 (n * FIX_F)) d)))
  else Panic.

Definition fix_round (x : fixed_point_t) : Z := Z.quot (s32 (f x + Z.quot FIX_F 2)) FIX_F.

Definition fix_trunc (x : fixed_point_t) : Z := Z.quot (f x) FIX_F.

Definition fix_add (x y : fixed_point_t) : fixed_point_t := __mk_fix (s32 (f x + f y)).

Definition fix_sub (x y : fixed_point_t) : fixed_point_t := __mk_fix (s32 (f x - f y)).

Definition fix_mul (x y : fixed_point_t) : fixed_point_t :=
  __mk_fix (s64 (Z.quot (s64 (f x * f y)) FIX_F)).

Definition fix_scale (x : fixed_point_t) (n : Z) : outcome fixed_point_t :=
  if 0 <=? n then Ok (__mk_fix (s32 (f x * n))) else Panic.

(** The 64-bit division traps on a zero divisor. *)
Definition fix_div (x y : fixed_point_t) : outcome fixed_point_t :=
  if f y =? 0 then Panic
  else Ok (__mk_fix (s64 (Z.quot (s64 (f x * FIX_F)) (f y)))).

Definition fix_unscale (x : fixed_point_t) (n : Z) : outcome fixed_point_t :=
  if 0 <? n then Ok (__mk_fix (Z.quot (f x) n)) else Panic.

Definition fix_inv (x : fixed_point_t) : outcome fixed_point_t :=
  let? one := fix_int 1 in fix_div one x.

Definition fix_compare (x y : fixed_point_t) : Z :=
  if f x <? f y then -1 else if f y <? f x then 1 else 0.

Lemma FIX_F_eq : FIX_F = 65536.
Proof. done. Qed.

Lemma fix_int_ok n : Z.abs n ≤ 65535 → fix_int n = Ok (mk_fixed (s32 (n * FIX_F))).
Proof.
  intros Hn. unfold fix_int.
  change FIX_MIN_INT with (- 65535). change FIX_MAX_INT with 65535.
  rewrite !(proj2 (Z.leb_le _ _)) by lia. simpl. unfold __mk_fix.
  do 2 f_equal. apply swrap_id; [lia|]. apply swrap_range; lia.
Qed.

Lemma s32_add_period k x : s32 (x + k * 2 ^ 32) = s32 x.
Proof.
  unfold swrap. f_equal.
  replace (x + k * 2 ^ 32 + 2 ^ (32 - 1)) with (x + 2 ^ (32 - 1) + k * 2 ^ 32) by lia.
  by rewrite Z.mod_add by lia.
Qed.

(** Rounding a nonnegative number is floor division after adding a half; on a
    negative one the division truncates towards zero instead. *)
Lemma fix_round_nonneg v :
  0 ≤ v < 2 ^ 31 - 32768 → fix_round (mk_fixed v) = (v + 32768) / 65536.
Proof.
  intros. unfold fix_round. rewrite FIX_F_eq. change (Z.quot 65536 2) with 32768. cbn [f].
  rewrite swrap_id by (unfold in_s; lia). apply Z.quot_div_nonneg; lia.
Qed.

Lemma fix_round_neg v :
  - 2 ^ 31 ≤ v ≤ - 32768 → fix_round (mk_fixed v) = - ((- v - 32768) / 65536).
Proof.
  intros. unfold fix_round. rewrite FIX_F_eq. change (Z.quot 65536 2) with 32768. cbn [f].
  rewrite swrap_id by (unfold in_s; lia).
  replace (v + 32768) with (- (- v - 32768)) by lia.
  rewrite Z.quot_opp_l by lia. f_equal. apply Z.quot_div_nonneg; lia.
Qed.

(** [fix_int] followed by [fix_trunc] gives back every integer of 15 bits
    and sign; the integers between that and [FIX_MAX_INT], which the assertion
    of [fix_int] accepts, wrap around to the opposite sign. *)
Theorem fix_int_trunc (n : Z) :
  Z.abs n ≤ FIX_MAX_INT →
  ∃ x, fix_int n = Ok x ∧
    (- 32768 ≤ n ≤ 32767 → fix_trunc x = n) ∧
    (32768 ≤ n → fix_trunc x = n - 65536) ∧
    (n ≤ - 32769 → fix_trunc x = n + 65536).
Proof.
  intros Hn. change FIX_MAX_INT with 65535 in Hn.
  rewrite fix_int_ok by lia. eexists; split; [done|].
  unfold fix_trunc. rewrite FIX_F_eq. cbn [f]. split; [|split]; intros Hr.
  - rewrite swrap_id by (unfold in_s; lia). by apply Z.quot_mul.
  - rewrite <-(s32_add_period (-1)), swrap_id by (unfold in_s; lia).
    replace (n * 65536 + -1 * 2 ^ 32) with ((n - 65536) * 65536) by lia. by apply Z.quot_mul.
  - rewrite <-(s32_add_period 1), swrap_id by (unfold in_s; lia).
    replace (n * 65536 + 1 * 2 ^ 32) with ((n + 65536) * 65536) by lia. by apply Z.quot_mul.
Qed.

Lemma fix_int_trunc_witness :
  ∃ x, fix_int 40000 = Ok x ∧
    (- 32768 ≤ 40000 ≤ 32767 → fix_trunc x = 40000) ∧
    (32768 ≤ 40000 → fix_trunc x = 40000 - 65536) ∧
    (40000 ≤ - 32769 → fix_trunc x = 40000 + 65536).
Proof. apply (fix_int_trunc 40000). vm_compute. discriminate. Defined.

(** [fix_round] is within half a unit of its argument for nonnegative
    numbers, but every negative integer it is given comes back one too large:
    the division truncates towards zero after the half has been added. *)
Theorem fix_round_error (v : Z) :
  (0 ≤ v < 2 ^ 31 - 32768 → Z.abs (65536 * fix_round (mk_fixed v) - v) ≤ 32768) ∧
  (∀ n, - 32768 ≤ n < 0 → fix_round (mk_fixed (n * FIX_F)) = n + 1).
Proof.
  split.
  - intros Hv. rewrite fix_round_nonneg by lia.
    pose proof (Z.div_mod (v + 32768) 65536 ltac:(lia)).
    pose proof (Z.mod_pos_bound (v + 32768) 65536 ltac:(lia)). lia.
  - intros n Hn. rewrite FIX_F_eq, fix_round_neg by lia.
    replace (- (n * 65536) - 32768) with ((- n - 1) * 65536 + 32768) by lia.
    rewrite Z.div_add_l by lia. change (32768 / 65536) with 0. lia.
Qed.

(** [fix_mul] is exact up to less than one unit in the last place,
    truncating towards zero, whenever the product is representable. *)
Theorem fix_mul_error (x y : fixed_point_t) :
  in_s 32 (f x) → in_s 32 (f y) → in_s 32 (Z.quot (f x * f y) FIX_F) →
  Z.abs (f x * f y - FIX_F * f (fix_mul x y)) < FIX_F ∧
  Z.abs (FIX_F * f (fix_mul x y)) ≤ Z.abs (f x * f y).
Proof.
  intros Hx Hy Hxy. unfold fix_mul, __mk_fix. cbn [f].
  rewrite (swrap_id 64 (f x * f y)) by (unfold in_s in *; nia).
  rewrite (swrap_id 64) by (unfold in_s in *; lia).
  rewrite swrap_id by (done || lia). rewrite FIX_F_eq.
  set (p := f x * f y). pose proof (Z.quot_rem p 65536 ltac:(lia)).
  pose proof (Z.rem_bound_abs p 65536 ltac:(lia)).
  split; [lia|]. rewrite Z.abs_mul, <-Z.quot_abs by lia.
  pose proof (Z.mul_quot_le (Z.abs p) 65536 ltac:(lia) ltac:(lia)). change (Z.abs 65536) with 65536. lia.
Qed.

Lemma fix_mul_error_witness :
  Z.abs (98304 * 163840 - FIX_F * f (fix_mul (mk_fixed 98304) (mk_fixed 163840))) < FIX_F ∧
  Z.abs (FIX_F * f (fix_mul (mk_fixed 98304) (mk_fixed 163840))) ≤ Z.abs (98304 * 163840).
Proof.
  apply (fix_mul_error (mk_fixed 98304) (mk_fixed 163840));
    vm_compute; split; (discriminate || reflexivity).
Defined.
