(* ===== verification/Bitmap.v ===== *)
(** * Bitmaps (lib/kernel/bitmap.c)

    A bitmap is an array of 32-bit elements; from the outside it is an array
    of [bit_cnt] bits.  The operations below are the C ones on the element
    array; [bit] is the view from outside and the lemmas state each operation
    in terms of it. *)

From S2P Require Import Prelude.

Definition ELEM_BITS : Z := 4 * 8.

Record bitmap := mk_bitmap { bit_cnt : Z; bits : list Z }.

(** [BITMAP_ERROR], that is [SIZE_MAX]. *)
Definition BITMAP_ERROR : Z := 2 ^ 32 - 1.

Definition elem_idx (bit_idx : Z) : Z := bit_idx / ELEM_BITS.
Definition bit_mask (bit_idx : Z) : Z := u32 (Z.shiftl 1 (bit_idx `mod` ELEM_BITS)).
Definition elem_cnt (bit_cnt : Z) : Z := u32 (u32 (bit_cnt + ELEM_BITS) - 1) / ELEM_BITS.
Definition byte_cnt (bit_cnt : Z) : Z := u32 (4 * elem_cnt bit_cnt).
Definition last_mask (b : bitmap) : Z :=
  let last_bits := bit_cnt b `mod` ELEM_BITS in
  if last_bits =? 0 then 2 ^ 32 - 1 else u32 (u32 (Z.shiftl 1 last_bits) - 1).

Definition bitmap_size (b : bitmap) : Z := bit_cnt b.

(** [b->bits[i]], read and replaced; outside the array nothing is defined. *)
Definition elem_get (b : bitmap) (i : Z) : outcome Z :=
  match bits b !! Z.to_nat i with Some e => Ok e | None => Undef end.
Definition elem_update (g : Z → Z) (b : bitmap) (i : Z) : outcome bitmap :=
  let? e := elem_get b i in Ok (mk_bitmap (bit_cnt b) (<[Z.to_nat i := g e]> (bits b))).

Definition bitmap_mark (b : bitmap) (bit_idx : Z) : outcome bitmap :=
  elem_update (λ e, Z.lor e (bit_mask bit_idx)) b (elem_idx bit_idx).

(** [~mask] of a 32-bit mask. *)
Definition bitmap_reset (b : bitmap) (bit_idx : Z) : outcome bitmap :=
  elem_update (λ e, Z.land e (2 ^ 32 - 1 - bit_mask bit_idx)) b (elem_idx bit_idx).

Definition bitmap_flip (b : bitmap) (bit_idx : Z) : outcome bitmap :=
  elem_update (λ e, Z.lxor e (bit_mask bit_idx)) b (elem_idx bit_idx).

Definition bitmap_set (b : bitmap) (idx : Z) (value : bool) : outcome bitmap :=
  let? _ := assert_ok (idx <? bit_cnt b) in
  if value then bitmap_mark b idx else bitmap_reset b idx.

Definition bitmap_test (b : bitmap) (idx : Z) : outcome bool :=
  let? _ := assert_ok (idx <? bit_cnt b) in
  let? e := elem_get b (elem_idx idx) in
  Ok (negb (Z.land e (bit_mask idx) =? 0)).

(** The two assertions at the head of every operation on a range. *)
Definition check_range (b : bitmap) (start cnt : Z) : outcome unit :=
  let? _ := assert_ok (start <=? bit_cnt b) in
  assert_ok (u32 (start + cnt) <=? bit_cnt b).

(** [for (i = 0; i < cnt; i++) bitmap_set (b, start + i, value);] from the
    [i]-th iteration, [n] iterations left. *)
Fixpoint set_loop (n : nat) (b : bitmap) (idx : Z) (value : bool) : outcome bitmap :=
  match n with
  | O => Ok b
  | S n => let? b := bitmap_set b idx value in set_loop n b (u32 (idx + 1)) value
  end.
Definition bitmap_set_multiple (b : bitmap) (start cnt : Z) (value : bool) : outcome bitmap :=
  let? _ := check_range b start cnt in set_loop (Z.to_nat cnt) b start value.

Definition bitmap_set_all (b : bitmap) (value : bool) : outcome bitmap :=
  bitmap_set_multiple b 0 (bitmap_size b) value.

Fixpoint count_loop (n : nat) (b : bitmap) (idx : Z) (value : bool) (value_cnt : Z) : outcome Z :=
  match n with
  | O => Ok value_cnt
  | S n => let? v := bitmap_test b idx in
           count_loop n b (u32 (idx + 1)) value
             (if Bool.eqb v value then u32 (value_cnt + 1) else value_cnt)
  end.
Definition bitmap_count (b : bitmap) (start cnt : Z) (value : bool) : outcome Z :=
  let? _ := check_range b start cnt in count_loop (Z.to_nat cnt) b start value 0.

Fixpoint contains_loop (n : nat) (b : bitmap) (idx : Z) (value : bool) : outcome bool :=
  match n with
  | O => Ok false
  | S n => let? v := bitmap_test b idx in
           if Bool.eqb v value then Ok true else contains_loop n b (u32 (idx + 1)) value
  end.
Definition bitmap_contains (b : bitmap) (start cnt : Z) (value : bool) : outcome bool :=
  let? _ := check_range b start cnt in contains_loop (Z.to_nat cnt) b start value.

Definition bitmap_any (b : bitmap) (start cnt : Z) : outcome bool :=
  bitmap_contains b start cnt true.
Definition bitmap_none (b : bitmap) (start cnt : Z) : outcome bool :=
  let? r := bitmap_contains b start cnt true in Ok (negb r).
Definition bitmap_all (b : bitmap) (start cnt : Z) : outcome bool :=
  let? r := bitmap_contains b start cnt false in Ok (negb r).

(** [for (i = start; i <= last; i++)], [n] iterations left. *)
Fixpoint scan_loop (n : nat) (b : bitmap) (i cnt : Z) (value : bool) : outcome Z :=
  match n with
  | O => Ok BITMAP_ERROR
  | S n => let? r := bitmap_contains b i cnt (negb value) in
           if r then scan_loop n b (u32 (i + 1)) cnt value else Ok i
  end.
Definition bitmap_scan (b : bitmap) (start cnt : Z) (value : bool) : outcome Z :=
  let? _ := assert_ok (start <=? bit_cnt b) in
  if cnt <=? bit_cnt b then
    let last := bit_cnt b - cnt in
    scan_loop (Z.to_nat (last - start + 1)) b start cnt value
  else Ok BITMAP_ERROR.

Definition bitmap_scan_and_flip (b : bitmap) (start cnt : Z) (value : bool)
    : outcome (Z * bitmap) :=
  let? idx := bitmap_scan b start cnt value in
  if idx =? BITMAP_ERROR then Ok (idx, b)
  else let? b := bitmap_set_multiple b idx cnt (negb value) in Ok (idx, b).

(** [bitmap_create]: the two flags are the results of the two [malloc] calls
    (of the struct, of the elements), [mem] what the second one returned,
    uninitialised. *)
Definition bitmap_create (malloc_b malloc_bits : bool) (mem : list Z) (bit_cnt : Z)
    : outcome (option bitmap) :=
  if malloc_b then
    if malloc_bits || (bit_cnt =? 0) then
      let? b := bitmap_set_all (mk_bitmap bit_cnt mem) false in Ok (Some b)
    else Ok None
  else Ok None.

(** [bitmap_create_in_buf]: the elements follow the 8-byte struct in a block
    of [block_size] bytes whose contents are [mem]. *)
Definition bitmap_buf_size (bit_cnt : Z) : Z := u32 (8 + byte_cnt bit_cnt).
Definition bitmap_create_in_buf (bit_cnt : Z) (mem : list Z) (block_size : Z) : outcome bitmap :=
  let? _ := assert_ok (bitmap_buf_size bit_cnt <=? block_size) in
  bitmap_set_all (mk_bitmap bit_cnt mem) false.

Definition bitmap_file_size (b : bitmap) : Z := byte_cnt (bit_cnt b).

(** ** The view from outside *)

Definition bit (b : bitmap) (i : Z) : bool :=
  Z.testbit (default 0 (bits b !! Z.to_nat (i / ELEM_BITS))) (i `mod` ELEM_BITS).

(** The representation invariant: as many elements as the bits need, each a
    32-bit unsigned value.  The bound on [bit_cnt] keeps the rounding in
    [elem_cnt] from wrapping; a larger array does not fit in memory. *)
Record wf (b : bitmap) : Prop := {
  wf_cnt : 0 ≤ bit_cnt b < 2 ^ 32 - 32;
  wf_len : Z.of_nat (length (bits b)) = elem_cnt (bit_cnt b);
  wf_elems : Forall (in_u 32) (bits b) }.

(** All [cnt] bits from [i] on are [v]. *)
Definition group (b : bitmap) (i cnt : Z) (v : bool) : Prop :=
  ∀ j, i ≤ j < i + cnt → bit b j = v.

Lemma elem_cnt_eq n : 0 ≤ n < 2 ^ 32 - 32 → elem_cnt n = (n + 31) / 32.
Proof.
  intros. unfold elem_cnt, ELEM_BITS. change (4 * 8) with 32.
  rewrite (uwrap_id 32 (n + 32)), uwrap_id by (unfold in_u; lia). f_equal. lia.
Qed.

Lemma byte_cnt_eq n : 0 ≤ n < 2 ^ 32 - 32 → byte_cnt n = 4 * ((n + 31) / 32).
Proof.
  intros. unfold byte_cnt. rewrite elem_cnt_eq by lia. apply uwrap_id. unfold in_u.
  pose proof (Z.div_pos (n + 31) 32 ltac:(lia) ltac:(lia)).
  pose proof (Z.mul_div_le (n + 31) 32 ltac:(lia)). lia.
Qed.

Lemma bit_mask_testbit i k : 0 ≤ k → Z.testbit (bit_mask i) k = (k =? i `mod` 32).
Proof.
  intros. unfold bit_mask, ELEM_BITS. change (4 * 8) with 32.
  pose proof (Z.mod_pos_bound i 32 ltac:(lia)).
  rewrite Z.shiftl_1_l, uwrap_id.
  - rewrite Z.pow2_bits_eqb by lia. apply Z.eqb_sym.
  - unfold in_u. split; [lia|]. apply Z.pow_lt_mono_r; lia.
Qed.

(** A 32-bit value is one whose bits from 32 on are clear. *)
Lemma in_u32_bits x : 0 ≤ x → (∀ l, 32 ≤ l → Z.testbit x l = false) → in_u 32 x.
Proof. intros ? H. split; [done|]. by apply Z.bounded_iff_bits_nonneg. Qed.

Lemma in_u32_testbit x l : in_u 32 x → 32 ≤ l → Z.testbit x l = false.
Proof. intros [??]. by apply Z.bounded_iff_bits_nonneg. Qed.

Lemma elem_get_ok b i :
  wf b → 0 ≤ i < bit_cnt b →
  ∃ e, elem_get b (elem_idx i) = Ok e ∧ bits b !! Z.to_nat (i / 32) = Some e ∧
       in_u 32 e ∧ bit b i = Z.testbit e (i `mod` 32).
Proof.
  intros Hwf Hi. pose proof (wf_cnt _ Hwf). pose proof (wf_len _ Hwf) as Hlen.
  rewrite elem_cnt_eq in Hlen by lia.
  assert (0 ≤ i / 32 < (bit_cnt b + 31) / 32).
  { split; [apply Z.div_pos; lia|]. apply Z.div_lt_upper_bound; [lia|].
    pose proof (Z.div_mod (bit_cnt b + 31) 32 ltac:(lia)).
    pose proof (Z.mod_pos_bound (bit_cnt b + 31) 32 ltac:(lia)). lia. }
  destruct (lookup_lt_is_Some_2 (bits b) (Z.to_nat (i / 32))) as [e He]; [lia|].
  exists e. unfold elem_get, elem_idx, bit, ELEM_BITS. change (4 * 8) with 32.
  rewrite He. repeat split; try done.
  all: eapply (Forall_lookup_1 (in_u 32)) in He; [apply He | apply wf_elems; done].
Qed.

(** Updating one element, seen from outside. *)
Lemma elem_update_ok (g : Z → Z) b i :
  wf b → 0 ≤ i < bit_cnt b → (∀ e, in_u 32 e → in_u 32 (g e)) →
  ∃ e b', elem_update g b (elem_idx i) = Ok b' ∧ wf b' ∧ bit_cnt b' = bit_cnt b ∧
    in_u 32 e ∧ (∀ j, 0 ≤ j → j / 32 = i / 32 → bit b j = Z.testbit e (j `mod` 32)) ∧
    (∀ j, 0 ≤ j → j / 32 = i / 32 → bit b' j = Z.testbit (g e) (j `mod` 32)) ∧
    (∀ j, 0 ≤ j → j / 32 ≠ i / 32 → bit b' j = bit b j).
Proof.
  intros Hwf Hi Hg. destruct (elem_get_ok b i Hwf Hi) as (e & Hget & He & Hrange & _).
  unfold elem_update. rewrite Hget. cbn [obind].
  unfold elem_idx, ELEM_BITS. change (4 * 8) with 32.
  pose proof (lookup_lt_Some _ _ _ He).
  eexists e, _. split; [done|]. split.
  { split; cbn; [apply Hwf | rewrite length_insert; apply Hwf |].
    apply Forall_insert; [apply Hwf | by apply Hg]. }
  unfold bit, ELEM_BITS; cbn [bits bit_cnt]. change (4 * 8) with 32.
  assert (0 ≤ i / 32) by (apply Z.div_pos; lia).
  split; [done|]. split; [done|]. split; [|split]; intros j Hj Hij.
  - by rewrite Hij, He.
  - by rewrite Hij, list_lookup_insert_eq by done.
  - rewrite list_lookup_insert_ne; [done|].
    assert (0 ≤ j / 32) by (apply Z.div_pos; lia). lia.
Qed.

Lemma same_bit i j : j / 32 = i / 32 → (j `mod` 32 =? i `mod` 32) = bool_decide (j = i).
Proof.
  intros E. pose proof (Z.div_mod i 32 ltac:(lia)). pose proof (Z.div_mod j 32 ltac:(lia)).
  case_bool_decide; [subst; by rewrite Z.eqb_refl|]. apply Z.eqb_neq. lia.
Qed.

(** What it means for [b'] to be [b] with the single bit [i] set to [v]. *)
Definition updates_bit (b b' : bitmap) (i : Z) (v : bool) : Prop :=
  wf b' ∧ bit_cnt b' = bit_cnt b ∧
  ∀ j, 0 ≤ j → bit b' j = if bool_decide (j = i) then v else bit b j.

Lemma elem_update_bit (g : Z → Z) (h : bool → bool) b i :
  wf b → 0 ≤ i < bit_cnt b → (∀ e, 0 ≤ e → 0 ≤ g e) →
  (∀ e l, in_u 32 e → 0 ≤ l < 32 →
     Z.testbit (g e) l = if l =? i `mod` 32 then h (Z.testbit e l) else Z.testbit e l) →
  (∀ e l, in_u 32 e → 32 ≤ l → Z.testbit (g e) l = false) →
  ∃ b', elem_update g b (elem_idx i) = Ok b' ∧ updates_bit b b' i (h (bit b i)).
Proof.
  intros Hwf Hi Hg Hbit Hhi.
  destruct (elem_update_ok g b i Hwf Hi) as (e & b' & Hu & Hwf' & Hcnt & He & Hb & Hsame & Hne).
  { intros e He. apply in_u32_bits; [apply Hg, He|]. by intros; apply Hhi. }
  exists b'. split; [done|]. split; [done|]. split; [done|]. intros j Hj.
  pose proof (Z.mod_pos_bound j 32 ltac:(lia)).
  destruct (decide (j / 32 = i / 32)) as [E|E].
  - rewrite Hsame, Hbit, same_bit by done. case_bool_decide.
    + subst j. by rewrite Hb.
    + symmetry. by apply Hb.
  - rewrite bool_decide_eq_false_2 by congruence. by apply Hne.
Qed.

(** ** Single bits *)

Lemma bitmap_mark_ok b i :
  wf b → 0 ≤ i < bit_cnt b → ∃ b', bitmap_mark b i = Ok b' ∧ updates_bit b b' i true.
Proof.
  intros Hwf Hi. apply (elem_update_bit _ (λ _, true)); [done..| | |].
  - intros e He. apply Z.lor_nonneg. split; [done|]. apply uwrap_range. lia.
  - intros e l _ Hl. rewrite Z.lor_spec, bit_mask_testbit by lia.
    destruct (_ =? _); [apply orb_true_r | apply orb_false_r].
  - intros e l He Hl. rewrite Z.lor_spec, bit_mask_testbit, (in_u32_testbit e) by (done || lia).
    pose proof (Z.mod_pos_bound i 32 ltac:(lia)). apply Z.eqb_neq. lia.
Qed.

Lemma bit_mask_compl_testbit i l :
  0 ≤ l → Z.testbit (2 ^ 32 - 1 - bit_mask i) l = (l <? 32) && negb (l =? i `mod` 32).
Proof.
  intros Hl. pose proof (Z.mod_pos_bound i 32 ltac:(lia)).
  change (2 ^ 32 - 1) with (Z.ones 32).
  rewrite Z.sub_nocarry_ldiff; [rewrite Z.ldiff_spec, bit_mask_testbit by lia|].
  - f_equal. rewrite Z.testbit_ones by lia. rewrite (proj2 (Z.leb_le 0 l)) by lia. done.
  - apply Z.bits_inj'. intros k Hk.
    rewrite Z.ldiff_spec, bit_mask_testbit, Z.testbit_ones, Z.bits_0 by lia.
    destruct (Z.eqb_spec k (i `mod` 32)); [|done].
    rewrite (proj2 (Z.leb_le _ _)), (proj2 (Z.ltb_lt _ _)); [done|lia..].
Qed.

Lemma bitmap_reset_ok b i :
  wf b → 0 ≤ i < bit_cnt b → ∃ b', bitmap_reset b i = Ok b' ∧ updates_bit b b' i false.
Proof.
  intros Hwf Hi. apply (elem_update_bit _ (λ _, false)); [done..| | |].
  - intros e He. apply Z.land_nonneg. by left.
  - intros e l _ Hl. rewrite Z.land_spec, bit_mask_compl_testbit by lia.
    rewrite (proj2 (Z.ltb_lt _ _)) by lia.
    destruct (_ =? _); [apply andb_false_r | apply andb_true_r].
  - intros e l He Hl. by rewrite Z.land_spec, (in_u32_testbit e) by (done || lia).
Qed.

Lemma bitmap_flip_ok b i :
  wf b → 0 ≤ i < bit_cnt b →
  ∃ b', bitmap_flip b i = Ok b' ∧ updates_bit b b' i (negb (bit b i)).
Proof.
  intros Hwf Hi. apply (elem_update_bit _ negb); [done..| | |].
  - intros e He. apply Z.lxor_nonneg. split; [|done]. intros _. apply uwrap_range. lia.
  - intros e l _ Hl. rewrite Z.lxor_spec, bit_mask_testbit by lia.
    destruct (_ =? _); [apply xorb_true_r | apply xorb_false_r].
  - intros e l He Hl. rewrite Z.lxor_spec, bit_mask_testbit, (in_u32_testbit e) by (done || lia).
    pose proof (Z.mod_pos_bound i 32 ltac:(lia)). rewrite (proj2 (Z.eqb_neq _ _)); [done|lia].
Qed.

Lemma bitmap_set_ok b i v :
  wf b → 0 ≤ i < bit_cnt b → ∃ b', bitmap_set b i v = Ok b' ∧ updates_bit b b' i v.
Proof.
  intros Hwf Hi. unfold bitmap_set. rewrite (proj2 (Z.ltb_lt _ _)) by lia. cbn.
  destruct v; [by apply bitmap_mark_ok | by apply bitmap_reset_ok].
Qed.

Lemma bitmap_test_ok b i : wf b → 0 ≤ i < bit_cnt b → bitmap_test b i = Ok (bit b i).
Proof.
  intros Hwf Hi. unfold bitmap_test. rewrite (proj2 (Z.ltb_lt _ _)) by lia. cbn.
  destruct (elem_get_ok b i Hwf Hi) as (e & -> & _ & He & ->). cbn [obind]. f_equal.
  pose proof (Z.mod_pos_bound i 32 ltac:(lia)).
  assert (Z.land e (bit_mask i) = if Z.testbit e (i `mod` 32) then bit_mask i else 0) as ->.
  { apply Z.bits_inj'. intros k Hk. rewrite Z.land_spec, bit_mask_testbit by lia.
    destruct (Z.eqb_spec k (i `mod` 32)) as [->|Hne].
    - destruct (Z.testbit e _); [|by rewrite Z.bits_0].
      by rewrite bit_mask_testbit, Z.eqb_refl by lia.
    - destruct (Z.testbit e (i `mod` 32)); [|by rewrite Z.bits_0, andb_false_r].
      by rewrite bit_mask_testbit, (proj2 (Z.eqb_neq _ _)), andb_false_r by done. }
  destruct (Z.testbit e (i `mod` 32)); [|done].
  destruct (Z.eqb_spec (bit_mask i) 0) as [E|]; [|done].
  pose proof (bit_mask_testbit i (i `mod` 32) ltac:(lia)) as Hb.
  by rewrite E, Z.bits_0, Z.eqb_refl in Hb.
Qed.

(** Outside the bitmap the assertion of [bitmap_test] stops the kernel. *)
Lemma bitmap_test_out b i : bit_cnt b ≤ i → bitmap_test b i = Panic.
Proof. intros. unfold bitmap_test. by rewrite (proj2 (Z.ltb_ge _ _)) by lia. Qed.

(** ** Ranges *)

Lemma check_range_ok b start cnt :
  wf b → 0 ≤ start → 0 ≤ cnt → start + cnt ≤ bit_cnt b → check_range b start cnt = Ok tt.
Proof.
  intros Hwf ???. pose proof (wf_cnt _ Hwf). unfold check_range.
  rewrite (proj2 (Z.leb_le _ _)) by lia. cbn.
  by rewrite uwrap_id, (proj2 (Z.leb_le _ _)) by (unfold in_u; lia).
Qed.

(** [b'] is [b] with the [cnt] bits from [start] on set to [v]. *)
Definition updates_range (b b' : bitmap) (start cnt : Z) (v : bool) : Prop :=
  wf b' ∧ bit_cnt b' = bit_cnt b ∧
  ∀ j, 0 ≤ j → bit b' j = if bool_decide (start ≤ j < start + cnt) then v else bit b j.

Lemma set_loop_ok n b idx v :
  wf b → 0 ≤ idx → idx + Z.of_nat n ≤ bit_cnt b →
  ∃ b', set_loop n b idx v = Ok b' ∧ updates_range b b' idx (Z.of_nat n) v.
Proof.
  revert b idx. induction n as [|n IH]; intros b idx Hwf Hidx Hle.
  - exists b. split; [done|]. split; [done|]. split; [done|]. intros j Hj.
    rewrite bool_decide_eq_false_2; [done|lia].
  - pose proof (wf_cnt _ Hwf).
    destruct (bitmap_set_ok b idx v) as (b1 & Hset & Hwf1 & Hcnt1 & Hbit1); [done|lia|].
    cbn [set_loop]. rewrite Hset. cbn [obind]. rewrite uwrap_id by (unfold in_u; lia).
    destruct (IH b1 (idx + 1)) as (b2 & Hloop & Hwf2 & Hcnt2 & Hbit2); [done|lia|lia|].
    exists b2. split; [done|]. split; [done|]. split; [congruence|]. intros j Hj.
    rewrite Hbit2, Hbit1 by done.
    repeat case_bool_decide; try done; lia.
Qed.

Lemma bitmap_set_multiple_ok b start cnt v :
  wf b → 0 ≤ start → 0 ≤ cnt → start + cnt ≤ bit_cnt b →
  ∃ b', bitmap_set_multiple b start cnt v = Ok b' ∧ updates_range b b' start cnt v.
Proof.
  intros. unfold bitmap_set_multiple. rewrite check_range_ok by done. cbn [obind].
  destruct (set_loop_ok (Z.to_nat cnt) b start v) as (b' & -> & Hu); [done|lia|lia|].
  rewrite Z2Nat.id in Hu by lia. eauto.
Qed.

Lemma contains_loop_ok n b idx v :
  wf b → 0 ≤ idx → idx + Z.of_nat n ≤ bit_cnt b →
  ∃ r, contains_loop n b idx v = Ok r ∧
    (r = true ↔ ∃ j, idx ≤ j < idx + Z.of_nat n ∧ bit b j = v).
Proof.
  revert idx. induction n as [|n IH]; intros idx Hwf Hidx Hle; cbn [contains_loop].
  - exists false. split; [done|]. split; [done|]. intros (j & ? & _). lia.
  - pose proof (wf_cnt _ Hwf). rewrite bitmap_test_ok by (done || lia). cbn [obind].
    destruct (eqb_spec (bit b idx) v) as [E|E].
    + exists true. split; [done|]. split; [|done]. intros _. exists idx. split; [lia|done].
    + rewrite uwrap_id by (unfold in_u; lia).
      destruct (IH (idx + 1)) as (r & -> & Hr); [done|lia|lia|].
      exists r. split; [done|]. rewrite Hr. split; intros (j & Hj & Hv).
      * exists j. split; [lia|done].
      * exists j. split; [|done]. destruct (decide (j = idx)); [congruence|lia].
Qed.

Lemma bitmap_contains_ok b start cnt v :
  wf b → 0 ≤ start → 0 ≤ cnt → start + cnt ≤ bit_cnt b →
  ∃ r, bitmap_contains b start cnt v = Ok r ∧ (r = false ↔ group b start cnt (negb v)).
Proof.
  intros. unfold bitmap_contains. rewrite check_range_ok by done. cbn [obind].
  destruct (contains_loop_ok (Z.to_nat cnt) b start v) as (r & -> & Hr); [done|lia|lia|].
  exists r. split; [done|]. rewrite Z2Nat.id in Hr by lia. split.
  - intros -> j Hj. destruct (decide (bit b j = v)) as [Ev|Ev].
    + by assert (false = true) by (apply Hr; eauto).
    + by destruct (bit b j), v.
  - intros Hg. destruct r; [|done]. destruct (proj1 Hr eq_refl) as (j & Hj & Hv).
    rewrite Hg in Hv by done. by destruct v.
Qed.

Lemma bitmap_all_ok b start cnt :
  wf b → 0 ≤ start → 0 ≤ cnt → start + cnt ≤ bit_cnt b →
  ∃ r, bitmap_all b start cnt = Ok r ∧ (r = true ↔ group b start cnt true).
Proof.
  intros. destruct (bitmap_contains_ok b start cnt false) as (r & E & Hr); [done..|].
  unfold bitmap_all. rewrite E. cbn [obind]. exists (negb r). split; [done|].
  rewrite <-Hr. by destruct r.
Qed.

(** ** Scanning *)

Lemma scan_loop_ok n b i cnt v :
  wf b → 0 ≤ i → 0 ≤ cnt → i + Z.of_nat n + cnt ≤ bit_cnt b + 1 →
  ∃ idx, scan_loop n b i cnt v = Ok idx ∧
    ((idx = BITMAP_ERROR ∧ ∀ k, i ≤ k < i + Z.of_nat n → ¬ group b k cnt v) ∨
     (i ≤ idx < i + Z.of_nat n ∧ group b idx cnt v ∧
      ∀ k, i ≤ k < idx → ¬ group b k cnt v)).
Proof.
  revert i. induction n as [|n IH]; intros i Hwf Hi Hcnt Hle; cbn [scan_loop].
  - exists BITMAP_ERROR. split; [done|]. left. split; [done|]. intros; lia.
  - pose proof (wf_cnt _ Hwf).
    destruct (bitmap_contains_ok b i cnt (negb v)) as (r & -> & Hr); [done|lia|lia|lia|].
    rewrite negb_involutive in Hr. cbn [obind]. destruct r.
    + assert (¬ group b i cnt v) as Hno by (intros Hg; by apply Hr in Hg).
      rewrite uwrap_id by (unfold in_u; lia).
      destruct (IH (i + 1)) as (idx & -> & Hidx); [done|lia|lia|lia|].
      exists idx. split; [done|]. destruct Hidx as [[-> Hnone]|(Hrange & Hg & Hfirst)].
      * left. split; [done|]. intros k Hk. destruct (decide (k = i)) as [->|]; [done|].
        apply Hnone. lia.
      * right. split; [lia|]. split; [done|]. intros k Hk.
        destruct (decide (k = i)) as [->|]; [done|]. apply Hfirst. lia.
    + exists i. split; [done|]. right. split; [lia|]. split; [by apply Hr|]. intros; lia.
Qed.

(** The result of a scan: the first group at or after [start], or
    [BITMAP_ERROR] when there is none. *)
Definition first_fit (b : bitmap) (start cnt : Z) (v : bool) (idx : Z) : Prop :=
  (idx = BITMAP_ERROR ∧ ∀ k, start ≤ k → k + cnt ≤ bit_cnt b → ¬ group b k cnt v) ∨
  (start ≤ idx ∧ idx + cnt ≤ bit_cnt b ∧ group b idx cnt v ∧
   ∀ k, start ≤ k < idx → ¬ group b k cnt v).

Lemma bitmap_scan_ok b start cnt v :
  wf b → 0 ≤ start ≤ bit_cnt b → 0 ≤ cnt →
  ∃ idx, bitmap_scan b start cnt v = Ok idx ∧ first_fit b start cnt v idx.
Proof.
  intros Hwf Hs Hcnt. pose proof (wf_cnt _ Hwf). unfold bitmap_scan.
  rewrite (proj2 (Z.leb_le _ _)) by lia. cbn [assert_ok obind].
  destruct (Z.leb_spec cnt (bit_cnt b)).
  - destruct (decide (start ≤ bit_cnt b - cnt)).
    + destruct (scan_loop_ok (Z.to_nat (bit_cnt b - cnt - start + 1)) b start cnt v)
        as (idx & -> & Hidx); [done|lia|lia|lia|].
      exists idx. split; [done|]. destruct Hidx as [[-> Hnone]|(Hr & Hg & Hf)].
      * left. split; [done|]. intros k ??. apply Hnone. lia.
      * right. split; [lia|]. split; [lia|]. done.
    + replace (Z.to_nat _) with 0%nat by lia. eexists; split; [done|].
      left. split; [done|]. intros; lia.
  - eexists; split; [done|]. left. split; [done|]. intros; lia.
Qed.

Lemma bitmap_scan_and_flip_ok (b : bitmap) (start cnt : Z) (v : bool) :
  wf b → 0 ≤ start ≤ bit_cnt b → 0 ≤ cnt →
  ∃ idx b', bitmap_scan_and_flip b start cnt v = Ok (idx, b') ∧
    first_fit b start cnt v idx ∧
    (idx = BITMAP_ERROR → b' = b) ∧
    (idx ≠ BITMAP_ERROR → updates_range b b' idx cnt (negb v)).
Proof.
  intros Hwf Hs Hcnt. pose proof (wf_cnt _ Hwf).
  destruct (bitmap_scan_ok b start cnt v) as (idx & E & Hf); [done..|].
  unfold bitmap_scan_and_flip. rewrite E. cbn [obind].
  destruct (Z.eqb_spec idx BITMAP_ERROR) as [->|Hne]; [by eexists _, _|].
  destruct Hf as [[? _]|Hf]; [done|].
  destruct (bitmap_set_multiple_ok b idx cnt (negb v)) as (b' & -> & Hu); [done|lia..|].
  exists idx, b'. repeat split; try done; [by right|apply Hu..].
Qed.

(** [bitmap_scan_and_flip] is first fit: it returns the start of the first
    group of [cnt] bits equal to [value] at or after [start] and leaves the
    bitmap with exactly that group flipped; when there is no such group it
    returns [BITMAP_ERROR] and changes nothing. *)
Theorem bitmap_scan_and_flip_first_fit (b : bitmap) (start cnt : Z) (v : bool) :
  wf b → 0 ≤ start ≤ bit_cnt b → 0 ≤ cnt →
  ∃ idx b', bitmap_scan_and_flip b start cnt v = Ok (idx, b') ∧
    first_fit b start cnt v idx ∧
    (idx = BITMAP_ERROR → b' = b) ∧
    (idx ≠ BITMAP_ERROR → updates_range b b' idx cnt (negb v)).
Proof. apply bitmap_scan_and_flip_ok. Qed.

Lemma bitmap_scan_and_flip_first_fit_witness :
  ∃ idx b', bitmap_scan_and_flip (mk_bitmap 40 [7; 0]) 0 2 false = Ok (idx, b') ∧
    first_fit (mk_bitmap 40 [7; 0]) 0 2 false idx ∧
    (idx = BITMAP_ERROR → b' = mk_bitmap 40 [7; 0]) ∧
    (idx ≠ BITMAP_ERROR → updates_range (mk_bitmap 40 [7; 0]) b' idx 2 (negb false)).
Proof.
  apply (bitmap_scan_and_flip_first_fit (mk_bitmap 40 [7; 0])); [|cbn; lia|lia].
  split; [cbn; lia | reflexivity | repeat constructor; unfold in_u; lia].
Defined.

(** ** Counting *)

Lemma count_loop_ok n b idx v acc :
  wf b → 0 ≤ idx → idx + Z.of_nat n ≤ bit_cnt b → 0 ≤ acc → acc + Z.of_nat n < 2 ^ 32 →
  count_loop n b idx v acc
  = Ok (acc + Z.of_nat (length (filter (λ j, bit b j = v) (seqZ idx (Z.of_nat n))))).
Proof.
  revert idx acc. induction n as [|n IH]; intros idx acc Hwf ? Hle ??.
  { rewrite seqZ_nil by lia. cbn. f_equal. lia. }
  pose proof (wf_cnt _ Hwf). cbn [count_loop].
  rewrite bitmap_test_ok by (done || lia). cbn [obind].
  rewrite seqZ_cons by lia. rewrite (uwrap_id 32 (idx + 1)) by (unfold in_u; lia).
  replace (Z.pred (Z.of_nat (S n))) with (Z.of_nat n) by lia.
  destruct (eqb_spec (bit b idx) v) as [E|E].
  - rewrite filter_cons_True by done. rewrite uwrap_id by (unfold in_u; lia).
    rewrite IH by (done || lia). cbn [length]. f_equal. replace (Z.succ idx) with (idx + 1); lia.
  - rewrite filter_cons_False by done. rewrite IH by (done || lia).
    by replace (Z.succ idx) with (idx + 1) by lia.
Qed.

(** [bitmap_count] is the number of positions of the range that hold
    [value]. *)
Theorem bitmap_count_correct (b : bitmap) (start cnt : Z) (v : bool) :
  wf b → 0 ≤ start → 0 ≤ cnt → start + cnt ≤ bit_cnt b →
  bitmap_count b start cnt v
  = Ok (Z.of_nat (length (filter (λ j, bit b j = v) (seqZ start cnt)))).
Proof.
  intros Hwf ???. pose proof (wf_cnt _ Hwf). unfold bitmap_count.
  rewrite check_range_ok by done. cbn [obind].
  rewrite count_loop_ok by (done || lia). rewrite Z2Nat.id by lia. done.
Qed.

Lemma bitmap_count_correct_witness :
  bitmap_count (mk_bitmap 40 [7; 0]) 1 10 true
  = Ok (Z.of_nat (length (filter (λ j, bit (mk_bitmap 40 [7; 0]) j = true) (seqZ 1 10)))).
Proof.
  apply (bitmap_count_correct (mk_bitmap 40 [7; 0])); [|lia|lia|cbn; lia].
  split; [cbn; lia | reflexivity | repeat constructor; unfold in_u; lia].
Defined.

(** ** Creation *)

(** What [malloc] returned for the elements of a bitmap of [n] bits. *)
Definition elems_for (n : Z) (mem : list Z) : Prop :=
  Z.of_nat (length mem) = elem_cnt n ∧ Forall (in_u 32) mem.

Lemma bitmap_set_all_ok b v :
  wf b → ∃ b', bitmap_set_all b v = Ok b' ∧ updates_range b b' 0 (bit_cnt b) v.
Proof.
  intros Hwf. pose proof (wf_cnt _ Hwf). apply bitmap_set_multiple_ok; [done|lia..|].
  unfold bitmap_size. lia.
Qed.

Lemma bitmap_create_ok mem n :
  0 ≤ n < 2 ^ 32 - 32 → elems_for n mem →
  ∃ b, bitmap_create true true mem n = Ok (Some b) ∧ wf b ∧ bit_cnt b = n ∧ group b 0 n false.
Proof.
  intros Hn [Hlen Helems].
  destruct (bitmap_set_all_ok (mk_bitmap n mem) false) as (b & E & Hwf & Hcnt & Hbit); [done|].
  unfold bitmap_create. cbn [orb]. rewrite E. cbn [obind]. exists b. split; [done|].
  split; [done|]. split; [done|]. intros j Hj. rewrite Hbit by lia. cbn [bit_cnt].
  by rewrite bool_decide_eq_true_2 by lia.
Qed.
