(* ===== verification/Block.v ===== *)
(** * Block devices (devices/block.c)

    A block device is an array of 512-byte sectors behind the bounds check of
    [check_sector].  What the driver stores is the field [contents]: a
    function from sector numbers to the bytes of the sector. *)

From S2P Require Import Prelude.

Definition BLOCK_SECTOR_SIZE : Z := 512.

(** The bytes of one sector. *)
Abbreviation sector_data := (list Z).

Inductive block_type :=
| BLOCK_KERNEL | BLOCK_FILESYS | BLOCK_SCRATCH | BLOCK_SWAP | BLOCK_RAW | BLOCK_FOREIGN.

#[global] Instance block_type_eq_dec : EqDecision block_type.
Proof. solve_decision. Defined.

Record block := mk_block {
  blk_type : block_type;
  blk_size : Z;
  contents : Z → sector_data;
  read_cnt : Z;
  write_cnt : Z }.

(** [check_sector] panics when SECTOR is past the end. *)
Definition check_sector (b : block) (sector : Z) : outcome unit :=
  if blk_size b <=? sector then Panic else Ok tt.

Definition block_read (b : block) (sector : Z) : outcome (sector_data * block) :=
  let? _ := check_sector b sector in
  Ok (contents b sector,
      mk_block (blk_type b) (blk_size b) (contents b) (u64 (read_cnt b + 1)) (write_cnt b)).

Definition block_write (b : block) (sector : Z) (data : sector_data) : outcome block :=
  let? _ := check_sector b sector in
  let? _ := assert_ok (negb (bool_decide (blk_type b = BLOCK_FOREIGN))) in
  Ok (mk_block (blk_type b) (blk_size b) (<[sector := data]> (contents b))
        (read_cnt b) (u64 (write_cnt b + 1))).

Definition block_print_read_cnt (b : block) : Z := read_cnt b.
Definition block_print_write_cnt (b : block) : Z := write_cnt b.
Definition block_size (b : block) : Z := blk_size b.

(** A device a file system can live on. *)
Record block_wf (b : block) : Prop := {
  block_wf_type : blk_type b ≠ BLOCK_FOREIGN;
  block_wf_size : in_u 32 (blk_size b);
  block_wf_data : ∀ n, length (contents b n) = 512%nat }.

Lemma block_read_ok b n :
  n < blk_size b →
  ∃ b', block_read b n = Ok (contents b n, b') ∧ contents b' = contents b ∧
        blk_size b' = blk_size b ∧ (block_wf b → block_wf b').
Proof.
  intros. unfold block_read, check_sector. rewrite (proj2 (Z.leb_gt _ _)) by lia.
  cbn. eexists. split; [done|]. split; [done|]. split; [done|]. by intros [].
Qed.

Lemma block_read_past b n : blk_size b ≤ n → block_read b n = Panic.
Proof. intros. unfold block_read, check_sector. by rewrite (proj2 (Z.leb_le _ _)) by lia. Qed.

Lemma block_write_ok b n d :
  block_wf b → n < blk_size b → length d = 512%nat →
  ∃ b', block_write b n d = Ok b' ∧ contents b' = <[n := d]> (contents b) ∧
        blk_size b' = blk_size b ∧ block_wf b'.
Proof.
  intros Hwf ??. unfold block_write, check_sector. rewrite (proj2 (Z.leb_gt _ _)) by lia.
  rewrite bool_decide_eq_false_2 by apply Hwf. cbn. eexists. split; [done|].
  split; [done|]. split; [done|]. destruct Hwf as [? ? Hd]. split; cbn; [done..|].
  intros m. destruct (decide (n = m)) as [->|].
  - by rewrite fn_lookup_insert.
  - by rewrite fn_lookup_insert_ne.
Qed.
