(* ===== verification/Partition.v ===== *)
(** * Partitions (devices/partition.c)

    The partition table of a disk and the block devices made of its partitions.  [malloc]
    is the one of the file system's model: the [n]-th call succeeds when [malloc_ok n].
    Messages on the console are left out. *)

From S2P Require Import Prelude Block.

(** ** Data *)

(** [struct partition_table_entry], the fields that are used. *)
Record entry := mk_entry { type : Z; offset : Z; size : Z }.

Definition half_at (l : list Z) (k : nat) : Z := little_endian_to_Z 8 (take 2 (drop k l)).
Definition word_at (l : list Z) (k : nat) : Z := little_endian_to_Z 8 (take 4 (drop k l)).

(** [struct partition_table]: four entries of 16 bytes from byte 446 on, and the signature. *)
Definition decode_entry (l : list Z) (k : nat) : entry :=
  mk_entry (default 0 (l !! (k + 4)%nat)) (word_at l (k + 8)) (word_at l (k + 12)).
Definition partitions (l : list Z) : list entry := decode_entry l <$> [446; 462; 478; 494]%nat.
Definition signature (l : list Z) : Z := half_at l 510.

(** A block device registered for a partition, with its [struct partition]. *)
Record partition := mk_partition {
  part_nr : Z;
  part_type : block_type;
  start : Z;
  part_size : Z }.

Record scan := mk_scan {
  device : block;
  registered : list partition;
  malloc_ok : nat → bool;
  malloc_cnt : nat }.

Definition set_device (b : block) (s : scan) : scan := mk_scan b (registered s) (malloc_ok s) (malloc_cnt s).

(** [malloc] followed by [PANIC] when there is no memory. *)
Definition must_malloc : M scan unit := λ s,
  if malloc_ok s (malloc_cnt s) then Ok (tt, mk_scan (device s) (registered s) (malloc_ok s) (S (malloc_cnt s))) else Panic.

Definition on_device {A} (f : block → outcome (A * block)) : M scan A := λ s,
  let? '(a, b) := f (device s) in Ok (a, set_device b s).

(** ** Scanning *)

Definition type_of (t : Z) : block_type :=
  if t =? 0x20 then BLOCK_KERNEL
  else if t =? 0x21 then BLOCK_FILESYS
  else if t =? 0x22 then BLOCK_SCRATCH
  else if t =? 0x23 then BLOCK_SWAP
  else BLOCK_FOREIGN.

Definition found_partition (t start size nr : Z) : M scan unit :=
  let! b := gets device in
  if blk_size b <=? start then ret tt
  else if (u32 (start + size) <? start) || (blk_size b <? u32 (start + size)) then ret tt
  else
    let! _ := must_malloc in
    let! _ := must_malloc in
    modify (λ s, mk_scan (device s) (registered s ++ [mk_partition nr (type_of t) start size]) (malloc_ok s) (malloc_cnt s)).

Definition is_extended (e : entry) : bool :=
  (type e =? 0x05) || (type e =? 0x0f) || (type e =? 0x85) || (type e =? 0xc5).
Definition is_empty (e : entry) : bool := (size e =? 0) || (type e =? 0).

(** The loop over the entries; [rec] is [read_partition_table], and [*part_nr] the result. *)
Fixpoint entry_loop (rec : Z → Z → Z → M scan Z) (sector primary_extended_sector : Z) (es : list entry) (nr : Z) : M scan Z :=
  match es with
  | [] => ret nr
  | e :: es =>
      let! nr :=
        (if is_empty e then ret nr
         else if is_extended e then
           if sector =? 0 then rec (offset e) (offset e) nr
           else rec (u32 (offset e + primary_extended_sector)) primary_extended_sector nr
         else
           let nr := s32 (nr + 1) in
           let! _ := found_partition (type e) (u32 (offset e + sector)) (size e) nr in
           ret nr) in
      entry_loop rec sector primary_extended_sector es nr
  end.

(** The table is read from sector 0 whatever [sector] is.  [n] bounds the nesting. *)
Fixpoint read_partition_table (n : nat) (sector primary_extended_sector nr : Z) : M scan Z :=
  match n with
  | O => out_of_fuel
  | S n =>
      let! b := gets device in
      if blk_size b <=? sector then ret nr
      else
        let! _ := must_malloc in
        let! pt := on_device (λ b, block_read b 0) in
        if negb (signature pt =? 0xaa55) then ret nr
        else entry_loop (read_partition_table n) sector primary_extended_sector (partitions pt) nr
  end.

Definition partition_scan (n : nat) : M scan Z := read_partition_table n 0 0 0.

(** ** The driver of a partition *)

Definition partition_read (p : partition) (sector : Z) : M scan sector_data :=
  on_device (λ b, block_read b (u32 (start p + sector))).
Definition partition_write (p : partition) (sector : Z) (data : sector_data) : M scan unit :=
  on_device (λ b, let? b := block_write b (u32 (start p + sector)) data in Ok (tt, b)).

(** ** What is found *)

(** A partition lies on its device. *)
Definition fits (b : block) (p : partition) : Prop := 0 ≤ start p ∧ 0 < part_size p ∧ start p + part_size p ≤ blk_size b.

(** The partitions of a table without nesting, from number [nr + 1] on. *)
Fixpoint listed (b : block) (es : list entry) (nr : Z) : list partition :=
  match es with
  | [] => []
  | e :: es =>
      if is_empty e then listed b es nr
      else
        (if offset e + size e <=? blk_size b then [mk_partition (nr + 1) (type_of (type e)) (offset e) (size e)] else [])
        ++ listed b es (nr + 1)
  end.

Record scan_ok (s : scan) : Prop := {
  sc_memory n : malloc_ok s n = true;
  sc_size : 0 < blk_size (device s) < 2 ^ 32;
  sc_sector : length (contents (device s) 0) = 512%nat;
  sc_bytes : Forall (in_u 8) (contents (device s) 0) }.

(** Between two states of a scan only the counters and the registered devices changed. *)
Record same_device (s s' : scan) : Prop := {
  sd_size : blk_size (device s') = blk_size (device s);
  sd_contents : contents (device s') = contents (device s);
  sd_memory : malloc_ok s' = malloc_ok s }.

Lemma must_malloc_run s : malloc_ok s (malloc_cnt s) = true →
  must_malloc s = Ok (tt, mk_scan (device s) (registered s) (malloc_ok s) (S (malloc_cnt s))).
Proof. intros H. unfold must_malloc. by rewrite H. Qed.

Lemma scan_ok_same s s' : scan_ok s → same_device s s' → scan_ok s'.
Proof. intros [Hm Hs Hl Hb] [E1 E2 E3]. split; [by rewrite E3|by rewrite E1|by rewrite E2|by rewrite E2]. Qed.

Lemma same_device_trans s1 s2 s3 : same_device s1 s2 → same_device s2 s3 → same_device s1 s3.
Proof. intros [] []. split; congruence. Qed.

Lemma le_word l k : Forall (in_u 8) l → in_u 32 (word_at l k).
Proof.
  intros Hl. unfold word_at, in_u. pose proof (little_endian_to_Z_bound 8 (take 4 (drop k l))) as Hb.
  assert (Forall (in_u 8) (take 4 (drop k l))) as Hf by (by apply Forall_take, Forall_drop).
  specialize (Hb ltac:(lia) Hf). rewrite length_take in Hb. split; [lia|].
  eapply Z.lt_le_trans; [apply Hb|]. apply Z.pow_le_mono_r; lia.
Qed.

Lemma partitions_range s e : scan_ok s → e ∈ partitions (contents (device s) 0) → in_u 32 (offset e) ∧ in_u 32 (size e).
Proof. intros Hs (k & -> & _)%list_elem_of_fmap. by split; apply le_word, Hs. Qed.

(** An entry that is not on the device is passed over. *)
Lemma partition_found_run s t st sz nr : scan_ok s → in_u 32 st → in_u 32 sz → 0 < sz →
  ∃ s', found_partition t st sz nr s = Ok (tt, s') ∧ same_device s s' ∧
    registered s' = registered s ++ (if st + sz <=? blk_size (device s) then [mk_partition nr (type_of t) st sz] else []).
Proof.
  intros Hs H1 H2 Hz. pose proof (sc_size _ Hs) as Hsz. unfold found_partition. erewrite (bind_Ok (gets _)) by done. unfold in_u in *.
  assert (∀ b : bool, b = false → ∃ s', ret tt s = Ok (tt, s') ∧ same_device s s' ∧
    registered s' = registered s ++ (if b then [mk_partition nr (type_of t) st sz] else [])) as Hskip
    by (intros ? ->; exists s; by rewrite app_nil_r).
  destruct (Z.leb_spec (blk_size (device s)) st); [apply Hskip, Z.leb_gt; lia|].
  destruct (Z.leb_spec (st + sz) (blk_size (device s))) as [Hle|Hgt].
  - rewrite uwrap_id by (unfold in_u; lia). rewrite !(proj2 (Z.ltb_ge _ _)) by lia. cbn [orb].
    rewrite (bind_Ok _ _ _ _ _ (must_malloc_run s (sc_memory _ Hs _))).
    erewrite (bind_Ok must_malloc) by (apply must_malloc_run; simpl; apply Hs). eexists. split; [done|]. split; [by split|done].
  - destruct (decide (st + sz < 2 ^ 32)).
    + rewrite uwrap_id by (unfold in_u; lia). rewrite (proj2 (Z.ltb_lt (blk_size _) _)), orb_true_r by lia. by apply (Hskip false).
    + assert (u32 (st + sz) = st + sz - 2 ^ 32) as ->.
      { unfold uwrap. symmetry. apply (Z.mod_unique _ _ 1); lia. }
      rewrite (proj2 (Z.ltb_lt _ st)) by lia. by apply (Hskip false).
Qed.

Lemma listed_same b b' es : blk_size b' = blk_size b → ∀ nr, listed b' es nr = listed b es nr.
Proof. intros E. induction es as [|e es IH]; intros nr; simpl; [done|]. by rewrite !IH, E. Qed.

Lemma entry_loop_run rec pri es : ∀ s nr, scan_ok s → (∀ e, e ∈ es → is_extended e = false ∧ in_u 32 (offset e) ∧ in_u 32 (size e)) →
  0 ≤ nr → nr + Z.of_nat (length es) < 2 ^ 31 →
  ∃ nr' s', entry_loop rec 0 pri es nr s = Ok (nr', s') ∧ same_device s s' ∧ registered s' = registered s ++ listed (device s) es nr.
Proof.
  induction es as [|e es IH]; intros s nr Hs He H0 Hn; [exists nr, s; by rewrite app_nil_r|]. cbn [entry_loop listed]. simpl in Hn.
  assert (∀ e, e ∈ es → is_extended e = false ∧ in_u 32 (offset e) ∧ in_u 32 (size e)) as He' by (intros; apply He; set_solver).
  destruct (He e ltac:(set_solver)) as (Hx & Ho & Hz). destruct (is_empty e) eqn:Ee.
  - rewrite (bind_Ok (ret _) _ _ _ _ eq_refl). apply IH; [done..|lia].
  - rewrite Hx, Z.add_0_r, uwrap_id, swrap_id by (done || unfold in_s; lia).
    assert (0 < size e) as Hsz.
    { unfold is_empty in Ee. apply orb_false_iff in Ee as [?%Z.eqb_neq _]. unfold in_u in Hz. lia. }
    destruct (partition_found_run s (type e) (offset e) (size e) (nr + 1) Hs Ho Hz Hsz) as (s1 & E1 & Hd1 & Hr1).
    rewrite (bind_Ok _ _ s (nr + 1) s1) by (by rewrite (bind_Ok _ _ _ _ _ E1)).
    destruct (IH s1 (nr + 1) (scan_ok_same _ _ Hs Hd1) He' ltac:(lia) ltac:(lia)) as (nr' & s2 & E2 & Hd2 & Hr2).
    exists nr', s2. split; [done|]. split; [by eapply same_device_trans|]. by rewrite Hr2, Hr1, <-app_assoc, (listed_same _ _ _ (sd_size _ _ Hd1)).
Qed.

Lemma listed_fits b es : ∀ nr p, (∀ e, e ∈ es → in_u 32 (offset e) ∧ in_u 32 (size e)) → p ∈ listed b es nr → fits b p.
Proof.
  induction es as [|e es IH]; intros nr p He; [by intros ?%not_elem_of_nil|]. simpl.
  assert (∀ e, e ∈ es → in_u 32 (offset e) ∧ in_u 32 (size e)) as He' by (intros; apply He; set_solver).
  destruct (is_empty e) eqn:Ee; [by apply IH|]. intros [Hp|Hp]%elem_of_app; [|by eapply IH].
  destruct (He e ltac:(set_solver)) as [[Ho _] [Hz _]]. apply orb_false_iff in Ee as [?%Z.eqb_neq _].
  destruct (Z.leb_spec (offset e + size e) (blk_size b)); [|by apply not_elem_of_nil in Hp].
  apply list_elem_of_singleton in Hp as ->. unfold fits. simpl. lia.
Qed.

Lemma read_sector_run s k : 0 ≤ k < blk_size (device s) →
  ∃ s', on_device (λ b, block_read b k) s = Ok (contents (device s) k, s') ∧ same_device s s' ∧ registered s' = registered s ∧ malloc_cnt s' = malloc_cnt s.
Proof.
  intros Hk. unfold on_device. destruct (block_read_ok (device s) k ltac:(lia)) as (b & -> & Ec & Es & _). eexists. split; [done|]. by split; [split|].
Qed.

(** C26. Scanning a disk with an ordinary partition table registers exactly its non-empty
    entries that lie on the disk, numbered in order; each sector of a registered device is
    the corresponding sector of the disk, and none lies outside it. *)
Theorem partition_scan_correct n s : scan_ok s → registered s = [] → signature (contents (device s) 0) = 0xaa55 →
  Forall (λ e, is_extended e = false) (partitions (contents (device s) 0)) →
  ∃ nr s', partition_scan (S n) s = Ok (nr, s') ∧ same_device s s' ∧
    registered s' = listed (device s) (partitions (contents (device s) 0)) 0 ∧
    ∀ p k, p ∈ registered s' → 0 ≤ k < part_size p →
      ∃ s'', partition_read p k s' = Ok (contents (device s) (start p + k), s'') ∧ same_device s s''.
Proof.
  intros Hs Hr Hsig Hext. pose proof (sc_size _ Hs) as Hsz. rewrite list.Forall_forall in Hext.
  unfold partition_scan. cbn [read_partition_table]. erewrite (bind_Ok (gets _)) by done. rewrite (proj2 (Z.leb_gt _ _)) by lia.
  rewrite (bind_Ok _ _ _ _ _ (must_malloc_run s (sc_memory _ Hs _))). set (s0 := mk_scan _ _ _ _).
  destruct (read_sector_run s0 0 ltac:(simpl; lia)) as (s1 & E1 & Hd1 & Hr1 & _). rewrite (bind_Ok _ _ _ _ _ E1).
  change (contents (device s0) 0) with (contents (device s) 0). rewrite Hsig. change (negb (0xaa55 =? 0xaa55)) with false. cbv iota.
  assert (same_device s s1) as Hd01 by (by destruct Hd1). pose proof (partitions_range s) as Hrange.
  destruct (entry_loop_run (read_partition_table n) 0 (partitions (contents (device s) 0)) s1 0) as (nr & s2 & E2 & Hd2 & Hr2);
    [by eapply scan_ok_same|intros e He; split; [by apply Hext|by apply Hrange]|done|simpl; lia|].
  exists nr, s2. split; [exact E2|]. assert (same_device s s2) as Hd02 by (by eapply same_device_trans). split; [done|].
  rewrite Hr1 in Hr2. change (registered s0) with (registered s) in Hr2. rewrite Hr, app_nil_l, (listed_same _ _ _ (sd_size _ _ Hd01)) in Hr2.
  split; [done|]. intros p k Hp Hk. rewrite Hr2 in Hp.
  destruct (listed_fits _ _ _ _ (λ e He, Hrange e Hs He) Hp) as (H1 & H2 & H3). unfold partition_read.
  rewrite uwrap_id by (unfold in_u; lia). destruct (read_sector_run s2 (start p + k)) as (s3 & E3 & Hd3 & _).
  { rewrite (sd_size _ _ Hd02). lia. }
  exists s3. rewrite E3, (sd_contents _ _ Hd02). split; [done|]. by eapply same_device_trans.
Qed.

(** ** Nested tables *)

(** Entries that are not nested are dealt with. *)
Lemma entry_loop_skips rec sector pri es es' : ∀ s nr, scan_ok s →
  (∀ e, e ∈ es → is_extended e = false ∧ in_u 32 (size e)) →
  ∃ nr' s', entry_loop rec sector pri (es ++ es') nr s = entry_loop rec sector pri es' nr' s' ∧ same_device s s'.
Proof.
  induction es as [|e es IH]; intros s nr Hs He; [by exists nr, s|]. cbn [entry_loop app].
  assert (∀ e, e ∈ es → is_extended e = false ∧ in_u 32 (size e)) as He' by (intros; apply He; set_solver).
  destruct (He e ltac:(set_solver)) as (Hx & Hz). destruct (is_empty e) eqn:Ee.
  - rewrite (bind_Ok (ret _) _ _ _ _ eq_refl). by apply IH.
  - rewrite Hx. apply orb_false_iff in Ee as [?%Z.eqb_neq _].
    destruct (partition_found_run s (type e) (u32 (offset e + sector)) (size e) (s32 (nr + 1)) Hs) as (s1 & E1 & Hd1 & _);
      [by apply uwrap_range|done|unfold in_u in Hz; lia|].
    rewrite (bind_Ok _ _ s (s32 (nr + 1)) s1) by (by rewrite (bind_Ok _ _ _ _ _ E1)).
    destruct (IH s1 (s32 (nr + 1)) (scan_ok_same _ _ Hs Hd1) He') as (nr' & s2 & E2 & Hd2). exists nr', s2.
    split; [done|]. by eapply same_device_trans.
Qed.

Section Nested.
(** The table has the extended partition [e], after the entries [es1]. *)
Context (t : list Z) (es1 es2 : list entry) (e : entry).
Context (Hsig : signature t = 0xaa55) (Ht : partitions t = es1 ++ e :: es2).
Context (Hes : ∀ x, x ∈ es1 → is_extended x = false ∧ in_u 32 (size x)).
Context (He : is_empty e = false) (Hx : is_extended e = true) (Ho : 0 < offset e).

Lemma nested_diverges n : ∀ s sector pri nr, scan_ok s → contents (device s) 0 = t → 2 * offset e < blk_size (device s) →
  sector = 0 ∨ (sector = offset e ∨ sector = 2 * offset e) ∧ pri = offset e →
  read_partition_table n sector pri nr s = OutOfFuel.
Proof.
  induction n as [|n IH]; intros s sector pri nr Hs Hc Hsz Hsec; [done|]. cbn [read_partition_table].
  erewrite (bind_Ok (gets _)) by done. rewrite (proj2 (Z.leb_gt _ _)) by lia.
  rewrite (bind_Ok _ _ _ _ _ (must_malloc_run s (sc_memory _ Hs _))). set (s0 := mk_scan _ _ _ _).
  destruct (read_sector_run s0 0 ltac:(pose proof (sc_size _ Hs); simpl; lia)) as (s1 & E1 & Hd1 & _). rewrite (bind_Ok _ _ _ _ _ E1).
  change (contents (device s0) 0) with (contents (device s) 0). rewrite Hc, Hsig. change (negb (0xaa55 =? 0xaa55)) with false. cbv iota.
  assert (same_device s s1) as Hd01 by (by destruct Hd1). rewrite Ht.
  destruct (entry_loop_skips (read_partition_table n) sector pri es1 (e :: es2) s1 nr (scan_ok_same _ _ Hs Hd01) Hes) as (nr' & s2 & -> & Hd2).
  pose proof (same_device_trans _ _ _ Hd01 Hd2) as Hd02. cbn [entry_loop]. rewrite He, Hx. unfold bind.
  pose proof (sc_size _ Hs). destruct (Z.eqb_spec sector 0).
  - rewrite IH; [done|by eapply scan_ok_same|by rewrite (sd_contents _ _ Hd02)|by rewrite (sd_size _ _ Hd02)|auto].
  - assert (pri = offset e) as -> by (destruct Hsec as [?|[_ ?]]; done). rewrite uwrap_id by (unfold in_u; lia).
    rewrite IH; [done|by eapply scan_ok_same|by rewrite (sd_contents _ _ Hd02)|by rewrite (sd_size _ _ Hd02)|].
    right. split; [right; lia|done].
Qed.
End Nested.


(** ** Two disks *)

Definition sample_entry_bytes (t off sz : Z) : list Z :=
  [0; 0; 0; 0; t; 0; 0; 0] ++ Z_to_little_endian 4 8 off ++ Z_to_little_endian 4 8 sz.
Definition sample_table (t : Z) : list Z :=
  replicate 446 0 ++ sample_entry_bytes 0x20 1 10 ++ sample_entry_bytes t 11 20 ++ replicate 32 0 ++ [0x55; 0xaa].
Definition sample_disk_of (t : Z) : scan :=
  mk_scan (mk_block BLOCK_RAW 100 (λ n, if n =? 0 then sample_table t else replicate 512 n) 0 0) [] (λ _, true) 0.

Lemma sample_scan_ok t : in_u 8 t → scan_ok (sample_disk_of t).
Proof.
  intros Ht. split; [done|by simpl|done|]. simpl. unfold sample_table, sample_entry_bytes.
  repeat first [apply Forall_app; split|apply list.Forall_cons; split|apply Forall_replicate|apply Forall_nil];
    try done; try (unfold in_u; lia); apply Z_to_little_endian_bound; lia.
Qed.

Lemma partition_scan_correct_witness :
  ∃ nr s', partition_scan 1 (sample_disk_of 0x21) = Ok (nr, s') ∧
    registered s' = [mk_partition 1 BLOCK_KERNEL 1 10; mk_partition 2 BLOCK_FILESYS 11 20].
Proof.
  destruct (partition_scan_correct 0 (sample_disk_of 0x21)) as (nr & s' & E & _ & Er & _).
  - apply sample_scan_ok. unfold in_u. lia.
  - reflexivity.
  - by vm_compute.
  - vm_compute. repeat constructor.
  - exists nr, s'. split; [exact E|]. rewrite Er. by vm_compute.
Defined.

