(* ===== verification/Ide.v ===== *)
(** * The disk driver (devices/ide.c)

    Reading and writing sectors of ATA disks by programmed input and output.  The controller with its
    disks is a parameter: the class [Ata] has what the processor can do with it, to look at a port, to write one,
    to let time pass and to wait for an interrupt.  What the ATA standard says of a disk is the
    class [AtaDisk]; the driver is proved correct for every controller that keeps to it.  The
    operations of a channel take the port [base] of its registers.  The lock of the channel
    is held from the start to the end of a request, so that requests do not overlap.
    Messages on the console are left out. *)

From S2P Require Import Prelude Block.

(** ** Ports *)

Class Ata (HW : Type) := {
  ata_inb : Z → HW → Z * HW;
  ata_outb : Z → Z → HW → HW;
  (** [insw] and [outsw], with the bytes of the words. *)
  ata_insw : Z → nat → HW → list Z * HW;
  ata_outsw : Z → list Z → HW → HW;
  (** A number of nanoseconds passes. *)
  ata_delay : Z → HW → HW;
  (** The controller when its next interrupt comes, if one does. *)
  ata_irq : HW → option HW }.

Definition STA_BSY : Z := 0x80.
Definition STA_DRDY : Z := 0x40.
Definition STA_DRQ : Z := 0x08.
Definition CTL_SRST : Z := 0x04.
Definition DEV_MBS : Z := 0xa0.
Definition DEV_LBA : Z := 0x40.
Definition DEV_DEV : Z := 0x10.
Definition CMD_IDENTIFY_DEVICE : Z := 0xec.
Definition CMD_READ_SECTOR_RETRY : Z := 0x20.
Definition CMD_WRITE_SECTOR_RETRY : Z := 0x30.

(** [struct ata_disk] and [struct channel]: the members that change. *)
Record channel (HW : Type) := mk_channel {
  hw : HW;
  expecting_interrupt : bool;
  completion_wait : Z;
  is_ata : list bool }.
Arguments mk_channel {HW}.
Arguments hw {HW}.
Arguments expecting_interrupt {HW}.
Arguments completion_wait {HW}.
Arguments is_ata {HW}.

Section Driver.
Context {HW : Type} {ata : Ata HW} (base : Z).

Abbreviation I := (M (channel HW)).

Definition set_hw (h : HW) (c : channel HW) : channel HW :=
  mk_channel h (expecting_interrupt c) (completion_wait c) (is_ata c).
Definition inb (port : Z) : I Z := λ c, let '(v, h) := ata_inb port (hw c) in Ok (v, set_hw h c).
Definition outb (port value : Z) : I unit := modify (λ c, set_hw (ata_outb port (u8 value) (hw c)) c).
Definition delay (ns : Z) : I unit := modify (λ c, set_hw (ata_delay ns (hw c)) c).

Definition reg_data : Z := base + 0.
Definition reg_error : Z := base + 1.
Definition reg_nsect : Z := base + 2.
Definition reg_lbal : Z := base + 3.
Definition reg_lbam : Z := base + 4.
Definition reg_lbah : Z := base + 5.
Definition reg_device : Z := base + 6.
Definition reg_status : Z := base + 7.
Definition reg_command : Z := reg_status.
Definition reg_ctl : Z := base + 0x206.
Definition reg_alt_status : Z := reg_ctl.

(** ** Waiting *)

(** [n] rounds to go; the timeout is only reported. *)
Fixpoint idle_loop (n : nat) : I unit :=
  match n with
  | O => ret tt
  | S n =>
      let! st := inb reg_status in
      if Z.land st (Z.lor STA_BSY STA_DRQ) =? 0 then ret tt
      else let! _ := delay (10 * 1000) in idle_loop n
  end.
Definition wait_until_idle : I unit := idle_loop 1000.

Fixpoint busy_loop (n : nat) : I bool :=
  match n with
  | O => ret false
  | S n =>
      let! st := inb reg_alt_status in
      if Z.land st STA_BSY =? 0 then
        let! st := inb reg_alt_status in ret (negb (Z.land st STA_DRQ =? 0))
      else let! _ := delay (10 * 1000 * 1000) in busy_loop n
  end.
Definition wait_while_busy : I bool := busy_loop 3000.

Definition select_device (dev_no : Z) : I unit :=
  let! _ := outb reg_device (if dev_no =? 1 then Z.lor DEV_MBS DEV_DEV else DEV_MBS) in
  let! _ := inb reg_alt_status in
  delay 400.

Definition select_device_wait (dev_no : Z) : I unit :=
  let! _ := wait_until_idle in
  let! _ := select_device dev_no in
  wait_until_idle.

(** ** Interrupts *)

(** The body of the loop of [interrupt_handler] for the channel whose interrupt came; [true] is an expected one. *)
Definition handle_interrupt : I bool :=
  let! expecting := gets expecting_interrupt in
  if expecting : bool then
    let! _ := inb reg_status in
    let! _ := modify (λ c, mk_channel (hw c) (expecting_interrupt c) (u32 (completion_wait c + 1)) (is_ata c)) in
    ret true
  else ret false.

(** [sema_down]: the thread sleeps until the handler has run, or forever. *)
Definition sema_down : I unit :=
  let! v := gets completion_wait in
  let! _ :=
    (if v =? 0 then
       let! h := gets hw in
       match ata_irq h with
       | Some h => let! _ := modify (set_hw h) in let! _ := handle_interrupt in ret tt
       | None => out_of_fuel
       end
     else ret tt) in
  let! v := gets completion_wait in
  if v =? 0 then out_of_fuel
  else modify (λ c, mk_channel (hw c) (expecting_interrupt c) (v - 1) (is_ata c)).

(** ** Requests *)

Definition select_sector (dev_no sec_no : Z) : I unit :=
  let! _ := ASSERT (sec_no <? 2 ^ 28) in
  let! _ := select_device_wait dev_no in
  let! _ := outb reg_nsect 1 in
  let! _ := outb reg_lbal sec_no in
  let! _ := outb reg_lbam (Z.shiftr sec_no 8) in
  let! _ := outb reg_lbah (Z.shiftr sec_no 16) in
  outb reg_device (Z.lor (Z.lor (Z.lor DEV_MBS DEV_LBA) (if dev_no =? 1 then DEV_DEV else 0)) (Z.shiftr sec_no 24)).

(** With interrupts on. *)
Definition issue_pio_command (command : Z) : I unit :=
  let! _ := modify (λ c, mk_channel (hw c) true (completion_wait c) (is_ata c)) in
  outb reg_command command.

Definition input_sector : I (list Z) := λ c,
  let '(bs, h) := ata_insw reg_data (Z.to_nat (BLOCK_SECTOR_SIZE `quot` 2)) (hw c) in Ok (bs, set_hw h c).
Definition output_sector (sector : list Z) : I unit := modify (λ c, set_hw (ata_outsw reg_data sector (hw c)) c).

Definition ide_read (dev_no sec_no : Z) : I (list Z) :=
  let! _ := select_sector dev_no sec_no in
  let! _ := issue_pio_command CMD_READ_SECTOR_RETRY in
  let! _ := sema_down in
  let! ok := wait_while_busy in
  if negb ok then panic else input_sector.

Definition ide_write (dev_no sec_no : Z) (buffer : list Z) : I unit :=
  let! _ := select_sector dev_no sec_no in
  let! _ := issue_pio_command CMD_WRITE_SECTOR_RETRY in
  let! ok := wait_while_busy in
  if negb ok then panic
  else
    let! _ := output_sector buffer in
    sema_down.

(** ** Detection *)

(** Whether a device answers: it keeps what is written to two of its registers. *)
Definition probe (dev_no : Z) : I bool :=
  let! _ := select_device dev_no in
  let! _ := outb reg_nsect 0x55 in
  let! _ := outb reg_lbal 0xaa in
  let! _ := outb reg_nsect 0xaa in
  let! _ := outb reg_lbal 0x55 in
  let! _ := outb reg_nsect 0x55 in
  let! _ := outb reg_lbal 0xaa in
  let! nsect := inb reg_nsect in
  if negb (nsect =? 0x55) then ret false
  else let! lbal := inb reg_lbal in ret (lbal =? 0xaa).

Fixpoint signature_loop (n : nat) : I unit :=
  match n with
  | O => ret tt
  | S n =>
      let! nsect := inb reg_nsect in
      let! found := (if nsect =? 1 then let! lbal := inb reg_lbal in ret (lbal =? 1) else ret false) in
      if found : bool then ret tt else let! _ := delay (10 * 1000 * 1000) in signature_loop n
  end.

Definition reset_channel : I unit :=
  let! present0 := probe 0 in
  let! present1 := probe 1 in
  let! _ := outb reg_ctl 0 in
  let! _ := delay (10 * 1000) in
  let! _ := outb reg_ctl CTL_SRST in
  let! _ := delay (10 * 1000) in
  let! _ := outb reg_ctl 0 in
  let! _ := delay (150 * 1000 * 1000) in
  let! _ :=
    (if present0 : bool then let! _ := select_device 0 in let! _ := wait_while_busy in ret tt else ret tt) in
  if present1 : bool then
    let! _ := select_device 1 in
    let! _ := signature_loop 3000 in
    let! _ := wait_while_busy in
    ret tt
  else ret tt.

Definition set_ata (dev_no : Z) (b : bool) : I unit :=
  modify (λ c, mk_channel (hw c) (expecting_interrupt c) (completion_wait c) (<[Z.to_nat dev_no := b]> (is_ata c))).

Definition check_device_type (dev_no : Z) : I bool :=
  let! _ := select_device dev_no in
  let! error := inb reg_error in
  let! lbam := inb reg_lbam in
  let! lbah := inb reg_lbah in
  let! status := inb reg_status in
  if (negb (error =? 1) && (negb (error =? 0x81) || (dev_no =? 1)))
     || (Z.land status STA_DRDY =? 0) || negb (Z.land status STA_BSY =? 0)
  then
    let! _ := set_ata dev_no false in
    ret (negb (error =? 0x81))
  else
    let! _ := set_ata dev_no (((lbam =? 0) && (lbah =? 0)) || ((lbam =? 0x3c) && (lbah =? 0xc3))) in
    ret true.
End Driver.

(** ** Identification *)

(** Swaps the bytes of each pair. *)
Fixpoint swap_pairs (bs : list Z) : list Z :=
  match bs with
  | a :: b :: bs => b :: a :: swap_pairs bs
  | bs => bs
  end.

Definition isspace (c : Z) : bool :=
  (c =? 32) || (c =? 12) || (c =? 10) || (c =? 13) || (c =? 9) || (c =? 11).

(** [for (size--; size > 0; size--)]: where the string is cut off. *)
Fixpoint trim_loop (size : nat) (bs : list Z) : nat :=
  match size with
  | O => O
  | S n =>
      match bs !! n with
      | Some c => if negb (c =? 0) && negb (isspace c) then size else trim_loop n bs
      | None => size
      end
  end.

(** The string that is left in the [size] bytes. *)
Definition descramble_ata_string (bs : list Z) : list Z :=
  let bs := swap_pairs bs in
  let n := trim_loop (length bs - 1) bs in
  let bs := <[n := 0]> bs in
  take n bs.

(** What [identify_ata_device] finds out; [None] when the device is not used. *)
Record identity := mk_identity { capacity : Z; model : list Z; serial : list Z }.

Definition identity_of (id : list Z) : option identity :=
  let capacity := little_endian_to_Z 8 (take 4 (drop 120 id)) in
  if 1024 * 1024 * 1024 `quot` BLOCK_SECTOR_SIZE <=? capacity then None
  else Some (mk_identity capacity (descramble_ata_string (take 20 (drop 20 id))) (descramble_ata_string (take 40 (drop 54 id)))).

Section Identify.
Context {HW : Type} {ata : Ata HW} (base : Z).

Definition identify_ata_device (dev_no : Z) : M (channel HW) (option identity) :=
  let! ok := gets (λ c, default false (is_ata c !! Z.to_nat dev_no)) in
  let! _ := ASSERT ok in
  let! _ := select_device_wait base dev_no in
  let! _ := issue_pio_command base CMD_IDENTIFY_DEVICE in
  let! _ := sema_down base in
  let! ok := wait_while_busy base in
  if negb ok then let! _ := set_ata dev_no false in ret None
  else
    let! id := input_sector base in
    match identity_of id with
    | Some i => ret (Some i)
    | None => let! _ := set_ata dev_no false in ret None
    end.

(** The part of [ide_init] for one channel: the devices that [block_register] is called for. *)
Definition init_channel : M (channel HW) (list (Z * identity)) :=
  let! _ := modify (λ c, mk_channel (hw c) false 0 [false; false]) in
  let! _ := reset_channel base in
  let! slave := check_device_type base 0 in
  let! _ := (if slave : bool then let! _ := check_device_type base 1 in ret tt else ret tt) in
  let! ata0 := gets (λ c, default false (is_ata c !! 0%nat)) in
  let! i0 := (if ata0 : bool then identify_ata_device 0 else ret None) in
  let! ata1 := gets (λ c, default false (is_ata c !! 1%nat)) in
  let! i1 := (if ata1 : bool then identify_ata_device 1 else ret None) in
  ret (from_option (λ i, [(0, i)]) [] i0 ++ from_option (λ i, [(1, i)]) [] i1).
End Identify.

(** ** The two channels *)

Definition reg_base (chan_no : nat) : Z := match chan_no with O => 0x1f0 | _ => 0x170 end.
Definition irq (chan_no : nat) : Z := match chan_no with O => 14 + 0x20 | _ => 15 + 0x20 end.

Section Channels.
Context {HW : Type} {ata : Ata HW}.

(** Looks for the channel of the interrupt from number [chan_no] on. *)
Fixpoint interrupt_handler (vec_no : Z) (chan_no : nat) (channels : list (channel HW)) : outcome (list (channel HW)) :=
  match channels with
  | [] => Panic
  | c :: cs =>
      if vec_no =? irq chan_no then
        let? x := handle_interrupt (reg_base chan_no) c in Ok (x.2 :: cs)
      else let? cs := interrupt_handler vec_no (S chan_no) cs in Ok (c :: cs)
  end.

Fixpoint ide_init (chan_no : nat) (channels : list (channel HW)) : outcome (list (list (Z * identity)) * list (channel HW)) :=
  match channels with
  | [] => Ok ([], [])
  | c :: cs =>
      let? x := init_channel (reg_base chan_no) c in
      let? y := ide_init (S chan_no) cs in
      Ok (x.1 :: y.1, x.2 :: y.2)
  end.
End Channels.

(** ** What the standard says of a disk *)

Record registers := mk_registers { r_lbal : Z; r_lbam : Z; r_lbah : Z; r_device : Z }.

(** What a channel is doing: nothing, offering the bytes of a sector, waiting for those of a sector,
    reporting an error, or being busy for some hundredths of a second and then in another phase. *)
Inductive phase :=
  | Idle
  | DataIn (bs : list Z)
  | DataOut (dev lba : Z)
  | Failed
  | Busy (n : nat) (p : phase).

Definition status_ok (p : phase) (v : Z) : Prop :=
  match p with
  | Busy _ _ => Z.land v STA_BSY ≠ 0
  | DataIn _ | DataOut _ _ => Z.land v STA_BSY = 0 ∧ Z.land v STA_DRQ ≠ 0
  | Idle | Failed => Z.land v STA_BSY = 0 ∧ Z.land v STA_DRQ = 0
  end.

(** The device and the sector the registers select, in LBA mode. *)
Definition selected_dev (r : registers) : Z := if Z.testbit (r_device r) 4 then 1 else 0.
Definition selected_lba (r : registers) : Z :=
  r_lbal r + 2 ^ 8 * r_lbam r + 2 ^ 16 * r_lbah r + 2 ^ 24 * (r_device r `mod` 2 ^ 4).

Definition write_register (base port v : Z) (r : registers) : registers :=
  if port =? base + 3 then mk_registers v (r_lbam r) (r_lbah r) (r_device r)
  else if port =? base + 4 then mk_registers (r_lbal r) v (r_lbah r) (r_device r)
  else if port =? base + 5 then mk_registers (r_lbal r) (r_lbam r) v (r_device r)
  else if port =? base + 6 then mk_registers (r_lbal r) (r_lbam r) (r_lbah r) v
  else r.

(** The longest a disk is busy, in hundredths of a second. *)
Definition PATIENCE : nat := 2998.

Class AtaDisk {HW : Type} (ata : Ata HW) (base : Z) := {
  phase_of : HW → phase;
  regs_of : HW → registers;
  sectors : HW → Z → Z → list Z;
  capacity_of : Z → Z;
  (** Both status registers show the phase. *)
  ad_status h port : port = base + 7 ∨ port = base + 0x206 →
    status_ok (phase_of h) (ata_inb port h).1 ∧ phase_of (ata_inb port h).2 = phase_of h ∧
    regs_of (ata_inb port h).2 = regs_of h ∧ sectors (ata_inb port h).2 = sectors h;
  (** The registers of an idle device can be written. *)
  ad_register h port v : phase_of h = Idle → base + 2 ≤ port ≤ base + 6 →
    phase_of (ata_outb port v h) = Idle ∧ sectors (ata_outb port v h) = sectors h ∧
    regs_of (ata_outb port v h) = write_register base port v (regs_of h);
  (** READ SECTOR and WRITE SECTOR in LBA mode. *)
  ad_read h : phase_of h = Idle → Z.testbit (r_device (regs_of h)) 6 = true →
    let dev := selected_dev (regs_of h) in let lba := selected_lba (regs_of h) in
    let h' := ata_outb (base + 7) 0x20 h in
    sectors h' = sectors h ∧ ∃ n, (n ≤ PATIENCE)%nat ∧
      phase_of h' = Busy n (if lba <? capacity_of dev then DataIn (sectors h dev lba) else Failed);
  ad_write h : phase_of h = Idle → Z.testbit (r_device (regs_of h)) 6 = true →
    let dev := selected_dev (regs_of h) in let lba := selected_lba (regs_of h) in
    let h' := ata_outb (base + 7) 0x30 h in
    sectors h' = sectors h ∧ ∃ n, (n ≤ PATIENCE)%nat ∧
      phase_of h' = Busy n (if lba <? capacity_of dev then DataOut dev lba else Failed);
  (** The data go through the data register. *)
  ad_in h bs : phase_of h = DataIn bs → length bs = 512%nat →
    (ata_insw (base + 0) 256 h).1 = bs ∧ phase_of (ata_insw (base + 0) 256 h).2 = Idle ∧
    sectors (ata_insw (base + 0) 256 h).2 = sectors h;
  ad_out h dev lba bs : phase_of h = DataOut dev lba → length bs = 512%nat →
    let h' := ata_outsw (base + 0) bs h in
    (∃ n, phase_of h' = Busy n Idle) ∧
    ∀ d l, sectors h' d l = if bool_decide (d = dev ∧ l = lba) then bs else sectors h d l;
  (** Time passes. *)
  ad_delay h ns : regs_of (ata_delay ns h) = regs_of h ∧ sectors (ata_delay ns h) = sectors h ∧
    (phase_of h = Idle → phase_of (ata_delay ns h) = Idle) ∧
    ∀ n p, phase_of h = Busy n p → ns = 10 * 1000 * 1000 →
      phase_of (ata_delay ns h) = match n with O => p | S n => Busy n p end;
  (** A device that is done with a command interrupts. *)
  ad_irq h n p : phase_of h = Busy n p → ∃ h', ata_irq h = Some h' ∧ phase_of h' = p ∧ sectors h' = sectors h;
  ad_length h dev lba : length (sectors h dev lba) = 512%nat }.

Section Correct.
Context {HW : Type} {ata : Ata HW} (base : Z) {disk : AtaDisk ata base}.
Abbreviation chan := (channel HW).

(** The driver's state with [h] for the hardware. *)
Record same_driver (c c' : chan) : Prop := {
  sd_expecting : expecting_interrupt c' = expecting_interrupt c;
  sd_completion : completion_wait c' = completion_wait c;
  sd_ata : is_ata c' = is_ata c }.

#[local] Instance same_driver_refl : Reflexive same_driver.
Proof. by split. Qed.
#[local] Instance same_driver_trans : Transitive same_driver.
Proof. intros c1 c2 c3 [] []. split; congruence. Qed.

Lemma status_run c port : port = base + 7 ∨ port = base + 0x206 →
  ∃ v c', inb port c = Ok (v, c') ∧ status_ok (phase_of (hw c)) v ∧ phase_of (hw c') = phase_of (hw c) ∧
    regs_of (hw c') = regs_of (hw c) ∧ sectors (hw c') = sectors (hw c) ∧ same_driver c c'.
Proof.
  intros Hp. destruct (ad_status (hw c) port Hp) as (Hs & Hph & Hr & Hse). unfold inb. destruct (ata_inb port (hw c)) as [v h].
  eexists _, _. split; [done|]. by repeat split.
Qed.

Lemma idle_run c n : phase_of (hw c) = Idle → (0 < n)%nat →
  ∃ c', idle_loop base n c = Ok (tt, c') ∧ phase_of (hw c') = Idle ∧ regs_of (hw c') = regs_of (hw c) ∧
    sectors (hw c') = sectors (hw c) ∧ same_driver c c'.
Proof.
  intros Hp Hn. destruct n as [|n]; [lia|]. cbn [idle_loop]. unfold reg_status.
  destruct (status_run c (base + 7)) as (v & c' & E & Hs & Hp' & H); [by left|]. rewrite (bind_Ok _ _ _ _ _ E). rewrite Hp in Hs, Hp'.
  destruct Hs as [Hb Hd]. exists c'. split; [|done]. rewrite Z.land_lor_distr_r, Hb, Hd. done.
Qed.

Lemma port_register_run c port v : phase_of (hw c) = Idle → base + 2 ≤ port ≤ base + 6 →
  ∃ c', outb port v c = Ok (tt, c') ∧ phase_of (hw c') = Idle ∧ regs_of (hw c') = write_register base port (u8 v) (regs_of (hw c)) ∧
    sectors (hw c') = sectors (hw c) ∧ same_driver c c'.
Proof.
  intros Hp Ho. destruct (ad_register (hw c) port (u8 v) Hp Ho) as (H1 & H2 & H3). eexists. split; [done|]. by repeat split.
Qed.

Lemma select_device_run c dev_no : phase_of (hw c) = Idle →
  ∃ c', select_device_wait base dev_no c = Ok (tt, c') ∧ phase_of (hw c') = Idle ∧ sectors (hw c') = sectors (hw c) ∧ same_driver c c'.
Proof.
  intros Hp. unfold select_device_wait, wait_until_idle.
  destruct (idle_run c 1000 Hp ltac:(lia)) as (c1 & E1 & Hp1 & _ & Hs1 & Hd1). rewrite (bind_Ok _ _ _ _ _ E1).
  unfold select_device, reg_device, reg_alt_status, reg_ctl.
  destruct (port_register_run c1 (base + 6) (if dev_no =? 1 then Z.lor DEV_MBS DEV_DEV else DEV_MBS) Hp1 ltac:(lia)) as (c2 & E2 & Hp2 & _ & Hs2 & Hd2).
  destruct (status_run c2 (base + 0x206)) as (v & c3 & E3 & _ & Hp3 & _ & Hs3 & Hd3); [by right|].
  destruct (ad_delay (hw c3) 400) as (_ & Hs4 & Hp4 & _).
  erewrite (bind_Ok (bind _ _)) by (rewrite (bind_Ok _ _ _ _ _ E2), (bind_Ok _ _ _ _ _ E3); done).
  destruct (idle_run (set_hw (ata_delay 400 (hw c3)) c3) 1000) as (c5 & E5 & Hp5 & _ & Hs5 & Hd5); [apply Hp4; congruence|lia|].
  exists c5. split; [done|]. split; [done|]. split; [cbn in Hs5; congruence|]. etrans; [exact Hd1|]. etrans; [exact Hd2|]. etrans; [exact Hd3|]. by destruct Hd5.
Qed.

Lemma write_register_offset k v r : write_register base (base + k) v r = write_register 0 k v r.
Proof.
  assert (∀ j, (base + k =? base + j) = (k =? 0 + j)) as H by (intros j; destruct (Z.eqb_spec k (0 + j)), (Z.eqb_spec (base + k) (base + j)); lia).
  unfold write_register. by rewrite !H.
Qed.

(** The registers hold the sector number in four parts. *)
Lemma lba_parts dev_no r sec : 0 ≤ sec < 2 ^ 28 → dev_no = 0 ∨ dev_no = 1 →
  let d := u8 (Z.lor (Z.lor (Z.lor DEV_MBS DEV_LBA) (if dev_no =? 1 then DEV_DEV else 0)) (Z.shiftr sec 24)) in
  let r' := write_register base (base + 6) d (write_register base (base + 5) (u8 (Z.shiftr sec 16))
              (write_register base (base + 4) (u8 (Z.shiftr sec 8)) (write_register base (base + 3) (u8 sec)
                (write_register base (base + 2) (u8 1) r)))) in
  selected_lba r' = sec ∧ selected_dev r' = dev_no ∧ Z.testbit (r_device r') 6 = true.
Proof.
  intros Hs Hd d r'. set (k := Z.shiftr sec 24) in *.
  assert (k = sec / 2 ^ 24) as Ek by (apply Z.shiftr_div_pow2; lia).
  assert (0 ≤ k < 16) as Hk by (rewrite Ek; split; [apply Z.div_pos; lia|apply Z.div_lt_upper_bound; lia]).
  assert (d `mod` 2 ^ 4 = k ∧ Z.testbit d 4 = (dev_no =? 1) ∧ Z.testbit d 6 = true) as (Hm & H4 & H6).
  { unfold d. assert (∃ n, (n < 16)%nat ∧ k = Z.of_nat n) as (n & Hn & ->) by (exists (Z.to_nat k); lia).
    do 16 (destruct n as [|n]; [destruct Hd as [-> | ->]; by vm_compute|]). lia. }
  assert (r' = mk_registers (u8 sec) (u8 (Z.shiftr sec 8)) (u8 (Z.shiftr sec 16)) d) as ->.
  { unfold r'. rewrite !write_register_offset. done. }
  unfold selected_lba, selected_dev. cbn [r_lbal r_lbam r_lbah r_device]. rewrite Hm, H4, H6. split; [|split; [|done]].
  - rewrite !Z.shiftr_div_pow2 by lia. unfold uwrap. rewrite Ek.
    pose proof (Z.div_mod sec (2 ^ 8) ltac:(lia)). pose proof (Z.div_mod (sec / 2 ^ 8) (2 ^ 8) ltac:(lia)).
    pose proof (Z.div_mod (sec / 2 ^ 16) (2 ^ 8) ltac:(lia)).
    rewrite (Z.div_div sec (2 ^ 8) (2 ^ 8)) in * by lia. rewrite (Z.div_div sec (2 ^ 16) (2 ^ 8)) in * by lia.
    change (2 ^ 8 * 2 ^ 8) with (2 ^ 16) in *. change (2 ^ 16 * 2 ^ 8) with (2 ^ 24) in *. lia.
  - destruct Hd as [-> | ->]; done.
Qed.

Lemma select_sector_run c dev_no sec : phase_of (hw c) = Idle → 0 ≤ sec < 2 ^ 28 → dev_no = 0 ∨ dev_no = 1 →
  ∃ c', select_sector base dev_no sec c = Ok (tt, c') ∧ phase_of (hw c') = Idle ∧ sectors (hw c') = sectors (hw c) ∧ same_driver c c' ∧
    selected_lba (regs_of (hw c')) = sec ∧ selected_dev (regs_of (hw c')) = dev_no ∧ Z.testbit (r_device (regs_of (hw c'))) 6 = true.
Proof.
  intros Hp Hs Hd. unfold select_sector. rewrite (proj2 (Z.ltb_lt _ _)) by lia. rewrite (bind_Ok (ASSERT true) _ c tt c) by done.
  destruct (select_device_run c dev_no Hp) as (c1 & E1 & Hp1 & Hs1 & Hd1). rewrite (bind_Ok _ _ _ _ _ E1).
  unfold reg_nsect, reg_lbal, reg_lbam, reg_lbah, reg_device.
  destruct (port_register_run c1 (base + 2) 1 Hp1 ltac:(lia)) as (c2 & E2 & Hp2 & Hr2 & Hs2 & Hd2). rewrite (bind_Ok _ _ _ _ _ E2).
  destruct (port_register_run c2 (base + 3) sec Hp2 ltac:(lia)) as (c3 & E3 & Hp3 & Hr3 & Hs3 & Hd3). rewrite (bind_Ok _ _ _ _ _ E3).
  destruct (port_register_run c3 (base + 4) (Z.shiftr sec 8) Hp3 ltac:(lia)) as (c4 & E4 & Hp4 & Hr4 & Hs4 & Hd4). rewrite (bind_Ok _ _ _ _ _ E4).
  destruct (port_register_run c4 (base + 5) (Z.shiftr sec 16) Hp4 ltac:(lia)) as (c5 & E5 & Hp5 & Hr5 & Hs5 & Hd5). rewrite (bind_Ok _ _ _ _ _ E5).
  destruct (port_register_run c5 (base + 6) (Z.lor (Z.lor (Z.lor DEV_MBS DEV_LBA) (if dev_no =? 1 then DEV_DEV else 0)) (Z.shiftr sec 24)) Hp5 ltac:(lia))
    as (c6 & E6 & Hp6 & Hr6 & Hs6 & Hd6).
  exists c6. split; [done|]. split; [done|]. split; [congruence|]. split.
  { etrans; [exact Hd1|]. etrans; [exact Hd2|]. etrans; [exact Hd3|]. etrans; [exact Hd4|]. etrans; [exact Hd5|]. exact Hd6. }
  rewrite Hr6, Hr5, Hr4, Hr3, Hr2. by apply lba_parts.
Qed.

(** What [wait_while_busy] says of a disk that is not busy: whether it has or wants data. *)
Definition wants_transfer (p : phase) : bool := match p with DataIn _ | DataOut _ _ => true | _ => false end.
Definition is_busy (p : phase) : bool := match p with Busy _ _ => true | _ => false end.

Lemma ready_run c n : is_busy (phase_of (hw c)) = false → (1 ≤ n)%nat →
  ∃ c', busy_loop base n c = Ok (wants_transfer (phase_of (hw c)), c') ∧
    phase_of (hw c') = phase_of (hw c) ∧ sectors (hw c') = sectors (hw c) ∧ same_driver c c'.
Proof.
  intros Hnb Hn. destruct n as [|n]; [lia|]. cbn [busy_loop]. unfold reg_alt_status, reg_ctl.
  destruct (status_run c (base + 0x206)) as (v & c1 & E1 & Hv & Hp1 & _ & Hs1 & Hd1); [by right|]. rewrite (bind_Ok _ _ _ _ _ E1).
  destruct (status_run c1 (base + 0x206)) as (w & c2 & E2 & Hw & Hp2 & _ & Hs2 & Hd2); [by right|]. rewrite Hp1 in Hw.
  assert (Z.land v STA_BSY = 0) as -> by (destruct (phase_of (hw c)); simpl in Hv, Hnb; tauto || done).
  cbn [Z.eqb]. rewrite (bind_Ok _ _ _ _ _ E2). exists c2. split; [|split; [congruence|split; [congruence|by etrans]]].
  unfold ret. do 2 f_equal. destruct (phase_of (hw c)); simpl in Hw, Hnb |- *; try done; destruct Hw as [_ Hw];
    destruct (Z.eqb_spec (Z.land w STA_DRQ) 0); done.
Qed.

(** Waiting for a busy disk ends. *)
Lemma busy_run p k : ∀ c n, phase_of (hw c) = Busy k p → is_busy p = false → (k + 2 ≤ n)%nat →
  ∃ c', busy_loop base n c = Ok (wants_transfer p, c') ∧ phase_of (hw c') = p ∧ sectors (hw c') = sectors (hw c) ∧ same_driver c c'.
Proof.
  induction k as [|k IH]; intros c n Hp Hnb Hn; (destruct n as [|n]; [lia|]); cbn [busy_loop]; unfold reg_alt_status, reg_ctl;
    (destruct (status_run c (base + 0x206)) as (v & c1 & E1 & Hv & Hp1 & _ & Hs1 & Hd1); [by right|]);
    rewrite (bind_Ok _ _ _ _ _ E1); rewrite Hp in Hv; simpl in Hv; rewrite (proj2 (Z.eqb_neq _ _) Hv);
    erewrite (bind_Ok (delay _)) by done;
    destruct (ad_delay (hw c1) (10 * 1000 * 1000)) as (_ & Hs2 & _ & Hb); rewrite Hp1 in Hb; specialize (Hb _ _ Hp eq_refl);
    set (c2 := set_hw (ata_delay (10 * 1000 * 1000) (hw c1)) c1) in *; assert (same_driver c1 c2) as Hd2 by done.
  - change (phase_of (hw c2) = p) in Hb. rewrite <-Hb in Hnb. destruct (ready_run c2 n Hnb ltac:(lia)) as (c' & E & Hp' & Hs' & Hd').
    rewrite Hb in E, Hp'. exists c'. split; [done|]. split; [done|]. split; [rewrite Hs'; unfold c2; cbn; congruence|].
    etrans; [exact Hd1|]. by etrans.
  - change (phase_of (hw c2) = Busy k p) in Hb. destruct (IH c2 n Hb Hnb ltac:(lia)) as (c' & E & Hp' & Hs' & Hd').
    exists c'. split; [done|]. split; [done|]. split; [rewrite Hs'; unfold c2; cbn; congruence|].
    etrans; [exact Hd1|]. by etrans.
Qed.

(** Between requests the channel is idle and no completion is left over. *)
Definition ready (c : chan) : Prop := phase_of (hw c) = Idle ∧ completion_wait c = 0.

(** A thread that waits for a busy disk is woken by its interrupt. *)
Lemma sema_down_run c k p : phase_of (hw c) = Busy k p → completion_wait c = 0 → expecting_interrupt c = true →
  ∃ c', sema_down base c = Ok (tt, c') ∧ phase_of (hw c') = p ∧ sectors (hw c') = sectors (hw c) ∧ same_driver c c'.
Proof.
  intros Hp Hc He. destruct (ad_irq (hw c) k p Hp) as (h & Ei & Hp1 & Hs1). unfold sema_down.
  rewrite (bind_Ok (gets _) _ c (completion_wait c) c eq_refl), Hc. cbn [Z.eqb].
  destruct (status_run (set_hw h c) (base + 7)) as (v & c2 & E2 & _ & Hp2 & _ & Hs2 & Hd2); [by left|].
  destruct Hd2 as [He2 Hc2 Ha2]. cbn in He2, Hc2, Ha2, Hp2, Hs2.
  set (c3 := mk_channel (hw c2) (expecting_interrupt c2) (u32 (completion_wait c2 + 1)) (is_ata c2)).
  erewrite (bind_Ok (bind _ _) _ c tt c3).
  - rewrite (bind_Ok (gets _) _ c3 (completion_wait c3) c3 eq_refl). unfold c3. cbn [completion_wait]. rewrite Hc2, Hc. change (u32 (0 + 1)) with 1. cbn [Z.eqb].
    eexists. split; [done|]. cbn. split; [congruence|]. split; [congruence|]. split; cbn; [congruence|lia|congruence].
  - rewrite (bind_Ok (gets _) _ c (hw c) c eq_refl), Ei. erewrite (bind_Ok (modify _)) by done. unfold handle_interrupt.
    erewrite (bind_Ok (bind _ _)); [done|]. rewrite (bind_Ok (gets _) _ (set_hw h c) true (set_hw h c)) by (unfold gets; cbn; by rewrite He).
    unfold reg_status. rewrite (bind_Ok _ _ _ _ _ E2). done.
Qed.

Lemma command_run c command : 0 ≤ command < 256 →
  issue_pio_command base command c =
    Ok (tt, mk_channel (ata_outb (base + 7) command (hw c)) true (completion_wait c) (is_ata c)).
Proof. intros H. unfold issue_pio_command, outb, reg_command, reg_status, uwrap, bind, modify, set_hw. cbn [hw expecting_interrupt completion_wait is_ata].
  by rewrite (Z.mod_small command (2 ^ 8)) by lia. Qed.

(** A sector that the disk has is read and the channel is ready again. *)
Lemma ide_read_run c dev sec : ready c → dev = 0 ∨ dev = 1 → 0 ≤ sec < 2 ^ 28 →
  if sec <? capacity_of dev
  then ∃ c', ide_read base dev sec c = Ok (sectors (hw c) dev sec, c') ∧ ready c' ∧ sectors (hw c') = sectors (hw c)
  else ide_read base dev sec c = Panic.
Proof.
  intros [Hp Hc] Hdev Hsec. unfold ide_read.
  destruct (select_sector_run c dev sec Hp Hsec Hdev) as (c1 & E1 & Hp1 & Hs1 & [Hd1 Hc1 Ha1] & Hl & Hsd & Hm). rewrite (bind_Ok _ _ _ _ _ E1).
  rewrite (bind_Ok _ _ _ _ _ (command_run c1 CMD_READ_SECTOR_RETRY ltac:(done))).
  destruct (ad_read (hw c1) Hp1 Hm) as (Hs2 & n & Hn & Hp2). rewrite Hl, Hsd in Hp2.
  set (c2 := mk_channel (ata_outb (base + 7) 0x20 (hw c1)) true (completion_wait c1) (is_ata c1)).
  destruct (sema_down_run c2 n _ Hp2 ltac:(cbn; congruence) eq_refl) as (c3 & E3 & Hp3 & Hs3 & [He3 Hc3 Ha3]).
  change (CMD_READ_SECTOR_RETRY) with 0x20. fold c2. rewrite (bind_Ok _ _ _ _ _ E3). unfold wait_while_busy.
  destruct (ready_run c3 3000) as (c4 & E4 & Hp4 & Hs4 & [He4 Hc4 Ha4]); [rewrite Hp3; by destruct (sec <? _)|lia|].
  rewrite Hp3 in E4, Hp4. rewrite (bind_Ok _ _ _ _ _ E4). destruct (Z.ltb_spec sec (capacity_of dev)) as [Hcap|Hcap]; [|done].
  cbn [wants_transfer negb]. destruct (ad_in (hw c4) _ Hp4 (ad_length _ _ _)) as (Hb & Hp5 & Hs5).
  unfold input_sector, reg_data. change (Z.to_nat (BLOCK_SECTOR_SIZE `quot` 2)) with 256%nat.
  destruct (ata_insw (base + 0) 256 (hw c4)) as [bs h]. cbn in Hb, Hp5, Hs5. subst bs. eexists. split; [by rewrite Hs1|].
  split; [split; [done|]; cbn; rewrite Hc4, Hc3; cbn; congruence|]. cbn. rewrite Hs5, Hs4, Hs3. cbn. congruence.
Qed.

Lemma ide_write_run c dev sec bs : ready c → dev = 0 ∨ dev = 1 → 0 ≤ sec < 2 ^ 28 → length bs = 512%nat →
  if sec <? capacity_of dev
  then ∃ c', ide_write base dev sec bs c = Ok (tt, c') ∧ ready c' ∧
    ∀ d l, sectors (hw c') d l = if bool_decide (d = dev ∧ l = sec) then bs else sectors (hw c) d l
  else ide_write base dev sec bs c = Panic.
Proof.
  intros [Hp Hc] Hdev Hsec Hlen. unfold ide_write.
  destruct (select_sector_run c dev sec Hp Hsec Hdev) as (c1 & E1 & Hp1 & Hs1 & [Hd1 Hc1 Ha1] & Hl & Hsd & Hm). rewrite (bind_Ok _ _ _ _ _ E1).
  rewrite (bind_Ok _ _ _ _ _ (command_run c1 CMD_WRITE_SECTOR_RETRY ltac:(done))).
  destruct (ad_write (hw c1) Hp1 Hm) as (Hs2 & n & Hn & Hp2). rewrite Hl, Hsd in Hp2.
  set (c2 := mk_channel (ata_outb (base + 7) 0x30 (hw c1)) true (completion_wait c1) (is_ata c1)).
  change (CMD_WRITE_SECTOR_RETRY) with 0x30. fold c2. unfold wait_while_busy.
  destruct (busy_run _ n c2 3000 Hp2) as (c3 & E3 & Hp3 & Hs3 & [He3 Hc3 Ha3]); [by destruct (sec <? _)|unfold PATIENCE in Hn; lia|].
  rewrite (bind_Ok _ _ _ _ _ E3). destruct (Z.ltb_spec sec (capacity_of dev)) as [Hcap|Hcap]; [|done].
  cbn [wants_transfer negb]. destruct (ad_out (hw c3) dev sec bs Hp3 Hlen) as ((m & Hp4) & Hs4).
  erewrite (bind_Ok (output_sector _ _)) by done. unfold reg_data.
  set (c4 := set_hw (ata_outsw (base + 0) bs (hw c3)) c3).
  destruct (sema_down_run c4 m Idle Hp4 ltac:(cbn; rewrite Hc3; cbn; congruence) ltac:(cbn; by rewrite He3)) as (c5 & E5 & Hp5 & Hs5 & [He5 Hc5 Ha5]).
  exists c5. split; [done|]. split; [split; [done|]; rewrite Hc5; cbn; rewrite Hc3; cbn; congruence|].
  intros d l. rewrite Hs5. cbn. rewrite Hs4. case_bool_decide; [done|]. rewrite Hs3. cbn. congruence.
Qed.

(** ** Requests in sequence *)

Inductive request := Read (dev sec : Z) | Write (dev sec : Z) (bs : list Z).

Definition serve (r : request) : M chan (list (list Z)) :=
  match r with
  | Read dev sec => let! bs := ide_read base dev sec in ret [bs]
  | Write dev sec bs => let! _ := ide_write base dev sec bs in ret []
  end.

(** The sectors that the requests read. *)
Fixpoint serve_all (rs : list request) : M chan (list (list Z)) :=
  match rs with
  | [] => ret []
  | r :: rs => let! x := serve r in let! y := serve_all rs in ret (x ++ y)
  end.

(** What is promised: an array of sectors. *)
Definition array_step (r : request) (a : Z → Z → list Z) : list (list Z) * (Z → Z → list Z) :=
  match r with
  | Read dev sec => ([a dev sec], a)
  | Write dev sec bs => ([], λ d l, if bool_decide (d = dev ∧ l = sec) then bs else a d l)
  end.
Fixpoint array_run (rs : list request) (a : Z → Z → list Z) : list (list Z) * (Z → Z → list Z) :=
  match rs with
  | [] => ([], a)
  | r :: rs => let '(x, a) := array_step r a in let '(y, a) := array_run rs a in (x ++ y, a)
  end.

Definition addresses (dev sec : Z) : Prop := (dev = 0 ∨ dev = 1) ∧ 0 ≤ sec.
Definition in_range (r : request) : Prop :=
  match r with
  | Read dev sec => addresses dev sec ∧ sec < capacity_of dev `min` 2 ^ 28
  | Write dev sec bs => addresses dev sec ∧ sec < capacity_of dev `min` 2 ^ 28 ∧ length bs = 512%nat
  end.
Definition out_of_range (r : request) : Prop :=
  match r with
  | Read dev sec => addresses dev sec ∧ capacity_of dev `min` 2 ^ 28 ≤ sec
  | Write dev sec bs => addresses dev sec ∧ capacity_of dev `min` 2 ^ 28 ≤ sec ∧ length bs = 512%nat
  end.

(** The sectors of the disks are those of the array. *)
Definition holds (c : chan) (a : Z → Z → list Z) : Prop := ∀ d l, sectors (hw c) d l = a d l.

Lemma serve_run r c a : ready c → holds c a → in_range r →
  ∃ c', serve r c = Ok ((array_step r a).1, c') ∧ ready c' ∧ holds c' (array_step r a).2.
Proof.
  intros Hc Ha Hr. destruct r as [dev sec|dev sec bs]; cbn [serve array_step fst snd].
  - destruct Hr as ((Hdev & Hsec) & Hmin). pose proof (ide_read_run c dev sec Hc Hdev ltac:(lia)) as H.
    rewrite (proj2 (Z.ltb_lt _ _)) in H by lia. destruct H as (c' & E & Hc' & Hs). exists c'. rewrite (bind_Ok _ _ _ _ _ E), Ha.
    split; [done|]. split; [done|]. intros d l. by rewrite Hs.
  - destruct Hr as ((Hdev & Hsec) & Hmin & Hlen). pose proof (ide_write_run c dev sec bs Hc Hdev ltac:(lia) Hlen) as H.
    rewrite (proj2 (Z.ltb_lt _ _)) in H by lia. destruct H as (c' & E & Hc' & Hs). exists c'. rewrite (bind_Ok _ _ _ _ _ E).
    split; [done|]. split; [done|]. intros d l. rewrite Hs. case_bool_decide; [done|]. apply Ha.
Qed.

Lemma select_sector_panics c dev sec : 2 ^ 28 ≤ sec → select_sector base dev sec c = Panic.
Proof. intros H. unfold select_sector. by rewrite (proj2 (Z.ltb_ge _ _)) by lia. Qed.

Lemma serve_panics r c : ready c → out_of_range r → serve r c = Panic.
Proof.
  intros Hc Hr. destruct r as [dev sec|dev sec bs]; destruct Hr as ((Hdev & Hsec) & Hr); cbn [serve]; destruct (decide (sec < 2 ^ 28)).
  - pose proof (ide_read_run c dev sec Hc Hdev ltac:(lia)) as H. rewrite (proj2 (Z.ltb_ge _ _)) in H by lia. unfold bind. by rewrite H.
  - unfold ide_read, bind. by rewrite select_sector_panics by lia.
  - destruct Hr as [Hr Hlen]. pose proof (ide_write_run c dev sec bs Hc Hdev ltac:(lia) Hlen) as H. rewrite (proj2 (Z.ltb_ge _ _)) in H by lia.
    unfold bind. by rewrite H.
  - unfold ide_write, bind. by rewrite select_sector_panics by lia.
Qed.

End Correct.

(** ** The strings of an identification *)

Lemma swap_pairs_twice bs : swap_pairs (swap_pairs bs) = bs.
Proof.
  assert (∀ n bs, (length bs ≤ n)%nat → swap_pairs (swap_pairs bs) = bs) as H; [|by apply (H (length bs))].
  clear bs. induction n as [|n IH]; intros [|a [|b bs]] Hl; try done; [simpl in Hl; lia|]. simpl. rewrite IH; [done|]. simpl in Hl. lia.
Qed.
Lemma length_swap_pairs bs : length (swap_pairs bs) = length bs.
Proof.
  assert (∀ n bs, (length bs ≤ n)%nat → length (swap_pairs bs) = length bs) as H; [|by apply (H (length bs))].
  clear bs. induction n as [|n IH]; intros [|a [|b bs]] Hl; try done; [simpl in Hl; lia|]. simpl. rewrite IH; [done|]. simpl in Hl. lia.
Qed.

Definition blank (c : Z) : bool := (c =? 0) || isspace c.

(** Blanks behind the first [n] bytes, the last of which is not blank, are passed over. *)
Lemma trim_loop_run bs n k :
  (∀ i, (n ≤ i < n + k)%nat → ∃ c, bs !! i = Some c ∧ blank c = true) →
  (∀ c, n ≠ O → bs !! pred n = Some c → blank c = false) → trim_loop (n + k) bs = n.
Proof.
  intros Hb Hn. induction k as [|k IH].
  - rewrite Nat.add_0_r. destruct n as [|n]; [done|]. cbn [trim_loop]. destruct (bs !! n) as [c|] eqn:E; [|done].
    specialize (Hn c ltac:(done) E). unfold blank in Hn. apply orb_false_iff in Hn as [-> ->]. done.
  - rewrite Nat.add_succ_r. cbn [trim_loop]. destruct (Hb (n + k)%nat ltac:(lia)) as (c & -> & Hc). unfold blank in Hc.
    assert (negb (c =? 0) && negb (isspace c) = false) as -> by (apply orb_true_iff in Hc as [-> | ->]; by rewrite ?andb_false_r).
    apply IH. intros i Hi. apply Hb. lia.
Qed.

(** A name that is stored with its bytes swapped and with spaces behind it is read back, if there is at least one space. *)
Theorem descramble_stored name pad : (∀ c, name !! pred (length name) = Some c → blank c = false) →
  descramble_ata_string (swap_pairs (name ++ replicate (S pad) 32)) = name.
Proof.
  intros Hl. unfold descramble_ata_string. rewrite swap_pairs_twice, length_app, length_replicate.
  replace (length name + S pad - 1)%nat with (length name + pad)%nat by lia.
  rewrite trim_loop_run.
  - rewrite take_insert_ge by lia. by apply take_app_length'.
  - intros i Hi. exists 32. split; [|done]. rewrite lookup_app_r by lia. apply lookup_replicate_2. lia.
  - intros c Hn Hc. apply Hl. by rewrite lookup_app_l in Hc by lia.
Qed.

(** A name that fills its field loses its last byte. *)
Theorem descramble_full name c d : blank c = false → descramble_ata_string (swap_pairs (name ++ [c; d])) = name ++ [c].
Proof.
  intros Hc. unfold descramble_ata_string. rewrite swap_pairs_twice, length_app. cbn [length].
  replace (length name + 2 - 1)%nat with (S (length name) + 0)%nat by lia. rewrite trim_loop_run.
  - rewrite take_insert_ge by lia. rewrite (cons_middle c name [d]), app_assoc. apply take_app_length'. rewrite length_app. simpl. lia.
  - lia.
  - intros c' _ Hc'. cbn [pred] in Hc'. rewrite lookup_app_r, Nat.sub_diag in Hc' by lia. by injection Hc' as <-.
Qed.

(** An interrupt of a channel goes to that channel and no other. *)
Theorem interrupt_handler_channel {HW} {ata : Ata HW} c0 c1 :
  (interrupt_handler 0x2e 0 [c0; c1] = let? x := handle_interrupt 0x1f0 c0 in Ok [x.2; c1]) ∧
  (interrupt_handler 0x2f 0 [c0; c1] = let? x := handle_interrupt 0x170 c1 in Ok [c0; x.2]).
Proof. split; [done|]. simpl. by destruct (handle_interrupt 0x170 c1). Qed.

(** ** A controller *)

(** A controller at 0x1f0 with one disk of 100 sectors. *)
Record simulated := mk_simulated { sim_phase : phase; sim_regs : registers; sim_data : Z → Z → list Z }.

Definition sim_sector (h : simulated) (d l : Z) : list Z := take 512 (sim_data h d l ++ replicate 512 0).
Definition sim_capacity (dev : Z) : Z := if dev =? 0 then 100 else 0.
Definition sim_answer (h : simulated) (p : phase) : phase :=
  if selected_lba (sim_regs h) <? sim_capacity (selected_dev (sim_regs h)) then p else Failed.

Definition sim_outb (port v : Z) (h : simulated) : simulated :=
  let dev := selected_dev (sim_regs h) in let lba := selected_lba (sim_regs h) in
  if port =? 0x1f7 then
    if v =? 0x20 then mk_simulated (Busy 3 (sim_answer h (DataIn (sim_sector h dev lba)))) (sim_regs h) (sim_data h)
    else if v =? 0x30 then mk_simulated (Busy 2 (sim_answer h (DataOut dev lba))) (sim_regs h) (sim_data h)
    else h
  else mk_simulated (sim_phase h) (write_register 0x1f0 port v (sim_regs h)) (sim_data h).

#[local] Instance sim_ata : Ata simulated := {
  ata_inb port h := (match sim_phase h with Busy _ _ => 0x80 | DataIn _ | DataOut _ _ => 0x48 | _ => 0x40 end, h);
  ata_outb := sim_outb;
  ata_insw port n h :=
    match sim_phase h with DataIn bs => (bs, mk_simulated Idle (sim_regs h) (sim_data h)) | _ => ([], h) end;
  ata_outsw port bs h :=
    match sim_phase h with
    | DataOut dev lba =>
        mk_simulated (Busy 1 Idle) (sim_regs h) (λ d l, if bool_decide (d = dev ∧ l = lba) then bs else sim_data h d l)
    | _ => h
    end;
  ata_delay ns h :=
    match sim_phase h with
    | Busy n p => mk_simulated (match n with O => p | S n => Busy n p end) (sim_regs h) (sim_data h)
    | _ => h
    end;
  ata_irq h := match sim_phase h with Busy n p => Some (mk_simulated p (sim_regs h) (sim_data h)) | _ => None end }.

#[local, refine] Instance sim_disk : AtaDisk sim_ata 0x1f0 := {
  phase_of := sim_phase; regs_of := sim_regs; sectors := sim_sector; capacity_of := sim_capacity }.
Proof.
  - intros h port _. cbn. destruct (sim_phase h); by vm_compute.
  - intros h port v Hp Ho. cbn. unfold sim_outb. destruct (Z.eqb_spec port 0x1f7); [lia|]. by rewrite Hp.
  - intros h Hp _. split; [done|]. exists 3%nat. split; [unfold PATIENCE; lia|]. done.
  - intros h Hp _. split; [done|]. exists 2%nat. split; [unfold PATIENCE; lia|]. done.
  - intros h bs Hp _. cbn. by rewrite Hp.
  - intros h dev lba bs Hp Hlen. cbn. rewrite Hp. split; [by eexists|]. intros d l. unfold sim_sector. cbn [sim_data].
    case_bool_decide; [|done]. by rewrite take_app_length'.
  - intros h ns. cbn. destruct (sim_phase h) as [| | | |n p] eqn:E; cbn; rewrite ?E; repeat split; try done. by intros n' p' [= -> ->] _.
  - intros h n p Hp. cbn. rewrite Hp. by eexists.
  - intros h d l. unfold sim_sector. rewrite length_take, length_app, length_replicate. lia.
Defined.

