(* ===== verification/Intq.v ===== *)
(** * Interrupt queues and the input buffer (devices/intq.c, devices/input.c)

    A circular buffer of bytes that threads and interrupt handlers share.  A call that has
    to wait stops where the thread blocks: it returns [Sleeps] when the thread waits for the
    condition of the queue, holding the lock, and [Busy] when another thread has the lock.
    A thread that was woken up releases the lock and calls again.  Interrupts are off in all
    of these functions; [intr] says whether they run in an interrupt handler, and [t] is the
    current thread. *)

From S2P Require Import Prelude.

(** ** The queue *)

Definition INTQ_BUFSIZE : Z := 64.

(** [holder] is the thread that has [lock], 0 if there is none. *)
Record intq := mk_intq {
  holder : Z;
  not_full : Z;
  not_empty : Z;
  buf : list Z;
  qhead : Z;
  qtail : Z }.

Abbreviation Q := (M intq).

(** What a call did; [woken] is the thread it unblocked, 0 if there is none. *)
Inductive result :=
  | Got (byte woken : Z)
  | Stored (woken : Z)
  | Sleeps
  | Busy
  | Released.

Definition next (pos : Z) : Z := (pos + 1) `rem` INTQ_BUFSIZE.

Definition intq_init (q : intq) : intq := mk_intq 0 0 0 (buf q) 0 0.
Definition intq_empty (q : intq) : bool := qhead q =? qtail q.
Definition intq_full (q : intq) : bool := next (qhead q) =? qtail q.

(** [lock_acquire] of a thread that must not have the lock; [false] if it has to wait. *)
Definition acquire (intr : bool) (t : Z) : Q bool :=
  let! _ := ASSERT (negb intr) in
  let! q := gets id in
  let! _ := ASSERT (negb (holder q =? t)) in
  if holder q =? 0 then
    let! _ := modify (λ q, mk_intq t (not_full q) (not_empty q) (buf q) (qhead q) (qtail q)) in ret true
  else ret false.
Definition release (t : Z) : Q result :=
  let! q := gets id in
  let! _ := ASSERT (holder q =? t) in
  let! _ := modify (λ q, mk_intq 0 (not_full q) (not_empty q) (buf q) (qhead q) (qtail q)) in
  ret Released.

(** [wait] and [signal] for either member. *)
Definition wait_empty (intr : bool) (t : Z) : Q unit :=
  let! _ := ASSERT (negb intr) in
  let! q := gets id in
  let! _ := ASSERT (intq_empty q) in
  modify (λ q, mk_intq (holder q) (not_full q) t (buf q) (qhead q) (qtail q)).
Definition wait_full (intr : bool) (t : Z) : Q unit :=
  let! _ := ASSERT (negb intr) in
  let! q := gets id in
  let! _ := ASSERT (intq_full q) in
  modify (λ q, mk_intq (holder q) t (not_empty q) (buf q) (qhead q) (qtail q)).
Definition signal_empty : Q Z :=
  let! q := gets id in
  let! _ := ASSERT (negb (intq_empty q)) in
  let! _ := modify (λ q, mk_intq (holder q) (not_full q) 0 (buf q) (qhead q) (qtail q)) in
  ret (not_empty q).
Definition signal_full : Q Z :=
  let! q := gets id in
  let! _ := ASSERT (negb (intq_full q)) in
  let! _ := modify (λ q, mk_intq (holder q) 0 (not_empty q) (buf q) (qhead q) (qtail q)) in
  ret (not_full q).

Definition load_byte (pos : Z) : Q Z := λ q,
  if pos <? 0 then Undef else match buf q !! Z.to_nat pos with Some b => Ok (b, q) | None => Undef end.
Definition store_byte (pos b : Z) : Q unit := λ q,
  if (pos <? 0) || (Z.of_nat (length (buf q)) <=? pos) then Undef
  else Ok (tt, mk_intq (holder q) (not_full q) (not_empty q) (<[Z.to_nat pos := b]> (buf q)) (qhead q) (qtail q)).

Definition intq_getc (intr : bool) (t : Z) : Q result :=
  let! q := gets id in
  if intq_empty q then
    let! _ := ASSERT (negb intr) in
    let! got := acquire intr t in
    if got then let! _ := wait_empty intr t in ret Sleeps else ret Busy
  else
    let! byte := load_byte (qtail q) in
    let! _ := modify (λ q, mk_intq (holder q) (not_full q) (not_empty q) (buf q) (qhead q) (next (qtail q))) in
    let! woken := signal_full in
    ret (Got byte woken).

Definition intq_putc (intr : bool) (t byte : Z) : Q result :=
  let! q := gets id in
  if intq_full q then
    let! _ := ASSERT (negb intr) in
    let! got := acquire intr t in
    if got then let! _ := wait_full intr t in ret Sleeps else ret Busy
  else
    let! _ := store_byte (qhead q) byte in
    let! _ := modify (λ q, mk_intq (holder q) (not_full q) (not_empty q) (buf q) (next (qhead q)) (qtail q)) in
    let! woken := signal_empty in
    ret (Stored woken).

(** ** The input buffer; the serial port is not told *)

Definition input_full : Q bool := gets intq_full.
Definition input_putc (intr : bool) (t key : Z) : Q result :=
  let! full := input_full in
  let! _ := ASSERT (negb full) in
  intq_putc intr t key.
Definition input_getc (t : Z) : Q result := intq_getc false t.

(** ** A queue of bytes *)

(** The abstract queue: what it holds, who waits, and who has the lock. *)
Record queue := mk_queue { content : list Z; reader : Z; writer : Z; owner : Z }.

Inductive call :=
  | Get (intr : bool) (t : Z)
  | Put (intr : bool) (t byte : Z)
  | Release (t : Z).

(** A thread goes to sleep when nobody has the lock. *)
Definition sleep (intr : bool) (t : Z) (a a' : queue) : outcome (result * queue) :=
  if intr || (owner a =? t) then Panic else if owner a =? 0 then Ok (Sleeps, a') else Ok (Busy, a).

Definition queue_step (c : call) (a : queue) : outcome (result * queue) :=
  match c with
  | Get intr t =>
      match content a with
      | [] => sleep intr t a (mk_queue [] t (writer a) t)
      | b :: bs => Ok (Got b (writer a), mk_queue bs (reader a) 0 (owner a))
      end
  | Put intr t byte =>
      if Z.of_nat (length (content a)) =? 63 then sleep intr t a (mk_queue (content a) (reader a) t t)
      else Ok (Stored (reader a), mk_queue (content a ++ [byte]) 0 (writer a) (owner a))
  | Release t => if owner a =? t then Ok (Released, mk_queue (content a) (reader a) (writer a) 0) else Panic
  end.

Definition intq_step (c : call) : Q result :=
  match c with
  | Get intr t => intq_getc intr t
  | Put intr t byte => intq_putc intr t byte
  | Release t => release t
  end.

(** The bytes are those of the buffer from [tail] on. *)
Record represents (q : intq) (a : queue) : Prop := {
  rp_length : length (buf q) = 64%nat;
  rp_tail : 0 ≤ qtail q < 64;
  rp_head : qhead q = (qtail q + Z.of_nat (length (content a))) `mod` 64;
  rp_bound : Z.of_nat (length (content a)) ≤ 63;
  rp_bytes k b : content a !! k = Some b → buf q !! Z.to_nat ((qtail q + Z.of_nat k) `mod` 64) = Some b;
  rp_reader : not_empty q = reader a;
  rp_writer : not_full q = writer a;
  rp_owner : holder q = owner a }.

(** A waiting thread waits for what is not so. *)
Definition waits_rightly (a : queue) : Prop :=
  (reader a ≠ 0 → content a = []) ∧ (writer a ≠ 0 → length (content a) = 63%nat).

Lemma next_mod x : 0 ≤ x < 64 → next x = (x + 1) `mod` 64.
Proof. intros Hx. unfold next, INTQ_BUFSIZE. apply Z.rem_mod_nonneg; lia. Qed.

Ltac mod64 := repeat match goal with
  | |- context [?x `mod` 64] => lazymatch goal with H : 0 ≤ x `mod` 64 < 64 |- _ => fail | _ => pose proof (Z.mod_pos_bound x 64 ltac:(lia)); pose proof (Z.div_mod x 64 ltac:(lia)) end
  | H0 : context [?x `mod` 64] |- _ => lazymatch goal with H : 0 ≤ x `mod` 64 < 64 |- _ => fail | _ => pose proof (Z.mod_pos_bound x 64 ltac:(lia)); pose proof (Z.div_mod x 64 ltac:(lia)) end
  end.

Lemma empty_iff q a : represents q a → intq_empty q = bool_decide (content a = []).
Proof.
  intros [_ Ht Hh Hb _ _ _ _]. unfold intq_empty. rewrite Hh. destruct (content a) as [|b bs]; simpl.
  - rewrite Z.add_0_r, Z.mod_small by lia. apply Z.eqb_refl.
  - apply Z.eqb_neq. simpl in Hb. mod64. lia.
Qed.

Lemma full_iff q a : represents q a → intq_full q = (Z.of_nat (length (content a)) =? 63).
Proof.
  intros [_ Ht Hh Hb _ _ _ _]. unfold intq_full. rewrite Hh, next_mod by (apply Z.mod_pos_bound; lia).
  rewrite Zplus_mod_idemp_l. destruct (Z.eqb_spec (Z.of_nat (length (content a))) 63) as [E|E].
  - apply Z.eqb_eq. rewrite E. replace (qtail q + 63 + 1) with (qtail q + 1 * 64) by lia. rewrite Z.mod_add by lia. apply Z.mod_small. lia.
  - apply Z.eqb_neq. mod64. lia.
Qed.

(** The two ways to go to sleep. *)
Lemma acquire_run intr t q a : represents q a →
  acquire intr t q = if intr || (owner a =? t) then Panic
    else if owner a =? 0 then Ok (true, mk_intq t (not_full q) (not_empty q) (buf q) (qhead q) (qtail q)) else Ok (false, q).
Proof.
  intros [_ _ _ _ _ _ _ <-]. unfold acquire. destruct intr; [done|]. simpl negb. rewrite (bind_Ok (ASSERT true) _ q tt q) by done.
  rewrite (bind_Ok (gets id) _ q q q) by done. destruct (holder q =? t); [done|]. simpl negb.
  rewrite (bind_Ok (ASSERT true) _ q tt q) by done. by destruct (holder q =? 0).
Qed.

Lemma getc_sleeps intr t q a : represents q a → content a = [] →
  match sleep intr t a (mk_queue [] t (writer a) t) with
  | Ok (r, a') => ∃ q', intq_getc intr t q = Ok (r, q') ∧ represents q' a'
  | o => intq_getc intr t q = match o with Panic => Panic | _ => Undef end
  end.
Proof.
  intros Hr Hc. unfold intq_getc, sleep. rewrite (bind_Ok (gets id) _ q q q) by done. rewrite (empty_iff _ _ Hr), Hc.
  change (bool_decide ([] = [])) with true. cbv iota. destruct intr; [done|]. simpl negb. rewrite (bind_Ok (ASSERT true) _ q tt q) by done.
  pose proof (acquire_run false t q a Hr) as Ea. cbn [orb] in Ea |- *. destruct (owner a =? t); [unfold bind; by rewrite Ea|].
  destruct (owner a =? 0); rewrite (bind_Ok _ _ _ _ _ Ea); [|by exists q]. set (q1 := mk_intq _ _ _ _ _ _).
  assert (intq_empty q1 = true) as He by (pose proof (empty_iff _ _ Hr) as E; by rewrite Hc in E).
  unfold wait_empty. rewrite (bind_Ok _ _ q1 tt (mk_intq t (not_full q) t (buf q) (qhead q) (qtail q))).
  2:{ rewrite (bind_Ok (ASSERT _) _ q1 tt q1), (bind_Ok (gets id) _ q1 q1 q1), He, (bind_Ok (ASSERT _) _ q1 tt q1) by done. done. }
  eexists. split; [done|]. destruct Hr as [? ? Hh ? Hb ? ? ?]. rewrite Hc in *. by split.
Qed.

Lemma putc_sleeps intr t byte q a : represents q a → Z.of_nat (length (content a)) = 63 →
  match sleep intr t a (mk_queue (content a) (reader a) t t) with
  | Ok (r, a') => ∃ q', intq_putc intr t byte q = Ok (r, q') ∧ represents q' a'
  | o => intq_putc intr t byte q = match o with Panic => Panic | _ => Undef end
  end.
Proof.
  intros Hr Hc. unfold intq_putc, sleep. rewrite (bind_Ok (gets id) _ q q q) by done. rewrite (full_iff _ _ Hr), (proj2 (Z.eqb_eq _ _) Hc).
  destruct intr; [done|]. simpl negb. rewrite (bind_Ok (ASSERT true) _ q tt q) by done.
  pose proof (acquire_run false t q a Hr) as Ea. cbn [orb] in Ea |- *. destruct (owner a =? t); [unfold bind; by rewrite Ea|].
  destruct (owner a =? 0); rewrite (bind_Ok _ _ _ _ _ Ea); [|by exists q]. set (q1 := mk_intq _ _ _ _ _ _).
  assert (intq_full q1 = true) as He by (pose proof (full_iff _ _ Hr) as E; by rewrite Hc in E).
  unfold wait_full. rewrite (bind_Ok _ _ q1 tt (mk_intq t t (not_empty q) (buf q) (qhead q) (qtail q))).
  2:{ rewrite (bind_Ok (ASSERT _) _ q1 tt q1), (bind_Ok (gets id) _ q1 q1 q1), He, (bind_Ok (ASSERT _) _ q1 tt q1) by done. done. }
  eexists. split; [done|]. by destruct Hr.
Qed.

Lemma getc_run intr t q a b bs : represents q a → content a = b :: bs →
  ∃ q', intq_getc intr t q = Ok (Got b (writer a), q') ∧ represents q' (mk_queue bs (reader a) 0 (owner a)).
Proof.
  intros Hr Hc. pose proof Hr as [Hl Ht Hh Hb Hby Hrd Hwr How]. unfold intq_getc. rewrite (bind_Ok (gets id) _ q q q) by done.
  rewrite (empty_iff _ _ Hr), Hc. change (bool_decide (b :: bs = [])) with false. cbv iota. rewrite Hc in *. simpl in Hb, Hh.
  pose proof (Hby 0%nat b eq_refl) as H0. rewrite Z.add_0_r, Z.mod_small in H0 by lia.
  rewrite (bind_Ok _ _ q b q) by (unfold load_byte; rewrite (proj2 (Z.ltb_ge _ 0)) by lia; by rewrite H0).
  erewrite (bind_Ok (modify _)) by done. set (q1 := mk_intq _ _ _ _ _ _).
  assert (represents q1 (mk_queue bs (reader a) (writer a) (owner a))) as Hr1.
  { split; simpl; try done; [|rewrite next_mod by lia..|lia|].
    - rewrite next_mod by lia. apply Z.mod_pos_bound. lia.
    - rewrite Hh, Zplus_mod_idemp_l. f_equal. lia.
    - intros k c Hk. rewrite next_mod, Zplus_mod_idemp_l by lia. rewrite <-(Hby (S k) c Hk). do 3 f_equal. lia. }
  unfold signal_full. rewrite (bind_Ok _ _ q1 (not_full q) (mk_intq (holder q) 0 (not_empty q) (buf q) (qhead q) (next (qtail q)))).
  2:{ rewrite (bind_Ok (gets id) _ q1 q1 q1) by done. rewrite (full_iff _ _ Hr1). simpl content.
      rewrite (proj2 (Z.eqb_neq _ 63)) by lia. by rewrite (bind_Ok (ASSERT _) _ q1 tt q1). }
  rewrite Hwr. eexists. split; [done|]. by destruct Hr1.
Qed.

Lemma putc_run intr t byte q a : represents q a → Z.of_nat (length (content a)) ≠ 63 →
  ∃ q', intq_putc intr t byte q = Ok (Stored (reader a), q') ∧ represents q' (mk_queue (content a ++ [byte]) 0 (writer a) (owner a)).
Proof.
  intros Hr Hne. pose proof Hr as [Hl Ht Hh Hb Hby Hrd Hwr How]. unfold intq_putc. rewrite (bind_Ok (gets id) _ q q q) by done.
  rewrite (full_iff _ _ Hr), (proj2 (Z.eqb_neq _ 63)) by done. pose proof (Z.mod_pos_bound (qtail q + Z.of_nat (length (content a))) 64 ltac:(lia)) as Hhb.
  rewrite <-Hh in Hhb. unfold store_byte at 1.
  erewrite (bind_Ok (λ q0 : intq, _)) by (rewrite (proj2 (Z.ltb_ge _ 0)), (proj2 (Z.leb_gt _ _)) by lia; done).
  erewrite (bind_Ok (modify _)) by done. cbn [holder not_full not_empty buf qhead qtail]. set (q1 := mk_intq _ _ _ _ _ _).
  assert (represents q1 (mk_queue (content a ++ [byte]) (reader a) (writer a) (owner a))) as Hr1.
  { split; simpl; try done; rewrite ?length_insert, ?length_app; simpl; [done| |lia|].
    - rewrite next_mod by lia. rewrite Hh, Zplus_mod_idemp_l. f_equal. lia.
    - intros k c [Hk|[Hk Ec]]%lookup_app_Some.
      + pose proof (lookup_lt_Some _ _ _ Hk) as Hlt. rewrite list_lookup_insert_ne; [by apply Hby|]. rewrite Hh. intros E%Z2Nat.inj; [|apply Z.mod_pos_bound; lia..].
        mod64. lia.
      + apply list_lookup_singleton_Some in Ec as [Ek ->]. rewrite Hh. replace k with (length (content a)) by lia.
        rewrite list_lookup_insert_eq; [done|]. rewrite Hl, <-Hh. lia. }
  unfold signal_empty. rewrite (bind_Ok _ _ q1 (not_empty q) (mk_intq (holder q) (not_full q) 0 (buf q1) (qhead q1) (qtail q1))).
  2:{ rewrite (bind_Ok (gets id) _ q1 q1 q1) by done. rewrite (empty_iff _ _ Hr1). simpl content.
      rewrite bool_decide_eq_false_2 by (by destruct (content a)). by rewrite (bind_Ok (ASSERT _) _ q1 tt q1). }
  rewrite Hrd. eexists. split; [done|]. by destruct Hr1.
Qed.

Lemma step_run c q a : represents q a →
  match queue_step c a with
  | Ok (r, a') => ∃ q', intq_step c q = Ok (r, q') ∧ represents q' a'
  | o => intq_step c q = match o with Panic => Panic | _ => Undef end
  end.
Proof.
  intros Hr. destruct c as [intr t|intr t byte|t]; simpl.
  - destruct (content a) as [|b bs] eqn:Ec; [by apply getc_sleeps|by apply getc_run].
  - destruct (Z.eqb_spec (Z.of_nat (length (content a))) 63); [by apply putc_sleeps|by apply putc_run].
  - unfold release. rewrite (bind_Ok (gets id) _ q q q) by done. rewrite (rp_owner _ _ Hr). destruct (owner a =? t); [|done].
    eexists. split; [done|]. by destruct Hr.
Qed.

Lemma step_waits c a r a' : waits_rightly a → Z.of_nat (length (content a)) ≤ 63 → queue_step c a = Ok (r, a') → waits_rightly a'.
Proof.
  intros [Hrd Hwr] Hb. destruct c as [intr t|intr t byte|t]; simpl.
  - destruct (content a) as [|b bs] eqn:Ec.
    + unfold sleep. destruct (intr || (owner a =? t)), (owner a =? 0); intros [= <- <-]; split; simpl; try done; by rewrite Ec.
    + intros [= <- <-]. split; simpl; [|done]. intros H. by specialize (Hrd H).
  - destruct (Z.eqb_spec (Z.of_nat (length (content a))) 63).
    + unfold sleep. destruct (intr || (owner a =? t)), (owner a =? 0); intros [= <- <-]; split; simpl; try done; lia.
    + intros [= <- <-]. split; simpl; [done|]. intros H. specialize (Hwr H). lia.
  - destruct (owner a =? t); intros [= <- <-]. by split.
Qed.

(** Runs of calls; a call that panics ends the run. *)
Fixpoint run_queue (cs : list call) (a : queue) : outcome (list result * queue) :=
  match cs with
  | [] => Ok ([], a)
  | c :: cs => let? '(r, a) := queue_step c a in let? '(rs, a) := run_queue cs a in Ok (r :: rs, a)
  end.
Fixpoint run_intq (cs : list call) : Q (list result) :=
  match cs with [] => ret [] | c :: cs => let! r := intq_step c in let! rs := run_intq cs in ret (r :: rs) end.

Lemma queue_bound c a r a' q : represents q a → queue_step c a = Ok (r, a') → Z.of_nat (length (content a')) ≤ 63.
Proof. intros Hr E. pose proof (step_run c q a Hr) as H. rewrite E in H. destruct H as (q' & _ & H). apply H. Qed.


(** [intq_init] makes an empty queue. *)
Lemma init_represents q : length (buf q) = 64%nat → represents (intq_init q) (mk_queue [] 0 0 0).
Proof. intros H. split; simpl; try done; lia. Qed.

