(* ===== verification/Kbd.v ===== *)
(** * The keyboard (devices/kbd.c)

    The interrupt handler of the keyboard: scan codes become characters in the input
    buffer.  [code] is the scan code with its prefix, as read from the data register. *)

From S2P Require Import Prelude Intq.

(** ** State and tables *)

Record shifts := mk_shifts {
  left_shift : bool; right_shift : bool;
  left_alt : bool; right_alt : bool;
  left_ctrl : bool; right_ctrl : bool;
  caps_lock : bool }.

Record kbd := mk_kbd { keys : shifts; key_cnt : Z; input : intq }.

(** [struct keymap]: the first scan code and the characters. *)
Definition keymap : Type := list (Z * list Z).

Definition invariant_keymap : keymap :=
  [(0x01, [27]); (0x0e, [8]); (0x0f, [9; 81; 87; 69; 82; 84; 89; 85; 73; 79; 80]); (0x1c, [13]);
   (0x1e, [65; 83; 68; 70; 71; 72; 74; 75; 76]); (0x2c, [90; 88; 67; 86; 66; 78; 77]); (0x37, [42]); (0x39, [32]); (0x53, [127])].
Definition unshifted_keymap : keymap :=
  [(0x02, [49; 50; 51; 52; 53; 54; 55; 56; 57; 48; 45; 61]); (0x1a, [91; 93]); (0x27, [59; 39; 96]); (0x2b, [92]); (0x33, [44; 46; 47])].
Definition shifted_keymap : keymap :=
  [(0x02, [33; 64; 35; 36; 37; 94; 38; 42; 40; 41; 95; 43]); (0x1a, [123; 125]); (0x27, [58; 34; 126]); (0x2b, [124]); (0x33, [60; 62; 63])].

Fixpoint map_key (k : keymap) (scancode : Z) : option Z :=
  match k with
  | [] => None
  | (first, chars) :: k =>
      if (first <=? scancode) && (scancode <? first + Z.of_nat (length chars)) then chars !! Z.to_nat (scancode - first)
      else map_key k scancode
  end.

(** [tolower] of lib/ctype.h. *)
Definition tolower (c : Z) : Z := if (65 <=? c) && (c <=? 90) then c - 65 + 97 else c.

Definition shift (s : shifts) : bool := left_shift s || right_shift s.
Definition alt (s : shifts) : bool := left_alt s || right_alt s.
Definition ctrl (s : shifts) : bool := left_ctrl s || right_ctrl s.

(** The character of a key, before the modifiers other than Shift. *)
Definition key_char (s : shifts) (code : Z) : option Z :=
  match map_key invariant_keymap code with
  | Some c => Some c
  | None => map_key (if shift s then shifted_keymap else unshifted_keymap) code
  end.

(** Ctrl, Shift and Caps Lock, then Alt. *)
Definition modify_char (s : shifts) (c : Z) : Z :=
  let c :=
    if ctrl s && (0x40 <=? c) && (c <? 0x60) then c - 0x40
    else if eqb (shift s) (caps_lock s) then tolower c
    else c in
  if alt s then u8 (c + 0x80) else c.

(** The table of the shift keys. *)
Definition set_shift (s : shifts) (code : Z) (down : bool) : shifts :=
  let '(mk_shifts ls rs la ra lc rc cl) := s in
  if code =? 0x2a then mk_shifts down rs la ra lc rc cl
  else if code =? 0x36 then mk_shifts ls down la ra lc rc cl
  else if code =? 0x38 then mk_shifts ls rs down ra lc rc cl
  else if code =? 0xe038 then mk_shifts ls rs la down lc rc cl
  else if code =? 0x1d then mk_shifts ls rs la ra down rc cl
  else if code =? 0xe01d then mk_shifts ls rs la ra lc down cl
  else s.

Definition toggle_caps (s : shifts) : shifts :=
  mk_shifts (left_shift s) (right_shift s) (left_alt s) (right_alt s) (left_ctrl s) (right_ctrl s) (negb (caps_lock s)).

Inductive event :=
  | Reboot
  | Typed (r : result)
  | Dropped
  | Nothing.

(** [inb] of the data register: the second byte is read only after the prefix. *)
Definition scancode (first second : Z) : Z := if first =? 0xe0 then Z.lor (Z.shiftl first 8) second else first.

Definition keyboard_interrupt (raw : Z) : M kbd event := λ k,
  let release := negb (Z.land raw 0x80 =? 0) in
  let code := Z.ldiff raw 0x80 in
  let s := keys k in
  if code =? 0x3a then
    Ok (Nothing, if release then k else mk_kbd (toggle_caps s) (key_cnt k) (input k))
  else
    match key_char s code with
    | Some c =>
        if release then Ok (Nothing, k)
        else if (c =? 0x7f) && ctrl s && alt s then Ok (Reboot, k)
        else if intq_full (input k) then Ok (Dropped, k)
        else
          let? '(r, q) := input_putc true 0 (modify_char s c) (input k) in
          Ok (Typed r, mk_kbd s (s64 (key_cnt k + 1)) q)
    | None => Ok (Nothing, mk_kbd (set_shift s code (negb release)) (key_cnt k) (input k))
    end.

Fixpoint interrupts (raws : list Z) : M kbd (list event) :=
  match raws with
  | [] => ret []
  | r :: raws => let! e := keyboard_interrupt r in let! es := interrupts raws in ret (e :: es)
  end.

(** ** Typing *)

Lemma typed_run k raw a c : represents (input k) a → (length (content a) < 63)%nat → Z.ldiff raw 0x80 ≠ 0x3a →
  Z.land raw 0x80 = 0 → key_char (keys k) (Z.ldiff raw 0x80) = Some c → ctrl (keys k) && alt (keys k) = false →
  ∃ q, keyboard_interrupt raw k = Ok (Typed (Stored (reader a)), mk_kbd (keys k) (s64 (key_cnt k + 1)) q) ∧
    represents q (mk_queue (content a ++ [modify_char (keys k) c]) 0 (writer a) (owner a)).
Proof.
  intros Hr Hl Hcaps Hrel Hc Hca. unfold keyboard_interrupt. rewrite (proj2 (Z.eqb_neq _ 0x3a)), Hrel, Hc by done.
  change (negb (0 =? 0)) with false. cbv iota. rewrite <-andb_assoc, Hca, andb_false_r.
  rewrite (full_iff _ _ Hr), (proj2 (Z.eqb_neq _ 63)) by lia.
  destruct (putc_run true 0 (modify_char (keys k) c) (input k) a Hr ltac:(lia)) as (q & E & Hq). exists q. split; [|done].
  unfold input_putc, input_full. rewrite (bind_Ok (gets _) _ (input k) false (input k)).
  2:{ unfold gets. by rewrite (full_iff _ _ Hr), (proj2 (Z.eqb_neq _ 63)) by lia. }
  rewrite (bind_Ok (ASSERT _) _ (input k) tt (input k)) by done. by rewrite E.
Qed.

(** Nothing held down, Caps Lock off. *)
Definition idle : shifts := mk_shifts false false false false false false false.

(** The key for a character of the printable ASCII range, and whether Shift is needed. *)
Definition find_key (c : Z) : option (bool * Z) :=
  let try (sh : bool) (code : Z) := bool_decide (modify_char (mk_shifts sh false false false false false false)
      <$> key_char (mk_shifts sh false false false false false false) code = Some c) in
  match list_find (λ code, try false code = true) (seqZ 1 0x60) with
  | Some (_, code) => Some (false, code)
  | None => match list_find (λ code, try true code = true) (seqZ 1 0x60) with Some (_, code) => Some (true, code) | None => None end
  end.

(** The scan codes of typing it: the key is pressed and released, inside Shift if needed. *)
Definition strokes (c : Z) : list Z :=
  match find_key c with
  | Some (false, code) => [code; Z.lor code 0x80]
  | Some (true, code) => [0x2a; code; Z.lor code 0x80; 0xaa]
  | None => []
  end.

Definition held (sh : bool) : shifts := mk_shifts sh false false false false false false.

(** What makes the strokes of [c] work, checked for every character. *)
Definition types (c : Z) : bool :=
  match find_key c with
  | None => false
  | Some (sh, code) =>
      (Z.ldiff code 0x80 =? code) && (Z.land code 0x80 =? 0) && negb (code =? 0x3a) &&
      (Z.ldiff (Z.lor code 0x80) 0x80 =? code) && negb (Z.land (Z.lor code 0x80) 0x80 =? 0) &&
      match key_char (held sh) code with Some d => modify_char (held sh) d =? c | None => false end
  end.

Lemma all_typed : forallb types (seqZ 32 95) = true.
Proof. by vm_compute. Qed.

(** A key that is let go of types nothing. *)
Lemma key_release_run k raw c : Z.ldiff raw 0x80 ≠ 0x3a → Z.land raw 0x80 ≠ 0 → key_char (keys k) (Z.ldiff raw 0x80) = Some c →
  keyboard_interrupt raw k = Ok (Nothing, k).
Proof.
  intros H1 H2 H3. unfold keyboard_interrupt. rewrite (proj2 (Z.eqb_neq _ 0x3a)), H3, (proj2 (Z.eqb_neq _ 0)) by done. done.
Qed.

(** The key of a character is pressed and released. *)
Lemma stroke_run c sh code cnt q a : types c = true → find_key c = Some (sh, code) → represents q a → (length (content a) < 63)%nat →
  ∃ q', interrupts [code; Z.lor code 0x80] (mk_kbd (held sh) cnt q)
      = Ok ([Typed (Stored (reader a)); Nothing], mk_kbd (held sh) (s64 (cnt + 1)) q') ∧
    represents q' (mk_queue (content a ++ [c]) 0 (writer a) (owner a)).
Proof.
  unfold types. intros Ht Hk. rewrite Hk in Ht. rewrite !andb_true_iff in Ht. intros Hr Hl.
  destruct Ht as (((((E1%Z.eqb_eq & E2%Z.eqb_eq) & E3%negb_true_iff) & E4%Z.eqb_eq) & E5%negb_true_iff) & E6).
  destruct (key_char (held sh) code) as [d|] eqn:Ed; [|done]. apply Z.eqb_eq in E6. apply Z.eqb_neq in E3, E5.
  destruct (typed_run (mk_kbd (held sh) cnt q) code a d Hr Hl) as (q' & E & Hq); [by rewrite E1|done|by rewrite E1|by destruct sh|].
  exists q'. simpl keys in *. rewrite E6 in Hq. split; [|done]. cbn [interrupts]. rewrite (bind_Ok _ _ _ _ _ E). simpl key_cnt.
  assert (keyboard_interrupt (Z.lor code 128) (mk_kbd (held sh) (s64 (cnt + 1)) q') = Ok (Nothing, mk_kbd (held sh) (s64 (cnt + 1)) q')) as E'.
  { apply (key_release_run _ _ d); [by rewrite E4|done|by rewrite E4]. }
  by rewrite (bind_Ok (let! e := keyboard_interrupt _ in _) _ _ [Nothing] (mk_kbd (held sh) (s64 (cnt + 1)) q')) by (by rewrite (bind_Ok _ _ _ _ _ E')).
Qed.

Lemma interrupts_app xs ys k es k1 : interrupts xs k = Ok (es, k1) →
  interrupts (xs ++ ys) k = (let! fs := interrupts ys in ret (es ++ fs)) k1.
Proof.
  revert k es. induction xs as [|x xs IH]; intros k es; cbn [interrupts app].
  - intros [= <- <-]. unfold bind, ret. by destruct (interrupts ys k) as [[? ?]| | |].
  - intros (e & k2 & E1 & E2)%bind_inv. apply bind_inv in E2 as (es2 & k3 & E2 & [= <- <-]).
    rewrite (bind_Ok _ _ _ _ _ E1). unfold bind at 1. rewrite (IH _ _ E2). unfold bind, ret. by destruct (interrupts ys k3) as [[? ?]| | |].
Qed.

(** Every printable ASCII character can be typed: with no key held down and Caps Lock
    off, pressing and releasing its key, with Shift around it where the character needs it,
    puts exactly that character at the end of the input buffer, wakes a thread that waits for
    input, and leaves all shift keys up. *)
Theorem keyboard_types c cnt q a : 32 ≤ c ≤ 126 → represents q a → (length (content a) < 63)%nat →
  strokes c ≠ [] ∧
  ∃ es q', interrupts (strokes c) (mk_kbd idle cnt q) = Ok (es, mk_kbd idle (s64 (cnt + 1)) q') ∧
    Typed (Stored (reader a)) ∈ es ∧ represents q' (mk_queue (content a ++ [c]) 0 (writer a) (owner a)).
Proof.
  intros Hc Hr Hl. assert (types c = true) as Ht.
  { pose proof all_typed as H. rewrite forallb_forall in H. apply H, list_elem_of_In, elem_of_seqZ. lia. }
  destruct (find_key c) as [[sh code]|] eqn:Ek; [|by unfold types in Ht; rewrite Ek in Ht].
  unfold strokes. rewrite Ek. destruct (stroke_run c sh code cnt q a Ht Ek Hr Hl) as (q' & E & Hq).
  destruct sh; (split; [done|]).
  - change [0x2a; code; Z.lor code 0x80; 0xaa] with ([0x2a] ++ [code; Z.lor code 0x80] ++ [0xaa]).
    rewrite (interrupts_app _ _ _ [Nothing] (mk_kbd (held true) cnt q)) by reflexivity.
    eexists _, q'. rewrite (bind_Ok _ _ (mk_kbd (held true) cnt q) ([Typed (Stored (reader a)); Nothing] ++ [Nothing]) (mk_kbd idle (s64 (cnt + 1)) q')).
    + split; [done|]. split; [set_solver|done].
    + by rewrite (interrupts_app _ _ _ _ _ E).
  - eexists _, q'. split; [exact E|]. split; [set_solver|done].
Qed.

Lemma keyboard_types_witness :
  ∃ es q', interrupts (strokes 65) (mk_kbd idle 0 (intq_init (mk_intq 0 0 0 (replicate 64 0) 0 0))) = Ok (es, mk_kbd idle 1 q') ∧
    represents q' (mk_queue [65] 0 0 0).
Proof.
  destruct (keyboard_types 65 0 (intq_init (mk_intq 0 0 0 (replicate 64 0) 0 0)) (mk_queue [] 0 0 0)) as (_ & es & q' & E & _ & Hr).
  - lia.
  - by apply init_represents.
  - simpl. lia.
  - exists es, q'. split; [exact E|exact Hr].
Defined.
