(* ===== verification/Vga.v ===== *)
(** * The text display (devices/vga.c)

    Characters written to the framebuffer, with the control characters, scrolling and the
    hardware cursor.  The framebuffer is its rows of cells, and moving it up a row moves the rows;
    that [memmove] copies overlapping blocks is shown for lib/string.c.  The CRT
    controller has a register per index, which [outw] to port 0x3d4 writes and [inb] from port
    0x3d5 reads.  Interrupts are off; the beep of the speaker is left out. *)

From S2P Require Import Prelude.

(** ** State *)

Definition COL_CNT : Z := 80.
Definition ROW_CNT : Z := 25.
Definition GRAY_ON_BLACK : Z := 0x07.

(** A character and its attribute. *)
Abbreviation cell := (Z * Z)%type.

Record vga := mk_vga {
  inited : bool;
  cx : Z;
  cy : Z;
  fb : list (list cell);
  crt : Z → Z }.

Abbreviation D := (M vga).

(** ** Operations *)

(** [fb[y][x][0] = c; fb[y][x][1] = a] *)
Definition put_cell (y x c a : Z) : D unit := λ v,
  match fb v !! Z.to_nat y with
  | Some row =>
      if (0 <=? x) && (x <? Z.of_nat (length row)) then
        Ok (tt, mk_vga (inited v) (cx v) (cy v) (<[Z.to_nat y := <[Z.to_nat x := (u8 c, a)]> row]> (fb v)) (crt v))
      else Undef
  | None => Undef
  end.

Definition set_cursor (x y : Z) : D unit := modify (λ v, mk_vga (inited v) x y (fb v) (crt v)).

(** [n] columns to go. *)
Fixpoint clear_loop (n : nat) (y x : Z) : D unit :=
  match n with
  | O => ret tt
  | S n => let! _ := put_cell y x 32 GRAY_ON_BLACK in clear_loop n y (x + 1)
  end.
Definition clear_row (y : Z) : D unit := clear_loop (Z.to_nat COL_CNT) y 0.

Definition outw_crt (value : Z) : D unit :=
  modify (λ v, mk_vga (inited v) (cx v) (cy v) (fb v) (<[Z.land value 0xff := Z.shiftr value 8]> (crt v))).

Definition move_cursor : D unit :=
  let! x := gets cx in
  let! y := gets cy in
  let cp := uwrap 16 (x + COL_CNT * y) in
  let! _ := outw_crt (uwrap 16 (Z.lor 0x0e (Z.land cp 0xff00))) in
  outw_crt (uwrap 16 (Z.lor 0x0f (Z.shiftl cp 8))).

Definition find_cursor : D (Z * Z) :=
  let! hi := gets (λ v, crt v 0x0e) in
  let! lo := gets (λ v, crt v 0x0f) in
  let cp := Z.lor (uwrap 16 (Z.shiftl hi 8)) lo in
  ret (cp `mod` COL_CNT, cp / COL_CNT).

Definition init : D unit :=
  let! ready := gets inited in
  if ready : bool then ret tt
  else
    let! '(x, y) := find_cursor in
    modify (λ v, mk_vga true x y (fb v) (crt v)).

(** The rows move up by one; the last row stays as it was until it is cleared. *)
Definition scroll : D unit := λ v,
  match fb v !! 24%nat with
  | Some row => Ok (tt, mk_vga (inited v) (cx v) (cy v) (drop 1 (fb v) ++ [row]) (crt v))
  | None => Undef
  end.

Definition newline : D unit :=
  let! y := gets cy in
  let y := u32 (y + 1) in
  if ROW_CNT <=? y then
    let! _ := set_cursor 0 (ROW_CNT - 1) in
    let! _ := scroll in
    clear_row (ROW_CNT - 1)
  else set_cursor 0 y.

Fixpoint cls_loop (n : nat) (y : Z) : D unit :=
  match n with
  | O => ret tt
  | S n => let! _ := clear_row y in cls_loop n (y + 1)
  end.
Definition cls : D unit :=
  let! _ := cls_loop (Z.to_nat ROW_CNT) 0 in
  let! _ := set_cursor 0 0 in
  move_cursor.

(** The cases of the [switch]: newline, form feed, backspace, carriage return, tabulator, bell. *)
Definition vga_putc (c : Z) : D unit :=
  let! _ := init in
  let! x := gets cx in
  let! y := gets cy in
  let! _ :=
    (if c =? 10 then newline
     else if c =? 12 then cls
     else if c =? 8 then (if 0 <? x then set_cursor (x - 1) y else ret tt)
     else if c =? 13 then set_cursor 0 y
     else if c =? 9 then
       let x := u32 (u32 (x + 1 + 8 - 1) `quot` 8 * 8) in
       let! _ := set_cursor x y in
       if COL_CNT <=? x then newline else ret tt
     else if c =? 7 then ret tt
     else
       let! _ := put_cell y x c GRAY_ON_BLACK in
       let x := u32 (x + 1) in
       let! _ := set_cursor x y in
       if COL_CNT <=? x then newline else ret tt) in
  move_cursor.

Fixpoint vga_puts (t : list Z) : D unit :=
  match t with
  | [] => ret tt
  | c :: t => let! _ := vga_putc c in vga_puts t
  end.

(** ** A roll of paper *)

Definition blank : list cell := replicate 80 (32, GRAY_ON_BLACK).

(** All rows that were ever written, the current one last, and the column. *)
Record paper := mk_paper { above : list (list cell); current : list cell; col : Z }.

Definition feed (p : paper) : paper := mk_paper (above p ++ [current p]) blank 0.
Definition print (c : Z) (p : paper) : paper :=
  if c =? 10 then feed p
  else if c =? 12 then mk_paper [] blank 0
  else if c =? 8 then mk_paper (above p) (current p) (Z.max 0 (col p - 1))
  else if c =? 13 then mk_paper (above p) (current p) 0
  else if c =? 9 then
    (let x := (col p / 8 + 1) * 8 in if 80 <=? x then feed p else mk_paper (above p) (current p) x)
  else if c =? 7 then p
  else
    let p := mk_paper (above p) (<[Z.to_nat (col p) := (u8 c, GRAY_ON_BLACK)]> (current p)) (col p + 1) in
    if 80 <=? col p then feed p else p.

(** The last 25 rows, with blank rows below when there are fewer. *)
Definition window (rows : list (list cell)) : list (list cell) :=
  if (length rows <=? 25)%nat then rows ++ replicate (25 - length rows) blank else drop (length rows - 25) rows.

(** The screen shows the end of the paper, and the hardware cursor is where the next character goes. *)
Record displays (v : vga) (p : paper) : Prop := {
  di_inited : inited v = true;
  di_fb : fb v = window (above p ++ [current p]);
  di_widths : Forall (λ r, length r = 80%nat) (above p ++ [current p]);
  di_cx : cx v = col p;
  di_col : 0 ≤ col p < 80;
  di_cy : cy v = Z.of_nat (length (above p)) `min` 24 }.

(** The hardware cursor is at the cursor. *)
Definition cursor_at (v : vga) : Prop := find_cursor v = Ok ((cx v, cy v), v).

(** ** The cursor *)

(** The two words [move_cursor] sends for the position [cp]: the register and the byte in each. *)
Definition cursor_words_ok (cp : Z) : bool :=
  let hi := uwrap 16 (Z.lor 0x0e (Z.land (uwrap 16 cp) 0xff00)) in
  let lo := uwrap 16 (Z.lor 0x0f (Z.shiftl (uwrap 16 cp) 8)) in
  (Z.land hi 0xff =? 0x0e) && (Z.land lo 0xff =? 0x0f) &&
  (Z.lor (uwrap 16 (Z.shiftl (Z.shiftr hi 8) 8)) (Z.shiftr lo 8) =? cp).

Lemma cursor_words cp : 0 ≤ cp < 2000 → cursor_words_ok cp = true.
Proof.
  assert (forallb cursor_words_ok (seqZ 0 2000) = true) as H by (by vm_compute).
  intros Hc. rewrite forallb_forall in H. apply H, list_elem_of_In, elem_of_seqZ. lia.
Qed.

(** [move_cursor] leaves the hardware cursor at the cursor, where [find_cursor] finds it. *)
Lemma move_cursor_run v : 0 ≤ cx v < 80 → 0 ≤ cy v < 25 →
  ∃ r, move_cursor v = Ok (tt, mk_vga (inited v) (cx v) (cy v) (fb v) r) ∧ cursor_at (mk_vga (inited v) (cx v) (cy v) (fb v) r).
Proof.
  intros Hx Hy. set (cp := cx v + COL_CNT * cy v). unfold move_cursor, bind, gets, outw_crt, modify. cbn.
  eexists. split; [reflexivity|]. fold cp.
  pose proof (cursor_words cp ltac:(unfold cp, COL_CNT; lia)) as H. unfold cursor_words_ok in H.
  repeat (apply andb_true_iff in H as [H ?]). rewrite !Z.eqb_eq in *. unfold cursor_at, find_cursor, bind, gets. cbn.
  rewrite H, H1, fn_lookup_insert, fn_lookup_insert_ne, fn_lookup_insert, H0 by done. unfold ret, cp, COL_CNT. do 3 f_equal.
  - rewrite Z.mul_comm, Z.mod_add, Z.mod_small by lia. done.
  - rewrite Z.mul_comm, Z.div_add, Z.div_small by lia. done.
Qed.

(** ** Rows *)

Lemma put_cell_run v y x c a row : fb v !! Z.to_nat y = Some row → 0 ≤ x < Z.of_nat (length row) →
  put_cell y x c a v = Ok (tt, mk_vga (inited v) (cx v) (cy v) (<[Z.to_nat y := <[Z.to_nat x := (u8 c, a)]> row]> (fb v)) (crt v)).
Proof. intros Hr Hx. unfold put_cell. rewrite Hr. by rewrite (proj2 (Z.leb_le _ _)), (proj2 (Z.ltb_lt _ _)) by lia. Qed.

Lemma clear_loop_run y n : ∀ v x row, fb v !! Z.to_nat y = Some row → 0 ≤ x → x + Z.of_nat n = Z.of_nat (length row) →
  clear_loop n y x v = Ok (tt, mk_vga (inited v) (cx v) (cy v)
    (<[Z.to_nat y := take (Z.to_nat x) row ++ replicate n (32, GRAY_ON_BLACK)]> (fb v)) (crt v)).
Proof.
  induction n as [|n IH]; intros v x row Hr Hx Hn; cbn [clear_loop].
  - rewrite app_nil_r, take_ge, list_insert_id by (done || lia). by destruct v.
  - rewrite (bind_Ok _ _ _ _ _ (put_cell_run v y x 32 GRAY_ON_BLACK row Hr ltac:(lia))).
    rewrite (IH _ (x + 1) (<[Z.to_nat x := (32, GRAY_ON_BLACK)]> row)); cbn [fb inited cx cy crt]; [|..|rewrite length_insert; lia].
    + rewrite list_insert_insert_eq. replace (Z.to_nat (x + 1)) with (S (Z.to_nat x)) by lia.
      rewrite (take_S_r _ _ (32, GRAY_ON_BLACK)) by (apply list_lookup_insert_eq; lia).
      rewrite take_insert_ge, <-app_assoc by lia. done.
    + by rewrite list_lookup_insert_eq by (by eapply lookup_lt_Some).
    + lia.
Qed.

Lemma clear_row_run v y row : fb v !! Z.to_nat y = Some row → length row = 80%nat →
  clear_row y v = Ok (tt, mk_vga (inited v) (cx v) (cy v) (<[Z.to_nat y := blank]> (fb v)) (crt v)).
Proof. intros Hr Hl. unfold clear_row. by rewrite (clear_loop_run y _ v 0 row Hr) by (unfold COL_CNT; lia). Qed.

Lemma cls_loop_run n : ∀ v y, Forall (λ r, length r = 80%nat) (fb v) → 0 ≤ y → y + Z.of_nat n = Z.of_nat (length (fb v)) →
  cls_loop n y v = Ok (tt, mk_vga (inited v) (cx v) (cy v) (take (Z.to_nat y) (fb v) ++ replicate n blank) (crt v)).
Proof.
  induction n as [|n IH]; intros v y Hw Hy Hn; cbn [cls_loop].
  - rewrite app_nil_r, take_ge by lia. by destruct v.
  - destruct (lookup_lt_is_Some_2 (fb v) (Z.to_nat y)) as [row Hr]; [lia|].
    rewrite (bind_Ok _ _ _ _ _ (clear_row_run v y row Hr ltac:(by eapply Forall_lookup_1 in Hw))).
    rewrite IH; cbn [fb inited cx cy crt]; [|by apply Forall_insert|lia|rewrite length_insert; lia].
    replace (Z.to_nat (y + 1)) with (S (Z.to_nat y)) by lia.
    rewrite (take_S_r _ _ blank) by (apply list_lookup_insert_eq; lia). rewrite take_insert_ge, <-app_assoc by lia. done.
Qed.

(** ** The window on the paper *)

Definition wide (rows : list (list cell)) : Prop := Forall (λ r, length r = 80%nat) rows.

Lemma window_wide rows : wide rows → wide (window rows).
Proof.
  intros H. unfold window. destruct (_ <=? _)%nat; [|by apply Forall_drop].
  apply Forall_app. split; [done|]. apply Forall_replicate. by vm_compute.
Qed.

Lemma window_length rows : length (window rows) = 25%nat.
Proof. unfold window. destruct (Nat.leb_spec (length rows) 25); rewrite ?length_app, ?length_replicate, ?length_drop; lia. Qed.

Lemma window_lookup a c : window (a ++ [c]) !! (length a `min` 24)%nat = Some c.
Proof.
  unfold window. rewrite length_app. simpl. destruct (Nat.leb_spec (length a + 1) 25).
  - rewrite Nat.min_l by lia. rewrite <-app_assoc. apply list_lookup_middle. done.
  - rewrite Nat.min_r, lookup_drop by lia. apply list_lookup_middle. lia.
Qed.

Lemma window_insert a c c' : <[(length a `min` 24)%nat := c']> (window (a ++ [c])) = window (a ++ [c']).
Proof.
  unfold window. rewrite !length_app. simpl. destruct (Nat.leb_spec (length a + 1) 25).
  - rewrite Nat.min_l by lia. rewrite <-!app_assoc, insert_app_r_alt, Nat.sub_diag by lia. done.
  - rewrite Nat.min_r by lia. rewrite !drop_app_le by lia. rewrite insert_app_r_alt by (rewrite length_drop; lia).
    by replace (24 - length (drop (length a + 1 - 25) a))%nat with 0%nat by (rewrite length_drop; lia).
Qed.

Lemma window_feed a : (length a < 25)%nat → window (a ++ [blank]) = window a.
Proof.
  intros H. unfold window. rewrite length_app. simpl. rewrite (proj2 (Nat.leb_le _ 25)), (proj2 (Nat.leb_le (length a) 25)) by lia.
  rewrite <-app_assoc. f_equal. replace (25 - length a)%nat with (S (25 - (length a + 1))) by lia. done.
Qed.

Lemma window_scroll a : (25 ≤ length a)%nat → window (a ++ [blank]) = drop 1 (window a) ++ [blank].
Proof.
  intros H. unfold window. rewrite length_app. simpl. rewrite (proj2 (Nat.leb_gt _ 25)) by lia. rewrite drop_app_le by lia. f_equal.
  destruct (Nat.leb_spec (length a) 25).
  - replace (25 - length a)%nat with 0%nat by lia. rewrite app_nil_r. by replace (length a + 1 - 25)%nat with 1%nat by lia.
  - rewrite drop_drop. f_equal. lia.
Qed.

(** A cursor on a row of the screen. *)
Lemma cy_nat v p : displays v p → Z.to_nat (cy v) = (length (above p) `min` 24)%nat.
Proof. intros []. lia. Qed.

Lemma current_row v p : displays v p → fb v !! Z.to_nat (cy v) = Some (current p) ∧ length (current p) = 80%nat.
Proof.
  intros Hd. rewrite (cy_nat _ _ Hd). destruct Hd as [_ -> Hw _ _ _]. split; [apply window_lookup|].
  apply Forall_app in Hw as [_ Hw]. by apply list.Forall_cons in Hw as [? _].
Qed.

(** [newline], wherever in the row the cursor is. *)
Lemma newline_run v p x : displays v p →
  ∃ v', newline (mk_vga true x (cy v) (fb v) (crt v)) = Ok (tt, v') ∧ displays v' (feed p).
Proof.
  intros Hd. pose proof Hd as [Hi Hfb Hw Hcx Hcol Hcy]. unfold newline.
  rewrite (bind_Ok (gets cy) _ (mk_vga true x (cy v) (fb v) (crt v)) (cy v) _ eq_refl).
  rewrite uwrap_id by (unfold in_u; lia).
  assert (wide ((above p ++ [current p]) ++ [blank])) as Hw'.
  { apply Forall_app. split; [done|]. constructor; [by vm_compute|constructor]. }
  unfold ROW_CNT. destruct (Z.leb_spec 25 (cy v + 1)).
  - rewrite (bind_Ok (set_cursor _ _) _ _ tt _ eq_refl).
    destruct (lookup_lt_is_Some_2 (fb v) 24) as [row Hr]; [rewrite Hfb, window_length; lia|].
    rewrite (bind_Ok _ _ _ tt (mk_vga true 0 24 (drop 1 (fb v) ++ [row]) (crt v))) by (unfold scroll; cbn; by rewrite Hr).
    assert (length (drop 1 (fb v)) = 24)%nat as Hl by (rewrite length_drop, Hfb, window_length; done).
    erewrite clear_row_run; cbn [fb].
    2:{ apply list_lookup_middle. rewrite Hl. done. }
    2:{ rewrite Hfb in Hr. by eapply (Forall_lookup_1 _ _ _ _ (window_wide _ Hw)). }
    eexists. split; [done|]. split; cbn; [done| |done|done|lia|rewrite length_app; simpl; lia].
    rewrite insert_app_r_alt by (rewrite Hl; lia). replace (Z.to_nat (25 - 1) - length (drop 1 (fb v)))%nat with 0%nat by (rewrite Hl; lia).
    rewrite window_scroll, Hfb by (rewrite length_app; simpl; lia). done.
  - eexists. split; [done|]. split; cbn; [done| |done|done|lia|rewrite length_app; simpl; lia].
    rewrite window_feed by (rewrite length_app; simpl; lia). done.
Qed.

(** [cls] on any screen of the right size. *)
Lemma cls_run v : length (fb v) = 25%nat → wide (fb v) → inited v = true →
  ∃ v', cls v = Ok (tt, v') ∧ displays v' (mk_paper [] blank 0).
Proof.
  intros Hl Hw Hi. unfold cls. rewrite (bind_Ok _ _ _ _ _ (cls_loop_run (Z.to_nat ROW_CNT) v 0 Hw ltac:(lia) ltac:(unfold ROW_CNT; lia))).
  rewrite (bind_Ok (set_cursor _ _) _ _ tt _ eq_refl). cbn [inited cx cy fb crt].
  destruct (move_cursor_run (mk_vga (inited v) 0 0 (take (Z.to_nat 0) (fb v) ++ replicate (Z.to_nat ROW_CNT) blank) (crt v))) as (r & E & _);
    [cbn; lia..|]. rewrite E. eexists. split; [done|]. split; try done. constructor; [by vm_compute|constructor].
Qed.

(** The cursor moves within the row. *)
Lemma displays_move v p x : displays v p → 0 ≤ x < 80 →
  displays (mk_vga true x (cy v) (fb v) (crt v)) (mk_paper (above p) (current p) x).
Proof. intros [] Hx. by split. Qed.

(** After the cursor advanced to [x], with a new line when the row is full. *)
Lemma advance_run v p x : displays v p → 0 ≤ x ≤ 80 →
  ∃ v', (let! _ := set_cursor x (cy v) in if COL_CNT <=? x then newline else ret tt) v = Ok (tt, v') ∧
    displays v' (if 80 <=? x then feed p else mk_paper (above p) (current p) x).
Proof.
  intros Hd Hx. rewrite (bind_Ok (set_cursor _ _) _ _ tt _ eq_refl). rewrite (di_inited _ _ Hd). unfold COL_CNT.
  destruct (Z.leb_spec 80 x); [by apply newline_run|]. eexists. split; [done|]. apply displays_move; [done|lia].
Qed.

Lemma print_cell_run v p c : displays v p →
  ∃ v', put_cell (cy v) (cx v) c GRAY_ON_BLACK v = Ok (tt, v') ∧ cy v' = cy v ∧
    displays v' (mk_paper (above p) (<[Z.to_nat (col p) := (u8 c, GRAY_ON_BLACK)]> (current p)) (col p)).
Proof.
  intros Hd. destruct (current_row _ _ Hd) as [Hr Hl]. pose proof (cy_nat _ _ Hd) as Hc. destruct Hd as [Hi Hfb Hw Hcx Hcol Hcy].
  rewrite (put_cell_run v _ _ c GRAY_ON_BLACK _ Hr) by lia. eexists. split; [done|]. split; [done|]. split; cbn; try done.
  - rewrite Hc, Hfb, window_insert, Hcx. done.
  - apply Forall_app in Hw as [Hw _]. apply Forall_app. split; [done|]. constructor; [by rewrite length_insert|constructor].
Qed.

Lemma putc_shows v p c : displays v p →
  ∃ v', vga_putc c v = Ok (tt, v') ∧ displays v' (print c p) ∧ cursor_at v'.
Proof.
  intros Hd. unfold vga_putc. rewrite (bind_Ok _ _ v tt v) by (unfold init, bind, gets; by rewrite (di_inited _ _ Hd)).
  rewrite (bind_Ok (gets cx) _ v _ v eq_refl), (bind_Ok (gets cy) _ v _ v eq_refl).
  match goal with |- context [bind ?m _ v] => assert (∃ v', m v = Ok (tt, v') ∧ displays v' (print c p)) as (v' & E & Hd') end.
  2:{ rewrite (bind_Ok _ _ _ _ _ E). pose proof Hd' as [Hi' _ _ Hx' Hcol' Hy'].
      destruct (move_cursor_run v') as (r & E' & Hc); [lia..|]. rewrite E'. eexists. split; [done|]. split; [by destruct Hd'; split|done]. }
  pose proof Hd as [Hi Hfb Hw Hcx Hcol Hcy]. unfold print.
  destruct (c =? 10). { destruct (newline_run v p (cx v) Hd) as (v' & E & Hd'). exists v'. split; [|done]. rewrite <-E. by destruct v; simpl in *; subst. }
  destruct (c =? 12). { apply cls_run; [rewrite Hfb; apply window_length|rewrite Hfb; by apply window_wide|done]. }
  destruct (c =? 8).
  { destruct (Z.ltb_spec 0 (cx v)); (eexists; split; [done|]).
    - rewrite Hi, Hcx, Z.max_r by lia. apply displays_move; [done|lia].
    - rewrite Z.max_l by lia. destruct Hd. split; try done; cbn; lia. }
  destruct (c =? 13). { eexists. split; [done|]. rewrite Hi. apply displays_move; [done|lia]. }
  destruct (c =? 9).
  { rewrite (uwrap_id 32 (cx v + 1 + 8 - 1)), Z.quot_div_nonneg by (unfold in_u; lia).
    replace (cx v + 1 + 8 - 1) with (col p + 1 * 8) by lia. rewrite Z.div_add by lia.
    pose proof (Z.div_mod (col p) 8 ltac:(lia)). pose proof (Z.mod_pos_bound (col p) 8 ltac:(lia)).
    rewrite uwrap_id by (unfold in_u; lia). apply advance_run; [done|lia]. }
  destruct (c =? 7). { by exists v. }
  destruct (print_cell_run v p c Hd) as (v1 & E1 & Ey & Hd1). rewrite (bind_Ok _ _ _ _ _ E1).
  rewrite uwrap_id, Hcx, <-Ey by (unfold in_u; lia). destruct (advance_run v1 _ (col p + 1) Hd1 ltac:(lia)) as (v' & E & Hd').
  exists v'. split; [done|]. cbn [above current col] in Hd' |- *. destruct (Z.leb_spec 80 (col p + 1)); [|done].
  by replace (feed _) with (feed (mk_paper (above p) (<[Z.to_nat (col p) := (u8 c, GRAY_ON_BLACK)]> (current p)) (col p))).
Qed.

(** C23. The screen is a window on a roll of paper: a form feed followed by any text, control characters
    included, never writes outside the framebuffer and leaves on the screen the last 25 rows of
    what the text prints on an endless roll of paper 80 columns wide, with the hardware
    cursor where the next character goes. *)
Theorem vga_refines_paper (t : list Z) (v : vga) : length (fb v) = 25%nat → Forall (λ r, length r = 80%nat) (fb v) →
  ∃ v', vga_puts (12 :: t) v = Ok (tt, v') ∧ displays v' (foldl (λ p c, print c p) (mk_paper [] blank 0) t) ∧ cursor_at v'.
Proof.
  intros Hl Hw. assert (∀ t p v, displays v p → cursor_at v → ∃ v', vga_puts t v = Ok (tt, v') ∧
    displays v' (foldl (λ p c, print c p) p t) ∧ cursor_at v') as Hrun.
  { clear. induction t as [|c t IH]; intros p v Hd Hc; cbn [vga_puts foldl]; [by exists v|].
    destruct (putc_shows v p c Hd) as (v1 & E & Hd1 & Hc1). rewrite (bind_Ok _ _ _ _ _ E). by apply IH. }
  assert (∃ v1, init v = Ok (tt, v1) ∧ inited v1 = true ∧ fb v1 = fb v) as (v1 & E1 & Hi1 & Hfb1).
  { unfold init, bind, gets. destruct (inited v) eqn:Hi; [by exists v|]. by eexists. }
  destruct (cls_run v1) as (v2 & E2 & Hd2); [by rewrite Hfb1..|done|].
  destruct (move_cursor_run v2) as (r & E3 & Hc); [destruct Hd2; cbn in *; lia..|].
  cbn [vga_puts]. erewrite bind_Ok; [apply Hrun; [|exact Hc]|].
  - by destruct Hd2; split.
  - unfold vga_putc. rewrite (bind_Ok _ _ _ _ _ E1), (bind_Ok (gets cx) _ v1 _ v1 eq_refl), (bind_Ok (gets cy) _ v1 _ v1 eq_refl).
    cbn [Z.eqb Pos.eqb]. by rewrite (bind_Ok _ _ _ _ _ E2).
Qed.

(** A screen that shows what the BIOS left. *)
Definition bios_screen : vga := mk_vga false 0 0 (replicate 25 (replicate 80 (0, 0))) (λ _, 0).

Lemma vga_refines_paper_witness :
  ∃ v', vga_puts [12; 72; 105; 10; 9; 33] bios_screen = Ok (tt, v') ∧
    displays v' (mk_paper [<[1%nat := (105, 7)]> (<[0%nat := (72, 7)]> blank)] (<[8%nat := (33, 7)]> blank) 9) ∧ cursor_at v'.
Proof.
  apply (vga_refines_paper [72; 105; 10; 9; 33] bios_screen); [reflexivity|]. by repeat constructor.
Defined.
