(* ===== verification/Serial.v ===== *)
(** * The serial port (devices/serial.c)

    Bytes go out through a queue that the interrupt handler empties, or by polling; received bytes
    go to the input buffer.  Reading the status register for the [k]-th time gives [lsr k], reading
    the [k]-th received byte gives [rbr k].  [sent] is what was written to the transmitter, and
    [log] what was written to the other registers.  Interrupts are off in all of these functions, and reading
    the interrupt identification register changes nothing here.  That the handler is registered is shown with the interrupt
    table. *)

From S2P Require Import Prelude Intq.

(** ** Registers and state *)

Definition IO_BASE : Z := 0x3f8.
Definition IER_REG : Z := IO_BASE + 1.
Definition LS_REG : Z := IO_BASE + 0.
Definition MS_REG : Z := IO_BASE + 1.
Definition FCR_REG : Z := IO_BASE + 2.
Definition LCR_REG : Z := IO_BASE + 3.
Definition MCR_REG : Z := IO_BASE + 4.
Definition IER_RECV : Z := 0x01.
Definition IER_XMIT : Z := 0x02.
Definition LCR_N81 : Z := 0x03.
Definition LCR_DLAB : Z := 0x80.
Definition MCR_OUT2 : Z := 0x08.
Definition LSR_DR : Z := 0x01.
Definition LSR_THRE : Z := 0x20.

Inductive serial_mode := UNINIT | POLL | QUEUE.

Record serial := mk_serial {
  mode : serial_mode;
  txq : intq;
  buffer : intq;
  ier : Z;
  sent : list Z;
  log : list (Z * Z);
  lsr_cnt : nat;
  rbr_cnt : nat }.

Abbreviation U := (M serial).

Definition set_mode (m : serial_mode) : U unit := modify (λ s,
  mk_serial m (txq s) (buffer s) (ier s) (sent s) (log s) (lsr_cnt s) (rbr_cnt s)).
Definition outb (port value : Z) : U unit := modify (λ s,
  mk_serial (mode s) (txq s) (buffer s) (ier s) (sent s) (log s ++ [(port, u8 value)]) (lsr_cnt s) (rbr_cnt s)).
(** [outb] to the interrupt enable register and to the transmitter. *)
Definition out_ier (value : Z) : U unit := modify (λ s,
  mk_serial (mode s) (txq s) (buffer s) value (sent s) (log s) (lsr_cnt s) (rbr_cnt s)).
Definition out_thr (byte : Z) : U unit := modify (λ s,
  mk_serial (mode s) (txq s) (buffer s) (ier s) (sent s ++ [byte]) (log s) (lsr_cnt s) (rbr_cnt s)).
Definition on_txq {A} (f : Q A) : U A := λ s,
  let? '(a, q) := f (txq s) in Ok (a, mk_serial (mode s) q (buffer s) (ier s) (sent s) (log s) (lsr_cnt s) (rbr_cnt s)).
Definition on_buffer {A} (f : Q A) : U A := λ s,
  let? '(a, q) := f (buffer s) in Ok (a, mk_serial (mode s) (txq s) q (ier s) (sent s) (log s) (lsr_cnt s) (rbr_cnt s)).

Definition mode_is (m : serial_mode) (s : serial) : bool :=
  match mode s, m with UNINIT, UNINIT | POLL, POLL | QUEUE, QUEUE => true | _, _ => false end.

Section Serial.
Context (lsr rbr : nat → Z).
(** Bounds the rounds of polling. *)
Context (fuel : nat).

Definition in_lsr : U Z := λ s,
  Ok (lsr (lsr_cnt s), mk_serial (mode s) (txq s) (buffer s) (ier s) (sent s) (log s) (S (lsr_cnt s)) (rbr_cnt s)).
Definition in_rbr : U Z := λ s,
  Ok (rbr (rbr_cnt s), mk_serial (mode s) (txq s) (buffer s) (ier s) (sent s) (log s) (lsr_cnt s) (S (rbr_cnt s))).

(** ** Configuration *)

Definition set_serial (bps : Z) : U unit :=
  let base_rate := 1843200 `quot` 16 in
  let divisor := uwrap 16 (base_rate `quot` bps) in
  let! _ := ASSERT ((300 <=? bps) && (bps <=? 115200)) in
  let! _ := outb LCR_REG (Z.lor LCR_N81 LCR_DLAB) in
  let! _ := outb LS_REG (Z.land divisor 0xff) in
  let! _ := outb MS_REG (Z.shiftr divisor 8) in
  outb LCR_REG LCR_N81.

Definition init_poll : U unit :=
  let! ok := gets (mode_is UNINIT) in
  let! _ := ASSERT ok in
  let! _ := out_ier 0 in
  let! _ := outb FCR_REG 0 in
  let! _ := set_serial 9600 in
  let! _ := outb MCR_REG MCR_OUT2 in
  let! _ := on_txq (modify intq_init) in
  set_mode POLL.

Definition write_ier : U unit :=
  let! empty := gets (λ s, intq_empty (txq s)) in
  let ier := if empty : bool then 0 else IER_XMIT in
  let! full := gets (λ s, intq_full (buffer s)) in
  let ier := if full : bool then ier else Z.lor ier IER_RECV in
  out_ier ier.

Definition serial_init_queue : U unit :=
  let! uninit := gets (mode_is UNINIT) in
  let! _ := (if uninit : bool then init_poll else ret tt) in
  let! ok := gets (mode_is POLL) in
  let! _ := ASSERT ok in
  let! _ := set_mode QUEUE in
  write_ier.

(** ** Bytes *)

Fixpoint putc_poll (n : nat) (byte : Z) : U unit :=
  match n with
  | O => out_of_fuel
  | S n =>
      let! st := in_lsr in
      if Z.land st LSR_THRE =? 0 then putc_poll n byte else out_thr byte
  end.

(** [putc_poll (intq_getc (&txq))], with a byte in the queue. *)
Definition poll_one (intr : bool) (t : Z) : U unit :=
  let! r := on_txq (intq_getc intr t) in
  match r with Got byte _ => putc_poll fuel byte | _ => undef end.

(** [on]: interrupts were on before; [intr] and [t] as for the queues.  A thread that sleeps in
    [intq_putc] has not stored its byte yet. *)
Definition serial_putc (on intr : bool) (t byte : Z) : U result :=
  let! queue := gets (mode_is QUEUE) in
  if negb queue then
    let! uninit := gets (mode_is UNINIT) in
    let! _ := (if uninit : bool then init_poll else ret tt) in
    let! _ := putc_poll fuel byte in
    ret (Stored 0)
  else
    let! full := gets (λ s, intq_full (txq s)) in
    let! _ := (if negb on && full then poll_one intr t else ret tt) in
    let! r := on_txq (intq_putc intr t byte) in
    match r with
    | Stored _ => let! _ := write_ier in ret r
    | _ => ret r
    end.

(** The rounds are at most the bytes of the queue. *)
Fixpoint flush_loop (n : nat) (intr : bool) (t : Z) : U unit :=
  let! empty := gets (λ s, intq_empty (txq s)) in
  if empty : bool then ret tt
  else match n with O => out_of_fuel | S n => let! _ := poll_one intr t in flush_loop n intr t end.
Definition serial_flush (intr : bool) (t : Z) : U unit := flush_loop 64 intr t.

Definition serial_notify : U unit :=
  let! queue := gets (mode_is QUEUE) in
  if queue : bool then write_ier else ret tt.

Fixpoint receive_loop (n : nat) : U unit :=
  let! full := gets (λ s, intq_full (buffer s)) in
  if full : bool then ret tt
  else
    let! st := in_lsr in
    if Z.land st LSR_DR =? 0 then ret tt
    else
      match n with
      | O => out_of_fuel
      | S n =>
          let! byte := in_rbr in
          let! _ := on_buffer (input_putc true 0 byte) in
          let! _ := serial_notify in
          receive_loop n
      end.

Fixpoint transmit_loop (n : nat) : U unit :=
  let! empty := gets (λ s, intq_empty (txq s)) in
  if empty : bool then ret tt
  else
    let! st := in_lsr in
    if Z.land st LSR_THRE =? 0 then ret tt
    else
      match n with
      | O => out_of_fuel
      | S n =>
          let! r := on_txq (intq_getc true 0) in
          match r with
          | Got byte _ => let! _ := out_thr byte in transmit_loop n
          | _ => undef
          end
      end.

Definition serial_interrupt : U unit :=
  let! _ := receive_loop 64 in
  let! _ := transmit_loop 64 in
  write_ier.
End Serial.

(** ** The line *)

(** The port with [pend] to be sent and [got] in the input buffer, each with the threads that wait. *)
Record port_ok (s : serial) (pend got : queue) : Prop := {
  po_mode : mode s = QUEUE;
  po_txq : represents (txq s) pend;
  po_buffer : represents (buffer s) got;
  po_xmit : content pend ≠ [] → Z.testbit (ier s) 1 = true;
  po_recv : Z.of_nat (length (content got)) ≠ 63 → Z.testbit (ier s) 0 = true }.

(** The transmitter becomes free again within [fuel] looks. *)
Definition responsive (lsr : nat → Z) (fuel : nat) : Prop :=
  ∀ k, ∃ j, (k ≤ j < k + fuel)%nat ∧ Z.land (lsr j) LSR_THRE ≠ 0.

Lemma input_putc_run intr t key q a : represents q a → Z.of_nat (length (content a)) ≠ 63 →
  ∃ q', input_putc intr t key q = Ok (Stored (reader a), q') ∧ represents q' (mk_queue (content a ++ [key]) 0 (writer a) (owner a)).
Proof.
  intros Hr Hl. destruct (putc_run intr t key q a Hr Hl) as (q' & E & Hq). exists q'. split; [|done].
  unfold input_putc, input_full. rewrite (bind_Ok (gets _) _ q false q) by (unfold gets; by rewrite (full_iff _ _ Hr), (proj2 (Z.eqb_neq _ 63))).
  by rewrite (bind_Ok (ASSERT _) _ q tt q).
Qed.

Section Line.
Context (lsr rbr : nat → Z) (fuel : nat) (Hready : responsive lsr fuel).

Lemma putc_poll_run byte n : ∀ s, (∃ j, (lsr_cnt s ≤ j < lsr_cnt s + n)%nat ∧ Z.land (lsr j) LSR_THRE ≠ 0) →
  ∃ k, putc_poll lsr n byte s = Ok (tt, mk_serial (mode s) (txq s) (buffer s) (ier s) (sent s ++ [byte]) (log s) k (rbr_cnt s)).
Proof.
  induction n as [|n IH]; intros s (j & Hj & Ht); [lia|]. cbn [putc_poll]. erewrite (bind_Ok (in_lsr _)) by done.
  destruct (Z.eqb_spec (Z.land (lsr (lsr_cnt s)) LSR_THRE) 0) as [E|E]; [|by eexists].
  apply (IH (mk_serial (mode s) (txq s) (buffer s) (ier s) (sent s) (log s) (S (lsr_cnt s)) (rbr_cnt s))). exists j. split; [|done]. simpl.
  destruct (decide (j = lsr_cnt s)) as [->|]; [done|lia].
Qed.

(** What polling and interrupts leave alone. *)
Record kept (s s' : serial) (pend got : queue) : Prop := {
  ke_mode : mode s' = mode s;
  ke_txq : represents (txq s') pend;
  ke_buffer : represents (buffer s') got }.

Lemma poll_one_run intr t s pend got b bs : represents (txq s) pend → represents (buffer s) got → content pend = b :: bs →
  ∃ s', poll_one lsr fuel intr t s = Ok (tt, s') ∧ kept s s' (mk_queue bs (reader pend) 0 (owner pend)) got ∧
    sent s' = sent s ++ [b] ∧ rbr_cnt s' = rbr_cnt s ∧ ier s' = ier s.
Proof.
  intros Ht Hb Hc. destruct (getc_run intr t (txq s) pend b bs Ht Hc) as (q' & E & Hq). unfold poll_one.
  erewrite bind_Ok by (unfold on_txq; by rewrite E).
  destruct (putc_poll_run b fuel (mk_serial (mode s) q' (buffer s) (ier s) (sent s) (log s) (lsr_cnt s) (rbr_cnt s)) (Hready _)) as (k & ->).
  eexists. split; [done|]. split; [by split|]. done.
Qed.

Lemma write_ier_run s pend got : mode s = QUEUE → represents (txq s) pend → represents (buffer s) got →
  ∃ s', write_ier s = Ok (tt, s') ∧ port_ok s' pend got ∧ sent s' = sent s ∧ rbr_cnt s' = rbr_cnt s ∧ lsr_cnt s' = lsr_cnt s.
Proof.
  intros Hm Ht Hb. unfold write_ier, bind, gets, out_ier, modify. eexists. split; [done|]. split; [|done].
  split; try done; cbn; rewrite (empty_iff _ _ Ht), (full_iff _ _ Hb); intros H.
  - rewrite bool_decide_eq_false_2 by done. by destruct (_ =? 63).
  - rewrite (proj2 (Z.eqb_neq _ 63)) by done. by destruct (bool_decide _).
Qed.

(** One byte, with interrupts off: it is always taken. *)
Lemma putc_off_run intr t byte s pend got : port_ok s pend got →
  ∃ w s' pend', serial_putc lsr fuel false intr t byte s = Ok (Stored w, s') ∧ port_ok s' pend' got ∧
    sent s' ++ content pend' = sent s ++ content pend ++ [byte] ∧ rbr_cnt s' = rbr_cnt s.
Proof.
  intros [Hm Ht Hb _ _]. unfold serial_putc. rewrite (bind_Ok (gets _) _ s true s) by (unfold gets, mode_is; by rewrite Hm). cbn [negb].
  rewrite (bind_Ok (gets _) _ s _ s eq_refl). rewrite (full_iff _ _ Ht). cbn [andb].
  assert (∃ s1 pend1, (if Z.of_nat (length (content pend)) =? 63 then poll_one lsr fuel intr t else ret tt) s = Ok (tt, s1) ∧
    kept s s1 pend1 got ∧ sent s1 ++ content pend1 = sent s ++ content pend ∧ Z.of_nat (length (content pend1)) ≠ 63 ∧ rbr_cnt s1 = rbr_cnt s)
    as (s1 & pend1 & E1 & [Hm1 Ht1 Hb1] & Hs1 & Hl1 & Hr1).
  { destruct (Z.eqb_spec (Z.of_nat (length (content pend))) 63) as [Hl|Hl].
    - destruct (content pend) as [|b bs] eqn:Ec; [simpl in Hl; lia|]. simpl in Hl.
      destruct (poll_one_run intr t s pend got b bs Ht Hb Ec) as (s1 & E & Hk & Hs & Hr & _). exists s1, (mk_queue bs (reader pend) 0 (owner pend)).
      split; [done|]. split; [done|]. rewrite Hs, <-app_assoc. split; [done|]. simpl. split; [lia|done].
    - exists s, pend. by split_and!. }
  rewrite (bind_Ok _ _ _ _ _ E1). destruct (putc_run intr t byte (txq s1) pend1 Ht1 Hl1) as (q' & E2 & Hq).
  erewrite bind_Ok by (unfold on_txq; by rewrite E2). cbv iota beta.
  edestruct (write_ier_run (mk_serial (mode s1) q' (buffer s1) (ier s1) (sent s1) (log s1) (lsr_cnt s1) (rbr_cnt s1))) as (s2 & E3 & Hp & Hs2 & Hr2 & _);
    [by rewrite Hm1|exact Hq|exact Hb1|]. rewrite (bind_Ok _ _ _ _ _ E3). eexists _, s2, _. split; [done|]. split; [exact Hp|].
  cbn in Hs2, Hr2 |- *. rewrite Hs2, Hr2, app_assoc, Hs1, <-app_assoc. by rewrite Hr1.
Qed.

Lemma flush_run intr t n : ∀ s pend got, represents (txq s) pend → represents (buffer s) got → (length (content pend) ≤ n)%nat →
  ∃ s' pend', flush_loop lsr fuel n intr t s = Ok (tt, s') ∧ kept s s' pend' got ∧ content pend' = [] ∧
    sent s' = sent s ++ content pend ∧ rbr_cnt s' = rbr_cnt s ∧ ier s' = ier s.
Proof.
  induction n as [|n IH]; intros s pend got Ht Hb Hn; cbn [flush_loop]; rewrite (bind_Ok (gets _) _ s _ s eq_refl), (empty_iff _ _ Ht).
  - destruct (content pend) eqn:Ec; [|simpl in Hn; lia]. exists s, pend. rewrite app_nil_r. by split_and!.
  - destruct (content pend) as [|b bs] eqn:Ec; [exists s, pend; rewrite app_nil_r; by split_and!|]. cbn [bool_decide].
    change (bool_decide (b :: bs = [])) with false. cbv iota.
    destruct (poll_one_run intr t s pend got b bs Ht Hb Ec) as (s1 & E & [Hm1 Ht1 Hb1] & Hs & Hr & Hi). rewrite (bind_Ok _ _ _ _ _ E).
    destruct (IH s1 _ got Ht1 Hb1) as (s' & pend' & E' & [Hm' Ht' Hb'] & Hc' & Hs' & Hr' & Hi'); [simpl in *; lia|].
    exists s', pend'. split; [done|]. split; [split; congruence|]. split; [done|]. rewrite Hs', Hs, <-app_assoc. split; [done|split; congruence].
Qed.

(** The handler stores what comes in while there is room, in its order. *)
Lemma receive_run n : ∀ s pend got, mode s = QUEUE → represents (txq s) pend → represents (buffer s) got → (63 ≤ length (content got) + n)%nat →
  ∃ s' got' m, receive_loop lsr rbr n s = Ok (tt, s') ∧ kept s s' pend got' ∧ sent s' = sent s ∧
    rbr_cnt s' = (rbr_cnt s + m)%nat ∧ content got' = content got ++ (rbr <$> seq (rbr_cnt s) m).
Proof.
  induction n as [|n IH]; intros s pend got Hm Ht Hb Hn; cbn [receive_loop]; rewrite (bind_Ok (gets _) _ s _ s eq_refl), (full_iff _ _ Hb).
  { pose proof (rp_bound _ _ Hb). rewrite (proj2 (Z.eqb_eq _ 63)) by lia. exists s, got, 0%nat. rewrite app_nil_r, Nat.add_0_r. by split_and!. }
  destruct (Z.eqb_spec (Z.of_nat (length (content got))) 63); [exists s, got, 0%nat; rewrite app_nil_r, Nat.add_0_r; by split_and!|].
  erewrite (bind_Ok (in_lsr _)) by done. set (s1 := mk_serial _ _ _ _ _ _ _ _).
  destruct (Z.land (lsr (lsr_cnt s)) LSR_DR =? 0); [exists s1, got, 0%nat; rewrite app_nil_r, Nat.add_0_r; by split_and!|].
  erewrite (bind_Ok (in_rbr _)) by done. set (byte := rbr (rbr_cnt s1)). set (s2 := mk_serial _ _ _ _ _ _ _ _).
  destruct (input_putc_run true 0 byte (buffer s) got Hb ltac:(done)) as (q' & E & Hq).
  erewrite (bind_Ok (on_buffer _)) by (unfold on_buffer; change (buffer s2) with (buffer s); by rewrite E).
  set (s3 := mk_serial _ _ _ _ _ _ _ _).
  destruct (write_ier_run s3 pend _ Hm Ht Hq) as (s4 & E4 & [Hm4 Ht4 Hb4 _ _] & Hs4 & Hr4 & _).
  rewrite (bind_Ok _ _ s3 tt s4) by (unfold serial_notify; rewrite (bind_Ok (gets _) _ s3 true s3) by (unfold gets, mode_is; cbn; by rewrite Hm); done).
  destruct (IH s4 pend _ Hm4 Ht4 Hb4) as (s' & got' & m & E' & [Hm' Ht' Hb'] & Hs' & Hr' & Hc'); [cbn [content]; rewrite length_app; simpl; lia|].
  exists s', got', (S m). split; [done|]. split; [split; try done; congruence|]. split; [by rewrite Hs', Hs4|].
  rewrite Hr4 in Hr', Hc'. cbn in Hr', Hc'. split; [lia|]. rewrite Hc', <-app_assoc. done.
Qed.

Lemma transmit_run n : ∀ s pend got, represents (txq s) pend → represents (buffer s) got → (length (content pend) ≤ n)%nat →
  ∃ s' pend', transmit_loop lsr n s = Ok (tt, s') ∧ kept s s' pend' got ∧
    sent s' ++ content pend' = sent s ++ content pend ∧ rbr_cnt s' = rbr_cnt s.
Proof.
  induction n as [|n IH]; intros s pend got Ht Hb Hn; cbn [transmit_loop]; rewrite (bind_Ok (gets _) _ s _ s eq_refl), (empty_iff _ _ Ht).
  { destruct (content pend) eqn:Ec; [|simpl in Hn; lia]. exists s, pend. rewrite Ec. by split_and!. }
  destruct (content pend) as [|b bs] eqn:Ec; [exists s, pend; rewrite Ec; by split_and!|].
  change (bool_decide (b :: bs = [])) with false. cbv iota. erewrite (bind_Ok (in_lsr _)) by done. set (s1 := mk_serial _ _ _ _ _ _ _ _).
  destruct (Z.land (lsr (lsr_cnt s)) LSR_THRE =? 0); [exists s1, pend; rewrite Ec; by split_and!|].
  destruct (getc_run true 0 (txq s) pend b bs Ht Ec) as (q' & E & Hq).
  erewrite bind_Ok by (unfold on_txq; change (txq s1) with (txq s); by rewrite E). cbv iota beta. erewrite (bind_Ok (out_thr _)) by done. set (s2 := mk_serial _ _ _ _ _ _ _ _).
  destruct (IH s2 _ got Hq Hb) as (s' & pend' & E' & [Hm' Ht' Hb'] & Hs' & Hr'); [simpl in *; lia|].
  exists s', pend'. split; [done|]. split; [by split|]. rewrite Hs'. cbn. rewrite <-app_assoc. done.
Qed.

(** ** Operations with interrupts off *)

Inductive serial_op :=
  | Putc (intr : bool) (t byte : Z)
  | Flush (intr : bool) (t : Z)
  | Interrupt.

Definition serial_step (o : serial_op) : U unit :=
  match o with
  | Putc intr t byte => let! _ := serial_putc lsr fuel false intr t byte in ret tt
  | Flush intr t => serial_flush lsr fuel intr t
  | Interrupt => serial_interrupt lsr rbr
  end.
Fixpoint serial_steps (os : list serial_op) : U unit :=
  match os with [] => ret tt | o :: os => let! _ := serial_step o in serial_steps os end.

Definition put_bytes (os : list serial_op) : list Z :=
  os ≫= (λ o, match o with Putc _ _ byte => [byte] | _ => [] end).

Lemma serial_step_run o s pend got : port_ok s pend got →
  ∃ s' pend' got' m, serial_step o s = Ok (tt, s') ∧ port_ok s' pend' got' ∧
    sent s' ++ content pend' = sent s ++ content pend ++ put_bytes [o] ∧
    rbr_cnt s' = (rbr_cnt s + m)%nat ∧ content got' = content got ++ (rbr <$> seq (rbr_cnt s) m).
Proof.
  intros Hp. pose proof Hp as [Hm Ht Hb _ Hrecv]. pose proof (rp_bound _ _ Ht) as Hbt. pose proof (rp_bound _ _ Hb) as Hbb.
  destruct o as [intr t byte|intr t|]; cbn [serial_step put_bytes mbind list_bind app].
  - destruct (putc_off_run intr t byte s pend got Hp) as (w & s' & pend' & E & Hp' & Hs & Hr). rewrite (bind_Ok _ _ _ _ _ E).
    exists s', pend', got, 0%nat. rewrite app_nil_r, Nat.add_0_r. by split_and!.
  - destruct (flush_run intr t 64 s pend got Ht Hb ltac:(lia)) as (s1 & pend' & E & [Hm1 Ht1 Hb1] & Hc & Hs & Hr & Hier).
    exists s1, pend', got, 0%nat. rewrite !app_nil_r, Nat.add_0_r, Hs, Hc, app_nil_r. split_and!; try done. split; try done; [congruence|by rewrite Hier].
  - unfold serial_interrupt. destruct (receive_run 64 s pend got Hm Ht Hb ltac:(lia)) as (s1 & got' & m & E1 & [Hm1 Ht1 Hb1] & Hs1 & Hr1 & Hc1).
    rewrite (bind_Ok _ _ _ _ _ E1). destruct (transmit_run 64 s1 pend got' Ht1 Hb1 ltac:(lia)) as (s2 & pend' & E2 & [Hm2 Ht2 Hb2] & Hs2 & Hr2).
    rewrite (bind_Ok _ _ _ _ _ E2). destruct (write_ier_run s2 pend' got' ltac:(congruence) Ht2 Hb2) as (s' & E' & Hp' & Hs' & Hr' & _).
    exists s', pend', got', m. rewrite Hs', Hs2, Hs1, app_nil_r. split_and!; try done. congruence.
Qed.

(** C22. The serial port loses no byte and changes no order: through any sequence of bytes put with
    interrupts off, flushes and interrupts, whatever the hardware answers, no call fails or waits,
    what has been sent followed by what is queued is what was put; the input buffer
    gets the received bytes in their order and never more than it has room for; and afterwards the interrupt
    enable register asks for transmit interrupts if bytes are queued and for receive
    interrupts if there is room. *)
Theorem serial_fifo os s pend got : port_ok s pend got →
  ∃ s' pend' got' m, serial_steps os s = Ok (tt, s') ∧ port_ok s' pend' got' ∧
    sent s' ++ content pend' = sent s ++ content pend ++ put_bytes os ∧
    rbr_cnt s' = (rbr_cnt s + m)%nat ∧ content got' = content got ++ (rbr <$> seq (rbr_cnt s) m).
Proof.
  revert s pend got. induction os as [|o os IH]; intros s pend got Hp; cbn [serial_steps].
  - exists s, pend, got, 0%nat. rewrite !app_nil_r, Nat.add_0_r. by split_and!.
  - destruct (serial_step_run o s pend got Hp) as (s1 & pend1 & got1 & m1 & E1 & Hp1 & Hs1 & Hr1 & Hc1). rewrite (bind_Ok _ _ _ _ _ E1).
    destruct (IH s1 pend1 got1 Hp1) as (s' & pend' & got' & m & E & Hp' & Hs & Hr & Hc).
    exists s', pend', got', (m1 + m)%nat. split; [done|]. split; [done|]. split; [|split; [lia|]].
    + rewrite Hs, app_assoc, Hs1, <-!app_assoc. do 2 f_equal. unfold put_bytes. by rewrite (bind_app _ [o] os).
    + rewrite Hc, Hc1, Hr1, <-app_assoc, seq_app, fmap_app. done.
Qed.
End Line.

(** A port whose transmitter is always free, with nothing queued. *)
Definition idle_port : serial :=
  mk_serial QUEUE (mk_intq 0 0 0 (replicate 64 0) 0 0) (mk_intq 0 0 0 (replicate 64 0) 0 0) 1 [] [] 0 0.

Lemma idle_port_ok : port_ok idle_port (mk_queue [] 0 0 0) (mk_queue [] 0 0 0).
Proof. by repeat split; try (intros k b Hk; rewrite lookup_nil in Hk). Qed.

Lemma serial_fifo_witness :
  ∃ s' pend' got' m, serial_steps (λ _, 0x20) (λ _, 7) 1 [Putc false 5 65; Interrupt; Putc false 5 66] idle_port = Ok (tt, s') ∧
    port_ok s' pend' got' ∧ sent s' ++ content pend' = [65; 66] ∧
    rbr_cnt s' = m ∧ content got' = (λ _, 7) <$> seq 0 m.
Proof.
  apply (serial_fifo (λ _, 0x20) (λ _, 7) 1) with (pend := mk_queue [] 0 0 0) (got := mk_queue [] 0 0 0).
  - intros k. exists k. split; [lia|]. by vm_compute.
  - exact idle_port_ok.
Defined.

(** A thread with interrupts on waits while the queue is full, without losing or sending anything. *)
Theorem serial_putc_waits lsr fuel t byte s pend got : port_ok s pend got → length (content pend) = 63%nat → owner pend ≠ t →
  ∃ r s' pend', serial_putc lsr fuel true false t byte s = Ok (r, s') ∧ port_ok s' pend' got ∧ (r = Sleeps ∨ r = Busy) ∧
    sent s' = sent s ∧ content pend' = content pend.
Proof.
  intros [Hm Ht Hb Hx Hi] Hl Ho. unfold serial_putc. rewrite (bind_Ok (gets _) _ s true s) by (unfold gets, mode_is; by rewrite Hm). cbn [negb].
  rewrite (bind_Ok (gets _) _ s _ s eq_refl). cbn [negb andb]. rewrite (bind_Ok (ret tt) _ s tt s eq_refl).
  pose proof (putc_sleeps false t byte (txq s) pend Ht ltac:(lia)) as H. unfold sleep in H. cbn [orb] in H.
  rewrite (proj2 (Z.eqb_neq _ _) Ho) in H. destruct (owner pend =? 0); destruct H as (q' & E & Hq);
    (erewrite bind_Ok by (unfold on_txq; by rewrite E)); (eexists _, _, _; split; [done|]; split; [by split|]; by auto).
Qed.
