(* ===== verification/Clock.v ===== *)
(** * Clocks (devices/rtc.c, devices/pit.c, devices/timer.c)

    Reading the real-time clock, setting the interval timer, calibrating the busy-wait loop
    and sleeping.  The hardware is a parameter: the [k]-th value read from a register, the
    number of loops that fit in a tick, the value of [ticks] at the [k]-th look. *)

From S2P Require Import Prelude.

(** ** The real-time clock *)

Definition bcd_to_bin (x : Z) : Z := Z.land x 0x0f + Z.shiftr x 4 * 10.

Definition RTC_REG_SEC : Z := 0.
Definition RTC_REG_MIN : Z := 2.
Definition RTC_REG_HOUR : Z := 4.
Definition RTC_REG_MDAY : Z := 7.
Definition RTC_REG_MON : Z := 8.
Definition RTC_REG_YEAR : Z := 9.

Definition days_per_month : list Z := [31; 28; 31; 30; 31; 30; 31; 31; 30; 31; 30; 31].

Record components := mk_components { sec : Z; min : Z; hour : Z; mday : Z; mon : Z; year : Z }.

Section Rtc.
(** [cmos_read k index]: the byte the [k]-th read of a register returns. *)
Variable cmos_read : nat → Z → Z.

(** The components are read until the seconds have not changed in the meantime. *)
Fixpoint read_components (fuel k : nat) : outcome components :=
  match fuel with
  | O => OutOfFuel
  | S fuel =>
      let c := mk_components (bcd_to_bin (cmos_read k RTC_REG_SEC)) (bcd_to_bin (cmos_read (k + 1) RTC_REG_MIN))
                 (bcd_to_bin (cmos_read (k + 2) RTC_REG_HOUR)) (bcd_to_bin (cmos_read (k + 3) RTC_REG_MDAY))
                 (bcd_to_bin (cmos_read (k + 4) RTC_REG_MON)) (bcd_to_bin (cmos_read (k + 5) RTC_REG_YEAR)) in
      if sec c =? bcd_to_bin (cmos_read (k + 6) RTC_REG_SEC) then Ok c else read_components fuel (k + 7)
  end.

(** [for (i = 1; i <= mon; i++)]; an index outside the table is undefined. *)
Fixpoint month_loop (n : nat) (i mon time : Z) : outcome Z :=
  match n with
  | O => OutOfFuel
  | S n =>
      if i <=? mon then
        match days_per_month !! Z.to_nat (i - 1) with
        | Some d => month_loop n (i + 1) mon (u32 (time + d * 24 * 60 * 60))
        | None => Undef
        end
      else Ok time
  end.

(** [int] is signed, [time_t] an unsigned long. *)
Definition time_of (c : components) : outcome Z :=
  let year := (if year c <? 70 then year c + 100 else year c) - 70 in
  let time := u32 (s32 ((year * 365 + (year - 1) `quot` 4) * 24 * 60 * 60)) in
  let? time := month_loop 100 1 (mon c) time in
  let time := if (2 <? mon c) && (year `rem` 4 =? 0) then u32 (time + 24 * 60 * 60) else time in
  let time := u32 (time + (mday c - 1) * 24 * 60 * 60) in
  let time := u32 (time + hour c * 60 * 60) in
  let time := u32 (time + min c * 60) in
  Ok (u32 (time + sec c)).

Definition rtc_get_time (fuel : nat) : outcome Z :=
  let? c := read_components fuel 0 in time_of c.
End Rtc.

(** The calendar, for the years in which a year divisible by four is a leap year. *)
Definition leap (y : Z) : Z := if y `mod` 4 =? 0 then 1 else 0.
Fixpoint year_days (n : nat) : Z := match n with O => 0 | S n => year_days n + 365 + leap (1970 + Z.of_nat n) end.
Definition month_days (y m : Z) : Z := default 0 (days_per_month !! Z.to_nat (m - 1)) + (if m =? 2 then leap y else 0).
Fixpoint months_days (y : Z) (n : nat) : Z := match n with O => 0 | S n => months_days y n + month_days y (Z.of_nat (S n)) end.

(** Seconds from 1970 to the given moment of year [1970 + y]. *)
Definition since_epoch (y mon mday hour min sec : Z) : Z :=
  (year_days (Z.to_nat y) + months_days (1970 + y) (Z.to_nat (mon - 1)) + mday - 1) * 86400 + hour * 3600 + min * 60 + sec.

(** The days before the month, as the code counts them. *)
Definition counted_days (y m : Z) : Z :=
  y * 365 + (y - 1) `quot` 4 + foldr Z.add 0 (take (Z.to_nat m) days_per_month) + (if (2 <? m) && (y `rem` 4 =? 0) then 1 else 0).

(** The error in days, for every month of the 68 years. *)
Lemma counted_error : forallb (λ y, forallb (λ m,
  let e := counted_days y m - (year_days (Z.to_nat y) + months_days (1970 + y) (Z.to_nat (m - 1))) in
  (27 <=? e) && (e <=? 32)) (seqZ 1 12)) (seqZ 0 68) = true.
Proof. by vm_compute. Qed.

Lemma counted_loop : forallb (λ y, forallb (λ m,
  match month_loop 100 1 m (u32 (s32 ((y * 365 + (y - 1) `quot` 4) * 24 * 60 * 60))) with
  | Ok t => (t =? (counted_days y m - (if (2 <? m) && (y `rem` 4 =? 0) then 1 else 0)) * 86400) && (0 <=? t) && (t <? 2200000000)
  | _ => false
  end) (seqZ 1 12)) (seqZ 0 68) = true.
Proof. by vm_compute. Qed.

Lemma forall_months (f : Z → Z → bool) y m : forallb (λ y, forallb (f y) (seqZ 1 12)) (seqZ 0 68) = true →
  0 ≤ y < 68 → 1 ≤ m ≤ 12 → f y m = true.
Proof.
  intros H Hy Hm. rewrite forallb_forall in H. specialize (H y ltac:(apply list_elem_of_In, elem_of_seqZ; lia)).
  rewrite forallb_forall in H. apply H, list_elem_of_In, elem_of_seqZ. lia.
Qed.

(** A moment of the years 1970 to 2037, as the clock shows it. *)
Record valid (y : Z) (c : components) : Prop := {
  va_year : 0 ≤ y < 68 ∧ year c = (70 + y) `mod` 100;
  va_mon : 1 ≤ mon c ≤ 12;
  va_mday : 1 ≤ mday c ≤ 31;
  va_hour : 0 ≤ hour c < 24;
  va_min : 0 ≤ min c < 60;
  va_sec : 0 ≤ sec c < 60 }.

(** The registers show [c] while the [n]-th round of reads lasts. *)
Definition shows (cmos : nat → Z → Z) (n : nat) (c : components) : Prop := ∀ k, (7 * n ≤ k < 7 * n + 7)%nat →
  bcd_to_bin (cmos k RTC_REG_SEC) = sec c ∧ bcd_to_bin (cmos k RTC_REG_MIN) = min c ∧ bcd_to_bin (cmos k RTC_REG_HOUR) = hour c ∧
  bcd_to_bin (cmos k RTC_REG_MDAY) = mday c ∧ bcd_to_bin (cmos k RTC_REG_MON) = mon c ∧ bcd_to_bin (cmos k RTC_REG_YEAR) = year c.

(** The seconds change in each of the rounds before the [n]-th. *)
Definition unstable (cmos : nat → Z → Z) (n : nat) : Prop := ∀ j, (j < n)%nat →
  bcd_to_bin (cmos (7 * j)%nat RTC_REG_SEC) ≠ bcd_to_bin (cmos (7 * j + 6)%nat RTC_REG_SEC).

Lemma rtc_read_run cmos c n : shows cmos n c → unstable cmos n → ∀ m k, (m + k = n)%nat → read_components cmos (S m) (7 * k) = Ok c.
Proof.
  intros Hc Hu m. induction m as [|m IH]; intros k Hk; cbn [read_components]; cbv zeta; cbn [sec].
  - assert (k = n) as -> by lia. pose proof (Hc (7 * n) ltac:(lia))%nat as (-> & _). pose proof (Hc (7 * n + 1) ltac:(lia))%nat as (_ & -> & _).
    pose proof (Hc (7 * n + 2) ltac:(lia))%nat as (_ & _ & -> & _). pose proof (Hc (7 * n + 3) ltac:(lia))%nat as (_ & _ & _ & -> & _).
    pose proof (Hc (7 * n + 4) ltac:(lia))%nat as (_ & _ & _ & _ & -> & _). pose proof (Hc (7 * n + 5) ltac:(lia))%nat as (_ & _ & _ & _ & _ & ->).
    pose proof (Hc (7 * n + 6) ltac:(lia))%nat as (-> & _). rewrite Z.eqb_refl. by destruct c.
  - rewrite (proj2 (Z.eqb_neq _ _)) by (apply Hu; lia). replace (7 * k + 7)%nat with (7 * (k + 1))%nat by lia. apply IH. lia.
Qed.

(** The time [rtc_get_time] returns, once the clock does not change while it is read, is
    never right: it counts the current month as
    already over and takes the wrong years for leap years, which makes it 27 to 32 days more
    than the seconds since 1970. *)
Theorem rtc_get_time_error cmos n y c : shows cmos n c → unstable cmos n → valid y c →
  ∃ e, rtc_get_time cmos (S n) = Ok (since_epoch y (mon c) (mday c) (hour c) (min c) (sec c) + e * 86400) ∧ 27 ≤ e ≤ 32.
Proof.
  intros Hc Hu' [[Hy Ey] Hmo Hd Hh Hmi Hs]. unfold rtc_get_time. change 0%nat with (7 * 0)%nat. rewrite (rtc_read_run cmos c n Hc Hu' n 0 ltac:(lia)). cbn [obind]. unfold time_of.
  assert ((if year c <? 70 then year c + 100 else year c) - 70 = y) as ->.
  { rewrite Ey. destruct (decide (y < 30)).
    - rewrite Z.mod_small, (proj2 (Z.ltb_ge _ 70)) by lia. lia.
    - replace (70 + y) with (y - 30 + 1 * 100) by lia. rewrite Z.mod_add, Z.mod_small by lia.
      rewrite (proj2 (Z.ltb_lt _ 70)) by lia. lia. }
  pose proof (forall_months (λ y m, _) y (mon c) counted_loop Hy Hmo) as Hl. cbv beta in Hl.
  destruct (month_loop 100 1 (mon c) _) as [t| | |]; [|done..]. rewrite !andb_true_iff in Hl. destruct Hl as [[Et%Z.eqb_eq H0%Z.leb_le] H1%Z.ltb_lt].
  pose proof (forall_months (λ y m, _) y (mon c) counted_error Hy Hmo) as He. cbv beta zeta in He. apply andb_true_iff in He as [He1%Z.leb_le He2%Z.leb_le].
  cbn [obind]. exists (counted_days y (mon c) - (year_days (Z.to_nat y) + months_days (1970 + y) (Z.to_nat (mon c - 1)))). split; [|lia].
  unfold since_epoch. f_equal. revert Et. generalize (counted_days y (mon c)) (year_days (Z.to_nat y)) (months_days (1970 + y) (Z.to_nat (mon c - 1))).
  intros a b d Et. assert (∀ x z, u32 (u32 x + z) = u32 (x + z)) as Hu by (intros; apply Zplus_mod_idemp_l).
  destruct ((2 <? mon c) && (y `rem` 4 =? 0));
    repeat first [rewrite Hu|rewrite <-Z.add_assoc]; rewrite uwrap_id by (unfold in_u; lia); lia.
Qed.

(** New Year's Day of 2000, at midnight; the seconds change during the first reading. *)
Definition sample_cmos (k : nat) (index : Z) : Z :=
  if (k =? 0)%nat then 0x59 else if index =? RTC_REG_MDAY then 1 else if index =? RTC_REG_MON then 1 else 0.

Lemma rtc_get_time_error_witness : ∃ e, rtc_get_time sample_cmos 2 = Ok (946684800 + e * 86400) ∧ 27 ≤ e ≤ 32.
Proof.
  destruct (rtc_get_time_error sample_cmos 1 30 (mk_components 0 0 0 1 1 0)) as (e & E & He).
  - intros k Hk. unfold sample_cmos. destruct (Nat.eqb_spec k 0); [lia|]. repeat split.
  - intros [|j] Hj; [|lia]. by vm_compute.
  - split; simpl; try lia. split; [lia|reflexivity].
  - exists e. split; [exact E|exact He].
Defined.

(** ** The interval timer *)

Definition PIT_HZ : Z := 1193180.
Definition TIMER_FREQ : Z := 100.

Definition pit_count (frequency : Z) : Z :=
  if frequency <? 19 then 0
  else if PIT_HZ <? frequency then 2
  else (PIT_HZ + frequency `quot` 2) `quot` frequency.

(** [pit_configure_channel]: the bytes written, with their ports. *)
Definition pit_configure_channel (channel mode frequency : Z) : outcome (list (Z * Z)) :=
  let? _ := assert_ok ((channel =? 0) || (channel =? 2)) in
  let? _ := assert_ok ((mode =? 2) || (mode =? 3)) in
  let count := pit_count frequency in
  Ok [(0x43, u8 (Z.lor (Z.lor (Z.shiftl channel 6) 0x30) (Z.shiftl mode 1)));
      (0x40 + channel, u8 count); (0x40 + channel, u8 (Z.shiftr count 8))].

(** The counter fits its 16 bits and its frequency is the nearest there is. *)
Theorem pit_count_nearest frequency : 19 ≤ frequency ≤ PIT_HZ →
  1 ≤ pit_count frequency < 2 ^ 16 ∧ Z.abs (2 * (pit_count frequency * frequency - PIT_HZ)) ≤ frequency.
Proof.
  intros Hf. unfold pit_count, PIT_HZ in *. rewrite (proj2 (Z.ltb_ge _ 19)), (proj2 (Z.ltb_ge 1193180 _)) by lia.
  rewrite !Z.quot_div_nonneg by (try apply Z.add_nonneg_nonneg; try apply Z.quot_pos; lia).
  pose proof (Z.div_mod frequency 2 ltac:(lia)). pose proof (Z.mod_pos_bound frequency 2 ltac:(lia)).
  set (h := frequency / 2) in *. pose proof (Z.div_mod (1193180 + h) frequency ltac:(lia)). pose proof (Z.mod_pos_bound (1193180 + h) frequency ltac:(lia)).
  set (q := (1193180 + h) / frequency) in *. nia.
Qed.

(** ** The busy-wait loop *)

Section Timer.
(** [tick_comes loops]: whether a timer interrupt comes while [busy_wait (loops)] runs, when
    it starts just after one. The processor does [limit] loops in a tick. *)
Variable tick_comes : Z → bool.
Variable limit : Z.
Hypothesis tick_limit : ∀ loops, tick_comes loops = (limit <? loops).

Definition too_many_loops (loops : Z) : bool := tick_comes loops.

Fixpoint double_loop (n : nat) (loops_per_tick : Z) : outcome Z :=
  match n with
  | O => OutOfFuel
  | S n =>
      if too_many_loops (u32 (loops_per_tick * 2)) then Ok loops_per_tick
      else
        let loops_per_tick := u32 (loops_per_tick * 2) in
        let? _ := assert_ok (negb (loops_per_tick =? 0)) in
        double_loop n loops_per_tick
  end.

Fixpoint refine_loop (n : nat) (high_bit test_bit loops_per_tick : Z) : outcome Z :=
  match n with
  | O => OutOfFuel
  | S n =>
      if test_bit =? Z.shiftr high_bit 10 then Ok loops_per_tick
      else
        let loops_per_tick := if too_many_loops (Z.lor high_bit test_bit) then loops_per_tick else Z.lor loops_per_tick test_bit in
        refine_loop n high_bit (Z.shiftr test_bit 1) loops_per_tick
  end.

(** At most 23 doublings and nine bits. *)
Definition timer_calibrate : outcome Z :=
  let? high_bit := double_loop 23 (Z.shiftl 1 10) in
  refine_loop 11 high_bit (Z.shiftr high_bit 1) high_bit.

Lemma double_run n k : 2 ^ k ≤ limit < 2 ^ 31 → 10 ≤ k ≤ 30 → (Z.to_nat (31 - k) ≤ n)%nat →
  ∃ j, double_loop n (2 ^ k) = Ok (2 ^ j) ∧ 10 ≤ j ≤ 30 ∧ 2 ^ j ≤ limit < 2 ^ (j + 1).
Proof.
  revert k. induction n as [|n IH]; intros k Hl Hk Hn; [lia|]. cbn [double_loop].
  assert (2 ^ k * 2 = 2 ^ (k + 1)) as E2 by (rewrite Z.pow_add_r by lia; done).
  assert (2 ^ (k + 1) ≤ 2 ^ 31) as H31 by (apply Z.pow_le_mono_r; lia).
  rewrite E2, uwrap_id by (unfold in_u; split; [lia|]; eapply Z.le_lt_trans; [exact H31|]; lia).
  unfold too_many_loops. rewrite tick_limit. destruct (Z.ltb_spec limit (2 ^ (k + 1))); [exists k; by split_and!; try lia|].
  rewrite (proj2 (Z.eqb_neq _ 0)) by lia. cbn [negb assert_ok obind].
  destruct (decide (k = 30)) as [->|Hne]; [change (2 ^ (30 + 1)) with (2 ^ 31) in *; lia|]. apply IH; lia.
Qed.

Lemma refine_run j : 10 ≤ j → ∀ n i r, 0 ≤ i ≤ 9 → (Z.to_nat i < n)%nat → 2 ^ j ≤ r → r ≤ 2 ^ (j + 1) - 2 ^ (j - 9 + i) → r `mod` 2 ^ (j - 9 + i) = 0 →
  ∃ r', refine_loop n (2 ^ j) (2 ^ (j - 10 + i)) r = Ok r' ∧ 2 ^ j ≤ r' < 2 ^ (j + 1).
Proof.
  intros Hj n. induction n as [|n IH]; intros i r Hi Hn Hr Hr' Hm; [lia|]. cbn [refine_loop].
  rewrite Z.shiftr_div_pow2 by lia. assert (2 ^ j / 2 ^ 10 = 2 ^ (j - 10)) as -> by (rewrite <-Z.pow_sub_r by lia; done).
  destruct (Z.eqb_spec (2 ^ (j - 10 + i)) (2 ^ (j - 10))) as [E|E].
  { exists r. split; [done|]. split; [done|]. assert (0 < 2 ^ (j - 9 + i)) by (apply Z.pow_pos_nonneg; lia). lia. }
  assert (i ≠ 0) as Hi0 by (intros ->; apply E; f_equal; lia).
  rewrite Z.shiftr_div_pow2 by lia. assert (2 ^ (j - 10 + i) / 2 ^ 1 = 2 ^ (j - 10 + (i - 1))) as -> by (rewrite <-Z.pow_sub_r by lia; f_equal; lia).
  assert (2 ^ (j - 9 + i) = 2 * 2 ^ (j - 10 + i)) as Ed by (rewrite <-Z.pow_succ_r by lia; f_equal; lia).
  assert (2 ^ (j - 9 + (i - 1)) = 2 ^ (j - 10 + i)) as Ed' by (f_equal; lia). set (b := 2 ^ (j - 10 + i)) in *.
  assert (0 < b) as Hb by (apply Z.pow_pos_nonneg; lia).
  assert (r `mod` b = 0) as Hmb.
  { apply Z.mod_divide; [lia|]. apply Z.mod_divide in Hm; [|lia]. etrans; [|exact Hm]. rewrite Ed. by exists 2. }
  destruct (too_many_loops _).
  - apply IH; rewrite ?Ed'; try done; try lia.
  - assert (Z.lor r b = r + b) as ->.
    { rewrite <-Z.add_nocarry_lor; [done|]. apply Z.bits_inj'. intros m Hm'. rewrite Z.land_spec, Z.bits_0. unfold b. rewrite Z.pow2_bits_eqb by lia.
      destruct (Z.eqb_spec (j - 10 + i) m) as [<-|]; [|apply andb_false_r]. rewrite andb_true_r.
      rewrite (Z.div_mod r (2 ^ (j - 9 + i))), Hm, Z.add_0_r by lia. rewrite Z.mul_comm, <-Z.shiftl_mul_pow2 by lia. apply Z.shiftl_spec_low. lia. }
    apply IH; rewrite ?Ed'; try lia. rewrite Z.add_mod, Hmb, Z.mod_same by lia. by rewrite Z.mod_0_l by lia.
Qed.

End Timer.


(** ** Sleeping *)

Section Sleep.
(** [now k]: the value of [ticks] at the [k]-th look. *)
Variable now : nat → Z.

(** Returns the number of times the thread yielded. *)
Fixpoint sleep_loop (fuel k : nat) (start ticks : Z) : outcome nat :=
  match fuel with
  | O => OutOfFuel
  | S fuel => if s64 (now k - start) <? ticks then sleep_loop fuel (S k) start ticks else Ok (k - 1)%nat
  end.
Definition timer_sleep (fuel : nat) (ticks : Z) : outcome nat := sleep_loop fuel 1 (now 0%nat) ticks.

(** The number of times the loop runs. *)
Definition busy_wait (loops : Z) : Z := Z.max 0 loops.

Definition real_time_delay (loops_per_tick num denom : Z) : outcome Z :=
  let? _ := assert_ok (denom `rem` 1000 =? 0) in
  Ok (busy_wait (s64 (s64 (s64 (loops_per_tick * num) `quot` 1000 * TIMER_FREQ) `quot` (denom `quot` 1000)))).

(** How a thread spent its time. *)
Inductive waited :=
  | Yielded (times : nat)
  | Looped (loops : Z).

(** With interrupts on. *)
Definition real_time_sleep (fuel : nat) (loops_per_tick num denom : Z) : outcome waited :=
  let ticks := s64 (num * TIMER_FREQ) `quot` denom in
  if 0 <? ticks then let? n := timer_sleep fuel ticks in Ok (Yielded n)
  else let? n := real_time_delay loops_per_tick num denom in Ok (Looped n).

Definition timer_msleep (fuel : nat) (loops_per_tick ms : Z) : outcome waited := real_time_sleep fuel loops_per_tick ms 1000.
Definition timer_usleep (fuel : nat) (loops_per_tick us : Z) : outcome waited := real_time_sleep fuel loops_per_tick us (1000 * 1000).
Definition timer_nsleep (fuel : nat) (loops_per_tick ns : Z) : outcome waited := real_time_sleep fuel loops_per_tick ns (1000 * 1000 * 1000).
Definition timer_mdelay (loops_per_tick ms : Z) : outcome Z := real_time_delay loops_per_tick ms 1000.
Definition timer_udelay (loops_per_tick us : Z) : outcome Z := real_time_delay loops_per_tick us (1000 * 1000).
Definition timer_ndelay (loops_per_tick ns : Z) : outcome Z := real_time_delay loops_per_tick ns (1000 * 1000 * 1000).

Lemma sleep_loop_run start ticks m fuel : ∀ k, (k ≤ m)%nat → (∀ j, (k ≤ j < m)%nat → now j - start < ticks) → ticks ≤ now m - start →
  (∀ j, in_s 64 (now j - start)) → (m - k < fuel)%nat → sleep_loop fuel k start ticks = Ok (m - 1)%nat.
Proof.
  induction fuel as [|fuel IH]; intros k Hk Hlt Hm Hs Hf; [lia|]. cbn [sleep_loop]. rewrite swrap_id by (lia || done).
  destruct (decide (k = m)) as [->|Hne]; [by rewrite (proj2 (Z.ltb_ge _ _))|].
  rewrite (proj2 (Z.ltb_lt _ _)) by (apply Hlt; lia). apply IH; [lia|intros; apply Hlt; lia|done|done|lia].
Qed.

(** [timer_sleep] returns at the first look at which [ticks] ticks have passed, and there is
    such a look when time goes on. *)
Theorem timer_sleep_correct ticks m : (∀ j, in_s 64 (now j - now 0%nat)) → (1 ≤ m)%nat →
  (∀ j, (1 ≤ j < m)%nat → now j < now 0%nat + ticks) → now 0%nat + ticks ≤ now m →
  timer_sleep (S m) ticks = Ok (m - 1)%nat.
Proof. intros Hs Hm Hlt Hge. apply sleep_loop_run; [lia|intros j Hj; specialize (Hlt j Hj); lia|lia|done|lia]. Qed.

(** The loops of a delay of [num]/[denom] seconds: never more than the exact number, and
    short of it by a loop and the rounding of the division by 1000. *)
Theorem real_time_delay_correct loops_per_tick num d :
  0 < d → 0 ≤ num → 0 ≤ loops_per_tick → loops_per_tick * num < 2 ^ 63 →
  ∃ n, real_time_delay loops_per_tick num (1000 * d) = Ok n ∧ 0 ≤ n ∧
    n * (1000 * d) ≤ loops_per_tick * num * TIMER_FREQ < (n + 1) * (1000 * d) + 1000 * TIMER_FREQ.
Proof.
  intros Hd Hn Hl Ho. unfold real_time_delay, TIMER_FREQ.
  rewrite Z.mul_comm, Z.rem_mul, Z.quot_mul by lia. cbn [Z.eqb assert_ok obind].
  assert (0 ≤ loops_per_tick * num) as Hp by lia.
  rewrite (swrap_id 64 (loops_per_tick * num)) by (unfold in_s; lia).
  rewrite (Z.quot_div_nonneg (loops_per_tick * num)) by lia.
  pose proof (Z.div_mod (loops_per_tick * num) 1000 ltac:(lia)). pose proof (Z.mod_pos_bound (loops_per_tick * num) 1000 ltac:(lia)).
  set (a := loops_per_tick * num / 1000) in *. rewrite (swrap_id 64 (a * 100)) by (unfold in_s; lia).
  rewrite Z.quot_div_nonneg by lia.
  pose proof (Z.div_mod (a * 100) d ltac:(lia)). pose proof (Z.mod_pos_bound (a * 100) d ltac:(lia)).
  assert (a * 100 / d ≤ a * 100) by (rewrite <-(Z.div_1_r (a * 100)) at 2; apply Z.div_le_compat_l; lia).
  assert (0 ≤ a * 100 / d) by (apply Z.div_pos; lia).
  set (n := a * 100 / d) in *. rewrite swrap_id by (unfold in_s; lia).
  exists n. unfold busy_wait. split; [f_equal; lia|]. split; [done|].
  replace (n * (1000 * d)) with (1000 * (d * n)) by ring. replace ((n + 1) * (1000 * d)) with (1000 * (d * n) + 1000 * d) by ring. lia.
Qed.

(** [real_time_sleep] yields for the whole ticks of the time, and loops when there is none. *)
Theorem real_time_sleep_correct loops_per_tick num denom fuel :
  0 < denom → 0 ≤ num → num * TIMER_FREQ < 2 ^ 63 →
  real_time_sleep fuel loops_per_tick num denom =
    if denom <=? num * TIMER_FREQ
    then let? n := timer_sleep fuel (num * TIMER_FREQ / denom) in Ok (Yielded n)
    else let? n := real_time_delay loops_per_tick num denom in Ok (Looped n).
Proof.
  intros Hd Hn Ho. unfold real_time_sleep, TIMER_FREQ in *. rewrite swrap_id by (unfold in_s; lia).
  rewrite Z.quot_div_nonneg by lia. destruct (Z.leb_spec denom (num * 100)).
  - rewrite (proj2 (Z.ltb_lt 0 _)); [done|]. apply Z.div_str_pos. lia.
  - by rewrite Z.div_small by lia.
Qed.
End Sleep.
