(* ===== verification/Descriptors.v ===== *)
(** * Segment and interrupt descriptors (userprog/gdt.c, threads/interrupt.c,
    [exception_init] of userprog/exception.c, [syscall_init] of userprog/syscall.c)

    The tables the processor reads, as the 64-bit entries the code builds, and what the
    processor makes of them: where a gate leads, and which privilege it takes to use it.  The
    addresses of the assembly stubs are a parameter. *)

From S2P Require Import Prelude.

(** ** Segments *)

Definition SEL_NULL : Z := 0x00.
Definition SEL_KCSEG : Z := 0x08.
Definition SEL_KDSEG : Z := 0x10.
Definition SEL_UCSEG : Z := 0x1b.
Definition SEL_UDSEG : Z := 0x23.
Definition SEL_TSS : Z := 0x28.
Definition CLS_SYSTEM : Z := 0.
Definition CLS_CODE_DATA : Z := 1.
Definition GRAN_BYTE : Z := 0.
Definition GRAN_PAGE : Z := 1.

Definition make_seg_desc (base limit class type dpl granularity : Z) : outcome Z :=
  let? _ := assert_ok (limit <=? 0xfffff) in
  let? _ := assert_ok ((class =? CLS_SYSTEM) || (class =? CLS_CODE_DATA)) in
  let? _ := assert_ok ((0 <=? type) && (type <=? 15)) in
  let? _ := assert_ok ((0 <=? dpl) && (dpl <=? 3)) in
  let? _ := assert_ok ((granularity =? GRAN_BYTE) || (granularity =? GRAN_PAGE)) in
  let e0 := Z.lor (Z.land limit 0xffff) (u32 (Z.shiftl base 16)) in
  let e1 :=
    Z.lor (Z.lor (Z.lor (Z.lor (Z.lor (Z.lor (Z.lor (Z.lor
      (Z.land (Z.shiftr base 16) 0xff)
      (Z.shiftl type 8))
      (Z.shiftl class 12))
      (Z.shiftl dpl 13))
      (Z.shiftl 1 15))
      (Z.land limit 0xf0000))
      (Z.shiftl 1 22))
      (Z.shiftl granularity 23))
      (Z.land base 0xff000000) in
  Ok (Z.lor e0 (Z.shiftl e1 32)).

Definition make_code_desc (dpl : Z) : outcome Z := make_seg_desc 0 0xfffff CLS_CODE_DATA 10 dpl GRAN_PAGE.
Definition make_data_desc (dpl : Z) : outcome Z := make_seg_desc 0 0xfffff CLS_CODE_DATA 2 dpl GRAN_PAGE.
Definition make_tss_desc (laddr : Z) : outcome Z := make_seg_desc laddr 0x67 CLS_SYSTEM 9 0 GRAN_BYTE.
Definition make_gdtr_operand (limit base : Z) : Z := Z.lor limit (Z.shiftl base 16).

(** The table, in the order of the selectors, and the operand of [lgdt]; [gdt] is where the
    table is, [tss] where the task state segment is. *)
Definition gdt_init (gdt tss : Z) : outcome (list Z * Z) :=
  let? kcode := make_code_desc 0 in
  let? kdata := make_data_desc 0 in
  let? ucode := make_code_desc 3 in
  let? udata := make_data_desc 3 in
  let? t := make_tss_desc tss in
  Ok ([0; kcode; kdata; ucode; udata; t], make_gdtr_operand 47 gdt).

(** What the processor reads from an entry. *)
Record segment := mk_segment {
  sg_base : Z;
  sg_limit : Z;
  sg_class : Z;
  sg_type : Z;
  sg_dpl : Z;
  sg_present : bool;
  sg_granularity : Z }.

Definition bits (d k w : Z) : Z := (d / 2 ^ k) `mod` 2 ^ w.

Definition decode_segment (d : Z) : segment :=
  mk_segment (bits d 16 24 + bits d 56 8 * 2 ^ 24) (bits d 0 16 + bits d 48 4 * 2 ^ 16) (bits d 44 1) (bits d 40 4) (bits d 45 2)
    (bits d 47 1 =? 1) (bits d 55 1).

(** The entry a selector stands for. *)
Definition entry_of (selector : Z) (gdt : list Z) : option Z := gdt !! Z.to_nat (selector / 8).

(** ** Gates *)

Definition make_gate (function dpl type : Z) : outcome Z :=
  let? _ := assert_ok (negb (function =? 0)) in
  let? _ := assert_ok ((0 <=? dpl) && (dpl <=? 3)) in
  let? _ := assert_ok ((0 <=? type) && (type <=? 15)) in
  let e0 := Z.lor (Z.land function 0xffff) (Z.shiftl SEL_KCSEG 16) in
  let e1 :=
    Z.lor (Z.lor (Z.lor (Z.lor
      (Z.land function 0xffff0000)
      (Z.shiftl 1 15))
      (Z.shiftl dpl 13))
      (Z.shiftl 0 12))
      (Z.shiftl type 8) in
  Ok (Z.lor e0 (Z.shiftl e1 32)).
Definition make_intr_gate (function dpl : Z) : outcome Z := make_gate function dpl 14.
Definition make_trap_gate (function dpl : Z) : outcome Z := make_gate function dpl 15.

Record gate := mk_gate {
  gt_offset : Z;
  gt_selector : Z;
  gt_dpl : Z;
  gt_type : Z;
  gt_present : bool }.

Definition decode_gate (d : Z) : gate :=
  mk_gate (bits d 0 16 + bits d 48 16 * 2 ^ 16) (bits d 16 16) (bits d 45 2) (bits d 40 4) (bits d 47 1 =? 1).

(** ** Bits *)

Lemma lor_disjoint a b k : 0 ≤ k → 0 ≤ a < 2 ^ k → Z.lor a (b * 2 ^ k) = a + b * 2 ^ k.
Proof.
  intros Hk Ha. rewrite <-Z.add_nocarry_lor; [done|]. apply Z.bits_inj'. intros n Hn. rewrite Z.land_spec, Z.bits_0.
  destruct (decide (n < k)).
  - rewrite Z.mul_pow2_bits_low by done. apply andb_false_r.
  - destruct (decide (a = 0)) as [->|]; [by rewrite Z.bits_0|]. rewrite (Z.bits_above_log2 a n); [done|lia|].
    assert (Z.log2 a < k) by (apply Z.log2_lt_pow2; lia). lia.
Qed.

Lemma land_high x k n : 0 ≤ k → 0 ≤ n → 0 ≤ x < 2 ^ (k + n) → Z.land x (Z.shiftl (Z.ones n) k) = x / 2 ^ k * 2 ^ k.
Proof.
  intros Hk Hn Hx. apply Z.bits_inj'. intros m Hm. rewrite Z.land_spec, Z.shiftl_spec by done. destruct (decide (m < k)).
  - rewrite Z.mul_pow2_bits_low, (Z.testbit_neg_r _ (m - k)) by lia. apply andb_false_r.
  - assert (∃ j, m = j + k ∧ 0 ≤ j) as (j & -> & Hj) by (exists (m - k); lia).
    rewrite Z.add_simpl_r, (Z.add_comm j k), Z.mul_pow2_bits_add, Z.div_pow2_bits, (Z.add_comm k j) by lia.
    destruct (decide (j < n)); [by rewrite Z.ones_spec_low, andb_true_r by lia|].
    rewrite Z.ones_spec_high, andb_false_r by lia. symmetry. destruct (decide (x = 0)) as [->|]; [apply Z.bits_0|].
    apply Z.bits_above_log2; [lia|]. assert (Z.log2 x < k + n) by (apply Z.log2_lt_pow2; lia). lia.
Qed.

(** A field of a sum of fields. *)
Lemma bits_field d k w lo v hi : 0 ≤ k → 0 ≤ w → d = lo + v * 2 ^ k + hi * 2 ^ (k + w) → 0 ≤ lo < 2 ^ k → 0 ≤ v < 2 ^ w → bits d k w = v.
Proof.
  intros Hk Hw -> Hlo Hv. unfold bits. rewrite Z.pow_add_r by done.
  replace (lo + v * 2 ^ k + hi * (2 ^ k * 2 ^ w)) with (lo + (v + hi * 2 ^ w) * 2 ^ k) by ring.
  rewrite Z.div_add, Z.div_small, Z.add_0_l, Z.mod_add by lia. by apply Z.mod_small.
Qed.

Ltac field_side := lazymatch goal with
  | H : ?d = _ |- ?d = _ => rewrite H; eval_pow2; ring
  | H : ?d = _ |- _ => clear H; eval_pow2; lia
  end.

Section Segments.
Context (base limit class type dpl gran : Z).
Context (Hb : in_u 32 base) (Hl : 0 ≤ limit ≤ 0xfffff) (Hc : 0 ≤ class ≤ 1) (Ht : 0 ≤ type ≤ 15) (Hd : 0 ≤ dpl ≤ 3) (Hg : 0 ≤ gran ≤ 1).

Lemma seg_desc_sum : make_seg_desc base limit class type dpl gran = Ok
  (limit `mod` 2 ^ 16 + base `mod` 2 ^ 16 * 2 ^ 16 +
   ((base / 2 ^ 16) `mod` 2 ^ 8 + type * 2 ^ 8 + class * 2 ^ 12 + dpl * 2 ^ 13 + 1 * 2 ^ 15 + limit / 2 ^ 16 * 2 ^ 16 +
    1 * 2 ^ 22 + gran * 2 ^ 23 + base / 2 ^ 24 * 2 ^ 24) * 2 ^ 32).
Proof.
  unfold make_seg_desc, CLS_SYSTEM, CLS_CODE_DATA, GRAN_BYTE, GRAN_PAGE, in_u in *.
  rewrite (proj2 (Z.leb_le limit _)), (proj2 (Z.leb_le 0 type)), (proj2 (Z.leb_le type 15)), (proj2 (Z.leb_le 0 dpl)), (proj2 (Z.leb_le dpl 3)) by lia.
  assert ((class =? 0) || (class =? 1) = true) as -> by (destruct (Z.eqb_spec class 0), (Z.eqb_spec class 1); done || lia).
  assert ((gran =? 0) || (gran =? 1) = true) as -> by (destruct (Z.eqb_spec gran 0), (Z.eqb_spec gran 1); done || lia).
  cbn [andb assert_ok obind]. rewrite !Z.shiftl_mul_pow2, Z.shiftr_div_pow2 by lia.
  change 0xffff with (Z.ones 16). change 0xff with (Z.ones 8). change 0xf0000 with (Z.shiftl (Z.ones 4) 16).
  change 0xff000000 with (Z.shiftl (Z.ones 8) 24). rewrite !Z.land_ones, !land_high by lia.
  assert (u32 (base * 2 ^ 16) = base `mod` 2 ^ 16 * 2 ^ 16) as ->.
  { unfold uwrap. change (2 ^ 32) with (2 ^ 16 * 2 ^ 16). rewrite Z.mul_mod_distr_r by lia. done. }
  pose proof (Z.mod_pos_bound limit (2 ^ 16)). pose proof (Z.mod_pos_bound base (2 ^ 16)). pose proof (Z.mod_pos_bound (base / 2 ^ 16) (2 ^ 8)).
  pose proof (Z.div_pos limit (2 ^ 16)). assert (limit / 2 ^ 16 < 2 ^ 4) by (apply Z.div_lt_upper_bound; lia).
  rewrite (lor_disjoint _ type 8), (lor_disjoint _ class 12), (lor_disjoint _ dpl 13), (lor_disjoint _ 1 15), (lor_disjoint _ (limit / 2 ^ 16) 16),
    (lor_disjoint _ 1 22), (lor_disjoint _ gran 23), (lor_disjoint _ (base / 2 ^ 24) 24), (lor_disjoint _ (base `mod` 2 ^ 16) 16), lor_disjoint by lia.
  done.
Qed.

(** The fields of such a sum. *)
Lemma sum_decodes l0 l1 b0 b1 b2 : 0 ≤ l0 < 2 ^ 16 → 0 ≤ l1 < 2 ^ 4 → 0 ≤ b0 < 2 ^ 16 → 0 ≤ b1 < 2 ^ 8 → 0 ≤ b2 < 2 ^ 8 →
  ∀ d, d = l0 + b0 * 2 ^ 16 + (b1 + type * 2 ^ 8 + class * 2 ^ 12 + dpl * 2 ^ 13 + 1 * 2 ^ 15 + l1 * 2 ^ 16 + 1 * 2 ^ 22 + gran * 2 ^ 23 + b2 * 2 ^ 24) * 2 ^ 32 →
  in_u 64 d ∧ decode_segment d = mk_segment (b0 + b1 * 2 ^ 16 + b2 * 2 ^ 24) (l0 + l1 * 2 ^ 16) class type dpl true gran.
Proof.
  clear base limit Hb Hl. intros H1 H2 H3 H4 H5 d Ed. split; [rewrite Ed; unfold in_u; eval_pow2; lia|]. unfold decode_segment.
  rewrite (bits_field d 0 16 0 l0 (b0 + (b1 + type * 2 ^ 8 + class * 2 ^ 12 + dpl * 2 ^ 13 + 1 * 2 ^ 15 + l1 * 2 ^ 16 + 1 * 2 ^ 22 + gran * 2 ^ 23 + b2 * 2 ^ 24) * 2 ^ 16)) by field_side.
  rewrite (bits_field d 16 24 l0 (b0 + b1 * 2 ^ 16) (type + class * 2 ^ 4 + dpl * 2 ^ 5 + 1 * 2 ^ 7 + l1 * 2 ^ 8 + 1 * 2 ^ 14 + gran * 2 ^ 15 + b2 * 2 ^ 16)) by field_side.
  rewrite (bits_field d 40 4 (l0 + b0 * 2 ^ 16 + b1 * 2 ^ 32) type (class + dpl * 2 + 2 ^ 3 + l1 * 2 ^ 4 + 2 ^ 10 + gran * 2 ^ 11 + b2 * 2 ^ 12)) by field_side.
  rewrite (bits_field d 44 1 (l0 + b0 * 2 ^ 16 + b1 * 2 ^ 32 + type * 2 ^ 40) class (dpl + 2 ^ 2 + l1 * 2 ^ 3 + 2 ^ 9 + gran * 2 ^ 10 + b2 * 2 ^ 11)) by field_side.
  rewrite (bits_field d 45 2 (l0 + b0 * 2 ^ 16 + b1 * 2 ^ 32 + type * 2 ^ 40 + class * 2 ^ 44) dpl (1 + l1 * 2 + 2 ^ 7 + gran * 2 ^ 8 + b2 * 2 ^ 9)) by field_side.
  rewrite (bits_field d 47 1 (l0 + b0 * 2 ^ 16 + b1 * 2 ^ 32 + type * 2 ^ 40 + class * 2 ^ 44 + dpl * 2 ^ 45) 1 (l1 + 2 ^ 6 + gran * 2 ^ 7 + b2 * 2 ^ 8)) by field_side.
  rewrite (bits_field d 48 4 (l0 + b0 * 2 ^ 16 + b1 * 2 ^ 32 + type * 2 ^ 40 + class * 2 ^ 44 + dpl * 2 ^ 45 + 2 ^ 47) l1 (2 ^ 2 + gran * 2 ^ 3 + b2 * 2 ^ 4)) by field_side.
  rewrite (bits_field d 55 1 (l0 + b0 * 2 ^ 16 + b1 * 2 ^ 32 + type * 2 ^ 40 + class * 2 ^ 44 + dpl * 2 ^ 45 + 2 ^ 47 + l1 * 2 ^ 48 + 2 ^ 54) gran b2) by field_side.
  rewrite (bits_field d 56 8 (l0 + b0 * 2 ^ 16 + b1 * 2 ^ 32 + type * 2 ^ 40 + class * 2 ^ 44 + dpl * 2 ^ 45 + 2 ^ 47 + l1 * 2 ^ 48 + 2 ^ 54 + gran * 2 ^ 55) b2 0) by field_side.
  done.
Qed.

(** The descriptor says what was asked for. *)
Lemma seg_desc_decodes : ∃ d, make_seg_desc base limit class type dpl gran = Ok d ∧ in_u 64 d ∧
  decode_segment d = mk_segment base limit class type dpl true gran.
Proof.
  eexists. split; [apply seg_desc_sum|]. unfold in_u in *.
  pose proof (Z.mod_pos_bound limit (2 ^ 16) ltac:(lia)). pose proof (Z.div_mod limit (2 ^ 16) ltac:(lia)).
  pose proof (Z.mod_pos_bound base (2 ^ 16) ltac:(lia)). pose proof (Z.div_mod base (2 ^ 16) ltac:(lia)).
  pose proof (Z.mod_pos_bound (base / 2 ^ 16) (2 ^ 8) ltac:(lia)). pose proof (Z.div_mod (base / 2 ^ 16) (2 ^ 8) ltac:(lia)) as Hq.
  rewrite Z.div_div in Hq by lia. change (2 ^ 16 * 2 ^ 8) with (2 ^ 24) in Hq.
  set (l0 := limit `mod` 2 ^ 16) in *. set (l1 := limit / 2 ^ 16) in *. set (b0 := base `mod` 2 ^ 16) in *.
  set (b1 := (base / 2 ^ 16) `mod` 2 ^ 8) in *. set (b2 := base / 2 ^ 24) in *.
  destruct (sum_decodes l0 l1 b0 b1 b2) with (d := l0 + b0 * 2 ^ 16 + (b1 + type * 2 ^ 8 + class * 2 ^ 12 + dpl * 2 ^ 13 + 1 * 2 ^ 15 + l1 * 2 ^ 16 + 1 * 2 ^ 22 + gran * 2 ^ 23 + b2 * 2 ^ 24) * 2 ^ 32) as [Hu ->];
    [eval_pow2; lia..|done|]. split; [exact Hu|]. eval_pow2.
  f_equal; lia.
Qed.
End Segments.

(** The table gives kernel and user flat segments of 4 GB with the privileges 0 and 3, and
    describes the task state segment. *)
Theorem gdt_init_correct gdt tss : in_u 32 tss →
  ∃ t op, gdt_init gdt tss = Ok (t, op) ∧
    decode_segment <$> entry_of SEL_KCSEG t = Some (mk_segment 0 0xfffff 1 10 0 true 1) ∧
    decode_segment <$> entry_of SEL_KDSEG t = Some (mk_segment 0 0xfffff 1 2 0 true 1) ∧
    decode_segment <$> entry_of SEL_UCSEG t = Some (mk_segment 0 0xfffff 1 10 3 true 1) ∧
    decode_segment <$> entry_of SEL_UDSEG t = Some (mk_segment 0 0xfffff 1 2 3 true 1) ∧
    decode_segment <$> entry_of SEL_TSS t = Some (mk_segment tss 0x67 0 9 0 true 0) ∧ entry_of SEL_NULL t = Some 0.
Proof.
  intros Ht. destruct (seg_desc_decodes tss 0x67 0 9 0 0) as (d & E & _ & Ed); [done|lia..|].
  unfold gdt_init, make_tss_desc, CLS_SYSTEM, GRAN_BYTE. rewrite E. eexists _, _. split; [reflexivity|].
  split; [by vm_compute|]. split; [by vm_compute|]. split; [by vm_compute|]. split; [by vm_compute|]. split; [|done].
  change (entry_of SEL_TSS _) with (Some d). cbn [fmap option_fmap option_map]. by rewrite Ed.
Qed.

(** A gate leads to the function in the kernel's code segment. *)
Lemma gate_decodes f dpl type : 0 < f < 2 ^ 32 → 0 ≤ dpl ≤ 3 → 0 ≤ type ≤ 15 →
  ∃ d, make_gate f dpl type = Ok d ∧ decode_gate d = mk_gate f SEL_KCSEG dpl type true.
Proof.
  intros Hf Hd Ht. unfold make_gate, SEL_KCSEG. rewrite (proj2 (Z.eqb_neq f 0)), (proj2 (Z.leb_le 0 type)), (proj2 (Z.leb_le type 15)),
    (proj2 (Z.leb_le 0 dpl)), (proj2 (Z.leb_le dpl 3)) by lia. cbn [andb negb assert_ok obind]. eexists. split; [done|].
  rewrite !Z.shiftl_mul_pow2 by lia. change 0xffff with (Z.ones 16). change 0xffff0000 with (Z.shiftl (Z.ones 16) 16).
  rewrite Z.land_ones, land_high, Z.mul_0_l, Z.lor_0_r by lia.
  pose proof (Z.mod_pos_bound f (2 ^ 16) ltac:(lia)). pose proof (Z.div_mod f (2 ^ 16) ltac:(lia)).
  set (f0 := f `mod` 2 ^ 16) in *. set (f1 := f / 2 ^ 16) in *.
  assert (Z.lor (Z.lor (Z.lor (f1 * 2 ^ 16) (1 * 2 ^ 15)) (dpl * 2 ^ 13)) (type * 2 ^ 8)
    = type * 2 ^ 8 + dpl * 2 ^ 13 + 1 * 2 ^ 15 + f1 * 2 ^ 16) as ->.
  { rewrite !(Z.lor_comm _ (type * 2 ^ 8)), (Z.lor_comm _ (dpl * 2 ^ 13)), (Z.lor_comm (f1 * 2 ^ 16)), !Z.lor_assoc.
    by rewrite (lor_disjoint _ dpl 13), (lor_disjoint _ 1 15), (lor_disjoint _ f1 16) by (eval_pow2; lia). }
  rewrite (lor_disjoint f0 8 16), lor_disjoint by (eval_pow2; lia). set (d := f0 + _ + _). assert (d = f0 + 8 * 2 ^ 16 + (type * 2 ^ 8 + dpl * 2 ^ 13 + 1 * 2 ^ 15 + f1 * 2 ^ 16) * 2 ^ 32) as Ed by done.
  clearbody d. unfold decode_gate.
  rewrite (bits_field d 0 16 0 f0 (8 + (type * 2 ^ 8 + dpl * 2 ^ 13 + 1 * 2 ^ 15 + f1 * 2 ^ 16) * 2 ^ 16)) by field_side.
  rewrite (bits_field d 16 16 f0 8 (type * 2 ^ 8 + dpl * 2 ^ 13 + 1 * 2 ^ 15 + f1 * 2 ^ 16)) by field_side.
  rewrite (bits_field d 40 4 (f0 + 8 * 2 ^ 16) type (dpl * 2 + 2 ^ 3 + f1 * 2 ^ 4)) by field_side.
  rewrite (bits_field d 45 2 (f0 + 8 * 2 ^ 16 + type * 2 ^ 40) dpl (1 + f1 * 2)) by field_side.
  rewrite (bits_field d 47 1 (f0 + 8 * 2 ^ 16 + type * 2 ^ 40 + dpl * 2 ^ 45) 1 f1) by field_side.
  rewrite (bits_field d 48 16 (f0 + 8 * 2 ^ 16 + type * 2 ^ 40 + dpl * 2 ^ 45 + 2 ^ 47) f1 0) by field_side.
  f_equal. lia.
Qed.

(** ** The interrupt descriptor table *)

(** [idt] and [intr_handlers], of 256 entries; 0 is the null pointer. *)
Record interrupts := mk_interrupts { idt : list Z; intr_handlers : list Z }.

Inductive registration :=
  | Ext (vec_no handler : Z)
  | Int (vec_no dpl : Z) (on : bool) (handler : Z).

Definition vector (r : registration) : Z := match r with Ext v _ => v | Int v _ _ _ => v end.

Section Idt.
(** The addresses of the stubs. *)
Variable intr_stubs : Z → Z.

Fixpoint gates (n : nat) (i : Z) : outcome (list Z) :=
  match n with
  | O => Ok []
  | S n => let? g := make_intr_gate (intr_stubs i) 0 in let? gs := gates n (i + 1) in Ok (g :: gs)
  end.

(** [intr_init], as far as the table goes; the handlers are static and null. *)
Definition intr_init : outcome interrupts :=
  let? gs := gates 256 0 in Ok (mk_interrupts gs (replicate 256 0)).

Definition register_handler (vec_no dpl : Z) (on : bool) (handler : Z) (s : interrupts) : outcome interrupts :=
  match intr_handlers s !! Z.to_nat vec_no with
  | None => Undef
  | Some h =>
      let? _ := assert_ok (h =? 0) in
      let? g := (if on then make_trap_gate (intr_stubs vec_no) dpl else make_intr_gate (intr_stubs vec_no) dpl) in
      Ok (mk_interrupts (<[Z.to_nat vec_no := g]> (idt s)) (<[Z.to_nat vec_no := handler]> (intr_handlers s)))
  end.

Definition intr_register_ext (vec_no handler : Z) (s : interrupts) : outcome interrupts :=
  let? _ := assert_ok ((0x20 <=? vec_no) && (vec_no <=? 0x2f)) in
  register_handler vec_no 0 false handler s.
Definition intr_register_int (vec_no dpl : Z) (on : bool) (handler : Z) (s : interrupts) : outcome interrupts :=
  let? _ := assert_ok ((vec_no <? 0x20) || (0x2f <? vec_no)) in
  register_handler vec_no dpl on handler s.

Definition register (r : registration) (s : interrupts) : outcome interrupts :=
  match r with
  | Ext v h => intr_register_ext v h s
  | Int v dpl on h => intr_register_int v dpl on h s
  end.
Fixpoint register_all (rs : list registration) (s : interrupts) : outcome interrupts :=
  match rs with [] => Ok s | r :: rs => let? s := register r s in register_all rs s end.

(** The registrations of [exception_init] and [syscall_init]. *)
Definition exception_init (kill page_fault : Z) : list registration :=
  [Int 3 3 true kill; Int 4 3 true kill; Int 5 3 true kill; Int 0 0 true kill; Int 1 0 true kill; Int 6 0 true kill;
   Int 7 0 true kill; Int 11 0 true kill; Int 12 0 true kill; Int 13 0 true kill; Int 16 0 true kill; Int 19 0 true kill;
   Int 14 0 false page_fault].
Definition syscall_init (syscall_handler : Z) : list registration := [Int 0x30 3 true syscall_handler].

(** ** What the processor does on an interrupt *)

Definition legal (r : registration) : Prop :=
  match r with
  | Ext v h => 0x20 ≤ v ≤ 0x2f ∧ h ≠ 0
  | Int v dpl _ h => 0 ≤ v < 256 ∧ ¬ 0x20 ≤ v ≤ 0x2f ∧ 0 ≤ dpl ≤ 3 ∧ h ≠ 0
  end.

(** The gate of a vector: trap gates leave interrupts on. *)
Definition gate_of (rs : list registration) (v : Z) : gate :=
  match list_find (λ r, vector r = v) rs with
  | Some (_, Int _ dpl on _) => mk_gate (intr_stubs v) SEL_KCSEG dpl (if on then 15 else 14) true
  | _ => mk_gate (intr_stubs v) SEL_KCSEG 0 14 true
  end.
Definition handler_of (rs : list registration) (v : Z) : Z :=
  match list_find (λ r, vector r = v) rs with Some (_, Ext _ h) | Some (_, Int _ _ _ h) => h | None => 0 end.

Record idt_inv (s : interrupts) (rs : list registration) : Prop := {
  ii_idt : length (idt s) = 256%nat;
  ii_handlers : length (intr_handlers s) = 256%nat;
  ii_gate v : 0 ≤ v < 256 → ∃ d, idt s !! Z.to_nat v = Some d ∧ decode_gate d = gate_of rs v;
  ii_handler v : 0 ≤ v < 256 → intr_handlers s !! Z.to_nat v = Some (handler_of rs v) }.

Context (Hstubs : ∀ v, 0 ≤ v < 256 → 0 < intr_stubs v < 2 ^ 32).

Lemma gates_run n : ∀ i, 0 ≤ i → i + Z.of_nat n ≤ 256 →
  ∃ gs, gates n i = Ok gs ∧ length gs = n ∧
    ∀ k, (k < n)%nat → ∃ d, gs !! k = Some d ∧ decode_gate d = mk_gate (intr_stubs (i + Z.of_nat k)) SEL_KCSEG 0 14 true.
Proof.
  induction n as [|n IH]; intros i H0 Hi; [exists []; split_and!; [done..|lia]|]. cbn [gates].
  destruct (gate_decodes (intr_stubs i) 0 14 (Hstubs i ltac:(lia)) ltac:(lia) ltac:(lia)) as (d & E & Ed).
  unfold make_intr_gate. rewrite E. cbn [obind]. destruct (IH (i + 1) ltac:(lia) ltac:(lia)) as (gs & -> & Hl & Hg). cbn [obind].
  exists (d :: gs). split; [done|]. split; [simpl; lia|]. intros [|k] Hk; simpl.
  - exists d. by rewrite Z.add_0_r.
  - destruct (Hg k ltac:(lia)) as (e & Ee & He). exists e. split; [done|]. rewrite He. do 2 f_equal. lia.
Qed.

Lemma intr_init_run : ∃ s, intr_init = Ok s ∧ idt_inv s [].
Proof.
  unfold intr_init. destruct (gates_run 256 0 ltac:(lia) ltac:(lia)) as (gs & -> & Hl & Hg). cbn [obind]. eexists. split; [done|].
  split; [done|done| |].
  - intros v Hv. destruct (Hg (Z.to_nat v) ltac:(lia)) as (d & Ed & H). exists d. split; [done|]. rewrite H. unfold gate_of. simpl. do 2 f_equal. lia.
  - intros v Hv. apply (lookup_replicate_2 256 0). lia.
Qed.

Lemma find_app rs r v : list_find (λ x, vector x = v) (rs ++ [r]) =
  match list_find (λ x, vector x = v) rs with Some p => Some p | None => if decide (vector r = v) then Some (length rs, r) else None end.
Proof.
  induction rs as [|x rs IH]; simpl; [by destruct (decide (vector r = v))|].
  destruct (decide (vector x = v)); [done|]. rewrite IH.
  destruct (list_find (λ x, vector x = v) rs) as [[]|]; [done|]. by destruct (decide (vector r = v)).
Qed.

Lemma handler_register_run s rs r : idt_inv s rs → legal r → vector r ∉ vector <$> rs →
  ∃ s', register r s = Ok s' ∧ idt_inv s' (rs ++ [r]).
Proof.
  intros [Hi Hh Hg Hha] Hl Hv. set (v := vector r).
  assert (0 ≤ v < 256) as Hr by (unfold v; destruct r; simpl in *; lia).
  assert (list_find (λ x, vector x = v) rs = None) as Hf.
  { apply list_find_None, list.Forall_forall. intros x Hx E. apply Hv. change (v ∈ vector <$> rs). rewrite <-E. apply list_elem_of_fmap. eauto. }
  assert (∃ dpl (on : bool) h d, register r s = Ok (mk_interrupts (<[Z.to_nat v := d]> (idt s)) (<[Z.to_nat v := h]> (intr_handlers s))) ∧
    decode_gate d = mk_gate (intr_stubs v) SEL_KCSEG dpl (if on then 15 else 14) true ∧
    gate_of (rs ++ [r]) v = mk_gate (intr_stubs v) SEL_KCSEG dpl (if on then 15 else 14) true ∧ handler_of (rs ++ [r]) v = h)
    as (dpl & on & h & d & -> & Hd & Hgn & Hhn).
  { assert (intr_handlers s !! Z.to_nat v = Some 0) as H0 by (rewrite Hha by done; unfold handler_of; by rewrite Hf).
    unfold gate_of, handler_of. rewrite find_app, Hf, decide_True by done.
    destruct r as [w h|w dpl on h]; simpl in Hl, v; subst v; simpl register.
    - unfold intr_register_ext, register_handler. rewrite (proj2 (Z.leb_le 0x20 w)), (proj2 (Z.leb_le w 0x2f)) by lia. cbn [andb assert_ok obind].
      rewrite H0. destruct (gate_decodes (intr_stubs w) 0 14 (Hstubs w Hr)) as (d & E & Ed); [lia..|]. unfold make_intr_gate. rewrite E.
      by exists 0, false, h, d.
    - unfold intr_register_int, register_handler.
      assert ((w <? 0x20) || (0x2f <? w) = true) as -> by (destruct (Z.ltb_spec w 0x20), (Z.ltb_spec 0x2f w); done || lia). cbn [assert_ok obind].
      rewrite H0. destruct (gate_decodes (intr_stubs w) dpl (if on then 15 else 14) (Hstubs w Hr)) as (d & E & Ed); [lia|by destruct on|].
      exists dpl, on, h, d. unfold make_trap_gate, make_intr_gate. destruct on; rewrite E; done. }
  eexists. split; [done|]. split; simpl; rewrite ?length_insert; try done; intros w Hw; (destruct (decide (w = v)) as [->|Hne]).
  - exists d. rewrite list_lookup_insert_eq by lia. split; [done|]. congruence.
  - rewrite list_lookup_insert_ne by lia. destruct (Hg w Hw) as (e & Ee & He). exists e. split; [done|]. rewrite He. unfold gate_of.
    rewrite find_app. by destruct (list_find (λ x, vector x = w) rs) as [[? ?]|]; [|rewrite decide_False by (intros E; by apply Hne)].
  - rewrite list_lookup_insert_eq by lia. by rewrite Hhn.
  - rewrite list_lookup_insert_ne by lia. rewrite Hha by done. unfold handler_of. rewrite find_app.
    by destruct (list_find (λ x, vector x = w) rs) as [[? ?]|]; [|rewrite decide_False by (intros E; by apply Hne)].
Qed.

Lemma register_all_run rs : ∀ s rs0, idt_inv s rs0 → Forall legal rs → NoDup (vector <$> rs0 ++ rs) →
  ∃ s', register_all rs s = Ok s' ∧ idt_inv s' (rs0 ++ rs).
Proof.
  induction rs as [|r rs IH]; intros s rs0 Hs Hl Hn; [exists s; by rewrite app_nil_r|]. apply list.Forall_cons in Hl as [Hr Hl].
  destruct (handler_register_run s rs0 r Hs Hr) as (s1 & E1 & Hs1).
  { rewrite fmap_app, fmap_cons in Hn. apply list.NoDup_app in Hn as (_ & Hn & _). intros H. apply (Hn _ H). by left. }
  replace (rs0 ++ r :: rs) with ((rs0 ++ [r]) ++ rs) in * by (by rewrite <-app_assoc).
  destruct (IH s1 _ Hs1 Hl Hn) as (s2 & E2 & Hs2). exists s2. simpl. rewrite E1. by split.
Qed.

(** C25. After the interrupt table is set up and handlers are registered for different
    vectors, every one of the 256 gates leads to the stub of its vector in the kernel's code
    segment, with interrupts left on exactly for the handlers registered so; a user program
    can use a gate by a software interrupt exactly when its handler was registered with
    privilege level 3, and every vector has the handler that was registered for it. *)
Theorem idt_correct rs : Forall legal rs → NoDup (vector <$> rs) →
  ∃ s0 s, intr_init = Ok s0 ∧ register_all rs s0 = Ok s ∧ ∀ v, 0 ≤ v < 256 →
    (∃ d, idt s !! Z.to_nat v = Some d ∧ decode_gate d = gate_of rs v ∧
      (gt_dpl (decode_gate d) = 3 ↔ ∃ on h, Int v 3 on h ∈ rs)) ∧
    intr_handlers s !! Z.to_nat v = Some (handler_of rs v).
Proof.
  intros Hl Hn. destruct intr_init_run as (s0 & E0 & H0). destruct (register_all_run rs s0 [] H0 Hl Hn) as (s & E & [_ _ Hg Hh]). rewrite app_nil_l in Hg, Hh.
  exists s0, s. split; [done|]. split; [done|]. intros v Hv. split; [|by apply Hh]. destruct (Hg v Hv) as (d & Ed & Hd).
  exists d. split; [done|]. split; [done|]. rewrite Hd. unfold gate_of. split.
  - destruct (list_find (λ r, vector r = v) rs) as [[k [w h|w dpl on h]]|] eqn:Ef; simpl; try done. intros ->.
    apply list_find_Some in Ef as (Hk & Hw & _). simpl in Hw. subst w. exists on, h. by apply list_elem_of_lookup_2 in Hk.
  - intros (on & h & Hin). destruct (list_find_elem_of (λ x, vector x = v) rs _ Hin eq_refl) as [[k x] Ef]. rewrite Ef.
    apply list_find_Some in Ef as (Hk & Hw & _). apply list_elem_of_lookup_1 in Hin as (j & Hj).
    assert (k = j) as ->.
    { eapply (NoDup_lookup (vector <$> rs)); [done|rewrite list_lookup_fmap, Hk; simpl; by rewrite Hw|by rewrite list_lookup_fmap, Hj]. }
    rewrite Hk in Hj. injection Hj as ->. done.
Qed.
End Idt.

(** The kernel's own vectors: user programs can use 3, 4, 5 and the system call. *)
Lemma idt_correct_witness :
  let rs := exception_init 1000 2000 ++ syscall_init 3000 ++ [Ext 0x20 4000; Ext 0x21 5000] in
  ∃ s0 s, intr_init (λ v, 0xc0020000 + 8 * v) = Ok s0 ∧ register_all (λ v, 0xc0020000 + 8 * v) rs s0 = Ok s ∧
    (∃ d, idt s !! 0x30%nat = Some d ∧ gt_dpl (decode_gate d) = 3) ∧ ∃ d, idt s !! 14%nat = Some d ∧ gt_dpl (decode_gate d) = 0.
Proof.
  intros rs. destruct (idt_correct (λ v, 0xc0020000 + 8 * v)) with (rs := rs) as (s0 & s & E0 & E & H).
  - intros v Hv. eval_pow2. lia.
  - repeat (apply list.Forall_cons; split; [simpl; lia|]). by apply Forall_nil.
  - apply (bool_decide_eq_true_1 _). by vm_compute.
  - exists s0, s. split; [exact E0|]. split; [exact E|]. split.
    + destruct (H 0x30 ltac:(lia)) as [(d & Hd & Hg & _) _]. exists d. split; [exact Hd|]. rewrite Hg. reflexivity.
    + destruct (H 14 ltac:(lia)) as [(d & Hd & Hg & _) _]. exists d. split; [exact Hd|]. rewrite Hg. reflexivity.
Defined.
