(* ===== verification/Random.v ===== *)
(** * Pseudo-random numbers (lib/random.c)

    The RC4 generator: a permutation of the bytes, shuffled by every byte it gives. *)

From S2P Require Import Prelude.

(** [s], [s_i], [s_j] and [inited]. *)
Record generator := mk_generator { s : list Z; s_i : Z; s_j : Z; inited : bool }.

Abbreviation G := (M generator).

Definition load (i : Z) : G Z := λ g, match s g !! Z.to_nat i with Some b => Ok (b, g) | None => Undef end.
Definition store (i b : Z) : G unit := λ g,
  match s g !! Z.to_nat i with
  | Some _ => Ok (tt, mk_generator (<[Z.to_nat i := b]> (s g)) (s_i g) (s_j g) (inited g))
  | None => Undef
  end.

Definition swap_byte (a b : Z) : G unit :=
  let! t := load a in
  let! u := load b in
  let! _ := store a u in
  store b t.

(** [seedp]: the bytes of the seed. *)
Definition seed_byte (seed i : Z) : Z := (seed / 2 ^ (8 * (i `mod` 4))) `mod` 256.

Fixpoint mix_loop (n : nat) (seed i j : Z) : G unit :=
  match n with
  | O => ret tt
  | S n =>
      let! x := load i in
      let j := u8 (j + (x + seed_byte seed i)) in
      let! _ := swap_byte i j in
      mix_loop n seed (i + 1) j
  end.

Definition random_init (seed : Z) : G unit :=
  let! _ := modify (λ g, mk_generator (seqZ 0 256) (s_i g) (s_j g) (inited g)) in
  let! _ := mix_loop 256 seed 0 0 in
  modify (λ g, mk_generator (s g) 0 0 true).

Definition random_byte : G Z :=
  let! _ := modify (λ g, mk_generator (s g) (u8 (s_i g + 1)) (s_j g) (inited g)) in
  let! i := gets s_i in
  let! x := load i in
  let! _ := modify (λ g, mk_generator (s g) (s_i g) (u8 (s_j g + x)) (inited g)) in
  let! j := gets s_j in
  let! _ := swap_byte i j in
  let! x := load i in
  let! y := load j in
  load (u8 (x + y)).

Fixpoint bytes_loop (size : nat) : G (list Z) :=
  match size with
  | O => ret []
  | S size => let! b := random_byte in let! bs := bytes_loop size in ret (b :: bs)
  end.

Definition random_bytes (size : nat) : G (list Z) :=
  let! ready := gets inited in
  let! _ := (if ready then ret tt else random_init 0) in
  bytes_loop size.

Definition random_ulong : G Z :=
  let! bs := random_bytes 4 in ret (little_endian_to_Z 8 bs).

(** ** The invariant *)

Record gen_inv (g : generator) : Prop := {
  gi_perm : s g ≡ₚ seqZ 0 256;
  gi_i : in_u 8 (s_i g);
  gi_j : in_u 8 (s_j g) }.

(** Before [random_init] there is only room. *)
Definition usable (g : generator) : Prop := inited g = true → gen_inv g.

Lemma perm_lookup (l : list Z) i : l ≡ₚ seqZ 0 256 → in_u 8 i → ∃ b, l !! Z.to_nat i = Some b ∧ in_u 8 b.
Proof.
  intros Hp Hi. unfold in_u in *. destruct (lookup_lt_is_Some_2 l (Z.to_nat i)) as [b Hb].
  { rewrite Hp, length_seqZ. lia. }
  exists b. split; [done|]. apply list_elem_of_lookup_2 in Hb. rewrite Hp in Hb. apply elem_of_seqZ in Hb. lia.
Qed.

Lemma load_byte_run g i : s g ≡ₚ seqZ 0 256 → in_u 8 i → ∃ b, load i g = Ok (b, g) ∧ in_u 8 b.
Proof. intros Hp Hi. destruct (perm_lookup (s g) i Hp Hi) as (b & Hb & H). exists b. unfold load. by rewrite Hb. Qed.

(** Swapping two bytes keeps the bytes, up to order. *)
Lemma swap_byte_run l a b :
  l ≡ₚ seqZ 0 256 → in_u 8 a → in_u 8 b →
  ∃ l', (∀ i j c, swap_byte a b (mk_generator l i j c) = Ok (tt, mk_generator l' i j c)) ∧ l' ≡ₚ seqZ 0 256.
Proof.
  intros Hp Ha Hb. destruct (perm_lookup _ _ Hp Ha) as (x & Hx & _), (perm_lookup _ _ Hp Hb) as (y & Hy & _).
  exists (<[Z.to_nat b := x]> (<[Z.to_nat a := y]> l)). split.
  - intros i j c. unfold swap_byte, load, store, bind. cbn. rewrite Hx. cbn. rewrite Hy. cbn. rewrite Hx. cbn.
    destruct (lookup_lt_is_Some_2 (<[Z.to_nat a := y]> l) (Z.to_nat b)) as [z Hz].
    { rewrite length_insert. by eapply lookup_lt_Some. }
    by rewrite Hz.
  - by rewrite (Permutation_insert_swap _ _ _ _ _ Hx Hy).
Qed.

Lemma u8_in x : in_u 8 (u8 x).
Proof. unfold u8, in_u, uwrap. apply Z.mod_pos_bound. lia. Qed.
#[local] Hint Resolve u8_in : core.

Lemma mix_run n seed : ∀ i j l,
  l ≡ₚ seqZ 0 256 → 0 ≤ i → i + Z.of_nat n ≤ 256 → in_u 8 j →
  ∃ l', (∀ x y c, mix_loop n seed i j (mk_generator l x y c) = Ok (tt, mk_generator l' x y c)) ∧ l' ≡ₚ seqZ 0 256.
Proof.
  induction n as [|n IH]; intros i j l Hp Hi Hn Hj; cbn [mix_loop]; [by exists l|].
  assert (in_u 8 i) as Hi8 by (unfold in_u; lia).
  destruct (perm_lookup l i Hp Hi8) as (v & E & _).
  destruct (swap_byte_run l i (u8 (j + (v + seed_byte seed i))) Hp Hi8 (u8_in _)) as (l1 & E2 & Hl).
  destruct (IH (i + 1) (u8 (j + (v + seed_byte seed i))) l1) as (l' & E3 & Hl'); [done|lia|lia|done|].
  exists l'. split; [|done]. intros x y c. rewrite (bind_Ok _ _ _ v (mk_generator l x y c)) by (unfold load; cbn; by rewrite E).
  by rewrite (bind_Ok _ _ _ _ _ (E2 x y c)).
Qed.

(** What seeding leaves does not depend on what there was. *)
Lemma init_run seed :
  ∃ g', (∀ g, random_init seed g = Ok (tt, g')) ∧ gen_inv g' ∧ inited g' = true.
Proof.
  destruct (mix_run 256 seed 0 0 (seqZ 0 256)) as (l & E & Hl); [done|lia|lia|by unfold in_u|].
  exists (mk_generator l 0 0 true). split; [|by repeat split]. intros g. unfold random_init.
  rewrite (bind_Ok _ _ _ tt _ eq_refl). by rewrite (bind_Ok _ _ _ _ _ (E _ _ _)).
Qed.

Lemma byte_run g :
  gen_inv g → ∃ b g', random_byte g = Ok (b, g') ∧ in_u 8 b ∧ gen_inv g' ∧ inited g' = inited g ∧ s_i g' = u8 (s_i g + 1).
Proof.
  intros [Hp Hi Hj]. unfold random_byte. rewrite (bind_Ok _ _ _ tt _ eq_refl).
  set (g1 := mk_generator (s g) (u8 (s_i g + 1)) (s_j g) (inited g)).
  rewrite (bind_Ok _ _ g1 (u8 (s_i g + 1)) g1 eq_refl). set (i := u8 (s_i g + 1)).
  destruct (load_byte_run g1 i Hp (u8_in _)) as (x & E & _). rewrite (bind_Ok _ _ _ _ _ E).
  rewrite (bind_Ok _ _ _ tt _ eq_refl). set (j := u8 (s_j g1 + x)). set (g2 := mk_generator _ _ _ _).
  rewrite (bind_Ok _ _ g2 j g2 eq_refl).
  destruct (swap_byte_run (s g) i j Hp (u8_in _) (u8_in _)) as (l & E2 & Hl). rewrite (bind_Ok _ _ g2 _ _ (E2 _ _ _)).
  set (g3 := mk_generator _ _ _ _).
  destruct (load_byte_run g3 i Hl (u8_in _)) as (y & E3 & _). rewrite (bind_Ok _ _ _ _ _ E3).
  destruct (load_byte_run g3 j Hl (u8_in _)) as (z & E4 & _). rewrite (bind_Ok _ _ _ _ _ E4).
  destruct (load_byte_run g3 (u8 (y + z)) Hl (u8_in _)) as (b & E5 & Hb). exists b, g3.
  repeat split; [done|apply Hb|apply Hb|done|apply u8_in..].
Qed.

Lemma bytes_run n g :
  gen_inv g →
  ∃ bs g', bytes_loop n g = Ok (bs, g') ∧ length bs = n ∧ Forall (in_u 8) bs ∧ gen_inv g' ∧ inited g' = inited g.
Proof.
  revert g. induction n as [|n IH]; intros g Hg; cbn [bytes_loop]; [by exists [], g|].
  destruct (byte_run g Hg) as (b & g1 & E & Hb & Hg1 & Hi & _). rewrite (bind_Ok _ _ _ _ _ E).
  destruct (IH g1 Hg1) as (bs & g2 & E2 & Hn & Hbs & Hg2 & Hi2). rewrite (bind_Ok _ _ _ _ _ E2).
  exists (b :: bs), g2. cbn. repeat split; [by f_equal|by constructor|apply Hg2..|congruence].
Qed.

Lemma bytes_loop_app a b g :
  bytes_loop (a + b) g = (let! xs := bytes_loop a in let! ys := bytes_loop b in ret (xs ++ ys)) g.
Proof.
  revert g. induction a as [|a IH]; intros g; cbn [bytes_loop Nat.add].
  - unfold bind, ret. by destruct (bytes_loop b g) as [[]| | |].
  - unfold bind. destruct (random_byte g) as [[x g1]| | |]; [|done..].
    rewrite IH. unfold bind, ret. destruct (bytes_loop a g1) as [[xs g2]| | |]; [|done..].
    by destruct (bytes_loop b g2) as [[]| | |].
Qed.

(** The generator is total and its state stays RC4's. Whatever the generator held, [random_bytes] reads and
    writes inside [s], gives [size] bytes and leaves [s] a permutation of the 256 byte values; the first call
    seeds with 0. The bytes are a stream: asking for [a] and then for [b] of them is asking for [a + b]. *)
Theorem random_stream (a b : nat) (g : generator) :
  usable g →
  ∃ xs ys g1 g2,
    random_bytes a g = Ok (xs, g1) ∧ random_bytes b g1 = Ok (ys, g2) ∧ random_bytes (a + b) g = Ok (xs ++ ys, g2) ∧
    length xs = a ∧ length ys = b ∧ Forall (in_u 8) (xs ++ ys) ∧
    gen_inv g1 ∧ gen_inv g2 ∧ inited g2 = true ∧
    (inited g = false → ∃ g0, random_init 0 g = Ok (tt, g0) ∧ random_bytes a g0 = Ok (xs, g1)).
Proof.
  intros Hu.
  assert (∃ g0, gen_inv g0 ∧ inited g0 = true ∧ (∀ n, random_bytes n g = bytes_loop n g0) ∧
                (inited g = false → random_init 0 g = Ok (tt, g0))) as (g0 & Hg0 & Hi0 & Hr & H0).
  { unfold random_bytes. destruct (inited g) eqn:Hi.
    - exists g. refine (conj (Hu Hi) (conj Hi (conj _ (λ H, _)))); [|discriminate H]. intros n. unfold bind, gets, ret. by rewrite Hi.
    - destruct (init_run 0) as (g0 & E & Hg0 & Hi0). exists g0. refine (conj Hg0 (conj Hi0 (conj _ (λ _, E g)))).
      intros n. unfold bind, gets. by rewrite Hi, E. }
  assert (∀ n h, inited h = true → random_bytes n h = bytes_loop n h) as Hb.
  { intros n h Hh. unfold random_bytes, bind, gets, ret. by rewrite Hh. }
  destruct (bytes_run a g0 Hg0) as (xs & g1 & E1 & Hxs & Fx & Hg1 & Hi1).
  destruct (bytes_run b g1 Hg1) as (ys & g2 & E2 & Hys & Fy & Hg2 & Hi2).
  exists xs, ys, g1, g2. rewrite !Hr, E1, bytes_loop_app, (Hb b g1) by congruence.
  rewrite (bind_Ok _ _ _ _ _ E1), (bind_Ok _ _ _ _ _ E2).
  refine (conj eq_refl (conj E2 (conj eq_refl (conj Hxs (conj Hys (conj _ (conj Hg1 (conj Hg2 (conj _ _))))))))).
  - apply list.Forall_app. exact (conj Fx Fy).
  - rewrite Hi2, Hi1. exact Hi0.
  - intros Hi. exists g0. rewrite (Hb a g0 Hi0). exact (conj (H0 Hi) E1).
Qed.

(** The state of a program that has just started. *)
Definition fresh : generator := mk_generator (replicate 256 0) 0 0 false.

Lemma random_stream_witness :
  ∃ xs ys g1 g2,
    random_bytes 3 fresh = Ok (xs, g1) ∧ random_bytes 2 g1 = Ok (ys, g2) ∧
    random_bytes (3 + 2) fresh = Ok (xs ++ ys, g2) ∧ length xs = 3%nat ∧ length ys = 2%nat ∧ inited g2 = true.
Proof.
  destruct (random_stream 3 2 fresh) as (xs & ys & g1 & g2 & H1 & H2 & H3 & H4 & H5 & _ & _ & _ & H6 & _).
  { intros H. discriminate H. }
  exists xs, ys, g1, g2. exact (conj H1 (conj H2 (conj H3 (conj H4 (conj H5 H6))))).
Defined.

(** RC4 with the key 00 00 00 00: the key stream of the published test vector for a null key. *)
Example null_key_stream :
  match random_bytes 8 fresh with Ok (bs, _) => bs = [0xde; 0x18; 0x89; 0x41; 0xa3; 0x37; 0x5d; 0x3a] | _ => False end.
Proof. vm_compute. reflexivity. Qed.
