(* ===== verification/Cache.v ===== *)
(** * The buffer cache (filesys/inode.c, [cache_*])

    32 entries in front of the file system device.  One call is one step of
    the model, so the locks carry no data: each is taken and given back within
    the call.

    [SectorStore] is what the inode layer relies on: an array of sectors with
    read and write.  The cache in front of a device implements it, and the
    view through the cache is the specification. *)

From S2P Require Import Prelude Block.

Definition CACHE_SIZE : Z := 32.

Record cache_entry := mk_entry {
  ce_sector : Z;
  ce_ref_count : Z;
  ce_write : bool;
  ce_data : sector_data }.

Record block_cache := mk_cache { entry_num : Z; cache_entrys : list cache_entry }.

(** The array [zeros] of filesys/inode.c. *)
Definition zeros : sector_data := replicate 512 0.

(** The cache and [fs_device]. *)
Record store := mk_store { fs_device : block; cache : block_cache }.

Definition with_entrys (s : store) (es : list cache_entry) : store :=
  mk_store (fs_device s) (mk_cache (entry_num (cache s)) es).

Definition set_ref (e : cache_entry) (r : Z) : cache_entry :=
  mk_entry (ce_sector e) r (ce_write e) (ce_data e).

(** [cache_init]: the data of the entries is left as it is. *)
Definition init_entry (e : cache_entry) : cache_entry :=
  mk_entry (u32 (-1)) 0 false (ce_data e).
Definition cache_init (s : store) : store :=
  mk_store (fs_device s) (mk_cache 0 (init_entry <$> cache_entrys (cache s))).

(** The first loop of [cache_read], over the [n] entries left: a matching
    entry gets reference count 0 and its data is copied out (a later match
    overwrites an earlier one), every other entry ages by one. *)
Fixpoint read_pass (sector : Z) (n : nat) (es : list cache_entry) (data : option sector_data)
    : outcome (list cache_entry * option sector_data) :=
  match n, es with
  | O, _ => Ok (es, data)
  | S _, [] => Undef
  | S n, e :: es =>
      let '(e', data) :=
        if ce_sector e =? sector then (set_ref e 0, Some (ce_data e))
        else (set_ref e (s32 (ce_ref_count e + 1)), data) in
      let? '(es, data) := read_pass sector n es data in
      Ok (e' :: es, data)
  end.

(** The second loop of [cache_read], which takes the ageing back. *)
Fixpoint unage_pass (n : nat) (es : list cache_entry) : outcome (list cache_entry) :=
  match n, es with
  | O, _ => Ok es
  | S _, [] => Undef
  | S n, e :: es =>
      let? es := unage_pass n es in
      Ok (set_ref e (s32 (ce_ref_count e - 1)) :: es)
  end.

(** The locals [found], [replace], [max] and [max_index] of [cache_write]. *)
Record scan := mk_scan { sc_found : bool; sc_replace : nat; sc_max : Z; sc_max_index : nat }.

(** The loop of [cache_write], at index [i] with [n] entries left. *)
Fixpoint write_pass (sector : Z) (n i : nat) (es : list cache_entry) (a : scan)
    : outcome (list cache_entry * scan) :=
  match n, es with
  | O, _ => Ok (es, a)
  | S _, [] => Undef
  | S n, e :: es =>
      let '(e', a) :=
        if ce_sector e =? sector then
          (set_ref e 0, mk_scan true i (sc_max a) (sc_max_index a))
        else
          let r := s32 (ce_ref_count e + 1) in
          (set_ref e r,
           if sc_max a <? r then mk_scan (sc_found a) (sc_replace a) r i else a) in
      let? '(es, a) := write_pass sector n (S i) es a in
      Ok (e' :: es, a)
  end.

(** [cache.cache_entrys[i] = ...], inside the array. *)
Definition put_entry (i : nat) (e : cache_entry) (es : list cache_entry) : outcome (list cache_entry) :=
  if decide (i < length es)%nat then Ok (<[i := e]> es) else Undef.

Definition cache_write (sector : Z) (data : sector_data) : M store unit := λ s,
  let n := entry_num (cache s) in
  let? '(es, a) := write_pass sector (Z.to_nat n) 0 (cache_entrys (cache s)) (mk_scan false 0 0 0) in
  let new := mk_entry sector 0 true data in
  if sc_found a then
    let? es := put_entry (sc_replace a) new es in
    Ok (tt, mk_store (fs_device s) (mk_cache n es))
  else
    let? '(n, es) :=
      (if n <? CACHE_SIZE then
         let? es := put_entry (Z.to_nat n) new es in Ok (n + 1, es)
       else Ok (n, es)) in
    if n <? CACHE_SIZE then Ok (tt, mk_store (fs_device s) (mk_cache n es))
    else if n =? CACHE_SIZE then
      match es !! sc_max_index a with
      | None => Undef
      | Some victim =>
          let? dev :=
            (if ce_write victim then block_write (fs_device s) (ce_sector victim) (ce_data victim)
             else Ok (fs_device s)) in
          let? es := put_entry (sc_max_index a) new es in
          Ok (tt, mk_store dev (mk_cache n es))
      end
    else Ok (tt, mk_store (fs_device s) (mk_cache n es)).

(** [cache_read] returns [found] and what it stored in the caller's buffer. *)
Definition cache_read (sector : Z) : M store (bool * sector_data) := λ s,
  let n := Z.to_nat (entry_num (cache s)) in
  let? '(es, found) := read_pass sector n (cache_entrys (cache s)) None in
  match found with
  | Some data => Ok ((true, data), with_entrys s es)
  | None =>
      let? es := unage_pass n es in
      let? '(data, dev) := block_read (fs_device s) sector in
      let? '(_, s) := cache_write sector data (mk_store dev (mk_cache (entry_num (cache s)) es)) in
      Ok ((false, data), s)
  end.

(** [cache_sync]: every entry in use is written back, in order. *)
Fixpoint sync_pass (n : nat) (es : list cache_entry) (dev : block) : outcome block :=
  match n, es with
  | O, _ => Ok dev
  | S _, [] => Undef
  | S n, e :: es =>
      let? dev := block_write dev (ce_sector e) (ce_data e) in
      sync_pass n es dev
  end.
Definition cache_sync : M store unit := λ s,
  let? dev := sync_pass (Z.to_nat (entry_num (cache s))) (cache_entrys (cache s)) (fs_device s) in
  Ok (tt, mk_store dev (cache s)).

(** ** Passes over the entries *)

Definition touch (sector : Z) (e : cache_entry) : cache_entry :=
  if ce_sector e =? sector then set_ref e 0 else set_ref e (s32 (ce_ref_count e + 1)).

(** The data of the last entry for [sector]. *)
Fixpoint last_data (sector : Z) (es : list cache_entry) (acc : option sector_data) : option sector_data :=
  match es with
  | [] => acc
  | e :: es => last_data sector es (if ce_sector e =? sector then Some (ce_data e) else acc)
  end.

Lemma touch_sector n e : ce_sector (touch n e) = ce_sector e.
Proof. unfold touch. by case_match. Qed.
Lemma touch_data n e : ce_data (touch n e) = ce_data e.
Proof. unfold touch. by case_match. Qed.
Lemma touch_write n e : ce_write (touch n e) = ce_write e.
Proof. unfold touch. by case_match. Qed.

Lemma read_pass_eq sector n es d :
  (n ≤ length es)%nat →
  read_pass sector n es d
  = Ok ((touch sector <$> take n es) ++ drop n es, last_data sector (take n es) d).
Proof.
  revert es d. induction n as [|n IH]; intros [|e es] d Hn; cbn in Hn |- *; try done; [lia|].
  unfold touch at 1. destruct (ce_sector e =? sector); rewrite IH by lia; done.
Qed.

Lemma unage_pass_eq n es :
  (n ≤ length es)%nat →
  unage_pass n es
  = Ok (((λ e, set_ref e (s32 (ce_ref_count e - 1))) <$> take n es) ++ drop n es).
Proof.
  revert es. induction n as [|n IH]; intros [|e es] Hn; cbn in Hn |- *; try done; [lia|].
  by rewrite IH by lia.
Qed.

(** One iteration of the loop of [cache_write] on the locals. *)
Definition scan_step (sector : Z) (i : nat) (e : cache_entry) (a : scan) : scan :=
  if ce_sector e =? sector then mk_scan true i (sc_max a) (sc_max_index a)
  else if sc_max a <? s32 (ce_ref_count e + 1)
  then mk_scan (sc_found a) (sc_replace a) (s32 (ce_ref_count e + 1)) i else a.

Fixpoint scan_list (sector : Z) (i : nat) (es : list cache_entry) (a : scan) : scan :=
  match es with
  | [] => a
  | e :: es => scan_list sector (S i) es (scan_step sector i e a)
  end.

Lemma write_pass_eq sector n i es a :
  (n ≤ length es)%nat →
  write_pass sector n i es a
  = Ok ((touch sector <$> take n es) ++ drop n es, scan_list sector i (take n es) a).
Proof.
  revert i es a. induction n as [|n IH]; intros i [|e es] a Hn; cbn in Hn |- *; try done; [lia|].
  unfold touch at 1, scan_step at 1. destruct (ce_sector e =? sector); rewrite IH by lia; done.
Qed.

Lemma scan_list_snoc sector i es e a :
  scan_list sector i (es ++ [e]) a
  = scan_step sector (i + length es) e (scan_list sector i es a).
Proof.
  revert i a. induction es as [|e' es IH]; intros i a; cbn; [by rewrite Nat.add_0_r|].
  rewrite IH. f_equal. lia.
Qed.

(** [e] at index [k] is the last entry of [es] for its sector. *)
Definition is_last (es : list cache_entry) (k : nat) (e : cache_entry) : Prop :=
  es !! k = Some e ∧ ∀ j e', (k < j)%nat → es !! j = Some e' → ce_sector e' ≠ ce_sector e.

(** What the locals hold after the whole loop. *)
Record scan_spec (sector : Z) (es : list cache_entry) (a : scan) : Prop := {
  ss_none : sc_found a = false → Forall (λ e, ce_sector e ≠ sector) es;
  ss_some : sc_found a = true →
    ∃ e, is_last es (sc_replace a) e ∧ ce_sector e = sector;
  ss_max_zero : 0 ≤ sc_max a;
  ss_max_all : ∀ j e, es !! j = Some e → ce_sector e ≠ sector →
    s32 (ce_ref_count e + 1) ≤ sc_max a;
  ss_max_index : sc_max_index a = 0%nat ∨
    ∃ e, es !! sc_max_index a = Some e ∧ s32 (ce_ref_count e + 1) = sc_max a ∧
         ∀ j e', (j < sc_max_index a)%nat → es !! j = Some e' → ce_sector e' ≠ sector →
                 s32 (ce_ref_count e' + 1) < sc_max a }.

Lemma is_last_snoc_ne es e k e0 :
  is_last es k e0 → ce_sector e ≠ ce_sector e0 → is_last (es ++ [e]) k e0.
Proof.
  intros [Hk Hl] Hne. split; [by apply lookup_app_l_Some|].
  intros j e' Hj [[_ Hj']|[_ <-]]%lookup_snoc_Some; eauto.
Qed.

Lemma is_last_snoc es e : is_last (es ++ [e]) (length es) e.
Proof.
  split; [by apply list_lookup_middle|].
  intros j e' Hj [[? _]|[-> _]]%lookup_snoc_Some; lia.
Qed.

Lemma scan_list_spec sector es :
  scan_spec sector es (scan_list sector 0 es (mk_scan false 0 0 0)).
Proof.
  induction es as [|e es IH] using rev_ind.
  { split; cbn; try done. by left. }
  rewrite scan_list_snoc. cbn [Nat.add]. destruct (scan_list sector 0 es _) as [f r m mi].
  destruct IH as [Hnone Hsome Hz Hall Hmi]. cbn in *. unfold scan_step. cbn.
  assert (mi < length es ∨ mi = 0)%nat as Hmilt.
  { destruct Hmi as [->|(? & ?%lookup_lt_Some & _)]; [by right|by left]. }
  destruct (Z.eqb_spec (ce_sector e) sector) as [E|E];
    [|destruct (Z.ltb_spec m (s32 (ce_ref_count e + 1)))]; split; cbn.
  - done.
  - intros _. exists e. split; [apply is_last_snoc|done].
  - done.
  - intros j e' [[_ ?]|[_ <-]]%lookup_snoc_Some ?; [eauto|done].
  - destruct Hmi as [->|(e0 & He0 & Hm & Hlt)]; [by left|right].
    exists e0. split; [by apply lookup_app_l_Some|]. split; [done|].
    intros j e' Hj [[_ ?]|[_ <-]]%lookup_snoc_Some ?; [eauto|done].
  - intros Hf. apply Forall_app. split; [by apply Hnone|by constructor].
  - intros Hf. destruct (Hsome Hf) as (e0 & Hl & <-). exists e0.
    split; [by apply is_last_snoc_ne|done].
  - lia.
  - intros j e' [[_ Hj]|[_ <-]]%lookup_snoc_Some ?; [|done]. specialize (Hall _ _ Hj). lia.
  - right. exists e. split; [by apply list_lookup_middle|]. split; [done|].
    intros j e' Hj [[_ Hj']|[-> _]]%lookup_snoc_Some ?; [|lia]. specialize (Hall _ _ Hj'). lia.
  - intros Hf. apply Forall_app. split; [by apply Hnone|by constructor].
  - intros Hf. destruct (Hsome Hf) as (e0 & Hl & <-). exists e0.
    split; [by apply is_last_snoc_ne|done].
  - done.
  - intros j e' [[_ Hj]|[_ <-]]%lookup_snoc_Some ?; [eauto|lia].
  - destruct Hmi as [->|(e0 & He0 & Hm & Hlt)]; [by left|right].
    exists e0. split; [by apply lookup_app_l_Some|]. split; [done|].
    intros j e' Hj [[_ ?]|[-> _]]%lookup_snoc_Some ?; [eauto|].
    apply lookup_lt_Some in He0. lia.
Qed.

(** ** The last entry for a sector *)

Lemma last_data_None n es acc :
  (∀ j e, es !! j = Some e → ce_sector e ≠ n) → last_data n es acc = acc.
Proof.
  revert acc. induction es as [|e es IH]; intros acc H; [done|]. cbn.
  rewrite (proj2 (Z.eqb_neq _ _)) by (by apply (H 0%nat)). apply IH.
  intros j e' He'. by apply (H (S j)).
Qed.

Lemma last_data_last es k e acc :
  is_last es k e → last_data (ce_sector e) es acc = Some (ce_data e).
Proof.
  revert k acc. induction es as [|e' es IH]; intros k acc [Hk Hl]; [done|]. cbn.
  destruct k as [|k]; cbn in Hk.
  - simplify_eq. rewrite Z.eqb_refl. apply last_data_None. intros j e' He'.
    apply (Hl (S j)); [lia|done].
  - apply (IH k). split; [done|]. intros j e'' Hj He''. apply (Hl (S j)); [lia|done].
Qed.

Lemma last_cases n es :
  (∀ j e, es !! j = Some e → ce_sector e ≠ n) ∨ ∃ k e, is_last es k e ∧ ce_sector e = n.
Proof.
  induction es as [|e es IH] using rev_ind; [by left|].
  destruct (decide (ce_sector e = n)) as [E|E].
  { right. exists (length es), e. split; [apply is_last_snoc|done]. }
  destruct IH as [IH|(k & e0 & Hl & <-)].
  - left. intros j e' [[_ ?]|[_ <-]]%lookup_snoc_Some; eauto.
  - right. exists k, e0. split; [by apply is_last_snoc_ne|done].
Qed.

(** Passes keep sectors and data. *)
Lemma last_data_fmap (g : cache_entry → cache_entry) n es acc :
  (∀ e, ce_sector (g e) = ce_sector e) → (∀ e, ce_data (g e) = ce_data e) →
  last_data n (g <$> es) acc = last_data n es acc.
Proof.
  intros Hs Hd. revert acc. induction es as [|e es IH]; intros acc; [done|].
  cbn. by rewrite Hs, Hd, IH.
Qed.

Lemma last_data_snoc n es e acc :
  last_data n (es ++ [e]) acc = if ce_sector e =? n then Some (ce_data e) else last_data n es acc.
Proof. revert acc. induction es as [|e' es IH]; intros acc; cbn; [by case_match|apply IH]. Qed.

(** Replacing the entry at [k]: sectors other than the old and the new one
    keep their last entry; so does the old one when a later entry holds it. *)
Lemma last_data_insert_ne n es k old new :
  es !! k = Some old → ce_sector new ≠ n →
  (ce_sector old = n → ∃ j e, (k < j)%nat ∧ es !! j = Some e ∧ ce_sector e = n) →
  last_data n (<[k := new]> es) None = last_data n es None.
Proof.
  intros Hk Hnew Hold. destruct (last_cases n es) as [Hno|(k0 & e0 & [Hk0 Hl] & <-)].
  - rewrite !last_data_None; [done|done|]. intros j e He.
    apply list_lookup_insert_Some in He as [(_ & <- & _)|[_ ?]]; [done|eauto].
  - rewrite (last_data_last es k0 e0) by (by split). apply last_data_last with k0.
    assert (k0 ≠ k) as Hne.
    { intros ->. simplify_eq. destruct (Hold eq_refl) as (j & e & ? & He & E). by eapply Hl. }
    split; [by rewrite list_lookup_insert_ne|]. intros j e' Hj He'.
    apply list_lookup_insert_Some in He' as [(_ & <- & _)|[_ ?]]; [done|eauto].
Qed.

Lemma last_data_insert_gone n es k old new :
  es !! k = Some old → ce_sector new ≠ n →
  (∀ j e, j ≠ k → es !! j = Some e → ce_sector e ≠ n) →
  last_data n (<[k := new]> es) None = None.
Proof.
  intros Hk Hnew Huniq. apply last_data_None. intros j e He.
  apply list_lookup_insert_Some in He as [(_ & <- & _)|[? ?]]; [done|eauto].
Qed.

Lemma last_data_insert_eq n es k new :
  (k < length es)%nat → ce_sector new = n →
  (∀ j e, (k < j)%nat → es !! j = Some e → ce_sector e ≠ n) →
  last_data n (<[k := new]> es) None = Some (ce_data new).
Proof.
  intros Hk <- Hl. apply last_data_last with k. split; [by apply list_lookup_insert_eq|].
  intros j e Hj He. apply list_lookup_insert_Some in He as [(? & _)|[_ ?]]; [lia|eauto].
Qed.

(** ** The invariant and the view *)

Definition live (s : store) : list cache_entry :=
  take (Z.to_nat (entry_num (cache s))) (cache_entrys (cache s)).

(** What a sector reads as: its last entry in the cache, or the device. *)
Definition view (s : store) (n : Z) : sector_data :=
  default (contents (fs_device s) n) (last_data n (live s) None).

Record entry_ok (size : Z) (e : cache_entry) : Prop := {
  eo_sector : 0 ≤ ce_sector e < size;
  eo_write : ce_write e = true;
  eo_data : length (ce_data e) = 512%nat }.

(** Two entries for one sector have the same age.  (The insertion that fills
    the cache stores the sector twice.) *)
Definition ages_agree (es : list cache_entry) : Prop :=
  ∀ i j e e', es !! i = Some e → es !! j = Some e' → ce_sector e = ce_sector e' →
              ce_ref_count e = ce_ref_count e'.

Record cache_inv (s : store) : Prop := {
  ci_dev : block_wf (fs_device s);
  ci_len : length (cache_entrys (cache s)) = 32%nat;
  ci_num : 0 ≤ entry_num (cache s) ≤ 32;
  ci_live : Forall (entry_ok (blk_size (fs_device s))) (live s);
  ci_ages : ages_agree (live s) }.

Lemma length_live s : cache_inv s → length (live s) = Z.to_nat (entry_num (cache s)).
Proof. intros [_ Hl Hn _ _]. unfold live. rewrite length_take. lia. Qed.

Lemma ages_agree_fmap (g : cache_entry → cache_entry) es :
  ages_agree es → (∀ e, ce_sector (g e) = ce_sector e) →
  (∀ e e', ce_sector e = ce_sector e' → ce_ref_count e = ce_ref_count e' →
           ce_ref_count (g e) = ce_ref_count (g e')) →
  ages_agree (g <$> es).
Proof.
  intros Ha Hs Hg i j e e' (e0 & -> & H0)%list_lookup_fmap_Some_1
    (e1 & -> & H1)%list_lookup_fmap_Some_1 E.
  rewrite !Hs in E. apply Hg; [done|]. by apply (Ha i j).
Qed.

Lemma ages_agree_touch n es : ages_agree es → ages_agree (touch n <$> es).
Proof.
  intros H. apply ages_agree_fmap; [done|apply touch_sector|].
  intros e e' E Er. unfold touch. rewrite E. case_match; cbn; congruence.
Qed.

Lemma entry_ok_touch size n es :
  Forall (entry_ok size) es → Forall (entry_ok size) (touch n <$> es).
Proof.
  intros H. rewrite Forall_fmap. eapply Forall_impl; [|exact H]. intros e [???].
  split; cbn; by rewrite ?touch_sector, ?touch_write, ?touch_data.
Qed.

(** Putting entries of age 0 for one sector everywhere the sector occurs keeps
    the ages in agreement. *)
Lemma ages_agree_insert es k new :
  ages_agree es →
  (∀ j e, es !! j = Some e → ce_sector e = ce_sector new → ce_ref_count e = ce_ref_count new) →
  ages_agree (<[k := new]> es).
Proof.
  intros Ha Hnew i j e e' He He' E.
  apply list_lookup_insert_Some in He as [(_ & <- & _)|[_ He]],
    He' as [(_ & <- & _)|[_ He']]; eauto. symmetry. by eapply Hnew.
Qed.

Lemma ages_agree_snoc es new :
  ages_agree es → (∀ j e, es !! j = Some e → ce_sector e ≠ ce_sector new) →
  ages_agree (es ++ [new]).
Proof.
  intros Ha Hno i j e e' [[_ He]|[_ <-]]%lookup_snoc_Some [[_ He']|[_ <-]]%lookup_snoc_Some E;
    [by eapply Ha | by exfalso; eapply Hno | by exfalso; eapply Hno | done].
Qed.

(** ** What [cache_write] does *)

(** The locals and the aged entries after the loop. *)
Definition aged (s : store) (n : Z) : list cache_entry := touch n <$> live s.

Lemma Forall_touched_ne n es : Forall (λ e, ce_sector e ≠ n) es →
  ∀ j e, (touch n <$> es) !! j = Some e → ce_sector e ≠ n.
Proof.
  intros H j e (e0 & -> & H0)%list_lookup_fmap_Some_1. rewrite touch_sector.
  by eapply (Forall_lookup_1 _ _ _ _ H).
Qed.

(** The victim is the first of the oldest entries. *)
Definition oldest_first (es : list cache_entry) (m : nat) (victim : cache_entry) : Prop :=
  es !! m = Some victim ∧
  ∀ j e, (j < m)%nat → es !! j = Some e → ce_ref_count e < ce_ref_count victim.

Lemma scan_victim n es a :
  es ≠ [] → scan_spec n es a → Forall (λ e, ce_sector e ≠ n) es →
  ∃ v, oldest_first (touch n <$> es) (sc_max_index a) v.
Proof.
  intros Hne Hs Hno. pose proof (ss_max_index _ _ _ Hs) as [E|(e & He & Hm & Hlt)].
  - destruct es as [|e es]; [done|]. rewrite E. exists (touch n e).
    split; [done|]. intros; lia.
  - exists (touch n e). split; [by rewrite list_lookup_fmap, He|].
    intros j e' Hj (e0 & -> & H0)%list_lookup_fmap_Some_1. unfold touch.
    rewrite !(proj2 (Z.eqb_neq _ _)) by (eapply (Forall_lookup_1 _ _ _ _ Hno); eassumption).
    cbn. rewrite Hm. eapply Hlt; [done..|]. by eapply (Forall_lookup_1 _ _ _ _ Hno).
Qed.

Lemma put_entry_l k new es es' :
  (k < length es)%nat → put_entry k new (es ++ es') = Ok (<[k := new]> es ++ es').
Proof.
  intros. unfold put_entry. rewrite decide_True by (rewrite length_app; lia).
  by rewrite insert_app_l.
Qed.

Lemma put_entry_end new es e es' :
  put_entry (length es) new (es ++ e :: es') = Ok ((es ++ [new]) ++ es').
Proof.
  unfold put_entry. rewrite decide_True by (rewrite length_app; cbn; lia).
  rewrite insert_app_r_alt by done. by rewrite Nat.sub_diag, <-app_assoc.
Qed.

(** The four ways through [cache_write], by what the entries in use become. *)
Inductive wrote (s : store) (n : Z) (d : sector_data) : list cache_entry → block → Prop :=
| wrote_hit k e :
    is_last (aged s n) k e → ce_sector e = n →
    wrote s n d (<[k := mk_entry n 0 true d]> (aged s n)) (fs_device s)
| wrote_append :
    (∀ j e, aged s n !! j = Some e → ce_sector e ≠ n) → entry_num (cache s) < 31 →
    wrote s n d (aged s n ++ [mk_entry n 0 true d]) (fs_device s)
| wrote_fill m v dev :
    (∀ j e, aged s n !! j = Some e → ce_sector e ≠ n) → entry_num (cache s) = 31 →
    oldest_first (aged s n) m v → block_write (fs_device s) (ce_sector v) (ce_data v) = Ok dev →
    wrote s n d (<[m := mk_entry n 0 true d]> (aged s n ++ [mk_entry n 0 true d])) dev
| wrote_evict m v dev :
    (∀ j e, aged s n !! j = Some e → ce_sector e ≠ n) → entry_num (cache s) = 32 →
    oldest_first (aged s n) m v → block_write (fs_device s) (ce_sector v) (ce_data v) = Ok dev →
    wrote s n d (<[m := mk_entry n 0 true d]> (aged s n)) dev.

Lemma length_aged s n : cache_inv s → length (aged s n) = Z.to_nat (entry_num (cache s)).
Proof. intros. unfold aged. by rewrite length_fmap, length_live. Qed.

Lemma aged_ok s n : cache_inv s → Forall (entry_ok (blk_size (fs_device s))) (aged s n).
Proof. intros H. apply entry_ok_touch, H. Qed.

(** The store after a write whose entries are [es ++ rest], [es] in use. *)
Definition written (dev : block) (es rest : list cache_entry) : store :=
  mk_store dev (mk_cache (Z.of_nat (length es)) (es ++ rest)).

Lemma live_written dev es rest : live (written dev es rest) = es.
Proof. unfold live, written. cbn. by rewrite Nat2Z.id, take_app_length. Qed.

(** A written store is what its number of entries in use says. *)
Lemma written_eq dev es rest num all :
  num = Z.of_nat (length es) → all = es ++ rest →
  mk_store dev (mk_cache num all) = written dev es rest.
Proof. by intros -> ->. Qed.

Lemma cache_write_hit s n a :
  cache_inv s → scan_spec n (live s) a → sc_found a = true →
  ∃ k e, sc_replace a = k ∧ (k < length (aged s n))%nat ∧ is_last (aged s n) k e ∧ ce_sector e = n.
Proof.
  intros Hinv Hspec Hf. destruct (ss_some _ _ _ Hspec Hf) as (e & [Hk Hl] & E).
  assert (is_last (aged s n) (sc_replace a) (touch n e)) as Hlast.
  { split; [unfold aged; by rewrite list_lookup_fmap, Hk|].
    intros j e' Hj (e0 & -> & H0)%list_lookup_fmap_Some_1. rewrite !touch_sector. eauto. }
  exists (sc_replace a), (touch n e). split; [done|]. split; [|split; [done|by rewrite touch_sector]].
  by apply (lookup_lt_Some _ _ _ (proj1 Hlast)).
Qed.

Lemma victim_writable s n m v :
  cache_inv s → oldest_first (aged s n) m v →
  ∃ dev, block_write (fs_device s) (ce_sector v) (ce_data v) = Ok dev ∧ ce_write v = true ∧
         (m < length (aged s n))%nat.
Proof.
  intros Hinv [Hv _]. pose proof (Forall_lookup_1 _ _ _ _ (aged_ok s n Hinv) Hv) as [???].
  destruct (block_write_ok (fs_device s) (ce_sector v) (ce_data v)) as (dev & ? & _);
    [apply Hinv|lia|done|]. exists dev. split; [done|]. split; [done|]. by eapply lookup_lt_Some.
Qed.

Lemma cache_write_wrote s n d :
  cache_inv s → 0 ≤ n < blk_size (fs_device s) → length d = 512%nat →
  ∃ dev es rest, cache_write n d s = Ok (tt, written dev es rest) ∧
    wrote s n d es dev ∧ (length es + length rest = 32)%nat.
Proof.
  intros Hinv Hn Hd. pose proof (ci_len _ Hinv) as Hlen. pose proof (ci_num _ Hinv) as Hnum.
  pose proof (length_aged s n Hinv) as Hla. pose proof (length_live s Hinv) as Hll.
  unfold cache_write. rewrite write_pass_eq by lia. cbn [obind].
  fold (live s). fold (aged s n). set (a := scan_list _ _ _ _).
  assert (scan_spec n (live s) a) as Hspec by apply scan_list_spec.
  set (new := mk_entry n 0 true d). set (rest := drop _ _).
  assert (length rest = 32 - length (aged s n))%nat as Hlr by (subst rest; rewrite length_drop; lia).
  destruct (sc_found a) eqn:Hf.
  { destruct (cache_write_hit s n a) as (k & e & -> & Hk & Hlast & E); [done..|].
    rewrite put_entry_l by done. cbn [obind].
    rewrite (written_eq _ (<[k := new]> (aged s n)) rest) by (rewrite ?length_insert; done || lia).
    eexists _, _, _. split; [done|]. split; [by apply wrote_hit with e|]. rewrite length_insert. lia. }
  pose proof (ss_none _ _ _ Hspec Hf) as Hnone. pose proof (Forall_touched_ne _ _ Hnone) as Hno.
  unfold CACHE_SIZE. destruct (Z.ltb_spec (entry_num (cache s)) 32) as [Hlt|Hge].
  - destruct rest as [|r rest']; [cbn in Hlr; lia|]. cbn in Hlr.
    rewrite <-Hla, put_entry_end. cbn [obind].
    destruct (Z.ltb_spec (entry_num (cache s) + 1) 32).
    { rewrite (written_eq _ (aged s n ++ [new]) rest') by (rewrite ?length_app; cbn; done || lia).
      eexists _, _, _. split; [done|]. split; [apply wrote_append; [done|lia]|].
      rewrite length_app. cbn. lia. }
    rewrite (proj2 (Z.eqb_eq _ _)) by lia.
    destruct (scan_victim n (live s) a) as (v & Hv); [by destruct (live s); [cbn in *; lia|]|done..|].
    destruct (victim_writable s n _ v Hinv Hv) as (dev & Hw & Hwr & Hm).
    rewrite (lookup_app_l_Some _ _ _ v) by (apply lookup_app_l_Some, Hv). rewrite Hwr, Hw. cbn [obind].
    rewrite put_entry_l by (rewrite length_app; cbn; lia). cbn [obind].
    rewrite (written_eq _ (<[sc_max_index a := new]> (aged s n ++ [new])) rest')
      by (rewrite ?length_insert, ?length_app; cbn; done || lia).
    eexists _, _, _. split; [done|]. split; [apply wrote_fill with v; (done || lia)|].
    rewrite length_insert, length_app. cbn. lia.
  - cbn [obind]. rewrite (proj2 (Z.ltb_ge _ _)), (proj2 (Z.eqb_eq _ _)) by lia.
    destruct (scan_victim n (live s) a) as (v & Hv); [by destruct (live s); [cbn in *; lia|]|done..|].
    destruct (victim_writable s n _ v Hinv Hv) as (dev & Hw & Hwr & Hm).
    rewrite (lookup_app_l_Some _ _ _ v) by apply Hv. rewrite Hwr, Hw. cbn [obind].
    rewrite put_entry_l by lia. cbn [obind].
    rewrite (written_eq _ (<[sc_max_index a := new]> (aged s n)) rest)
      by (rewrite ?length_insert; done || lia).
    eexists _, _, _. split; [done|]. split; [apply wrote_evict with v; (done || lia)|].
    rewrite length_insert. lia.
Qed.

(** ** The view after a write *)

(** What sector [k] reads as from entries [es] in front of [dev]. *)
Definition view_of (dev : block) (es : list cache_entry) (k : Z) : sector_data :=
  default (contents dev k) (last_data k es None).

Lemma view_aged s n k : view_of (fs_device s) (aged s n) k = view s k.
Proof.
  unfold view, view_of, aged. rewrite last_data_fmap; [done|apply touch_sector|apply touch_data].
Qed.

(** Evicting the oldest entry leaves every other sector as it was: when the
    victim's sector has a second entry, that one is newer in position but of
    the same age, so the victim is the stale one of the two. *)
Lemma evict_view dev dev' es m v new k :
  ages_agree es → oldest_first es m v → block_wf dev → Forall (entry_ok (blk_size dev)) es →
  block_write dev (ce_sector v) (ce_data v) = Ok dev' → k ≠ ce_sector new →
  view_of dev' (<[m := new]> es) k = view_of dev es k.
Proof.
  intros Hages [Hm Hold] Hdev Hes Hw Hk. unfold view_of.
  pose proof (Forall_lookup_1 _ _ _ _ Hes Hm) as [Hv _ Hvd].
  destruct (block_write_ok dev (ce_sector v) (ce_data v)) as (dev1 & Hw1 & Hc & _); [done|lia|done|].
  rewrite Hw in Hw1. injection Hw1 as <-. rewrite Hc. destruct (decide (ce_sector v = k)) as [E|E].
  - destruct (last_cases k es) as [Hno|(j & e & [Hj Hl] & Ej)]; [by exfalso; eapply Hno|].
    destruct (decide (m < j)%nat).
    + rewrite (last_data_insert_ne k es m v new) by eauto.
      subst k. by rewrite <-Ej, (last_data_last es j e) by done.
    + assert (j = m) as ->.
      { destruct (decide (j = m)); [done|]. assert (j < m)%nat as Hjm by lia.
        pose proof (Hold j e Hjm Hj). pose proof (Hages j m e v Hj Hm ltac:(congruence)). lia. }
      simplify_eq. rewrite (last_data_insert_gone (ce_sector v) es m v new); [|done..|].
      * rewrite (last_data_last es m v) by done. cbn. by rewrite fn_lookup_insert.
      * intros i e' Hi He' Es. destruct (decide (m < i)%nat); [by eapply Hl|].
        assert (i < m)%nat as Him by lia. pose proof (Hold i e' Him He').
        pose proof (Hages i m e' v He' Hm Es). lia.
  - rewrite (last_data_insert_ne k es m v new) by done. by rewrite fn_lookup_insert_ne.
Qed.

Lemma wrote_view s n d es dev k :
  cache_inv s → 0 ≤ n → wrote s n d es dev →
  view_of dev es k = if decide (k = n) then d else view s k.
Proof.
  intros Hinv Hn0 Hw. pose proof (ages_agree_touch n _ (ci_ages _ Hinv)) as Hages.
  pose proof (aged_ok s n Hinv) as Hok. fold (aged s n) in Hages.
  destruct Hw as [i e [Hi Hl] E|Hno Hlt|m v dev Hno Hlt Hv Hw|m v dev Hno Hlt Hv Hw];
    rewrite <-(view_aged s n k); destruct (decide (k = n)) as [->|Hk].
  - unfold view_of. rewrite last_data_insert_eq; [done|by eapply lookup_lt_Some|done|].
    subst n. eauto.
  - unfold view_of. rewrite (last_data_insert_ne k _ i e); [done..|]. congruence.
  - unfold view_of. rewrite last_data_snoc. cbn. by rewrite Z.eqb_refl.
  - unfold view_of. rewrite last_data_snoc. cbn. by rewrite (proj2 (Z.eqb_neq _ _)).
  - pose proof (lookup_lt_Some _ _ _ (proj1 Hv)). unfold view_of.
    rewrite insert_app_l, last_data_snoc by done. cbn. by rewrite Z.eqb_refl.
  - pose proof (lookup_lt_Some _ _ _ (proj1 Hv)).
    rewrite <-(evict_view (fs_device s) dev _ m v (mk_entry n 0 true d)) by (done || apply Hinv).
    unfold view_of. rewrite insert_app_l, last_data_snoc by done. cbn.
    by rewrite (proj2 (Z.eqb_neq _ _)).
  - unfold view_of. rewrite last_data_insert_eq; [done|by eapply lookup_lt_Some, Hv|done|eauto].
  - by apply evict_view with v; (done || apply Hinv).
Qed.

Lemma wrote_inv s n d es dev rest :
  cache_inv s → 0 ≤ n < blk_size (fs_device s) → length d = 512%nat →
  wrote s n d es dev → (length es + length rest = 32)%nat →
  cache_inv (written dev es rest) ∧ blk_size dev = blk_size (fs_device s).
Proof.
  intros Hinv Hn Hd Hw Hlen. pose proof (ages_agree_touch n _ (ci_ages _ Hinv)) as Hages.
  pose proof (aged_ok s n Hinv) as Hok. fold (aged s n) in Hages.
  set (new := mk_entry n 0 true d). assert (entry_ok (blk_size (fs_device s)) new) as Hnew by by split.
  assert (block_wf dev ∧ blk_size dev = blk_size (fs_device s)) as [Hdev Hsize].
  { destruct Hw as [| |m v dev _ _ Hv Hw|m v dev _ _ Hv Hw]; [by split; [apply Hinv|]..| |];
      pose proof (Forall_lookup_1 _ _ _ _ Hok (proj1 Hv)) as [Hvr _ Hvd];
      destruct (block_write_ok _ _ _ (ci_dev _ Hinv) (proj2 Hvr) Hvd) as (dev' & Hw' & _ & ? & ?);
      rewrite Hw in Hw'; by injection Hw' as <-. }
  split; [|done]. split; [done| |cbn; lia| |]; rewrite ?live_written; cbn [fs_device written];
    [cbn; rewrite length_app; lia|rewrite Hsize|].
  - destruct Hw; fold new; try apply Forall_insert; try done;
      (apply Forall_app; split; [done|by apply Forall_singleton]).
  - destruct Hw as [i e [Hi Hl] E|Hno _|m v dev Hno _ Hv _|m v dev Hno _ Hv _]; fold new.
    + apply ages_agree_insert; [done|]. cbn. intros j e' (e0 & -> & _)%list_lookup_fmap_Some_1.
      rewrite touch_sector. intros Ej. unfold touch. by rewrite Ej, Z.eqb_refl.
    + by apply ages_agree_snoc.
    + apply ages_agree_insert; [by apply ages_agree_snoc|].
      intros j e' [[_ He']|[_ <-]]%lookup_snoc_Some Ej; [by exfalso; eapply Hno|done].
    + apply ages_agree_insert; [done|]. intros j e' He' Ej. by exfalso; eapply Hno.
Qed.

(** ** The interface to the inode layer *)

(** An array of sectors with read and write.  [ss_view] is what each sector
    holds; reading leaves it alone, writing changes one sector of it. *)
Class SectorStore (St : Type) := {
  ss_read : Z → M St (bool * sector_data);
  ss_write : Z → sector_data → M St unit;
  ss_size : St → Z;
  ss_view : St → Z → sector_data;
  ss_inv : St → Prop;
  ss_size_u32 : ∀ s, ss_inv s → in_u 32 (ss_size s);
  ss_view_length : ∀ s n, ss_inv s → length (ss_view s n) = 512%nat;
  ss_read_ok : ∀ s n, ss_inv s → 0 ≤ n < ss_size s →
    ∃ hit s', ss_read n s = Ok ((hit, ss_view s n), s') ∧ ss_inv s' ∧
      ss_size s' = ss_size s ∧ ∀ k, ss_view s' k = ss_view s k;
  ss_read_past : ∀ s n, ss_inv s → ss_size s ≤ n → ss_read n s = Panic;
  ss_write_ok : ∀ s n d, ss_inv s → 0 ≤ n < ss_size s → length d = 512%nat →
    ∃ s', ss_write n d s = Ok (tt, s') ∧ ss_inv s' ∧ ss_size s' = ss_size s ∧
      ∀ k, ss_view s' k = if decide (k = n) then d else ss_view s k }.

Lemma view_length s n : cache_inv s → length (view s n) = 512%nat.
Proof.
  intros Hinv. unfold view. destruct (last_cases n (live s)) as [Hno|(k & e & Hl & <-)].
  - rewrite last_data_None by done. cbn. apply Hinv.
  - rewrite (last_data_last _ k e) by done. cbn.
    by apply (Forall_lookup_1 _ _ _ _ (ci_live _ Hinv) (proj1 Hl)).
Qed.

Lemma cache_write_ok s n d :
  cache_inv s → 0 ≤ n < blk_size (fs_device s) → length d = 512%nat →
  ∃ s', cache_write n d s = Ok (tt, s') ∧ cache_inv s' ∧
    blk_size (fs_device s') = blk_size (fs_device s) ∧
    ∀ k, view s' k = if decide (k = n) then d else view s k.
Proof.
  intros Hinv Hn Hd. destruct (cache_write_wrote s n d) as (dev & es & rest & -> & Hw & Hl); [done..|].
  destruct (wrote_inv s n d es dev rest) as [Hinv' Hsize]; [done..|].
  eexists. split; [done|]. split; [done|]. split; [done|]. intros k.
  rewrite <-(wrote_view s n d es dev) by (done || lia).
  unfold view. by rewrite live_written.
Qed.

(** Ageing the entries in use changes neither the view nor the invariant. *)
Lemma fmap_live_ok s (g : cache_entry → cache_entry) rest :
  cache_inv s → (∀ e, ce_sector (g e) = ce_sector e) → (∀ e, ce_data (g e) = ce_data e) →
  (∀ e, ce_write (g e) = ce_write e) →
  (∀ e e', ce_sector e = ce_sector e' → ce_ref_count e = ce_ref_count e' →
           ce_ref_count (g e) = ce_ref_count (g e')) →
  (length (live s) + length rest = 32)%nat →
  let s' := mk_store (fs_device s) (mk_cache (entry_num (cache s)) ((g <$> live s) ++ rest)) in
  live s' = g <$> live s ∧ cache_inv s' ∧ ∀ k, view s' k = view s k.
Proof.
  intros Hinv Hs Hd Hw Hr Hlen s'. pose proof (length_live s Hinv) as Hll.
  assert (live s' = g <$> live s) as Hlive.
  { unfold live at 1. cbn. rewrite <-Hll, <-(length_fmap g), take_app_length. done. }
  split; [done|]. split; [|intros k; unfold view; by rewrite Hlive, last_data_fmap].
  split; cbn; [apply Hinv|rewrite length_app, length_fmap; lia|apply Hinv|..]; rewrite Hlive.
  - rewrite Forall_fmap. eapply Forall_impl; [|apply Hinv]. intros e [???].
    split; cbn; by rewrite ?Hs, ?Hw, ?Hd.
  - by apply ages_agree_fmap; [apply Hinv|..].
Qed.

Lemma last_data_Some_acc n es d : ∃ d', last_data n es (Some d) = Some d'.
Proof.
  revert d. induction es as [|e es IH]; intros d; cbn; [eauto|]. case_match; apply IH.
Qed.

Lemma cache_read_ok s n :
  cache_inv s → 0 ≤ n < blk_size (fs_device s) →
  ∃ hit s', cache_read n s = Ok ((hit, view s n), s') ∧ cache_inv s' ∧
    blk_size (fs_device s') = blk_size (fs_device s) ∧ ∀ k, view s' k = view s k.
Proof.
  intros Hinv Hn. pose proof (ci_len _ Hinv). pose proof (ci_num _ Hinv).
  pose proof (length_live s Hinv) as Hll.
  unfold cache_read. rewrite read_pass_eq by lia. cbn [obind]. fold (live s).
  set (rest := drop _ _). assert (length (live s) + length rest = 32)%nat as Hlen
    by (subst rest; rewrite length_drop; lia).
  destruct (fmap_live_ok s (touch n) rest) as (_ & Hinv1 & Hview1);
    [done|apply touch_sector|apply touch_data|apply touch_write| |done|].
  { intros e e' E Er. unfold touch. rewrite E. case_match; cbn; congruence. }
  destruct (last_data n (live s) None) as [d|] eqn:Hd.
  { eexists true, _. split; [unfold view at 1; by rewrite Hd|]. unfold with_entrys.
    split; [done|]. by split. }
  rewrite unage_pass_eq by (rewrite length_app, length_fmap; lia). cbn [obind].
  rewrite <-Hll, <-(length_fmap (touch n) (live s)), take_app_length, drop_app_length.
  destruct (block_read_ok (fs_device s) n) as (dev & -> & Hc & Hsize & Hdev); [lia|]. cbn [obind].
  set (g := λ e, set_ref e (s32 (ce_ref_count e - 1))).
  rewrite <-list_fmap_compose. set (s1 := mk_store dev _).
  destruct (fmap_live_ok s (g ∘ touch n) rest) as (Hl1 & Hinv2 & Hview2);
    [done|cbn; apply touch_sector|cbn; apply touch_data|cbn; apply touch_write| |done|].
  { intros e e' E Er. unfold touch. cbn. rewrite E. case_match; cbn; congruence. }
  assert (cache_inv s1) as Hinv3.
  { destruct Hinv2 as [? ? ? Hlv ?]. split; try done; [by apply Hdev, Hinv|]. cbn. by rewrite Hsize. }
  destruct (cache_write_ok s1 n (contents (fs_device s) n)) as (s2 & -> & Hinv4 & Hsize2 & Hview4);
    [done|cbn; lia|apply Hinv|]. cbn [obind].
  eexists false, s2. split; [unfold view at 1; by rewrite Hd|]. split; [done|].
  split; [by rewrite Hsize2|]. intros k. rewrite Hview4. case_decide as Hk.
  - subst k. unfold view. by rewrite Hd.
  - rewrite <-Hview2. unfold view. cbn. by rewrite Hc.
Qed.

Lemma cache_read_past s n :
  cache_inv s → blk_size (fs_device s) ≤ n → cache_read n s = Panic.
Proof.
  intros Hinv Hn. pose proof (ci_len _ Hinv). pose proof (ci_num _ Hinv).
  unfold cache_read. rewrite read_pass_eq by lia. cbn [obind]. fold (live s).
  rewrite last_data_None.
  - rewrite unage_pass_eq by (rewrite length_app, length_fmap, length_live by done; lia).
    cbn [obind]. by rewrite block_read_past.
  - intros j e He. pose proof (Forall_lookup_1 _ _ _ _ (ci_live _ Hinv) He) as [? _ _]. lia.
Qed.

(** The cache in front of the device discharges the interface. *)
#[global] Program Instance cache_store : SectorStore store := {|
  ss_read := cache_read;
  ss_write := cache_write;
  ss_size s := blk_size (fs_device s);
  ss_view := view;
  ss_inv := cache_inv;
  ss_size_u32 s Hs := block_wf_size _ (ci_dev _ Hs);
  ss_view_length := view_length;
  ss_read_ok := cache_read_ok;
  ss_read_past := cache_read_past;
  ss_write_ok := cache_write_ok |}.

(** ** Properties *)

(** The specification: an array of sectors. *)
Inductive sector_op := Rd (n : Z) | Wr (n : Z) (d : sector_data).

Fixpoint run_array (ops : list sector_op) (g : Z → sector_data) : list sector_data * (Z → sector_data) :=
  match ops with
  | [] => ([], g)
  | Rd n :: ops => let '(out, g') := run_array ops g in (g n :: out, g')
  | Wr n d :: ops => run_array ops (<[n := d]> g)
  end.

Fixpoint run_cache (ops : list sector_op) : M store (list sector_data) :=
  match ops with
  | [] => ret []
  | Rd n :: ops =>
      let! '(_, d) := cache_read n in
      let! out := run_cache ops in
      ret (d :: out)
  | Wr n d :: ops =>
      let! _ := cache_write n d in
      run_cache ops
  end.

Definition op_ok (size : Z) (op : sector_op) : Prop :=
  match op with
  | Rd n => 0 ≤ n < size
  | Wr n d => 0 ≤ n < size ∧ length d = 512%nat
  end.

Lemma run_array_ext ops g h :
  (∀ k, g k = h k) →
  (run_array ops g).1 = (run_array ops h).1 ∧
  ∀ k, (run_array ops g).2 k = (run_array ops h).2 k.
Proof.
  revert g h. induction ops as [|[n|n d] ops IH]; intros g h E; cbn; [done| |].
  - destruct (IH g h E) as [E1 E2]. repeat case_match. cbn in *. by rewrite E, E1.
  - apply IH. intros k. destruct (decide (n = k)) as [->|].
    + by rewrite !fn_lookup_insert.
    + by rewrite !fn_lookup_insert_ne.
Qed.

(** C11. Refinement: any sequence of reads and writes of sectors of the device,
    run through the cache from any state satisfying its invariant, terminates
    without a panic and returns exactly what an array of sectors would; the
    view afterwards is the array's contents and the invariant holds again. *)
Theorem cache_refines_array (ops : list sector_op) (s : store) :
  cache_inv s → Forall (op_ok (blk_size (fs_device s))) ops →
  ∃ s', run_cache ops s = Ok ((run_array ops (view s)).1, s') ∧ cache_inv s' ∧
    ∀ k, view s' k = (run_array ops (view s)).2 k.
Proof.
  intros Hinv Hops. remember (blk_size (fs_device s)) as size eqn:Esize.
  revert s Hinv Esize. induction Hops as [|[n|n d] ops Hop Hops IH]; intros s Hinv ->; cbn.
  - by exists s.
  - destruct (cache_read_ok s n Hinv Hop) as (hit & s1 & E1 & Hinv1 & Hsize1 & Hview1).
    rewrite (bind_Ok _ _ _ _ _ E1).
    destruct (IH s1 Hinv1 (eq_sym Hsize1)) as (s2 & E2 & Hinv2 & Hview2).
    rewrite (bind_Ok _ _ _ _ _ E2). destruct (run_array_ext ops _ _ Hview1) as [Er Ev].
    exists s2. unfold ret. repeat case_match. cbn in *.
    split; [by rewrite <-Er|]. split; [done|]. intros k. by rewrite Hview2, Ev.
  - destruct Hop as [Hn Hd].
    destruct (cache_write_ok s n d Hinv Hn Hd) as (s1 & E1 & Hinv1 & Hsize1 & Hview1).
    rewrite (bind_Ok _ _ _ _ _ E1).
    destruct (IH s1 Hinv1 (eq_sym Hsize1)) as (s2 & -> & Hinv2 & Hview2).
    destruct (run_array_ext ops (view s1) (<[n := d]> (view s))) as [Er Ev].
    { intros k. rewrite Hview1. case_decide; subst.
      - by rewrite fn_lookup_insert.
      - by rewrite fn_lookup_insert_ne by done. }
    exists s2. rewrite Er. split; [done|]. split; [done|]. intros k. by rewrite Hview2, Ev.
Qed.

Lemma last_data_acc n es acc :
  last_data n es acc = match last_data n es None with Some d => Some d | None => acc end.
Proof.
  destruct (last_cases n es) as [Hno|(k & e & Hl & <-)].
  - by rewrite !last_data_None.
  - by rewrite !(last_data_last es k e).
Qed.

Lemma sync_pass_ok es dev :
  block_wf dev → Forall (entry_ok (blk_size dev)) es →
  ∀ rest, ∃ dev', sync_pass (length es) (es ++ rest) dev = Ok dev' ∧ block_wf dev' ∧
    blk_size dev' = blk_size dev ∧ ∀ k, contents dev' k = view_of dev es k.
Proof.
  intros Hdev Hes rest. revert dev Hdev Hes. induction es as [|e es IH]; intros dev Hdev Hes; cbn.
  { by exists dev. }
  apply Forall_cons_1 in Hes as [[He _ Hd] Hes].
  destruct (block_write_ok dev (ce_sector e) (ce_data e)) as (dev1 & -> & Hc & Hs & Hdev1);
    [done|lia|done|]. cbn [obind].
  destruct (IH dev1) as (dev2 & -> & Hdev2 & Hs2 & Hv2); [done|by rewrite Hs|].
  exists dev2. split; [done|]. split; [done|]. split; [congruence|]. intros k.
  rewrite Hv2. unfold view_of. cbn. rewrite Hc.
  rewrite (last_data_acc k es (if ce_sector e =? k then Some (ce_data e) else None)).
  destruct (last_data k es None); [done|]. cbn.
  destruct (Z.eqb_spec (ce_sector e) k) as [->|].
  - by rewrite fn_lookup_insert.
  - by rewrite fn_lookup_insert_ne.
Qed.

(** After [cache_sync] the device itself holds, in every sector, what the
    file system read there; the view through the cache is unchanged. *)
Theorem cache_sync_flushes (s : store) :
  cache_inv s →
  ∃ s', cache_sync s = Ok (tt, s') ∧ cache_inv s' ∧
    (∀ k, contents (fs_device s') k = view s k) ∧ ∀ k, view s' k = view s k.
Proof.
  intros Hinv. pose proof (length_live s Hinv) as Hll. unfold cache_sync.
  rewrite <-(take_drop (Z.to_nat (entry_num (cache s))) (cache_entrys (cache s))). fold (live s).
  rewrite <-Hll. destruct (sync_pass_ok (live s) (fs_device s) (ci_dev _ Hinv) (ci_live _ Hinv)
    (drop (length (live s)) (cache_entrys (cache s)))) as (dev & -> & Hdev & Hs & Hv). cbn [obind].
  eexists. split; [done|].
  split; [|split; [done|]].
  - destruct Hinv as [? ? ? Hlv ?]. split; try done. cbn [fs_device]. by rewrite Hs.
  - intros k. unfold view, live. cbn. fold (live s). rewrite Hv. unfold view_of.
    by destruct (last_data k (live s) None).
Qed.

(** The write that fills the cache falls through to the eviction code: a
    sector that was not cached ends up in two entries, and only 31 different
    sectors are cached.  (Lines 187-200 of inode.c test the entry count again
    after having incremented it.) *)
Theorem cache_fill_duplicates (s : store) (n : Z) (d : sector_data) :
  cache_inv s → 0 ≤ n < blk_size (fs_device s) → length d = 512%nat →
  entry_num (cache s) = 31 → Forall (λ e, ce_sector e ≠ n) (live s) →
  ∃ s' i, cache_write n d s = Ok (tt, s') ∧ (i < 31)%nat ∧
    live s' !! i = Some (mk_entry n 0 true d) ∧ live s' !! 31%nat = Some (mk_entry n 0 true d).
Proof.
  intros Hinv Hn Hd Hnum Hno. pose proof (length_aged s n Hinv) as Hla.
  pose proof (Forall_touched_ne _ _ Hno) as Hno'. fold (aged s n) in Hno'.
  destruct (cache_write_wrote s n d) as (dev & es & rest & -> & Hw & _); [done..|].
  destruct Hw as [k e [Hk _] E| |m v dev _ _ [Hm _] _|]; [by exfalso; eapply Hno'|lia| |lia].
  pose proof (lookup_lt_Some _ _ _ Hm) as Hlt.
  exists (written dev (<[m := mk_entry n 0 true d]> (aged s n ++ [mk_entry n 0 true d])) rest), m. split; [done|]. rewrite live_written. split; [lia|]. split.
  - apply list_lookup_insert_eq. rewrite length_app. cbn. lia.
  - rewrite list_lookup_insert_ne by lia. rewrite lookup_app_r by lia. by rewrite Hla, Hnum.
Qed.

(** ** A concrete cache *)

Definition blank_device (size : Z) : block := mk_block BLOCK_FILESYS size (λ _, zeros) 0 0.
Definition blank_store (size : Z) : store :=
  cache_init (mk_store (blank_device size) (mk_cache 0 (replicate 32 (mk_entry 0 0 false zeros)))).

Lemma cache_init_inv s :
  block_wf (fs_device s) → length (cache_entrys (cache s)) = 32%nat →
  cache_inv (cache_init s) ∧ ∀ k, view (cache_init s) k = contents (fs_device s) k.
Proof.
  intros Hdev Hlen. split; [|done]. split; cbn; [done|by rewrite length_fmap|lia|constructor|].
  intros i j e e' He. change (live (cache_init s)) with (@nil cache_entry) in He.
  by rewrite lookup_nil in He.
Qed.

Lemma blank_store_inv size : in_u 32 size → cache_inv (blank_store size).
Proof.
  intros. apply cache_init_inv; [|done]. split; cbn; [done|done|]. done.
Qed.

Lemma cache_refines_array_witness :
  ∃ s', run_cache [Wr 5 (replicate 512 7); Rd 5; Rd 6] (blank_store 64)
        = Ok ((run_array [Wr 5 (replicate 512 7); Rd 5; Rd 6] (view (blank_store 64))).1, s') ∧
    cache_inv s' ∧
    ∀ k, view s' k = (run_array [Wr 5 (replicate 512 7); Rd 5; Rd 6] (view (blank_store 64))).2 k.
Proof.
  apply cache_refines_array; [apply blank_store_inv; split; lia|].
  repeat constructor; cbn; lia.
Defined.

Lemma cache_sync_flushes_witness :
  ∃ s', cache_sync (blank_store 64) = Ok (tt, s') ∧ cache_inv s' ∧
    (∀ k, contents (fs_device s') k = view (blank_store 64) k) ∧
    ∀ k, view s' k = view (blank_store 64) k.
Proof. apply cache_sync_flushes. apply blank_store_inv. split; lia. Defined.

(** A cache holding the sectors 1 to 31. *)
Definition store_31 : store :=
  mk_store (blank_device 64)
    (mk_cache 31 ((λ n, mk_entry n 0 true zeros) <$> seqZ 1 32)).

Lemma store_31_inv : cache_inv store_31.
Proof.
  split; cbn; [|done|lia| |].
  - split; cbn; [done|split; lia|]. done.
  - repeat (constructor; [split; cbn; (lia || done)|]). constructor.
  - intros i j e e' He He' _.
    assert (∀ k x, live store_31 !! k = Some x → ce_ref_count x = 0) as H0; [|by rewrite (H0 i), (H0 j)].
    intros k x Hx. unfold live in Hx. apply lookup_take_Some in Hx as [Hx _].
    by apply list_lookup_fmap_Some_1 in Hx as (y & -> & _).
Qed.

Lemma cache_fill_duplicates_witness :
  ∃ s' i, cache_write 40 zeros store_31 = Ok (tt, s') ∧ (i < 31)%nat ∧
    live s' !! i = Some (mk_entry 40 0 true zeros) ∧ live s' !! 31%nat = Some (mk_entry 40 0 true zeros).
Proof.
  apply cache_fill_duplicates; [apply store_31_inv|cbn; lia|apply length_replicate|done|].
  repeat (constructor; [cbn; lia|]). constructor.
Defined.
