(* ===== verification/FsState.v ===== *)
(** * The state of the file system

    The objects that filesys/inode.c, filesys/file.c and filesys/free-map.c
    keep in memory, in front of a store of sectors: [struct inode] and
    [struct file] objects by address, the list of open inodes, the free map
    and its file, and the kernel allocator. *)

From S2P Require Import Prelude Bitmap Block Cache.

Definition INODE_MAGIC : Z := 0x494e4f44.
Definition FREE_MAP_SECTOR : Z := 0.
Definition ROOT_DIR_SECTOR : Z := 1.

(** [NULL]. *)
Definition NULL : Z := 0.

(** [struct inode_disk]. *)
Record inode_disk := mk_inode_disk {
  direct : list Z;
  indirect : Z;
  doubly_indirect : Z;
  length_ : Z;
  magic : Z }.

(** [struct inode]; its list element is its place in [open_inodes]. *)
Record inode := mk_inode {
  sector : Z;
  open_cnt : Z;
  removed : bool;
  deny_write_cnt : Z }.

(** [struct file]. *)
Record file := mk_file { f_inode : Z; f_pos : Z; f_deny_write : bool }.

(** [struct dir]; its [deny_write] is never used. *)
Record dir := mk_dir { d_inode : Z; d_pos : Z }.

(** The state, over a store [St].  The [n]-th call to the allocator succeeds
    when [malloc_ok n]; a block it returns has a fresh address. *)
Record fs (St : Type) := mk_fs {
  disk : St;
  inodes : gmap Z inode;
  open_inodes : list Z;
  files : gmap Z file;
  dirs : gmap Z dir;
  free_map : bitmap;
  free_map_file : Z;
  malloc_ok : nat → bool;
  malloc_cnt : nat }.
Arguments mk_fs {St}.
Arguments disk {St}.
Arguments inodes {St}.
Arguments open_inodes {St}.
Arguments files {St}.
Arguments dirs {St}.
Arguments free_map {St}.
Arguments free_map_file {St}.
Arguments malloc_ok {St}.
Arguments malloc_cnt {St}.

Section State.
Context {St : Type}.
Implicit Types s : fs St.

Definition set_disk (d : St) s : fs St :=
  mk_fs d (inodes s) (open_inodes s) (files s) (dirs s) (free_map s) (free_map_file s) (malloc_ok s) (malloc_cnt s).
Definition set_inodes (m : gmap Z inode) s : fs St :=
  mk_fs (disk s) m (open_inodes s) (files s) (dirs s) (free_map s) (free_map_file s) (malloc_ok s) (malloc_cnt s).
Definition set_open_inodes (l : list Z) s : fs St :=
  mk_fs (disk s) (inodes s) l (files s) (dirs s) (free_map s) (free_map_file s) (malloc_ok s) (malloc_cnt s).
Definition set_files (m : gmap Z file) s : fs St :=
  mk_fs (disk s) (inodes s) (open_inodes s) m (dirs s) (free_map s) (free_map_file s) (malloc_ok s) (malloc_cnt s).
Definition set_dirs (m : gmap Z dir) s : fs St :=
  mk_fs (disk s) (inodes s) (open_inodes s) (files s) m (free_map s) (free_map_file s) (malloc_ok s) (malloc_cnt s).
Definition set_free_map (b : bitmap) s : fs St :=
  mk_fs (disk s) (inodes s) (open_inodes s) (files s) (dirs s) b (free_map_file s) (malloc_ok s) (malloc_cnt s).
Definition set_free_map_file (p : Z) s : fs St :=
  mk_fs (disk s) (inodes s) (open_inodes s) (files s) (dirs s) (free_map s) p (malloc_ok s) (malloc_cnt s).
Definition set_malloc_cnt (n : nat) s : fs St :=
  mk_fs (disk s) (inodes s) (open_inodes s) (files s) (dirs s) (free_map s) (free_map_file s) (malloc_ok s) n.

(** [malloc] and [calloc]: the address of a new block, or [NULL].  The [n]-th
    block has address [n + 1]; blocks are never handed out again, so that an
    access through a pointer that was freed is [Undef]. *)
Definition malloc : M (fs St) Z := λ s,
  let n := malloc_cnt s in
  Ok (if malloc_ok s n then Z.of_nat n + 1 else NULL, set_malloc_cnt (S n) s).

(** [*inode] and [*file]. *)
Definition load_inode (p : Z) : M (fs St) inode := λ s,
  match inodes s !! p with Some i => Ok (i, s) | None => Undef end.
Definition store_inode (p : Z) (i : inode) : M (fs St) unit := λ s,
  match inodes s !! p with Some _ => Ok (tt, set_inodes (<[p := i]> (inodes s)) s) | None => Undef end.
Definition load_file (p : Z) : M (fs St) file := λ s,
  match files s !! p with Some i => Ok (i, s) | None => Undef end.
Definition store_file (p : Z) (x : file) : M (fs St) unit := λ s,
  match files s !! p with Some _ => Ok (tt, set_files (<[p := x]> (files s)) s) | None => Undef end.
Definition load_dir (p : Z) : M (fs St) dir := λ s,
  match dirs s !! p with Some i => Ok (i, s) | None => Undef end.
Definition store_dir (p : Z) (x : dir) : M (fs St) unit := λ s,
  match dirs s !! p with Some _ => Ok (tt, set_dirs (<[p := x]> (dirs s)) s) | None => Undef end.

(** Runs a computation on the sectors. *)
Definition on_disk {A} (m : M St A) : M (fs St) A := λ s,
  let? '(a, d) := m (disk s) in Ok (a, set_disk d s).
End State.

(** ** The on-disk inode as bytes *)

Definition encode_inode (d : inode_disk) : sector_data :=
  words_to_bytes (direct d ++ [indirect d; doubly_indirect d; u32 (length_ d); magic d]).

Definition word (ws : list Z) (i : nat) : Z := default 0 (ws !! i).

Definition decode_inode (bs : sector_data) : inode_disk :=
  let ws := bytes_to_words 128 bs in
  mk_inode_disk (take 124 ws) (word ws 124) (word ws 125) (s32 (word ws 126)) (word ws 127).

Record inode_disk_wf (d : inode_disk) : Prop := {
  idw_direct : length (direct d) = 124%nat ∧ Forall (in_u 32) (direct d);
  idw_indirect : in_u 32 (indirect d);
  idw_doubly : in_u 32 (doubly_indirect d);
  idw_length : in_s 32 (length_ d);
  idw_magic : in_u 32 (magic d) }.

Lemma length_encode_inode d : inode_disk_wf d → length (encode_inode d) = 512%nat.
Proof.
  intros [[H _] _ _ _ _]. unfold encode_inode.
  rewrite length_words_to_bytes, length_app, H. done.
Qed.

Lemma swrap_uwrap w x : 1 ≤ w → in_s w x → swrap w (uwrap w x) = x.
Proof.
  intros Hw Hx. rewrite <-(swrap_id w x) at 2 by done. unfold swrap, uwrap. f_equal.
  by rewrite Zplus_mod_idemp_l.
Qed.

Lemma decode_encode_inode d : inode_disk_wf d → decode_inode (encode_inode d) = d.
Proof.
  intros [[Hlen Hdir] Hi Hd Hl Hm]. unfold decode_inode, encode_inode.
  set (ws := direct d ++ _).
  assert (length ws = 128%nat) as Hws by (subst ws; rewrite length_app, Hlen; done).
  rewrite <-Hws, words_bytes_roundtrip.
  2:{ apply Forall_app. split; [done|]. repeat apply Forall_cons; try done.
      apply uwrap_range; lia. }
  unfold ws, word. rewrite <-Hlen, take_app_length. clear ws Hws.
  rewrite !lookup_app_r, Hlen by lia. cbn. rewrite swrap_uwrap by (done || lia). by destruct d.
Qed.
