(* ===== verification/Palloc.v ===== *)
(** * The page allocator (threads/palloc.c, threads/vaddr.h)

    Memory above the first megabyte is divided into a kernel pool and a user
    pool, each with a bitmap of its pages.  A call is one step: the pool's
    lock, which is held around the search of the bitmap, carries no data. *)

From S2P Require Import Prelude Bitmap FsState.

Definition PGBITS : Z := 12.
Definition PGSIZE : Z := 2 ^ PGBITS.
Definition PGMASK : Z := PGSIZE - 1.
Definition PHYS_BASE : Z := 0xc0000000.

Definition pg_ofs (va : Z) : Z := Z.land va PGMASK.
Definition pg_no (va : Z) : Z := Z.shiftr va PGBITS.
Definition pg_round_up (va : Z) : Z := Z.land (u32 (va + PGSIZE - 1)) (2 ^ 32 - 1 - PGMASK).
Definition pg_round_down (va : Z) : Z := Z.land va (2 ^ 32 - 1 - PGMASK).

Definition is_user_vaddr (vaddr : Z) : bool := vaddr <? PHYS_BASE.
Definition is_kernel_vaddr (vaddr : Z) : bool := PHYS_BASE <=? vaddr.
Definition ptov (paddr : Z) : outcome Z :=
  let? _ := assert_ok (paddr <? PHYS_BASE) in Ok (u32 (paddr + PHYS_BASE)).
Definition vtop (vaddr : Z) : outcome Z :=
  let? _ := assert_ok (is_kernel_vaddr vaddr) in Ok (vaddr - PHYS_BASE).

(** [enum palloc_flags]. *)
Definition PAL_ASSERT : Z := 1.
Definition PAL_ZERO : Z := 2.
Definition PAL_USER : Z := 4.
Definition has_flag (flags flag : Z) : bool := negb (Z.land flags flag =? 0).

Record pool := mk_pool { used_map : bitmap; base : Z }.

(** The bytes of memory, by address. *)
Definition memory : Type := Z → Z.
Definition memset (m : memory) (dst value size : Z) : memory :=
  λ a, if (dst <=? a) && (a <? dst + size) then value else m a.

(** The 32-bit words at an address. *)
Definition word_at (m : memory) (a : Z) : Z :=
  m a + 2 ^ 8 * m (a + 1) + 2 ^ 16 * m (a + 2) + 2 ^ 24 * m (a + 3).
Definition words_at (m : memory) (a n : Z) : list Z :=
  (λ i, word_at m (a + 4 * i)) <$> seqZ 0 n.

Record pools := mk_pools { kernel_pool : pool; user_pool : pool; ram : memory }.

Definition DIV_ROUND_UP (x step : Z) : Z := u32 (u32 (x + step) - 1) / step.

(** The bitmap is at the start of the pool's memory, behind its 8-byte header. *)
Definition init_pool (m : memory) (base page_cnt : Z) : outcome pool :=
  let bm_pages := DIV_ROUND_UP (bitmap_buf_size page_cnt) PGSIZE in
  if page_cnt <? bm_pages then Panic
  else
    let page_cnt := page_cnt - bm_pages in
    let? b := bitmap_create_in_buf page_cnt (words_at m (base + 8) (elem_cnt page_cnt))
                (u32 (bm_pages * PGSIZE)) in
    Ok (mk_pool b (u32 (base + bm_pages * PGSIZE))).

Definition palloc_init (m : memory) (init_ram_pages user_page_limit : Z) : outcome pools :=
  let? free_start := ptov (1024 * 1024) in
  let? free_end := ptov (u32 (init_ram_pages * PGSIZE)) in
  let free_pages := u32 (free_end - free_start) / PGSIZE in
  let user_pages := free_pages / 2 in
  let user_pages := if user_page_limit <? user_pages then user_page_limit else user_pages in
  let kernel_pages := free_pages - user_pages in
  let? k := init_pool m free_start kernel_pages in
  let? u := init_pool m (u32 (free_start + kernel_pages * PGSIZE)) user_pages in
  Ok (mk_pools k u m).

Definition page_from_pool (p : pool) (page : Z) : bool :=
  let page_no := pg_no page in
  let start_page := pg_no (base p) in
  let end_page := u32 (start_page + bitmap_size (used_map p)) in
  (start_page <=? page_no) && (page_no <? end_page).

(** The pool chosen by a flag, read and replaced. *)
Definition get_pool (user : bool) (s : pools) : pool :=
  if user then user_pool s else kernel_pool s.
Definition set_used_map (user : bool) (b : bitmap) (s : pools) : pools :=
  if user then mk_pools (kernel_pool s) (mk_pool b (base (user_pool s))) (ram s)
  else mk_pools (mk_pool b (base (kernel_pool s))) (user_pool s) (ram s).
Definition set_ram (m : memory) (s : pools) : pools := mk_pools (kernel_pool s) (user_pool s) m.

Definition palloc_get_multiple (flags page_cnt : Z) (s : pools) : outcome (Z * pools) :=
  let user := has_flag flags PAL_USER in
  let pool := get_pool user s in
  if page_cnt =? 0 then Ok (NULL, s)
  else
    let? '(page_idx, b) := bitmap_scan_and_flip (used_map pool) 0 page_cnt false in
    let s := set_used_map user b s in
    let pages := if negb (page_idx =? BITMAP_ERROR) then u32 (base pool + PGSIZE * page_idx) else NULL in
    if negb (pages =? NULL) then
      Ok (pages,
          if has_flag flags PAL_ZERO
          then set_ram (memset (ram s) pages 0 (u32 (PGSIZE * page_cnt))) s else s)
    else if has_flag flags PAL_ASSERT then Panic
    else Ok (pages, s).

Definition palloc_get_page (flags : Z) : pools → outcome (Z * pools) := palloc_get_multiple flags 1.

Definition palloc_free_multiple (pages page_cnt : Z) (s : pools) : outcome pools :=
  let? _ := assert_ok (pg_ofs pages =? 0) in
  if (pages =? NULL) || (page_cnt =? 0) then Ok s
  else
    let? user :=
      (if page_from_pool (kernel_pool s) pages then Ok false
       else if page_from_pool (user_pool s) pages then Ok true
       else Panic) in
    let pool := get_pool user s in
    let page_idx := pg_no pages - pg_no (base pool) in
    let s := set_ram (memset (ram s) pages 0xcc (u32 (PGSIZE * page_cnt))) s in
    let? all := bitmap_all (used_map pool) page_idx page_cnt in
    let? _ := assert_ok all in
    let? b := bitmap_set_multiple (used_map pool) page_idx page_cnt false in
    Ok (set_used_map user b s).

Definition palloc_free_page (page : Z) : pools → outcome pools := palloc_free_multiple page 1.

(** ** Invariant and view *)

(** A pool is page-aligned and lies in the address space. *)
Record pool_ok (p : pool) : Prop := {
  pool_wf : wf (used_map p);
  pool_aligned : base p `mod` 4096 = 0;
  pool_start : 0 < base p;
  pool_end : base p + 4096 * bit_cnt (used_map p) ≤ 2 ^ 32 }.

(** Both pools are, and the user pool lies above the kernel pool. *)
Record pools_ok (s : pools) : Prop := {
  kernel_ok : pool_ok (kernel_pool s);
  user_ok : pool_ok (user_pool s);
  pools_apart : base (kernel_pool s) + 4096 * bit_cnt (used_map (kernel_pool s))
                ≤ base (user_pool s) }.

(** Memory consists of bytes. *)
Definition bytes_ok (m : memory) : Prop := ∀ x, 0 ≤ m x < 2 ^ 8.

(** The address of the [i]-th page of a pool. *)
Definition page (p : pool) (i : Z) : Z := base p + 4096 * i.

(** The page at [a] belongs to the pool and is handed out. *)
Definition allocated (user : bool) (s : pools) (a : Z) : Prop :=
  ∃ i, 0 ≤ i < bit_cnt (used_map (get_pool user s)) ∧ a = page (get_pool user s) i ∧
       bit (used_map (get_pool user s)) i = true.

Lemma pg_no_div a : pg_no a = a / 4096.
Proof. unfold pg_no. by rewrite Z.shiftr_div_pow2. Qed.

Lemma pg_ofs_mod a : pg_ofs a = a `mod` 4096.
Proof. unfold pg_ofs, PGMASK. change (PGSIZE - 1) with (Z.ones 12). by rewrite Z.land_ones. Qed.

Lemma pg_round_down_eq b : 0 ≤ b < 2 ^ 32 → pg_round_down b = b - b `mod` 4096.
Proof.
  intros Hb. unfold pg_round_down. change (2 ^ 32 - 1 - PGMASK) with (Z.shiftl (Z.ones 20) 12).
  replace (b - b `mod` 4096) with (Z.shiftl (Z.shiftr b 12) 12).
  2:{ rewrite Z.shiftl_mul_pow2, Z.shiftr_div_pow2 by lia. change (2 ^ 12) with 4096.
      pose proof (Z.div_mod b 4096). lia. }
  apply Z.bits_inj'. intros n Hn. rewrite Z.land_spec, !Z.shiftl_spec by lia.
  destruct (Z.lt_ge_cases n 12) as [Hlt|Hge].
  - rewrite !(Z.testbit_neg_r _ (n - 12)) by lia. apply andb_false_r.
  - rewrite Z.shiftr_spec by lia. replace (n - 12 + 12) with n by lia.
    destruct (Z.lt_ge_cases n 32) as [Hlt|Hge'].
    + rewrite Z.ones_spec_low by lia. apply andb_true_r.
    + rewrite Z.ones_spec_high by lia. rewrite andb_false_r. symmetry.
      destruct (Z.eq_dec b 0) as [->|]; [apply Z.bits_0|]. apply Z.bits_above_log2; [lia|].
      apply (Z.lt_le_trans _ 32); [|lia]. apply Z.log2_lt_pow2; lia.
Qed.

Lemma get_pool_ok user s : pools_ok s → pool_ok (get_pool user s).
Proof. by destruct user; intros []. Qed.

Lemma page_props p i : pool_ok p → 0 ≤ i < bit_cnt (used_map p) →
  0 < page p i < 2 ^ 32 ∧ pg_ofs (page p i) = 0 ∧ pg_no (page p i) - pg_no (base p) = i.
Proof.
  intros [Hwf Ha Hs He] Hi. unfold page. rewrite pg_ofs_mod, !pg_no_div.
  pose proof (Z.div_mod (base p) 4096 ltac:(lia)).
  replace (base p + 4096 * i) with (base p + i * 4096) by lia.
  rewrite Z.mod_add, Z.div_add by lia. lia.
Qed.

Lemma pool_pages p : pool_ok p →
  u32 (pg_no (base p) + bitmap_size (used_map p)) = pg_no (base p) + bit_cnt (used_map p).
Proof.
  intros [Hwf Ha Hs He]. pose proof (wf_cnt _ Hwf). rewrite pg_no_div. apply uwrap_id.
  unfold in_u, bitmap_size. pose proof (Z.div_mod (base p) 4096 ltac:(lia)).
  pose proof (Z.div_pos (base p) 4096). lia.
Qed.

Lemma page_from_pool_page p a : pool_ok p → pg_ofs a = 0 →
  page_from_pool p a = true ↔ ∃ i, 0 ≤ i < bit_cnt (used_map p) ∧ a = page p i.
Proof.
  intros Hp Ha. unfold page_from_pool. rewrite pool_pages, andb_true_iff, Z.leb_le, Z.ltb_lt by done.
  destruct Hp as [Hwf Hal Hs He]. unfold page. rewrite pg_ofs_mod in Ha. rewrite !pg_no_div.
  pose proof (Z.div_mod (base p) 4096 ltac:(lia)). pose proof (Z.div_mod a 4096 ltac:(lia)).
  split.
  - intros []. exists (a / 4096 - base p / 4096). lia.
  - intros (i & Hi & ->). lia.
Qed.

(** The page [a] belongs to the pool the allocator finds for it. *)
Lemma find_pool user s i : pools_ok s → 0 ≤ i < bit_cnt (used_map (get_pool user s)) →
  (if page_from_pool (kernel_pool s) (page (get_pool user s) i) then Ok false
   else if page_from_pool (user_pool s) (page (get_pool user s) i) then Ok true
   else Panic) = Ok user.
Proof.
  intros Hs Hi. destruct (page_props _ _ (get_pool_ok user s Hs) Hi) as (_ & Ho & _).
  destruct Hs as [Hk Hu Hap]. destruct user; simpl in *.
  - destruct (page_from_pool (kernel_pool s) _) eqn:E.
    + apply page_from_pool_page in E as (j & Hj & E); [|done..]. unfold page in E. lia.
    + by rewrite (proj2 (page_from_pool_page _ _ Hu Ho)) by eauto.
  - by rewrite (proj2 (page_from_pool_page _ _ Hk Ho)) by eauto.
Qed.

(** ** Allocation and release *)

Lemma set_used_map_ok user b s : pools_ok s → wf b →
  bit_cnt b = bit_cnt (used_map (get_pool user s)) → pools_ok (set_used_map user b s).
Proof.
  intros [[] [] Hap] Hwf Hc. destruct user; simpl in *;
    (split; [split|split|]; simpl; rewrite ?Hc; done).
Qed.

Lemma set_ram_ok m s : pools_ok s → pools_ok (set_ram m s).
Proof. by intros []. Qed.

(** The pools are where they were. *)
Definition same_pools (s s' : pools) : Prop :=
  ∀ u, base (get_pool u s') = base (get_pool u s) ∧
       bit_cnt (used_map (get_pool u s')) = bit_cnt (used_map (get_pool u s)).

Lemma page_from_same_pools s s' u a :
  same_pools s s' → page_from_pool (get_pool u s') a = page_from_pool (get_pool u s) a.
Proof. intros Hs. unfold page_from_pool, bitmap_size. by destruct (Hs u) as [-> ->]. Qed.

Lemma same_pools_set user b m s : bit_cnt b = bit_cnt (used_map (get_pool user s)) →
  same_pools s (set_used_map user b s) ∧ same_pools s (set_ram m (set_used_map user b s)) ∧
  same_pools s (set_used_map user b (set_ram m s)).
Proof. intros Hc. by split_and!; intros []; destruct user. Qed.

(** The page at [a] is one of [cnt] pages from the [idx]-th one of the pool. *)
Definition in_range (p : pool) (idx cnt a : Z) : Prop := ∃ i, idx ≤ i < idx + cnt ∧ a = page p i.

(** The pages that are handed out after a range of bits has been set to [v]. *)
Lemma allocated_update user user' b s idx cnt v a :
  updates_range (used_map (get_pool user s)) b idx cnt v → 0 ≤ idx →
  idx + cnt ≤ bit_cnt (used_map (get_pool user s)) →
  allocated user' (set_used_map user b s) a ↔
  (user' = user ∧ in_range (get_pool user s) idx cnt a ∧ v = true) ∨
  (¬ (user' = user ∧ in_range (get_pool user s) idx cnt a) ∧ allocated user' s a).
Proof.
  intros (Hwf & Hc & Hb) H0 Hle. unfold allocated.
  destruct (decide (user' = user)) as [->|Hne]; [|destruct user, user'; naive_solver].
  assert (get_pool user (set_used_map user b s) = mk_pool b (base (get_pool user s))) as ->
    by (by destruct user). simpl. rewrite Hc. unfold in_range, page. simpl. split.
  - intros (i & Hi & -> & Hbit). rewrite Hb in Hbit by lia. case_bool_decide.
    + left. naive_solver.
    + right. split; [|by exists i]. intros (_ & j & Hj & E).
      assert (i = j) by lia. naive_solver.
  - intros [(_ & (i & Hi & ->) & ->)|(Hno & i & Hi & -> & Hbit)]; exists i; rewrite Hb by lia.
    + rewrite bool_decide_eq_true_2 by lia. split_and!; [lia..|done|done].
    + rewrite bool_decide_eq_false_2 by naive_solver. done.
Qed.

Lemma not_group b i cnt v : ¬ group b i cnt v → ∃ j, i ≤ j < i + cnt ∧ bit b j = negb v.
Proof.
  intros Hno. destruct (decide (Exists (λ j, bit b j = negb v) (seqZ i cnt))) as [E|E].
  - apply list.Exists_exists in E as (j & Hj%elem_of_seqZ & ?). eauto.
  - exfalso. apply Hno. intros j Hj. destruct (bool_decide_reflect (bit b j = v)) as [|Hb]; [done|].
    exfalso. apply E, list.Exists_exists. exists j. split; [by apply elem_of_seqZ|].
    by destruct (bit b j), v.
Qed.

(** The pages of a range, by their offset from its first page. *)
Lemma in_range_page p idx cnt a :
  in_range p idx cnt a ↔ ∃ k, 0 ≤ k < cnt ∧ a = page p idx + 4096 * k.
Proof.
  unfold in_range, page. split.
  - intros (i & Hi & ->). exists (i - idx). lia.
  - intros (k & Hk & ->). exists (idx + k). lia.
Qed.

Lemma free_group user s idx cnt k :
  pools_ok s → 0 ≤ idx → idx + cnt ≤ bit_cnt (used_map (get_pool user s)) → 0 ≤ k < cnt →
  group (used_map (get_pool user s)) idx cnt false →
  ¬ allocated user s (page (get_pool user s) idx + 4096 * k) ∧
  page_from_pool (get_pool user s) (page (get_pool user s) idx + 4096 * k) = true.
Proof.
  intros Hs H0 Hle Hk Hg. pose proof (get_pool_ok user s Hs) as Hp.
  replace (page _ idx + 4096 * k) with (page (get_pool user s) (idx + k)) by (unfold page; lia).
  destruct (page_props _ (idx + k) Hp ltac:(lia)) as (_ & Ho & _). split.
  - intros (i & Hi & E & Hbit). unfold page in E. rewrite Hg in Hbit by lia. done.
  - apply page_from_pool_page; [done..|]. exists (idx + k). lia.
Qed.

Lemma allocated_taken user u b s idx cnt a :
  pools_ok s → 0 ≤ idx → idx + cnt ≤ bit_cnt (used_map (get_pool user s)) →
  group (used_map (get_pool user s)) idx cnt false →
  updates_range (used_map (get_pool user s)) b idx cnt true →
  allocated u (set_used_map user b s) a ↔
  allocated u s a ∨ u = user ∧ ∃ k, 0 ≤ k < cnt ∧ a = page (get_pool user s) idx + 4096 * k.
Proof.
  intros Hs H0 Hle Hg Hu. rewrite (allocated_update user u b s idx cnt true) by done.
  rewrite in_range_page. split; [naive_solver|]. intros [Ha|]; [right|naive_solver].
  split; [|done]. intros [-> (k & Hk & ->)].
  by destruct (free_group user s idx cnt k) as [[] _].
Qed.

Lemma memset_spec m a v n x : 0 ≤ n → in_u 32 n →
  memset m a v (u32 n) x = if bool_decide (a ≤ x < a + n) then v else m x.
Proof.
  intros Hn Hu. unfold memset. rewrite uwrap_id by done.
  case_bool_decide as H; [rewrite (proj2 (Z.leb_le _ _)), (proj2 (Z.ltb_lt _ _)) by lia; done|].
  destruct (Z.leb_spec a x), (Z.ltb_spec x (a + n)); try done. lia.
Qed.

Lemma palloc_get_multiple_ok flags page_cnt s :
  pools_ok s → 0 < page_cnt < 2 ^ 20 →
  let user := has_flag flags PAL_USER in
  (∃ a s', palloc_get_multiple flags page_cnt s = Ok (a, s') ∧ pools_ok s' ∧
     same_pools s s' ∧ a ≠ NULL ∧ pg_ofs a = 0 ∧
     (∀ k, 0 ≤ k < page_cnt → ¬ allocated user s (a + 4096 * k) ∧
        page_from_pool (get_pool user s) (a + 4096 * k) = true) ∧
     (∀ u b, allocated u s' b ↔
        allocated u s b ∨ u = user ∧ ∃ k, 0 ≤ k < page_cnt ∧ b = a + 4096 * k) ∧
     (∀ x, ram s' x = if has_flag flags PAL_ZERO && bool_decide (a ≤ x < a + 4096 * page_cnt)
                      then 0 else ram s x)) ∨
  ((∀ i, 0 ≤ i → i + page_cnt ≤ bit_cnt (used_map (get_pool user s)) →
      ∃ k, 0 ≤ k < page_cnt ∧ allocated user s (page (get_pool user s) (i + k))) ∧
   palloc_get_multiple flags page_cnt s = if has_flag flags PAL_ASSERT then Panic else Ok (NULL, s)).
Proof.
  intros Hs Hn user. pose proof (get_pool_ok user s Hs) as Hp. pose proof (wf_cnt _ (pool_wf _ Hp)).
  unfold palloc_get_multiple. fold user. rewrite (proj2 (Z.eqb_neq page_cnt 0)) by lia.
  destruct (bitmap_scan_and_flip_ok (used_map (get_pool user s)) 0 page_cnt false)
    as (idx & b & -> & Hff & Herr & Hupd); [apply Hp|lia..|]. cbn [obind].
  destruct (Z.eqb_spec idx BITMAP_ERROR) as [->|Hne]; cbn [negb].
  - right. rewrite (Herr eq_refl). destruct Hff as [[_ Hno]|(_ & ? & _)]; [|unfold BITMAP_ERROR in *; lia].
    split; [|by destruct s as [[] [] ?], user; destruct (has_flag flags PAL_ASSERT)].
    intros i Hi Hle. destruct (not_group _ _ _ _ (Hno i Hi Hle)) as (j & Hj & Hbit).
    exists (j - i). split; [lia|]. exists j. split_and!; [lia..|f_equal; lia|done].
  - left. specialize (Hupd Hne). destruct Hff as [[? _]|(H0 & Hle & Hg & _)]; [done|].
    destruct (page_props _ idx Hp ltac:(lia)) as (Hr & Ho & _).
    assert (PGSIZE * idx = 4096 * idx) as -> by done. fold (page (get_pool user s) idx).
    rewrite (uwrap_id 32) by (unfold in_u; lia). rewrite (proj2 (Z.eqb_neq _ NULL)) by (unfold NULL; lia).
    cbn [negb]. eexists _, _. split; [done|].
    assert (pools_ok (set_used_map user b s)) as Hs' by (apply set_used_map_ok; [done|apply Hupd..]).
    destruct (same_pools_set user b
      (memset (ram (set_used_map user b s)) (page (get_pool user s) idx) 0 (u32 (PGSIZE * page_cnt))) s)
      as (Hsp & Hsp' & _); [apply Hupd|].
    split_and!; [by destruct (has_flag flags PAL_ZERO); [apply set_ram_ok|]
                |by destruct (has_flag flags PAL_ZERO)|unfold NULL; lia|done| | |].
    + intros k Hk. by apply (free_group user s idx page_cnt).
    + intros u c. rewrite <-(allocated_taken user u b s idx page_cnt) by done.
      by destruct (has_flag flags PAL_ZERO), u, user.
    + intros x. destruct (has_flag flags PAL_ZERO); [|by destruct user]. simpl.
      pose proof (pool_end _ Hp). pose proof (pool_start _ Hp).
      rewrite (memset_spec _ _ _ (4096 * page_cnt)) by (unfold in_u; lia). by destruct user.
Qed.

(** C19. [palloc_get_multiple] hands out pages that nobody has.  It returns the
    address of [page_cnt] consecutive pages of the pool asked for, aligned to a
    page and none of them handed out; exactly these are marked, and with
    [PAL_ZERO] they read as zeros and no other byte changes.  It fails only when
    the pool has no [page_cnt] consecutive free pages, with a null pointer and
    nothing changed, or with a panic under [PAL_ASSERT]. *)
Theorem palloc_get_multiple_correct flags page_cnt s :
  pools_ok s → 0 < page_cnt < 2 ^ 20 →
  let user := has_flag flags PAL_USER in
  (∃ a s', palloc_get_multiple flags page_cnt s = Ok (a, s') ∧ pools_ok s' ∧
     same_pools s s' ∧ a ≠ NULL ∧ pg_ofs a = 0 ∧
     (∀ k, 0 ≤ k < page_cnt → ¬ allocated user s (a + 4096 * k) ∧
        page_from_pool (get_pool user s) (a + 4096 * k) = true) ∧
     (∀ u b, allocated u s' b ↔
        allocated u s b ∨ u = user ∧ ∃ k, 0 ≤ k < page_cnt ∧ b = a + 4096 * k) ∧
     (∀ x, ram s' x = if has_flag flags PAL_ZERO && bool_decide (a ≤ x < a + 4096 * page_cnt)
                      then 0 else ram s x)) ∨
  ((∀ i, 0 ≤ i → i + page_cnt ≤ bit_cnt (used_map (get_pool user s)) →
      ∃ k, 0 ≤ k < page_cnt ∧ allocated user s (page (get_pool user s) (i + k))) ∧
   palloc_get_multiple flags page_cnt s = if has_flag flags PAL_ASSERT then Panic else Ok (NULL, s)).
Proof. apply palloc_get_multiple_ok. Qed.

(** A range of handed out pages is a group of set bits. *)
Lemma allocated_group user s a cnt : pools_ok s → 0 < cnt →
  (∀ k, 0 ≤ k < cnt → allocated user s (a + 4096 * k)) →
  ∃ idx, 0 ≤ idx ∧ idx + cnt ≤ bit_cnt (used_map (get_pool user s)) ∧
    a = page (get_pool user s) idx ∧ group (used_map (get_pool user s)) idx cnt true.
Proof.
  intros Hs Hc Ha. destruct (Ha 0 ltac:(lia)) as (idx & Hi & E & _).
  replace (a + 4096 * 0) with a in E by lia. exists idx.
  assert (∀ k, 0 ≤ k < cnt → idx + k < bit_cnt (used_map (get_pool user s)) ∧
    bit (used_map (get_pool user s)) (idx + k) = true) as Hk.
  { intros k Hk. destruct (Ha k Hk) as (j & Hj & E' & Hbit). unfold page in *.
    assert (j = idx + k) as -> by lia. split; [lia|done]. }
  split_and!; [lia|destruct (Hk (cnt - 1) ltac:(lia)); lia|done|].
  intros j Hj. replace j with (idx + (j - idx)) by lia. apply Hk. lia.
Qed.

Lemma palloc_free_run user s idx cnt : pools_ok s → 0 ≤ idx → 0 < cnt →
  idx + cnt ≤ bit_cnt (used_map (get_pool user s)) →
  palloc_free_multiple (page (get_pool user s) idx) cnt s =
    let? all := bitmap_all (used_map (get_pool user s)) idx cnt in
    let? _ := assert_ok all in
    let? b := bitmap_set_multiple (used_map (get_pool user s)) idx cnt false in
    Ok (set_used_map user b
          (set_ram (memset (ram s) (page (get_pool user s) idx) 0xcc (u32 (PGSIZE * cnt))) s)).
Proof.
  intros Hs H0 Hc Hle. pose proof (get_pool_ok user s Hs) as Hp.
  destruct (page_props _ idx Hp ltac:(lia)) as (Hr & Ho & Hno). unfold palloc_free_multiple.
  rewrite Ho. cbn [obind assert_ok Z.eqb]. rewrite (proj2 (Z.eqb_neq _ NULL)) by (unfold NULL; lia).
  rewrite (proj2 (Z.eqb_neq cnt 0)) by lia. cbn [orb].
  rewrite (find_pool user s idx) by (done || lia). cbn [obind]. by rewrite Hno.
Qed.

Lemma palloc_free_multiple_ok user s a page_cnt :
  pools_ok s → 0 < page_cnt < 2 ^ 20 →
  (∀ k, 0 ≤ k < page_cnt → allocated user s (a + 4096 * k)) →
  ∃ s', palloc_free_multiple a page_cnt s = Ok s' ∧ pools_ok s' ∧ same_pools s s' ∧
    (∀ u b, allocated u s' b ↔
       allocated u s b ∧ ¬ (u = user ∧ ∃ k, 0 ≤ k < page_cnt ∧ b = a + 4096 * k)) ∧
    (∀ x, ram s' x = if bool_decide (a ≤ x < a + 4096 * page_cnt) then 0xcc else ram s x) ∧
    (∀ k, 0 ≤ k < page_cnt → palloc_free_page (a + 4096 * k) s' = Panic).
Proof.
  intros Hs Hn Ha. destruct (allocated_group user s a page_cnt) as (idx & H0 & Hle & -> & Hg);
    [done|lia|done|].
  pose proof (get_pool_ok user s Hs) as Hp. rewrite palloc_free_run by (done || lia).
  destruct (bitmap_all_ok (used_map (get_pool user s)) idx page_cnt) as (r & -> & Hall); [apply Hp|lia..|].
  cbn [obind]. rewrite (proj2 Hall Hg). cbn [obind assert_ok].
  destruct (bitmap_set_multiple_ok (used_map (get_pool user s)) idx page_cnt false)
    as (b & -> & Hu); [apply Hp|lia..|]. cbn [obind].
  set (m := memset _ _ _ _). assert (pools_ok (set_ram m s)) as Hs1 by (by apply set_ram_ok).
  assert (get_pool user (set_ram m s) = get_pool user s) as Eg by (by destruct user).
  assert (pools_ok (set_used_map user b (set_ram m s))) as Hs2
    by (apply set_used_map_ok; rewrite ?Eg; [done|apply Hu..]).
  assert (∀ u c, allocated u (set_used_map user b (set_ram m s)) c ↔
    allocated u (set_used_map user b s) c) as Hm by (by destruct u, user).
  destruct (same_pools_set user b m s) as (_ & _ & Hsp); [apply Hu|].
  eexists. split; [done|]. split_and!; [done|done| | |].
  - intros u c. rewrite Hm, (allocated_update user u b s idx page_cnt false) by done.
    rewrite in_range_page. naive_solver.
  - intros x. transitivity (m x); [by destruct user|]. unfold m. apply memset_spec; [lia|].
    unfold in_u. pose proof (pool_end _ Hp). pose proof (pool_start _ Hp). lia.
  - intros k Hk. unfold palloc_free_page.
    assert (page (get_pool user s) idx + 4096 * k =
      page (get_pool user (set_used_map user b (set_ram m s))) (idx + k)) as ->
      by (destruct user; unfold page; simpl; lia).
    destruct Hu as (Hwf & Hcnt & Hbit).
    rewrite palloc_free_run by (destruct user; simpl in *; rewrite ?Hcnt; done || lia).
    assert (used_map (get_pool user (set_used_map user b (set_ram m s))) = b) as -> by (by destruct user).
    destruct (bitmap_all_ok b (idx + k) 1) as (r' & -> & Hall'); [done|lia..|].
    destruct r'; [|done]. specialize (proj1 Hall' eq_refl (idx + k) ltac:(lia)).
    rewrite Hbit by lia. by rewrite bool_decide_eq_true_2 by lia.
Qed.

(** [palloc_free_multiple] gives back exactly the pages it is given, which are
    overwritten with 0xcc; freeing one of them a second time panics. *)
Theorem palloc_free_multiple_correct user s a page_cnt :
  pools_ok s → 0 < page_cnt < 2 ^ 20 →
  (∀ k, 0 ≤ k < page_cnt → allocated user s (a + 4096 * k)) →
  ∃ s', palloc_free_multiple a page_cnt s = Ok s' ∧ pools_ok s' ∧ same_pools s s' ∧
    (∀ u b, allocated u s' b ↔
       allocated u s b ∧ ¬ (u = user ∧ ∃ k, 0 ≤ k < page_cnt ∧ b = a + 4096 * k)) ∧
    (∀ x, ram s' x = if bool_decide (a ≤ x < a + 4096 * page_cnt) then 0xcc else ram s x) ∧
    (∀ k, 0 ≤ k < page_cnt → palloc_free_page (a + 4096 * k) s' = Panic).
Proof. apply palloc_free_multiple_ok. Qed.

(** ** Start-up *)

Lemma word_at_range m a : (∀ x, 0 ≤ m x < 2 ^ 8) → in_u 32 (word_at m a).
Proof.
  intros Hm. unfold in_u, word_at. pose proof (Hm a). pose proof (Hm (a + 1)).
  pose proof (Hm (a + 2)). pose proof (Hm (a + 3)). eval_pow2. lia.
Qed.

Lemma words_at_elems m a n : (∀ x, 0 ≤ m x < 2 ^ 8) → 0 ≤ n →
  Z.of_nat (length (words_at m a n)) = n ∧ Forall (in_u 32) (words_at m a n).
Proof.
  intros Hm Hn. unfold words_at. rewrite length_fmap, length_seqZ. split; [lia|].
  apply Forall_fmap, list.Forall_forall. intros i _. by apply word_at_range.
Qed.

(** The bounds of a quotient. *)
Ltac div_bounds a b :=
  pose proof (Z.div_mod a b ltac:(lia)); pose proof (Z.mod_pos_bound a b ltac:(lia)).

(** The pages a bitmap of [n] bits takes. *)
Lemma bm_pages_eq n : 0 ≤ n < 2 ^ 20 →
  DIV_ROUND_UP (bitmap_buf_size n) PGSIZE = (4 * ((n + 31) / 32) + 4103) / 4096.
Proof.
  intros Hn. unfold DIV_ROUND_UP, bitmap_buf_size. rewrite byte_cnt_eq by lia.
  pose proof (Z.div_pos (n + 31) 32 ltac:(lia) ltac:(lia)).
  pose proof (Z.mul_div_le (n + 31) 32 ltac:(lia)). change PGSIZE with 4096.
  rewrite (uwrap_id 32 (8 + _)) by (unfold in_u; lia).
  rewrite (uwrap_id 32 (8 + _ + _)) by (unfold in_u; lia).
  rewrite (uwrap_id 32) by (unfold in_u; lia). f_equal. lia.
Qed.

Lemma init_pool_ok m b n :
  (∀ x, 0 ≤ m x < 2 ^ 8) → 0 < b → b `mod` 4096 = 0 → 1 ≤ n < 2 ^ 20 → b + 4096 * n < 2 ^ 32 →
  ∃ p, init_pool m b n = Ok p ∧ pool_ok p ∧ group (used_map p) 0 (bit_cnt (used_map p)) false ∧
    b < base p ∧ base p + 4096 * bit_cnt (used_map p) = b + 4096 * n.
Proof.
  intros Hm Hb Hal Hn Hend. unfold init_pool. rewrite bm_pages_eq by lia.
  set (bm := (4 * ((n + 31) / 32) + 4103) / 4096).
  assert (1 ≤ bm ≤ n ∧ 4 * ((n + 31) / 32) + 8 ≤ 4096 * bm) as (Hbm & Hfit)
    by (div_bounds (n + 31) 32; div_bounds (4 * ((n + 31) / 32) + 4103) 4096; unfold bm; lia).
  rewrite (proj2 (Z.ltb_ge n bm)) by lia.
  assert (0 ≤ elem_cnt (n - bm) ∧ bitmap_buf_size (n - bm) ≤ 4096 * bm) as [He Hbuf].
  { unfold bitmap_buf_size. rewrite elem_cnt_eq, byte_cnt_eq by lia.
    div_bounds (n + 31) 32. div_bounds (n - bm + 31) 32.
    rewrite (uwrap_id 32) by (unfold in_u; lia). lia. }
  destruct (words_at_elems m (b + 8) (elem_cnt (n - bm)) Hm He) as [Hlen Helems].
  unfold bitmap_create_in_buf. change PGSIZE with 4096.
  rewrite (uwrap_id 32 (bm * 4096)) by (unfold in_u; lia).
  rewrite (proj2 (Z.leb_le (bitmap_buf_size (n - bm)) (bm * 4096))) by lia. cbn [assert_ok obind].
  destruct (bitmap_set_all_ok (mk_bitmap (n - bm) (words_at m (b + 8) (elem_cnt (n - bm)))) false)
    as (bits & -> & Hwf & Hcnt & Hbit); [by split; simpl; [lia|..]|].
  cbn [obind]. simpl in Hcnt, Hbit. rewrite (uwrap_id 32) by (unfold in_u; lia).
  eexists. split; [done|]. simpl. rewrite Hcnt. split_and!; [|..|lia|lia].
  - split; simpl; [done| |lia|rewrite Hcnt; lia].
    by replace (b + bm * 4096) with (b + bm * 4096) by lia; rewrite Z.mod_add.
  - intros j Hj. rewrite Hbit by lia. by rewrite bool_decide_eq_true_2 by lia.
Qed.

(** C36. [palloc_init] divides the memory from 1 MB on: for any amount of memory up
    to the gigabyte the kernel maps, and any limit of at least one user page, it
    succeeds with two pools that do not overlap, all of whose pages are free. *)
Theorem palloc_init_correct m init_ram_pages user_page_limit :
  (∀ x, 0 ≤ m x < 2 ^ 8) → 258 ≤ init_ram_pages < 2 ^ 18 → 1 ≤ user_page_limit →
  ∃ s, palloc_init m init_ram_pages user_page_limit = Ok s ∧ pools_ok s ∧ ram s = m ∧
    (∀ u a, ¬ allocated u s a) ∧
    PHYS_BASE + 2 ^ 20 < base (kernel_pool s) ∧
    base (user_pool s) + 4096 * bit_cnt (used_map (user_pool s)) = PHYS_BASE + 4096 * init_ram_pages.
Proof.
  intros Hm Hn Hl. unfold palloc_init, ptov.
  rewrite (uwrap_id 32 (init_ram_pages * PGSIZE)) by (unfold in_u; change PGSIZE with 4096; lia).
  unfold PHYS_BASE. rewrite (proj2 (Z.ltb_lt (init_ram_pages * PGSIZE) 0xc0000000))
    by (change PGSIZE with 4096; lia).
  change (1024 * 1024 <? 0xc0000000) with true. cbn [assert_ok obind].
  change PGSIZE with 4096. rewrite (uwrap_id 32 (1024 * 1024 + _)) by (unfold in_u; lia).
  rewrite (uwrap_id 32 (init_ram_pages * 4096 + _)) by (unfold in_u; lia).
  replace (init_ram_pages * 4096 + 3221225472 - (1024 * 1024 + 3221225472))
    with ((init_ram_pages - 256) * 4096) by lia.
  rewrite (uwrap_id 32 ((init_ram_pages - 256) * 4096)) by (unfold in_u; lia).
  rewrite Z.div_mul by lia. remember (init_ram_pages - 256) as n eqn:En.
  set (u := if user_page_limit <? n / 2 then user_page_limit else n / 2).
  div_bounds n 2.
  assert (1 ≤ u ≤ n / 2) as Hu by (unfold u; destruct (Z.ltb_spec user_page_limit (n / 2)); lia).
  clearbody u. assert (1 ≤ n - u ∧ n < 2 ^ 18) as Hk by lia.
  destruct (init_pool_ok m (1024 * 1024 + 3221225472) (n - u)) as (kp & -> & Hkp & Hkg & Hkb & Hke);
    [done|lia|done|lia|lia|]. cbn [obind].
  rewrite (uwrap_id 32) by (unfold in_u; lia).
  destruct (init_pool_ok m (1024 * 1024 + 3221225472 + (n - u) * 4096) u)
    as (up & -> & Hup & Hug & Hub & Hue); [done|lia|by rewrite Z.mod_add|lia..|]. cbn [obind].
  eexists. split; [done|]. split_and!; simpl; [split; simpl; [done..|lia]|done| |lia|lia].
  intros [] a (i & Hi & _ & Hbit); simpl in *; [by rewrite Hug in Hbit by lia|by rewrite Hkg in Hbit by lia].
Qed.

(** ** Examples *)

Lemma palloc_init_correct_witness :
  ∃ s, palloc_init (λ _, 0) 1024 4096 = Ok s ∧ pools_ok s ∧ ∀ u a, ¬ allocated u s a.
Proof.
  destruct (palloc_init_correct (λ _, 0) 1024 4096) as (s & E & Hok & _ & Hfree & _);
    [intros; lia|lia|lia|]. exists s. exact (conj E (conj Hok Hfree)).
Defined.

(** Two pools of four pages, the first two pages of the kernel pool handed out. *)
Definition sample_pools : pools :=
  mk_pools (mk_pool (mk_bitmap 4 [3]) 0xc0102000) (mk_pool (mk_bitmap 4 [0]) 0xc0107000) (λ _, 7).

Lemma sample_pools_ok : pools_ok sample_pools.
Proof.
  split; [split|split|]; simpl; try lia; try done;
    (split; [simpl; lia|done|repeat constructor; unfold in_u; lia]).
Qed.

Lemma palloc_get_multiple_correct_witness :
  ∃ a s', palloc_get_multiple 2 2 sample_pools = Ok (a, s') ∧ pools_ok s' ∧
          ¬ allocated false sample_pools (a + 4096 * 1).
Proof.
  destruct (palloc_get_multiple_correct 2 2 sample_pools sample_pools_ok ltac:(lia))
    as [(a & s' & E & Hok & _ & _ & _ & Hnew & _)|[Hno _]].
  - exists a, s'. split; [exact E|]. split; [exact Hok|]. exact (proj1 (Hnew 1 ltac:(lia))).
  - destruct (Hno 2) as (k & Hk & i & Hi & Ei & Hb); [lia|simpl; lia|].
    exfalso. simpl in Hi. unfold page in Ei. assert (i = 2 ∨ i = 3) as [-> | ->] by lia; discriminate Hb.
Defined.

Lemma palloc_free_multiple_correct_witness :
  ∃ s', palloc_free_multiple 0xc0102000 2 sample_pools = Ok s' ∧ pools_ok s' ∧
        palloc_free_page (0xc0102000 + 4096 * 1) s' = Panic.
Proof.
  destruct (palloc_free_multiple_correct false sample_pools 0xc0102000 2 sample_pools_ok ltac:(lia))
    as (s' & E & Hok & _ & _ & _ & Hp).
  - intros k Hk. exists k. simpl. split; [lia|]. split; [reflexivity|].
    assert (k = 0 ∨ k = 1) as [-> | ->] by lia; reflexivity.
  - exists s'. split; [exact E|]. split; [exact Hok|]. apply Hp. lia.
Defined.
