(* ===== verification/CString.v ===== *)
(** * Strings and blocks of memory (lib/string.c)

    The functions work byte by byte on memory, in the order of the C loops.  A loop
    that runs to the end of a string takes as fuel a bound on its rounds.  The
    position that [strtok_r] keeps in [*save_ptr] is an argument and part of the
    result. *)

From S2P Require Import Prelude FsState Palloc.

Abbreviation B := (M memory).

Definition load (a : Z) : B Z := gets (λ m, m a).
Definition store (a v : Z) : B unit := modify (λ m x, if x =? a then u8 v else m x).

(** ** Blocks *)

Fixpoint copy_up (n : nat) (dst src : Z) : B Z :=
  match n with
  | O => ret dst
  | S n =>
      let! b := load src in
      let! _ := store dst b in
      copy_up n (dst + 1) (src + 1)
  end.

Fixpoint copy_down (n : nat) (dst src : Z) : B Z :=
  match n with
  | O => ret dst
  | S n =>
      let! b := load (src - 1) in
      let! _ := store (dst - 1) b in
      copy_down n (dst - 1) (src - 1)
  end.

Definition memcpy (dst src size : Z) : B Z :=
  let! _ := ASSERT (negb (dst =? NULL) || (size =? 0)) in
  let! _ := ASSERT (negb (src =? NULL) || (size =? 0)) in
  let! _ := copy_up (Z.to_nat size) dst src in
  ret dst.

(** The value is the local [dst], which the loops move. *)
Definition memmove (dst src size : Z) : B Z :=
  let! _ := ASSERT (negb (dst =? NULL) || (size =? 0)) in
  let! _ := ASSERT (negb (src =? NULL) || (size =? 0)) in
  if dst <? src then copy_up (Z.to_nat size) dst src
  else copy_down (Z.to_nat size) (dst + size) (src + size).

Fixpoint memcmp_loop (n : nat) (a b : Z) : B Z :=
  match n with
  | O => ret 0
  | S n =>
      let! x := load a in
      let! y := load b in
      if negb (x =? y) then ret (if y <? x then 1 else -1)
      else memcmp_loop n (a + 1) (b + 1)
  end.
Definition memcmp (a b size : Z) : B Z :=
  let! _ := ASSERT (negb (a =? NULL) || (size =? 0)) in
  let! _ := ASSERT (negb (b =? NULL) || (size =? 0)) in
  memcmp_loop (Z.to_nat size) a b.

Fixpoint memchr_loop (n : nat) (block ch : Z) : B Z :=
  match n with
  | O => ret NULL
  | S n =>
      let! x := load block in
      if x =? ch then ret block else memchr_loop n (block + 1) ch
  end.
Definition memchr (block ch size : Z) : B Z :=
  let! _ := ASSERT (negb (block =? NULL) || (size =? 0)) in
  memchr_loop (Z.to_nat size) block (u8 ch).

Fixpoint memset_loop (n : nat) (dst value : Z) : B unit :=
  match n with
  | O => ret tt
  | S n =>
      let! _ := store dst value in
      memset_loop n (dst + 1) value
  end.
Definition memset (dst value size : Z) : B Z :=
  let! _ := ASSERT (negb (dst =? NULL) || (size =? 0)) in
  let! _ := memset_loop (Z.to_nat size) dst value in
  ret dst.

(** ** Strings *)

Fixpoint strcmp_loop (fuel : nat) (a b : Z) : B Z :=
  let! x := load a in
  let! y := load b in
  if negb (x =? 0) && (x =? y) then
    match fuel with O => out_of_fuel | S fuel => strcmp_loop fuel (a + 1) (b + 1) end
  else ret (if x <? y then -1 else if y <? x then 1 else 0).
Definition strcmp (fuel : nat) (a b : Z) : B Z :=
  let! _ := ASSERT (negb (a =? NULL)) in
  let! _ := ASSERT (negb (b =? NULL)) in
  strcmp_loop fuel a b.

Fixpoint strchr_loop (fuel : nat) (string c : Z) : B Z :=
  let! x := load string in
  if x =? c then ret string
  else if x =? 0 then ret NULL
  else match fuel with O => out_of_fuel | S fuel => strchr_loop fuel (string + 1) c end.
Definition strchr (fuel : nat) (string c : Z) : B Z :=
  let! _ := ASSERT (negb (string =? NULL)) in
  strchr_loop fuel string (u8 c).

(** The loop of [strcspn], with [missing] false, and of [strspn], with [missing] true: it
    ends at the first character that [strchr] finds in the set or, for [strspn], does
    not find. *)
Fixpoint span_loop (n fuel : nat) (missing : bool) (string set length : Z) : B Z :=
  let! x := load (string + length) in
  if negb (x =? 0) then
    let! p := strchr fuel set x in
    if eqb (p =? NULL) missing then ret length
    else match n with O => out_of_fuel | S n => span_loop n fuel missing string set (u32 (length + 1)) end
  else ret length.
Definition strcspn (fuel : nat) (string stop : Z) : B Z := span_loop fuel fuel false string stop 0.
Definition strspn (fuel : nat) (string skip : Z) : B Z := span_loop fuel fuel true string skip 0.

Fixpoint strpbrk_loop (n fuel : nat) (string stop : Z) : B Z :=
  let! x := load string in
  if negb (x =? 0) then
    let! p := strchr fuel stop x in
    if negb (p =? NULL) then ret string
    else match n with O => out_of_fuel | S n => strpbrk_loop n fuel (string + 1) stop end
  else ret NULL.
Definition strpbrk (fuel : nat) (string stop : Z) : B Z := strpbrk_loop fuel fuel string stop.

Fixpoint strrchr_loop (fuel : nat) (string c p : Z) : B Z :=
  let! x := load string in
  if negb (x =? 0) then
    let p := if x =? c then string else p in
    match fuel with O => out_of_fuel | S fuel => strrchr_loop fuel (string + 1) c p end
  else ret p.
Definition strrchr (fuel : nat) (string c : Z) : B Z := strrchr_loop fuel string (u8 c) NULL.

Fixpoint strlen_loop (fuel : nat) (p : Z) : B Z :=
  let! x := load p in
  if negb (x =? 0) then
    match fuel with O => out_of_fuel | S fuel => strlen_loop fuel (p + 1) end
  else ret p.
Definition strlen (fuel : nat) (string : Z) : B Z :=
  let! _ := ASSERT (negb (string =? NULL)) in
  let! p := strlen_loop fuel string in
  ret (p - string).

(** The character is read before the bound is tested. *)
Fixpoint strnlen_loop (fuel : nat) (string maxlen length : Z) : B Z :=
  let! x := load (string + length) in
  if negb (x =? 0) && (length <? maxlen) then
    match fuel with O => out_of_fuel | S n => strnlen_loop n string maxlen (length + 1) end
  else ret length.
Definition strnlen (fuel : nat) (string maxlen : Z) : B Z := strnlen_loop fuel string maxlen 0.

Fixpoint strstr_loop (n : nat) (haystack needle needle_len i : Z) : B Z :=
  match n with
  | O => ret NULL
  | S n =>
      let! r := memcmp (haystack + i) needle needle_len in
      if r =? 0 then ret (haystack + i) else strstr_loop n haystack needle needle_len (i + 1)
  end.
Definition strstr (fuel : nat) (haystack needle : Z) : B Z :=
  let! haystack_len := strlen fuel haystack in
  let! needle_len := strlen fuel needle in
  if needle_len <=? haystack_len then
    strstr_loop (Z.to_nat (haystack_len - needle_len + 1)) haystack needle needle_len 0
  else ret NULL.

Definition strlcpy (fuel : nat) (dst src size : Z) : B Z :=
  let! _ := ASSERT (negb (dst =? NULL)) in
  let! _ := ASSERT (negb (src =? NULL)) in
  let! src_len := strlen fuel src in
  let! _ :=
    (if 0 <? size then
       let dst_len := size - 1 in
       let dst_len := if src_len <? dst_len then src_len else dst_len in
       let! _ := memcpy dst src dst_len in
       store (dst + dst_len) 0
     else ret tt) in
  ret src_len.

Definition strlcat (fuel : nat) (dst src size : Z) : B Z :=
  let! _ := ASSERT (negb (dst =? NULL)) in
  let! _ := ASSERT (negb (src =? NULL)) in
  let! src_len := strlen fuel src in
  let! dst_len := strlen fuel dst in
  let! _ :=
    (if (0 <? size) && (dst_len <? size) then
       let copy_cnt := size - dst_len - 1 in
       let copy_cnt := if src_len <? copy_cnt then src_len else copy_cnt in
       let! _ := memcpy (dst + dst_len) src copy_cnt in
       store (dst + dst_len + copy_cnt) 0
     else ret tt) in
  ret (u32 (src_len + dst_len)).

(** ** Tokens *)

(** Where the loop over the delimiters stops, and whether at the end of the string. *)
Fixpoint skip_delims (n fuel : nat) (s delimiters : Z) : B (bool * Z) :=
  let! x := load s in
  let! p := strchr fuel delimiters x in
  if negb (p =? NULL) then
    if x =? 0 then ret (true, s)
    else match n with O => out_of_fuel | S n => skip_delims n fuel (s + 1) delimiters end
  else ret (false, s).

Fixpoint skip_token (n fuel : nat) (s delimiters : Z) : B Z :=
  let! x := load s in
  let! p := strchr fuel delimiters x in
  if p =? NULL then
    match n with O => out_of_fuel | S n => skip_token n fuel (s + 1) delimiters end
  else ret s.

(** The token and the new [*save_ptr]. *)
Definition strtok_r (fuel : nat) (s delimiters save : Z) : B (Z * Z) :=
  let! _ := ASSERT (negb (delimiters =? NULL)) in
  let s := if s =? NULL then save else s in
  let! _ := ASSERT (negb (s =? NULL)) in
  let! '(at_end, s) := skip_delims fuel fuel s delimiters in
  if at_end then ret (NULL, s)
  else
    let token := s in
    let! s := skip_token fuel fuel s delimiters in
    let! x := load s in
    if negb (x =? 0) then
      let! _ := store s 0 in
      ret (token, s + 1)
    else ret (token, s).
