(* ===== verification/CStringSpec.v ===== *)
(** * What the functions of lib/string.c compute

    Blocks of memory as functions of addresses, strings as lists of their characters:
    the copies, the comparisons and searches, and the tokens of [strtok_r]. *)

From S2P Require Import Prelude FsState Palloc CString.

(** ** Copies *)

Lemma store_other (m : memory) a v x : x ≠ a → (λ y, if y =? a then u8 v else m y) x = m x.
Proof. intros H. simpl. by rewrite (proj2 (Z.eqb_neq x a)). Qed.

Lemma byte_u8 m x : bytes_ok m → u8 (m x) = m x.
Proof. intros H. apply uwrap_id, H. Qed.

Lemma store_ok m a v : bytes_ok m → bytes_ok (λ x, if x =? a then u8 v else m x).
Proof. intros H x. destruct (x =? a); [by apply uwrap_range|apply H]. Qed.

(** The memory after [n] bytes from [src] were copied to [dst]. *)
Definition copied (m m' : memory) (dst src n : Z) : Prop :=
  ∀ x, m' x = if bool_decide (dst ≤ x < dst + n) then m (src + (x - dst)) else m x.

Lemma copied_ok m m' dst src n : bytes_ok m → copied m m' dst src n → bytes_ok m'.
Proof. intros Hm Hc x. rewrite Hc. by case_bool_decide. Qed.

Lemma copy_up_run n : ∀ dst src m, bytes_ok m → dst ≤ src ∨ src + Z.of_nat n ≤ dst →
  ∃ m', copy_up n dst src m = Ok (dst + Z.of_nat n, m') ∧ copied m m' dst src (Z.of_nat n).
Proof.
  induction n as [|n IH]; intros dst src m Hm Hd; cbn [copy_up].
  - exists m. rewrite Z.add_0_r. split; [done|]. intros x. by rewrite bool_decide_eq_false_2 by lia.
  - erewrite (bind_Ok (load _)) by done. erewrite (bind_Ok (store _ _)) by done. rewrite byte_u8 by done.
    set (m1 := λ x, if x =? dst then m src else m x).
    destruct (IH (dst + 1) (src + 1) m1) as (m' & E & Hc).
    { intros x. unfold m1. destruct (x =? dst); apply Hm. } { lia. }
    exists m'. replace (dst + Z.of_nat (S n)) with (dst + 1 + Z.of_nat n) by lia. split; [exact E|].
    intros x. rewrite Hc. unfold m1. repeat case_bool_decide; try lia.
    + rewrite (proj2 (Z.eqb_neq _ dst)) by lia. f_equal. lia.
    + assert (x = dst) as -> by lia. rewrite Z.eqb_refl. f_equal. lia.
    + by rewrite (proj2 (Z.eqb_neq x dst)) by lia.
Qed.

Lemma copy_down_run n : ∀ dst src m, bytes_ok m → src ≤ dst ∨ dst + Z.of_nat n ≤ src →
  ∃ m', copy_down n (dst + Z.of_nat n) (src + Z.of_nat n) m = Ok (dst, m') ∧ copied m m' dst src (Z.of_nat n).
Proof.
  induction n as [|n IH]; intros dst src m Hm Hd; cbn [copy_down].
  - exists m. rewrite Z.add_0_r. split; [done|]. intros x. by rewrite bool_decide_eq_false_2 by lia.
  - erewrite (bind_Ok (load _)) by done. erewrite (bind_Ok (store _ _)) by done. rewrite byte_u8 by done.
    replace (dst + Z.of_nat (S n) - 1) with (dst + Z.of_nat n) by lia.
    replace (src + Z.of_nat (S n) - 1) with (src + Z.of_nat n) by lia.
    set (m1 := λ x, if x =? dst + Z.of_nat n then m (src + Z.of_nat n) else m x).
    destruct (IH dst src m1) as (m' & E & Hc).
    { intros x. unfold m1. destruct (x =? _); apply Hm. } { lia. }
    exists m'. split; [exact E|]. intros x. rewrite Hc. unfold m1. repeat case_bool_decide; try lia.
    + by rewrite (proj2 (Z.eqb_neq _ (dst + Z.of_nat n))) by lia.
    + assert (x = dst + Z.of_nat n) as -> by lia. rewrite Z.eqb_refl. f_equal. lia.
    + by rewrite (proj2 (Z.eqb_neq x _)) by lia.
Qed.

Lemma memcpy_run dst src n m : bytes_ok m → 0 ≤ n → dst ≠ NULL → src ≠ NULL → dst ≤ src ∨ src + n ≤ dst →
  ∃ m', memcpy dst src n m = Ok (dst, m') ∧ copied m m' dst src n.
Proof.
  intros Hm Hn Hd Hs Ho. unfold memcpy. rewrite (proj2 (Z.eqb_neq dst NULL)), (proj2 (Z.eqb_neq src NULL)) by done.
  do 2 rewrite (bind_Ok (ASSERT _) _ m tt m) by done.
  destruct (copy_up_run (Z.to_nat n) dst src m Hm) as (m' & E & Hc); [lia|]. rewrite Z2Nat.id in E, Hc by done.
  rewrite (bind_Ok _ _ _ _ _ E). by exists m'.
Qed.

(** [memmove] copies the block as it was before the call, however the two blocks
    overlap.  It returns the destination only when that is not below the source:
    otherwise the end of the destination, although it is documented to return the
    destination. *)
Theorem memmove_correct dst src n m : bytes_ok m → 0 ≤ n → dst ≠ NULL → src ≠ NULL →
  ∃ m', memmove dst src n m = Ok (if dst <? src then dst + n else dst, m') ∧ copied m m' dst src n.
Proof.
  intros Hm Hn Hd Hs. unfold memmove. rewrite (proj2 (Z.eqb_neq dst NULL)), (proj2 (Z.eqb_neq src NULL)) by done.
  do 2 rewrite (bind_Ok (ASSERT _) _ m tt m) by done. destruct (Z.ltb_spec dst src) as [Hlt|Hge].
  - destruct (copy_up_run (Z.to_nat n) dst src m Hm) as (m' & E & Hc); [lia|]. rewrite Z2Nat.id in E, Hc by done. by exists m'.
  - destruct (copy_down_run (Z.to_nat n) dst src m Hm) as (m' & E & Hc); [lia|]. rewrite Z2Nat.id in E, Hc by done. by exists m'.
Qed.

Lemma memmove_correct_witness :
  ∃ m', memmove 1000 1002 3 (λ x, x `mod` 256) = Ok (1003, m') ∧ copied (λ x, x `mod` 256) m' 1000 1002 3.
Proof.
  apply (memmove_correct 1000 1002 3 (λ x, x `mod` 256)); [|lia|discriminate|discriminate].
  intros x. by apply Z.mod_pos_bound.
Defined.

(** ** Strings *)

(** The string [s] is at [a]. *)
Fixpoint cstr (m : memory) (a : Z) (s : list Z) : Prop :=
  match s with
  | [] => m a = 0
  | c :: s => 0 < c < 256 ∧ m a = c ∧ cstr m (a + 1) s
  end.

Lemma cstr_ext m m' s : ∀ a, (∀ x, a ≤ x ≤ a + Z.of_nat (length s) → m' x = m x) → cstr m a s → cstr m' a s.
Proof.
  induction s as [|c s IH]; intros a He; simpl in *.
  - rewrite He by lia. done.
  - intros (? & ? & Hs). rewrite He by lia. split_and!; try done; try lia. apply IH; [|done]. intros x Hx. apply He. lia.
Qed.

Lemma cstr_end m s : ∀ a, cstr m a s → m (a + Z.of_nat (length s)) = 0.
Proof.
  induction s as [|c s IH]; intros a Hs; simpl in *; [by rewrite Z.add_0_r|]. destruct Hs as (_ & _ & Hs).
  rewrite <-(IH _ Hs). f_equal. lia.
Qed.

Lemma cstr_drop m s : ∀ a k, (k ≤ length s)%nat → cstr m a s → cstr m (a + Z.of_nat k) (drop k s).
Proof.
  induction s as [|c s IH]; intros a [|k] Hk Hs; simpl in Hk; try lia; try (by rewrite Z.add_0_r).
  destruct Hs as (_ & _ & Hs). replace (a + Z.of_nat (S k)) with (a + 1 + Z.of_nat k) by lia. apply IH; [lia|done].
Qed.

(** A string that is cut off by a zero. *)
Lemma cstr_take m m' s : ∀ a k, (k ≤ length s)%nat → cstr m a s →
  (∀ x, a ≤ x < a + Z.of_nat k → m' x = m x) → m' (a + Z.of_nat k) = 0 → cstr m' a (take k s).
Proof.
  induction s as [|c s IH]; intros a [|k] Hk Hs He H0; simpl in Hk; try lia; try (by rewrite Z.add_0_r in H0).
  destruct Hs as (? & ? & Hs). simpl. rewrite He by lia. split; [done|]. split; [done|]. apply IH; [lia|done| |].
  - intros x Hx. apply He. lia.
  - rewrite <-H0. f_equal. lia.
Qed.

Lemma cstr_app m s t : ∀ a, cstr m a (s ++ t) → cstr m (a + Z.of_nat (length s)) t.
Proof. intros a Hs. pose proof (cstr_drop m (s ++ t) a (length s)) as H. rewrite drop_app_length in H. apply H; [rewrite length_app; lia|done]. Qed.

Lemma cstr_bytes m s : ∀ a, cstr m a s → Forall (λ c, 0 < c < 256) s.
Proof. induction s as [|c s IH]; intros a Hs; [done|]. destruct Hs as (? & _ & ?). constructor; [done|by eapply IH]. Qed.

Lemma cstr_head m a s : cstr m a s → m a = match s with [] => 0 | c :: _ => c end.
Proof. destruct s; [done|]. by intros (_ & ? & _). Qed.

(** There is one string at an address. *)
Lemma cstr_inj m s : ∀ t a, cstr m a s → cstr m a t → s = t.
Proof.
  induction s as [|c s IH]; intros [|d t] a Hs Ht; try done; simpl in *.
  - destruct Ht as (? & ? & _). lia.
  - destruct Hs as (? & ? & _). lia.
  - destruct Hs as (_ & <- & Hs), Ht as (_ & <- & Ht). f_equal. by eapply IH.
Qed.

Lemma strlen_loop_run m s : ∀ a fuel, cstr m a s → (length s ≤ fuel)%nat →
  strlen_loop fuel a m = Ok (a + Z.of_nat (length s), m).
Proof.
  induction s as [|c s IH]; intros a fuel Hs Hf; simpl in *.
  - destruct fuel; cbn [strlen_loop]; erewrite (bind_Ok (load _)) by done; rewrite Hs, Z.add_0_r; done.
  - destruct Hs as (Hc & Ha & Hs). destruct fuel as [|fuel]; [lia|]. cbn [strlen_loop]. erewrite (bind_Ok (load _)) by done.
    rewrite Ha, (proj2 (Z.eqb_neq c 0)) by lia. cbn [negb]. rewrite (IH _ _ Hs) by lia. do 2 f_equal. lia.
Qed.

Lemma strlen_run m a s fuel : cstr m a s → a ≠ NULL → (length s ≤ fuel)%nat → strlen fuel a m = Ok (Z.of_nat (length s), m).
Proof.
  intros Hs Ha Hf. unfold strlen. rewrite (proj2 (Z.eqb_neq a NULL)) by done. rewrite (bind_Ok (ASSERT _) _ m tt m) by done.
  rewrite (bind_Ok _ _ _ _ _ (strlen_loop_run m s a fuel Hs Hf)). unfold ret. do 2 f_equal. lia.
Qed.

Lemma strnlen_run m a s maxlen fuel : cstr m a s → 0 ≤ maxlen → (length s ≤ fuel)%nat →
  strnlen fuel a maxlen m = Ok (Z.min (Z.of_nat (length s)) maxlen, m).
Proof.
  intros Hs Hm Hf. unfold strnlen. assert (∀ fuel k, (k ≤ length s)%nat → Z.of_nat k ≤ maxlen → (length s - k ≤ fuel)%nat →
    strnlen_loop fuel a maxlen (Z.of_nat k) m = Ok (Z.min (Z.of_nat (length s)) maxlen, m)) as H; [|by apply (H fuel O); lia].
  clear fuel Hf. induction fuel as [|fuel IH]; intros k Hk Hkm Hf; cbn [strnlen_loop]; erewrite (bind_Ok (load _)) by done.
  - assert (k = length s) as -> by lia. rewrite (cstr_end _ _ _ Hs). cbn [Z.eqb negb andb]. unfold ret. do 2 f_equal. lia.
  - destruct (decide (k = length s)) as [->|Hne].
    { rewrite (cstr_end _ _ _ Hs). cbn [Z.eqb negb andb]. unfold ret. do 2 f_equal. lia. }
    pose proof (cstr_drop m s a k Hk Hs) as Hd. destruct (drop k s) as [|c d] eqn:E; [apply (f_equal length) in E; rewrite length_drop in E; simpl in E; lia|].
    destruct Hd as (Hc & -> & _). rewrite (proj2 (Z.eqb_neq c 0)) by lia. cbn [negb andb].
    destruct (Z.ltb_spec (Z.of_nat k) maxlen).
    + replace (Z.of_nat k + 1) with (Z.of_nat (S k)) by lia. apply IH; lia.
    + unfold ret. do 2 f_equal. lia.
Qed.

Lemma strchr_loop_run m c s : ∀ a fuel, cstr m a s → 0 < a → (length s ≤ fuel)%nat →
  ∃ p, strchr_loop fuel a c m = Ok (p, m) ∧ (p = NULL ↔ c ≠ 0 ∧ c ∉ s) ∧
    (p ≠ NULL → a ≤ p ≤ a + Z.of_nat (length s) ∧ m p = c ∧ c ∉ take (Z.to_nat (p - a)) s).
Proof.
  induction s as [|x s IH]; intros a fuel Hs Ha Hf; simpl in *.
  - assert (strchr_loop fuel a c m = Ok (if 0 =? c then a else NULL, m)) as ->.
    { destruct fuel; cbn [strchr_loop]; erewrite (bind_Ok (load _)) by done; rewrite Hs; by destruct (0 =? c). }
    eexists. split; [done|]. unfold NULL. destruct (Z.eqb_spec 0 c) as [<-|Hne].
    + split; [split; [lia|by intros [? _]]|]. intros _. split; [lia|]. split; [done|]. rewrite take_nil. apply not_elem_of_nil.
    + split; [|done]. split; [|done]. intros _. split; [by intros ->|]. apply not_elem_of_nil.
  - destruct Hs as (Hx & Hax & Hs). destruct fuel as [|fuel]; [lia|]. cbn [strchr_loop]. erewrite (bind_Ok (load _)) by done.
    rewrite Hax. destruct (Z.eqb_spec x c) as [->|Hne].
    + exists a. split; [done|]. unfold NULL. split; [split; [lia|set_solver]|]. intros _. split; [lia|]. split; [done|].
      rewrite Z.sub_diag. apply not_elem_of_nil.
    + rewrite (proj2 (Z.eqb_neq x 0)) by lia. destruct (IH (a + 1) fuel Hs ltac:(lia) ltac:(lia)) as (p & E & Hp & Hq).
      exists p. split; [done|]. split; [rewrite Hp; set_solver|]. intros HN. destruct (Hq HN) as (? & ? & Hnot). split; [lia|]. split; [done|].
      replace (Z.to_nat (p - a)) with (S (Z.to_nat (p - (a + 1)))) by lia. simpl. set_solver.
Qed.

Lemma strchr_run m a s c fuel : cstr m a s → 0 < a → (length s ≤ fuel)%nat → in_u 8 c →
  ∃ p, strchr fuel a c m = Ok (p, m) ∧ (p = NULL ↔ c ≠ 0 ∧ c ∉ s) ∧
    (p ≠ NULL → a ≤ p ≤ a + Z.of_nat (length s) ∧ m p = c ∧ c ∉ take (Z.to_nat (p - a)) s).
Proof.
  intros Hs Ha Hf Hc. unfold strchr. rewrite (proj2 (Z.eqb_neq a NULL)) by (unfold NULL; lia).
  rewrite (bind_Ok (ASSERT _) _ m tt m) by done. rewrite uwrap_id by done. by apply strchr_loop_run.
Qed.

(** ** Comparisons *)

Lemma memcmp_loop_run m n : ∀ a b, ∃ r, memcmp_loop n a b m = Ok (r, m) ∧
  (r = 0 ↔ ∀ k, 0 ≤ k < Z.of_nat n → m (a + k) = m (b + k)).
Proof.
  induction n as [|n IH]; intros a b; cbn [memcmp_loop]; [exists 0; split; [done|]; split; [intros _ k Hk; lia|done]|].
  do 2 erewrite (bind_Ok (load _)) by done. destruct (Z.eqb_spec (m a) (m b)) as [E|Hne]; cbn [negb].
  - destruct (IH (a + 1) (b + 1)) as (r & Er & Hr). exists r. split; [done|]. rewrite Hr. split; intros H k Hk.
    + destruct (decide (k = 0)) as [->|]; [by rewrite !Z.add_0_r|].
      replace (a + k) with (a + 1 + (k - 1)) by lia. replace (b + k) with (b + 1 + (k - 1)) by lia. apply H. lia.
    + replace (a + 1 + k) with (a + (k + 1)) by lia. replace (b + 1 + k) with (b + (k + 1)) by lia. apply H. lia.
  - eexists. split; [done|]. split; [by destruct (m b <? m a)|]. intros H. specialize (H 0 ltac:(lia)). by rewrite !Z.add_0_r in H.
Qed.

Lemma memcmp_run m a b n : a ≠ NULL → b ≠ NULL → 0 ≤ n →
  ∃ r, memcmp a b n m = Ok (r, m) ∧ (r = 0 ↔ ∀ k, 0 ≤ k < n → m (a + k) = m (b + k)).
Proof.
  intros Ha Hb Hn. unfold memcmp. rewrite (proj2 (Z.eqb_neq a NULL)), (proj2 (Z.eqb_neq b NULL)) by done.
  do 2 rewrite (bind_Ok (ASSERT _) _ m tt m) by done. destruct (memcmp_loop_run m (Z.to_nat n) a b) as (r & E & Hr).
  rewrite Z2Nat.id in Hr by done. by exists r.
Qed.

(** Comparing the first characters of [s] with all of [t]. *)
Lemma same_prefix m t : ∀ a b s, cstr m a s → cstr m b t →
  (∀ k, 0 ≤ k < Z.of_nat (length t) → m (a + k) = m (b + k)) ↔ take (length t) s = t.
Proof.
  induction t as [|c t IH]; intros a b s Hs Ht; [split; [done|]; intros _ k Hk; simpl in Hk; lia|]. destruct Ht as (Hc & Hb & Ht). destruct s as [|d s].
  - simpl in Hs. split; [|done]. intros H. specialize (H 0 ltac:(simpl; lia)). rewrite !Z.add_0_r, Hs, Hb in H. lia.
  - destruct Hs as (Hd & Ha & Hs). cbn [length take]. specialize (IH (a + 1) (b + 1) s Hs Ht). split.
    + intros H. pose proof (H 0 ltac:(lia)) as H0. rewrite !Z.add_0_r, Ha, Hb in H0. f_equal; [done|]. apply IH. intros k Hk.
      replace (a + 1 + k) with (a + (k + 1)) by lia. replace (b + 1 + k) with (b + (k + 1)) by lia. apply H. lia.
    + intros [= -> H] k Hk. destruct (decide (k = 0)) as [->|]; [by rewrite !Z.add_0_r, Ha, Hb|].
      replace (a + k) with (a + 1 + (k - 1)) by lia. replace (b + k) with (b + 1 + (k - 1)) by lia. apply IH; [done|lia].
Qed.

Lemma strcmp_loop_run m s : ∀ t a b fuel, cstr m a s → cstr m b t → (length s ≤ fuel)%nat →
  ∃ r, strcmp_loop fuel a b m = Ok (r, m) ∧ (r = 0 ↔ s = t).
Proof.
  induction s as [|c s IH]; intros t a b fuel Hs Ht Hf.
  - assert (strcmp_loop fuel a b m = Ok (if 0 <? m b then -1 else if m b <? 0 then 1 else 0, m)) as ->.
    { simpl in Hs. destruct fuel; cbn [strcmp_loop]; do 2 erewrite (bind_Ok (load _)) by done; rewrite Hs; done. }
    eexists. split; [done|]. rewrite (cstr_head _ _ _ Ht). destruct t as [|d t]; [done|]. destruct Ht as (? & _). by rewrite (proj2 (Z.ltb_lt 0 d)) by lia.
  - destruct Hs as (Hc & Ha & Hs). destruct fuel as [|fuel]; [simpl in Hf; lia|]. cbn [strcmp_loop]. do 2 erewrite (bind_Ok (load _)) by done.
    rewrite Ha, (cstr_head _ _ _ Ht), (proj2 (Z.eqb_neq c 0)) by lia. cbn [negb andb]. destruct t as [|d t].
    + rewrite (proj2 (Z.eqb_neq c 0)) by lia. eexists. split; [done|]. rewrite (proj2 (Z.ltb_ge c 0)), (proj2 (Z.ltb_lt 0 c)) by lia. done.
    + destruct Ht as (Hd & Hb & Ht). destruct (Z.eqb_spec c d) as [->|Hne].
      * destruct (IH t (a + 1) (b + 1) fuel Hs Ht) as (r & E & Hr); [simpl in Hf; lia|]. exists r. split; [done|]. rewrite Hr. split; [by intros ->|by intros [= ->]].
      * eexists. split; [done|]. destruct (Z.ltb_spec c d); [by split; [|intros [= ?]]|]. rewrite (proj2 (Z.ltb_lt d c)) by lia. by split; [|intros [= ?]].
Qed.

Lemma strcmp_run m a b s t fuel : cstr m a s → cstr m b t → a ≠ NULL → b ≠ NULL → (length s ≤ fuel)%nat →
  ∃ r, strcmp fuel a b m = Ok (r, m) ∧ (r = 0 ↔ s = t).
Proof.
  intros Hs Ht Ha Hb Hf. unfold strcmp. rewrite (proj2 (Z.eqb_neq a NULL)), (proj2 (Z.eqb_neq b NULL)) by done.
  do 2 rewrite (bind_Ok (ASSERT _) _ m tt m) by done. by apply strcmp_loop_run.
Qed.

Lemma memset_run m dst v n : bytes_ok m → dst ≠ NULL → 0 ≤ n →
  ∃ m', memset dst v n m = Ok (dst, m') ∧ bytes_ok m' ∧ ∀ x, m' x = if bool_decide (dst ≤ x < dst + n) then u8 v else m x.
Proof.
  intros Hm Hd Hn. unfold memset. rewrite (proj2 (Z.eqb_neq dst NULL)) by done. rewrite (bind_Ok (ASSERT _) _ m tt m) by done.
  assert (∀ n dst m, bytes_ok m → ∃ m', memset_loop n dst v m = Ok (tt, m') ∧ bytes_ok m' ∧
    ∀ x, m' x = if bool_decide (dst ≤ x < dst + Z.of_nat n) then u8 v else m x) as H.
  { clear. induction n as [|n IH]; intros dst m Hm; cbn [memset_loop].
    - exists m. split; [done|]. split; [done|]. intros x. by rewrite bool_decide_eq_false_2 by lia.
    - erewrite (bind_Ok (store _ _)) by done. destruct (IH (dst + 1) _ (store_ok m dst v Hm)) as (m' & E & Hm' & Hx).
      exists m'. split; [done|]. split; [done|]. intros x. rewrite Hx. destruct (Z.eqb_spec x dst) as [->|].
      + by rewrite bool_decide_eq_false_2, bool_decide_eq_true_2 by lia.
      + repeat case_bool_decide; try done; lia. }
  destruct (H (Z.to_nat n) dst m Hm) as (m' & E & Hm' & Hx). rewrite Z2Nat.id in Hx by done. rewrite (bind_Ok _ _ _ _ _ E). by exists m'.
Qed.

(** ** Tokens *)

(** The words of [s]: its longest parts without a delimiter; [cur] is the part before [s]. *)
Fixpoint words_from (ds cur s : list Z) : list (list Z) :=
  match s with
  | [] => match cur with [] => [] | _ => [cur] end
  | c :: s => if bool_decide (c ∈ ds) then match cur with [] => words_from ds [] s | _ => cur :: words_from ds [] s end
              else words_from ds (cur ++ [c]) s
  end.
Definition words (ds s : list Z) : list (list Z) := words_from ds [] s.

(** The characters before and from the first delimiter. *)
Fixpoint span (ds s : list Z) : list Z * list Z :=
  match s with
  | [] => ([], [])
  | c :: s' => if bool_decide (c ∈ ds) then ([], s) else let '(t, r) := span ds s' in (c :: t, r)
  end.

(** The string without the delimiters at its start. *)
Fixpoint ltrim (ds s : list Z) : list Z :=
  match s with [] => [] | c :: s' => if bool_decide (c ∈ ds) then ltrim ds s' else s end.

Lemma words_ltrim ds s : words ds s = words ds (ltrim ds s).
Proof.
  induction s as [|c s IH]; [done|]. unfold words in *. simpl. case_bool_decide as Hc; [done|]. simpl. by rewrite bool_decide_eq_false_2.
Qed.

Lemma words_span ds s : ∀ cur, words_from ds cur s =
  let '(t, r) := span ds s in
  match cur ++ t with [] => words_from ds [] r | w => w :: words ds (tail r) end.
Proof.
  induction s as [|c s IH]; intros cur; simpl.
  - rewrite app_nil_r. by destruct cur.
  - case_bool_decide as Hc; [rewrite app_nil_r; simpl; rewrite bool_decide_eq_true_2 by done; by destruct cur|].
    rewrite IH. destruct (span ds s) as [t r]. rewrite <-app_assoc. simpl. done.
Qed.

(** What is trimmed off are delimiters, and what comes then is not one. *)
Lemma ltrim_suffix ds s : ∃ pre, s = pre ++ ltrim ds s ∧ Forall (λ c, c ∈ ds) pre ∧
  match ltrim ds s with [] => True | c :: _ => c ∉ ds end.
Proof.
  induction s as [|c s (pre & E & Hp & Hl)]; [by exists []|]. simpl. case_bool_decide as Hc.
  - exists (c :: pre). split; [by rewrite E at 1|]. split; [by constructor|done].
  - exists []. done.
Qed.

Lemma span_parts ds s : let '(t, r) := span ds s in s = t ++ r ∧ Forall (λ c, c ∉ ds) t ∧
  match r with [] => True | c :: _ => c ∈ ds end.
Proof.
  induction s as [|c s IH]; [done|]. simpl. case_bool_decide as Hc; [by split_and!|]. destruct (span ds s) as [t r].
  destruct IH as (-> & Ht & Hr). split; [done|]. split; [by constructor|done].
Qed.

Section Tokens.
Context (m : memory) (d : Z) (ds : list Z) (fuel : nat).
Context (Hd : cstr m d ds) (Hd0 : 0 < d) (Hfuel : (length ds ≤ fuel)%nat) (Hm : bytes_ok m).

Lemma delim_run x : ∃ p, strchr fuel d (m x) m = Ok (p, m) ∧ (p = NULL ↔ m x ≠ 0 ∧ m x ∉ ds).
Proof. destruct (strchr_run m d ds (m x) fuel Hd Hd0 Hfuel (Hm x)) as (p & E & Hp & _). eauto. Qed.

Lemma skip_delims_run pre s : ∀ a n, cstr m a (pre ++ s) → Forall (λ c, c ∈ ds) pre →
  match s with [] => True | c :: _ => c ∉ ds end → (length pre ≤ n)%nat →
  skip_delims n fuel a d m = Ok ((bool_decide (s = []), a + Z.of_nat (length pre)), m).
Proof.
  induction pre as [|c pre IH]; intros a n Hs Hp Hn Hf.
  - simpl in Hs. destruct (delim_run a) as (p & E & HpN). rewrite (cstr_head _ _ _ Hs) in E, HpN.
    assert (skip_delims n fuel a d m = (if negb (p =? NULL) then if m a =? 0 then ret (true, a) else
      match n with O => out_of_fuel | S n => skip_delims n fuel (a + 1) d end else ret (false, a)) m) as ->.
    { destruct n; cbn [skip_delims]; erewrite (bind_Ok (load _)) by done; rewrite (cstr_head _ _ _ Hs);
        by rewrite (bind_Ok _ _ _ _ _ E). }
    rewrite (cstr_head _ _ _ Hs). simpl. rewrite Z.add_0_r. destruct s as [|c s].
    + destruct (Z.eqb_spec p NULL) as [->|]; [|done]. by destruct (proj1 HpN eq_refl).
    + destruct Hs as (Hc & _). rewrite (proj2 (Z.eqb_eq p NULL)); [done|]. apply HpN. split; [lia|done].
  - destruct Hs as (Hc & Ha & Hs). apply list.Forall_cons in Hp as [Hcd Hp]. destruct n as [|n]; [simpl in Hf; lia|].
    cbn [skip_delims]. destruct (delim_run a) as (p & E & HpN). erewrite (bind_Ok (load _)) by done. rewrite (bind_Ok _ _ _ _ _ E).
    rewrite Ha in HpN |- *. rewrite (proj2 (Z.eqb_neq p NULL)) by (intros H; by apply HpN in H as [_ ?]). cbn [negb].
    rewrite (proj2 (Z.eqb_neq c 0)) by lia. rewrite (IH _ _ Hs Hp Hn) by (simpl in Hf; lia). do 3 f_equal. simpl. lia.
Qed.

Lemma skip_token_run t r : ∀ a n, cstr m a (t ++ r) → Forall (λ c, c ∉ ds) t →
  match r with [] => True | c :: _ => c ∈ ds end → (length t ≤ n)%nat →
  skip_token n fuel a d m = Ok (a + Z.of_nat (length t), m).
Proof.
  induction t as [|c t IH]; intros a n Hs Ht Hr Hf.
  - simpl in Hs. destruct (delim_run a) as (p & E & HpN). rewrite (cstr_head _ _ _ Hs) in E, HpN.
    assert (skip_token n fuel a d m = (if p =? NULL then
      match n with O => out_of_fuel | S n => skip_token n fuel (a + 1) d end else ret a) m) as ->.
    { destruct n; cbn [skip_token]; erewrite (bind_Ok (load _)) by done; rewrite (cstr_head _ _ _ Hs);
        by rewrite (bind_Ok _ _ _ _ _ E). }
    simpl. rewrite Z.add_0_r. rewrite (proj2 (Z.eqb_neq p NULL)); [done|]. intros H. apply HpN in H as [? ?]. by destruct r.
  - destruct Hs as (Hc & Ha & Hs). apply list.Forall_cons in Ht as [Hcd Ht]. destruct n as [|n]; [simpl in Hf; lia|].
    cbn [skip_token]. destruct (delim_run a) as (p & E & HpN). erewrite (bind_Ok (load _)) by done. rewrite (bind_Ok _ _ _ _ _ E).
    rewrite Ha in HpN. rewrite (proj2 (Z.eqb_eq p NULL)) by (apply HpN; split; [lia|done]).
    rewrite (IH _ _ Hs Ht Hr) by (simpl in Hf; lia). do 2 f_equal. simpl. lia.
Qed.
End Tokens.

(** What a call that finds the token [tok] does: the rest of the string is at [save']. *)
Record token_found (m m' : memory) (a : Z) (s ds tok rest : list Z) (t save' : Z) : Prop := {
  tf_words : words ds s = tok :: words ds rest;
  tf_nonempty : tok ≠ [];
  tf_token : cstr m' t tok;
  tf_rest : cstr m' save' rest;
  tf_place : a ≤ t ∧ t + Z.of_nat (length tok) ≤ save' ∧ save' + Z.of_nat (length rest) = a + Z.of_nat (length s);
  tf_frame x : ¬ t + Z.of_nat (length tok) ≤ x < save' → m' x = m x;
  tf_bytes : bytes_ok m' }.

(** The second half of [strtok_r], from a character that is not a delimiter. *)
Lemma found_run m a pre s d ds fuel : let t := a + Z.of_nat (length pre) in
  bytes_ok m → cstr m d ds → 0 < d → (length ds ≤ fuel)%nat → cstr m t s → s ≠ [] →
  match s with [] => True | c :: _ => c ∉ ds end → (length s ≤ fuel)%nat → ltrim ds (pre ++ s) = s →
  ∃ tok rest save' m',
    bind (skip_token fuel fuel t d) (λ e, bind (load e) (λ x,
      if negb (x =? 0) then bind (store e 0) (λ _, ret (t, e + 1)) else ret (t, e))) m = Ok ((t, save'), m') ∧
    token_found m m' a (pre ++ s) ds tok rest t save'.
Proof.
  intros t Hm Hds Hd Hf Hs Hne Hh Hf' Htrim. pose proof (span_parts ds s) as Hsp. pose proof (words_span ds s []) as Hw.
  destruct (span ds s) as [tok r] eqn:Esp. destruct Hsp as (-> & Htok & Hr). simpl in Hw.
  assert (tok ≠ []) as Htne by (intros ->; by destruct r).
  rewrite length_app in Hf'. pose proof (cstr_app m tok r t Hs) as Hr'. set (e := t + Z.of_nat (length tok)) in *.
  rewrite (bind_Ok _ _ _ _ _ (skip_token_run m d ds fuel Hds Hd Hf Hm tok r t fuel Hs Htok Hr ltac:(lia))). fold e.
  erewrite (bind_Ok (load _)) by done. rewrite (cstr_head _ _ _ Hr').
  assert (words ds (pre ++ tok ++ r) = tok :: words ds (tail r)) as Hwords.
  { rewrite words_ltrim, Htrim. unfold words at 1. rewrite Hw. by destruct tok. }
  exists tok, (tail r). destruct r as [|c r].
  - exists e, m. split; [done|]. split; try done; [by rewrite app_nil_r in Hs|]. simpl. rewrite !length_app. simpl. unfold e, t. lia.
  - destruct Hr' as (Hc & _ & Hr'). rewrite (proj2 (Z.eqb_neq c 0)) by lia. cbn [negb].
    erewrite (bind_Ok (store _ _)) by done. eexists _, _. split; [done|]. split; try done.
    + pose proof (cstr_take m (λ x, if x =? e then u8 0 else m x) (tok ++ c :: r) t (length tok)) as H.
      rewrite take_app_length in H. apply H; [rewrite length_app; lia|done| |by rewrite Z.eqb_refl].
      intros x Hx. by rewrite (proj2 (Z.eqb_neq x e)) by (unfold e; lia).
    + eapply cstr_ext; [|done]. intros x Hx. simpl. by rewrite (proj2 (Z.eqb_neq x e)) by lia.
    + simpl. rewrite !length_app. simpl. unfold e, t. lia.
    + intros x Hx. by rewrite (proj2 (Z.eqb_neq x e)) by (unfold e in *; lia).
    + intros x. destruct (x =? e); [done|apply Hm].
Qed.

Lemma strtok_r_run m a s d ds fuel s0 save : bytes_ok m → cstr m a s → cstr m d ds → 0 < a → 0 < d →
  a = (if s0 =? NULL then save else s0) → (length s ≤ fuel)%nat → (length ds ≤ fuel)%nat →
  (words ds s = [] ∧ strtok_r fuel s0 d save m = Ok ((NULL, a + Z.of_nat (length s)), m)) ∨
  ∃ tok rest t save' m', strtok_r fuel s0 d save m = Ok ((t, save'), m') ∧ token_found m m' a s ds tok rest t save'.
Proof.
  intros Hm Hs Hds Ha Hd Ea Hf1 Hf2. unfold strtok_r. rewrite (proj2 (Z.eqb_neq d NULL)) by (unfold NULL; lia).
  rewrite (bind_Ok (ASSERT _) _ m tt m) by done. rewrite <-Ea. rewrite (proj2 (Z.eqb_neq a NULL)) by (unfold NULL; lia).
  rewrite (bind_Ok (ASSERT _) _ m tt m) by done.
  destruct (ltrim_suffix ds s) as (pre & Es & Hpre & Hl). pose proof (words_ltrim ds s) as Hw.
  remember (ltrim ds s) as s1 eqn:E1. subst s. rewrite length_app in Hf1.
  rewrite (bind_Ok _ _ _ _ _ (skip_delims_run m d ds fuel Hds Hd Hf2 Hm pre s1 a fuel Hs Hpre Hl ltac:(lia))).
  case_bool_decide as H1; [left|right].
  { subst s1. split; [done|]. by rewrite app_nil_r. }
  pose proof (cstr_app m pre s1 a Hs) as Ht.
  destruct (found_run m a pre s1 d ds fuel Hm Hds Hd Hf2 Ht H1 Hl ltac:(lia) (eq_sym E1)) as (tok & rest & save' & m' & E & H).
  by exists tok, rest, (a + Z.of_nat (length pre)), save', m'.
Qed.

(** A call at a token: the token is where the call starts, and the delimiter after it is overwritten. *)
Lemma strtok_r_token m a tok r d ds fuel s0 save : bytes_ok m → cstr m a (tok ++ r) → cstr m d ds → 0 < a → 0 < d →
  a = (if s0 =? NULL then save else s0) → tok ≠ [] → Forall (λ c, c ∉ ds) tok → match r with [] => True | c :: _ => c ∈ ds end →
  (length tok ≤ fuel)%nat → (length ds ≤ fuel)%nat →
  let e := a + Z.of_nat (length tok) in
  strtok_r fuel s0 d save m = match r with [] => Ok ((a, e), m) | _ => Ok ((a, e + 1), λ x, if x =? e then u8 0 else m x) end.
Proof.
  intros Hm Hs Hds Ha Hd Ea Hne Ht Hr Hf1 Hf2 e. unfold strtok_r. rewrite (proj2 (Z.eqb_neq d NULL)) by (unfold NULL; lia).
  rewrite (bind_Ok (ASSERT _) _ m tt m) by done. rewrite <-Ea. rewrite (proj2 (Z.eqb_neq a NULL)) by (unfold NULL; lia).
  rewrite (bind_Ok (ASSERT _) _ m tt m) by done.
  rewrite (bind_Ok _ _ _ _ _ (skip_delims_run m d ds fuel Hds Hd Hf2 Hm [] (tok ++ r) a fuel Hs ltac:(done)
    ltac:(destruct tok; [done|]; by apply list.Forall_cons in Ht as [? _]) ltac:(simpl; lia))).
  rewrite bool_decide_eq_false_2 by (by destruct tok). simpl Z.of_nat. rewrite Z.add_0_r.
  rewrite (bind_Ok _ _ _ _ _ (skip_token_run m d ds fuel Hds Hd Hf2 Hm tok r a fuel Hs Ht Hr Hf1)). fold e.
  erewrite (bind_Ok (load _)) by done. pose proof (cstr_app m tok r a Hs) as Hr'. fold e in Hr'. rewrite (cstr_head _ _ _ Hr').
  destruct r as [|c r]; [done|]. destruct Hr' as (Hc & _). by rewrite (proj2 (Z.eqb_neq c 0)) by lia.
Qed.

Lemma strtok_r_end m a d ds fuel s0 save : bytes_ok m → m a = 0 → cstr m d ds → 0 < a → 0 < d →
  a = (if s0 =? NULL then save else s0) → (length ds ≤ fuel)%nat → strtok_r fuel s0 d save m = Ok ((NULL, a), m).
Proof.
  intros Hm Hs Hds Ha Hd Ea Hf. destruct (strtok_r_run m a [] d ds fuel s0 save) as [[_ E]|(tok & rest & t & save' & m' & _ & H)]; try done.
  - simpl; lia.
  - rewrite E. do 3 f_equal. simpl. lia.
  - destruct H as [H _ _ _ _ _ _]. done.
Qed.

(** One call of [strtok_r] returns the first of the remaining words: when the string at the
    saved position has no word left the call returns a null pointer, points the saved position
    at the end of the string and writes nothing; otherwise it returns a pointer to the first
    word, made a string of its own by the zero written over the delimiter after it, and the
    saved position is a string whose words are exactly the words that follow. No other byte
    of memory changes, so the calls of a whole loop return the words of the string in order. *)
Theorem strtok_r_correct m a s d ds fuel s0 save : bytes_ok m → cstr m a s → cstr m d ds → 0 < a → 0 < d →
  a = (if s0 =? NULL then save else s0) → (length s ≤ fuel)%nat → (length ds ≤ fuel)%nat →
  (words ds s = [] ∧ strtok_r fuel s0 d save m = Ok ((NULL, a + Z.of_nat (length s)), m)) ∨
  ∃ tok rest t save' m', strtok_r fuel s0 d save m = Ok ((t, save'), m') ∧ token_found m m' a s ds tok rest t save'.
Proof. apply strtok_r_run. Qed.

(** The memory with the string " a b" at 100 and the delimiters " " at 200. *)
Definition sample_text : memory := λ x,
  if x =? 100 then 32 else if x =? 101 then 97 else if x =? 102 then 32 else if x =? 103 then 98 else if x =? 200 then 32 else 0.

Lemma sample_text_ok : bytes_ok sample_text.
Proof. intros x. unfold sample_text. repeat case_match; done. Qed.

Lemma strtok_r_correct_witness : ∃ tok rest t save' m',
  strtok_r 4 100 200 0 sample_text = Ok ((t, save'), m') ∧ token_found sample_text m' 100 [32; 97; 32; 98] [32] tok rest t save'.
Proof.
  destruct (strtok_r_correct sample_text 100 [32; 97; 32; 98] 200 [32] 4 100 0 sample_text_ok) as [[H _]|H].
  - by vm_compute.
  - by vm_compute.
  - lia.
  - lia.
  - done.
  - simpl; lia.
  - simpl; lia.
  - discriminate H.
  - exact H.
Defined.

(** ** Bounded copies *)

(** A string copied elsewhere and cut off after [k] characters. *)
Lemma cstr_copied m m' dst src s k : (k ≤ length s)%nat → cstr m src s →
  (∀ x, dst ≤ x < dst + Z.of_nat k → m' x = m (src + (x - dst))) → m' (dst + Z.of_nat k) = 0 → cstr m' dst (take k s).
Proof.
  revert dst src k. induction s as [|c s IH]; intros dst src [|k] Hk Hs He H0; simpl in Hk; try lia; try (by rewrite Z.add_0_r in H0).
  destruct Hs as (? & Ha & Hs). simpl. rewrite He, Z.sub_diag, Z.add_0_r by lia. split; [done|]. split; [done|].
  apply (IH _ (src + 1)); [lia|done| |].
  - intros x Hx. rewrite He by lia. f_equal. lia.
  - rewrite <-H0. f_equal. lia.
Qed.

(** Memory outside [lo, hi) is as it was. *)
Definition same_outside (m m' : memory) (lo hi : Z) : Prop := ∀ x, ¬ lo ≤ x < hi → m' x = m x.

(** [k] characters of the string at [src] followed by a zero, written to [dst]. *)
Lemma copy_cut_run m dst src s k : bytes_ok m → cstr m src s → 0 ≤ k ≤ Z.of_nat (length s) → dst ≠ NULL → src ≠ NULL →
  dst + k < src ∨ src + Z.of_nat (length s) < dst →
  ∃ m', bind (memcpy dst src k) (λ _, store (dst + k) 0) m = Ok (tt, m') ∧ cstr m' dst (take (Z.to_nat k) s) ∧
    same_outside m m' dst (dst + k + 1) ∧ bytes_ok m'.
Proof.
  intros Hm Hs Hk Hd Hsrc Ho. destruct (memcpy_run dst src k m Hm) as (m1 & E & Hc); [lia|done|done|lia|].
  rewrite (bind_Ok _ _ _ _ _ E). exists (λ x, if x =? dst + k then u8 0 else m1 x). split; [done|]. split_and!.
  - apply (cstr_copied m _ dst src); [lia|done| |rewrite Z2Nat.id, Z.eqb_refl by lia; done].
    intros x Hx. rewrite (proj2 (Z.eqb_neq x _)), Hc, bool_decide_eq_true_2 by lia. done.
  - intros x Hx. rewrite (proj2 (Z.eqb_neq x _)), Hc, bool_decide_eq_false_2 by lia. done.
  - apply store_ok. by eapply copied_ok.
Qed.

Lemma strlcpy_run m dst src s size fuel : bytes_ok m → cstr m src s → dst ≠ NULL → src ≠ NULL → 0 ≤ size →
  dst + size ≤ src ∨ src + Z.of_nat (length s) < dst → (length s ≤ fuel)%nat →
  ∃ m', strlcpy fuel dst src size m = Ok (Z.of_nat (length s), m') ∧
    same_outside m m' dst (dst + Z.min size (Z.of_nat (length s) + 1)) ∧ bytes_ok m' ∧
    (0 < size → cstr m' dst (take (Z.to_nat (size - 1)) s)).
Proof.
  intros Hm Hs Hd Hsrc Hsz Ho Hf. unfold strlcpy. rewrite (proj2 (Z.eqb_neq dst NULL)), (proj2 (Z.eqb_neq src NULL)) by done.
  do 2 rewrite (bind_Ok (ASSERT _) _ m tt m) by done. rewrite (bind_Ok _ _ _ _ _ (strlen_run m src s fuel Hs Hsrc Hf)).
  destruct (Z.ltb_spec 0 size) as [Hp|Hp].
  - set (k := if Z.of_nat (length s) <? size - 1 then Z.of_nat (length s) else size - 1).
    assert (k = Z.of_nat (length s) ∧ k < size - 1 ∨ k = size - 1 ∧ k ≤ Z.of_nat (length s)) as Hk
      by (unfold k; destruct (Z.ltb_spec (Z.of_nat (length s)) (size - 1)); lia).
    destruct (copy_cut_run m dst src s k Hm Hs) as (m' & E & Hc & Hso & Hm'); [lia|done|done|lia|].
    rewrite (bind_Ok _ _ _ _ _ E). exists m'. split; [done|]. split; [intros x Hx; apply Hso; lia|]. split; [done|].
    intros _. destruct Hk as [[-> Hk]|[<- Hk]]; [|done]. rewrite Nat2Z.id, firstn_all in Hc. rewrite take_ge by lia. done.
  - exists m. split; [done|]. split; [done|]. split; [done|lia].
Qed.

(** [strlcpy] never writes outside the [size] bytes it is given nor more than the source
    with its zero, always leaves a string there when [size] is positive, namely the source cut
    off after [size - 1] characters, and returns the length of the source. *)
Theorem strlcpy_correct m dst src s size fuel : bytes_ok m → cstr m src s → dst ≠ NULL → src ≠ NULL → 0 ≤ size →
  dst + size ≤ src ∨ src + Z.of_nat (length s) < dst → (length s ≤ fuel)%nat →
  ∃ m', strlcpy fuel dst src size m = Ok (Z.of_nat (length s), m') ∧
    same_outside m m' dst (dst + Z.min size (Z.of_nat (length s) + 1)) ∧ bytes_ok m' ∧
    (0 < size → cstr m' dst (take (Z.to_nat (size - 1)) s)).
Proof. apply strlcpy_run. Qed.

Lemma strlcpy_correct_witness : ∃ m', strlcpy 4 300 100 3 sample_text = Ok (4, m') ∧ same_outside sample_text m' 300 (300 + 3) ∧ bytes_ok m' ∧
    (0 < 3 → cstr m' 300 [32; 97]).
Proof.
  apply (strlcpy_correct sample_text 300 100 [32; 97; 32; 98] 3 4 sample_text_ok); [by vm_compute|discriminate|discriminate|lia|right; simpl; lia|simpl; lia].
Defined.
