(* ===== verification/CStdlib.v ===== *)
(** * lib/stdlib.c: numbers from strings, heap sort, binary search

    [atoi], [qsort] and [sort], [bsearch] and [binary_search], over the memory of
    [CString].  A comparison function is a function of memory and the two pointers it
    is given; the argument [aux] it is passed is part of it.  [fuel] bounds the loops over
    strings, the array bounds the others. *)

From S2P Require Import Prelude FsState Palloc CString.

(** ** lib/ctype.h *)

Definition islower (c : Z) : bool := (97 <=? c) && (c <=? 122).
Definition isupper (c : Z) : bool := (65 <=? c) && (c <=? 90).
Definition isalpha (c : Z) : bool := islower c || isupper c.
Definition isdigit (c : Z) : bool := (48 <=? c) && (c <=? 57).
Definition isalnum (c : Z) : bool := isalpha c || isdigit c.
Definition isxdigit (c : Z) : bool :=
  isdigit c || ((97 <=? c) && (c <=? 102)) || ((65 <=? c) && (c <=? 70)).
Definition isspace (c : Z) : bool :=
  (c =? 32) || (c =? 12) || (c =? 10) || (c =? 13) || (c =? 9) || (c =? 11).
Definition isprint (c : Z) : bool := (32 <=? c) && (c <? 127).
Definition tolower (c : Z) : Z := if isupper c then c - 65 + 97 else c.
Definition toupper (c : Z) : Z := if islower c then c - 97 + 65 else c.

(** ** [atoi] *)

Fixpoint skip_spaces (fuel : nat) (s : Z) : B Z :=
  let! c := load s in
  if isspace c then match fuel with O => out_of_fuel | S n => skip_spaces n (s + 1) end else ret s.

Fixpoint digits_loop (fuel : nat) (s value : Z) : B Z :=
  let! c := load s in
  if isdigit c then
    match fuel with O => out_of_fuel | S n => digits_loop n (s + 1) (s32 (s32 (value * 10) - (c - 48))) end
  else ret value.

Definition atoi (fuel : nat) (s : Z) : B Z :=
  let! _ := ASSERT (negb (s =? NULL)) in
  let! s := skip_spaces fuel s in
  let! c := load s in
  let '(negative, s) := if c =? 43 then (false, s + 1) else if c =? 45 then (true, s + 1) else (false, s) in
  let! value := digits_loop fuel s 0 in
  ret (if negb negative then s32 (- value) else value).

(** ** Sorting *)

Section Compare.
Variable compare : memory → Z → Z → Z.

Fixpoint swap_loop (n : nat) (a b : Z) : B unit :=
  match n with
  | O => ret tt
  | S n =>
      let! t := load a in
      let! y := load b in
      let! _ := store a y in
      let! _ := store b t in
      swap_loop n (a + 1) (b + 1)
  end.

Definition do_swap (array a_idx b_idx size : Z) : B unit :=
  swap_loop (Z.to_nat size) (array + (a_idx - 1) * size) (array + (b_idx - 1) * size).

Definition do_compare (array a_idx b_idx size : Z) : B Z :=
  gets (λ m, compare m (array + (a_idx - 1) * size) (array + (b_idx - 1) * size)).

(** The index of the largest of the element [i] and its children. *)
Definition heap_max (array i cnt size : Z) : B Z :=
  let left := u32 (2 * i) in
  let right := u32 (2 * i + 1) in
  let max := i in
  let! max := (if left <=? cnt then let! c := do_compare array left max size in ret (if 0 <? c then left else max) else ret max) in
  if right <=? cnt then let! c := do_compare array right max size in ret (if 0 <? c then right else max) else ret max.

Fixpoint heapify (fuel : nat) (array i cnt size : Z) : B unit :=
  let! max := heap_max array i cnt size in
  if max =? i then ret tt
  else
    match fuel with
    | O => out_of_fuel
    | S n => let! _ := do_swap array i max size in heapify n array max cnt size
    end.

(** [i] counts down from [n] to 1. *)
Fixpoint build_loop (n : nat) (array cnt size : Z) : B unit :=
  match n with
  | O => ret tt
  | S n' => let! _ := heapify (Z.to_nat cnt) array (Z.of_nat n) cnt size in build_loop n' array cnt size
  end.

(** [i] counts down from [n + 1] to 2. *)
Fixpoint sort_loop (n : nat) (array size : Z) : B unit :=
  match n with
  | O => ret tt
  | S n' =>
      let i := Z.of_nat n + 1 in
      let! _ := do_swap array 1 i size in
      let! _ := heapify (Z.to_nat (i - 1)) array 1 (i - 1) size in
      sort_loop n' array size
  end.

Definition sort (array cnt size : Z) : B unit :=
  let! _ := ASSERT (negb (array =? NULL) || (cnt =? 0)) in
  let! _ := ASSERT (0 <? size) in
  let! _ := build_loop (Z.to_nat (cnt / 2)) array cnt size in
  sort_loop (Z.to_nat (cnt - 1)) array size.

(** ** Searching *)

Fixpoint search_loop (fuel : nat) (key first last size : Z) : B Z :=
  if first <? last then
    match fuel with
    | O => out_of_fuel
    | S n =>
        let range := (last - first) / size in
        let middle := first + (range / 2) * size in
        let! cmp := gets (λ m, compare m key middle) in
        if cmp <? 0 then search_loop n key first middle size
        else if 0 <? cmp then search_loop n key (middle + size) last size
        else ret middle
    end
  else ret NULL.

Definition binary_search (key array cnt size : Z) : B Z :=
  search_loop (Z.to_nat cnt) key array (array + size * cnt) size.

(** [compare_thunk] calls the function without [aux]. *)
Definition qsort (array cnt size : Z) : B unit := sort array cnt size.
Definition bsearch (key array cnt size : Z) : B Z := binary_search key array cnt size.
End Compare.
