(* ===== verification/CStdlibSpec.v ===== *)
(** * What lib/stdlib.c computes

    [sort] leaves a sorted permutation of the elements, [binary_search] finds a key in a
    sorted array, and [atoi] reads back every [int] in decimal. *)

From Stdlib Require Import Sorted.
From S2P Require Import Prelude FsState Palloc CString CStringSpec CStdlib.

(** ** Elements *)

Definition block_at (m : memory) (a n : Z) : list Z := m <$> seqZ a n.

(** The element with the 1-based index [i]. *)
Definition elem (m : memory) (array size i : Z) : list Z := block_at m (array + (i - 1) * size) size.

Definition elements (m : memory) (array size cnt : Z) : list (list Z) := elem m array size <$> seqZ 1 cnt.

Lemma block_at_ext m m' a b n : (∀ k, 0 ≤ k < n → m (a + k) = m' (b + k)) → block_at m a n = block_at m' b n.
Proof.
  intros H. apply list_eq. intros i. unfold block_at. rewrite !list_lookup_fmap.
  destruct (decide (Z.of_nat i < n)).
  - rewrite !lookup_seqZ_lt by lia. simpl. f_equal. apply H. lia.
  - by rewrite !lookup_seqZ_ge by lia.
Qed.

Definition tr (i j k : Z) : Z := if k =? i then j else if k =? j then i else k.

Lemma tr_spec i j k : k = i ∧ tr i j k = j ∨ k ≠ i ∧ k = j ∧ tr i j k = i ∨ k ≠ i ∧ k ≠ j ∧ tr i j k = k.
Proof. unfold tr. destruct (Z.eqb_spec k i), (Z.eqb_spec k j); naive_solver. Qed.

Lemma tr_perm i j n : 1 ≤ i ≤ n → 1 ≤ j ≤ n → tr i j <$> seqZ 1 n ≡ₚ seqZ 1 n.
Proof.
  intros Hi Hj. assert (∀ k, tr i j (tr i j k) = k) as Hinv.
  { intros k. destruct (tr_spec i j k) as [H|[H|H]], (tr_spec i j (tr i j k)) as [H'|[H'|H']]; lia. }
  apply NoDup_Permutation.
  - apply NoDup_fmap_2; [|apply NoDup_seqZ]. intros x y E. by rewrite <-(Hinv x), <-(Hinv y), E.
  - apply NoDup_seqZ.
  - intros x. rewrite list_elem_of_fmap, elem_of_seqZ. setoid_rewrite elem_of_seqZ. split.
    + intros (y & -> & Hy). destruct (tr_spec i j y) as [H|[H|H]]; lia.
    + intros Hx. exists (tr i j x). split; [done|]. destruct (tr_spec i j x) as [H|[H|H]]; lia.
Qed.

(** ** Swapping *)

Lemma swap_loop_run n : ∀ a b m, bytes_ok m → a + Z.of_nat n ≤ b ∨ b + Z.of_nat n ≤ a →
  ∃ m', swap_loop n a b m = Ok (tt, m') ∧ bytes_ok m' ∧
    (∀ k, 0 ≤ k < Z.of_nat n → m' (a + k) = m (b + k)) ∧ (∀ k, 0 ≤ k < Z.of_nat n → m' (b + k) = m (a + k)) ∧
    (∀ x, ¬ a ≤ x < a + Z.of_nat n → ¬ b ≤ x < b + Z.of_nat n → m' x = m x).
Proof.
  induction n as [|n IH]; intros a b m Hm Hab.
  - exists m. split; [done|]. split; [done|]. split_and!; intros; try lia; done.
  - cbn [swap_loop]. do 2 erewrite (bind_Ok (load _)) by done. do 2 erewrite (bind_Ok (store _ _)) by done.
    rewrite !byte_u8 by done. set (m1 := λ x, if x =? b then m a else _).
    assert (m1 a = m b ∧ m1 b = m a ∧ ∀ x, x ≠ a → x ≠ b → m1 x = m x) as (H1 & H2 & H3).
    { unfold m1. rewrite !Z.eqb_refl, (proj2 (Z.eqb_neq a b)) by lia. split; [done|]. split; [done|]. intros x ??.
      by rewrite (proj2 (Z.eqb_neq x a)), (proj2 (Z.eqb_neq x b)) by done. }
    destruct (IH (a + 1) (b + 1) m1) as (m' & E & Hm' & Ha & Hb & Ho); [|lia|].
    { intros x. unfold m1. repeat case_match; apply Hm. }
    exists m'. split; [exact E|]. split; [done|]. split; [|split].
    + intros k Hk. destruct (decide (k = 0)) as [->|].
      * rewrite !Z.add_0_r, Ho by lia. done.
      * replace (a + k) with (a + 1 + (k - 1)) by lia. rewrite Ha, H3 by lia. f_equal. lia.
    + intros k Hk. destruct (decide (k = 0)) as [->|].
      * rewrite !Z.add_0_r, Ho by lia. done.
      * replace (b + k) with (b + 1 + (k - 1)) by lia. rewrite Hb, H3 by lia. f_equal. lia.
    + intros x ??. rewrite Ho, H3 by lia. done.
Qed.

Section Sort.
Context (array size : Z) (Hsize : 0 < size).

Lemma elem_apart i j : i < j → array + (i - 1) * size + size ≤ array + (j - 1) * size.
Proof. intros H. nia. Qed.

Lemma do_swap_run m i j n : bytes_ok m → 1 ≤ i ≤ n → 1 ≤ j ≤ n → i ≠ j →
  ∃ m', do_swap array i j size m = Ok (tt, m') ∧ bytes_ok m' ∧ same_outside m m' array (array + n * size) ∧
    ∀ k, elem m' array size k = elem m array size (tr i j k).
Proof.
  intros Hm Hi Hj Hij. unfold do_swap. set (a := array + (i - 1) * size). set (b := array + (j - 1) * size).
  assert (Z.of_nat (Z.to_nat size) = size) as Hs by lia.
  assert (∀ k, k ≠ i → array + (k - 1) * size + size ≤ a ∨ a + size ≤ array + (k - 1) * size) as Ha.
  { intros k Hk. unfold a. destruct (decide (k < i)); [left|right]; apply elem_apart; lia. }
  assert (∀ k, k ≠ j → array + (k - 1) * size + size ≤ b ∨ b + size ≤ array + (k - 1) * size) as Hb.
  { intros k Hk. unfold b. destruct (decide (k < j)); [left|right]; apply elem_apart; lia. }
  destruct (swap_loop_run (Z.to_nat size) a b m Hm) as (m' & E & Hm' & Hsa & Hsb & Ho).
  { rewrite Hs. destruct (Ha j) as [?|?]; [done| |]; unfold b; lia. }
  rewrite Hs in Hsa, Hsb, Ho. exists m'. split; [done|]. split; [done|]. split.
  - intros x Hx. apply Ho; unfold a, b; nia.
  - intros k. unfold elem. destruct (tr_spec i j k) as [[-> ->]|[(_ & -> & ->)|(Hki & Hkj & ->)]]; apply block_at_ext; intros l Hl.
    + by apply Hsa.
    + by apply Hsb.
    + specialize (Ha k Hki). specialize (Hb k Hkj). apply Ho; lia.
Qed.

Lemma elem_outside m m' n k : same_outside m m' array (array + n * size) → n < k → elem m' array size k = elem m array size k.
Proof. intros H Hk. apply block_at_ext. intros l Hl. apply H. nia. Qed.

Lemma elements_swapped m m' i j n : 1 ≤ i ≤ n → 1 ≤ j ≤ n → (∀ k, elem m' array size k = elem m array size (tr i j k)) →
  elements m' array size n ≡ₚ elements m array size n.
Proof.
  intros Hi Hj H. unfold elements. rewrite (list_fmap_ext (elem m' array size) (elem m array size ∘ tr i j)) by (intros; apply H).
  rewrite list_fmap_compose. by apply fmap_Permutation, tr_perm.
Qed.

(** An element of the permuted prefix was one before. *)
Lemma elements_from m m' n k : elements m' array size n ≡ₚ elements m array size n → 1 ≤ k ≤ n →
  ∃ k', 1 ≤ k' ≤ n ∧ elem m' array size k = elem m array size k'.
Proof.
  intros Hp Hk. assert (elem m' array size k ∈ elements m array size n) as (k' & E & H)%list_elem_of_fmap.
  { rewrite <-Hp. apply list_elem_of_fmap. exists k. split; [done|]. apply elem_of_seqZ. lia. }
  apply elem_of_seqZ in H. exists k'. split; [lia|done].
Qed.

(** ** Heaps *)

(** The comparison function is a total preorder on the contents of the elements. *)
Context (compare : memory → Z → Z → Z) (cmp : list Z → list Z → Z).
Context (Hcompare : ∀ m a b, compare m a b = cmp (block_at m a size) (block_at m b size)).
Context (Htotal : ∀ x y, 0 < cmp x y → cmp y x ≤ 0).
Context (Htrans : ∀ x y z, cmp x y ≤ 0 → cmp y z ≤ 0 → cmp x z ≤ 0).

Let el m := elem m array size.
Let le x y := cmp x y ≤ 0.

Lemma le_refl x : le x x.
Proof. unfold le. destruct (decide (0 < cmp x x)) as [H|H]; [by apply Htotal|lia]. Qed.

(** No child of an element from [lo] on is larger than its parent; [hole] is an element that
    may be too small, but not smaller than where it came from. *)
Definition heap (lo n : Z) (f : Z → list Z) : Prop := ∀ k, 1 ≤ k ≤ n → lo ≤ k / 2 → le (f k) (f (k / 2)).
Definition heap_but (lo n hole : Z) (f : Z → list Z) : Prop :=
  (∀ k, 1 ≤ k ≤ n → lo ≤ k / 2 → k / 2 ≠ hole → le (f k) (f (k / 2))) ∧
  (∀ k, 1 ≤ k ≤ n → k / 2 = hole → lo ≤ hole / 2 → le (f k) (f (hole / 2))).

Lemma half_spec k : 2 * (k / 2) ≤ k < 2 * (k / 2) + 2.
Proof. pose proof (Z.div_mod k 2 ltac:(lia)). pose proof (Z.mod_pos_bound k 2 ltac:(lia)). lia. Qed.

Lemma heap_max_run m i n : 1 ≤ i ≤ n → n < 2 ^ 31 →
  ∃ max, heap_max compare array i n size m = Ok (max, m) ∧ (max = i ∨ max ≤ n ∧ max / 2 = i) ∧ i ≤ max ∧
    le (el m i) (el m max) ∧ ∀ k, 1 ≤ k ≤ n → k / 2 = i → le (el m k) (el m max).
Proof.
  intros Hi Hn. unfold heap_max. rewrite !uwrap_id by (unfold in_u; lia).
  assert (∃ mx, (if 2 * i <=? n then bind (do_compare compare array (2 * i) i size) (λ c, ret (if 0 <? c then 2 * i else i)) else ret i) m
    = Ok (mx, m) ∧ (mx = i ∨ mx ≤ n ∧ mx = 2 * i) ∧ le (el m i) (el m mx) ∧ (2 * i ≤ n → le (el m (2 * i)) (el m mx))) as (mx & E & Hmx & H1 & H2).
  { destruct (Z.leb_spec (2 * i) n); [|exists i; split; [done|]; split; [by left|]; split; [apply le_refl|lia]].
    unfold do_compare. erewrite bind_Ok by done. rewrite Hcompare. fold (elem m array size (2 * i)) (elem m array size i).
    eexists. split; [done|]. destruct (Z.ltb_spec 0 (cmp (elem m array size (2 * i)) (elem m array size i))) as [H'|H'].
    - split; [by right|]. split; [by apply Htotal|]. intros _. apply le_refl.
    - split; [by left|]. split; [apply le_refl|]. by intros _. }
  rewrite (bind_Ok _ _ _ _ _ E). clear E.
  assert (∀ k, k / 2 = i → k = 2 * i ∨ k = 2 * i + 1) as Hk by (intros k ?; pose proof (half_spec k); lia).
  assert ((2 * i) / 2 = i ∧ (2 * i + 1) / 2 = i) as [D1 D2] by (pose proof (half_spec (2 * i)); pose proof (half_spec (2 * i + 1)); lia).
  destruct (Z.leb_spec (2 * i + 1) n).
  - unfold do_compare. erewrite bind_Ok by done. rewrite Hcompare. fold (elem m array size (2 * i + 1)) (elem m array size mx).
    eexists. split; [done|]. destruct (Z.ltb_spec 0 (cmp (elem m array size (2 * i + 1)) (elem m array size mx))) as [H'|H'].
    + apply Htotal in H'. split; [by right|]. split; [lia|]. split; [by eapply Htrans|]. intros k Hk1 Hk2.
      destruct (Hk k Hk2) as [->| ->]; [eapply Htrans; [apply H2; lia|done]|apply le_refl].
    + split; [destruct Hmx as [?|[? ->]]; [by left|by right]|]. split; [lia|]. split; [done|]. intros k Hk1 Hk2.
      destruct (Hk k Hk2) as [->| ->]; [apply H2; lia|done].
  - exists mx. split; [done|]. split; [destruct Hmx as [?|[? ->]]; [by left|by right]|]. split; [lia|]. split; [done|].
    intros k Hk1 Hk2. destruct (Hk k Hk2) as [->| ->]; [apply H2; lia|lia].
Qed.

(** The hole moves down. *)
Lemma heap_but_swap lo n i mx f f' : 1 ≤ lo ≤ i → heap_but lo n i f → mx ≤ n → mx / 2 = i → i < mx →
  le (f i) (f mx) → (∀ k, 1 ≤ k ≤ n → k / 2 = i → le (f k) (f mx)) → (∀ k, f' k = f (tr i mx k)) → heap_but lo n mx f'.
Proof.
  intros Hlo [H1 H2] Hmn Hmx Him Hle Hmax Hf. split; intros k Hk Hkp Hkh; rewrite !Hf; pose proof (half_spec k) as Dk.
  - destruct (tr_spec i mx (k / 2)) as [[Ei ->]|[(_ & Ei & _)|(Hki & Hkm & ->)]]; [|lia|].
    + destruct (tr_spec i mx k) as [[? ->]|[(_ & -> & ->)|(? & ? & ->)]]; [pose proof (half_spec i); lia|done|by apply Hmax].
    + destruct (tr_spec i mx k) as [[-> ->]|[(_ & -> & ->)|(? & ? & ->)]].
      * apply H2; [lia|done|done].
      * lia.
      * apply H1; [done|done|lia].
  - rewrite Hmx in *. destruct (tr_spec i mx i) as [[_ ->]|[?|?]]; [|lia|lia].
    destruct (tr_spec i mx k) as [[? ->]|[(_ & ? & ->)|(? & ? & ->)]].
    + pose proof (half_spec mx). lia.
    + pose proof (half_spec mx). lia.
    + rewrite <-Hkp. apply H1; [done|lia|lia].
Qed.

Lemma heapify_run fuel : ∀ m lo n i, bytes_ok m → 1 ≤ lo ≤ i → i ≤ n → n < 2 ^ 31 → n - i ≤ Z.of_nat fuel → heap_but lo n i (el m) →
  ∃ m', heapify compare fuel array i n size m = Ok (tt, m') ∧ bytes_ok m' ∧ heap lo n (el m') ∧
    elements m' array size n ≡ₚ elements m array size n ∧ same_outside m m' array (array + n * size).
Proof.
  induction fuel as [|fuel IH]; intros m lo n i Hm Hlo Hin Hn Hf Hh;
    destruct (heap_max_run m i n ltac:(lia) Hn) as (mx & E & Hmx & Hge & Hle & Hmax); cbn [heapify]; rewrite (bind_Ok _ _ _ _ _ E).
  all: destruct (Z.eqb_spec mx i) as [->|Hne].
  1, 3: exists m; split_and!; try done; intros k Hk Hk2; destruct (decide (k / 2 = i)) as [Ei|Hk3];
    [rewrite Ei; by apply Hmax|by apply Hh].
  - destruct Hmx as [?|[? ?]]; lia.
  - destruct Hmx as [?|[Hmn Hmi]]; [done|]. destruct (do_swap_run m i mx n Hm) as (m1 & E1 & Hm1 & Ho1 & Hel); [lia|lia|done|].
    rewrite (bind_Ok _ _ _ _ _ E1). destruct (IH m1 lo n mx Hm1) as (m2 & E2 & Hm2 & Hh2 & Hp2 & Ho2); [lia|lia|lia|lia| |].
    { apply (heap_but_swap lo n i mx (el m)); try done; lia. }
    exists m2. split; [done|]. split; [done|]. split; [done|]. split.
    + etrans; [exact Hp2|]. by apply (elements_swapped m m1 i mx n); [lia|lia|].
    + intros x Hx. by rewrite Ho2, Ho1.
Qed.

(** ** The two passes *)

Lemma heap_widen lo n f : 1 ≤ lo → heap (lo + 1) n f → heap_but lo n lo f.
Proof.
  intros Hlo H. split.
  - intros k Hk Hk2 Hne. apply H; lia.
  - intros k Hk Hk2 Hl. pose proof (half_spec lo). lia.
Qed.

Lemma heap_root n f k : heap 1 n f → 1 ≤ k ≤ n → le (f k) (f 1).
Proof.
  intros H Hk. destruct Hk as [Hk Hkn]. revert Hkn. revert k Hk.
  apply (Zlt_lower_bound_ind (λ k, k ≤ n → le (f k) (f 1)) 1). intros k IH Hk Hkn. pose proof (half_spec k).
  destruct (decide (k = 1)) as [->|]; [apply le_refl|]. eapply Htrans; [apply H; lia|]. apply IH; lia.
Qed.

Lemma build_loop_run n : ∀ m cnt, bytes_ok m → 2 * Z.of_nat n ≤ cnt → cnt < 2 ^ 31 → heap (Z.of_nat n + 1) cnt (el m) →
  ∃ m', build_loop compare n array cnt size m = Ok (tt, m') ∧ bytes_ok m' ∧ heap 1 cnt (el m') ∧
    elements m' array size cnt ≡ₚ elements m array size cnt ∧ same_outside m m' array (array + cnt * size).
Proof.
  induction n as [|n IH]; intros m cnt Hm Hn Hc Hh; [by exists m|].
  cbn [build_loop]. destruct (heapify_run (Z.to_nat cnt) m (Z.of_nat (S n)) cnt (Z.of_nat (S n)) Hm) as (m1 & E1 & Hm1 & Hh1 & Hp1 & Ho1);
    [lia|lia|done|lia|by apply heap_widen; [lia|]|].
  rewrite (bind_Ok _ _ _ _ _ E1). destruct (IH m1 cnt Hm1) as (m2 & E2 & Hm2 & Hh2 & Hp2 & Ho2); [lia|done| |].
  { by replace (Z.of_nat n + 1) with (Z.of_nat (S n)) by lia. }
  exists m2. split; [done|]. split; [done|]. split; [done|]. split; [by rewrite Hp2|]. intros x Hx. by rewrite Ho2, Ho1.
Qed.

(** The elements after the first [n] are in their places. *)
Definition settled (cnt n : Z) (f : Z → list Z) : Prop := ∀ k j, 1 ≤ k → k < j ≤ cnt → n < j → le (f k) (f j).

(** One step of the second pass. *)
Lemma settled_step cnt n m m1 m2 : 2 ≤ n ≤ cnt → heap 1 n (el m) → settled cnt n (el m) →
  (∀ k, el m1 k = el m (tr 1 n k)) → elements m2 array size (n - 1) ≡ₚ elements m1 array size (n - 1) →
  same_outside m1 m2 array (array + (n - 1) * size) → settled cnt (n - 1) (el m2).
Proof.
  intros Hn Hh Hs H1 Hp Ho. assert (∀ k, 1 ≤ k ≤ n → ∃ k', 1 ≤ k' ≤ n ∧ el m2 k = el m k') as Hfrom.
  { intros k Hk. assert (∃ k1, 1 ≤ k1 ≤ n ∧ el m2 k = el m1 k1) as (k1 & Hk1 & ->).
    - destruct (decide (k = n)) as [->|]; [exists n; split; [lia|]; by apply (elem_outside m1 m2 (n - 1)); [|lia]|].
      destruct (elements_from m1 m2 (n - 1) k Hp ltac:(lia)) as (k1 & ? & E). exists k1. split; [lia|exact E].
    - rewrite H1. eexists. split; [|done]. destruct (tr_spec 1 n k1) as [?|[?|?]]; lia. }
  assert (∀ k, n < k → el m2 k = el m k) as Hout.
  { intros k Hk. unfold el at 1. rewrite (elem_outside m1 m2 (n - 1)) by (done || lia). fold (el m1 k). rewrite H1.
    f_equal. destruct (tr_spec 1 n k) as [?|[?|?]]; lia. }
  intros k j Hk Hkj Hj. destruct (decide (j = n)) as [->|].
  - assert (el m2 n = el m 1) as ->.
    { unfold el at 1. rewrite (elem_outside m1 m2 (n - 1)) by (done || lia). fold (el m1 n). rewrite H1.
      f_equal. destruct (tr_spec 1 n n) as [?|[?|?]]; lia. }
    destruct (Hfrom k ltac:(lia)) as (k' & ? & ->). by apply (heap_root n).
  - rewrite (Hout j) by lia. destruct (decide (k ≤ n)).
    + destruct (Hfrom k ltac:(lia)) as (k' & ? & ->). apply Hs; lia.
    + rewrite (Hout k) by lia. apply Hs; lia.
Qed.

Lemma elements_longer m m' n cnt : n ≤ cnt → same_outside m m' array (array + n * size) →
  elements m' array size n ≡ₚ elements m array size n → elements m' array size cnt ≡ₚ elements m array size cnt.
Proof.
  intros Hn Ho Hp. destruct (decide (0 ≤ n)) as [H0|H0].
  - unfold elements in *. replace cnt with (n + (cnt - n)) by lia. rewrite seqZ_app by lia. rewrite !fmap_app, Hp. f_equiv.
    match goal with |- ?a ≡ₚ ?b => enough (a = b) as -> by done end. apply list_fmap_ext. intros i x Hx. apply lookup_seqZ in Hx as [-> Hx]. apply (elem_outside m m' n); [done|lia].
  - unfold elements. match goal with |- ?a ≡ₚ ?b => enough (a = b) as -> by done end. apply list_fmap_ext. intros i x Hx. apply lookup_seqZ in Hx as [-> Hx]. apply (elem_outside m m' n); [done|lia].
Qed.

Lemma heap_sort_loop_run cnt n : cnt < 2 ^ 31 → ∀ m, bytes_ok m → Z.of_nat n + 1 ≤ cnt ∨ n = O → (n ≠ O → heap 1 (Z.of_nat n + 1) (el m)) →
  settled cnt (Z.of_nat n + 1) (el m) →
  ∃ m', sort_loop compare n array size m = Ok (tt, m') ∧ bytes_ok m' ∧ settled cnt 1 (el m') ∧
    elements m' array size cnt ≡ₚ elements m array size cnt ∧ same_outside m m' array (array + Z.max 0 cnt * size).
Proof.
  intros Hc. induction n as [|n IH]; intros m Hm Hn Hh Hs; [by exists m|]. specialize (Hh ltac:(done)).
  set (N := Z.of_nat (S n) + 1) in *. destruct Hn as [Hn|Hn]; [|done]. cbn [sort_loop]. fold N.
  destruct (do_swap_run m 1 N N Hm) as (m1 & E1 & Hm1 & Ho1 & Hel1); [lia|lia|lia|].
  rewrite (bind_Ok _ _ _ _ _ E1). destruct (heapify_run (Z.to_nat (N - 1)) m1 1 (N - 1) 1 Hm1) as (m2 & E2 & Hm2 & Hh2 & Hp2 & Ho2);
    [lia|lia|lia|lia| |].
  { apply heap_widen; [lia|]. intros k Hk Hk2. unfold el. rewrite !Hel1. pose proof (half_spec k).
    destruct (tr_spec 1 N k) as [?|[?|(? & ? & ->)]]; [lia|lia|]. destruct (tr_spec 1 N (k / 2)) as [?|[?|(? & ? & ->)]]; [lia|lia|].
    apply Hh; lia. }
  rewrite (bind_Ok _ _ _ _ _ E2). destruct (IH m2 Hm2) as (m3 & E3 & Hm3 & Hs3 & Hp3 & Ho3); [lia| | |].
  { intros _. by replace (Z.of_nat n + 1) with (N - 1) by lia. }
  { replace (Z.of_nat n + 1) with (N - 1) by lia. by apply (settled_step cnt N m m1); [lia|..]. }
  exists m3. split; [done|]. split; [done|]. split; [done|]. split.
  - rewrite Hp3. etrans; [by apply (elements_longer m1 m2 (N - 1)); [lia|..]|]. by apply (elements_swapped m m1 1 N); [lia|lia|].
  - intros x Hx. rewrite Ho3, Ho2, Ho1; [done|nia|nia|done].
Qed.

Lemma settled_sorted m cnt : settled cnt 1 (el m) → StronglySorted le (elements m array size cnt).
Proof.
  intros Hs. unfold elements. assert (∀ n i, 1 ≤ i → i + Z.of_nat n ≤ cnt + 1 → StronglySorted le (el m <$> seqZ i (Z.of_nat n))) as H.
  { induction n as [|n IH]; intros i Hi Hn; [constructor|]. rewrite seqZ_cons by lia. replace (Z.pred (Z.of_nat (S n))) with (Z.of_nat n) by lia.
    simpl. constructor; [apply IH; lia|]. apply Forall_fmap, list.Forall_forall. intros j Hj. apply elem_of_seqZ in Hj. simpl. apply Hs; lia. }
  destruct (decide (0 ≤ cnt)); [rewrite <-(Z2Nat.id cnt) by done; apply H; lia|].
  rewrite seqZ_nil by lia. constructor.
Qed.

Lemma sort_run m cnt : bytes_ok m → array ≠ NULL → 0 ≤ cnt < 2 ^ 31 →
  ∃ m', sort compare array cnt size m = Ok (tt, m') ∧ elements m' array size cnt ≡ₚ elements m array size cnt ∧
    StronglySorted (λ x y, cmp x y ≤ 0) (elements m' array size cnt) ∧ same_outside m m' array (array + cnt * size) ∧ bytes_ok m'.
Proof.
  intros Hm Ha Hc. unfold sort. rewrite (proj2 (Z.eqb_neq array NULL)), (proj2 (Z.ltb_lt 0 size)) by done.
  do 2 rewrite (bind_Ok (ASSERT _) _ m tt m) by done. pose proof (half_spec cnt).
  destruct (build_loop_run (Z.to_nat (cnt / 2)) m cnt Hm) as (m1 & E1 & Hm1 & Hh1 & Hp1 & Ho1); [lia|lia| |].
  { intros k Hk Hk2. pose proof (half_spec k). lia. }
  rewrite (bind_Ok _ _ _ _ _ E1). destruct (heap_sort_loop_run cnt (Z.to_nat (cnt - 1)) ltac:(lia) m1 Hm1) as (m2 & E2 & Hm2 & Hs2 & Hp2 & Ho2).
  { lia. } { intros Hn. by replace (Z.of_nat (Z.to_nat (cnt - 1)) + 1) with cnt by lia. } { intros k j ?. lia. }
  exists m2. split; [done|]. split; [by rewrite Hp2|]. split; [by apply settled_sorted|]. split; [|done].
  intros x Hx. rewrite Ho2, Ho1; [done|done|]. replace (Z.max 0 cnt) with cnt by lia. done.
Qed.
End Sort.

(** C28. [sort] terminates on every array of fewer than 2^31 elements and leaves a sorted
    permutation of them, whatever total preorder the comparison function computes and whatever
    the size of an element, and changes no byte outside the array. *)
Theorem sort_correct array size compare cmp m cnt : 0 < size →
  (∀ m a b, compare m a b = cmp (block_at m a size) (block_at m b size)) →
  (∀ x y, 0 < cmp x y → cmp y x ≤ 0) → (∀ x y z, cmp x y ≤ 0 → cmp y z ≤ 0 → cmp x z ≤ 0) →
  bytes_ok m → array ≠ NULL → 0 ≤ cnt < 2 ^ 31 →
  ∃ m', sort compare array cnt size m = Ok (tt, m') ∧ elements m' array size cnt ≡ₚ elements m array size cnt ∧
    StronglySorted (λ x y, cmp x y ≤ 0) (elements m' array size cnt) ∧ same_outside m m' array (array + cnt * size) ∧ bytes_ok m'.
Proof. intros. by eapply sort_run. Qed.

(** Comparison of the first bytes, and the memory with the bytes 3, 1, 2 at 100. *)
Definition cmp_first (x y : list Z) : Z := default 0 (head x) - default 0 (head y).
Definition sample_cmp (m : memory) (a b : Z) : Z := m a - m b.
Definition sample_array : memory := λ x, if x =? 100 then 3 else if x =? 101 then 1 else if x =? 102 then 2 else 0.

Lemma sample_array_ok : bytes_ok sample_array.
Proof. intros x. unfold sample_array. repeat case_match; done. Qed.

Lemma sort_correct_witness : ∃ m', sort sample_cmp 100 3 1 sample_array = Ok (tt, m') ∧
  elements m' 100 1 3 ≡ₚ elements sample_array 100 1 3 ∧
  StronglySorted (λ x y, cmp_first x y ≤ 0) (elements m' 100 1 3) ∧ same_outside sample_array m' 100 (100 + 3 * 1) ∧ bytes_ok m'.
Proof.
  apply (sort_correct 100 1 sample_cmp cmp_first sample_array 3).
  - lia.
  - reflexivity.
  - unfold cmp_first. intros x y H. lia.
  - unfold cmp_first. intros x y z H H'. lia.
  - exact sample_array_ok.
  - discriminate.
  - lia.
Defined.

(** ** Searching *)

Section Search.
Context (array size key cnt : Z) (compare : memory → Z → Z → Z) (cmp : list Z → list Z → Z) (m : memory).
Context (Hsize : 0 < size) (Harray : 0 < array).
Context (Hcompare : ∀ a b, compare m a b = cmp (block_at m a size) (block_at m b size)).
Context (Hsym : ∀ x y, cmp x y < 0 ↔ 0 < cmp y x).
Context (Htrans : ∀ x y z, cmp x y ≤ 0 → cmp y z ≤ 0 → cmp x z ≤ 0).
Context (Hsorted : StronglySorted (λ x y, cmp x y ≤ 0) (elements m array size cnt)).

Let k := block_at m key size.
Let el := elem m array size.

Lemma elements_sorted i j : 1 ≤ i ≤ j → j ≤ cnt → cmp (el i) (el j) ≤ 0.
Proof.
  intros Hij Hj. destruct (decide (i = j)) as [->|Hne].
  { destruct (decide (0 < cmp (el j) (el j))) as [H|H]; [|lia]. pose proof (proj2 (Hsym _ _) H). lia. }
  assert (∀ n a, StronglySorted (λ x y, cmp x y ≤ 0) (el <$> seqZ a (Z.of_nat n)) → ∀ i j, a ≤ i < j → j < a + Z.of_nat n →
    cmp (el i) (el j) ≤ 0) as H.
  { induction n as [|n IH]; intros a Hs i' j' Hi Hj'; [lia|]. rewrite seqZ_cons in Hs by lia.
    replace (Z.pred (Z.of_nat (S n))) with (Z.of_nat n) in Hs by lia. simpl in Hs. inversion Hs as [|?? Hs' Hall]; subst.
    destruct (decide (i' = a)) as [->|]; [|apply (IH (Z.succ a)); [done|lia|lia]].
    rewrite Forall_fmap, list.Forall_forall in Hall. apply (Hall j'). apply elem_of_seqZ. lia. }
  apply (H (Z.to_nat cnt) 1); [rewrite Z2Nat.id by lia; exact Hsorted|lia|lia].
Qed.

(** The keys before and after an element that is not the one searched for. *)
Lemma before i j : 1 ≤ i ≤ j → j ≤ cnt → 0 < cmp k (el j) → 0 < cmp k (el i).
Proof.
  intros Hi Hj H. destruct (decide (0 < cmp k (el i))) as [|Hn]; [done|]. exfalso.
  pose proof (Htrans k (el i) (el j) ltac:(lia) (elements_sorted i j Hi Hj)). lia.
Qed.
Lemma after i j : 1 ≤ i ≤ j → j ≤ cnt → cmp k (el i) < 0 → cmp k (el j) < 0.
Proof.
  intros Hi Hj H. rewrite Hsym in H |- *. destruct (decide (0 < cmp (el j) k)) as [|Hn]; [done|]. exfalso.
  pose proof (Htrans (el i) (el j) k (elements_sorted i j Hi Hj) ltac:(lia)). lia.
Qed.

(** [p] is the answer: an element equal to the key, or null when there is none. *)
Definition found (p : Z) : Prop :=
  p = NULL ∧ (∀ i, 1 ≤ i ≤ cnt → cmp k (el i) ≠ 0) ∨
  ∃ i, 1 ≤ i ≤ cnt ∧ p = array + (i - 1) * size ∧ p ≠ NULL ∧ cmp k (el i) = 0.

Lemma search_loop_run fuel : ∀ lo hi, 0 ≤ lo ≤ hi → hi ≤ cnt → hi - lo ≤ Z.of_nat fuel →
  (∀ i, 1 ≤ i ≤ lo → 0 < cmp k (el i)) → (∀ i, hi < i ≤ cnt → cmp k (el i) < 0) →
  ∃ p, search_loop compare fuel key (array + lo * size) (array + hi * size) size m = Ok (p, m) ∧ found p.
Proof.
  induction fuel as [|fuel IH]; intros lo hi Hlo Hhi Hf Hbelow Habove; cbn [search_loop].
  all: destruct (Z.ltb_spec (array + lo * size) (array + hi * size)) as [Hlt|Hge].
  2, 4: exists NULL; split; [done|]; left; split; [done|]; intros i Hi; assert (lo = hi) by nia; destruct (decide (i ≤ lo));
    [pose proof (Hbelow i ltac:(lia)); lia|pose proof (Habove i ltac:(lia)); lia].
  - nia.
  - assert (lo < hi) as Hlh by nia. replace (array + hi * size - (array + lo * size)) with ((hi - lo) * size) by lia.
    rewrite Z.div_mul by lia. pose proof (half_spec (hi - lo)) as Hh. set (mid := lo + (hi - lo) / 2).
    replace (array + lo * size + (hi - lo) / 2 * size) with (array + mid * size) by lia.
    erewrite bind_Ok by done. rewrite Hcompare. fold k.
    assert (block_at m (array + mid * size) size = el (mid + 1)) as -> by (unfold el, elem; do 2 f_equal; lia).
    destruct (Z.ltb_spec (cmp k (el (mid + 1))) 0) as [H1|H1]; [|destruct (Z.ltb_spec 0 (cmp k (el (mid + 1)))) as [H2|H2]].
    + apply IH; [lia|lia|lia|done|]. intros i Hi. apply (after (mid + 1)); [lia|lia|done].
    + replace (array + mid * size + size) with (array + (mid + 1) * size) by lia. apply IH; [lia|lia|lia| |done].
      intros i Hi. apply (before i (mid + 1)); [lia|lia|done].
    + eexists. split; [done|]. right. exists (mid + 1). split; [lia|]. split; [f_equal; lia|]. split; [unfold NULL; nia|lia].
Qed.

Lemma binary_search_run : 0 ≤ cnt → ∃ p, binary_search compare key array cnt size m = Ok (p, m) ∧ found p.
Proof.
  intros Hc. unfold binary_search. destruct (search_loop_run (Z.to_nat cnt) 0 cnt) as (p & E & Hp); [lia|lia|lia|lia|lia|].
  exists p. split; [|done]. rewrite <-E. f_equal; lia.
Qed.
End Search.

(** [binary_search] on a sorted array returns a pointer to an element that compares equal to
    the key, and a null pointer exactly when there is no such element; it always terminates. *)
Theorem binary_search_correct array size key cnt compare cmp m : 0 < size → 0 < array → 0 ≤ cnt →
  (∀ a b, compare m a b = cmp (block_at m a size) (block_at m b size)) → (∀ x y, cmp x y < 0 ↔ 0 < cmp y x) →
  (∀ x y z, cmp x y ≤ 0 → cmp y z ≤ 0 → cmp x z ≤ 0) → StronglySorted (λ x y, cmp x y ≤ 0) (elements m array size cnt) →
  ∃ p, binary_search compare key array cnt size m = Ok (p, m) ∧ found array size key cnt cmp m p.
Proof. intros. by apply binary_search_run. Qed.

Lemma binary_search_correct_witness : ∃ p, binary_search sample_cmp 100 101 2 1 sample_array = Ok (p, sample_array) ∧
  found 101 1 100 2 cmp_first sample_array p.
Proof.
  apply (binary_search_correct 101 1 100 2 sample_cmp cmp_first sample_array).
  - lia.
  - lia.
  - lia.
  - reflexivity.
  - unfold cmp_first. intros x y. lia.
  - unfold cmp_first. intros x y z H H'. lia.
  - repeat constructor; by vm_compute.
Defined.

(** ** Numbers *)

(** The number that digits stand for, after the digits of [v]. *)
Definition dec_from (v : Z) (ds : list Z) : Z := fold_left (λ v c, v * 10 + (c - 48)) ds v.
Definition dec (ds : list Z) : Z := dec_from 0 ds.

Definition digits (ds : list Z) : Prop := Forall (λ c, isdigit c = true) ds.

Lemma isdigit_spec c : isdigit c = true ↔ 48 ≤ c ≤ 57.
Proof. unfold isdigit. rewrite andb_true_iff, !Z.leb_le. done. Qed.

Lemma dec_from_ge ds : ∀ v, 0 ≤ v → digits ds → v ≤ dec_from v ds.
Proof.
  induction ds as [|c ds IH]; intros v Hv Hd; simpl; [done|]. apply list.Forall_cons in Hd as [Hc%isdigit_spec Hd].
  etrans; [|apply IH; [lia|done]]. lia.
Qed.

Lemma digits_loop_run m ds rest : ∀ a v fuel, cstr m a (ds ++ rest) → digits ds →
  match rest with [] => True | c :: _ => isdigit c = false end → 0 ≤ v → dec_from v ds ≤ 2 ^ 31 → (length ds ≤ fuel)%nat →
  digits_loop fuel a (- v) m = Ok (- dec_from v ds, m).
Proof.
  induction ds as [|c ds IH]; intros a v fuel Hs Hd Hr Hv Hb Hf.
  - simpl in Hs. assert (isdigit (m a) = false) as Hnd by (rewrite (cstr_head _ _ _ Hs); by destruct rest).
    destruct fuel; cbn [digits_loop]; erewrite (bind_Ok (load _)) by done; by rewrite Hnd.
  - destruct Hs as (_ & Ha & Hs). apply list.Forall_cons in Hd as [Hc Hd]. destruct fuel as [|fuel]; [simpl in Hf; lia|].
    cbn [digits_loop]. erewrite (bind_Ok (load _)) by done. rewrite Ha, Hc. apply isdigit_spec in Hc. simpl in Hb.
    pose proof (dec_from_ge ds (v * 10 + (c - 48)) ltac:(lia) Hd). rewrite !swrap_id; [|done|unfold in_s; lia|done|rewrite swrap_id by (done || unfold in_s; lia); unfold in_s; lia].
    replace (- v * 10 - (c - 48)) with (- (v * 10 + (c - 48))) by lia. apply (IH _ _ _ Hs Hd Hr); [lia|done|simpl in Hf; lia].
Qed.

Lemma skip_spaces_run m ws s : ∀ a fuel, cstr m a (ws ++ s) → Forall (λ c, isspace c = true) ws →
  match s with [] => True | c :: _ => isspace c = false end → (length ws ≤ fuel)%nat →
  skip_spaces fuel a m = Ok (a + Z.of_nat (length ws), m).
Proof.
  induction ws as [|c ws IH]; intros a fuel Hs Hw Hh Hf.
  - simpl in Hs |- *. rewrite Z.add_0_r. assert (isspace (m a) = false) as Hns by (rewrite (cstr_head _ _ _ Hs); by destruct s).
    destruct fuel; cbn [skip_spaces]; erewrite (bind_Ok (load _)) by done; by rewrite Hns.
  - destruct Hs as (_ & Ha & Hs). apply list.Forall_cons in Hw as [Hc Hw]. destruct fuel as [|fuel]; [simpl in Hf; lia|].
    cbn [skip_spaces]. erewrite (bind_Ok (load _)) by done. rewrite Ha, Hc. rewrite (IH _ _ Hs Hw Hh) by (simpl in Hf; lia).
    do 2 f_equal. simpl. lia.
Qed.

(** The sign characters and the sign they stand for. *)
Inductive sign : list Z → Z → Prop :=
  | sign_none : sign [] 1
  | sign_plus : sign [43] 1
  | sign_minus : sign [45] (-1).

Lemma digit_plain c : isdigit c = true → isspace c = false ∧ (c =? 43) = false ∧ (c =? 45) = false.
Proof.
  intros Hc%isdigit_spec. unfold isspace. by repeat rewrite (proj2 (Z.eqb_neq c _)) by lia.
Qed.

Lemma atoi_run m a ws sg z ds rest fuel : cstr m a (ws ++ sg ++ ds ++ rest) → a ≠ NULL → Forall (λ c, isspace c = true) ws → sign sg z →
  digits ds → ds ≠ [] → match rest with [] => True | c :: _ => isdigit c = false end → in_s 32 (z * dec ds) →
  (length ws + length ds ≤ fuel)%nat → atoi fuel a m = Ok (z * dec ds, m).
Proof.
  intros Hs Ha Hws Hsg Hd Hne Hr Hb Hf. unfold atoi. rewrite (proj2 (Z.eqb_neq a NULL)) by done.
  rewrite (bind_Ok (ASSERT _) _ m tt m) by done. destruct ds as [|c ds]; [done|].
  assert (isdigit c = true) as Hc by (by apply list.Forall_cons in Hd as [? _]). destruct (digit_plain c Hc) as (Hc1 & Hc2 & Hc3).
  assert (0 ≤ dec (c :: ds)) as H0 by (apply dec_from_ge; [lia|done]). unfold in_s in Hb.
  rewrite (bind_Ok _ _ _ _ _ (skip_spaces_run m ws (sg ++ (c :: ds) ++ rest) a fuel Hs Hws ltac:(by destruct Hsg) ltac:(lia))).
  erewrite (bind_Ok (load _)) by done. apply cstr_app in Hs. set (b := a + Z.of_nat (length ws)) in *. rewrite (cstr_head _ _ _ Hs).
  assert (∀ x, cstr m x ((c :: ds) ++ rest) → dec (c :: ds) ≤ 2 ^ 31 → digits_loop fuel x 0 m = Ok (- dec (c :: ds), m)) as Hrun.
  { intros x Hx Hle. by apply (digits_loop_run m (c :: ds) rest x 0 fuel Hx Hd Hr); [lia|exact Hle|lia]. }
  destruct Hsg; cbn [app] in Hs |- *.
  - rewrite Hc2, Hc3, (bind_Ok _ _ _ _ _ (Hrun b Hs ltac:(lia))). unfold ret. simpl negb. rewrite swrap_id by (unfold in_s; lia). do 2 f_equal. lia.
  - destruct Hs as (_ & _ & Hs). simpl. rewrite (bind_Ok _ _ _ _ _ (Hrun _ Hs ltac:(lia))). unfold ret. simpl negb. rewrite swrap_id by (unfold in_s; lia).
    do 2 f_equal. lia.
  - destruct Hs as (_ & _ & Hs). simpl. rewrite (bind_Ok _ _ _ _ _ (Hrun _ Hs ltac:(lia))). unfold ret. simpl negb. do 2 f_equal; lia.
Qed.
