(* ===== verification/Boot.v ===== *)
(** * The kernel command line (threads/init.c)

    The loader leaves the arguments in memory as strings one after the other.
    [read_command_line] finds them, [parse_options] takes the options at the front and
    [run_actions] performs the actions behind them.  [argv] is the list of the pointers before
    the null pointer.  The string constants of the file are at the addresses [lit] gives, [now]
    is what [rtc_get_time] returns, and what an action does is the parameter [perform].
    Messages on the console are left out.  [fuel] bounds the characters read from strings. *)

From Stdlib Require Import String Ascii.
From S2P Require Import Prelude FsState Random Palloc CString CStringSpec CStdlib CStdlibSpec.

(** The characters of a string constant. *)
Definition chars (t : string) : list Z := (λ c, Z.of_N (N_of_ascii c)) <$> String.list_ascii_of_string t.

(** ** Finding the arguments *)

Definition LOADER_END : Z := 0x7e00.
Definition LOADER_SIG_LEN : Z := 2.
Definition LOADER_PARTS_LEN : Z := 64.
Definition LOADER_ARGS_LEN : Z := 128.
Definition LOADER_ARG_CNT_LEN : Z := 4.
Definition LOADER_SIG : Z := LOADER_END - LOADER_SIG_LEN.
Definition LOADER_PARTS : Z := LOADER_SIG - LOADER_PARTS_LEN.
Definition LOADER_ARGS : Z := LOADER_PARTS - LOADER_ARGS_LEN.
Definition LOADER_ARG_CNT : Z := LOADER_ARGS - LOADER_ARG_CNT_LEN.

(** The number of elements of the array [argv]. *)
Definition ARGV_LEN : Z := LOADER_ARGS_LEN `quot` 2 + 1.

(** The loop with [n] arguments to go; [end'] is the end of the area. *)
Fixpoint arg_loop (n fuel : nat) (i p end' : Z) : B (list Z) :=
  match n with
  | O => ret []
  | S n =>
      if end' <=? p then panic
      else if ARGV_LEN <=? i then undef
      else
        let! len := strnlen fuel p (end' - p) in
        let! argv := arg_loop n fuel (i + 1) (p + (len + 1)) end' in
        ret (p :: argv)
  end.

Definition read_command_line (fuel : nat) : B (list Z) :=
  let! cnt := lift (ptov LOADER_ARG_CNT) in
  let! argc := gets (λ m, s32 (word_at m cnt)) in
  let! p := lift (ptov LOADER_ARGS) in
  let! argv := arg_loop (Z.to_nat argc) fuel 0 p (p + LOADER_ARGS_LEN) in
  if (argc <? 0) || (ARGV_LEN <=? argc) then undef else ret argv.

(** ** Options *)

Inductive shutdown_type := SHUTDOWN_NONE | SHUTDOWN_POWER_OFF | SHUTDOWN_REBOOT.

(** What the options set. *)
Record settings := mk_settings {
  mem : memory;
  format_filesys : bool;
  filesys_bdev_name : Z;
  scratch_bdev_name : Z;
  user_page_limit : Z;
  thread_mlfqs : bool;
  how : shutdown_type;
  prng : generator }.

Abbreviation C := (M settings).

Definition on_mem {A} (f : B A) : C A := λ c,
  let? '(a, m) := f (mem c) in
  Ok (a, mk_settings m (format_filesys c) (filesys_bdev_name c) (scratch_bdev_name c) (user_page_limit c)
           (thread_mlfqs c) (how c) (prng c)).
Definition on_prng {A} (f : M generator A) : C A := λ c,
  let? '(a, g) := f (prng c) in
  Ok (a, mk_settings (mem c) (format_filesys c) (filesys_bdev_name c) (scratch_bdev_name c) (user_page_limit c)
           (thread_mlfqs c) (how c) g).

Definition shutdown_configure (type : shutdown_type) : C unit :=
  modify (λ c, mk_settings (mem c) (format_filesys c) (filesys_bdev_name c) (scratch_bdev_name c) (user_page_limit c)
                 (thread_mlfqs c) type (prng c)).
Definition set_format : C unit :=
  modify (λ c, mk_settings (mem c) true (filesys_bdev_name c) (scratch_bdev_name c) (user_page_limit c)
                 (thread_mlfqs c) (how c) (prng c)).
Definition set_filesys (value : Z) : C unit :=
  modify (λ c, mk_settings (mem c) (format_filesys c) value (scratch_bdev_name c) (user_page_limit c)
                 (thread_mlfqs c) (how c) (prng c)).
Definition set_scratch (value : Z) : C unit :=
  modify (λ c, mk_settings (mem c) (format_filesys c) (filesys_bdev_name c) value (user_page_limit c)
                 (thread_mlfqs c) (how c) (prng c)).
Definition set_mlfqs : C unit :=
  modify (λ c, mk_settings (mem c) (format_filesys c) (filesys_bdev_name c) (scratch_bdev_name c) (user_page_limit c)
                 true (how c) (prng c)).
Definition set_limit (limit : Z) : C unit :=
  modify (λ c, mk_settings (mem c) (format_filesys c) (filesys_bdev_name c) (scratch_bdev_name c) limit
                 (thread_mlfqs c) (how c) (prng c)).

(** What [parse_options] comes to: the help message and the end of the machine, or the
    arguments that are not options. *)
Inductive parsed :=
  | Usage
  | Actions (argv : list Z).

Section Options.
Context (lit : list Z → Z) (now : Z) (fuel : nat).

(** [!strcmp (name, t)] *)
Definition is_option (name : Z) (t : string) : C bool :=
  let! r := on_mem (strcmp fuel name (lit (chars t))) in ret (r =? 0).

(** The body of the loop; [true] is the call of [usage]. *)
Definition parse_option (name value : Z) : C bool :=
  let! h := is_option name "-h" in
  if h : bool then ret true else
  let! q := is_option name "-q" in
  if q : bool then let! _ := shutdown_configure SHUTDOWN_POWER_OFF in ret false else
  let! r := is_option name "-r" in
  if r : bool then let! _ := shutdown_configure SHUTDOWN_REBOOT in ret false else
  let! f := is_option name "-f" in
  if f : bool then let! _ := set_format in ret false else
  let! filesys := is_option name "-filesys" in
  if filesys : bool then let! _ := set_filesys value in ret false else
  let! scratch := is_option name "-scratch" in
  if scratch : bool then let! _ := set_scratch value in ret false else
  let! rs := is_option name "-rs" in
  if rs : bool then
    let! seed := on_mem (atoi fuel value) in
    let! _ := on_prng (random_init (u32 seed)) in
    ret false
  else
  let! mlfqs := is_option name "-mlfqs" in
  if mlfqs : bool then let! _ := set_mlfqs in ret false else
  let! ul := is_option name "-ul" in
  if ul : bool then
    let! limit := on_mem (atoi fuel value) in
    let! _ := set_limit (u32 limit) in
    ret false
  else panic.

Fixpoint option_loop (argv : list Z) : C parsed :=
  match argv with
  | [] => ret (Actions [])
  | arg :: rest =>
      let! c := on_mem (load arg) in
      if c =? 45 then
        let! '(name, save_ptr) := on_mem (strtok_r fuel arg (lit (chars "=")) NULL) in
        let! '(value, _) := on_mem (strtok_r fuel NULL (lit (chars "")) save_ptr) in
        let! usage := parse_option name value in
        if usage : bool then ret Usage else option_loop rest
      else ret (Actions argv)
  end.

(** The generator is seeded with the time after the options were read. *)
Definition parse_options (argv : list Z) : C parsed :=
  let! r := option_loop argv in
  match r with
  | Usage => ret Usage
  | Actions argv => let! _ := on_prng (random_init now) in ret (Actions argv)
  end.
End Options.

(** ** Actions *)

Inductive action := run_task | fsutil_ls | fsutil_cat | fsutil_rm | fsutil_extract | fsutil_append.

(** The table of the actions: the name, the number of arguments with the name, the function. *)
Definition actions : list (string * nat * action) :=
  [("run", 2%nat, run_task); ("ls", 1%nat, fsutil_ls); ("cat", 2%nat, fsutil_cat); ("rm", 2%nat, fsutil_rm);
   ("extract", 1%nat, fsutil_extract); ("append", 2%nat, fsutil_append)]%string.

Section Actions.
Context {K : Type} (memory_of : K → memory).
Context (lit : list Z → Z) (fuel : nat).
(** What the function of an action does when it is called with [argv]. *)
Variable perform : action → list Z → M K unit.

Definition peek_mem {A} (f : B A) : M K A := λ k, let? '(a, _) := f (memory_of k) in Ok (a, k).

Fixpoint find_action (arg : Z) (table : list (string * nat * action)) : M K (nat * action) :=
  match table with
  | [] => panic
  | (name, argc, f) :: table =>
      let! r := peek_mem (strcmp fuel arg (lit (chars name))) in
      if r =? 0 then ret (argc, f) else find_action arg table
  end.

(** Every round takes an argument at least: [n] is enough when it is their number. *)
Fixpoint run_actions (n : nat) (argv : list Z) : M K unit :=
  match argv with
  | [] => ret tt
  | arg :: _ =>
      match n with
      | O => out_of_fuel
      | S n =>
          let! '(argc, f) := find_action arg actions in
          if (length argv <? argc)%nat then panic
          else
            let! _ := perform f argv in
            run_actions n (drop argc argv)
      end
  end.
End Actions.

(** ** Strings one after the other *)

(** The strings [ss] are in memory from [p] on, each with its zero. *)
Fixpoint args_at (m : memory) (p : Z) (ss : list (list Z)) : Prop :=
  match ss with
  | [] => True
  | t :: ss => cstr m p t ∧ args_at m (p + Z.of_nat (length t) + 1) ss
  end.
Fixpoint addrs (p : Z) (ss : list (list Z)) : list Z :=
  match ss with
  | [] => []
  | t :: ss => p :: addrs (p + Z.of_nat (length t) + 1) ss
  end.
(** The bytes they take. *)
Fixpoint room (ss : list (list Z)) : Z :=
  match ss with
  | [] => 0
  | t :: ss => Z.of_nat (length t) + 1 + room ss
  end.

Lemma room_nonneg ss : 0 ≤ room ss.
Proof. induction ss; simpl; lia. Qed.

Lemma args_ext m m' ss : ∀ p, (∀ x, p ≤ x < p + room ss → m' x = m x) → args_at m p ss → args_at m' p ss.
Proof.
  induction ss as [|t ss IH]; intros p He Ha; [done|]. simpl in He. pose proof (room_nonneg ss). destruct Ha as [Ht Ha]. split.
  - eapply cstr_ext; [|done]. intros x Hx. apply He. lia.
  - apply IH; [|done]. intros x Hx. apply He. lia.
Qed.

Lemma arg_loop_run m fuel end' ss : ∀ i p, args_at m p ss → p + room ss ≤ end' → i + Z.of_nat (length ss) ≤ ARGV_LEN →
  room ss ≤ Z.of_nat fuel → arg_loop (length ss) fuel i p end' m = Ok (addrs p ss, m).
Proof.
  induction ss as [|t ss IH]; intros i p Ha He Hi Hf; [done|]. cbn [length arg_loop addrs]. simpl in He, Hi, Hf.
  pose proof (room_nonneg ss). destruct Ha as [Ht Ha].
  rewrite (proj2 (Z.leb_gt _ _)), (proj2 (Z.leb_gt ARGV_LEN _)) by lia.
  rewrite (bind_Ok _ _ _ _ _ (strnlen_run m p t (end' - p) fuel Ht ltac:(lia) ltac:(lia))).
  rewrite Z.min_l by lia. rewrite Z.add_assoc. by rewrite (bind_Ok _ _ _ _ _ (IH (i + 1) _ Ha ltac:(lia) ltac:(lia) ltac:(lia))).
Qed.

(** More arguments than there are strings in the area. *)
Lemma arg_loop_overflow m fuel end' ss n : ∀ i p, args_at m p ss → p + room ss = end' → i + Z.of_nat (length ss) ≤ ARGV_LEN →
  room ss ≤ Z.of_nat fuel → (length ss < n)%nat → arg_loop n fuel i p end' m = Panic.
Proof.
  revert n. induction ss as [|t ss IH]; intros [|n] i p Ha He Hi Hf Hn; simpl in Hn; try lia; cbn [arg_loop]; simpl in He, Hi, Hf.
  - by rewrite (proj2 (Z.leb_le _ _)) by lia.
  - pose proof (room_nonneg ss). destruct Ha as [Ht Ha]. rewrite (proj2 (Z.leb_gt _ _)), (proj2 (Z.leb_gt ARGV_LEN _)) by lia.
    rewrite (bind_Ok _ _ _ _ _ (strnlen_run m p t (end' - p) fuel Ht ltac:(lia) ltac:(lia))).
    rewrite Z.min_l by lia. rewrite Z.add_assoc. unfold bind. by rewrite (IH n (i + 1) _ Ha) by lia.
Qed.

(** The arguments of the loader and the area they are in. *)
Definition arg_area : Z := PHYS_BASE + LOADER_ARGS.
Definition arg_count : Z := PHYS_BASE + LOADER_ARG_CNT.

(** The strings the loader left are found in their order; a count that the area has no room
    for stops the kernel. *)
Theorem read_command_line_correct m ss : args_at m arg_area ss → (length ss ≤ 64)%nat → room ss ≤ LOADER_ARGS_LEN →
  (word_at m arg_count = Z.of_nat (length ss) → read_command_line 128 m = Ok (addrs arg_area ss, m)) ∧
  (Z.of_nat (length ss) < word_at m arg_count < 2 ^ 31 → room ss = LOADER_ARGS_LEN → read_command_line 128 m = Panic).
Proof.
  intros Ha Hl Hr. assert (read_command_line 128 m =
    bind (arg_loop (Z.to_nat (s32 (word_at m arg_count))) 128 0 arg_area (arg_area + LOADER_ARGS_LEN)) (λ argv,
      if (s32 (word_at m arg_count) <? 0) || (ARGV_LEN <=? s32 (word_at m arg_count)) then undef else ret argv) m) as -> by done.
  unfold LOADER_ARGS_LEN in *. change ARGV_LEN with 65. split.
  - intros ->. rewrite swrap_id by (unfold in_s; lia). rewrite Nat2Z.id.
    rewrite (bind_Ok _ _ _ _ _ (arg_loop_run m 128 (arg_area + 128) ss 0 arg_area Ha ltac:(lia) ltac:(change ARGV_LEN with 65; lia) ltac:(lia))).
    rewrite (proj2 (Z.ltb_ge _ _)), (proj2 (Z.leb_gt _ _)) by lia. done.
  - intros Hw He. rewrite swrap_id by (unfold in_s; lia). unfold bind.
    by rewrite (arg_loop_overflow m 128 (arg_area + 128) ss _ 0 arg_area Ha) by (change ARGV_LEN with 65; lia).
Qed.

(** ** What the options mean *)

Inductive opt :=
  | Power_off
  | Reboot
  | Format
  | Filesys (bdev : list Z)
  | Scratch (bdev : list Z)
  | Seed (number : list Z)
  | Mlfqs
  | Limit (number : list Z).

Definition opt_name (o : opt) : string :=
  match o with
  | Power_off => "-q"
  | Reboot => "-r"
  | Format => "-f"
  | Filesys _ => "-filesys"
  | Scratch _ => "-scratch"
  | Seed _ => "-rs"
  | Mlfqs => "-mlfqs"
  | Limit _ => "-ul"
  end.
Definition opt_value (o : opt) : option (list Z) :=
  match o with Filesys v | Scratch v | Seed v | Limit v => Some v | _ => None end.
(** The argument that is the option. *)
Definition opt_text (o : opt) : list Z :=
  chars (opt_name o) ++ match opt_value o with Some v => 61 :: v | None => [] end.
Definition opt_ok (o : opt) : Prop :=
  match o with
  | Filesys v | Scratch v => v ≠ []
  | Seed v | Limit v => v ≠ [] ∧ digits v ∧ dec v < 2 ^ 31
  | _ => True
  end.

Record config := mk_config {
  c_format : bool;
  c_filesys : option (list Z);
  c_scratch : option (list Z);
  c_limit : Z;
  c_mlfqs : bool;
  c_how : shutdown_type }.

Definition apply_opt (k : config) (o : opt) : config :=
  let '(mk_config fmt fs sc lim ml hw) := k in
  match o with
  | Power_off => mk_config fmt fs sc lim ml SHUTDOWN_POWER_OFF
  | Reboot => mk_config fmt fs sc lim ml SHUTDOWN_REBOOT
  | Format => mk_config true fs sc lim ml hw
  | Filesys v => mk_config fmt (Some v) sc lim ml hw
  | Scratch v => mk_config fmt fs (Some v) lim ml hw
  | Seed _ => k
  | Mlfqs => mk_config fmt fs sc lim true hw
  | Limit v => mk_config fmt fs sc (dec v) ml hw
  end.

(** A pointer to the string [v] below [p], or a null pointer. *)
Definition named (m : memory) (a : Z) (v : option (list Z)) (p : Z) : Prop :=
  match v with
  | None => a = NULL
  | Some v => 0 < a ∧ cstr m a v ∧ a + Z.of_nat (length v) < p
  end.

Record shows (c : settings) (k : config) (p : Z) : Prop := {
  sh_format : format_filesys c = c_format k;
  sh_filesys : named (mem c) (filesys_bdev_name c) (c_filesys k) p;
  sh_scratch : named (mem c) (scratch_bdev_name c) (c_scratch k) p;
  sh_limit : user_page_limit c = c_limit k;
  sh_mlfqs : thread_mlfqs c = c_mlfqs k;
  sh_how : how c = c_how k }.

Definition constants : list string :=
  ["="; ""; "-h"; "-q"; "-r"; "-f"; "-filesys"; "-scratch"; "-rs"; "-mlfqs"; "-ul"]%string.

(** The string constants [ts] are in memory, outside the bytes from [p] to [e]. *)
Definition lits_ok (lit : list Z → Z) (ts : list string) (m : memory) (p e : Z) : Prop :=
  ∀ t, t ∈ ts → let a := lit (chars t) in
    cstr m a (chars t) ∧ 0 < a ∧ (a + Z.of_nat (length (chars t)) < p ∨ e ≤ a).

Lemma named_mono m m' a v p p' : p ≤ p' → (∀ x, x < p → m' x = m x) → named m a v p → named m' a v p'.
Proof.
  intros Hp He. destruct v as [v|]; [|done]. intros (H0 & Hc & Hl). split; [done|]. split; [|lia].
  eapply cstr_ext; [|done]. intros x Hx. apply He. lia.
Qed.

Lemma lits_frame lit ts m m' p e p' : p ≤ p' → same_outside m m' p e → lits_ok lit ts m p e → lits_ok lit ts m' p' e.
Proof.
  intros Hp He Hl t Ht. destruct (Hl t Ht) as (Hc & H0 & Ho). split; [|split; [done|lia]].
  eapply cstr_ext; [|done]. intros x Hx. apply He. lia.
Qed.

Lemma lits_narrow lit ts m p e p' e' : p ≤ p' → e' ≤ e → lits_ok lit ts m p e → lits_ok lit ts m p' e'.
Proof. intros ? ? Hl t Ht. destruct (Hl t Ht) as (? & ? & ?). split_and!; try done. lia. Qed.

Lemma on_mem_read {A} (f : B A) c a : f (mem c) = Ok (a, mem c) → on_mem f c = Ok (a, c).
Proof. unfold on_mem. intros ->. by destruct c. Qed.

Section Parsing.
Context (lit : list Z → Z) (now : Z) (fuel : nat).

Lemma is_option_run c name n t : cstr (mem c) name n → 0 < name → (length n ≤ fuel)%nat →
  cstr (mem c) (lit (chars t)) (chars t) → 0 < lit (chars t) →
  is_option lit fuel name t c = Ok (bool_decide (n = chars t), c).
Proof.
  intros Hn H0 Hf Ht Hl. unfold is_option.
  destruct (strcmp_run (mem c) name (lit (chars t)) n (chars t) fuel Hn Ht) as (r & E & Hr); [unfold NULL; lia..|done|].
  rewrite (bind_Ok _ _ _ _ _ (on_mem_read _ _ _ E)). unfold ret. do 2 f_equal.
  destruct (Z.eqb_spec r 0) as [H|H]; [by rewrite bool_decide_eq_true_2 by tauto|by rewrite bool_decide_eq_false_2 by tauto].
Qed.

(** The two calls of [strtok_r] split an option into its name and its value. *)
Lemma split_run m a n ov : let text := n ++ match ov with Some v => 61 :: v | None => [] end in
  bytes_ok m → cstr m a text → 0 < a → n ≠ [] → 61 ∉ n → ov ≠ Some [] →
  lits_ok lit ["="; ""]%string m a (a + Z.of_nat (length text) + 1) → (length text < fuel)%nat →
  ∃ save value save' m1,
    strtok_r fuel a (lit (chars "=")) NULL m = Ok ((a, save), m1) ∧
    strtok_r fuel NULL (lit (chars "")) save m1 = Ok ((value, save'), m1) ∧ cstr m1 a n ∧
    match ov with Some v => value = a + Z.of_nat (length n) + 1 ∧ cstr m1 value v | None => value = NULL end ∧
    same_outside m m1 a (a + Z.of_nat (length text) + 1) ∧ bytes_ok m1.
Proof.
  intros text Hm Hs Ha Hn Heq Hv Hl Hf. unfold text in *. rewrite length_app in Hf, Hl |- *.
  destruct (Hl "="%string ltac:(set_solver)) as (Hl1 & Hp1 & Ho1). destruct (Hl ""%string ltac:(set_solver)) as (Hl2 & Hp2 & Ho2).
  assert (Forall (λ c, c ∉ chars "=") n) as Hn'.
  { apply list.Forall_forall. intros c Hc. change (chars "=") with [61]. rewrite list_elem_of_singleton. intros ->. done. }
  pose proof (strtok_r_token m a n (match ov with Some v => 61 :: v | None => [] end) (lit (chars "=")) (chars "=") fuel a NULL) as E1.
  specialize (E1 Hm Hs Hl1 Ha Hp1). rewrite (proj2 (Z.eqb_neq a NULL)) in E1 by (unfold NULL; lia).
  specialize (E1 eq_refl Hn Hn'). destruct ov as [v|]; simpl in E1, Hf, Hl, Ho1, Ho2 |- *.
  - specialize (E1 ltac:(by apply list_elem_of_singleton) ltac:(lia) ltac:(simpl; lia)).
    set (e := a + Z.of_nat (length n)) in *. set (m1 := λ x, if x =? e then u8 0 else m x) in *.
    assert (same_outside m m1 e (e + 1)) as Hso by (intros x Hx; unfold m1; by rewrite (proj2 (Z.eqb_neq x e)) by lia).
    assert (cstr m1 (e + 1) v) as Hcv.
    { apply cstr_app in Hs. fold e in Hs. destruct Hs as (_ & _ & Hs). eapply cstr_ext; [|done]. intros x Hx. apply Hso. lia. }
    assert (bytes_ok m1) as Hm1 by (by apply store_ok).
    assert (v ≠ []) as Hvn by (by intros ->).
    pose proof (strtok_r_token m1 (e + 1) v [] (lit (chars "")) (chars "") fuel NULL (e + 1)) as E2.
    rewrite app_nil_r in E2. specialize (E2 Hm1 Hcv ltac:(eapply cstr_ext; [|exact Hl2]; intros x Hx; apply Hso; simpl in Hx; unfold e; lia)).
    specialize (E2 ltac:(unfold e; lia) Hp2 eq_refl Hvn ltac:(apply list.Forall_forall; intros ? ?; apply not_elem_of_nil) I ltac:(lia) ltac:(simpl; lia)).
    eexists _, _, _, m1. split; [exact E1|]. split; [exact E2|]. split_and!; try done.
    + pose proof (cstr_take m m1 (n ++ 61 :: v) a (length n)) as H. rewrite take_app_length in H.
      apply H; [rewrite length_app; lia|done|intros x Hx; apply Hso; unfold e; lia|]. fold e. unfold m1. by rewrite Z.eqb_refl.
    + intros x Hx. apply Hso. unfold e. lia.
  - specialize (E1 I ltac:(lia) ltac:(simpl; lia)). rewrite app_nil_r in Hs. set (e := a + Z.of_nat (length n)) in *.
    pose proof (strtok_r_end m e (lit (chars "")) (chars "") fuel NULL e Hm) as E2.
    specialize (E2 (cstr_end _ _ _ Hs) Hl2 ltac:(unfold e; lia) Hp2 eq_refl ltac:(simpl; lia)).
    eexists _, _, _, m. split; [exact E1|]. split; [exact E2|]. by split_and!.
Qed.

(** The next comparison of [parse_option] with a constant. *)
Ltac next_option H :=
  match goal with |- context [bind (is_option _ _ _ ?t) _ _] =>
    rewrite (bind_Ok (is_option _ _ _ t) _ _ _ _ (H t ltac:(by apply (bool_decide_unpack (t ∈ constants))))) end;
  match goal with |- context [bool_decide ?P] => let b := eval vm_compute in (bool_decide P) in change (bool_decide P) with b end;
  cbv iota.

Lemma option_names_run c name o : cstr (mem c) name (chars (opt_name o)) → 0 < name → (8 ≤ fuel)%nat →
  ∀ p e, lits_ok lit constants (mem c) p e →
  ∀ t, t ∈ constants → is_option lit fuel name t c = Ok (bool_decide (chars (opt_name o) = chars t), c).
Proof.
  intros Hn H0 Hf p e Hl t Ht. destruct (Hl t Ht) as (? & ? & _). apply is_option_run; try done.
  assert (length (chars (opt_name o)) ≤ 8)%nat by (destruct o; vm_compute; lia). lia.
Qed.

Lemma number_run m a v : cstr m a v → 0 < a → v ≠ [] → digits v → dec v < 2 ^ 31 → (length v ≤ fuel)%nat →
  atoi fuel a m = Ok (dec v, m) ∧ u32 (dec v) = dec v.
Proof.
  intros Hs Ha Hv Hd Hb Hf. pose proof (dec_from_ge v 0 ltac:(lia) Hd) as H0. change (dec_from 0 v) with (dec v) in H0. split.
  - pose proof (atoi_run m a [] [] 1 v [] fuel) as E. simpl in E. rewrite app_nil_r, Z.mul_1_l in E.
    apply E; [done|unfold NULL; lia|done|constructor|done|done|done|unfold in_s; lia|lia].
  - apply uwrap_id. unfold in_u. lia.
Qed.

(** What an option does to the settings. *)
Lemma parse_option_run c name value o : opt_ok o → cstr (mem c) name (chars (opt_name o)) → 0 < name → (8 ≤ fuel)%nat →
  (∀ v, opt_value o = Some v → 0 < value ∧ cstr (mem c) value v ∧ (length v ≤ fuel)%nat) →
  ∀ p e, lits_ok lit constants (mem c) p e →
  ∃ c', parse_option lit fuel name value c = Ok (false, c') ∧ mem c' = mem c ∧
    ∀ k q q', shows c k q → q ≤ q' → (∀ v, opt_value o = Some v → value + Z.of_nat (length v) < q') → shows c' (apply_opt k o) q'.
Proof.
  intros Ho Hn H0 Hf Hv p e Hl. pose proof (option_names_run c name o Hn H0 Hf p e Hl) as H. unfold parse_option.
  assert (∀ k q q', shows c k q → q ≤ q' → shows c k q') as Hmono.
  { intros k q q' [] Hq. split; try done; by eapply named_mono. }
  destruct o; cbn [opt_name opt_value] in H, Hv; repeat next_option H.
  6:{ destruct Ho as (Hne & Hd & Hb), (Hv _ eq_refl) as (Hp & Hc & Hlen).
    destruct (number_run (mem c) value number Hc Hp Hne Hd Hb Hlen) as [E Eu].
    rewrite (bind_Ok _ _ _ _ _ (on_mem_read _ _ _ E)), Eu. destruct (init_run (dec number)) as (g & Eg & _).
    unfold on_prng. erewrite bind_Ok by (by rewrite Eg). eexists. split; [done|]. split; [done|].
    intros [] q q' Hs Hq _. destruct (Hmono _ _ _ Hs Hq). by split. }
  7:{ destruct Ho as (Hne & Hd & Hb), (Hv _ eq_refl) as (Hp & Hc & Hlen).
    destruct (number_run (mem c) value number Hc Hp Hne Hd Hb Hlen) as [E Eu].
    rewrite (bind_Ok _ _ _ _ _ (on_mem_read _ _ _ E)), Eu. eexists. split; [done|]. split; [done|].
    intros [] q q' Hs Hq _. destruct (Hmono _ _ _ Hs Hq). by split. }
  all: eexists; split; [done|]; split; [done|]; intros [] q q' Hs Hq Hlt; destruct (Hmono _ _ _ Hs Hq); split; try done.
  all: destruct (Hv _ eq_refl) as (? & ? & _); simpl; by split_and!; try apply Hlt.
Qed.

Lemma on_settings_run {A} (f : B A) c a m : f (mem c) = Ok (a, m) →
  ∃ c', on_mem f c = Ok (a, c') ∧ mem c' = m ∧ prng c' = prng c ∧
    ∀ k q, (∀ x, x < q → m x = mem c x) → shows c k q → shows c' k q.
Proof.
  intros E. unfold on_mem. rewrite E. eexists. split; [done|]. split; [done|]. split; [done|].
  intros k q Hx []. split; try done; by apply (named_mono (mem c) m _ _ q q).
Qed.

Lemma opt_text_head o : ∃ t, opt_text o = 45 :: t ∧ chars (opt_name o) ≠ [] ∧ 61 ∉ chars (opt_name o).
Proof. destruct o; (eexists; split; [done|]; split; [done|]; by apply (bool_decide_unpack (_ ∉ _))). Qed.

(** One option: the strings before it keep their places and its own bytes are all that changes. *)
Lemma option_step_run c a o rest e : let e' := a + Z.of_nat (length (opt_text o)) + 1 in
  bytes_ok (mem c) → cstr (mem c) a (opt_text o) → 0 < a → opt_ok o → lits_ok lit constants (mem c) a e → e' ≤ e →
  (length (opt_text o) < fuel)%nat → (8 ≤ fuel)%nat →
  ∃ c', option_loop lit fuel (a :: rest) c = option_loop lit fuel rest c' ∧ same_outside (mem c) (mem c') a e' ∧
    bytes_ok (mem c') ∧ ∀ k q, q ≤ a → shows c k q → shows c' (apply_opt k o) e'.
Proof.
  intros e' Hm Hs Ha Ho Hl He Hf Hf8. destruct (opt_text_head o) as (t & Et & Hne & Heq).
  assert (opt_value o ≠ Some []) as Hv by (destruct o; simpl in *; intros [= ->]; tauto).
  cbn [option_loop]. erewrite (bind_Ok (on_mem (load a)) _ c) by (by apply on_mem_read).
  rewrite (cstr_head _ _ _ Hs), Et. rewrite Z.eqb_refl. cbv iota.
  destruct (split_run (mem c) a (chars (opt_name o)) (opt_value o) Hm Hs Ha Hne Heq Hv) as (save & value & save' & m1 & E1 & E2 & Hn & Hval & Hso & Hm1).
  { apply (lits_narrow lit _ _ a e); [lia|done|]. intros u Hu. apply Hl. set_solver. }
  { done. }
  destruct (on_settings_run _ c _ _ E1) as (c1 & F1 & Ec1 & _ & Hc1). rewrite (bind_Ok _ _ _ _ _ F1).
  rewrite <-Ec1 in E2. erewrite bind_Ok by (by apply on_mem_read).
  assert (lits_ok lit constants (mem c1) a e) as Hl1.
  { rewrite Ec1. apply (lits_frame lit _ (mem c) _ a e a); [lia| |done]. intros x Hx. apply Hso. unfold opt_text in e'. lia. }
  subst m1. assert (Z.of_nat (length (opt_text o)) = Z.of_nat (length (chars (opt_name o))) + match opt_value o with Some v => Z.of_nat (length v) + 1 | None => 0 end) as El.
  { unfold opt_text. rewrite length_app. destruct (opt_value o); simpl; lia. }
  destruct (parse_option_run c1 a value o Ho Hn Ha Hf8) with (p := a) (e := e) as (c' & F2 & Ec' & Hc'); [|done|].
  { intros v Ev. rewrite Ev in Hval, El. destruct Hval as [-> Hcv]. split; [lia|]. split; [done|lia]. }
  rewrite (bind_Ok _ _ _ _ _ F2). exists c'. rewrite Ec'. split; [done|]. split; [done|]. split; [done|].
  intros k q Hq Hk. apply (Hc' k q).
  - apply Hc1; [|done]. intros x Hx. apply Hso. lia.
  - unfold e'. lia.
  - intros v Ev. rewrite Ev in Hval, El. destruct Hval as [-> _]. unfold e'. lia.
Qed.

Lemma option_loop_run os acts e : ∀ c p k,
  let ss := (opt_text <$> os) ++ acts in
  bytes_ok (mem c) → args_at (mem c) p ss → 0 < p → Forall opt_ok os → match acts with (45 :: _) :: _ => False | _ => True end →
  lits_ok lit constants (mem c) p e → p + room ss ≤ e → room ss < Z.of_nat fuel → (8 ≤ fuel)%nat → shows c k p →
  ∃ c' p', option_loop lit fuel (addrs p ss) c = Ok (Actions (drop (length os) (addrs p ss)), c') ∧
    same_outside (mem c) (mem c') p p' ∧ p ≤ p' ≤ e ∧ bytes_ok (mem c') ∧ shows c' (foldl apply_opt k os) p' ∧
    drop (length os) (addrs p ss) = addrs p' acts ∧ args_at (mem c') p' acts.
Proof.
  induction os as [|o os IH]; intros c p k ss Hm Ha Hp Ho Hd Hl He Hf Hf8 Hk; subst ss;
    cbn [fmap list_fmap app addrs room foldl length drop args_at] in *.
  - exists c, p. pose proof (room_nonneg acts). rewrite drop_0. split_and!; try done; try lia. destruct acts as [|t acts]; [done|]. cbn [addrs option_loop].
    destruct Ha as [Ht _]. erewrite (bind_Ok (on_mem (load p)) _ c) by (by apply on_mem_read). rewrite (cstr_head _ _ _ Ht).
    destruct t as [|x t]; [done|]. by destruct (Z.eqb_spec x 45) as [->|].
  - apply list.Forall_cons in Ho as [Ho Hos]. destruct Ha as [Ht Ha]. pose proof (room_nonneg ((opt_text <$> os) ++ acts)).
    destruct (option_step_run c p o (addrs (p + Z.of_nat (length (opt_text o)) + 1) ((opt_text <$> os) ++ acts)) e Hm Ht Hp Ho Hl)
      as (c1 & -> & Hso & Hm1 & Hk1); [lia|lia|lia|]. set (p1 := p + Z.of_nat (length (opt_text o)) + 1) in *.
    destruct (IH c1 p1 (apply_opt k o)) as (c' & p' & E & Hso' & Hp' & Hm' & Hk' & Ed & Har); try done; try lia.
    + eapply args_ext; [|exact Ha]. intros x Hx. apply Hso. lia.
    + apply (lits_frame lit _ (mem c) (mem c1) p); [lia| |done]. intros x Hx. apply Hso. lia.
    + by apply (Hk1 k p).
    + exists c', p'. split; [done|]. split; [|split_and!; try done; lia].
      intros x Hx. rewrite Hso', Hso by lia. done.
Qed.
End Parsing.

(** C27. Options are read as they are documented: for a command line of options followed by arguments that
    are not options, [parse_options] stops at the first of these, the settings are what the options say one after the other,
    with the names of devices as strings of their own, and the strings behind the options are untouched.
    The generator is left as seeding it with the time leaves it, whatever seed an option gave. *)
Theorem parse_options_correct (lit : list Z → Z) (now : Z) (fuel : nat) (c : settings) (k : config) (p e : Z)
    (os : list opt) (acts : list (list Z)) :
  bytes_ok (mem c) → args_at (mem c) p ((opt_text <$> os) ++ acts) → 0 < p → Forall opt_ok os →
  match acts with (45 :: _) :: _ => False | _ => True end →
  lits_ok lit constants (mem c) p e → p + room ((opt_text <$> os) ++ acts) ≤ e →
  room ((opt_text <$> os) ++ acts) < Z.of_nat fuel → (8 ≤ fuel)%nat → shows c k p →
  ∃ c' p', parse_options lit now fuel (addrs p ((opt_text <$> os) ++ acts)) c = Ok (Actions (addrs p' acts), c') ∧
    args_at (mem c') p' acts ∧ shows c' (foldl apply_opt k os) p' ∧
    same_outside (mem c) (mem c') p p' ∧ (∀ g, random_init now g = Ok (tt, prng c')).
Proof.
  intros Hm Ha Hp Ho Hd Hl He Hf Hf8 Hk.
  destruct (option_loop_run lit fuel os acts e c p k Hm Ha Hp Ho Hd Hl He Hf Hf8 Hk)
    as (c1 & p' & E & Hso & Hp' & Hm' & Hk' & Ed & Har).
  unfold parse_options. rewrite (bind_Ok _ _ _ _ _ E), Ed. destruct (init_run now) as (g & Eg & _).
  exists (mk_settings (mem c1) (format_filesys c1) (filesys_bdev_name c1) (scratch_bdev_name c1) (user_page_limit c1)
           (thread_mlfqs c1) (how c1) g), p'.
  unfold on_prng. erewrite bind_Ok by (by rewrite Eg). split; [done|]. split; [done|]. split; [|split; [done|exact Eg]].
  destruct Hk'. by split.
Qed.

(** The command line [-f -filesys=hdb1 -rs=42 -ul=9 run x] at 1000, and the string constants behind it. *)
Definition sample_options : list opt := [Format; Filesys (chars "hdb1"); Seed (chars "42"); Limit (chars "9")].
Definition sample_actions : list (list Z) := [chars "run"; chars "x"].
Definition sample_line : list (list Z) := (opt_text <$> sample_options) ++ sample_actions.
Definition place (ss : list (list Z)) (x : Z) : Z :=
  if x <? 1000 then 0 else default 0 ((ss ≫= (λ t, t ++ [0])) !! Z.to_nat (x - 1000)).
Definition sample_boot_memory : memory := place (sample_line ++ (chars <$> constants)).
Definition sample_lit (t : list Z) : Z :=
  match list_find (λ u, u = t) (chars <$> constants) with
  | Some (i, _) => default 0 (addrs 1000 (sample_line ++ (chars <$> constants)) !! (length sample_line + i)%nat)
  | None => 0
  end.
Definition sample_settings : settings :=
  mk_settings sample_boot_memory false NULL NULL (2 ^ 32 - 1) false SHUTDOWN_NONE (mk_generator [] 0 0 false).

Lemma place_bytes ss : Forall (Forall (λ c, 0 < c < 256)) ss → bytes_ok (place ss).
Proof.
  intros Hs x. unfold place. destruct (x <? 1000); [done|].
  destruct ((ss ≫= (λ t, t ++ [0])) !! Z.to_nat (x - 1000)) as [b|] eqn:E; [|done]. apply list_elem_of_lookup_2 in E.
  apply list_elem_of_bind in E as (t & Hb & Ht). rewrite list.Forall_forall in Hs. specialize (Hs t Ht).
  apply elem_of_app in Hb as [Hb|Hb%list_elem_of_singleton]; simpl; [|lia]. rewrite list.Forall_forall in Hs. specialize (Hs b Hb). lia.
Qed.

(** Decides whether a string is at an address. *)
Fixpoint is_cstr (m : memory) (a : Z) (t : list Z) : bool :=
  match t with
  | [] => m a =? 0
  | c :: t => (0 <? c) && (c <? 256) && (m a =? c) && is_cstr m (a + 1) t
  end.
Lemma is_cstr_ok m t : ∀ a, is_cstr m a t = true → cstr m a t.
Proof.
  induction t as [|c t IH]; intros a H; simpl in *; [by apply Z.eqb_eq|].
  repeat (apply andb_true_iff in H as [H ?]). rewrite Z.ltb_lt in *. rewrite Z.eqb_eq in *. split; [done|]. split; [done|]. by apply IH.
Qed.

Lemma sample_args_ok : args_at sample_boot_memory 1000 sample_line.
Proof. repeat (split; [apply is_cstr_ok; by vm_compute|]). done. Qed.

Lemma sample_lits_ok : lits_ok sample_lit constants sample_boot_memory 1000 (1000 + room sample_line).
Proof.
  unfold lits_ok. rewrite <-list.Forall_forall. unfold constants.
  repeat (constructor; [split; [apply is_cstr_ok; by vm_compute|split; [by vm_compute|right; by vm_compute]]|]). constructor.
Qed.

Lemma parse_options_correct_witness :
  ∃ c' p', parse_options sample_lit 5 128 (addrs 1000 sample_line) sample_settings = Ok (Actions (addrs p' sample_actions), c') ∧
    shows c' (mk_config true (Some (chars "hdb1")) None 9 false SHUTDOWN_NONE) p' ∧ (∀ g, random_init 5 g = Ok (tt, prng c')).
Proof.
  destruct (parse_options_correct sample_lit 5 128 sample_settings (mk_config false None None (2 ^ 32 - 1) false SHUTDOWN_NONE)
    1000 (1000 + room sample_line) sample_options sample_actions) as (c' & p' & E & _ & Hk & _ & Hg).
  - apply place_bytes. unfold sample_line. by apply (bool_decide_unpack (Forall _ _)).
  - exact sample_args_ok.
  - lia.
  - repeat constructor; try done; by vm_compute.
  - exact I.
  - exact sample_lits_ok.
  - by vm_compute.
  - by vm_compute.
  - lia.
  - split; reflexivity.
  - exists c', p'. exact (conj E (conj Hk Hg)).
Defined.

(** ** What the actions mean *)

Definition act_name (f : action) : string :=
  match f with
  | run_task => "run" | fsutil_ls => "ls" | fsutil_cat => "cat" | fsutil_rm => "rm"
  | fsutil_extract => "extract" | fsutil_append => "append"
  end.
(** The arguments behind the name. *)
Definition act_args (f : action) : nat :=
  match f with run_task | fsutil_cat | fsutil_rm | fsutil_append => 1 | fsutil_ls | fsutil_extract => 0 end.
Definition act_text (a : action * list (list Z)) : list (list Z) := chars (act_name a.1) :: a.2.

Definition action_names : list string := ["run"; "ls"; "cat"; "rm"; "extract"; "append"]%string.

Lemma addrs_drop ss ts : ∀ p, drop (length ss) (addrs p (ss ++ ts)) = addrs (p + room ss) ts.
Proof.
  induction ss as [|t ss IH]; intros p; cbn [length app addrs room drop].
  - by rewrite Z.add_0_r.
  - rewrite IH. f_equal. lia.
Qed.
Lemma addrs_length ss : ∀ p, length (addrs p ss) = length ss.
Proof. induction ss as [|t ss IH]; intros p; simpl; [done|]. by rewrite IH. Qed.
Lemma args_app m ss ts : ∀ p, args_at m p (ss ++ ts) → args_at m (p + room ss) ts.
Proof.
  induction ss as [|t ss IH]; intros p; simpl.
  - by rewrite Z.add_0_r.
  - intros [_ H]. apply IH in H. by replace (p + (Z.of_nat (length t) + 1 + room ss)) with (p + Z.of_nat (length t) + 1 + room ss) by lia.
Qed.
Lemma room_app ss ts : room (ss ++ ts) = room ss + room ts.
Proof. induction ss; simpl; lia. Qed.

Section Acting.
Context {K : Type} (memory_of : K → memory) (lit : list Z → Z) (fuel : nat) (perform : action → list Z → M K unit).

(** The command line is from [lo] to [hi]; actions change neither it nor the names of the actions. *)
Context (lo hi : Z).
Definition ready (k : K) : Prop := lits_ok lit action_names (memory_of k) lo hi.
Hypothesis perform_keeps : ∀ f argv k k', perform f argv k = Ok (tt, k') → ready k →
  ready k' ∧ ∀ x, lo ≤ x < hi → memory_of k' x = memory_of k x.

(** The calls for the actions at [p], with [ts] behind them. *)
Fixpoint perform_all (acts : list (action * list (list Z))) (p : Z) (ts : list (list Z)) : M K unit :=
  match acts with
  | [] => ret tt
  | a :: acts =>
      let! _ := perform a.1 (addrs p (act_text a ++ (acts ≫= act_text) ++ ts)) in
      perform_all acts (p + room (act_text a)) ts
  end.

Lemma find_step k arg n name argc f table : cstr (memory_of k) arg n → 0 < arg → (length n ≤ fuel)%nat → ready k → name ∈ action_names →
  find_action memory_of lit fuel arg ((name, argc, f) :: table) k =
    if bool_decide (n = chars name) then Ok ((argc, f), k) else find_action memory_of lit fuel arg table k.
Proof.
  intros Hn H0 Hf Hr Ht. destruct (Hr name Ht) as (Hc & Hl & _). cbn [find_action].
  destruct (strcmp_run (memory_of k) arg (lit (chars name)) n (chars name) fuel Hn Hc) as (r & E & Hr'); [unfold NULL; lia..|done|].
  rewrite (bind_Ok _ _ k r k) by (unfold peek_mem; by rewrite E).
  destruct (Z.eqb_spec r 0); [by rewrite bool_decide_eq_true_2 by tauto|by rewrite bool_decide_eq_false_2 by tauto].
Qed.

(** The next row of the table. *)
Ltac next_row Hn H0 Hl Hr :=
  match goal with |- context [find_action _ _ _ _ ((?t, _, _) :: _) _] =>
    rewrite (find_step _ _ _ t _ _ _ Hn H0 Hl Hr ltac:(by apply (bool_decide_unpack (t ∈ action_names)))) end.

Lemma find_action_run k arg f : cstr (memory_of k) arg (chars (act_name f)) → 0 < arg → (7 ≤ fuel)%nat → ready k →
  find_action memory_of lit fuel arg actions k = Ok ((S (act_args f), f), k).
Proof.
  intros Hn H0 Hf Hr. assert (length (chars (act_name f)) ≤ fuel)%nat as Hl.
  { assert (length (chars (act_name f)) ≤ 7)%nat by (destruct f; vm_compute; lia). lia. }
  unfold actions. do 6 next_row Hn H0 Hl Hr. by destruct f.
Qed.

Lemma find_action_unknown k arg n : cstr (memory_of k) arg n → 0 < arg → (length n ≤ fuel)%nat → ready k →
  n ∉ chars <$> action_names → find_action memory_of lit fuel arg actions k = Panic.
Proof.
  intros Hn H0 Hl Hr Hu. assert (∀ t, t ∈ action_names → n ≠ chars t) as Hne.
  { intros t Ht ->. apply Hu. by apply list_elem_of_fmap_2. }
  unfold actions.
  do 6 (next_row Hn H0 Hl Hr; rewrite bool_decide_eq_false_2 by (apply Hne; by apply (bool_decide_unpack (_ ∈ action_names)))). done.
Qed.

Lemma run_actions_run acts ts n : ∀ k p, let ss := (acts ≫= act_text) ++ ts in
  args_at (memory_of k) p ss → lo ≤ p → 0 < p → p + room ss ≤ hi → (7 ≤ fuel)%nat → ready k →
  Forall (λ a, length a.2 = act_args a.1) acts →
  run_actions memory_of lit fuel perform (length acts + n) (addrs p ss) k =
    (let! _ := perform_all acts p ts in run_actions memory_of lit fuel perform n (addrs (p + room (acts ≫= act_text)) ts)) k.
Proof.
  induction acts as [|[f args] acts IH]; intros k p ss Ha Hp H0 He Hf Hr Hl; subst ss.
  { cbn. by rewrite Z.add_0_r. }
  apply list.Forall_cons in Hl as [Hlen Hl]. cbn [fst snd] in Hlen.
  assert ((((f, args) :: acts) ≫= act_text) ++ ts = act_text (f, args) ++ ((acts ≫= act_text) ++ ts)) as Es by (by rewrite bind_cons, app_assoc).
  rewrite Es in Ha, He |- *. pose proof Ha as Ha'. destruct Ha as [Hn _]. cbn [fst snd] in Hn. rewrite room_app in He.
  pose proof (room_nonneg ((acts ≫= act_text) ++ ts)) as Hrn.
  cbn [length Nat.add perform_all fst snd]. change (act_text (f, args) ++ (acts ≫= act_text) ++ ts) with (chars (act_name f) :: (args ++ (acts ≫= act_text) ++ ts)).
  cbn [addrs run_actions]. rewrite (bind_Ok _ _ _ _ _ (find_action_run k p f Hn H0 Hf Hr)).
  rewrite (proj2 (Nat.ltb_ge _ _)) by (cbn [length]; rewrite addrs_length, length_app; lia).
  change (p :: addrs (p + Z.of_nat (length (chars (act_name f))) + 1) (args ++ (acts ≫= act_text) ++ ts)) with (addrs p (act_text (f, args) ++ (acts ≫= act_text) ++ ts)).
  unfold bind at 1. unfold bind at 1. unfold bind at 1. destruct (perform f _ k) as [[[] k1]| | |] eqn:E; [|done..].
  destruct (perform_keeps _ _ _ _ E Hr) as [Hr1 Hx].
  replace (S (act_args f)) with (length (act_text (f, args))) by (simpl; by rewrite Hlen). rewrite addrs_drop.
  rewrite IH; try done; try lia.
  - rewrite bind_cons, room_app, Z.add_assoc. done.
  - eapply args_ext; [|by apply args_app]. intros x Hxx. apply Hx. pose proof (room_nonneg (act_text (f, args))). lia.
  - pose proof (room_nonneg (act_text (f, args))). lia.
  - pose proof (room_nonneg (act_text (f, args))). lia.
Qed.

Lemma perform_all_keeps acts ts k' : ∀ k p, perform_all acts p ts k = Ok (tt, k') → ready k →
  ready k' ∧ ∀ x, lo ≤ x < hi → memory_of k' x = memory_of k x.
Proof.
  induction acts as [|a acts IH]; intros k p E Hr; cbn [perform_all] in E; [by injection E as <-|].
  apply bind_inv in E as ([] & k1 & E1 & E). destruct (perform_keeps _ _ _ _ E1 Hr) as [Hr1 Hx].
  destruct (IH _ _ E Hr1) as [Hr' Hx']. split; [done|]. intros x Hxx. by rewrite Hx', Hx.
Qed.

(** The actions of a command line are performed in their order, each with its arguments. A
    word that is no action, and an action whose argument is missing, stop the kernel after the
    actions before it. *)
Theorem run_actions_correct acts ts n k p :
  args_at (memory_of k) p ((acts ≫= act_text) ++ ts) → lo ≤ p → 0 < p → p + room ((acts ≫= act_text) ++ ts) ≤ hi →
  (7 ≤ fuel)%nat → room ts ≤ Z.of_nat fuel → ready k → Forall (λ a, length a.2 = act_args a.1) acts →
  let run := run_actions memory_of lit fuel perform (length acts + S n) (addrs p ((acts ≫= act_text) ++ ts)) k in
  (ts = [] → run = perform_all acts p ts k) ∧
  (∀ t ts', ts = t :: ts' → t ∉ chars <$> action_names → run = (let! _ := perform_all acts p ts in panic) k) ∧
  (∀ f, ts = [chars (act_name f)] → act_args f = 1%nat → run = (let! _ := perform_all acts p ts in panic) k).
Proof.
  intros Ha Hp H0 He Hf Hfr Hr Hl run. unfold run. rewrite (run_actions_run acts ts (S n) k p Ha Hp H0 He Hf Hr Hl).
  rewrite room_app in He. pose proof (room_nonneg (acts ≫= act_text)) as Hrn.
  assert (∀ k', perform_all acts p ts k = Ok (tt, k') → ready k' ∧ args_at (memory_of k') (p + room (acts ≫= act_text)) ts) as Hk.
  { intros k' E. destruct (perform_all_keeps acts ts k' k p E Hr) as [Hr' Hx]. split; [done|].
    eapply args_ext; [|by apply args_app]. intros x Hxx. apply Hx. lia. }
  unfold bind. destruct (perform_all acts p ts k) as [[[] k']| | |] eqn:E; [|by split_and!; intros; subst..].
  destruct (Hk k' eq_refl) as [Hr' Ha']. split_and!.
  - intros ->. done.
  - intros t ts' -> Hu. destruct Ha' as [Ht _]. cbn [addrs run_actions]. simpl in Hfr. pose proof (room_nonneg ts').
    unfold bind. by rewrite (find_action_unknown k' _ t Ht) by (done || lia).
  - intros f -> H1. destruct Ha' as [Ht _]. cbn [addrs run_actions].
    rewrite (bind_Ok _ _ _ _ _ (find_action_run k' _ f Ht ltac:(lia) Hf Hr')). by rewrite H1.
Qed.
End Acting.
