(* ===== verification/Registry.v ===== *)
(** * The registry of block devices (devices/block.c) and the roles they get (threads/init.c)

    [all_blocks] is the sequence of the registered descriptors; that the intrusive list implements
    a sequence is shown for lib/kernel/list.c.  Names are strings in memory, in the descriptors.
    The [n]-th call of [malloc] returns [malloc n]; messages on the console are left out. *)

From S2P Require Import Prelude FsState Block Palloc CString CStringSpec.

(** ** Descriptors *)

(** [struct block] without the driver's operations; the name is in memory. *)
Record descriptor := mk_descriptor { d_addr : Z; d_type : block_type; d_size : Z }.

Definition NAME_OFFSET : Z := 8.
Definition NAME_SIZE : Z := 16.
Definition BLOCK_ROLE_CNT : Z := 4.

(** The number of an enumeration constant. *)
Definition type_no (t : block_type) : Z :=
  match t with
  | BLOCK_KERNEL => 0 | BLOCK_FILESYS => 1 | BLOCK_SCRATCH => 2 | BLOCK_SWAP => 3 | BLOCK_RAW => 4 | BLOCK_FOREIGN => 5
  end.

Record registry := mk_registry {
  names : memory;
  all_blocks : list descriptor;
  block_by_role : list Z;
  malloc_cnt : nat }.

Abbreviation R := (M registry).

Definition on_names {A} (f : B A) : R A := λ r,
  let? '(a, m) := f (names r) in Ok (a, mk_registry m (all_blocks r) (block_by_role r) (malloc_cnt r)).

Section Registry.
Context (malloc : nat → Z) (fuel : nat).

Definition block_get_role (role : block_type) : R Z :=
  let! _ := ASSERT (type_no role <? BLOCK_ROLE_CNT) in
  λ r, match block_by_role r !! Z.to_nat (type_no role) with Some b => Ok (b, r) | None => Undef end.
Definition block_set_role (role : block_type) (block : Z) : R unit :=
  let! _ := ASSERT (type_no role <? BLOCK_ROLE_CNT) in
  modify (λ r, mk_registry (names r) (all_blocks r) (<[Z.to_nat (type_no role) := block]> (block_by_role r)) (malloc_cnt r)).

(** [list_elem_to_block]: a null pointer at the end of the list. *)
Definition to_block (ds : list descriptor) : Z := match ds with [] => NULL | d :: _ => d_addr d end.
Definition block_first : R Z := gets (λ r, to_block (all_blocks r)).
(** The descriptors behind [block]. *)
Fixpoint behind (block : Z) (ds : list descriptor) : option (list descriptor) :=
  match ds with
  | [] => None
  | d :: ds => if d_addr d =? block then Some ds else behind block ds
  end.
Definition block_next (block : Z) : R Z := λ r,
  match behind block (all_blocks r) with Some ds => Ok (to_block ds, r) | None => Undef end.

Fixpoint name_loop (name : Z) (ds : list descriptor) : R Z :=
  match ds with
  | [] => ret NULL
  | d :: ds =>
      let! c := on_names (strcmp fuel name (d_addr d + NAME_OFFSET)) in
      if c =? 0 then ret (d_addr d) else name_loop name ds
  end.
Definition block_get_by_name (name : Z) : R Z :=
  let! ds := gets all_blocks in name_loop name ds.

Fixpoint find_descriptor (block : Z) (ds : list descriptor) : option descriptor :=
  match ds with
  | [] => None
  | d :: ds => if d_addr d =? block then Some d else find_descriptor block ds
  end.
Definition block_type_of (block : Z) : R block_type := λ r,
  match find_descriptor block (all_blocks r) with Some d => Ok (d_type d, r) | None => Undef end.

Definition block_register (name : Z) (type : block_type) (size : Z) : R Z :=
  let! n := gets malloc_cnt in
  let block := malloc n in
  let! _ := modify (λ r, mk_registry (names r) (all_blocks r) (block_by_role r) (S (malloc_cnt r))) in
  if block =? NULL then panic
  else
    let! _ := on_names (strlcpy fuel (block + NAME_OFFSET) name NAME_SIZE) in
    let! _ := modify (λ r, mk_registry (names r) (all_blocks r ++ [mk_descriptor block type size]) (block_by_role r) (malloc_cnt r)) in
    ret block.

(** ** Roles *)

(** The loop over the devices; [n] bounds its rounds. *)
Fixpoint role_loop (n : nat) (role : block_type) (block : Z) : R Z :=
  if block =? NULL then ret NULL
  else
    match n with
    | O => out_of_fuel
    | S n =>
        let! t := block_type_of block in
        if bool_decide (t = role) then ret block
        else let! block := block_next block in role_loop n role block
    end.

Definition locate_block_device (role : block_type) (name : Z) : R unit :=
  let! block :=
    (if negb (name =? NULL) then
       let! block := block_get_by_name name in
       if block =? NULL then panic else ret block
     else
       let! n := gets (λ r, length (all_blocks r)) in
       let! first := block_first in
       role_loop n role first) in
  if negb (block =? NULL) then block_set_role role block else ret tt.

(** Without virtual memory there is no swap device. *)
Definition locate_block_devices (filesys_bdev_name scratch_bdev_name : Z) : R unit :=
  let! _ := locate_block_device BLOCK_FILESYS filesys_bdev_name in
  locate_block_device BLOCK_SCRATCH scratch_bdev_name.
End Registry.

(** ** What is registered *)

(** A device as its users see it. *)
Record device := mk_device { dev_addr : Z; dev_name : list Z; dev_type : block_type; dev_size : Z }.

Definition is_device (m : memory) (d : descriptor) (v : device) : Prop :=
  d_addr d = dev_addr v ∧ d_type d = dev_type v ∧ d_size d = dev_size v ∧ 0 < d_addr d ∧
  cstr m (d_addr d + NAME_OFFSET) (dev_name v) ∧ Z.of_nat (length (dev_name v)) < NAME_SIZE.

(** Every descriptor is a device and has its own bytes. *)
Record listed (r : registry) (vs : list device) : Prop := {
  li_devices : Forall2 (is_device (names r)) (all_blocks r) vs;
  li_distinct : NoDup (d_addr <$> all_blocks r);
  li_roles : length (block_by_role r) = 4%nat;
  li_bytes : bytes_ok (names r) }.

Lemma on_names_read {A} (f : B A) r a : f (names r) = Ok (a, names r) → on_names f r = Ok (a, r).
Proof. unfold on_names. intros ->. by destruct r. Qed.

(** The first device with a name. *)
Definition by_name (n : list Z) (vs : list device) : option device := snd <$> list_find (λ v, dev_name v = n) vs.
(** The first device of a type. *)
Definition by_type (t : block_type) (vs : list device) : option device := snd <$> list_find (λ v, dev_type v = t) vs.

Lemma by_name_run fuel r name n vs : cstr (names r) name n → 0 < name → (length n ≤ fuel)%nat → ∀ ds,
  Forall2 (is_device (names r)) ds vs →
  name_loop fuel name ds r = Ok (match by_name n vs with Some v => dev_addr v | None => NULL end, r).
Proof.
  intros Hn H0 Hf ds Hd. induction Hd as [|d v ds vs Hv Hd IH]; [done|]. cbn [name_loop]. unfold by_name. simpl.
  destruct Hv as (Ea & _ & _ & Hp & Hc & _).
  destruct (strcmp_run (names r) name (d_addr d + NAME_OFFSET) n (dev_name v) fuel Hn Hc) as (c & E & Hr); [unfold NULL, NAME_OFFSET; lia..|done|].
  rewrite (bind_Ok _ _ _ _ _ (on_names_read _ _ _ E)). destruct (Z.eqb_spec c 0) as [Hc0|Hc0].
  - rewrite decide_True by (symmetry; tauto). simpl. by rewrite Ea.
  - rewrite decide_False by (intros H; apply Hc0, Hr; done). rewrite IH. unfold by_name. by destruct (list_find _ vs) as [[]|].
Qed.

Lemma behind_app ds1 d ds2 : d_addr d ∉ d_addr <$> ds1 → behind (d_addr d) (ds1 ++ d :: ds2) = Some ds2.
Proof.
  induction ds1 as [|x ds1 IH]; simpl; intros H; [by rewrite Z.eqb_refl|]. apply not_elem_of_cons in H as [H1 H2].
  rewrite (proj2 (Z.eqb_neq _ _)) by congruence. by apply IH.
Qed.
Lemma find_descriptor_app ds1 d ds2 : d_addr d ∉ d_addr <$> ds1 → find_descriptor (d_addr d) (ds1 ++ d :: ds2) = Some d.
Proof.
  induction ds1 as [|x ds1 IH]; simpl; intros H; [by rewrite Z.eqb_refl|]. apply not_elem_of_cons in H as [H1 H2].
  rewrite (proj2 (Z.eqb_neq _ _)) by congruence. by apply IH.
Qed.

Lemma role_loop_run r role vs2 : ∀ n ds1 ds2, all_blocks r = ds1 ++ ds2 → NoDup (d_addr <$> all_blocks r) →
  Forall2 (is_device (names r)) ds2 vs2 → (length ds2 ≤ n)%nat →
  role_loop n role (to_block ds2) r = Ok (match by_type role vs2 with Some v => dev_addr v | None => NULL end, r).
Proof.
  intros n ds1 ds2 Es Hnd Hd. revert n ds1 Es. induction Hd as [|d v ds vs Hv Hd IH]; intros n ds1 Es Hn; simpl in Hn.
  { by destruct n. }
  destruct n as [|n]; [lia|]. destruct Hv as (Ea & Et & _ & Hp & _). cbn [role_loop to_block].
  rewrite (proj2 (Z.eqb_neq _ NULL)) by (unfold NULL; lia).
  assert (d_addr d ∉ d_addr <$> ds1) as Hni.
  { rewrite Es, fmap_app in Hnd. apply list.NoDup_app in Hnd as (_ & Hdis & _). intros H. apply (Hdis _ H). simpl. left. }
  rewrite (bind_Ok _ _ r (d_type d) r) by (unfold block_type_of; by rewrite Es, find_descriptor_app).
  unfold by_type. simpl. rewrite Et. case_bool_decide as Ht; [rewrite decide_True by done; simpl; by rewrite Ea|].
  rewrite decide_False by done. rewrite (bind_Ok _ _ r (to_block ds) r) by (unfold block_next; by rewrite Es, behind_app).
  rewrite (IH n (ds1 ++ [d])); [|by rewrite <-app_assoc|lia]. unfold by_type. by destruct (list_find _ vs) as [[]|].
Qed.

(** Registering appends the device, with its name cut off after 15 characters. *)
Theorem block_register_correct malloc fuel r vs name n type size : listed r vs → cstr (names r) name n → 0 < name → (length n ≤ fuel)%nat →
  let b := malloc (malloc_cnt r) in
  0 < b → Forall (λ v, dev_addr v + NAME_SIZE ≤ b ∨ b + NAME_SIZE ≤ dev_addr v) vs →
  b + NAME_OFFSET + NAME_SIZE ≤ name ∨ name + Z.of_nat (length n) < b + NAME_OFFSET →
  ∃ r', block_register malloc fuel name type size r = Ok (b, r') ∧ listed r' (vs ++ [mk_device b (take 15 n) type size]) ∧
    same_outside (names r) (names r') (b + NAME_OFFSET) (b + NAME_OFFSET + NAME_SIZE) ∧ block_by_role r' = block_by_role r.
Proof.
  intros [Hd Hnd Hro Hm] Hn H0 Hf b Hb Hfree Ho. unfold block_register.
  rewrite (bind_Ok _ _ r _ r eq_refl). fold b. rewrite (bind_Ok _ _ r tt _ eq_refl). rewrite (proj2 (Z.eqb_neq b NULL)) by (unfold NULL; lia).
  destruct (strlcpy_run (names r) (b + NAME_OFFSET) name n NAME_SIZE fuel Hm Hn) as (m' & E & Hso & Hm' & Hc);
    [unfold NULL, NAME_OFFSET; lia..|unfold NAME_SIZE; lia|lia|done|].
  erewrite bind_Ok by (unfold on_names; cbn; by rewrite E). cbn. eexists. split; [done|]. unfold NAME_SIZE, NAME_OFFSET in *.
  assert (same_outside (names r) m' (b + 8) (b + 8 + 16)) as Hso' by (intros x Hx; apply Hso; lia).
  split; [|by split]. split; cbn; [|..|done|done].
  - apply Forall2_app.
    + rewrite list.Forall_forall in Hfree. apply Forall2_same_length_lookup_2; [by eapply Forall2_length|].
      intros i d v Hdi Hvi. pose proof (Forall2_lookup_lr _ _ _ _ _ _ Hd Hdi Hvi) as (? & ? & ? & ? & Hcs & Hl).
      split_and!; try done. eapply cstr_ext; [|exact Hcs]. intros x Hx. apply Hso'. unfold NAME_SIZE, NAME_OFFSET in *.
      specialize (Hfree v ltac:(by eapply list_elem_of_lookup_2)). lia.
    + constructor; [|constructor]. unfold is_device, NAME_OFFSET, NAME_SIZE. simpl. split_and!; try done; [by apply Hc|rewrite length_take; lia].
  - rewrite fmap_app. apply list.NoDup_app. split; [done|]. split; [|simpl; apply list.NoDup_singleton].
    intros x Hx ->%list_elem_of_singleton. simpl in Hx. apply list_elem_of_fmap in Hx as (d & -> & Hdin).
    apply list_elem_of_lookup_1 in Hdin as [i Hi]. destruct (Forall2_lookup_l _ _ _ _ _ Hd Hi) as (v & Hvi & (Ea & _)).
    rewrite list.Forall_forall in Hfree. specialize (Hfree v ltac:(by eapply list_elem_of_lookup_2)). lia.
Qed.

(** The device a role goes to: the first with the name, or the first of the type. *)
Definition chosen (role : block_type) (name : option (list Z)) (vs : list device) : option device :=
  match name with Some n => by_name n vs | None => by_type role vs end.

(** A role goes to the first device with the name that was given, which there must be, or else to
    the first device of its type, and to none when there is none. *)
Theorem locate_block_device_correct fuel r vs role name n : listed r vs → type_no role < BLOCK_ROLE_CNT →
  match n with Some n => 0 < name ∧ cstr (names r) name n ∧ (length n ≤ fuel)%nat | None => name = NULL end →
  locate_block_device fuel role name r =
    match chosen role n vs, n with
    | Some v, _ => Ok (tt, mk_registry (names r) (all_blocks r) (<[Z.to_nat (type_no role) := dev_addr v]> (block_by_role r)) (malloc_cnt r))
    | None, Some _ => Panic
    | None, None => Ok (tt, r)
    end.
Proof.
  intros [Hd Hnd Hro Hm] Hrole Hn. unfold locate_block_device.
  assert (∀ v (P : device → Prop) `{∀ v, Decision (P v)}, snd <$> list_find P vs = Some v → dev_addr v ≠ NULL) as Hnn.
  { intros v P HP Hf. destruct (list_find P vs) as [[i w]|] eqn:El; [|done]. injection Hf as <-.
    apply list_find_Some in El as (Hi & _). destruct (Forall2_lookup_r _ _ _ _ _ Hd Hi) as (d & _ & (Ea & _ & _ & Hp & _)). simpl. unfold NULL. lia. }
  assert (∀ b, b ≠ NULL → (if negb (b =? NULL) then block_set_role role b else ret tt) r =
    Ok (tt, mk_registry (names r) (all_blocks r) (<[Z.to_nat (type_no role) := b]> (block_by_role r)) (malloc_cnt r))) as Hset.
  { intros b Hb. rewrite (proj2 (Z.eqb_neq _ _)) by done. cbn [negb]. unfold block_set_role. by rewrite (proj2 (Z.ltb_lt _ _)). }
  destruct n as [n|]; simpl chosen.
  - destruct Hn as (H0 & Hc & Hf). rewrite (proj2 (Z.eqb_neq name NULL)) by (unfold NULL; lia). cbn [negb].
    pose proof (by_name_run fuel r name n vs Hc H0 Hf _ Hd) as E. unfold bind at 1, block_get_by_name. unfold bind at 1 2, gets. rewrite E.
    destruct (by_name n vs) as [v|] eqn:Ev; [|done]. apply Hnn in Ev. rewrite (proj2 (Z.eqb_neq _ NULL)) by done. cbn. by apply Hset.
  - subst name. cbn [Z.eqb NULL negb]. pose proof (role_loop_run r role vs (length (all_blocks r)) [] (all_blocks r) eq_refl Hnd Hd ltac:(lia)) as E.
    unfold bind at 1. rewrite (bind_Ok _ _ r _ r eq_refl), (bind_Ok _ _ r _ r eq_refl), E.
    destruct (by_type role vs) as [v|] eqn:Ev; [apply Hset; by apply Hnn in Ev|done].
Qed.

(** After start-up the file system and the scratch device are the chosen ones. *)
Theorem locate_block_devices_correct fuel r vs filesys fn scratch sn v w : listed r vs →
  match fn with Some n => 0 < filesys ∧ cstr (names r) filesys n ∧ (length n ≤ fuel)%nat | None => filesys = NULL end →
  match sn with Some n => 0 < scratch ∧ cstr (names r) scratch n ∧ (length n ≤ fuel)%nat | None => scratch = NULL end →
  chosen BLOCK_FILESYS fn vs = Some v → chosen BLOCK_SCRATCH sn vs = Some w →
  ∃ r', locate_block_devices fuel filesys scratch r = Ok (tt, r') ∧ listed r' vs ∧
    block_get_role BLOCK_FILESYS r' = Ok (dev_addr v, r') ∧ block_get_role BLOCK_SCRATCH r' = Ok (dev_addr w, r').
Proof.
  intros Hl Hf Hs Ev Ew. unfold locate_block_devices.
  pose proof (locate_block_device_correct fuel r vs BLOCK_FILESYS filesys fn Hl eq_refl Hf) as E. rewrite Ev in E.
  rewrite (bind_Ok _ _ _ _ _ E). set (r1 := mk_registry _ _ _ _).
  assert (listed r1 vs) as Hl1 by (destruct Hl; split; try done; cbn; by rewrite length_insert).
  pose proof (locate_block_device_correct fuel r1 vs BLOCK_SCRATCH scratch sn Hl1 eq_refl Hs) as E1. rewrite Ew in E1.
  rewrite E1. eexists. split; [done|]. destruct Hl as [_ _ Hro _]. split; [destruct Hl1; split; try done; cbn; by rewrite length_insert|].
  unfold block_get_role, bind. cbn. destruct (block_by_role r) as [|x1 [|x2 [|x3 [|x4 [|]]]]]; done.
Qed.
