(* ===== verification/CStdio.v ===== *)
(** * lib/stdio.c: formatted output

    [__vprintf] with its parser of conversions, [format_integer], [format_string], and
    [vsnprintf].  The state is memory with what [aux] points to; [output] is the function
    that is called for every character.  A [va_list] is the list of the 32-bit words of the
    arguments; taking one that is not there is undefined.  The string literals of the file are
    at the addresses [lit_null], [lit_kernel] and [lit_conversion].  [fuel] bounds the
    characters read from strings. *)

From S2P Require Import Prelude FsState Palloc CString CStdlib.

Definition MINUS : Z := 1.
Definition PLUS : Z := 2.
Definition SPACE : Z := 4.
Definition POUND : Z := 8.
Definition ZERO : Z := 16.
Definition GROUP : Z := 32.

Inductive int_type := CHAR | SHORT | INT | INTMAX | LONG | LONGLONG | PTRDIFFT | SIZET.

Record printf_conversion := mk_conversion { flags : Z; width : Z; precision : Z; type : int_type }.

Record integer_base := mk_base { base : Z; digit_chars : list Z; x_char : Z; group : Z }.

Definition digits_10 : list Z := [48; 49; 50; 51; 52; 53; 54; 55; 56; 57].
Definition base_d : integer_base := mk_base 10 digits_10 0 3.
Definition base_o : integer_base := mk_base 8 [48; 49; 50; 51; 52; 53; 54; 55] 0 3.
Definition base_x : integer_base := mk_base 16 (digits_10 ++ [97; 98; 99; 100; 101; 102]) 120 4.
Definition base_X : integer_base := mk_base 16 (digits_10 ++ [65; 66; 67; 68; 69; 70]) 88 4.

Definition has (flags bit : Z) : bool := negb (Z.land flags bit =? 0).
Definition without (flags bit : Z) : Z := Z.land flags (Z.lnot bit).

Section Output.
Context {A : Type} (output : Z → M (memory * A) unit) (lit_null lit_kernel lit_conversion : Z).

Abbreviation P := (M (memory * A)).

Definition peek (a : Z) : P Z := gets (λ s : memory * A, s.1 a).
(** A function of memory that changes nothing. *)
Definition reading {X} (f : B X) : P X := λ s,
  match f s.1 with Ok (x, _) => Ok (x, s) | Panic => Panic | Undef => Undef | OutOfFuel => OutOfFuel end.

Definition va_word (args : list Z) : P (Z * list Z) := match args with w :: args => ret (w, args) | [] => undef end.
Definition va_dword (args : list Z) : P (Z * list Z) :=
  match args with lo :: hi :: args => ret (lo + 2 ^ 32 * hi, args) | _ => undef end.

Definition flag_bit (c : Z) : option Z :=
  if c =? 45 then Some MINUS else if c =? 43 then Some PLUS else if c =? 32 then Some SPACE
  else if c =? 35 then Some POUND else if c =? 48 then Some ZERO else if c =? 39 then Some GROUP else None.

Fixpoint flags_loop (fuel : nat) (format flags : Z) : P (Z * Z) :=
  let! c := peek format in
  match flag_bit c with
  | Some bit => match fuel with O => out_of_fuel | S n => flags_loop n (format + 1) (Z.lor flags bit) end
  | None => ret (format, flags)
  end.

Fixpoint number_loop (fuel : nat) (format value : Z) : P (Z * Z) :=
  let! c := peek format in
  if isdigit c then
    match fuel with O => out_of_fuel | S n => number_loop n (format + 1) (s32 (s32 (s32 (value * 10) + c) - 48)) end
  else ret (format, value).

(** A [*] or a number. *)
Definition parse_number (fuel : nat) (format : Z) (args : list Z) : P (Z * Z * list Z) :=
  let! c := peek format in
  if c =? 42 then
    let! '(w, args) := va_word args in
    ret (format + 1, s32 w, args)
  else
    let! '(format, v) := number_loop fuel format 0 in
    ret (format, v, args).

Definition parse_type (format : Z) : P (Z * int_type) :=
  let! c := peek format in
  if c =? 104 then
    let! c' := peek (format + 1) in
    ret (if c' =? 104 then (format + 2, CHAR) else (format + 1, SHORT))
  else if c =? 106 then ret (format + 1, INTMAX)
  else if c =? 108 then
    let! c' := peek (format + 1) in
    ret (if c' =? 108 then (format + 2, LONGLONG) else (format + 1, LONG))
  else if c =? 116 then ret (format + 1, PTRDIFFT)
  else if c =? 122 then ret (format + 1, SIZET)
  else ret (format, INT).

Definition parse_conversion (fuel : nat) (format : Z) (args : list Z) : P (Z * printf_conversion * list Z) :=
  let! '(format, flags) := flags_loop fuel format 0 in
  let flags := if has flags MINUS then without flags ZERO else flags in
  let flags := if has flags PLUS then without flags SPACE else flags in
  let! '(format, width, args) := parse_number fuel format args in
  let '(width, flags) := if width <? 0 then (s32 (- width), Z.lor flags MINUS) else (width, flags) in
  let! c := peek format in
  let! '(format, precision, args) :=
    (if c =? 46 then
       let! '(format, precision, args) := parse_number fuel (format + 1) args in
       ret (format, if precision <? 0 then -1 else precision, args)
     else ret (format, -1, args)) in
  let flags := if 0 <=? precision then without flags ZERO else flags in
  let! '(format, type) := parse_type format in
  ret (format, mk_conversion flags width precision type, args).

Fixpoint output_all (l : list Z) : P unit :=
  match l with [] => ret tt | c :: l => let! _ := output c in output_all l end.

Fixpoint dup_loop (n : nat) (ch : Z) : P unit :=
  match n with O => ret tt | S n => let! _ := output ch in dup_loop n ch end.
Definition output_dup (ch cnt : Z) : P unit := dup_loop (Z.to_nat cnt) ch.

(** ** Integers *)

(** [*cp++ = ch] in a buffer of 64 characters. *)
Definition push (buf : list Z) (ch : Z) : P (list Z) :=
  if Z.of_nat (length buf) <? 64 then ret (buf ++ [ch]) else undef.

Fixpoint digit_loop (fuel : nat) (b : integer_base) (grouped : bool) (value digit_cnt : Z) (buf : list Z) : P (list Z) :=
  if 0 <? value then
    match fuel with
    | O => out_of_fuel
    | S n =>
        let! buf := (if grouped && (0 <? digit_cnt) && (digit_cnt `mod` group b =? 0) then push buf 44 else ret buf) in
        match digit_chars b !! Z.to_nat (value `mod` base b) with
        | None => undef
        | Some d =>
            let! buf := push buf d in
            digit_loop n b grouped (value / base b) (digit_cnt + 1) buf
        end
    end
  else ret buf.

Fixpoint zeros_loop (fuel : nat) (precision : Z) (buf : list Z) : P (list Z) :=
  if (Z.of_nat (length buf) <? precision) && (Z.of_nat (length buf) <? 64 - 1) then
    match fuel with O => out_of_fuel | S n => let! buf := push buf 48 in zeros_loop n precision buf end
  else ret buf.

(** The sign character, or 0. *)
Definition sign_char (is_signed negative : bool) (flags : Z) : Z :=
  if is_signed then
    if has flags PLUS then (if negative then 45 else 43)
    else if has flags SPACE then (if negative then 45 else 32)
    else if negative then 45 else 0
  else 0.

Definition format_integer (value : Z) (is_signed negative : bool) (b : integer_base) (c : printf_conversion) : P unit :=
  let sign := sign_char is_signed negative (flags c) in
  let x := if has (flags c) POUND && negb (value =? 0) then x_char b else 0 in
  let! buf := digit_loop 64 b (has (flags c) GROUP) value 0 [] in
  let prec := if precision c <? 0 then 1 else precision c in
  let! buf := zeros_loop 64 prec buf in
  let! buf := (if has (flags c) POUND && (base b =? 8) && match list.last buf with None => true | Some d => negb (d =? 48) end
               then push buf 48 else ret buf) in
  let pad_cnt := s32 (width c - Z.of_nat (length buf) - (if x =? 0 then 0 else 2) - (if sign =? 0 then 0 else 1)) in
  let pad_cnt := if pad_cnt <? 0 then 0 else pad_cnt in
  let! _ := (if negb (has (flags c) (Z.lor MINUS ZERO)) then output_dup 32 pad_cnt else ret tt) in
  let! _ := (if sign =? 0 then ret tt else output sign) in
  let! _ := (if x =? 0 then ret tt else let! _ := output 48 in output x) in
  let! _ := (if has (flags c) ZERO then output_dup 48 pad_cnt else ret tt) in
  let! _ := output_all (reverse buf) in
  if has (flags c) MINUS then output_dup 32 pad_cnt else ret tt.

(** ** Strings *)

(** The characters [string[i]] to [string[i + n - 1]]; [string] reads one. *)
Fixpoint string_loop (n : nat) (string : Z → P Z) (i : Z) : P unit :=
  match n with O => ret tt | S n => let! ch := string i in let! _ := output ch in string_loop n string (i + 1) end.

Definition format_string (string : Z → P Z) (length : Z) (c : printf_conversion) : P unit :=
  let! _ := (if (length <? width c) && negb (has (flags c) MINUS) then output_dup 32 (width c - length) else ret tt) in
  let! _ := string_loop (Z.to_nat length) string 0 in
  if (length <? width c) && has (flags c) MINUS then output_dup 32 (width c - length) else ret tt.

(** ** Conversions *)

Definition signed_arg (t : int_type) (args : list Z) : P (Z * list Z) :=
  match t with
  | CHAR => let! '(w, args) := va_word args in ret (swrap 8 w, args)
  | SHORT => let! '(w, args) := va_word args in ret (swrap 16 w, args)
  | INT | LONG | PTRDIFFT => let! '(w, args) := va_word args in ret (s32 w, args)
  | INTMAX | LONGLONG => let! '(w, args) := va_dword args in ret (s64 w, args)
  | SIZET => let! '(w, args) := va_word args in
             let value := u32 w in
             ret (if (2 ^ 32 - 1) / 2 <? value then value - (2 ^ 32 - 1) - 1 else value, args)
  end.

Definition unsigned_arg (t : int_type) (args : list Z) : P (Z * list Z) :=
  match t with
  | CHAR => let! '(w, args) := va_word args in ret (u8 w, args)
  | SHORT => let! '(w, args) := va_word args in ret (uwrap 16 w, args)
  | INT | LONG | SIZET => let! '(w, args) := va_word args in ret (u32 w, args)
  | INTMAX | LONGLONG => let! '(w, args) := va_dword args in ret (u64 w, args)
  | PTRDIFFT => let! '(w, args) := va_word args in
                ret (Z.land (u64 (s32 w)) (Z.lor (u64 (Z.shiftl (2 ^ 31 - 1) 1)) 1), args)
  end.

Definition unsigned_base (c : Z) : integer_base :=
  if c =? 111 then base_o else if c =? 117 then base_d else if c =? 120 then base_x else base_X.

(** One iteration of the loop per character or conversion; the messages for an unknown
    conversion are printed by a nested call. *)
Fixpoint __vprintf (fuel : nat) (format : Z) (args : list Z) : P unit :=
  let! ch := peek format in
  if ch =? 0 then ret tt
  else
    match fuel with
    | O => out_of_fuel
    | S n =>
        if negb (ch =? 37) then
          let! _ := output ch in
          __vprintf n (format + 1) args
        else
          let format := format + 1 in
          let! ch := peek format in
          if ch =? 37 then
            let! _ := output 37 in
            __vprintf n (format + 1) args
          else
            let! '(format, c, args) := parse_conversion n format args in
            let! ch := peek format in
            let! args :=
              (if (ch =? 100) || (ch =? 105) then
                 let! '(value, args) := signed_arg (type c) args in
                 let! _ := format_integer (u64 (if value <? 0 then s64 (- value) else value)) true (value <? 0) base_d c in
                 ret args
               else if (ch =? 111) || (ch =? 117) || (ch =? 120) || (ch =? 88) then
                 let! '(value, args) := unsigned_arg (type c) args in
                 let! _ := format_integer value false false (unsigned_base ch) c in
                 ret args
               else if ch =? 99 then
                 let! '(w, args) := va_word args in
                 let! _ := format_string (λ _, ret (u8 w)) 1 c in
                 ret args
               else if ch =? 115 then
                 let! '(s, args) := va_word args in
                 let s := if s =? NULL then lit_null else s in
                 let! length := reading (strnlen n s (u32 (precision c))) in
                 let! _ := format_string (λ i, peek (s + i)) (s32 length) c in
                 ret args
               else if ch =? 112 then
                 let! '(p, args) := va_word args in
                 let! _ := format_integer p false false base_x (mk_conversion POUND (width c) (precision c) (type c)) in
                 ret args
               else if (ch =? 102) || (ch =? 101) || (ch =? 69) || (ch =? 103) || (ch =? 71) || (ch =? 110) then
                 let! _ := __vprintf n lit_kernel [ch] in
                 ret args
               else
                 let! _ := __vprintf n lit_conversion [ch] in
                 ret args) in
            __vprintf n (format + 1) args
    end.
End Output.

(** ** [vsnprintf] *)

Record vsnprintf_aux := mk_aux { aux_p : Z; aux_length : Z; aux_max_length : Z }.

Definition vsnprintf_helper (ch : Z) : M (memory * vsnprintf_aux) unit := λ '(m, aux),
  let aux' := mk_aux (aux_p aux) (s32 (aux_length aux + 1)) (aux_max_length aux) in
  if aux_length aux <? aux_max_length aux then
    Ok (tt, (λ x, if x =? aux_p aux then u8 ch else m x, mk_aux (aux_p aux + 1) (aux_length aux') (aux_max_length aux)))
  else Ok (tt, (m, aux')).

Definition vsnprintf (lit_null lit_kernel lit_conversion : Z) (fuel : nat) (buffer buf_size format : Z) (args : list Z) : B Z := λ m,
  let aux := mk_aux buffer 0 (s32 (if 0 <? buf_size then buf_size - 1 else 0)) in
  let? '(_, (m, aux)) := __vprintf vsnprintf_helper lit_null lit_kernel lit_conversion fuel format args (m, aux) in
  (let! _ := (if 0 <? buf_size then store (aux_p aux) 0 else ret tt) in
   ret (aux_length aux)) m.
