(* ===== verification/CStdioSpec.v ===== *)
(** * What formatted output prints

    The meaning of a format string as a sequence of directives, and that [__vprintf] hands
    exactly that text to its output function, whatever the function does with it as long as
    it does not overwrite what is being printed.  For [vsnprintf]: the text cut off at the
    size of the buffer. *)

From S2P Require Import Prelude FsState Palloc CString CStringSpec CStdlib CStdlibSpec CStdio.

(** ** Numbers and digits *)

(** The digits of [v], the least significant first. *)
Fixpoint to_digits (fuel : nat) (b v : Z) : list Z :=
  match fuel with
  | O => []
  | S n => if 0 <? v then v `mod` b :: to_digits n b (v / b) else []
  end.
Definition of_digits (b : Z) (ds : list Z) : Z := foldr (λ d v, d + b * v) 0 ds.

Lemma of_to_digits b fuel : 2 ≤ b → ∀ v, 0 ≤ v < b ^ Z.of_nat fuel →
  of_digits b (to_digits fuel b v) = v.
Proof.
  intros Hb. induction fuel as [|n IH]; intros v Hv; [simpl in *; lia|]. cbn [to_digits].
  destruct (Z.ltb_spec 0 v); [|simpl; lia]. cbn [of_digits foldr]. fold (of_digits b (to_digits n b (v / b))). rewrite IH.
  - pose proof (Z.div_mod v b ltac:(lia)). lia.
  - replace (Z.of_nat (S n)) with (Z.succ (Z.of_nat n)) in Hv by lia. rewrite Z.pow_succ_r in Hv by lia.
    split; [apply Z.div_pos; lia|]. apply Z.div_lt_upper_bound; lia.
Qed.

Lemma to_digits_range b fuel : 2 ≤ b → ∀ v, Forall (λ d, 0 ≤ d < b) (to_digits fuel b v).
Proof.
  intros Hb. induction fuel as [|n IH]; intros v; cbn [to_digits]; [constructor|].
  destruct (0 <? v); constructor; [apply Z.mod_pos_bound; lia|apply IH].
Qed.

Lemma to_digits_more b k n : 2 ≤ b → (k ≤ n)%nat → ∀ v, 0 ≤ v < b ^ Z.of_nat k → to_digits n b v = to_digits k b v.
Proof.
  intros Hb. revert n. induction k as [|k IH]; intros n Hn v Hv.
  - simpl in *. assert (v = 0) as -> by lia. by destruct n.
  - destruct n as [|n]; [lia|]. cbn [to_digits]. destruct (0 <? v); [|done]. f_equal. apply IH; [lia|].
    replace (Z.of_nat (S k)) with (Z.succ (Z.of_nat k)) in Hv by lia. rewrite Z.pow_succ_r in Hv by lia.
    split; [apply Z.div_pos; lia|]. apply Z.div_lt_upper_bound; lia.
Qed.

Lemma to_digits_length b fuel v : (length (to_digits fuel b v) ≤ fuel)%nat.
Proof. revert v. induction fuel as [|n IH]; intros v; cbn [to_digits]; [done|]. destruct (0 <? v); simpl; [|lia]. specialize (IH (v / b)). lia. Qed.

(** The characters of the digits, with a comma after every group. *)
Fixpoint lay (b : integer_base) (grouped : bool) (cnt : Z) (ds : list Z) : list Z :=
  match ds with
  | [] => []
  | d :: ds =>
      (if grouped && (0 <? cnt) && (cnt `mod` group b =? 0) then [44] else []) ++
      default 0 (digit_chars b !! Z.to_nat d) :: lay b grouped (cnt + 1) ds
  end.

Lemma lay_length b grouped ds : ∀ cnt, (length (lay b grouped cnt ds) ≤ 2 * length ds)%nat.
Proof. induction ds as [|d ds IH]; intros cnt; simpl; [lia|]. specialize (IH (cnt + 1)). rewrite length_app. simpl. case_match; simpl; lia. Qed.

Definition base_ok (b : integer_base) : Prop := 8 ≤ base b ∧ Z.of_nat (length (digit_chars b)) = base b.

Definition int_digits (b : integer_base) (grouped : bool) (v : Z) : list Z := lay b grouped 0 (to_digits 22 (base b) v).

Lemma digits_22 b v : 8 ≤ b → 0 ≤ v < 2 ^ 64 → 0 ≤ v < b ^ Z.of_nat 22.
Proof.
  intros Hb Hv. split; [lia|]. apply Z.lt_le_trans with (8 ^ 22); [lia|]. apply Z.pow_le_mono_l. lia.
Qed.

(** The text of an integer: its digits filled with zeros up to the precision, the sign and
    the base in front, and the field filled up on the side the flags say. *)
Definition int_body (v : Z) (b : integer_base) (c : printf_conversion) : list Z :=
  let ds := reverse (int_digits b (has (flags c) GROUP) v) in
  let prec := Z.min (if precision c <? 0 then 1 else precision c) 63 in
  let ds := replicate (Z.to_nat (prec - Z.of_nat (length ds))) 48 ++ ds in
  (if has (flags c) POUND && (base b =? 8) && match head ds with None => true | Some d => negb (d =? 48) end then [48] else []) ++ ds.

Definition int_prefix (v : Z) (is_signed negative : bool) (b : integer_base) (c : printf_conversion) : list Z :=
  (let sign := sign_char is_signed negative (flags c) in if sign =? 0 then [] else [sign]) ++
  (let x := if has (flags c) POUND && negb (v =? 0) then x_char b else 0 in if x =? 0 then [] else [48; x]).

Definition int_text (v : Z) (is_signed negative : bool) (b : integer_base) (c : printf_conversion) : list Z :=
  let body := int_body v b c in
  let prefix := int_prefix v is_signed negative b c in
  let pad := Z.to_nat (width c - Z.of_nat (length body) - Z.of_nat (length prefix)) in
  (if has (flags c) (Z.lor MINUS ZERO) then [] else replicate pad 32) ++ prefix ++
  (if has (flags c) ZERO then replicate pad 48 else []) ++ body ++ (if has (flags c) MINUS then replicate pad 32 else []).

Definition string_text (str : list Z) (c : printf_conversion) : list Z :=
  let pad := replicate (Z.to_nat (width c - Z.of_nat (length str))) 32 in
  if has (flags c) MINUS then str ++ pad else pad ++ str.

(** A signed 32-bit integer from its bits. *)
Lemma s32_u32 w : s32 w = if 2 ^ 31 <=? u32 w then u32 w - 2 ^ 32 else u32 w.
Proof.
  unfold swrap, uwrap. change (32 - 1) with 31. rewrite <-(Z.add_mod_idemp_l w) by lia.
  pose proof (Z.mod_pos_bound w (2 ^ 32) ltac:(lia)) as Hr. set (r := w `mod` 2 ^ 32) in *. destruct (Z.leb_spec (2 ^ 31) r).
  - replace (r + 2 ^ 31) with (r - 2 ^ 31 + 1 * 2 ^ 32) by lia. rewrite Z.mod_add, Z.mod_small by lia. lia.
  - rewrite Z.mod_small by lia. lia.
Qed.

(** ** Directives *)

(** A width or precision: digits, or an argument. *)
Inductive count := Num (ds : list Z) | Star.

Record conv_spec := mk_spec {
  s_flags : list Z; s_width : count; s_prec : option count; s_type : int_type; s_conv : Z }.

Inductive directive := Lit (c : Z) | Percent | Conv (sp : conv_spec).

Definition render_count (k : count) : list Z := match k with Num ds => ds | Star => [42] end.
Definition render_prec (p : option count) : list Z := match p with None => [] | Some k => 46 :: render_count k end.
Definition render_type (t : int_type) : list Z :=
  match t with
  | CHAR => [104; 104] | SHORT => [104] | INT => [] | INTMAX => [106] | LONG => [108] | LONGLONG => [108; 108]
  | PTRDIFFT => [116] | SIZET => [122]
  end.
(** A directive as it is written in a format string. *)
Definition render (d : directive) : list Z :=
  match d with
  | Lit c => [c]
  | Percent => [37; 37]
  | Conv sp => 37 :: s_flags sp ++ render_count (s_width sp) ++ render_prec (s_prec sp) ++ render_type (s_type sp) ++ [s_conv sp]
  end.
Definition render_all (ds : list directive) : list Z := ds ≫= render.

(** A number in a format string, small enough for an [int]. *)
Definition valid_count (k : count) : Prop := match k with Num ds => digits ds ∧ dec ds < 2 ^ 31 - 48 | Star => True end.
Definition conversions : list Z := [100; 105; 111; 117; 120; 88; 99; 115; 112].
Definition valid (d : directive) : Prop :=
  match d with
  | Lit c => c ≠ 37
  | Percent => True
  | Conv sp =>
      Forall (λ c, is_Some (flag_bit c)) (s_flags sp) ∧ valid_count (s_width sp) ∧
      (match s_width sp with Num (c :: _) => c ≠ 48 | _ => True end) ∧
      match s_prec sp with None => True | Some k => valid_count k end ∧ s_conv sp ∈ conversions
  end.

Definition count_val (k : count) (args : list Z) : option (Z * list Z) :=
  match k, args with
  | Num ds, _ => Some (dec ds, args)
  | Star, w :: args => Some (s32 w, args)
  | Star, [] => None
  end.

(** The conversion that a directive asks for. *)
Definition conv_of (sp : conv_spec) (args : list Z) : option (printf_conversion * list Z) :=
  let flags := fold_left (λ f c, Z.lor f (default 0 (flag_bit c))) (s_flags sp) 0 in
  let flags := if has flags MINUS then without flags ZERO else flags in
  let flags := if has flags PLUS then without flags SPACE else flags in
  '(width, args) ← count_val (s_width sp) args;
  let '(width, flags) := if width <? 0 then (s32 (- width), Z.lor flags MINUS) else (width, flags) in
  '(precision, args) ← match s_prec sp with None => Some (-1, args) | Some k => count_val k args end;
  let precision := if precision <? 0 then -1 else precision in
  let flags := if 0 <=? precision then without flags ZERO else flags in
  Some (mk_conversion flags width precision (s_type sp), args).

(** The argument of an integer conversion. *)
Definition signed_val (t : int_type) (args : list Z) : option (Z * list Z) :=
  match t, args with
  | CHAR, w :: args => Some (swrap 8 w, args)
  | SHORT, w :: args => Some (swrap 16 w, args)
  | (INT | LONG | PTRDIFFT | SIZET), w :: args => Some (s32 w, args)
  | (INTMAX | LONGLONG), lo :: hi :: args => Some (s64 (lo + 2 ^ 32 * hi), args)
  | _, _ => None
  end.
Definition unsigned_val (t : int_type) (args : list Z) : option (Z * list Z) :=
  match t, args with
  | CHAR, w :: args => Some (u8 w, args)
  | SHORT, w :: args => Some (uwrap 16 w, args)
  | (INT | LONG | PTRDIFFT | SIZET), w :: args => Some (u32 w, args)
  | (INTMAX | LONGLONG), lo :: hi :: args => Some (u64 (lo + 2 ^ 32 * hi), args)
  | _, _ => None
  end.

Section Emit.
Context {A : Type} (output : Z → M (memory * A) unit) (lit_null lit_kernel lit_conversion : Z).
(** [rel o s]: the characters [o] were output and the state is [s]; [m] is what memory holds
    outside the part [W] that outputs may change; fewer than [L] characters are output. *)
Context (m : memory) (W : Z → Prop) (L : Z) (rel : list Z → memory * A → Prop).
Context (Hout : ∀ o ch s, rel o s → Z.of_nat (length (o ++ [ch])) < L → ∃ s', output ch s = Ok (tt, s') ∧ rel (o ++ [ch]) s').
Context (Hmem : ∀ o s x, rel o s → ¬ W x → s.1 x = m x).

Definition emits {X} (p : M (memory * A) X) (r : X) (out : list Z) : Prop :=
  ∀ o s, rel o s → Z.of_nat (length (o ++ out)) < L → ∃ s', p s = Ok (r, s') ∧ rel (o ++ out) s'.

Lemma emits_ret {X} (x : X) : emits (ret x) x [].
Proof. intros o s Hs _. exists s. by rewrite app_nil_r. Qed.
Lemma emits_bind {X Y} (p : M (memory * A) X) k (x : X) (y : Y) o1 o2 : emits p x o1 → emits (k x) y o2 → emits (bind p k) y (o1 ++ o2).
Proof.
  intros H1 H2 o s Hs HL. rewrite app_assoc, length_app in HL. destruct (H1 o s Hs ltac:(lia)) as (s1 & E1 & Hs1).
  destruct (H2 _ _ Hs1) as (s2 & E2 & Hs2); [by rewrite length_app|]. exists s2.
  rewrite (bind_Ok _ _ _ _ _ E1), app_assoc. done.
Qed.
(** A step that only looks, and one that is the last to output. *)
Lemma emits_look {X Y} (p : M (memory * A) X) k (x : X) (y : Y) out : emits p x [] → emits (k x) y out → emits (bind p k) y out.
Proof. intros H1 H2. by apply (emits_bind p k x y [] out). Qed.
Lemma emits_output ch : emits (output ch) tt [ch].
Proof. intros o s Hs HL. by apply Hout. Qed.
Lemma emits_peek a : ¬ W a → emits (peek a) (m a) [].
Proof. intros Ha o s Hs _. exists s. rewrite app_nil_r. split; [|done]. unfold peek, gets. cbv beta. by rewrite (Hmem o s a). Qed.

Lemma emits_all l : emits (output_all output l) tt l.
Proof. induction l as [|c l IH]; [apply emits_ret|]. by apply (emits_bind _ _ tt tt [c] l); [apply emits_output|]. Qed.
Lemma emits_dup ch cnt : emits (output_dup output ch cnt) tt (replicate (Z.to_nat cnt) ch).
Proof.
  unfold output_dup. induction (Z.to_nat cnt) as [|n IH]; [apply emits_ret|].
  by apply (emits_bind _ _ tt tt [ch] (replicate n ch)); [apply emits_output|].
Qed.

(** ** Integers *)

Lemma emits_push buf ch : (length buf < 64)%nat → emits (push buf ch) (buf ++ [ch]) [].
Proof. intros H. unfold push. rewrite (proj2 (Z.ltb_lt _ _)) by lia. apply emits_ret. Qed.

Lemma emits_digit_loop b grouped n : base_ok b → ∀ fuel v cnt buf, (n ≤ fuel)%nat → 0 ≤ v < base b ^ Z.of_nat n →
  (length buf + 2 * n ≤ 64)%nat → emits (digit_loop fuel b grouped v cnt buf) (buf ++ lay b grouped cnt (to_digits n (base b) v)) [].
Proof.
  intros [Hb Hd]. induction n as [|n IH]; intros fuel v cnt buf Hf Hv Hl.
  - simpl in Hv. assert (v = 0) as -> by lia. destruct fuel; cbn; rewrite app_nil_r; apply emits_ret.
  - destruct fuel as [|fuel]; [lia|]. cbn [digit_loop to_digits]. destruct (Z.ltb_spec 0 v); [|cbn; rewrite app_nil_r; apply emits_ret].
    cbn [lay]. set (comma := if grouped && (0 <? cnt) && (cnt `mod` group b =? 0) then [44] else []).
    apply (emits_look _ _ (buf ++ comma)).
    { unfold comma. case_match; [apply emits_push; lia|rewrite app_nil_r; apply emits_ret]. }
    assert (0 ≤ v `mod` base b < base b) as Hm by (apply Z.mod_pos_bound; lia).
    destruct (lookup_lt_is_Some_2 (digit_chars b) (Z.to_nat (v `mod` base b)) ltac:(lia)) as [d Ed]. rewrite Ed. simpl.
    assert (length comma ≤ 1)%nat by (unfold comma; case_match; simpl; lia).
    apply (emits_look _ _ ((buf ++ comma) ++ [d])); [apply emits_push; rewrite length_app; lia|].
    replace (buf ++ comma ++ d :: lay b grouped (cnt + 1) (to_digits n (base b) (v / base b)))
      with (((buf ++ comma) ++ [d]) ++ lay b grouped (cnt + 1) (to_digits n (base b) (v / base b))) by (by rewrite <-!app_assoc).
    apply IH; [lia| |rewrite !length_app; simpl; lia].
    replace (Z.of_nat (S n)) with (Z.succ (Z.of_nat n)) in Hv by lia. rewrite Z.pow_succ_r in Hv by lia.
    split; [apply Z.div_pos; lia|]. apply Z.div_lt_upper_bound; lia.
Qed.

Lemma emits_zeros prec fuel : ∀ buf, (length buf ≤ 64)%nat → (63 - length buf ≤ fuel)%nat →
  emits (zeros_loop fuel prec buf) (buf ++ replicate (Z.to_nat (Z.min prec 63 - Z.of_nat (length buf))) 48) [].
Proof.
  induction fuel as [|fuel IH]; intros buf Hl Hf; cbn [zeros_loop].
  all: destruct (Z.ltb_spec (Z.of_nat (length buf)) prec); simpl andb;
    [destruct (Z.ltb_spec (Z.of_nat (length buf)) (64 - 1))|].
  1: lia.
  3: { apply (emits_look _ _ (buf ++ [48])); [apply emits_push; lia|].
       replace (Z.to_nat (Z.min prec 63 - Z.of_nat (length buf))) with (S (Z.to_nat (Z.min prec 63 - Z.of_nat (length (buf ++ [48]))))) by (rewrite length_app; simpl; lia).
       cbn [replicate]. match goal with |- context [buf ++ 48 :: replicate ?k 48] =>
         replace (buf ++ 48 :: replicate k 48) with ((buf ++ [48]) ++ replicate k 48) by (by rewrite <-app_assoc) end. apply IH; rewrite length_app; simpl; lia. }
  all: replace (Z.to_nat _) with O by lia; cbn; rewrite app_nil_r; apply emits_ret.
Qed.
Lemma emits_optional (b : bool) (p : M (memory * A) unit) out : emits p tt out → emits (if b then p else ret tt) tt (if b then out else []).
Proof. intros H. destruct b; [done|apply emits_ret]. Qed.

(** The buffer of 64 characters is never overrun. *)
Lemma emits_format_integer v is_signed negative b c : base_ok b → in_u 64 v → 0 ≤ width c < 2 ^ 31 →
  emits (format_integer output v is_signed negative b c) tt (int_text v is_signed negative b c).
Proof.
  intros Hb Hv Hw. unfold format_integer, int_text. set (body := int_body v b c). set (prefix := int_prefix v is_signed negative b c).
  set (grouped := has (flags c) GROUP). set (ds := int_digits b grouped v).
  assert (length ds ≤ 44)%nat as Hds.
  { unfold ds, int_digits. pose proof (lay_length b grouped (to_digits 22 (base b) v) 0). pose proof (to_digits_length (base b) 22 v). lia. }
  apply (emits_look _ _ ds).
  { unfold ds, int_digits. apply (emits_digit_loop b grouped 22 Hb 64 v 0 []); [lia| |simpl; lia]. apply digits_22; [apply Hb|done]. }
  set (prec := if precision c <? 0 then 1 else precision c).
  set (zs := replicate (Z.to_nat (Z.min prec 63 - Z.of_nat (length ds))) 48).
  apply (emits_look _ _ (ds ++ zs)); [apply emits_zeros; lia|].
  assert (reverse body = ds ++ zs ++ (if has (flags c) POUND && (base b =? 8) && match list.last (ds ++ zs) with None => true | Some d => negb (d =? 48) end then [48] else [])) as Hrev.
  { unfold body, int_body. fold grouped ds prec. rewrite length_reverse. fold zs.
    assert (zs ++ reverse ds = reverse (ds ++ zs)) as -> by (rewrite reverse_app; f_equal; unfold zs; by rewrite reverse_replicate).
    rewrite head_reverse, reverse_app, reverse_involutive, <-app_assoc. f_equal. f_equal.
    by match goal with |- context [if ?b then [48] else []] => destruct b end. }
  apply (emits_look _ _ (reverse body)).
  { rewrite Hrev. match goal with |- context [if ?b then [48] else []] => destruct b end; [rewrite app_assoc; apply emits_push|rewrite app_nil_r; apply emits_ret].
    rewrite length_app. unfold zs. rewrite length_replicate. lia. }
  assert (length body ≤ 65)%nat as Hbl.
  { rewrite <-length_reverse, Hrev, !length_app. unfold zs. rewrite length_replicate.
    match goal with |- context [if ?b then [48] else []] => destruct b end; simpl; lia. }
  assert (Z.of_nat (length (reverse body)) = Z.of_nat (length body)) as -> by (by rewrite length_reverse).
  rewrite reverse_involutive. set (sign := sign_char is_signed negative (flags c)). set (x := if has (flags c) POUND && negb (v =? 0) then x_char b else 0).
  assert (Z.of_nat (length prefix) = (if sign =? 0 then 0 else 1) + (if x =? 0 then 0 else 2)) as Hpl.
  { unfold prefix, int_prefix. fold sign x. rewrite length_app. by destruct (sign =? 0), (x =? 0). }
  rewrite swrap_id by (done || unfold in_s; repeat case_match; lia).
  set (pad := Z.to_nat (width c - Z.of_nat (length body) - Z.of_nat (length prefix))).
  assert (∀ ch, emits (output_dup output ch (if width c - Z.of_nat (length body) - (if x =? 0 then 0 else 2) - (if sign =? 0 then 0 else 1) <? 0 then 0
    else width c - Z.of_nat (length body) - (if x =? 0 then 0 else 2) - (if sign =? 0 then 0 else 1))) tt (replicate pad ch)) as Hpad.
  { intros ch. replace pad with (Z.to_nat (if width c - Z.of_nat (length body) - (if x =? 0 then 0 else 2) - (if sign =? 0 then 0 else 1) <? 0 then 0
      else width c - Z.of_nat (length body) - (if x =? 0 then 0 else 2) - (if sign =? 0 then 0 else 1))); [apply emits_dup|].
    unfold pad. destruct (Z.ltb_spec (width c - Z.of_nat (length body) - (if x =? 0 then 0 else 2) - (if sign =? 0 then 0 else 1)) 0); lia. }
  apply (emits_bind _ _ tt); [destruct (has (flags c) (Z.lor MINUS ZERO)); [apply emits_ret|apply Hpad]|].
  unfold prefix, int_prefix. fold sign x. rewrite <-!app_assoc. apply (emits_bind _ _ tt); [by destruct (sign =? 0); [apply emits_ret|apply emits_output]|].
  apply (emits_bind _ _ tt); [destruct (x =? 0); [apply emits_ret|apply (emits_bind _ _ tt tt [48] [x]); apply emits_output]|].
  apply (emits_bind _ _ tt); [apply emits_optional, Hpad|]. apply (emits_bind _ _ tt); [apply emits_all|apply emits_optional, Hpad].
Qed.
(** ** Strings in memory *)

(** The string [s] is at [a], out of the way of the output. *)
Definition str_at (a : Z) (s : list Z) : Prop := cstr m a s ∧ ∀ x, a ≤ x ≤ a + Z.of_nat (length s) → ¬ W x.

Lemma str_at_app a s t : str_at a (s ++ t) → str_at (a + Z.of_nat (length s)) t.
Proof. intros [H1 H2]. split; [by apply cstr_app|]. intros x Hx. apply H2. rewrite length_app. lia. Qed.
Lemma str_at_cons a c s : str_at a (c :: s) → str_at (a + 1) s.
Proof. apply (str_at_app a [c] s). Qed.
Lemma emits_head a s : str_at a s → emits (peek a) (match s with [] => 0 | c :: _ => c end) [].
Proof. intros [H1 H2]. rewrite <-(cstr_head _ _ _ H1). apply emits_peek, H2. lia. Qed.

Lemma emits_string_loop str get : ∀ i, (∀ k x, str !! k = Some x → emits (get (i + Z.of_nat k)) x []) →
  emits (string_loop output (length str) get i) tt str.
Proof.
  induction str as [|c str IH]; intros i H; [apply emits_ret|]. cbn [string_loop length].
  apply (emits_look _ _ c); [rewrite <-(Z.add_0_r i); by apply (H O)|]. apply (emits_bind _ _ tt tt [c] str); [apply emits_output|].
  apply IH. intros k x Hk. replace (i + 1 + Z.of_nat k) with (i + Z.of_nat (S k)) by lia. by apply H.
Qed.

Lemma emits_format_string str get c : (∀ k x, str !! k = Some x → emits (get (Z.of_nat k)) x []) →
  emits (format_string output get (Z.of_nat (length str)) c) tt (string_text str c).
Proof.
  intros H. unfold format_string, string_text. set (pad := Z.to_nat (width c - Z.of_nat (length str))).
  assert (emits (string_loop output (Z.to_nat (Z.of_nat (length str))) get 0) tt str) as Hl by (rewrite Nat2Z.id; by apply emits_string_loop).
  destruct (Z.ltb_spec (Z.of_nat (length str)) (width c)) as [Hw|Hw].
  - destruct (has (flags c) MINUS); cbn [negb andb].
    + apply (emits_look _ _ tt); [apply emits_ret|]. apply (emits_bind _ _ tt); [done|apply emits_dup].
    + replace (replicate pad 32 ++ str) with (replicate pad 32 ++ str ++ []) by (by rewrite app_nil_r). apply (emits_bind _ _ tt); [apply emits_dup|]. apply (emits_bind _ _ tt); [done|apply emits_ret].
  - replace pad with O by lia. cbn [replicate app andb]. apply (emits_look _ _ tt); [apply emits_ret|].
    replace (if has (flags c) MINUS then str ++ [] else str) with (str ++ []) by (rewrite app_nil_r; by destruct (has (flags c) MINUS)).
    apply (emits_bind _ _ tt); [done|apply emits_ret].
Qed.

Lemma emits_strnlen a s maxlen fuel : str_at a s → 0 ≤ maxlen → (length s ≤ fuel)%nat →
  emits (reading (strnlen fuel a maxlen)) (Z.min (Z.of_nat (length s)) maxlen) [].
Proof.
  intros [Hs Hw] Hm Hf o st Hst _. exists st. rewrite app_nil_r. split; [|done]. unfold reading.
  rewrite (strnlen_run st.1 a s maxlen fuel); [done| |done|done].
  eapply cstr_ext; [|exact Hs]. intros x Hx. apply (Hmem o st); [done|]. apply Hw. lia.
Qed.

(** ** Parsing *)

Lemma flag_char c b : flag_bit c = Some b → c ≠ 0 ∧ c ≠ 37.
Proof. unfold flag_bit. intros H. split; intros ->; discriminate. Qed.

Lemma emits_flags fs rest : ∀ a fuel f, str_at a (fs ++ rest) → Forall (λ c, is_Some (flag_bit c)) fs →
  flag_bit (match rest with [] => 0 | c :: _ => c end) = None → (length fs ≤ fuel)%nat →
  emits (flags_loop fuel a f) (a + Z.of_nat (length fs), fold_left (λ f c, Z.lor f (default 0 (flag_bit c))) fs f) [].
Proof.
  induction fs as [|c fs IH]; intros a fuel f Hs Hfs Hr Hf.
  - assert (flags_loop fuel a f = bind (peek a) (λ c, match flag_bit c with Some bit => match fuel with O => out_of_fuel
      | S n => flags_loop n (a + 1) (Z.lor f bit) end | None => ret (a, f) end)) as -> by (by destruct fuel).
    eapply emits_look; [by apply emits_head|]. cbv beta. simpl app. rewrite Hr. simpl. rewrite Z.add_0_r. apply emits_ret.
  - apply list.Forall_cons in Hfs as [[bit Hc] Hfs]. destruct fuel as [|fuel]; [simpl in Hf; lia|]. cbn [flags_loop].
    eapply emits_look; [by apply emits_head|]. cbn. rewrite Hc. cbn [default].
    replace (a + Z.of_nat (S (length fs))) with (a + 1 + Z.of_nat (length fs)) by lia.
    apply IH; [by apply (str_at_cons a c)|done|done|simpl in Hf; lia].
Qed.

Lemma emits_number ds rest : ∀ a fuel v, str_at a (ds ++ rest) → digits ds →
  isdigit (match rest with [] => 0 | c :: _ => c end) = false → 0 ≤ v → dec_from v ds < 2 ^ 31 - 48 → (length ds ≤ fuel)%nat →
  emits (number_loop fuel a v) (a + Z.of_nat (length ds), dec_from v ds) [].
Proof.
  induction ds as [|c ds IH]; intros a fuel v Hs Hds Hr Hv Hb Hf.
  - assert (number_loop fuel a v = bind (peek a) (λ c, if isdigit c then match fuel with O => out_of_fuel
      | S n => number_loop n (a + 1) (s32 (s32 (s32 (v * 10) + c) - 48)) end else ret (a, v))) as -> by (by destruct fuel).
    eapply emits_look; [by apply emits_head|]. cbv beta. simpl app. rewrite Hr. simpl. rewrite Z.add_0_r. apply emits_ret.
  - apply list.Forall_cons in Hds as [Hc Hds]. destruct fuel as [|fuel]; [simpl in Hf; lia|]. cbn [number_loop].
    eapply emits_look; [by apply emits_head|]. cbn [app]. cbv beta iota. rewrite Hc. apply isdigit_spec in Hc. simpl in Hb.
    pose proof (dec_from_ge ds (v * 10 + (c - 48)) ltac:(lia) Hds).
    assert (s32 (s32 (s32 (v * 10) + c) - 48) = v * 10 + (c - 48)) as ->.
    { rewrite (swrap_id 32 (v * 10)) by (done || unfold in_s; lia). rewrite (swrap_id 32 (v * 10 + c)) by (done || unfold in_s; lia).
      rewrite swrap_id by (done || unfold in_s; lia). lia. }
    cbn [length dec_from fold_left]. replace (a + Z.of_nat (S (length ds))) with (a + 1 + Z.of_nat (length ds)) by lia.
    apply IH; [by apply (str_at_cons a c)|done|done|lia|done|simpl in Hf; lia].
Qed.

(** What may follow a number: neither a digit nor a star. *)
Definition after_count (c : Z) : Prop := isdigit c = false ∧ c ≠ 42.

Lemma emits_parse_number k rest a fuel args v args' : str_at a (render_count k ++ rest) → valid_count k →
  after_count (match rest with [] => 0 | c :: _ => c end) → count_val k args = Some (v, args') → (length (render_count k) ≤ fuel)%nat →
  emits (parse_number fuel a args) (a + Z.of_nat (length (render_count k)), v, args') [].
Proof.
  intros Hs Hk [Hr1 Hr2] Hv Hf. unfold parse_number. eapply emits_look; [by apply emits_head|]. destruct k as [ds|]; simpl in Hv.
  - injection Hv as <- <-. destruct Hk as [Hd Hb]. cbn [render_count] in *.
    assert ((match ds ++ rest with [] => 0 | c :: _ => c end =? 42) = false) as ->.
    { apply Z.eqb_neq. destruct ds as [|c ds]; [done|]. apply list.Forall_cons in Hd as [Hc%isdigit_spec _]. simpl. lia. }
    eapply emits_look; [by apply (emits_number ds rest)|]. apply emits_ret.
  - destruct args as [|w args]; [done|]. injection Hv as <- <-. simpl. eapply emits_look; [apply emits_ret|]. apply emits_ret.
Qed.

Lemma conversion_plain c : c ∈ conversions → after_count c ∧ c ≠ 46 ∧ flag_bit c = None ∧ c ≠ 37 ∧ c ≠ 0 ∧
  (c =? 104) = false ∧ (c =? 106) = false ∧ (c =? 108) = false ∧ (c =? 116) = false ∧ (c =? 122) = false.
Proof.
  unfold conversions. intros Hc. repeat (apply elem_of_cons in Hc as [->|Hc]; [by repeat split|]). by apply elem_of_nil in Hc.
Qed.

Lemma emits_parse_type t c rest a : str_at a (render_type t ++ c :: rest) → c ∈ conversions →
  emits (parse_type a) (a + Z.of_nat (length (render_type t)), t) [].
Proof.
  intros Hs Hc. destruct (conversion_plain c Hc) as (_ & _ & _ & _ & _ & H1 & H2 & H3 & H4 & H5). unfold parse_type.
  eapply emits_look; [by apply emits_head|]. destruct t; cbn [render_type app length] in Hs |- *; cbv beta iota.
  all: try (rewrite H1, H2, H3, H4, H5, Z.add_0_r; apply emits_ret); try apply emits_ret.
  all: eapply emits_look; [by eapply emits_head, str_at_cons|]; cbv beta iota; rewrite ?H1, ?H3; apply emits_ret.
Qed.

(** The first character of what is left of a conversion. *)
Lemma tail_head p t c rest : c ∈ conversions → match p with None => True | Some k => valid_count k end →
  let h := match render_prec p ++ render_type t ++ c :: rest with [] => 0 | c :: _ => c end in
  flag_bit h = None ∧ after_count h ∧ (p = None → h ≠ 46).
Proof.
  intros Hc Hp. destruct (conversion_plain c Hc) as (H1 & H2 & H3 & _). destruct p as [k|]; [by repeat split|].
  by destruct t; simpl; repeat split; try apply H1.
Qed.

Lemma width_head k h : valid_count k → match k with Num (c :: _) => c ≠ 48 | _ => True end → flag_bit h = None →
  flag_bit (match render_count k with [] => h | c :: _ => c end) = None.
Proof.
  intros Hk H0 Hh. destruct k as [[|c ds]|]; [done| |done]. simpl. destruct Hk as [[Hc%isdigit_spec _]%list.Forall_cons _].
  unfold flag_bit. destruct (decide (c = 48)) as [->|]; [done|]. by repeat rewrite (proj2 (Z.eqb_neq c _)) by lia.
Qed.

Lemma emits_parse_conversion sp rest a fuel args c args' : str_at a (tail (render (Conv sp)) ++ rest) → valid (Conv sp) →
  conv_of sp args = Some (c, args') → (length (render (Conv sp)) ≤ S fuel)%nat →
  emits (parse_conversion fuel a args) (a + Z.of_nat (length (render (Conv sp))) - 2, c, args') [].
Proof.
  intros Hs (Hfl & Hw & Hw0 & Hp & Hc) Ho Hf. unfold parse_conversion. destruct sp as [fs kw kp t ch]. cbn [render s_flags s_width s_prec s_type s_conv tail] in *.
  rewrite <-!app_assoc in Hs. simpl app in Hs. destruct (tail_head kp t ch rest Hc Hp) as (Ht1 & Ht2 & Ht3).
  set (h := match render_prec kp ++ render_type t ++ ch :: rest with [] => 0 | c :: _ => c end) in *.
  cbn [length] in Hf |- *. rewrite !length_app in Hf |- *. cbn [length] in Hf |- *.
  eapply emits_look; [apply (emits_flags fs _ a fuel 0 Hs Hfl); [|lia]|].
  { rewrite <-(width_head kw h Hw Hw0 Ht1). unfold h. by destruct kw as [[|]|]. }
  apply str_at_app in Hs. set (fl := fold_left _ fs 0) in *. cbv beta iota. unfold conv_of in Ho. cbn [s_flags s_width s_prec s_type] in Ho. fold fl in Ho.
  set (fl2 := if has (if has fl MINUS then without fl ZERO else fl) PLUS then without (if has fl MINUS then without fl ZERO else fl) SPACE else (if has fl MINUS then without fl ZERO else fl)) in *.
  destruct (count_val kw args) as [[w args1]|] eqn:Ew; [|done]. cbn [mbind option_bind] in Ho.
  eapply emits_look; [apply (emits_parse_number kw _ _ fuel args w args1 Hs Hw Ht2 Ew); lia|]. cbv beta iota.
  destruct (if w <? 0 then (s32 (- w), Z.lor fl2 MINUS) else (w, fl2)) as [w' fl3].
  apply str_at_app in Hs. eapply emits_look; [by apply emits_head|]. fold h.
  destruct (match kp with None => Some (-1, args1) | Some k => count_val k args1 end) as [[pr args2]|] eqn:Ep; [|done]. cbn [mbind option_bind] in Ho.
  injection Ho as <- <-.
  apply (emits_look _ _ (a + Z.of_nat (length fs) + Z.of_nat (length (render_count kw)) + Z.of_nat (length (render_prec kp)), if pr <? 0 then -1 else pr, args2)).
  - destruct kp as [k|]; cbn [render_prec] in *.
    + change (h =? 46) with true. apply str_at_cons in Hs. eapply emits_look; [apply (emits_parse_number k _ _ fuel args1 pr args2 Hs Hp); [|done|simpl in Hf; lia]|].
      { destruct (tail_head None t ch rest Hc I) as (_ & H & _). exact H. }
      cbv beta iota. simpl length. match goal with |- emits (ret (?x, _, _)) (?y, _, _) _ => replace y with x by lia end. apply emits_ret.
    + injection Ep as <- <-. rewrite (proj2 (Z.eqb_neq h 46)) by (by apply Ht3). simpl. rewrite Z.add_0_r. apply emits_ret.
  - cbv beta iota. apply str_at_app in Hs. eapply emits_look; [by apply (emits_parse_type t ch rest)|]. cbv beta iota.
    match goal with |- emits (ret (?x, _, _)) (?y, _, _) _ => replace y with x by lia end. apply emits_ret.
Qed.

(** ** Arguments *)

Lemma emits_signed_arg t args v args' : signed_val t args = Some (v, args') → emits (signed_arg t args) (v, args') [].
Proof.
  intros H. unfold signed_arg. destruct t, args as [|w [|w2 args]]; try done; injection H as <- <-; (eapply emits_look; [apply emits_ret|]);
    cbv beta iota; try apply emits_ret.
  all: match goal with |- emits (ret (?x, _)) (?y, _) _ => replace y with x; [apply emits_ret|] end.
  all: rewrite s32_u32; change ((2 ^ 32 - 1) / 2) with (2 ^ 31 - 1); destruct (Z.ltb_spec (2 ^ 31 - 1) (u32 w)), (Z.leb_spec (2 ^ 31) (u32 w)); lia.
Qed.

Lemma emits_unsigned_arg t args v args' : unsigned_val t args = Some (v, args') → emits (unsigned_arg t args) (v, args') [].
Proof.
  intros H. unfold unsigned_arg. destruct t, args as [|w [|w2 args]]; try done; injection H as <- <-; (eapply emits_look; [apply emits_ret|]);
    cbv beta iota; try apply emits_ret.
  all: match goal with |- emits (ret (?x, _)) (?y, _) _ => replace y with x; [apply emits_ret|] end.
  all: change (Z.lor (u64 (Z.shiftl (2 ^ 31 - 1) 1)) 1) with (Z.ones 32); rewrite Z.land_ones by lia; unfold uwrap at 1; rewrite s32_u32;
    unfold uwrap; rewrite Z.mod_mod_divide by (by exists (2 ^ 32)).
  all: destruct (2 ^ 31 <=? w `mod` 2 ^ 32); [rewrite Zminus_mod, Z_mod_same_full, Z.sub_0_r, Z.mod_mod|]; rewrite ?Z.mod_mod; lia.
Qed.

(** ** Conversions *)

(** The text of one conversion, the argument it takes, and the arguments left. No string is
    longer than [N]. *)
Inductive conv_means (N : nat) (c : printf_conversion) (ch : Z) : list Z → list Z → list Z → Prop :=
  | cm_signed args v args' : ch = 100 ∨ ch = 105 → signed_val (type c) args = Some (v, args') →
      conv_means N c ch args (int_text (Z.abs v) true (v <? 0) base_d c) args'
  | cm_unsigned args v args' : ch ∈ [111; 117; 120; 88] → unsigned_val (type c) args = Some (v, args') →
      conv_means N c ch args (int_text v false false (unsigned_base ch) c) args'
  | cm_char w args : ch = 99 → conv_means N c ch (w :: args) (string_text [u8 w] c) args
  | cm_string p str args : ch = 115 → str_at (if p =? NULL then lit_null else p) str → (length str ≤ N)%nat → Z.of_nat (length str) < 2 ^ 31 →
      conv_means N c ch (p :: args) (string_text (if precision c <? 0 then str else take (Z.to_nat (precision c)) str) c) args
  | cm_pointer p args : ch = 112 → in_u 32 p →
      conv_means N c ch (p :: args) (int_text p false false base_x (mk_conversion POUND (width c) (precision c) (type c))) args.

(** The text of directives. *)
Inductive means (N : nat) : list directive → list Z → list Z → Prop :=
  | means_nil args : means N [] args []
  | means_lit c ds args out : means N ds args out → means N (Lit c :: ds) args (c :: out)
  | means_percent ds args out : means N ds args out → means N (Percent :: ds) args (37 :: out)
  | means_conv sp c ds args args1 args2 text out : conv_of sp args = Some (c, args1) → 0 ≤ width c < 2 ^ 31 → -1 ≤ precision c < 2 ^ 31 →
      conv_means N c (s_conv sp) args1 text args2 → means N ds args2 out → means N (Conv sp :: ds) args (text ++ out).

Lemma signed_val_range t args v args' : signed_val t args = Some (v, args') → in_s 64 v.
Proof.
  intros H. assert (∀ w x, 1 ≤ w ≤ 64 → in_s 64 (swrap w x)) as Hr.
  { intros w x Hw. pose proof (swrap_range w x ltac:(lia)) as Hs. unfold in_s in *.
    pose proof (Z.pow_le_mono_r 2 (w - 1) (64 - 1) ltac:(lia) ltac:(lia)). lia. }
  destruct t, args as [|w [|w2 args]]; try done; injection H as <- <-; apply Hr; lia.
Qed.

Lemma unsigned_val_range t args v args' : unsigned_val t args = Some (v, args') → in_u 64 v.
Proof.
  intros H. assert (∀ w x, 1 ≤ w ≤ 64 → in_u 64 (uwrap w x)) as Hr.
  { intros w x Hw. pose proof (uwrap_range w x ltac:(lia)) as Hs. unfold in_u in *.
    pose proof (Z.pow_le_mono_r 2 w 64 ltac:(lia) ltac:(lia)). lia. }
  destruct t, args as [|w [|w2 args]]; try done; injection H as <- <-; apply Hr; lia.
Qed.

Lemma magnitude v : in_s 64 v → u64 (if v <? 0 then s64 (- v) else v) = Z.abs v.
Proof.
  intros Hv. unfold in_s in Hv. change (64 - 1) with 63 in Hv. destruct (Z.ltb_spec v 0).
  - destruct (decide (v = - 2 ^ 63)) as [->|]; [done|]. rewrite swrap_id by (done || unfold in_s; lia). rewrite uwrap_id by (unfold in_u; lia). lia.
  - rewrite uwrap_id by (unfold in_u; lia). lia.
Qed.

Lemma base_ok_all ch : base_ok base_d ∧ base_ok base_x ∧ base_ok (unsigned_base ch).
Proof. unfold base_ok, unsigned_base. repeat case_match; simpl; lia. Qed.

(** The switch of [__vprintf] on the conversion character. *)
Definition convert (n : nat) (ch : Z) (c : printf_conversion) (args : list Z) : M (memory * A) (list Z) :=
  if (ch =? 100) || (ch =? 105) then
    let! '(value, args) := signed_arg (type c) args in
    let! _ := format_integer output (u64 (if value <? 0 then s64 (- value) else value)) true (value <? 0) base_d c in
    ret args
  else if (ch =? 111) || (ch =? 117) || (ch =? 120) || (ch =? 88) then
    let! '(value, args) := unsigned_arg (type c) args in
    let! _ := format_integer output value false false (unsigned_base ch) c in
    ret args
  else if ch =? 99 then
    let! '(w, args) := va_word args in
    let! _ := format_string output (λ _, ret (u8 w)) 1 c in
    ret args
  else if ch =? 115 then
    let! '(s, args) := va_word args in
    let s := if s =? NULL then lit_null else s in
    let! length := reading (strnlen n s (u32 (precision c))) in
    let! _ := format_string output (λ i, peek (s + i)) (s32 length) c in
    ret args
  else
    let! '(p, args) := va_word args in
    let! _ := format_integer output p false false base_x (mk_conversion POUND (width c) (precision c) (type c)) in
    ret args.

Lemma emits_last {X} (p : M (memory * A) unit) (x : X) out : emits p tt out → emits (bind p (λ _, ret x)) x out.
Proof. intros H. rewrite <-(app_nil_r out). apply (emits_bind p _ tt); [done|apply emits_ret]. Qed.

Lemma emits_convert n N c ch args text args' : conv_means N c ch args text args' → 0 ≤ width c < 2 ^ 31 → -1 ≤ precision c < 2 ^ 31 →
  (N ≤ n)%nat → emits (convert n ch c args) args' text.
Proof.
  intros Hm Hw Hp Hn. destruct (base_ok_all ch) as (Hb1 & Hb2 & Hb3). unfold convert.
  destruct Hm as [args v args' Hch Ha|args v args' Hch Ha|w args ->|p str args -> Hs HN HL|p args -> Hpr].
  - rewrite (proj2 (orb_true_iff _ _)) by (rewrite !Z.eqb_eq; done). eapply emits_look; [by apply emits_signed_arg|].
    apply emits_last. rewrite magnitude by (by eapply signed_val_range). apply emits_format_integer; [done| |done].
    apply signed_val_range in Ha. unfold in_s, in_u in *. lia.
  - assert ((ch =? 100) || (ch =? 105) = false ∧ (ch =? 111) || (ch =? 117) || (ch =? 120) || (ch =? 88) = true) as [-> ->].
    { repeat (apply elem_of_cons in Hch as [->|Hch]; [done|]). by apply elem_of_nil in Hch. }
    eapply emits_look; [by apply emits_unsigned_arg|]. apply emits_last, emits_format_integer; [done|by eapply unsigned_val_range|done].
  - eapply emits_look; [apply emits_ret|]. apply emits_last. apply (emits_format_string [u8 w]). intros k x Hk.
    apply list_lookup_singleton_Some in Hk as [_ <-]. apply emits_ret.
  - eapply emits_look; [apply emits_ret|]. cbv beta iota zeta. set (a := if p =? NULL then lit_null else p) in *.
    eapply emits_look; [apply (emits_strnlen a str); [done|by apply uwrap_range|lia]|].
    set (str' := if precision c <? 0 then str else take (Z.to_nat (precision c)) str).
    assert (s32 (Z.min (Z.of_nat (length str)) (u32 (precision c))) = Z.of_nat (length str')) as ->.
    { unfold str'. destruct (Z.ltb_spec (precision c) 0).
      - replace (precision c) with (-1) by lia. change (u32 (-1)) with (2 ^ 32 - 1). rewrite swrap_id by (done || unfold in_s; lia). lia.
      - rewrite uwrap_id by (unfold in_u; lia). rewrite length_take. rewrite swrap_id by (done || unfold in_s; lia). lia. }
    apply emits_last, emits_format_string. intros k x Hk. assert (str !! k = Some x) as Hk'.
    { unfold str' in Hk. destruct (precision c <? 0); [done|]. by apply lookup_take_Some in Hk as [? _]. }
    assert (k < length str)%nat by (by eapply lookup_lt_Some).
    destruct Hs as [Hs Ho]. pose proof (cstr_head _ _ _ (cstr_drop m str a k ltac:(lia) Hs)) as Hh.
    rewrite (drop_S _ _ _ Hk') in Hh. rewrite <-Hh. apply emits_peek, Ho. lia.
  - eapply emits_look; [apply emits_ret|]. apply emits_last, emits_format_integer; [done| |done]. unfold in_u in *. lia.
Qed.

Lemma render_conv sp : ∃ mid, render (Conv sp) = mid ++ [s_conv sp].
Proof. eexists. cbn [render]. by rewrite !app_assoc, app_comm_cons. Qed.

Lemma conv_head sp rest : valid (Conv sp) → (match tail (render (Conv sp)) ++ rest with [] => 0 | c :: _ => c end =? 37) = false.
Proof.
  intros (Hfl & Hw & _ & Hp & Hc). apply Z.eqb_neq. destruct sp as [[|f fs] kw kp t ch]; cbn in *.
  - destruct (conversion_plain ch Hc) as (_ & _ & _ & H37 & _). destruct kw as [[|d ds]|]; [|destruct Hw as [[Hd%isdigit_spec _]%list.Forall_cons _]; simpl; lia|done].
    destruct kp; [done|]. by destruct t.
  - apply list.Forall_cons in Hfl as [[b Hf] _]. by apply flag_char in Hf as [_ ?].
Qed.

Lemma vprintf_emits N ds : Forall valid ds → ∀ fuel a args out, str_at a (render_all ds) → means N ds args out →
  (length (render_all ds) + N ≤ fuel)%nat → emits (__vprintf output lit_null lit_kernel lit_conversion fuel a args) tt out.
Proof.
  intros Hv. induction Hv as [|d ds Hd Hv IH]; intros fuel a args out Hs Hm Hf.
  - inversion Hm; subst. destruct fuel; cbn [__vprintf]; (eapply emits_look; [by apply emits_head|]); apply emits_ret.
  - cbn [render_all mbind list_bind] in Hs, Hf. rewrite length_app in Hf. fold (render_all ds) in Hs, Hf.
    assert (1 ≤ length (render d))%nat by (destruct d; simpl; lia). destruct fuel as [|fuel]; [lia|]. cbn [__vprintf].
    eapply emits_look; [by apply emits_head|]. inversion Hm as [|c ? ? out' Hm'|? ? out' Hm'|sp c ? ? args1 args2 text out' Ho Hw Hp Hc Hm']; subst.
    + simpl in Hd, Hs. cbv beta iota. cbn [render app]. rewrite (proj2 (Z.eqb_neq c 0)) by (destruct Hs as [[? _] _]; lia).
      rewrite (proj2 (Z.eqb_neq c 37)) by done. cbn [negb]. apply (emits_bind _ _ tt tt [c]); [apply emits_output|].
      apply IH; [by apply str_at_cons in Hs|done|simpl in Hf; lia].
    + simpl. apply str_at_cons in Hs. eapply emits_look; [by apply emits_head|]. simpl.
      apply (emits_bind _ _ tt tt [37]); [apply emits_output|]. apply IH; [by apply str_at_cons in Hs|done|simpl in Hf; lia].
    + pose proof (str_at_app _ _ _ Hs) as Hnext. cbn [render app] in Hs |- *. cbv beta iota. change (37 =? 0) with false. change (37 =? 37) with true. cbn [negb]. cbv iota.
      pose proof (str_at_cons _ _ _ Hs) as Hs1. eapply emits_look; [by apply emits_head|].
      pose proof (conv_head sp (render_all ds) Hd) as Hh. cbn [render list.tail] in Hh. rewrite Hh. clear Hh.
      eapply emits_look; [apply (emits_parse_conversion sp _ _ fuel args c args1 Hs1 Hd Ho); lia|]. cbv beta iota.
      assert (str_at (a + 1 + Z.of_nat (length (render (Conv sp))) - 2) (s_conv sp :: render_all ds)) as Hs2.
      { destruct (render_conv sp) as [mid Hmid]. change (str_at a (render (Conv sp) ++ render_all ds)) in Hs. rewrite Hmid, <-app_assoc in Hs.
        apply str_at_app in Hs. rewrite Hmid, length_app. by replace (a + 1 + _ - 2) with (a + Z.of_nat (length mid)) by (simpl; lia). }
      eapply emits_look; [by apply emits_head|]. cbv beta iota. pose proof (emits_convert fuel N c (s_conv sp) args1 text args2 Hc Hw Hp ltac:(lia)) as Hconv.
      eapply (emits_bind _ _ args2).
      { unfold convert in Hconv. destruct Hd as (_ & _ & _ & _ & Hin). revert Hconv. unfold conversions in Hin.
        repeat (apply elem_of_cons in Hin as [->|Hin]; [exact (λ H, H)|]). by apply elem_of_nil in Hin. }
      apply IH; [by replace (a + 1 + _ - 2 + 1) with (a + Z.of_nat (length (render (Conv sp)))) by lia|done|lia].
Qed.
End Emit.

(** ** [vsnprintf] *)

(** The buffer after the characters [o]: at most [n] of them are stored. *)
Definition buffered (m : memory) (buffer n : Z) (o : list Z) (s : memory * vsnprintf_aux) : Prop :=
  s.2 = mk_aux (buffer + Z.min (Z.of_nat (length o)) n) (Z.of_nat (length o)) n ∧
  (∀ k x, o !! k = Some x → Z.of_nat k < n → s.1 (buffer + Z.of_nat k) = u8 x) ∧
  (∀ x, ¬ buffer ≤ x < buffer + n → s.1 x = m x) ∧ (bytes_ok m → bytes_ok s.1).

Lemma vsnprintf_helper_run m buffer n o ch s : 0 ≤ n < 2 ^ 31 → buffered m buffer n o s → Z.of_nat (length (o ++ [ch])) < 2 ^ 31 →
  ∃ s', vsnprintf_helper ch s = Ok (tt, s') ∧ buffered m buffer n (o ++ [ch]) s'.
Proof.
  intros Hn (Ha & Hb & Ho & Hy) HL. destruct s as [m1 aux]. simpl in Ha, Hb, Ho, Hy. subst aux. rewrite length_app in HL. simpl in HL.
  unfold vsnprintf_helper. cbn [aux_p aux_length aux_max_length]. rewrite swrap_id by (done || unfold in_s; lia).
  destruct (Z.ltb_spec (Z.of_nat (length o)) n) as [Hl|Hl]; eexists; (split; [done|]); unfold buffered; cbn [fst snd]; rewrite !length_app; cbn [length].
  - rewrite Z.min_l by lia. split; [f_equal; lia|]. split.
    + intros k x Hk Hkn. apply lookup_app_Some in Hk as [Hk|[Hge Hk]].
      * apply lookup_lt_Some in Hk as Hlt. rewrite (proj2 (Z.eqb_neq _ _)) by lia. by apply Hb.
      * apply list_lookup_singleton_Some in Hk as [Hk <-]. replace k with (length o) by lia. by rewrite Z.eqb_refl.
    + split; [|intros Hm; by apply store_ok, Hy]. intros x Hx. rewrite (proj2 (Z.eqb_neq _ _)) by lia. by apply Ho.
  - rewrite Z.min_r by lia. split; [f_equal; lia|]. split; [|done].
    intros k x Hk Hkn. apply Hb; [|done]. apply lookup_app_Some in Hk as [Hk|[Hge Hk]]; [done|lia].
Qed.

Lemma cstr_of_lookup m s : ∀ a, Forall (λ c, 0 < c < 256) s → (∀ k x, s !! k = Some x → m (a + Z.of_nat k) = x) →
  m (a + Z.of_nat (length s)) = 0 → cstr m a s.
Proof.
  induction s as [|c s IH]; intros a Hs Hk H0; simpl in *; [by rewrite Z.add_0_r in H0|]. apply list.Forall_cons in Hs as [Hc Hs].
  split; [done|]. split; [rewrite <-(Z.add_0_r a); by apply (Hk O)|]. apply IH; [done| |by rewrite <-H0; f_equal; lia].
  intros k x Hx. rewrite <-(Hk (S k) x Hx). f_equal. lia.
Qed.

Section Vsnprintf.
Context (lit_null lit_kernel lit_conversion : Z) (m : memory) (buffer buf_size : Z).

Let W x := buffer ≤ x < buffer + buf_size.

Lemma vsnprintf_run N ds fuel format args out : 0 ≤ buf_size ≤ 2 ^ 31 → Forall valid ds → str_at m W format (render_all ds) →
  means lit_null m W N ds args out → Z.of_nat (length out) < 2 ^ 31 → (length (render_all ds) + N ≤ fuel)%nat → Forall (λ c, 0 < c < 256) out →
  ∃ m', vsnprintf lit_null lit_kernel lit_conversion fuel buffer buf_size format args m = Ok (Z.of_nat (length out), m') ∧
    same_outside m m' buffer (buffer + buf_size) ∧ (0 < buf_size → cstr m' buffer (take (Z.to_nat (buf_size - 1)) out)) ∧
    (bytes_ok m → bytes_ok m').
Proof.
  intros Hsz Hv Hf Hm HL Hfuel Hc. set (n := if 0 <? buf_size then buf_size - 1 else 0).
  assert (0 ≤ n < 2 ^ 31 ∧ n ≤ buf_size) as [Hn Hnb] by (unfold n; destruct (Z.ltb_spec 0 buf_size); lia).
  assert (emits (2 ^ 31) (buffered m buffer n) (__vprintf vsnprintf_helper lit_null lit_kernel lit_conversion fuel format args) tt out) as Hrun.
  { apply (vprintf_emits vsnprintf_helper lit_null lit_kernel lit_conversion m W) with N ds; try done.
    - intros o ch s Hs Ho. by apply vsnprintf_helper_run.
    - intros o s x (_ & _ & Ho & _) HW. apply Ho. unfold W in HW. lia. }
  destruct (Hrun [] (m, mk_aux buffer 0 n)) as ([m1 aux] & E & Ha & Hb & Ho & Hy).
  { split; [simpl; f_equal; lia|]. done. } { done. }
  simpl in Ha, Hb, Ho, Hy. subst aux. unfold vsnprintf. fold n. rewrite (swrap_id 32 n) by (done || unfold in_s; lia). rewrite E. cbn [obind].
  unfold n in *. destruct (Z.ltb_spec 0 buf_size) as [Hp|Hp]; cbn [aux_p aux_length].
  - erewrite (bind_Ok (store _ _)) by done. eexists. split; [done|]. split.
    + intros x Hx. rewrite (proj2 (Z.eqb_neq _ _)) by lia. apply Ho. lia.
    + split; [|intros Hm1; by apply store_ok, Hy]. intros _. set (k := Z.to_nat (buf_size - 1)). apply cstr_of_lookup; [by apply Forall_take|..].
      * intros i x [Hx Hi]%lookup_take_Some. apply lookup_lt_Some in Hx as Hlt. rewrite (proj2 (Z.eqb_neq _ _)) by lia.
        rewrite (Hb i x) by (done || lia). apply uwrap_id. eapply (proj1 (list.Forall_forall _ _)) in Hc; [|by eapply list_elem_of_lookup_2]. unfold in_u. lia.
      * rewrite length_take, (proj2 (Z.eqb_eq _ _)) by lia. done.
  - eexists. split; [done|]. split; [intros x Hx; apply Ho; lia|]. split; [lia|done].
Qed.
End Vsnprintf.

(** ** Decimal numbers *)

Lemma lay_plain b cnt ds : lay b false cnt ds = (λ d, default 0 (digit_chars b !! Z.to_nat d)) <$> ds.
Proof. revert cnt. induction ds as [|d ds IH]; intros cnt; [done|]. cbn [lay fmap list_fmap andb app]. by rewrite IH. Qed.

Lemma decimal_char d : 0 ≤ d < 10 → default 0 (digits_10 !! Z.to_nat d) = 48 + d.
Proof.
  intros Hd. assert (d = 0 ∨ d = 1 ∨ d = 2 ∨ d = 3 ∨ d = 4 ∨ d = 5 ∨ d = 6 ∨ d = 7 ∨ d = 8 ∨ d = 9) as Hc by lia.
  by destruct_or! Hc; subst d.
Qed.

(** Reading digits back, the most significant first. *)
Definition num_from (B v : Z) (ds : list Z) : Z := fold_left (λ v c, v * B + (c - 48)) ds v.

Lemma num_reverse b ds : (∀ d, 0 ≤ d < base b → default 0 (digit_chars b !! Z.to_nat d) = 48 + d) → Forall (λ d, 0 ≤ d < base b) ds →
  num_from (base b) 0 (reverse (lay b false 0 ds)) = of_digits (base b) ds ∧ Forall (λ c, 48 ≤ c < 48 + base b) (reverse (lay b false 0 ds)).
Proof.
  intros Hb. rewrite lay_plain. induction 1 as [|d ds Hd Hds [IH1 IH2]]; [by split; [|constructor]|]. cbn [fmap list_fmap]. rewrite reverse_cons.
  unfold num_from in *. rewrite fold_left_app, IH1, (Hb d Hd). cbn [fold_left of_digits foldr]. fold (of_digits (base b) ds). split; [lia|].
  apply Forall_app. split; [done|]. apply Forall_singleton. lia.
Qed.

(** The text of a number without flags, width or precision. *)
Lemma plain_text v negative : in_u 64 v → ∃ ds, int_text v true negative base_d (mk_conversion 0 0 (-1) INT) = (if negative then [45] else []) ++ ds ∧
  digits ds ∧ dec ds = v ∧ ds ≠ [] ∧ (length ds ≤ 22)%nat.
Proof.
  intros Hv. destruct (num_reverse base_d (to_digits 22 10 v) decimal_char (to_digits_range 10 22 ltac:(lia) v)) as [H1 H2'].
  assert (digits (reverse (lay base_d false 0 (to_digits 22 10 v)))) as H2 by (eapply list.Forall_impl; [exact H2'|]; intros c Hc; apply isdigit_spec; simpl in Hc; lia).
  clear H2'. change (num_from (base base_d) 0) with dec in H1. change (base base_d) with 10 in H1.
  rewrite of_to_digits in H1 by (lia || by apply digits_22). pose proof (to_digits_length 10 22 v) as Hlen.
  set (ds := reverse (int_digits base_d false v)). change (reverse _) with ds in H1, H2.
  assert (length ds ≤ 22)%nat as Hl by (unfold ds, int_digits; by rewrite lay_plain, length_reverse, length_fmap).
  assert (int_text v true negative base_d (mk_conversion 0 0 (-1) INT) = (if negative then [45] else []) ++ replicate (Z.to_nat (1 - Z.of_nat (length ds))) 48 ++ ds) as ->.
  { unfold int_text, int_prefix, int_body. cbn [flags width precision]. change (has 0 GROUP) with false. fold ds.
    change (has 0 POUND) with false. change (has 0 (Z.lor MINUS ZERO)) with false. change (has 0 ZERO) with false. change (has 0 MINUS) with false.
    cbn [andb app]. rewrite (proj2 (Z.ltb_lt _ _)) by done. rewrite !app_nil_r.
    replace (Z.to_nat (0 - _ - _)) with O by lia. by destruct negative. }
  eexists. split; [done|]. clearbody ds. destruct (decide (ds = [])) as [->|Hne].
  - simpl. split_and!; [by apply Forall_singleton|by rewrite <-H1|done|lia].
  - replace (Z.to_nat (1 - Z.of_nat (length ds))) with O by (destruct ds; [done|simpl; lia]). done.
Qed.

(** The directive [%d]. *)
Definition percent_d : directive := Conv (mk_spec [] (Num []) None INT 100).

(** A number survives printing and reading: [snprintf] of any [int] with the format [%d]
    into a buffer of 24 characters or more, followed by [atoi] on the buffer, gives the number
    back, and nothing outside the buffer changes. *)
Theorem print_parse_roundtrip lit_null lit_kernel lit_conversion m buffer buf_size format w fuel :
  buffer ≠ NULL → 24 ≤ buf_size ≤ 2 ^ 31 → (36 ≤ fuel)%nat → cstr m format [37; 100] → format + 2 < buffer ∨ buffer + buf_size ≤ format →
  ∃ len m', vsnprintf lit_null lit_kernel lit_conversion fuel buffer buf_size format [w] m = Ok (len, m') ∧
    same_outside m m' buffer (buffer + buf_size) ∧ atoi fuel buffer m' = Ok (s32 w, m').
Proof.
  intros Hb Hsz Hfuel Hf Hd. set (v := s32 w). assert (in_s 32 v) as Hv by (by apply swrap_range). unfold in_s in Hv.
  destruct (plain_text (Z.abs v) (v <? 0)) as (ds & Et & Hds & Hdec & Hne & Hlen); [unfold in_u; lia|].
  set (text := int_text (Z.abs v) true (v <? 0) base_d (mk_conversion 0 0 (-1) INT)) in *.
  assert (length text ≤ 23)%nat by (rewrite Et, length_app; destruct (v <? 0); simpl; lia).
  assert (Forall (λ c, 0 < c < 256) ds) as Hchars.
  { eapply list.Forall_impl; [exact Hds|]. intros c Hc%isdigit_spec. lia. }
  destruct (vsnprintf_run lit_null lit_kernel lit_conversion m buffer buf_size 0 [percent_d] fuel format [w] (text ++ [])) as (m' & E & Ho & Hs & _).
  - lia.
  - repeat constructor.
  - split; [exact Hf|]. intros x Hx. simpl in Hx. lia.
  - eapply (means_conv _ _ _ _ _ (mk_conversion 0 0 (-1) INT)); [done|simpl; lia|simpl; lia|by apply cm_signed; [left|]|constructor].
  - rewrite app_nil_r. lia.
  - simpl. lia.
  - rewrite app_nil_r, Et. apply Forall_app. split; [destruct (v <? 0); by repeat constructor|done].
  - rewrite app_nil_r in E, Hs. eexists _, m'. split; [exact E|]. split; [done|]. specialize (Hs ltac:(lia)). rewrite take_ge in Hs by lia.
    assert (v = (if v <? 0 then -1 else 1) * dec ds) as -> by (rewrite Hdec; destruct (Z.ltb_spec v 0); lia).
    apply (atoi_run m' buffer [] (if v <? 0 then [45] else []) _ ds []); [|exact Hb|constructor| |exact Hds|exact Hne|exact I| |simpl; lia].
    + simpl. rewrite app_nil_r, <-Et. exact Hs.
    + destruct (v <? 0); constructor.
    + rewrite Hdec. unfold in_s. destruct (Z.ltb_spec v 0); lia.
Qed.

Lemma print_parse_roundtrip_witness : ∃ len m',
  vsnprintf 0 0 0 36 1000 24 100 [-2 ^ 31] (λ x, if x =? 100 then 37 else if x =? 101 then 100 else 0) = Ok (len, m') ∧
  same_outside (λ x, if x =? 100 then 37 else if x =? 101 then 100 else 0) m' 1000 (1000 + 24) ∧ atoi 36 1000 m' = Ok (s32 (- 2 ^ 31), m').
Proof. apply print_parse_roundtrip; [discriminate|lia|lia|by vm_compute|left; lia]. Defined.

(** C29. [vsnprintf] prints what the format says: for every format made of text, [%%] and the
    conversions d, i, o, u, x, X, c, s and p with any flags, widths, precisions and types, it
    terminates, returns the length of the whole text, leaves in the buffer the text cut off after
    [buf_size - 1] characters and a zero, and changes nothing outside the buffer. *)
Theorem vsnprintf_correct lit_null lit_kernel lit_conversion m buffer buf_size N ds fuel format args out :
  let W x := buffer ≤ x < buffer + buf_size in
  0 ≤ buf_size ≤ 2 ^ 31 → Forall valid ds → str_at m W format (render_all ds) →
  means lit_null m W N ds args out → Z.of_nat (length out) < 2 ^ 31 → (length (render_all ds) + N ≤ fuel)%nat → Forall (λ c, 0 < c < 256) out →
  ∃ m', vsnprintf lit_null lit_kernel lit_conversion fuel buffer buf_size format args m = Ok (Z.of_nat (length out), m') ∧
    same_outside m m' buffer (buffer + buf_size) ∧ (0 < buf_size → cstr m' buffer (take (Z.to_nat (buf_size - 1)) out)) ∧
    (bytes_ok m → bytes_ok m').
Proof. intros W. apply vsnprintf_run. Qed.

(** Memory with strings at the given addresses. *)
Definition strings_at (l : list (Z * list Z)) : memory :=
  foldr (λ '(a, s) m x, if (a <=? x) && (x <? a + Z.of_nat (length s)) then default 0 (s !! Z.to_nat (x - a)) else m x) (λ _, 0) l.

(** The format "%03u|" at 100. *)
Definition sample_directives : list directive := [Conv (mk_spec [48] (Num [51]) None INT 117); Lit 124].
Definition sample_format : memory := strings_at [(100, render_all sample_directives)].

Lemma vsnprintf_correct_witness : ∃ m',
  vsnprintf 0 0 0 9 1000 4 100 [42] sample_format = Ok (4, m') ∧
    same_outside sample_format m' 1000 (1000 + 4) ∧ (0 < 4 → cstr m' 1000 [48; 52; 50]) ∧ (bytes_ok sample_format → bytes_ok m').
Proof.
  apply (vsnprintf_correct 0 0 0 sample_format 1000 4 0 sample_directives 9 100 [42] [48; 52; 50; 124]).
  - lia.
  - repeat constructor; simpl; done || set_solver.
  - split; [by vm_compute|]. simpl. intros x Hx. lia.
  - apply (means_conv 0 sample_format _ 0 (mk_spec [48] (Num [51]) None INT 117) (mk_conversion 16 3 (-1) INT) [Lit 124] [42] [42] [] [48; 52; 50] [124]).
    + reflexivity.
    + simpl. lia.
    + simpl. lia.
    + apply (cm_unsigned 0 sample_format _ 0 (mk_conversion 16 3 (-1) INT) 117 [42] 42 []); [set_solver|reflexivity].
    + repeat constructor.
  - simpl. lia.
  - simpl. lia.
  - repeat constructor; lia.
Defined.

(** ** Where the code differs from its documentation *)

(** After a format that ends in a percent sign the loop steps over the end of the string and
    prints what follows in memory. *)
Lemma vprintf_passes_end :
  let m := strings_at [(100, [37; 0; 65; 0]); (200, [60; 37; 99; 62; 0])] in
  ∃ m', vsnprintf 0 0 200 20 1000 20 100 [] m = Ok (4, m') ∧ block_at m' 1000 5 = [60; 0; 62; 65; 0].
Proof. eexists. split; [vm_compute; reflexivity|]. by vm_compute. Qed.

(** A negative width argument asks for padding on the right; with the flag 0 the number is padded
    with zeros on the left as well, so the field is wider than asked for. *)
Lemma negative_width_pads_twice :
  ∃ c, conv_of (mk_spec [48] Star None INT 100) [-5; 42] = Some (c, [42]) ∧ width c = 5 ∧
    int_text 42 true false base_d c = [48; 48; 48; 52; 50; 32; 32; 32].
Proof. eexists. split; [vm_compute; reflexivity|]. by vm_compute. Qed.
