(* ===== verification/Console.v ===== *)
(** * The console (lib/kernel/console.c, [print_human_readable_size] of lib/stdio.c)

    Text printed on the display and the serial port, with the lock that keeps the texts of several
    threads apart.  The state is memory with the console.  [intr] says whether the code runs in an
    interrupt handler, [on] whether interrupts are on, and [t] is the current thread.  A thread that has
    to wait, for the lock or for room in the queue of the serial port, does not come back here:
    the outcome is [OutOfFuel]. *)

From S2P Require Import Prelude FsState Intq Vga Serial Palloc CString CStringSpec CStdlib CStdlibSpec CStdio CStdioSpec.

(** ** State *)

Record console := mk_console {
  use_console_lock : bool;
  holder : Z;
  console_lock_depth : Z;
  write_cnt : Z;
  port : serial;
  screen : vga }.

Definition console_init (k : console) : console :=
  mk_console true 0 (console_lock_depth k) (write_cnt k) (port k) (screen k).
Definition console_panic (k : console) : console :=
  mk_console false (holder k) (console_lock_depth k) (write_cnt k) (port k) (screen k).

Section Console.
Context (lsr : nat → Z) (fuel : nat) (on intr : bool) (t : Z).

Abbreviation C := (M (memory * console)).

Definition console_of (s : memory * console) : console := s.2.
Definition update (f : console → console) : C unit := modify (λ s, (s.1, f s.2)).
Definition set_holder (h : Z) : C unit := update (λ k,
  mk_console (use_console_lock k) h (console_lock_depth k) (write_cnt k) (port k) (screen k)).
Definition set_depth (d : Z) : C unit := update (λ k,
  mk_console (use_console_lock k) (holder k) d (write_cnt k) (port k) (screen k)).
Definition on_port {A} (f : M serial A) : C A := λ s,
  let? '(a, p) := f (port s.2) in
  Ok (a, (s.1, mk_console (use_console_lock s.2) (holder s.2) (console_lock_depth s.2) (write_cnt s.2) p (screen s.2))).
Definition on_screen {A} (f : M vga A) : C A := λ s,
  let? '(a, v) := f (screen s.2) in
  Ok (a, (s.1, mk_console (use_console_lock s.2) (holder s.2) (console_lock_depth s.2) (write_cnt s.2) (port s.2) v)).

(** ** The lock *)

Definition acquire_console : C unit :=
  let! k := gets console_of in
  if negb intr && use_console_lock k then
    if holder k =? t then set_depth (s32 (console_lock_depth k + 1))
    else if holder k =? 0 then set_holder t
    else out_of_fuel
  else ret tt.

Definition release_console : C unit :=
  let! k := gets console_of in
  if negb intr && use_console_lock k then
    if 0 <? console_lock_depth k then set_depth (console_lock_depth k - 1)
    else let! _ := ASSERT (holder k =? t) in set_holder 0
  else ret tt.

Definition console_locked_by_current_thread (k : console) : bool :=
  intr || negb (use_console_lock k) || (holder k =? t).

(** ** Characters *)

Definition putchar_have_lock (c : Z) : C unit :=
  let! k := gets console_of in
  let! _ := ASSERT (console_locked_by_current_thread k) in
  let! _ := update (λ k,
    mk_console (use_console_lock k) (holder k) (console_lock_depth k) (s64 (write_cnt k + 1)) (port k) (screen k)) in
  let! r := on_port (serial_putc lsr fuel on intr t (u8 c)) in
  match r with
  | Stored _ => on_screen (vga_putc (u8 c))
  | _ => out_of_fuel
  end.

Fixpoint puts_loop (n : nat) (s : Z) : C unit :=
  let! c := peek s in
  if c =? 0 then ret tt
  else match n with O => out_of_fuel | S n => let! _ := putchar_have_lock c in puts_loop n (s + 1) end.
Definition puts (n : nat) (s : Z) : C Z :=
  let! _ := acquire_console in
  let! _ := puts_loop n s in
  let! _ := putchar_have_lock 10 in
  let! _ := release_console in
  ret 0.

Fixpoint putbuf_loop (n : nat) (buffer : Z) : C unit :=
  match n with
  | O => ret tt
  | S n =>
      let! c := peek buffer in
      let! _ := putchar_have_lock c in
      putbuf_loop n (buffer + 1)
  end.
Definition putbuf (buffer n : Z) : C unit :=
  let! _ := acquire_console in
  let! _ := putbuf_loop (Z.to_nat n) buffer in
  release_console.

Definition putchar (c : Z) : C Z :=
  let! _ := acquire_console in
  let! _ := putchar_have_lock c in
  let! _ := release_console in
  ret c.

(** The counter [char_cnt] of [vprintf] is next to the console. *)
Definition vprintf_helper (c : Z) : M (memory * (Z * console)) unit := λ s,
  let? '(_, (m, k)) := putchar_have_lock c (s.1, s.2.2) in
  Ok (tt, (m, (s32 (s.2.1 + 1), k))).

Definition vprintf (lit_null lit_kernel lit_conversion : Z) (n : nat) (format : Z) (args : list Z) : C Z :=
  let! _ := acquire_console in
  let! char_cnt := (λ s,
    let? '(_, (m, (cnt, k))) := __vprintf vprintf_helper lit_null lit_kernel lit_conversion n format args (s.1, (0, s.2)) in
    Ok (cnt, (m, k))) in
  let! _ := release_console in
  ret char_cnt.
End Console.

(** ** Sizes *)

(** [factors] is the array of pointers before the null pointer. *)
Fixpoint factor_loop (size : Z) (fp : list Z) : Z * Z :=
  match fp with
  | a :: ((_ :: _) as rest) => if 1024 <=? size then factor_loop (size `quot` 1024) rest else (size, a)
  | [a] => (size, a)
  | [] => (size, NULL)
  end.

Section Sizes.
Context (printf : Z → list Z → M (memory * console) Z) (lit_byte lit_size : Z) (factors : list Z).

(** The argument of the conversion [%llu] is two words. *)
Definition print_human_readable_size (size : Z) : M (memory * console) unit :=
  if size =? 1 then let! _ := printf lit_byte [] in ret tt
  else
    let '(size, f) := factor_loop size factors in
    let! _ := printf lit_size [u32 size; u32 (Z.shiftr size 32); f] in
    ret tt.
End Sizes.

(** ** What is printed *)

(** The port, the screen and the lock as they should be, with [pend] to be sent and the paper [p]. *)
Record console_ok (k : console) (pend got : queue) (p : paper) : Prop := {
  co_port : port_ok (port k) pend got;
  co_screen : displays (screen k) p;
  co_cursor : cursor_at (screen k) }.

(** From [k] to [k'] the characters [text] were printed on both devices, and nothing else changed. *)
Record printed (got : queue) (k : console) (pend : queue) (p : paper) (text : list Z) (k' : console) (pend' : queue) : Prop := {
  pr_use : use_console_lock k' = use_console_lock k;
  pr_holder : holder k' = holder k;
  pr_depth : console_lock_depth k' = console_lock_depth k;
  pr_cnt : s64 (write_cnt k') = s64 (write_cnt k + Z.of_nat (length text));
  pr_ok : console_ok k' pend' got (foldl (λ p c, print c p) p (u8 <$> text));
  pr_sent : sent (port k') ++ content pend' = sent (port k) ++ content pend ++ (u8 <$> text) }.

Lemma swrap_add w x y x' : swrap w x = swrap w x' → swrap w (x + y) = swrap w (x' + y).
Proof.
  unfold swrap. intros H. set (h := 2 ^ (w - 1)) in *. assert ((x + h) `mod` 2 ^ w = (x' + h) `mod` 2 ^ w) as H' by lia.
  f_equal. replace (x + y + h) with (x + h + y) by lia. replace (x' + y + h) with (x' + h + y) by lia.
  rewrite <-(Zplus_mod_idemp_l (x + h)), H', Zplus_mod_idemp_l. done.
Qed.
Lemma s64_s64 x : s64 (s64 x) = s64 x.
Proof. apply swrap_id; [done|]. by apply swrap_range. Qed.

Lemma printed_nil got k pend p : console_ok k pend got p → printed got k pend p [] k pend.
Proof. intros H. split; try done; simpl; [f_equal; lia|by rewrite app_nil_r]. Qed.
Lemma printed_app got k pend p t1 k1 pend1 t2 k2 pend2 : printed got k pend p t1 k1 pend1 →
  printed got k1 pend1 (foldl (λ p c, print c p) p (u8 <$> t1)) t2 k2 pend2 → printed got k pend p (t1 ++ t2) k2 pend2.
Proof.
  intros [Hu1 Hh1 Hd1 Hc1 Ho1 Hs1] [Hu2 Hh2 Hd2 Hc2 Ho2 Hs2]. split; try congruence.
  - rewrite Hc2, (swrap_add _ _ _ _ Hc1), length_app. f_equal. lia.
  - by rewrite fmap_app, foldl_app.
  - rewrite Hs2, app_assoc, Hs1, fmap_app, <-!app_assoc. done.
Qed.

(** What may take the lock: nobody else holds it. *)
Definition lock_free (intr : bool) (t : Z) (k : console) : Prop :=
  holder k = t ∧ 0 ≤ console_lock_depth k < 2 ^ 31 - 1 ∨ holder k = 0 ∧ console_lock_depth k = 0 ∨ intr = true ∨ use_console_lock k = false.

(** [k] with another holder. *)
Definition with_lock (h d : Z) (k : console) : console :=
  mk_console (use_console_lock k) h d (write_cnt k) (port k) (screen k).

Lemma printed_lock got k pend p text k' pend' h d : printed got (with_lock h d k) pend p text k' pend' →
  printed got k pend p text (with_lock (holder k) (console_lock_depth k) k') pend'.
Proof. intros [Hu Hh Hd Hc [] Hs]. by split. Qed.

Section Printing.
Context (lsr : nat → Z) (fuel : nat) (intr : bool) (t : Z) (Hready : responsive lsr fuel) (Ht : t ≠ 0).

Lemma console_acquire_run m k : lock_free intr t k →
  ∃ h d, acquire_console intr t (m, k) = Ok (tt, (m, with_lock h d k)) ∧ console_locked_by_current_thread intr t (with_lock h d k) = true ∧
    ∀ m k2, use_console_lock k2 = use_console_lock k → holder k2 = h → console_lock_depth k2 = d →
      release_console intr t (m, k2) = Ok (tt, (m, with_lock (holder k) (console_lock_depth k) k2)).
Proof.
  intros Hf. unfold acquire_console, release_console, console_locked_by_current_thread. 
  destruct (negb intr && use_console_lock k) eqn:Eu.
  - apply andb_true_iff in Eu as [Hi Hu]. destruct intr; [done|].
    destruct Hf as [[Hh Hd]|[[Hh Hd]|[?|?]]]; [..|done|congruence].
    + exists (holder k), (console_lock_depth k + 1). split; [|split].
      * unfold bind, gets, console_of. cbn [snd]. rewrite Hu. cbn [negb andb]. rewrite (proj2 (Z.eqb_eq _ _) Hh).
        rewrite swrap_id by (done || unfold in_s; lia). done.
      * cbn. by rewrite (proj2 (Z.eqb_eq _ _) Hh), orb_true_r.
      * intros m2 k2 Hu2 Hh2 Hd2. unfold bind, gets, console_of. cbn [snd]. rewrite Hu2, Hu. cbn [negb andb]. rewrite Hd2, (proj2 (Z.ltb_lt _ _)) by lia.
        unfold set_depth, update, modify, with_lock. cbn. do 4 f_equal; [congruence|lia].
    + exists t, 0. split; [|split].
      * unfold bind, gets, console_of. cbn [snd]. rewrite Hu. cbn [negb andb]. rewrite Hh, (proj2 (Z.eqb_neq 0 t)) by congruence.
        unfold set_holder, update, modify, with_lock. cbn. by rewrite Hd.
      * cbn. by rewrite Z.eqb_refl, orb_true_r.
      * intros m2 k2 Hu2 Hh2 Hd2. unfold bind, gets, console_of. cbn [snd]. rewrite Hu2, Hu. cbn [negb andb]. rewrite Hd2, Hh2, Z.eqb_refl.
        unfold set_holder, update, modify, with_lock. cbn. by rewrite Hh, Hd, Hd2.
  - exists (holder k), (console_lock_depth k). split; [|split].
    + unfold bind, gets, console_of. cbn [snd]. rewrite Eu. by destruct k.
    + cbn. destruct intr; [done|]. cbn in Eu |- *. by rewrite Eu.
    + intros m2 k2 Hu2 Hh2 Hd2. unfold bind, gets, console_of. cbn [snd]. rewrite Hu2, Eu. rewrite <-Hh2, <-Hd2. by destruct k2.
Qed.

Lemma putchar_run m k pend got p c : console_locked_by_current_thread intr t k = true → console_ok k pend got p →
  ∃ k' pend', putchar_have_lock lsr fuel false intr t c (m, k) = Ok (tt, (m, k')) ∧ printed got k pend p [c] k' pend'.
Proof.
  intros Hl [Hp Hs Hc]. unfold putchar_have_lock. rewrite (bind_Ok (gets console_of) _ (m, k) k (m, k) eq_refl), Hl.
  rewrite (bind_Ok (ASSERT true) _ (m, k) tt (m, k) eq_refl). erewrite (bind_Ok (update _)) by done.
  destruct (putc_off_run lsr fuel Hready intr t (u8 c) (port k) pend got Hp) as (w & s' & pend' & E & Hp' & Hs' & _).
  erewrite (bind_Ok (on_port _)) by (unfold on_port; cbn [snd port]; by rewrite E). cbv iota beta.
  destruct (putc_shows (screen k) p (u8 c) Hs) as (v' & Ev & Hv' & Hc'). unfold on_screen. cbn [snd screen]. rewrite Ev.
  eexists _, pend'. split; [done|]. split; try done; cbn; by rewrite s64_s64.
Qed.

(** The lock stays with the current thread while it prints. *)
Lemma printed_locked got k pend p text k' pend' : printed got k pend p text k' pend' →
  console_locked_by_current_thread intr t k' = console_locked_by_current_thread intr t k.
Proof. intros [Hu Hh _ _ _ _]. unfold console_locked_by_current_thread. by rewrite Hu, Hh. Qed.

Lemma putbuf_loop_run m got n : ∀ buffer k pend p, console_locked_by_current_thread intr t k = true → console_ok k pend got p →
  ∃ k' pend', putbuf_loop lsr fuel false intr t n buffer (m, k) = Ok (tt, (m, k')) ∧
    printed got k pend p (block_at m buffer (Z.of_nat n)) k' pend'.
Proof.
  induction n as [|n IH]; intros buffer k pend p Hl Hk; cbn [putbuf_loop]; [exists k, pend; split; [done|by apply printed_nil]|].
  rewrite (bind_Ok (peek buffer) _ (m, k) (m buffer) (m, k) eq_refl).
  destruct (putchar_run m k pend got p (m buffer) Hl Hk) as (k1 & pend1 & E1 & Hp1). rewrite (bind_Ok _ _ _ _ _ E1).
  destruct (IH (buffer + 1) k1 pend1 _ ltac:(by rewrite (printed_locked _ _ _ _ _ _ _ Hp1)) (pr_ok _ _ _ _ _ _ _ Hp1)) as (k' & pend' & E & Hp).
  exists k', pend'. split; [done|]. replace (block_at m buffer (Z.of_nat (S n))) with ([m buffer] ++ block_at m (buffer + 1) (Z.of_nat n)).
  - eapply printed_app; [exact Hp1|exact Hp].
  - unfold block_at. rewrite (seqZ_cons buffer) by lia. cbn. do 3 f_equal. lia.
Qed.

Lemma puts_loop_run m got str : ∀ n s k pend p, cstr m s str → (length str ≤ n)%nat → console_locked_by_current_thread intr t k = true →
  console_ok k pend got p → ∃ k' pend', puts_loop lsr fuel false intr t n s (m, k) = Ok (tt, (m, k')) ∧ printed got k pend p str k' pend'.
Proof.
  induction str as [|c str IH]; intros n s k pend p Hs Hn Hl Hk; (destruct n as [|n]; cbn [puts_loop]);
    rewrite (bind_Ok (peek s) _ (m, k) (m s) (m, k) eq_refl).
  1, 2: rewrite Hs; exists k, pend; (split; [done|by apply printed_nil]).
  - simpl in Hn. lia.
  - destruct Hs as (Hc & -> & Hs). rewrite (proj2 (Z.eqb_neq c 0)) by lia.
    destruct (putchar_run m k pend got p c Hl Hk) as (k1 & pend1 & E1 & Hp1). rewrite (bind_Ok _ _ _ _ _ E1).
    destruct (IH n (s + 1) k1 pend1 _ Hs ltac:(simpl in Hn; lia) ltac:(by rewrite (printed_locked _ _ _ _ _ _ _ Hp1)) (pr_ok _ _ _ _ _ _ _ Hp1)) as (k' & pend' & E & Hp).
    exists k', pend'. split; [done|]. by eapply (printed_app _ _ _ _ [c]).
Qed.

(** What [vprintf_helper] keeps true: the counter counts, memory does not change. *)
Definition printing (m : memory) (got : queue) (k : console) (pend : queue) (p : paper) (o : list Z) (s : memory * (Z * console)) : Prop :=
  s.1 = m ∧ s.2.1 = Z.of_nat (length o) ∧ ∃ pend', printed got k pend p o s.2.2 pend'.

Lemma vprintf_helper_run m got k pend p o ch s : console_locked_by_current_thread intr t k = true → printing m got k pend p o s →
  Z.of_nat (length (o ++ [ch])) < 2 ^ 31 →
  ∃ s', vprintf_helper lsr fuel false intr t ch s = Ok (tt, s') ∧ printing m got k pend p (o ++ [ch]) s'.
Proof.
  intros Hl (Hm & Hc & pend1 & Hp) HL. destruct s as [m1 [cnt k1]]. cbn in Hm, Hc, Hp. subst m1 cnt. rewrite length_app in HL. simpl in HL.
  destruct (putchar_run m k1 pend1 got _ ch ltac:(by rewrite (printed_locked _ _ _ _ _ _ _ Hp)) (pr_ok _ _ _ _ _ _ _ Hp)) as (k2 & pend2 & E & Hp2).
  unfold vprintf_helper. cbn [fst snd]. rewrite E. eexists. split; [done|]. split; [done|]. cbn [fst snd]. split.
  - rewrite swrap_id by (done || unfold in_s; lia). rewrite length_app. simpl. lia.
  - exists pend2. by eapply printed_app.
Qed.

(** ** Calls *)

Context (lit_null lit_kernel lit_conversion : Z) (n : nat).

Inductive call := Puts (s : Z) | Putbuf (buffer n : Z) | Putchar (c : Z) | Printf (format : Z) (args : list Z).

Definition perform (c : call) : M (memory * console) unit :=
  match c with
  | Puts s => let! _ := puts lsr fuel false intr t n s in ret tt
  | Putbuf buffer len => putbuf lsr fuel false intr t buffer len
  | Putchar c => let! _ := putchar lsr fuel false intr t c in ret tt
  | Printf format args => let! _ := vprintf lsr fuel false intr t lit_null lit_kernel lit_conversion n format args in ret tt
  end.
Fixpoint perform_all (cs : list call) : M (memory * console) unit :=
  match cs with [] => ret tt | c :: cs => let! _ := perform c in perform_all cs end.

(** The text that a call prints. *)
Inductive says (m : memory) : call → list Z → Prop :=
  | says_puts s str : cstr m s str → (length str ≤ n)%nat → says m (Puts s) (str ++ [10])
  | says_putbuf buffer len : 0 ≤ len → says m (Putbuf buffer len) (block_at m buffer len)
  | says_putchar c : says m (Putchar c) [c]
  | says_printf N ds format args out : Forall valid ds → str_at m (λ _, False) format (render_all ds) →
      means lit_null m (λ _, False) N ds args out → Z.of_nat (length out) < 2 ^ 31 → (length (render_all ds) + N ≤ n)%nat →
      says m (Printf format args) out.

Lemma printf_run m got k pend p N ds format args out : console_locked_by_current_thread intr t k = true → console_ok k pend got p →
  Forall valid ds → str_at m (λ _, False) format (render_all ds) → means lit_null m (λ _, False) N ds args out →
  Z.of_nat (length out) < 2 ^ 31 → (length (render_all ds) + N ≤ n)%nat →
  ∃ k' pend', __vprintf (vprintf_helper lsr fuel false intr t) lit_null lit_kernel lit_conversion n format args (m, (0, k)) =
      Ok (tt, (m, (Z.of_nat (length out), k'))) ∧ printed got k pend p out k' pend'.
Proof.
  intros Hl Hk Hv Hf Hm HL Hn.
  assert (emits (2 ^ 31) (printing m got k pend p) (__vprintf (vprintf_helper lsr fuel false intr t) lit_null lit_kernel lit_conversion n format args) tt out) as Hrun.
  { apply (vprintf_emits _ lit_null lit_kernel lit_conversion m (λ _, False)) with N ds; try done.
    - intros o ch s Hs Ho. by apply vprintf_helper_run.
    - intros o s x (-> & _) _. done. }
  destruct (Hrun [] (m, (0, k))) as ([m' [cnt k']] & E & Hm' & Hc' & pend' & Hp'); [|done|].
  - split; [done|]. split; [done|]. exists pend. by apply printed_nil.
  - cbn in Hm', Hc', Hp'. subst. by exists k', pend'.
Qed.

Lemma perform_run m got k pend p c text : lock_free intr t k → console_ok k pend got p → says m c text →
  ∃ k' pend', perform c (m, k) = Ok (tt, (m, k')) ∧ printed got k pend p text k' pend'.
Proof.
  intros Hf Hk Hs. destruct (console_acquire_run m k Hf) as (h & d & Ea & Hl & Hr). assert (console_ok (with_lock h d k) pend got p) as Hk1 by (by destruct Hk; split).
  destruct Hs as [s str Hs Hn|buffer len Hlen|c|N ds format args out Hv Hfm Hm HL Hn]; cbn [perform].
  - destruct (puts_loop_run m got str n s _ pend p Hs Hn Hl Hk1) as (k2 & pend2 & E2 & Hp2).
    destruct (putchar_run m k2 pend2 got _ 10 ltac:(by rewrite (printed_locked _ _ _ _ _ _ _ Hp2)) (pr_ok _ _ _ _ _ _ _ Hp2)) as (k3 & pend3 & E3 & Hp3).
    pose proof (printed_app _ _ _ _ _ _ _ _ _ _ Hp2 Hp3) as Hp. unfold puts. eexists _, pend3.
    rewrite (bind_Ok _ _ (m, k) 0 (m, with_lock (holder k) (console_lock_depth k) k3)); [split; [done|by eapply printed_lock]|].
    rewrite (bind_Ok _ _ _ _ _ Ea), (bind_Ok _ _ _ _ _ E2), (bind_Ok _ _ _ _ _ E3). destruct Hp as [Hu Hh Hd _ _ _]. by rewrite (bind_Ok _ _ _ _ _ (Hr m k3 Hu Hh Hd)).
  - destruct (putbuf_loop_run m got (Z.to_nat len) buffer _ pend p Hl Hk1) as (k2 & pend2 & E2 & Hp). rewrite Z2Nat.id in Hp by done.
    unfold putbuf. eexists _, pend2. rewrite (bind_Ok _ _ _ _ _ Ea), (bind_Ok _ _ _ _ _ E2). pose proof Hp as [Hu Hh Hd _ _ _].
    split; [exact (Hr m k2 Hu Hh Hd)|by eapply printed_lock].
  - destruct (putchar_run m _ pend got p c Hl Hk1) as (k2 & pend2 & E2 & Hp). unfold putchar. eexists _, pend2.
    rewrite (bind_Ok _ _ (m, k) c (m, with_lock (holder k) (console_lock_depth k) k2)); [split; [done|by eapply printed_lock]|].
    rewrite (bind_Ok _ _ _ _ _ Ea), (bind_Ok _ _ _ _ _ E2). destruct Hp as [Hu Hh Hd _ _ _]. by rewrite (bind_Ok _ _ _ _ _ (Hr m k2 Hu Hh Hd)).
  - destruct (printf_run m got _ pend p N ds format args out Hl Hk1 Hv Hfm Hm HL Hn) as (k2 & pend2 & E2 & Hp). unfold vprintf. eexists _, pend2.
    rewrite (bind_Ok _ _ (m, k) (Z.of_nat (length out)) (m, with_lock (holder k) (console_lock_depth k) k2)); [split; [done|by eapply printed_lock]|].
    rewrite (bind_Ok _ _ _ _ _ Ea). erewrite bind_Ok by (cbn [fst snd]; by rewrite E2).
    destruct Hp as [Hu Hh Hd _ _ _]. by rewrite (bind_Ok _ _ _ _ _ (Hr m k2 Hu Hh Hd)).
Qed.

(** C24. Text on the console: with interrupts off, any sequence of [printf], [puts], [putbuf] and
    [putchar] calls of a thread that may take the console lock, or of an interrupt handler, ends with no
    assertion failed; the serial port gets, and the screen shows, exactly the text of the calls, in their order; the
    characters are counted and the lock is as it was. *)
Theorem console_prints m got k pend p cs texts : lock_free intr t k → console_ok k pend got p → Forall2 (says m) cs texts →
  ∃ k' pend', perform_all cs (m, k) = Ok (tt, (m, k')) ∧ printed got k pend p (concat texts) k' pend'.
Proof.
  intros Hf Hk Hs. revert k pend p Hf Hk. induction Hs as [|c text cs texts Hc _ IH]; intros k pend p Hf Hk; cbn [perform_all concat].
  - exists k, pend. split; [done|by apply printed_nil].
  - destruct (perform_run m got k pend p c text Hf Hk Hc) as (k1 & pend1 & E1 & Hp1). rewrite (bind_Ok _ _ _ _ _ E1).
    edestruct (IH k1 pend1) as (k' & pend' & E & Hp); [|exact (pr_ok _ _ _ _ _ _ _ Hp1)|].
    + destruct Hp1 as [Hu Hh Hd _ _ _]. unfold lock_free. by rewrite Hu, Hh, Hd.
    + exists k', pend'. split; [done|]. by eapply printed_app.
Qed.

(** ** Sizes in words *)

(** "1 byte", "%llu %s" and the names of the units, of 1024 ^ i bytes. *)
Definition one_byte : list Z := [49; 32; 98; 121; 116; 101].
Definition size_format : list directive :=
  [Conv (mk_spec [] (Num []) None LONGLONG 117); Lit 32; Conv (mk_spec [] (Num []) None INT 115)].
Definition units : list (list Z) := [[98; 121; 116; 101; 115]; [107; 66]; [77; 66]; [71; 66]; [84; 66]].
(** The number of times [size] is divided: it is below 1024 after that, or the units are used up. *)
Definition unit_of (size : Z) : nat :=
  if size <? 2 ^ 10 then 0 else if size <? 2 ^ 20 then 1 else if size <? 2 ^ 30 then 2 else if size <? 2 ^ 40 then 3 else 4.
Definition size_text (size : Z) : list Z :=
  if size =? 1 then one_byte
  else int_text (size / 1024 ^ Z.of_nat (unit_of size)) false false base_d (mk_conversion 0 0 (-1) LONGLONG) ++
    [32] ++ default [] (units !! unit_of size).

Lemma factor_loop_run size f0 f1 f2 f3 f4 : 0 ≤ size →
  ∃ f, factor_loop size [f0; f1; f2; f3; f4] = (size / 1024 ^ Z.of_nat (unit_of size), f) ∧
    [f0; f1; f2; f3; f4] !! unit_of size = Some f.
Proof.
  intros H. cbn [factor_loop]. unfold unit_of. rewrite !Z.quot_div_nonneg by (repeat apply Z.div_pos; lia). rewrite !Z.div_div by lia.
  assert (∀ k, 0 < k → (1024 <=? size / k) = negb (size <? 1024 * k)) as Hk.
  { intros k Hk0. destruct (Z.leb_spec 1024 (size / k)) as [Hq|Hq]; destruct (Z.ltb_spec size (1024 * k)) as [Hs|Hs]; try done; exfalso.
    - assert (size / k < 1024) by (apply Z.div_lt_upper_bound; lia). lia.
    - assert (1024 ≤ size / k) by (apply Z.div_le_lower_bound; lia). lia. }
  rewrite !Hk by lia. replace (1024 <=? size) with (negb (size <? 2 ^ 10)) by (destruct (Z.leb_spec 1024 size), (Z.ltb_spec size (2 ^ 10)); done || lia).
  change (1024 * 1024) with (2 ^ 20). change (1024 * (2 ^ 20)) with (2 ^ 30). change (2 ^ 20 * 1024) with (2 ^ 30).
  change (1024 * (2 ^ 30)) with (2 ^ 40). change (2 ^ 30 * 1024) with (2 ^ 40).
  destruct (size <? 2 ^ 10); cbn [negb]; [eexists; split; [by rewrite Z.pow_0_r, Z.div_1_r|done]|].
  destruct (size <? 2 ^ 20); cbn [negb]; [by eexists|]. destruct (size <? 2 ^ 30); cbn [negb]; [by eexists|].
  destruct (size <? 2 ^ 40); cbn [negb]; by eexists.
Qed.

Lemma unsigned_text_length v : (length (int_text v false false base_d (mk_conversion 0 0 (-1) LONGLONG)) ≤ 45)%nat.
Proof.
  unfold int_text, int_body, int_prefix. assert (∀ b, has 0 b = false) as Hh by done. cbn [flags precision width]. rewrite !Hh. cbn [andb].
  change (sign_char false false 0 =? 0) with true. change (0 =? 0) with true. cbv iota. rewrite app_nil_r. cbn [app].
  set (ds := int_digits _ _ _). assert (length ds ≤ 44)%nat.
  { unfold ds, int_digits. pose proof (lay_length base_d false (to_digits 22 10 v) 0). pose proof (to_digits_length 10 22 v).
    change (base base_d) with 10. etrans; [eassumption|]. lia. }
  rewrite !length_app, !length_replicate, ?length_reverse. change (-1 <? 0) with true. cbn [length]. lia.
Qed.

(** [print_human_readable_size] prints the size in the greatest unit it is at least one of,
    up to the terabyte, rounded down. *)
Theorem print_human_readable_size_prints m got k pend p lit_byte lit_size fs size :
  lock_free intr t k → console_ok k pend got p → in_u 64 size → (32 ≤ n)%nat →
  cstr m lit_byte one_byte → cstr m lit_size (render_all size_format) → Forall2 (cstr m) fs units → Forall (λ f, f ≠ NULL) fs →
  ∃ k' pend', print_human_readable_size (vprintf lsr fuel false intr t lit_null lit_kernel lit_conversion n) lit_byte lit_size fs size (m, k) =
      Ok (tt, (m, k')) ∧ printed got k pend p (size_text size) k' pend'.
Proof.
  intros Hf Hk Hsz Hn Hb Hl Hu Hnz. unfold print_human_readable_size, size_text, in_u in *. destruct (Z.eqb_spec size 1) as [->|H1].
  - apply (perform_run m got k pend p (Printf lit_byte []) one_byte Hf Hk).
    apply (says_printf m 0 (Lit <$> one_byte)); [by repeat constructor|by split; [|tauto]|by repeat constructor|done|simpl; lia].
  - apply Forall2_length in Hu as Hlen. destruct fs as [|f0 [|f1 [|f2 [|f3 [|f4 [|]]]]]]; try done.
    destruct (factor_loop_run size f0 f1 f2 f3 f4 ltac:(lia)) as (f & -> & Hlk).
    set (v := size / 1024 ^ Z.of_nat (unit_of size)) in *.
    assert (0 ≤ v < 2 ^ 64) as Hv.
    { unfold v. split; [apply Z.div_pos; lia|]. assert (0 < 1024 ^ Z.of_nat (unit_of size)) by (apply Z.pow_pos_nonneg; lia).
      apply Z.div_lt_upper_bound; [lia|]. nia. }
    destruct (Forall2_lookup_l _ _ _ _ _ Hu Hlk) as (name & Hname & Hcs). rewrite Hname. cbn [default from_option].
    assert (f ≠ NULL) as Hfn by (by eapply (Forall_lookup_1 _ _ _ _ Hnz)).
    assert (length name ≤ 5)%nat as Hln.
    { assert (Forall (λ name : list Z, (length name ≤ 5)%nat) units) as Hall by (repeat constructor; simpl; lia).
      by apply (Forall_lookup_1 _ _ _ _ Hall Hname). }
    apply (perform_run m got k pend p (Printf lit_size [u32 v; u32 (Z.shiftr v 32); f]) (_ ++ [32] ++ name) Hf Hk).
    apply (says_printf m 5 size_format).
    + repeat constructor; simpl; done || set_solver.
    + by split; [|tauto].
    + eapply (means_conv lit_null m _ 5 (mk_spec [] (Num []) None LONGLONG 117) (mk_conversion 0 0 (-1) LONGLONG)); [reflexivity|done|done| |].
      * apply (cm_unsigned lit_null m _ 5 (mk_conversion 0 0 (-1) LONGLONG) 117 _ v [f]); [set_solver|]. cbn [unsigned_val type].
        do 2 f_equal. rewrite Z.shiftr_div_pow2 by lia. unfold uwrap. rewrite (Z.mod_small (v / 2 ^ 32)) by (split; [apply Z.div_pos; lia|apply Z.div_lt_upper_bound; lia]).
        pose proof (Z.div_mod v (2 ^ 32) ltac:(lia)). rewrite Z.mod_small; lia.
      * apply means_lit. rewrite <-(app_nil_r name).
        eapply (means_conv lit_null m _ 5 (mk_spec [] (Num []) None INT 115) (mk_conversion 0 0 (-1) INT)); [reflexivity|done|done| |constructor].
        pose proof (cm_string lit_null m (λ _, False) 5 (mk_conversion 0 0 (-1) INT) 115 f name [] eq_refl) as H. cbn in H.
        assert (string_text name (mk_conversion 0 0 (-1) INT) = name) as Et by (unfold string_text; cbn; by replace (Z.to_nat (0 - Z.of_nat (length name))) with 0%nat by lia).
        rewrite Et in H. apply H; [|done|lia]. rewrite (proj2 (Z.eqb_neq _ _)) by done. by split; [|tauto].
    + rewrite !length_app. pose proof (unsigned_text_length v). simpl. lia.
    + simpl. lia.
Qed.
End Printing.

(** ** An example *)

(** A clear screen, an idle port, and the strings "%03u|" at 100 and "ok" at 200. *)
Definition sample_console : console := mk_console true 0 0 0 idle_port (mk_vga true 0 0 (replicate 25 blank) (λ _, 0)).
Definition sample_strings : memory := strings_at [(100, render_all sample_directives); (200, [111; 107])].

Lemma sample_console_ok : console_ok sample_console (mk_queue [] 0 0 0) (mk_queue [] 0 0 0) (mk_paper [] blank 0).
Proof.
  split; [exact idle_port_ok| |done]. split; try done. constructor; [by vm_compute|constructor].
Qed.

Lemma console_prints_witness : ∃ k' pend',
  perform_all (λ _, 0x20) 1 false 5 0 0 0 20 [Printf 100 [42]; Puts 200; Putchar 33] (sample_strings, sample_console) = Ok (tt, (sample_strings, k')) ∧
    printed (mk_queue [] 0 0 0) sample_console (mk_queue [] 0 0 0) (mk_paper [] blank 0) [48; 52; 50; 124; 111; 107; 10; 33] k' pend'.
Proof.
  apply (console_prints (λ _, 0x20) 1 false 5) with (texts := [[48; 52; 50; 124]; [111; 107; 10]; [33]]).
  - intros k. exists k. split; [lia|]. by vm_compute.
  - discriminate.
  - right. left. done.
  - exact sample_console_ok.
  - apply Forall2_cons; [|apply Forall2_cons; [|apply Forall2_cons; [constructor|constructor]]].
    + apply (says_printf 0 20 sample_strings 0 sample_directives).
      * repeat constructor; simpl; done || set_solver.
      * split; [by vm_compute|tauto].
      * apply (means_conv 0 sample_strings _ 0 (mk_spec [48] (Num [51]) None INT 117) (mk_conversion 16 3 (-1) INT) [Lit 124] [42] [42] [] [48; 52; 50] [124]);
          [reflexivity|simpl; lia|simpl; lia| |repeat constructor].
        apply (cm_unsigned 0 sample_strings _ 0 (mk_conversion 16 3 (-1) INT) 117 [42] 42 []); [set_solver|reflexivity].
      * simpl. lia.
      * simpl. lia.
    + apply (says_puts 0 20 sample_strings 200 [111; 107]); [by vm_compute|simpl; lia].
Defined.
