(* ===== verification/Ustar.v ===== *)
(** * lib/ustar.c: headers of tar archives

    The file over the memory of [CString]; the fields of [struct ustar_header] are at their
    offsets and the string literals of the file at the addresses of a record.  The message
    that [ustar_make_header] prints when it fails is left out, and [ustar_parse_header] returns
    what it stores through its pointers, or which message it returns. *)

From S2P Require Import Prelude FsState Palloc CString CStdlib CStdio.

Definition USTAR_HEADER_SIZE : Z := 512.
Definition USTAR_REGULAR : Z := 48.
Definition USTAR_DIRECTORY : Z := 53.
Definition USTAR_EOF : Z := -1.

(** [struct ustar_header]: offset and size of the fields. *)
Definition NAME : Z := 0.
Definition MODE : Z := 100.
Definition UID : Z := 108.
Definition GID : Z := 116.
Definition SIZE : Z := 124.
Definition MTIME : Z := 136.
Definition CHKSUM : Z := 148.
Definition TYPEFLAG : Z := 156.
Definition MAGIC : Z := 257.
Definition VERSION : Z := 263.
Definition UNAME : Z := 265.
Definition GNAME : Z := 297.
Definition PREFIX : Z := 345.

Record literals := {
  lit_dot_slash : Z; lit_dot_dot_slash : Z; lit_dot_dot : Z; lit_dot : Z; lit_zeros : Z; lit_ustar : Z; lit_root : Z;
  lit_07o : Z; lit_011o : Z; stdio_null : Z; stdio_kernel : Z; stdio_conversion : Z }.

Section Ustar.
Variables (L : literals) (fuel : nat).

Definition snprintf (buffer buf_size format : Z) (args : list Z) : B Z :=
  vsnprintf (stdio_null L) (stdio_kernel L) (stdio_conversion L) fuel buffer buf_size format args.

Fixpoint chksum_loop (n : nat) (h i chksum : Z) : B Z :=
  match n with
  | O => ret chksum
  | S n =>
      let! x := load (h + i) in
      let in_chksum_field := (CHKSUM <=? i) && (i <? CHKSUM + 8) in
      chksum_loop n h (i + 1) (u32 (chksum + if in_chksum_field then 32 else x))
  end.
Definition calculate_chksum (h : Z) : B Z := chksum_loop (Z.to_nat USTAR_HEADER_SIZE) h 0 0.

(** The condition of the loop is evaluated from left to right. *)
Definition antisocial (file_name : Z) : B bool :=
  let! c := load file_name in
  if c =? 47 then ret true
  else
    let! r := memcmp file_name (lit_dot_slash L) 2 in
    if r =? 0 then ret true
    else
      let! r := memcmp file_name (lit_dot_dot_slash L) 3 in
      ret (r =? 0).

Fixpoint strip_loop (n : nat) (file_name : Z) : B Z :=
  let! b := antisocial file_name in
  if b then
    match n with
    | O => out_of_fuel
    | S n => let! p := strchr fuel file_name 47 in strip_loop n (p + 1)
    end
  else ret file_name.

Definition strip_antisocial_prefixes (file_name : Z) : B Z :=
  let! file_name := strip_loop fuel file_name in
  let! c := load file_name in
  if c =? 0 then ret (lit_dot L)
  else
    let! r := strcmp fuel file_name (lit_dot_dot L) in
    ret (if r =? 0 then lit_dot L else file_name).

Definition ustar_make_header (file_name type size header : Z) : B bool :=
  let h := header in
  let! _ := ASSERT ((type =? USTAR_REGULAR) || (type =? USTAR_DIRECTORY)) in
  let! file_name := strip_antisocial_prefixes file_name in
  let! n := strlen fuel file_name in
  if 99 <? n then ret false
  else
    let! _ := memset h 0 USTAR_HEADER_SIZE in
    let! _ := strlcpy fuel (h + NAME) file_name 100 in
    let! _ := snprintf (h + MODE) 8 (lit_07o L) [if type =? USTAR_REGULAR then 420 else 493] in
    let! _ := strlcpy fuel (h + UID) (lit_zeros L) 8 in
    let! _ := strlcpy fuel (h + GID) (lit_zeros L) 8 in
    let! _ := snprintf (h + SIZE) 12 (lit_011o L) [size] in
    let! _ := snprintf (h + MTIME) 12 (lit_011o L) [1136102400] in
    let! _ := store (h + TYPEFLAG) type in
    let! _ := strlcpy fuel (h + MAGIC) (lit_ustar L) 6 in
    let! _ := store (h + VERSION + 1) 48 in
    let! _ := store (h + VERSION) 48 in
    let! _ := strlcpy fuel (h + GNAME) (lit_root L) 32 in
    let! _ := strlcpy fuel (h + UNAME) (lit_root L) 32 in
    let! sum := calculate_chksum h in
    let! _ := snprintf (h + CHKSUM) 8 (lit_07o L) [sum] in
    ret true.

(** The value, or nothing on failure. *)
Fixpoint octal_loop (n : nat) (s ofs value : Z) : B (option Z) :=
  match n with
  | O => ret None
  | S n =>
      let! c := load (s + ofs) in
      if (48 <=? c) && (c <=? 55) then
        if (2 ^ 32 - 1) / 8 <? value then ret None
        else octal_loop n s (ofs + 1) (u32 (c - 48 + value * 8))
      else if (c =? 32) || (c =? 0) then ret (if 0 <? ofs then Some value else None)
      else ret None
  end.
Definition parse_octal_field (s size : Z) : B (option Z) := octal_loop (Z.to_nat size) s 0 0.

Fixpoint is_all_zeros_loop (cnt : nat) (block : Z) : B bool :=
  match cnt with
  | O => ret true
  | S n => let! c := load block in if negb (c =? 0) then ret false else is_all_zeros_loop n (block + 1)
  end.
Definition is_all_zeros (block cnt : Z) : B bool := is_all_zeros_loop (Z.to_nat cnt) block.

Inductive ustar_error :=
  NotAnArchive | InvalidVersion | CorruptChksum | ChksumMismatch | NameTooLong | UnimplementedType | CorruptSize | FileTooLarge.

(** [*file_name], [*type] and [*size]. *)
Inductive ustar_result := Parsed (file_name type size : Z) | Failed (e : ustar_error).

Definition ustar_parse_header (header : Z) : B ustar_result :=
  let h := header in
  let! z := is_all_zeros header USTAR_HEADER_SIZE in
  if z then ret (Parsed NULL USTAR_EOF 0)
  else
    let! r := memcmp (h + MAGIC) (lit_ustar L) 6 in
    if negb (r =? 0) then ret (Failed NotAnArchive)
    else
      let! v0 := load (h + VERSION) in
      let! v1 := load (h + VERSION + 1) in
      if negb (v0 =? 48) || negb (v1 =? 48) then ret (Failed InvalidVersion)
      else
        let! chksum := parse_octal_field (h + CHKSUM) 8 in
        match chksum with
        | None => ret (Failed CorruptChksum)
        | Some chksum =>
            let! sum := calculate_chksum h in
            if negb (chksum =? sum) then ret (Failed ChksumMismatch)
            else
              let! n := load (h + NAME + 99) in
              let! p := load (h + PREFIX) in
              if negb (n =? 0) || negb (p =? 0) then ret (Failed NameTooLong)
              else
                let! type := load (h + TYPEFLAG) in
                if negb (type =? USTAR_REGULAR) && negb (type =? USTAR_DIRECTORY) then ret (Failed UnimplementedType)
                else
                  let! size_ul := (if type =? USTAR_REGULAR then parse_octal_field (h + SIZE) 12 else ret (Some 0)) in
                  match size_ul with
                  | None => ret (Failed CorruptSize)
                  | Some size_ul =>
                      if 2 ^ 31 - 1 <? size_ul then ret (Failed FileTooLarge)
                      else
                        let! file_name := strip_antisocial_prefixes (h + NAME) in
                        ret (Parsed file_name type size_ul)
                  end
        end.
End Ustar.
