(* ===== verification/UstarSpec.v ===== *)
(** * Archive headers survive a round trip

    Stripping of names as a function on lists of characters, octal fields, and that
    [ustar_parse_header] reads back what [ustar_make_header] wrote. *)

From S2P Require Import Prelude FsState Palloc CString CStringSpec CStdlib CStdlibSpec CStdio CStdioSpec Ustar.

(** ** Octal fields *)

Lemma octal_char d : 0 ≤ d < base base_o → default 0 (digit_chars base_o !! Z.to_nat d) = 48 + d.
Proof.
  simpl. intros Hd. assert (d = 0 ∨ d = 1 ∨ d = 2 ∨ d = 3 ∨ d = 4 ∨ d = 5 ∨ d = 6 ∨ d = 7) as Hc by lia. by destruct_or! Hc; subst d.
Qed.

Definition octal (ds : list Z) : Prop := Forall (λ c, 48 ≤ c < 56) ds.

Lemma num_zeros B n ds : num_from B 0 (replicate n 48 ++ ds) = num_from B 0 ds.
Proof. induction n as [|n IH]; [done|]. simpl. exact IH. Qed.

(** The directive [%0<w>o], with the width [w] written as the digits [wd]. *)
Definition zero_octal (wd : list Z) : directive := Conv (mk_spec [48] (Num wd) None INT 111).

Lemma octal_text v w : 0 ≤ v < 2 ^ 32 → 1 ≤ w ≤ 22 → v < 8 ^ w → ∃ ds,
  int_text v false false base_o (mk_conversion 16 w (-1) INT) = ds ∧ octal ds ∧ num_from 8 0 ds = v ∧ Z.of_nat (length ds) = w.
Proof.
  intros Hv Hw Hvw. assert (0 ≤ v < base base_o ^ Z.of_nat 22) as H22 by (apply digits_22; [done|lia]).
  destruct (num_reverse base_o (to_digits 22 8 v) octal_char (to_digits_range 8 22 ltac:(lia) v)) as [H1 H2].
  change (base base_o) with 8 in *. rewrite of_to_digits in H1 by (lia || done).
  set (ds := reverse (int_digits base_o false v)). change (reverse _) with ds in H1, H2.
  assert (Z.of_nat (length ds) ≤ w) as Hl.
  { unfold ds, int_digits. rewrite lay_plain, length_reverse, length_fmap. change (base base_o) with 8.
    rewrite (to_digits_more 8 (Z.to_nat w) 22) by (lia || rewrite Z2Nat.id; lia). pose proof (to_digits_length 8 (Z.to_nat w) v). lia. }
  assert (int_text v false false base_o (mk_conversion 16 w (-1) INT) =
    replicate (Z.to_nat (w - Z.of_nat (length (replicate (Z.to_nat (1 - Z.of_nat (length ds))) 48 ++ ds)))) 48 ++ replicate (Z.to_nat (1 - Z.of_nat (length ds))) 48 ++ ds) as ->.
  { unfold int_text, int_prefix, int_body. cbn [flags width precision]. change (has 16 GROUP) with false. fold ds.
    change (has 16 POUND) with false. change (has 16 (Z.lor MINUS ZERO)) with true. change (has 16 ZERO) with true. change (has 16 MINUS) with false.
    cbn [andb app sign_char]. rewrite (proj2 (Z.ltb_lt _ _)) by done. rewrite !app_nil_r. cbn [Z.eqb app length Z.of_nat]. by rewrite Z.sub_0_r. }
  eexists. split; [done|]. rewrite !num_zeros. split; [|split; [done|]].
  - repeat (apply Forall_app; split); try done; apply Forall_replicate; lia.
  - rewrite !length_app, !length_replicate. lia.
Qed.

Lemma octal_loop_run m s ds : ∀ n ofs v, cstr m (s + ofs) ds → octal ds → (length ds < n)%nat → 0 ≤ ofs → 0 ≤ v →
  (ofs = 0 → ds ≠ []) → num_from 8 v ds < 2 ^ 32 → octal_loop n s ofs v m = Ok (Some (num_from 8 v ds), m).
Proof.
  induction ds as [|c ds IH]; intros n ofs v Hs Ho Hn Hofs Hv Hne Hb; (destruct n as [|n]; [simpl in Hn; lia|]); cbn [octal_loop]; erewrite (bind_Ok (load _)) by done.
  - simpl in Hs. rewrite Hs. cbn. rewrite (proj2 (Z.ltb_lt 0 ofs)); [done|]. destruct (decide (ofs = 0)) as [->|]; [by destruct (Hne eq_refl)|lia].
  - destruct Hs as (_ & -> & Hs). apply list.Forall_cons in Ho as [Hc Ho]. rewrite (proj2 (Z.leb_le 48 c)), (proj2 (Z.leb_le c 55)) by lia. cbn [andb].
    assert (∀ ds v, octal ds → 0 ≤ v → v ≤ num_from 8 v ds) as Hge.
    { clear. induction ds as [|c ds IH]; intros v Ho Hv; [done|]. apply list.Forall_cons in Ho as [Hc Ho]. simpl. etrans; [|apply IH; [done|lia]]. lia. }
    cbn [num_from fold_left] in Hb. change (num_from 8 v (c :: ds)) with (num_from 8 (v * 8 + (c - 48)) ds) in *.
    pose proof (Hge ds (v * 8 + (c - 48)) Ho ltac:(lia)). change ((2 ^ 32 - 1) / 8) with 536870911. fold (num_from 8 (v * 8 + (c - 48)) ds) in Hb.
    rewrite (proj2 (Z.ltb_ge 536870911 v)) by lia. rewrite uwrap_id by (unfold in_u; lia). replace (c - 48 + v * 8) with (v * 8 + (c - 48)) by lia.
    apply IH; [by rewrite Z.add_assoc|done|simpl in Hn; lia|lia|lia|lia|done].
Qed.

Lemma parse_octal_run m s ds n : cstr m s ds → octal ds → ds ≠ [] → Z.of_nat (length ds) < n → num_from 8 0 ds < 2 ^ 32 →
  parse_octal_field s n m = Ok (Some (num_from 8 0 ds), m).
Proof. intros. unfold parse_octal_field. apply octal_loop_run; try done; [by rewrite Z.add_0_r|lia]. Qed.

(** ** Names *)

(** The prefixes that are dropped: a slash, a dot or two dots and a slash. *)
Definition drop_prefix (s : list Z) : option (list Z) :=
  if bool_decide (take 1 s = [47]) then Some (drop 1 s)
  else if bool_decide (take 2 s = [46; 47]) then Some (drop 2 s)
  else if bool_decide (take 3 s = [46; 46; 47]) then Some (drop 3 s)
  else None.
Fixpoint strip (n : nat) (s : list Z) : list Z :=
  match n with O => s | S n => match drop_prefix s with Some s' => strip n s' | None => s end end.

(** The name without dangerous prefixes. *)
Definition safe_name (s : list Z) : list Z :=
  let t := strip (length s) s in
  if bool_decide (t = []) || bool_decide (t = [46; 46]) then [46] else t.

(** What a prefix is: no slash but at its end. *)
Lemma drop_prefix_Some s s' : drop_prefix s = Some s' → ∃ pre, s = pre ++ 47 :: s' ∧ 47 ∉ pre.
Proof.
  unfold drop_prefix. intros H. destruct (bool_decide_reflect (take 1 s = [47])) as [Hb|_]; [|destruct (bool_decide_reflect (take 2 s = [46; 47])) as [Hb|_];
    [|destruct (bool_decide_reflect (take 3 s = [46; 46; 47])) as [Hb|_]; [|done]]]; apply (inj Some) in H; subst s'.
  - exists []. split; [|apply not_elem_of_nil]. rewrite <-(take_drop 1 s) at 1. by rewrite Hb.
  - exists [46]. split; [|set_solver]. rewrite <-(take_drop 2 s) at 1. by rewrite Hb.
  - exists [46; 46]. split; [|set_solver]. rewrite <-(take_drop 3 s) at 1. by rewrite Hb.
Qed.

Lemma strip_done n s : (length s ≤ n)%nat → drop_prefix (strip n s) = None.
Proof.
  revert s. induction n as [|n IH]; intros s Hl; cbn [strip]; [by destruct s; [|simpl in Hl; lia]|].
  destruct (drop_prefix s) as [s'|] eqn:E; [|done]. apply IH. apply drop_prefix_Some in E as (pre & -> & _). rewrite length_app in Hl. simpl in Hl. lia.
Qed.

Lemma strip_more n k s : (length s ≤ n)%nat → (length s ≤ k)%nat → strip n s = strip k s.
Proof.
  revert k s. induction n as [|n IH]; intros k s Hn Hk; [by destruct s; [destruct k|simpl in Hn; lia]|]. cbn [strip].
  destruct k as [|k]; [by destruct s; [|simpl in Hk; lia]|]. cbn [strip]. destruct (drop_prefix s) as [s'|] eqn:E; [|done].
  apply drop_prefix_Some in E as (pre & -> & _). rewrite length_app in Hn, Hk. simpl in Hn, Hk. apply IH; lia.
Qed.

Lemma strip_id n s : drop_prefix s = None → strip n s = s.
Proof. intros H. destruct n; [done|]. simpl. by rewrite H. Qed.

Lemma strip_length n s : (length (strip n s) ≤ length s)%nat.
Proof.
  revert s. induction n as [|n IH]; intros s; cbn [strip]; [done|]. destruct (drop_prefix s) as [s'|] eqn:E; [|done].
  apply drop_prefix_Some in E as (pre & -> & _). rewrite length_app. simpl. specialize (IH s'). lia.
Qed.

(** A safe name is not empty, is not the parent directory and has no dangerous prefix. *)
Lemma safe_name_safe s : drop_prefix (safe_name s) = None ∧ safe_name s ≠ [] ∧ safe_name s ≠ [46; 46].
Proof.
  unfold safe_name. destruct (bool_decide_reflect (strip (length s) s = [])); [done|].
  destruct (bool_decide_reflect (strip (length s) s = [46; 46])); [done|]. simpl. split; [by apply strip_done|done].
Qed.

Lemma safe_name_id s : drop_prefix s = None → s ≠ [] → s ≠ [46; 46] → safe_name s = s.
Proof. intros H H1 H2. unfold safe_name. rewrite strip_id by done. by rewrite !bool_decide_eq_false_2. Qed.

(** ** Literals *)

(** The string [s] is at [a], outside the header at [h]. *)
Definition lit_at (m : memory) (h a : Z) (s : list Z) : Prop :=
  cstr m a s ∧ 0 < a ∧ (a + Z.of_nat (length s) < h ∨ h + USTAR_HEADER_SIZE ≤ a).

Record lits_ok (L : literals) (m : memory) (h : Z) : Prop := {
  ok_dot_slash : lit_at m h (lit_dot_slash L) [46; 47];
  ok_dot_dot_slash : lit_at m h (lit_dot_dot_slash L) [46; 46; 47];
  ok_dot_dot : lit_at m h (lit_dot_dot L) [46; 46];
  ok_dot : lit_at m h (lit_dot L) [46];
  ok_zeros : lit_at m h (lit_zeros L) [48; 48; 48; 48; 48; 48; 48];
  ok_ustar : lit_at m h (lit_ustar L) [117; 115; 116; 97; 114];
  ok_root : lit_at m h (lit_root L) [114; 111; 111; 116];
  ok_07o : lit_at m h (lit_07o L) [37; 48; 55; 111];
  ok_011o : lit_at m h (lit_011o L) [37; 48; 49; 49; 111] }.

Lemma lit_keep m m' h a s : same_outside m m' h (h + USTAR_HEADER_SIZE) → lit_at m h a s → lit_at m' h a s.
Proof. intros Ho (Hs & Ha & Hd). split; [|done]. eapply cstr_ext; [|exact Hs]. intros x Hx. apply Ho. lia. Qed.

Lemma lits_keep L m m' h : same_outside m m' h (h + USTAR_HEADER_SIZE) → lits_ok L m h → lits_ok L m' h.
Proof. intros Ho []. split; by eapply lit_keep. Qed.

Section Names.
Context (L : literals) (fuel : nat) (m : memory) (h : Z) (HL : lits_ok L m h).

Lemma antisocial_run a s : cstr m a s → 0 < a → antisocial L a m = Ok (bool_decide (is_Some (drop_prefix s)), m).
Proof.
  intros Hs Ha. unfold antisocial, drop_prefix. destruct (ok_dot_slash L m h HL) as (H1 & HN1 & _). destruct (ok_dot_dot_slash L m h HL) as (H2 & HN2 & _).
  erewrite (bind_Ok (load _)) by done. rewrite (cstr_head _ _ _ Hs).
  destruct (bool_decide_reflect (take 1 s = [47])) as [E|Hn1].
  { destruct s as [|c s]; [done|]. injection E as ->. done. }
  rewrite (proj2 (Z.eqb_neq _ 47)) by (destruct s; [done|]; intros ->; by apply Hn1).
  destruct (memcmp_run m a (lit_dot_slash L) 2) as (r1 & E1 & Hr1); [unfold NULL; lia|unfold NULL; lia|lia|].
  rewrite (bind_Ok _ _ _ _ _ E1). rewrite (same_prefix m [46; 47] a (lit_dot_slash L) s Hs H1 : (∀ k, 0 ≤ k < 2 → _) ↔ _) in Hr1. cbn [length] in Hr1.
  destruct (bool_decide_reflect (take 2 s = [46; 47])) as [E|Hn2]; [by rewrite (proj2 (Z.eqb_eq _ _)) by tauto|].
  rewrite (proj2 (Z.eqb_neq r1 0)) by tauto.
  destruct (memcmp_run m a (lit_dot_dot_slash L) 3) as (r2 & E2 & Hr2); [unfold NULL; lia|unfold NULL; lia|lia|].
  rewrite (bind_Ok _ _ _ _ _ E2). rewrite (same_prefix m [46; 46; 47] a (lit_dot_dot_slash L) s Hs H2 : (∀ k, 0 ≤ k < 3 → _) ↔ _) in Hr2. cbn [length] in Hr2.
  unfold ret. do 2 f_equal. destruct (bool_decide_reflect (take 3 s = [46; 46; 47])) as [E|Hn3].
  - by rewrite (proj2 (Z.eqb_eq _ _)) by tauto.
  - by rewrite (proj2 (Z.eqb_neq r2 0)) by tauto.
Qed.

Lemma strip_loop_run n : ∀ a s, cstr m a s → 0 < a → (length s ≤ n)%nat → (length s ≤ fuel)%nat →
  ∃ p, strip_loop L fuel n a m = Ok (p, m) ∧ cstr m p (strip (length s) s) ∧ p + Z.of_nat (length (strip (length s) s)) = a + Z.of_nat (length s) ∧
    a ≤ p ∧ (drop_prefix s = None → p = a).
Proof.
  induction n as [|n IH]; intros a s Hs Ha Hn Hf; cbn [strip_loop]; rewrite (bind_Ok _ _ _ _ _ (antisocial_run a s Hs Ha)).
  - destruct s; [|simpl in Hn; lia]. exists a. done.
  - case_bool_decide as Hb.
    + destruct Hb as [s' E]. pose proof (drop_prefix_Some s s' E) as (pre & Epre & Hpre).
      destruct (strchr_run m a s 47 fuel Hs Ha Hf ltac:(done)) as (p & Ep & Hp & Hq). rewrite (bind_Ok _ _ _ _ _ Ep).
      assert (p ≠ NULL) as HpN by (intros Hpn; apply Hp in Hpn as [_ Hnot]; apply Hnot; rewrite Epre; set_solver).
      destruct (Hq HpN) as (Hr & Hv & Hfirst).
      assert (p = a + Z.of_nat (length pre)) as ->.
      { set (k := Z.to_nat (p - a)) in *. assert (p = a + Z.of_nat k) as Hpk by lia. rewrite Epre in Hfirst.
        destruct (decide (length pre < k)%nat) as [Hlt|Hge].
        - exfalso. apply Hfirst. rewrite take_app_ge by lia. apply elem_of_app. right. by destruct (k - length pre)%nat eqn:?; [lia|left].
        - destruct (decide (k = length pre)) as [->|Hne]; [done|]. exfalso. apply Hpre.
          pose proof (cstr_head _ _ _ (cstr_drop m s a k ltac:(rewrite Epre, length_app; lia) Hs)) as Hk. rewrite <-Hpk, Hv, Epre, drop_app_le in Hk by lia.
          destruct (drop k pre) as [|c r] eqn:Ed; [apply (f_equal length) in Ed; rewrite length_drop in Ed; simpl in Ed; lia|].
          simpl in Hk. subst c. rewrite <-(take_drop k pre), Ed. apply elem_of_app. right. left. }
      rewrite Epre in Hs. pose proof (cstr_app _ _ _ _ Hs) as (_ & _ & Hs'). rewrite Epre in Hn, Hf. rewrite length_app in Hn, Hf. simpl in Hn, Hf.
      destruct (IH (a + Z.of_nat (length pre) + 1) s' Hs' ltac:(lia) ltac:(lia) ltac:(lia)) as (q & Eq & Hcq & Hend & Hge & _).
      assert (strip (length s) s = strip (length s') s') as Hst.
      { rewrite Epre, length_app. simpl length. rewrite Nat.add_succ_r. cbn [strip]. rewrite <-Epre, E. apply strip_more; lia. }
      exists q. rewrite Hst. split; [done|]. split; [done|]. split; [rewrite Epre, length_app; simpl; lia|]. split; [lia|].
      by rewrite E.
    + exists a. assert (drop_prefix s = None) as Hnone by (apply eq_None_not_Some; exact Hb). rewrite strip_id by done. done.
Qed.

(** The name and where it is: the rest of the given string, or the literal for the current
    directory. *)
Lemma strip_antisocial_run a s : cstr m a s → 0 < a → (length s ≤ fuel)%nat →
  ∃ p, strip_antisocial_prefixes L fuel a m = Ok (p, m) ∧ cstr m p (safe_name s) ∧
    (p = lit_dot L ∨ a ≤ p ∧ p + Z.of_nat (length (safe_name s)) = a + Z.of_nat (length s)) ∧ (safe_name s = s → drop_prefix s = None → p = a).
Proof.
  intros Hs Ha Hf. unfold strip_antisocial_prefixes. destruct (strip_loop_run fuel a s Hs Ha Hf Hf) as (p & E & Hp & Hend & Hge & Hid).
  rewrite (bind_Ok _ _ _ _ _ E). erewrite (bind_Ok (load _)) by done. rewrite (cstr_head _ _ _ Hp).
  destruct (ok_dot L m h HL) as (Hdot & _). destruct (ok_dot_dot L m h HL) as (Hdd & HN & _). unfold safe_name.
  set (t := strip (length s) s) in *. assert (length t ≤ length s)%nat as Hlt by apply strip_length.
  destruct (bool_decide_reflect (t = [])) as [Et|Hne]; cbn [orb].
  { rewrite Et. exists (lit_dot L). split; [done|]. split; [done|]. split; [by left|]. intros <- _. by vm_compute in Et. }
  assert ((match t with [] => 0 | c :: _ => c end =? 0) = false) as ->.
  { destruct t as [|c t']; [done|]. destruct Hp as (? & _). apply Z.eqb_neq. lia. }
  destruct (strcmp_run m p (lit_dot_dot L) t [46; 46] fuel Hp Hdd) as (r & Er & Hr); [unfold NULL; lia|unfold NULL; lia|lia|].
  rewrite (bind_Ok _ _ _ _ _ Er). destruct (bool_decide_reflect (t = [46; 46])) as [Et|Hne2].
  - rewrite (proj2 (Z.eqb_eq r 0)) by tauto. exists (lit_dot L). split; [done|]. split; [done|]. split; [by left|]. intros <- _.
    by vm_compute in Et.
  - rewrite (proj2 (Z.eqb_neq r 0)) by tauto. exists p. split; [done|]. split; [done|]. split; [by right|]. auto.
Qed.
End Names.

(** ** Composing a header *)

(** The octal number [v] with [w] digits is at [a]. *)
Definition octal_at (m : memory) (a w v : Z) : Prop :=
  ∃ ds, cstr m a ds ∧ octal ds ∧ num_from 8 0 ds = v ∧ Z.of_nat (length ds) = w.

Lemma octal_chars ds : octal ds → Forall (λ c, 0 < c < 256) ds.
Proof. intros H. eapply list.Forall_impl; [exact H|]. simpl. lia. Qed.

Lemma snprintf_octal L fuel m buffer w v lit wd : digits wd → match wd with [] => False | c :: _ => c ≠ 48 end → dec wd = w →
  1 ≤ w ≤ 22 → 0 ≤ v < 2 ^ 32 → v < 8 ^ w → cstr m lit ([37; 48] ++ wd ++ [111]) →
  lit + Z.of_nat (length wd) + 3 < buffer ∨ buffer + (w + 1) ≤ lit → (length wd + 3 ≤ fuel)%nat → bytes_ok m →
  ∃ m', snprintf L fuel buffer (w + 1) lit [v] m = Ok (w, m') ∧ same_outside m m' buffer (buffer + (w + 1)) ∧
    octal_at m' buffer w v ∧ bytes_ok m'.
Proof.
  intros Hwd Hw0 Hdec Hw Hv Hvw Hlit Hdis Hfuel Hm. destruct (octal_text v w Hv Hw Hvw) as (ds & Et & Hds & Hnum & Hlen).
  destruct (vsnprintf_run (stdio_null L) (stdio_kernel L) (stdio_conversion L) m buffer (w + 1) 0 [zero_octal wd] fuel lit [v] (ds ++ []))
    as (m' & E & Ho & Hs & Hb).
  - lia.
  - constructor; [|constructor]. split; [by repeat constructor|]. split; [split; [done|rewrite Hdec; lia]|]. split; [|split; [done|set_solver]].
    by destruct wd.
  - split; [cbn; rewrite app_nil_r; exact Hlit|]. cbn. rewrite app_nil_r, length_app. cbn. intros x Hx. lia.
  - rewrite <-Et.
    eapply (means_conv _ _ _ _ _ (mk_conversion 16 w (-1) INT)); [| | | |constructor].
    + unfold conv_of. cbn [s_flags s_width s_prec s_type count_val mbind option_bind]. rewrite Hdec, (proj2 (Z.ltb_ge w 0)) by lia. reflexivity.
    + simpl. lia.
    + simpl. lia.
    + apply (cm_unsigned _ _ _ _ _ 111 [v] v []); [set_solver|]. simpl. by rewrite uwrap_id.
  - rewrite app_nil_r. lia.
  - cbn. rewrite app_nil_r, length_app. cbn. lia.
  - rewrite app_nil_r. by apply octal_chars.
  - rewrite app_nil_r in E, Hs. exists m'. rewrite Hlen in E. split; [done|]. split; [done|]. split; [|auto].
    exists ds. split; [|done]. specialize (Hs ltac:(lia)). by rewrite take_ge in Hs by lia.
Qed.

(** The checksum: the sum of the bytes with the field itself as spaces. *)
Definition chksum_byte (m : memory) (h i : Z) : Z := if (CHKSUM <=? i) && (i <? CHKSUM + 8) then 32 else m (h + i).
Fixpoint byte_sum (m : memory) (h : Z) (n : nat) (i : Z) : Z :=
  match n with O => 0 | S n => chksum_byte m h i + byte_sum m h n (i + 1) end.
Definition chksum_of (m : memory) (h : Z) : Z := byte_sum m h (Z.to_nat USTAR_HEADER_SIZE) 0.

Lemma chksum_byte_range m h i : bytes_ok m → 0 ≤ chksum_byte m h i ≤ 255.
Proof. intros Hm. pose proof (Hm (h + i)) as Hb. unfold in_u in Hb. unfold chksum_byte. case_match; lia. Qed.

Lemma byte_sum_range m h n : bytes_ok m → ∀ i, 0 ≤ byte_sum m h n i ≤ 255 * Z.of_nat n.
Proof.
  intros Hm. induction n as [|n IH]; intros i; cbn [byte_sum]; [lia|]. specialize (IH (i + 1)). pose proof (chksum_byte_range m h i Hm). lia.
Qed.

Lemma chksum_loop_run m h n : bytes_ok m → ∀ i acc, 0 ≤ acc → acc + 255 * Z.of_nat n < 2 ^ 32 →
  chksum_loop n h i acc m = Ok (acc + byte_sum m h n i, m).
Proof.
  intros Hm. induction n as [|n IH]; intros i acc Ha Hb; cbn [chksum_loop byte_sum]; [unfold ret; do 2 f_equal; lia|].
  erewrite (bind_Ok (load _)) by done. fold (chksum_byte m h i). pose proof (chksum_byte_range m h i Hm).
  rewrite uwrap_id by (unfold in_u; lia). rewrite IH by lia. do 2 f_equal. lia.
Qed.

Lemma calculate_chksum_run m h : bytes_ok m → calculate_chksum h m = Ok (chksum_of m h, m) ∧ 0 ≤ chksum_of m h < 8 ^ 7.
Proof.
  intros Hm. unfold calculate_chksum, chksum_of. pose proof (byte_sum_range m h (Z.to_nat USTAR_HEADER_SIZE) Hm 0) as Hs.
  rewrite chksum_loop_run by (done || unfold USTAR_HEADER_SIZE; lia). unfold USTAR_HEADER_SIZE in *. split; [done|lia].
Qed.

Lemma chksum_ext m m' h : same_outside m m' (h + CHKSUM) (h + (CHKSUM + 8)) → chksum_of m' h = chksum_of m h.
Proof.
  intros Ho. unfold chksum_of. generalize (Z.to_nat USTAR_HEADER_SIZE), 0. induction n as [|n IH]; intros i; cbn [byte_sum]; [done|].
  rewrite IH. f_equal. unfold chksum_byte. destruct (Z.leb_spec CHKSUM i), (Z.ltb_spec i (CHKSUM + 8)); try done; cbn [andb]; apply Ho; lia.
Qed.

Lemma narrow m m' h lo hi : same_outside m m' lo hi → h ≤ lo → hi ≤ h + USTAR_HEADER_SIZE → same_outside m m' h (h + USTAR_HEADER_SIZE).
Proof. intros Ho Hlo Hhi x Hx. apply Ho. lia. Qed.

Lemma store_run m a v : bytes_ok m → in_u 8 v → ∃ m', store a v m = Ok (tt, m') ∧ same_outside m m' a (a + 1) ∧ bytes_ok m' ∧ m' a = v.
Proof.
  intros Hm Hv. eexists. split; [done|]. split; [|split; [by apply store_ok|rewrite Z.eqb_refl; by apply uwrap_id]].
  intros x Hx. by rewrite (proj2 (Z.eqb_neq x a)) by lia.
Qed.

(** Copying a string into a field. *)
Lemma field_copy m h dst src s size fuel : bytes_ok m → lit_at m h src s → 0 < h → h ≤ dst → dst + size ≤ h + USTAR_HEADER_SIZE →
  Z.of_nat (length s) < size → (length s ≤ fuel)%nat →
  ∃ m', strlcpy fuel dst src size m = Ok (Z.of_nat (length s), m') ∧ same_outside m m' dst (dst + Z.of_nat (length s) + 1) ∧
    bytes_ok m' ∧ cstr m' dst s.
Proof.
  intros Hm (Hs & Ha & Hd) Hh Hdst Hsz Hl Hf.
  destruct (strlcpy_run m dst src s size fuel Hm Hs) as (m' & E & Ho & Hb & Hc); [unfold NULL; lia|unfold NULL; lia|lia|lia|done|].
  exists m'. split; [done|]. split; [by rewrite Z.min_r, Z.add_assoc in Ho by lia|]. split; [done|].
  specialize (Hc ltac:(lia)). by rewrite take_ge in Hc by lia.
Qed.

(** What a header holds. *)
Record header_holds (m : memory) (h : Z) (name : list Z) (type size : Z) : Prop := {
  hh_name : cstr m (h + NAME) name;
  hh_end : m (h + NAME + 99) = 0;
  hh_size : octal_at m (h + SIZE) 11 size;
  hh_type : m (h + TYPEFLAG) = type;
  hh_magic : cstr m (h + MAGIC) [117; 115; 116; 97; 114];
  hh_version : m (h + VERSION) = 48 ∧ m (h + VERSION + 1) = 48;
  hh_prefix : m (h + PREFIX) = 0;
  hh_chksum : octal_at m (h + CHKSUM) 7 (chksum_of m h) }.

Lemma octal_at_ext m m' a w v : (∀ x, a ≤ x ≤ a + w → m' x = m x) → octal_at m a w v → octal_at m' a w v.
Proof. intros H (ds & Hc & Ho & Hn & Hl). exists ds. split; [|done]. eapply cstr_ext; [|exact Hc]. intros x Hx. apply H. lia. Qed.

Ltac offsets := unfold USTAR_HEADER_SIZE, NAME, MODE, UID, GID, SIZE, MTIME, CHKSUM, TYPEFLAG, MAGIC, VERSION, UNAME, GNAME, PREFIX in *.
(** Where the value of a byte comes from. *)
Ltac chase := repeat match goal with H : same_outside ?m ?m' _ _ |- context [?m' ?x] => rewrite (H x) by (simpl length; lia) end.

Section Header.
Context (L : literals) (fuel : nat) (h : Z) (Hh : 0 < h) (Hfuel : (99 ≤ fuel)%nat).

(** A literal is still there after a field was written. *)
Lemma lits_field m m' lo hi : lits_ok L m h → same_outside m m' lo hi → h ≤ lo → hi ≤ h + USTAR_HEADER_SIZE → lits_ok L m' h.
Proof. intros HL Ho ??. eapply lits_keep; [by eapply narrow|done]. Qed.

Lemma write_07o m ofs v : bytes_ok m → lits_ok L m h → 0 ≤ ofs → ofs + 8 ≤ USTAR_HEADER_SIZE → 0 ≤ v < 8 ^ 7 →
  ∃ m', snprintf L fuel (h + ofs) 8 (lit_07o L) [v] m = Ok (7, m') ∧ same_outside m m' (h + ofs) (h + ofs + 8) ∧ octal_at m' (h + ofs) 7 v ∧
    bytes_ok m' ∧ lits_ok L m' h.
Proof.
  intros Hm HL Hofs Hend Hv. destruct (ok_07o L m h HL) as (Hlit & _ & Hd). simpl in Hd. unfold USTAR_HEADER_SIZE in *.
  destruct (snprintf_octal L fuel m (h + ofs) 7 v (lit_07o L) [55]) as (m' & E & Ho & Hoct & Hb); try done; try (simpl; lia).
  { by repeat constructor. }
  exists m'. split; [done|]. split; [done|]. split; [done|]. split; [done|]. eapply lits_field; [done|exact Ho|lia|unfold USTAR_HEADER_SIZE; lia].
Qed.

Lemma write_011o m ofs v : bytes_ok m → lits_ok L m h → 0 ≤ ofs → ofs + 12 ≤ USTAR_HEADER_SIZE → 0 ≤ v < 2 ^ 32 →
  ∃ m', snprintf L fuel (h + ofs) 12 (lit_011o L) [v] m = Ok (11, m') ∧ same_outside m m' (h + ofs) (h + ofs + 12) ∧ octal_at m' (h + ofs) 11 v ∧
    bytes_ok m' ∧ lits_ok L m' h.
Proof.
  intros Hm HL Hofs Hend Hv. destruct (ok_011o L m h HL) as (Hlit & _ & Hd). simpl in Hd. unfold USTAR_HEADER_SIZE in *.
  destruct (snprintf_octal L fuel m (h + ofs) 11 v (lit_011o L) [49; 49]) as (m' & E & Ho & Hoct & Hb); try done; try (simpl; lia).
  { by repeat constructor. }
  exists m'. split; [done|]. split; [done|]. split; [done|]. split; [done|]. eapply lits_field; [done|exact Ho|lia|unfold USTAR_HEADER_SIZE; lia].
Qed.

Lemma write_lit m ofs src s size : bytes_ok m → lits_ok L m h → lit_at m h src s → 0 ≤ ofs → ofs + size ≤ USTAR_HEADER_SIZE →
  Z.of_nat (length s) < size → (length s ≤ fuel)%nat →
  ∃ m', strlcpy fuel (h + ofs) src size m = Ok (Z.of_nat (length s), m') ∧ same_outside m m' (h + ofs) (h + ofs + Z.of_nat (length s) + 1) ∧
    cstr m' (h + ofs) s ∧ bytes_ok m' ∧ lits_ok L m' h.
Proof.
  intros Hm HL Hlit Hofs Hend Hl Hf. destruct (field_copy m h (h + ofs) src s size fuel) as (m' & E & Ho & Hb & Hc); try done; try lia.
  exists m'. split; [done|]. split; [done|]. split; [done|]. split; [done|]. eapply lits_field; [done|exact Ho|lia|lia].
Qed.

Lemma write_byte m ofs v : bytes_ok m → lits_ok L m h → 0 ≤ ofs < USTAR_HEADER_SIZE → in_u 8 v →
  ∃ m', store (h + ofs) v m = Ok (tt, m') ∧ same_outside m m' (h + ofs) (h + ofs + 1) ∧ m' (h + ofs) = v ∧ bytes_ok m' ∧ lits_ok L m' h.
Proof.
  intros Hm HL Hofs Hv. destruct (store_run m (h + ofs) v Hm Hv) as (m' & E & Ho & Hb & Hc).
  exists m'. split; [done|]. split; [done|]. split; [done|]. split; [done|]. eapply lits_field; [done|exact Ho|lia|lia].
Qed.

Lemma make_header_run m a p name type size : bytes_ok m → lits_ok L m h → lit_at m h p name →
  (type = USTAR_REGULAR ∨ type = USTAR_DIRECTORY) → 0 ≤ size < 2 ^ 31 → (length name ≤ 99)%nat →
  strip_antisocial_prefixes L fuel a m = Ok (p, m) →
  ∃ m', ustar_make_header L fuel a type size h m = Ok (true, m') ∧ header_holds m' h name type size ∧
    same_outside m m' h (h + USTAR_HEADER_SIZE) ∧ bytes_ok m' ∧ lits_ok L m' h.
Proof.
  intros Hm HL Hname Hty Hsz Hlen Hstrip. unfold ustar_make_header.
  rewrite (bind_Ok (ASSERT _) _ m tt m) by (by destruct Hty as [->| ->]). rewrite (bind_Ok _ _ _ _ _ Hstrip).
  destruct Hname as (Hs & Hp & Hd). rewrite (bind_Ok _ _ _ _ _ (strlen_run m p name fuel Hs ltac:(unfold NULL; lia) ltac:(lia))).
  rewrite (proj2 (Z.ltb_ge 99 _)) by lia.
  destruct (memset_run m h 0 USTAR_HEADER_SIZE Hm) as (m0 & E0 & Hm0 & Hz); [unfold NULL; lia|done|]. rewrite (bind_Ok _ _ _ _ _ E0).
  assert (same_outside m m0 h (h + USTAR_HEADER_SIZE)) as Ho by (intros x Hx; rewrite Hz; by rewrite bool_decide_eq_false_2).
  assert (lits_ok L m0 h) as HL0 by (by eapply lits_keep). assert (lit_at m0 h p name) as Hn0 by (by eapply lit_keep).
  assert (∀ k, 0 ≤ k < USTAR_HEADER_SIZE → m0 (h + k) = 0) as Hz0 by (intros k Hk; rewrite Hz; by rewrite bool_decide_eq_true_2 by lia). clear Hz.
  destruct (write_lit m0 NAME p name 100) as (m1 & E1 & O1 & F1 & M1 & L1); [done|done|done|done|done|lia|lia|]. rewrite (bind_Ok _ _ _ _ _ E1).
  destruct (write_07o m1 MODE (if type =? USTAR_REGULAR then 420 else 493)) as (m2 & E2 & O2 & _ & M2 & L2); [done|done|done|done|case_match; lia|]. rewrite (bind_Ok _ _ _ _ _ E2).
  destruct (write_lit m2 UID _ _ 8 M2 L2 (ok_zeros L m2 h L2)) as (m3 & E3 & O3 & _ & M3 & L3); [done|done|done|simpl; lia|]. rewrite (bind_Ok _ _ _ _ _ E3).
  destruct (write_lit m3 GID _ _ 8 M3 L3 (ok_zeros L m3 h L3)) as (m4 & E4 & O4 & _ & M4 & L4); [done|done|done|simpl; lia|]. rewrite (bind_Ok _ _ _ _ _ E4).
  destruct (write_011o m4 SIZE size) as (m5 & E5 & O5 & F5 & M5 & L5); [done|done|done|done|lia|]. rewrite (bind_Ok _ _ _ _ _ E5).
  destruct (write_011o m5 MTIME 1136102400) as (m6 & E6 & O6 & _ & M6 & L6); [done|done|done|done|lia|]. rewrite (bind_Ok _ _ _ _ _ E6).
  destruct (write_byte m6 TYPEFLAG type) as (m7 & E7 & O7 & F7 & M7 & L7); [done|done|done|by destruct Hty as [->| ->]|]. rewrite (bind_Ok _ _ _ _ _ E7).
  destruct (write_lit m7 MAGIC _ _ 6 M7 L7 (ok_ustar L m7 h L7)) as (m8 & E8 & O8 & F8 & M8 & L8); [done|done|done|simpl; lia|]. rewrite (bind_Ok _ _ _ _ _ E8).
  destruct (write_byte m8 (VERSION + 1) 48) as (m9 & E9 & O9 & F9 & M9 & L9); [done|done|done|done|]. rewrite Z.add_assoc in *. rewrite (bind_Ok _ _ _ _ _ E9).
  destruct (write_byte m9 VERSION 48) as (m10 & E10 & O10 & F10 & M10 & L10); [done|done|done|done|]. rewrite (bind_Ok _ _ _ _ _ E10).
  destruct (write_lit m10 GNAME _ _ 32 M10 L10 (ok_root L m10 h L10)) as (m11 & E11 & O11 & _ & M11 & L11); [done|done|done|simpl; lia|]. rewrite (bind_Ok _ _ _ _ _ E11).
  destruct (write_lit m11 UNAME _ _ 32 M11 L11 (ok_root L m11 h L11)) as (m12 & E12 & O12 & _ & M12 & L12); [done|done|done|simpl; lia|]. rewrite (bind_Ok _ _ _ _ _ E12).
  destruct (calculate_chksum_run m12 h M12) as [Ec Hc]. rewrite (bind_Ok _ _ _ _ _ Ec).
  destruct (write_07o m12 CHKSUM (chksum_of m12 h)) as (m13 & E13 & O13 & F13 & M13 & L13); [done|done|done|done|done|]. rewrite (bind_Ok _ _ _ _ _ E13).
  rewrite <-(chksum_ext m12 m13 h) in F13 by (by rewrite Z.add_assoc).
  clear E0 E1 E2 E3 E4 E5 E6 E7 E8 E9 E10 E11 E12 E13 Ec. exists m13. split; [done|]. simpl length in *. offsets.
  split; [split; offsets|split; [|done]].
  - eapply cstr_ext; [|exact F1]. intros x Hx. by chase.
  - chase. destruct (decide (length name = 99%nat)) as [E|]; [|rewrite (O1 (h + 0 + 99)) by lia; rewrite <-Z.add_assoc; apply Hz0; lia].
    pose proof (cstr_end _ _ _ F1) as Hend. by rewrite E in Hend.
  - eapply octal_at_ext; [|exact F5]. intros x Hx. by chase.
  - by chase.
  - eapply cstr_ext; [|exact F8]. intros x Hx. simpl in Hx. by chase.
  - split; by chase.
  - chase. apply Hz0. lia.
  - done.
  - intros x Hx. by chase.
Qed.

(** ** Parsing a header *)

Lemma cstr_same m s a b k : cstr m a s → cstr m b s → 0 ≤ k ≤ Z.of_nat (length s) → m (a + k) = m (b + k).
Proof.
  intros Ha Hb Hk. rewrite <-(Z2Nat.id k) by lia.
  rewrite (cstr_head _ _ _ (cstr_drop m s a (Z.to_nat k) ltac:(lia) Ha)). by rewrite (cstr_head _ _ _ (cstr_drop m s b (Z.to_nat k) ltac:(lia) Hb)).
Qed.

Lemma is_all_zeros_false m k n : ∀ b, 0 ≤ k < Z.of_nat n → m (b + k) ≠ 0 → is_all_zeros_loop n b m = Ok (false, m).
Proof.
  revert k. induction n as [|n IH]; intros k b Hk Hne; [lia|]. cbn [is_all_zeros_loop]. erewrite (bind_Ok (load _)) by done.
  destruct (Z.eqb_spec (m b) 0) as [E|]; [|done]. cbn [negb]. apply (IH (k - 1)).
  - destruct (decide (k = 0)) as [->|]; [by rewrite Z.add_0_r in Hne|lia].
  - by replace (b + 1 + (k - 1)) with (b + k) by lia.
Qed.

Lemma parse_octal_at m s w v : octal_at m s w v → 1 ≤ w → v < 2 ^ 32 → parse_octal_field s (w + 1) m = Ok (Some v, m).
Proof.
  intros (ds & Hc & Ho & <- & Hl) Hw Hv. apply parse_octal_run; [done|done|intros ->; simpl in Hl; lia|lia|done].
Qed.

Lemma parse_header_run m name type size : bytes_ok m → lits_ok L m h → header_holds m h name type size →
  (type = USTAR_REGULAR ∨ type = USTAR_DIRECTORY) → 0 ≤ size < 2 ^ 31 → (length name ≤ 99)%nat → safe_name name = name → drop_prefix name = None →
  ustar_parse_header L fuel h m = Ok (Parsed (h + NAME) type (if type =? USTAR_REGULAR then size else 0), m).
Proof.
  intros Hm HL [Hname Hend Hsize Htype Hmagic [Hv0 Hv1] Hprefix Hsum] Hty Hsz Hlen Hsafe Hdrop. unfold ustar_parse_header.
  rewrite (bind_Ok (is_all_zeros _ _) _ m false m) by (apply (is_all_zeros_false m MAGIC); [done|by destruct Hmagic as (? & -> & _)]).
  destruct (ok_ustar L m h HL) as (Hlit & HN & _).
  destruct (memcmp_run m (h + MAGIC) (lit_ustar L) 6) as (r & Er & Hr); [unfold NULL, MAGIC; lia|unfold NULL; lia|lia|].
  rewrite (bind_Ok _ _ _ _ _ Er). assert (r = 0) as -> by (apply Hr; intros k Hk; eapply cstr_same; [done|done|simpl; lia]). cbn [Z.eqb negb].
  do 2 erewrite (bind_Ok (load _)) by done. rewrite Hv0, Hv1. cbn [Z.eqb negb orb Pos.eqb].
  destruct (calculate_chksum_run m h Hm) as [Ec Hc].
  rewrite (bind_Ok _ _ _ _ _ (parse_octal_at m (h + CHKSUM) 7 _ Hsum ltac:(lia) ltac:(lia))). cbv iota beta.
  rewrite (bind_Ok _ _ _ _ _ Ec), Z.eqb_refl. cbn [negb]. do 2 erewrite (bind_Ok (load _)) by done. rewrite Hend, Hprefix. cbn [Z.eqb negb orb].
  erewrite (bind_Ok (load _)) by done. rewrite Htype.
  assert (negb (type =? USTAR_REGULAR) && negb (type =? USTAR_DIRECTORY) = false) as -> by (by destruct Hty as [->| ->]).
  rewrite (bind_Ok (if type =? USTAR_REGULAR then _ else _) _ m (Some (if type =? USTAR_REGULAR then size else 0)) m).
  - cbv iota beta.
    rewrite (proj2 (Z.ltb_ge (2 ^ 31 - 1) _)) by (case_match; lia).
    destruct (strip_antisocial_run L fuel m h HL (h + NAME) name Hname) as (p & Ep & _ & _ & Hid); [unfold NAME; lia|lia|].
    rewrite (bind_Ok _ _ _ _ _ Ep). rewrite Hid by done. done.
  - destruct (type =? USTAR_REGULAR); [|done]. apply (parse_octal_at m (h + SIZE) 11); [done|lia|lia].
Qed.
End Header.

(** The header of a file with any name whose safe form is short enough. *)
Lemma make_header_safe L fuel m h a s type size : bytes_ok m → lits_ok L m h → lit_at m h a s → 0 < h →
  (99 ≤ fuel)%nat → (length s ≤ fuel)%nat → type = USTAR_REGULAR ∨ type = USTAR_DIRECTORY → 0 ≤ size < 2 ^ 31 → (length (safe_name s) ≤ 99)%nat →
  ∃ m', ustar_make_header L fuel a type size h m = Ok (true, m') ∧ header_holds m' h (safe_name s) type size ∧
    same_outside m m' h (h + USTAR_HEADER_SIZE) ∧ bytes_ok m' ∧ lits_ok L m' h.
Proof.
  intros Hm HL (Hs & Ha & Hd) Hh Hf Hfs Hty Hsz Hl. destruct (strip_antisocial_run L fuel m h HL a s Hs Ha Hfs) as (p & Ep & Hp & Hpos & _).
  apply (make_header_run L fuel h Hh Hf m a p (safe_name s) type size); try done. split; [done|].
  destruct Hpos as [->|[Hge Hend]]; [|lia]. destruct (ok_dot L m h HL) as (Hc & ? & ?). by rewrite <-(cstr_inj _ _ _ _ Hp Hc) in *.
Qed.

(** Archive headers survive a round trip: for any file name whose safe form has at most 99
    characters, [ustar_make_header] succeeds and [ustar_parse_header] of the header, whatever it
    contained before, returns the safe name, the type and, for a regular file, the size. The safe
    name is not empty, is not the parent directory and starts neither with a slash nor with one
    or two dots and a slash; a longer name is refused with nothing written. *)
Theorem ustar_roundtrip L fuel m h a s type size : bytes_ok m → lits_ok L m h → lit_at m h a s → 0 < h →
  (99 ≤ fuel)%nat → (length s ≤ fuel)%nat → type = USTAR_REGULAR ∨ type = USTAR_DIRECTORY → 0 ≤ size < 2 ^ 31 →
  (drop_prefix (safe_name s) = None ∧ safe_name s ≠ [] ∧ safe_name s ≠ [46; 46]) ∧
  if decide (length (safe_name s) ≤ 99)%nat then
    ∃ m', ustar_make_header L fuel a type size h m = Ok (true, m') ∧ same_outside m m' h (h + USTAR_HEADER_SIZE) ∧
      ustar_parse_header L fuel h m' = Ok (Parsed (h + NAME) type (if type =? USTAR_REGULAR then size else 0), m') ∧
      cstr m' (h + NAME) (safe_name s)
  else ustar_make_header L fuel a type size h m = Ok (false, m).
Proof.
  intros Hm HL Hlit Hh Hf Hfs Hty Hsz. destruct (safe_name_safe s) as (H1 & H2 & H3). split; [done|]. destruct (decide _) as [Hl|Hl].
  - destruct (make_header_safe L fuel m h a s type size) as (m' & E & Hh' & Ho & Hm' & HL'); try done.
    exists m'. split; [done|]. split; [done|]. split; [|by destruct Hh'].
    apply (parse_header_run L fuel h Hh Hf m' (safe_name s) type size); try done. by apply safe_name_id.
  - destruct Hlit as (Hs & Ha & _). destruct (strip_antisocial_run L fuel m h HL a s Hs Ha Hfs) as (p & Ep & Hp & Hpos & _).
    unfold ustar_make_header. rewrite (bind_Ok (ASSERT _) _ m tt m) by (by destruct Hty as [->| ->]). rewrite (bind_Ok _ _ _ _ _ Ep).
    assert (length (safe_name s) ≤ fuel)%nat as Hlf by (destruct Hpos as [->|[? ?]]; [destruct (ok_dot L m h HL) as (Hc & _); rewrite (cstr_inj _ _ _ _ Hp Hc); simpl; lia|lia]).
    assert (0 < p) as Hpp by (destruct Hpos as [->|[? ?]]; [destruct (ok_dot L m h HL) as (_ & ? & _); done|lia]).
    rewrite (bind_Ok _ _ _ _ _ (strlen_run m p (safe_name s) fuel Hp ltac:(unfold NULL; lia) Hlf)).
    by rewrite (proj2 (Z.ltb_lt 99 _)) by lia.
Qed.

(** The literals in memory and the name "../a" at 2100, for a header at 1000. *)
Definition sample_literals : literals := Build_literals 2000 2010 2020 2030 2040 2050 2060 2070 2080 0 0 0.
Definition sample_strings : list (Z * list Z) :=
  [(2000, [46; 47]); (2010, [46; 46; 47]); (2020, [46; 46]); (2030, [46]); (2040, [48; 48; 48; 48; 48; 48; 48]); (2050, [117; 115; 116; 97; 114]);
   (2060, [114; 111; 111; 116]); (2070, [37; 48; 55; 111]); (2080, [37; 48; 49; 49; 111]); (2100, [46; 46; 47; 97])].

Lemma strings_at_ok l : Forall (λ p, Forall (in_u 8) p.2) l → bytes_ok (strings_at l).
Proof.
  induction 1 as [|[a s] l Hs Hl IH]; intros x; [done|]. simpl. case_match; [|apply IH].
  destruct (s !! Z.to_nat (x - a)) as [b|] eqn:E; [|done]. simpl in Hs. eapply (proj1 (list.Forall_forall _ _)) in Hs; [exact Hs|by eapply list_elem_of_lookup_2].
Qed.

Lemma sample_lits : lits_ok sample_literals (strings_at sample_strings) 1000.
Proof. split; (split; [by vm_compute|]); simpl; unfold USTAR_HEADER_SIZE; lia. Qed.

Lemma ustar_roundtrip_witness : ∃ m',
  ustar_make_header sample_literals 99 2100 USTAR_REGULAR 1234 1000 (strings_at sample_strings) = Ok (true, m') ∧
  same_outside (strings_at sample_strings) m' 1000 (1000 + USTAR_HEADER_SIZE) ∧
  ustar_parse_header sample_literals 99 1000 m' = Ok (Parsed (1000 + NAME) USTAR_REGULAR 1234, m') ∧ cstr m' (1000 + NAME) [97].
Proof.
  destruct (ustar_roundtrip sample_literals 99 (strings_at sample_strings) 1000 2100 [46; 46; 47; 97] USTAR_REGULAR 1234) as [_ H].
  - apply strings_at_ok. by repeat constructor.
  - exact sample_lits.
  - split; [by vm_compute|]. unfold USTAR_HEADER_SIZE. simpl. lia.
  - lia.
  - lia.
  - simpl. lia.
  - by left.
  - lia.
  - exact H.
Defined.
