(* ===== verification/Pagedir.v ===== *)
(** * Page directories (userprog/pagedir.c, threads/pte.h, [paging_init] of
    threads/init.c)

    The x86 page directories and page tables in the pages of the page allocator.
    [cr3] is the page directory base register, which the [asm] statements access, and
    [tlb] the translations the processor has cached since it was last loaded. *)

From S2P Require Import Prelude Bitmap FsState Palloc.

(** ** Entries (threads/pte.h) *)

Definition PTSHIFT : Z := PGBITS.
Definition PTBITS : Z := 10.
Definition PTMASK : Z := Z.shiftl (2 ^ PTBITS - 1) PTSHIFT.
Definition PDSHIFT : Z := PTSHIFT + PTBITS.

Definition pt_no (va : Z) : Z := Z.shiftr (Z.land va PTMASK) PTSHIFT.
Definition pd_no (va : Z) : Z := Z.shiftr va PDSHIFT.

Definition PTE_ADDR : Z := 0xfffff000.
Definition PTE_P : Z := 0x1.
Definition PTE_W : Z := 0x2.
Definition PTE_U : Z := 0x4.
Definition PTE_A : Z := 0x20.
Definition PTE_D : Z := 0x40.

Definition pde_create (pt : Z) : outcome Z :=
  let? _ := assert_ok (pg_ofs pt =? 0) in
  let? p := vtop pt in
  Ok (Z.lor (Z.lor (Z.lor p PTE_U) PTE_P) PTE_W).

Definition pde_get_pt (pde : Z) : outcome Z :=
  let? _ := assert_ok (negb (Z.land pde PTE_P =? 0)) in
  ptov (Z.land pde PTE_ADDR).

Definition pte_create_kernel (page : Z) (writable : bool) : outcome Z :=
  let? _ := assert_ok (pg_ofs page =? 0) in
  let? p := vtop page in
  Ok (Z.lor (Z.lor p PTE_P) (if writable then PTE_W else 0)).

Definition pte_create_user (page : Z) (writable : bool) : outcome Z :=
  let? e := pte_create_kernel page writable in Ok (Z.lor e PTE_U).

Definition pte_get_page (pte : Z) : outcome Z := ptov (Z.land pte PTE_ADDR).

(** ** The machine *)

Record vm := mk_vm { phys : pools; init_page_dir : Z; cr3 : Z; tlb : gmap Z Z }.
Abbreviation V := (M vm).

Definition set_phys (p : pools) (s : vm) : vm := mk_vm p (init_page_dir s) (cr3 s) (tlb s).

(** 32-bit accesses and copies in memory. *)
Definition store_word (m : memory) (a v : Z) : memory :=
  λ x, if (a <=? x) && (x <? a + 4) then Z.shiftr v (8 * (x - a)) `mod` 2 ^ 8 else m x.
Definition memcpy (m : memory) (dst src n : Z) : memory :=
  λ x, if (dst <=? x) && (x <? dst + n) then m (src + (x - dst)) else m x.

Definition load32 (a : Z) : V Z := gets (λ s, word_at (ram (phys s)) a).
Definition store32 (a v : Z) : V unit :=
  modify (λ s, set_phys (set_ram (store_word (ram (phys s)) a v) (phys s)) s).

Definition get_page (flags : Z) : V Z := λ s,
  let? '(p, q) := palloc_get_page flags (phys s) in Ok (p, set_phys q s).
Definition free_page (p : Z) : V unit := λ s,
  let? q := palloc_free_page p (phys s) in Ok (tt, set_phys q s).

(** ** Page directories (userprog/pagedir.c) *)

(** Loading the register drops the cached translations. *)
Definition pagedir_activate (pd : Z) : V unit :=
  let! i := gets init_page_dir in
  let pd := if pd =? NULL then i else pd in
  let! p := lift (vtop pd) in
  modify (λ s, mk_vm (phys s) (init_page_dir s) p ∅).

Definition active_pd : V Z :=
  let! p := gets cr3 in lift (ptov p).

Definition invalidate_pagedir (pd : Z) : V unit :=
  let! a := active_pd in
  if a =? pd then pagedir_activate pd else ret tt.

Definition pagedir_create : V Z :=
  let! pd := get_page 0 in
  let! i := gets init_page_dir in
  let! _ := (if negb (pd =? NULL) then
               modify (λ s, set_phys (set_ram (memcpy (ram (phys s)) pd i PGSIZE) (phys s)) s)
             else ret tt) in
  ret pd.

(** The loops over the entries of a page table and of a page directory. *)
Fixpoint destroy_table (cnt : nat) (pte : Z) : V unit :=
  match cnt with
  | O => ret tt
  | S cnt =>
      let! e := load32 pte in
      let! _ := (if negb (Z.land e PTE_P =? 0) then
                   let! p := lift (pte_get_page e) in free_page p
                 else ret tt) in
      destroy_table cnt (pte + 4)
  end.

Fixpoint destroy_loop (cnt : nat) (pde : Z) : V unit :=
  match cnt with
  | O => ret tt
  | S cnt =>
      let! e := load32 pde in
      let! _ := (if negb (Z.land e PTE_P =? 0) then
                   let! pt := lift (pde_get_pt e) in
                   let! _ := destroy_table (Z.to_nat (PGSIZE / 4)) pt in
                   free_page pt
                 else ret tt) in
      destroy_loop cnt (pde + 4)
  end.

Definition pagedir_destroy (pd : Z) : V unit :=
  if pd =? NULL then ret tt
  else
    let! i := gets init_page_dir in
    let! _ := ASSERT (negb (pd =? i)) in
    let! _ := destroy_loop (Z.to_nat (pd_no PHYS_BASE)) pd in
    free_page pd.

Definition lookup_page (pd vaddr : Z) (create : bool) : V Z :=
  let! _ := ASSERT (negb (pd =? NULL)) in
  let! _ := ASSERT (negb create || is_user_vaddr vaddr) in
  let pde := pd + 4 * pd_no vaddr in
  let! e := load32 pde in
  let! ok :=
    (if e =? 0 then
       if create then
         let! pt := get_page PAL_ZERO in
         if pt =? NULL then ret false
         else
           let! e := lift (pde_create pt) in
           let! _ := store32 pde e in
           ret true
       else ret false
     else ret true) in
  if negb ok then ret NULL
  else
    let! e := load32 pde in
    let! pt := lift (pde_get_pt e) in
    ret (pt + 4 * pt_no vaddr).

Section Pagedir.
(** The amount of physical memory, in pages (threads/loader.h). *)
Context (init_ram_pages : Z).

Definition pagedir_set_page (pd upage kpage : Z) (writable : bool) : V bool :=
  let! _ := ASSERT (pg_ofs upage =? 0) in
  let! _ := ASSERT (pg_ofs kpage =? 0) in
  let! _ := ASSERT (is_user_vaddr upage) in
  let! p := lift (vtop kpage) in
  let! _ := ASSERT (Z.shiftr p PTSHIFT <? init_ram_pages) in
  let! i := gets init_page_dir in
  let! _ := ASSERT (negb (pd =? i)) in
  let! pte := lookup_page pd upage true in
  if negb (pte =? NULL) then
    let! e := load32 pte in
    let! _ := ASSERT (Z.land e PTE_P =? 0) in
    let! e := lift (pte_create_user kpage writable) in
    let! _ := store32 pte e in
    ret true
  else ret false.
End Pagedir.

Definition pagedir_get_page (pd uaddr : Z) : V Z :=
  let! _ := ASSERT (is_user_vaddr uaddr) in
  let! pte := lookup_page pd uaddr false in
  let! present := (if negb (pte =? NULL) then
                     let! e := load32 pte in ret (negb (Z.land e PTE_P =? 0))
                   else ret false) in
  if present then
    let! e := load32 pte in
    let! p := lift (pte_get_page e) in
    ret (p + pg_ofs uaddr)
  else ret NULL.

Definition pagedir_clear_page (pd upage : Z) : V unit :=
  let! _ := ASSERT (pg_ofs upage =? 0) in
  let! _ := ASSERT (is_user_vaddr upage) in
  let! pte := lookup_page pd upage false in
  if negb (pte =? NULL) then
    let! e := load32 pte in
    if negb (Z.land e PTE_P =? 0) then
      let! _ := store32 pte (Z.land e (2 ^ 32 - 1 - PTE_P)) in
      invalidate_pagedir pd
    else ret tt
  else ret tt.

Definition pagedir_is_dirty (pd vpage : Z) : V bool :=
  let! pte := lookup_page pd vpage false in
  if negb (pte =? NULL) then
    let! e := load32 pte in ret (negb (Z.land e PTE_D =? 0))
  else ret false.

Definition pagedir_set_dirty (pd vpage : Z) (dirty : bool) : V unit :=
  let! pte := lookup_page pd vpage false in
  if negb (pte =? NULL) then
    let! e := load32 pte in
    if dirty then store32 pte (Z.lor e PTE_D)
    else
      let! _ := store32 pte (Z.land e (2 ^ 32 - 1 - PTE_D)) in
      invalidate_pagedir pd
  else ret tt.

Definition pagedir_is_accessed (pd vpage : Z) : V bool :=
  let! pte := lookup_page pd vpage false in
  if negb (pte =? NULL) then
    let! e := load32 pte in ret (negb (Z.land e PTE_A =? 0))
  else ret false.

Definition pagedir_set_accessed (pd vpage : Z) (accessed : bool) : V unit :=
  let! pte := lookup_page pd vpage false in
  if negb (pte =? NULL) then
    let! e := load32 pte in
    if accessed then store32 pte (Z.lor e PTE_A)
    else
      let! _ := store32 pte (Z.land e (2 ^ 32 - 1 - PTE_A)) in
      invalidate_pagedir pd
  else ret tt.

(** ** The kernel's own mapping ([paging_init]) *)

Section Paging.
(** The start and the end of the kernel's code, set by the linker. *)
Context (_start _end_kernel_text : Z).

(** The loop over the [cnt] pages from [page] on; [pt] is the table of the page before. *)
Fixpoint paging_loop (cnt : nat) (page pd pt : Z) : V unit :=
  match cnt with
  | O => ret tt
  | S cnt =>
      let paddr := u32 (page * PGSIZE) in
      let! vaddr := lift (ptov paddr) in
      let pde := pd + 4 * pd_no vaddr in
      let in_kernel_text := (_start <=? vaddr) && (vaddr <? _end_kernel_text) in
      let! e := load32 pde in
      let! pt := (if e =? 0 then
                    let! pt := get_page (Z.lor PAL_ASSERT PAL_ZERO) in
                    let! e := lift (pde_create pt) in
                    let! _ := store32 pde e in
                    ret pt
                  else ret pt) in
      let! e := lift (pte_create_kernel vaddr (negb in_kernel_text)) in
      let! _ := store32 (pt + 4 * pt_no vaddr) e in
      paging_loop cnt (page + 1) pd pt
  end.

Definition paging_init (init_ram_pages : Z) : V unit :=
  let! pd := get_page (Z.lor PAL_ASSERT PAL_ZERO) in
  let! _ := modify (λ s, mk_vm (phys s) pd (cr3 s) (tlb s)) in
  let! _ := paging_loop (Z.to_nat init_ram_pages) 0 pd NULL in
  let! p := lift (vtop pd) in
  modify (λ s, mk_vm (phys s) (init_page_dir s) p ∅).
End Paging.
