(* ===== verification/PagedirSpec.v ===== *)
(** * Page directories implement address spaces

    The address space a page directory describes, the effect of each operation of
    userprog/pagedir.c on it, and that the translations the processor may have cached
    stay in line with it. *)

From S2P Require Import Prelude Bitmap FsState Palloc Pagedir.

(** ** Words in memory *)

Lemma store_word_ok m a v : bytes_ok m → bytes_ok (store_word m a v).
Proof.
  intros Hm x. unfold store_word. destruct (_ && _); [|apply Hm]. by apply Z.mod_pos_bound.
Qed.

Lemma store_word_other m a v x : ¬ a ≤ x < a + 4 → store_word m a v x = m x.
Proof.
  intros Hx. unfold store_word. destruct ((a <=? x) && (x <? a + 4)) eqn:E; [|done].
  apply andb_true_iff in E as [?%Z.leb_le ?%Z.ltb_lt]. lia.
Qed.

Lemma word_at_ext m m' a : (∀ x, a ≤ x < a + 4 → m x = m' x) → word_at m a = word_at m' a.
Proof. intros H. unfold word_at. by rewrite !H by lia. Qed.

Lemma word_at_other m a v b : b + 4 ≤ a ∨ a + 4 ≤ b → word_at (store_word m a v) b = word_at m b.
Proof. intros H. apply word_at_ext. intros x Hx. apply store_word_other. lia. Qed.

Lemma word_at_same m a v : in_u 32 v → word_at (store_word m a v) a = v.
Proof.
  intros Hv. assert (∀ k, 0 ≤ k < 4 → store_word m a v (a + k) = (v / 2 ^ (8 * k)) `mod` 2 ^ 8) as H.
  { intros k Hk. unfold store_word. rewrite (proj2 (Z.leb_le _ _)), (proj2 (Z.ltb_lt _ _)) by lia. cbn [andb].
    replace (a + k - a) with k by lia. by rewrite Z.shiftr_div_pow2 by lia. }
  unfold word_at. rewrite <-(Z.add_0_r a) at 2. rewrite !H by lia. unfold in_u in Hv. eval_pow2.
  change (8 * 0) with 0. change (8 * 1) with 8. change (8 * 2) with 16. change (8 * 3) with 24.
  change (2 ^ 0) with 1. change (2 ^ 8) with 256. change (2 ^ 16) with 65536. change (2 ^ 24) with 16777216.
  Z.to_euclidean_division_equations. lia.
Qed.

Lemma word_at_u32 m a : bytes_ok m → in_u 32 (word_at m a).
Proof. apply word_at_range. Qed.

(** ** Indices *)

Lemma pd_no_div va : pd_no va = va / 4096 / 1024.
Proof. unfold pd_no, PDSHIFT. rewrite Z.shiftr_div_pow2 by done. by rewrite Z.div_div by done. Qed.

Lemma pt_no_mod va : pt_no va = (va / 4096) `mod` 1024.
Proof.
  unfold pt_no, PTMASK. rewrite Z.shiftr_land. change (Z.shiftr (Z.shiftl (2 ^ PTBITS - 1) PTSHIFT) PTSHIFT) with (Z.ones 10).
  rewrite Z.land_ones by done. by rewrite Z.shiftr_div_pow2.
Qed.

(** The number of user pages. *)
Definition USER_PAGES : Z := 786432.

Lemma user_index va : is_user_vaddr va = true → 0 ≤ va → 0 ≤ va / 4096 < USER_PAGES.
Proof. unfold is_user_vaddr, PHYS_BASE, USER_PAGES. intros H%Z.ltb_lt H0. Z.to_euclidean_division_equations. lia. Qed.

Lemma index_bounds vp : 0 ≤ vp < USER_PAGES → 0 ≤ vp / 1024 < 768 ∧ 0 ≤ vp `mod` 1024 < 1024.
Proof. unfold USER_PAGES. intros H. Z.to_euclidean_division_equations. lia. Qed.

Lemma index_inj vp vp' : vp / 1024 = vp' / 1024 → vp `mod` 1024 = vp' `mod` 1024 → vp = vp'.
Proof. intros. Z.to_euclidean_division_equations. lia. Qed.

(** ** Flags *)

Lemma flag_test w k : 0 ≤ k → negb (Z.land w (2 ^ k) =? 0) = Z.testbit w k.
Proof.
  intros Hk. assert (Z.land w (2 ^ k) = if Z.testbit w k then 2 ^ k else 0) as ->.
  { apply Z.bits_inj'. intros n Hn. rewrite Z.land_spec. destruct (decide (n = k)) as [->|Hne].
    - rewrite Z.pow2_bits_true by done. destruct (Z.testbit w k); [by rewrite Z.pow2_bits_true|by rewrite Z.bits_0].
    - rewrite Z.pow2_bits_false by lia. rewrite andb_false_r.
      destruct (Z.testbit w k); [by rewrite Z.pow2_bits_false by lia|by rewrite Z.bits_0]. }
  destruct (Z.testbit w k); [|done]. rewrite (proj2 (Z.eqb_neq _ _)); [done|]. pose proof (Z.pow_pos_nonneg 2 k). lia.
Qed.

Lemma flag_set w k j : 0 ≤ k → 0 ≤ j → Z.testbit (Z.lor w (2 ^ k)) j = (j =? k) || Z.testbit w j.
Proof.
  intros Hk Hj. rewrite Z.lor_spec. destruct (Z.eqb_spec j k) as [->|Hne].
  - rewrite Z.pow2_bits_true by done. by rewrite orb_true_r.
  - rewrite Z.pow2_bits_false by lia. by rewrite orb_false_r.
Qed.

Lemma flag_clear w k j : in_u 32 w → 0 ≤ k < 32 → 0 ≤ j →
  Z.testbit (Z.land w (2 ^ 32 - 1 - 2 ^ k)) j = negb (j =? k) && Z.testbit w j.
Proof.
  intros Hw Hk Hj. assert (bit_mask k = 2 ^ k) as Hb.
  { unfold bit_mask, ELEM_BITS. rewrite Z.mod_small, Z.shiftl_1_l by done. apply uwrap_id.
    split; [apply Z.pow_nonneg; lia|]. apply Z.pow_lt_mono_r; lia. }
  rewrite <-Hb, Z.land_spec, bit_mask_compl_testbit, Z.mod_small by done.
  destruct (Z.ltb_spec j 32); cbn [andb]; [apply andb_comm|]. rewrite (in_u32_testbit w j) by done. by rewrite !andb_false_r.
Qed.

Lemma addr_ext w w' : (∀ j, 12 ≤ j → Z.testbit w j = Z.testbit w' j) → Z.land w PTE_ADDR = Z.land w' PTE_ADDR.
Proof.
  intros H. apply Z.bits_inj'. intros j Hj. rewrite !Z.land_spec.
  destruct (Z.lt_ge_cases j 12) as [Hlt|Hge]; [|by rewrite H].
  change PTE_ADDR with (Z.shiftl (Z.ones 20) 12). rewrite Z.shiftl_spec, (Z.testbit_neg_r _ (j - 12)) by lia.
  by rewrite !andb_false_r.
Qed.

Lemma addr_aligned p : in_u 32 p → p `mod` 4096 = 0 → Z.land p PTE_ADDR = p.
Proof. intros Hp Ha. change (Z.land p PTE_ADDR) with (pg_round_down p). rewrite pg_round_down_eq by done. lia. Qed.

Lemma addr_bounds w : in_u 32 w → 0 ≤ Z.land w PTE_ADDR ≤ w.
Proof.
  intros Hw. change (Z.land w PTE_ADDR) with (pg_round_down w). rewrite pg_round_down_eq by done.
  pose proof (Z.mod_pos_bound w 4096 ltac:(lia)). pose proof (Z.mod_le w 4096). unfold in_u in Hw. lia.
Qed.

Lemma aligned_bits p j : p `mod` 4096 = 0 → 0 ≤ j < 12 → Z.testbit p j = false.
Proof.
  intros Ha Hj. rewrite (Z.div_mod p 4096), Ha, Z.add_0_r by done. change 4096 with (2 ^ 12).
  rewrite Z.mul_comm. by rewrite Z.mul_pow2_bits_low by lia.
Qed.

Lemma lor_u32 a b : in_u 32 a → in_u 32 b → in_u 32 (Z.lor a b).
Proof.
  intros Ha Hb. apply in_u32_bits; [apply Z.lor_nonneg; split; [apply Ha|apply Hb]|]. intros l Hl.
  by rewrite Z.lor_spec, !in_u32_testbit.
Qed.

Lemma land_u32 a b : in_u 32 a → in_u 32 (Z.land a b).
Proof.
  intros Ha. apply in_u32_bits; [apply Z.land_nonneg; left; apply Ha|]. intros l Hl.
  by rewrite Z.land_spec, (in_u32_testbit a).
Qed.

(** ** Entries *)

(** A page that is mapped: where it is in the kernel's view, and its bits. *)
Record mapping := mk_mapping { mp_kpage : Z; mp_writable : bool; mp_dirty : bool; mp_accessed : bool }.

Definition decode (w : Z) : option mapping :=
  if Z.testbit w 0
  then Some (mk_mapping (Z.land w PTE_ADDR + PHYS_BASE) (Z.testbit w 1) (Z.testbit w 6) (Z.testbit w 5))
  else None.

(** A page-aligned address in the kernel's view of memory. *)
Definition kernel_page (p : Z) : Prop := p `mod` 4096 = 0 ∧ PHYS_BASE ≤ p < 2 ^ 32.

Lemma kernel_page_phys p : kernel_page p →
  vtop p = Ok (p - PHYS_BASE) ∧ in_u 32 (p - PHYS_BASE) ∧ (p - PHYS_BASE) `mod` 4096 = 0.
Proof.
  intros [Ha Hp]. split_and!.
  - unfold vtop, is_kernel_vaddr. by rewrite (proj2 (Z.leb_le _ _)) by lia.
  - unfold in_u, PHYS_BASE in *. lia.
  - change PHYS_BASE with (786432 * 4096). by rewrite Zminus_mod, Ha, Z.mod_mul.
Qed.

(** Flags below bit 12 do not touch the address. *)
Lemma entry_addr p f : in_u 32 p → p `mod` 4096 = 0 → 0 ≤ f < 4096 → Z.land (Z.lor p f) PTE_ADDR = p.
Proof.
  intros Hp Ha Hf. rewrite <-(addr_aligned p) at 2 by done. apply addr_ext. intros j Hj. rewrite Z.lor_spec.
  rewrite (proj1 (Z.bounded_iff_bits_nonneg 12 f ltac:(lia) ltac:(lia)) ltac:(lia) j Hj). apply orb_false_r.
Qed.

Lemma pde_create_run pt : kernel_page pt →
  ∃ w, pde_create pt = Ok w ∧ in_u 32 w ∧ Z.testbit w 0 = true ∧ Z.land w PTE_ADDR + PHYS_BASE = pt.
Proof.
  intros Hk. destruct (kernel_page_phys pt Hk) as (Ev & Hu & Ha). unfold pde_create. rewrite pg_ofs_mod, (proj1 Hk), Ev.
  cbn [Z.eqb assert_ok obind]. rewrite <-!Z.lor_assoc. change (Z.lor PTE_U (Z.lor PTE_P PTE_W)) with 7.
  eexists. split; [done|]. split_and!; [apply lor_u32; [done|unfold in_u; lia]|by rewrite Z.lor_spec, orb_true_r|].
  rewrite entry_addr by (done || lia). lia.
Qed.

Lemma pte_create_kernel_run page (writable : bool) : kernel_page page →
  ∃ w, pte_create_kernel page writable = Ok w ∧ in_u 32 w ∧ w ≠ 0 ∧
    decode w = Some (mk_mapping page writable false false) ∧ Z.testbit w 2 = false.
Proof.
  intros Hk. destruct (kernel_page_phys page Hk) as (Ev & Hu & Ha). unfold pte_create_kernel.
  rewrite pg_ofs_mod, (proj1 Hk), Ev. cbn [Z.eqb assert_ok obind]. rewrite <-!Z.lor_assoc.
  assert (∀ j, 0 ≤ j < 12 → Z.testbit (page - PHYS_BASE) j = false) as Hlow by (intros; by apply aligned_bits).
  set (f := Z.lor PTE_P _). assert (f = if writable then 3 else 1) as -> by (by destruct writable).
  eexists. split; [done|].
  assert (∀ f, 0 ≤ f < 4096 → f ≠ 0 → Z.testbit f 0 = true → in_u 32 (Z.lor (page - PHYS_BASE) f) ∧ Z.lor (page - PHYS_BASE) f ≠ 0 ∧
    decode (Z.lor (page - PHYS_BASE) f) = Some (mk_mapping page (Z.testbit f 1) (Z.testbit f 6) (Z.testbit f 5)) ∧
    Z.testbit (Z.lor (page - PHYS_BASE) f) 2 = Z.testbit f 2) as H.
  { intros f Hf Hf0 Hf1. split_and!; [apply lor_u32; [done|unfold in_u; lia]| | |].
    - intros [_ ?]%Z.lor_eq_0_iff. done.
    - unfold decode. rewrite !Z.lor_spec, !Hlow, Hf1 by lia. cbn [orb]. rewrite entry_addr by done. do 2 f_equal. lia.
    - by rewrite Z.lor_spec, Hlow by lia. }
  destruct writable; [apply (H 3)|apply (H 1)]; done || lia.
Qed.

(** The status bits of an entry. *)
Lemma decode_bits w w' : (∀ j, 12 ≤ j → Z.testbit w' j = Z.testbit w j) →
  Z.testbit w' 0 = Z.testbit w 0 → Z.testbit w' 1 = Z.testbit w 1 →
  decode w' = (λ p, mk_mapping (mp_kpage p) (mp_writable p) (Z.testbit w' 6) (Z.testbit w' 5)) <$> decode w.
Proof.
  intros Ha H0 H1. unfold decode. rewrite H0, H1, (addr_ext w' w Ha). by destruct (Z.testbit w 0).
Qed.

Lemma decode_same w w' : (∀ j, 0 ≤ j → j ≠ 2 → Z.testbit w' j = Z.testbit w j) → decode w' = decode w.
Proof. intros H. unfold decode. rewrite !H by done. by rewrite (addr_ext w' w) by (intros; apply H; lia). Qed.

Lemma pte_create_user_run page (writable : bool) : kernel_page page →
  ∃ w, pte_create_user page writable = Ok w ∧ in_u 32 w ∧ decode w = Some (mk_mapping page writable false false).
Proof.
  intros Hk. destruct (pte_create_kernel_run page writable Hk) as (w & E & Hu & _ & Hd & _). unfold pte_create_user.
  rewrite E. cbn [obind]. exists (Z.lor w PTE_U). split; [done|]. split; [apply lor_u32; [done|unfold in_u, PTE_U; lia]|].
  rewrite <-Hd. apply decode_same. intros j Hj Hne. change PTE_U with (2 ^ 2). rewrite flag_set by done.
  by rewrite (proj2 (Z.eqb_neq j 2)).
Qed.

Lemma pde_get_pt_run w pt : Z.testbit w 0 = true → kernel_page pt → Z.land w PTE_ADDR + PHYS_BASE = pt →
  pde_get_pt w = Ok pt.
Proof.
  intros Hp [_ Hk] Ha. unfold pde_get_pt. change PTE_P with (2 ^ 0). rewrite flag_test, Hp by done. cbn [assert_ok obind].
  unfold ptov. rewrite (proj2 (Z.ltb_lt _ _)) by (unfold PHYS_BASE in *; lia). cbn [assert_ok obind].
  rewrite uwrap_id by (unfold in_u, PHYS_BASE in *; lia). by f_equal.
Qed.

Lemma pte_get_page_run w p : decode w = Some p → kernel_page (mp_kpage p) → pte_get_page w = Ok (mp_kpage p).
Proof.
  unfold decode. destruct (Z.testbit w 0) eqn:Hp; [|done]. intros [= <-] [_ Hk]. simpl in *. unfold pte_get_page, ptov.
  rewrite (proj2 (Z.ltb_lt _ _)) by (unfold PHYS_BASE in *; lia). cbn [assert_ok obind].
  by rewrite uwrap_id by (unfold in_u, PHYS_BASE in *; lia).
Qed.

(** ** The invariant of a page directory *)

(** [tabs] maps the indices of the directory's entries to the page tables. *)
Record pd_ok (s : vm) (pd : Z) (tabs : gmap Z Z) : Prop := {
  po_pools : pools_ok (phys s);
  po_bytes : bytes_ok (ram (phys s));
  po_base : PHYS_BASE ≤ base (kernel_pool (phys s));
  po_pd : allocated false (phys s) pd;
  po_table i pt : tabs !! i = Some pt →
    0 ≤ i < 768 ∧ allocated false (phys s) pt ∧ pt ≠ pd ∧
    Z.testbit (word_at (ram (phys s)) (pd + 4 * i)) 0 = true ∧
    Z.land (word_at (ram (phys s)) (pd + 4 * i)) PTE_ADDR + PHYS_BASE = pt;
  po_none i : 0 ≤ i < 768 → tabs !! i = None → word_at (ram (phys s)) (pd + 4 * i) = 0;
  po_inj i j pt : tabs !! i = Some pt → tabs !! j = Some pt → i = j }.

(** The entry of a user page. *)
Definition pte_at (m : memory) (tabs : gmap Z Z) (vp : Z) : Z :=
  match tabs !! (vp / 1024) with
  | Some pt => word_at m (pt + 4 * (vp `mod` 1024))
  | None => 0
  end.

Lemma allocated_page s b : pools_ok s → PHYS_BASE ≤ base (kernel_pool s) → ∀ u, allocated u s b →
  kernel_page b ∧ b + 4096 ≤ 2 ^ 32.
Proof.
  intros Hs Hb u (i & Hi & -> & _). destruct (page_props _ i (get_pool_ok u s Hs) Hi) as (Hr & Ho & _).
  rewrite pg_ofs_mod in Ho. pose proof (get_pool_ok u s Hs) as [Hwf Hal Hst Hend].
  pose proof (pools_apart _ Hs). pose proof (pool_wf _ (kernel_ok _ Hs)) as [Hk _ _]. unfold page, kernel_page in *.
  split; [split|]; [done|destruct u; simpl in *; lia|lia].
Qed.

Lemma allocated_once s b u u' : pools_ok s → allocated u s b → allocated u' s b → u = u'.
Proof.
  intros Hs (i & Hi & -> & _) (j & Hj & E & _). pose proof (pools_apart _ Hs).
  destruct u, u'; simpl in *; try done; unfold page in *; lia.
Qed.

Lemma allocated_ram u m p b : allocated u (set_ram m p) b ↔ allocated u p b.
Proof. by destruct u. Qed.

(** Two pages that share an address are the same. *)
Lemma page_overlap a b x : a `mod` 4096 = 0 → b `mod` 4096 = 0 → a ≤ x < a + 4096 → b ≤ x < b + 4096 → a = b.
Proof. intros. Z.to_euclidean_division_equations. lia. Qed.

Lemma lookup_page_hit s pd tabs va create pt : pd_ok s pd tabs → 0 ≤ va → is_user_vaddr va = true →
  tabs !! (va / 4096 / 1024) = Some pt → lookup_page pd va create s = Ok (pt + 4 * ((va / 4096) `mod` 1024), s).
Proof.
  intros Hp H0 Hu Et. set (i := va / 4096 / 1024) in *.
  destruct (allocated_page _ pd (po_pools _ _ _ Hp) (po_base _ _ _ Hp) _ (po_pd _ _ _ Hp)) as [[_ Hk] _].
  unfold lookup_page. rewrite (proj2 (Z.eqb_neq pd NULL)) by (unfold NULL, PHYS_BASE in *; lia).
  rewrite (bind_Ok (ASSERT _) _ s tt s) by done. rewrite (bind_Ok (ASSERT _) _ s tt s) by (by rewrite Hu, orb_true_r).
  rewrite pd_no_div, pt_no_mod. fold i. erewrite (bind_Ok (load32 _)) by done.
  destruct (po_table _ _ _ Hp i pt Et) as (_ & Hal & _ & Hb & Hpt).
  destruct (allocated_page _ pt (po_pools _ _ _ Hp) (po_base _ _ _ Hp) _ Hal) as [Hkp _].
  rewrite (proj2 (Z.eqb_neq _ 0)) by (intros E; rewrite E in Hb; done).
  rewrite (bind_Ok (ret true) _ s true s) by done. cbn [negb]. erewrite (bind_Ok (load32 _)) by done.
  rewrite (bind_Ok (lift _) _ s pt s) by (unfold lift; by rewrite (pde_get_pt_run _ pt Hb Hkp Hpt)). done.
Qed.

Lemma lookup_page_run s pd tabs va : pd_ok s pd tabs → 0 ≤ va → is_user_vaddr va = true →
  lookup_page pd va false s =
    Ok (match tabs !! (va / 4096 / 1024) with Some pt => pt + 4 * ((va / 4096) `mod` 1024) | None => NULL end, s).
Proof.
  intros Hp H0 Hu. destruct (tabs !! (va / 4096 / 1024)) as [pt|] eqn:Et; [by apply (lookup_page_hit s pd tabs)|].
  destruct (index_bounds _ (user_index va Hu H0)) as [Hi Hj].
  destruct (allocated_page _ pd (po_pools _ _ _ Hp) (po_base _ _ _ Hp) _ (po_pd _ _ _ Hp)) as [[_ Hk] _].
  unfold lookup_page. rewrite (proj2 (Z.eqb_neq pd NULL)) by (unfold NULL, PHYS_BASE in *; lia).
  rewrite (bind_Ok (ASSERT _) _ s tt s) by done. rewrite (bind_Ok (ASSERT _) _ s tt s) by done.
  rewrite pd_no_div. erewrite (bind_Ok (load32 _)) by done. by rewrite (po_none _ _ _ Hp _ Hi Et).
Qed.

(** ** Changes of memory *)

(** The state [s] with other contents of memory. *)
Definition with_ram (m : memory) (s : vm) : vm := set_phys (set_ram m (phys s)) s.

(** Pages in use stay in use, and all but the directory's own keep their contents. *)
Definition keeps (s s' : vm) (pd : Z) (tabs : gmap Z Z) : Prop :=
  ∀ u b, allocated u (phys s) b → allocated u (phys s') b ∧
    (b ≠ pd → (∀ i pt, tabs !! i = Some pt → pt ≠ b) → ∀ x, b ≤ x < b + 4096 → ram (phys s') x = ram (phys s) x).

(** Memory below the pools, such as the kernel's own code and data, is not touched. *)
Definition low_same (s s' : vm) : Prop := ∀ x, x < base (kernel_pool (phys s)) → ram (phys s') x = ram (phys s) x.

Lemma allocated_low s b u : pools_ok s → allocated u s b → base (kernel_pool s) ≤ b.
Proof.
  intros Hs (i & Hi & -> & _). pose proof (pools_apart _ Hs). pose proof (wf_cnt _ (pool_wf _ (kernel_ok _ Hs))).
  destruct u; unfold page in *; simpl in *; lia.
Qed.

Lemma store_low s b u k v : pools_ok (phys s) → allocated u (phys s) b → 0 ≤ k →
  low_same s (with_ram (store_word (ram (phys s)) (b + k) v) s).
Proof.
  intros Hp Hb Hk x Hx. apply store_word_other. pose proof (allocated_low _ _ _ Hp Hb). lia.
Qed.

Lemma keeps_refl s pd tabs : keeps s s pd tabs.
Proof. done. Qed.

(** The entry of one user page is replaced. *)
Lemma store_entry s pd tabs vp pt v : pd_ok s pd tabs → 0 ≤ vp < USER_PAGES → tabs !! (vp / 1024) = Some pt → in_u 32 v →
  let s' := with_ram (store_word (ram (phys s)) (pt + 4 * (vp `mod` 1024)) v) s in
  pd_ok s' pd tabs ∧ keeps s s' pd tabs ∧
  ∀ vp', 0 ≤ vp' < USER_PAGES →
    pte_at (ram (phys s')) tabs vp' = if bool_decide (vp' = vp) then v else pte_at (ram (phys s)) tabs vp'.
Proof.
  intros Hp Hvp Ht Hv s'. destruct (index_bounds vp Hvp) as [Hi Hk]. pose proof Hp as [Hpo Hby Hba Hpd Htab Hno Hinj].
  destruct (Htab _ _ Ht) as (_ & Hal & Hne & _).
  destruct (allocated_page _ pt Hpo Hba _ Hal) as [[Hpa Hpk] _]. destruct (allocated_page _ pd Hpo Hba _ Hpd) as [[Hda Hdk] _].
  assert (∀ b x, b `mod` 4096 = 0 → b ≠ pt → b ≤ x < b + 4096 → ram (phys s') x = ram (phys s) x) as Hother.
  { intros b x Hb Hbp Hx. apply store_word_other. intros Hin. apply Hbp. apply (page_overlap b pt x); try done. lia. }
  assert (∀ i, 0 ≤ i < 1024 → word_at (ram (phys s')) (pd + 4 * i) = word_at (ram (phys s)) (pd + 4 * i)) as Hdir.
  { intros i Hi'. apply word_at_ext. intros x Hx. apply (Hother pd); [done|by intros ->|lia]. }
  split_and!.
  - split; simpl; try done; [by apply set_ram_ok|by apply store_word_ok| |].
    + intros i pt' Hpt. pose proof (Htab i pt' Hpt) as (Hi' & ? & ? & ?). specialize (Hdir i ltac:(lia)). simpl in Hdir. by rewrite Hdir.
    + intros i Hi' Hn. specialize (Hdir i ltac:(lia)). simpl in Hdir. rewrite Hdir. by apply Hno.
  - intros u b Hb. split; [done|]. intros Hbd Hbt x Hx. apply (Hother b); [|by intros ->; apply (Hbt _ _ Ht)|done].
    by destruct (allocated_page _ b Hpo Hba _ Hb) as [[? _] _].
  - intros vp' Hvp'. destruct (index_bounds vp' Hvp') as [Hi' Hk']. unfold pte_at. case_bool_decide as Heq.
    + subst. rewrite Ht. by apply word_at_same.
    + destruct (tabs !! (vp' / 1024)) as [pt'|] eqn:Ht'; [|done]. destruct (decide (pt' = pt)) as [->|Hpp].
      * assert (vp' / 1024 = vp / 1024) as Ei by (by eapply Hinj). apply word_at_other.
        assert (vp' `mod` 1024 ≠ vp `mod` 1024) by (intros ?; apply Heq; by apply index_inj). lia.
      * apply word_at_ext. intros x Hx. apply (Hother pt'); [|done|lia].
        destruct (Htab _ _ Ht') as (_ & Hal' & _). by destruct (allocated_page _ pt' Hpo Hba _ Hal') as [[? _] _].
Qed.

(** ** New page tables *)

(** A fresh, cleared page. *)
Record fresh_page (p : pools) (a : Z) (p' : pools) : Prop := {
  fr_pools : pools_ok p';
  fr_base : base (kernel_pool p') = base (kernel_pool p);
  fr_cnt : bit_cnt (used_map (kernel_pool p')) = bit_cnt (used_map (kernel_pool p));
  fr_new : ¬ allocated false p a;
  fr_alloc u b : allocated u p' b ↔ allocated u p b ∨ u = false ∧ b = a;
  fr_zero x : a ≤ x < a + 4096 → ram p' x = 0;
  fr_ram x : ¬ a ≤ x < a + 4096 → ram p' x = ram p x;
  fr_same : same_pools p p' }.

Lemma get_zero_page p flags : pools_ok p → has_flag flags PAL_USER = false → has_flag flags PAL_ZERO = true →
  (∃ a p', palloc_get_page flags p = Ok (a, p') ∧ a ≠ NULL ∧ fresh_page p a p') ∨
  (∀ i, 0 ≤ i < bit_cnt (used_map (kernel_pool p)) → allocated false p (page (kernel_pool p) i)) ∧
  palloc_get_page flags p = if has_flag flags PAL_ASSERT then Panic else Ok (NULL, p).
Proof.
  intros Hp Hu Hz. pose proof (palloc_get_multiple_ok flags 1 p Hp ltac:(lia)) as H. cbv zeta in H. rewrite Hu, Hz in H.
  destruct H as [(a & p' & E & Hok & Hs & Hn & _ & Hf & Ha & Hr)|[Hall E]]; [left|right].
  2:{ split; [|done]. intros i Hi. destruct (Hall i ltac:(lia) ltac:(simpl; lia)) as (k & Hk & Hal).
      by replace (i + k) with i in Hal by lia. }
  exists a, p'. split; [done|]. split; [done|]. destruct (Hf 0 ltac:(lia)) as [Hnew _].
  replace (a + 4096 * 0) with a in Hnew by lia. split; try done.
  - apply (Hs false).
  - apply (Hs false).
  - intros u b. rewrite Ha. assert ((∃ k, 0 ≤ k < 1 ∧ b = a + 4096 * k) ↔ b = a) as ->; [|done].
    split; [intros (k & ? & ->); lia|intros ->; exists 0; lia].
  - intros x Hx. by rewrite Hr, bool_decide_eq_true_2 by lia.
  - intros x Hx. by rewrite Hr, bool_decide_eq_false_2 by lia.
Qed.

(** The directory gets a table it did not have. *)
Lemma add_table s pd tabs i pt q e : pd_ok s pd tabs → fresh_page (phys s) pt q → 0 ≤ i < 768 → tabs !! i = None →
  in_u 32 e → Z.testbit e 0 = true → Z.land e PTE_ADDR + PHYS_BASE = pt →
  let s' := set_phys (set_ram (store_word (ram q) (pd + 4 * i) e) q) s in
  pd_ok s' pd (<[i := pt]> tabs) ∧ keeps s s' pd tabs ∧
  ∀ vp, 0 ≤ vp < USER_PAGES → pte_at (ram (phys s')) (<[i := pt]> tabs) vp = pte_at (ram (phys s)) tabs vp.
Proof.
  intros Hp Hf Hi Hn Heu He Hept s'. pose proof Hp as [Hpo Hby Hba Hpd Htab Hno Hinj]. pose proof Hf as [Hq Hqb _ Hnew Hal Hz Hr].
  assert (allocated false q pt) as Hptq by (apply Hal; by right).
  assert (PHYS_BASE ≤ base (kernel_pool q)) as Hbq by (by rewrite Hqb).
  destruct (allocated_page _ pt Hq Hbq _ Hptq) as [[Hpa Hpk] _]. destruct (allocated_page _ pd Hpo Hba _ Hpd) as [[Hda Hdk] _].
  assert (pt ≠ pd) as Hne by (intros ->; done).
  assert (∀ b x, b `mod` 4096 = 0 → b ≠ pd → b ≠ pt → b ≤ x < b + 4096 → ram (phys s') x = ram (phys s) x) as Hother.
  { intros b x Hb Hbd Hbp Hx. simpl. rewrite store_word_other.
    - apply Hr. intros Hin. apply Hbp. by apply (page_overlap b pt x).
    - intros Hin. apply Hbd. apply (page_overlap b pd x); try done. lia. }
  assert (∀ j, 0 ≤ j < 1024 → j ≠ i → word_at (ram (phys s')) (pd + 4 * j) = word_at (ram (phys s)) (pd + 4 * j)) as Hdir.
  { intros j Hj Hji. simpl. rewrite word_at_other by lia. apply word_at_ext. intros x Hx. apply Hr. intros Hin.
    apply Hne. apply (page_overlap pt pd x); try done. lia. }
  assert (∀ j pt', tabs !! j = Some pt' → pt' ≠ pt) as Hfresh by (intros j pt' Hj ->; by destruct (Htab j pt Hj) as (_ & ? & _)).
  assert (∀ u b, allocated u (phys s') b ↔ allocated u (phys s) b ∨ u = false ∧ b = pt) as Hal'
    by (intros u b; simpl; by rewrite allocated_ram).
  split_and!.
  - split; try done; [by apply set_ram_ok| | | | |].
    + intros x. apply (store_word_ok (ram q)). intros y. destruct (decide (pt ≤ y < pt + 4096)); [rewrite Hz by done; lia|rewrite Hr by done; apply Hby].
    + apply Hal'. by left.
    + intros j pt'. rewrite lookup_insert_Some. intros [[<- <-]|[Hji Hj]].
      * simpl. rewrite word_at_same by done. split; [done|]. by rewrite allocated_ram.
      * destruct (Htab j pt' Hj) as (? & Halj & ? & ? & ?). rewrite (Hdir j ltac:(lia) ltac:(done)).
        split; [done|]. split; [apply Hal'; by left|]. done.
    + intros j Hj [Hji Hjn]%lookup_insert_None. rewrite (Hdir j ltac:(lia) ltac:(done)). by apply Hno.
    + intros j k pt'. rewrite !lookup_insert_Some. intros [[<- <-]|[_ Hj]] [[<- Hk]|[_ Hk]]; try done.
      * by destruct (Hfresh _ _ Hk).
      * subst pt'. by destruct (Hfresh _ _ Hj).
      * by eapply Hinj.
  - intros u b Hb. split; [apply Hal'; by left|]. intros Hbd Hbt x Hx.
    destruct (allocated_page _ b Hpo Hba _ Hb) as [[Hb4 _] _]. apply (Hother b); try done. intros ->.
    assert (u = false) as -> by (apply (allocated_once q pt); [done|apply Hal; by left|done]). done.
  - intros vp Hvp. destruct (index_bounds vp Hvp) as [Hi' Hk']. unfold pte_at. destruct (decide (vp / 1024 = i)) as [->|Hji].
    + rewrite lookup_insert_eq, Hn. simpl. rewrite word_at_other.
      * unfold word_at. by rewrite !Hz by lia.
      * assert (¬ (pt ≤ pd + 4 * i < pt + 4096)) as Hout by (intros ?; apply Hne; apply (page_overlap pt pd (pd + 4 * i)); try done; lia).
        Z.to_euclidean_division_equations. lia.
    + rewrite lookup_insert_ne by done. destruct (tabs !! (vp / 1024)) as [pt'|] eqn:Ht'; [|done].
      destruct (Htab _ _ Ht') as (_ & Halt & Hd' & _). apply word_at_ext. intros x Hx.
      apply (Hother pt'); [|done|by eapply Hfresh|lia]. by destruct (allocated_page _ pt' Hpo Hba _ Halt) as [[? _] _].
Qed.

(** What [lookup_page] with [create] may do to the tables. *)
Record grown (s s' : vm) (pd : Z) (tabs tabs' : gmap Z Z) : Prop := {
  gw_ok : pd_ok s' pd tabs';
  gw_keeps : keeps s s' pd tabs;
  gw_pte vp : 0 ≤ vp < USER_PAGES → pte_at (ram (phys s')) tabs' vp = pte_at (ram (phys s)) tabs vp;
  gw_tabs i pt : tabs' !! i = Some pt → tabs !! i = Some pt ∨ ¬ allocated false (phys s) pt;
  gw_more : tabs ⊆ tabs';
  gw_regs : s' = set_phys (phys s') s;
  gw_base : base (kernel_pool (phys s')) = base (kernel_pool (phys s));
  gw_same : same_pools (phys s) (phys s');
  gw_low : low_same s s' }.

Lemma set_phys_id s : set_phys (phys s) s = s.
Proof. by destruct s. Qed.

Lemma lookup_page_create_run s pd tabs va : pd_ok s pd tabs → 0 ≤ va → is_user_vaddr va = true →
  lookup_page pd va true s = Ok (NULL, s) ∧ palloc_get_page PAL_ZERO (phys s) = Ok (NULL, phys s) ∨
  ∃ pt s' tabs', lookup_page pd va true s = Ok (pt + 4 * ((va / 4096) `mod` 1024), s') ∧
    tabs' !! (va / 4096 / 1024) = Some pt ∧ grown s s' pd tabs tabs'.
Proof.
  intros Hp H0 Hu. destruct (index_bounds _ (user_index va Hu H0)) as [Hi Hj].
  destruct (tabs !! (va / 4096 / 1024)) as [pt|] eqn:Et.
  { right. exists pt, s, tabs. split; [|split; [done|split; try done; [by left|by rewrite set_phys_id]]].
    by apply (lookup_page_hit s pd tabs). }
  set (i := va / 4096 / 1024) in *.
  destruct (allocated_page _ pd (po_pools _ _ _ Hp) (po_base _ _ _ Hp) _ (po_pd _ _ _ Hp)) as [[_ Hk] _].
  unfold lookup_page. rewrite (proj2 (Z.eqb_neq pd NULL)) by (unfold NULL, PHYS_BASE in *; lia).
  rewrite (bind_Ok (ASSERT _) _ s tt s) by done. rewrite (bind_Ok (ASSERT _) _ s tt s) by (by rewrite Hu).
  rewrite pd_no_div, pt_no_mod. fold i. erewrite (bind_Ok (load32 _)) by done. rewrite (po_none _ _ _ Hp i Hi Et). cbn [Z.eqb].
  destruct (get_zero_page (phys s) PAL_ZERO (po_pools _ _ _ Hp)) as [(pt & q & E & HpN & Hf)|[_ E]]; [done|done|right|left].
  2:{ change (has_flag PAL_ZERO PAL_ASSERT) with false in E. cbv iota in E.
      split; [|done]. rewrite (bind_Ok _ _ s false s); [done|]. rewrite (bind_Ok (get_page _) _ s NULL s); [done|].
      unfold get_page. rewrite E. cbn [obind]. by rewrite set_phys_id. }
  assert (kernel_page pt) as Hkp.
  { pose proof Hf as [Hq Hqb _ _ Hal _ _]. apply (allocated_page q pt Hq) with false; [rewrite Hqb; apply Hp|]. apply Hal. by right. }
  destruct (pde_create_run pt Hkp) as (e & Ee & Heu & He & Hept).
  destruct (add_table s pd tabs i pt q e Hp Hf Hi Et Heu He Hept) as (Hp' & Hkeep & Hpte).
  set (s' := set_phys (set_ram (store_word (ram q) (pd + 4 * i) e) q) s) in *.
  exists pt, s', (<[i := pt]> tabs). split; [|split; [apply lookup_insert_eq|split; try done]].
  - rewrite (bind_Ok _ _ s true s').
    2:{ rewrite (bind_Ok (get_page _) _ s pt (set_phys q s)) by (unfold get_page; by rewrite E).
        rewrite (proj2 (Z.eqb_neq pt NULL)) by done.
        rewrite (bind_Ok (lift _) _ (set_phys q s) e (set_phys q s)) by (unfold lift; by rewrite Ee). done. }
    cbn [negb]. erewrite (bind_Ok (load32 _)) by done.
    rewrite (bind_Ok (lift _) _ s' pt s'); [done|]. unfold lift. simpl. rewrite word_at_same by done.
    by rewrite (pde_get_pt_run e pt He Hkp Hept).
  - intros j pt'. rewrite lookup_insert_Some. intros [[<- <-]|[_ Hj']]; [right; apply Hf|by left].
  - by apply insert_subseteq.
  - apply Hf.
  - intros u. destruct (fr_same _ _ _ Hf u). by destruct u.
  - intros x Hx. simpl. pose proof (allocated_low _ _ _ (po_pools _ _ _ Hp) (po_pd _ _ _ Hp)).
    pose proof (allocated_low q pt false (fr_pools _ _ _ Hf) (proj2 (fr_alloc _ _ _ Hf false pt) (or_intror (conj eq_refl eq_refl)))).
    rewrite (fr_base _ _ _ Hf) in *. rewrite store_word_other by lia. apply Hf. lia.
Qed.

(** ** Address spaces *)

Section Space.
Context (init_ram_pages : Z).

(** The page directory [pd] maps the user pages as [A] says. *)
Record space (s : vm) (pd : Z) (tabs : gmap Z Z) (A : gmap Z mapping) : Prop := {
  sp_ok : pd_ok s pd tabs;
  sp_map vp : 0 ≤ vp < USER_PAGES → A !! vp = decode (pte_at (ram (phys s)) tabs vp);
  sp_dom vp p : A !! vp = Some p → 0 ≤ vp < USER_PAGES ∧ kernel_page (mp_kpage p);
  sp_cr3 : 0 ≤ cr3 s < 2 ^ 30;
  sp_init : pd ≠ init_page_dir s }.

(** A cached translation of the active directory agrees with it, and grants no more. *)
Definition tlb_ok (s : vm) (pd : Z) (A : gmap Z mapping) : Prop :=
  cr3 s = pd - PHYS_BASE → ∀ vp w, 0 ≤ vp < USER_PAGES → tlb s !! vp = Some w →
  ∃ p q, A !! vp = Some p ∧ decode w = Some q ∧ mp_kpage q = mp_kpage p ∧
    (mp_writable q = true → mp_writable p = true) ∧ (mp_dirty q = true → mp_dirty p = true) ∧ mp_accessed p = true.

Lemma invalidate_run s pd tabs A : space s pd tabs A →
  invalidate_pagedir pd s =
    Ok (tt, mk_vm (phys s) (init_page_dir s) (cr3 s) (if cr3 s =? pd - PHYS_BASE then ∅ else tlb s)).
Proof.
  intros [Hp _ _ Hc _]. pose proof Hp as [Hpo _ Hba Hpd _ _ _].
  destruct (allocated_page _ pd Hpo Hba _ Hpd) as [Hk _]. destruct (kernel_page_phys pd Hk) as (Ev & _ & _).
  destruct Hk as [_ Hk]. unfold invalidate_pagedir, active_pd.
  rewrite (bind_Ok _ _ s (cr3 s + PHYS_BASE) s).
  2:{ erewrite (bind_Ok (gets cr3)) by done. unfold lift, ptov. rewrite (proj2 (Z.ltb_lt _ _)) by (unfold PHYS_BASE; lia).
      cbn [assert_ok obind]. by rewrite uwrap_id by (unfold in_u, PHYS_BASE; lia). }
  destruct (Z.eqb_spec (cr3 s) (pd - PHYS_BASE)) as [E|Hne].
  - rewrite (proj2 (Z.eqb_eq _ _)) by lia. unfold pagedir_activate. erewrite (bind_Ok (gets _)) by done.
    rewrite (proj2 (Z.eqb_neq pd NULL)) by (unfold NULL, PHYS_BASE in *; lia).
    rewrite (bind_Ok (lift _) _ s (pd - PHYS_BASE) s) by (unfold lift; by rewrite Ev). unfold modify. by rewrite E.
  - rewrite (proj2 (Z.eqb_neq _ _)) by lia. by destruct s.
Qed.

Lemma space_tlb s pd tabs A t : space s pd tabs A → space (mk_vm (phys s) (init_page_dir s) (cr3 s) t) pd tabs A.
Proof. intros [[] ? ? ? ?]. split; try done. Qed.

(** One entry changes, in a table that is there. *)
Lemma space_store s pd tabs A vp pt v o : space s pd tabs A → 0 ≤ vp < USER_PAGES → tabs !! (vp / 1024) = Some pt →
  in_u 32 v → decode v = o → (∀ p, o = Some p → kernel_page (mp_kpage p)) →
  let s' := with_ram (store_word (ram (phys s)) (pt + 4 * (vp `mod` 1024)) v) s in
  space s' pd tabs (partial_alter (λ _, o) vp A) ∧ keeps s s' pd tabs.
Proof.
  intros [Hp Hm Hd Hc Hi] Hvp Ht Hv Ho Hok s'.
  destruct (store_entry s pd tabs vp pt v Hp Hvp Ht Hv) as (Hp' & Hk & Hpte). split; [|done]. split; try done.
  - intros vp' Hvp'. rewrite Hpte by done. case_bool_decide as E.
    + subst vp'. by rewrite lookup_partial_alter_eq, Ho.
    + rewrite lookup_partial_alter_ne by done. by apply Hm.
  - intros vp' p. destruct (decide (vp' = vp)) as [->|E].
    + rewrite lookup_partial_alter_eq. intros ->. split; [done|by apply Hok].
    + rewrite lookup_partial_alter_ne by done. apply Hd.
Qed.

Lemma table_low s pd tabs A vp pt v : space s pd tabs A → tabs !! (vp / 1024) = Some pt →
  low_same s (with_ram (store_word (ram (phys s)) (pt + 4 * (vp `mod` 1024)) v) s).
Proof.
  intros Hs Et. pose proof (sp_ok _ _ _ _ Hs) as Hp. destruct (po_table _ _ _ Hp _ _ Et) as (_ & Hal & _).
  apply (store_low s pt false); [apply Hp|done|]. pose proof (Z.mod_pos_bound vp 1024 ltac:(lia)). lia.
Qed.

(** ** The operations *)

Inductive pd_op :=
  | SetPage (upage kpage : Z) (writable : bool)
  | GetPage (uaddr : Z)
  | ClearPage (upage : Z)
  | IsDirty (va : Z)
  | SetDirty (va : Z) (dirty : bool)
  | IsAccessed (va : Z)
  | SetAccessed (va : Z) (accessed : bool).

Definition run_op (pd : Z) (op : pd_op) : V Z :=
  match op with
  | SetPage u k w => let! b := pagedir_set_page init_ram_pages pd u k w in ret (Z.b2z b)
  | GetPage u => pagedir_get_page pd u
  | ClearPage u => let! _ := pagedir_clear_page pd u in ret 0
  | IsDirty va => let! b := pagedir_is_dirty pd va in ret (Z.b2z b)
  | SetDirty va b => let! _ := pagedir_set_dirty pd va b in ret 0
  | IsAccessed va => let! b := pagedir_is_accessed pd va in ret (Z.b2z b)
  | SetAccessed va b => let! _ := pagedir_set_accessed pd va b in ret 0
  end.

Definition user_addr (va : Z) : Prop := 0 ≤ va ∧ is_user_vaddr va = true.

(** What the callers of the operations must see to. *)
Definition op_legal (A : gmap Z mapping) (op : pd_op) : Prop :=
  match op with
  | SetPage u k _ => user_addr u ∧ pg_ofs u = 0 ∧ kernel_page k ∧ (k - PHYS_BASE) / 4096 < init_ram_pages ∧
                     A !! (u / 4096) = None
  | GetPage u => user_addr u
  | ClearPage u => user_addr u ∧ pg_ofs u = 0
  | IsDirty va | SetDirty va _ | IsAccessed va | SetAccessed va _ => user_addr va ∧ is_Some (A !! (va / 4096))
  end.

Definition set_dirty (b : bool) (p : mapping) : mapping := mk_mapping (mp_kpage p) (mp_writable p) b (mp_accessed p).
Definition set_accessed (b : bool) (p : mapping) : mapping := mk_mapping (mp_kpage p) (mp_writable p) (mp_dirty p) b.

(** The effect on the map from user pages: the result and the new map. *)
Definition op_effect (A : gmap Z mapping) (op : pd_op) (r : Z) (A' : gmap Z mapping) : Prop :=
  match op with
  | SetPage u k w => r = 0 ∧ A' = A ∨ r = 1 ∧ A' = <[u / 4096 := mk_mapping k w false false]> A
  | GetPage u => A' = A ∧ r = match A !! (u / 4096) with Some p => mp_kpage p + u `mod` 4096 | None => NULL end
  | ClearPage u => r = 0 ∧ A' = delete (u / 4096) A
  | IsDirty va => A' = A ∧ r = Z.b2z (default false (mp_dirty <$> A !! (va / 4096)))
  | SetDirty va b => r = 0 ∧ A' = alter (set_dirty b) (va / 4096) A
  | IsAccessed va => A' = A ∧ r = Z.b2z (default false (mp_accessed <$> A !! (va / 4096)))
  | SetAccessed va b => r = 0 ∧ A' = alter (set_accessed b) (va / 4096) A
  end.

(** The page of a mapped address has a table. *)
Lemma mapped_table s pd tabs A va p : space s pd tabs A → user_addr va → A !! (va / 4096) = Some p →
  ∃ pt, tabs !! (va / 4096 / 1024) = Some pt ∧ pt ≠ NULL ∧ pt + 4 * ((va / 4096) `mod` 1024) ≠ NULL ∧
    let w := word_at (ram (phys s)) (pt + 4 * ((va / 4096) `mod` 1024)) in in_u 32 w ∧ decode w = Some p.
Proof.
  intros Hs [H0 Hu] HA. pose proof (user_index va Hu H0) as Hvp. rewrite (sp_map _ _ _ _ Hs _ Hvp) in HA. unfold pte_at in HA.
  destruct (tabs !! (va / 4096 / 1024)) as [pt|] eqn:Et; [|done]. exists pt. pose proof (sp_ok _ _ _ _ Hs) as Hp.
  destruct (po_table _ _ _ Hp _ _ Et) as (_ & Hal & _).
  destruct (allocated_page _ pt (po_pools _ _ _ Hp) (po_base _ _ _ Hp) _ Hal) as [[_ Hk] _].
  destruct (index_bounds _ Hvp) as [_ Hj]. unfold NULL, PHYS_BASE in *. split_and!; try done; try lia.
  apply word_at_u32, Hp.
Qed.

(** A change of a status bit of a mapped page. *)
Lemma status_change s pd tabs A va p pt v f : space s pd tabs A → user_addr va → A !! (va / 4096) = Some p →
  tabs !! (va / 4096 / 1024) = Some pt → in_u 32 v → decode v = Some (f p) → mp_kpage (f p) = mp_kpage p →
  let s' := with_ram (store_word (ram (phys s)) (pt + 4 * ((va / 4096) `mod` 1024)) v) s in
  space s' pd tabs (alter f (va / 4096) A) ∧ keeps s s' pd tabs.
Proof.
  intros Hs [H0 Hu] HA Et Hv Hd Hk s'. pose proof (user_index va Hu H0) as Hvp.
  assert (alter f (va / 4096) A = partial_alter (λ _, Some (f p)) (va / 4096) A) as ->.
  { apply map_eq. intros k. destruct (decide (k = va / 4096)) as [->|Hne].
    - by rewrite lookup_alter_eq, lookup_partial_alter_eq, HA.
    - by rewrite lookup_alter_ne, lookup_partial_alter_ne. }
  apply space_store; try done. intros ? [= <-]. rewrite Hk. by apply (sp_dom _ _ _ _ Hs) in HA as [_ ?].
Qed.

(** The state after an operation: the map [A'], coherent caches, and everything that
    is not the directory's own as it was. *)
Record after (s : vm) (pd : Z) (tabs : gmap Z Z) (s' : vm) (tabs' : gmap Z Z) (A' : gmap Z mapping) : Prop := {
  af_space : space s' pd tabs' A';
  af_tlb : tlb_ok s' pd A';
  af_keeps : keeps s s' pd tabs;
  af_tabs i pt : tabs' !! i = Some pt → tabs !! i = Some pt ∨ ¬ allocated false (phys s) pt;
  af_regs : cr3 s' = cr3 s ∧ init_page_dir s' = init_page_dir s;
  af_base : base (kernel_pool (phys s')) = base (kernel_pool (phys s));
  af_same : same_pools (phys s) (phys s');
  af_low : low_same s s' }.

Lemma after_refl s pd tabs A : space s pd tabs A → tlb_ok s pd A → after s pd tabs s tabs A.
Proof. intros Hs Ht. split; try done. by left. Qed.

Lemma get_run s pd tabs A u : space s pd tabs A → user_addr u →
  pagedir_get_page pd u s = Ok (match A !! (u / 4096) with Some p => mp_kpage p + u `mod` 4096 | None => NULL end, s).
Proof.
  intros Hs Hua. pose proof Hua as [H0 Hu]. unfold pagedir_get_page. rewrite Hu. rewrite (bind_Ok (ASSERT _) _ s tt s) by done.
  rewrite (bind_Ok _ _ _ _ _ (lookup_page_run s pd tabs u (sp_ok _ _ _ _ Hs) H0 Hu)).
  destruct (A !! (u / 4096)) as [p|] eqn:HA.
  - destruct (mapped_table s pd tabs A u p Hs Hua HA) as (pt & -> & _ & Hn & Hw & Hd).
    rewrite (proj2 (Z.eqb_neq _ NULL)) by done. cbn [negb]. set (a := pt + _) in *.
    rewrite (bind_Ok _ _ s true s).
    2:{ erewrite (bind_Ok (load32 _)) by done. change PTE_P with (2 ^ 0). rewrite flag_test by done.
        unfold decode in Hd. by destruct (Z.testbit _ 0). }
    erewrite (bind_Ok (load32 _)) by done.
    rewrite (bind_Ok (lift _) _ s (mp_kpage p) s); [by rewrite pg_ofs_mod|].
    unfold lift. rewrite (pte_get_page_run _ p Hd); [done|]. by apply (sp_dom _ _ _ _ Hs) in HA as [_ ?].
  - rewrite (sp_map _ _ _ _ Hs _ (user_index u Hu H0)) in HA. unfold pte_at in HA.
    destruct (tabs !! (u / 4096 / 1024)) as [pt|]; [|done]. set (a := pt + _) in *.
    rewrite (bind_Ok _ _ s false s); [done|]. destruct (negb (a =? NULL)); [|done].
    erewrite (bind_Ok (load32 _)) by done. change PTE_P with (2 ^ 0). rewrite flag_test by done.
    unfold decode in HA. by destruct (Z.testbit _ 0).
Qed.

(** A cleared bit of the active directory drops the caches. *)
Lemma invalidated s s' pd tabs A' : space s' pd tabs A' → keeps s s' pd tabs → cr3 s' = cr3 s → init_page_dir s' = init_page_dir s →
  base (kernel_pool (phys s')) = base (kernel_pool (phys s)) → same_pools (phys s) (phys s') →
  low_same s s' → (cr3 s ≠ pd - PHYS_BASE → tlb s' = tlb s) → ∃ s2, invalidate_pagedir pd s' = Ok (tt, s2) ∧ after s pd tabs s2 tabs A'.
Proof.
  intros Hs Hk Hc Hi Hb Hsm Hlow Ht. rewrite (invalidate_run _ _ _ _ Hs). eexists. split; [done|]. split.
  - by apply space_tlb.
  - intros E. simpl in E. rewrite (proj2 (Z.eqb_eq _ _)) by done. intros vp w _. simpl. by rewrite lookup_empty.
  - exact Hk.
  - by left.
  - done.
  - done.
  - done.
  - exact Hlow.
Qed.

Lemma clear_run s pd tabs A u : space s pd tabs A → tlb_ok s pd A → user_addr u → pg_ofs u = 0 →
  ∃ s', pagedir_clear_page pd u s = Ok (tt, s') ∧ after s pd tabs s' tabs (delete (u / 4096) A).
Proof.
  intros Hs Ht Hua Ho. pose proof Hua as [H0 Hu]. unfold pagedir_clear_page. rewrite Ho, Hu.
  rewrite !(bind_Ok (ASSERT _) _ s tt s) by done.
  rewrite (bind_Ok _ _ _ _ _ (lookup_page_run s pd tabs u (sp_ok _ _ _ _ Hs) H0 Hu)).
  destruct (A !! (u / 4096)) as [p|] eqn:HA.
  - destruct (mapped_table s pd tabs A u p Hs Hua HA) as (pt & Et & _ & Hn & Hw & Hd). rewrite Et.
    rewrite (proj2 (Z.eqb_neq _ NULL)) by done. cbn [negb]. erewrite (bind_Ok (load32 _)) by done.
    set (w := word_at _ _) in *. change PTE_P with (2 ^ 0). rewrite flag_test by done.
    assert (Z.testbit w 0 = true) as -> by (unfold decode in Hd; by destruct (Z.testbit w 0)).
    destruct (space_store s pd tabs A (u / 4096) pt (Z.land w (2 ^ 32 - 1 - 2 ^ 0)) None Hs) as [Hs' Hk]; try done.
    { by apply user_index. } { by apply land_u32. } { unfold decode. by rewrite flag_clear. }
    erewrite (bind_Ok (store32 _ _)) by done. apply invalidated; try done. by eapply table_low.
  - exists s. rewrite delete_id by done. split; [|by apply after_refl].
    rewrite (sp_map _ _ _ _ Hs _ (user_index u Hu H0)) in HA. unfold pte_at in HA.
    destruct (tabs !! (u / 4096 / 1024)) as [pt|]; [|done]. destruct (negb (_ =? NULL)); [|done].
    erewrite (bind_Ok (load32 _)) by done. change PTE_P with (2 ^ 0). rewrite flag_test by done.
    unfold decode in HA. by destruct (Z.testbit _ 0).
Qed.

Lemma set_page_run s pd tabs A u k wr : space s pd tabs A → tlb_ok s pd A → op_legal A (SetPage u k wr) →
  pagedir_set_page init_ram_pages pd u k wr s = Ok (false, s) ∧ palloc_get_page PAL_ZERO (phys s) = Ok (NULL, phys s) ∨
  ∃ s' tabs', pagedir_set_page init_ram_pages pd u k wr s = Ok (true, s') ∧
    after s pd tabs s' tabs' (<[u / 4096 := mk_mapping k wr false false]> A).
Proof.
  intros Hs Ht (Hua & Ho & Hk & Hr & HA). pose proof Hua as [H0 Hu]. pose proof (user_index u Hu H0) as Hvp.
  destruct (kernel_page_phys k Hk) as (Ev & _ & _). unfold pagedir_set_page. rewrite Ho, Hu, pg_ofs_mod, (proj1 Hk).
  rewrite !(bind_Ok (ASSERT _) _ s tt s) by done.
  rewrite (bind_Ok (lift _) _ s (k - PHYS_BASE) s) by (unfold lift; by rewrite Ev).
  rewrite (bind_Ok (ASSERT _) _ s tt s)
    by (unfold PTSHIFT, PGBITS; rewrite Z.shiftr_div_pow2 by done; rewrite (proj2 (Z.ltb_lt _ _)) by done; done).
  erewrite (bind_Ok (gets _)) by done. rewrite (proj2 (Z.eqb_neq pd _)) by apply Hs. rewrite (bind_Ok (ASSERT _) _ s tt s) by done.
  destruct (lookup_page_create_run s pd tabs u (sp_ok _ _ _ _ Hs) H0 Hu) as [[E En]|(pt & s1 & tabs1 & E & Et & Hg)];
    rewrite (bind_Ok _ _ _ _ _ E); [by left|right].
  assert (space s1 pd tabs1 A) as Hs1.
  { destruct Hg as [Hp1 _ Hpte _ _ Hregs _]. pose proof Hs as [_ Hm Hd Hc Hi]. split; try done.
    - intros vp Hv. rewrite Hpte by done. by apply Hm.
    - rewrite Hregs. done.
    - rewrite Hregs. done. }
  destruct (index_bounds _ Hvp) as [_ Hj]. pose proof (gw_ok _ _ _ _ _ Hg) as Hp1.
  destruct (po_table _ _ _ Hp1 _ _ Et) as (_ & Hal & _).
  destruct (allocated_page _ pt (po_pools _ _ _ Hp1) (po_base _ _ _ Hp1) _ Hal) as [[_ Hkp] _].
  rewrite (proj2 (Z.eqb_neq _ NULL)) by (unfold NULL, PHYS_BASE in *; lia). cbn [negb].
  erewrite (bind_Ok (load32 _)) by done. pose proof (sp_map _ _ _ _ Hs1 _ Hvp) as HA1. unfold pte_at in HA1. rewrite Et, HA in HA1.
  rewrite (bind_Ok (ASSERT _) _ s1 tt s1).
  2:{ rewrite <-(negb_involutive (_ =? 0)). change PTE_P with (2 ^ 0). rewrite flag_test by done.
      unfold decode in HA1. by destruct (Z.testbit _ 0). }
  destruct (pte_create_user_run k wr Hk) as (e & Ee & Heu & Hed).
  rewrite (bind_Ok (lift _) _ s1 e s1) by (unfold lift; by rewrite Ee).
  destruct (space_store s1 pd tabs1 A (u / 4096) pt e _ Hs1 Hvp Et Heu Hed) as [Hs2 Hk2]; [by intros ? [= <-]|].
  erewrite (bind_Ok (store32 _ _)) by done. eexists _, tabs1. split; [done|]. split.
  - exact Hs2.
  - intros Hc vp w Hv Hw. simpl in Hc, Hw. rewrite (gw_regs _ _ _ _ _ Hg) in Hc, Hw. simpl in Hc, Hw.
    destruct (Ht Hc vp w Hv Hw) as (p & q & HAp & Hrest). exists p, q. split; [|done].
    rewrite lookup_insert_ne; [done|]. intros E'. rewrite E' in HA. congruence.
  - intros x b Hb. destruct (gw_keeps _ _ _ _ _ Hg x b Hb) as [Hb1 Hc1]. destruct (Hk2 x b Hb1) as [Hb2 Hc2].
    split; [done|]. intros Hbd Hbt y Hy. rewrite Hc2; [by apply Hc1|done| |done].
    intros i pt' Hi'. destruct (gw_tabs _ _ _ _ _ Hg i pt' Hi') as [Hold|Hnew]; [by eapply Hbt|]. intros ->.
    assert (x = false) as -> by (eapply (allocated_once (phys s1)); [apply Hp1|done|by destruct (po_table _ _ _ Hp1 _ _ Hi') as (_ & ? & _)]).
    done.
  - apply Hg.
  - rewrite (gw_regs _ _ _ _ _ Hg). done.
  - apply Hg.
  - intros x. destruct (gw_same _ _ _ _ _ Hg x). by destruct x.
  - intros x Hx. rewrite <-(gw_low _ _ _ _ _ Hg x Hx).
    apply (store_low s1 pt false (4 * ((u / 4096) `mod` 1024)) e (po_pools _ _ _ Hp1) Hal); [lia|]. by rewrite (gw_base _ _ _ _ _ Hg).
Qed.

(** *** Status bits *)

Definition with_flag (k : Z) (b : bool) : mapping → mapping := if k =? 6 then set_dirty b else set_accessed b.

Lemma decode_flag w p k (b : bool) : in_u 32 w → decode w = Some p → k = 5 ∨ k = 6 →
  let w' := if b then Z.lor w (2 ^ k) else Z.land w (2 ^ 32 - 1 - 2 ^ k) in
  in_u 32 w' ∧ decode w' = Some (with_flag k b p) ∧ Z.testbit w k = (if k =? 6 then mp_dirty p else mp_accessed p).
Proof.
  intros Hw Hd Hk. cbv zeta.
  assert (∀ j, 0 ≤ j → Z.testbit (if b then Z.lor w (2 ^ k) else Z.land w (2 ^ 32 - 1 - 2 ^ k)) j =
                       if j =? k then b else Z.testbit w j) as Hbits.
  { intros j Hj. destruct b; [rewrite flag_set by lia|rewrite flag_clear by (done || lia)]; by destruct (j =? k). }
  split_and!.
  - destruct b; [apply lor_u32; [done|]|by apply land_u32]. destruct Hk as [-> | ->]; unfold in_u; lia.
  - rewrite (decode_bits w); [rewrite Hd| | |].
    + rewrite !Hbits by done. unfold decode in Hd. destruct (Z.testbit w 0); [|done]. apply (inj Some) in Hd. subst p.
      by destruct Hk as [-> | ->].
    + intros j Hj. rewrite Hbits by lia. by rewrite (proj2 (Z.eqb_neq j k)) by lia.
    + rewrite Hbits by done. by rewrite (proj2 (Z.eqb_neq 0 k)) by lia.
    + rewrite Hbits by done. by rewrite (proj2 (Z.eqb_neq 1 k)) by lia.
  - unfold decode in Hd. destruct (Z.testbit w 0); [|done]. apply (inj Some) in Hd. subst p. by destruct Hk as [-> | ->].
Qed.

Definition is_flag (k : Z) (pd va : Z) : V bool :=
  let! pte := lookup_page pd va false in
  if negb (pte =? NULL) then let! e := load32 pte in ret (negb (Z.land e (2 ^ k) =? 0)) else ret false.

Definition set_flag (k : Z) (pd va : Z) (b : bool) : V unit :=
  let! pte := lookup_page pd va false in
  if negb (pte =? NULL) then
    let! e := load32 pte in
    if b then store32 pte (Z.lor e (2 ^ k))
    else let! _ := store32 pte (Z.land e (2 ^ 32 - 1 - 2 ^ k)) in invalidate_pagedir pd
  else ret tt.

Lemma is_flag_run s pd tabs A va p k : space s pd tabs A → user_addr va → A !! (va / 4096) = Some p → k = 5 ∨ k = 6 →
  is_flag k pd va s = Ok (if k =? 6 then mp_dirty p else mp_accessed p, s).
Proof.
  intros Hs Hua HA Hk. pose proof Hua as [H0 Hu]. unfold is_flag.
  rewrite (bind_Ok _ _ _ _ _ (lookup_page_run s pd tabs va (sp_ok _ _ _ _ Hs) H0 Hu)).
  destruct (mapped_table s pd tabs A va p Hs Hua HA) as (pt & -> & _ & Hn & Hw & Hd).
  rewrite (proj2 (Z.eqb_neq _ NULL)) by done. cbn [negb]. erewrite (bind_Ok (load32 _)) by done.
  rewrite flag_test by lia. by destruct (decode_flag _ p k true Hw Hd Hk) as (_ & _ & ->).
Qed.

Lemma set_flag_run s pd tabs A va p k (b : bool) : space s pd tabs A → tlb_ok s pd A → user_addr va →
  A !! (va / 4096) = Some p → k = 5 ∨ k = 6 →
  ∃ s', set_flag k pd va b s = Ok (tt, s') ∧ after s pd tabs s' tabs (alter (with_flag k b) (va / 4096) A).
Proof.
  intros Hs Ht Hua HA Hk. pose proof Hua as [H0 Hu]. unfold set_flag.
  rewrite (bind_Ok _ _ _ _ _ (lookup_page_run s pd tabs va (sp_ok _ _ _ _ Hs) H0 Hu)).
  destruct (mapped_table s pd tabs A va p Hs Hua HA) as (pt & Et & _ & Hn & Hw & Hd). rewrite Et.
  rewrite (proj2 (Z.eqb_neq _ NULL)) by done. cbn [negb]. erewrite (bind_Ok (load32 _)) by done.
  destruct (decode_flag _ p k b Hw Hd Hk) as (Hw' & Hd' & _).
  destruct (status_change s pd tabs A va p pt _ (with_flag k b) Hs Hua HA Et Hw' Hd') as [Hs' Hk'];
    [unfold with_flag; by destruct (k =? 6)|]. destruct b.
  - eexists. split; [done|]. split; [exact Hs'| |exact Hk'|by left|done|done|by intros []|by eapply table_low].
    intros Hc vp w Hv Hq. destruct (Ht Hc vp w Hv Hq) as (p1 & q & Hp1 & Hq1 & Hkp & Hwr & Hdi & Hac).
    destruct (decide (vp = va / 4096)) as [->|Hne].
    + exists (with_flag k true p), q. rewrite lookup_alter_eq, HA. assert (p1 = p) as -> by congruence.
      unfold with_flag. destruct (k =? 6); simpl; split_and!; done.
    + exists p1, q. by rewrite lookup_alter_ne.
  - erewrite (bind_Ok (store32 _ _)) by done. apply invalidated; try done. by eapply table_low.
Qed.

(** ** The refinement *)

Lemma op_run s pd tabs A op : space s pd tabs A → tlb_ok s pd A → op_legal A op →
  ∃ r s' tabs' A', run_op pd op s = Ok (r, s') ∧ op_effect A op r A' ∧ after s pd tabs s' tabs' A'.
Proof.
  intros Hs Ht Hop. destruct op as [u k w|u|u|va|va b|va|va b]; simpl in *.
  - destruct (set_page_run s pd tabs A u k w Hs Ht Hop) as [[E _]|(s' & tabs' & E & Ha)]; rewrite (bind_Ok _ _ _ _ _ E).
    + exists 0, s, tabs, A. split; [done|]. split; [by left|]. by apply after_refl.
    + eexists 1, s', tabs', _. split; [done|]. split; [by right|done].
  - rewrite (get_run s pd tabs A u Hs Hop). eexists _, s, tabs, A. split; [done|]. split; [done|]. by apply after_refl.
  - destruct (clear_run s pd tabs A u Hs Ht (proj1 Hop) (proj2 Hop)) as (s' & E & Ha). rewrite (bind_Ok _ _ _ _ _ E).
    eexists 0, s', tabs, _. split; [done|]. split; [done|done].
  - destruct Hop as [Hua [p HA]]. pose proof (is_flag_run s pd tabs A va p 6 Hs Hua HA ltac:(lia)) as E.
    rewrite (bind_Ok (pagedir_is_dirty pd va) _ _ _ _ E), HA. eexists _, s, tabs, A. split; [done|]. split; [done|]. by apply after_refl.
  - destruct Hop as [Hua [p HA]]. destruct (set_flag_run s pd tabs A va p 6 b Hs Ht Hua HA ltac:(lia)) as (s' & E & Ha).
    rewrite (bind_Ok (pagedir_set_dirty pd va b) _ _ _ _ E). eexists 0, s', tabs, _. split; [done|]. split; [done|exact Ha].
  - destruct Hop as [Hua [p HA]]. pose proof (is_flag_run s pd tabs A va p 5 Hs Hua HA ltac:(lia)) as E.
    rewrite (bind_Ok (pagedir_is_accessed pd va) _ _ _ _ E), HA. eexists _, s, tabs, A. split; [done|]. split; [done|]. by apply after_refl.
  - destruct Hop as [Hua [p HA]]. destruct (set_flag_run s pd tabs A va p 5 b Hs Ht Hua HA ltac:(lia)) as (s' & E & Ha).
    rewrite (bind_Ok (pagedir_set_accessed pd va b) _ _ _ _ E). eexists 0, s', tabs, _. split; [done|]. split; [done|exact Ha].
Qed.
End Space.
