(* ===== verification/PagedirLife.v ===== *)
(** * The life of an address space (userprog/pagedir.c)

    A page directory is created with the kernel's mappings, maps and unmaps user pages
    without disturbing any other, and gives back every page it uses when it is
    destroyed. *)

From S2P Require Import Prelude Bitmap FsState Palloc Pagedir PagedirSpec.

Section Life.
Context (init_ram_pages : Z).

(** ** Sequences of operations *)

Fixpoint run_ops (pd : Z) (ops : list pd_op) : V (list Z) :=
  match ops with
  | [] => ret []
  | op :: ops =>
      let! r := run_op init_ram_pages pd op in
      let! rs := run_ops pd ops in
      ret (r :: rs)
  end.

(** Every operation is legal in whatever state the ones before it may lead to. *)
Fixpoint legal (A : gmap Z mapping) (ops : list pd_op) : Prop :=
  match ops with
  | [] => True
  | op :: ops => op_legal init_ram_pages A op ∧ ∀ r A', op_effect A op r A' → legal A' ops
  end.

Fixpoint effect (A : gmap Z mapping) (ops : list pd_op) (rs : list Z) (A' : gmap Z mapping) : Prop :=
  match ops, rs with
  | [], [] => A' = A
  | op :: ops, r :: rs => ∃ A1, op_effect A op r A1 ∧ effect A1 ops rs A'
  | _, _ => False
  end.

Lemma ops_run pd ops : ∀ s tabs A, space s pd tabs A → tlb_ok s pd A → legal A ops →
  ∃ rs s' tabs' A', run_ops pd ops s = Ok (rs, s') ∧ effect A ops rs A' ∧ space s' pd tabs' A' ∧ tlb_ok s' pd A'.
Proof.
  induction ops as [|op ops IH]; intros s tabs A Hs Ht Hl; cbn [run_ops].
  - exists [], s, tabs, A. done.
  - destruct Hl as [Hop Hl]. destruct (op_run init_ram_pages s pd tabs A op Hs Ht Hop) as (r & s1 & tabs1 & A1 & E & He & Ha).
    rewrite (bind_Ok _ _ _ _ _ E).
    destruct (IH s1 tabs1 A1 (af_space _ _ _ _ _ _ Ha) (af_tlb _ _ _ _ _ _ Ha) (Hl r A1 He)) as (rs & s' & tabs' & A' & E' & He' & Hs' & Ht').
    rewrite (bind_Ok _ _ _ _ _ E'). exists (r :: rs), s', tabs', A'. split; [done|]. split; [|done]. exists A1. done.
Qed.

(** C16. A page directory implements a map from user pages: any sequence of
    [pagedir_set_page], [pagedir_get_page], [pagedir_clear_page] and of reading and
    setting the dirty and accessed bits returns what the map says, and the translations
    that the processor may have cached never grant more than the map does. *)
Theorem pagedir_refines_map pd ops s tabs A : space s pd tabs A → tlb_ok s pd A → legal A ops →
  ∃ rs s' tabs' A', run_ops pd ops s = Ok (rs, s') ∧ effect A ops rs A' ∧ space s' pd tabs' A' ∧ tlb_ok s' pd A'.
Proof. apply ops_run. Qed.

(** ** Isolation *)

(** Two directories do not share a page. *)
Definition separate (pd1 : Z) (tabs1 : gmap Z Z) (pd2 : Z) (tabs2 : gmap Z Z) : Prop :=
  pd1 ≠ pd2 ∧ (∀ i pt, tabs1 !! i = Some pt → pt ≠ pd2) ∧ (∀ i pt, tabs2 !! i = Some pt → pt ≠ pd1) ∧
  ∀ i j pt, tabs1 !! i = Some pt → tabs2 !! j = Some pt → False.

(** An address space whose pages are left alone is left alone. *)
Lemma space_kept s s' pd tabs A : space s pd tabs A → pools_ok (phys s') → bytes_ok (ram (phys s')) →
  base (kernel_pool (phys s')) = base (kernel_pool (phys s)) →
  (∀ b, b = pd ∨ (∃ i, tabs !! i = Some b) →
     allocated false (phys s') b ∧ ∀ x, b ≤ x < b + 4096 → ram (phys s') x = ram (phys s) x) →
  cr3 s' = cr3 s → init_page_dir s' = init_page_dir s → space s' pd tabs A.
Proof.
  intros [Hp Hm Hd Hc Hi] Hpo Hby Hb Hk Er Ei. pose proof Hp as [_ _ Hba _ Htab Hno Hinj].
  assert (∀ b, b = pd ∨ (∃ i, tabs !! i = Some b) → ∀ j, 0 ≤ j < 1024 →
    word_at (ram (phys s')) (b + 4 * j) = word_at (ram (phys s)) (b + 4 * j)) as Hword.
  { intros b Hb' j Hj. apply word_at_ext. intros x Hx. apply (Hk b Hb'). lia. }
  split; try done.
  - split; try done; [by rewrite Hb|apply Hk; by left| |].
    + intros i pt Ht. destruct (Htab i pt Ht) as (? & _ & ? & ? & ?). rewrite Hword by (by left || lia).
      split; [done|]. split; [apply Hk; eauto|]. done.
    + intros i Hi' Hn. rewrite Hword by (by left || lia). by apply Hno.
  - intros vp Hv. rewrite Hm by done. f_equal. unfold pte_at. destruct (tabs !! (vp / 1024)) as [pt|] eqn:Ht; [|done].
    symmetry. destruct (index_bounds vp Hv). apply Hword; [eauto|done].
  - by rewrite Er.
  - by rewrite Ei.
Qed.

Lemma keeps_space s s' pd1 tabs1 A1 pd2 tabs2 A2 tabs1' : space s pd2 tabs2 A2 → separate pd1 tabs1 pd2 tabs2 →
  after s pd1 tabs1 s' tabs1' A1 → space s' pd2 tabs2 A2.
Proof.
  intros Hs (Hne & Hs1 & Hs2 & Hs3) [[Hp1 _ _ _ _] _ Hk _ [Er Ei] Eb]. pose proof (sp_ok _ _ _ _ Hs) as Hp.
  apply (space_kept s s'); try done; try apply Hp1. intros b Hb.
  assert (allocated false (phys s) b) as Hal.
  { destruct Hb as [->|[i Hi]]; [apply Hp|]. by destruct (po_table _ _ _ Hp i b Hi) as (_ & ? & _). }
  destruct (Hk false b Hal) as [Hal' Hc]. split; [done|]. apply Hc.
  - destruct Hb as [->|[i Hi]]; [done|by eapply Hs2].
  - intros i pt Hi ->. destruct Hb as [->|[j Hj]]; [by eapply Hs1|by eapply Hs3].
Qed.

(** C17. An operation on one page directory leaves every other directory's map alone,
    and the contents of every page in use that is not a table of its own: no process
    can see another's mappings change. *)
Theorem pagedir_isolated s pd1 tabs1 A1 pd2 tabs2 A2 op :
  space s pd1 tabs1 A1 → tlb_ok s pd1 A1 → op_legal init_ram_pages A1 op →
  space s pd2 tabs2 A2 → separate pd1 tabs1 pd2 tabs2 →
  ∃ r s' tabs1' A1', run_op init_ram_pages pd1 op s = Ok (r, s') ∧ op_effect A1 op r A1' ∧ space s' pd1 tabs1' A1' ∧
    space s' pd2 tabs2 A2 ∧ separate pd1 tabs1' pd2 tabs2 ∧
    ∀ u b, allocated u (phys s) b → b ≠ pd1 → (∀ i pt, tabs1 !! i = Some pt → pt ≠ b) →
      ∀ x, b ≤ x < b + 4096 → ram (phys s') x = ram (phys s) x.
Proof.
  intros Hs1 Ht1 Hop Hs2 Hsep. destruct (op_run init_ram_pages s pd1 tabs1 A1 op Hs1 Ht1 Hop) as (r & s' & tabs1' & A1' & E & He & Ha).
  exists r, s', tabs1', A1'. split; [done|]. split; [done|]. split; [apply Ha|]. split; [by eapply keeps_space|].
  pose proof (sp_ok _ _ _ _ Hs2) as Hp2. destruct Hsep as (Hne & H1 & H2 & H3). split.
  - split; [done|]. split; [|split; [done|]].
    + intros i pt Hi. destruct (af_tabs _ _ _ _ _ _ Ha i pt Hi) as [?|Hnew]; [by eapply H1|]. intros ->. by apply Hnew, Hp2.
    + intros i j pt Hi Hj. destruct (af_tabs _ _ _ _ _ _ Ha i pt Hi) as [?|Hnew]; [by eapply H3|].
      apply Hnew. by destruct (po_table _ _ _ Hp2 j pt Hj) as (_ & ? & _).
  - intros u b Hb Hbd Hbt x Hx. by apply (af_keeps _ _ _ _ _ _ Ha u b Hb).
Qed.
End Life.

(** ** Creation *)

(** The base page directory, which maps no user page. *)
Record base_ok (s : vm) : Prop := {
  ba_pools : pools_ok (phys s);
  ba_bytes : bytes_ok (ram (phys s));
  ba_base : PHYS_BASE ≤ base (kernel_pool (phys s));
  ba_dir : allocated false (phys s) (init_page_dir s);
  ba_user i : 0 ≤ i < 768 → word_at (ram (phys s)) (init_page_dir s + 4 * i) = 0;
  ba_cr3 : 0 ≤ cr3 s < 2 ^ 30 }.

Lemma memcpy_at_page m dst src x : dst ≤ x < dst + 4096 → memcpy m dst src 4096 x = m (src + (x - dst)).
Proof. intros Hx. unfold memcpy. by rewrite (proj2 (Z.leb_le _ _)), (proj2 (Z.ltb_lt _ _)) by lia. Qed.

Lemma memcpy_other m dst src n x : ¬ dst ≤ x < dst + n → memcpy m dst src n x = m x.
Proof.
  intros Hx. unfold memcpy. destruct ((dst <=? x) && (x <? dst + n)) eqn:E; [|done].
  apply andb_true_iff in E as [?%Z.leb_le ?%Z.ltb_lt]. lia.
Qed.

(** A new directory maps no user page, and the kernel's pages as the base directory. *)
Lemma create_run s : base_ok s →
  pagedir_create s = Ok (NULL, s) ∧ palloc_get_page 0 (phys s) = Ok (NULL, phys s) ∨
  ∃ pd s', pagedir_create s = Ok (pd, s') ∧ space s' pd ∅ ∅ ∧ ¬ allocated false (phys s) pd ∧
    (∀ i, 0 ≤ i < 1024 → word_at (ram (phys s')) (pd + 4 * i) = word_at (ram (phys s)) (init_page_dir s + 4 * i)) ∧
    (∀ u b, allocated u (phys s) b → allocated u (phys s') b ∧ ∀ x, b ≤ x < b + 4096 → ram (phys s') x = ram (phys s) x) ∧
    cr3 s' = cr3 s ∧ init_page_dir s' = init_page_dir s ∧ tlb s' = tlb s ∧
    same_pools (phys s) (phys s') ∧ low_same s s'.
Proof.
  intros [Hpo Hby Hba Hdir Huser Hc]. unfold pagedir_create, get_page.
  destruct (palloc_get_multiple_ok 0 1 (phys s) Hpo ltac:(lia)) as [(pd & q & E & Hq & Hsame & Hn & _ & Hf & Hal & Hr)|[_ E]].
  2:{ left. change (has_flag 0 PAL_ASSERT) with false in E. cbv iota in E.
      rewrite (bind_Ok _ _ s NULL s) by (unfold palloc_get_page; rewrite E; cbn [obind]; by rewrite set_phys_id).
      split; [done|exact E]. }
  right. destruct (Hf 0 ltac:(lia)) as [Hnew _]. replace (pd + 4096 * 0) with pd in Hnew by lia.
  assert (∀ u b, allocated u q b ↔ allocated u (phys s) b ∨ u = false ∧ b = pd) as Hal'.
  { intros u b. rewrite Hal. change (has_flag 0 PAL_USER) with false.
    assert ((∃ k, 0 ≤ k < 1 ∧ b = pd + 4096 * k) ↔ b = pd) as ->; [|done].
    split; [intros (k & ? & ->); lia|intros ->; exists 0; lia]. }
  assert (∀ x, ram q x = ram (phys s) x) as Hram by (intros x; apply Hr).
  rewrite (bind_Ok _ _ s pd (set_phys q s)) by (unfold palloc_get_page; by rewrite E).
  erewrite (bind_Ok (gets _)) by done. rewrite (proj2 (Z.eqb_neq pd NULL)) by done. cbn [negb].
  erewrite (bind_Ok (modify _)) by done. change PGSIZE with 4096.
  set (m := memcpy _ _ _ _). set (s' := set_phys _ _).
  assert (base (kernel_pool q) = base (kernel_pool (phys s))) as Eb by apply (Hsame false).
  assert (kernel_page pd) as [Hda Hdk].
  { apply (allocated_page q pd Hq) with false; [by rewrite Eb|]. apply Hal'. by right. }
  destruct (allocated_page _ _ Hpo Hba _ Hdir) as [[Hia _] _].
  assert (∀ i, 0 ≤ i < 1024 → word_at m (pd + 4 * i) = word_at (ram (phys s)) (init_page_dir s + 4 * i)) as Hw.
  { intros i Hi. assert (∀ k, 0 ≤ k < 4096 → m (pd + k) = ram (phys s) (init_page_dir s + k)) as Hb.
    { intros k Hk. unfold m. rewrite memcpy_at_page by lia. simpl. rewrite Hram. f_equal. lia. }
    unfold word_at. rewrite <-!Z.add_assoc. rewrite !Hb by lia. done. }
  exists pd, s'. split; [done|]. split_and!; try done.
  - split; [|done|done|exact Hc|simpl; intros ->; done].
    split; simpl; try done; [by apply set_ram_ok| |by rewrite Eb| |].
    + intros x. destruct (decide (pd ≤ x < pd + 4096)) as [Hx|Hx]; unfold m; [rewrite memcpy_at_page by done|rewrite memcpy_other by done];
        simpl; rewrite Hram; apply Hby.
    + rewrite allocated_ram. apply Hal'. by right.
    + intros i Hi _. rewrite Hw by lia. by apply Huser.
  - intros u b Hb. split; [simpl; rewrite allocated_ram; apply Hal'; by left|]. intros x Hx. simpl. unfold m.
    rewrite memcpy_other; [apply Hram|]. intros Hin. destruct (allocated_page _ b Hpo Hba _ Hb) as [[Hb4 _] _].
    assert (b = pd) as -> by (by apply (page_overlap b pd x)).
    assert (u = false) as ->; [|done]. apply (allocated_once q pd); [done|apply Hal'; by left|apply Hal'; by right].
  - intros x Hx. simpl. unfold m. rewrite memcpy_other; [apply Hram|].
    pose proof (allocated_low q pd false Hq (proj2 (Hal' false pd) (or_intror (conj eq_refl eq_refl)))). lia.
Qed.

(** ** Destruction *)

(** [s'] is [s] with the pages [F] given back. *)
Record without (s : vm) (F : gset Z) (s' : vm) : Prop := {
  wo_pools : pools_ok (phys s');
  wo_base : base (kernel_pool (phys s')) = base (kernel_pool (phys s));
  wo_alloc u b : allocated u (phys s') b ↔ allocated u (phys s) b ∧ b ∉ F;
  wo_ram x : (∀ b, b ∈ F → ¬ b ≤ x < b + 4096) → ram (phys s') x = ram (phys s) x;
  wo_page b : b ∈ F → b `mod` 4096 = 0;
  wo_regs : cr3 s' = cr3 s ∧ init_page_dir s' = init_page_dir s ∧ tlb s' = tlb s }.

Lemma free_page_run s F s1 u b : pools_ok (phys s) → PHYS_BASE ≤ base (kernel_pool (phys s)) → without s F s1 → allocated u (phys s) b → b ∉ F →
  ∃ s2, free_page b s1 = Ok (tt, s2) ∧ without s (F ∪ {[b]}) s2.
Proof.
  intros Hs Hbase [Hp Hb Ha Hr Hpg Hg] Hal Hn.
  destruct (palloc_free_multiple_ok u (phys s1) b 1 Hp ltac:(lia)) as (q & E & Hq & Hsame & Hal' & Hram & _).
  { intros k Hk. replace (b + 4096 * k) with b by lia. by apply Ha. }
  exists (set_phys q s1). split; [unfold free_page, palloc_free_page; by rewrite E|]. split; try done.
  - rewrite <-Hb. apply (Hsame false).
  - intros u' b'. simpl. rewrite Hal', Ha, elem_of_union, elem_of_singleton.
    assert ((u' = u ∧ ∃ k, 0 ≤ k < 1 ∧ b' = b + 4096 * k) ↔ u' = u ∧ b' = b) as ->.
    { split; [intros [-> (k & ? & ->)]; split; [done|lia]|intros [-> ->]; split; [done|]; exists 0; lia]. }
    split; [|tauto]. intros [[H1 H2] H3]. split; [done|]. intros [?| ->]; [done|]. apply H3. split; [|done].
    by apply (allocated_once (phys s) b).
  - intros x Hx. simpl. rewrite Hram, bool_decide_eq_false_2 by (intros ?; apply (Hx b); [set_solver|lia]).
    apply Hr. intros b' Hb'. apply Hx. set_solver.
  - intros b' [?| ->%elem_of_singleton]%elem_of_union; [by apply Hpg|].
    by destruct (allocated_page _ b Hs Hbase _ Hal) as [[? _] _].
Qed.

(** The frames of a list of user pages. *)
Definition frames (A : gmap Z mapping) (vps : list Z) : list Z := omap (λ vp, mp_kpage <$> A !! vp) vps.

Lemma elem_of_frames A vps b : b ∈ frames A vps ↔ ∃ vp p, vp ∈ vps ∧ A !! vp = Some p ∧ b = mp_kpage p.
Proof.
  unfold frames. rewrite list_elem_of_omap. split.
  - intros (vp & Hvp & Hb). apply fmap_Some in Hb as (p & Hp & ->). eauto.
  - intros (vp & p & Hvp & Hp & ->). exists vp. by rewrite Hp.
Qed.

Section Destroy.
Context (s : vm) (pd : Z) (tabs : gmap Z Z) (A : gmap Z mapping).
Context (Hs : space s pd tabs A).
(** The frames that are mapped are in use, once each, and not for the tables. *)
Context (Hown : ∀ vp p, A !! vp = Some p → ∃ u, allocated u (phys s) (mp_kpage p)).
Context (Honce : ∀ vp vp' p p', A !! vp = Some p → A !! vp' = Some p' → mp_kpage p = mp_kpage p' → vp = vp').
Context (Hpd : ∀ vp p, A !! vp = Some p → mp_kpage p ≠ pd).
Context (Htabs : ∀ vp p i pt, A !! vp = Some p → tabs !! i = Some pt → mp_kpage p ≠ pt).

Lemma destroy_table_run i pt n : tabs !! i = Some pt → ∀ k F s1, without s F s1 → 0 ≤ k → k + Z.of_nat n = 1024 → pt ∉ F →
  (∀ vp p, i * 1024 + k ≤ vp < i * 1024 + 1024 → A !! vp = Some p → mp_kpage p ∉ F) →
  ∃ s2, destroy_table n (pt + 4 * k) s1 = Ok (tt, s2) ∧
    without s (F ∪ list_to_set (frames A (seqZ (i * 1024 + k) (Z.of_nat n)))) s2.
Proof.
  intros Ht. pose proof (sp_ok _ _ _ _ Hs) as Hp. destruct (po_table _ _ _ Hp i pt Ht) as (Hi & Hal & _).
  destruct (allocated_page _ pt (po_pools _ _ _ Hp) (po_base _ _ _ Hp) _ Hal) as [[Hpa _] _].
  induction n as [|n IH]; intros k F s1 Hw Hk Hn HF Hfr; cbn [destroy_table].
  - exists s1. split; [done|]. by replace (F ∪ _) with F by set_solver.
  - erewrite (bind_Ok (load32 _)) by done.
    assert (word_at (ram (phys s1)) (pt + 4 * k) = pte_at (ram (phys s)) tabs (i * 1024 + k)) as ->.
    { unfold pte_at. replace ((i * 1024 + k) / 1024) with i by (Z.to_euclidean_division_equations; lia). rewrite Ht.
      replace ((i * 1024 + k) `mod` 1024) with k by (Z.to_euclidean_division_equations; lia).
      apply word_at_ext. intros x Hx. apply Hw. intros b Hb Hbx.
      apply HF. replace pt with b; [done|]. apply (page_overlap b pt x); try done; [by apply Hw|lia]. }
    assert (0 ≤ i * 1024 + k < USER_PAGES) as Hvp by (unfold USER_PAGES; lia).
    pose proof (sp_map _ _ _ _ Hs _ Hvp) as HA. set (w := pte_at _ _ _) in *.
    change PTE_P with (2 ^ 0). rewrite flag_test by done.
    rewrite Nat2Z.inj_succ, seqZ_cons by lia. rewrite Z.pred_succ. cbn [frames omap list_omap].
    replace (Z.succ (i * 1024 + k)) with (i * 1024 + (k + 1)) by lia. replace (pt + 4 * k + 4) with (pt + 4 * (k + 1)) by lia.
    destruct (A !! (i * 1024 + k)) as [p|] eqn:EA.
    + assert (Z.testbit w 0 = true) as -> by (unfold decode in HA; by destruct (Z.testbit w 0)).
      destruct (sp_dom _ _ _ _ Hs _ _ EA) as [_ Hkp]. destruct (Hown _ _ EA) as [u Hu].
      destruct (free_page_run s F s1 u (mp_kpage p) (po_pools _ _ _ Hp) (po_base _ _ _ Hp) Hw Hu) as (s2 & E2 & Hw2);
        [by apply (Hfr (i * 1024 + k) p); [lia|]|].
      rewrite (bind_Ok _ _ s1 tt s2).
      2:{ rewrite (bind_Ok (lift _) _ s1 (mp_kpage p) s1) by (unfold lift; by rewrite (pte_get_page_run w p (eq_sym HA) Hkp)). done. }
      destruct (IH (k + 1) (F ∪ {[mp_kpage p]}) s2) as (s3 & E3 & Hw3); try done; try lia.
      { rewrite elem_of_union, elem_of_singleton. intros [?|E]; [done|]. by apply (Htabs _ p i pt EA Ht). }
      { intros vp p' Hv Hp'. rewrite elem_of_union, elem_of_singleton. intros [?|E]; [apply (Hfr vp p'); try done; lia|].
        pose proof (Honce _ _ _ _ Hp' EA E). lia. }
      exists s3. split; [done|]. simpl. by rewrite (assoc_L (∪)).
    + assert (Z.testbit w 0 = false) as -> by (unfold decode in HA; by destruct (Z.testbit w 0)).
      rewrite (bind_Ok (ret tt) _ s1 tt s1) by done. apply IH; try done; try lia.
      intros vp p' Hv. apply Hfr. lia.
Qed.

(** What goes with the entry [j] of the directory. *)
Definition table_pages (j : Z) : list Z :=
  match tabs !! j with Some pt => frames A (seqZ (j * 1024) 1024) ++ [pt] | None => [] end.

Lemma destroy_loop_run n : ∀ i F s1, without s F s1 → 0 ≤ i → i + Z.of_nat n = 768 → pd ∉ F →
  (∀ j pt, i ≤ j → tabs !! j = Some pt → pt ∉ F) →
  (∀ vp p, i * 1024 ≤ vp → A !! vp = Some p → mp_kpage p ∉ F) →
  ∃ s2, destroy_loop n (pd + 4 * i) s1 = Ok (tt, s2) ∧
    without s (F ∪ list_to_set (seqZ i (Z.of_nat n) ≫= table_pages)) s2.
Proof.
  pose proof (sp_ok _ _ _ _ Hs) as Hp. pose proof Hp as [Hpo _ Hba Hpdal Htab Hno Hinj].
  destruct (allocated_page _ pd Hpo Hba _ Hpdal) as [[Hda _] _].
  induction n as [|n IH]; intros i F s1 Hw Hi Hn HF Hft Hfr; cbn [destroy_loop].
  - exists s1. split; [done|]. by replace (F ∪ _) with F by set_solver.
  - erewrite (bind_Ok (load32 _)) by done.
    assert (word_at (ram (phys s1)) (pd + 4 * i) = word_at (ram (phys s)) (pd + 4 * i)) as ->.
    { apply word_at_ext. intros x Hx. apply Hw. intros b Hb Hbx. apply HF. replace pd with b; [done|].
      apply (page_overlap b pd x); try done; [by apply Hw|lia]. }
    change PTE_P with (2 ^ 0). rewrite flag_test by done.
    rewrite Nat2Z.inj_succ, seqZ_cons by lia. rewrite Z.pred_succ. cbn [mbind list_bind].
    replace (Z.succ i) with (i + 1) by lia. replace (pd + 4 * i + 4) with (pd + 4 * (i + 1)) by lia.
    unfold table_pages at 1. destruct (tabs !! i) as [pt|] eqn:Et.
    + destruct (Htab i pt Et) as (_ & Hal & Hne & Hb & Hpt). rewrite Hb.
      destruct (allocated_page _ pt Hpo Hba _ Hal) as [Hkp _].
      assert (∃ c, c = Z.to_nat (PGSIZE / 4) ∧ Z.of_nat c = 1024) as (c & Ec & Hc) by (by eexists). rewrite <-Ec.
      destruct (destroy_table_run i pt c Et 0 F s1 Hw) as (s2 & E2 & Hw2); [lia|lia|by apply (Hft i)|intros vp p Hv; apply Hfr; lia|].
      rewrite Z.mul_0_r, Z.add_0_r in E2. rewrite Hc, Z.add_0_r in Hw2.
      assert (pt ∉ F ∪ list_to_set (frames A (seqZ (i * 1024) 1024))) as Hptn.
      { rewrite elem_of_union, elem_of_list_to_set, elem_of_frames. intros [?|(vp & p & _ & HA & E)]; [by apply (Hft i pt)|].
        by apply (Htabs vp p i pt). }
      destruct (free_page_run s _ s2 false pt Hpo Hba Hw2 Hal Hptn) as (s3 & E3 & Hw3).
      rewrite (bind_Ok _ _ s1 tt s3).
      2:{ rewrite (bind_Ok (lift _) _ s1 pt s1) by (unfold lift; by rewrite (pde_get_pt_run _ pt Hb Hkp Hpt)).
          by rewrite (bind_Ok _ _ _ _ _ E2). }
      destruct (IH (i + 1) _ s3 Hw3) as (s4 & E4 & Hw4); try lia.
      { rewrite !elem_of_union, elem_of_singleton, elem_of_list_to_set, elem_of_frames.
        intros [[?|(vp & p & _ & HA & E)]|?]; [done|by apply (Hpd vp p)|done]. }
      { intros j pt' Hj Htj. rewrite !elem_of_union, elem_of_singleton, elem_of_list_to_set, elem_of_frames.
        intros [[?|(vp & p & _ & HA & E)]| ->]; [by apply (Hft j pt'); [lia|..]|by apply (Htabs vp p j pt')|].
        pose proof (Hinj _ _ _ Et Htj). lia. }
      { intros vp p Hv HA. rewrite !elem_of_union, elem_of_singleton, elem_of_list_to_set, elem_of_frames.
        intros [[?|(vp' & p' & Hv' & HA' & E)]|E]; [by apply (Hfr vp p); [lia|..]| |by apply (Htabs vp p i pt)].
        apply elem_of_seqZ in Hv'. pose proof (Honce _ _ _ _ HA HA' E). lia. }
      exists s4. split; [done|]. rewrite !list_to_set_app_L, list_to_set_cons, list_to_set_nil, union_empty_r_L.
      by rewrite !(assoc_L (∪)) in *.
    + rewrite (Hno i ltac:(lia) Et). rewrite (bind_Ok _ _ s1 tt s1) by done. apply IH; try done; try lia.
      * intros j pt Hj. apply Hft. lia.
      * intros vp p Hv. apply Hfr. lia.
Qed.

(** Every page the directory uses, its own included. *)
Lemma table_pages_all b : b ∈ seqZ 0 768 ≫= table_pages ↔
  (∃ i pt, tabs !! i = Some pt ∧ b = pt) ∨ ∃ vp p, A !! vp = Some p ∧ b = mp_kpage p.
Proof.
  pose proof (sp_ok _ _ _ _ Hs) as Hp. rewrite list_elem_of_bind. unfold table_pages. split.
  - intros (j & Hb & Hj). destruct (tabs !! j) as [pt|] eqn:Et; [|by apply not_elem_of_nil in Hb].
    apply elem_of_app in Hb as [Hb|Hb%list_elem_of_singleton]; [right|left; eauto].
    apply elem_of_frames in Hb as (vp & p & _ & ? & ?). eauto.
  - intros [(i & pt & Et & ->)|(vp & p & HA & ->)].
    + destruct (po_table _ _ _ Hp i pt Et) as (Hi & _). exists i. rewrite Et. split; [|apply elem_of_seqZ; lia].
      apply elem_of_app. right. by apply list_elem_of_singleton.
    + destruct (sp_dom _ _ _ _ Hs _ _ HA) as [Hv _]. exists (vp / 1024). destruct (index_bounds vp Hv) as [Hi Hk].
      split; [|apply elem_of_seqZ; lia]. pose proof (sp_map _ _ _ _ Hs _ Hv) as Hm. rewrite HA in Hm. unfold pte_at in Hm.
      destruct (tabs !! (vp / 1024)); [|done]. apply elem_of_app. left. apply elem_of_frames. exists vp, p.
      split; [|done]. apply elem_of_seqZ. Z.to_euclidean_division_equations. lia.
Qed.

Lemma destroy_run : ∃ s', pagedir_destroy pd s = Ok (tt, s') ∧ pools_ok (phys s') ∧
  ∀ u b, allocated u (phys s') b ↔ allocated u (phys s) b ∧ b ≠ pd ∧
    (∀ i pt, tabs !! i = Some pt → b ≠ pt) ∧ (∀ vp p, A !! vp = Some p → b ≠ mp_kpage p).
Proof.
  pose proof (sp_ok _ _ _ _ Hs) as Hp. pose proof Hp as [Hpo _ Hba Hpdal Htab Hno Hinj].
  destruct (allocated_page _ pd Hpo Hba _ Hpdal) as [[_ Hk] _]. unfold pagedir_destroy.
  rewrite (proj2 (Z.eqb_neq pd NULL)) by (unfold NULL, PHYS_BASE in *; lia). erewrite (bind_Ok (gets _)) by done.
  rewrite (proj2 (Z.eqb_neq pd _)) by apply Hs. rewrite (bind_Ok (ASSERT _) _ s tt s) by done.
  assert (∃ c, c = Z.to_nat (pd_no PHYS_BASE) ∧ Z.of_nat c = 768) as (c & Ec & Hc) by (by eexists). rewrite <-Ec.
  assert (without s ∅ s) as Hw0.
  { split; try done. intros u b. split; [|tauto]. intros ?. split; [done|apply not_elem_of_empty]. }
  destruct (destroy_loop_run c 0 ∅ s Hw0) as (s2 & E2 & Hw2);
    [lia|lia|apply not_elem_of_empty|intros; apply not_elem_of_empty|intros; apply not_elem_of_empty|].
  rewrite Z.mul_0_r, Z.add_0_r in E2. rewrite (bind_Ok _ _ _ _ _ E2). rewrite union_empty_l_L, Hc in Hw2.
  destruct (free_page_run s _ s2 false pd Hpo Hba Hw2 Hpdal) as (s3 & E3 & Hw3).
  { rewrite elem_of_list_to_set, table_pages_all. intros [(i & pt & Et & E)|(vp & p & HA & E)]; [|by apply (Hpd vp p)].
    by destruct (Htab i pt Et) as (_ & _ & ? & _). }
  exists s3. split; [done|]. split; [apply Hw3|]. intros u b. rewrite (wo_alloc _ _ _ Hw3).
  rewrite elem_of_union, elem_of_singleton, elem_of_list_to_set, table_pages_all. split.
  - intros [Hb Hn]. split; [done|]. split; [tauto|]. split; [intros i pt Hi ->|intros vp p HA ->]; apply Hn; left; eauto.
  - intros (Hb & Hne & Ht & Hv). split; [done|]. intros [[(i & pt & Hi & ->)|(vp & p & HA & ->)]| ->]; [|by apply (Hv vp p)|done].
    by apply (Ht i pt).
Qed.
End Destroy.

(** [pagedir_destroy] gives back exactly the pages of the process: the directory,
    its page tables and the frames it maps, each once; every other page stays in use. *)
Theorem pagedir_destroy_correct s pd tabs A : space s pd tabs A →
  (∀ vp p, A !! vp = Some p → ∃ u, allocated u (phys s) (mp_kpage p)) →
  (∀ vp vp' p p', A !! vp = Some p → A !! vp' = Some p' → mp_kpage p = mp_kpage p' → vp = vp') →
  (∀ vp p, A !! vp = Some p → mp_kpage p ≠ pd) →
  (∀ vp p i pt, A !! vp = Some p → tabs !! i = Some pt → mp_kpage p ≠ pt) →
  ∃ s', pagedir_destroy pd s = Ok (tt, s') ∧ pools_ok (phys s') ∧
    ∀ u b, allocated u (phys s') b ↔ allocated u (phys s) b ∧ b ≠ pd ∧
      (∀ i pt, tabs !! i = Some pt → b ≠ pt) ∧ (∀ vp p, A !! vp = Some p → b ≠ mp_kpage p).
Proof. apply destroy_run. Qed.

(** ** Examples *)

(** Eight kernel and four user pages; the first of the kernel's is the base directory. *)
Definition sample_vm : vm :=
  mk_vm (mk_pools (mk_pool (mk_bitmap 8 [1]) 0xc0102000) (mk_pool (mk_bitmap 4 [0]) 0xc010a000) (λ _, 0)) 0xc0102000 0 ∅.

Lemma sample_base_ok : base_ok sample_vm.
Proof.
  split; simpl; try done; try lia.
  - split; [split|split|]; simpl; try lia; try done;
      (split; [simpl; lia|done|repeat constructor; unfold in_u; lia]).
  - exists 0. split; [simpl; lia|]. split; reflexivity.
Qed.

(** The base directory stays one when a directory is created. *)
Lemma create_base s pd s' : base_ok s → space s' pd ∅ ∅ → cr3 s' = cr3 s → init_page_dir s' = init_page_dir s →
  (∀ u b, allocated u (phys s) b → allocated u (phys s') b ∧ ∀ x, b ≤ x < b + 4096 → ram (phys s') x = ram (phys s) x) →
  base_ok s'.
Proof.
  intros [Hpo Hby Hba Hdir Hu Hc] [[Hpo' Hby' Hba' _ _ _ _] _ _ _ _] Er Ei Hk. destruct (Hk false _ Hdir) as [Hd' Hr].
  split; try done; rewrite ?Ei, ?Er; try done. intros i Hi. rewrite <-(Hu i Hi). apply word_at_ext. intros x Hx. apply Hr. lia.
Qed.

Lemma sample_space : ∃ s pd, base_ok s ∧ space s pd ∅ ∅ ∧ tlb s = ∅ ∧
  palloc_get_page 0 (phys s) ≠ Ok (NULL, phys s).
Proof.
  pose proof sample_base_ok as Hb.
  destruct (create_run sample_vm Hb) as [[E _]|(pd & s & E & Hs & _ & _ & Hk & Er & Ei & Et & _)].
  - apply (f_equal (λ o, match o with Ok (p, _) => p | _ => 1 end)) in E. vm_compute in E. discriminate E.
  - exists s, pd. split; [by apply (create_base sample_vm pd s)|]. split; [done|]. split; [by rewrite Et|].
    intros E'. assert (phys s = match pagedir_create sample_vm with Ok (_, s) => phys s | _ => phys s end) as Ep by (by rewrite E).
    rewrite Ep in E'. apply (f_equal (λ o, match o with Ok (p, _) => p | _ => 1 end)) in E'. vm_compute in E'. discriminate E'.
Qed.

Lemma pagedir_refines_map_witness :
  ∃ s pd rs s', run_ops 1024 pd [SetPage 0x8048000 0xc010a000 true; GetPage 0x8048123] s = Ok (rs, s') ∧
    ∃ A', effect ∅ [SetPage 0x8048000 0xc010a000 true; GetPage 0x8048123] rs A'.
Proof.
  destruct sample_space as (s & pd & _ & Hs & Ht & _).
  destruct (pagedir_refines_map 1024 pd [SetPage 0x8048000 0xc010a000 true; GetPage 0x8048123] s ∅ ∅ Hs)
    as (rs & s' & tabs' & A' & E & He & _).
  - intros _ vp w _ Hw. rewrite Ht in Hw. discriminate Hw.
  - split; [|intros r A' _; split; [split; [lia|reflexivity]|intros; exact I]].
    split; [split; [lia|reflexivity]|]. split; [reflexivity|]. split; [split; [reflexivity|unfold PHYS_BASE; lia]|].
    split; reflexivity.
  - exists s, pd, rs, s'. split; [exact E|]. exists A'. exact He.
Defined.

Lemma pagedir_isolated_witness :
  ∃ s pd1 pd2 r s' tabs, run_op 1024 pd1 (SetPage 0x8048000 0xc010a000 true) s = Ok (r, s') ∧ space s' pd2 ∅ ∅ ∧
    separate pd1 tabs pd2 ∅.
Proof.
  destruct sample_space as (s & pd1 & Hb & Hs1 & Ht & Hok).
  destruct (create_run s Hb) as [[_ E]|(pd2 & s2 & _ & Hs2 & Hnew & _ & Hk & Er & Ei & Et & Hsm & _)].
  - exfalso. exact (Hok E).
  - assert (space s2 pd1 ∅ ∅) as Hs1'.
    { pose proof (sp_ok _ _ _ _ Hs2) as Hp2. pose proof (sp_ok _ _ _ _ Hs1) as Hp1.
      apply (space_kept s s2); try done; try apply Hp2; [apply (Hsm false)|]. intros b [->|[i Hi]]; [apply Hk, Hp1|done]. }
    assert (pd1 ≠ pd2) as Hne by (intros ->; apply Hnew, Hs1).
    destruct (pagedir_isolated 1024 s2 pd1 ∅ ∅ pd2 ∅ ∅ (SetPage 0x8048000 0xc010a000 true) Hs1')
      as (r & s' & tabs' & A' & E' & _ & _ & Hs' & Hsep & _).
    + intros _ vp w _ Hw. rewrite Et, Ht in Hw. discriminate Hw.
    + split; [split; [lia|reflexivity]|]. split; [reflexivity|]. split; [split; [reflexivity|unfold PHYS_BASE; lia]|].
      split; reflexivity.
    + exact Hs2.
    + split; [exact Hne|]. split; [|split]; intros; discriminate.
    + exists s2, pd1, pd2, r, s', tabs'. exact (conj E' (conj Hs' Hsep)).
Defined.

Lemma pagedir_destroy_correct_witness :
  ∃ s pd s', pagedir_destroy pd s = Ok (tt, s') ∧ pools_ok (phys s') ∧ ¬ allocated false (phys s') pd.
Proof.
  destruct sample_space as (s & pd & _ & Hs & _ & _).
  destruct (pagedir_destroy_correct s pd ∅ ∅ Hs) as (s' & E & Hp & Ha); try (intros; discriminate).
  exists s, pd, s'. split; [exact E|]. split; [exact Hp|]. intros H. apply Ha in H as (_ & H & _). by apply H.
Defined.
