(* ===== verification/Paging.v ===== *)
(** * The kernel's page tables ([paging_init] of threads/init.c)

    The base page directory maps all of physical memory at [PHYS_BASE], the kernel's
    code read-only, and no user page: what [pagedir_create] starts from. *)

From S2P Require Import Prelude Bitmap FsState Palloc Pagedir PagedirSpec PagedirLife.

Section Paging.
Context (_start _end_kernel_text : Z).

(** The entry that maps the physical page [p]. *)
Definition maps_page (p w : Z) : Prop :=
  let va := PHYS_BASE + 4096 * p in
  decode w = Some (mk_mapping va (negb ((_start <=? va) && (va <? _end_kernel_text))) false false) ∧ Z.testbit w 2 = false.

(** The first [n] pages are mapped, in the tables [T]. *)
Record paged (s : vm) (pd : Z) (T : list Z) (n : Z) : Prop := {
  pg_pools : pools_ok (phys s);
  pg_bytes : bytes_ok (ram (phys s));
  pg_base : PHYS_BASE ≤ base (kernel_pool (phys s));
  pg_alloc b : allocated false (phys s) b ↔ b ∈ pd :: T;
  pg_nodup : NoDup (pd :: T);
  pg_len : n ≤ 1024 * Z.of_nat (length T) ≤ n + 1024;
  pg_pde j pt : T !! j = Some pt →
    Z.testbit (word_at (ram (phys s)) (pd + 4 * (768 + Z.of_nat j))) 0 = true ∧
    Z.land (word_at (ram (phys s)) (pd + 4 * (768 + Z.of_nat j))) PTE_ADDR + PHYS_BASE = pt;
  pg_zero i : 0 ≤ i < 1024 → ¬ 768 ≤ i < 768 + Z.of_nat (length T) → word_at (ram (phys s)) (pd + 4 * i) = 0;
  pg_pte p pt : 0 ≤ p < n → T !! Z.to_nat (p / 1024) = Some pt →
    maps_page p (word_at (ram (phys s)) (pt + 4 * (p `mod` 1024))) }.

(** One page is free as long as fewer are in use than the pool has. *)
Lemma get_page_succeeds p L flags : pools_ok p → (∀ b, allocated false p b → b ∈ L) →
  Z.of_nat (length L) < bit_cnt (used_map (kernel_pool p)) →
  has_flag flags PAL_USER = false → has_flag flags PAL_ZERO = true →
  ∃ a p', palloc_get_page flags p = Ok (a, p') ∧ a ≠ NULL ∧ fresh_page p a p'.
Proof.
  intros Hp HL Hlt Hu Hz. destruct (get_zero_page p flags Hp Hu Hz) as [|[Hall _]]; [done|]. exfalso.
  set (n := bit_cnt _) in *.
  assert (length (page (kernel_pool p) <$> seqZ 0 n) ≤ length L)%nat as Hle.
  { apply submseteq_length, NoDup_submseteq.
    - apply NoDup_fmap_2_strong; [|apply NoDup_seqZ]. intros x y _ _. unfold page. lia.
    - intros b (i & -> & Hi%elem_of_seqZ)%list_elem_of_fmap. apply HL, Hall. lia. }
  rewrite length_fmap, length_seqZ in Hle. lia.
Qed.

(** The pages of the tables. *)
Lemma paged_page s pd T n b : paged s pd T n → b ∈ pd :: T → kernel_page b.
Proof.
  intros Hg Hb. apply (allocated_page (phys s) b (pg_pools _ _ _ _ Hg) (pg_base _ _ _ _ Hg) false). by apply Hg.
Qed.

Lemma paged_apart s pd T n j pt : paged s pd T n → T !! j = Some pt → pt ≠ pd.
Proof.
  intros Hg Hj ->. pose proof (pg_nodup _ _ _ _ Hg) as Hn. apply list.NoDup_cons in Hn as [Hn _].
  apply Hn. by eapply list_elem_of_lookup_2.
Qed.

(** A page gets its entry. *)
Lemma paged_store s pd T n pt w : paged s pd T n → 0 ≤ n < 2 ^ 18 → T !! Z.to_nat (n / 1024) = Some pt →
  in_u 32 w → maps_page n w →
  paged (with_ram (store_word (ram (phys s)) (pt + 4 * (n `mod` 1024)) w) s) pd T (n + 1).
Proof.
  intros Hg Hn Hpt Hw Hm. pose proof Hg as [Hpo Hby Hba Hal Hnd Hlen Hpde Hz Hpte].
  assert (0 ≤ n `mod` 1024 < 1024) as Hk by (by apply Z.mod_pos_bound).
  pose proof (paged_apart _ _ _ _ _ _ Hg Hpt) as Hne.
  assert (∀ b, b ∈ pd :: T → b `mod` 4096 = 0) as Hal4 by (intros b Hb; apply (paged_page _ _ _ _ b Hg Hb)).
  assert (pt `mod` 4096 = 0) as Hpa by (apply Hal4; right; by eapply list_elem_of_lookup_2).
  set (m := store_word _ _ _).
  assert (∀ b j, b ∈ pd :: T → b ≠ pt → 0 ≤ j < 1024 → word_at m (b + 4 * j) = word_at (ram (phys s)) (b + 4 * j)) as Hother.
  { intros b j Hb Hbp Hj. apply word_at_ext. intros x Hx. apply store_word_other. intros Hin. apply Hbp.
    apply (page_overlap b pt x); [by apply Hal4|done|lia|lia]. }
  assert (Z.to_nat (n / 1024) < length T)%nat as Hlt by (by eapply lookup_lt_Some).
  assert (Z.of_nat (length T) ≤ 256) as Hmax by lia.
  split; try done.
  - by apply set_ram_ok.
  - by apply store_word_ok.
  - pose proof (Z.div_mod n 1024). lia.
  - intros j pt' Hj. simpl. rewrite Hother; [by apply Hpde|set_solver|done|]. apply lookup_lt_Some in Hj. lia.
  - intros i Hi Hout. simpl. rewrite Hother; [by apply Hz|set_solver|done|done].
  - intros p pt' Hp Hp'. simpl. destruct (decide (p = n)) as [->|Hpn].
    + assert (pt' = pt) as -> by congruence. unfold m. by rewrite word_at_same.
    + assert (0 ≤ p `mod` 1024 < 1024) by (by apply Z.mod_pos_bound). destruct (decide (pt' = pt)) as [->|Hpp].
      * unfold m. rewrite word_at_other; [apply Hpte; [lia|done]|].
        assert (Z.to_nat (p / 1024) = Z.to_nat (n / 1024)) as Ei.
        { apply list.NoDup_cons in Hnd as [_ Hnd]. by eapply NoDup_lookup. }
        assert (p / 1024 = n / 1024) by (Z.to_euclidean_division_equations; lia).
        assert (p `mod` 1024 ≠ n `mod` 1024) by (intros ?; by apply Hpn, index_inj). lia.
      * rewrite Hother; [apply Hpte; [lia|done]| |done|done]. right. by eapply list_elem_of_lookup_2.
Qed.

(** The directory gets the table of the next 1024 pages. *)
Lemma paged_table s pd T pt q e : paged s pd T (1024 * Z.of_nat (length T)) → Z.of_nat (length T) < 256 →
  fresh_page (phys s) pt q → in_u 32 e → Z.testbit e 0 = true → Z.land e PTE_ADDR + PHYS_BASE = pt →
  paged (set_phys (set_ram (store_word (ram q) (pd + 4 * (768 + Z.of_nat (length T))) e) q) s) pd (T ++ [pt])
    (1024 * Z.of_nat (length T)).
Proof.
  intros Hg Hlen Hf Heu He Hept. pose proof Hg as [Hpo Hby Hba Hal Hnd _ Hpde Hz Hpte]. pose proof Hf as [Hq Hqb _ Hnew Hqal Hqz Hqr].
  assert (pt ∉ pd :: T) as Hout by (intros ?; apply Hnew; by apply Hal).
  assert (∀ b, allocated false q b ↔ b ∈ pd :: T ++ [pt]) as Hal'.
  { intros b. rewrite Hqal, Hal. rewrite !elem_of_cons, elem_of_app, list_elem_of_singleton. naive_solver. }
  assert (kernel_page pt) as [Hpa _].
  { apply (allocated_page q pt Hq) with false; [by rewrite Hqb|]. apply Hal'. set_solver. }
  assert (∀ b, b ∈ pd :: T → b `mod` 4096 = 0) as Hal4 by (intros b Hb; apply (paged_page _ _ _ _ b Hg Hb)).
  assert (pd `mod` 4096 = 0) as Hda by (apply Hal4; by left).
  set (a := pd + 4 * (768 + Z.of_nat (length T))). set (m := store_word (ram q) a e).
  assert (∀ b x, b ∈ pd :: T → b ≤ x < b + 4096 → ram q x = ram (phys s) x) as Hsame.
  { intros b x Hb Hx. apply Hqr. intros Hin. apply Hout. replace pt with b; [done|].
    apply (page_overlap b pt x); try done. by apply Hal4. }
  assert (∀ b j, b ∈ pd :: T → (b = pd → j ≠ 768 + Z.of_nat (length T)) → 0 ≤ j < 1024 →
    word_at m (b + 4 * j) = word_at (ram (phys s)) (b + 4 * j)) as Hother.
  { intros b j Hb Hbj Hj. apply word_at_ext. intros x Hx. unfold m. rewrite store_word_other; [by apply (Hsame b); [done|lia]|].
    intros Hin. assert (b = pd) as -> by (apply (page_overlap b pd x); [by apply Hal4|done|lia|unfold a in Hin; lia]).
    specialize (Hbj eq_refl). unfold a in Hin. lia. }
  split; simpl.
  - by apply set_ram_ok.
  - intros x. apply (store_word_ok (ram q)). intros y.
    destruct (decide (pt ≤ y < pt + 4096)); [rewrite Hqz by done; lia|rewrite Hqr by done; apply Hby].
  - by rewrite Hqb.
  - intros b. rewrite allocated_ram. apply Hal'.
  - rewrite app_comm_cons. apply list.NoDup_app. split; [done|]. split; [set_solver|apply NoDup_singleton].
  - rewrite length_app. simpl. lia.
  - intros j pt' [Hj|[Hj Ept]]%lookup_app_Some.
    + rewrite Hother; [by apply Hpde|by left| |]; apply lookup_lt_Some in Hj; lia.
    + apply list_lookup_singleton_Some in Ept as [Ej <-]. assert (j = length T) as -> by lia. fold a. unfold m.
      by rewrite word_at_same.
  - intros i Hi Hi'. rewrite length_app in Hi'. simpl in Hi'. rewrite Hother; [apply Hz; lia|by left|lia|done].
  - intros p pt' Hp Hp'. assert (Z.to_nat (p / 1024) < length T)%nat by (Z.to_euclidean_division_equations; lia).
    rewrite lookup_app_l in Hp' by done. assert (0 ≤ p `mod` 1024 < 1024) by (by apply Z.mod_pos_bound).
    rewrite Hother; [by apply Hpte|right; by eapply list_elem_of_lookup_2| |done].
    intros ->. by destruct (paged_apart _ _ _ _ _ _ Hg Hp').
Qed.

(** The address of a physical page, and its indices. *)
Lemma page_vaddr n : 0 ≤ n < 2 ^ 18 →
  ptov (u32 (n * PGSIZE)) = Ok (PHYS_BASE + 4096 * n) ∧ pd_no (PHYS_BASE + 4096 * n) = 768 + n / 1024 ∧
  pt_no (PHYS_BASE + 4096 * n) = n `mod` 1024 ∧ kernel_page (PHYS_BASE + 4096 * n).
Proof.
  intros Hn. change PGSIZE with 4096. split_and!.
  - unfold ptov. rewrite (uwrap_id 32 (n * 4096)) by (unfold in_u; lia).
    rewrite (proj2 (Z.ltb_lt _ _)) by (unfold PHYS_BASE; lia). cbn [assert_ok obind].
    rewrite uwrap_id by (unfold in_u, PHYS_BASE; lia). f_equal. lia.
  - rewrite pd_no_div. unfold PHYS_BASE. Z.to_euclidean_division_equations. lia.
  - rewrite pt_no_mod. unfold PHYS_BASE. Z.to_euclidean_division_equations. lia.
  - split; [|unfold PHYS_BASE; lia]. unfold PHYS_BASE. Z.to_euclidean_division_equations. lia.
Qed.

Lemma paging_loop_run pd cnt : ∀ n pt s T, paged s pd T n → 0 ≤ n → n + Z.of_nat cnt ≤ 2 ^ 18 →
  1 + (n + Z.of_nat cnt + 1023) / 1024 ≤ bit_cnt (used_map (kernel_pool (phys s))) →
  (Z.of_nat (length T) = n / 1024 + 1 → T !! Z.to_nat (n / 1024) = Some pt) →
  ∃ s' T', paging_loop _start _end_kernel_text cnt n pd pt s = Ok (tt, s') ∧ paged s' pd T' (n + Z.of_nat cnt) ∧
    s' = set_phys (phys s') s.
Proof.
  induction cnt as [|cnt IH]; intros n pt s T Hg Hn Hmax Hroom Hpt; cbn [paging_loop].
  { exists s, T. rewrite Z.add_0_r. split; [done|]. split; [done|]. by rewrite set_phys_id. }
  destruct (page_vaddr n ltac:(lia)) as (Ev & Ed & Et & Hk).
  rewrite (bind_Ok (lift _) _ s (PHYS_BASE + 4096 * n) s) by (unfold lift; by rewrite Ev). rewrite Ed, Et.
  set (va := PHYS_BASE + 4096 * n) in *. erewrite (bind_Ok (load32 _)) by done.
  assert (∃ pt1 s1 T1, (if word_at (ram (phys s)) (pd + 4 * (768 + n / 1024)) =? 0 then
             let! pt := get_page (Z.lor PAL_ASSERT PAL_ZERO) in let! e := lift (pde_create pt) in
             let! _ := store32 (pd + 4 * (768 + n / 1024)) e in ret pt else ret pt) s = Ok (pt1, s1) ∧
    paged s1 pd T1 n ∧ T1 !! Z.to_nat (n / 1024) = Some pt1 ∧ s1 = set_phys (phys s1) s ∧ Z.of_nat (length T1) = n / 1024 + 1 ∧
    bit_cnt (used_map (kernel_pool (phys s1))) = bit_cnt (used_map (kernel_pool (phys s)))) as (pt1 & s1 & T1 & E1 & Hg1 & Hpt1 & Hr1 & Hl1 & Hc1).
  { pose proof (pg_len _ _ _ _ Hg) as Hlen. destruct (decide (Z.of_nat (length T) = n / 1024 + 1)) as [Hl|Hl].
    - exists pt, s, T. destruct (pg_pde _ _ _ _ Hg _ _ (Hpt Hl)) as [Hb _]. rewrite Z2Nat.id in Hb by (apply Z.div_pos; lia).
      rewrite (proj2 (Z.eqb_neq _ 0)) by (intros E; by rewrite E in Hb). split_and!; try done; [by apply Hpt|by rewrite set_phys_id].
    - assert (n = 1024 * Z.of_nat (length T) ∧ n / 1024 = Z.of_nat (length T)) as [En Ei]
        by (Z.to_euclidean_division_equations; lia).
      rewrite (pg_zero _ _ _ _ Hg) by lia. cbn [Z.eqb].
      destruct (get_page_succeeds (phys s) (pd :: T) (Z.lor PAL_ASSERT PAL_ZERO)) as (a & q & Ea & Ha & Hf); try done.
      { apply Hg. } { intros b. apply Hg. } { simpl. Z.to_euclidean_division_equations. lia. }
      assert (kernel_page a) as Hka.
      { pose proof Hf as [Hq Hqb _ _ Hqal _ _]. apply (allocated_page q a Hq) with false; [rewrite Hqb; apply Hg|]. apply Hqal. by right. }
      destruct (pde_create_run a Hka) as (e & Ee & Heu & He & Hea).
      rewrite (bind_Ok (get_page _) _ s a (set_phys q s)) by (unfold get_page; by rewrite Ea).
      rewrite (bind_Ok (lift _) _ _ e (set_phys q s)) by (unfold lift; by rewrite Ee). erewrite (bind_Ok (store32 _ _)) by done.
      exists a. eexists. exists (T ++ [a]). split; [done|]. rewrite Ei, Nat2Z.id. split_and!.
      + rewrite En in Hg |- *. apply (paged_table s pd T a q e Hg); try done. lia.
      + by rewrite lookup_app_r, Nat.sub_diag.
      + done.
      + rewrite length_app. simpl. lia.
      + apply Hf. }
  rewrite (bind_Ok _ _ _ _ _ E1).
  destruct (pte_create_kernel_run va (negb ((_start <=? va) && (va <? _end_kernel_text))) Hk) as (w & Ew & Hwu & _ & Hwd & Hw2).
  rewrite (bind_Ok (lift _) _ s1 w s1) by (unfold lift; by rewrite Ew). erewrite (bind_Ok (store32 _ _)) by done.
  pose proof (paged_store s1 pd T1 n pt1 w Hg1 ltac:(lia) Hpt1 Hwu (conj Hwd Hw2)) as Hg2.
  destruct (IH (n + 1) pt1 _ T1 Hg2) as (s' & T' & E' & Hg' & Hr'); try lia.
  { simpl. rewrite Hc1. replace (n + 1 + Z.of_nat cnt) with (n + Z.of_nat (S cnt)) by lia. done. }
  { intros Hl. assert ((n + 1) / 1024 = n / 1024) as -> by lia. done. }
  exists s', T'. split; [done|]. split; [by replace (n + Z.of_nat (S cnt)) with (n + 1 + Z.of_nat cnt) by lia|].
  rewrite Hr' at 1. rewrite Hr1. done.
Qed.

(** The processor's walk of the tables. *)
Definition walk (m : memory) (pd va : Z) : option mapping :=
  let pde := word_at m (pd + 4 * pd_no va) in
  if Z.testbit pde 0 then decode (word_at m (Z.land pde PTE_ADDR + PHYS_BASE + 4 * pt_no va)) else None.

(** When the kernel pool is empty and has room for the tables, [paging_init] builds
    a directory that maps every page of physical memory at [PHYS_BASE], read-only
    exactly where the kernel's code is, and nothing below, activates it, and leaves what
    [pagedir_create] needs. *)
Theorem paging_init_correct s n : pools_ok (phys s) → bytes_ok (ram (phys s)) → PHYS_BASE ≤ base (kernel_pool (phys s)) →
  (∀ b, ¬ allocated false (phys s) b) → 0 ≤ n ≤ 2 ^ 18 →
  2 + (n + 1023) / 1024 ≤ bit_cnt (used_map (kernel_pool (phys s))) →
  ∃ s', paging_init _start _end_kernel_text n s = Ok (tt, s') ∧ base_ok s' ∧
    cr3 s' = init_page_dir s' - PHYS_BASE ∧ tlb s' = ∅ ∧
    (∀ p, 0 ≤ p < n → let va := PHYS_BASE + 4096 * p in
       walk (ram (phys s')) (init_page_dir s') va =
         Some (mk_mapping va (negb ((_start <=? va) && (va <? _end_kernel_text))) false false)) ∧
    (∀ va, 0 ≤ va < PHYS_BASE → walk (ram (phys s')) (init_page_dir s') va = None).
Proof.
  intros Hpo Hby Hba Hempty Hn Hroom. unfold paging_init.
  destruct (get_page_succeeds (phys s) [] (Z.lor PAL_ASSERT PAL_ZERO)) as (pd & q & E & HN & Hf); try done.
  { intros b Hb. by destruct (Hempty b). } { simpl. Z.to_euclidean_division_equations. lia. }
  rewrite (bind_Ok (get_page _) _ s pd (set_phys q s)) by (unfold get_page; by rewrite E).
  erewrite (bind_Ok (modify _)) by done. simpl. set (s1 := mk_vm q pd (cr3 s) (tlb s)).
  pose proof Hf as [Hq Hqb Hqc Hnew Hqal Hqz Hqr].
  assert (paged s1 pd [] 0) as Hg.
  { split; simpl; [done| | | | |lia|done| |intros; lia].
    - intros x. destruct (decide (pd ≤ x < pd + 4096)); [rewrite (Hqz x) by done; lia|rewrite (Hqr x) by done; apply Hby].
    - by rewrite Hqb.
    - intros b. rewrite Hqal, list_elem_of_singleton. split; [intros [Hb|[_ ->]]; [by destruct (Hempty b)|done]|by right].
    - apply NoDup_singleton.
    - intros i Hi _. unfold word_at. by rewrite !Hqz by lia. }
  destruct (paging_loop_run pd (Z.to_nat n) 0 NULL s1 [] Hg) as (s2 & T & E2 & Hg2 & Hr2); [lia|lia| |done|].
  { cbn [phys s1]. rewrite Hqc, Z2Nat.id, Z.add_0_l by lia. lia. }
  rewrite (bind_Ok _ _ _ _ _ E2). rewrite Z2Nat.id, Z.add_0_l in Hg2 by lia.
  assert (kernel_page pd) as Hkd by (apply (paged_page _ _ _ _ pd Hg2); by left). destruct (kernel_page_phys pd Hkd) as (Ev & _ & _).
  rewrite (bind_Ok (lift _) _ s2 (pd - PHYS_BASE) s2) by (unfold lift; by rewrite Ev).
  eexists. split; [done|]. pose proof Hg2 as [Hpo2 Hby2 Hba2 Hal2 Hnd2 Hlen2 Hpde2 Hz2 Hpte2].
  assert (init_page_dir s2 = pd) as Ei by (by rewrite Hr2). destruct Hkd as [_ Hkd].
  assert (∀ i, 0 ≤ i < 768 → word_at (ram (phys s2)) (pd + 4 * i) = 0) as Huser by (intros i Hi; apply Hz2; lia).
  simpl. rewrite Ei. split_and!; try done.
  - split; simpl; rewrite ?Ei; try done; [apply Hal2; by left|unfold PHYS_BASE in *; lia].
  - intros p Hp. destruct (page_vaddr p ltac:(lia)) as (_ & Ed & Et & _). unfold walk. rewrite Ed, Et.
    destruct (lookup_lt_is_Some_2 T (Z.to_nat (p / 1024))) as [pt Hpt]; [Z.to_euclidean_division_equations; lia|].
    destruct (Hpde2 _ _ Hpt) as [Hb Ha]. rewrite Z2Nat.id in Hb, Ha by (apply Z.div_pos; lia). rewrite Hb, Ha.
    by apply (Hpte2 p pt).
  - intros va Hva. unfold walk. rewrite pd_no_div, Huser; [done|]. unfold PHYS_BASE in *. Z.to_euclidean_division_equations. lia.
Qed.
End Paging.

(** Four megabytes of memory, the kernel's code in their second half megabyte. *)
Lemma paging_init_correct_witness :
  let s := mk_vm (mk_pools (mk_pool (mk_bitmap 8 [0]) 0xc0102000) (mk_pool (mk_bitmap 4 [0]) 0xc010a000) (λ _, 0)) 0 0 ∅ in
  ∃ s', paging_init 0xc0080000 0xc0100000 1024 s = Ok (tt, s') ∧ base_ok s' ∧
    walk (ram (phys s')) (init_page_dir s') 0xc0080000 = Some (mk_mapping 0xc0080000 false false false) ∧
    walk (ram (phys s')) (init_page_dir s') 0x8048000 = None.
Proof.
  intros s. destruct (paging_init_correct 0xc0080000 0xc0100000 s 1024) as (s' & E & Hb & _ & _ & Hk & Hu).
  - split; [split|split|]; simpl; try lia; try done;
      (split; [simpl; lia|done|repeat constructor; unfold in_u; lia]).
  - intros x. simpl. lia.
  - simpl. unfold PHYS_BASE. lia.
  - intros b (i & Hi & -> & H). simpl in Hi. assert (i = 0 ∨ i = 1 ∨ i = 2 ∨ i = 3 ∨ i = 4 ∨ i = 5 ∨ i = 6 ∨ i = 7) as Hc by lia.
    repeat destruct Hc as [-> | Hc]; try subst; vm_compute in H; discriminate H.
  - lia.
  - vm_compute. discriminate.
  - exists s'. split; [exact E|]. split; [exact Hb|]. split; [exact (Hk 128 ltac:(lia))|]. apply Hu. unfold PHYS_BASE. lia.
Defined.
