(* ===== verification/Thread.v ===== *)
(** * Threads, the scheduler and interrupts (threads/thread.c, threads/interrupt.c)

    The state of the kernel's thread system.  A thread is named by the address
    of its page; [running] is the page the stack pointer is in.  The lists of
    list.c that link threads (the run queue, the list of all threads, the
    waiters of a semaphore) are sequences of thread addresses, which is what
    those lists are shown to implement.  [process_exit] and [process_activate],
    which [thread_exit] and the scheduler call for user processes, are not part
    of this state. *)

From S2P Require Import Prelude Bitmap FsState Palloc.

Inductive thread_status := THREAD_RUNNING | THREAD_READY | THREAD_BLOCKED | THREAD_DYING.

#[export] Instance thread_status_eq_dec : EqDecision thread_status.
Proof. solve_decision. Defined.

Definition TID_ERROR : Z := -1.
Definition PRI_MIN : Z := 0.
Definition PRI_DEFAULT : Z := 31.
Definition PRI_MAX : Z := 63.
Definition THREAD_MAGIC : Z := 0xcd6abf4b.
Definition TIME_SLICE : Z := 4.

(** [struct thread]; the list elements inside it are the thread's memberships in
    the sequences of the kernel state. *)
Record thread := mk_thread {
  tid : Z;
  status : thread_status;
  name : list Z;
  stack : Z;
  priority : Z;
  pagedir : Z;
  fd_count : Z;
  open_list : list Z;
  exec_file : Z;
  work_dir : Z;
  magic : Z }.

(** [struct semaphore]. *)
Record semaphore := mk_sema { value : Z; waiters : list Z }.

(** The globals of thread.c and interrupt.c, the synchronisation objects by
    address, the ticks of devices/timer.c and the page pools. *)
Record kernel := mk_kernel {
  threads : gmap Z thread;
  all_list : list Z;
  ready_list : list Z;
  running : Z;
  idle_thread : Z;
  initial_thread : Z;
  next_tid : Z;
  thread_ticks : Z;
  idle_ticks : Z;
  kernel_ticks : Z;
  user_ticks : Z;
  intr_level : bool;
  in_external_intr : bool;
  yield_on_return : bool;
  semas : gmap Z semaphore;
  holders : gmap Z Z;
  conds : gmap Z (list Z);
  ticks : Z;
  pages : pools }.

Definition set_threads (v : gmap Z thread) (k : kernel) : kernel :=
  mk_kernel v (all_list k) (ready_list k) (running k) (idle_thread k) (initial_thread k)
    (next_tid k) (thread_ticks k) (idle_ticks k) (kernel_ticks k) (user_ticks k) (intr_level k)
    (in_external_intr k) (yield_on_return k) (semas k) (holders k) (conds k) (ticks k)
    (pages k).
Definition set_all_list (v : list Z) (k : kernel) : kernel :=
  mk_kernel (threads k) v (ready_list k) (running k) (idle_thread k) (initial_thread k)
    (next_tid k) (thread_ticks k) (idle_ticks k) (kernel_ticks k) (user_ticks k) (intr_level k)
    (in_external_intr k) (yield_on_return k) (semas k) (holders k) (conds k) (ticks k)
    (pages k).
Definition set_ready_list (v : list Z) (k : kernel) : kernel :=
  mk_kernel (threads k) (all_list k) v (running k) (idle_thread k) (initial_thread k)
    (next_tid k) (thread_ticks k) (idle_ticks k) (kernel_ticks k) (user_ticks k) (intr_level k)
    (in_external_intr k) (yield_on_return k) (semas k) (holders k) (conds k) (ticks k)
    (pages k).
Definition set_running (v : Z) (k : kernel) : kernel :=
  mk_kernel (threads k) (all_list k) (ready_list k) v (idle_thread k) (initial_thread k)
    (next_tid k) (thread_ticks k) (idle_ticks k) (kernel_ticks k) (user_ticks k) (intr_level k)
    (in_external_intr k) (yield_on_return k) (semas k) (holders k) (conds k) (ticks k)
    (pages k).
Definition set_idle_thread (v : Z) (k : kernel) : kernel :=
  mk_kernel (threads k) (all_list k) (ready_list k) (running k) v (initial_thread k)
    (next_tid k) (thread_ticks k) (idle_ticks k) (kernel_ticks k) (user_ticks k) (intr_level k)
    (in_external_intr k) (yield_on_return k) (semas k) (holders k) (conds k) (ticks k)
    (pages k).
Definition set_initial_thread (v : Z) (k : kernel) : kernel :=
  mk_kernel (threads k) (all_list k) (ready_list k) (running k) (idle_thread k) v (next_tid k)
    (thread_ticks k) (idle_ticks k) (kernel_ticks k) (user_ticks k) (intr_level k)
    (in_external_intr k) (yield_on_return k) (semas k) (holders k) (conds k) (ticks k)
    (pages k).
Definition set_next_tid (v : Z) (k : kernel) : kernel :=
  mk_kernel (threads k) (all_list k) (ready_list k) (running k) (idle_thread k)
    (initial_thread k) v (thread_ticks k) (idle_ticks k) (kernel_ticks k) (user_ticks k)
    (intr_level k) (in_external_intr k) (yield_on_return k) (semas k) (holders k) (conds k)
    (ticks k) (pages k).
Definition set_thread_ticks (v : Z) (k : kernel) : kernel :=
  mk_kernel (threads k) (all_list k) (ready_list k) (running k) (idle_thread k)
    (initial_thread k) (next_tid k) v (idle_ticks k) (kernel_ticks k) (user_ticks k)
    (intr_level k) (in_external_intr k) (yield_on_return k) (semas k) (holders k) (conds k)
    (ticks k) (pages k).
Definition set_idle_ticks (v : Z) (k : kernel) : kernel :=
  mk_kernel (threads k) (all_list k) (ready_list k) (running k) (idle_thread k)
    (initial_thread k) (next_tid k) (thread_ticks k) v (kernel_ticks k) (user_ticks k)
    (intr_level k) (in_external_intr k) (yield_on_return k) (semas k) (holders k) (conds k)
    (ticks k) (pages k).
Definition set_kernel_ticks (v : Z) (k : kernel) : kernel :=
  mk_kernel (threads k) (all_list k) (ready_list k) (running k) (idle_thread k)
    (initial_thread k) (next_tid k) (thread_ticks k) (idle_ticks k) v (user_ticks k)
    (intr_level k) (in_external_intr k) (yield_on_return k) (semas k) (holders k) (conds k)
    (ticks k) (pages k).
Definition set_user_ticks (v : Z) (k : kernel) : kernel :=
  mk_kernel (threads k) (all_list k) (ready_list k) (running k) (idle_thread k)
    (initial_thread k) (next_tid k) (thread_ticks k) (idle_ticks k) (kernel_ticks k) v
    (intr_level k) (in_external_intr k) (yield_on_return k) (semas k) (holders k) (conds k)
    (ticks k) (pages k).
Definition set_intr_level (v : bool) (k : kernel) : kernel :=
  mk_kernel (threads k) (all_list k) (ready_list k) (running k) (idle_thread k)
    (initial_thread k) (next_tid k) (thread_ticks k) (idle_ticks k) (kernel_ticks k)
    (user_ticks k) v (in_external_intr k) (yield_on_return k) (semas k) (holders k) (conds k)
    (ticks k) (pages k).
Definition set_in_external_intr (v : bool) (k : kernel) : kernel :=
  mk_kernel (threads k) (all_list k) (ready_list k) (running k) (idle_thread k)
    (initial_thread k) (next_tid k) (thread_ticks k) (idle_ticks k) (kernel_ticks k)
    (user_ticks k) (intr_level k) v (yield_on_return k) (semas k) (holders k) (conds k)
    (ticks k) (pages k).
Definition set_yield_on_return (v : bool) (k : kernel) : kernel :=
  mk_kernel (threads k) (all_list k) (ready_list k) (running k) (idle_thread k)
    (initial_thread k) (next_tid k) (thread_ticks k) (idle_ticks k) (kernel_ticks k)
    (user_ticks k) (intr_level k) (in_external_intr k) v (semas k) (holders k) (conds k)
    (ticks k) (pages k).
Definition set_semas (v : gmap Z semaphore) (k : kernel) : kernel :=
  mk_kernel (threads k) (all_list k) (ready_list k) (running k) (idle_thread k)
    (initial_thread k) (next_tid k) (thread_ticks k) (idle_ticks k) (kernel_ticks k)
    (user_ticks k) (intr_level k) (in_external_intr k) (yield_on_return k) v (holders k)
    (conds k) (ticks k) (pages k).
Definition set_holders (v : gmap Z Z) (k : kernel) : kernel :=
  mk_kernel (threads k) (all_list k) (ready_list k) (running k) (idle_thread k)
    (initial_thread k) (next_tid k) (thread_ticks k) (idle_ticks k) (kernel_ticks k)
    (user_ticks k) (intr_level k) (in_external_intr k) (yield_on_return k) (semas k) v
    (conds k) (ticks k) (pages k).
Definition set_conds (v : gmap Z (list Z)) (k : kernel) : kernel :=
  mk_kernel (threads k) (all_list k) (ready_list k) (running k) (idle_thread k)
    (initial_thread k) (next_tid k) (thread_ticks k) (idle_ticks k) (kernel_ticks k)
    (user_ticks k) (intr_level k) (in_external_intr k) (yield_on_return k) (semas k)
    (holders k) v (ticks k) (pages k).
Definition set_ticks (v : Z) (k : kernel) : kernel :=
  mk_kernel (threads k) (all_list k) (ready_list k) (running k) (idle_thread k)
    (initial_thread k) (next_tid k) (thread_ticks k) (idle_ticks k) (kernel_ticks k)
    (user_ticks k) (intr_level k) (in_external_intr k) (yield_on_return k) (semas k)
    (holders k) (conds k) v (pages k).
Definition set_pages (v : pools) (k : kernel) : kernel :=
  mk_kernel (threads k) (all_list k) (ready_list k) (running k) (idle_thread k)
    (initial_thread k) (next_tid k) (thread_ticks k) (idle_ticks k) (kernel_ticks k)
    (user_ticks k) (intr_level k) (in_external_intr k) (yield_on_return k) (semas k)
    (holders k) (conds k) (ticks k) v.


Abbreviation K := (M kernel).

(** ** Access to a thread *)

Definition load_thread (t : Z) : K thread := λ k,
  match threads k !! t with Some x => Ok (x, k) | None => Undef end.
Definition store_thread (t : Z) (f : thread → thread) : K unit := λ k,
  match threads k !! t with
  | Some x => Ok (tt, set_threads (<[t := f x]> (threads k)) k)
  | None => Undef
  end.

Definition with_status (s : thread_status) (x : thread) : thread :=
  mk_thread (tid x) s (name x) (stack x) (priority x) (pagedir x) (fd_count x) (open_list x)
    (exec_file x) (work_dir x) (magic x).
Definition with_stack (p : Z) (x : thread) : thread :=
  mk_thread (tid x) (status x) (name x) p (priority x) (pagedir x) (fd_count x) (open_list x)
    (exec_file x) (work_dir x) (magic x).
Definition with_priority (p : Z) (x : thread) : thread :=
  mk_thread (tid x) (status x) (name x) (stack x) p (pagedir x) (fd_count x) (open_list x)
    (exec_file x) (work_dir x) (magic x).
(** The fields [thread_create] sets after [init_thread]. *)
Definition with_process (i : Z) (x : thread) : thread :=
  mk_thread i (status x) (name x) (stack x) (priority x) (pagedir x) 3 [] (exec_file x) NULL (magic x).

Definition set_status (t : Z) (s : thread_status) : K unit := store_thread t (with_status s).

(** ** Interrupts *)

Definition intr_get_level : K bool := gets intr_level.
Definition intr_context : K bool := gets in_external_intr.

(** The level is [true] for [INTR_ON]. *)
Definition intr_enable : K bool :=
  let! old := intr_get_level in
  let! c := intr_context in
  let! _ := ASSERT (negb c) in
  let! _ := modify (set_intr_level true) in
  ret old.
Definition intr_disable : K bool :=
  let! old := intr_get_level in
  let! _ := modify (set_intr_level false) in
  ret old.
Definition intr_set_level (level : bool) : K bool := if level then intr_enable else intr_disable.

Definition intr_yield_on_return : K unit :=
  let! c := intr_context in
  let! _ := ASSERT c in
  modify (set_yield_on_return true).

(** ** Threads *)

Definition running_thread : K Z := gets running.

Definition is_thread (t : Z) : K bool :=
  if t =? NULL then ret false
  else let! x := load_thread t in ret (magic x =? THREAD_MAGIC).

Definition thread_current : K Z :=
  let! t := running_thread in
  let! ok := is_thread t in
  let! _ := ASSERT ok in
  let! x := load_thread t in
  let! _ := ASSERT (bool_decide (status x = THREAD_RUNNING)) in
  ret t.

Definition thread_name : K (list Z) :=
  let! t := thread_current in let! x := load_thread t in ret (name x).
Definition thread_tid : K Z :=
  let! t := thread_current in let! x := load_thread t in ret (tid x).
Definition thread_set_priority (new_priority : Z) : K unit :=
  let! t := thread_current in store_thread t (with_priority new_priority).
Definition thread_get_priority : K Z :=
  let! t := thread_current in let! x := load_thread t in ret (priority x).

(** Page allocation, on the pools of the kernel state. *)
Definition get_page (flags : Z) : K Z := λ k,
  let? '(p, s) := palloc_get_page flags (pages k) in Ok (p, set_pages s k).
Definition free_page (p : Z) : K unit := λ k,
  let? s := palloc_free_page p (pages k) in Ok (tt, set_pages s k).

(** The scheduler. *)
Definition next_thread_to_run : K Z := λ k,
  match ready_list k with
  | [] => Ok (idle_thread k, k)
  | t :: ts => Ok (t, set_ready_list ts k)
  end.

(** A dead thread's [struct thread] goes with its page. *)
Definition thread_schedule_tail (prev : Z) : K unit :=
  let! cur := running_thread in
  let! level := intr_get_level in
  let! _ := ASSERT (negb level) in
  let! _ := set_status cur THREAD_RUNNING in
  let! _ := modify (set_thread_ticks 0) in
  if prev =? NULL then ret tt
  else
    let! x := load_thread prev in
    let! initial := gets initial_thread in
    if bool_decide (status x = THREAD_DYING) && negb (prev =? initial) then
      let! _ := ASSERT (negb (prev =? cur)) in
      let! _ := free_page prev in
      modify (λ k, set_threads (delete prev (threads k)) k)
    else ret tt.

(** [switch_threads] makes [next] the running thread. *)
Definition schedule : K unit :=
  let! cur := running_thread in
  let! next := next_thread_to_run in
  let! level := intr_get_level in
  let! _ := ASSERT (negb level) in
  let! x := load_thread cur in
  let! _ := ASSERT (negb (bool_decide (status x = THREAD_RUNNING))) in
  let! ok := is_thread next in
  let! _ := ASSERT ok in
  if negb (cur =? next) then
    let! _ := modify (set_running next) in
    thread_schedule_tail cur
  else thread_schedule_tail NULL.

Definition thread_block : K unit :=
  let! c := intr_context in
  let! _ := ASSERT (negb c) in
  let! level := intr_get_level in
  let! _ := ASSERT (negb level) in
  let! t := thread_current in
  let! _ := set_status t THREAD_BLOCKED in
  schedule.

Definition thread_unblock (t : Z) : K unit :=
  let! ok := is_thread t in
  let! _ := ASSERT ok in
  let! old := intr_disable in
  let! x := load_thread t in
  let! _ := ASSERT (bool_decide (status x = THREAD_BLOCKED)) in
  let! _ := modify (λ k, set_ready_list (ready_list k ++ [t]) k) in
  let! _ := set_status t THREAD_READY in
  let! _ := intr_set_level old in
  ret tt.

(** [thread_yield] up to the return of [schedule]; the old interrupt level, which
    the thread restores when it runs again, is the result. *)
Definition thread_yield : K bool :=
  let! cur := thread_current in
  let! c := intr_context in
  let! _ := ASSERT (negb c) in
  let! old := intr_disable in
  let! idle := gets idle_thread in
  let! _ := (if negb (cur =? idle) then modify (λ k, set_ready_list (ready_list k ++ [cur]) k)
             else ret tt) in
  let! _ := set_status cur THREAD_READY in
  let! _ := schedule in
  ret old.

(** [thread_exit] after [process_exit]. *)
Definition thread_exit : K unit :=
  let! c := intr_context in
  let! _ := ASSERT (negb c) in
  let! _ := intr_disable in
  let! t := thread_current in
  let! _ := modify (λ k, set_all_list (filter (λ x, x ≠ t) (all_list k)) k) in
  let! t := thread_current in
  let! _ := set_status t THREAD_DYING in
  schedule.

Definition thread_foreach (func : Z → K unit) : K unit :=
  let! level := intr_get_level in
  let! _ := ASSERT (negb level) in
  let! l := gets all_list in
  (fix go l := match l with [] => ret tt | t :: l => let! _ := func t in go l end) l.

(** ** Creation *)

Definition init_thread (t : Z) (nm : list Z) (prio : Z) : K unit :=
  let! _ := ASSERT (negb (t =? NULL)) in
  let! _ := ASSERT ((PRI_MIN <=? prio) && (prio <=? PRI_MAX)) in
  let! _ := modify (λ k, set_threads (<[t := mk_thread 0 THREAD_BLOCKED (take 15 nm) (t + PGSIZE) prio
                                            NULL 0 [] NULL NULL THREAD_MAGIC]> (threads k)) k) in
  let! old := intr_disable in
  let! _ := modify (λ k, set_all_list (all_list k ++ [t]) k) in
  let! _ := intr_set_level old in
  ret tt.

Definition alloc_frame (t size : Z) : K Z :=
  let! ok := is_thread t in
  let! _ := ASSERT ok in
  let! _ := ASSERT (size `mod` 4 =? 0) in
  let! _ := store_thread t (λ x, with_stack (stack x - size) x) in
  let! x := load_thread t in
  ret (stack x).

(** The increment of [next_tid] under [tid_lock]. *)
Definition allocate_tid : K Z :=
  let! i := gets next_tid in
  let! _ := modify (set_next_tid (s32 (i + 1))) in
  ret i.

(** A 32-bit store to memory. *)
Definition store32 (a v : Z) : K unit :=
  modify (λ k, set_pages (set_ram
    (λ x, if (a <=? x) && (x <? a + 4) then Z.shiftr v (8 * (x - a)) `mod` 2 ^ 8
          else ram (pages k) x) (pages k)) k).

Section Create.
(** The addresses of [kernel_thread] and of [switch_entry] in switch.S. *)
Context (kernel_thread switch_entry : Z).

(** The frames a new thread starts from: [kernel_thread_frame],
    [switch_entry_frame] and [switch_threads_frame]. *)
Definition thread_create (nm : list Z) (prio function aux : Z) : K Z :=
  let! _ := ASSERT (negb (function =? NULL)) in
  let! t := get_page PAL_ZERO in
  if t =? NULL then ret TID_ERROR
  else
    let! _ := init_thread t nm prio in
    let! i := allocate_tid in
    let! _ := store_thread t (with_process i) in
    let! kf := alloc_frame t 12 in
    let! _ := store32 kf NULL in
    let! _ := store32 (kf + 4) function in
    let! _ := store32 (kf + 8) aux in
    let! ef := alloc_frame t 4 in
    let! _ := store32 ef kernel_thread in
    let! sf := alloc_frame t 28 in
    let! _ := store32 (sf + 16) switch_entry in
    let! _ := store32 (sf + 8) 0 in
    let! _ := thread_unblock t in
    ret i.
End Create.

(** ** The timer interrupt *)

Definition thread_tick : K unit :=
  let! t := thread_current in
  let! idle := gets idle_thread in
  let! x := load_thread t in
  let! _ := modify (λ k,
    if t =? idle then set_idle_ticks (s64 (idle_ticks k + 1)) k
    else if negb (pagedir x =? NULL) then set_user_ticks (s64 (user_ticks k + 1)) k
    else set_kernel_ticks (s64 (kernel_ticks k + 1)) k) in
  let! _ := modify (λ k, set_thread_ticks (u32 (thread_ticks k + 1)) k) in
  let! n := gets thread_ticks in
  if TIME_SLICE <=? n then intr_yield_on_return else ret tt.

Definition timer_interrupt : K unit :=
  let! _ := modify (λ k, set_ticks (s64 (ticks k + 1)) k) in thread_tick.

(** [intr_handler] for an external interrupt, up to the end of its handler; the
    result says whether it then calls [thread_yield]. *)
Definition intr_handler_ext (handler : K unit) : K bool :=
  let! level := intr_get_level in
  let! _ := ASSERT (negb level) in
  let! c := intr_context in
  let! _ := ASSERT (negb c) in
  let! _ := modify (set_in_external_intr true) in
  let! _ := modify (set_yield_on_return false) in
  let! _ := handler in
  let! level := intr_get_level in
  let! _ := ASSERT (negb level) in
  let! c := intr_context in
  let! _ := ASSERT c in
  let! _ := modify (set_in_external_intr false) in
  gets yield_on_return.

Definition timer_ticks : K Z :=
  let! old := intr_disable in
  let! t := gets ticks in
  let! _ := intr_set_level old in
  ret t.
Definition timer_elapsed (then_ : Z) : K Z := let! t := timer_ticks in ret (s64 (t - then_)).
