(* ===== verification/ThreadSpec.v ===== *)
(** * The scheduler's invariant

    Every thread is in one place: the running thread, the run queue, or asleep.
    The functions of thread.c are shown to run without a failed assertion from a
    state with this invariant, to keep it, and to change the states of the threads
    as they should. *)

From S2P Require Import Prelude Bitmap FsState Palloc Thread.

Definition stat (k : kernel) (t : Z) : option thread_status := status <$> threads k !! t.

(** What holds of the threads at all times. *)
Record threads_ok (k : kernel) : Prop := {
  tk_thread t x : threads k !! t = Some x → t ≠ NULL ∧ magic x = THREAD_MAGIC ∧ t `mod` 4096 = 0;
  tk_nodup : NoDup (ready_list k);
  tk_ready t : t ∈ ready_list k ↔ stat k t = Some THREAD_READY ∧ t ≠ idle_thread k;
  tk_idle : ∃ s, stat k (idle_thread k) = Some s ∧ s ≠ THREAD_DYING;
  tk_pools : pools_ok (pages k);
  tk_pages t : is_Some (threads k !! t) → t ≠ initial_thread k → allocated false (pages k) t;
  tk_initial : page_from_pool (kernel_pool (pages k)) (initial_thread k) = false }.

(** The invariant outside the scheduler: exactly one thread is running, and only
    the initial thread, whose page is not freed, is left behind when it exits. *)
Record sched_ok (k : kernel) : Prop := {
  sk_threads : threads_ok k;
  sk_run t : stat k t = Some THREAD_RUNNING ↔ t = running k;
  sk_dying t : stat k t = Some THREAD_DYING → t = initial_thread k }.

(** The invariant when [schedule] is called: the thread that gives up the processor
    has its new state already. *)
Record switching (k : kernel) : Prop := {
  sw_threads : threads_ok k;
  sw_run t : stat k t ≠ Some THREAD_RUNNING;
  sw_cur : is_Some (stat k (running k));
  sw_dying t : stat k t = Some THREAD_DYING → t = initial_thread k ∨ t = running k;
  sw_idle : stat k (idle_thread k) ≠ Some THREAD_DYING }.

(** The objects threads synchronise on, and the fixed threads, are as before. *)
Record same_objects (k k' : kernel) : Prop := {
  so_semas : semas k' = semas k;
  so_holders : holders k' = holders k;
  so_conds : conds k' = conds k;
  so_idle : idle_thread k' = idle_thread k;
  so_initial : initial_thread k' = initial_thread k;
  so_ext : in_external_intr k' = in_external_intr k }.

#[export] Instance same_objects_preorder : PreOrder same_objects.
Proof.
  split; [done|]. intros k1 k2 k3 [] []. split; congruence.
Qed.

Lemma stat_store k t f x u : threads k !! t = Some x →
  stat (set_threads (<[t := f x]> (threads k)) k) u
  = if bool_decide (u = t) then Some (status (f x)) else stat k u.
Proof.
  intros E. unfold stat. simpl. case_bool_decide as H; [subst; by rewrite lookup_insert_eq|].
  by rewrite lookup_insert_ne.
Qed.

Lemma stat_Some k t s : stat k t = Some s ↔ ∃ x, threads k !! t = Some x ∧ status x = s.
Proof. unfold stat. rewrite fmap_Some. naive_solver. Qed.

(** ** Steps *)

Lemma load_thread_run k t x : threads k !! t = Some x → load_thread t k = Ok (x, k).
Proof. intros E. unfold load_thread. by rewrite E. Qed.

Lemma set_status_run k t x s : threads k !! t = Some x →
  set_status t s k = Ok (tt, set_threads (<[t := with_status s x]> (threads k)) k).
Proof. intros E. unfold set_status, store_thread. by rewrite E. Qed.

Lemma is_thread_run k t x : threads_ok k → threads k !! t = Some x → is_thread t k = Ok (true, k).
Proof.
  intros Hk E. destruct (tk_thread _ Hk _ _ E) as (Hn & Hm & _). unfold is_thread.
  rewrite (proj2 (Z.eqb_neq t NULL)) by done. rewrite (bind_Ok _ _ _ _ _ (load_thread_run _ _ _ E)).
  unfold ret. by rewrite Hm.
Qed.

Lemma thread_current_run k : sched_ok k → thread_current k = Ok (running k, k).
Proof.
  intros Hk. destruct (proj1 (stat_Some k (running k) THREAD_RUNNING)) as (x & E & Hs).
  { by apply sk_run. }
  unfold thread_current, running_thread. rewrite (bind_Ok (gets running) _ k (running k) k) by done.
  rewrite (bind_Ok _ _ _ _ _ (is_thread_run _ _ _ (sk_threads _ Hk) E)).
  rewrite (bind_Ok (ASSERT _) _ k tt k) by done.
  rewrite (bind_Ok _ _ _ _ _ (load_thread_run _ _ _ E)).
  rewrite bool_decide_eq_true_2 by done. done.
Qed.

Lemma intr_set_level_run k level : (level = true → in_external_intr k = false) →
  intr_set_level level k = Ok (intr_level k, set_intr_level level k).
Proof.
  intros Hc. destruct level; [|done].
  unfold intr_set_level, intr_enable, intr_get_level, intr_context, bind, gets. by rewrite Hc.
Qed.

(** Changing what the invariants do not mention. *)
Lemma threads_ok_ext k k' :
  threads k' = threads k → ready_list k' = ready_list k → idle_thread k' = idle_thread k →
  initial_thread k' = initial_thread k → pages k' = pages k → threads_ok k → threads_ok k'.
Proof.
  intros E1 E2 E3 E4 E5 []. split; unfold stat in *; rewrite ?E1, ?E2, ?E3, ?E4, ?E5; try done.
Qed.

Lemma sched_ok_ext k k' :
  threads k' = threads k → ready_list k' = ready_list k → idle_thread k' = idle_thread k →
  initial_thread k' = initial_thread k → pages k' = pages k → running k' = running k →
  sched_ok k → sched_ok k'.
Proof.
  intros E1 E2 E3 E4 E5 E6 [Ht Hr Hd]. split; [by eapply threads_ok_ext| |]; unfold stat in *;
    rewrite ?E1, ?E4, ?E6; done.
Qed.

(** ** The scheduler *)

Definition next_thread (k : kernel) : Z :=
  match ready_list k with [] => idle_thread k | t :: _ => t end.

Lemma next_thread_to_run_run k :
  next_thread_to_run k = Ok (next_thread k, set_ready_list (drop 1 (ready_list k)) k).
Proof. unfold next_thread_to_run, next_thread. destruct k as [? ? [|]]; done. Qed.

Lemma next_thread_stat k : threads_ok k → stat k (idle_thread k) ≠ Some THREAD_DYING →
  ∃ s, stat k (next_thread k) = Some s ∧ s ≠ THREAD_DYING.
Proof.
  intros Hk Hi. unfold next_thread. destruct (ready_list k) as [|t ts] eqn:E.
  - destruct (tk_idle _ Hk) as (s & Hs & _). exists s. split; [done|]. intros ->. done.
  - exists THREAD_READY. split; [|done]. apply (tk_ready _ Hk). rewrite E. set_solver.
Qed.

Lemma ready_rest k t : threads_ok k →
  t ∈ drop 1 (ready_list k) ↔ t ∈ ready_list k ∧ (t ≠ next_thread k ∨ t = idle_thread k).
Proof.
  intros Hk. pose proof (tk_nodup _ Hk) as Hd. unfold next_thread.
  destruct (ready_list k) as [|u us] eqn:E; simpl; [set_solver|]. apply list.NoDup_cons in Hd as [Hu Hd].
  split; [|].
  - intros Ht. split; [set_solver|]. left. intros ->. done.
  - intros [Ht Hor]. assert (t ≠ idle_thread k) by (apply (tk_ready _ Hk); by rewrite E).
    set_solver.
Qed.

(** The state in which the next thread has become the running one. *)
Definition dispatched (k : kernel) (x : thread) : kernel :=
  set_thread_ticks 0
    (set_threads (<[next_thread k := with_status THREAD_RUNNING x]> (threads k))
       (set_running (next_thread k) (set_ready_list (drop 1 (ready_list k)) k))).

Lemma dispatched_stat k x t : threads k !! next_thread k = Some x →
  stat (dispatched k x) t
  = if bool_decide (t = next_thread k) then Some THREAD_RUNNING else stat k t.
Proof. intros E. unfold dispatched. exact (stat_store k _ (with_status THREAD_RUNNING) x t E). Qed.

Lemma dispatched_ok k x : threads_ok k → (∀ t, stat k t ≠ Some THREAD_RUNNING) →
  threads k !! next_thread k = Some x → threads_ok (dispatched k x).
Proof.
  intros Hk Hr E. pose proof (dispatched_stat k x) as Hstat.
  destruct Hk as [Hth Hnd Hrd Hid Hpl Hpg Hin] eqn:Hk0. split; unfold dispatched; simpl.
  - intros t y. rewrite lookup_insert_Some. intros [[<- <-]|[_ Ht]]; [|eauto].
    simpl. eauto.
  - by eapply sublist_NoDup; [|apply sublist_drop].
  - intros t. rewrite ready_rest by done. rewrite Hrd. fold (dispatched k x). rewrite Hstat by done.
    case_bool_decide; naive_solver.
  - fold (dispatched k x). rewrite Hstat by done. case_bool_decide; [by eexists|]. done.
  - done.
  - intros t Ht. apply Hpg. destruct Ht as [y Hy].
    apply lookup_insert_Some in Hy as [[<- _]|[_ Hy]]; eauto.
  - done.
Qed.

(** The state of a thread after [schedule]. *)
Definition scheduled_stat (k : kernel) (t : Z) : option thread_status :=
  if bool_decide (t = next_thread k) then Some THREAD_RUNNING
  else if bool_decide (t = running k ∧ stat k t = Some THREAD_DYING ∧ t ≠ initial_thread k) then None
  else stat k t.

(** Freeing the page of a thread that is not the idle thread. *)
Lemma reap_run k t s : threads_ok k → stat k t = Some s → s ≠ THREAD_READY →
  t ≠ initial_thread k → t ≠ idle_thread k →
  ∃ k', (let! _ := free_page t in modify (λ k, set_threads (delete t (threads k)) k)) k = Ok (tt, k') ∧
    threads_ok k' ∧ (∀ u, stat k' u = if bool_decide (u = t) then None else stat k u) ∧
    same_objects k k' ∧ running k' = running k ∧ intr_level k' = intr_level k ∧ ready_list k' = ready_list k ∧
    thread_ticks k' = thread_ticks k.
Proof.
  intros Hk Hs Hnr Hni Hnd. apply stat_Some in Hs as (x & E & <-).
  assert (∀ j, 0 ≤ j < 1 → allocated false (pages k) (t + 4096 * j)) as Ha.
  { intros j Hj. replace (t + 4096 * j) with t by lia. apply (tk_pages _ Hk); eauto. }
  destruct (palloc_free_multiple_ok false (pages k) t 1 (tk_pools _ Hk) ltac:(lia) Ha)
    as (s' & Ef & Hok & Hsame & Hal & _ & _).
  eexists. split; [unfold bind, free_page, palloc_free_page; rewrite Ef; done|].
  split_and!; try done.
  - destruct Hk as [Hth Hnodup Hrd Hid Hpl Hpg Hin].
    assert (∀ u, stat (set_threads (delete t (threads k)) (set_pages s' k)) u
                 = if bool_decide (u = t) then None else stat k u) as Hstat.
    { intros u. unfold stat. simpl. case_bool_decide; [subst; by rewrite lookup_delete_eq|].
      by rewrite lookup_delete_ne. }
    split; simpl; try done.
    + intros u y [_ Hu]%lookup_delete_Some. eauto.
    + intros u. rewrite Hrd, Hstat. case_bool_decide as Hut; [|done]. subst u. split; [|naive_solver].
      intros [Hr _]. apply stat_Some in Hr as (y & Ey & Hy). naive_solver.
    + rewrite Hstat, bool_decide_eq_false_2 by done. done.
    + intros u [y Hy] Hu. apply lookup_delete_Some in Hy as [Hut Hy].
      apply Hal. split; [eauto|]. intros (_ & j & Hj & ->). apply Hut. lia.
    + rewrite <-Hin. apply (page_from_same_pools _ _ false _ Hsame).
  - intros u. unfold stat. simpl. case_bool_decide; [subst; by rewrite lookup_delete_eq|].
    by rewrite lookup_delete_ne.
Qed.

(** The invariant holds again once the states are as [schedule] leaves them. *)
Lemma scheduled_sched k k' : switching k → threads_ok k' → running k' = next_thread k →
  initial_thread k' = initial_thread k → (∀ t, stat k' t = scheduled_stat k t) → sched_ok k'.
Proof.
  intros Hk Hk' Hr Hi Hs. split; [done| |]; intros t; rewrite Hs; unfold scheduled_stat.
  - rewrite Hr. case_bool_decide as Ht; [done|]. split; [|done].
    case_bool_decide; [done|]. intros Hrun. by apply (sw_run _ Hk) in Hrun.
  - rewrite Hi. case_bool_decide; [done|]. case_bool_decide as Hno; [done|]. intros Hd.
    destruct (sw_dying _ Hk t Hd) as [|Hrt]; [done|].
    destruct (decide (t = initial_thread k)); [done|]. by destruct Hno.
Qed.

(** [schedule] up to the switch. *)
Lemma schedule_start k x : switching k → intr_level k = false → threads k !! next_thread k = Some x →
  schedule k = thread_schedule_tail (if running k =? next_thread k then NULL else running k)
                 (set_running (next_thread k) (set_ready_list (drop 1 (ready_list k)) k)).
Proof.
  intros Hk Hl E. pose proof (sw_threads _ Hk) as Hth. destruct (sw_cur _ Hk) as [sc Hsc].
  destruct (proj1 (stat_Some _ _ _) Hsc) as (xc & Ec & Hxc).
  assert (status xc ≠ THREAD_RUNNING) by (intros Hr; apply (sw_run _ Hk (running k)); congruence).
  set (k1 := set_ready_list (drop 1 (ready_list k)) k).
  assert (is_thread (next_thread k) k1 = Ok (true, k1)) as Eit.
  { unfold is_thread. destruct (tk_thread _ Hth _ _ E) as (Hn & Hm & _).
    rewrite (proj2 (Z.eqb_neq _ NULL)) by done. unfold bind, load_thread. simpl. rewrite E.
    unfold ret. by rewrite Hm. }
  unfold schedule. rewrite (bind_Ok running_thread _ k (running k) k) by done.
  rewrite (bind_Ok _ _ _ _ _ (next_thread_to_run_run k)). fold k1.
  rewrite (bind_Ok intr_get_level _ k1 false k1) by (unfold intr_get_level, gets; simpl; by rewrite Hl).
  rewrite (bind_Ok (ASSERT _) _ k1 tt k1) by done.
  rewrite (bind_Ok (load_thread _) _ k1 xc k1) by (by apply load_thread_run).
  rewrite (bind_Ok (ASSERT _) _ k1 tt k1) by (rewrite bool_decide_eq_false_2 by done; done).
  rewrite (bind_Ok _ _ _ _ _ Eit), (bind_Ok (ASSERT _) _ k1 tt k1) by done.
  destruct (Z.eqb_spec (running k) (next_thread k)) as [Hcn|Hcn]; cbn [negb]; [|done].
  assert (set_running (next_thread k) k1 = k1) as -> by (unfold k1; rewrite <-Hcn; by destruct k).
  done.
Qed.

(** [thread_schedule_tail] up to the end of a dying thread. *)
Lemma schedule_tail_start k x prev : intr_level k = false → threads k !! next_thread k = Some x →
  thread_schedule_tail prev (set_running (next_thread k) (set_ready_list (drop 1 (ready_list k)) k))
  = (if prev =? NULL then ret tt
     else
       let! y := load_thread prev in
       let! initial := gets initial_thread in
       if bool_decide (status y = THREAD_DYING) && negb (prev =? initial) then
         let! _ := ASSERT (negb (prev =? next_thread k)) in
         let! _ := free_page prev in
         modify (λ k, set_threads (delete prev (threads k)) k)
       else ret tt) (dispatched k x).
Proof.
  intros Hl E. set (k1 := set_running _ _). unfold thread_schedule_tail.
  rewrite (bind_Ok running_thread _ k1 (next_thread k) k1) by done.
  rewrite (bind_Ok intr_get_level _ k1 false k1) by (unfold intr_get_level, gets; simpl; by rewrite Hl).
  rewrite (bind_Ok (ASSERT _) _ k1 tt k1) by done.
  rewrite (bind_Ok _ _ _ _ _ (set_status_run k1 (next_thread k) x THREAD_RUNNING E)). done.
Qed.

Lemma schedule_run k : switching k → intr_level k = false →
  ∃ k', schedule k = Ok (tt, k') ∧ sched_ok k' ∧ same_objects k k' ∧ intr_level k' = false ∧
    running k' = next_thread k ∧ ready_list k' = drop 1 (ready_list k) ∧ thread_ticks k' = 0 ∧
    ∀ t, stat k' t = scheduled_stat k t.
Proof.
  intros Hk Hl. pose proof (sw_threads _ Hk) as Hth.
  destruct (next_thread_stat k Hth (sw_idle _ Hk)) as (s & Hs & Hnd).
  destruct (proj1 (stat_Some _ _ _) Hs) as (x & E & Hx).
  rewrite (schedule_start k x), (schedule_tail_start k x) by done.
  pose proof (dispatched_stat k x) as Hstat.
  destruct (decide (running k ≠ next_thread k ∧ stat k (running k) = Some THREAD_DYING ∧
                    running k ≠ initial_thread k)) as [(Hcn & Hd & Hi)|Hno].
  - destruct (proj1 (stat_Some _ _ _) Hd) as (xc & Ec & Hxc).
    destruct (tk_thread _ Hth _ _ Ec) as (Hn & _ & _).
    rewrite (proj2 (Z.eqb_neq (running k) (next_thread k))) by done.
    rewrite (proj2 (Z.eqb_neq (running k) NULL)) by done.
    rewrite (bind_Ok (load_thread _) _ (dispatched k x) xc (dispatched k x))
      by (apply load_thread_run; simpl; by rewrite lookup_insert_ne).
    rewrite (bind_Ok (gets _) _ (dispatched k x) (initial_thread k) (dispatched k x)) by done.
    rewrite bool_decide_eq_true_2, (proj2 (Z.eqb_neq (running k) (initial_thread k))) by done.
    cbn [andb negb]. rewrite (proj2 (Z.eqb_neq (running k) (next_thread k))) by done.
    rewrite (bind_Ok (ASSERT _) _ (dispatched k x) tt (dispatched k x)) by done.
    destruct (reap_run (dispatched k x) (running k) THREAD_DYING) as (k' & Ek & Hok & Hst & Hso & Hrun & Hlv & Hrl & Htt).
    { apply dispatched_ok; [apply Hk..|done]. }
    { rewrite Hstat, bool_decide_eq_false_2 by done. done. }
    { done. } { done. } { intros Hid. apply (sw_idle _ Hk). simpl in Hid. congruence. }
    assert (∀ t, stat k' t = scheduled_stat k t) as Hsched.
    { intros t. rewrite Hst, Hstat by done. unfold scheduled_stat.
      destruct (decide (t = running k)) as [->|Hne].
      - by rewrite (bool_decide_eq_true_2 (running k = running k)), (bool_decide_eq_false_2 _ Hcn),
          bool_decide_eq_true_2.
      - rewrite (bool_decide_eq_false_2 (t = running k)), (bool_decide_eq_false_2 (t = running k ∧ _))
          by naive_solver. done. }
    exists k'. split_and!; [done| |by apply (transitivity (y := dispatched k x))|by rewrite Hlv|by rewrite Hrun|by rewrite Hrl|by rewrite Htt|done].
    apply (scheduled_sched k); [done..|by rewrite Hrun|apply Hso|done].
  - exists (dispatched k x).
    assert (∀ t, stat (dispatched k x) t = scheduled_stat k t) as Hst.
    { intros t. rewrite Hstat by done. unfold scheduled_stat. case_bool_decide as Hn; [done|].
      rewrite bool_decide_eq_false_2; [done|]. intros (-> & ? & ?). by apply Hno. }
    split_and!; [|apply (scheduled_sched k); [done|apply dispatched_ok; [apply Hk..|done]|done..]|done..].
    destruct (Z.eqb_spec (running k) (next_thread k)) as [|Hcn]; [done|].
    destruct (sw_cur _ Hk) as [sc Hsc]. destruct (proj1 (stat_Some _ _ _) Hsc) as (xc & Ec & Hxc).
    destruct (tk_thread _ Hth _ _ Ec) as (Hn & _ & _).
    rewrite (proj2 (Z.eqb_neq (running k) NULL)) by done.
    rewrite (bind_Ok (load_thread _) _ (dispatched k x) xc (dispatched k x))
      by (apply load_thread_run; simpl; by rewrite lookup_insert_ne).
    rewrite (bind_Ok (gets _) _ (dispatched k x) (initial_thread k) (dispatched k x)) by done.
    case_bool_decide as Hdy; [|done]. destruct (Z.eqb_spec (running k) (initial_thread k)); [done|].
    exfalso. apply Hno. split_and!; [done| |done]. by rewrite Hsc, <-Hxc, Hdy.
Qed.

(** ** Giving up the processor *)

(** The running thread takes the state [s], and joins the run queue when it stays
    ready and is not the idle thread. *)
Definition leaving (k : kernel) (s : thread_status) (x : thread) : kernel :=
  set_threads (<[running k := with_status s x]> (threads k))
    (set_ready_list
       (if bool_decide (s = THREAD_READY ∧ running k ≠ idle_thread k)
        then ready_list k ++ [running k] else ready_list k) k).

Lemma leaving_stat k s x t : threads k !! running k = Some x →
  stat (leaving k s x) t = if bool_decide (t = running k) then Some s else stat k t.
Proof. intros E. exact (stat_store k _ (with_status s) x t E). Qed.

Lemma leaving_switching k s x : sched_ok k → threads k !! running k = Some x →
  s ≠ THREAD_RUNNING → (s = THREAD_DYING → running k ≠ idle_thread k) →
  switching (leaving k s x).
Proof.
  intros Hk E Hs Hdy. pose proof (leaving_stat k s x) as Hst.
  assert (running k ∉ ready_list k) as Hnr.
  { rewrite (tk_ready _ (sk_threads _ Hk)). intros [Hr _].
    assert (stat k (running k) = Some THREAD_RUNNING) by (by apply sk_run). congruence. }
  destruct (sk_threads _ Hk) as [Hth Hnd Hrd Hid Hpl Hpg Hin]. split.
  - split; simpl; try done.
    + intros t y. rewrite lookup_insert_Some. intros [[<- <-]|[_ Ht]]; simpl; eauto.
    + case_bool_decide; [|done]. apply list.NoDup_app. split_and!; [done|set_solver|apply NoDup_singleton].
    + intros t. fold (leaving k s x). rewrite Hst by done.
      case_bool_decide as Hc; rewrite ?elem_of_app, ?list_elem_of_singleton, Hrd;
        (case_bool_decide as Ht; [subst t|]); naive_solver.
    + fold (leaving k s x). rewrite Hst by done. case_bool_decide as Ht; [|done].
      exists s. split; [done|]. intros Hd. by apply Hdy.
    + intros t [y Hy]. apply Hpg. apply lookup_insert_Some in Hy as [[<- _]|[_ Hy]]; eauto.
  - intros t. rewrite Hst by done. case_bool_decide; [congruence|]. by rewrite (sk_run _ Hk).
  - rewrite Hst, bool_decide_eq_true_2 by done. by eexists.
  - intros t. rewrite Hst by done. case_bool_decide; [by right|]. left. by apply (sk_dying _ Hk).
  - simpl. rewrite Hst by done. case_bool_decide as Ht; [|destruct Hid; naive_solver].
    intros [= ->]. by apply Hdy.
Qed.

Lemma running_thread_ok k : sched_ok k → ∃ x, threads k !! running k = Some x ∧ status x = THREAD_RUNNING.
Proof. intros Hk. apply stat_Some. by apply (sk_run _ Hk). Qed.

(** The run queue when [schedule] is called, and the next thread and the run queue
    after it. *)
Definition queue_of (k : kernel) (s : thread_status) : list Z :=
  if bool_decide (s = THREAD_READY ∧ running k ≠ idle_thread k) then ready_list k ++ [running k]
  else ready_list k.
Definition dispatch (idle : Z) (q : list Z) : list Z := match q with [] => [idle] | _ => q end.

(** What [thread_block], [thread_yield] and [thread_exit] do to the threads. *)
Record switched (k : kernel) (s : thread_status) (k' : kernel) : Prop := {
  sd_ok : sched_ok k';
  sd_same : same_objects k k';
  sd_level : intr_level k' = false;
  sd_ticks : thread_ticks k' = 0;
  sd_queue : running k' :: ready_list k' = dispatch (idle_thread k) (queue_of k s);
  sd_next : running k' = idle_thread k ∨ stat k (running k') = Some THREAD_READY ∨
            running k' = running k ∧ s = THREAD_READY;
  sd_stat t : stat k' t =
    if bool_decide (t = running k') then Some THREAD_RUNNING
    else if bool_decide (t = running k) then
      (if bool_decide (s = THREAD_DYING ∧ t ≠ initial_thread k) then None else Some s)
    else stat k t }.

Lemma leave_run k s x : sched_ok k → threads k !! running k = Some x → intr_level k = false →
  s ≠ THREAD_RUNNING → (s = THREAD_DYING → running k ≠ idle_thread k) →
  ∃ k', schedule (leaving k s x) = Ok (tt, k') ∧ switched k s k'.
Proof.
  intros Hk E Hl Hs Hdy. pose proof (leaving_switching k s x Hk E Hs Hdy) as Hsw.
  destruct (schedule_run (leaving k s x) Hsw Hl) as (k' & E' & Hok & Hso & Hlv & Hr & Hrl & Htt & Hst).
  exists k'. split; [done|]. split; [done|by destruct Hso; split|done|done| | |].
  { rewrite Hr, Hrl. fold (queue_of k s). unfold next_thread.
    change (ready_list (leaving k s x)) with (queue_of k s). by destruct (queue_of k s). }
  { rewrite Hr. pose proof (sw_threads _ Hsw) as Hth. unfold next_thread.
    destruct (ready_list (leaving k s x)) as [|u us] eqn:Er; [by left|right].
    destruct (proj1 (tk_ready _ Hth u)) as [Hu _]; [rewrite Er; set_solver|].
    rewrite leaving_stat in Hu by done. case_bool_decide; [right|by left].
    split; [done|]. by injection Hu. }
  intros t. rewrite Hst, Hr. unfold scheduled_stat. case_bool_decide as Ht; [done|].
  rewrite leaving_stat by done. simpl.
  destruct (decide (t = running k)) as [->|Hne].
  - rewrite (bool_decide_eq_true_2 (running k = running k)) by done.
    case_bool_decide as H1; case_bool_decide as H2; try done; naive_solver.
  - by rewrite (bool_decide_eq_false_2 (t = running k)), bool_decide_eq_false_2 by naive_solver.
Qed.

Lemma thread_block_run k : sched_ok k → in_external_intr k = false → intr_level k = false →
  ∃ k', thread_block k = Ok (tt, k') ∧ switched k THREAD_BLOCKED k'.
Proof.
  intros Hk Hx Hl. destruct (running_thread_ok k Hk) as (x & E & _).
  destruct (leave_run k THREAD_BLOCKED x Hk E Hl) as (k' & E' & Hsw); [done..|].
  exists k'. split; [|done]. unfold thread_block, intr_context, intr_get_level.
  rewrite (bind_Ok (gets _) _ k false k) by (unfold gets; by rewrite Hx).
  rewrite (bind_Ok (ASSERT _) _ k tt k) by done.
  rewrite (bind_Ok (gets _) _ k false k) by (unfold gets; by rewrite Hl).
  rewrite (bind_Ok (ASSERT _) _ k tt k) by done.
  rewrite (bind_Ok _ _ _ _ _ (thread_current_run k Hk)).
  rewrite (bind_Ok _ _ _ _ _ (set_status_run k _ x _ E)). by rewrite <-E'.
Qed.

Lemma thread_yield_run k : sched_ok k → in_external_intr k = false →
  ∃ k', thread_yield k = Ok (intr_level k, k') ∧ switched k THREAD_READY k'.
Proof.
  intros Hk Hx. destruct (running_thread_ok k Hk) as (x & E & _).
  set (k0 := set_intr_level false k).
  assert (sched_ok k0) as Hk0 by (by apply (sched_ok_ext k)).
  destruct (leave_run k0 THREAD_READY x Hk0 E) as (k' & E' & Hsw); [done..|].
  exists k'. split; [|by destruct Hsw as [? [] ? ? ? ? ?]; split]. unfold thread_yield, intr_context.
  rewrite (bind_Ok _ _ _ _ _ (thread_current_run k Hk)).
  rewrite (bind_Ok (gets _) _ k false k) by (unfold gets; by rewrite Hx).
  rewrite (bind_Ok (ASSERT _) _ k tt k) by done.
  rewrite (bind_Ok intr_disable _ k (intr_level k) k0) by done.
  rewrite (bind_Ok (gets _) _ k0 (idle_thread k) k0) by done.
  set (k1 := set_ready_list (if bool_decide (THREAD_READY = THREAD_READY ∧ running k0 ≠ idle_thread k0)
      then ready_list k0 ++ [running k0] else ready_list k0) k0).
  rewrite (bind_Ok _ _ k0 tt k1).
  2:{ unfold k1. destruct (Z.eqb_spec (running k) (idle_thread k)) as [Hi|Hi]; simpl.
      - rewrite bool_decide_eq_false_2 by naive_solver. by destruct k.
      - rewrite bool_decide_eq_true_2 by naive_solver. done. }
  rewrite (bind_Ok _ _ _ _ _ (set_status_run k1 (running k) x _ E)).
  by rewrite (bind_Ok _ _ _ _ _ E').
Qed.

Lemma thread_exit_run k : sched_ok k → in_external_intr k = false → running k ≠ idle_thread k →
  ∃ k', thread_exit k = Ok (tt, k') ∧ switched k THREAD_DYING k'.
Proof.
  intros Hk Hx Hi. destruct (running_thread_ok k Hk) as (x & E & _).
  set (k0 := set_intr_level false k).
  set (k1 := set_all_list (filter (λ u, u ≠ running k) (all_list k)) k0).
  assert (sched_ok k0) as Hk0 by (by apply (sched_ok_ext k)).
  assert (sched_ok k1) as Hk1 by (by apply (sched_ok_ext k)).
  destruct (leave_run k1 THREAD_DYING x Hk1 E) as (k' & E' & Hsw); [done..|].
  exists k'. split; [|by destruct Hsw as [? [] ? ? ? ? ?]; split]. unfold thread_exit, intr_context.
  rewrite (bind_Ok (gets _) _ k false k) by (unfold gets; by rewrite Hx).
  rewrite (bind_Ok (ASSERT _) _ k tt k) by done.
  rewrite (bind_Ok intr_disable _ k (intr_level k) k0) by done.
  rewrite (bind_Ok _ _ _ _ _ (thread_current_run k0 Hk0)).
  rewrite (bind_Ok (modify _) _ k0 tt k1) by done.
  rewrite (bind_Ok _ _ _ _ _ (thread_current_run k1 Hk1)).
  rewrite (bind_Ok _ _ _ _ _ (set_status_run k1 (running k1) x _ E)). by rewrite <-E'.
Qed.

(** ** Waking up *)

(** The thread [t] joins the run queue. *)
Record readied (k : kernel) (t : Z) (k' : kernel) : Prop := {
  rd_ok : sched_ok k';
  rd_same : same_objects k k';
  rd_running : running k' = running k;
  rd_level : intr_level k' = intr_level k;
  rd_ready : ready_list k' = ready_list k ++ [t];
  rd_stat u : stat k' u = if bool_decide (u = t) then Some THREAD_READY else stat k u }.

Lemma ready_sched k t x : sched_ok k → threads k !! t = Some x → status x = THREAD_BLOCKED →
  t ≠ idle_thread k →
  sched_ok (set_threads (<[t := with_status THREAD_READY x]> (threads k))
              (set_ready_list (ready_list k ++ [t]) k)).
Proof.
  intros Hk E Hs Hi. assert (stat k t = Some THREAD_BLOCKED) as Hst by (apply stat_Some; eauto).
  pose proof (stat_store k t (with_status THREAD_READY) x) as Hstat. simpl in Hstat.
  destruct Hk as [[Hth Hnd Hrd Hid Hpl Hpg Hin] Hrun Hdy]. split; [split|..]; simpl; try done.
  - intros u y. rewrite lookup_insert_Some. intros [[<- <-]|[_ Ht]]; simpl; eauto.
  - apply list.NoDup_app. split_and!; [done| |apply NoDup_singleton].
    intros u Hu ->%list_elem_of_singleton. apply Hrd in Hu. naive_solver.
  - intros u. rewrite elem_of_app, list_elem_of_singleton, Hrd.
    change (stat (set_threads _ (set_ready_list _ k)) u) with
      (stat (set_threads (<[t:=with_status THREAD_READY x]> (threads k)) k) u).
    rewrite Hstat by done. case_bool_decide; naive_solver.
  - change (stat (set_threads _ (set_ready_list _ k)) (idle_thread k)) with
      (stat (set_threads (<[t:=with_status THREAD_READY x]> (threads k)) k) (idle_thread k)).
    rewrite Hstat, bool_decide_eq_false_2 by done. done.
  - intros u [y Hy]. apply Hpg. apply lookup_insert_Some in Hy as [[<- _]|[_ Hy]]; eauto.
  - intros u. rewrite <-Hrun. change (stat (set_threads _ (set_ready_list _ k)) u) with
      (stat (set_threads (<[t:=with_status THREAD_READY x]> (threads k)) k) u).
    rewrite Hstat by done. case_bool_decide; naive_solver.
  - intros u. change (stat (set_threads _ (set_ready_list _ k)) u) with
      (stat (set_threads (<[t:=with_status THREAD_READY x]> (threads k)) k) u).
    rewrite Hstat by done. case_bool_decide; naive_solver.
Qed.

Lemma thread_unblock_run k t : sched_ok k → stat k t = Some THREAD_BLOCKED → t ≠ idle_thread k →
  (intr_level k = true → in_external_intr k = false) →
  ∃ k', thread_unblock t k = Ok (tt, k') ∧ readied k t k'.
Proof.
  intros Hk Hs Hi Hx. destruct (proj1 (stat_Some _ _ _) Hs) as (x & E & Hb).
  set (k0 := set_intr_level false k).
  assert (sched_ok k0) as Hk0 by (by apply (sched_ok_ext k)).
  set (k1 := set_ready_list (ready_list k0 ++ [t]) k0).
  set (k2 := set_threads (<[t := with_status THREAD_READY x]> (threads k1)) k1).
  exists (set_intr_level (intr_level k) k2). split.
  - unfold thread_unblock. rewrite (bind_Ok _ _ _ _ _ (is_thread_run _ _ _ (sk_threads _ Hk) E)).
    rewrite (bind_Ok (ASSERT _) _ k tt k) by done.
    rewrite (bind_Ok intr_disable _ k (intr_level k) k0) by done.
    rewrite (bind_Ok _ _ _ _ _ (load_thread_run k0 t x E)).
    rewrite (bind_Ok (ASSERT _) _ k0 tt k0) by (rewrite bool_decide_eq_true_2 by done; done).
    rewrite (bind_Ok (modify _) _ k0 tt k1) by done.
    rewrite (bind_Ok _ _ _ _ _ (set_status_run k1 t x _ E)).
    by rewrite (bind_Ok _ _ _ _ _ (intr_set_level_run k2 (intr_level k) Hx)).
  - split; try done.
    + apply (sched_ok_ext k2); try done. by apply (ready_sched k0).
    + intros u. exact (stat_store k t (with_status THREAD_READY) x u E).
Qed.

(** ** Creation *)

(** [k'] is [k] with a new, blocked thread at [t] that is not queued yet. *)
Record born (k : kernel) (t : Z) (k' : kernel) : Prop := {
  bn_thread : ∃ y, threads k' = <[t := y]> (threads k) ∧ status y = THREAD_BLOCKED ∧ magic y = THREAD_MAGIC;
  bn_ready : ready_list k' = ready_list k;
  bn_running : running k' = running k;
  bn_level : intr_level k' = intr_level k;
  bn_same : same_objects k k';
  bn_pools : pools_ok (pages k');
  bn_alloc u : allocated false (pages k) u ∨ u = t → allocated false (pages k') u;
  bn_from a : page_from_pool (kernel_pool (pages k')) a = page_from_pool (kernel_pool (pages k)) a }.

Lemma born_store k t k1 f : born k t k1 → (∀ x, status (f x) = status x ∧ magic (f x) = magic x) →
  ∃ k2, store_thread t f k1 = Ok (tt, k2) ∧ born k t k2.
Proof.
  intros [(y & Ey & Hs & Hm) ? ? ? [] ? ? ?] Hf. destruct (Hf y) as [Hfs Hfm].
  eexists. split; [unfold store_thread; rewrite Ey, lookup_insert_eq; done|].
  split; try done. exists (f y). simpl. rewrite insert_insert_eq. split_and!; congruence.
Qed.

Lemma born_is_thread k t k1 : t ≠ NULL → born k t k1 → is_thread t k1 = Ok (true, k1).
Proof.
  intros Hn [(y & Ey & Hs & Hm) _ _ _ _ _ _ _]. unfold is_thread.
  rewrite (proj2 (Z.eqb_neq t NULL)) by done. unfold bind, load_thread.
  rewrite Ey, lookup_insert_eq. unfold ret. by rewrite Hm.
Qed.

Lemma born_alloc_frame k t k1 size : t ≠ NULL → born k t k1 → size `mod` 4 = 0 →
  ∃ p k2, alloc_frame t size k1 = Ok (p, k2) ∧ born k t k2.
Proof.
  intros Hn Hb Hsz. unfold alloc_frame.
  rewrite (bind_Ok _ _ _ _ _ (born_is_thread _ _ _ Hn Hb)).
  rewrite Hsz. do 2 (rewrite (bind_Ok (ASSERT _) _ k1 tt k1) by done).
  destruct (born_store k t k1 (λ x, with_stack (stack x - size) x) Hb) as (k2 & E & Hb2); [done|].
  rewrite (bind_Ok _ _ _ _ _ E). destruct (bn_thread _ _ _ Hb2) as (y & Ey & _).
  eexists _, k2. split; [|done]. unfold bind, load_thread. by rewrite Ey, lookup_insert_eq.
Qed.

Lemma born_store32 k t k1 a v : born k t k1 → ∃ k2, store32 a v k1 = Ok (tt, k2) ∧ born k t k2.
Proof.
  intros [? ? ? ? [] [Hk Hu Hp] Ha Hf]. eexists. split; [done|].
  split; try done.
Qed.

Lemma born_tid k t k1 : born k t k1 → ∃ i k2, allocate_tid k1 = Ok (i, k2) ∧ born k t k2.
Proof. intros [? ? ? ? [] ? ? ?]. eexists _, _. split; [done|]. split; done. Qed.

Lemma born_process k t k1 i : born k t k1 → ∃ k2, store_thread t (with_process i) k1 = Ok (tt, k2) ∧ born k t k2.
Proof. intros Hb. by apply born_store. Qed.

Lemma init_thread_run k t nm prio s :
  t ≠ NULL → 0 ≤ prio ≤ 63 → pools_ok s →
  (∀ u, allocated false (pages k) u ∨ u = t → allocated false s u) →
  same_pools (pages k) s → (intr_level k = true → in_external_intr k = false) →
  ∃ k', init_thread t nm prio (set_pages s k) = Ok (tt, k') ∧ born k t k'.
Proof.
  intros Hn Hp Hs Ha Hsame Hx. unfold init_thread. rewrite (proj2 (Z.eqb_neq t NULL)) by done.
  unfold PRI_MIN, PRI_MAX. rewrite (proj2 (Z.leb_le 0 prio)), (proj2 (Z.leb_le prio 63)) by lia.
  do 2 (rewrite (bind_Ok (ASSERT _) _ (set_pages s k) tt (set_pages s k)) by done).
  erewrite (bind_Ok (modify _)) by done.
  erewrite (bind_Ok intr_disable) by done. erewrite (bind_Ok (modify _)) by done.
  erewrite (bind_Ok (intr_set_level _)) by (apply intr_set_level_run; exact Hx).
  eexists. split; [done|]. split; try done.
  - eexists. split; [done|]. done.
  - intros a. apply (page_from_same_pools _ _ false _ Hsame).
Qed.

(** A newborn thread keeps the scheduler's invariant. *)
Lemma born_sched k t k' : sched_ok k → born k t k' → threads k !! t = None →
  t ≠ NULL → t `mod` 4096 = 0 → sched_ok k' ∧ stat k' t = Some THREAD_BLOCKED ∧ t ≠ idle_thread k ∧
  ∀ u, u ≠ t → stat k' u = stat k u.
Proof.
  intros Hk [(y & Ey & Hys & Hym) Hrd Hrn Hlv [E1 E2 E3 Eid Ein Eex] Hpl Hal Hfr] Hnew Hn Hm.
  assert (∀ u, stat k' u = if bool_decide (u = t) then Some THREAD_BLOCKED else stat k u) as Hst.
  { intros u. unfold stat. rewrite Ey. case_bool_decide as Hu; [subst u; rewrite lookup_insert_eq; simpl; congruence|].
    by rewrite lookup_insert_ne. }
  assert (stat k t = None) as Hnone by (unfold stat; by rewrite Hnew).
  destruct Hk as [[Hth Hnd Hready Hid Hpools Hpg Hin] Hrun Hdy].
  assert (t ≠ idle_thread k) as Hti by (intros Heq; destruct Hid as (s & Hs & _); congruence).
  split_and!; [|by rewrite Hst, bool_decide_eq_true_2|done|intros u Hu; by rewrite Hst, bool_decide_eq_false_2].
  split; [split|..]; rewrite ?Hrd, ?Eid, ?Ein, ?Hrn; try done.
  - rewrite Ey. intros u z. rewrite lookup_insert_Some. intros [[<- <-]|[_ Hz]]; eauto.
  - intros u. rewrite Hready, Hst. case_bool_decide as Hu; [subst u; naive_solver|done].
  - rewrite Hst, bool_decide_eq_false_2 by done. done.
  - intros u [z Hz] Hu. rewrite Ey in Hz. apply Hal.
    apply lookup_insert_Some in Hz as [[<- _]|[_ Hz]]; [by right|]. left. eauto.
  - by rewrite Hfr.
  - intros u. rewrite Hst, <-Hrun. case_bool_decide as Hu; [subst u; naive_solver|done].
  - intros u. rewrite Hst. case_bool_decide; [done|]. apply Hdy.
Qed.

(** A page for a new thread is not a thread's page. *)
Lemma get_page_run k : sched_ok k →
  get_page PAL_ZERO k = Ok (NULL, k) ∨
  ∃ t s, get_page PAL_ZERO k = Ok (t, set_pages s k) ∧ t ≠ NULL ∧ t `mod` 4096 = 0 ∧
    threads k !! t = None ∧ pools_ok s ∧ same_pools (pages k) s ∧
    (∀ u, allocated false (pages k) u ∨ u = t → allocated false s u).
Proof.
  intros Hk. destruct (sk_threads _ Hk) as [Hth Hnd Hrd Hid Hpl Hpg Hin]. unfold get_page, palloc_get_page.
  destruct (palloc_get_multiple_ok PAL_ZERO 1 (pages k) Hpl ltac:(lia))
    as [(t & s & -> & Hs & Hsame & Hn & Ho & Hnew & Hal & _)|[_ ->]]; [right|left].
  - exists t, s. change (has_flag PAL_ZERO PAL_USER) with false in *.
    destruct (Hnew 0 ltac:(lia)) as [Hna Hfrom]. rewrite Z.add_0_r in Hna, Hfrom.
    rewrite pg_ofs_mod in Ho. split_and!; try done.
    + destruct (threads k !! t) as [x|] eqn:E; [|done]. exfalso.
      destruct (decide (t = initial_thread k)) as [->|Hi]; [simpl in Hfrom; congruence|].
      apply Hna, Hpg; eauto.
    + intros u Hu. apply Hal. destruct Hu as [|Hu]; [by left|]. right. split; [done|]. exists 0. lia.
  - cbn. by destruct k.
Qed.

Lemma thread_create_run kt se k nm prio fn aux :
  sched_ok k → in_external_intr k = false → fn ≠ NULL → 0 ≤ prio ≤ 63 →
  thread_create kt se nm prio fn aux k = Ok (TID_ERROR, k) ∨
  ∃ t i k', thread_create kt se nm prio fn aux k = Ok (i, k') ∧ threads k !! t = None ∧ readied k t k' ∧
    t ≠ idle_thread k ∧ t `mod` 4096 = 0.
Proof.
  intros Hk Hx Hfn Hp. unfold thread_create. rewrite (proj2 (Z.eqb_neq fn NULL)) by done.
  rewrite (bind_Ok (ASSERT _) _ k tt k) by done.
  destruct (get_page_run k Hk) as [E|(t & s & E & Hn & Hm & Hnew & Hs & Hsame & Hal)];
    rewrite (bind_Ok _ _ _ _ _ E); [by left|right].
  rewrite (proj2 (Z.eqb_neq t NULL)) by done.
  destruct (init_thread_run k t nm prio s) as (k1 & E1 & B1); [done..|].
  destruct (born_tid k t k1 B1) as (i & k2 & E2 & B2).
  destruct (born_process k t k2 i B2) as (k3 & E3 & B3).
  destruct (born_alloc_frame k t k3 12 Hn B3 eq_refl) as (kf & k4 & E4 & B4).
  destruct (born_store32 k t k4 kf NULL B4) as (k5 & E5 & B5).
  destruct (born_store32 k t k5 (kf + 4) fn B5) as (k6 & E6 & B6).
  destruct (born_store32 k t k6 (kf + 8) aux B6) as (k7 & E7 & B7).
  destruct (born_alloc_frame k t k7 4 Hn B7 eq_refl) as (ef & k8 & E8 & B8).
  destruct (born_store32 k t k8 ef kt B8) as (k9 & E9 & B9).
  destruct (born_alloc_frame k t k9 28 Hn B9 eq_refl) as (sf & k10 & E10 & B10).
  destruct (born_store32 k t k10 (sf + 16) se B10) as (k11 & E11 & B11).
  destruct (born_store32 k t k11 (sf + 8) 0 B11) as (k12 & E12 & B12).
  destruct (born_sched k t k12 Hk B12 Hnew Hn Hm) as (Hk12 & Hst & Hti & Hother).
  destruct (thread_unblock_run k12 t Hk12 Hst) as (k13 & E13 & R).
  { by rewrite (so_idle _ _ (bn_same _ _ _ B12)). }
  { by rewrite (so_ext _ _ (bn_same _ _ _ B12)). }
  exists t, i, k13. split_and!; try done.
  - rewrite (bind_Ok _ _ _ _ _ E1), (bind_Ok _ _ _ _ _ E2), (bind_Ok _ _ _ _ _ E3),
      (bind_Ok _ _ _ _ _ E4), (bind_Ok _ _ _ _ _ E5), (bind_Ok _ _ _ _ _ E6), (bind_Ok _ _ _ _ _ E7),
      (bind_Ok _ _ _ _ _ E8), (bind_Ok _ _ _ _ _ E9), (bind_Ok _ _ _ _ _ E10), (bind_Ok _ _ _ _ _ E11),
      (bind_Ok _ _ _ _ _ E12).
    by rewrite (bind_Ok _ _ _ _ _ E13).
  - destruct R as [Hok Hso Hr Hl Hrd Hs']. destruct B12 as [_ Brd Brn Blv Bso _ _ _]. split; try done.
    + by apply (transitivity (y := k12)).
    + congruence.
    + congruence.
    + congruence.
    + intros u. rewrite Hs'. case_bool_decide; [done|]. by apply Hother.
Qed.

(** ** The timer *)

Lemma timer_interrupt_run k : sched_ok k → in_external_intr k = true →
  ∃ k', timer_interrupt k = Ok (tt, k') ∧ sched_ok k' ∧ same_objects k k' ∧ running k' = running k ∧
    intr_level k' = intr_level k ∧ threads k' = threads k ∧ ready_list k' = ready_list k ∧
    thread_ticks k' = u32 (thread_ticks k + 1) ∧
    yield_on_return k' = (TIME_SLICE <=? u32 (thread_ticks k + 1)) || yield_on_return k.
Proof.
  intros Hk Hx. destruct (running_thread_ok k Hk) as (x & E & _).
  unfold timer_interrupt. erewrite (bind_Ok (modify _)) by done. set (k1 := set_ticks _ k).
  assert (sched_ok k1) as Hk1 by (by apply (sched_ok_ext k)).
  unfold thread_tick. rewrite (bind_Ok _ _ _ _ _ (thread_current_run k1 Hk1)).
  erewrite (bind_Ok (gets idle_thread)) by done.
  rewrite (bind_Ok _ _ _ _ _ (load_thread_run k1 _ x E)).
  erewrite (bind_Ok (modify _)) by done. erewrite (bind_Ok (modify _)) by done.
  erewrite (bind_Ok (gets _)) by done. set (k2 := set_thread_ticks _ _).
  assert (sched_ok k2 ∧ same_objects k k2 ∧ running k2 = running k ∧ in_external_intr k2 = true ∧
    intr_level k2 = intr_level k ∧ threads k2 = threads k ∧ ready_list k2 = ready_list k ∧
    thread_ticks k2 = u32 (thread_ticks k + 1) ∧ yield_on_return k2 = yield_on_return k)
    as (Hk2 & Hso & Hr & Hx2 & Hl & Ht & Hrd & Hn & Hy).
  { unfold k2. destruct (running k1 =? idle_thread k1); [|destruct (negb (pagedir x =? NULL))];
      (split; [by apply (sched_ok_ext k)|]); done. }
  rewrite Hn. destruct (TIME_SLICE <=? _); [|by exists k2].
  exists (set_yield_on_return true k2). split_and!; try done.
  - unfold intr_yield_on_return, intr_context, bind, gets. by rewrite Hx2.
  - by apply (sched_ok_ext k2).
  - by destruct Hso.
Qed.

(** ** Consequences of a switch *)

(** The thread that runs next was alive, and was awake unless it is the idle thread. *)
Lemma switched_next k s k' : sched_ok k → switched k s k' →
  (∃ s', stat k (running k') = Some s' ∧ s' ≠ THREAD_DYING) ∧
  (running k' ≠ idle_thread k → stat k (running k') ≠ Some THREAD_BLOCKED) ∧
  (s ≠ THREAD_READY → running k ≠ idle_thread k → running k' ≠ running k).
Proof.
  intros Hk Hsw. assert (stat k (running k) = Some THREAD_RUNNING) as Hrun by (by apply (sk_run _ Hk)).
  destruct (tk_idle _ (sk_threads _ Hk)) as (si & Hsi & Hnd).
  destruct (sd_next _ _ _ Hsw) as [E|[E|[E Es]]]; rewrite ?E in *; split_and!; try done; eauto; congruence.
Qed.

(** Nobody but the thread that leaves dies or falls asleep. *)
Lemma switched_alive k s k' : sched_ok k → switched k s k' → s ≠ THREAD_DYING →
  ∀ t, (∃ x, stat k' t = Some x ∧ x ≠ THREAD_DYING) ↔ (∃ x, stat k t = Some x ∧ x ≠ THREAD_DYING).
Proof.
  intros Hk Hsw Hs t. destruct (switched_next _ _ _ Hk Hsw) as (Halive & _).
  assert (stat k (running k) = Some THREAD_RUNNING) as Hrun by (by apply (sk_run _ Hk)).
  rewrite (sd_stat _ _ _ Hsw). case_bool_decide; [subst t; naive_solver|].
  case_bool_decide; [|done]. subst t. rewrite bool_decide_eq_false_2 by naive_solver. naive_solver.
Qed.

Lemma switched_blocked k s k' : sched_ok k → switched k s k' →
  ∀ t, t ≠ running k → t ≠ idle_thread k → stat k' t = Some THREAD_BLOCKED ↔ stat k t = Some THREAD_BLOCKED.
Proof.
  intros Hk Hsw t Ht Hi. destruct (switched_next _ _ _ Hk Hsw) as (_ & Hn & _).
  rewrite (sd_stat _ _ _ Hsw). case_bool_decide; [subst t; split; [done|naive_solver]|].
  by rewrite bool_decide_eq_false_2.
Qed.

(** ** Threads of the examples *)

Definition main_thread : Z := 0xc0001000.
Definition sample_thread (i : Z) (st : thread_status) : thread :=
  mk_thread i st [] 0 PRI_DEFAULT NULL 3 [] NULL NULL THREAD_MAGIC.
