(* ===== verification/RoundRobin.v ===== *)
(** * Preemption and round robin (threads/thread.c, threads/interrupt.c)

    What the timer interrupt does to the running thread and the run queue, and that
    every ready thread gets the processor. *)

From S2P Require Import Prelude Bitmap FsState Palloc Thread ThreadSpec.

(** A timer interrupt, up to the return from it: [intr_handler] for an external
    interrupt, with the handler of the timer. *)
Definition timer_irq : K unit :=
  let! _ := modify (set_intr_level false) in
  let! yield := intr_handler_ext timer_interrupt in
  let! _ := (if yield then let! old := thread_yield in let! _ := intr_set_level old in ret tt
             else ret tt) in
  modify (set_intr_level true).

Fixpoint timer_irqs (n : nat) : K unit :=
  match n with O => ret tt | S n => let! _ := timer_irq in timer_irqs n end.

Lemma timer_irqs_app n m k k' : timer_irqs n k = Ok (tt, k') → timer_irqs (n + m) k = timer_irqs m k'.
Proof.
  revert k. induction n as [|n IH]; intros k; simpl; [by intros [= ->]|].
  intros ([] & k1 & E & E')%bind_inv. rewrite (bind_Ok _ _ _ _ _ E). auto.
Qed.

(** The state at an interrupt. *)
Record interruptible (k : kernel) : Prop := {
  it_sched : sched_ok k;
  it_ext : in_external_intr k = false;
  it_ticks : 0 ≤ thread_ticks k < TIME_SLICE }.

Lemma timer_irq_run k : interruptible k →
  ∃ k', timer_irq k = Ok (tt, k') ∧ interruptible k' ∧ idle_thread k' = idle_thread k ∧
    if thread_ticks k =? TIME_SLICE - 1 then
      thread_ticks k' = 0 ∧ running k' :: ready_list k' = dispatch (idle_thread k) (queue_of k THREAD_READY)
    else thread_ticks k' = thread_ticks k + 1 ∧ running k' = running k ∧ ready_list k' = ready_list k.
Proof.
  intros [Hk Hx Ht]. unfold TIME_SLICE in *.
  set (k1 := set_yield_on_return false (set_in_external_intr true (set_intr_level false k))).
  destruct (timer_interrupt_run k1) as (k2 & E2 & Hk2 & [Es Eh Ec Ei Ein Ex] & Hr & Hl & _ & Hrd & Hn & Hy);
    [by apply (sched_ok_ext k)|done|]. simpl in *.
  rewrite (uwrap_id 32) in Hn, Hy by (unfold in_u; lia). unfold TIME_SLICE in Hy.
  unfold timer_irq. erewrite (bind_Ok (modify _)) by done.
  set (k3 := set_in_external_intr false k2).
  assert (sched_ok k3) as Hk3 by (by apply (sched_ok_ext k2)).
  rewrite (bind_Ok (intr_handler_ext _) _ _ (yield_on_return k2) k3).
  2:{ unfold intr_handler_ext, intr_get_level, intr_context, gets, modify.
      unfold bind at 1 2 3 4 5 6. simpl. rewrite Hx. simpl. fold k1.
      rewrite (bind_Ok _ _ _ _ _ E2). unfold bind. rewrite Hl. simpl. by rewrite Ex. }
  rewrite Hy, orb_false_r. destruct (Z.eqb_spec (thread_ticks k) (4 - 1)) as [H3|H3].
  - rewrite (proj2 (Z.leb_le 4 (thread_ticks k + 1))) by lia.
    destruct (thread_yield_run k3 Hk3 eq_refl) as (k4 & E4 & Hsw).
    destruct (sd_same _ _ _ Hsw) as [_ _ _ Ei4 _ Ex4].
    rewrite (bind_Ok _ _ _ tt (set_intr_level (intr_level k3) k4)).
    2:{ rewrite (bind_Ok _ _ _ _ _ E4). erewrite (bind_Ok (intr_set_level _)); [done|].
        by apply intr_set_level_run. }
    eexists. split; [done|]. split_and!; simpl.
    + split; simpl; [by apply (sched_ok_ext k4), Hsw|done|]. rewrite (sd_ticks _ _ _ Hsw). done.
    + by rewrite Ei4.
    + apply Hsw.
    + rewrite (sd_queue _ _ _ Hsw). unfold queue_of. simpl. by rewrite Ei, Hr, Hrd.
  - rewrite (proj2 (Z.leb_gt 4 (thread_ticks k + 1))) by lia.
    erewrite (bind_Ok (ret tt)) by done. eexists. split; [done|]. split_and!; simpl; try done.
    split; simpl; [by apply (sched_ok_ext k2)|done|]. unfold TIME_SLICE. lia.
Qed.

(** The rest of the running thread's time slice. *)
Lemma time_slice_run n k : interruptible k → Z.of_nat n = TIME_SLICE - 1 - thread_ticks k →
  ∃ k', timer_irqs (S n) k = Ok (tt, k') ∧ interruptible k' ∧ thread_ticks k' = 0 ∧
    running k' :: ready_list k' = dispatch (idle_thread k) (queue_of k THREAD_READY).
Proof.
  revert k. induction n as [|n IH]; intros k Hk Hn;
    destruct (timer_irq_run k Hk) as (k1 & E1 & Hk1 & Hi & Hst); simpl timer_irqs;
    rewrite (bind_Ok _ _ _ _ _ E1).
  - rewrite (proj2 (Z.eqb_eq _ _)) in Hst by lia. exists k1. naive_solver.
  - rewrite (proj2 (Z.eqb_neq _ _)) in Hst by lia. destruct Hst as (Ht & Hr & Hq).
    destruct (IH k1 Hk1 ltac:(lia)) as (k' & E' & Hk' & Ht' & Hd). exists k'.
    unfold queue_of in *. rewrite Hr, Hq, Hi in Hd. done.
Qed.

(** C31. Every ready thread gets the processor: the [i]-th thread of the run queue is
    running after the rest of the current time slice and [i] more slices, when the
    threads in front of it do not give up the processor sooner. *)
Theorem round_robin k i t : interruptible k → ready_list k !! i = Some t →
  ∃ k', timer_irqs (4 * S i - Z.to_nat (thread_ticks k)) k = Ok (tt, k') ∧
        running k' = t ∧ interruptible k' ∧ stat k' t = Some THREAD_RUNNING.
Proof.
  intros Hk Hi.
  cut (∃ k', timer_irqs (4 * S i - Z.to_nat (thread_ticks k)) k = Ok (tt, k') ∧ running k' = t ∧ interruptible k').
  { intros (k' & ? & Hr & Hk'). exists k'. split_and!; try done. by apply (sk_run _ (it_sched _ Hk')). }
  revert k Hk Hi. induction i as [|i IH]; intros k Hk Hi; pose proof (it_ticks _ Hk) as Ht;
    unfold TIME_SLICE in Ht; set (n := (3 - Z.to_nat (thread_ticks k))%nat);
    destruct (time_slice_run n k Hk ltac:(unfold TIME_SLICE; lia)) as (k1 & E1 & Hk1 & Ht1 & Hq).
  all: assert (queue_of k THREAD_READY !! 0%nat = Some (running k1) ∧
               ready_list k1 = tail (queue_of k THREAD_READY)) as [H0 Hrest].
  1,3: destruct (queue_of k THREAD_READY) as [|u us] eqn:Eq; [|by injection Hq as -> ->];
    exfalso; unfold queue_of in Eq; case_bool_decide; [by destruct (ready_list k)|by rewrite Eq in Hi].
  all: assert (∀ j v, ready_list k !! j = Some v → queue_of k THREAD_READY !! j = Some v) as Hin
    by (intros j v Hj; unfold queue_of; case_bool_decide; [by apply lookup_app_l_Some|done]).
  - exists k1. replace (4 * 1 - _)%nat with (S n) by lia. split_and!; try done.
    apply Hin in Hi. congruence.
  - destruct (IH k1 Hk1) as (k' & E' & Hr & Hk').
    { rewrite Hrest, lookup_tail. by apply Hin. }
    exists k'. replace (4 * S (S i) - _)%nat with (S n + (4 * S i - Z.to_nat (thread_ticks k1)))%nat by lia.
    by rewrite (timer_irqs_app _ _ _ _ E1).
Qed.

(** The initial thread is two ticks into its slice; one thread is ready. *)
Definition sample_run : kernel :=
  mk_kernel {[ main_thread := sample_thread 1 THREAD_RUNNING; 0xc0102000 := sample_thread 2 THREAD_BLOCKED;
               0xc0103000 := sample_thread 3 THREAD_READY ]}
    [main_thread; 0xc0102000; 0xc0103000] [0xc0103000] main_thread 0xc0102000 main_thread 4 2 0 0 0 true false
    false ∅ ∅ ∅ 0 sample_pools.

Lemma sample_run_ok : interruptible sample_run.
Proof.
  split; [|done..]. split; [split|..].
  - intros t x H. simpl in H. lookups; done.
  - apply NoDup_singleton.
  - intros t. simpl. rewrite list_elem_of_singleton. split; [by intros ->|].
    intros [Hs _]. apply stat_Some in Hs as (x & H & Hx). simpl in H. by lookups.
  - by exists THREAD_BLOCKED.
  - apply sample_pools_ok.
  - intros t [x H]. simpl in H. lookups; [done|exists 0|exists 1]; simpl; (split_and!; [lia|lia|done|done]).
  - done.
  - intros t. split; [|intros ->; done]. intros Hs. apply stat_Some in Hs as (x & H & Hx). simpl in H. by lookups.
  - intros t Hs. apply stat_Some in Hs as (x & H & Hx). simpl in H. by lookups.
Qed.

Lemma round_robin_witness :
  ∃ k', timer_irqs 2 sample_run = Ok (tt, k') ∧ running k' = 0xc0103000.
Proof.
  destruct (round_robin sample_run 0 0xc0103000 sample_run_ok eq_refl) as (k' & E & Hr & _).
  exists k'. split; [exact E|exact Hr].
Defined.
