(* ===== verification/Queues.v ===== *)
(** * Wait queues and lock tokens

    The invariants of threads/synch.c, on what they speak of: the states of the
    threads, the semaphore each thread is about to test, the semaphores, and how
    far each thread is with a lock.  The steps of the machine of Synch are
    instances of the changes considered here. *)

From S2P Require Import Prelude Bitmap FsState Palloc Thread.

(** ** Wait queues *)

Section Queues.
Context (idle : Z).

(** A sleeping thread is in the queue of the semaphore it will test, and the
    threads in a queue are asleep.  When a semaphore with waiting threads has a
    positive value, as many threads are awake and about to test it: no wake-up
    is lost. *)
Record queues (st : Z → option thread_status) (top : Z → option Z) (sm : gmap Z semaphore) : Prop := {
  q_blocked t : st t = Some THREAD_BLOCKED → t ≠ idle →
    ∃ s x, top t = Some s ∧ sm !! s = Some x ∧ t ∈ waiters x;
  q_waiting s x t : sm !! s = Some x → t ∈ waiters x →
    st t = Some THREAD_BLOCKED ∧ t ≠ idle ∧ top t = Some s;
  q_nodup s x : sm !! s = Some x → NoDup (waiters x);
  q_value s x : sm !! s = Some x → 0 ≤ value x < 2 ^ 32;
  q_wakeup s x : sm !! s = Some x → waiters x ≠ [] →
    ∃ ts, NoDup ts ∧ (∀ t, t ∈ ts → top t = Some s ∧ st t ≠ Some THREAD_BLOCKED) ∧
      value x ≤ Z.of_nat (length ts) }.

(** Nobody falls asleep or wakes up, and who is about to test stays so. *)
Lemma queues_view st top sm st' top' :
  queues st top sm →
  (∀ t, t ≠ idle → st' t = Some THREAD_BLOCKED ↔ st t = Some THREAD_BLOCKED) →
  (∀ t, t ≠ idle → st t = Some THREAD_BLOCKED → top' t = top t) →
  (∀ t s, top t = Some s → st t ≠ Some THREAD_BLOCKED →
     top' t = Some s ∧ st' t ≠ Some THREAD_BLOCKED) →
  queues st' top' sm.
Proof.
  intros [Hb Hw Hn Hv Hk] Hst Htop Hawake. split; try done.
  - intros t Ht Hi. apply Hst in Ht; [|done]. rewrite Htop by done. by apply Hb.
  - intros s x t Hs Ht. destruct (Hw s x t Hs Ht) as (H1 & H2 & H3).
    rewrite Htop by done. split_and!; [by apply Hst|done|done].
  - intros s x Hs Hne. destruct (Hk s x Hs Hne) as (ts & Hnd & Hts & Hle). exists ts.
    split_and!; [done| |done]. intros t Ht. destruct (Hts t Ht). by apply Hawake.
Qed.

(** A running thread takes one from a positive value. *)
Lemma queues_down st top sm top' s x t :
  queues st top sm → sm !! s = Some x → value x ≠ 0 → st t ≠ Some THREAD_BLOCKED →
  (∀ u, u ≠ t → top' u = top u) → (top t = Some s ∨ top t = None) →
  queues st top' (<[s := mk_sema (u32 (value x - 1)) (waiters x)]> sm).
Proof.
  intros [Hb Hw Hn Hv Hk] Hs Hx Ht Htop Hor. pose proof (Hv s x Hs).
  rewrite (uwrap_id 32) by (unfold in_u; lia). split.
  - intros u Hu Hi. destruct (Hb u Hu Hi) as (s' & x' & H1 & H2 & H3).
    rewrite Htop by congruence. destruct (decide (s' = s)) as [->|Hne].
    + exists s, (mk_sema (value x - 1) (waiters x)). rewrite lookup_insert_eq.
      by replace x' with x in H3 by congruence.
    + exists s', x'. by rewrite lookup_insert_ne.
  - intros s' x' u. rewrite lookup_insert_Some. intros [[<- <-]|[_ Hs']] Hu; simpl in *.
    + destruct (Hw s x u Hs Hu) as (? & ? & ?). rewrite Htop by congruence. done.
    + destruct (Hw s' x' u Hs' Hu) as (? & ? & ?). rewrite Htop by congruence. done.
  - intros s' x'. rewrite lookup_insert_Some. intros [[<- <-]|[_ Hs']]; simpl; eauto.
  - intros s' x'. rewrite lookup_insert_Some. intros [[<- <-]|[_ Hs']]; simpl; [lia|eauto].
  - intros s' x'. rewrite lookup_insert_Some. intros [[<- <-]|[Hne Hs']] Hwt; simpl in *.
    + destruct (Hk s x Hs Hwt) as (ts & Hnd & Hts & Hle). exists (filter (λ u, u ≠ t) ts).
      split_and!; [by apply list.NoDup_filter|..].
      * intros u [Hut Hu]%list_elem_of_filter. rewrite Htop by done. by apply Hts.
      * pose proof (length_filter_ne t ts Hnd). lia.
    + destruct (Hk s' x' Hs' Hwt) as (ts & Hnd & Hts & Hle). exists ts. split_and!; [done| |done].
      intros u Hu. destruct (Hts u Hu) as [Hut ?]. rewrite Htop; [done|]. intros ->. naive_solver.
Qed.

(** A running thread finds the value 0 and goes to sleep. *)
Lemma queues_sleep st top sm st' top' s x t :
  queues st top sm → sm !! s = Some x → value x = 0 → st t ≠ Some THREAD_BLOCKED → t ≠ idle →
  st' t = Some THREAD_BLOCKED → top' t = Some s → top idle = None →
  (∀ u, u ≠ t → u ≠ idle → st' u = Some THREAD_BLOCKED ↔ st u = Some THREAD_BLOCKED) →
  (∀ u, u ≠ t → top' u = top u) → (top t = Some s ∨ top t = None) →
  queues st' top' (<[s := mk_sema (value x) (waiters x ++ [t])]> sm).
Proof.
  intros [Hb Hw Hn Hv Hk] Hs Hx Ht Hti Ht' Htt' Hidle Hst Htop Hor.
  assert (∀ s' x', sm !! s' = Some x' → t ∉ waiters x') as Hnin.
  { intros s' x' Hs' Hin. by destruct (Hw s' x' t Hs' Hin). }
  split.
  - intros u Hu Hi. destruct (decide (u = t)) as [->|Hut].
    + eexists s, _. rewrite lookup_insert_eq. split_and!; [done..|]. set_solver.
    + apply Hst in Hu; [|done..]. destruct (Hb u Hu Hi) as (s' & x' & H1 & H2 & H3).
      rewrite Htop by done. destruct (decide (s' = s)) as [->|Hne].
      * eexists s, _. rewrite lookup_insert_eq. split_and!; [done..|].
        replace x' with x in H3 by congruence. set_solver.
      * exists s', x'. by rewrite lookup_insert_ne.
  - intros s' x' u. rewrite lookup_insert_Some. intros [[<- <-]|[Hne Hs']] Hu; simpl in *.
    + apply elem_of_app in Hu as [Hu| ->%list_elem_of_singleton]; [|done].
      destruct (Hw s x u Hs Hu) as (? & ? & ?). assert (u ≠ t) by congruence.
      rewrite Htop by done. split_and!; [by apply Hst|done|done].
    + destruct (Hw s' x' u Hs' Hu) as (? & ? & ?). assert (u ≠ t) by congruence.
      rewrite Htop by done. split_and!; [by apply Hst|done|done].
  - intros s' x'. rewrite lookup_insert_Some. intros [[<- <-]|[_ Hs']]; simpl; [|eauto].
    apply list.NoDup_app. split_and!; [eauto| |apply NoDup_singleton].
    intros u Hu ->%list_elem_of_singleton. by apply (Hnin s x).
  - intros s' x'. rewrite lookup_insert_Some. intros [[<- <-]|[_ Hs']]; simpl; eauto.
  - intros s' x'. rewrite lookup_insert_Some. intros [[<- <-]|[Hne Hs']] Hwt; simpl in *.
    + exists []. split_and!; [apply NoDup_nil_2|set_solver|simpl; lia].
    + destruct (Hk s' x' Hs' Hwt) as (ts & Hnd & Hts & Hle). exists ts. split_and!; [done| |done].
      intros u Hu. destruct (Hts u Hu) as [Hu1 Hu2]. assert (u ≠ t) by naive_solver.
      assert (u ≠ idle) by congruence. rewrite Htop by done. split; [done|]. by rewrite Hst.
Qed.

(** A thread that waits is woken up. *)
Lemma queues_wake st top sm st' top' s x t ts :
  queues st top sm → sm !! s = Some x → waiters x = t :: ts →
  st' t = Some THREAD_READY → (∀ u, u ≠ t → st' u = st u) →
  (∀ u, st u = Some THREAD_BLOCKED ∨ is_Some (top u) → top' u = top u) →
  queues st' top' (<[s := mk_sema (u32 (value x + 1)) ts]> sm).
Proof.
  intros [Hb Hw Hn Hv Hk] Hs Hx Ht' Hst Htop.
  destruct (Hw s x t Hs) as (Ht & Hti & Htt); [rewrite Hx; set_solver|].
  pose proof (Hn s x Hs) as Hnd. rewrite Hx in Hnd. apply list.NoDup_cons in Hnd as [Htn Hnd].
  assert (∀ s' x', sm !! s' = Some x' → s' ≠ s → t ∉ waiters x') as Hnin.
  { intros s' x' Hs' Hne Hin. destruct (Hw s' x' t Hs' Hin) as (_ & _ & ?). congruence. }
  pose proof (Hv s x Hs). pose proof (uwrap_range 32 (value x + 1) ltac:(lia)) as Hrange.
  split.
  - intros u Hu Hi. assert (u ≠ t) as Hut by congruence. rewrite Hst in Hu by done.
    destruct (Hb u Hu Hi) as (s' & x' & H1 & H2 & H3). rewrite Htop by auto.
    destruct (decide (s' = s)) as [->|Hne].
    + eexists s, _. rewrite lookup_insert_eq. split_and!; [done..|]. simpl.
      replace x' with x in H3 by congruence. rewrite Hx in H3. set_solver.
    + exists s', x'. by rewrite lookup_insert_ne.
  - intros s' x' u. rewrite lookup_insert_Some. intros [[<- <-]|[Hne Hs']] Hu; simpl in *.
    + destruct (Hw s x u Hs) as (? & ? & ?); [rewrite Hx; set_solver|].
      rewrite Htop, Hst by (auto || set_solver). done.
    + destruct (Hw s' x' u Hs' Hu) as (? & ? & ?). rewrite Htop by auto.
      rewrite Hst; [done|]. intros ->. by apply (Hnin s' x').
  - intros s' x'. rewrite lookup_insert_Some. intros [[<- <-]|[_ Hs']]; simpl; eauto.
  - intros s' x'. rewrite lookup_insert_Some. intros [[<- <-]|[_ Hs']]; simpl; [done|eauto].
  - intros s' x'. rewrite lookup_insert_Some. intros [[<- <-]|[Hne Hs']] Hwt; simpl in *.
    + destruct (Hk s x Hs) as (us & Hndu & Hus & Hle); [by rewrite Hx|].
      exists (t :: us). split_and!.
      * apply list.NoDup_cons. split; [|done]. intros Hin. by destruct (Hus t Hin).
      * intros u [->|Hu]%elem_of_cons; [rewrite Htop by eauto; by rewrite Ht'|].
        destruct (Hus u Hu). rewrite Htop by eauto. rewrite Hst by congruence. done.
      * simpl. pose proof (uwrap_le 32 (value x + 1)). lia.
    + destruct (Hk s' x' Hs' Hwt) as (us & Hndu & Hus & Hle). exists us. split_and!; [done| |done].
      intros u Hu. destruct (Hus u Hu). rewrite Htop by eauto. rewrite Hst by congruence. done.
Qed.

(** The semaphore [s] gets a new value; nobody waits on it. *)
Lemma queues_set st top sm top' s v :
  queues st top sm → (∀ x, sm !! s = Some x → waiters x = []) → 0 ≤ v < 2 ^ 32 →
  (∀ u, st u = Some THREAD_BLOCKED ∨ is_Some (top u) → top' u = top u) →
  queues st top' (<[s := mk_sema v []]> sm).
Proof.
  intros [Hb Hw Hn Hv Hk] Hs Hr Htop. split.
  - intros u Hu Hi. destruct (Hb u Hu Hi) as (s' & x' & H1 & H2 & H3). rewrite Htop by auto.
    exists s', x'. rewrite lookup_insert_ne; [done|]. intros ->. rewrite (Hs x') in H3 by done. set_solver.
  - intros s' x' u. rewrite lookup_insert_Some. intros [[<- <-]|[Hne Hs']] Hu; [set_solver|].
    destruct (Hw s' x' u Hs' Hu) as (? & ? & ?). rewrite Htop by auto. done.
  - intros s' x'. rewrite lookup_insert_Some. intros [[<- <-]|[_ Hs']]; [apply NoDup_nil_2|eauto].
  - intros s' x'. rewrite lookup_insert_Some. intros [[<- <-]|[_ Hs']]; [done|eauto].
  - intros s' x'. rewrite lookup_insert_Some. intros [[<- <-]|[Hne Hs']] Hwt; [done|].
    destruct (Hk s' x' Hs' Hwt) as (us & Hndu & Hus & Hle). exists us. split_and!; [done| |done].
    intros u Hu. destruct (Hus u Hu). rewrite Htop by eauto. done.
Qed.
End Queues.

(** ** Lock tokens *)

(** How far a thread is with a lock: it has nothing of it; it has lowered the
    semaphore but is not the holder yet; it is the holder; it is the holder no
    more but has not raised the semaphore yet. *)
Inductive lock_state := Free | Got | Held | Given.

#[export] Instance lock_state_eq_dec : EqDecision lock_state.
Proof. solve_decision. Defined.

(** The value [v] of the lock's semaphore and the one thread that has to raise it
    again make one; [h], the recorded holder, is the thread that holds the lock. *)
Record token (ls : Z → lock_state) (v h : Z) : Prop := {
  tk_token : (v = 1 ∧ ∀ t, ls t = Free) ∨
             (v = 0 ∧ ∃ t, ls t ≠ Free ∧ ∀ u, ls u ≠ Free → u = t);
  tk_holder t : ls t = Held ↔ h = t ∧ t ≠ NULL }.

Lemma token_ext ls ls' v h : token ls v h → (∀ t, ls' t = ls t) → token ls' v h.
Proof. intros [Ht Hh] E. split; [|by setoid_rewrite E]. setoid_rewrite E. done. Qed.

Section Token.
Context (ls ls' : Z → lock_state) (v h t : Z) (Htoken : token ls v h).
Hypothesis (Hother : ∀ u, u ≠ t → ls' u = ls u).

(** The thread that is not [Free] is the only one. *)
Lemma token_unique u : ls t ≠ Free → ls u ≠ Free → u = t.
Proof.
  intros Ht Hu. destruct (tk_token _ _ _ Htoken) as [[_ Hf]|(_ & w & _ & Hw)]; [by rewrite Hf in Ht|].
  rewrite (Hw u Hu). symmetry. by apply Hw.
Qed.

Lemma token_value : ls t ≠ Free → v = 0.
Proof. intros Ht. destruct (tk_token _ _ _ Htoken) as [[_ Hf]|[? _]]; [by rewrite Hf in Ht|done]. Qed.

Lemma token_take : v ≠ 0 → ls' t = Got → token ls' 0 h ∧ v = 1.
Proof.
  intros Hv Ht. destruct (tk_token _ _ _ Htoken) as [[-> Hf]|[-> _]]; [|done]. split; [|done]. split.
  - right. split; [done|]. exists t. split; [by rewrite Ht|]. intros u Hu.
    destruct (decide (u = t)); [done|]. rewrite Hother in Hu by done. by rewrite Hf in Hu.
  - intros u. destruct (decide (u = t)) as [->|Hu]; [|rewrite Hother by done; by apply Htoken].
    rewrite Ht. split; [done|]. intros Hh. apply (tk_holder _ _ _ Htoken) in Hh. by rewrite Hf in Hh.
Qed.

Lemma token_own : ls t = Got → ls' t = Held → t ≠ NULL → token ls' v t.
Proof.
  intros Ht Ht' Hn. split.
  - right. split; [apply token_value; by rewrite Ht|]. exists t. rewrite Ht'. split; [done|].
    intros u Hu. destruct (decide (u = t)); [done|]. rewrite Hother in Hu by done.
    apply token_unique; [by rewrite Ht|done].
  - intros u. destruct (decide (u = t)) as [->|Hu]; [by rewrite Ht'|]. rewrite Hother by done.
    split; [|naive_solver]. intros Hheld. exfalso. apply Hu, token_unique; [by rewrite Ht|by rewrite Hheld].
Qed.

Lemma token_disown : ls t = Held → ls' t = Given → token ls' v NULL.
Proof.
  intros Ht Ht'. split.
  - right. split; [apply token_value; by rewrite Ht|]. exists t. rewrite Ht'. split; [done|].
    intros u Hu. destruct (decide (u = t)); [done|]. rewrite Hother in Hu by done.
    apply token_unique; [by rewrite Ht|done].
  - intros u. destruct (decide (u = t)) as [->|Hu]; [rewrite Ht'; naive_solver|]. rewrite Hother by done.
    split; [|naive_solver]. intros Hheld. exfalso. apply Hu, token_unique; [by rewrite Ht|by rewrite Hheld].
Qed.

Lemma token_give : ls t = Given → ls' t = Free → token ls' 1 h ∧ v = 0.
Proof.
  intros Ht Ht'. split; [|apply token_value; by rewrite Ht]. split.
  - left. split; [done|]. intros u. destruct (decide (u = t)) as [->|Hu]; [done|].
    rewrite Hother by done. destruct (decide (ls u = Free)) as [|Hf]; [done|].
    exfalso. apply Hu, token_unique; [by rewrite Ht|done].
  - intros u. destruct (decide (u = t)) as [->|Hu]; [|rewrite Hother by done; by apply Htoken].
    rewrite Ht'. split; [done|]. intros Hh. apply (tk_holder _ _ _ Htoken) in Hh. congruence.
Qed.
End Token.
