(* ===== verification/Synch.v ===== *)
(** * Semaphores, locks and condition variables (threads/synch.c)

    A function that cannot sleep is one step.  A function that can is cut at the
    calls of [schedule] and wherever interrupts are on: what is left of it is a
    [frame] on the thread's stack.  The machine at the end of the file runs the
    frames of all threads in the order the scheduler and the interrupts choose. *)

From S2P Require Import Prelude Bitmap FsState Palloc Thread.

(** [struct lock] is the holder followed by the semaphore.  The [semaphore_elem]
    of [cond_wait] is on the stack of the thread that waits, which has at most
    one at a time: its semaphore is named by an address in the thread's page. *)
Definition lock_semaphore (lock : Z) : Z := lock + 4.
Definition waiter_semaphore (t : Z) : Z := t + 2048.

Definition load_sema (s : Z) : K semaphore := λ k,
  match semas k !! s with Some x => Ok (x, k) | None => Undef end.
Definition store_sema (s : Z) (x : semaphore) : K unit :=
  modify (λ k, set_semas (<[s := x]> (semas k)) k).

(** ** Semaphores *)

Definition sema_init (sema value : Z) : K unit :=
  let! _ := ASSERT (negb (sema =? NULL)) in store_sema sema (mk_sema value []).

(** The loop of [sema_down], with interrupts off: one test of the value.  The
    result is [false] when the thread went to sleep, and has to test again when
    it next runs. *)
Definition sema_down_loop (sema : Z) (old : bool) : K bool :=
  let! s := load_sema sema in
  if value s =? 0 then
    let! t := thread_current in
    let! _ := store_sema sema (mk_sema (value s) (waiters s ++ [t])) in
    let! _ := thread_block in
    ret false
  else
    let! _ := store_sema sema (mk_sema (u32 (value s - 1)) (waiters s)) in
    let! _ := intr_set_level old in
    ret true.

(** [sema_down] up to its loop. *)
Definition sema_down_enter (sema : Z) : K bool :=
  let! _ := ASSERT (negb (sema =? NULL)) in
  let! c := intr_context in
  let! _ := ASSERT (negb c) in
  intr_disable.

Definition sema_try_down (sema : Z) : K bool :=
  let! _ := ASSERT (negb (sema =? NULL)) in
  let! old := intr_disable in
  let! s := load_sema sema in
  let! success :=
    (if 0 <? value s then
       let! _ := store_sema sema (mk_sema (u32 (value s - 1)) (waiters s)) in ret true
     else ret false) in
  let! _ := intr_set_level old in
  ret success.

Definition sema_up (sema : Z) : K unit :=
  let! _ := ASSERT (negb (sema =? NULL)) in
  let! old := intr_disable in
  let! s := load_sema sema in
  let! _ :=
    (match waiters s with
     | [] => ret tt
     | t :: ts =>
         let! _ := store_sema sema (mk_sema (value s) ts) in
         thread_unblock t
     end) in
  let! s := load_sema sema in
  let! _ := store_sema sema (mk_sema (u32 (value s + 1)) (waiters s)) in
  let! _ := intr_set_level old in
  ret tt.

(** ** Locks *)

Definition load_holder (lock : Z) : K Z := λ k,
  match holders k !! lock with Some t => Ok (t, k) | None => Undef end.
Definition store_holder (lock t : Z) : K unit :=
  modify (λ k, set_holders (<[lock := t]> (holders k)) k).

Definition lock_init (lock : Z) : K unit :=
  let! _ := ASSERT (negb (lock =? NULL)) in
  let! _ := store_holder lock NULL in
  sema_init (lock_semaphore lock) 1.

Definition lock_held_by_current_thread (lock : Z) : K bool :=
  let! _ := ASSERT (negb (lock =? NULL)) in
  let! h := load_holder lock in
  let! t := thread_current in
  ret (h =? t).

(** [lock_acquire] before and after its [sema_down]. *)
Definition lock_acquire_enter (lock : Z) : K unit :=
  let! _ := ASSERT (negb (lock =? NULL)) in
  let! c := intr_context in
  let! _ := ASSERT (negb c) in
  let! held := lock_held_by_current_thread lock in
  ASSERT (negb held).
Definition lock_acquire_own (lock : Z) : K unit :=
  let! t := thread_current in store_holder lock t.

Definition lock_try_acquire (lock : Z) : K bool :=
  let! _ := ASSERT (negb (lock =? NULL)) in
  let! held := lock_held_by_current_thread lock in
  let! _ := ASSERT (negb held) in
  let! success := sema_try_down (lock_semaphore lock) in
  let! _ := (if success then let! t := thread_current in store_holder lock t else ret tt) in
  ret success.

(** [lock_release] before its [sema_up]. *)
Definition lock_release_disown (lock : Z) : K unit :=
  let! _ := ASSERT (negb (lock =? NULL)) in
  let! held := lock_held_by_current_thread lock in
  let! _ := ASSERT held in
  store_holder lock NULL.

(** ** Condition variables *)

Definition load_cond (cond : Z) : K (list Z) := λ k,
  match conds k !! cond with Some l => Ok (l, k) | None => Undef end.
Definition store_cond (cond : Z) (l : list Z) : K unit :=
  modify (λ k, set_conds (<[cond := l]> (conds k)) k).

Definition cond_init (cond : Z) : K unit :=
  let! _ := ASSERT (negb (cond =? NULL)) in store_cond cond [].

(** [cond_wait] up to its [lock_release]: the semaphore the thread will wait on. *)
Definition cond_wait_enter (cond lock : Z) : K Z :=
  let! _ := ASSERT (negb (cond =? NULL)) in
  let! _ := ASSERT (negb (lock =? NULL)) in
  let! c := intr_context in
  let! _ := ASSERT (negb c) in
  let! held := lock_held_by_current_thread lock in
  let! _ := ASSERT held in
  let! t := thread_current in
  let waiter := waiter_semaphore t in
  let! _ := sema_init waiter 0 in
  let! l := load_cond cond in
  let! _ := store_cond cond (l ++ [waiter]) in
  ret waiter.

(** [cond_signal] up to its [sema_up]: the semaphore to raise, if any. *)
Definition cond_signal_enter (cond lock : Z) : K (option Z) :=
  let! _ := ASSERT (negb (cond =? NULL)) in
  let! _ := ASSERT (negb (lock =? NULL)) in
  let! c := intr_context in
  let! _ := ASSERT (negb c) in
  let! held := lock_held_by_current_thread lock in
  let! _ := ASSERT held in
  let! l := load_cond cond in
  match l with
  | [] => ret None
  | w :: ws => let! _ := store_cond cond ws in ret (Some w)
  end.

(** The test of the loop of [cond_broadcast]. *)
Definition cond_broadcast_more (cond lock : Z) : K bool :=
  let! _ := ASSERT (negb (cond =? NULL)) in
  let! _ := ASSERT (negb (lock =? NULL)) in
  let! l := load_cond cond in
  ret (negb (bool_decide (l = []))).

(** ** The machine *)

(** What a thread has left to do: the calls its code makes, and the rest of a
    call that has begun. *)
Inductive frame :=
| Sema_down (sema : Z)
| Sema_down_loop (sema : Z) (old : bool)
| Sema_up (sema : Z)
| Lock_acquire (lock : Z)
| Lock_own (lock : Z)
| Lock_release (lock : Z)
| Cond_wait (cond lock : Z)
| Cond_signal (cond lock : Z)
| Cond_broadcast (cond lock : Z)
| Yield
| Set_level (level : bool)
| Iret
| Create (name : list Z) (prio function aux : Z)
| Idle_block
| Idle_hlt.

(** What a handler of a device interrupt does: the timer's counts, a disk's raises
    the semaphore its driver waits on. *)
Inductive handler := Timer | Completion (sema : Z).

Definition run_handler (h : handler) : K unit :=
  match h with Timer => timer_interrupt | Completion s => sema_up s end.

(** The devices raise the semaphores [devices]. *)
Definition handler_ok (devices : gset Z) (h : handler) : Prop :=
  match h with Timer => True | Completion s => s ∈ devices end.

(** The kernel and the code each thread has left. *)
Record config := mk_config { kern : kernel; code : gmap Z (list frame) }.

Section Machine.
(** The code of the thread functions, the symbols a new thread's stack names, and
    the semaphores devices raise. *)
Context (program : Z → list frame) (kernel_thread switch_entry : Z) (devices : gset Z).

(** The first step of a frame, and the frames that replace it. *)
Definition exec (f : frame) : K (list frame) :=
  match f with
  | Sema_down s => let! old := sema_down_enter s in
                   let! down := sema_down_loop s old in
                   ret (if down then [] else [Sema_down_loop s old])
  | Sema_down_loop s old => let! down := sema_down_loop s old in
                            ret (if down then [] else [Sema_down_loop s old])
  | Sema_up s => let! _ := sema_up s in ret []
  | Lock_acquire l => let! _ := lock_acquire_enter l in
                      ret [Sema_down (lock_semaphore l); Lock_own l]
  | Lock_own l => let! _ := lock_acquire_own l in ret []
  | Lock_release l => let! _ := lock_release_disown l in ret [Sema_up (lock_semaphore l)]
  | Cond_wait c l => let! w := cond_wait_enter c l in
                     ret [Lock_release l; Sema_down w; Lock_acquire l]
  | Cond_signal c l => let! w := cond_signal_enter c l in
                       ret (match w with Some w => [Sema_up w] | None => [] end)
  | Cond_broadcast c l => let! more := cond_broadcast_more c l in
                          ret (if more then [Cond_signal c l; Cond_broadcast c l] else [])
  | Yield => let! old := thread_yield in ret [Set_level old]
  | Set_level level => let! _ := intr_set_level level in ret []
  | Iret => let! _ := modify (set_intr_level true) in ret []
  | Create nm prio fn aux => let! _ := thread_create kernel_thread switch_entry nm prio fn aux in ret []
  | Idle_block => let! _ := intr_disable in
                  let! _ := thread_block in ret [Idle_hlt]
  | Idle_hlt => let! _ := modify (set_intr_level true) in ret [Idle_block]
  end.

(** [kernel_thread]: enable interrupts, call the function. *)
Definition start (function : Z) : list frame := Set_level true :: program function.

(** A new thread is at the end of the run queue; its code is its function's. *)
Definition spawn (f : frame) (k k' : kernel) (code : gmap Z (list frame)) : gmap Z (list frame) :=
  match f, reverse (ready_list k') with
  | Create _ _ fn _, t :: _ =>
      if bool_decide (threads k !! t = None) then <[t := start fn]> code else code
  | _, _ => code
  end.

(** The next step of the running thread.  When its function has returned it
    exits. *)
Definition thread_step (c : config) : outcome config :=
  let t := running (kern c) in
  match code c !! t with
  | None => Undef
  | Some [] => let? '(_, k) := thread_exit (kern c) in Ok (mk_config k (delete t (code c)))
  | Some (f :: fs) =>
      let? '(fs', k) := exec f (kern c) in
      Ok (mk_config k (spawn f (kern c) k (<[t := fs' ++ fs]> (code c))))
  end.

(** An external interrupt, which the processor takes with interrupts off, and on
    return from which they are on again. *)
Definition interrupt (h : handler) (c : config) : outcome config :=
  let t := running (kern c) in
  match code c !! t with
  | None => Undef
  | Some fs =>
      let? '(yield, k) := intr_handler_ext (run_handler h) (set_intr_level false (kern c)) in
      if yield then
        let? '(old, k) := thread_yield k in
        Ok (mk_config k (<[t := Set_level old :: Iret :: fs]> (code c)))
      else Ok (mk_config (set_intr_level true k) (code c))
  end.

(** What can happen next: a step of the running thread, or an interrupt while
    they are on. *)
Inductive step (c : config) : config → Prop :=
| step_thread c' : thread_step c = Ok c' → step c c'
| step_interrupt h c' : handler_ok devices h → intr_level (kern c) = true → interrupt h c = Ok c' → step c c'.
End Machine.
