(* ===== verification/SynchSpec.v ===== *)
(** * The invariant of the thread system

    Any number of threads run code that follows the rules of synch.h, preempted
    by timer and device interrupts at any time interrupts are on.  This file states
    the invariant of such a system and shows that every step keeps it and that no
    step fails an assertion. *)

From S2P Require Import Prelude Bitmap FsState Palloc Thread ThreadSpec Queues Synch.

(** ** What threads do with a lock *)

(** The state of a lock a frame needs, and the one it leaves. *)
Definition lock_frame (l : Z) (f : frame) : option (lock_state * lock_state) :=
  match f with
  | Lock_acquire l' => if l' =? l then Some (Free, Held) else None
  | Sema_down s | Sema_down_loop s _ => if s =? lock_semaphore l then Some (Free, Got) else None
  | Lock_own l' => if l' =? l then Some (Got, Held) else None
  | Lock_release l' => if l' =? l then Some (Held, Free) else None
  | Sema_up s => if s =? lock_semaphore l then Some (Given, Free) else None
  | Cond_wait _ l' | Cond_signal _ l' | Cond_broadcast _ l' =>
      if l' =? l then Some (Held, Held) else None
  | _ => None
  end.

(** The state a thread has the lock in, which is what the next frame about the lock
    needs; code that is not about the lock any more has nothing of it. *)
Fixpoint state_of (l : Z) (fs : list frame) : lock_state :=
  match fs with
  | [] => Free
  | f :: fs => match lock_frame l f with Some (a, _) => a | None => state_of l fs end
  end.

(** Every frame leaves the lock as the next one needs it: the lock is released only
    while it is held, and is not acquired twice. *)
Fixpoint disciplined (l : Z) (fs : list frame) : bool :=
  match fs with
  | [] => true
  | f :: fs =>
      match lock_frame l f with
      | Some (_, b) => bool_decide (state_of l fs = b)
      | None => true
      end && disciplined l fs
  end.

(** The semaphore the thread is about to test again. *)
Definition top_of (fs : list frame) : option Z :=
  match fs with Sema_down_loop s _ :: _ => Some s | _ => None end.
Definition not_loop (f : frame) : bool := match f with Sema_down_loop _ _ => false | _ => true end.

(** The idle thread only blocks, and comes back from interrupts; the others never do
    what it does. *)
Fixpoint idle_shape (idle : bool) (fs : list frame) : bool :=
  match fs with
  | [] => negb idle
  | (Idle_block | Idle_hlt) :: fs => idle && bool_decide (fs = [])
  | (Set_level _ | Iret) :: fs => idle_shape idle fs
  | _ :: fs => negb idle && idle_shape idle fs
  end.

(** The address is that of a [semaphore_elem] on a thread's stack. *)
Definition is_waiter (s : Z) : bool := s `mod` 4096 =? 2048.

(** ** The invariant *)

Section Invariant.
(** The locks, the semaphores and the condition variables the threads use. *)
Context (locks sems conditions : gset Z).

(** They are different objects, none at a null pointer. *)
Record objects_ok : Prop := {
  ob_lock l : l ∈ locks → 0 < l ∧ is_waiter (lock_semaphore l) = false;
  ob_sema s : s ∈ sems → s ≠ NULL ∧ is_waiter s = false ∧ ∀ l, l ∈ locks → s ≠ lock_semaphore l;
  ob_cond c : c ∈ conditions → c ≠ NULL }.

(** A frame in the code of the thread [t] names objects that exist; a thread waits
    only on its own [semaphore_elem]. *)
Definition frame_ok (sm : gmap Z semaphore) (t : Z) (f : frame) : Prop :=
  match f with
  | Sema_down s | Sema_down_loop s _ =>
      s ≠ NULL ∧ is_Some (sm !! s) ∧ (is_waiter s = true → s = waiter_semaphore t)
  | Sema_up s => s ≠ NULL ∧ is_Some (sm !! s)
  | Lock_acquire l | Lock_own l | Lock_release l => l ∈ locks
  | Cond_wait c l | Cond_signal c l | Cond_broadcast c l => c ∈ conditions ∧ l ∈ locks
  | Create _ prio fn _ => fn ≠ NULL ∧ PRI_MIN ≤ prio ≤ PRI_MAX
  | _ => True
  end.

Record code_ok (sm : gmap Z semaphore) (idle t : Z) (fs : list frame) : Prop := {
  co_frames : Forall (frame_ok sm t) fs;
  co_tail : Forall (λ f, not_loop f = true) (drop 1 fs);
  co_idle : idle_shape (bool_decide (t = idle)) fs = true;
  co_locks l : l ∈ locks → disciplined l fs = true }.

(** The functions threads run follow the rules: they use the objects there are, and
    pair [lock_acquire] and [lock_release]. *)
Definition program_frame (f : frame) : Prop :=
  match f with
  | Sema_down s | Sema_up s => s ∈ sems
  | Lock_acquire l | Lock_release l => l ∈ locks
  | Cond_wait c l | Cond_signal c l | Cond_broadcast c l => c ∈ conditions ∧ l ∈ locks
  | Yield => True
  | Create _ prio fn _ => fn ≠ NULL ∧ PRI_MIN ≤ prio ≤ PRI_MAX
  | _ => False
  end.
Record function_ok (fs : list frame) : Prop := {
  fn_frames : Forall program_frame fs;
  fn_locks l : l ∈ locks → disciplined l fs = true ∧ state_of l fs = Free }.

Definition top (c : config) (t : Z) : option Z :=
  match code c !! t with Some fs => top_of fs | None => None end.
Definition state_in (c : config) (l t : Z) : lock_state :=
  match code c !! t with Some fs => state_of l fs | None => Free end.

Record config_ok (c : config) : Prop := {
  cg_sched : sched_ok (kern c);
  cg_ext : in_external_intr (kern c) = false;
  cg_code t : is_Some (code c !! t) ↔ ∃ s, stat (kern c) t = Some s ∧ s ≠ THREAD_DYING;
  cg_level : is_Some (top c (running (kern c))) → intr_level (kern c) = false;
  cg_frames t fs : code c !! t = Some fs → code_ok (semas (kern c)) (idle_thread (kern c)) t fs;
  cg_queues : queues (idle_thread (kern c)) (stat (kern c)) (top c) (semas (kern c));
  cg_sema s : s ∈ sems → is_Some (semas (kern c) !! s);
  cg_lock l : l ∈ locks → ∃ x h, semas (kern c) !! lock_semaphore l = Some x ∧
    holders (kern c) !! l = Some h ∧ token (state_in c l) (value x) h;
  cg_cond c' : c' ∈ conditions → is_Some (conds (kern c) !! c');
  cg_waiters c' ws w : conds (kern c) !! c' = Some ws → w ∈ ws →
    w ≠ NULL ∧ is_waiter w = true ∧ is_Some (semas (kern c) !! w) }.

(** ** Code *)

Lemma frame_ok_mono sm sm' t f :
  (∀ s, is_Some (sm !! s) → is_Some (sm' !! s)) → frame_ok sm t f → frame_ok sm' t f.
Proof. intros Hs. destruct f; simpl; naive_solver. Qed.

Lemma code_ok_mono sm sm' idle t fs :
  (∀ s, is_Some (sm !! s) → is_Some (sm' !! s)) → code_ok sm idle t fs → code_ok sm' idle t fs.
Proof.
  intros Hs []. split; try done. eapply list.Forall_impl; [done|]. intros f. by apply frame_ok_mono.
Qed.

Lemma top_of_tail fs : Forall (λ f, not_loop f = true) fs → top_of fs = None.
Proof. destruct fs as [|[] fs]; try done. by inversion_clear 1. Qed.

(** The frames that only the idle thread has, or that any thread may have. *)
Definition idle_frame (f : frame) : bool :=
  match f with Idle_block | Idle_hlt | Set_level _ | Iret => true | _ => false end.

Lemma idle_shape_cons idle f fs : idle_frame f = false →
  idle_shape idle (f :: fs) = negb idle && idle_shape idle fs.
Proof. by destruct f. Qed.

(** The code after a frame of the thread's own. *)
Lemma code_ok_tail sm idle t f fs : code_ok sm idle t (f :: fs) → idle_frame f = false →
  code_ok sm idle t fs ∧ top_of fs = None ∧ t ≠ idle.
Proof.
  intros [Hf Ht Hi Hl] Hf'. rewrite idle_shape_cons in Hi by done. apply andb_true_iff in Hi as [Hn Hi].
  apply Forall_cons_1 in Hf as [_ Hf]. simpl in Ht. rewrite drop_0 in Ht. split_and!.
  - split; [done| |done|].
    + destruct fs; [done|]. simpl. rewrite drop_0. by apply Forall_cons_1 in Ht as [_ ?].
    + intros l Hl'. specialize (Hl l Hl'). simpl in Hl. by apply andb_true_iff in Hl as [_ ?].
  - by apply top_of_tail.
  - intros ->. by rewrite bool_decide_eq_true_2 in Hn.
Qed.

(** Pushing a frame of the thread's own. *)
Lemma code_ok_push sm idle t f fs : code_ok sm idle t fs → top_of fs = None → t ≠ idle →
  idle_frame f = false → frame_ok sm t f →
  (∀ l a b, l ∈ locks → lock_frame l f = Some (a, b) → state_of l fs = b) →
  code_ok sm idle t (f :: fs).
Proof.
  intros [Hf Ht Hi Hl] Htop Hti Hnf Hok Hlk. split.
  - by constructor.
  - simpl. rewrite drop_0. destruct fs as [|g fs]; [done|]. simpl in Ht. rewrite drop_0 in Ht.
    constructor; [by destruct g|done].
  - rewrite idle_shape_cons by done. rewrite (bool_decide_eq_false_2 (t = idle)) in * by done. done.
  - intros l Hl'. simpl. rewrite Hl by done. destruct (lock_frame l f) as [[a b]|] eqn:E; [|done].
    rewrite bool_decide_eq_true_2; [done|]. by eapply Hlk.
Qed.

(** The state a frame leaves a lock in, when the code is disciplined. *)
Lemma disciplined_next l f fs a b : disciplined l (f :: fs) = true → lock_frame l f = Some (a, b) →
  state_of l (f :: fs) = a ∧ state_of l fs = b.
Proof.
  simpl. intros [Hd _]%andb_true_iff E. rewrite E in *. split; [done|]. by apply bool_decide_eq_true in Hd.
Qed.

Lemma state_of_skip l f fs : lock_frame l f = None → state_of l (f :: fs) = state_of l fs.
Proof. simpl. by intros ->. Qed.

Lemma lock_semaphore_eqb l l' : (lock_semaphore l =? lock_semaphore l') = (l =? l').
Proof. unfold lock_semaphore. destruct (Z.eqb_spec l l'), (Z.eqb_spec (l + 4) (l' + 4)); lia. Qed.

(** ** Replacing the code of a thread *)

Lemma top_insert k k' m t fs u :
  top (mk_config k' (<[t := fs]> m)) u = if bool_decide (u = t) then top_of fs else top (mk_config k m) u.
Proof.
  unfold top. simpl. case_bool_decide; [subst; by rewrite lookup_insert_eq|].
  by rewrite lookup_insert_ne.
Qed.

Lemma state_in_insert k k' m t fs l u :
  state_in (mk_config k' (<[t := fs]> m)) l u
  = if bool_decide (u = t) then state_of l fs else state_in (mk_config k m) l u.
Proof.
  unfold state_in. simpl. case_bool_decide; [subst; by rewrite lookup_insert_eq|].
  by rewrite lookup_insert_ne.
Qed.

(** The thread is alive. *)
Definition alive (k : kernel) (t : Z) : Prop := ∃ s, stat k t = Some s ∧ s ≠ THREAD_DYING.

(** The condition variables and their waiters. *)
Definition conds_ok (k : kernel) : Prop :=
  (∀ c, c ∈ conditions → is_Some (conds k !! c)) ∧
  ∀ c ws w, conds k !! c = Some ws → w ∈ ws →
    w ≠ NULL ∧ is_waiter w = true ∧ is_Some (semas k !! w).

Definition lock_ok (c : config) (l : Z) : Prop :=
  ∃ x h, semas (kern c) !! lock_semaphore l = Some x ∧ holders (kern c) !! l = Some h ∧
    token (state_in c l) (value x) h.

(** A step in which the code of one thread changes. *)
Lemma config_ok_update k m k' t fs :
  config_ok (mk_config k m) → is_Some (m !! t) →
  sched_ok k' → in_external_intr k' = false → idle_thread k' = idle_thread k →
  (∀ u, alive k' u ↔ alive k u) →
  (is_Some (top (mk_config k' (<[t := fs]> m)) (running k')) → intr_level k' = false) →
  code_ok (semas k') (idle_thread k) t fs →
  (∀ s, is_Some (semas k !! s) → is_Some (semas k' !! s)) →
  queues (idle_thread k) (stat k') (top (mk_config k' (<[t := fs]> m))) (semas k') →
  (∀ l, l ∈ locks → lock_ok (mk_config k' (<[t := fs]> m)) l) → conds_ok k' →
  config_ok (mk_config k' (<[t := fs]> m)).
Proof.
  intros [] Ht Hk Hx Hi Ha Hlv Hcode Hs Hq Hl [Hc1 Hc2]. split; simpl in *; try done.
  - intros u. rewrite lookup_insert_is_Some'. rewrite cg_code0. fold (alive k u) (alive k' u). rewrite Ha.
    split; [|by right]. intros [<-|]; [|done]. unfold alive. by rewrite <-cg_code0.
  - intros u fs'. rewrite Hi, lookup_insert_Some. intros [[<- <-]|[_ Hu]]; [done|].
    eapply code_ok_mono; eauto.
  - by rewrite Hi.
  - intros s Hs'. auto.
Qed.
End Invariant.
