(* ===== verification/SynchSteps.v ===== *)
(** * The steps of the thread system keep its invariant

    One lemma for each kind of step of the machine of Synch: from a state with the
    invariant of SynchSpec the step runs to its end, no assertion fails, and the
    invariant holds again. *)

From S2P Require Import Prelude Bitmap FsState Palloc Thread ThreadSpec Queues Synch SynchSpec.

Section Steps.
Context (kernel_thread switch_entry : Z).
Context (locks sems conditions : gset Z).
Context (Hobj : objects_ok locks sems conditions).

Local Abbreviation config_ok := (SynchSpec.config_ok locks sems conditions).
Local Abbreviation code_ok := (SynchSpec.code_ok locks conditions).
Local Abbreviation conds_ok := (SynchSpec.conds_ok conditions).
Local Abbreviation exec := (Synch.exec kernel_thread switch_entry).

(** ** Steps that wake nobody and switch to nobody *)

(** The threads and the semaphores are as they were. *)
Record still (k k' : kernel) : Prop := {
  sl_threads : threads k' = threads k;
  sl_ready : ready_list k' = ready_list k;
  sl_running : running k' = running k;
  sl_idle : idle_thread k' = idle_thread k;
  sl_initial : initial_thread k' = initial_thread k;
  sl_pages : pages k' = pages k;
  sl_semas : semas k' = semas k;
  sl_ext : in_external_intr k' = in_external_intr k }.

Lemma still_stat k k' t : still k k' → stat k' t = stat k t.
Proof. intros []. unfold stat. congruence. Qed.

(** The code of a thread that is not about to test a semaphore changes. *)
Lemma top_kept k m k' t gs fs' u : m !! t = Some gs → top_of gs = None → top_of fs' = None →
  top (mk_config k' (<[t := fs']> m)) u = top (mk_config k m) u.
Proof.
  intros E Hg Htop. rewrite (top_insert k). case_bool_decide; [|done]. subst u. rewrite Htop.
  unfold top. simpl. by rewrite E.
Qed.

Lemma top_none k m k' t f fs fs' u : m !! t = Some (f :: fs) → not_loop f = true → top_of fs' = None →
  top (mk_config k' (<[t := fs']> m)) u = top (mk_config k m) u.
Proof. intros E Hf. apply (top_kept _ _ _ _ _ _ _ E). by destruct f. Qed.

Lemma lock_kept k m k' t gs fs' l : config_ok (mk_config k m) → l ∈ locks →
  m !! t = Some gs → semas k' !! lock_semaphore l = semas k !! lock_semaphore l →
  holders k' !! l = holders k !! l →
  state_of l fs' = state_of l gs → lock_ok (mk_config k' (<[t := fs']> m)) l.
Proof.
  intros Hc Hl E Es Eh Hst. destruct (cg_lock _ _ _ _ Hc l Hl) as (x & h & Hx & Hh & Ht). simpl in *.
  exists x, h. simpl. rewrite Es, Eh. split_and!; [done..|]. eapply token_ext; [exact Ht|].
  intros u. rewrite (state_in_insert k). case_bool_decide; [|done]. subst u.
  unfold state_in. simpl. rewrite E. done.
Qed.

Lemma lock_same k m k' t f fs fs' l : config_ok (mk_config k m) → l ∈ locks →
  m !! t = Some (f :: fs) → semas k' !! lock_semaphore l = semas k !! lock_semaphore l →
  holders k' !! l = holders k !! l →
  state_of l fs' = state_of l (f :: fs) → lock_ok (mk_config k' (<[t := fs']> m)) l.
Proof. intros. by apply (lock_kept k m _ _ (f :: fs)). Qed.

Lemma conds_same k m k' : config_ok (mk_config k m) → conds k' = conds k →
  (∀ s, is_Some (semas k !! s) → is_Some (semas k' !! s)) → conds_ok k'.
Proof.
  intros Hc E Es. split; rewrite E.
  - apply (cg_cond _ _ _ _ Hc).
  - intros c ws w Hw Hin. destruct (cg_waiters _ _ _ _ Hc c ws w Hw Hin) as (? & ? & ?). auto.
Qed.

Lemma quiet_step k m k' f fs fs' :
  config_ok (mk_config k m) → m !! running k = Some (f :: fs) → not_loop f = true →
  still k k' → top_of fs' = None → code_ok (semas k) (idle_thread k) (running k) fs' →
  (∀ l, l ∈ locks → lock_ok (mk_config k' (<[running k := fs']> m)) l) → conds_ok k' →
  config_ok (mk_config k' (<[running k := fs']> m)).
Proof.
  intros Hc E Hf Hst Htop Hcode Hlk Hcd. pose proof (still_stat k k') as Hstat.
  assert (top (mk_config k' (<[running k := fs']> m)) (running k) = None) as Htr.
  { rewrite (top_insert k), bool_decide_eq_true_2 by done. done. }
  destruct Hst as [E1 E2 E3 E4 E5 E6 E7 E8] eqn:Hs0.
  apply (config_ok_update _ _ _ k); try done; simpl.
  - apply (sched_ok_ext k); try done. apply Hc.
  - rewrite E8. apply Hc.
  - intros u. unfold alive. by rewrite Hstat.
  - rewrite E3, Htr. by intros [].
  - by rewrite E7.
  - by rewrite E7.
  - rewrite E7. eapply queues_view; [apply Hc|..]; simpl.
    + intros u _. by rewrite Hstat.
    + intros u _ _. by apply (top_none _ _ _ _ f fs).
    + intros u s Hu Hb. rewrite (top_none k m k' _ f fs), Hstat by done. done.
Qed.

(** ** Leaving a frame behind *)

Lemma running_code k m f fs : config_ok (mk_config k m) → m !! running k = Some (f :: fs) →
  code_ok (semas k) (idle_thread k) (running k) (f :: fs).
Proof. intros Hc E. by apply (cg_frames _ _ _ _ Hc). Qed.

Lemma running_props k m : config_ok (mk_config k m) →
  thread_current k = Ok (running k, k) ∧ running k ≠ NULL ∧ running k `mod` 4096 = 0 ∧
  stat k (running k) = Some THREAD_RUNNING.
Proof.
  intros Hc. pose proof (cg_sched _ _ _ _ Hc) as Hk. simpl in Hk.
  destruct (running_thread_ok k Hk) as (x & E & _).
  destruct (tk_thread _ (sk_threads _ Hk) _ _ E) as (? & _ & ?).
  split_and!; [by apply thread_current_run|done|done|by apply (sk_run _ Hk)].
Qed.

(** Interrupt levels. *)
Lemma level_step k m f fs v : config_ok (mk_config k m) → m !! running k = Some (f :: fs) →
  not_loop f = true → idle_frame f = true → top_of fs = None →
  code_ok (semas k) (idle_thread k) (running k) fs →
  (∀ l, lock_frame l f = None) →
  config_ok (mk_config (set_intr_level v k) (<[running k := fs]> m)).
Proof.
  intros Hc E Hf _ Htop Hcode Hlk. apply (quiet_step k m _ f fs); try done.
  - intros l Hl. apply (lock_same k m _ _ f fs); try done. by rewrite state_of_skip.
  - by apply (conds_same k m).
Qed.

(** The code after a change of level is the code before it. *)
Lemma code_ok_level sm idle t f fs : code_ok sm idle t (f :: fs) →
  (f = Iret ∨ ∃ v, f = Set_level v) → code_ok sm idle t fs ∧ top_of fs = None.
Proof.
  intros [Hf Ht Hi Hl] Hor. simpl in Ht. rewrite drop_0 in Ht. split; [|by apply top_of_tail].
  apply Forall_cons_1 in Hf as [_ Hf]. split; [done| | |].
  - destruct fs; [done|]. simpl. rewrite drop_0. by apply Forall_cons_1 in Ht as [_ ?].
  - by destruct Hor as [->|[v ->]].
  - intros l Hl'. specialize (Hl l Hl'). simpl in Hl. by apply andb_true_iff in Hl as [_ ?].
Qed.

(** The step of the running thread whose next frame is [f] runs and keeps the
    invariant. *)
Definition goes (k : kernel) (m : gmap Z (list frame)) (f : frame) (fs : list frame) : Prop :=
  ∃ fs' k', exec f k = Ok (fs', k') ∧ config_ok (mk_config k' (<[running k := fs' ++ fs]> m)).

Lemma Set_level_goes k m v fs : config_ok (mk_config k m) → m !! running k = Some (Set_level v :: fs) →
  goes k m (Set_level v) fs.
Proof.
  intros Hc E. destruct (code_ok_level _ _ _ _ _ (running_code _ _ _ _ Hc E)) as [Hcode Htop]; [eauto|].
  exists [], (set_intr_level v k). split.
  - simpl. erewrite (bind_Ok (intr_set_level _)); [done|]. apply intr_set_level_run. intros _. apply Hc.
  - by apply (level_step k m (Set_level v)).
Qed.

Lemma Iret_goes k m fs : config_ok (mk_config k m) → m !! running k = Some (Iret :: fs) →
  goes k m Iret fs.
Proof.
  intros Hc E. destruct (code_ok_level _ _ _ _ _ (running_code _ _ _ _ Hc E)) as [Hcode Htop]; [eauto|].
  exists [], (set_intr_level true k). split; [done|]. by apply (level_step k m Iret).
Qed.

(** The idle thread's last frame. *)
Lemma code_ok_idle sm idle t f fs g : code_ok sm idle t (f :: fs) →
  (f = Idle_block ∨ f = Idle_hlt) → (g = Idle_block ∨ g = Idle_hlt) →
  fs = [] ∧ t = idle ∧ code_ok sm idle t [g].
Proof.
  intros [Hf Ht Hi Hl] Hor Hg.
  assert (bool_decide (t = idle) && bool_decide (fs = []) = true) as [Hti Hfs]%andb_true_iff
    by (by destruct Hor; subst).
  apply bool_decide_eq_true in Hti, Hfs. subst. split_and!; [done..|].
  split; [|constructor| |]; [by destruct Hg; subst; repeat constructor|..].
  - rewrite bool_decide_eq_true_2 by done. by destruct Hg; subst.
  - intros l _. by destruct Hg; subst.
Qed.

Lemma Idle_hlt_goes k m fs : config_ok (mk_config k m) → m !! running k = Some (Idle_hlt :: fs) →
  goes k m Idle_hlt fs.
Proof.
  intros Hc E. pose proof (running_code _ _ _ _ Hc E) as Hcode.
  destruct (code_ok_idle _ _ _ _ _ Idle_block Hcode) as (-> & _ & Hcode'); [eauto..|].
  exists [Idle_block], (set_intr_level true k). split; [done|].
  apply (quiet_step k m _ Idle_hlt []); try done.
  - intros l Hl. by apply (lock_same k m _ _ Idle_hlt []).
  - by apply (conds_same k m).
Qed.

(** ** Locks *)

Lemma lock_not_NULL l : l ∈ locks → (l =? NULL) = false.
Proof. intros Hl. apply Z.eqb_neq. pose proof (ob_lock _ _ _ Hobj l Hl). unfold NULL. lia. Qed.

Lemma cond_not_NULL c : c ∈ conditions → (c =? NULL) = false.
Proof. intros Hl. apply Z.eqb_neq. by apply (ob_cond _ _ _ Hobj). Qed.

Lemma intr_context_run k m : config_ok (mk_config k m) → intr_context k = Ok (false, k).
Proof.
  intros Hc. pose proof (cg_ext _ _ _ _ Hc) as Hx. simpl in Hx. unfold intr_context, gets. by rewrite Hx.
Qed.

Lemma held_run k m l : config_ok (mk_config k m) → l ∈ locks →
  lock_held_by_current_thread l k = Ok (bool_decide (state_in (mk_config k m) l (running k) = Held), k).
Proof.
  intros Hc Hl. destruct (cg_lock _ _ _ _ Hc l Hl) as (x & h & _ & Hh & Ht). simpl in *.
  destruct (running_props _ _ Hc) as (Hcur & Hn & _ & _).
  unfold lock_held_by_current_thread. rewrite lock_not_NULL by done.
  rewrite (bind_Ok (ASSERT _) _ k tt k) by done.
  rewrite (bind_Ok (load_holder l) _ k h k) by (unfold load_holder; by rewrite Hh).
  rewrite (bind_Ok _ _ _ _ _ Hcur). unfold ret. do 2 f_equal.
  pose proof (tk_holder _ _ _ Ht (running k)) as Hiff.
  case_bool_decide as Hst; [apply Z.eqb_eq|apply Z.eqb_neq]; naive_solver.
Qed.

(** The state the running thread has a lock in. *)
Lemma state_in_running k m l f fs : m !! running k = Some (f :: fs) →
  state_in (mk_config k m) l (running k) = state_of l (f :: fs).
Proof. intros E. unfold state_in. simpl. by rewrite E. Qed.

Lemma disciplined_running k m l f fs a b : config_ok (mk_config k m) → m !! running k = Some (f :: fs) →
  l ∈ locks → lock_frame l f = Some (a, b) →
  state_in (mk_config k m) l (running k) = a ∧ state_of l fs = b.
Proof.
  intros Hc E Hl Hf. rewrite (state_in_running k m l f fs E).
  apply disciplined_next; [|done]. by apply (co_locks _ _ _ _ _ _ (running_code _ _ _ _ Hc E)).
Qed.

Lemma running_frame k m f fs : config_ok (mk_config k m) → m !! running k = Some (f :: fs) →
  frame_ok locks conditions (semas k) (running k) f.
Proof.
  intros Hc E. destruct (running_code _ _ _ _ Hc E) as [Hf _ _ _]. by apply Forall_cons_1 in Hf as [? _].
Qed.

(** The frames of a call that is about the lock [l] only. *)
Lemma lock_frames_other l l' : l ≠ l' →
  lock_frame l' (Lock_acquire l) = None ∧ lock_frame l' (Lock_own l) = None ∧
  lock_frame l' (Lock_release l) = None ∧ lock_frame l' (Sema_down (lock_semaphore l)) = None ∧
  lock_frame l' (Sema_up (lock_semaphore l)) = None ∧
  (∀ c, lock_frame l' (Cond_wait c l) = None) ∧ (∀ c, lock_frame l' (Cond_signal c l) = None) ∧
  (∀ c, lock_frame l' (Cond_broadcast c l) = None).
Proof.
  intros Hne. simpl. rewrite lock_semaphore_eqb. by rewrite (proj2 (Z.eqb_neq l l') Hne).
Qed.

Lemma lock_frames_self l :
  lock_frame l (Lock_acquire l) = Some (Free, Held) ∧ lock_frame l (Lock_own l) = Some (Got, Held) ∧
  lock_frame l (Lock_release l) = Some (Held, Free) ∧
  lock_frame l (Sema_down (lock_semaphore l)) = Some (Free, Got) ∧
  lock_frame l (Sema_up (lock_semaphore l)) = Some (Given, Free) ∧
  (∀ c, lock_frame l (Cond_wait c l) = Some (Held, Held)) ∧
  (∀ c, lock_frame l (Cond_signal c l) = Some (Held, Held)) ∧
  (∀ c, lock_frame l (Cond_broadcast c l) = Some (Held, Held)).
Proof. simpl. by rewrite !Z.eqb_refl. Qed.

(** The semaphore of a lock, as an object of a frame. *)
Lemma lock_sema_frame k m l : config_ok (mk_config k m) → l ∈ locks →
  lock_semaphore l ≠ NULL ∧ is_Some (semas k !! lock_semaphore l) ∧ is_waiter (lock_semaphore l) = false.
Proof.
  intros Hc Hl. destruct (ob_lock _ _ _ Hobj l Hl) as [Hp Hw].
  destruct (cg_lock _ _ _ _ Hc l Hl) as (x & h & Hx & _). simpl in Hx.
  split_and!; [unfold lock_semaphore, NULL; lia|eauto|done].
Qed.

Lemma push_lock sm idle t l f fs a b : code_ok sm idle t fs → top_of fs = None → t ≠ idle →
  idle_frame f = false → frame_ok locks conditions sm t f →
  (∀ l', l ≠ l' → lock_frame l' f = None) → lock_frame l f = Some (a, b) → state_of l fs = b →
  code_ok sm idle t (f :: fs).
Proof.
  intros Hc Ht Hi Hf Hok Ho Hs Hb. apply code_ok_push; try done. intros l' a' b' _ E.
  destruct (decide (l = l')) as [<-|Hne]; [congruence|]. rewrite Ho in E by done. done.
Qed.

Lemma push_other sm idle t f fs : code_ok sm idle t fs → top_of fs = None → t ≠ idle →
  idle_frame f = false → frame_ok locks conditions sm t f →
  (∀ l, l ∈ locks → lock_frame l f = None) → code_ok sm idle t (f :: fs).
Proof.
  intros Hc Ht Hi Hf Hok Ho. apply code_ok_push; try done. intros l a b Hl E. rewrite Ho in E by done. done.
Qed.

Lemma acquire_enter_run k m l : config_ok (mk_config k m) → l ∈ locks →
  state_in (mk_config k m) l (running k) ≠ Held → lock_acquire_enter l k = Ok (tt, k).
Proof.
  intros Hc Hl Hst. unfold lock_acquire_enter. rewrite lock_not_NULL by done.
  rewrite (bind_Ok (ASSERT _) _ k tt k) by done.
  rewrite (bind_Ok _ _ _ _ _ (intr_context_run _ _ Hc)).
  rewrite (bind_Ok (ASSERT _) _ k tt k) by done.
  rewrite (bind_Ok _ _ _ _ _ (held_run _ _ _ Hc Hl)). by rewrite bool_decide_eq_false_2.
Qed.

Lemma Lock_acquire_goes k m l fs : config_ok (mk_config k m) →
  m !! running k = Some (Lock_acquire l :: fs) → goes k m (Lock_acquire l) fs.
Proof.
  intros Hc E. destruct (code_ok_tail _ _ _ _ _ _ _ (running_code _ _ _ _ Hc E) eq_refl) as (Hcode & Htop & Hti).
  pose proof (running_frame _ _ _ _ Hc E) as Hl. simpl in Hl.
  destruct (lock_frames_self l) as (Fa & Fo & _ & Fd & _).
  destruct (disciplined_running _ _ _ _ _ _ _ Hc E Hl Fa) as [Hst Hnx].
  destruct (lock_sema_frame _ _ _ Hc Hl) as (Hsn & Hss & Hsw).
  exists [Sema_down (lock_semaphore l); Lock_own l], k. split.
  - simpl. by rewrite (bind_Ok _ _ _ _ _ (acquire_enter_run _ _ _ Hc Hl ltac:(by rewrite Hst))).
  - apply (quiet_step k m _ (Lock_acquire l) fs); try done.
    + simpl app. apply (push_lock _ _ _ l _ _ Free Got); try done.
      * apply (push_lock _ _ _ l _ _ Got Held); try done. intros l' Hne. apply (lock_frames_other l l' Hne).
      * simpl. split_and!; [done..|]. by rewrite Hsw.
      * intros l' Hne. apply (lock_frames_other l l' Hne).
      * simpl. by rewrite Z.eqb_refl.
    + intros l' Hl'. apply (lock_same k m _ _ (Lock_acquire l) fs); try done.
      destruct (decide (l = l')) as [<-|Hne].
      * rewrite <-(state_in_running k m l _ _ E), Hst. simpl. by rewrite Z.eqb_refl.
      * destruct (lock_frames_other l l' Hne) as (H1 & H2 & _ & H4 & _).
        simpl app. by rewrite !state_of_skip.
    + by apply (conds_same k m).
Qed.

(** The lock [l] changes hands; the other locks do not change. *)
Lemma lock_change k m k' f fs fs' l : config_ok (mk_config k m) → m !! running k = Some (f :: fs) →
  (∀ l', l' ∈ locks → l ≠ l' → semas k' !! lock_semaphore l' = semas k !! lock_semaphore l' ∧
     holders k' !! l' = holders k !! l' ∧ state_of l' fs' = state_of l' (f :: fs)) →
  lock_ok (mk_config k' (<[running k := fs']> m)) l →
  ∀ l', l' ∈ locks → lock_ok (mk_config k' (<[running k := fs']> m)) l'.
Proof.
  intros Hc E Hother Hl l' Hl'. destruct (decide (l = l')) as [<-|Hne]; [done|].
  destruct (Hother l' Hl' Hne) as (? & ? & ?). by apply (lock_same k m _ _ f fs).
Qed.

(** The states other threads have the lock in. *)
Lemma state_in_other k m k' fs l u : u ≠ running k →
  state_in (mk_config k' (<[running k := fs]> m)) l u = state_in (mk_config k m) l u.
Proof. intros Hu. by rewrite (state_in_insert k), bool_decide_eq_false_2. Qed.

Lemma state_in_self k m k' fs l :
  state_in (mk_config k' (<[running k := fs]> m)) l (running k) = state_of l fs.
Proof. by rewrite (state_in_insert k), bool_decide_eq_true_2. Qed.

Lemma Lock_own_goes k m l fs : config_ok (mk_config k m) →
  m !! running k = Some (Lock_own l :: fs) → goes k m (Lock_own l) fs.
Proof.
  intros Hc E. destruct (code_ok_tail _ _ _ _ _ _ _ (running_code _ _ _ _ Hc E) eq_refl) as (Hcode & Htop & Hti).
  pose proof (running_frame _ _ _ _ Hc E) as Hl. simpl in Hl.
  destruct (lock_frames_self l) as (_ & Fo & _).
  destruct (disciplined_running _ _ _ _ _ _ _ Hc E Hl Fo) as [Hst Hnx].
  destruct (running_props _ _ Hc) as (Hcur & Hn & _ & _).
  destruct (cg_lock _ _ _ _ Hc l Hl) as (x & h & Hx & Hh & Ht). simpl in Hx, Hh.
  set (k' := set_holders (<[l := running k]> (holders k)) k).
  exists [], k'. split.
  - simpl. erewrite (bind_Ok (lock_acquire_own _)); [done|]. unfold lock_acquire_own.
    by rewrite (bind_Ok _ _ _ _ _ Hcur).
  - apply (quiet_step k m _ (Lock_own l) fs); try done.
    + apply (lock_change k m _ (Lock_own l) fs _ l); try done.
      * intros l' Hl' Hne. simpl. rewrite lookup_insert_ne by done. split_and!; [done..|].
        by rewrite (proj2 (Z.eqb_neq l l') Hne).
      * exists x, (running k). simpl. rewrite lookup_insert_eq. split_and!; [done..|].
        eapply (token_own (state_in (mk_config k m) l)); [exact Ht|..|done|by rewrite state_in_self|done].
        intros u Hu. by rewrite state_in_other.
    + by apply (conds_same k m).
Qed.

Lemma Lock_release_goes k m l fs : config_ok (mk_config k m) →
  m !! running k = Some (Lock_release l :: fs) → goes k m (Lock_release l) fs.
Proof.
  intros Hc E. destruct (code_ok_tail _ _ _ _ _ _ _ (running_code _ _ _ _ Hc E) eq_refl) as (Hcode & Htop & Hti).
  pose proof (running_frame _ _ _ _ Hc E) as Hl. simpl in Hl.
  destruct (lock_frames_self l) as (_ & _ & Fr & _ & Fu & _).
  destruct (disciplined_running _ _ _ _ _ _ _ Hc E Hl Fr) as [Hst Hnx].
  destruct (cg_lock _ _ _ _ Hc l Hl) as (x & h & Hx & Hh & Ht). simpl in Hx, Hh.
  destruct (lock_sema_frame _ _ _ Hc Hl) as (Hsn & Hss & Hsw).
  set (k' := set_holders (<[l := NULL]> (holders k)) k).
  exists [Sema_up (lock_semaphore l)], k'. split.
  - simpl. erewrite (bind_Ok (lock_release_disown _)); [done|]. unfold lock_release_disown.
    rewrite lock_not_NULL by done. rewrite (bind_Ok (ASSERT _) _ k tt k) by done.
    rewrite (bind_Ok _ _ _ _ _ (held_run _ _ _ Hc Hl)). by rewrite bool_decide_eq_true_2.
  - apply (quiet_step k m _ (Lock_release l) fs); try done.
    + simpl app. apply (push_lock _ _ _ l _ _ Given Free); try done.
      intros l' Hne. apply (lock_frames_other l l' Hne).
    + apply (lock_change k m _ (Lock_release l) fs _ l); try done.
      * intros l' Hl' Hne. simpl app. simpl lookup. rewrite lookup_insert_ne by done. split_and!; [done..|].
        destruct (lock_frames_other l l' Hne) as (_ & _ & Hr & _ & Hu & _). by rewrite !state_of_skip.
      * exists x, NULL. simpl. rewrite lookup_insert_eq. split_and!; [done..|].
        eapply (token_disown (state_in (mk_config k m) l)); [exact Ht|..|done|].
        -- intros u Hu. by rewrite state_in_other.
        -- rewrite state_in_self. simpl. by rewrite Z.eqb_refl.
    + by apply (conds_same k m).
Qed.

(** ** Condition variables *)

(** A waiter's semaphore is no lock's. *)
Lemma waiter_no_lock l w : l ∈ locks → is_waiter w = true →
  (w =? lock_semaphore l) = false.
Proof.
  intros Hl Hw. apply Z.eqb_neq. intros ->. destruct (ob_lock _ _ _ Hobj l Hl) as [_ H]. congruence.
Qed.

Lemma Cond_signal_goes k m c l fs : config_ok (mk_config k m) →
  m !! running k = Some (Cond_signal c l :: fs) → goes k m (Cond_signal c l) fs.
Proof.
  intros Hc E. destruct (code_ok_tail _ _ _ _ _ _ _ (running_code _ _ _ _ Hc E) eq_refl) as (Hcode & Htop & Hti).
  destruct (running_frame _ _ _ _ Hc E) as [Hcn Hl].
  destruct (lock_frames_self l) as (_ & _ & _ & _ & _ & _ & Fs & _).
  destruct (disciplined_running _ _ _ _ _ _ _ Hc E Hl (Fs c)) as [Hst Hnx].
  destruct (cg_cond _ _ _ _ Hc c Hcn) as [ws Hws]. simpl in Hws.
  set (k' := match ws with [] => k | _ :: ws => set_conds (<[c := ws]> (conds k)) k end).
  assert (still k k') as Hstill by (unfold k'; by destruct ws).
  assert (conds_ok k') as Hcd.
  { unfold k'. destruct ws as [|w ws]; [by apply (conds_same k m)|]. split; simpl.
    - intros c' Hc'. apply lookup_insert_is_Some'. right. by apply (cg_cond _ _ _ _ Hc).
    - intros c' ws' w'. rewrite lookup_insert_Some. intros [[<- <-]|[_ Hws']] Hin.
      + apply (cg_waiters _ _ _ _ Hc c (w :: ws)); [done|set_solver].
      + by apply (cg_waiters _ _ _ _ Hc c' ws'). }
  exists (match ws with [] => [] | w :: _ => [Sema_up w] end), k'. split.
  - simpl. erewrite (bind_Ok (cond_signal_enter _ _) _ k (match ws with [] => None | w :: _ => Some w end) k');
      [by destruct ws|]. unfold cond_signal_enter. rewrite cond_not_NULL, lock_not_NULL by done.
    do 2 (rewrite (bind_Ok (ASSERT _) _ k tt k) by done).
    rewrite (bind_Ok _ _ _ _ _ (intr_context_run _ _ Hc)), (bind_Ok (ASSERT _) _ k tt k) by done.
    rewrite (bind_Ok _ _ _ _ _ (held_run _ _ _ Hc Hl)), bool_decide_eq_true_2 by done.
    rewrite (bind_Ok (ASSERT _) _ k tt k) by done.
    rewrite (bind_Ok (load_cond c) _ k ws k) by (unfold load_cond; by rewrite Hws). by destruct ws.
  - assert (∀ l', l' ∈ locks →
      state_of l' (match ws with [] => [] | w :: _ => [Sema_up w] end ++ fs) = state_of l' fs) as Hskip.
    { intros l' Hl'. destruct ws as [|w ws]; [done|]. simpl.
      destruct (cg_waiters _ _ _ _ Hc c (w :: ws) w Hws) as (_ & Hw & _); [set_solver|].
      by rewrite waiter_no_lock. }
    apply (quiet_step k m _ (Cond_signal c l) fs); try done.
    + by destruct ws.
    + destruct ws as [|w ws]; [done|]. simpl app.
      destruct (cg_waiters _ _ _ _ Hc c (w :: ws) w Hws) as (Hwn & Hw & Hws'); [set_solver|].
      apply push_other; try done. intros l' Hl'. simpl. by rewrite waiter_no_lock.
    + intros l' Hl'. apply (lock_same k m _ _ (Cond_signal c l) fs); try done; [by unfold k'; destruct ws..|].
      rewrite Hskip by done. destruct (decide (l = l')) as [<-|Hne].
      * rewrite Hnx. simpl. by rewrite Z.eqb_refl.
      * simpl. by rewrite (proj2 (Z.eqb_neq l l') Hne).
Qed.

Lemma Cond_broadcast_goes k m c l fs : config_ok (mk_config k m) →
  m !! running k = Some (Cond_broadcast c l :: fs) → goes k m (Cond_broadcast c l) fs.
Proof.
  intros Hc E. pose proof (running_code _ _ _ _ Hc E) as Hfull.
  destruct (code_ok_tail _ _ _ _ _ _ _ Hfull eq_refl) as (Hcode & Htop & Hti).
  destruct (running_frame _ _ _ _ Hc E) as [Hcn Hl].
  destruct (lock_frames_self l) as (_ & _ & _ & _ & _ & _ & Fs & Fb).
  destruct (disciplined_running _ _ _ _ _ _ _ Hc E Hl (Fb c)) as [Hst Hnx].
  destruct (cg_cond _ _ _ _ Hc c Hcn) as [ws Hws]. simpl in Hws.
  exists (if negb (bool_decide (ws = [])) then [Cond_signal c l; Cond_broadcast c l] else []), k. split.
  - simpl. erewrite (bind_Ok (cond_broadcast_more _ _)); [done|].
    unfold cond_broadcast_more. rewrite cond_not_NULL, lock_not_NULL by done.
    do 2 (rewrite (bind_Ok (ASSERT _) _ k tt k) by done).
    by rewrite (bind_Ok (load_cond c) _ k ws k) by (unfold load_cond; by rewrite Hws).
  - assert (state_of l (Cond_broadcast c l :: fs) = Held) as Hb by (simpl; by rewrite Z.eqb_refl).
    apply (quiet_step k m _ (Cond_broadcast c l) fs); try done.
    + by destruct (negb _).
    + destruct (negb _); [|done]. simpl app. apply (push_lock _ _ _ l _ _ Held Held); try done.
      intros l' Hne. apply (lock_frames_other l l' Hne).
    + intros l' Hl'. apply (lock_same k m _ _ (Cond_broadcast c l) fs); try done.
      destruct (decide (l = l')) as [<-|Hne].
      * rewrite Hb. destruct (negb _); simpl; [by rewrite Z.eqb_refl|done].
      * destruct (lock_frames_other l l' Hne) as (_ & _ & _ & _ & _ & _ & H1 & H2).
        destruct (negb _); simpl app; by rewrite !state_of_skip.
    + by apply (conds_same k m).
Qed.

(** ** Steps that change semaphores *)

(** The running thread goes on; the semaphores may have changed. *)
Lemma awake_step k m k' fs fs' :
  config_ok (mk_config k m) → m !! running k = Some fs → sched_ok k' →
  in_external_intr k' = false → idle_thread k' = idle_thread k → running k' = running k →
  (∀ u, alive k' u ↔ alive k u) → top_of fs' = None →
  code_ok (semas k') (idle_thread k) (running k) fs' →
  (∀ s, is_Some (semas k !! s) → is_Some (semas k' !! s)) →
  queues (idle_thread k) (stat k') (top (mk_config k' (<[running k := fs']> m))) (semas k') →
  (∀ l, l ∈ locks → lock_ok (mk_config k' (<[running k := fs']> m)) l) → conds_ok k' →
  config_ok (mk_config k' (<[running k := fs']> m)).
Proof.
  intros Hc E Hk Hx Hi Hr Ha Htop Hcode Hs Hq Hl Hcd.
  apply (config_ok_update _ _ _ k); try done.
  rewrite Hr, (top_insert k), bool_decide_eq_true_2, Htop by done. by intros [].
Qed.

Lemma is_Some_insert (sm : gmap Z semaphore) s x s' :
  is_Some (sm !! s') → is_Some (<[s := x]> sm !! s').
Proof. intros Hs. apply lookup_insert_is_Some'. by right. Qed.

Lemma waiter_props t : t `mod` 4096 = 0 →
  is_waiter (waiter_semaphore t) = true ∧ waiter_semaphore t ≠ NULL.
Proof.
  intros Ht. unfold is_waiter, waiter_semaphore, NULL. rewrite <-Z.add_mod_idemp_l, Ht by lia.
  split; [done|]. intros E. assert (t = -2048) as -> by lia. done.
Qed.

(** Nobody waits on the running thread's own semaphore. *)
Lemma own_waiters k m x : config_ok (mk_config k m) →
  semas k !! waiter_semaphore (running k) = Some x → waiters x = [].
Proof.
  intros Hc Hx. destruct (waiters x) as [|u us] eqn:E; [done|]. exfalso.
  destruct (running_props _ _ Hc) as (_ & _ & Hal & Hrun).
  destruct (q_waiting _ _ _ _ (cg_queues _ _ _ _ Hc) _ _ u Hx) as (Hb & _ & Htop); [rewrite E; set_solver|].
  simpl in Hb, Htop. unfold top in Htop. simpl in Htop. destruct (m !! u) as [fs|] eqn:Eu; [|done].
  destruct fs as [|[] fs]; try done. simpl in Htop. injection Htop as ->.
  destruct (cg_frames _ _ _ _ Hc u _ Eu) as [Hf _ _ _]. apply Forall_cons_1 in Hf as [(_ & _ & Hw) _].
  destruct (waiter_props _ Hal) as [Hiw _]. specialize (Hw Hiw). unfold waiter_semaphore in Hw.
  assert (u = running k) as -> by lia. congruence.
Qed.

(** The state in which the running thread has announced that it will wait. *)
Definition announced (k : kernel) (c : Z) (ws : list Z) : kernel :=
  set_conds (<[c := ws ++ [waiter_semaphore (running k)]]> (conds k))
    (set_semas (<[waiter_semaphore (running k) := mk_sema 0 []]> (semas k)) k).

Lemma cond_wait_enter_run k m c l ws : config_ok (mk_config k m) → c ∈ conditions → l ∈ locks →
  state_in (mk_config k m) l (running k) = Held → conds k !! c = Some ws →
  cond_wait_enter c l k = Ok (waiter_semaphore (running k), announced k c ws).
Proof.
  intros Hc Hcn Hl Hst Hws. destruct (running_props _ _ Hc) as (Hcur & _ & Hal & _).
  destruct (waiter_props _ Hal) as [_ Hn].
  unfold cond_wait_enter. rewrite cond_not_NULL, lock_not_NULL by done.
  do 2 (rewrite (bind_Ok (ASSERT _) _ k tt k) by done).
  rewrite (bind_Ok _ _ _ _ _ (intr_context_run _ _ Hc)), (bind_Ok (ASSERT _) _ k tt k) by done.
  rewrite (bind_Ok _ _ _ _ _ (held_run _ _ _ Hc Hl)), bool_decide_eq_true_2 by done.
  rewrite (bind_Ok (ASSERT _) _ k tt k) by done. rewrite (bind_Ok _ _ _ _ _ Hcur).
  unfold sema_init. rewrite (proj2 (Z.eqb_neq _ NULL)) by done.
  erewrite (bind_Ok (bind (ASSERT true) _)) by done.
  erewrite (bind_Ok (load_cond c)) by (unfold load_cond; simpl; by rewrite Hws). done.
Qed.

Lemma Cond_wait_goes k m c l fs : config_ok (mk_config k m) →
  m !! running k = Some (Cond_wait c l :: fs) → goes k m (Cond_wait c l) fs.
Proof.
  intros Hc E. destruct (code_ok_tail _ _ _ _ _ _ _ (running_code _ _ _ _ Hc E) eq_refl) as (Hcode & Htop & Hti).
  destruct (running_frame _ _ _ _ Hc E) as [Hcn Hl].
  destruct (lock_frames_self l) as (Fa & _ & Fr & _ & _ & Fw & _).
  destruct (disciplined_running _ _ _ _ _ _ _ Hc E Hl (Fw c)) as [Hst Hnx].
  destruct (cg_cond _ _ _ _ Hc c Hcn) as [ws Hws]. simpl in Hws.
  destruct (running_props _ _ Hc) as (_ & _ & Hal & _). destruct (waiter_props _ Hal) as [Hiw Hwn].
  set (w := waiter_semaphore (running k)) in *.
  exists [Lock_release l; Sema_down w; Lock_acquire l], (announced k c ws). split.
  { simpl. by rewrite (bind_Ok _ _ _ _ _ (cond_wait_enter_run _ _ _ _ _ Hc Hcn Hl Hst Hws)). }
  assert (∀ s, is_Some (semas k !! s) → is_Some (semas (announced k c ws) !! s)) as Hmono
    by (intros s; apply is_Some_insert).
  assert (∀ l', l' ∈ locks → lock_frame l' (Sema_down w) = None) as Hnl
    by (intros l' Hl'; simpl; by rewrite waiter_no_lock).
  apply (awake_step k m _ (Cond_wait c l :: fs)); try done.
  - apply (sched_ok_ext k); try done. apply Hc.
  - apply Hc.
  - simpl app. apply (push_lock _ _ _ l _ _ Held Free); try done.
    + apply push_other; try done; [|by split_and!; [|apply lookup_insert_is_Some'; left|]].
      apply (push_lock _ _ _ l _ _ Free Held); try done.
      * by apply (code_ok_mono _ _ (semas k)).
      * intros l' Hne. apply (lock_frames_other l l' Hne).
    + intros l' Hne. apply (lock_frames_other l l' Hne).
    + rewrite state_of_skip by auto. simpl. by rewrite Z.eqb_refl.
  - apply (queues_set (idle_thread k) _ (top (mk_config k m))); try done.
    + apply Hc.
    + intros x Hx. by apply (own_waiters k m).
    + intros u _. by apply (top_none k m _ _ (Cond_wait c l) fs).
  - intros l' Hl'. apply (lock_same k m _ _ (Cond_wait c l) fs); try done.
    + simpl. apply lookup_insert_ne. intros Ew.
      destruct (ob_lock _ _ _ Hobj l' Hl') as [_ Hno]. rewrite <-Ew in Hno. fold w in Hno. congruence.
    + destruct (decide (l = l')) as [<-|Hne]; simpl.
      * by rewrite Z.eqb_refl.
      * by rewrite (proj2 (Z.eqb_neq l l') Hne), waiter_no_lock.
  - split; simpl.
    + intros c' Hc'. apply lookup_insert_is_Some'. right. by apply (cg_cond _ _ _ _ Hc).
    + intros c' ws' w'. rewrite lookup_insert_Some.
      intros [[<- <-]|[_ Hws']] Hin; [apply elem_of_app in Hin as [Hin| ->%list_elem_of_singleton]|].
      * destruct (cg_waiters _ _ _ _ Hc c ws w' Hws Hin) as (? & ? & ?). split_and!; [done..|]. by apply Hmono.
      * split_and!; [done..|]. apply lookup_insert_is_Some'. by left.
      * destruct (cg_waiters _ _ _ _ Hc c' ws' w' Hws' Hin) as (? & ? & ?). split_and!; [done..|]. by apply Hmono.
Qed.

(** ** Semaphores *)

(** The frames that lower the semaphore [s]. *)
Definition lowers (f : frame) (s : Z) : Prop := f = Sema_down s ∨ ∃ old, f = Sema_down_loop s old.

Lemma lowers_lock f s l : lowers f s →
  lock_frame l f = if s =? lock_semaphore l then Some (Free, Got) else None.
Proof. by intros [->|[old ->]]. Qed.

Lemma lowers_top k m f fs s : m !! running k = Some (f :: fs) → lowers f s →
  top (mk_config k m) (running k) = Some s ∨ top (mk_config k m) (running k) = None.
Proof. intros E [->|[old ->]]; unfold top; simpl; rewrite E; auto. Qed.

Lemma lowers_code sm idle t f fs s old : code_ok sm idle t (f :: fs) → lowers f s →
  code_ok sm idle t fs ∧ top_of fs = None ∧ t ≠ idle ∧ code_ok sm idle t (Sema_down_loop s old :: fs).
Proof.
  intros Hcode Hf. assert (idle_frame f = false) as Hi by (by destruct Hf as [->|[? ->]]).
  destruct (code_ok_tail _ _ _ _ _ _ _ Hcode Hi) as (Hcode' & Htop & Hti). split_and!; try done.
  apply code_ok_push; try done.
  - destruct Hcode as [Hfr _ _ _]. apply Forall_cons_1 in Hfr as [Hfr _]. by destruct Hf as [->|[? ->]].
  - intros l a b Hl Hlf. apply (disciplined_next l f fs a b).
    + by apply (co_locks _ _ _ _ _ _ Hcode).
    + rewrite (lowers_lock f s l Hf). done.
Qed.

(** The value is positive: the thread takes one and goes on. *)
Lemma down_takes k m f fs s x old : config_ok (mk_config k m) → m !! running k = Some (f :: fs) →
  lowers f s → semas k !! s = Some x → value x ≠ 0 →
  config_ok (mk_config (set_intr_level old (set_semas (<[s := mk_sema (u32 (value x - 1)) (waiters x)]> (semas k)) k))
                (<[running k := fs]> m)).
Proof.
  intros Hc E Hf Hx Hv. pose proof (running_code _ _ _ _ Hc E) as Hfull.
  destruct (lowers_code _ _ _ _ _ _ old Hfull Hf) as (Hcode & Htop & Hti & _).
  destruct (running_props _ _ Hc) as (_ & _ & _ & Hrun).
  assert (∀ s', is_Some (semas k !! s') →
    is_Some (<[s := mk_sema (u32 (value x - 1)) (waiters x)]> (semas k) !! s')) as Hmono
    by (intros s'; apply is_Some_insert).
  apply (awake_step k m _ (f :: fs)); try done.
  - apply (sched_ok_ext k); try done. apply Hc.
  - apply Hc.
  - by apply (code_ok_mono _ _ (semas k)).
  - simpl. apply (queues_down _ _ (top (mk_config k m)) _ _ _ _ (running k)); try done.
    + apply Hc.
    + change (stat _ (running k)) with (stat k (running k)). congruence.
    + intros u Hu. by rewrite (top_insert k), bool_decide_eq_false_2.
    + by apply (lowers_top k m f fs).
  - intros l Hl. destruct (decide (s = lock_semaphore l)) as [->|Hne].
    + destruct (cg_lock _ _ _ _ Hc l Hl) as (x' & h & Hx' & Hh & Ht). simpl in Hx', Hh.
      assert (x' = x) as -> by congruence.
      pose proof (lowers_lock f _ l Hf) as Hlf. rewrite Z.eqb_refl in Hlf.
      destruct (disciplined_running _ _ _ _ _ _ _ Hc E Hl Hlf) as [Hst Hnx].
      set (k' := set_intr_level _ _).
      destruct (token_take (state_in (mk_config k m) l)
        (state_in (mk_config k' (<[running k := fs]> m)) l) (value x) h (running k)) as [Ht' Hv1];
        [done|intros u Hu; by rewrite state_in_other|done|by rewrite state_in_self|].
      eexists _, h. simpl. rewrite lookup_insert_eq. split_and!; [done..|]. simpl. by rewrite Hv1.
    + apply (lock_same k m _ _ f fs); try done; [simpl; by rewrite lookup_insert_ne|].
      rewrite state_of_skip; [done|]. rewrite (lowers_lock f s l Hf).
      by rewrite (proj2 (Z.eqb_neq _ _) Hne).
  - by apply (conds_same k m).
Qed.

(** The value is 0: the thread queues up and another one runs. *)
Lemma down_sleeps k m f fs s x old : config_ok (mk_config k m) → m !! running k = Some (f :: fs) →
  lowers f s → semas k !! s = Some x → value x = 0 → intr_level k = false →
  ∃ k', thread_block (set_semas (<[s := mk_sema (value x) (waiters x ++ [running k])]> (semas k)) k) = Ok (tt, k') ∧
    config_ok (mk_config k' (<[running k := Sema_down_loop s old :: fs]> m)).
Proof.
  intros Hc E Hf Hx Hv Hlv. set (k1 := set_semas _ k).
  pose proof (running_code _ _ _ _ Hc E) as Hfull.
  destruct (lowers_code _ _ _ _ _ _ old Hfull Hf) as (_ & _ & Hti & Hcode).
  destruct (running_props _ _ Hc) as (_ & _ & _ & Hrun).
  pose proof (cg_sched _ _ _ _ Hc) as Hk. simpl in Hk.
  assert (sched_ok k1) as Hk1 by (by apply (sched_ok_ext k)).
  destruct (thread_block_run k1 Hk1 (cg_ext _ _ _ _ Hc) Hlv) as (k' & Ek & Hsw).
  exists k'. split; [done|].
  destruct (switched_next _ _ _ Hk1 Hsw) as (_ & _ & Haway).
  destruct (sd_same _ _ _ Hsw) as [Es Eh Ec Ei Ein Ex]. simpl in *.
  assert (∀ s', is_Some (semas k !! s') → is_Some (semas k' !! s')) as Hmono
    by (intros s'; rewrite Es; apply is_Some_insert).
  apply (config_ok_update _ _ _ k); try done.
  - by apply (sd_ok _ _ _ Hsw).
  - rewrite Ex. apply Hc.
  - apply (switched_alive k1 THREAD_BLOCKED); done.
  - intros _. apply (sd_level _ _ _ Hsw).
  - by apply (code_ok_mono _ _ (semas k)).
  - rewrite Es. apply (queues_sleep _ (stat k) (top (mk_config k m))); try done.
    + apply Hc.
    + congruence.
    + rewrite (sd_stat _ _ _ Hsw). rewrite (bool_decide_eq_false_2 (running k = running k')).
      * by rewrite bool_decide_eq_true_2.
      * intros Heq. by apply Haway.
    + by rewrite (top_insert k), bool_decide_eq_true_2.
    + unfold top. simpl. destruct (m !! idle_thread k) as [gs|] eqn:Eg; [|done].
      destruct (cg_frames _ _ _ _ Hc _ _ Eg) as [_ _ Hsh _]. simpl in Hsh.
      rewrite bool_decide_eq_true_2 in Hsh by done. by destruct gs as [|[] gs].
    + intros u Hu Hui. apply (switched_blocked k1 THREAD_BLOCKED); done.
    + intros u Hu. by rewrite (top_insert k), bool_decide_eq_false_2.
    + by apply (lowers_top k m f fs).
  - intros l Hl. destruct (cg_lock _ _ _ _ Hc l Hl) as (x' & h & Hx' & Hh & Ht). simpl in Hx', Hh.
    assert (∃ x2, semas k' !! lock_semaphore l = Some x2 ∧ value x2 = value x') as (x2 & Hx2 & Hv2).
    { rewrite Es. destruct (decide (s = lock_semaphore l)) as [->|Hne].
      - eexists. rewrite lookup_insert_eq. split; [done|]. simpl. congruence.
      - exists x'. by rewrite lookup_insert_ne. }
    exists x2, h. simpl. rewrite Eh, Hv2. split_and!; [done..|]. eapply token_ext; [exact Ht|].
    intros u. rewrite (state_in_insert k). case_bool_decide; [|done]. subst u.
    rewrite (state_in_running k m l f fs) by done. simpl.
    by rewrite (lowers_lock f s l Hf).
  - by apply (conds_same k m).
Qed.

(** The loop of [sema_down], with interrupts off. *)
Lemma down_goes k m f fs s old : config_ok (mk_config k m) → m !! running k = Some (f :: fs) →
  lowers f s → intr_level k = false →
  ∃ b k', sema_down_loop s old k = Ok (b, k') ∧
    config_ok (mk_config k' (<[running k := (if b then [] else [Sema_down_loop s old]) ++ fs]> m)).
Proof.
  intros Hc E Hf Hlv. pose proof (running_frame _ _ _ _ Hc E) as Hfr.
  assert (is_Some (semas k !! s)) as [x Hx].
  { destruct Hf as [->|[? ->]]; by destruct Hfr as (_ & ? & _). }
  destruct (running_props _ _ Hc) as (Hcur & _). unfold sema_down_loop.
  rewrite (bind_Ok (load_sema s) _ k x k) by (unfold load_sema; by rewrite Hx).
  destruct (Z.eqb_spec (value x) 0) as [Hv|Hv].
  - rewrite (bind_Ok _ _ _ _ _ Hcur). erewrite (bind_Ok (store_sema _ _)) by done.
    destruct (down_sleeps k m f fs s x old) as (k' & Ek & Hc'); try done.
    rewrite (bind_Ok _ _ _ _ _ Ek). by exists false, k'.
  - erewrite (bind_Ok (store_sema _ _)) by done. exists true. eexists. split.
    + erewrite (bind_Ok (intr_set_level _)); [done|]. apply intr_set_level_run. intros _. apply Hc.
    + by apply (down_takes k m f fs s x old).
Qed.

Lemma Sema_down_loop_goes k m s old fs : config_ok (mk_config k m) →
  m !! running k = Some (Sema_down_loop s old :: fs) → goes k m (Sema_down_loop s old) fs.
Proof.
  intros Hc E. destruct (down_goes k m (Sema_down_loop s old) fs s old) as (b & k' & Ek & Hc'); try done.
  - right. eauto.
  - apply (cg_level _ _ _ _ Hc). unfold top. simpl. rewrite E. simpl. eauto.
  - eexists _, k'. simpl. by rewrite (bind_Ok _ _ _ _ _ Ek).
Qed.

(** Turning interrupts off changes nothing else. *)
Lemma config_ok_off k m : config_ok (mk_config k m) → config_ok (mk_config (set_intr_level false k) m).
Proof.
  intros []. split; try done. simpl in *. by apply (sched_ok_ext k).
Qed.

Lemma Sema_down_goes k m s fs : config_ok (mk_config k m) →
  m !! running k = Some (Sema_down s :: fs) → goes k m (Sema_down s) fs.
Proof.
  intros Hc E. pose proof (running_frame _ _ _ _ Hc E) as (Hs & _).
  apply config_ok_off in Hc as Hc0.
  destruct (down_goes _ m (Sema_down s) fs s (intr_level k) Hc0) as (b & k' & Ek & Hc'); try done;
    [by left|].
  eexists _, k'. split; [|exact Hc']. simpl. unfold sema_down_enter.
  rewrite (bind_Ok _ _ k (intr_level k) (set_intr_level false k)).
  - by rewrite (bind_Ok _ _ _ _ _ Ek).
  - rewrite (bind_Ok (ASSERT _) _ k tt k) by (by rewrite (proj2 (Z.eqb_neq _ _) Hs)).
    by rewrite (bind_Ok _ _ _ _ _ (intr_context_run _ _ Hc)).
Qed.

(** Raising a semaphore, in a thread or in an interrupt handler. *)
Record raised (k : kernel) (s : Z) (x : semaphore) (k' : kernel) : Prop := {
  ra_ok : sched_ok k';
  ra_semas : semas k' = <[s := mk_sema (u32 (value x + 1)) (tail (waiters x))]> (semas k);
  ra_holders : holders k' = holders k;
  ra_conds : conds k' = conds k;
  ra_idle : idle_thread k' = idle_thread k;
  ra_ext : in_external_intr k' = in_external_intr k;
  ra_running : running k' = running k;
  ra_level : intr_level k' = intr_level k;
  ra_stat : match waiters x with
            | [] => ∀ u, stat k' u = stat k u
            | t :: _ => ∀ u, stat k' u = if bool_decide (u = t) then Some THREAD_READY else stat k u
            end }.

Lemma sema_up_run k top s x : sched_ok k → queues (idle_thread k) (stat k) top (semas k) →
  s ≠ NULL → semas k !! s = Some x → (intr_level k = true → in_external_intr k = false) →
  ∃ k', sema_up s k = Ok (tt, k') ∧ raised k s x k'.
Proof.
  intros Hk Hq Hs Hx Hlv. unfold sema_up. rewrite (proj2 (Z.eqb_neq _ _) Hs).
  rewrite (bind_Ok (ASSERT _) _ k tt k) by done. set (k0 := set_intr_level false k).
  rewrite (bind_Ok intr_disable _ k (intr_level k) k0) by done.
  rewrite (bind_Ok (load_sema s) _ k0 x k0) by (unfold load_sema; simpl; by rewrite Hx).
  destruct (waiters x) as [|t ts] eqn:Ew.
  - rewrite (bind_Ok (ret tt) _ k0 tt k0) by done.
    rewrite (bind_Ok (load_sema s) _ k0 x k0) by (unfold load_sema; simpl; by rewrite Hx).
    erewrite (bind_Ok (store_sema _ _)) by done.
    erewrite (bind_Ok (intr_set_level _)) by (by apply intr_set_level_run).
    eexists. split; [done|]. split; rewrite ?Ew; try done. by apply (sched_ok_ext k).
  - set (k1 := set_semas (<[s := mk_sema (value x) ts]> (semas k0)) k0).
    destruct (q_waiting _ _ _ _ Hq s x t Hx) as (Hb & Hi & _); [rewrite Ew; constructor|].
    destruct (thread_unblock_run k1 t) as (k2 & E2 & [Hok [Es Eh Ec Ei Ein Ex] Hr Hl Hrd Hst]); try done.
    { by apply (sched_ok_ext k). }
    simpl in *. rewrite (bind_Ok _ _ k0 tt k2) by (by erewrite (bind_Ok (store_sema _ _))).
    assert (semas k2 !! s = Some (mk_sema (value x) ts)) as Hx2 by (by rewrite Es, lookup_insert_eq).
    rewrite (bind_Ok (load_sema s) _ k2 (mk_sema (value x) ts) k2) by (unfold load_sema; by rewrite Hx2).
    erewrite (bind_Ok (store_sema _ _)) by done.
    erewrite (bind_Ok (intr_set_level _)) by (apply intr_set_level_run; simpl; by rewrite Ex).
    eexists. split; [done|]. split; rewrite ?Ew; simpl; try done.
    + by apply (sched_ok_ext k2).
    + by rewrite Es, insert_insert_eq.
Qed.

Lemma raised_queues k top s x k' top' : raised k s x k' → semas k !! s = Some x →
  queues (idle_thread k) (stat k) top (semas k) →
  (∀ u, stat k u = Some THREAD_BLOCKED ∨ is_Some (top u) → top' u = top u) →
  queues (idle_thread k) (stat k') top' (semas k').
Proof.
  intros [] Hx Hq Htop. rewrite ra_semas0. destruct (waiters x) as [|t ts] eqn:Ew.
  - apply (queues_view _ (stat k) top').
    + apply (queues_set _ _ top); try done; [congruence|]. by apply uwrap_range.
    + intros t _. by rewrite ra_stat0.
    + done.
    + intros t s' Ht Hb. by rewrite ra_stat0.
  - apply (queues_wake _ (stat k) top _ _ _ _ _ t); try done.
    + by rewrite ra_stat0, bool_decide_eq_true_2.
    + intros u Hu. by rewrite ra_stat0, bool_decide_eq_false_2.
Qed.

Lemma raised_alive k top s x k' : raised k s x k' → semas k !! s = Some x →
  queues (idle_thread k) (stat k) top (semas k) → ∀ u, alive k' u ↔ alive k u.
Proof.
  intros [] Hx Hq u. unfold alive. destruct (waiters x) as [|t ts] eqn:Ew; [by rewrite ra_stat0|].
  destruct (q_waiting _ _ _ _ Hq s x t Hx) as (Hb & _); [rewrite Ew; constructor|].
  rewrite ra_stat0. case_bool_decide; [subst u|done]. rewrite Hb. naive_solver.
Qed.

Lemma raised_exists k s x k' : raised k s x k' →
  ∀ s', is_Some (semas k !! s') → is_Some (semas k' !! s').
Proof. intros [] s'. rewrite ra_semas0. apply is_Some_insert. Qed.

(** The locks other than the one [s] belongs to are as they were. *)
Lemma raised_lock k m s x k' f fs fs' l : config_ok (mk_config k m) → l ∈ locks → raised k s x k' →
  m !! running k = Some (f :: fs) → s ≠ lock_semaphore l → state_of l fs' = state_of l (f :: fs) →
  lock_ok (mk_config k' (<[running k := fs']> m)) l.
Proof.
  intros Hc Hl [] E Hne Hst. apply (lock_same k m _ _ f fs); try done; [|congruence].
  rewrite ra_semas0. by rewrite lookup_insert_ne.
Qed.

Lemma Sema_up_goes k m s fs : config_ok (mk_config k m) →
  m !! running k = Some (Sema_up s :: fs) → goes k m (Sema_up s) fs.
Proof.
  intros Hc E. destruct (code_ok_tail _ _ _ _ _ _ _ (running_code _ _ _ _ Hc E) eq_refl) as (Hcode & Htop & Hti).
  pose proof (running_frame _ _ _ _ Hc E) as [Hs [x Hx]].
  destruct (sema_up_run k _ s x (cg_sched _ _ _ _ Hc) (cg_queues _ _ _ _ Hc)) as (k' & Ek & Hra); try done.
  { intros _. apply Hc. }
  exists [], k'. split; [simpl; by rewrite (bind_Ok _ _ _ _ _ Ek)|].
  pose proof (raised_exists _ _ _ _ Hra) as Hmono.
  apply (awake_step k m _ (Sema_up s :: fs)); try done; try (by apply Hra).
  - rewrite (ra_ext _ _ _ _ Hra). apply Hc.
  - apply (raised_alive _ _ s x _ Hra Hx (cg_queues _ _ _ _ Hc)).
  - by apply (code_ok_mono _ _ (semas k)).
  - apply (raised_queues k (top (mk_config k m)) s x); try done; [apply Hc|].
    intros u _. by apply (top_none _ _ _ _ (Sema_up s) fs).
  - intros l Hl. destruct (decide (s = lock_semaphore l)) as [->|Hne].
    + destruct (cg_lock _ _ _ _ Hc l Hl) as (x' & h & Hx' & Hh & Ht). simpl in Hx', Hh.
      assert (x' = x) as -> by congruence.
      assert (lock_frame l (Sema_up (lock_semaphore l)) = Some (Given, Free)) as Hlf
        by (simpl; by rewrite Z.eqb_refl).
      destruct (disciplined_running _ _ _ _ _ _ _ Hc E Hl Hlf) as [Hst Hnx].
      destruct (token_give (state_in (mk_config k m) l)
        (state_in (mk_config k' (<[running k := fs]> m)) l) (value x) h (running k)) as [Ht' Hv0];
        [done|intros u Hu; by rewrite state_in_other|done|by rewrite state_in_self|].
      eexists _, h. simpl. rewrite (ra_semas _ _ _ _ Hra), lookup_insert_eq, (ra_holders _ _ _ _ Hra).
      split_and!; [done..|]. simpl. by rewrite Hv0.
    + apply (raised_lock k m s x _ (Sema_up s) fs); try done. rewrite state_of_skip; [done|].
      simpl. by rewrite (proj2 (Z.eqb_neq _ _) Hne).
  - apply (conds_same k m); try done. apply Hra.
Qed.

(** ** Steps that switch to another thread *)

Lemma switch_step k m k' gs fs' st :
  config_ok (mk_config k m) → m !! running k = Some gs → top_of gs = None →
  switched k st k' → (st = THREAD_READY ∨ st = THREAD_BLOCKED ∧ running k = idle_thread k) →
  top_of fs' = None → code_ok (semas k) (idle_thread k) (running k) fs' →
  (∀ l, l ∈ locks → state_of l fs' = state_of l gs) →
  config_ok (mk_config k' (<[running k := fs']> m)).
Proof.
  intros Hc E Hg Hsw Hst Htop Hcode Hlk. pose proof (cg_sched _ _ _ _ Hc) as Hk. simpl in Hk.
  destruct (sd_same _ _ _ Hsw) as [Es Eh Ec Ei Ein Ex].
  assert (stat k (running k) = Some THREAD_RUNNING) as Hrun by (by apply (sk_run _ Hk)).
  assert (∀ t, t ≠ idle_thread k → stat k' t = Some THREAD_BLOCKED ↔ stat k t = Some THREAD_BLOCKED) as Hbl.
  { intros t Hi. destruct (decide (t = running k)) as [->|Ht]; [|by apply (switched_blocked _ st)].
    destruct Hst as [->|[_ ?]]; [|done]. rewrite (sd_stat _ _ _ Hsw), Hrun.
    rewrite (bool_decide_eq_true_2 (running k = running k)) by done.
    rewrite (bool_decide_eq_false_2 (THREAD_READY = _ ∧ _)) by naive_solver.
    by case_bool_decide. }
  apply (config_ok_update _ _ _ k); try done; simpl.
  - apply Hsw.
  - rewrite Ex. apply Hc.
  - apply (switched_alive k st); try done. destruct Hst as [->|[-> _]]; done.
  - intros _. apply Hsw.
  - by rewrite Es.
  - by rewrite Es.
  - rewrite Es. apply (queues_view _ (stat k) (top (mk_config k m))); try done.
    + apply Hc.
    + intros t _ _. by apply (top_kept _ _ _ _ gs).
    + intros t s Hs Hb. rewrite (top_kept k _ _ _ gs) by done. split; [done|].
      rewrite Hbl; [done|]. intros ->. unfold top in Hs. simpl in Hs.
      destruct (m !! idle_thread k) as [hs|] eqn:Eg; [|done].
      destruct (cg_frames _ _ _ _ Hc _ _ Eg) as [_ _ Hsh _]. simpl in Hsh.
      rewrite bool_decide_eq_true_2 in Hsh by done. by destruct hs as [|[] hs].
  - intros l Hl. apply (lock_kept k m _ _ gs); try done; [by rewrite Es|by rewrite Eh|by apply Hlk].
  - apply (conds_same k m); try done. by rewrite Es.
Qed.

(** Coming back to the code from an interrupt, or from [thread_yield]. *)
Lemma code_ok_resume sm idle t v fs : code_ok sm idle t fs → top_of fs = None →
  code_ok sm idle t (Set_level v :: fs) ∧ code_ok sm idle t (Set_level v :: Iret :: fs).
Proof.
  intros [Hf Ht Hi Hl] Htop.
  assert (Forall (λ f, not_loop f = true) fs) as Hn.
  { destruct fs as [|f fs]; [done|]. simpl in Ht. rewrite drop_0 in Ht. constructor; [by destruct f|done]. }
  split; split; simpl; rewrite ?drop_0; try done; repeat (constructor; try done).
Qed.

Lemma Yield_goes k m fs : config_ok (mk_config k m) → m !! running k = Some (Yield :: fs) →
  goes k m Yield fs.
Proof.
  intros Hc E. destruct (code_ok_tail _ _ _ _ _ _ _ (running_code _ _ _ _ Hc E) eq_refl) as (Hcode & Htop & _).
  destruct (thread_yield_run k (cg_sched _ _ _ _ Hc) (cg_ext _ _ _ _ Hc)) as (k' & Ek & Hsw).
  eexists _, k'. split; [simpl; by rewrite (bind_Ok _ _ _ _ _ Ek)|].
  apply (switch_step k m k' (Yield :: fs) _ THREAD_READY); try done; [by left|].
  by apply (code_ok_resume _ _ _ (intr_level k)).
Qed.

Lemma Idle_block_goes k m fs : config_ok (mk_config k m) → m !! running k = Some (Idle_block :: fs) →
  goes k m Idle_block fs.
Proof.
  intros Hc E. pose proof (running_code _ _ _ _ Hc E) as Hcode.
  destruct (code_ok_idle _ _ _ _ _ Idle_hlt Hcode) as (-> & Hti & Hcode'); [eauto..|].
  apply config_ok_off in Hc as Hc0.
  destruct (thread_block_run _ (cg_sched _ _ _ _ Hc0) (cg_ext _ _ _ _ Hc0)) as (k' & Ek & Hsw); [done|].
  exists [Idle_hlt], k'. split.
  - simpl. rewrite (bind_Ok intr_disable _ k (intr_level k) (set_intr_level false k)) by done.
    by rewrite (bind_Ok _ _ _ _ _ Ek).
  - apply (switch_step _ m k' [Idle_block] _ THREAD_BLOCKED Hc0); try done. by right.
Qed.

End Steps.
