(* ===== verification/SynchSafe.v ===== *)
(** * The thread system is safe

    The steps that change the set of threads, the interrupts, and the properties of
    every state the machine of Synch reaches: no assertion fails, locks exclude each
    other's holders, and no wake-up is lost. *)

From S2P Require Import Prelude Bitmap FsState Palloc Thread ThreadSpec Queues Synch SynchSpec SynchSteps.

Section Safe.
Context (program : Z → list frame) (kernel_thread switch_entry : Z).
Context (locks sems conditions : gset Z).
Context (Hobj : objects_ok locks sems conditions)
        (Hprog : ∀ fn, function_ok locks sems conditions (program fn)).

Local Abbreviation config_ok := (SynchSpec.config_ok locks sems conditions).
Local Abbreviation code_ok := (SynchSpec.code_ok locks conditions).
Local Abbreviation conds_ok := (SynchSpec.conds_ok conditions).
Local Abbreviation exec := (Synch.exec kernel_thread switch_entry).
Local Abbreviation thread_step := (Synch.thread_step program kernel_thread switch_entry).
Local Abbreviation step := (Synch.step program kernel_thread switch_entry sems).

(** ** New threads *)

Lemma program_frame_ok k m t f : config_ok (mk_config k m) → program_frame locks sems conditions f →
  frame_ok locks conditions (semas k) t f ∧ not_loop f = true ∧ idle_frame f = false.
Proof.
  intros Hc. destruct f; simpl; try done; intros Hs; (split_and!; try done);
    destruct (ob_sema _ _ _ Hobj _ Hs) as (? & Hw & _); try done.
  - by apply (cg_sema _ _ _ _ Hc).
  - congruence.
  - by apply (cg_sema _ _ _ _ Hc).
Qed.

Lemma start_ok k m t fn : config_ok (mk_config k m) → t ≠ idle_thread k →
  code_ok (semas k) (idle_thread k) t (start program fn).
Proof.
  intros Hc Hi. destruct (Hprog fn) as [Hf Hl]. unfold start.
  assert (Forall (λ f, frame_ok locks conditions (semas k) t f ∧ not_loop f = true ∧ idle_frame f = false)
    (program fn)) as Hall.
  { eapply list.Forall_impl; [exact Hf|]. intros f. by apply (program_frame_ok k m). }
  split.
  - constructor; [done|]. eapply list.Forall_impl; [exact Hall|]. naive_solver.
  - simpl. rewrite drop_0. eapply list.Forall_impl; [exact Hall|]. naive_solver.
  - simpl. rewrite bool_decide_eq_false_2 by done. clear Hf Hl. induction Hall as [|f fs (_ & _ & Hf) _ IH]; [done|].
    by rewrite idle_shape_cons, IH.
  - intros l Hl'. simpl. by apply Hl.
Qed.

(** The thread [t] is created. *)
Lemma spawn_step k m t k' fn : config_ok (mk_config k m) → readied k t k' → threads k !! t = None →
  t ≠ idle_thread k → top (mk_config k m) (running k) = None →
  config_ok (mk_config k' (<[t := start program fn]> m)).
Proof.
  intros Hc [Hok [Es Eh Ec Ei Ein Ex] Hr Hl Hrd Hst] Hnew Hi Htop.
  assert (stat k t = None) as Hs by (unfold stat; by rewrite Hnew).
  assert (m !! t = None) as Hm.
  { destruct (m !! t) eqn:E; [|done]. destruct (proj1 (cg_code _ _ _ _ Hc t)) as (s & ? & _); simpl; [eauto|].
    simpl in *. congruence. }
  assert (∀ u, top (mk_config k' (<[t := start program fn]> m)) u = top (mk_config k m) u) as Htops.
  { intros u. rewrite (top_insert k). case_bool_decide; [|done]. subst u. unfold top. simpl. by rewrite Hm. }
  pose proof Hc as []. split; simpl in *; try done.
  - by rewrite Ex.
  - intros u. rewrite lookup_insert_is_Some', Hst, cg_code.
    case_bool_decide; [subst u; naive_solver|]. naive_solver.
  - rewrite Hr, Htops, Htop. by intros [].
  - intros u gs. rewrite Es, Ei, lookup_insert_Some. intros [[<- <-]|[_ Hu]]; [by apply (start_ok k m)|eauto].
  - rewrite Es, Ei. apply (queues_view _ (stat k) (top (mk_config k m))); try done.
    + intros u Hu. rewrite Hst. case_bool_decide; [|done]. subst u. by rewrite Hs.
    + intros u s Hu Hb. rewrite Htops, Hst. by case_bool_decide.
  - by rewrite Es.
  - intros l Hl'. destruct (cg_lock l Hl') as (x & h & Hx & Hh & Ht). exists x, h. rewrite Es, Eh.
    split_and!; [done..|]. eapply token_ext; [exact Ht|]. intros u. rewrite (state_in_insert k).
    case_bool_decide; [|done]. subst u. unfold state_in. simpl. rewrite Hm. by apply (Hprog fn).
  - by rewrite Ec.
  - by rewrite Ec, Es.
Qed.

(** A step of the running thread in which it creates a thread, or fails to. *)
Lemma Create_goes k m nm prio fn aux fs : config_ok (mk_config k m) →
  m !! running k = Some (Create nm prio fn aux :: fs) →
  ∃ k', exec (Create nm prio fn aux) k = Ok ([], k') ∧
    config_ok (mk_config k' (spawn program (Create nm prio fn aux) k k' (<[running k := fs]> m))).
Proof.
  intros Hc E.
  destruct (code_ok_tail _ _ _ _ _ _ _ (running_code _ _ _ _ _ _ _ Hc E) eq_refl) as (Hcode & Htop & Hti).
  destruct (running_frame _ _ _ _ _ _ _ Hc E) as [Hfn Hp].
  assert (config_ok (mk_config k (<[running k := fs]> m))) as Hc'.
  { apply (quiet_step _ _ _ k m _ (Create nm prio fn aux) fs); try done.
    - intros l Hl. by apply (lock_same locks sems conditions k m _ _ (Create nm prio fn aux) fs).
    - by apply (conds_same locks sems conditions k m). }
  pose proof (cg_sched _ _ _ _ Hc) as Hk. simpl in Hk.
  destruct (thread_create_run kernel_thread switch_entry k nm prio fn aux Hk (cg_ext _ _ _ _ Hc) Hfn Hp)
    as [Ek|(t & i & k' & Ek & Hnew & Hrd & Hi & _)]; [exists k|exists k'];
    (split; [simpl; by rewrite (bind_Ok _ _ _ _ _ Ek)|]); unfold spawn.
  - destruct (reverse (ready_list k)) as [|t ts] eqn:Er; [done|]. rewrite bool_decide_eq_false_2; [done|].
    intros Hn. assert (t ∈ ready_list k) as Ht by (rewrite <-elem_of_reverse, Er; set_solver).
    apply (tk_ready _ (sk_threads _ Hk)) in Ht as [Ht _]. unfold stat in Ht. by rewrite Hn in Ht.
  - rewrite (rd_ready _ _ _ Hrd), reverse_app. simpl. rewrite bool_decide_eq_true_2 by done.
    apply (spawn_step k); try done. by rewrite (top_insert k), bool_decide_eq_true_2.
Qed.

(** ** Threads that end *)

Lemma exit_step k m : config_ok (mk_config k m) → m !! running k = Some [] →
  ∃ k', thread_exit k = Ok (tt, k') ∧ config_ok (mk_config k' (delete (running k) m)).
Proof.
  intros Hc E. pose proof Hc as []. simpl in *.
  assert (running k ≠ idle_thread k) as Hi.
  { intros Hi. destruct (cg_frames _ _ E) as [_ _ Hsh _]. by rewrite bool_decide_eq_true_2 in Hsh. }
  destruct (thread_exit_run k cg_sched cg_ext Hi) as (k' & Ek & Hsw). exists k'. split; [done|].
  destruct (switched_next _ _ _ cg_sched Hsw) as (Halive & _ & Haway).
  specialize (Haway ltac:(done) Hi). destruct (sd_same _ _ _ Hsw) as [Es Eh Ec Ei Ein Ex].
  assert (stat k (running k) = Some THREAD_RUNNING) as Hrun by (by apply (sk_run _ cg_sched)).
  assert (stat k' (running k) = None ∨ stat k' (running k) = Some THREAD_DYING) as Hgone.
  { rewrite (sd_stat _ _ _ Hsw), bool_decide_eq_false_2, bool_decide_eq_true_2 by done.
    case_bool_decide; auto. }
  assert (∀ u, top (mk_config k' (delete (running k) m)) u = top (mk_config k m) u) as Htop.
  { intros u. unfold top. simpl. destruct (decide (u = running k)) as [->|Hu];
      [by rewrite lookup_delete_eq, E|by rewrite lookup_delete_ne]. }
  split; simpl; rewrite ?Es, ?Ei, ?Eh, ?Ec, ?Ex; try done.
  - apply Hsw.
  - intros u. rewrite lookup_delete_is_Some, cg_code. rewrite (sd_stat _ _ _ Hsw).
    destruct (decide (u = running k')) as [->|Hu].
    { rewrite bool_decide_eq_true_2 by done. split; [eauto|]. split; [done|]. done. }
    rewrite bool_decide_eq_false_2 by done. destruct (decide (u = running k)) as [->|Hu'].
    + rewrite bool_decide_eq_true_2 by done. split; [naive_solver|].
      intros (s & Hs & Hd). by case_bool_decide; simplify_eq.
    + rewrite bool_decide_eq_false_2 by done. naive_solver.
  - intros _. apply Hsw.
  - intros u gs. rewrite lookup_delete_Some. intros [_ Hu]. eauto.
  - apply (queues_view _ (stat k) (top (mk_config k m))); try done.
    + intros u Hu. destruct (decide (u = running k)) as [->|Hur]; [|by apply (switched_blocked _ THREAD_DYING)].
      rewrite Hrun. destruct Hgone as [->| ->]; done.
    + intros u s Hu Hb. rewrite Htop. split; [done|].
      destruct (decide (u = running k)) as [->|Hur]; [by destruct Hgone as [->| ->]|].
      rewrite (sd_stat _ _ _ Hsw). case_bool_decide; [done|]. by rewrite bool_decide_eq_false_2.
  - intros l Hl. destruct (cg_lock l Hl) as (x & h & Hx & Hh & Ht). exists x, h.
    split_and!; [done..|]. eapply token_ext; [exact Ht|]. intros u. unfold state_in. simpl.
    destruct (decide (u = running k)) as [->|Hu]; [by rewrite lookup_delete_eq, E|by rewrite lookup_delete_ne].
Qed.

(** ** Interrupts *)

(** What a handler does to the state. *)
Record handled (m : gmap Z (list frame)) (k k' : kernel) : Prop := {
  hd_ok : sched_ok k';
  hd_ext : in_external_intr k' = in_external_intr k;
  hd_level : intr_level k' = intr_level k;
  hd_running : running k' = running k;
  hd_idle : idle_thread k' = idle_thread k;
  hd_holders : holders k' = holders k;
  hd_conds : conds k' = conds k;
  hd_alive u : alive k' u ↔ alive k u;
  hd_semas s : is_Some (semas k !! s) → is_Some (semas k' !! s);
  hd_locks l : l ∈ locks → semas k' !! lock_semaphore l = semas k !! lock_semaphore l;
  hd_queues : queues (idle_thread k) (stat k') (top (mk_config k m)) (semas k') }.

Lemma handler_run h k m : handler_ok sems h → sched_ok k → in_external_intr k = true → intr_level k = false →
  queues (idle_thread k) (stat k) (top (mk_config k m)) (semas k) → (∀ s, s ∈ sems → is_Some (semas k !! s)) →
  ∃ k', run_handler h k = Ok (tt, k') ∧ handled m k k'.
Proof.
  intros Hh Hk Hx Hl Hq Hs. destruct h as [|s]; simpl.
  - destruct (timer_interrupt_run k Hk Hx) as (k' & Ek & Hok & [Es Eh Ec Ei Ein Ex] & Hr & Hlv & Ht & Hrd & _).
    assert (∀ u, stat k' u = stat k u) as Hst by (intros u; unfold stat; by rewrite Ht).
    exists k'. split; [done|]. split; rewrite ?Es; try done.
    + intros u. unfold alive. by rewrite Hst.
    + apply (queues_view _ (stat k) (top (mk_config k m))); try done; intros; by rewrite Hst.
  - simpl in Hh. destruct (Hs s Hh) as [x Hsx]. destruct (ob_sema _ _ _ Hobj s Hh) as (Hn & _ & Hnl).
    destruct (sema_up_run k _ s x Hk Hq Hn Hsx) as (k' & Ek & Hra); [congruence|].
    exists k'. split; [done|]. split; try (by apply Hra).
    + by apply (raised_alive k (top (mk_config k m)) s x).
    + by apply (raised_exists k s x).
    + intros l Hl'. rewrite (ra_semas _ _ _ _ Hra), lookup_insert_ne; [done|]. by apply Hnl.
    + by apply (raised_queues k (top (mk_config k m)) s x).
Qed.

Lemma handled_config m k k' v : config_ok (mk_config k m) → top (mk_config k m) (running k) = None →
  handled m (set_yield_on_return false (set_in_external_intr true (set_intr_level false k))) k' →
  config_ok (mk_config (set_intr_level v (set_in_external_intr false k')) m).
Proof.
  intros [] Htop []. simpl in *. split; simpl; try done.
  - by apply (sched_ok_ext k').
  - intros u. rewrite cg_code. symmetry. apply hd_alive0.
  - rewrite hd_running0. intros [s Hs]. unfold top in Htop, Hs. simpl in *. congruence.
  - intros t fs Ht. rewrite hd_idle0. eapply code_ok_mono; eauto.
  - by rewrite hd_idle0.
  - eauto.
  - intros l Hl. destruct (cg_lock l Hl) as (x & h & Hx & Hh & Ht). exists x, h.
    rewrite hd_locks0, hd_holders0 by done. done.
  - by rewrite hd_conds0.
  - intros c ws w. rewrite hd_conds0. intros Hw Hin. destruct (cg_waiters c ws w Hw Hin) as (? & ? & ?). eauto.
Qed.

Lemma interrupt_step h k m : handler_ok sems h → config_ok (mk_config k m) → intr_level k = true →
  ∃ c', interrupt h (mk_config k m) = Ok c' ∧ config_ok c'.
Proof.
  intros Hh Hc Hl. pose proof Hc as []. simpl in *.
  assert (top (mk_config k m) (running k) = None) as Htop.
  { destruct (top _ _) eqn:Et; [|done]. rewrite cg_level in Hl; [done|eauto]. }
  destruct (proj2 (cg_code (running k))) as [fs E].
  { exists THREAD_RUNNING. split; [|done]. by apply (sk_run _ cg_sched). }
  set (k1 := set_yield_on_return false (set_in_external_intr true (set_intr_level false k))).
  destruct (handler_run h k1 m Hh) as (k2 & Ek & Hhd); try done.
  { by apply (sched_ok_ext k). }
  assert (intr_handler_ext (run_handler h) (set_intr_level false k)
    = Ok (yield_on_return k2, set_in_external_intr false k2)) as Ei.
  { unfold intr_handler_ext, intr_get_level, intr_context, gets, modify.
    unfold bind at 1 2 3 4 5 6. simpl. rewrite cg_ext. simpl. fold k1.
    rewrite (bind_Ok _ _ _ _ _ Ek). unfold bind. rewrite (hd_level _ _ _ Hhd). simpl.
    by rewrite (hd_ext _ _ _ Hhd). }
  unfold interrupt. simpl. rewrite E, Ei. simpl.
  destruct (yield_on_return k2); [|eexists; split; [done|by apply (handled_config m k)]].
  set (k3 := set_in_external_intr false k2).
  assert (config_ok (mk_config k3 m)) as Hc3.
  { replace k3 with (set_intr_level (intr_level k3) k3) by (by destruct k3).
    by apply (handled_config m k). }
  destruct (thread_yield_run k3 (SynchSpec.cg_sched _ _ _ _ Hc3) (SynchSpec.cg_ext _ _ _ _ Hc3)) as (k4 & Ek4 & Hsw).
  rewrite Ek4. simpl. eexists. split; [done|].
  assert (top_of fs = None) as Hfs by (unfold top in Htop; simpl in Htop; by rewrite E in Htop).
  assert (running k = running k3) as Er by (symmetry; apply (hd_running _ _ _ Hhd)). rewrite Er in *.
  apply (switch_step locks sems conditions k3 m k4 fs _ THREAD_READY); try done; [by left|].
  apply code_ok_resume; [|done]. by apply (SynchSpec.cg_frames _ _ _ _ Hc3).
Qed.

(** ** Every step *)

Lemma thread_step_ok k m : config_ok (mk_config k m) →
  ∃ c', thread_step (mk_config k m) = Ok c' ∧ config_ok c'.
Proof.
  intros Hc. destruct (proj2 (cg_code _ _ _ _ Hc (running k))) as [fs E]; simpl in *.
  { exists THREAD_RUNNING. split; [|done]. by apply (sk_run _ (cg_sched _ _ _ _ Hc)). }
  unfold Synch.thread_step. simpl. rewrite E. destruct fs as [|f fs].
  - destruct (exit_step k m Hc E) as (k' & Ek & Hc'). rewrite Ek. simpl. eauto.
  - assert (match f with Create _ _ _ _ => True
            | _ => goes kernel_thread switch_entry locks sems conditions k m f fs end) as Hgo.
    { destruct f; try done; eauto using Sema_down_goes, Sema_down_loop_goes, Sema_up_goes, Lock_acquire_goes,
        Lock_own_goes, Lock_release_goes, Cond_wait_goes, Cond_signal_goes, Cond_broadcast_goes, Yield_goes,
        Set_level_goes, Iret_goes, Idle_block_goes, Idle_hlt_goes. }
    destruct f; try (destruct Hgo as (fs' & k' & Ek & Hc'); rewrite Ek; simpl; eauto; fail).
    destruct (Create_goes k m name prio function aux fs Hc E) as (k' & Ek & Hc'). rewrite Ek. simpl. eauto.
Qed.

Lemma step_ok c c' : config_ok c → step c c' → config_ok c'.
Proof.
  destruct c as [k m]. intros Hc [c1 E|h c1 Hh Hl E].
  - destruct (thread_step_ok k m Hc) as (c2 & E2 & Hc2). congruence.
  - destruct (interrupt_step h k m Hh Hc Hl) as (c2 & E2 & Hc2). congruence.
Qed.

Lemma reachable_ok c c' : config_ok c → rtc step c c' → config_ok c'.
Proof. intros Hc Hs. induction Hs as [|c1 c2 c3 H12 _ IH]; [done|]. by eapply IH, step_ok. Qed.

(** ** The properties of every reachable state *)

Context (c0 c : config) (Hc0 : config_ok c0) (Hreach : rtc step c0 c).

(** C3. The kernel's threads never fail an assertion: in every state reached from a
    consistent one, whatever the interleaving of threads, timer ticks and device
    interrupts, the running thread's next step runs to its end, and so does any
    interrupt while interrupts are on. *)
Theorem threads_never_fail :
  (∃ c', thread_step c = Ok c') ∧
  (intr_level (kern c) = true → ∀ h, handler_ok sems h → ∃ c', interrupt h c = Ok c').
Proof.
  pose proof (reachable_ok _ _ Hc0 Hreach) as Hc. destruct c as [k m]. split.
  - destruct (thread_step_ok k m Hc) as (c' & E & _). eauto.
  - intros Hl h Hh. destruct (interrupt_step h k m Hh Hc Hl) as (c' & E & _). eauto.
Qed.

(** C4. Locks exclude: at any time at most one thread is between taking a lock's
    semaphore and giving it back; the semaphore is 1 when there is none and 0 when
    there is one, and the recorded holder is the thread that holds the lock. *)
Theorem lock_mutual_exclusion l t u : l ∈ locks →
  (state_in c l t ≠ Free → state_in c l u ≠ Free → t = u) ∧
  (state_in c l t ≠ Free → value <$> semas (kern c) !! lock_semaphore l = Some 0) ∧
  ((∀ t, state_in c l t = Free) → value <$> semas (kern c) !! lock_semaphore l = Some 1) ∧
  (state_in c l t = Held ↔ holders (kern c) !! l = Some t ∧ t ≠ NULL).
Proof.
  intros Hl. destruct (cg_lock _ _ _ _ (reachable_ok _ _ Hc0 Hreach) l Hl) as (x & h & Hx & Hh & Ht).
  rewrite Hx, Hh. simpl. split_and!.
  - intros Hst Hsu. by apply (token_unique _ _ _ _ Ht).
  - intros Hst. by rewrite (token_value _ _ _ _ Ht Hst).
  - intros Hall. destruct (tk_token _ _ _ Ht) as [[-> _]|(_ & w & Hw & _)]; [done|]. by rewrite Hall in Hw.
  - rewrite (tk_holder _ _ _ Ht). naive_solver.
Qed.

(** C10. No wake-up is lost: a sleeping thread is in the queue of the semaphore it
    will test again, a thread in a queue is asleep and in no other queue, and when a
    semaphore that threads wait on has the value [v], [v] threads that are awake are
    about to test it. *)
Theorem semaphore_no_lost_wakeup :
  (∀ t, stat (kern c) t = Some THREAD_BLOCKED → t ≠ idle_thread (kern c) →
     ∃ s x, top c t = Some s ∧ semas (kern c) !! s = Some x ∧ t ∈ waiters x) ∧
  (∀ s x t, semas (kern c) !! s = Some x → t ∈ waiters x →
     stat (kern c) t = Some THREAD_BLOCKED ∧
     ∀ s' x', semas (kern c) !! s' = Some x' → t ∈ waiters x' → s' = s) ∧
  (∀ s x, semas (kern c) !! s = Some x → waiters x ≠ [] →
     ∃ ts, NoDup ts ∧ value x ≤ Z.of_nat (length ts) ∧
       ∀ t, t ∈ ts → top c t = Some s ∧
         (stat (kern c) t = Some THREAD_READY ∨ stat (kern c) t = Some THREAD_RUNNING)).
Proof.
  pose proof (reachable_ok _ _ Hc0 Hreach) as Hc. destruct (cg_queues _ _ _ _ Hc) as [Hb Hw Hn Hv Hk].
  split_and!.
  - done.
  - intros s x t Hs Ht. destruct (Hw s x t Hs Ht) as (Hst & _ & Htop). split; [done|].
    intros s' x' Hs' Ht'. destruct (Hw s' x' t Hs' Ht') as (_ & _ & ?). congruence.
  - intros s x Hs Hne. destruct (Hk s x Hs Hne) as (ts & Hnd & Hts & Hle). exists ts. split_and!; try done.
    intros t Ht. destruct (Hts t Ht) as [Htop Hnb]. split; [done|].
    destruct (proj1 (cg_code _ _ _ _ Hc t)) as (st & Hst & Hd).
    { unfold top in Htop. destruct (code c !! t); [eauto|done]. }
    rewrite Hst in *. destruct st; naive_solver.
Qed.

(** The scheduler's data stay consistent: exactly one thread is running, the run
    queue holds exactly the ready threads, each once and the idle thread never, every
    thread other than the initial one lives in an allocated page, and only the
    initial thread is kept when it ends. *)
Theorem scheduler_invariant :
  (∀ t, stat (kern c) t = Some THREAD_RUNNING ↔ t = running (kern c)) ∧
  NoDup (ready_list (kern c)) ∧
  (∀ t, t ∈ ready_list (kern c) ↔ stat (kern c) t = Some THREAD_READY ∧ t ≠ idle_thread (kern c)) ∧
  (∀ t, is_Some (stat (kern c) t) → t ≠ initial_thread (kern c) → allocated false (pages (kern c)) t) ∧
  (∀ t, stat (kern c) t = Some THREAD_DYING → t = initial_thread (kern c)).
Proof.
  destruct (cg_sched _ _ _ _ (reachable_ok _ _ Hc0 Hreach)) as [[] Hr Hd]. split_and!; try done.
  intros t Ht. apply tk_pages. by apply fmap_is_Some in Ht.
Qed.
End Safe.

(** ** A system *)

(** The initial thread holds a lock that a second thread waits for; the idle thread
    sleeps.  The second thread will raise the semaphore at 300. *)
Definition sample_kernel : kernel :=
  mk_kernel {[ main_thread := sample_thread 1 THREAD_RUNNING; 0xc0102000 := sample_thread 2 THREAD_BLOCKED;
               0xc0103000 := sample_thread 3 THREAD_BLOCKED ]}
    [main_thread; 0xc0102000; 0xc0103000] [] main_thread 0xc0102000 main_thread 4 0 0 0 0 true false false
    {[ 104 := mk_sema 0 [0xc0103000]; 300 := mk_sema 0 [] ]} {[ 100 := main_thread ]} {[ 200 := [] ]} 0
    sample_pools.
Definition sample_config : config :=
  mk_config sample_kernel
    {[ main_thread := [Cond_signal 200 100; Lock_release 100; Sema_down 300];
       0xc0102000 := [Idle_hlt];
       0xc0103000 := [Sema_down_loop 104 true; Lock_own 100; Lock_release 100; Sema_up 300] ]}.
Definition sample_program (fn : Z) : list frame := [Lock_acquire 100; Cond_wait 200 100; Lock_release 100].

Lemma sample_objects : objects_ok {[100]} {[300]} {[200]}.
Proof.
  split; intros x; rewrite elem_of_singleton; intros ->; try done.
  split_and!; try done. intros l. rewrite elem_of_singleton. by intros ->.
Qed.

Lemma sample_functions fn : function_ok {[100]} {[300]} {[200]} (sample_program fn).
Proof.
  split; [repeat constructor; simpl; set_solver|]. intros l. rewrite elem_of_singleton. by intros ->.
Qed.

Lemma sample_sched : sched_ok sample_kernel.
Proof.
  split; [split|..].
  - intros t x H. simpl in H. lookups; done.
  - apply NoDup_nil_2.
  - intros t. split; [set_solver|]. intros [Hs _]. apply stat_Some in Hs as (x & H & Hx). simpl in H. by lookups.
  - by exists THREAD_BLOCKED.
  - apply sample_pools_ok.
  - intros t [x H]. simpl in H. lookups; [done|exists 0|exists 1]; simpl; (split_and!; [lia|lia|done|done]).
  - done.
  - intros t. split; [|intros ->; done]. intros Hs. apply stat_Some in Hs as (x & H & Hx). simpl in H. by lookups.
  - intros t Hs. apply stat_Some in Hs as (x & H & Hx). simpl in H. by lookups.
Qed.

Lemma sample_queues :
  queues (idle_thread sample_kernel) (stat sample_kernel) (top sample_config) (semas sample_kernel).
Proof.
  split.
  - intros t Hs Hi. apply stat_Some in Hs as (x & H & Hx). simpl in H. lookups; try done.
    exists 104, (mk_sema 0 [0xc0103000]). split_and!; [done..|]. simpl. set_solver.
  - intros s x t H Ht. simpl in H. lookups; simpl in Ht; [|set_solver].
    apply list_elem_of_singleton in Ht as ->. done.
  - intros s x H. simpl in H. lookups; simpl; [apply NoDup_singleton|apply NoDup_nil_2].
  - intros s x H. simpl in H. lookups; simpl; lia.
  - intros s x H Hne. simpl in H. lookups; [|done]. exists []. split_and!; [apply NoDup_nil_2|set_solver|done].
Qed.

Lemma sample_ok : config_ok {[100]} {[300]} {[200]} sample_config.
Proof.
  split; try done.
  - apply sample_sched.
  - intros t. split.
    + intros [fs H]. simpl in H. lookups; by eexists.
    + intros (st & Hs & _). apply stat_Some in Hs as (x & H & Hx). simpl in H. lookups; by eexists.
  - by intros [].
  - intros t fs H. simpl in H. lookups.
    + split; [repeat constructor; simpl; set_solver|by repeat constructor|done|].
      intros l. rewrite elem_of_singleton. by intros ->.
    + split; [by repeat constructor|by repeat constructor|done|]. intros l. rewrite elem_of_singleton. by intros ->.
    + split; [repeat constructor; simpl; set_solver|by repeat constructor|done|].
      intros l. rewrite elem_of_singleton. by intros ->.
  - apply sample_queues.
  - intros s. rewrite elem_of_singleton. intros ->. by eexists.
  - intros l. rewrite elem_of_singleton. intros ->. exists (mk_sema 0 [0xc0103000]), main_thread.
    split_and!; [done..|]. split.
    + right. split; [done|]. exists main_thread. split; [done|]. intros u Hu. unfold state_in in Hu.
      destruct (code sample_config !! u) eqn:H; [|done]. simpl in H. by lookups.
    + intros t. split; [|by intros [<- _]]. unfold state_in.
      destruct (code sample_config !! t) eqn:H; [|done]. simpl in H. by lookups.
  - intros l. rewrite elem_of_singleton. intros ->. by eexists.
  - intros l ws w H Hw. simpl in H. lookups. set_solver.
Qed.

Abbreviation sample_system P := (P sample_program 0xc0020000 0xc0020100 {[100]} {[300]} {[200]}
  sample_objects sample_functions sample_config sample_config sample_ok (rtc_refl _ _)).

Lemma threads_never_fail_witness :
  (∃ c, thread_step sample_program 0xc0020000 0xc0020100 sample_config = Ok c) ∧
  ∃ c, interrupt (Completion 300) sample_config = Ok c.
Proof.
  destruct (sample_system threads_never_fail) as [Hs Hi]. split; [exact Hs|].
  apply Hi; [reflexivity|]. simpl. apply elem_of_singleton. reflexivity.
Defined.

Lemma lock_mutual_exclusion_witness :
  (state_in sample_config 100 main_thread = Held) ∧
  value <$> semas (kern sample_config) !! lock_semaphore 100 = Some 0 ∧
  holders (kern sample_config) !! 100 = Some main_thread.
Proof.
  destruct (sample_system lock_mutual_exclusion 100 main_thread main_thread) as (_ & H0 & _ & Hh);
    [apply elem_of_singleton; reflexivity|].
  split; [reflexivity|]. split; [apply H0; discriminate|].
  exact (proj1 (proj1 Hh eq_refl)).
Defined.

Lemma semaphore_no_lost_wakeup_witness :
  ∃ s x, top sample_config 0xc0103000 = Some s ∧ semas (kern sample_config) !! s = Some x ∧
         0xc0103000 ∈ waiters x.
Proof.
  apply (proj1 (sample_system semaphore_no_lost_wakeup)); [reflexivity|discriminate].
Defined.

Lemma scheduler_invariant_witness :
  (∀ t, stat sample_kernel t = Some THREAD_RUNNING ↔ t = main_thread) ∧ NoDup (ready_list sample_kernel).
Proof.
  destruct (sample_system scheduler_invariant) as (H1 & H2 & _). exact (conj H1 H2).
Defined.
