(* ===== verification/Inode.v ===== *)
(** * Inodes (filesys/inode.c)

    The layer between files and sectors, over any [SectorStore]; the cache is
    one.  The free map is used by the functions that grow or free an inode, and
    writes itself through them, so [free_map_allocate (1, ...)] and
    [free_map_release (_, 1)] are arguments here; FreeMap ties the knot. *)

From S2P Require Import Prelude Bitmap Block Cache FsState.

(** What the C code leaves to the machine: the contents of an array on the
    stack or in a block from [malloc] that was never stored to, and the addresses that the code passes
    where a sector number is meant. *)
Class Machine := {
  stack_words : list Z;
  heap_words : Z → list Z;
  addr_indirect : Z;
  addr_doubly_indirect : Z;
  addr_zeros : Z }.

(** Sectors needed for [length] bytes: the division that [inode_create],
    [add_inode] and [deallocate_inode] open with. *)
Definition sector_count (length : Z) : Z :=
  let n := length `quot` BLOCK_SECTOR_SIZE in
  if n * BLOCK_SECTOR_SIZE <? length then n + 1 else n.

Definition bytes_to_sectors (size : Z) : Z :=
  u32 (s32 (s32 (size + BLOCK_SECTOR_SIZE) - 1) `quot` BLOCK_SECTOR_SIZE).

Definition set_direct (l : list Z) (d : inode_disk) : inode_disk :=
  mk_inode_disk l (indirect d) (doubly_indirect d) (length_ d) (magic d).
Definition set_indirect (x : Z) (d : inode_disk) : inode_disk :=
  mk_inode_disk (direct d) x (doubly_indirect d) (length_ d) (magic d).
Definition set_doubly (x : Z) (d : inode_disk) : inode_disk :=
  mk_inode_disk (direct d) (indirect d) x (length_ d) (magic d).
Definition set_length (x : Z) (d : inode_disk) : inode_disk :=
  mk_inode_disk (direct d) (indirect d) (doubly_indirect d) x (magic d).

(** [blocks[j] = x]. *)
Definition put_word (j x : Z) (blocks : list Z) : outcome (list Z) :=
  if (0 <=? j) && (j <? Z.of_nat (length blocks)) then Ok (<[Z.to_nat j := x]> blocks) else Undef.
Definition get_word (blocks : list Z) (j : Z) : outcome Z :=
  if 0 <=? j then match blocks !! Z.to_nat j with Some x => Ok x | None => Undef end else Undef.

Section Inode.
Context {St : Type} {SS : SectorStore St} {mach : Machine}.

Abbreviation K := (M (fs St)).

Definition read_disk (n : Z) : K sector_data :=
  let! '(_, d) := on_disk (ss_read n) in ret d.
Definition write_disk (n : Z) (d : sector_data) : K unit := on_disk (ss_write n d).

(** What [cache_read_bytes] stores in [buff]; nothing when memory is out. *)
Definition cache_read_bytes (sector_idx offset size : Z) : K (option (list Z)) :=
  let! bounce := malloc in
  let! bounce := (if bounce =? NULL then malloc else ret bounce) in
  if bounce =? NULL then ret None
  else
    let! data := read_disk sector_idx in
    let! chunk := lift (slice data offset size) in
    ret (Some chunk).

(** The [if] after the first [malloc] has an empty body, so the block after it
    always runs. *)
Definition cache_write_bytes (sector_idx : Z) (buffer : list Z)
    (sector_ofs chunk_size sector_left : Z) : K bool :=
  let! _ := malloc in
  let! bounce := malloc in
  if bounce =? NULL then ret false
  else
    let! data :=
      (if (0 <? sector_ofs) || (chunk_size <? sector_left) then read_disk sector_idx
       else ret zeros) in
    let! data := lift (memcpy_at data sector_ofs buffer) in
    let! _ := write_disk sector_idx data in
    ret true.

(** [cache_read] into a null [bounce] stops in [memcpy] or the disk driver. *)
Definition read_sector (sector offset : Z) : K Z :=
  let! bounce := malloc in
  let! _ := ASSERT (negb (bounce =? NULL)) in
  let! data := read_disk sector in
  lift (get_word (bytes_to_words 128 data) offset).

Definition byte_to_sector (inode pos : Z) : K Z :=
  let! _ := ASSERT (negb (inode =? NULL)) in
  let! i := load_inode inode in
  let! data := read_disk (sector i) in
  let disk_inode := decode_inode data in
  if pos <? length_ disk_inode then
    if pos <? 124 * BLOCK_SECTOR_SIZE then
      lift (get_word (direct disk_inode) (pos `quot` BLOCK_SECTOR_SIZE))
    else if pos <? (124 + 128) * BLOCK_SECTOR_SIZE then
      read_sector (indirect disk_inode) (pos `quot` BLOCK_SECTOR_SIZE - 124)
    else
      let doubly_indirect_num := (pos `quot` BLOCK_SECTOR_SIZE - 124 - 128) `quot` 128 in
      let inner_indirect_num := pos `quot` BLOCK_SECTOR_SIZE - doubly_indirect_num in
      let! inner_indirect_sector := read_sector (doubly_indirect disk_inode) doubly_indirect_num in
      read_sector inner_indirect_sector inner_indirect_num
  else ret (u32 (-1)).

Definition inode_length (inode : Z) : K Z :=
  let! i := load_inode inode in
  let! data := read_disk (sector i) in
  ret (length_ (decode_inode data)).

Definition inode_removed (inode : Z) : K bool :=
  let! i := load_inode inode in ret (removed i).

Definition inode_get_inumber (inode : Z) : K Z :=
  let! i := load_inode inode in ret (sector i).

Definition inode_reopen (inode : Z) : K Z :=
  if inode =? NULL then ret inode
  else
    let! i := load_inode inode in
    let! _ := store_inode inode
      (mk_inode (sector i) (s32 (open_cnt i + 1)) (removed i) (deny_write_cnt i)) in
    ret inode.

(** The walk over [open_inodes]. *)
Fixpoint find_open (sec : Z) (l : list Z) : K (option Z) :=
  match l with
  | [] => ret None
  | p :: l =>
      let! i := load_inode p in
      if sector i =? sec then ret (Some p) else find_open sec l
  end.

Definition inode_open (sec : Z) : K Z :=
  let! l := gets open_inodes in
  let! found := find_open sec l in
  match found with
  | Some p => inode_reopen p
  | None =>
      let! p := malloc in
      if p =? NULL then ret NULL
      else
        let! _ := modify (λ s, set_open_inodes (p :: open_inodes s)
                                 (set_inodes (<[p := mk_inode sec 1 false 0]> (inodes s)) s)) in
        ret p
  end.

Definition inode_remove (inode : Z) : K unit :=
  let! _ := ASSERT (negb (inode =? NULL)) in
  let! i := load_inode inode in
  store_inode inode (mk_inode (sector i) (open_cnt i) true (deny_write_cnt i)).

Definition inode_deny_write (inode : Z) : K unit :=
  let! i := load_inode inode in
  let n := s32 (deny_write_cnt i + 1) in
  let! _ := store_inode inode (mk_inode (sector i) (open_cnt i) (removed i) n) in
  ASSERT (n <=? open_cnt i).

Definition inode_allow_write (inode : Z) : K unit :=
  let! i := load_inode inode in
  let! _ := ASSERT (0 <? deny_write_cnt i) in
  let! _ := ASSERT (deny_write_cnt i <=? open_cnt i) in
  store_inode inode (mk_inode (sector i) (open_cnt i) (removed i) (s32 (deny_write_cnt i - 1))).

(** ** Reading *)

(** The loop of [inode_read_at]; every round moves at least one byte, so
    [size] rounds are enough. *)
Fixpoint read_loop (fuel : nat) (inode : Z) (buffer : list Z) (size offset bytes_read : Z)
    : K (Z * list Z) :=
  if size <=? 0 then ret (bytes_read, buffer)
  else match fuel with
  | O => out_of_fuel
  | S fuel =>
      let! sector_idx := byte_to_sector inode offset in
      let sector_ofs := offset `rem` BLOCK_SECTOR_SIZE in
      let! len := inode_length inode in
      let inode_left := s32 (len - offset) in
      let sector_left := BLOCK_SECTOR_SIZE - sector_ofs in
      let min_left := if inode_left <? sector_left then inode_left else sector_left in
      let chunk_size := if size <? min_left then size else min_left in
      if chunk_size <=? 0 then ret (bytes_read, buffer)
      else
        let! buffer :=
          (if (sector_ofs =? 0) && (chunk_size =? BLOCK_SECTOR_SIZE) then
             let! data := read_disk sector_idx in
             lift (memcpy_at buffer bytes_read data)
           else
             let! chunk := cache_read_bytes sector_idx sector_ofs chunk_size in
             match chunk with
             | Some chunk => lift (memcpy_at buffer bytes_read chunk)
             | None => ret buffer
             end) in
        read_loop fuel inode buffer (size - chunk_size) (s32 (offset + chunk_size))
          (bytes_read + chunk_size)
  end.

(** [inode_read_at] returns its result and the caller's buffer after it. *)
Definition inode_read_at (inode : Z) (buffer : list Z) (size offset : Z) : K (Z * list Z) :=
  let! i := load_inode inode in
  if 20000000 <? sector i then ret (-1, buffer)
  else
    let! data := read_disk (sector i) in
    let disk_inode := decode_inode data in
    let! buffer :=
      (if length_ disk_inode <=? offset then
         let! z := lift (slice zeros 0 size) in
         lift (memcpy_at buffer 0 z)
       else ret buffer) in
    read_loop (Z.to_nat size) inode buffer size offset 0.

(** ** Growing and freeing *)

Section FreeMap.
(** [free_map_allocate (1, &x)] returns what it stores in [x], if anything;
    [free_map_release (x, 1)]. *)
Variable allocate : K (option Z).
Variable release : Z → K unit.

(** [n] rounds of the loops that allocate a sector for [blocks[j]],
    [blocks[j + 1]], ... and clear it; [success] is set by each that worked. *)
Fixpoint fill (n : nat) (j : Z) (blocks : list Z) (success : bool) : K (list Z * bool) :=
  match n with
  | O => ret (blocks, success)
  | S n =>
      let! r := allocate in
      match r with
      | Some x =>
          let! blocks := lift (put_word j x blocks) in
          let! _ := write_disk x zeros in
          fill n (j + 1) blocks true
      | None => fill n (j + 1) blocks success
      end
  end.

(** The indirect block of [inode_create]. *)
Definition create_indirect (count : Z) (success : bool) : K (Z * bool) :=
  let! r := allocate in
  match r with
  | None => ret (0, success)
  | Some x =>
      let! '(indirect_blocks, _) := fill (Z.to_nat ((count - 124) `min` 128)) 0 stack_words false in
      let! _ := write_disk x (words_to_bytes indirect_blocks) in
      ret (x, true)
  end.

(** The loop over the doubly indirect block of [inode_create]; the inner block
    is stored at [doubly_indirect_blocks[k]]. *)
Fixpoint create_doubly_loop (n : nat) (j sectors_left : Z) (blocks : list Z) : K (list Z) :=
  match n with
  | O => ret blocks
  | S n =>
      if sectors_left <=? 0 then ret blocks
      else
        let! r := allocate in
        match r with
        | None => create_doubly_loop n (j + 1) sectors_left blocks
        | Some x =>
            let! blocks := lift (put_word j x blocks) in
            let k := sectors_left `min` 128 in
            let! '(inner, _) := fill (Z.to_nat k) 0 stack_words false in
            let! dst := lift (get_word blocks k) in
            let! _ := write_disk dst (words_to_bytes inner) in
            create_doubly_loop n (j + 1) (sectors_left - k) blocks
        end
  end.

Definition create_doubly (count : Z) (success : bool) : K (Z * bool) :=
  let! r := allocate in
  match r with
  | None => ret (0, success)
  | Some x =>
      let! blocks := create_doubly_loop 128 0 (count - 124 - 128) stack_words in
      let! _ := write_disk x (words_to_bytes blocks) in
      ret (x, true)
  end.

Definition inode_create (sec length : Z) : K bool :=
  let! _ := ASSERT (0 <=? length) in
  let! p := malloc in
  if p =? NULL then ret false
  else
    let count := sector_count length in
    let! '(blocks, success) := fill (Z.to_nat (count `min` 124)) 0 (replicate 124 0) false in
    let! '(ind, success) :=
      (if 124 <? count then create_indirect count success else ret (0, success)) in
    let! '(dbl, success) :=
      (if 124 + 128 <? count then create_doubly count success else ret (0, success)) in
    let! _ := write_disk sec (encode_inode (mk_inode_disk blocks ind dbl length INODE_MAGIC)) in
    ret (if 0 <? count then success else true).

(** [add_inode], the direct sectors. *)
Definition add_direct (d : inode_disk) (total current new : Z) : K (inode_disk * Z * Z) :=
  let new := if 124 <? total then new - (124 - current) else 0 in
  let stop := total `min` 124 in
  let! '(blocks, _) := fill (Z.to_nat (stop - current)) current (direct d) false in
  ret (set_direct blocks d, stop, new).

(** [add_inode], the sectors of the indirect block. *)
Definition add_indirect (d : inode_disk) (total current new : Z) : K (inode_disk * Z * Z) :=
  let new := if 124 + 128 <? total then new - (128 - current) else 0 in
  let! '(d, blocks) :=
    (if current =? 124 then
       let! r := allocate in
       ret (match r with Some x => set_indirect x d | None => d end, stack_words)
     else
       let! data := read_disk (indirect d) in
       ret (d, bytes_to_words 128 data)) in
  let stop := total `min` (124 + 128) in
  let! '(blocks, _) := fill (Z.to_nat (stop - current)) (current - 124) blocks false in
  let! _ := write_disk (indirect d) (words_to_bytes blocks) in
  ret (d, stop, new).

(** [add_inode], the loop over the doubly indirect block. *)
Fixpoint add_doubly_loop (n : nat) (j inner_start current new : Z) (blocks : list Z) : K (list Z) :=
  match n with
  | O => ret blocks
  | S n =>
      if (128 <=? j) || (new <=? 0) then ret blocks
      else
        let! '(blocks, inner) :=
          (if current =? 124 + 128 + 128 * j then
             let! r := allocate in
             match r with
             | Some x => let! blocks := lift (put_word j x blocks) in ret (blocks, stack_words)
             | None => ret (blocks, stack_words)
             end
           else
             let! sec := lift (get_word blocks j) in
             let! data := read_disk sec in
             ret (blocks, bytes_to_words 128 data)) in
        let rounds := (128 - inner_start) `min` new in
        let! '(inner, _) := fill (Z.to_nat rounds) inner_start inner false in
        let! sec := lift (get_word blocks j) in
        let! _ := write_disk sec (words_to_bytes inner) in
        add_doubly_loop n (j + 1) 0 current (new - rounds) blocks
  end.

(** For the first sector of the range the code reads the doubly indirect block
    from sector [zeros], an address. *)
Definition add_doubly (d : inode_disk) (current new : Z) : K inode_disk :=
  let! '(d, data) :=
    (if current =? 124 + 128 then
       let! r := allocate in
       let! data := read_disk (u32 addr_zeros) in
       ret (match r with Some x => set_doubly x d | None => d end, data)
     else
       let! data := read_disk (doubly_indirect d) in
       ret (d, data)) in
  let outer_start := (current - 124 - 128) `quot` 128 in
  let inner_start := (current - 124 - 128) `rem` 128 in
  let! blocks := add_doubly_loop 128 outer_start inner_start current new (bytes_to_words 128 data) in
  let! _ := write_disk (doubly_indirect d) (words_to_bytes blocks) in
  ret d.

Definition add_inode (d : inode_disk) (new_length : Z) : K inode_disk :=
  let old_length := length_ d in
  let total := sector_count new_length in
  let current := sector_count old_length in
  let new := total - current in
  if new <=? 0 then
    ret (set_length (if old_length <? new_length then new_length else old_length) d)
  else
    let! '(d, current, new) :=
      (if current <? 124 then add_direct d total current new else ret (d, current, new)) in
    let! '(d, current, new) :=
      (if (0 <? new) && (current <? 124 + 128) then add_indirect d total current new
       else ret (d, current, new)) in
    let! d := (if 0 <? new then add_doubly d current new else ret d) in
    ret (set_length new_length d).

(** The loop of [inode_write_at], with the fuel of [read_loop]. *)
Fixpoint write_loop (fuel : nat) (inode : Z) (buffer : list Z) (size offset bytes_written : Z)
    : K Z :=
  if size <=? 0 then ret bytes_written
  else match fuel with
  | O => out_of_fuel
  | S fuel =>
      let! sector_idx := byte_to_sector inode offset in
      let sector_ofs := offset `rem` BLOCK_SECTOR_SIZE in
      let! len := inode_length inode in
      let inode_left := s32 (len - offset) in
      let sector_left := BLOCK_SECTOR_SIZE - sector_ofs in
      let min_left := if inode_left <? sector_left then inode_left else sector_left in
      let chunk_size := if size <? min_left then size else min_left in
      if chunk_size <=? 0 then ret bytes_written
      else
        let! chunk := lift (slice buffer bytes_written chunk_size) in
        let! _ :=
          (if (sector_ofs =? 0) && (chunk_size =? BLOCK_SECTOR_SIZE) then
             write_disk sector_idx chunk
           else
             let! _ := cache_write_bytes sector_idx chunk sector_ofs chunk_size sector_left in
             ret tt) in
        write_loop fuel inode buffer (size - chunk_size) (s32 (offset + chunk_size))
          (bytes_written + chunk_size)
  end.

Definition inode_write_at (inode : Z) (buffer : list Z) (size offset : Z) : K Z :=
  let! i := load_inode inode in
  if negb (deny_write_cnt i =? 0) then ret 0
  else
    let! data := read_disk (sector i) in
    let! disk_inode := add_inode (decode_inode data) (s32 (size + offset)) in
    let! _ := write_disk (sector i) (encode_inode disk_inode) in
    let! bytes_written := write_loop (Z.to_nat size) inode buffer size offset 0 in
    let! _ := write_disk (sector i) (encode_inode disk_inode) in
    ret bytes_written.

Fixpoint release_all (l : list Z) : K unit :=
  match l with
  | [] => ret tt
  | x :: l => let! _ := release x in release_all l
  end.

(** The loop over the doubly indirect block of [deallocate_inode]. *)
Fixpoint dealloc_doubly_loop (blocks : list Z) (remaining : Z) : K unit :=
  match blocks with
  | [] => ret tt
  | b :: blocks =>
      if remaining <=? 0 then ret tt
      else
        let! data := read_disk b in
        let k := remaining `min` 128 in
        let! _ := release_all (take (Z.to_nat k) (bytes_to_words 128 data)) in
        let! _ := release b in
        dealloc_doubly_loop blocks (remaining - k)
  end.

(** The indirect and the doubly indirect block are read from the addresses of
    the fields that hold their sector numbers. *)
Definition deallocate_inode (d : inode_disk) : K unit :=
  let total := sector_count (length_ d) in
  if total <=? 0 then ret tt
  else
    let! _ := release_all (take (Z.to_nat (total `min` 124)) (direct d)) in
    let remaining := total - total `min` 124 in
    let! remaining :=
      (if 0 <? remaining then
         let! data := read_disk (u32 addr_indirect) in
         let k := remaining `min` 128 in
         let! _ := release_all (take (Z.to_nat k) (bytes_to_words 128 data)) in
         let! _ := release (indirect d) in
         ret (remaining - k)
       else ret remaining) in
    if 0 <? remaining then
      let! data := read_disk (u32 addr_doubly_indirect) in
      let! _ := dealloc_doubly_loop (bytes_to_words 128 data) remaining in
      release (doubly_indirect d)
    else ret tt.

Definition inode_close (inode : Z) : K unit :=
  if inode =? NULL then ret tt
  else
    let! i := load_inode inode in
    let n := s32 (open_cnt i - 1) in
    let! _ := store_inode inode (mk_inode (sector i) n (removed i) (deny_write_cnt i)) in
    if n =? 0 then
      let! _ := modify (λ s, set_open_inodes (filter (λ p, p ≠ inode) (open_inodes s)) s) in
      let! _ :=
        (if removed i then
           let! data := read_disk (sector i) in
           let! _ := deallocate_inode (decode_inode data) in
           release (sector i)
         else ret tt) in
      modify (λ s, set_inodes (delete inode (inodes s)) s)
    else ret tt.
End FreeMap.
End Inode.

(** [inode_init], with the cache as the store. *)
Definition inode_init : M (fs store) unit :=
  modify (λ s, set_open_inodes [] (set_disk (cache_init (disk s)) s)).
