(* ===== verification/InodeView.v ===== *)
(** * What an inode means

    The bytes of a file as a function of the sectors ([content]), and the
    proofs that [byte_to_sector], [inode_length], [inode_read_at] and
    [inode_write_at] on existing sectors read and replace those bytes. *)

From Stdlib Require Import FunctionalExtensionality.
From S2P Require Import Prelude Bitmap Block Cache FsState Inode.

(** The contents of the sectors. *)
Abbreviation disk_view := (Z → sector_data).

Lemma fn_insert_same (g : disk_view) k : <[k := g k]> g = g.
Proof.
  apply functional_extensionality. intros x. destruct (decide (k = x)) as [->|].
  - by rewrite fn_lookup_insert.
  - by rewrite fn_lookup_insert_ne.
Qed.

Definition count_of (d : inode_disk) : nat := Z.to_nat (sector_count (length_ d)).

(** The sector numbers the inode holds: direct, then in the indirect block. *)
Definition pointers (g : disk_view) (d : inode_disk) : list Z :=
  direct d ++ bytes_to_words 128 (g (indirect d)).
Definition sectors (g : disk_view) (d : inode_disk) : list Z := take (count_of d) (pointers g d).

(** The indirect block, when it is in use. *)
Definition index_sectors (d : inode_disk) : list Z :=
  if decide (124 < count_of d)%nat then [indirect d] else [].

(** All sectors of the file whose inode is at [n]. *)
Definition own (g : disk_view) (n : Z) (d : inode_disk) : list Z :=
  n :: index_sectors d ++ sectors g d.

(** The bytes of the file. *)
Definition content (g : disk_view) (d : inode_disk) : list Z :=
  take (Z.to_nat (length_ d)) (concat (g <$> sectors g d)).

(** A file of at most 124 + 128 sectors, with its inode at [n]: its sectors are
    on the disk and no sector is used twice. *)
Record inode_ok (g : disk_view) (size n : Z) (d : inode_disk) : Prop := {
  io_disk : g n = encode_inode d;
  io_wf : inode_disk_wf d;
  io_len : 0 ≤ length_ d ≤ (124 + 128) * 512;
  io_range : Forall (λ x, 0 ≤ x < size) (own g n d);
  io_nodup : NoDup (own g n d) }.

Lemma sector_count_eq len : 0 ≤ len → sector_count len = (len + 511) / 512.
Proof.
  intros H. unfold sector_count, BLOCK_SECTOR_SIZE. rewrite Z.quot_div_nonneg by lia.
  pose proof (Z.div_mod len 512 ltac:(lia)). pose proof (Z.mod_pos_bound len 512 ltac:(lia)).
  set (q := len / 512) in *. case_match eqn:E.
  - apply Z.ltb_lt in E. apply (Z.div_unique _ _ _ (len `mod` 512 - 1)); lia.
  - apply Z.ltb_ge in E. apply (Z.div_unique _ _ _ (511)); lia.
Qed.

Lemma count_bounds d :
  0 ≤ length_ d → 512 * Z.of_nat (count_of d) - 511 ≤ length_ d ≤ 512 * Z.of_nat (count_of d).
Proof.
  intros H. unfold count_of. rewrite sector_count_eq by done.
  rewrite Z2Nat.id by (apply Z.div_pos; lia).
  pose proof (Z.div_mod (length_ d + 511) 512 ltac:(lia)).
  pose proof (Z.mod_pos_bound (length_ d + 511) 512 ltac:(lia)). lia.
Qed.

Section View.
Context {g : disk_view} {size n : Z} {d : inode_disk} (Hok : inode_ok g size n d).

Lemma count_le : (count_of d ≤ 252)%nat.
Proof. pose proof (count_bounds d). pose proof (io_len _ _ _ _ Hok). lia. Qed.

Lemma length_sectors : length (sectors g d) = count_of d.
Proof.
  unfold sectors, pointers. rewrite length_take, length_app, length_bytes_to_words.
  pose proof (idw_direct _ (io_wf _ _ _ _ Hok)) as [-> _]. pose proof count_le. lia.
Qed.

Lemma sectors_lookup_range i x : sectors g d !! i = Some x → 0 ≤ x < size.
Proof.
  intros H. pose proof (io_range _ _ _ _ Hok) as Hr. rewrite list.Forall_forall in Hr. apply Hr.
  unfold own. rewrite elem_of_cons, elem_of_app. right. right. by eapply list_elem_of_lookup_2.
Qed.

Lemma inode_sector_range : 0 ≤ n < size.
Proof. pose proof (io_range _ _ _ _ Hok) as Hr. by inversion_clear Hr. Qed.

Lemma indirect_range : (124 < count_of d)%nat → 0 ≤ indirect d < size.
Proof.
  intros H. pose proof (io_range _ _ _ _ Hok) as Hr. rewrite list.Forall_forall in Hr. apply Hr.
  unfold own, index_sectors. rewrite decide_True by done.
  rewrite elem_of_cons, elem_of_app, list_elem_of_singleton. tauto.
Qed.

Lemma length_content (Hg : ∀ k, length (g k) = 512%nat) :
  length (content g d) = Z.to_nat (length_ d).
Proof.
  unfold content. rewrite length_take, (length_concat_blocks 512).
  - rewrite length_fmap, length_sectors.
    pose proof (count_bounds d). pose proof (io_len _ _ _ _ Hok). lia.
  - apply Forall_fmap, Forall_true. intros. apply Hg.
Qed.

(** What is stored in the sectors of the file other than its data does not
    change when a data sector is written. *)
Lemma sector_ne i x : sectors g d !! i = Some x → x ≠ n ∧ x ∉ index_sectors d.
Proof.
  intros H%list_elem_of_lookup_2. pose proof (io_nodup _ _ _ _ Hok) as Hn. unfold own in Hn.
  apply list.NoDup_cons in Hn as [Hn1 Hn2]. apply list.NoDup_app in Hn2 as (_ & Hn2 & _). split.
  - intros ->. apply Hn1, elem_of_app. by right.
  - intros ?. by eapply Hn2.
Qed.

Lemma sectors_insert i x data : sectors g d !! i = Some x → sectors (<[x := data]> g) d = sectors g d.
Proof.
  intros H. apply sector_ne in H as [_ Hx]. unfold sectors, pointers.
  pose proof (idw_direct _ (io_wf _ _ _ _ Hok)) as [Hd _]. unfold index_sectors in Hx.
  case_decide.
  - rewrite fn_lookup_insert_ne; [done|]. set_solver.
  - rewrite !take_app_le by lia. done.
Qed.

Lemma inode_ok_insert i x data :
  sectors g d !! i = Some x → inode_ok (<[x := data]> g) size n d.
Proof.
  intros Hx. destruct (sector_ne _ _ Hx) as [Hne _]. pose proof (sectors_insert _ _ data Hx) as E.
  destruct Hok as [? ? ? Hr Hn]. unfold own in *. split; unfold own; rewrite ?E; try done.
  by rewrite fn_lookup_insert_ne.
Qed.

Lemma fmap_insert_sector i x data :
  sectors g d !! i = Some x → <[x := data]> g <$> sectors g d = <[i := data]> (g <$> sectors g d).
Proof.
  intros Hx. apply list_eq. intros k. rewrite list_lookup_fmap.
  assert (NoDup (sectors g d)) as Hnd.
  { pose proof (io_nodup _ _ _ _ Hok) as H. unfold own in H.
    apply list.NoDup_cons in H as [_ H]. by apply list.NoDup_app in H as (_ & _ & ?). }
  destruct (decide (k = i)) as [->|Hk].
  - rewrite list_lookup_insert_eq by (rewrite length_fmap; by eapply lookup_lt_Some).
    rewrite Hx. cbn. by rewrite fn_lookup_insert.
  - rewrite list_lookup_insert_ne, list_lookup_fmap by done.
    destruct (sectors g d !! k) as [y|] eqn:Hy; [cbn|done].
    rewrite fn_lookup_insert_ne; [done|]. intros ->. apply Hk. by eapply NoDup_lookup.
Qed.

Lemma bytes_insert (Hg : ∀ k, length (g k) = 512%nat) i o x data :
  sectors g d !! i = Some x → (o + length data ≤ 512)%nat →
  concat (<[x := splice o data (g x)]> g <$> sectors (<[x := splice o data (g x)]> g) d)
  = splice (512 * i + o) data (concat (g <$> sectors g d)).
Proof.
  intros Hx Ho. rewrite (sectors_insert _ _ _ Hx), (fmap_insert_sector _ _ _ Hx).
  apply splice_concat; [|by rewrite list_lookup_fmap, Hx|done|lia].
  apply Forall_fmap, Forall_true; intros; apply Hg.
Qed.

Lemma content_insert (Hg : ∀ k, length (g k) = 512%nat) i o x data :
  sectors g d !! i = Some x → (o + length data ≤ 512)%nat →
  Z.of_nat (512 * i + o + length data) ≤ length_ d →
  content (<[x := splice o data (g x)]> g) d = splice (512 * i + o) data (content g d).
Proof.
  intros Hx Ho Hlen. unfold content. rewrite (bytes_insert Hg _ _ _ _ Hx Ho).
  apply take_splice; [lia|]. rewrite (length_concat_blocks 512), length_fmap, length_sectors.
  - pose proof (count_bounds d). pose proof (io_len _ _ _ _ Hok). lia.
  - apply Forall_fmap, Forall_true; intros; apply Hg.
Qed.

Lemma content_slice (Hg : ∀ k, length (g k) = 512%nat) i o c x :
  sectors g d !! i = Some x → (o + c ≤ 512)%nat → Z.of_nat (512 * i + o + c) ≤ length_ d →
  take c (drop o (g x)) = take c (drop (512 * i + o) (content g d)).
Proof.
  intros Hx Ho Hlen. unfold content.
  rewrite (slice_concat 512 (g <$> sectors g d) i o c (g x)); [|..|done].
  - rewrite skipn_firstn_comm, take_take. f_equal. lia.
  - apply Forall_fmap, Forall_true; intros; apply Hg.
  - by rewrite list_lookup_fmap, Hx.
Qed.
End View.

(** Whatever happens to the sectors of other files is invisible. *)
Lemma sectors_agree g g' size n d :
  inode_ok g size n d → (∀ x, x ∈ own g n d → g' x = g x) → sectors g' d = sectors g d.
Proof.
  intros Hok H. unfold sectors, pointers. destruct (idw_direct _ (io_wf _ _ _ _ Hok)) as [Hd _].
  unfold own, index_sectors in H. case_decide.
  - rewrite H; [done|]. rewrite elem_of_cons, elem_of_app, list_elem_of_singleton. tauto.
  - rewrite !take_app_le by lia. done.
Qed.

Lemma inode_ok_agree g g' size n d :
  inode_ok g size n d → (∀ x, x ∈ own g n d → g' x = g x) →
  inode_ok g' size n d ∧ own g' n d = own g n d ∧ content g' d = content g d.
Proof.
  intros Hok H. pose proof (sectors_agree _ _ _ _ _ Hok H) as Hs.
  assert (own g' n d = own g n d) as Ho by (unfold own; by rewrite Hs).
  destruct Hok as [Hd ???]. split_and!; [split; rewrite ?Ho; try done|done|].
  - rewrite H; [done|left].
  - unfold content. rewrite Hs. do 2 f_equal. apply list_fmap_ext. intros k x Hx.
    apply H. unfold own. rewrite elem_of_cons, elem_of_app. right. right.
    by eapply list_elem_of_lookup_2.
Qed.

(** From [g] to [g'] the bytes of the file from [off] on became [data], and no
    sector but those that hold its bytes changed. *)
Record data_written (g g' : disk_view) (size n : Z) (d : inode_disk) (off : nat) (data : list Z)
    : Prop := {
  dw_ok : inode_ok g' size n d;
  dw_length : ∀ k, length (g' k) = 512%nat;
  dw_sectors : sectors g' d = sectors g d;
  dw_bytes : concat (g' <$> sectors g' d) = splice off data (concat (g <$> sectors g d));
  dw_content : content g' d = splice off data (content g d);
  dw_frame : ∀ k, k ∉ sectors g d → g' k = g k }.

Lemma data_written_nil g size n d off :
  inode_ok g size n d → (∀ k, length (g k) = 512%nat) → data_written g g size n d off [].
Proof. intros. split; try done; by rewrite splice_nil. Qed.

Lemma content_prefix g d : (length (content g d) ≤ length (concat (g <$> sectors g d)))%nat.
Proof. unfold content. rewrite length_take. lia. Qed.

Lemma data_written_app g1 g2 g3 size n d off d1 d2 :
  (off + length d1 + length d2 ≤ length (content g1 d))%nat →
  data_written g1 g2 size n d off d1 → data_written g2 g3 size n d (off + length d1) d2 →
  data_written g1 g3 size n d off (d1 ++ d2).
Proof.
  intros Hlen [_ _ Hs1 Hb1 Hc1 Hf1] [? ? Hs2 Hb2 Hc2 Hf2]. split; [done|done|congruence|..].
  - rewrite Hb2, Hb1, splice_splice; [done|]. pose proof (content_prefix g1 d). lia.
  - by rewrite Hc2, Hc1, splice_splice.
  - intros k Hk. rewrite Hf2, Hf1; [done|done|]. by rewrite Hs1.
Qed.

Lemma data_written_sector g size n d i o x data :
  inode_ok g size n d → (∀ k, length (g k) = 512%nat) →
  sectors g d !! i = Some x → (o + length data ≤ 512)%nat →
  Z.of_nat (512 * i + o + length data) ≤ length_ d →
  data_written g (<[x := splice o data (g x)]> g) size n d (512 * i + o) data.
Proof.
  intros Hok Hg Hx Ho Hl. split.
  - by eapply inode_ok_insert.
  - intros k. destruct (decide (x = k)) as [<-|].
    + rewrite fn_lookup_insert, length_splice; [apply Hg|]. by rewrite Hg.
    + by rewrite fn_lookup_insert_ne.
  - by eapply sectors_insert.
  - by eapply bytes_insert.
  - by eapply content_insert.
  - intros k Hk. rewrite fn_lookup_insert_ne; [done|]. intros ->. apply Hk.
    by eapply list_elem_of_lookup_2.
Qed.

(** ** Running the operations *)

Section Run.
Context {St : Type} {SS : SectorStore St} {mach : Machine}.
Implicit Types s : fs St.

Definition dview s : disk_view := ss_view (disk s).
Definition dsize s : Z := ss_size (disk s).

(** Everything but the sectors and the count of allocations. *)
Definition memory s :=
  (inodes s, open_inodes s, files s, dirs s, free_map s, free_map_file s, malloc_ok s).

(** From [s] to [s'] only the sectors changed, and they are now [g]. *)
Record evolves s s' (g : disk_view) : Prop := {
  ev_inv : ss_inv (disk s');
  ev_size : dsize s' = dsize s;
  ev_view : dview s' = g;
  ev_memory : memory s' = memory s;
  ev_count : (malloc_cnt s ≤ malloc_cnt s')%nat }.

(** [malloc] always succeeds from here on. *)
Definition memory_left s : Prop := ∀ n, malloc_ok s n = true.

Lemma evolves_trans s1 s2 s3 g h : evolves s1 s2 g → evolves s2 s3 h → evolves s1 s3 h.
Proof. intros [?????] [?????]. split; [congruence..|lia]. Qed.

Lemma evolves_memory_left s s' g : evolves s s' g → memory_left s → memory_left s'.
Proof.
  intros [_ _ _ E _] H n. unfold memory in E.
  assert (malloc_ok s' = malloc_ok s) as -> by congruence. apply H.
Qed.

Lemma evolves_inodes s s' g : evolves s s' g → inodes s' = inodes s.
Proof. intros [_ _ _ E _]. unfold memory in E. by simplify_eq. Qed.

Lemma dview_length s k : ss_inv (disk s) → length (dview s k) = 512%nat.
Proof. apply ss_view_length. Qed.

Lemma read_disk_ok s n :
  ss_inv (disk s) → 0 ≤ n < dsize s →
  ∃ s', read_disk n s = Ok (dview s n, s') ∧ evolves s s' (dview s).
Proof.
  intros Hi Hn. destruct (ss_read_ok _ _ Hi Hn) as (hit & d & E & ? & ? & Hv).
  exists (set_disk d s). split.
  - unfold read_disk, on_disk, bind. by rewrite E.
  - split; try done. apply functional_extensionality, Hv.
Qed.

Lemma write_disk_ok s n data :
  ss_inv (disk s) → 0 ≤ n < dsize s → length data = 512%nat →
  ∃ s', write_disk n data s = Ok (tt, s') ∧ evolves s s' (<[n := data]> (dview s)).
Proof.
  intros Hi Hn Hl. destruct (ss_write_ok _ _ _ Hi Hn Hl) as (d & E & ? & ? & Hv).
  exists (set_disk d s). split.
  - unfold write_disk, on_disk. by rewrite E.
  - split; try done. apply functional_extensionality. intros k. unfold dview. cbn. rewrite Hv.
    case_decide; subst; [by rewrite fn_lookup_insert|by rewrite fn_lookup_insert_ne].
Qed.

Lemma malloc_ok_eq s :
  ss_inv (disk s) → memory_left s →
  ∃ p s', malloc s = Ok (p, s') ∧ p ≠ NULL ∧ evolves s s' (dview s).
Proof.
  intros Hi Hm. unfold malloc. rewrite Hm. eexists _, _. split; [done|]. split; [unfold NULL; lia|].
  split; try done. cbn. lia.
Qed.

Lemma load_inode_ok s p i : inodes s !! p = Some i → load_inode p s = Ok (i, s).
Proof. unfold load_inode. by intros ->. Qed.

(** An open inode: [p] is the address of a [struct inode] for the file at
    [sector i], whose on-disk inode is [d]. *)
Record opened s (p : Z) (i : inode) (d : inode_disk) : Prop := {
  op_inv : ss_inv (disk s);
  op_memory : memory_left s;
  op_null : p ≠ NULL;
  op_inode : inodes s !! p = Some i;
  op_ok : inode_ok (dview s) (dsize s) (sector i) d }.

Lemma opened_evolves s s' p i d g :
  opened s p i d → evolves s s' g → inode_ok g (dsize s) (sector i) d → opened s' p i d.
Proof.
  intros [????] Hev ?. pose proof Hev as [? Hs Hv ? _]. split; try done.
  - by eapply evolves_memory_left.
  - by rewrite (evolves_inodes _ _ _ Hev).
  - by rewrite Hs, Hv.
Qed.

Lemma opened_quiet s s' p i d : opened s p i d → evolves s s' (dview s) → opened s' p i d.
Proof. intros H ?. eapply opened_evolves; [done..|]. apply H. Qed.

Lemma opened_decode s p i d : opened s p i d → decode_inode (dview s (sector i)) = d.
Proof.
  intros H. rewrite (io_disk _ _ _ _ (op_ok _ _ _ _ H)). apply decode_encode_inode, H.
Qed.

Lemma read_inode_ok s p i d :
  opened s p i d →
  ∃ data s', read_disk (sector i) s = Ok (data, s') ∧ decode_inode data = d ∧
    evolves s s' (dview s) ∧ opened s' p i d.
Proof.
  intros H. destruct (read_disk_ok s (sector i)) as (s' & E & Hev);
    [apply H|apply (inode_sector_range (op_ok _ _ _ _ H))|].
  eexists _, s'. split; [done|]. split; [by eapply opened_decode|]. split; [done|].
  by eapply opened_quiet.
Qed.

Lemma inode_length_ok s p i d :
  opened s p i d → ∃ s', inode_length p s = Ok (length_ d, s') ∧ evolves s s' (dview s).
Proof.
  intros H. unfold inode_length. rewrite (bind_Ok _ _ _ _ _ (load_inode_ok _ _ _ (op_inode _ _ _ _ H))).
  destruct (read_inode_ok _ _ _ _ H) as (data & s' & E & Hd & Hev & _).
  rewrite (bind_Ok _ _ _ _ _ E), Hd. eauto.
Qed.

Lemma get_word_ok (l : list Z) j x : 0 ≤ j → l !! Z.to_nat j = Some x → get_word l j = Ok x.
Proof. intros ? H. unfold get_word. by rewrite (proj2 (Z.leb_le _ _)), H by lia. Qed.

Lemma read_sector_ok s n j x :
  ss_inv (disk s) → memory_left s → 0 ≤ n < dsize s → 0 ≤ j →
  bytes_to_words 128 (dview s n) !! Z.to_nat j = Some x →
  ∃ s', read_sector n j s = Ok (x, s') ∧ evolves s s' (dview s).
Proof.
  intros Hi Hm Hn Hj Hx. unfold read_sector.
  destruct (malloc_ok_eq s Hi Hm) as (p & s1 & E & Hp & Hev1). rewrite (bind_Ok _ _ _ _ _ E).
  rewrite (proj2 (Z.eqb_neq _ _)) by done. cbn [negb]. unfold ASSERT. rewrite (bind_Ok _ _ s1 tt s1) by done.
  pose proof Hev1 as [Hi1 Hs1 Hv1 _ _].
  destruct (read_disk_ok s1 n) as (s2 & E2 & Hev2); [done|by rewrite Hs1|].
  rewrite (bind_Ok _ _ _ _ _ E2), Hv1. unfold lift. rewrite (get_word_ok _ _ x) by done.
  cbn. exists s2. split; [done|]. rewrite Hv1 in Hev2. by eapply evolves_trans.
Qed.

Lemma byte_to_sector_ok s p i d pos :
  opened s p i d → 0 ≤ pos < length_ d →
  ∃ x s', byte_to_sector p pos s = Ok (x, s') ∧
    sectors (dview s) d !! Z.to_nat (pos / 512) = Some x ∧ evolves s s' (dview s).
Proof.
  intros H Hpos. pose proof (op_ok _ _ _ _ H) as Hok. unfold byte_to_sector.
  rewrite (proj2 (Z.eqb_neq _ _)) by apply H. cbn [negb]. unfold ASSERT. rewrite (bind_Ok _ _ s tt s) by done.
  rewrite (bind_Ok _ _ _ _ _ (load_inode_ok _ _ _ (op_inode _ _ _ _ H))).
  destruct (read_inode_ok _ _ _ _ H) as (data & s1 & E & Hdec & Hev & H1).
  rewrite (bind_Ok _ _ _ _ _ E), Hdec. rewrite (proj2 (Z.ltb_lt _ _)) by lia.
  unfold BLOCK_SECTOR_SIZE. rewrite Z.quot_div_nonneg by lia.
  pose proof (count_bounds d) as Hc. pose proof (io_len _ _ _ _ Hok) as Hl.
  pose proof (Z.div_mod pos 512 ltac:(lia)). pose proof (Z.mod_pos_bound pos 512 ltac:(lia)).
  set (q := pos / 512) in *.
  destruct (lookup_lt_is_Some_2 (sectors (dview s) d) (Z.to_nat q)) as [x Hx];
    [rewrite (length_sectors Hok); lia|].
  pose proof Hx as Hp. unfold sectors, pointers in Hp. apply lookup_take_Some in Hp as [Hp Hq].
  pose proof (idw_direct _ (io_wf _ _ _ _ Hok)) as [Hd _]. case_match eqn:E1.
  - apply Z.ltb_lt in E1. unfold lift. rewrite lookup_app_l in Hp by lia.
    rewrite (get_word_ok _ _ x) by (done || lia). cbn. eauto.
  - apply Z.ltb_ge in E1. rewrite (proj2 (Z.ltb_lt _ _)) by lia.
    rewrite lookup_app_r in Hp by lia. pose proof Hev as [Hi1 Hs1 Hv1 _ _].
    destruct (read_sector_ok s1 (indirect d) (q - 124) x) as (s2 & E2 & Hev2);
      [apply H1|apply H1|..].
    + rewrite Hs1. apply (indirect_range Hok). lia.
    + lia.
    + rewrite Hv1. rewrite <-Hp. f_equal. lia.
    + exists x, s2. split; [done|]. split; [done|]. rewrite Hv1 in Hev2. by eapply evolves_trans.
Qed.

Lemma byte_to_sector_past s p i d pos :
  opened s p i d → length_ d ≤ pos →
  ∃ s', byte_to_sector p pos s = Ok (u32 (-1), s') ∧ evolves s s' (dview s).
Proof.
  intros H Hpos. unfold byte_to_sector.
  rewrite (proj2 (Z.eqb_neq _ _)) by apply H. cbn [negb]. unfold ASSERT. rewrite (bind_Ok _ _ s tt s) by done.
  rewrite (bind_Ok _ _ _ _ _ (load_inode_ok _ _ _ (op_inode _ _ _ _ H))).
  destruct (read_inode_ok _ _ _ _ H) as (data & s1 & E & Hdec & Hev & H1).
  rewrite (bind_Ok _ _ _ _ _ E), Hdec. rewrite (proj2 (Z.ltb_ge _ _)) by lia. eauto.
Qed.

(** ** Reading *)

Lemma cache_read_bytes_ok s x o c :
  ss_inv (disk s) → memory_left s → 0 ≤ x < dsize s → 0 ≤ o → 0 ≤ c → o + c ≤ 512 →
  ∃ s', cache_read_bytes x o c s
        = Ok (Some (take (Z.to_nat c) (drop (Z.to_nat o) (dview s x))), s') ∧
        evolves s s' (dview s).
Proof.
  intros Hi Hm Hx ???. unfold cache_read_bytes.
  destruct (malloc_ok_eq s Hi Hm) as (p & s1 & E & Hp & Hev1). rewrite (bind_Ok _ _ _ _ _ E).
  rewrite (proj2 (Z.eqb_neq _ _)) by done. rewrite (bind_Ok _ _ s1 p s1) by done.
  rewrite (proj2 (Z.eqb_neq _ _)) by done. pose proof Hev1 as [Hi1 Hs1 Hv1 _ _].
  destruct (read_disk_ok s1 x) as (s2 & E2 & Hev2); [done|by rewrite Hs1|].
  rewrite (bind_Ok _ _ _ _ _ E2), Hv1. unfold lift.
  rewrite slice_ok by (rewrite ?dview_length; lia || done). cbn. exists s2.
  split; [done|]. rewrite Hv1 in Hev2. by eapply evolves_trans.
Qed.

(** Both ways of moving a chunk out of a sector. *)
Lemma read_chunk_ok s x o c buf br :
  ss_inv (disk s) → memory_left s → 0 ≤ x < dsize s → 0 ≤ o → 0 ≤ c → o + c ≤ 512 →
  0 ≤ br → br + c ≤ Z.of_nat (length buf) →
  ∃ s', (if (o =? 0) && (c =? BLOCK_SECTOR_SIZE) then
           let! data := read_disk x in lift (memcpy_at buf br data)
         else
           let! chunk := cache_read_bytes x o c in
           match chunk with
           | Some chunk => lift (memcpy_at buf br chunk)
           | None => ret buf
           end) s
        = Ok (splice (Z.to_nat br) (take (Z.to_nat c) (drop (Z.to_nat o) (dview s x))) buf, s') ∧
        evolves s s' (dview s).
Proof.
  intros Hi Hm Hx Ho Hc Hoc Hbr Hbuf. pose proof (dview_length s x Hi) as Hl.
  destruct ((o =? 0) && (c =? BLOCK_SECTOR_SIZE)) eqn:Eb.
  - apply andb_true_iff in Eb as [->%Z.eqb_eq ->%Z.eqb_eq]. unfold BLOCK_SECTOR_SIZE in *.
    destruct (read_disk_ok s x) as (s1 & E & Hev); [done..|].
    rewrite (bind_Ok _ _ _ _ _ E). unfold lift. rewrite memcpy_at_ok by lia.
    cbn [obind]. exists s1. split; [|done]. rewrite drop_0, take_ge; [done|lia].
  - destruct (cache_read_bytes_ok s x o c) as (s1 & E & Hev); [done..|].
    rewrite (bind_Ok _ _ _ _ _ E). unfold lift.
    rewrite memcpy_at_ok by (rewrite ?length_take, ?length_drop; lia). cbn [obind]. eauto.
Qed.

Lemma if_ltb_min a b : (if a <? b then a else b) = a `min` b.
Proof. destruct (Z.ltb_spec a b); lia. Qed.

(** The arithmetic of one round at offset [off]. *)
Lemma chunk_arith off len size :
  0 ≤ off < len → len ≤ 252 * 512 → 0 < size →
  let c := size `min` (s32 (len - off) `min` (512 - off `mod` 512)) in
  0 < c ≤ size ∧ off + c ≤ len ∧ off `mod` 512 + c ≤ 512 ∧ s32 (off + c) = off + c ∧
  off = 512 * (off / 512) + off `mod` 512 ∧ 0 ≤ off / 512 ∧ 0 ≤ off `mod` 512.
Proof.
  intros Ho Hl Hs. rewrite (swrap_id 32 (len - off)) by (unfold in_s; eval_pow2; lia). cbn zeta.
  pose proof (Z.div_mod off 512 ltac:(lia)). pose proof (Z.mod_pos_bound off 512 ltac:(lia)).
  set (q := off / 512) in *. set (r := off `mod` 512) in *.
  split_and!; try lia. apply swrap_id; [lia|]. unfold in_s; eval_pow2; lia.
Qed.

(** A round of either loop starts by finding the sector and the length. *)
Lemma locate_ok s p i d off :
  opened s p i d → 0 ≤ off < length_ d →
  ∃ x s', sectors (dview s) d !! Z.to_nat (off / 512) = Some x ∧ evolves s s' (dview s) ∧
    ∀ B (k : Z → Z → M (fs St) B),
      (let! sector_idx := byte_to_sector p off in
       let! len := inode_length p in k sector_idx len) s = k x (length_ d) s'.
Proof.
  intros H Hoff.
  destruct (byte_to_sector_ok s p i d off) as (x & s1 & E1 & Hx & Hev1); [done|lia|].
  pose proof (opened_quiet _ _ _ _ _ H Hev1) as H1.
  destruct (inode_length_ok _ _ _ _ H1) as (s2 & E2 & Hev2).
  exists x, s2. split; [done|]. rewrite (ev_view _ _ _ Hev1) in Hev2.
  split; [by eapply evolves_trans|]. intros B k.
  by rewrite (bind_Ok _ _ _ _ _ E1), (bind_Ok _ _ _ _ _ E2).
Qed.

Lemma locate_past s p i d off :
  opened s p i d → length_ d ≤ off →
  ∃ s', evolves s s' (dview s) ∧
    ∀ B (k : Z → Z → M (fs St) B),
      (let! sector_idx := byte_to_sector p off in
       let! len := inode_length p in k sector_idx len) s = k (u32 (-1)) (length_ d) s'.
Proof.
  intros H Hoff.
  destruct (byte_to_sector_past s p i d off) as (s1 & E1 & Hev1); [done..|].
  pose proof (opened_quiet _ _ _ _ _ H Hev1) as H1.
  destruct (inode_length_ok _ _ _ _ H1) as (s2 & E2 & Hev2).
  exists s2. rewrite (ev_view _ _ _ Hev1) in Hev2.
  split; [by eapply evolves_trans|]. intros B k.
  by rewrite (bind_Ok _ _ _ _ _ E1), (bind_Ok _ _ _ _ _ E2).
Qed.

Lemma past_chunk off len size :
  0 ≤ len ≤ off → off < 2 ^ 31 → size `min` (s32 (len - off) `min` (512 - off `mod` 512)) ≤ 0.
Proof.
  intros. rewrite swrap_id by (unfold in_s; eval_pow2; lia).
  pose proof (Z.mod_pos_bound off 512 ltac:(lia)). lia.
Qed.

Lemma splice_none i (l buf : list Z) : splice i (take (Z.to_nat 0) l) buf = buf.
Proof. apply splice_nil. Qed.

(** Two adjacent pieces of [l] copied one after the other. *)
Lemma splice_pieces i c n off (l buf : list Z) :
  (off + c + n ≤ length l)%nat → (i + c + n ≤ length buf)%nat →
  splice (i + c) (take n (drop (off + c) l)) (splice i (take c (drop off l)) buf)
  = splice i (take (c + n) (drop off l)) buf.
Proof.
  intros Hl Hb. assert (length (take c (drop off l)) = c) as Hc
    by (rewrite length_take, length_drop; lia).
  rewrite <-Hc at 1. rewrite splice_splice; [|rewrite !length_take, !length_drop; lia].
  f_equal. rewrite <-take_take_drop, drop_drop. done.
Qed.

Lemma evolves_refl s : ss_inv (disk s) → evolves s s (dview s).
Proof. by split. Qed.

Lemma read_loop_ok fuel : ∀ s p i d buf size off br,
  opened s p i d → 0 ≤ off < 2 ^ 31 → size ≤ Z.of_nat fuel → 0 ≤ br →
  br + 0 `max` size ≤ Z.of_nat (length buf) →
  let n := 0 `max` (size `min` (length_ d - off)) in
  ∃ s', read_loop fuel p buf size off br s
        = Ok ((br + n, splice (Z.to_nat br)
                         (take (Z.to_nat n) (drop (Z.to_nat off) (content (dview s) d))) buf), s') ∧
        evolves s s' (dview s).
Proof.
  induction fuel as [|fuel IH]; intros s p i d buf size off br H Hoff Hfuel Hbr Hbuf n;
    cbn [read_loop]; (destruct (Z.leb_spec size 0) as [Hsz|Hsz];
      [exists s; subst n; replace (0 `max` _) with 0 by lia; rewrite splice_none, Z.add_0_r;
       split; [done|apply evolves_refl, H]|]); [lia|].
  pose proof (op_ok _ _ _ _ H) as Hok. pose proof (io_len _ _ _ _ Hok) as Hlen.
  unfold BLOCK_SECTOR_SIZE. rewrite Z.rem_mod_nonneg by lia.
  destruct (Z.le_gt_cases (length_ d) off) as [Hpast|Hin].
  { destruct (locate_past s p i d off) as (s1 & Hev1 & ->); [done..|]. cbv beta.
    rewrite !if_ltb_min, (proj2 (Z.leb_le _ _)) by (apply past_chunk; lia). exists s1. subst n.
    replace (0 `max` _) with 0 by lia. rewrite splice_none, Z.add_0_r. done. }
  destruct (locate_ok s p i d off) as (x & s2 & Hx & Hev2 & ->); [done|lia|]. cbv beta.
  pose proof (opened_quiet _ _ _ _ _ H Hev2) as H2. pose proof Hev2 as [Hi2 Hs2 Hv2 _ _].
  rewrite !if_ltb_min.
  destruct (chunk_arith off (length_ d) size) as (Hc & Hcl & Hco & Hcs & Hoe & ? & ?); [lia..|].
  set (c := size `min` (_ `min` _)) in *. rewrite (proj2 (Z.leb_gt _ _)) by lia.
  pose proof (sectors_lookup_range Hok _ _ Hx) as Hxr.
  destruct (read_chunk_ok s2 x (off `mod` 512) c buf br) as (s3 & E3 & Hev3);
    [apply H2|apply H2|by rewrite Hs2|lia..|].
  unfold BLOCK_SECTOR_SIZE in E3. rewrite (bind_Ok _ _ _ _ _ E3), Hcs.
  rewrite Hv2 in Hev3 |- *. pose proof (evolves_trans _ _ _ _ _ Hev2 Hev3) as Hev23.
  pose proof (opened_quiet _ _ _ _ _ H Hev23) as H3. pose proof Hev23 as [_ _ Hv3 _ _].
  assert (∀ k, length (dview s k) = 512%nat) as Hg by (intros; apply dview_length, H).
  rewrite (content_slice Hg _ _ _ _ Hx) by lia. pose proof (length_content Hok Hg) as Hlc.
  replace (512 * Z.to_nat (off / 512) + Z.to_nat (off `mod` 512))%nat with (Z.to_nat off) by lia.
  set (buf' := splice _ _ buf).
  assert (length buf' = length buf) as Hb'
    by (subst buf'; rewrite length_splice; rewrite ?length_take, ?length_drop; lia).
  destruct (IH s3 p i d buf' (size - c) (off + c) (br + c)) as (s4 & E4 & Hev4);
    [done|lia|lia|lia|lia|].
  rewrite E4, Hv3 in *. exists s4. split; [|by eapply evolves_trans].
  replace (0 `max` ((size - c) `min` (length_ d - (off + c)))) with (n - c) by lia.
  do 3 f_equal; [lia|]. subst buf'.
  rewrite !Z2Nat.inj_add by lia. rewrite splice_pieces by lia. do 2 f_equal. lia.
Qed.

(** ** Writing *)

Lemma cache_write_bytes_ok s x o data :
  ss_inv (disk s) → memory_left s → 0 ≤ x < dsize s → 0 ≤ o →
  o + Z.of_nat (length data) ≤ 512 →
  ∃ s', cache_write_bytes x data o (Z.of_nat (length data)) (512 - o) s = Ok (true, s') ∧
        evolves s s' (<[x := splice (Z.to_nat o) data (dview s x)]> (dview s)).
Proof.
  intros Hi Hm Hx Ho Hod. pose proof (dview_length s x Hi) as Hlx. unfold cache_write_bytes.
  destruct (malloc_ok_eq s Hi Hm) as (p & s1 & E1 & _ & Hev1). rewrite (bind_Ok _ _ _ _ _ E1).
  destruct (malloc_ok_eq s1) as (q & s2 & E2 & Hq & Hev2);
    [apply Hev1|by eapply evolves_memory_left|]. rewrite (bind_Ok _ _ _ _ _ E2).
  rewrite (ev_view _ _ _ Hev1) in Hev2. pose proof (evolves_trans _ _ _ _ _ Hev1 Hev2) as Hev.
  rewrite (proj2 (Z.eqb_neq _ _)) by done.
  assert (∃ old s3, (if (0 <? o) || (Z.of_nat (length data) <? 512 - o) then read_disk x else ret zeros) s2
    = Ok (old, s3) ∧ length old = 512%nat ∧
      splice (Z.to_nat o) data old = splice (Z.to_nat o) data (dview s x) ∧
      evolves s s3 (dview s)) as (old & s3 & E3 & Hold & Hsp & Hev3).
  { case_match eqn:Eb.
    - destruct (read_disk_ok s2 x) as (s3 & E3 & Hev3); [apply Hev|by rewrite (ev_size _ _ _ Hev)|].
      rewrite (ev_view _ _ _ Hev) in E3, Hev3. exists (dview s x), s3. split; [done|].
      split; [done|]. split; [done|]. by eapply evolves_trans.
    - apply orb_false_iff in Eb as [?%Z.ltb_ge ?%Z.ltb_ge]. exists zeros, s2. split; [done|].
      split; [done|]. split; [|done]. replace (Z.to_nat o) with 0%nat by lia.
      rewrite !splice_full; [done|lia|change (length zeros) with 512%nat; lia]. }
  rewrite (bind_Ok _ _ _ _ _ E3). unfold lift. rewrite memcpy_at_ok by lia.
  cbn [obind]. rewrite (bind_Ok _ _ s3 (splice (Z.to_nat o) data old) s3) by done.
  destruct (write_disk_ok s3 x (splice (Z.to_nat o) data old)) as (s4 & E4 & Hev4);
    [apply Hev3|by rewrite (ev_size _ _ _ Hev3)|rewrite length_splice; lia|].
  rewrite (bind_Ok _ _ _ _ _ E4). exists s4. split; [done|].
  rewrite (ev_view _ _ _ Hev3), Hsp in Hev4. by eapply evolves_trans.
Qed.

(** Both ways of moving a chunk into a sector. *)
Lemma write_chunk_ok s x o data :
  ss_inv (disk s) → memory_left s → 0 ≤ x < dsize s → 0 ≤ o →
  o + Z.of_nat (length data) ≤ 512 →
  ∃ s', (if (o =? 0) && (Z.of_nat (length data) =? 512) then write_disk x data
         else let! _ := cache_write_bytes x data o (Z.of_nat (length data)) (512 - o) in ret tt) s
        = Ok (tt, s') ∧
        evolves s s' (<[x := splice (Z.to_nat o) data (dview s x)]> (dview s)).
Proof.
  intros Hi Hm Hx Ho Hod. pose proof (dview_length s x Hi) as Hlx. case_match eqn:Eb.
  - apply andb_true_iff in Eb as [->%Z.eqb_eq Hl%Z.eqb_eq].
    destruct (write_disk_ok s x data) as (s' & E & Hev); [done..|lia|].
    exists s'. split; [done|]. change (Z.to_nat 0) with 0%nat. by rewrite splice_full by lia.
  - destruct (cache_write_bytes_ok s x o data) as (s' & E & Hev); [done..|].
    rewrite (bind_Ok _ _ _ _ _ E). eauto.
Qed.

Lemma write_loop_ok fuel : ∀ s p i d buf size off bw,
  opened s p i d → 0 ≤ off < 2 ^ 31 → size ≤ Z.of_nat fuel → 0 ≤ bw →
  bw + 0 `max` size ≤ Z.of_nat (length buf) →
  let n := 0 `max` (size `min` (length_ d - off)) in
  ∃ s' g, write_loop fuel p buf size off bw s = Ok (bw + n, s') ∧ evolves s s' g ∧
    data_written (dview s) g (dsize s) (sector i) d (Z.to_nat off)
      (take (Z.to_nat n) (drop (Z.to_nat bw) buf)).
Proof.
  induction fuel as [|fuel IH]; intros s p i d buf size off bw H Hoff Hfuel Hbw Hbuf n;
    assert (∀ k, length (dview s k) = 512%nat) as Hg by (intros; apply dview_length, H);
    pose proof (op_ok _ _ _ _ H) as Hok; cbn [write_loop];
    (destruct (Z.leb_spec size 0) as [Hsz|Hsz];
      [exists s, (dview s); subst n; replace (0 `max` _) with 0 by lia; rewrite Z.add_0_r;
       split; [done|]; split; [apply evolves_refl, H|by apply data_written_nil]|]); [lia|].
  pose proof (io_len _ _ _ _ Hok) as Hlen.
  unfold BLOCK_SECTOR_SIZE. rewrite Z.rem_mod_nonneg by lia.
  destruct (Z.le_gt_cases (length_ d) off) as [Hpast|Hin].
  { destruct (locate_past s p i d off) as (s1 & Hev1 & ->); [done..|]. cbv beta.
    rewrite !if_ltb_min, (proj2 (Z.leb_le _ _)) by (apply past_chunk; lia).
    exists s1, (dview s). subst n. replace (0 `max` _) with 0 by lia. rewrite Z.add_0_r.
    split; [done|]. split; [done|]. by apply data_written_nil. }
  destruct (locate_ok s p i d off) as (x & s2 & Hx & Hev2 & ->); [done|lia|]. cbv beta.
  pose proof (opened_quiet _ _ _ _ _ H Hev2) as H2. pose proof Hev2 as [Hi2 Hs2 Hv2 _ _].
  rewrite !if_ltb_min.
  destruct (chunk_arith off (length_ d) size) as (Hc & Hcl & Hco & Hcs & Hoe & ? & ?); [lia..|].
  set (c := size `min` (_ `min` _)) in *. rewrite (proj2 (Z.leb_gt _ _)) by lia.
  unfold lift at 1. rewrite slice_ok by lia. cbn [obind].
  set (data := take (Z.to_nat c) (drop (Z.to_nat bw) buf)).
  assert (length data = Z.to_nat c) as Hdata by (subst data; rewrite length_take, length_drop; lia).
  rewrite (bind_Ok _ _ s2 data s2) by done.
  pose proof (sectors_lookup_range Hok _ _ Hx) as Hxr.
  destruct (write_chunk_ok s2 x (off `mod` 512) data) as (s3 & E3 & Hev3);
    [apply H2|apply H2|by rewrite Hs2|lia..|].
  rewrite Hdata, Z2Nat.id, Hv2 in * by lia. rewrite (bind_Ok _ _ _ _ _ E3), Hcs.
  pose proof (evolves_trans _ _ _ _ _ Hev2 Hev3) as Hev23.
  pose proof (data_written_sector _ _ _ _ _ (Z.to_nat (off `mod` 512)) _ data Hok Hg Hx
                ltac:(lia) ltac:(lia)) as Hdw.
  replace (512 * Z.to_nat (off / 512) + Z.to_nat (off `mod` 512))%nat with (Z.to_nat off) in Hdw by lia.
  pose proof (opened_evolves _ _ _ _ _ _ H Hev23 (dw_ok _ _ _ _ _ _ _ Hdw)) as H3.
  destruct (IH s3 p i d buf (size - c) (off + c) (bw + c)) as (s4 & g & E4 & Hev4 & Hdw4);
    [done|lia|lia|lia|lia|].
  exists s4, g. rewrite E4. replace (0 `max` ((size - c) `min` (length_ d - (off + c)))) with (n - c) in * by lia.
  split; [do 2 f_equal; lia|]. split; [by eapply evolves_trans|].
  rewrite (ev_view _ _ _ Hev23), (ev_size _ _ _ Hev23) in Hdw4.
  rewrite !Z2Nat.inj_add, <-Hdata in Hdw4 by lia. rewrite Hdata in Hdw4 at 2.
  replace (Z.to_nat n) with (Z.to_nat c + Z.to_nat (n - c))%nat by lia.
  rewrite <-take_take_drop, drop_drop. fold data. eapply data_written_app; [|done..].
  rewrite length_take, length_drop, (length_content Hok Hg). lia.
Qed.

(** Writing the on-disk inode back changes nothing. *)
Lemma write_inode_same s p i d :
  opened s p i d →
  ∃ s', write_disk (sector i) (encode_inode d) s = Ok (tt, s') ∧ evolves s s' (dview s).
Proof.
  intros H. pose proof (op_ok _ _ _ _ H) as Hok.
  destruct (write_disk_ok s (sector i) (encode_inode d)) as (s' & E & Hev);
    [apply H|apply (inode_sector_range Hok)|apply length_encode_inode, Hok|].
  rewrite <-(io_disk _ _ _ _ Hok), fn_insert_same in Hev. eauto.
Qed.

(** The second half of [inode_write_at], when the file is long enough. *)
Lemma write_tail_ok s p i d buf size off :
  opened s p i d → 0 ≤ off → 0 ≤ size → off + size ≤ length_ d → size ≤ Z.of_nat (length buf) →
  ∃ s' g, (let! bytes_written := write_loop (Z.to_nat size) p buf size off 0 in
           let! _ := write_disk (sector i) (encode_inode d) in
           ret bytes_written) s = Ok (size, s') ∧ evolves s s' g ∧
    data_written (dview s) g (dsize s) (sector i) d (Z.to_nat off) (take (Z.to_nat size) buf).
Proof.
  intros H Hoff Hsize Hend Hbuf. pose proof (io_len _ _ _ _ (op_ok _ _ _ _ H)) as Hlen.
  destruct (write_loop_ok (Z.to_nat size) s p i d buf size off 0) as (s1 & g & E1 & Hev1 & Hdw);
    [done|eval_pow2; lia|lia..|].
  rewrite (bind_Ok _ _ _ _ _ E1). replace (0 `max` (size `min` (length_ d - off))) with size in * by lia.
  change (Z.to_nat 0) with 0%nat in Hdw. rewrite drop_0 in Hdw.
  pose proof (opened_evolves _ _ _ _ _ _ H Hev1 (dw_ok _ _ _ _ _ _ _ Hdw)) as H1.
  destruct (write_inode_same _ _ _ _ H1) as (s2 & E2 & Hev2). rewrite (bind_Ok _ _ _ _ _ E2).
  rewrite (ev_view _ _ _ Hev1) in Hev2. exists s2, g. split; [done|].
  split; [by eapply evolves_trans|done].
Qed.

(** A write inside the file: no sector is allocated, whatever [allocate] is. *)
Lemma write_in_place_ok allocate s p i d buf size off :
  opened s p i d → deny_write_cnt i = 0 → 0 ≤ off → 0 ≤ size → off + size ≤ length_ d →
  size ≤ Z.of_nat (length buf) →
  ∃ s' g, inode_write_at allocate p buf size off s = Ok (size, s') ∧ evolves s s' g ∧
    data_written (dview s) g (dsize s) (sector i) d (Z.to_nat off) (take (Z.to_nat size) buf).
Proof.
  intros H Hdeny Hoff Hsize Hend Hbuf. pose proof (io_len _ _ _ _ (op_ok _ _ _ _ H)) as Hlen.
  unfold inode_write_at. rewrite (bind_Ok _ _ _ _ _ (load_inode_ok _ _ _ (op_inode _ _ _ _ H))).
  rewrite Hdeny. change (negb (0 =? 0)) with false. cbv iota.
  destruct (read_inode_ok _ _ _ _ H) as (data & s0 & E0 & Hd & Hev0 & H0).
  rewrite (bind_Ok _ _ _ _ _ E0), Hd, swrap_id by (unfold in_s; eval_pow2; lia).
  assert (add_inode allocate d (size + off) s0 = Ok (d, s0)) as E1.
  { unfold add_inode. rewrite (proj2 (Z.leb_le _ 0)).
    - rewrite (proj2 (Z.ltb_ge _ _)) by lia. by destruct d.
    - rewrite !sector_count_eq by lia.
      pose proof (Z.div_le_mono (size + off + 511) (length_ d + 511) 512). lia. }
  rewrite (bind_Ok _ _ _ _ _ E1).
  destruct (write_inode_same _ _ _ _ H0) as (s1 & E2 & Hev1). rewrite (bind_Ok _ _ _ _ _ E2).
  rewrite (ev_view _ _ _ Hev0) in Hev1. pose proof (evolves_trans _ _ _ _ _ Hev0 Hev1) as Hev01.
  destruct (write_tail_ok s1 p i d buf size off) as (s2 & g & E3 & Hev2 & Hdw);
    [by apply (opened_quiet s)|done..|].
  rewrite (ev_view _ _ _ Hev01), (ev_size _ _ _ Hev01) in Hdw.
  exists s2, g. split; [done|]. split; [by eapply evolves_trans|done].
Qed.
End Run.
