(* ===== verification/InodeGrow.v ===== *)
(** * Growing an inode

    [SectorAllocator] is what [add_inode] relies on: [free_map_allocate] hands
    out a sector that was free and leaves every sector alone but those of its
    own file.  Against it, [add_inode] extends a file by zero bytes on fresh
    sectors and [inode_write_at] past the end of a file grows it. *)

From S2P Require Import Prelude Bitmap Block Cache FsState Inode InodeView.

(** The stack arrays are arrays of 128 words. *)
Definition machine_ok {mach : Machine} : Prop :=
  length stack_words = 128%nat ∧ Forall (in_u 32) stack_words.

(** ** Extending a file, on the sectors *)

(** What lies behind the last byte of the file in its last sector is zero. *)
Definition zero_tail (g : disk_view) (d : inode_disk) : Prop :=
  ∃ m, concat (g <$> sectors g d) = content g d ++ replicate m 0.

Lemma concat_zero_sectors (g : disk_view) xs :
  (∀ x, x ∈ xs → g x = zeros) → concat (g <$> xs) = replicate (512 * length xs) 0.
Proof.
  induction xs as [|x xs IH]; intros H; [done|]. rewrite fmap_cons. cbn [concat].
  rewrite IH by (intros; apply H; by right). rewrite (H x) by left. unfold zeros.
  rewrite <-replicate_add. f_equal. cbn [length]. lia.
Qed.

Lemma fmap_ext_elem (g h : disk_view) (l : list Z) : (∀ x, x ∈ l → g x = h x) → g <$> l = h <$> l.
Proof. intros H. apply list_fmap_ext. intros i x Hx. by apply H, list_elem_of_lookup_2 with i. Qed.

Section Extend.
Context {g g' : disk_view} {size n : Z} {d d' : inode_disk} {xs ys : list Z}.
Context (Hok : inode_ok g size n d) (Hzero : zero_tail g d) (Hg : ∀ k, length (g k) = 512%nat).
Context (Hd' : g' n = encode_inode d') (Hwf' : inode_disk_wf d').
Context (Hlen' : length_ d ≤ length_ d' ≤ (124 + 128) * 512).
Context (Hsec : sectors g' d' = sectors g d ++ xs) (Hidx : index_sectors d' = index_sectors d ++ ys).
Context (Hfresh : NoDup (ys ++ xs)) (Hrange : Forall (λ x, 0 ≤ x < size) (ys ++ xs)).
Context (Hdisj : ∀ x, x ∈ ys ++ xs → x ∉ own g n d).
Context (Hold : ∀ x, x ∈ sectors g d → g' x = g x) (Hnew : ∀ x, x ∈ xs → g' x = zeros).

Lemma extend_own : own g' n d' ≡ₚ own g n d ++ ys ++ xs.
Proof.
  unfold own. rewrite Hsec, Hidx. cbn. rewrite <-!app_assoc. do 2 f_equiv.
  rewrite !app_assoc. f_equiv. apply Permutation_app_comm.
Qed.

Lemma extend_bytes :
  ∃ m, concat (g' <$> sectors g' d') = content g d ++ replicate m 0.
Proof.
  destruct Hzero as [m Hm]. rewrite Hsec, fmap_app, concat_app.
  rewrite (fmap_ext_elem g' g (sectors g d) Hold), (concat_zero_sectors g' xs Hnew), Hm.
  exists (m + 512 * length xs)%nat. by rewrite <-app_assoc, replicate_add.
Qed.

Lemma extend_ok : inode_ok g' size n d'.
Proof.
  split; [done|done|split; [|lia]| |].
  - pose proof (io_len _ _ _ _ Hok). lia.
  - rewrite extend_own. apply Forall_app. split; [apply Hok|done].
  - rewrite extend_own. apply list.NoDup_app. split; [apply Hok|]. split; [|done].
    intros x Hx1 Hx2. by eapply Hdisj.
Qed.

Lemma extend_content_tail (Hg' : ∀ k, length (g' k) = 512%nat) :
  content g' d' = content g d ++ replicate (Z.to_nat (length_ d' - length_ d)) 0 ∧ zero_tail g' d'.
Proof.
  destruct extend_bytes as [m Hm].
  pose proof (length_content Hok Hg) as Hlc. pose proof (length_content extend_ok Hg') as Hlc'.
  pose proof (io_len _ _ _ _ Hok) as Hl. unfold content at 1 in Hlc'. rewrite Hm in Hlc'.
  rewrite length_take, length_app, length_replicate, Hlc in Hlc'.
  assert (content g' d' = content g d ++ replicate (Z.to_nat (length_ d' - length_ d)) 0) as Hc.
  { unfold content at 1. rewrite Hm. rewrite take_app_ge by lia.
    rewrite Hlc, take_replicate. do 2 f_equal. lia. }
  split; [done|]. exists (m - Z.to_nat (length_ d' - length_ d))%nat.
  rewrite Hm, Hc, <-app_assoc, <-replicate_add. do 2 f_equal. lia.
Qed.
End Extend.

Lemma zero_tail_written g g' size n d off data :
  inode_ok g size n d → (∀ k, length (g k) = 512%nat) →
  (off + length data ≤ Z.to_nat (length_ d))%nat →
  data_written g g' size n d off data → zero_tail g d → zero_tail g' d.
Proof.
  intros Hok Hg Hl [_ _ _ Hb Hc _] [m Hm]. exists m. rewrite Hb, Hc, Hm.
  rewrite <-(length_content Hok Hg) in Hl. unfold splice.
  rewrite take_app_le, drop_app_le by lia. by rewrite !app_assoc.
Qed.

(** ** The allocator *)

Section Grow.
Context {St : Type} {SS : SectorStore St} {mach : Machine}.
Implicit Types s : fs St.
Abbreviation K := (M (fs St)).

(** Everything but the sectors, the free map and the count of allocations. *)
Definition objects s := (inodes s, open_inodes s, files s, dirs s, free_map_file s, malloc_ok s).

(** [al_free]: the sectors it can hand out; [al_private]: those it writes
    itself. *)
Class SectorAllocator (allocate : K (option Z)) := {
  al_inv : fs St → Prop;
  al_free : fs St → Z → Prop;
  al_private : fs St → Z → Prop;
  al_store : ∀ s, al_inv s → ss_inv (disk s) ∧ memory_left s;
  al_range : ∀ s x, al_inv s → al_free s x → 0 ≤ x < dsize s;
  al_private_used : ∀ s x, al_inv s → al_private s x → ¬ al_free s x;
  al_evolves : ∀ s s' g, al_inv s → evolves s s' g → (∀ k, al_private s k → g k = dview s k) →
    al_inv s' ∧ ∀ x, (al_free s' x ↔ al_free s x) ∧ (al_private s' x ↔ al_private s x);
  al_allocate : ∀ s, al_inv s → ∃ r s', allocate s = Ok (r, s') ∧ al_inv s' ∧
    objects s' = objects s ∧ dsize s' = dsize s ∧
    (∀ k, ¬ al_private s k → dview s' k = dview s k) ∧
    (∀ k, al_private s' k ↔ al_private s k) ∧
    match r with
    | Some x => al_free s x ∧ ∀ y, al_free s' y ↔ al_free s y ∧ y ≠ x
    | None => ∀ y, ¬ al_free s y ∧ ¬ al_free s' y
    end }.

Context {allocate : K (option Z)} {AL : SectorAllocator allocate}.

(** From [s] to [s'] the sectors [xs] were handed out, and the sectors outside
    the allocator's own are now [g]. *)
Record grown s s' (xs : list Z) (g : disk_view) : Prop := {
  gr_inv : al_inv s';
  gr_objects : objects s' = objects s;
  gr_size : dsize s' = dsize s;
  gr_view : ∀ k, ¬ al_private s k → dview s' k = g k;
  gr_private : ∀ k, al_private s' k ↔ al_private s k;
  gr_free : ∀ x, al_free s' x ↔ al_free s x ∧ x ∉ xs;
  gr_fresh : NoDup xs ∧ ∀ x, x ∈ xs → al_free s x }.

(** At least [n] sectors are free. *)
Definition has_free s (n : nat) : Prop := ∃ l, NoDup l ∧ length l = n ∧ ∀ x, x ∈ l → al_free s x.

Lemma grown_refl s : al_inv s → grown s s [] (dview s).
Proof.
  intros. split; try done.
  - intros x. rewrite elem_of_nil. tauto.
  - split; [constructor|]. by intros x ?%elem_of_nil.
Qed.

Lemma grown_trans s1 s2 s3 xs ys g h :
  grown s1 s2 xs g → grown s2 s3 ys h → grown s1 s3 (xs ++ ys) h.
Proof.
  intros [? ? ? ? Hp1 Hf1 [Hn1 Hr1]] [? ? ? Hv2 Hp2 Hf2 [Hn2 Hr2]].
  split; [done|congruence|congruence|..].
  - intros k Hk. apply Hv2. by rewrite Hp1.
  - intros k. by rewrite Hp2, Hp1.
  - intros x. rewrite Hf2, Hf1, elem_of_app. tauto.
  - split.
    + apply list.NoDup_app. split; [done|]. split; [|done]. intros x ? Hx%Hr2%Hf1. tauto.
    + intros x [?|Hx%Hr2%Hf1]%elem_of_app; [by apply Hr1|tauto].
Qed.

Lemma grown_fresh_not_private s s' xs g x :
  al_inv s → grown s s' xs g → x ∈ xs → ¬ al_private s x ∧ 0 ≤ x < dsize s.
Proof.
  intros Hi H Hx. destruct (gr_fresh _ _ _ _ H) as [_ Hf]. split.
  - intros ?. by eapply al_private_used, Hf.
  - by eapply al_range, Hf.
Qed.

Lemma grown_evolves s s1 s2 xs g h :
  grown s s1 xs g → evolves s1 s2 h → (∀ k, al_private s k → h k = dview s1 k) → grown s s2 xs h.
Proof.
  intros [Hi Ho Hs Hv Hp Hf Hx] Hev Hh. destruct (al_evolves _ _ _ Hi Hev) as [Hi2 H2].
  { intros k ?. by apply Hh, Hp. }
  pose proof Hev as [_ Hs2 Hv2 Hm2]. split; [done| |congruence|..|done].
  - rewrite <-Ho. unfold memory, objects in *. congruence.
  - intros. by rewrite Hv2.
  - intros k. rewrite <-Hp. apply H2.
  - intros x. rewrite <-Hf. apply H2.
Qed.

Lemma grown_quiet s s1 s2 xs g : grown s s1 xs g → evolves s1 s2 (dview s1) → grown s s2 xs g.
Proof.
  intros H Hev. destruct (grown_evolves _ _ _ _ _ _ H Hev) as [????? ? ?]; [done|].
  split; try done. intros k Hk. rewrite gr_view0 by done. by apply (gr_view _ _ _ _ H).
Qed.

Lemma allocate_Some s :
  al_inv s → (∃ x, al_free s x) →
  ∃ x s', allocate s = Ok (Some x, s') ∧ grown s s' [x] (dview s).
Proof.
  intros Hi [y Hy]. destruct (al_allocate s Hi) as (r & s' & E & ? & ? & ? & ? & ? & Hr).
  destruct r as [x|]; [|by destruct (Hr y)]. destruct Hr as [Hx Hf].
  exists x, s'. split; [done|]. split; try done.
  - intros z. rewrite Hf, list_elem_of_singleton. tauto.
  - split; [apply NoDup_singleton|]. by intros ? ->%list_elem_of_singleton.
Qed.

Lemma length_filter_split (l xs : list Z) :
  length l = (length (filter (λ x, x ∉ xs) l) + length (filter (λ x, x ∈ xs) l))%nat.
Proof.
  induction l as [|x l IH]; [done|]. rewrite !filter_cons. repeat case_decide; cbn; try done; lia.
Qed.

Lemma has_free_less s s' n g xs :
  has_free s (n + length xs) → grown s s' xs g → has_free s' n.
Proof.
  intros (l & Hn & Hl & Hf) H. exists (take n (filter (λ x, x ∉ xs) l)). split_and!.
  - eapply sublist_NoDup; [|apply sublist_take]. by apply list.NoDup_filter.
  - rewrite length_take. apply Nat.min_l.
    assert (length l ≤ length (filter (λ x, x ∉ xs) l) + length xs)%nat; [|lia].
    clear -Hn. assert (filter (λ x, x ∈ xs) l ⊆+ xs) as Hs.
    { apply NoDup_submseteq; [by apply list.NoDup_filter|]. intros x. rewrite list_elem_of_filter. tauto. }
    apply submseteq_length in Hs.
    pose proof (length_filter_split l xs). lia.
  - intros x Hx. apply (gr_free _ _ _ _ H).
    apply elem_of_take in Hx as (i & Hx%list_elem_of_lookup_2 & _).
    apply list_elem_of_filter in Hx as [? ?].
    split; [by apply Hf|done].
Qed.

Lemma has_free_mono s n m : has_free s n → (m ≤ n)%nat → has_free s m.
Proof.
  intros (l & Hn & Hl & Hf) Hm. exists (take m l). split_and!.
  - eapply sublist_NoDup; [done|]. apply sublist_take.
  - rewrite length_take. lia.
  - intros x (j & Hx%list_elem_of_lookup_2 & _)%elem_of_take. by apply Hf.
Qed.

Lemma has_free_1 s : has_free s 1 → ∃ x, al_free s x.
Proof. intros ([|x l] & _ & ? & Hf); [done|]. exists x. apply Hf. by left. Qed.

Lemma grown_u32 s s' xs g : al_inv s → grown s s' xs g → Forall (in_u 32) xs.
Proof.
  intros Hi H. apply list.Forall_forall. intros x Hx.
  destruct (grown_fresh_not_private _ _ _ _ _ Hi H Hx) as [_ ?].
  pose proof (ss_size_u32 _ (proj1 (al_store _ Hi))) as Hs. unfold in_u, dsize in *. lia.
Qed.

Lemma Forall_splice (P : Z → Prop) i data buf :
  Forall P data → Forall P buf → Forall P (splice i data buf).
Proof.
  intros. unfold splice. apply Forall_app. split; [by apply Forall_take|].
  apply Forall_app. split; [done|by apply Forall_drop].
Qed.

Lemma grown_ext s s' xs g h :
  grown s s' xs g → (∀ k, ¬ al_private s k → g k = h k) → grown s s' xs h.
Proof. intros [??? Hv ???] H. split; try done. intros. by rewrite Hv, H. Qed.

Lemma grown_perm s s' xs ys g : grown s s' xs g → xs ≡ₚ ys → grown s s' ys g.
Proof.
  intros [?? ? ? ? Hf [Hn Hr]] Hp. split; try done.
  - intros x. by rewrite Hf, Hp.
  - split; [by rewrite <-Hp|]. intros x. rewrite <-Hp. apply Hr.
Qed.

(** ** The loops that allocate *)

Definition zeroed (xs : list Z) (g : disk_view) : disk_view :=
  λ k, if decide (k ∈ xs) then zeros else g k.

Lemma put_word_ok j x (l : list Z) :
  0 ≤ j < Z.of_nat (length l) → put_word j x l = Ok (splice (Z.to_nat j) [x] l).
Proof.
  intros. unfold put_word. rewrite (proj2 (Z.leb_le _ _)), (proj2 (Z.ltb_lt _ _)) by lia.
  cbn. by rewrite insert_splice by lia.
Qed.

Lemma write_grown_ok s s1 xs g x data :
  grown s s1 xs g → ¬ al_private s x → 0 ≤ x < dsize s → length data = 512%nat →
  ∃ s2, write_disk x data s1 = Ok (tt, s2) ∧ grown s s2 xs (<[x := data]> g).
Proof.
  intros H Hp Hr Hl.
  destruct (write_disk_ok s1 x data) as (s2 & E & Hev);
    [eapply al_store, H|by rewrite (gr_size _ _ _ _ H)|done|].
  exists s2. split; [done|]. eapply grown_ext; [eapply grown_evolves; [done..|]|].
  - intros k Hk. rewrite fn_lookup_insert_ne; [done|]. by intros ->.
  - intros k Hk. destruct (decide (x = k)) as [->|].
    + by rewrite !fn_lookup_insert.
    + rewrite !fn_lookup_insert_ne by done. by apply (gr_view _ _ _ _ H).
Qed.

Lemma fill_ok n : ∀ s j blocks b,
  al_inv s → has_free s n → 0 ≤ j → j + Z.of_nat n ≤ Z.of_nat (length blocks) →
  ∃ xs s' b', fill allocate n j blocks b s = Ok ((splice (Z.to_nat j) xs blocks, b'), s') ∧
    b' = b || (0 <? n)%nat ∧ length xs = n ∧ grown s s' xs (zeroed xs (dview s)).
Proof.
  induction n as [|n IH]; intros s j blocks b Hi Hfree Hj Hlen.
  { exists [], s, b. rewrite splice_nil. split; [done|]. split; [by rewrite orb_false_r|].
    split; [done|]. eapply grown_ext; [by apply grown_refl|]. done. }
  cbn [fill]. destruct (allocate_Some s Hi) as (x & s1 & E1 & H1).
  { eapply has_free_1, has_free_mono; [done|]. lia. }
  rewrite (bind_Ok _ _ _ _ _ E1). unfold lift. rewrite put_word_ok by lia. cbn [obind].
  rewrite (bind_Ok _ _ s1 (splice (Z.to_nat j) [x] blocks) s1) by done.
  destruct (grown_fresh_not_private _ _ _ _ x Hi H1) as [Hp Hr]; [by left|].
  destruct (write_grown_ok s s1 [x] (dview s) x zeros) as (s2 & E2 & H2); [done..|].
  rewrite (bind_Ok _ _ _ _ _ E2).
  destruct (IH s2 (j + 1) (splice (Z.to_nat j) [x] blocks) true) as (xs & s3 & b' & E3 & -> & Hl & H3);
    [apply H2|eapply has_free_less; [|done]; cbn; by rewrite Nat.add_1_r|lia| |].
  { rewrite length_splice; cbn; lia. }
  rewrite E3. exists (x :: xs), s3, true. split; [|split; [by destruct b|split; [cbn; lia|]]].
  - do 3 f_equal. replace (Z.to_nat (j + 1)) with (Z.to_nat j + length [x])%nat by (cbn; lia).
    rewrite splice_splice by (cbn; lia). done.
  - eapply grown_ext; [eapply (grown_trans _ _ _ [x]); done|]. intros k Hk. unfold zeroed.
    destruct (decide (k ∈ xs)); [by rewrite decide_True by by right|].
    rewrite (gr_view _ _ _ _ H2) by done. destruct (decide (k = x)) as [->|].
    + rewrite fn_lookup_insert, decide_True; [done|left].
    + rewrite fn_lookup_insert_ne, decide_False; [done| |done]. rewrite elem_of_cons. tauto.
Qed.

(** ** [add_inode] *)

(** The pointers in use while [c] sectors are allocated. *)
Definition used (g : disk_view) (d : inode_disk) (c : Z) : list Z := take (Z.to_nat c) (pointers g d).

Lemma add_direct_ok s d total c new :
  al_inv s → inode_disk_wf d → 0 ≤ c < 124 → c < total →
  has_free s (Z.to_nat (total `min` 124 - c)) →
  ∃ xs s' d', add_direct allocate d total c new s
      = Ok ((d', total `min` 124, if 124 <? total then new - (124 - c) else 0), s') ∧
    Z.of_nat (length xs) = total `min` 124 - c ∧ grown s s' xs (zeroed xs (dview s)) ∧
    inode_disk_wf d' ∧ indirect d' = indirect d ∧ length_ d' = length_ d ∧
    ∀ g g', used g' d' (total `min` 124) = used g d c ++ xs.
Proof.
  intros Hi Hwf Hc Ht Hfree. unfold add_direct. destruct (idw_direct _ Hwf) as [Hd Hdu].
  destruct (fill_ok (Z.to_nat (total `min` 124 - c)) s c (direct d) false)
    as (xs & s' & b & E & _ & Hl & Hgr); [done|done|lia|lia|].
  rewrite (bind_Ok _ _ _ _ _ E). eexists xs, s', _. split; [done|]. split; [lia|]. split; [done|].
  assert (length (splice (Z.to_nat c) xs (direct d)) = 124%nat) as Hsl
    by (rewrite length_splice; lia).
  split_and!; [|done|done|].
  - destruct Hwf. split; try done. split; [done|]. apply Forall_splice; [by eapply grown_u32|done].
  - intros g g'. unfold used, pointers. cbn [direct set_direct].
    rewrite !take_app_le by lia.
    replace (Z.to_nat (total `min` 124)) with (Z.to_nat c + length xs)%nat by lia.
    rewrite take_splice_end by lia. done.
Qed.

(** The indirect block before the loop: a new one, or the one on disk. *)
Lemma indirect_block_ok s d c :
  machine_ok → al_inv s → inode_disk_wf d → 124 ≤ c →
  (c = 124 → has_free s 1) → (c ≠ 124 → 0 ≤ indirect d < dsize s) →
  ∃ ys blocks d' s',
    (if c =? 124 then
       let! r := allocate in
       ret (match r with Some x => set_indirect x d | None => d end, stack_words)
     else
       let! data := read_disk (indirect d) in
       ret (d, bytes_to_words 128 data)) s = Ok ((d', blocks), s') ∧
    grown s s' ys (dview s) ∧ ys = (if c =? 124 then [indirect d'] else []) ∧
    length blocks = 128%nat ∧ Forall (in_u 32) blocks ∧
    inode_disk_wf d' ∧ direct d' = direct d ∧ length_ d' = length_ d ∧
    (c ≠ 124 → d' = d ∧ blocks = bytes_to_words 128 (dview s (indirect d))).
Proof.
  intros [Hml Hmu] Hi Hwf Hc H1 H2. destruct (Z.eqb_spec c 124) as [->|Hne].
  - destruct (allocate_Some s Hi) as (x & s1 & E & Hgr).
    { by apply has_free_1, H1. }
    rewrite (bind_Ok _ _ _ _ _ E). eexists [x], _, _, s1. split; [done|]. split_and!; try done.
    destruct Hwf. split; try done. pose proof (grown_u32 _ _ _ _ Hi Hgr) as Hx.
    by inversion_clear Hx.
  - destruct (read_disk_ok s (indirect d)) as (s1 & E & Hev); [by apply al_store|by apply H2|].
    rewrite (bind_Ok _ _ _ _ _ E). eexists [], _, _, s1. split; [done|]. split_and!; try done.
    + eapply grown_quiet; [by apply grown_refl|done].
    + apply bytes_to_words_u32.
Qed.

Lemma add_indirect_ok s d total c new :
  machine_ok → al_inv s → inode_disk_wf d → 124 ≤ c → c < total ≤ 252 →
  has_free s (Z.to_nat (total - c) + (if c =? 124 then 1 else 0)) →
  (c ≠ 124 → 0 ≤ indirect d < dsize s ∧ ¬ al_private s (indirect d) ∧ ¬ al_free s (indirect d)) →
  ∃ xs ys s' d', add_indirect allocate d total c new s = Ok ((d', total, 0), s') ∧
    Z.of_nat (length xs) = total - c ∧ ys = (if c =? 124 then [indirect d'] else []) ∧
    (c ≠ 124 → indirect d' = indirect d) ∧ inode_disk_wf d' ∧ length_ d' = length_ d ∧
    grown s s' (ys ++ xs) (dview s') ∧ (∀ x, x ∈ xs → dview s' x = zeros) ∧
    (∀ k, ¬ al_private s k → k ∉ xs → k ≠ indirect d' → dview s' k = dview s k) ∧
    used (dview s') d' total = used (dview s) d c ++ xs.
Proof.
  intros Hm Hi Hwf Hc Ht Hfree Hind. unfold add_indirect.
  rewrite (proj2 (Z.ltb_ge (124 + 128) total)) by lia. rewrite (Z.min_l total) by lia.
  destruct (indirect_block_ok s d c) as (ys & blocks & d' & s1 & E1 & G1 & Hys & Hbl & Hbu & Hwf' & Hdd & Hll & Hne);
    [done..| |intros; by apply Hind|].
  { intros ->. eapply has_free_mono; [done|]. change (124 =? 124) with true. cbn iota. lia. }
  rewrite (bind_Ok _ _ _ _ _ E1).
  destruct (fill_ok (Z.to_nat (total - c)) s1 (c - 124) blocks false)
    as (xs & s2 & b & E2 & _ & Hxl & G2); [apply G1| |lia|lia|].
  { eapply has_free_less; [|done]. rewrite Hys. by destruct (c =? 124). }
  rewrite (bind_Ok _ _ _ _ _ E2). set (blocks' := splice _ xs blocks).
  assert (length blocks' = 128%nat) as Hbl' by (subst blocks'; rewrite length_splice; lia).
  pose proof (grown_trans _ _ _ _ _ _ _ G1 G2) as G12.
  assert (0 ≤ indirect d' < dsize s ∧ ¬ al_private s (indirect d') ∧ indirect d' ∉ xs) as (Hir & Hip & Hix).
  { destruct (Z.eqb_spec c 124) as [->|Hcne].
    - destruct (grown_fresh_not_private _ _ _ _ (indirect d') Hi G1) as [? ?]; [subst ys; by left|].
      split_and!; [lia..|done|]. intros Hx. destruct (gr_fresh _ _ _ _ G12) as [Hnd _].
      subst ys. apply list.NoDup_app in Hnd as (_ & Hnd & _). by apply (Hnd (indirect d')); [left|].
    - destruct (Hne Hcne) as [-> _]. destruct (Hind Hcne) as (? & ? & Hnf). split_and!; [lia..|done|].
      intros Hx. apply Hnf. apply (gr_fresh _ _ _ _ G12), elem_of_app. by right. }
  destruct (write_grown_ok _ _ _ _ (indirect d') (words_to_bytes blocks') G12) as (s3 & E3 & G3);
    [done..|rewrite length_words_to_bytes; lia|].
  rewrite (bind_Ok _ _ _ _ _ E3).
  assert (∀ x, x ∈ xs → ¬ al_private s x) as Hxp.
  { intros x Hx. eapply grown_fresh_not_private; [done..|]. apply elem_of_app. by right. }
  assert (Forall (in_u 32) blocks') as Hbu'.
  { apply Forall_splice; [|done]. eapply grown_u32, G2. apply G1. }
  exists xs, ys, s3, d'. split; [done|]. split; [lia|]. split; [done|]. split; [intros Hcne; by destruct (Hne Hcne) as [-> _]|].
  split; [done|]. split; [done|]. split; [eapply grown_ext; [done|]; intros; symmetry; by apply (gr_view _ _ _ _ G3)|].
  split_and!.
  - intros x Hx. rewrite (gr_view _ _ _ _ G3) by (by apply Hxp).
    rewrite fn_lookup_insert_ne by (intros <-; done). unfold zeroed. by rewrite decide_True.
  - intros k Hk Hkx Hki. rewrite (gr_view _ _ _ _ G3), fn_lookup_insert_ne by done.
    unfold zeroed. rewrite decide_False by done. by apply (gr_view _ _ _ _ G1).
  - unfold used, pointers. rewrite Hdd, (gr_view _ _ _ _ G3), fn_lookup_insert by done.
    assert (bytes_to_words 128 (words_to_bytes blocks') = blocks') as ->
      by (rewrite <-Hbl'; by apply words_bytes_roundtrip). destruct (idw_direct _ Hwf) as [Hd _].
    rewrite !take_app_ge, Hd by lia. rewrite <-app_assoc. f_equal.
    replace (Z.to_nat total - 124)%nat with (Z.to_nat (c - 124) + length xs)%nat by lia.
    subst blocks'. rewrite take_splice_end by lia. f_equal.
    destruct (decide (c = 124)) as [->|Hcne]; [done|]. destruct (Hne Hcne) as [_ ->].
    f_equal. lia.
Qed.

(** Sectors taken from the free map when a file of [old] bytes becomes one of
    [new] bytes: the data and, past 124 sectors, the indirect block. *)
Definition sectors_needed (old new : Z) : nat :=
  Z.to_nat (sector_count new - sector_count old) +
  (if (sector_count old <=? 124) && (124 <? sector_count new) then 1 else 0).

(** [d] is extended to [d'] with the data sectors [xs] and the index sectors
    [ys], all taken from the free map. *)
Record extended s s' (d d' : inode_disk) (xs ys : list Z) : Prop := {
  ex_grown : grown s s' (ys ++ xs) (dview s');
  ex_wf : inode_disk_wf d';
  ex_sectors : sectors (dview s') d' = sectors (dview s) d ++ xs;
  ex_index : index_sectors d' = index_sectors d ++ ys;
  ex_zero : ∀ x, x ∈ xs → dview s' x = zeros;
  ex_frame : ∀ k, ¬ al_private s k → k ∉ xs → k ∉ index_sectors d' → dview s' k = dview s k }.

Lemma sector_count_bounds len : 0 ≤ len → 512 * sector_count len - 511 ≤ len ≤ 512 * sector_count len.
Proof.
  intros H. rewrite sector_count_eq by done.
  pose proof (Z.div_mod (len + 511) 512 ltac:(lia)).
  pose proof (Z.mod_pos_bound (len + 511) 512 ltac:(lia)). lia.
Qed.

Lemma sectors_needed_mono old a b :
  0 ≤ a ≤ b → (sectors_needed old a ≤ sectors_needed old b)%nat.
Proof.
  intros H. unfold sectors_needed. rewrite (sector_count_eq a), (sector_count_eq b) by lia.
  pose proof (Z.div_le_mono (a + 511) (b + 511) 512).
  destruct (sector_count old <=? 124); cbn [andb]; [|lia].
  destruct (Z.ltb_spec 124 ((a + 511) / 512)), (Z.ltb_spec 124 ((b + 511) / 512)); lia.
Qed.

Lemma set_length_wf x d : in_s 32 x → inode_disk_wf d → inode_disk_wf (set_length x d).
Proof. by intros ? []. Qed.

(** No new sector: only the length changes. *)
Lemma extend_length_only s n d len :
  al_inv s → inode_ok (dview s) (dsize s) n d → 0 ≤ len → sector_count len ≤ sector_count (length_ d) →
  extended s s d (set_length (length_ d `max` len) d) [] [].
Proof.
  intros Hi Hok Hl Hc. pose proof (io_len _ _ _ _ Hok).
  pose proof (sector_count_bounds len Hl). pose proof (sector_count_bounds (length_ d) ltac:(lia)).
  pose proof (sector_count_bounds (length_ d `max` len) ltac:(lia)).
  assert (count_of (set_length (length_ d `max` len) d) = count_of d) as Hcount
    by (unfold count_of; cbn [length_ set_length]; lia).
  split; try done.
  - by apply grown_refl.
  - apply set_length_wf; [|apply Hok]. unfold in_s. eval_pow2. lia.
  - unfold sectors. by rewrite Hcount, app_nil_r.
  - unfold index_sectors. by rewrite Hcount, app_nil_r.
  - by intros x ?%elem_of_nil.
Qed.

(** Only direct sectors are added. *)
Lemma extend_direct s s' d d' len xs :
  al_inv s → 0 ≤ length_ d → 0 ≤ len → sector_count (length_ d) ≤ sector_count len ≤ 124 →
  grown s s' xs (zeroed xs (dview s)) → inode_disk_wf d' → length_ d' = length_ d →
  (∀ g g', used g' d' (sector_count len) = used g d (sector_count (length_ d)) ++ xs) →
  extended s s' d (set_length len d') xs [].
Proof.
  intros Hi H0 Hl Hc G Hwf Hld Hused. pose proof (sector_count_bounds len Hl).
  assert (∀ x, x ∈ xs → ¬ al_private s x) as Hxp
    by (intros x Hx; eapply grown_fresh_not_private; done).
  split.
  - eapply grown_ext; [done|]. intros. symmetry. by apply (gr_view _ _ _ _ G).
  - apply set_length_wf; [|done]. unfold in_s. eval_pow2. lia.
  - apply Hused.
  - unfold index_sectors. rewrite !decide_False; [done|unfold count_of; cbn [length_ set_length]; lia..].
  - intros x Hx. rewrite (gr_view _ _ _ _ G) by auto. unfold zeroed. by rewrite decide_True.
  - intros k Hk Hkx _. rewrite (gr_view _ _ _ _ G) by done. unfold zeroed. by rewrite decide_False.
Qed.

(** The last sectors added are in the indirect block: from [s] to [s1] direct
    sectors [xs] may have been added, from [s1] to [s2] those in it. *)
Lemma extend_indirect s s1 s2 d d1 d2 len c xs xs2 ys :
  al_inv s → 0 ≤ length_ d → 0 ≤ len → 124 < sector_count len ≤ 252 →
  c = sector_count (length_ d) `max` 124 → (c ≠ 124 → xs = []) → indirect d1 = indirect d →
  grown s s1 xs (zeroed xs (dview s)) →
  used (dview s1) d1 c = used (dview s) d (sector_count (length_ d)) ++ xs →
  ys = (if c =? 124 then [indirect d2] else []) → (c ≠ 124 → indirect d2 = indirect d1) →
  inode_disk_wf d2 → grown s1 s2 (ys ++ xs2) (dview s2) → (∀ x, x ∈ xs2 → dview s2 x = zeros) →
  (∀ k, ¬ al_private s1 k → k ∉ xs2 → k ≠ indirect d2 → dview s2 k = dview s1 k) →
  used (dview s2) d2 (sector_count len) = used (dview s1) d1 c ++ xs2 →
  extended s s2 d (set_length len d2) (xs ++ xs2) ys.
Proof.
  intros Hi H0 Hl Ht Hc Hcx Hi1 G1 U1 Hys Hi2 Hwf G2 Z2 F2 U2.
  pose proof (sector_count_bounds len Hl). pose proof (grown_trans _ _ _ _ _ _ _ G1 G2) as G.
  assert (index_sectors (set_length len d2) = [indirect d2]) as Hidx
    by (unfold index_sectors, count_of; cbn [length_ set_length indirect]; by rewrite decide_True by lia).
  assert (∀ x, x ∈ xs ++ xs2 → ¬ al_private s x) as Hxp.
  { intros x Hx. eapply grown_fresh_not_private; [done..|]. rewrite !elem_of_app in *. tauto. }
  split.
  - eapply grown_perm; [done|]. rewrite !app_assoc. f_equiv. apply Permutation_app_comm.
  - apply set_length_wf; [|done]. unfold in_s. eval_pow2. lia.
  - change (used (dview s2) d2 (sector_count len) = used (dview s) d (sector_count (length_ d)) ++ xs ++ xs2).
    by rewrite U2, U1, app_assoc.
  - rewrite Hidx, Hys. unfold index_sectors, count_of. destruct (Z.eqb_spec c 124).
    + by rewrite decide_False by lia.
    + rewrite decide_True by lia. by rewrite Hi2, Hi1.
  - intros x [Hx|Hx]%elem_of_app; [|by apply Z2].
    destruct (gr_fresh _ _ _ _ G) as [Hnd _]. apply list.NoDup_app in Hnd as (_ & Hnd & _).
    specialize (Hnd x Hx). rewrite elem_of_app in Hnd.
    assert (¬ al_private s x) as Hp by (apply Hxp, elem_of_app; by left).
    assert (x ≠ indirect d2) as Hne.
    { intros ->. apply Hnd. left. subst ys. destruct (Z.eqb_spec c 124); [by left|].
      rewrite Hcx in Hx by done. by apply elem_of_nil in Hx. }
    rewrite F2, (gr_view _ _ _ _ G1); [|done|by rewrite (gr_private _ _ _ _ G1)|tauto|done].
    unfold zeroed. by rewrite decide_True.
  - rewrite Hidx. intros k Hk Hkx Hki. rewrite elem_of_app, list_elem_of_singleton in *.
    rewrite F2, (gr_view _ _ _ _ G1); [|done|by rewrite (gr_private _ _ _ _ G1)|tauto|tauto].
    unfold zeroed. by rewrite decide_False by tauto.
Qed.

(** The file at [n] is allocated, on sectors other than the allocator's. *)
Definition file_sectors s (n : Z) (d : inode_disk) : Prop :=
  ∀ x, x ∈ own (dview s) n d → ¬ al_private s x ∧ ¬ al_free s x.

Lemma file_sectors_indirect s n d :
  inode_ok (dview s) (dsize s) n d → file_sectors s n d → 124 < sector_count (length_ d) →
  0 ≤ indirect d < dsize s ∧ ¬ al_private s (indirect d) ∧ ¬ al_free s (indirect d).
Proof.
  intros Hok Hfs Hc. assert (124 < count_of d)%nat as Hc' by (unfold count_of; lia).
  split; [by apply (indirect_range Hok)|]. apply Hfs. unfold own, index_sectors.
  rewrite decide_True by done. rewrite elem_of_cons, elem_of_app, list_elem_of_singleton. tauto.
Qed.

Lemma add_inode_ok s n d len :
  machine_ok → al_inv s → inode_ok (dview s) (dsize s) n d → file_sectors s n d →
  0 ≤ len ≤ (124 + 128) * 512 → has_free s (sectors_needed (length_ d) len) →
  ∃ xs ys s' d', add_inode allocate d len s = Ok (d', s') ∧ length_ d' = length_ d `max` len ∧
    extended s s' d d' xs ys.
Proof.
  intros Hm Hi Hok Hfs Hl Hfree. unfold add_inode. pose proof (io_len _ _ _ _ Hok) as Hld.
  pose proof (sector_count_bounds len ltac:(lia)) as Hc1.
  pose proof (sector_count_bounds (length_ d) ltac:(lia)) as Hc2. unfold sectors_needed in Hfree.
  set (total := sector_count len) in *. set (c := sector_count (length_ d)) in *.
  destruct (Z.leb_spec (total - c) 0) as [Hnew|Hnew].
  { exists [], [], s. eexists. split; [done|].
    replace (if length_ d <? len then len else length_ d) with (length_ d `max` len)
      by (destruct (Z.ltb_spec (length_ d) len); lia).
    split; [done|]. eapply extend_length_only; [done..|lia|]. subst c total. lia. }
  assert (length_ d `max` len = len) as -> by lia. destruct (Z.ltb_spec c 124) as [Hc|Hc].
  - destruct (add_direct_ok s d total c (total - c)) as (xs & s1 & d1 & E1 & Hxl & G1 & Hwf1 & Hi1 & Hl1 & U1);
      [done|apply Hok|lia|lia|eapply has_free_mono; [done|lia]|].
    rewrite (bind_Ok _ _ _ _ _ E1). destruct (Z.ltb_spec 124 total) as [Ht|Ht].
    + rewrite (Z.min_r total 124) in * by lia.
      rewrite (proj2 (Z.ltb_lt 0 _)) by lia. change (124 <? 124 + 128) with true. cbn [andb].
      destruct (add_indirect_ok s1 d1 total 124 (total - c - (124 - c)))
        as (xs2 & ys & s2 & d2 & E2 & Hx2 & Hys & Hi2 & Hwf2 & Hl2 & G2 & Z2 & F2 & U2); [done|apply G1|done|lia|lia| |done|].
      { eapply has_free_less; [|done]. eapply has_free_mono; [done|].
        rewrite (proj2 (Z.leb_le c 124)) by lia. cbn [andb]. change (124 =? 124) with true. cbn iota. lia. }
      rewrite (bind_Ok _ _ _ _ _ E2). exists (xs ++ xs2), ys, s2, (set_length len d2).
      split; [done|]. split; [done|]. eapply (extend_indirect _ s1 _ _ d1 _ _ 124); try done; lia || apply U1.
    + rewrite (Z.min_l total 124) in * by lia. exists xs, [], s1, (set_length len d1).
      split; [done|]. split; [done|]. eapply extend_direct; try done; subst c total; lia.
  - rewrite (bind_Ok _ _ s (d, c, total - c) s) by done.
    rewrite (proj2 (Z.ltb_lt 0 _)), (proj2 (Z.ltb_lt c _)) by lia. cbn [andb].
    destruct (add_indirect_ok s d total c (total - c))
      as (xs & ys & s2 & d2 & E2 & Hx2 & Hys & Hi2 & Hwf2 & Hl2 & G2 & Z2 & F2 & U2); [done|done|apply Hok|lia|lia| | |].
    { eapply has_free_mono; [done|]. rewrite (proj2 (Z.ltb_lt 124 total)) by lia.
      destruct (Z.eqb_spec c 124), (Z.leb_spec c 124); cbn [andb]; lia. }
    { intros. apply (file_sectors_indirect s n d); [done..|]. subst c. lia. }
    rewrite (bind_Ok _ _ _ _ _ E2). exists xs, ys, s2, (set_length len d2).
    split; [done|]. split; [done|]. eapply (extend_indirect s s s2 d d d2 len c []); try done; try lia.
    + eapply grown_ext; [by apply grown_refl|done].
    + by rewrite app_nil_r.
Qed.

(** What a sequence of operations on the file at [n] leaves alone: the objects
    in memory, and every sector in use by something else. *)
Record preserved s s' (n : Z) (d : inode_disk) : Prop := {
  pr_inv : al_inv s';
  pr_objects : objects s' = objects s;
  pr_size : dsize s' = dsize s;
  pr_private : ∀ k, al_private s' k ↔ al_private s k;
  pr_free : ∀ k, al_free s' k → al_free s k;
  pr_frame : ∀ k, ¬ al_private s k → ¬ al_free s k → k ∉ own (dview s) n d → dview s' k = dview s k }.

Lemma grown_opened s s' xs g p i d :
  grown s s' xs g → inodes s !! p = Some i → p ≠ NULL → inode_ok (dview s') (dsize s') (sector i) d →
  opened s' p i d.
Proof.
  intros G Hp Hn Hok. destruct (al_store _ (gr_inv _ _ _ _ G)).
  pose proof (gr_objects _ _ _ _ G) as Ho. unfold objects in Ho.
  split; try done. assert (inodes s' = inodes s) as -> by congruence. done.
Qed.

Section Extended.
Context {s s1 s2 : fs St} {n : Z} {d d' : inode_disk} {xs ys : list Z}.
Context (Hi : al_inv s) (Hok : inode_ok (dview s) (dsize s) n d) (Hfs : file_sectors s n d).
Context (Hex : extended s s1 d d' xs ys).
Context (G2 : grown s s2 (ys ++ xs) (<[n := encode_inode d']> (dview s1))).

Lemma ex_fresh_not_own x : x ∈ ys ++ xs → x ∉ own (dview s) n d.
Proof.
  intros Hx Ho. destruct (Hfs x Ho) as [_ Hf]. apply Hf. by apply (gr_fresh _ _ _ _ (ex_grown _ _ _ _ _ _ Hex)).
Qed.

Lemma ex_own_cases x :
  x ∈ n :: index_sectors d' ++ sectors (dview s1) d' → x ∈ own (dview s) n d ∨ x ∈ ys ++ xs.
Proof.
  rewrite (ex_sectors _ _ _ _ _ _ Hex), (ex_index _ _ _ _ _ _ Hex). unfold own.
  rewrite !elem_of_cons, !elem_of_app. tauto.
Qed.

Lemma ex_not_private x :
  x ∈ n :: index_sectors d' ++ sectors (dview s1) d' → ¬ al_private s x.
Proof.
  intros [Ho|Hx]%ex_own_cases; [by apply Hfs|].
  eapply grown_fresh_not_private; [done|apply (ex_grown _ _ _ _ _ _ Hex)|done].
Qed.

Lemma ex_sector_view x :
  x ∈ sectors (dview s) d → dview s2 x = dview s x.
Proof.
  intros Hx. pose proof (io_nodup _ _ _ _ Hok) as Hnd. unfold own in Hnd.
  apply list.NoDup_cons in Hnd as [Hn1 Hn2]. apply list.NoDup_app in Hn2 as (_ & Hn2 & _).
  assert (x ∈ own (dview s) n d) as Ho by (unfold own; rewrite elem_of_cons, elem_of_app; tauto).
  assert (x ∉ ys ++ xs) as Hf by (intros ?; by eapply ex_fresh_not_own). rewrite elem_of_app in Hf.
  destruct (Hfs x Ho) as [Hp _].
  rewrite (gr_view _ _ _ _ G2), fn_lookup_insert_ne by
    (done || (intros ->; apply Hn1, elem_of_app; tauto)).
  apply (ex_frame _ _ _ _ _ _ Hex); [done|tauto|]. rewrite (ex_index _ _ _ _ _ _ Hex), elem_of_app.
  intros [?|?]; [by eapply Hn2|tauto].
Qed.

Lemma ex_n_not_index : n ∉ index_sectors d'.
Proof.
  rewrite (ex_index _ _ _ _ _ _ Hex), elem_of_app. intros [Hx|Hx].
  - pose proof (io_nodup _ _ _ _ Hok) as Hnd. unfold own in Hnd.
    apply list.NoDup_cons in Hnd as [Hn1 _]. apply Hn1, elem_of_app. tauto.
  - eapply (ex_fresh_not_own n); [apply elem_of_app; tauto|]. left.
Qed.

Lemma ex_sectors2 : sectors (dview s2) d' = sectors (dview s) d ++ xs.
Proof.
  rewrite <-(ex_sectors _ _ _ _ _ _ Hex). unfold sectors, pointers.
  destruct (idw_direct _ (ex_wf _ _ _ _ _ _ Hex)) as [Hd _].
  pose proof ex_n_not_index as Hn. pose proof (ex_not_private (indirect d')) as Hp.
  unfold index_sectors in Hn, Hp. case_decide.
  - rewrite (gr_view _ _ _ _ G2), fn_lookup_insert_ne; [done| |].
    + intros ->. apply Hn. left.
    + apply Hp. right. left.
  - rewrite !take_app_le by lia. done.
Qed.

Lemma ex_new_view x : x ∈ xs → dview s2 x = zeros.
Proof.
  intros Hx. assert (x ∈ ys ++ xs) as Hx' by (apply elem_of_app; tauto).
  rewrite (gr_view _ _ _ _ G2), fn_lookup_insert_ne.
  - by apply (ex_zero _ _ _ _ _ _ Hex).
  - intros Hnx. eapply (ex_fresh_not_own x); [done|]. rewrite <-Hnx. left.
  - eapply grown_fresh_not_private; [done|apply (ex_grown _ _ _ _ _ _ Hex)|done].
Qed.

Lemma ex_preserved : preserved s s2 n d.
Proof.
  pose proof G2 as [? ? ? Hv Hp Hf _]. split; try done.
  - intros k [? _]%Hf. done.
  - intros k Hk Hkf Hko. unfold own in Hko. rewrite elem_of_cons, elem_of_app in Hko.
    assert (k ∉ ys ++ xs) as Hkx.
    { intros Hx. apply Hkf. by apply (gr_fresh _ _ _ _ (ex_grown _ _ _ _ _ _ Hex)). }
    rewrite elem_of_app in Hkx. rewrite Hv, fn_lookup_insert_ne by (done || (intros ->; tauto)).
    apply (ex_frame _ _ _ _ _ _ Hex); [done|tauto|].
    rewrite (ex_index _ _ _ _ _ _ Hex), elem_of_app. tauto.
Qed.

Lemma ex_file_sectors : file_sectors s2 n d'.
Proof.
  intros x Hx. unfold own in Hx. rewrite ex_sectors2, <-(ex_sectors _ _ _ _ _ _ Hex) in Hx.
  split; [rewrite (gr_private _ _ _ _ G2); by apply ex_not_private|].
  rewrite (gr_free _ _ _ _ G2). apply ex_own_cases in Hx as [Ho|Hx]; [|tauto].
  destruct (Hfs x Ho). tauto.
Qed.

Context (Hzero : zero_tail (dview s) d) (Hlen : length_ d ≤ length_ d' ≤ (124 + 128) * 512).

Lemma ex_result :
  inode_ok (dview s2) (dsize s2) n d' ∧ zero_tail (dview s2) d' ∧
  content (dview s2) d' = content (dview s) d ++ replicate (Z.to_nat (length_ d' - length_ d)) 0.
Proof.
  assert (∀ k, length (dview s k) = 512%nat) as Hg by (intros; by apply dview_length, al_store).
  assert (∀ k, length (dview s2 k) = 512%nat) as Hg2
    by (intros; eapply dview_length, al_store, G2).
  assert (dview s2 n = encode_inode d') as Hn.
  { rewrite (gr_view _ _ _ _ G2), fn_lookup_insert; [done|]. apply Hfs. left. }
  pose proof (ex_grown _ _ _ _ _ _ Hex) as G1. destruct (gr_fresh _ _ _ _ G1) as [Hnd _].
  assert (Forall (λ x, 0 ≤ x < dsize s) (ys ++ xs)) as Hr.
  { apply list.Forall_forall. intros x Hx. by eapply grown_fresh_not_private. }
  pose proof (extend_ok Hok Hn (ex_wf _ _ _ _ _ _ Hex) Hlen ex_sectors2 (ex_index _ _ _ _ _ _ Hex)
                Hnd Hr ex_fresh_not_own) as Hok2.
  destruct (extend_content_tail Hok Hzero Hg Hn (ex_wf _ _ _ _ _ _ Hex) Hlen ex_sectors2
              (ex_index _ _ _ _ _ _ Hex) Hnd Hr ex_fresh_not_own (λ x, ex_sector_view x)
              (λ x, ex_new_view x) Hg2) as [? ?].
  rewrite (gr_size _ _ _ _ G2). done.
Qed.
End Extended.

(** The allocator's invariant only looks at its own sectors. *)
Lemma preserved_evolves s s1 s2 n d g :
  preserved s s1 n d → evolves s1 s2 g →
  (∀ k, al_private s k → g k = dview s1 k) →
  (∀ k, ¬ al_private s k → ¬ al_free s k → k ∉ own (dview s) n d → g k = dview s1 k) →
  preserved s s2 n d.
Proof.
  intros [Hi Ho Hs Hp Hf Hfr] Hev Hg1 Hg2. destruct (al_evolves _ _ _ Hi Hev) as [Hi2 H2].
  { intros k ?%Hp. by apply Hg1. }
  pose proof Hev as [_ Hs2 Hv2 Hm2]. split; [done| |congruence|..].
  - rewrite <-Ho. unfold memory, objects in *. congruence.
  - intros k. rewrite <-Hp. apply H2.
  - intros k ?. by apply Hf, H2.
  - intros k ???. rewrite Hv2, Hg2 by done. by apply Hfr.
Qed.

(** The file took what it needed and no more: a disk with room for [n] bytes still has
    it. *)
Definition leaves s s' (d d' : inode_disk) : Prop :=
  ∀ n, length_ d' ≤ n → has_free s (sectors_needed (length_ d) n) → has_free s' (sectors_needed (length_ d') n).

Lemma sectors_needed_split a b n : 0 ≤ a ≤ b → b ≤ n →
  sectors_needed a n = (sectors_needed b n + sectors_needed a b)%nat.
Proof.
  intros Ha Hb. unfold sectors_needed. rewrite !sector_count_eq by lia.
  pose proof (Z.div_le_mono (a + 511) (b + 511) 512 ltac:(lia) ltac:(lia)).
  pose proof (Z.div_le_mono (b + 511) (n + 511) 512 ltac:(lia) ltac:(lia)).
  set (x := (a + 511) / 512) in *. set (y := (b + 511) / 512) in *. set (z := (n + 511) / 512) in *.
  destruct (Z.leb_spec x 124), (Z.leb_spec y 124), (Z.ltb_spec 124 y), (Z.ltb_spec 124 z); cbn [andb]; lia.
Qed.

Lemma extended_leaves s s1 s2 n m d d' xs ys g : inode_ok (dview s) (dsize s) n d → extended s s1 d d' xs ys →
  inode_ok (dview s2) (dsize s2) m d' → sectors (dview s2) d' = sectors (dview s) d ++ xs → length_ d ≤ length_ d' →
  grown s s2 (ys ++ xs) g → leaves s s2 d d'.
Proof.
  intros Hok Hex Hok' Hs Hl G k Hk Hf. pose proof (io_len _ _ _ _ Hok) as H0. eapply has_free_less; [|exact G].
  rewrite (sectors_needed_split _ (length_ d')) in Hf by lia. eapply has_free_mono; [exact Hf|].
  apply (f_equal length) in Hs. pose proof (f_equal length (ex_index _ _ _ _ _ _ Hex)) as Hi.
  rewrite length_app in Hs, Hi. rewrite (length_sectors Hok), (length_sectors Hok') in Hs.
  unfold index_sectors in Hi. unfold sectors_needed, count_of in *. rewrite length_app.
  pose proof (sector_count_bounds (length_ d)). pose proof (sector_count_bounds (length_ d')).
  destruct (Z.leb_spec (sector_count (length_ d)) 124), (Z.ltb_spec 124 (sector_count (length_ d')));
    repeat case_decide; simpl in Hi; cbn [andb]; lia.
Qed.

(** The first half of [inode_write_at]: the file has its new length. *)
Lemma grow_ok s p i d len :
  machine_ok → al_inv s → opened s p i d → zero_tail (dview s) d → file_sectors s (sector i) d →
  0 ≤ len ≤ (124 + 128) * 512 → has_free s (sectors_needed (length_ d) len) →
  ∃ s' d', length_ d' = length_ d `max` len ∧ opened s' p i d' ∧ zero_tail (dview s') d' ∧
    content (dview s') d' = content (dview s) d ++ replicate (Z.to_nat (length_ d' - length_ d)) 0 ∧
    preserved s s' (sector i) d ∧ file_sectors s' (sector i) d' ∧
    (∀ x, x ∈ own (dview s') (sector i) d' → x ∈ own (dview s) (sector i) d ∨ al_free s x) ∧
    leaves s s' d d' ∧
    ∀ B (k : inode_disk → K B),
      (let! d' := add_inode allocate d len in
       let! _ := write_disk (sector i) (encode_inode d') in k d') s = k d' s'.
Proof.
  intros Hm Hi H Hz Hfs Hl Hfree. pose proof (op_ok _ _ _ _ H) as Hok. pose proof (io_len _ _ _ _ Hok).
  destruct (add_inode_ok s (sector i) d len) as (xs & ys & s1 & d' & E & Hlen & Hex); [done..|].
  destruct (write_grown_ok _ _ _ _ (sector i) (encode_inode d') (ex_grown _ _ _ _ _ _ Hex))
    as (s2 & E2 & G2); [apply Hfs; left|apply (inode_sector_range Hok)|apply length_encode_inode, Hex|].
  destruct (ex_result Hi Hok Hfs Hex G2 Hz) as (Hok2 & Hz2 & Hc2); [lia|].
  exists s2, d'. split; [done|]. split; [eapply grown_opened; [done|apply H..|done]|].
  split; [done|]. split; [done|]. split; [by eapply ex_preserved|].
  split; [by eapply ex_file_sectors|]. split_and!.
  - intros x Hx. unfold own in Hx at 1.
    rewrite (ex_sectors2 Hi Hok Hfs Hex G2), <-(ex_sectors _ _ _ _ _ _ Hex) in Hx.
    apply (ex_own_cases Hex) in Hx as [?|?]; [by left|right].
    by apply (gr_fresh _ _ _ _ (ex_grown _ _ _ _ _ _ Hex)).
  - eapply extended_leaves; [done..|by eapply ex_sectors2|lia|done].
  - intros B k. by rewrite (bind_Ok _ _ _ _ _ E), (bind_Ok _ _ _ _ _ E2).
Qed.

(** The bytes of a file as [inode_write_at] leaves them: zeros up to the offset
    when it is past the end, then the new bytes. *)
Definition written (old data : list Z) (off : nat) : list Z :=
  splice off data (old ++ replicate (off + length data - length old) 0).
Lemma al_quiet s s0 n d :
  al_inv s → evolves s s0 (dview s) → file_sectors s n d →
  al_inv s0 ∧ file_sectors s0 n d ∧ (∀ m, has_free s m → has_free s0 m) ∧
  (∀ x, al_free s0 x → al_free s x) ∧ ∀ s', preserved s0 s' n d → preserved s s' n d.
Proof.
  intros Hi Hev Hfs. destruct (al_evolves _ _ _ Hi Hev) as [Hi0 H0]; [done|].
  pose proof Hev as [_ Hs Hv Hm]. split_and!; [done|..].
  - intros x. rewrite Hv. intros [? ?]%Hfs. destruct (H0 x). tauto.
  - intros m (l & ? & ? & Hl). exists l. split_and!; [done..|]. intros x Hx. by apply H0, Hl.
  - intros x. apply H0.
  - intros s' [? Ho Hs' Hp Hf Hfr]. split; [done| |congruence|..].
    + rewrite Ho. unfold memory, objects in *. congruence.
    + intros k. rewrite Hp. apply H0.
    + intros k ?%Hf. by apply H0.
    + rewrite Hv in Hfr. intros k ???. destruct (H0 k). apply Hfr; tauto.
Qed.

Lemma preserved_trans s1 s2 s3 n d d' :
  preserved s1 s2 n d → preserved s2 s3 n d' →
  (∀ x, x ∈ own (dview s2) n d' → x ∈ own (dview s1) n d ∨ al_free s1 x) → preserved s1 s3 n d.
Proof.
  intros [? ? ? Hp1 Hf1 Hfr1] [? ? ? Hp2 Hf2 Hfr2] Hown. split; [done|congruence|congruence|..].
  - intros k. by rewrite Hp2, Hp1.
  - intros k ?. by apply Hf1, Hf2.
  - intros k Hk Hkf Hko. rewrite Hfr2, Hfr1; [done..|by rewrite Hp1| |].
    + intros ?%Hf1. done.
    + intros [?|?]%Hown; done.
Qed.

(** The second half of [inode_write_at], when the file is long enough. *)
Lemma write_back_ok s p i d buf size off :
  al_inv s → opened s p i d → zero_tail (dview s) d → file_sectors s (sector i) d →
  0 ≤ off → 0 ≤ size → off + size ≤ length_ d → size ≤ Z.of_nat (length buf) →
  ∃ s', (let! bytes_written := write_loop (Z.to_nat size) p buf size off 0 in
         let! _ := write_disk (sector i) (encode_inode d) in
         ret bytes_written) s = Ok (size, s') ∧
    opened s' p i d ∧ zero_tail (dview s') d ∧
    content (dview s') d = splice (Z.to_nat off) (take (Z.to_nat size) buf) (content (dview s) d) ∧
    own (dview s') (sector i) d = own (dview s) (sector i) d ∧ preserved s s' (sector i) d ∧
    ∀ m, has_free s m → has_free s' m.
Proof.
  intros Hi H Hz Hfs Hoff Hsize Hend Hbuf. pose proof (op_ok _ _ _ _ H) as Hok.
  destruct (write_tail_ok s p i d buf size off) as (s2 & g & E & Hev & Hdw); [done..|].
  exists s2. rewrite (ev_view _ _ _ Hev). split; [done|].
  split; [eapply opened_evolves; [done..|apply Hdw]|].
  assert (∀ k, k ∉ own (dview s) (sector i) d → g k = dview s k) as Hfr.
  { intros k Hk. apply (dw_frame _ _ _ _ _ _ _ Hdw). intros ?. apply Hk. unfold own.
    rewrite elem_of_cons, elem_of_app. tauto. }
  split_and!.
  - eapply zero_tail_written; [done|intros; apply dview_length, H| |done|done].
    rewrite length_take. lia.
  - apply Hdw.
  - unfold own. by rewrite (dw_sectors _ _ _ _ _ _ _ Hdw).
  - eapply (preserved_evolves s s); [|done|..].
    + split; try done.
    + intros k Hk. apply Hfr. intros ?%Hfs. tauto.
    + intros. by apply Hfr.
  - destruct (al_evolves _ _ _ Hi Hev) as [_ H2]; [intros k Hk; apply Hfr; intros ?%Hfs; tauto|].
    intros m (l & ? & ? & Hl). exists l. split_and!; [done..|]. intros x Hx. by apply H2, Hl.
Qed.

Lemma inode_write_at_ok s p i d buf size off :
  machine_ok → al_inv s → opened s p i d → zero_tail (dview s) d → file_sectors s (sector i) d →
  deny_write_cnt i = 0 → 0 ≤ off → 0 ≤ size → off + size ≤ (124 + 128) * 512 →
  size ≤ Z.of_nat (length buf) → has_free s (sectors_needed (length_ d) (off + size)) →
  ∃ s' d', inode_write_at allocate p buf size off s = Ok (size, s') ∧
    length_ d' = length_ d `max` (off + size) ∧ opened s' p i d' ∧ zero_tail (dview s') d' ∧
    content (dview s') d' = written (content (dview s) d) (take (Z.to_nat size) buf) (Z.to_nat off) ∧
    preserved s s' (sector i) d ∧ file_sectors s' (sector i) d' ∧
    (∀ x, x ∈ own (dview s') (sector i) d' → x ∈ own (dview s) (sector i) d ∨ al_free s x) ∧
    leaves s s' d d'.
Proof.
  intros Hm Hi H Hz Hfs Hdeny Hoff Hsize Hend Hbuf Hfree. pose proof (op_ok _ _ _ _ H) as Hok.
  unfold inode_write_at. rewrite (bind_Ok _ _ _ _ _ (load_inode_ok _ _ _ (op_inode _ _ _ _ H))).
  rewrite Hdeny. change (negb (0 =? 0)) with false. cbv iota.
  destruct (read_inode_ok _ _ _ _ H) as (data & s0 & E0 & Hd & Hev0 & H0).
  rewrite (bind_Ok _ _ _ _ _ E0), Hd, (Z.add_comm size off).
  rewrite swrap_id by (unfold in_s; eval_pow2; lia).
  destruct (al_quiet _ _ _ _ Hi Hev0 Hfs) as (Hi0 & Hfs0 & Hfree0 & Hff0 & Hpr0).
  destruct (grow_ok s0 p i d (off + size)) as (s1 & d' & Hl' & H1 & Hz1 & Hc1 & Hpr1 & Hfs1 & Hown1 & Hlv & ->);
    [done..|by rewrite (ev_view _ _ _ Hev0)|done|lia|by apply Hfree0|].
  destruct (write_back_ok s1 p i d' buf size off) as (s2 & E2 & H2 & Hz2 & Hc2 & Hown2 & Hpr2 & Hfr2);
    [apply Hpr1|done|done|done|lia|lia|lia|done|].
  rewrite E2. exists s2, d'. split; [done|]. split; [done|]. split; [done|]. split; [done|].
  rewrite (ev_view _ _ _ Hev0) in Hc1, Hown1. split_and!.
  - rewrite Hc2, Hc1. unfold written. do 3 f_equal.
    rewrite length_take, (length_content Hok) by (intros; apply dview_length, H).
    pose proof (io_len _ _ _ _ Hok). lia.
  - eapply preserved_trans; [by apply Hpr0|done|]. intros x Hx. destruct (Hown1 x Hx); [by left|right; by apply Hff0].
  - intros x. rewrite Hown2. intros [? ?]%Hfs1. rewrite (pr_private _ _ _ _ Hpr2).
    split; [done|]. intros ?%(pr_free _ _ _ _ Hpr2). done.
  - intros x. rewrite Hown2. intros [?|?]%Hown1; [by left|right; by apply Hff0].
  - intros n Hn Hf. by apply Hfr2, Hlv, Hfree0.
Qed.
End Grow.
