(* ===== verification/File.v ===== *)
(** * Open files (filesys/file.c)

    A [struct file] is an inode with a position.  The arguments [allocate] and
    [release] are those of Inode. *)

From S2P Require Import Prelude Bitmap Block Cache FsState Inode.

Section File.
Context {St : Type} {SS : SectorStore St} {mach : Machine}.

Abbreviation K := (M (fs St)).

Variable allocate : K (option Z).
Variable release : Z → K unit.

Definition file_open (inode : Z) : K Z :=
  let! p := malloc in
  if negb (inode =? NULL) && negb (p =? NULL) then
    let! _ := modify (λ s, set_files (<[p := mk_file inode 0 false]> (files s)) s) in
    ret p
  else
    let! _ := inode_close release inode in
    ret NULL.

Definition file_reopen (file : Z) : K Z :=
  let! f := load_file file in
  let! inode := inode_reopen (f_inode f) in
  file_open inode.

Definition file_deny_write (file : Z) : K unit :=
  let! _ := ASSERT (negb (file =? NULL)) in
  let! f := load_file file in
  if f_deny_write f then ret tt
  else
    let! _ := store_file file (mk_file (f_inode f) (f_pos f) true) in
    inode_deny_write (f_inode f).

Definition file_allow_write (file : Z) : K unit :=
  let! _ := ASSERT (negb (file =? NULL)) in
  let! f := load_file file in
  if f_deny_write f then
    let! _ := store_file file (mk_file (f_inode f) (f_pos f) false) in
    inode_allow_write (f_inode f)
  else ret tt.

Definition file_close (file : Z) : K unit :=
  if file =? NULL then ret tt
  else
    let! _ := file_allow_write file in
    let! f := load_file file in
    let! _ := inode_close release (f_inode f) in
    modify (λ s, set_files (delete file (files s)) s).

Definition file_get_inode (file : Z) : K Z :=
  let! f := load_file file in ret (f_inode f).

(** Reads return the caller's buffer after them. *)
Definition file_read_at (file : Z) (buffer : list Z) (size file_ofs : Z) : K (Z * list Z) :=
  let! f := load_file file in
  inode_read_at (f_inode f) buffer size file_ofs.

Definition file_read (file : Z) (buffer : list Z) (size : Z) : K (Z * list Z) :=
  let! f := load_file file in
  let! '(bytes_read, buffer) := inode_read_at (f_inode f) buffer size (f_pos f) in
  let! f := load_file file in
  let! _ := store_file file (mk_file (f_inode f) (s32 (f_pos f + bytes_read)) (f_deny_write f)) in
  ret (bytes_read, buffer).

Definition file_write_at (file : Z) (buffer : list Z) (size file_ofs : Z) : K Z :=
  let! f := load_file file in
  inode_write_at allocate (f_inode f) buffer size file_ofs.

Definition file_write (file : Z) (buffer : list Z) (size : Z) : K Z :=
  let! f := load_file file in
  let! bytes_written := inode_write_at allocate (f_inode f) buffer size (f_pos f) in
  let! f := load_file file in
  let! _ := store_file file (mk_file (f_inode f) (s32 (f_pos f + bytes_written)) (f_deny_write f)) in
  ret bytes_written.

Definition file_length (file : Z) : K Z :=
  let! _ := ASSERT (negb (file =? NULL)) in
  let! f := load_file file in
  inode_length (f_inode f).

Definition file_seek (file new_pos : Z) : K unit :=
  let! _ := ASSERT (negb (file =? NULL)) in
  let! _ := ASSERT (0 <=? new_pos) in
  let! f := load_file file in
  store_file file (mk_file (f_inode f) new_pos (f_deny_write f)).

Definition file_tell (file : Z) : K Z :=
  let! _ := ASSERT (negb (file =? NULL)) in
  let! f := load_file file in
  ret (f_pos f).
End File.
