(* ===== verification/FreeMap.v ===== *)
(** * The free map (filesys/free-map.c, and the file functions of
    lib/kernel/bitmap.c)

    One bit per sector, kept in memory and, once the free map file is open,
    written to it after every change.  That write goes through
    [inode_write_at], which itself allocates sectors when a file grows: the
    recursion is cut by a nesting depth, the number of allocations that may be
    under way at once.  The free map file never grows, so the nested write
    allocates nothing and depth 1 is enough; [nesting] is 2. *)

From S2P Require Import Prelude Bitmap Block Cache FsState Inode File.

Section FreeMap.
Context {St : Type} {SS : SectorStore St} {mach : Machine}.

Abbreviation K := (M (fs St)).

Definition bitmap_write (allocate : K (option Z)) (b : bitmap) (file : Z) : K bool :=
  let size := s32 (byte_cnt (bit_cnt b)) in
  let! n := file_write_at allocate file (words_to_bytes (bits b)) size 0 in
  ret (n =? size).

(** [bitmap_read] returns the bitmap after it. *)
Definition bitmap_read (b : bitmap) (file : Z) : K (bool * bitmap) :=
  if 0 <? bit_cnt b then
    let size := s32 (byte_cnt (bit_cnt b)) in
    let! '(n, bytes) := file_read_at file (words_to_bytes (bits b)) size 0 in
    let b := mk_bitmap (bit_cnt b) (bytes_to_words (length (bits b)) bytes) in
    let! b := lift (elem_update (λ x, Z.land x (last_mask b)) b (elem_cnt (bit_cnt b) - 1)) in
    ret (n =? size, b)
  else ret (true, b).

Fixpoint free_map_allocate (depth : nat) (cnt : Z) : K (option Z) :=
  match depth with
  | O => out_of_fuel
  | S depth =>
      let! b := gets free_map in
      let! '(sector, b) := lift (bitmap_scan_and_flip b 0 cnt false) in
      let! _ := modify (set_free_map b) in
      let! file := gets free_map_file in
      let! written :=
        (if negb (sector =? BITMAP_ERROR) && negb (file =? NULL)
         then bitmap_write (free_map_allocate depth 1) b file
         else ret true) in
      if written then ret (if sector =? BITMAP_ERROR then None else Some sector)
      else
        let! b := gets free_map in
        let! b := lift (bitmap_set_multiple b sector cnt false) in
        let! _ := modify (set_free_map b) in
        ret None
  end.

Definition free_map_release (depth : nat) (sector cnt : Z) : K unit :=
  let! b := gets free_map in
  let! all := lift (bitmap_all b sector cnt) in
  let! _ := ASSERT all in
  let! b := lift (bitmap_set_multiple b sector cnt false) in
  let! _ := modify (set_free_map b) in
  let! file := gets free_map_file in
  let! _ := bitmap_write (free_map_allocate depth 1) b file in
  ret tt.

Definition nesting : nat := 2.
Definition allocate1 : K (option Z) := free_map_allocate nesting 1.
Definition release1 (sector : Z) : K unit := free_map_release nesting sector 1.

(** [size] is the number of sectors of the device. *)
Definition free_map_init (size : Z) : K unit :=
  let! p := malloc in
  let! q := (if p =? NULL then ret NULL else malloc) in
  let! r := lift (bitmap_create (negb (p =? NULL)) (negb (q =? NULL)) (heap_words (elem_cnt size)) size) in
  match r with
  | None => panic
  | Some b =>
      let! b := lift (bitmap_mark b FREE_MAP_SECTOR) in
      let! b := lift (bitmap_mark b ROOT_DIR_SECTOR) in
      modify (set_free_map b)
  end.

Definition free_map_open : K unit :=
  let! inode := inode_open FREE_MAP_SECTOR in
  let! file := file_open release1 inode in
  let! _ := modify (set_free_map_file file) in
  if file =? NULL then panic
  else
    let! b := gets free_map in
    let! '(ok, b) := bitmap_read b file in
    let! _ := modify (set_free_map b) in
    ASSERT ok.

Definition free_map_close : K unit :=
  let! file := gets free_map_file in
  file_close release1 file.

Definition free_map_create : K unit :=
  let! b := gets free_map in
  let! ok := inode_create allocate1 FREE_MAP_SECTOR (s32 (bitmap_file_size b)) in
  if negb ok then panic
  else
    let! inode := inode_open FREE_MAP_SECTOR in
    let! file := file_open release1 inode in
    let! _ := modify (set_free_map_file file) in
    if file =? NULL then panic
    else
      let! b := gets free_map in
      let! ok := bitmap_write allocate1 b file in
      ASSERT ok.
End FreeMap.
