(* ===== verification/FreeMapSpec.v ===== *)
(** * The free map as an allocator

    [map_inv]: the free map has one bit per sector and, while its file is open,
    the file holds the bytes of the map and its sectors are marked as used.
    [free_map_allocate] and [free_map_release] keep it, and
    [free_map_allocate] implements [SectorAllocator]. *)

From S2P Require Import Prelude Bitmap Block Cache FsState Inode InodeView InodeGrow File FreeMap.

Section FreeMapSpec.
Context {St : Type} {SS : SectorStore St} {mach : Machine}.
Implicit Types s : fs St.
Abbreviation K := (M (fs St)).

(** The free map file is open as [f], its inode is [i] with contents [d]. *)
Record map_file s (f : file) (i : inode) (d : inode_disk) : Prop := {
  mf_file : files s !! free_map_file s = Some f;
  mf_opened : opened s (f_inode f) i d;
  mf_writable : deny_write_cnt i = 0;
  mf_length : length_ d = byte_cnt (bit_cnt (free_map s));
  mf_content : content (dview s) d = words_to_bytes (bits (free_map s));
  mf_used : ∀ x, x ∈ own (dview s) (sector i) d → bit (free_map s) x = true }.

Record map_inv s : Prop := {
  mi_store : ss_inv (disk s);
  mi_memory : memory_left s;
  mi_wf : wf (free_map s);
  mi_size : bit_cnt (free_map s) = dsize s;
  mi_file : free_map_file s = NULL ∨ ∃ f i d, map_file s f i d }.

Definition map_free s (x : Z) : Prop := 0 ≤ x < dsize s ∧ bit (free_map s) x = false.
Definition map_private s (x : Z) : Prop :=
  free_map_file s ≠ NULL ∧ ∃ f i d, map_file s f i d ∧ x ∈ own (dview s) (sector i) d.

(** ** Changes outside the free map file *)

Lemma map_file_unique s f i d f' i' d' :
  map_file s f i d → map_file s f' i' d' → f = f' ∧ i = i' ∧ d = d'.
Proof.
  intros [Hf Ho _ _ _ _] [Hf' Ho' _ _ _ _]. assert (f = f') as -> by congruence.
  assert (i = i') as ->.
  { pose proof (op_inode _ _ _ _ Ho). pose proof (op_inode _ _ _ _ Ho'). congruence. }
  split; [done|]. split; [done|]. rewrite <-(opened_decode _ _ _ _ Ho). by apply opened_decode in Ho'.
Qed.

Lemma map_file_evolves s s' g f i d :
  map_file s f i d → evolves s s' g → (∀ x, x ∈ own (dview s) (sector i) d → g x = dview s x) →
  map_file s' f i d ∧ own (dview s') (sector i) d = own (dview s) (sector i) d.
Proof.
  intros [Hf Ho Hw Hl Hc Hu] Hev Hg.
  destruct (inode_ok_agree _ g _ _ _ (op_ok _ _ _ _ Ho) Hg) as (Hok & Hown & Hcont).
  pose proof Hev as [_ _ Hv Hm]. unfold memory in Hm.
  assert (files s' = files s ∧ free_map_file s' = free_map_file s ∧ free_map s' = free_map s)
    as (Ef & Eff & Em) by (split_and!; congruence).
  rewrite Hv. split; [|done]. split; rewrite ?Ef, ?Eff, ?Em, ?Hv; try done.
  - by eapply opened_evolves.
  - by rewrite Hcont.
  - by rewrite Hown.
Qed.

Lemma map_evolves s s' g :
  map_inv s → evolves s s' g → (∀ k, map_private s k → g k = dview s k) →
  map_inv s' ∧ ∀ x, (map_free s' x ↔ map_free s x) ∧ (map_private s' x ↔ map_private s x).
Proof.
  intros Hi Hev Hg. pose proof Hev as [Hinv Hs Hv Hm]. unfold memory in Hm.
  assert (free_map_file s' = free_map_file s ∧ free_map s' = free_map s) as [Eff Em]
    by (split; congruence).
  assert (∀ x, map_free s' x ↔ map_free s x) as Hfree by (intros; unfold map_free; by rewrite Hs, Em).
  assert (∀ f i d, map_file s f i d → free_map_file s ≠ NULL → map_file s' f i d ∧
    own (dview s') (sector i) d = own (dview s) (sector i) d) as Hmf.
  { intros f i d Hf Hn. eapply map_file_evolves; [done..|]. intros x Hx. apply Hg. split; [done|]. eauto. }
  destruct Hi as [? ? ? Hsz Hfile]. split.
  - split; rewrite ?Em, ?Hs, ?Eff; try done; [by eapply evolves_memory_left|].
    destruct (decide (free_map_file s = NULL)) as [|Hn]; [by left|right].
    destruct Hfile as [?|(f & i & d & Hf)]; [done|]. exists f, i, d. by apply Hmf.
  - intros x. split; [done|]. unfold map_private. rewrite Eff.
    split; intros [Hn (f & i & d & Hf & Hx)]; (split; [done|]).
    + destruct Hfile as [?|(f0 & i0 & d0 & Hf0)]; [done|]. destruct (Hmf _ _ _ Hf0 Hn) as [Hf0' Ho].
      destruct (map_file_unique _ _ _ _ _ _ _ Hf Hf0') as (-> & -> & ->).
      exists f0, i0, d0. by rewrite <-Ho.
    + destruct (Hmf _ _ _ Hf Hn) as [Hf' Ho]. exists f, i, d. by rewrite Ho.
Qed.

(** ** Writing the map *)

(** The bits of the map change and its file is written. *)
Lemma length_map_bytes (b : bitmap) :
  wf b → Z.of_nat (length (words_to_bytes (bits b))) = byte_cnt (bit_cnt b).
Proof.
  intros Hb. rewrite length_words_to_bytes, Nat2Z.inj_mul, (wf_len _ Hb).
  pose proof (wf_cnt _ Hb). rewrite byte_cnt_eq, elem_cnt_eq by done. done.
Qed.

Lemma map_write_ok allocate s f i d b :
  map_inv s → free_map_file s ≠ NULL → map_file s f i d → wf b → bit_cnt b = bit_cnt (free_map s) →
  (∀ x, x ∈ own (dview s) (sector i) d → bit b x = true) →
  ∃ s', bitmap_write allocate b (free_map_file s) (set_free_map b s) = Ok (true, s') ∧
    map_inv s' ∧ free_map s' = b ∧ objects s' = objects s ∧ dsize s' = dsize s ∧
    map_file s' f i d ∧ own (dview s') (sector i) d = own (dview s) (sector i) d ∧
    ∀ k, k ∉ own (dview s) (sector i) d → dview s' k = dview s k.
Proof.
  intros Hi Hn Hf Hb Hcnt Hused. pose proof Hf as [Hfile Ho Hw Hl Hc _].
  pose proof (io_len _ _ _ _ (op_ok _ _ _ _ Ho)) as Hlen. pose proof (length_map_bytes b Hb) as Hlb.
  unfold bitmap_write. rewrite Hcnt, <-Hl in *. rewrite swrap_id by (unfold in_s; eval_pow2; lia).
  set (s0 := set_free_map b s). assert (opened s0 (f_inode f) i d) as Ho0 by (by destruct Ho).
  destruct (write_in_place_ok allocate s0 (f_inode f) i d (words_to_bytes (bits b)) (length_ d) 0)
    as (s1 & g & E & Hev & Hdw); [done..|lia|lia|lia|lia|].
  assert (file_write_at allocate (free_map_file s) (words_to_bytes (bits b)) (length_ d) 0 s0
    = Ok (length_ d, s1)) as Ew.
  { unfold file_write_at. rewrite (bind_Ok _ _ s0 f s0); [done|]. unfold load_file.
    change (files s0) with (files s). by rewrite Hfile. }
  rewrite (bind_Ok _ _ _ _ _ Ew), Z.eqb_refl. exists s1. split; [done|].
  pose proof (dw_frame _ _ _ _ _ _ _ Hdw) as Hfr.
  pose proof Hev as [Hi1 Hs1 Hv1 Hm1]. unfold memory, s0 in Hm1. cbn in Hm1.
  assert (files s1 = files s ∧ free_map_file s1 = free_map_file s ∧ free_map s1 = b)
    as (Ef & Eff & Em) by (split_and!; congruence).
  assert (own g (sector i) d = own (dview s) (sector i) d) as Hown
    by (unfold own; by rewrite (dw_sectors _ _ _ _ _ _ _ Hdw)).
  assert (map_file s1 f i d) as Hf1.
  { split; rewrite ?Ef, ?Eff, ?Em, ?Hv1; try done.
    - eapply opened_evolves; [done..|]. apply Hdw.
    - by rewrite Hcnt.
    - rewrite (dw_content _ _ _ _ _ _ _ Hdw), take_ge by lia. change (Z.to_nat 0) with 0%nat.
      apply splice_full. rewrite (length_content (op_ok _ _ _ _ Ho0)); [lia|].
      intros; apply dview_length, Ho.
    - by rewrite Hown. }
  split_and!; try done.
  - split; rewrite ?Em, ?Hs1; try done; [apply Hf1|rewrite Hcnt; apply Hi|right; eauto].
  - unfold objects. congruence.
  - by rewrite Hv1.
  - intros k Hk. rewrite Hv1. apply Hfr. intros ?. apply Hk. unfold own.
    rewrite elem_of_cons, elem_of_app. tauto.
Qed.

(** ** Allocating *)

Lemma group_one b k v : group b k 1 v ↔ bit b k = v.
Proof.
  split.
  - intros H. apply H. lia.
  - intros H j Hj. by replace j with k by lia.
Qed.

Lemma take_one_ok b :
  wf b →
  ∃ idx b', bitmap_scan_and_flip b 0 1 false = Ok (idx, b') ∧ wf b' ∧ bit_cnt b' = bit_cnt b ∧
    ((idx = BITMAP_ERROR ∧ b' = b ∧ ∀ k, 0 ≤ k < bit_cnt b → bit b k = true) ∨
     (0 ≤ idx < bit_cnt b ∧ idx ≠ BITMAP_ERROR ∧ bit b idx = false ∧
      ∀ j, 0 ≤ j → bit b' j = if decide (j = idx) then true else bit b j)).
Proof.
  intros Hwf. pose proof (wf_cnt _ Hwf).
  destruct (bitmap_scan_ok b 0 1 false) as (idx & E & Hfit); [done|lia..|].
  unfold bitmap_scan_and_flip. rewrite E. cbn [obind].
  destruct (Z.eqb_spec idx BITMAP_ERROR) as [->|Hne].
  - eexists _, _. split; [done|]. split; [done|]. split; [done|]. left. split; [done|]. split; [done|].
    destruct Hfit as [[_ Hnone]|?]; [|unfold BITMAP_ERROR in *; lia].
    intros k Hk. specialize (Hnone k). rewrite group_one in Hnone.
    destruct (bit b k); [done|]. exfalso. apply Hnone; [lia..|done].
  - destruct Hfit as [[? _]|(? & ? & Hg & _)]; [done|].
    destruct (bitmap_set_multiple_ok b idx 1 (negb false)) as (b' & -> & Hwf' & Hc & Hb); [done|lia..|].
    eexists _, _. split; [done|]. split; [done|]. split; [done|]. right.
    apply group_one in Hg. split_and!; [lia..|done|done|]. intros j Hj. rewrite Hb by done.
    case_decide as Hd; [|case_bool_decide as Hb'; [lia|done]]. by rewrite bool_decide_eq_true_2 by lia.
Qed.

Lemma map_private_used s x : map_inv s → map_private s x → ¬ map_free s x.
Proof. intros Hi [_ (f & i & d & Hf & Hx)] [_ Hb]. by rewrite (mf_used _ _ _ _ Hf) in Hb. Qed.

Lemma own_nonneg s f i d x : map_file s f i d → x ∈ own (dview s) (sector i) d → 0 ≤ x < dsize s.
Proof.
  intros Hf Hx. pose proof (io_range _ _ _ _ (op_ok _ _ _ _ (mf_opened _ _ _ _ Hf))) as Hr.
  rewrite list.Forall_forall in Hr. by apply Hr.
Qed.

(** The state after the bits changed, the file written if it is open. *)
Lemma map_update_ok allocate s b :
  map_inv s → wf b → bit_cnt b = bit_cnt (free_map s) → (∀ x, map_private s x → bit b x = true) →
  ∃ s', (if negb (free_map_file s =? NULL) then bitmap_write allocate b (free_map_file s)
         else ret true) (set_free_map b s) = Ok (true, s') ∧
    map_inv s' ∧ free_map s' = b ∧ objects s' = objects s ∧ dsize s' = dsize s ∧
    (∀ k, map_private s' k ↔ map_private s k) ∧ ∀ k, ¬ map_private s k → dview s' k = dview s k.
Proof.
  intros Hi Hb Hcnt Hu. destruct (Z.eqb_spec (free_map_file s) NULL) as [Hn|Hn]; cbn [negb].
  - exists (set_free_map b s). split; [done|]. destruct Hi as [? ? ? ? _]. split_and!; try done.
    + split; cbn; try done; [by rewrite Hcnt|by left].
    + intros k. unfold map_private. cbn. split; by intros [? _].
  - destruct (mi_file _ Hi) as [?|(f & i & d & Hf)]; [done|].
    destruct (map_write_ok allocate s f i d b) as (s' & E & Hi' & Em & Eo & Es & Hf' & Hown & Hfr);
      [done..| |].
    { intros x Hx. apply Hu. split; [done|]. eauto. }
    assert (free_map_file s' = free_map_file s) as Eff by (unfold objects in Eo; congruence).
    exists s'. split; [done|]. split_and!; try done.
    + intros k. unfold map_private. rewrite Eff. split; intros [_ (f0 & i0 & d0 & Hf0 & Hk)]; (split; [done|]).
      * destruct (map_file_unique _ _ _ _ _ _ _ Hf0 Hf') as (-> & -> & ->). exists f, i, d. by rewrite <-Hown.
      * destruct (map_file_unique _ _ _ _ _ _ _ Hf0 Hf) as (-> & -> & ->). exists f, i, d. by rewrite Hown.
    + intros k Hk. apply Hfr. intros Hx. apply Hk. split; [done|]. eauto.
Qed.

Lemma map_allocate_ok depth s :
  map_inv s →
  ∃ r s', free_map_allocate (S depth) 1 s = Ok (r, s') ∧ map_inv s' ∧
    objects s' = objects s ∧ dsize s' = dsize s ∧
    (∀ k, ¬ map_private s k → dview s' k = dview s k) ∧
    (∀ k, map_private s' k ↔ map_private s k) ∧
    match r with
    | Some x => map_free s x ∧ ∀ y, map_free s' y ↔ map_free s y ∧ y ≠ x
    | None => ∀ y, ¬ map_free s y ∧ ¬ map_free s' y
    end.
Proof.
  intros Hi. cbn [free_map_allocate]. rewrite (bind_Ok _ _ s (free_map s) s) by done.
  destruct (take_one_ok (free_map s) (mi_wf _ Hi)) as (idx & b & E & Hb & Hcnt & Hcase).
  rewrite (bind_Ok _ _ s (idx, b) s) by (unfold lift; by rewrite E).
  rewrite (bind_Ok _ _ s tt (set_free_map b s)) by done.
  rewrite (bind_Ok _ _ _ (free_map_file s) (set_free_map b s)) by done.
  pose proof (mi_size _ Hi) as Hsz. destruct Hcase as [(-> & -> & Hfull)|(Hr & Hne & Hbit & Hnew)].
  - rewrite Z.eqb_refl. cbn [negb andb]. rewrite (bind_Ok _ _ _ true (set_free_map (free_map s) s)) by done.
    assert (set_free_map (free_map s) s = s) as -> by (by destruct s).
    exists None, s. split_and!; try done. intros y.
    assert (¬ map_free s y) as Hno; [|done]. intros [Hy Hf]. rewrite Hfull in Hf; [done|]. lia.
  - rewrite (proj2 (Z.eqb_neq _ _)) by done. cbn [negb andb].
    destruct (map_update_ok (free_map_allocate depth 1) s b) as (s' & E2 & Hi' & Em & Eo & Es & Hp & Hfr); [done..| |].
    { intros x Hx. pose proof (map_private_used _ _ Hi Hx) as Hnf.
      destruct Hx as [_ (f & i & d & Hf & Hx)]. pose proof (own_nonneg _ _ _ _ _ Hf Hx).
      rewrite Hnew by lia. case_decide; [done|]. by apply (mf_used _ _ _ _ Hf). }
    rewrite (bind_Ok _ _ _ _ _ E2). exists (Some idx), s'. split_and!; try done; [split; [lia|done]|].
    intros y. unfold map_free. rewrite Em, Es. split.
    + intros [Hy Hf]. rewrite Hnew in Hf by lia. by case_decide.
    + intros [[Hy Hf] Hny]. rewrite Hnew by lia. by rewrite decide_False.
Qed.

(** On a full disk nothing happens. *)
Lemma map_allocate_full depth s :
  map_inv s → (∀ x, ¬ map_free s x) → free_map_allocate (S depth) 1 s = Ok (None, s).
Proof.
  intros Hi Hfull. cbn [free_map_allocate]. rewrite (bind_Ok _ _ s (free_map s) s) by done.
  destruct (take_one_ok (free_map s) (mi_wf _ Hi)) as (idx & b & E & _ & _ & Hcase).
  destruct Hcase as [(-> & -> & _)|(Hr & _ & Hbit & _)].
  - rewrite (bind_Ok _ _ s (BITMAP_ERROR, free_map s) s) by (unfold lift; by rewrite E).
    rewrite (bind_Ok _ _ s tt (set_free_map (free_map s) s)) by done. by destruct s.
  - exfalso. apply (Hfull idx). split; [|done]. by rewrite <-(mi_size _ Hi).
Qed.

#[export] Program Instance free_map_allocator : SectorAllocator (allocate1 (St := St)) := {|
  al_inv := map_inv;
  al_free := map_free;
  al_private := map_private;
  al_store s Hi := conj (mi_store _ Hi) (mi_memory _ Hi);
  al_range s x _ Hx := proj1 Hx;
  al_private_used := map_private_used;
  al_evolves := map_evolves;
  al_allocate := map_allocate_ok 1 |}.

(** ** Releasing *)

Lemma map_release_ok depth s x :
  map_inv s → free_map_file s ≠ NULL → 0 ≤ x < dsize s → bit (free_map s) x = true → ¬ map_private s x →
  ∃ s', free_map_release depth x 1 s = Ok (tt, s') ∧ map_inv s' ∧
    objects s' = objects s ∧ dsize s' = dsize s ∧
    (∀ k, map_private s' k ↔ map_private s k) ∧
    (∀ k, ¬ map_private s k → dview s' k = dview s k) ∧
    ∀ y, map_free s' y ↔ map_free s y ∨ y = x.
Proof.
  intros Hi Hn Hx Hbit Hpriv. unfold free_map_release. pose proof (mi_size _ Hi) as Hsz.
  rewrite (bind_Ok _ _ s (free_map s) s) by done.
  destruct (bitmap_all_ok (free_map s) x 1 (mi_wf _ Hi)) as (r & E & Hr); [lia..|].
  rewrite (bind_Ok _ _ s r s) by (unfold lift; by rewrite E).
  assert (r = true) as -> by (by apply Hr, group_one).
  rewrite (bind_Ok _ _ s tt s) by done.
  destruct (bitmap_set_multiple_ok (free_map s) x 1 false (mi_wf _ Hi)) as (b & E2 & Hb & Hc & Hset); [lia..|].
  rewrite (bind_Ok _ _ s b s) by (unfold lift; by rewrite E2).
  rewrite (bind_Ok _ _ s tt (set_free_map b s)) by done.
  rewrite (bind_Ok _ _ _ (free_map_file s) (set_free_map b s)) by done.
  destruct (map_update_ok (free_map_allocate depth 1) s b) as (s' & E3 & Hi' & Em & Eo & Es & Hp & Hfr); [done..| |].
  { intros y Hy. pose proof Hy as [_ (f & i & d & Hf & Hy')]. pose proof (own_nonneg _ _ _ _ _ Hf Hy').
    rewrite Hset by lia. rewrite bool_decide_eq_false_2.
    - by apply (mf_used _ _ _ _ Hf).
    - intros ?. apply Hpriv. by replace x with y by lia. }
  rewrite (proj2 (Z.eqb_neq _ _)) in E3 by done. cbn [negb] in E3. rewrite (bind_Ok _ _ _ _ _ E3).
  exists s'. split_and!; try done. intros y. unfold map_free. rewrite Em, Es. split.
  - intros [Hy Hf]. rewrite Hset in Hf by lia. case_bool_decide; [right; lia|by left].
  - intros [[Hy Hf]| ->].
    + split; [done|]. rewrite Hset by lia. by case_bool_decide.
    + split; [done|]. rewrite Hset by lia. by rewrite bool_decide_eq_true_2 by lia.
Qed.

(** Releasing a sector that is already free stops the kernel. *)
Lemma map_release_free depth s x :
  map_inv s → map_free s x → free_map_release depth x 1 s = Panic.
Proof.
  intros Hi [Hx Hbit]. unfold free_map_release. pose proof (mi_size _ Hi) as Hsz.
  rewrite (bind_Ok _ _ s (free_map s) s) by done.
  destruct (bitmap_all_ok (free_map s) x 1 (mi_wf _ Hi)) as (r & E & Hr); [lia..|].
  rewrite (bind_Ok _ _ s r s) by (unfold lift; by rewrite E).
  destruct r; [|done]. assert (bit (free_map s) x = true) by (by apply group_one, Hr). congruence.
Qed.
End FreeMapSpec.
