(* ===== verification/FileSpec.v ===== *)
(** * Reading and writing files on the cached disk

    The theorems on [inode_read_at], [inode_write_at] and the [file_*]
    functions, for the file system as it is built: over the buffer cache and
    with the free map as the allocator. *)

From S2P Require Import Prelude Bitmap Block Cache FsState Inode InodeView InodeGrow File FreeMap FreeMapSpec.

Section FileSpec.
Context {mach : Machine}.
Implicit Types s : fs store.

(** [p] is an open inode [i] of a file whose on-disk inode is [d], in a file
    system whose free map is consistent. *)
Record file_ok s (p : Z) (i : inode) (d : inode_disk) : Prop := {
  fo_map : map_inv s;
  fo_opened : opened s p i d;
  fo_tail : zero_tail (dview s) d;
  fo_sectors : file_sectors s (sector i) d;
  fo_sector : sector i ≤ 20000000 }.

(** The disk has room for the file to grow to [len] bytes. *)
Definition room s (d : inode_disk) (len : Z) : Prop := has_free s (sectors_needed (length_ d) len).

Lemma inode_read_at_ok s p i d buf size off :
  opened s p i d → sector i ≤ 20000000 → 0 ≤ off < length_ d → 0 ≤ size →
  size ≤ Z.of_nat (length buf) →
  let n := size `min` (length_ d - off) in
  ∃ s', inode_read_at p buf size off s
        = Ok ((n, splice 0 (take (Z.to_nat n) (drop (Z.to_nat off) (content (dview s) d))) buf), s') ∧
        evolves s s' (dview s).
Proof.
  intros H Hsec Hoff Hsize Hbuf n. unfold inode_read_at.
  rewrite (bind_Ok _ _ _ _ _ (load_inode_ok _ _ _ (op_inode _ _ _ _ H))).
  rewrite (proj2 (Z.ltb_ge _ _)) by done.
  destruct (read_inode_ok _ _ _ _ H) as (data & s1 & E1 & Hd & Hev1 & H1).
  rewrite (bind_Ok _ _ _ _ _ E1), Hd, (proj2 (Z.leb_gt _ _)) by lia.
  rewrite (bind_Ok _ _ s1 buf s1) by done. pose proof (io_len _ _ _ _ (op_ok _ _ _ _ H)).
  destruct (read_loop_ok (Z.to_nat size) s1 p i d buf size off 0) as (s2 & E2 & Hev2);
    [done|eval_pow2; lia|lia..|].
  rewrite E2, (ev_view _ _ _ Hev1) in *. exists s2. split; [|by eapply evolves_trans].
  replace (0 `max` (size `min` (length_ d - off))) with n by lia. done.
Qed.

Lemma read_zeros_ok (buf : list Z) size :
  0 ≤ size ≤ 512 → size ≤ Z.of_nat (length buf) →
  ∃ buf', (let? z := slice zeros 0 size in memcpy_at buf 0 z) = Ok buf' ∧
    buf' = replicate (Z.to_nat size) 0 ++ drop (Z.to_nat size) buf.
Proof.
  intros Hs Hb. rewrite slice_ok by (change (length zeros) with 512%nat; lia). cbn [obind].
  change (Z.to_nat 0) with 0%nat. rewrite drop_0. unfold zeros. rewrite take_replicate, Nat.min_l by lia.
  rewrite memcpy_at_ok by (rewrite ?length_replicate; lia). eexists. split; [done|].
  unfold splice. cbn [take app]. by rewrite length_replicate.
Qed.

(** At the end of the file: nothing is read and the buffer is cleared. *)
Lemma inode_read_at_past s p i d buf size off :
  opened s p i d → sector i ≤ 20000000 → length_ d ≤ off < 2 ^ 31 → 0 ≤ size ≤ 512 →
  size ≤ Z.of_nat (length buf) →
  ∃ s', inode_read_at p buf size off s
        = Ok ((0, replicate (Z.to_nat size) 0 ++ drop (Z.to_nat size) buf), s') ∧
        evolves s s' (dview s).
Proof.
  intros H Hsec Hoff Hsize Hbuf. pose proof (io_len _ _ _ _ (op_ok _ _ _ _ H)).
  unfold inode_read_at. rewrite (bind_Ok _ _ _ _ _ (load_inode_ok _ _ _ (op_inode _ _ _ _ H))).
  rewrite (proj2 (Z.ltb_ge _ _)) by done.
  destruct (read_inode_ok _ _ _ _ H) as (data & s1 & E1 & Hd & Hev1 & H1).
  rewrite (bind_Ok _ _ _ _ _ E1), Hd, (proj2 (Z.leb_le _ _)) by lia.
  destruct (read_zeros_ok buf size) as (buf' & Eb & Hb'); [lia..|].
  apply obind_inv in Eb as (z & Ez & Eb). rewrite (bind_Ok _ _ s1 buf' s1).
  2:{ rewrite (bind_Ok _ _ s1 z s1) by (unfold lift; by rewrite Ez). unfold lift. by rewrite Eb. }
  assert (length buf' = length buf) as Hl
    by (rewrite Hb', length_app, length_replicate, length_drop; lia).
  destruct (read_loop_ok (Z.to_nat size) s1 p i d buf' size off 0) as (s2 & E2 & Hev2); [done|lia..|].
  exists s2. rewrite E2. replace (0 `max` _) with 0 by lia. rewrite splice_none, Hb'.
  split; [done|]. rewrite (ev_view _ _ _ Hev1) in Hev2. by eapply evolves_trans.
Qed.

Lemma file_ok_quiet s s' p i d :
  file_ok s p i d → evolves s s' (dview s) → file_ok s' p i d.
Proof.
  intros [Hm Ho Hz Hf ?] Hev. destruct (map_evolves _ _ _ Hm Hev) as [Hm' Hi]; [done|].
  split; [done|by eapply opened_quiet|by rewrite (ev_view _ _ _ Hev)| |done].
  intros x. rewrite (ev_view _ _ _ Hev). intros [? ?]%Hf. cbn in *. destruct (Hi x). tauto.
Qed.

(** Open directories are not looked at. *)
Lemma map_file_dirs s m f i d : map_file s f i d → map_file (set_dirs m s) f i d.
Proof. intros [? Ho ? ? ? ?]. split; try done. by destruct Ho. Qed.

Lemma file_ok_dirs s m p i d : file_ok s p i d → file_ok (set_dirs m s) p i d.
Proof.
  intros [Hm Ho Hz Hs ?]. assert (∀ x, map_private (set_dirs m s) x → map_private s x) as Hp.
  { intros x [Hn (f & j & e & Hf & Hx)]. split; [done|]. exists f, j, e. split; [|done].
    apply (map_file_dirs _ (dirs s)) in Hf. by destruct s. }
  split; [|by destruct Ho|done| |done].
  - destruct Hm as [? ? ? ? Hf]. split; try done.
    destruct Hf as [?|(f & j & e & Hf)]; [by left|right]. exists f, j, e. by apply map_file_dirs.
  - intros x [Hx1 Hx2]%Hs. split; [|done]. intros ?%Hp. done.
Qed.

Lemma file_write_ok s p i d data off :
  machine_ok → file_ok s p i d → deny_write_cnt i = 0 → 0 ≤ off →
  off + Z.of_nat (length data) ≤ (124 + 128) * 512 → room s d (off + Z.of_nat (length data)) →
  ∃ s' d', inode_write_at allocate1 p data (Z.of_nat (length data)) off s
             = Ok (Z.of_nat (length data), s') ∧
    file_ok s' p i d' ∧ length_ d' = length_ d `max` (off + Z.of_nat (length data)) ∧
    content (dview s') d' = written (content (dview s) d) data (Z.to_nat off) ∧
    preserved s s' (sector i) d ∧ leaves s s' d d'.
Proof.
  intros Hm [Hi Ho Hz Hf Hs] Hd Hoff Hend Hroom.
  destruct (inode_write_at_ok s p i d data (Z.of_nat (length data)) off)
    as (s' & d' & E & Hl & Ho' & Hz' & Hc & Hp & Hf' & _ & Hlv); [done..|lia|lia|lia|done|].
  exists s', d'. rewrite Nat2Z.id, take_ge in Hc by lia.
  split; [done|]. split; [split; try done; apply Hp|done].
Qed.

Lemma lookup_written old data off k :
  written old data off !! k =
    if decide (off ≤ k < off + length data)%nat then data !! (k - off)%nat
    else if decide (k < length old)%nat then old !! k
    else if decide (k < off)%nat then Some 0 else None.
Proof.
  unfold written. rewrite lookup_splice by (rewrite length_app, length_replicate; lia).
  case_decide; [done|]. case_decide.
  - by rewrite lookup_app_l.
  - rewrite lookup_app_r by lia. case_decide.
    + rewrite lookup_replicate_2; [done|]. lia.
    + apply lookup_ge_None. rewrite length_replicate. lia.
Qed.

Lemma length_written old data off :
  length (written old data off) = (length old `max` (off + length data))%nat.
Proof.
  unfold written. rewrite length_splice; rewrite length_app, length_replicate; lia.
Qed.

Lemma slice_written old data off :
  take (length data) (drop off (written old data off)) = data.
Proof.
  apply list_eq. intros k. destruct (decide (k < length data)%nat).
  - rewrite lookup_take_lt, lookup_drop, lookup_written, decide_True by lia. f_equal. lia.
  - rewrite lookup_take_ge, lookup_ge_None_2 by lia. done.
Qed.

(** Reading a range of a file stores in the caller's buffer exactly the
    bytes of the file in that range, cut off at the end of the file, and
    returns their number; the disk as seen through the cache does not change. *)
Theorem inode_read_at_correct s p i d buf size off :
  file_ok s p i d → 0 ≤ off < length_ d → 0 ≤ size → size ≤ Z.of_nat (length buf) →
  let n := size `min` (length_ d - off) in
  ∃ s', inode_read_at p buf size off s
        = Ok ((n, take (Z.to_nat n) (drop (Z.to_nat off) (content (dview s) d))
                  ++ drop (Z.to_nat n) buf), s') ∧
        file_ok s' p i d ∧ dview s' = dview s.
Proof.
  intros H Hoff Hsize Hbuf n. pose proof H as [_ Ho _ _ Hsec].
  destruct (inode_read_at_ok s p i d buf size off) as (s' & E & Hev); [done..|].
  exists s'. rewrite E. split; [|split; [by eapply file_ok_quiet|apply Hev]].
  do 3 f_equal. set (got := take (Z.to_nat n) _).
  assert (length got = Z.to_nat n) as Hgot.
  { subst got. rewrite length_take, length_drop, (length_content (op_ok _ _ _ _ Ho)); [lia|].
    intros; apply dview_length, Ho. }
  change (got ++ drop (length got) buf = got ++ drop (Z.to_nat n) buf). by rewrite Hgot.
Qed.

(** A write anywhere in the first 252 sectors of a file, past its end
    included, succeeds when the disk has room: the file becomes as long as the
    write reaches, has the new bytes at the offset, zeros between its old end
    and the offset, and its old bytes everywhere else. *)
Theorem inode_write_at_grows s p i d data off :
  machine_ok → file_ok s p i d → deny_write_cnt i = 0 → 0 ≤ off →
  off + Z.of_nat (length data) ≤ (124 + 128) * 512 → room s d (off + Z.of_nat (length data)) →
  ∃ s' d', inode_write_at allocate1 p data (Z.of_nat (length data)) off s
             = Ok (Z.of_nat (length data), s') ∧ file_ok s' p i d' ∧
    length_ d' = length_ d `max` (off + Z.of_nat (length data)) ∧
    ∀ k, content (dview s') d' !! k =
      if decide (Z.to_nat off ≤ k < Z.to_nat off + length data)%nat then data !! (k - Z.to_nat off)%nat
      else if decide (k < Z.to_nat (length_ d))%nat then content (dview s) d !! k
      else if decide (k < Z.to_nat off)%nat then Some 0 else None.
Proof.
  intros Hm H Hd Hoff Hend Hroom.
  destruct (file_write_ok s p i d data off) as (s' & d' & E & H' & Hl & Hc & _); [done..|].
  exists s', d'. split; [done|]. split; [done|]. split; [done|]. intros k. rewrite Hc, lookup_written.
  rewrite (length_content (op_ok _ _ _ _ (fo_opened _ _ _ _ H))); [done|].
  intros; apply dview_length, H.
Qed.


End FileSpec.

(** ** Concrete file systems

    A disk with given contents and an empty cache, the free map open as file 4
    of inode 1.  The hypotheses of the theorems are checked by computation. *)

#[export] Instance sample_machine : Machine := {|
  stack_words := replicate 128 0xcccccccc;
  heap_words n := replicate (Z.to_nat n) 0xcccccccc;
  addr_indirect := 0xc000e1f0;
  addr_doubly_indirect := 0xc000e1f4;
  addr_zeros := 0xc0035a20 |}.

Lemma sample_machine_ok : machine_ok.
Proof. split; [done|]. apply Forall_replicate. split; vm_compute; done. Qed.

Definition sample_store (contents : Z → sector_data) (size : Z) : store :=
  cache_init (mk_store (mk_block BLOCK_FILESYS size contents 0 0)
    (mk_cache 0 (replicate 32 (mk_entry 0 0 false zeros)))).

Definition sample_fs (contents : Z → sector_data) (map : bitmap) (opened : gmap Z inode) : fs store :=
  mk_fs (sample_store contents (bit_cnt map)) (<[1 := mk_inode 0 1 false 0]> opened)
    [3; 2; 1] {[ 4 := mk_file 1 0 false ]} ∅ map 4 (λ _, true) 4.

Definition word_ok (x : Z) : bool := bool_decide (0 ≤ x < 4294967296).
Definition sample_inode_ok (g : disk_view) (size n : Z) (d : inode_disk) : bool :=
  bool_decide (g n = encode_inode d) && bool_decide (length (direct d) = 124%nat) &&
  forallb word_ok (direct d) && word_ok (indirect d) && word_ok (doubly_indirect d) &&
  bool_decide (0 ≤ length_ d ≤ (124 + 128) * 512) && word_ok (magic d) &&
  forallb (λ x, bool_decide (0 ≤ x < size)) (own g n d) && bool_decide (NoDup (own g n d)).

Lemma forallb_Forall_1 {A} (P : A → Prop) (b : A → bool) l :
  (∀ x, b x = true → P x) → forallb b l = true → Forall P l.
Proof.
  intros H. induction l as [|x l IH]; cbn; [by constructor|].
  intros [??]%andb_true_iff. constructor; auto.
Qed.

Lemma word_ok_u32 x : word_ok x = true → in_u 32 x.
Proof. intros ?%bool_decide_eq_true. unfold in_u. eval_pow2. lia. Qed.

Lemma sample_inode_ok_sound g size n d : sample_inode_ok g size n d = true → inode_ok g size n d.
Proof.
  unfold sample_inode_ok. rewrite !andb_true_iff, !bool_decide_eq_true.
  intros ((((((((? & ?) & Hd) & ?) & ?) & ?) & ?) & Hr) & ?).
  split; try done.
  - split; [|by apply word_ok_u32|by apply word_ok_u32| |by apply word_ok_u32].
    + split; [done|]. eapply forallb_Forall_1; [apply word_ok_u32|done].
    + unfold in_s. eval_pow2. lia.
  - eapply forallb_Forall_1; [|done]. intros x. apply bool_decide_eq_true.
Qed.

Definition sample_map_ok (g : disk_view) (m : bitmap) (d : inode_disk) : bool :=
  bool_decide (0 ≤ bit_cnt m < 4294967264) && bool_decide (Z.of_nat (length (bits m)) = elem_cnt (bit_cnt m)) &&
  forallb word_ok (bits m) && sample_inode_ok g (bit_cnt m) 0 d &&
  bool_decide (length_ d = byte_cnt (bit_cnt m)) &&
  bool_decide (content g d = words_to_bytes (bits m)) && forallb (bit m) (own g 0 d).

Section Sample.
Context (contents : Z → sector_data) (Hlen : ∀ n, length (contents n) = 512%nat).
Context (map : bitmap) (dm : inode_disk) (objs : gmap Z inode).
Context (Hmap : sample_map_ok contents map dm = true).
Abbreviation s := (sample_fs contents map objs).

Lemma sample_store_inv : ss_inv (disk s).
Proof.
  unfold sample_map_ok in Hmap. rewrite !andb_true_iff, !bool_decide_eq_true in Hmap.
  apply cache_init_inv; [|done]. split; cbn; [done| |done]. unfold in_u. eval_pow2. lia.
Qed.

Lemma sample_opened p i d :
  p ≠ NULL → inodes s !! p = Some i → sample_inode_ok contents (bit_cnt map) (sector i) d = true →
  opened s p i d.
Proof.
  intros Hp Hi Hok. split; [apply sample_store_inv|done|done|done|].
  by apply sample_inode_ok_sound.
Qed.

Lemma sample_map_file : map_file s (mk_file 1 0 false) (mk_inode 0 1 false 0) dm.
Proof.
  pose proof Hmap as Hm. unfold sample_map_ok in Hm. rewrite !andb_true_iff, !bool_decide_eq_true in Hm.
  destruct Hm as ((((((? & ?) & ?) & Hok) & ?) & ?) & Hu).
  split; [done|apply sample_opened; [done|apply lookup_insert_eq|done]|done..|].
  intros x Hx. eapply (forallb_Forall_1 (λ x, bit map x = true)) in Hu; [|done].
  rewrite list.Forall_forall in Hu. by apply Hu.
Qed.

Lemma sample_map_inv : map_inv s.
Proof.
  split; [apply sample_store_inv|done| |done|right; eexists _, _, _; apply sample_map_file].
  unfold sample_map_ok in Hmap. rewrite !andb_true_iff, !bool_decide_eq_true in Hmap.
  change (free_map s) with map. split; [eval_pow2; lia|tauto|].
  eapply forallb_Forall_1; [apply word_ok_u32|tauto].
Qed.

(** The file at [p], with [m] zero bytes behind its end. *)
Lemma sample_file_ok p i d m :
  p ≠ NULL → inodes s !! p = Some i → sector i ≤ 20000000 →
  sample_inode_ok contents (bit_cnt map) (sector i) d = true →
  bool_decide (concat (contents <$> sectors contents d) = content contents d ++ replicate m 0) = true →
  forallb (λ x, bool_decide (x ∉ own contents 0 dm) && bit map x) (own contents (sector i) d) = true →
  file_ok s p i d.
Proof.
  intros Hp Hi Hs Hok Hz%bool_decide_eq_true Hsec.
  split; [apply sample_map_inv|by apply sample_opened|by exists m| |done].
  intros x Hx. eapply (forallb_Forall_1 (λ x, (x ∉ own contents 0 dm) ∧ bit map x = true)) in Hsec.
  - rewrite list.Forall_forall in Hsec. destruct (Hsec x Hx) as (Hno & Hb). split.
    + intros [_ (f & j & e & Hf & Hx')].
      by destruct (map_file_unique _ _ _ _ _ _ _ Hf sample_map_file) as (-> & -> & ->).
    + intros [_ Hf]. change (free_map s) with map in Hf. congruence.
  - intros y. rewrite !andb_true_iff, bool_decide_eq_true. tauto.
Qed.
End Sample.

(** A disk of 64 sectors: the free map at 0 with its bytes in 2, a file of 600
    bytes at 5 in the sectors 6 and 7, a file of 10 bytes at 8 in 9. *)
Definition sample_inode (blocks : list Z) (len : Z) : inode_disk :=
  mk_inode_disk (blocks ++ replicate (124 - length blocks) 0) 0 0 len INODE_MAGIC.
Definition map_inode : inode_disk := sample_inode [2] 8.
Definition inode_a : inode_disk := sample_inode [6; 7] 600.
Definition inode_b : inode_disk := sample_inode [9] 10.

Definition sample_map : bitmap := mk_bitmap 64 [0x3e7; 0].

Definition sample_disk (n : Z) : sector_data :=
  if n =? 0 then encode_inode map_inode
  else if n =? 2 then words_to_bytes (bits sample_map) ++ replicate 504 0
  else if n =? 5 then encode_inode inode_a
  else if n =? 6 then replicate 512 1
  else if n =? 7 then replicate 88 2 ++ replicate 424 0
  else if n =? 8 then encode_inode inode_b
  else if n =? 9 then replicate 10 3 ++ replicate 502 0
  else zeros.

Definition sample : fs store :=
  sample_fs sample_disk sample_map {[ 2 := mk_inode 5 1 false 0; 3 := mk_inode 8 1 false 0 ]}.

Lemma sample_disk_length n : length (sample_disk n) = 512%nat.
Proof. unfold sample_disk. repeat case_match; vm_compute; done. Qed.

Lemma sample_a_ok : file_ok sample 2 (mk_inode 5 1 false 0) inode_a.
Proof. by apply (sample_file_ok _ sample_disk_length _ map_inode) with 424%nat; vm_compute. Qed.
Lemma sample_b_ok : file_ok sample 3 (mk_inode 8 1 false 0) inode_b.
Proof. by apply (sample_file_ok _ sample_disk_length _ map_inode) with 502%nat; vm_compute. Qed.

(** The sectors from 10 on are free. *)
Lemma sample_room d len : (sectors_needed (length_ d) len ≤ 54)%nat → room sample d len.
Proof.
  intros H. apply has_free_mono with 54%nat; [|done]. exists (seqZ 10 54). split_and!.
  - apply NoDup_seqZ.
  - done.
  - intros x [? ?]%elem_of_seqZ. split; [cbn; lia|].
    assert (Forall (λ x, bit sample_map x = false) (seqZ 10 54)) as Hb
      by (repeat (constructor; [by vm_compute|]); constructor).
    rewrite list.Forall_forall in Hb. apply Hb, elem_of_seqZ. lia.
Qed.

Lemma inode_read_at_correct_witness :
  ∃ s', inode_read_at 2 (replicate 100 9) 100 550 sample
    = Ok ((50, take 50 (drop 550 (content (dview sample) inode_a)) ++ drop 50 (replicate 100 9)), s') ∧
    file_ok s' 2 (mk_inode 5 1 false 0) inode_a ∧ dview s' = dview sample.
Proof. apply (inode_read_at_correct sample 2 (mk_inode 5 1 false 0) inode_a); [apply sample_a_ok|cbn; lia..]. Defined.

(** The range lies past the end of the file: two sectors are added. *)
Lemma inode_write_at_grows_witness :
  ∃ s' d', inode_write_at allocate1 2 (replicate 100 9) 100 2000 sample = Ok (100, s') ∧
    file_ok s' 2 (mk_inode 5 1 false 0) d' ∧ length_ d' = 2100 ∧
    ∀ k, content (dview s') d' !! k =
      if decide (2000 ≤ k < 2100)%nat then replicate 100 9 !! (k - 2000)%nat
      else if decide (k < 600)%nat then content (dview sample) inode_a !! k
      else if decide (k < 2000)%nat then Some 0 else None.
Proof.
  apply (inode_write_at_grows sample 2 (mk_inode 5 1 false 0) inode_a (replicate 100 9) 2000);
    [apply sample_machine_ok|apply sample_a_ok|done|lia|cbn; lia|]. apply sample_room. vm_compute. lia.
Defined.


