(* ===== verification/InodeLimits.v ===== *)
(** * The edges of the inode layer

    What happens at the end of a file, past the indirect block, on a full disk
    and when a removed file is closed for the last time. *)

From S2P Require Import Prelude Bitmap Block Cache FsState Inode InodeView InodeGrow File FreeMap FreeMapSpec FileSpec.

Section Limits.
Context {mach : Machine}.
Implicit Types s : fs store.

(** ** The end of the file *)

(** At or past the end of a file [inode_read_at] reads nothing and returns
    0; it clears the first [size] bytes of the caller's buffer when [size] is
    at most a sector.  A larger request copies bytes from behind the
    512-byte array of zeros into the caller's buffer. *)
Theorem inode_read_at_eof s p i d buf size off :
  file_ok s p i d → length_ d ≤ off < 2 ^ 31 → 0 ≤ size → size ≤ Z.of_nat (length buf) →
  if decide (size ≤ 512) then
    ∃ s', inode_read_at p buf size off s
          = Ok ((0, replicate (Z.to_nat size) 0 ++ drop (Z.to_nat size) buf), s') ∧
          dview s' = dview s
  else inode_read_at p buf size off s = Undef.
Proof.
  intros [_ H _ _ Hsec] Hoff Hsize Hbuf. case_decide as Hs.
  { destruct (inode_read_at_past s p i d buf size off) as (s' & E & Hev); [done..|].
    exists s'. split; [done|apply Hev]. }
  unfold inode_read_at. rewrite (bind_Ok _ _ _ _ _ (load_inode_ok _ _ _ (op_inode _ _ _ _ H))).
  rewrite (proj2 (Z.ltb_ge _ _)) by done.
  destruct (read_inode_ok _ _ _ _ H) as (data & s1 & E1 & Hd & _).
  rewrite (bind_Ok _ _ _ _ _ E1), Hd, (proj2 (Z.leb_le _ _)) by lia.
  unfold bind, lift, slice. change (length zeros) with 512%nat.
  rewrite (proj2 (Z.leb_gt (0 + size) _)) by lia. by rewrite andb_false_r.
Qed.

(** ** Past the indirect block *)

Lemma get_word_past l j : Z.of_nat (length l) ≤ j → get_word l j = Undef.
Proof.
  intros H. unfold get_word. case_match; [|done]. by rewrite lookup_ge_None_2 by lia.
Qed.

Lemma read_sector_past s n j : 128 ≤ j → ∀ x s', read_sector n j s ≠ Ok (x, s').
Proof.
  intros Hj x s' E. unfold read_sector in E.
  apply bind_inv in E as (? & ? & _ & E). apply bind_inv in E as (? & ? & _ & E).
  apply bind_inv in E as (? & ? & _ & E). unfold lift in E.
  rewrite get_word_past in E; [done|]. by rewrite length_bytes_to_words.
Qed.

(** No sector past the direct and the indirect ones can be found: for an
    offset of 252 sectors or more [byte_to_sector] either answers that it is
    past the end of the file or does not return, because the index it uses in
    the inner block is never below 128. *)
Theorem byte_to_sector_doubly s p pos x s' :
  (124 + 128) * 512 ≤ pos → byte_to_sector p pos s = Ok (x, s') → x = u32 (-1).
Proof.
  intros Hpos E. unfold byte_to_sector in E.
  apply bind_inv in E as (? & ? & _ & E). apply bind_inv in E as (i & ? & _ & E).
  apply bind_inv in E as (data & s1 & _ & E). cbn zeta in E.
  destruct (pos <? _) in E; [|by injection E as <- _].
  unfold BLOCK_SECTOR_SIZE in E. rewrite !(proj2 (Z.ltb_ge pos _)) in E by lia.
  apply bind_inv in E as (y & s2 & _ & E). exfalso. eapply read_sector_past, E.
  assert (252 ≤ pos `quot` 512) as Hq
    by (rewrite Z.quot_div_nonneg by lia; apply Z.div_le_lower_bound; lia).
  set (q := pos `quot` 512) in *. rewrite Z.quot_div_nonneg by lia.
  pose proof (Z.div_le_upper_bound (q - 124 - 128) 128 (q - 252)). lia.
Qed.

(** ** A full disk *)

Lemma full_disk_add s d len :
  map_inv s → (∀ x, ¬ map_free s x) → length_ d = 0 → 0 < len ≤ 512 →
  add_inode allocate1 d len s = Ok (set_length len d, s).
Proof.
  intros Hi Hfull Hd Hlen. unfold add_inode. rewrite Hd.
  assert (sector_count len = 1) as ->.
  { rewrite sector_count_eq by lia. symmetry. apply (Z.div_unique _ _ _ (len - 1)); lia. }
  assert (add_direct allocate1 d 1 0 1 s = Ok ((d, 1, 0), s)) as E.
  { unfold add_direct. change (Z.to_nat (1 `min` 124 - 0)) with 1%nat. cbn [fill].
    rewrite (bind_Ok _ _ s (direct d, false) s); [by destruct d|].
    assert (allocate1 s = Ok (None, s)) as E by (by apply (map_allocate_full 1)).
    by rewrite (bind_Ok _ _ _ _ _ E). }
  change (sector_count 0) with 0. change (1 - 0 <=? 0) with false. change (0 <? 124) with true.
  cbv iota. rewrite (bind_Ok _ _ _ _ _ E). change (0 <? 0) with false. cbn [andb].
  rewrite (bind_Ok _ _ s (d, 1, 0) s) by done. by rewrite (bind_Ok _ _ s d s) by done.
Qed.

(** C40. On a full disk a write to an empty file reports success and stores the
    bytes in sector 0, over the inode of the free map: the sector pointer that
    [free_map_allocate] did not set is 0. *)
Theorem full_disk_write_hits_sector_0 s p i d data :
  file_ok s p i d → (∀ x, ¬ map_free s x) → deny_write_cnt i = 0 → sector i ≠ 0 →
  length_ d = 0 → direct d !! 0%nat = Some 0 → (0 < length data ≤ 512)%nat →
  ∃ s', inode_write_at allocate1 p data (Z.of_nat (length data)) 0 s
          = Ok (Z.of_nat (length data), s') ∧
        take (length data) (dview s' 0) = data.
Proof.
  intros Hf Hfull Hdeny Hsec Hd Hhead Hlen. pose proof Hf as [Hmap H _ _ _].
  pose proof (op_ok _ _ _ _ H) as Hok. set (d1 := set_length (Z.of_nat (length data)) d).
  unfold inode_write_at. rewrite (bind_Ok _ _ _ _ _ (load_inode_ok _ _ _ (op_inode _ _ _ _ H))).
  rewrite Hdeny. change (negb (0 =? 0)) with false. cbv iota.
  destruct (read_inode_ok _ _ _ _ H) as (dat & s0 & E0 & Hdd & Hev0 & H0).
  rewrite (bind_Ok _ _ _ _ _ E0), Hdd, Z.add_0_r, swrap_id by (unfold in_s; eval_pow2; lia).
  destruct (map_evolves _ _ _ Hmap Hev0) as [Hmap0 Hfree0]; [done|].
  assert (add_inode allocate1 d (Z.of_nat (length data)) s0 = Ok (d1, s0)) as E1
    by (apply full_disk_add; [done|intros x ?%Hfree0; by eapply Hfull|done|lia]).
  rewrite (bind_Ok _ _ _ _ _ E1).
  assert (inode_disk_wf d1) as Hwf1
    by (apply set_length_wf; [unfold in_s; eval_pow2; lia|apply Hok]).
  destruct (write_disk_ok s0 (sector i) (encode_inode d1)) as (s1 & E2 & Hev1);
    [apply H0|apply (inode_sector_range (op_ok _ _ _ _ H0))|by apply length_encode_inode|].
  rewrite (bind_Ok _ _ _ _ _ E2). pose proof (evolves_trans _ _ _ _ _ Hev0 Hev1) as Hev01.
  assert (count_of d1 = 1%nat) as Hc.
  { unfold count_of, d1. cbn [length_ set_length]. rewrite sector_count_eq by lia.
    rewrite <-(Z.div_unique (Z.of_nat (length data) + 511) 512 1 (Z.of_nat (length data) - 1)); lia. }
  assert (∀ g, sectors g d1 = [0]) as Hs.
  { intros g. unfold sectors, pointers. rewrite Hc. change (direct d1) with (direct d).
    by destruct (direct d) as [|x l]; [|injection Hhead as ->]. }
  assert (∀ g, own g (sector i) d1 = [sector i; 0]) as Hown
    by (intros g; unfold own, index_sectors; by rewrite Hc, Hs, decide_False by lia).
  assert (opened s1 p i d1) as H1.
  { pose proof (inode_sector_range Hok) as Hr. pose proof (ev_view _ _ _ Hev01) as Hv.
    split; [apply Hev01|by eapply evolves_memory_left, H|apply H|by rewrite (evolves_inodes _ _ _ Hev01); apply H|].
    rewrite (ev_size _ _ _ Hev01). split; rewrite ?Hown; [|done|cbn; lia|..].
    - by rewrite Hv, fn_lookup_insert.
    - repeat constructor; lia.
    - apply list.NoDup_cons. rewrite list_elem_of_singleton. split; [done|]. apply NoDup_singleton. }
  destruct (write_tail_ok s1 p i d1 data (Z.of_nat (length data)) 0) as (s2 & g & -> & Hev2 & Hdw);
    [done|lia|lia|cbn; lia|lia|].
  exists s2. split; [done|]. rewrite (ev_view _ _ _ Hev2).
  pose proof (dw_content _ _ _ _ _ _ _ Hdw) as Hcont. unfold content in Hcont at 1.
  rewrite Hs, Nat2Z.id, (take_ge data) in Hcont by lia. cbn [fmap list_fmap concat length_ set_length d1] in Hcont.
  rewrite app_nil_r, Nat2Z.id in Hcont. rewrite Hcont. apply splice_full.
  rewrite (length_content (op_ok _ _ _ _ H1)); [cbn; lia|]. intros; apply dview_length, H1.
Qed.
End Limits.

(** ** Concrete instances *)

Lemma inode_read_at_eof_witness :
  (∃ s', inode_read_at 2 (replicate 40 9) 32 600 sample
         = Ok ((0, replicate 32 0 ++ replicate 8 9), s') ∧ dview s' = dview sample) ∧
  inode_read_at 2 (replicate 1024 9) 1024 600 sample = Undef.
Proof.
  split.
  - apply (inode_read_at_eof sample 2 (mk_inode 5 1 false 0) inode_a (replicate 40 9) 32 600);
      [apply sample_a_ok|split; [cbn; lia|eval_pow2; lia]|lia|cbn; lia].
  - apply (inode_read_at_eof sample 2 (mk_inode 5 1 false 0) inode_a (replicate 1024 9) 1024 600);
      [apply sample_a_ok|split; [cbn; lia|eval_pow2; lia]|lia|cbn; lia].
Defined.

Lemma byte_to_sector_doubly_witness :
  ∃ x s', byte_to_sector 2 (252 * 512) sample = Ok (x, s') ∧ x = u32 (-1).
Proof.
  destruct (byte_to_sector_past sample 2 (mk_inode 5 1 false 0) inode_a (252 * 512)) as (s' & E & _);
    [apply sample_a_ok|cbn; lia|].
  eexists _, s'. split; [exact E|]. eapply (byte_to_sector_doubly sample); [|exact E]. lia.
Defined.

(** A full disk of 32 sectors with an empty file at 5. *)
Definition full_map : bitmap := mk_bitmap 32 [0xffffffff].
Definition full_disk (n : Z) : sector_data :=
  if n =? 0 then encode_inode (sample_inode [2] 4)
  else if n =? 2 then words_to_bytes (bits full_map) ++ replicate 508 0
  else if n =? 5 then encode_inode (sample_inode [] 0)
  else zeros.
Definition full : fs store := sample_fs full_disk full_map {[ 2 := mk_inode 5 1 false 0 ]}.

Lemma full_disk_length n : length (full_disk n) = 512%nat.
Proof. unfold full_disk. repeat case_match; vm_compute; done. Qed.

Lemma full_none_free x : ¬ map_free full x.
Proof.
  intros [Hx Hb]. change (dsize full) with 32 in Hx.
  assert (Forall (λ x, bit full_map x = true) (seqZ 0 32)) as Hf
    by (repeat (constructor; [by vm_compute|]); constructor).
  rewrite list.Forall_forall in Hf. change (free_map full) with full_map in Hb.
  rewrite Hf in Hb; [done|]. apply elem_of_seqZ. lia.
Qed.

Lemma full_disk_write_hits_sector_0_witness :
  ∃ s', inode_write_at allocate1 2 [1; 2; 3] 3 0 full = Ok (3, s') ∧ take 3 (dview s' 0) = [1; 2; 3].
Proof.
  apply (full_disk_write_hits_sector_0 full 2 (mk_inode 5 1 false 0) (sample_inode [] 0) [1; 2; 3]);
    [|apply full_none_free|done|done|done|done|cbn; lia].
  by apply (sample_file_ok _ full_disk_length _ (sample_inode [2] 4)) with 0%nat; vm_compute.
Defined.
