(* ===== verification/InodeClose.v ===== *)
(** * Closing and removing inodes

    What the last [inode_close] of a file does: the sectors of a removed file
    go back to the free map, and a file that uses its indirect block cannot be
    removed. *)

From S2P Require Import Prelude Bitmap Block Cache FsState Inode InodeView InodeGrow File FreeMap FreeMapSpec FileSpec.

Section Close.
Context {mach : Machine}.
Implicit Types s : fs store.

(** From [s] to [s'] the sectors [xs] were released. *)
Record released s s' (xs : list Z) : Prop := {
  rl_inv : map_inv s';
  rl_objects : objects s' = objects s;
  rl_size : dsize s' = dsize s;
  rl_private : ∀ k, map_private s' k ↔ map_private s k;
  rl_view : ∀ k, ¬ map_private s k → dview s' k = dview s k;
  rl_free : ∀ y, map_free s' y ↔ map_free s y ∨ y ∈ xs }.

(** A sector that can be released: in use, and not by the free map. *)
Definition releasable s (x : Z) : Prop := 0 ≤ x < dsize s ∧ ¬ map_free s x ∧ ¬ map_private s x.

Lemma released_nil s : map_inv s → released s s [].
Proof. intros. split; try done. intros y. rewrite elem_of_nil. tauto. Qed.

Lemma released_app s1 s2 s3 xs ys :
  released s1 s2 xs → released s2 s3 ys → released s1 s3 (xs ++ ys).
Proof.
  intros [? ? ? Hp1 Hv1 Hf1] [? ? ? Hp2 Hv2 Hf2]. split; [done|congruence|congruence|..].
  - intros k. by rewrite Hp2, Hp1.
  - intros k Hk. rewrite Hv2, Hv1; [done..|]. by rewrite Hp1.
  - intros y. rewrite Hf2, Hf1, elem_of_app. tauto.
Qed.

Lemma release1_ok s x :
  map_inv s → free_map_file s ≠ NULL → releasable s x →
  ∃ s', release1 x s = Ok (tt, s') ∧ released s s' [x].
Proof.
  intros Hi Hn (Hr & Hf & Hp).
  destruct (map_release_ok nesting s x) as (s' & E & ? & ? & ? & ? & ? & Hfree); try done.
  { destruct (bit (free_map s) x) eqn:Hb; [done|]. exfalso. by apply Hf. }
  exists s'. split; [done|]. split; try done. intros y. rewrite Hfree, list_elem_of_singleton. done.
Qed.

Lemma releasable_released s s' xs y : released s s' xs → y ∉ xs → releasable s y → releasable s' y.
Proof.
  intros [_ _ Hs Hp _ Hf] Hy (? & ? & ?). unfold releasable. rewrite Hs, Hp, Hf. tauto.
Qed.

Lemma released_file s s' xs : released s s' xs → free_map_file s' = free_map_file s.
Proof. intros H. pose proof (rl_objects _ _ _ H) as Ho. unfold objects in Ho. congruence. Qed.

Lemma release_all_ok xs : ∀ s,
  map_inv s → free_map_file s ≠ NULL → NoDup xs → (∀ x, x ∈ xs → releasable s x) →
  ∃ s', release_all release1 xs s = Ok (tt, s') ∧ released s s' xs.
Proof.
  induction xs as [|x xs IH]; intros s Hi Hn Hnd Hr; cbn [release_all].
  { exists s. split; [done|by apply released_nil]. }
  apply list.NoDup_cons in Hnd as [Hx Hnd].
  destruct (release1_ok s x) as (s1 & E1 & H1); [done..|apply Hr; left|].
  rewrite (bind_Ok _ _ _ _ _ E1).
  destruct (IH s1) as (s2 & E2 & H2); [apply H1|by rewrite (released_file _ _ _ H1)|done|..].
  { intros y Hy. eapply releasable_released; [done|..|apply Hr; by right].
    intros ->%list_elem_of_singleton. done. }
  exists s2. split; [done|]. by apply (released_app _ s1 _ [x]).
Qed.

(** ** Objects other than those of the free map *)

(** The allocator does not look at inodes other than that of its file. *)
Lemma map_inv_inodes s m l :
  map_inv s →
  (∀ f i d, map_file s f i d → m !! f_inode f = inodes s !! f_inode f) →
  let s' := set_open_inodes l (set_inodes m s) in
  map_inv s' ∧ (∀ k, map_private s' k ↔ map_private s k) ∧ (∀ k, map_free s' k ↔ map_free s k).
Proof.
  intros Hi Hm s'.
  assert (∀ f i d, map_file s f i d → map_file s' f i d) as Hmf.
  { intros f i d Hf. pose proof (Hm _ _ _ Hf) as E. destruct Hf as [? [? ? ? Hin ?] ? ? ? ?].
    split; try done. split; try done. cbn. congruence. }
  destruct Hi as [? ? ? ? Hfile]. split_and!; [|intros k|done].
  - split; try done. destruct Hfile as [?|(f & i & d & Hf)]; [by left|right].
    exists f, i, d. by apply Hmf.
  - split; intros [Hn (f & i & d & Hf & Hx)]; (split; [done|]).
    + destruct Hfile as [?|(f0 & i0 & d0 & Hf0)]; [done|].
      destruct (map_file_unique _ _ _ _ _ _ _ Hf (Hmf _ _ _ Hf0)) as (-> & -> & ->). eauto 10.
    + exists f, i, d. split; [by apply Hmf|done].
Qed.

(** A file other than the free map has another inode object. *)
Lemma file_not_map s p i d f j e :
  free_map_file s ≠ NULL → file_ok s p i d → map_file s f j e → f_inode f ≠ p.
Proof.
  intros Hn Hf Hm <-. pose proof (op_inode _ _ _ _ (fo_opened _ _ _ _ Hf)) as E1.
  pose proof (op_inode _ _ _ _ (mf_opened _ _ _ _ Hm)) as E2. assert (i = j) as -> by congruence.
  destruct (fo_sectors _ _ _ _ Hf (sector j)) as [Hp _]; [left|]. apply Hp. split; [done|].
  exists f, j, e. split; [done|left].
Qed.

(** The state in which [inode_close] finds that it was the last. *)
Definition dropped (p : Z) (i : inode) s : fs store :=
  set_open_inodes (filter (λ q, q ≠ p) (open_inodes s))
    (set_inodes (<[p := mk_inode (sector i) 0 (removed i) (deny_write_cnt i)]> (inodes s)) s).

Lemma dropped_ok s p i d :
  free_map_file s ≠ NULL → file_ok s p i d →
  map_inv (dropped p i s) ∧ (∀ k, map_private (dropped p i s) k ↔ map_private s k) ∧
  (∀ k, map_free (dropped p i s) k ↔ map_free s k).
Proof.
  intros Hn Hf. apply map_inv_inodes; [apply Hf|]. intros f j e Hm.
  rewrite lookup_insert_ne; [done|]. by apply not_eq_sym, (file_not_map s p i d f j e).
Qed.

Lemma own_releasable s p i d x : file_ok s p i d → x ∈ own (dview s) (sector i) d → releasable s x.
Proof.
  intros Hf Hx. destruct (fo_sectors _ _ _ _ Hf x Hx). split; [|done].
  pose proof (io_range _ _ _ _ (op_ok _ _ _ _ (fo_opened _ _ _ _ Hf))) as Hr.
  rewrite list.Forall_forall in Hr. by apply Hr.
Qed.

(** What [inode_close] runs for a removed file, from [dropped]. *)
Definition reclaim (i : inode) : M (fs store) unit :=
  let! data := read_disk (sector i) in
  let! _ := deallocate_inode release1 (decode_inode data) in
  release1 (sector i).

Lemma inode_close_last s p i :
  inodes s !! p = Some i → p ≠ NULL → open_cnt i = 1 →
  inode_close release1 p s =
    (let! _ := (if removed i then reclaim i else ret tt) in
     modify (λ s, set_inodes (delete p (inodes s)) s)) (dropped p i s).
Proof.
  intros Hi Hp Ho. unfold inode_close. rewrite (proj2 (Z.eqb_neq _ _)) by done.
  rewrite (bind_Ok _ _ _ _ _ (load_inode_ok _ _ _ Hi)), Ho. change (s32 (1 - 1)) with 0.
  unfold store_inode. rewrite (bind_Ok _ _ s tt
    (set_inodes (<[p := mk_inode (sector i) 0 (removed i) (deny_write_cnt i)]> (inodes s)) s)) by (by rewrite Hi).
  done.
Qed.

Lemma deallocate_direct_ok s d :
  map_inv s → free_map_file s ≠ NULL → length (direct d) = 124%nat → 0 ≤ length_ d →
  sector_count (length_ d) ≤ 124 →
  NoDup (sectors (dview s) d) → (∀ x, x ∈ sectors (dview s) d → releasable s x) →
  ∃ s', deallocate_inode release1 d s = Ok (tt, s') ∧ released s s' (sectors (dview s) d).
Proof.
  intros Hi Hn Hd Hl Hc Hnd Hr. unfold deallocate_inode. pose proof (sector_count_bounds _ Hl).
  assert (sectors (dview s) d = take (Z.to_nat (sector_count (length_ d))) (direct d)) as Hs
    by (unfold sectors, pointers, count_of; by rewrite take_app_le by lia).
  destruct (Z.leb_spec (sector_count (length_ d)) 0) as [H0|H0].
  - exists s. split; [done|]. rewrite Hs. replace (Z.to_nat _) with 0%nat by lia. by apply released_nil.
  - rewrite Z.min_l, <-Hs by lia.
    destruct (release_all_ok (sectors (dview s) d) s) as (s1 & E & H1); [done..|].
    rewrite (bind_Ok _ _ _ _ _ E), Z.sub_diag. change (0 <? 0) with false.
    rewrite (bind_Ok _ _ s1 0 s1) by done. eauto.
Qed.

Lemma released_quiet s s' : map_inv s → evolves s s' (dview s) → released s s' [].
Proof.
  intros Hi Hev. destruct (map_evolves _ _ _ Hi Hev) as [Hi' H]; [done|].
  pose proof Hev as [_ Hs Hv Hm]. split; [done| |done|..].
  - unfold memory, objects in *. congruence.
  - intros k. apply H.
  - intros k _. by rewrite Hv.
  - intros y. destruct (H y) as [-> _]. rewrite elem_of_nil. tauto.
Qed.

Section Last.
Context {s : fs store} {p : Z} {i : inode} {d : inode_disk}.
Context (Hn : free_map_file s ≠ NULL) (Hf : file_ok s p i d).
Abbreviation t := (dropped p i s).

Lemma dropped_releasable x : releasable t x ↔ releasable s x.
Proof. destruct (dropped_ok s p i d Hn Hf) as (_ & Hp & Hfr). unfold releasable. by rewrite Hp, Hfr. Qed.

Lemma reclaim_read :
  ∃ t1, read_disk (sector i) t = Ok (encode_inode d, t1) ∧ released t t1 [] ∧ dview t1 = dview s.
Proof.
  destruct (dropped_ok s p i d Hn Hf) as (Hi & _). pose proof (op_ok _ _ _ _ (fo_opened _ _ _ _ Hf)) as Hok.
  destruct (read_disk_ok t (sector i)) as (t1 & E & Hev); [apply Hi|apply (inode_sector_range Hok)|].
  exists t1. split; [rewrite E; do 2 f_equal; apply Hok|]. split; [by apply released_quiet|apply Hev].
Qed.

(** All of a file without an indirect block is released. *)
Lemma reclaim_ok :
  sector_count (length_ d) ≤ 124 →
  ∃ t', reclaim i t = Ok (tt, t') ∧ released t t' (own (dview s) (sector i) d).
Proof.
  intros Hc. pose proof (op_ok _ _ _ _ (fo_opened _ _ _ _ Hf)) as Hok.
  pose proof (io_len _ _ _ _ Hok). destruct reclaim_read as (t1 & E1 & R1 & Hv1).
  assert (own (dview s) (sector i) d = sector i :: sectors (dview s) d) as Hown.
  { unfold own, index_sectors. rewrite decide_False; [done|]. unfold count_of. lia. }
  pose proof (io_nodup _ _ _ _ Hok) as Hnd. rewrite Hown in Hnd. apply list.NoDup_cons in Hnd as [Hni Hnd].
  assert (∀ x, x ∈ own (dview s) (sector i) d → releasable t1 x) as Hr.
  { intros x Hx. eapply releasable_released; [done|apply not_elem_of_nil|].
    apply dropped_releasable. by eapply own_releasable. }
  assert (∀ t' xs, released t t' xs → free_map_file t' ≠ NULL) as Hnn
    by (intros t' xs R; by rewrite (released_file _ _ _ R)).
  unfold reclaim. rewrite (bind_Ok _ _ _ _ _ E1), decode_encode_inode by apply Hok.
  destruct (deallocate_direct_ok t1 d) as (t2 & E2 & R2);
    [apply R1|by eapply Hnn|apply (io_wf _ _ _ _ Hok)|lia|done|by rewrite Hv1| |].
  { rewrite Hv1. intros x Hx. apply Hr. rewrite Hown. by right. }
  rewrite (bind_Ok _ _ _ _ _ E2). rewrite Hv1 in R2. pose proof (released_app _ _ _ _ _ R1 R2) as R12.
  destruct (release1_ok t2 (sector i)) as (t3 & E3 & R3); [apply R2|by eapply Hnn| |].
  { eapply (releasable_released t1); [done|done|]. apply Hr. rewrite Hown. left. }
  exists t3. split; [done|]. pose proof (released_app _ _ _ _ _ R12 R3) as [????? Hfree].
  split; try done. intros y. rewrite Hfree, elem_of_app, list_elem_of_singleton, Hown, elem_of_cons.
  cbn [app]. tauto.
Qed.

(** A file with an indirect block cannot be released. *)
Lemma reclaim_panics :
  124 < sector_count (length_ d) → dsize s ≤ addr_indirect < 2 ^ 32 → reclaim i t = Panic.
Proof.
  intros Hc Ha. pose proof (op_ok _ _ _ _ (fo_opened _ _ _ _ Hf)) as Hok.
  destruct reclaim_read as (t1 & E1 & R1 & Hv1). unfold reclaim.
  rewrite (bind_Ok _ _ _ _ _ E1), decode_encode_inode by apply Hok. unfold bind at 1, deallocate_inode.
  rewrite (proj2 (Z.leb_gt _ 0)), Z.min_r by lia. set (xs := take (Z.to_nat 124) (direct d)).
  assert (xs ⊆ own (dview s) (sector i) d ∧ NoDup xs) as [Hsub Hnd].
  { destruct (idw_direct _ (io_wf _ _ _ _ Hok)) as [Hdl _].
    assert (sublist xs (sectors (dview s) d)) as Hsub.
    { unfold xs, sectors, pointers. rewrite take_ge by lia. unfold count_of.
      rewrite take_app_ge by lia. apply sublist_inserts_r. done. }
    split.
    - intros x Hx. unfold own. rewrite elem_of_cons, elem_of_app. right. right.
      by eapply elem_of_sublist.
    - pose proof (io_nodup _ _ _ _ Hok) as Hnd. unfold own in Hnd.
      apply list.NoDup_cons in Hnd as [_ Hnd]. apply list.NoDup_app in Hnd as (_ & _ & Hnd).
      by eapply sublist_NoDup. }
  destruct (release_all_ok xs t1) as (t2 & E2 & R2); [apply R1|by rewrite (released_file _ _ _ R1)|done|..].
  { intros x Hx. eapply releasable_released; [done|apply not_elem_of_nil|].
    apply dropped_releasable. by eapply own_releasable, Hsub. }
  rewrite (bind_Ok _ _ _ _ _ E2), (proj2 (Z.ltb_lt 0 _)) by lia.
  unfold bind at 1 2, read_disk at 1, on_disk, bind at 1. rewrite ss_read_past; [done|apply R2|].
  change (dsize t2 ≤ u32 addr_indirect).
  rewrite (rl_size _ _ _ R2), (rl_size _ _ _ R1), uwrap_id; [apply Ha|].
  unfold in_u. pose proof (ss_size_u32 _ (op_inv _ _ _ _ (fo_opened _ _ _ _ Hf))) as Hu.
  unfold in_u, dsize in *. lia.
Qed.
End Last.

(** The last step of [inode_close] frees the object. *)
Lemma forget_ok s0 s p i d xs :
  free_map_file s0 ≠ NULL → file_ok s0 p i d → released (dropped p i s0) s xs →
  let s' := set_inodes (delete p (inodes s)) s in
  map_inv s' ∧ (∀ k, map_private s' k ↔ map_private s k) ∧ (∀ k, map_free s' k ↔ map_free s k).
Proof.
  intros Hn Hf R. pose proof (rl_objects _ _ _ R) as Ho. unfold objects in Ho. cbn in Ho.
  assert (files s = files s0 ∧ free_map_file s = free_map_file s0) as [Ef Eff] by (split; congruence).
  pose proof (map_inv_inodes s (delete p (inodes s)) (open_inodes s) (rl_inv _ _ _ R)) as H.
  apply H. intros f j e Hm. rewrite lookup_delete_ne; [done|]. intros ->.
  destruct (mi_file _ (fo_map _ _ _ _ Hf)) as [?|(f0 & j0 & e0 & Hm0)]; [done|].
  apply (file_not_map _ _ _ _ _ _ _ Hn Hf Hm0). pose proof (mf_file _ _ _ _ Hm) as E.
  rewrite Ef, Eff, (mf_file _ _ _ _ Hm0) in E. by injection E as ->.
Qed.

(** C33. Closing a file that was removed, by its last opener, gives exactly its
    sectors back to the free map when it has no indirect block; no other sector
    changes its state or its contents, and the inode object is gone. *)
Theorem inode_close_reclaims s p i d :
  file_ok s p i d → free_map_file s ≠ NULL → open_cnt i = 1 → removed i = true →
  sector_count (length_ d) ≤ 124 →
  ∃ s', inode_close release1 p s = Ok (tt, s') ∧ map_inv s' ∧
    (∀ x, map_free s' x ↔ map_free s x ∨ x ∈ own (dview s) (sector i) d) ∧
    (∀ k, ¬ map_private s k → dview s' k = dview s k) ∧
    inodes s' = delete p (inodes s) ∧ open_inodes s' = filter (λ q, q ≠ p) (open_inodes s).
Proof.
  intros Hf Hn Ho Hr Hc. pose proof (fo_opened _ _ _ _ Hf) as H.
  rewrite (inode_close_last s p i) by (apply H || done). rewrite Hr.
  destruct (reclaim_ok Hn Hf Hc) as (t & E & R). rewrite (bind_Ok _ _ _ _ _ E).
  destruct (forget_ok s t p i d _ Hn Hf R) as (Hi & Hp & Hfr).
  destruct (dropped_ok s p i d Hn Hf) as (_ & Hp0 & Hf0).
  pose proof (rl_objects _ _ _ R) as Hob. unfold objects in Hob. cbn in Hob.
  eexists. split; [done|]. split; [done|]. split_and!.
  - intros x. by rewrite Hfr, (rl_free _ _ _ R), Hf0.
  - intros k Hk. apply (rl_view _ _ _ R). by rewrite Hp0.
  - cbn. assert (inodes t = <[p := mk_inode (sector i) 0 (removed i) (deny_write_cnt i)]> (inodes s)) as ->
      by congruence. by rewrite delete_insert_eq.
  - cbn. congruence.
Qed.

(** The last close of a removed file with more than 124 sectors stops the
    kernel: the indirect block is read from the sector whose number is the
    address of a local variable. *)
Theorem inode_close_large_panics s p i d :
  file_ok s p i d → free_map_file s ≠ NULL → open_cnt i = 1 → removed i = true →
  124 < sector_count (length_ d) → dsize s ≤ addr_indirect < 2 ^ 32 →
  inode_close release1 p s = Panic.
Proof.
  intros Hf Hn Ho Hr Hc Ha. pose proof (fo_opened _ _ _ _ Hf) as H.
  rewrite (inode_close_last s p i) by (apply H || done). rewrite Hr.
  unfold bind. by rewrite (reclaim_panics Hn Hf).
Qed.
End Close.

(** ** Concrete instances *)

Definition sample_removed : fs store :=
  sample_fs sample_disk sample_map {[ 2 := mk_inode 5 1 true 0; 3 := mk_inode 8 1 false 0 ]}.

Lemma inode_close_reclaims_witness :
  ∃ s', inode_close release1 2 sample_removed = Ok (tt, s') ∧ map_inv s' ∧
    (∀ x, map_free s' x ↔ map_free sample_removed x ∨ x ∈ own sample_disk 5 inode_a) ∧
    (∀ k, ¬ map_private sample_removed k → dview s' k = sample_disk k) ∧
    inodes s' = delete 2 (inodes sample_removed) ∧ open_inodes s' = [3; 1].
Proof.
  apply (inode_close_reclaims sample_removed 2 (mk_inode 5 1 true 0) inode_a);
    [|done|done|done|vm_compute; done].
  by apply (sample_file_ok _ sample_disk_length _ map_inode) with 424%nat; vm_compute.
Defined.

(** A disk of 256 sectors with a file of 125 sectors at 5: direct sectors 10 to
    133, the indirect block in 6 pointing to 134. *)
Definition large_map : bitmap :=
  mk_bitmap 256 [0xffffffff; 0xffffffff; 0xffffffff; 0xffffffff; 0x7f; 0; 0; 0].
Definition large_map_inode : inode_disk := sample_inode [2] 32.
Definition large_inode : inode_disk := mk_inode_disk (seqZ 10 124) 6 0 (125 * 512) INODE_MAGIC.
Definition large_disk (n : Z) : sector_data :=
  if n =? 0 then encode_inode large_map_inode
  else if n =? 2 then words_to_bytes (bits large_map) ++ replicate 480 0
  else if n =? 5 then encode_inode large_inode
  else if n =? 6 then words_to_bytes (134 :: replicate 127 0)
  else zeros.
Definition large : fs store := sample_fs large_disk large_map {[ 2 := mk_inode 5 1 true 0 ]}.

Lemma large_disk_length n : length (large_disk n) = 512%nat.
Proof. unfold large_disk. repeat case_match; vm_compute; done. Qed.

Lemma large_ok : file_ok large 2 (mk_inode 5 1 true 0) large_inode.
Proof. by apply (sample_file_ok _ large_disk_length _ large_map_inode) with 0%nat; vm_compute. Qed.

Lemma inode_close_large_panics_witness : inode_close release1 2 large = Panic.
Proof.
  apply (inode_close_large_panics large 2 (mk_inode 5 1 true 0) large_inode);
    [apply large_ok|done|done|done|vm_compute; done|split; vm_compute; done].
Defined.
