(* ===== verification/InodeRefs.v ===== *)
(** * Open inodes

    [inode_open], [inode_reopen] and [inode_close] share one [struct inode] per
    file and count its openers.  The specification is a function from sectors
    to counts. *)

From S2P Require Import Prelude Bitmap Block Cache FsState Inode InodeView InodeGrow File FreeMap FreeMapSpec FileSpec.

Section Refs.
Context {mach : Machine}.
Implicit Types s : fs store.

(** The list of open inodes holds each object once, there is one object per
    sector, and each has an opener; addresses above the count of allocations
    have not been handed out. *)
Record open_inv s : Prop := {
  oi_nodup : NoDup (open_inodes s);
  oi_dom : ∀ p, p ∈ open_inodes s ↔ is_Some (inodes s !! p);
  oi_one : ∀ p q i j, inodes s !! p = Some i → inodes s !! q = Some j → sector i = sector j → p = q;
  oi_cnt : ∀ p i, inodes s !! p = Some i → 1 ≤ open_cnt i;
  oi_addr : ∀ p i, inodes s !! p = Some i → 1 ≤ p ≤ Z.of_nat (malloc_cnt s) }.

(** [n] openers have the inode at sector [sec]. *)
Definition opens s (sec n : Z) : Prop :=
  (n = 0 ∧ ∀ p i, inodes s !! p = Some i → sector i ≠ sec) ∨
  (∃ p i, inodes s !! p = Some i ∧ sector i = sec ∧ open_cnt i = n).

Lemma find_open_ok s sec l :
  (∀ p, p ∈ l → is_Some (inodes s !! p)) →
  ∃ r, find_open sec l s = Ok (r, s) ∧
    match r with
    | Some p => p ∈ l ∧ ∃ i, inodes s !! p = Some i ∧ sector i = sec
    | None => ∀ p i, p ∈ l → inodes s !! p = Some i → sector i ≠ sec
    end.
Proof.
  induction l as [|p l IH]; intros Hl; cbn [find_open].
  { exists None. split; [done|]. by intros p i ?%elem_of_nil. }
  destruct (Hl p) as [i Hi]; [left|]. rewrite (bind_Ok _ _ _ _ _ (load_inode_ok _ _ _ Hi)).
  destruct (Z.eqb_spec (sector i) sec) as [Hs|Hs].
  - exists (Some p). split; [done|]. split; [left|eauto].
  - destruct IH as (r & E & Hr); [intros q Hq; apply Hl; by right|].
    exists r. split; [done|]. destruct r as [q|].
    + destruct Hr as [? ?]. split; [by right|done].
    + intros q j [->|Hq]%elem_of_cons Hj; [congruence|by eapply Hr].
Qed.

(** Changing the counts of one object keeps the invariant. *)
Lemma open_inv_update s p i j :
  open_inv s → inodes s !! p = Some i → sector j = sector i → 1 ≤ open_cnt j →
  open_inv (set_inodes (<[p := j]> (inodes s)) s).
Proof.
  intros [Hn Hd Ho Hc Ha] Hi Hs Hj.
  assert (∀ q k, <[p := j]> (inodes s) !! q = Some k → ∃ k', inodes s !! q = Some k' ∧ sector k = sector k' ∧ 1 ≤ open_cnt k) as Hq.
  { intros q k [[<- <-]|[? Hk]]%lookup_insert_Some; eauto. }
  split; cbn; [done|..].
  - intros q. rewrite Hd. destruct (decide (p = q)) as [<-|].
    + rewrite lookup_insert_eq, Hi. done.
    + by rewrite lookup_insert_ne.
  - intros q q' k k' (k1 & Hk1 & E1 & _)%Hq (k2 & Hk2 & E2 & _)%Hq E. eapply Ho; [done..|congruence].
  - intros q k (? & _ & _ & ?)%Hq. done.
  - intros q k (k' & Hk & _)%Hq. by eapply Ha.
Qed.

Lemma opens_update s p i j sec n :
  open_inv s → inodes s !! p = Some i → sector j = sector i → opens s sec n →
  opens (set_inodes (<[p := j]> (inodes s)) s) sec (if decide (sec = sector i) then open_cnt j else n).
Proof.
  intros Hinv Hi Hs Hn. case_decide as Hsec.
  - right. exists p, j. cbn. rewrite lookup_insert_eq. split_and!; congruence.
  - destruct Hn as [[-> Hno]|(q & k & Hk & <- & <-)].
    + left. split; [done|]. cbn. intros q k [[<- <-]|[? Hk]]%lookup_insert_Some; [congruence|by eapply Hno].
    + right. exists q, k. cbn. rewrite lookup_insert_ne; [done|]. intros ->. congruence.
Qed.

Lemma opens_unique s p i n : open_inv s → inodes s !! p = Some i → opens s (sector i) n → n = open_cnt i.
Proof.
  intros Hinv Hi [[-> Hno]|(q & j & Hj & Hs & <-)]; [by destruct (Hno p i)|].
  assert (q = p) as -> by (by eapply (oi_one _ Hinv)). congruence.
Qed.

(** What [inode_open] leaves: the object [i] at [p] is the one of the file at
    [sec], with one opener more than the [n] before; nothing else changed. *)
Record open_result s s' (sec n p : Z) (i : inode) : Prop := {
  or_null : p ≠ NULL;
  or_inv : open_inv s';
  or_inode : inodes s' !! p = Some i;
  or_sector : sector i = sec;
  or_shared : ∀ q j, inodes s !! q = Some j → sector j = sec → p = q ∧ removed i = removed j;
  or_fresh : n = 0 → removed i = false;
  or_others : ∀ q, q ≠ p → inodes s' !! q = inodes s !! q;
  or_opens : ∀ x m, opens s x m → opens s' x (if decide (x = sec) then n + 1 else m);
  or_disk : disk s' = disk s;
  or_memory : memory_left s → memory_left s' }.

Lemma inode_reopen_result s p i :
  open_inv s → inodes s !! p = Some i → open_cnt i < 2 ^ 31 - 1 →
  ∃ j s', inode_reopen p s = Ok (p, s') ∧ open_result s s' (sector i) (open_cnt i) p j.
Proof.
  intros Hinv Hi Hb. pose proof (oi_addr _ Hinv _ _ Hi). pose proof (oi_cnt _ Hinv _ _ Hi).
  unfold inode_reopen. rewrite (proj2 (Z.eqb_neq _ _)) by (unfold NULL; lia).
  rewrite (bind_Ok _ _ _ _ _ (load_inode_ok _ _ _ Hi)), swrap_id by (unfold in_s; eval_pow2; lia).
  unfold store_inode. set (j := mk_inode _ _ _ _).
  rewrite (bind_Ok _ _ s tt (set_inodes (<[p := j]> (inodes s)) s)) by (by rewrite Hi).
  eexists j, _. split; [done|]. split; try done.
  - unfold NULL; lia.
  - eapply open_inv_update; [done..|cbn; lia].
  - apply lookup_insert_eq.
  - intros q k Hk Hs. assert (q = p) as -> by (by eapply (oi_one _ Hinv)). split; [done|]. cbn. congruence.
  - intros ?. lia.
  - intros q Hq. by apply lookup_insert_ne.
  - intros x m Hm. by apply (opens_update s p i j).
Qed.

(** A new object at the address [malloc] returns. *)
Definition with_new (s : fs store) (i : inode) : fs store :=
  let p := Z.of_nat (malloc_cnt s) + 1 in
  set_open_inodes (p :: open_inodes s)
    (set_inodes (<[p := i]> (inodes s)) (set_malloc_cnt (S (malloc_cnt s)) s)).

Lemma open_inv_new s i :
  open_inv s → 1 ≤ open_cnt i → (∀ q j, inodes s !! q = Some j → sector j ≠ sector i) →
  inodes s !! (Z.of_nat (malloc_cnt s) + 1) = None ∧ open_inv (with_new s i).
Proof.
  intros [Hnd Hd Ho Hc Ha] Hi Hno. set (p := Z.of_nat (malloc_cnt s) + 1).
  assert (inodes s !! p = None) as Hp.
  { apply eq_None_not_Some. intros [k Hk]. pose proof (Ha _ _ Hk). lia. }
  split; [done|]. split; cbn.
  - apply list.NoDup_cons. split; [|done]. fold p. rewrite Hd, Hp. by intros [].
  - intros q. fold p. rewrite elem_of_cons, Hd. destruct (decide (q = p)) as [->|].
    + rewrite lookup_insert_eq. split; [by eexists|by left].
    + rewrite lookup_insert_ne by done. tauto.
  - intros q q' k k' [[<- <-]|[? Hk]]%lookup_insert_Some [[<- <-]|[? Hk']]%lookup_insert_Some Hs;
      [done|by destruct (Hno _ _ Hk')|by destruct (Hno _ _ Hk)|by eapply Ho].
  - intros q k [[<- <-]|[? Hk]]%lookup_insert_Some; [done|by eapply Hc].
  - intros q k [[<- <-]|[? Hk]]%lookup_insert_Some; [lia|]. pose proof (Ha _ _ Hk). lia.
Qed.

Lemma inode_open_ok s sec n :
  open_inv s → memory_left s → opens s sec n → n < 2 ^ 31 - 1 →
  ∃ p i s', inode_open sec s = Ok (p, s') ∧ open_result s s' sec n p i.
Proof.
  intros Hinv Hmem Hn Hbound. unfold inode_open.
  rewrite (bind_Ok _ _ s (open_inodes s) s) by done.
  destruct (find_open_ok s sec (open_inodes s)) as ([p|] & E & Hr); [intros p; apply (oi_dom _ Hinv)|..];
    rewrite (bind_Ok _ _ _ _ _ E).
  { destruct Hr as (_ & i & Hi & <-). pose proof (opens_unique _ _ _ _ Hinv Hi Hn) as ->.
    destruct (inode_reopen_result s p i) as (j & s' & ? & ?); [done..|]. eauto. }
  assert (∀ q j, inodes s !! q = Some j → sector j ≠ sec) as Hno.
  { intros q j Hj. eapply Hr; [|done]. apply (oi_dom _ Hinv). by eexists. }
  assert (n = 0) as ->.
  { destruct Hn as [[-> _]|(q & j & Hj & Hs & _)]; [done|]. by destruct (Hno q j). }
  set (p := Z.of_nat (malloc_cnt s) + 1).
  rewrite (bind_Ok _ _ s p (set_malloc_cnt (S (malloc_cnt s)) s)) by (unfold malloc; by rewrite Hmem).
  rewrite (proj2 (Z.eqb_neq _ _)) by (unfold NULL; lia). set (i := mk_inode sec 1 false 0).
  destruct (open_inv_new s i) as [Hp Hinv']; [done..|].
  exists p, i, (with_new s i). split; [done|]. split; try done.
  - unfold NULL; lia.
  - apply lookup_insert_eq.
  - intros q j Hj Hs. by destruct (Hno q j).
  - intros q Hq. by apply lookup_insert_ne.
  - intros x m Hm. case_decide as Hx.
    + right. exists p, i. cbn. rewrite lookup_insert_eq. done.
    + destruct Hm as [[-> Hno']|(q & j & Hj & <- & <-)].
      * left. split; [done|]. cbn. intros q k [[<- <-]|[? Hk]]%lookup_insert_Some; [done|by eapply Hno'].
      * right. exists q, j. cbn. rewrite lookup_insert_ne; [done|]. intros <-. congruence.
Qed.

(** ** Closing *)

Lemma inode_close_ok s p i :
  open_inv s → inodes s !! p = Some i → removed i = false → open_cnt i < 2 ^ 31 →
  ∃ s', inode_close release1 p s = Ok (tt, s') ∧ open_inv s' ∧ disk s' = disk s ∧
    (memory_left s → memory_left s') ∧
    (∀ q, q ≠ p → inodes s' !! q = inodes s !! q) ∧
    (inodes s' !! p = if decide (open_cnt i = 1) then None
                      else Some (mk_inode (sector i) (open_cnt i - 1) false (deny_write_cnt i))) ∧
    (∀ x m, opens s x m → opens s' x (if decide (x = sector i) then open_cnt i - 1 else m)).
Proof.
  intros Hinv Hi Hr Hb. pose proof (oi_cnt _ Hinv _ _ Hi). pose proof (oi_addr _ Hinv _ _ Hi).
  unfold inode_close. rewrite (proj2 (Z.eqb_neq _ _)) by (unfold NULL; lia).
  rewrite (bind_Ok _ _ _ _ _ (load_inode_ok _ _ _ Hi)), swrap_id, Hr by (unfold in_s; eval_pow2; lia).
  set (j := mk_inode _ _ _ _). unfold store_inode.
  rewrite (bind_Ok _ _ s tt (set_inodes (<[p := j]> (inodes s)) s)) by (by rewrite Hi).
  destruct (Z.eqb_spec (open_cnt i - 1) 0) as [H1|H1].
  - rewrite decide_True by lia. eexists. split; [done|]. cbn.
    rewrite (delete_insert_eq (inodes s) p j). split; [|split; [done|split; [done|split_and!]]].
    + destruct Hinv as [Hnd Hd Ho Hc Ha]. split; cbn.
      * by apply list.NoDup_filter.
      * intros q. rewrite list_elem_of_filter, Hd. destruct (decide (q = p)) as [->|].
        -- rewrite lookup_delete_eq. split; [tauto|by intros []].
        -- rewrite lookup_delete_ne by done. tauto.
      * intros q q' k k' [_ Hk]%lookup_delete_Some [_ Hk']%lookup_delete_Some. by eapply Ho.
      * intros q k [_ Hk]%lookup_delete_Some. by eapply Hc.
      * intros q k [_ Hk]%lookup_delete_Some. by eapply Ha.
    + intros q Hq. by rewrite lookup_delete_ne.
    + by rewrite lookup_delete_eq.
    + intros x m Hm. case_decide as Hx.
      * left. split; [lia|]. cbn. intros q k [? Hk]%lookup_delete_Some Hs. subst x.
        assert (q = p) by (by eapply (oi_one _ Hinv)). congruence.
      * destruct Hm as [[-> Hno]|(q & k & Hk & <- & <-)].
        -- left. split; [done|]. cbn. intros q k [_ Hk]%lookup_delete_Some. by eapply Hno.
        -- right. exists q, k. cbn. rewrite lookup_delete_ne; [done|]. intros ->. congruence.
  - rewrite decide_False by lia. eexists. split; [done|].
    split; [eapply open_inv_update; [done..|cbn; lia]|]. split; [done|]. split; [done|].
    split_and!; cbn; [intros; by apply lookup_insert_ne|apply lookup_insert_eq|].
    intros x m Hm. by apply (opens_update s p i j).
Qed.

(** ** Sequences of opens and closes *)

Inductive ref_op := OpenAt (sec : Z) | CloseAt (sec : Z).

(** [CloseAt] closes the object of the file at [sec], if it is open. *)
Definition run_ref (op : ref_op) : M (fs store) unit :=
  match op with
  | OpenAt sec => let! _ := inode_open sec in ret tt
  | CloseAt sec =>
      let! l := gets open_inodes in
      let! r := find_open sec l in
      match r with Some p => inode_close release1 p | None => ret tt end
  end.

Fixpoint run_refs (ops : list ref_op) : M (fs store) unit :=
  match ops with
  | [] => ret tt
  | op :: ops => let! _ := run_ref op in run_refs ops
  end.

(** The specification: a count per sector. *)
Definition count_ref (op : ref_op) (c : Z → Z) : Z → Z :=
  match op with
  | OpenAt sec => <[sec := c sec + 1]> c
  | CloseAt sec => <[sec := 0 `max` (c sec - 1)]> c
  end.
Definition count_refs (ops : list ref_op) (c : Z → Z) : Z → Z := fold_left (λ c op, count_ref op c) ops c.

Definition none_removed s : Prop := ∀ p i, inodes s !! p = Some i → removed i = false.

Lemma opens_nonneg s sec n : open_inv s → opens s sec n → 0 ≤ n.
Proof. intros Hinv [[-> _]|(p & i & Hi & _ & <-)]; [done|]. pose proof (oi_cnt _ Hinv _ _ Hi). lia. Qed.

Lemma run_ref_ok op s c :
  open_inv s → memory_left s → none_removed s → (∀ sec, opens s sec (c sec)) →
  (∀ sec, c sec < 2 ^ 31 - 1) →
  ∃ s', run_ref op s = Ok (tt, s') ∧ open_inv s' ∧ memory_left s' ∧ none_removed s' ∧
    disk s' = disk s ∧ ∀ sec, opens s' sec (count_ref op c sec).
Proof.
  intros Hinv Hmem Hnr Hc Hb. destruct op as [sec|sec]; cbn [run_ref count_ref].
  - destruct (inode_open_ok s sec (c sec)) as (p & i & s' & E & [Hp Hinv' Hi Hs Hsh Hfr Hot Hop Hd Hm]);
      [done..|]. rewrite (bind_Ok _ _ _ _ _ E). exists s'. split; [done|]. split; [done|].
    split; [by apply Hm|]. split; [|split; [done|]].
    + intros q j Hj. destruct (decide (q = p)) as [->|Hne].
      * assert (j = i) as -> by congruence. destruct (Hc sec) as [[H0 _]|(q & k & Hk & Hks & _)].
        -- by apply Hfr.
        -- destruct (Hsh q k Hk Hks) as [_ ->]. by eapply Hnr.
      * rewrite Hot in Hj by done. by eapply Hnr.
    + intros x. specialize (Hop x (c x) (Hc x)). destruct (decide (x = sec)) as [->|].
      * by rewrite fn_lookup_insert.
      * by rewrite fn_lookup_insert_ne.
  - rewrite (bind_Ok _ _ s (open_inodes s) s) by done.
    destruct (find_open_ok s sec (open_inodes s)) as ([p|] & E & Hr);
      [intros p; apply (oi_dom _ Hinv)|..]; rewrite (bind_Ok _ _ _ _ _ E).
    + destruct Hr as (_ & i & Hi & <-). pose proof (opens_unique _ _ _ _ Hinv Hi (Hc (sector i))) as Hci.
      pose proof (Hb (sector i)). pose proof (oi_cnt _ Hinv _ _ Hi).
      destruct (inode_close_ok s p i) as (s' & E' & Hinv' & Hd & Hm & Hot & Hp & Hop);
        [done|done|by eapply Hnr|lia|].
      exists s'. split; [done|]. split; [done|]. split; [by apply Hm|]. split; [|split; [done|]].
      * intros q j Hj. destruct (decide (q = p)) as [->|Hne].
        -- rewrite Hp in Hj. case_decide; [done|]. by injection Hj as <-.
        -- rewrite Hot in Hj by done. by eapply Hnr.
      * intros x. specialize (Hop x (c x) (Hc x)). destruct (decide (x = sector i)) as [->|].
        -- rewrite fn_lookup_insert, Z.max_r, Hci by lia. done.
        -- by rewrite fn_lookup_insert_ne.
    + exists s. split_and!; try done. intros x. destruct (decide (x = sec)) as [->|].
      * rewrite fn_lookup_insert. destruct (Hc sec) as [[-> Hno]|(p & i & Hi & Hs & _)]; [by left|].
        exfalso. eapply Hr; [|done|done]. apply (oi_dom _ Hinv). by eexists.
      * by rewrite fn_lookup_insert_ne.
Qed.

(** Over any sequence of opens and closes of files that are not removed,
    the open-inode list behaves as a count per sector: the file at a sector has
    one [struct inode] exactly while its count is positive, its [open_cnt] is
    the count, and the disk is not touched. *)
Theorem open_close_refines_counts ops : ∀ s c,
  open_inv s → memory_left s → none_removed s → (∀ sec, opens s sec (c sec)) →
  (∀ sec, c sec + Z.of_nat (length ops) < 2 ^ 31) →
  ∃ s', run_refs ops s = Ok (tt, s') ∧ open_inv s' ∧ disk s' = disk s ∧
    ∀ sec, opens s' sec (count_refs ops c sec).
Proof.
  induction ops as [|op ops IH]; intros s c Hinv Hmem Hnr Hc Hb; cbn [run_refs].
  { exists s. split_and!; done. }
  destruct (run_ref_ok op s c) as (s1 & E1 & Hinv1 & Hmem1 & Hnr1 & Hd1 & Hc1); [done..| |].
  { intros sec. specialize (Hb sec). cbn in Hb. lia. }
  rewrite (bind_Ok _ _ _ _ _ E1).
  destruct (IH s1 (count_ref op c)) as (s2 & E2 & Hinv2 & Hd2 & Hc2); [done..| |].
  { intros sec. specialize (Hb sec). cbn [length] in Hb. pose proof (opens_nonneg _ _ _ Hinv (Hc sec)).
    destruct op as [x|x]; cbn [count_ref]; (destruct (decide (x = sec)) as [->|];
      [rewrite fn_lookup_insert|rewrite fn_lookup_insert_ne by done]); lia. }
  exists s2. split; [done|]. split; [done|]. split; [congruence|done].
Qed.
End Refs.

Definition unopened : fs store :=
  mk_fs (blank_store 64) ∅ [] ∅ ∅ sample_map NULL (λ _, true) 0.

Lemma open_close_refines_counts_witness :
  ∃ s', run_refs [OpenAt 5; OpenAt 8; OpenAt 5; CloseAt 8; CloseAt 5] unopened = Ok (tt, s') ∧
    open_inv s' ∧ disk s' = disk unopened ∧
    ∀ sec, opens s' sec (count_refs [OpenAt 5; OpenAt 8; OpenAt 5; CloseAt 8; CloseAt 5] (λ _, 0) sec).
Proof.
  apply (open_close_refines_counts [OpenAt 5; OpenAt 8; OpenAt 5; CloseAt 8; CloseAt 5] unopened (λ _, 0)).
  - split; cbn; [constructor|..]; try (intros *; rewrite lookup_empty; done).
    intros p. rewrite lookup_empty, elem_of_nil. split; [done|by intros []].
  - done.
  - intros p i. cbn. by rewrite lookup_empty.
  - intros sec. left. split; [done|]. intros p i. cbn. by rewrite lookup_empty.
  - intros sec. cbn. lia.
Defined.
