(* ===== verification/CList.v ===== *)
(** * Doubly linked lists (lib/kernel/list.c)

    List elements are objects in memory with two pointers; a list is the
    addresses of its two sentinels.  The functions work on the memory, as in C,
    and a walk takes as fuel a bound on the elements it visits.  [less] is the
    comparison function with its auxiliary data. *)

From S2P Require Import Prelude FsState.

(** [struct list_elem] and [struct list]. *)
Record list_elem := mk_elem { prev : Z; next : Z }.
Record clist := mk_clist { head : Z; tail : Z }.

Abbreviation heap := (gmap Z list_elem).
Abbreviation H := (M heap).

Definition load (p : Z) : H list_elem := λ h,
  match h !! p with Some e => Ok (e, h) | None => Undef end.
Definition set_prev (p x : Z) : H unit := λ h,
  match h !! p with Some e => Ok (tt, <[p := mk_elem x (next e)]> h) | None => Undef end.
Definition set_next (p x : Z) : H unit := λ h,
  match h !! p with Some e => Ok (tt, <[p := mk_elem (prev e) x]> h) | None => Undef end.

Definition is_head (elem : Z) : H bool :=
  if elem =? NULL then ret false
  else let! e := load elem in ret ((prev e =? NULL) && negb (next e =? NULL)).
Definition is_interior (elem : Z) : H bool :=
  if elem =? NULL then ret false
  else let! e := load elem in ret (negb (prev e =? NULL) && negb (next e =? NULL)).
Definition is_tail (elem : Z) : H bool :=
  if elem =? NULL then ret false
  else let! e := load elem in ret (negb (prev e =? NULL) && (next e =? NULL)).

(** [a || b]. *)
Definition orM (a b : H bool) : H bool := let! x := a in if x then ret true else b.

Definition list_init (l : clist) : H unit :=
  let! _ := set_prev (head l) NULL in
  let! _ := set_next (head l) (tail l) in
  let! _ := set_prev (tail l) (head l) in
  set_next (tail l) NULL.

Definition list_begin (l : clist) : H Z := let! e := load (head l) in ret (next e).
Definition list_end (l : clist) : Z := tail l.
Definition list_rbegin (l : clist) : H Z := let! e := load (tail l) in ret (prev e).
Definition list_rend (l : clist) : Z := head l.
Definition list_head (l : clist) : Z := head l.
Definition list_tail (l : clist) : Z := tail l.

Definition list_next (elem : Z) : H Z :=
  let! ok := orM (is_head elem) (is_interior elem) in
  let! _ := ASSERT ok in
  let! e := load elem in ret (next e).
Definition list_prev (elem : Z) : H Z :=
  let! ok := orM (is_interior elem) (is_tail elem) in
  let! _ := ASSERT ok in
  let! e := load elem in ret (prev e).

Definition list_insert (before elem : Z) : H unit :=
  let! ok := orM (is_interior before) (is_tail before) in
  let! _ := ASSERT ok in
  let! _ := ASSERT (negb (elem =? NULL)) in
  let! b := load before in
  let! _ := set_prev elem (prev b) in
  let! _ := set_next elem before in
  let! b := load before in
  let! _ := set_next (prev b) elem in
  set_prev before elem.

Definition list_splice (before first last : Z) : H unit :=
  let! ok := orM (is_interior before) (is_tail before) in
  let! _ := ASSERT ok in
  if first =? last then ret tt
  else
    let! last := list_prev last in
    let! ok := is_interior first in
    let! _ := ASSERT ok in
    let! ok := is_interior last in
    let! _ := ASSERT ok in
    let! f := load first in
    let! l := load last in
    let! _ := set_next (prev f) (next l) in
    let! f := load first in
    let! l := load last in
    let! _ := set_prev (next l) (prev f) in
    let! b := load before in
    let! _ := set_prev first (prev b) in
    let! _ := set_next last before in
    let! b := load before in
    let! _ := set_next (prev b) first in
    set_prev before last.

Definition list_push_front (l : clist) (elem : Z) : H unit :=
  let! b := list_begin l in list_insert b elem.
Definition list_push_back (l : clist) (elem : Z) : H unit := list_insert (list_end l) elem.

Definition list_remove (elem : Z) : H Z :=
  let! ok := is_interior elem in
  let! _ := ASSERT ok in
  let! e := load elem in
  let! _ := set_next (prev e) (next e) in
  let! e := load elem in
  let! _ := set_prev (next e) (prev e) in
  let! e := load elem in
  ret (next e).

Definition list_empty (l : clist) : H bool := let! b := list_begin l in ret (b =? list_end l).

Definition list_front (l : clist) : H Z :=
  let! e := list_empty l in
  let! _ := ASSERT (negb e) in
  let! h := load (head l) in ret (next h).
Definition list_back (l : clist) : H Z :=
  let! e := list_empty l in
  let! _ := ASSERT (negb e) in
  let! t := load (tail l) in ret (prev t).

Definition list_pop_front (l : clist) : H Z :=
  let! front := list_front l in
  let! _ := list_remove front in
  ret front.
Definition list_pop_back (l : clist) : H Z :=
  let! back := list_back l in
  let! _ := list_remove back in
  ret back.

Fixpoint size_loop (fuel : nat) (e stop cnt : Z) : H Z :=
  if e =? stop then ret cnt
  else match fuel with
  | O => out_of_fuel
  | S fuel => let! e := list_next e in size_loop fuel e stop (u32 (cnt + 1))
  end.
Definition list_size (fuel : nat) (l : clist) : H Z :=
  let! e := list_begin l in size_loop fuel e (list_end l) 0.

(** The loop of [list_reverse]: [swap (&e->prev, &e->next)], then [e->prev]. *)
Fixpoint reverse_loop (fuel : nat) (e stop : Z) : H unit :=
  if e =? stop then ret tt
  else match fuel with
  | O => out_of_fuel
  | S fuel =>
      let! x := load e in
      let! _ := set_prev e (next x) in
      let! _ := set_next e (prev x) in
      let! x := load e in
      reverse_loop fuel (prev x) stop
  end.

(** The two swaps at the end exchange the pointers of the sentinels, then those
    of the elements next to them. *)
Definition list_reverse (fuel : nat) (l : clist) : H unit :=
  let! empty := list_empty l in
  if empty then ret tt
  else
    let! e := list_begin l in
    let! _ := reverse_loop fuel e (list_end l) in
    let! h := load (head l) in
    let! t := load (tail l) in
    let! _ := set_next (head l) (prev t) in
    let! _ := set_prev (tail l) (next h) in
    let! h := load (head l) in
    let! t := load (tail l) in
    let! f := load (next h) in
    let! b := load (prev t) in
    let! _ := set_prev (next h) (next b) in
    set_next (prev t) (prev f).

(** ** With a comparison *)

Section Less.
Variable less : Z → Z → bool.

Fixpoint sorted_loop (fuel : nat) (a b : Z) : H bool :=
  match fuel with
  | O => out_of_fuel
  | S fuel =>
      let! a := list_next a in
      if a =? b then ret true
      else
        let! p := list_prev a in
        if less a p then ret false else sorted_loop fuel a b
  end.
Definition is_sorted (fuel : nat) (a b : Z) : H bool :=
  if a =? b then ret true else sorted_loop fuel a b.

Fixpoint run_loop (fuel : nat) (a b : Z) : H Z :=
  match fuel with
  | O => out_of_fuel
  | S fuel =>
      let! a := list_next a in
      if a =? b then ret a
      else
        let! p := list_prev a in
        if less a p then ret a else run_loop fuel a b
  end.
Definition find_end_of_run (fuel : nat) (a b : Z) : H Z :=
  let! _ := ASSERT (negb (a =? NULL)) in
  let! _ := ASSERT (negb (b =? NULL)) in
  let! _ := ASSERT (negb (a =? b)) in
  run_loop fuel a b.

Fixpoint merge_loop (fuel : nat) (a0 a1b0 b1 : Z) : H unit :=
  if (a0 =? a1b0) || (a1b0 =? b1) then ret tt
  else match fuel with
  | O => out_of_fuel
  | S fuel =>
      if negb (less a1b0 a0) then
        let! a0 := list_next a0 in
        merge_loop fuel a0 a1b0 b1
      else
        let! a1b0 := list_next a1b0 in
        let! p := list_prev a1b0 in
        let! _ := list_splice a0 p a1b0 in
        merge_loop fuel a0 a1b0 b1
  end.
Definition inplace_merge (fuel : nat) (a0 a1b0 b1 : Z) : H unit :=
  let! _ := ASSERT (negb (a0 =? NULL)) in
  let! _ := ASSERT (negb (a1b0 =? NULL)) in
  let! _ := ASSERT (negb (b1 =? NULL)) in
  let! ok := is_sorted fuel a0 a1b0 in
  let! _ := ASSERT ok in
  let! ok := is_sorted fuel a1b0 b1 in
  let! _ := ASSERT ok in
  merge_loop fuel a0 a1b0 b1.

(** One pass of [list_sort] from [a0], and the number of runs it output. *)
Fixpoint sort_pass (n : nat) (fuel : nat) (stop a0 cnt : Z) : H Z :=
  if a0 =? stop then ret cnt
  else match n with
  | O => out_of_fuel
  | S n =>
      let cnt := u32 (cnt + 1) in
      let! a1b0 := find_end_of_run fuel a0 stop in
      if a1b0 =? stop then ret cnt
      else
        let! b1 := find_end_of_run fuel a1b0 stop in
        let! _ := inplace_merge fuel a0 a1b0 b1 in
        sort_pass n fuel stop b1 cnt
  end.

Fixpoint sort_loop (n : nat) (fuel : nat) (l : clist) : H unit :=
  match n with
  | O => out_of_fuel
  | S n =>
      let! a0 := list_begin l in
      let! cnt := sort_pass fuel fuel (list_end l) a0 0 in
      if 1 <? cnt then sort_loop n fuel l else ret tt
  end.

Definition list_sort (fuel : nat) (l : clist) : H unit :=
  let! _ := sort_loop fuel fuel l in
  let! b := list_begin l in
  let! ok := is_sorted fuel b (list_end l) in
  ASSERT ok.

Fixpoint ordered_loop (fuel : nat) (e stop elem : Z) : H Z :=
  if e =? stop then ret e
  else match fuel with
  | O => out_of_fuel
  | S fuel =>
      if less elem e then ret e
      else let! e := list_next e in ordered_loop fuel e stop elem
  end.
Definition list_insert_ordered (fuel : nat) (l : clist) (elem : Z) : H unit :=
  let! _ := ASSERT (negb (elem =? NULL)) in
  let! b := list_begin l in
  let! e := ordered_loop fuel b (list_end l) elem in
  list_insert e elem.

Fixpoint unique_loop (fuel : nat) (l : clist) (duplicates : option clist) (elem : Z) : H unit :=
  match fuel with
  | O => out_of_fuel
  | S fuel =>
      let! nxt := list_next elem in
      if nxt =? list_end l then ret tt
      else if negb (less elem nxt) && negb (less nxt elem) then
        let! _ := list_remove nxt in
        let! _ := (match duplicates with
                   | Some d => list_push_back d nxt
                   | None => ret tt
                   end) in
        unique_loop fuel l duplicates elem
      else unique_loop fuel l duplicates nxt
  end.
Definition list_unique (fuel : nat) (l : clist) (duplicates : option clist) : H unit :=
  let! empty := list_empty l in
  if empty then ret tt
  else
    let! elem := list_begin l in
    unique_loop fuel l duplicates elem.

Fixpoint max_loop (fuel : nat) (e stop max : Z) : H Z :=
  if e =? stop then ret max
  else match fuel with
  | O => out_of_fuel
  | S fuel =>
      let max := if less max e then e else max in
      let! e := list_next e in max_loop fuel e stop max
  end.
Definition list_max (fuel : nat) (l : clist) : H Z :=
  let! max := list_begin l in
  if max =? list_end l then ret max
  else let! e := list_next max in max_loop fuel e (list_end l) max.

Fixpoint min_loop (fuel : nat) (e stop min : Z) : H Z :=
  if e =? stop then ret min
  else match fuel with
  | O => out_of_fuel
  | S fuel =>
      let min := if less e min then e else min in
      let! e := list_next e in min_loop fuel e stop min
  end.
Definition list_min (fuel : nat) (l : clist) : H Z :=
  let! min := list_begin l in
  if min =? list_end l then ret min
  else let! e := list_next min in min_loop fuel e (list_end l) min.
End Less.
