(* ===== verification/CListSpec.v ===== *)
(** * Lists in memory and the sequences they hold

    [rep h l xs] says that the list [l] holds the elements [xs], in order: the
    nodes from the head sentinel to the tail sentinel are distinct, and each
    one points to its neighbours.  The operations of list.c are related to the
    operations on sequences, and leave the memory outside the list alone. *)

From S2P Require Import Prelude FsState CList.

(** ** Chains of nodes *)

Definition first_or (n : Z) (l : list Z) : Z := match l with [] => n | a :: _ => a end.
Fixpoint last_or (p : Z) (l : list Z) : Z :=
  match l with [] => p | a :: l => last_or a l end.

(** The nodes [l] point to each other, the first one back to [p] and the last
    one on to [n]. *)
Fixpoint chain (h : heap) (p : Z) (l : list Z) (n : Z) : Prop :=
  match l with
  | [] => True
  | a :: l => h !! a = Some (mk_elem p (first_or n l)) ∧ chain h a l n
  end.

Definition nodes (l : clist) (xs : list Z) : list Z := head l :: xs ++ [tail l].

(** A whole list, with its sentinels. *)
Definition ring (h : heap) (ns : list Z) : Prop :=
  NoDup ns ∧ (NULL ∉ ns) ∧ chain h NULL ns NULL.
Definition rep (h : heap) (l : clist) (xs : list Z) : Prop := ring h (nodes l xs).

(** [h'] is [h] outside the nodes [ns]. *)
Definition same_off (ns : list Z) (h h' : heap) : Prop := ∀ a, a ∉ ns → h' !! a = h !! a.

Lemma first_or_app n l l' : first_or n (l ++ l') = first_or (first_or n l') l.
Proof. by destruct l. Qed.

Lemma last_or_app p l l' : last_or p (l ++ l') = last_or (last_or p l) l'.
Proof. revert p. induction l as [|a l IH]; intros p; [done|apply IH]. Qed.

Lemma last_or_snoc p l a : last_or p (l ++ [a]) = a.
Proof. by rewrite last_or_app. Qed.

Lemma chain_app h p l l' n :
  chain h p (l ++ l') n ↔ chain h p l (first_or n l') ∧ chain h (last_or p l) l' n.
Proof.
  revert p. induction l as [|a l IH]; intros p; simpl; [naive_solver|].
  rewrite IH, first_or_app. naive_solver.
Qed.

Lemma chain_cons h p a l n :
  chain h p (a :: l) n ↔ h !! a = Some (mk_elem p (first_or n l)) ∧ chain h a l n.
Proof. done. Qed.

Lemma chain_off h h' p l n :
  (∀ a, a ∈ l → h' !! a = h !! a) → chain h p l n → chain h' p l n.
Proof.
  revert p. induction l as [|a l IH]; intros p Hoff; [done|]. intros [Ha Hl]. split.
  - rewrite Hoff; [done|set_solver].
  - apply IH; [|done]. intros. apply Hoff. set_solver.
Qed.

Lemma chain_insert_ne h a e p l n : a ∉ l → chain h p l n → chain (<[a := e]> h) p l n.
Proof.
  intros Ha. apply chain_off. intros b Hb. apply lookup_insert_ne. set_solver.
Qed.

Lemma same_off_refl ns h : same_off ns h h.
Proof. done. Qed.

Lemma same_off_trans ns h1 h2 h3 : same_off ns h1 h2 → same_off ns h2 h3 → same_off ns h1 h3.
Proof. intros H1 H2 a Ha. by rewrite H2, H1. Qed.

Lemma same_off_weaken ns ns' h h' : ns ⊆ ns' → same_off ns h h' → same_off ns' h h'.
Proof. intros Hs Ho a Ha. apply Ho. set_solver. Qed.

Lemma ring_off ns h h' : (∀ a, a ∈ ns → h' !! a = h !! a) → ring h ns → ring h' ns.
Proof. intros Ho (Hd & Hn & Hc). split_and!; try done. by eapply chain_off. Qed.

Create HintDb clist.
#[export] Hint Resolve same_off_refl same_off_trans chain_insert_ne : clist.

(** Splits [NoDup] of a concatenation into distinctness facts. *)
Ltac split_nodup :=
  repeat match goal with
  | H : NoDup (_ ++ _) |- _ => apply list.NoDup_app in H as (? & ? & ?)
  | H : NoDup (_ :: _) |- _ => apply list.NoDup_cons in H as [? ?]
  end.

(** Proves [NoDup] of a concatenation from such facts. *)
Ltac solve_nodup :=
  repeat first [rewrite list.NoDup_app | rewrite list.NoDup_cons];
  split_and!; try done; try apply NoDup_nil_2; set_solver.

(** Splits chains, here and in the hypotheses, into nodes and segments. *)
Ltac split_chain :=
  repeat (rewrite ?chain_app, ?chain_cons, ?first_or_app, ?last_or_app in *; simpl in *);
  repeat match goal with H : _ ∧ _ |- _ => destruct H end.

(** A node or a segment of an updated chain. *)
Ltac solve_chain :=
  split_and?; try done;
  try (repeat (apply chain_insert_ne; [set_solver|]); done);
  try (by simplify_map_eq).

(** ** Steps *)

Lemma ASSERT_true {S} (s : S) : ASSERT true s = Ok (tt, s).
Proof. done. Qed.

Lemma load_run h p e : h !! p = Some e → load p h = Ok (e, h).
Proof. intros E. unfold load. by rewrite E. Qed.

Lemma set_prev_run h p x e :
  h !! p = Some e → set_prev p x h = Ok (tt, <[p := mk_elem x (next e)]> h).
Proof. intros E. unfold set_prev. by rewrite E. Qed.

Lemma set_next_run h p x e :
  h !! p = Some e → set_next p x h = Ok (tt, <[p := mk_elem (prev e) x]> h).
Proof. intros E. unfold set_next. by rewrite E. Qed.

(** Finds a node in a memory that has been updated. *)
Ltac lookup_now :=
  repeat first [rewrite lookup_insert_eq | rewrite lookup_insert_ne by done];
  first [reflexivity | eassumption].

(** Runs the next load or store, whose node is known. *)
Ltac hstep :=
  first
  [ erewrite (bind_Ok (load _)); [|apply load_run; lookup_now]
  | erewrite (bind_Ok (set_prev _ _)); [|apply set_prev_run; lookup_now]
  | erewrite (bind_Ok (set_next _ _)); [|apply set_next_run; lookup_now]
  | erewrite set_prev_run; [|lookup_now]
  | erewrite set_next_run; [|lookup_now] ]; simpl.

Lemma neq_NULL a : a ≠ NULL → (a =? NULL) = false.
Proof. apply Z.eqb_neq. Qed.

Lemma next_assert_run h a p n : h !! a = Some (mk_elem p n) → a ≠ NULL → n ≠ NULL →
  orM (is_head a) (is_interior a) h = Ok (true, h).
Proof.
  intros E Ha Hn. unfold orM, is_head, is_interior. rewrite (neq_NULL a) by done.
  unfold bind, load. rewrite E. simpl. rewrite (neq_NULL n) by done.
  destruct (p =? NULL) eqn:Hp; simpl; [done|]. rewrite E. simpl. by rewrite (neq_NULL n), Hp.
Qed.

Lemma prev_assert_run h a p n : h !! a = Some (mk_elem p n) → a ≠ NULL → p ≠ NULL →
  orM (is_interior a) (is_tail a) h = Ok (true, h).
Proof.
  intros E Ha Hp. unfold orM, is_tail, is_interior. rewrite (neq_NULL a) by done.
  unfold bind, load. rewrite E. simpl. rewrite (neq_NULL p) by done.
  destruct (n =? NULL) eqn:Hn; simpl; [|done]. rewrite E. simpl. by rewrite (neq_NULL p), Hn.
Qed.

Lemma interior_run h a p n : h !! a = Some (mk_elem p n) →
  a ≠ NULL → p ≠ NULL → n ≠ NULL → is_interior a h = Ok (true, h).
Proof.
  intros E Ha Hp Hn. unfold is_interior. rewrite (neq_NULL a) by done.
  unfold bind, load. rewrite E. simpl. by rewrite (neq_NULL p), (neq_NULL n).
Qed.

Lemma list_next_run h a p n : h !! a = Some (mk_elem p n) → a ≠ NULL → n ≠ NULL →
  list_next a h = Ok (n, h).
Proof.
  intros E Ha Hn. unfold list_next. rewrite (bind_Ok _ _ _ _ _ (next_assert_run _ _ _ _ E Ha Hn)).
  rewrite (bind_Ok _ _ _ _ _ (ASSERT_true _)).
  by rewrite (bind_Ok _ _ _ _ _ (load_run _ _ _ E)).
Qed.

Lemma list_prev_run h a p n : h !! a = Some (mk_elem p n) → a ≠ NULL → p ≠ NULL →
  list_prev a h = Ok (p, h).
Proof.
  intros E Ha Hn. unfold list_prev. rewrite (bind_Ok _ _ _ _ _ (prev_assert_run _ _ _ _ E Ha Hn)).
  rewrite (bind_Ok _ _ _ _ _ (ASSERT_true _)).
  by rewrite (bind_Ok _ _ _ _ _ (load_run _ _ _ E)).
Qed.

(** ** Insertion and removal *)

(** Insertion before the node [b] that follows [p]. *)
Lemma list_insert_ring h A p b D e e0 :
  ring h (A ++ p :: b :: D) → e ∉ A ++ p :: b :: D → e ≠ NULL → h !! e = Some e0 →
  ∃ h', list_insert b e h = Ok (tt, h') ∧ ring h' (A ++ p :: e :: b :: D) ∧
        same_off (A ++ p :: e :: b :: D) h h'.
Proof.
  intros (Hd & Hn & Hc) He HeN Hee. split_nodup. split_chain.
  assert (p ≠ b ∧ p ≠ e ∧ b ≠ e) as (? & ? & ?) by set_solver.
  assert (b ≠ NULL) by set_solver. assert (p ≠ NULL) by set_solver.
  eexists. split; [|split; [split_and!|]].
  - unfold list_insert.
    erewrite (bind_Ok (orM _ _)); [|eapply prev_assert_run; eauto].
    rewrite (bind_Ok _ _ _ _ _ (ASSERT_true _)), (neq_NULL e) by done.
    rewrite (bind_Ok _ _ _ _ _ (ASSERT_true _)).
    hstep. hstep. hstep. hstep. hstep. hstep. done.
  - solve_nodup.
  - set_solver.
  - split_chain. solve_chain.
  - intros a Ha. rewrite !lookup_insert_ne by set_solver. done.
Qed.

(** Removal of the node [e] between [p] and [n]. *)
Lemma list_remove_ring h A p e n D :
  ring h (A ++ p :: e :: n :: D) →
  ∃ h', list_remove e h = Ok (n, h') ∧ ring h' (A ++ p :: n :: D) ∧
        same_off (A ++ p :: n :: D) h h'.
Proof.
  intros (Hd & Hn & Hc). split_nodup. split_chain.
  assert (p ≠ e ∧ p ≠ n ∧ n ≠ e) as (? & ? & ?) by set_solver.
  assert (e ≠ NULL) by set_solver. assert (p ≠ NULL) by set_solver.
  assert (n ≠ NULL) by set_solver.
  eexists. split; [|split; [split_and!|]].
  - unfold list_remove.
    erewrite (bind_Ok (is_interior _)); [|eapply interior_run; eauto].
    rewrite (bind_Ok _ _ _ _ _ (ASSERT_true _)).
    hstep. hstep. hstep. hstep. hstep. done.
  - solve_nodup.
  - set_solver.
  - split_chain. solve_chain.
  - intros a Ha. rewrite !lookup_insert_ne by set_solver. done.
Qed.

(** ** Operations on a list *)

Lemma snoc_split (a : Z) l : ∃ A p, a :: l = A ++ [p].
Proof.
  destruct l as [|x l _] using rev_ind; [by exists [], a|]. by exists (a :: l), x.
Qed.

Lemma cons_split (a : Z) l : ∃ D, l ++ [a] = first_or a l :: D.
Proof. destruct l as [|x l]; [by exists []|]. by exists (l ++ [a]). Qed.

Lemma nodes_app l xs ys : nodes l (xs ++ ys) = (head l :: xs) ++ ys ++ [tail l].
Proof. unfold nodes. by rewrite <-app_assoc. Qed.

(** The nodes around the place between [xs] and [ys]. *)
Lemma nodes_split l xs ys : ∃ A p D,
  head l :: xs = A ++ [p] ∧ ys ++ [tail l] = first_or (tail l) ys :: D ∧
  nodes l (xs ++ ys) = A ++ p :: first_or (tail l) ys :: D.
Proof.
  destruct (snoc_split (head l) xs) as (A & p & E). destruct (cons_split (tail l) ys) as (D & E').
  exists A, p, D. split_and!; try done. rewrite nodes_app, E, E', <-app_assoc. done.
Qed.

Lemma list_insert_rep h l xs ys e e0 :
  rep h l (xs ++ ys) → e ∉ nodes l (xs ++ ys) → e ≠ NULL → h !! e = Some e0 →
  ∃ h', list_insert (first_or (tail l) ys) e h = Ok (tt, h') ∧ rep h' l (xs ++ e :: ys) ∧
        same_off (nodes l (xs ++ e :: ys)) h h'.
Proof.
  unfold rep. rewrite (nodes_app l xs (e :: ys)).
  destruct (nodes_split l xs ys) as (A & p & D & E1 & E2 & ->).
  change ((e :: ys) ++ [tail l]) with (e :: (ys ++ [tail l])).
  rewrite E1, E2, <-!app_assoc. apply list_insert_ring.
Qed.

Lemma list_remove_rep h l xs e ys :
  rep h l (xs ++ e :: ys) →
  ∃ h', list_remove e h = Ok (first_or (tail l) ys, h') ∧ rep h' l (xs ++ ys) ∧
        same_off (nodes l (xs ++ ys)) h h'.
Proof.
  unfold rep. rewrite (nodes_app l xs (e :: ys)).
  destruct (nodes_split l xs ys) as (A & p & D & E1 & E2 & ->).
  change ((e :: ys) ++ [tail l]) with (e :: (ys ++ [tail l])).
  rewrite E1, E2, <-!app_assoc. apply list_remove_ring.
Qed.

Lemma rep_head h l xs : rep h l xs →
  h !! head l = Some (mk_elem NULL (first_or (tail l) xs)).
Proof. intros (_ & _ & Hc). destruct Hc as [Hh _]. by rewrite first_or_app in Hh. Qed.

Lemma rep_tail h l xs : rep h l xs →
  h !! tail l = Some (mk_elem (last_or (head l) xs) NULL).
Proof. intros (_ & _ & Hc). unfold nodes in Hc. split_chain. done. Qed.

Lemma rep_node h l xs a ys : rep h l (xs ++ a :: ys) →
  h !! a = Some (mk_elem (last_or (head l) xs) (first_or (tail l) ys)).
Proof.
  intros (_ & _ & Hc). rewrite nodes_app in Hc. simpl in Hc. destruct Hc as [_ Hc].
  split_chain. done.
Qed.

(** The nodes of a list are distinct and are not null. *)
Lemma rep_distinct h l xs : rep h l xs →
  NoDup xs ∧ (tail l ∉ xs) ∧ (head l ∉ xs) ∧ (head l ≠ tail l) ∧ NULL ∉ nodes l xs.
Proof.
  intros (Hd & Hn & _). unfold nodes in *. split_nodup. split_and!; set_solver.
Qed.

Lemma first_or_nodes l xs ys : first_or (tail l) ys ∈ nodes l (xs ++ ys).
Proof. rewrite nodes_app. destruct ys; set_solver. Qed.

Lemma last_or_nodes l xs ys : last_or (head l) xs ∈ nodes l (xs ++ ys).
Proof.
  rewrite nodes_app. destruct xs as [|x xs _] using rev_ind; [set_solver|].
  rewrite last_or_snoc. set_solver.
Qed.

Lemma list_begin_run h l xs : rep h l xs → list_begin l h = Ok (first_or (tail l) xs, h).
Proof. intros Hr. unfold list_begin. by rewrite (bind_Ok _ _ _ _ _ (load_run _ _ _ (rep_head _ _ _ Hr))). Qed.

(** The end of a list is reached when no elements are left. *)
Lemma at_end h l xs ys : rep h l (xs ++ ys) →
  (first_or (tail l) ys =? tail l) = bool_decide (ys = []).
Proof.
  intros Hr. destruct ys as [|y ys]; simpl; [apply Z.eqb_refl|].
  apply Z.eqb_neq. destruct (rep_distinct _ _ _ Hr) as (_ & Ht & _). set_solver.
Qed.

Lemma list_empty_run h l xs : rep h l xs → list_empty l h = Ok (bool_decide (xs = []), h).
Proof.
  intros Hr. unfold list_empty. rewrite (bind_Ok _ _ _ _ _ (list_begin_run _ _ _ Hr)).
  unfold list_end. by rewrite (at_end h l [] xs).
Qed.

Lemma list_next_rep h l xs a ys : rep h l (xs ++ a :: ys) →
  list_next a h = Ok (first_or (tail l) ys, h).
Proof.
  intros Hr. destruct (rep_distinct _ _ _ Hr) as (_ & _ & _ & _ & Hn).
  eapply list_next_run; [by eapply rep_node| |].
  - intros ->. apply Hn. rewrite nodes_app. set_solver.
  - intros E. apply Hn. rewrite <-E. rewrite (cons_middle a), app_assoc. apply first_or_nodes.
Qed.

Lemma list_prev_rep h l xs a ys : rep h l (xs ++ a :: ys) →
  list_prev a h = Ok (last_or (head l) xs, h).
Proof.
  intros Hr. destruct (rep_distinct _ _ _ Hr) as (_ & _ & _ & _ & Hn).
  eapply list_prev_run; [by eapply rep_node| |].
  - intros ->. apply Hn. rewrite nodes_app. set_solver.
  - intros E. apply Hn. rewrite <-E. apply last_or_nodes.
Qed.

Lemma list_init_rep h l : NoDup [head l; tail l] → NULL ∉ [head l; tail l] →
  is_Some (h !! head l) → is_Some (h !! tail l) →
  ∃ h', list_init l h = Ok (tt, h') ∧ rep h' l [] ∧ same_off (nodes l []) h h'.
Proof.
  intros Hd Hn [eh Hh] [et Ht]. assert (head l ≠ tail l) by (split_nodup; set_solver).
  eexists. split; [|split; [split_and!|]].
  - unfold list_init. hstep. hstep. hstep. hstep. reflexivity.
  - done.
  - done.
  - simpl. split_and!; lookup_now.
  - intros a Ha. rewrite !lookup_insert_ne; set_solver.
Qed.

Lemma list_push_front_rep h l xs e e0 :
  rep h l xs → e ∉ nodes l xs → e ≠ NULL → h !! e = Some e0 →
  ∃ h', list_push_front l e h = Ok (tt, h') ∧ rep h' l (e :: xs) ∧
        same_off (nodes l (e :: xs)) h h'.
Proof.
  intros Hr. unfold list_push_front. rewrite (bind_Ok _ _ _ _ _ (list_begin_run _ _ _ Hr)).
  by apply (list_insert_rep h l [] xs).
Qed.

Lemma list_push_back_rep h l xs e e0 :
  rep h l xs → e ∉ nodes l xs → e ≠ NULL → h !! e = Some e0 →
  ∃ h', list_push_back l e h = Ok (tt, h') ∧ rep h' l (xs ++ [e]) ∧
        same_off (nodes l (xs ++ [e])) h h'.
Proof.
  intros Hr He. pose proof (list_insert_rep h l xs [] e e0) as Hi.
  rewrite app_nil_r in Hi. by apply Hi.
Qed.

Lemma list_front_run h l x xs : rep h l (x :: xs) → list_front l h = Ok (x, h).
Proof.
  intros Hr. unfold list_front. rewrite (bind_Ok _ _ _ _ _ (list_empty_run _ _ _ Hr)).
  rewrite (bind_Ok _ _ _ _ _ (ASSERT_true _)).
  by rewrite (bind_Ok _ _ _ _ _ (load_run _ _ _ (rep_head _ _ _ Hr))).
Qed.

Lemma list_back_run h l x xs : rep h l (xs ++ [x]) → list_back l h = Ok (x, h).
Proof.
  intros Hr. unfold list_back. rewrite (bind_Ok _ _ _ _ _ (list_empty_run _ _ _ Hr)).
  rewrite bool_decide_eq_false_2 by (by destruct xs). rewrite (bind_Ok _ _ _ _ _ (ASSERT_true _)).
  rewrite (bind_Ok _ _ _ _ _ (load_run _ _ _ (rep_tail _ _ _ Hr))). simpl.
  by rewrite last_or_snoc.
Qed.

Lemma list_pop_front_rep h l x xs : rep h l (x :: xs) →
  ∃ h', list_pop_front l h = Ok (x, h') ∧ rep h' l xs ∧ same_off (nodes l xs) h h'.
Proof.
  intros Hr. unfold list_pop_front. rewrite (bind_Ok _ _ _ _ _ (list_front_run _ _ _ _ Hr)).
  destruct (list_remove_rep h l [] x xs Hr) as (h' & E & Hr' & Ho).
  rewrite (bind_Ok _ _ _ _ _ E). by exists h'.
Qed.

Lemma list_pop_back_rep h l x xs : rep h l (xs ++ [x]) →
  ∃ h', list_pop_back l h = Ok (x, h') ∧ rep h' l xs ∧ same_off (nodes l xs) h h'.
Proof.
  intros Hr. unfold list_pop_back. rewrite (bind_Ok _ _ _ _ _ (list_back_run _ _ _ _ Hr)).
  destruct (list_remove_rep h l xs x [] Hr) as (h' & E & Hr' & Ho).
  rewrite (bind_Ok _ _ _ _ _ E). rewrite app_nil_r in *. by exists h'.
Qed.

Lemma list_pop_empty h l : rep h l [] → list_pop_front l h = Panic ∧ list_pop_back l h = Panic.
Proof.
  intros Hr. unfold list_pop_front, list_pop_back, list_front, list_back, bind.
  by rewrite (list_empty_run _ _ _ Hr).
Qed.

(** ** Walks *)

Lemma size_loop_run h l xs ys fuel c : rep h l (xs ++ ys) → (length ys ≤ fuel)%nat →
  0 ≤ c → c + Z.of_nat (length ys) < 2 ^ 32 →
  size_loop fuel (first_or (tail l) ys) (tail l) c h = Ok (c + Z.of_nat (length ys), h).
Proof.
  revert xs fuel c. induction ys as [|y ys IH]; intros xs fuel c Hr Hf H0 H1.
  - destruct fuel; cbn [size_loop first_or]; rewrite Z.eqb_refl; unfold ret; do 2 f_equal; simpl; lia.
  - destruct fuel as [|fuel]; [simpl in Hf; lia|]. cbn [size_loop].
    rewrite (at_end h l xs (y :: ys) Hr), bool_decide_eq_false_2 by done. cbn match.
    rewrite (bind_Ok _ _ _ _ _ (list_next_rep _ _ _ _ _ Hr)). simpl length in *.
    rewrite (uwrap_id 32) by (unfold in_u; lia).
    rewrite (IH (xs ++ [y])); [do 2 f_equal; lia| |lia..]. by rewrite <-app_assoc.
Qed.

Lemma list_size_run h l xs fuel : rep h l xs → (length xs ≤ fuel)%nat → Z.of_nat (length xs) < 2 ^ 32 →
  list_size fuel l h = Ok (Z.of_nat (length xs), h).
Proof.
  intros Hr Hf Hl. unfold list_size. rewrite (bind_Ok _ _ _ _ _ (list_begin_run _ _ _ Hr)).
  by rewrite (size_loop_run h l [] xs).
Qed.
