(* ===== verification/CListOps.v ===== *)
(** * Whole-list operations of lib/kernel/list.c

    The four ends of a list as a refinement of a sequence, [list_reverse],
    and the operations that take a comparison: [list_insert_ordered],
    [list_unique], [list_max] and [list_min]. *)

From Stdlib Require Export Sorted.
From S2P Require Import Prelude FsState CList CListSpec.

(** ** Reversal *)

Lemma last_or_reverse n ys : last_or n (reverse ys) = first_or n ys.
Proof.
  destruct ys as [|y ys]; [done|]. rewrite reverse_cons. apply last_or_snoc.
Qed.

Lemma first_or_reverse n ys : first_or n (reverse ys) = last_or n ys.
Proof. by rewrite <-(last_or_reverse n (reverse ys)), reverse_involutive. Qed.

Lemma reverse_loop_run ys h p n fuel :
  chain h p ys n → NoDup ys → n ∉ ys → (length ys ≤ fuel)%nat →
  ∃ h', reverse_loop fuel (first_or n ys) n h = Ok (tt, h') ∧
        chain h' n (reverse ys) p ∧ same_off ys h h'.
Proof.
  revert h p fuel. induction ys as [|y ys IH]; intros h p fuel Hc Hd Hn Hf.
  - exists h. destruct fuel; cbn [reverse_loop first_or]; by rewrite Z.eqb_refl.
  - destruct fuel as [|fuel]; [simpl in Hf; lia|]. destruct Hc as [Hy Hc]. split_nodup.
    assert (y ≠ n) by set_solver. cbn [reverse_loop first_or].
    rewrite (proj2 (Z.eqb_neq y n)) by done. cbn match.
    hstep. hstep. hstep. hstep.
    destruct (IH (<[y:=mk_elem (first_or n ys) p]> (<[y:=mk_elem (first_or n ys) (first_or n ys)]> h))
                y fuel) as (h' & E & Hc' & Ho); [..|set_solver|simpl in Hf; lia|].
    { by do 2 (apply chain_insert_ne; [done|]). }
    { done. }
    exists h'. rewrite reverse_cons, chain_app, last_or_reverse. split_and!; try done.
    + split; [|done]. rewrite Ho by done. lookup_now.
    + intros a Ha. rewrite Ho by set_solver. rewrite !lookup_insert_ne; set_solver.
Qed.

(** The exchanges at the sentinels close a chain that runs backwards. *)
Lemma reverse_ends h l ys f b :
  h !! head l = Some (mk_elem NULL b) → h !! tail l = Some (mk_elem f NULL) →
  NoDup (nodes l ys) → chain h (tail l) ys (head l) → ys ≠ [] →
  f = first_or (head l) ys → b = last_or (tail l) ys →
  ∃ h', (let! h := load (head l) in
         let! t := load (tail l) in
         let! _ := set_next (head l) (prev t) in
         let! _ := set_prev (tail l) (next h) in
         let! h := load (head l) in
         let! t := load (tail l) in
         let! f := load (next h) in
         let! b := load (prev t) in
         let! _ := set_prev (next h) (next b) in
         set_next (prev t) (prev f)) h = Ok (tt, h') ∧
        chain h' NULL (nodes l ys) NULL ∧ same_off (nodes l ys) h h'.
Proof.
  intros Hh Ht Hd Hc Hys -> ->. destruct ys as [|x ys]; [done|]. clear Hys.
  unfold nodes in *. destruct ys as [|y ys _] using rev_ind; split_nodup; split_chain.
  - assert (head l ≠ tail l ∧ x ≠ head l ∧ x ≠ tail l) as (? & ? & ?) by (split_and!; set_solver).
    do 10 hstep. eexists. split_and!; [done|lookup_now..|done|].
    intros a Ha. rewrite !lookup_insert_ne; set_solver.
  - assert (head l ≠ tail l ∧ x ≠ head l ∧ x ≠ tail l ∧ y ≠ head l ∧ y ≠ tail l ∧ x ≠ y)
      as (? & ? & ? & ? & ? & ?) by (split_and!; set_solver).
    do 10 hstep. eexists. split_chain. split_and!; [done|solve_chain..|].
    intros a Ha. rewrite !lookup_insert_ne; set_solver.
Qed.

Lemma rep_chain h l xs : rep h l xs → chain h (head l) xs (tail l).
Proof. intros (_ & _ & Hc). unfold nodes in Hc. split_chain. done. Qed.

Lemma nodes_reverse l xs : nodes l (reverse xs) ≡ₚ nodes l xs.
Proof. unfold nodes. by rewrite (reverse_Permutation xs). Qed.

(** [list_reverse] on a list that holds [xs] terminates within [length xs]
    steps of its loop, leaves the list holding [xs] in the opposite order with
    every back pointer right, and touches no memory outside the list. *)
Theorem list_reverse_correct h l xs fuel :
  rep h l xs → (length xs ≤ fuel)%nat →
  ∃ h', list_reverse fuel l h = Ok (tt, h') ∧ rep h' l (reverse xs) ∧
        same_off (nodes l xs) h h'.
Proof.
  intros Hr Hf. unfold list_reverse. rewrite (bind_Ok _ _ _ _ _ (list_empty_run _ _ _ Hr)).
  case_bool_decide as Hx; [subst; by exists h|].
  rewrite (bind_Ok _ _ _ _ _ (list_begin_run _ _ _ Hr)). unfold list_end.
  destruct (rep_distinct _ _ _ Hr) as (Hd & Ht & Hh & Hne & Hn).
  destruct (reverse_loop_run xs h (head l) (tail l) fuel) as (h1 & E & Hc & Ho);
    [by apply rep_chain|done..|].
  rewrite (bind_Ok _ _ _ _ _ E).
  assert (NoDup (nodes l (reverse xs))) as Hd'
    by (rewrite nodes_reverse; by destruct Hr as [? _]).
  edestruct (reverse_ends h1 l (reverse xs)) as (h' & E' & Hc' & Ho'); [..|exists h'].
  - rewrite Ho by done. by apply rep_head.
  - rewrite Ho by done. by apply rep_tail.
  - done.
  - done.
  - by intros ?%(inj reverse _ []).
  - by rewrite first_or_reverse.
  - by rewrite last_or_reverse.
  - rewrite E'. split_and!; [done| |].
    + split_and!; [done|by rewrite nodes_reverse|done].
    + apply (same_off_trans _ _ h1).
      * apply (same_off_weaken xs); [unfold nodes; set_solver|done].
      * apply (same_off_weaken (nodes l (reverse xs))); [|done]. by rewrite nodes_reverse.
Qed.

(** ** A list as a deque *)

(** What a caller does with a list: add an element at an end, take one out at
    an end, or remove an element it knows to be in the list. *)
Inductive op := PushFront (e : Z) | PushBack (e : Z) | PopFront | PopBack | Remove (e : Z).

(** The operation on memory, and the element it returns. *)
Definition run_op (l : clist) (o : op) : H (option Z) :=
  match o with
  | PushFront e => let! _ := list_push_front l e in ret None
  | PushBack e => let! _ := list_push_back l e in ret None
  | PopFront => let! x := list_pop_front l in ret (Some x)
  | PopBack => let! x := list_pop_back l in ret (Some x)
  | Remove e => let! _ := list_remove e in ret None
  end.

(** The operation on a sequence.  Taking from an empty sequence is a panic. *)
Definition abs_op (o : op) (xs : list Z) : outcome (option Z * list Z) :=
  match o with
  | PushFront e => Ok (None, e :: xs)
  | PushBack e => Ok (None, xs ++ [e])
  | PopFront => match xs with [] => Panic | x :: xs => Ok (Some x, xs) end
  | PopBack => match reverse xs with [] => Panic | x :: ys => Ok (Some x, reverse ys) end
  | Remove e => Ok (None, filter (λ x, x ≠ e) xs)
  end.

(** The contract: elements that are added are not in the list, elements that
    are removed are. *)
Definition op_ok (pool : list Z) (o : op) (xs : list Z) : bool :=
  match o with
  | PushFront e | PushBack e => bool_decide (e ∈ pool) && bool_decide (e ∉ xs)
  | Remove e => bool_decide (e ∈ xs)
  | _ => true
  end.

Fixpoint run_ops (l : clist) (os : list op) : H (list (option Z)) :=
  match os with
  | [] => ret []
  | o :: os => let! r := run_op l o in let! rs := run_ops l os in ret (r :: rs)
  end.
Fixpoint abs_ops (os : list op) (xs : list Z) : outcome (list (option Z) * list Z) :=
  match os with
  | [] => Ok ([], xs)
  | o :: os =>
      let? '(r, xs) := abs_op o xs in
      let? '(rs, xs) := abs_ops os xs in
      Ok (r :: rs, xs)
  end.
Fixpoint ops_ok (pool : list Z) (os : list op) (xs : list Z) : bool :=
  match os with
  | [] => true
  | o :: os =>
      op_ok pool o xs &&
      match abs_op o xs with Ok (_, xs) => ops_ok pool os xs | _ => true end
  end.

(** The elements that may be in the list are nodes in memory, apart from the
    sentinels. *)
Definition pool_ok (h : heap) (l : clist) (pool : list Z) : Prop :=
  ∀ e, e ∈ pool → e ≠ NULL ∧ e ≠ head l ∧ e ≠ tail l ∧ is_Some (h !! e).

Lemma chain_alloc h p l n a : chain h p l n → a ∈ l → is_Some (h !! a).
Proof.
  revert p. induction l as [|b l IH]; intros p; [set_solver|]. simpl.
  intros [Hb Hl] [->|Ha]%elem_of_cons; [eauto|by eapply IH].
Qed.

Lemma pool_keep h h' l xs pool :
  rep h' l xs → same_off (nodes l xs) h h' → pool_ok h l pool → pool_ok h' l pool.
Proof.
  intros (_ & _ & Hc) Ho Hp e He. destruct (Hp e He) as (? & ? & ? & Hs). split_and!; try done.
  destruct (decide (e ∈ nodes l xs)); [by eapply chain_alloc|]. by rewrite Ho.
Qed.

Lemma fresh_node h l pool xs e : pool_ok h l pool → e ∈ pool → e ∉ xs →
  (e ∉ nodes l xs) ∧ e ≠ NULL ∧ ∃ e0, h !! e = Some e0.
Proof.
  intros Hp He Hx. destruct (Hp e He) as (? & ? & ? & [e0 ?]). unfold nodes. set_solver.
Qed.

(** What a run of operations must do when the sequence does [o]. *)
Definition matches {A} (l : clist) (pool : list Z) (o : outcome (A * list Z))
    (m : outcome (A * heap)) : Prop :=
  match o with
  | Ok (r, xs') => ∃ h', m = Ok (r, h') ∧ rep h' l xs' ∧ pool_ok h' l pool
  | Panic => m = Panic
  | _ => False
  end.

Lemma run_op_matches h l pool xs o :
  rep h l xs → pool_ok h l pool → op_ok pool o xs = true →
  matches l pool (abs_op o xs) (run_op l o h).
Proof.
  intros Hr Hp Ho. destruct o as [e|e| | |e]; simpl in Ho; unfold run_op, abs_op.
  - apply andb_true_iff in Ho as [He Hx]. apply bool_decide_eq_true in He, Hx.
    destruct (fresh_node _ _ _ _ _ Hp He Hx) as (Hf & HN & e0 & Ee).
    destruct (list_push_front_rep _ _ _ _ _ Hr Hf HN Ee) as (h' & E & Hr' & Hs).
    rewrite (bind_Ok _ _ _ _ _ E). eexists. split; [done|]. eauto using pool_keep.
  - apply andb_true_iff in Ho as [He Hx]. apply bool_decide_eq_true in He, Hx.
    destruct (fresh_node _ _ _ _ _ Hp He Hx) as (Hf & HN & e0 & Ee).
    destruct (list_push_back_rep _ _ _ _ _ Hr Hf HN Ee) as (h' & E & Hr' & Hs).
    rewrite (bind_Ok _ _ _ _ _ E). eexists. split; [done|]. eauto using pool_keep.
  - destruct xs as [|x xs]; simpl; [unfold bind; by rewrite (proj1 (list_pop_empty _ _ Hr))|].
    destruct (list_pop_front_rep _ _ _ _ Hr) as (h' & E & Hr' & Hs).
    rewrite (bind_Ok _ _ _ _ _ E). eexists. split; [done|]. eauto using pool_keep.
  - destruct xs as [|x xs _] using rev_ind; simpl.
    { unfold bind. by rewrite (proj2 (list_pop_empty _ _ Hr)). }
    rewrite reverse_snoc. destruct (list_pop_back_rep _ _ _ _ Hr) as (h' & E & Hr' & Hs).
    rewrite (bind_Ok _ _ _ _ _ E). eexists. split; [done|]. rewrite reverse_involutive.
    eauto using pool_keep.
  - apply bool_decide_eq_true in Ho. apply list_elem_of_split in Ho as (ys & zs & ->).
    destruct (list_remove_rep _ _ _ _ _ Hr) as (h' & E & Hr' & Hs).
    rewrite (bind_Ok _ _ _ _ _ E). eexists. split; [done|].
    destruct (rep_distinct _ _ _ Hr) as (Hd & _). split_nodup.
    rewrite list.filter_app, filter_cons_False, !filter_ne_id by set_solver. eauto using pool_keep.
Qed.

Lemma run_ops_matches l pool os h xs :
  rep h l xs → pool_ok h l pool → ops_ok pool os xs = true →
  matches l pool (abs_ops os xs) (run_ops l os h).
Proof.
  revert h xs. induction os as [|o os IH]; intros h xs Hr Hp Ho; [by exists h|].
  simpl in Ho. apply andb_true_iff in Ho as [H1 H2].
  pose proof (run_op_matches _ _ _ _ _ Hr Hp H1) as Hm. simpl.
  destruct (abs_op o xs) as [[r xs']| | |]; simpl in Hm; try done.
  - destruct Hm as (h' & E & Hr' & Hp'). simpl. rewrite (bind_Ok _ _ _ _ _ E).
    specialize (IH _ _ Hr' Hp' H2). destruct (abs_ops os xs') as [[rs ys]| | |]; simpl in IH |- *;
      try done.
    + destruct IH as (h'' & E' & ?). rewrite (bind_Ok _ _ _ _ _ E'). by exists h''.
    + unfold bind. by rewrite IH.
  - simpl. unfold bind. by rewrite Hm.
Qed.

(** C12. A list is a deque.  After [list_init], any sequence of additions and
    removals at both ends and of [list_remove] on elements of the list, in any
    order, does on memory what it does on a sequence that starts empty: it
    returns the same elements, ends with the list holding the same sequence, and
    it panics exactly when an element is taken from an empty sequence. *)
Theorem list_refines_sequence h l pool os :
  NoDup [head l; tail l] → NULL ∉ [head l; tail l] →
  is_Some (h !! head l) → is_Some (h !! tail l) → pool_ok h l pool →
  ops_ok pool os [] = true →
  matches l pool (abs_ops os []) ((let! _ := list_init l in run_ops l os) h).
Proof.
  intros Hd Hn Hh Ht Hp Ho. destruct (list_init_rep _ _ Hd Hn Hh Ht) as (h' & E & Hr & Hs).
  rewrite (bind_Ok _ _ _ _ _ E). apply run_ops_matches; [done| |done]. by eapply pool_keep.
Qed.

(** Five nodes in memory, the first two of them the sentinels of a list. *)
Definition sample_list : clist := mk_clist 1 2.
Definition sample_heap : heap :=
  list_to_map ((λ a, (a, mk_elem 0 0)) <$> [1; 2; 3; 4; 5; 6; 7]).

Definition sample_ops : list op :=
  [PushBack 3; PushFront 4; PushBack 5; PopBack; Remove 4; PopFront; PopFront].

Lemma list_refines_sequence_witness :
  ops_ok [3; 4; 5] sample_ops [] = true ∧
  (let! _ := list_init sample_list in run_ops sample_list sample_ops) sample_heap = Panic.
Proof.
  split; [done|].
  apply (list_refines_sequence sample_heap sample_list [3; 4; 5] sample_ops).
  - apply (bool_decide_eq_true_1 _); vm_compute; reflexivity.
  - apply (bool_decide_eq_true_1 _); vm_compute; reflexivity.
  - by eexists.
  - by eexists.
  - intros e He. repeat (apply elem_of_cons in He as [->|He]; [by split_and!; try eexists|]).
    by apply elem_of_nil in He.
  - vm_compute; reflexivity.
Defined.

Lemma list_reverse_correct_witness :
  ∃ h', list_reverse 3 sample_list
          (list_to_map [(1, mk_elem 0 3); (3, mk_elem 1 4); (4, mk_elem 3 2); (2, mk_elem 4 0)])
          = Ok (tt, h') ∧ rep h' sample_list [4; 3].
Proof.
  destruct (list_reverse_correct
    (list_to_map [(1, mk_elem 0 3); (3, mk_elem 1 4); (4, mk_elem 3 2); (2, mk_elem 4 0)])
    sample_list [3; 4] 3) as (h' & E & Hr & _); [|simpl; lia|by exists h'].
  split_and!; [apply (bool_decide_eq_true_1 _); vm_compute; reflexivity..|].
  by repeat split.
Defined.

(** ** Comparisons *)

(** What list.h asks of a [list_less_func]: a strict weak order. *)
Class WeakOrder (less : Z → Z → bool) : Prop := {
  less_asym a b : less a b = true → less b a = false;
  le_trans a b c : less b a = false → less c b = false → less c a = false }.

(** [a] may stand before [b]. *)
Definition may_precede (less : Z → Z → bool) (a b : Z) : Prop := less b a = false.

(** [a] and [b] are equal according to [less]. *)
Definition equal (less : Z → Z → bool) (a b : Z) : bool := negb (less a b) && negb (less b a).

Abbreviation sorted less := (StronglySorted (may_precede less)).

(** The element kept by a step of the search: the old one, unless the new one is
    better. *)
Definition best (better : Z → Z → bool) (m e : Z) : Z := if better e m then e else m.

Lemma less_irrefl less a : WeakOrder less → less a a = false.
Proof. intros Ho. destruct (less a a) eqn:E; [|done]. by rewrite (less_asym a a E) in E. Qed.

#[export] Instance flip_order less : WeakOrder less → WeakOrder (flip less).
Proof.
  intros Ho. split; unfold flip; intros.
  - by apply less_asym.
  - by eapply le_trans.
Qed.

(** The search ends at the best element, and at the first of them. *)
Lemma best_correct better `{!WeakOrder better} m ys : ∃ pre post,
  m :: ys = pre ++ foldl (best better) m ys :: post ∧
  Forall (λ x, better (foldl (best better) m ys) x = true) pre ∧
  Forall (λ x, better x (foldl (best better) m ys) = false) (m :: ys).
Proof.
  induction ys as [|y ys (pre & post & E & Hpre & Hall)] using rev_ind.
  - exists [], []. split_and!; [done..|]. repeat constructor. apply less_irrefl, _.
  - rewrite foldl_app, app_comm_cons. simpl. set (r := foldl (best better) m ys) in *.
    unfold best. destruct (better y r) eqn:Hy.
    + exists (m :: ys), []. split_and!; [done| |].
      * eapply list.Forall_impl; [exact Hall|]. simpl. intros x Hx.
        destruct (better y x) eqn:Hyx; [done|].
        by rewrite (le_trans _ _ _ Hx Hyx) in Hy.
      * rewrite app_comm_cons. apply Forall_app. split; [|repeat constructor; apply less_irrefl, _].
        eapply list.Forall_impl; [exact Hall|]. simpl. intros x Hx.
        eapply le_trans; [|exact Hx]. by apply less_asym.
    + change (m :: ys ++ [y]) with ((m :: ys) ++ [y]). exists pre, (post ++ [y]).
      split_and!; [by rewrite E, <-app_assoc|done|]. apply Forall_app.
      split; [done|]. constructor; [done|constructor].
Qed.

Section Less.
Context (less : Z → Z → bool).

(** Where [list_insert_ordered] puts an element: before the first one that is
    greater. *)
Fixpoint insert_before (e : Z) (xs : list Z) : list Z :=
  match xs with
  | [] => [e]
  | x :: xs => if less e x then e :: x :: xs else x :: insert_before e xs
  end.

Lemma insert_before_Permutation e xs : insert_before e xs ≡ₚ e :: xs.
Proof.
  induction xs as [|x xs IH]; simpl; [done|]. destruct (less e x); [done|].
  rewrite IH. apply perm_swap.
Qed.

Lemma insert_before_sorted `{!WeakOrder less} e xs :
  sorted less xs → sorted less (insert_before e xs).
Proof.
  induction 1 as [|x xs Hs IH Hx]; simpl; [repeat constructor|].
  destruct (less e x) eqn:E.
  - assert (may_precede less e x) as Hex by (by apply less_asym).
    constructor; [by constructor|]. constructor; [done|].
    eapply list.Forall_impl; [exact Hx|]. intros y Hy. by eapply le_trans.
  - constructor; [done|]. rewrite insert_before_Permutation. by constructor.
Qed.

(** In a sorted list, the elements before the new one are the ones that are
    not greater. *)
Lemma insert_before_split `{!WeakOrder less} e xs : sorted less xs →
  ∃ ys zs, xs = ys ++ zs ∧ insert_before e xs = ys ++ e :: zs ∧
    Forall (λ x, less e x = false) ys ∧ Forall (λ x, less e x = true) zs.
Proof.
  induction 1 as [|x xs Hs (ys & zs & -> & E & Hys & Hzs) Hx]; simpl; [by exists [], []|].
  destruct (less e x) eqn:Ex.
  - exists [], (x :: ys ++ zs). split_and!; [done..|]. constructor; [done|].
    eapply list.Forall_impl; [exact Hx|]. simpl. intros y Hy.
    destruct (less e y) eqn:Ey; [done|]. by rewrite (le_trans _ _ _ Hy Ey) in Ex.
  - exists (x :: ys), zs. rewrite E. split_and!; [done..|by constructor|done].
Qed.

(** The place the loop of [list_insert_ordered] stops at. *)
Lemma ordered_loop_run h l xs ys fuel e :
  rep h l (xs ++ ys) → (length ys ≤ fuel)%nat →
  ∃ zs ws, ys = zs ++ ws ∧ insert_before e ys = zs ++ e :: ws ∧
    ordered_loop less fuel (first_or (tail l) ys) (tail l) e h = Ok (first_or (tail l) ws, h).
Proof.
  revert xs fuel. induction ys as [|y ys IH]; intros xs fuel Hr Hf.
  - exists [], []. split_and!; [done..|].
    destruct fuel; cbn [ordered_loop first_or]; by rewrite Z.eqb_refl.
  - destruct fuel as [|fuel]; [simpl in Hf; lia|]. cbn [ordered_loop insert_before].
    rewrite (at_end h l xs (y :: ys) Hr), bool_decide_eq_false_2 by done. cbn match.
    cbn [first_or]. destruct (less e y).
    + by exists [], (y :: ys).
    + rewrite (bind_Ok _ _ _ _ _ (list_next_rep _ _ _ _ _ Hr)).
      destruct (IH (xs ++ [y]) fuel) as (zs & ws & -> & E & E');
        [by rewrite <-app_assoc|simpl in Hf; lia|].
      exists (y :: zs), ws. by rewrite E.
Qed.

Lemma list_insert_ordered_rep h l xs e e0 fuel :
  rep h l xs → e ∉ nodes l xs → e ≠ NULL → h !! e = Some e0 → (length xs ≤ fuel)%nat →
  ∃ h', list_insert_ordered less fuel l e h = Ok (tt, h') ∧ rep h' l (insert_before e xs) ∧
        same_off (nodes l (insert_before e xs)) h h'.
Proof.
  intros Hr He HN Ee Hf. unfold list_insert_ordered. rewrite (neq_NULL e) by done.
  rewrite (bind_Ok _ _ _ _ _ (ASSERT_true _)), (bind_Ok _ _ _ _ _ (list_begin_run _ _ _ Hr)).
  destruct (ordered_loop_run h l [] xs fuel e Hr Hf) as (zs & ws & -> & -> & E).
  unfold list_end. rewrite (bind_Ok _ _ _ _ _ E). by eapply list_insert_rep.
Qed.

(** ** Maximum and minimum *)

Lemma max_loop_run h l xs ys fuel m : rep h l (xs ++ ys) → (length ys ≤ fuel)%nat →
  max_loop less fuel (first_or (tail l) ys) (tail l) m h
    = Ok (foldl (best (flip less)) m ys, h).
Proof.
  revert xs fuel m. induction ys as [|y ys IH]; intros xs fuel m Hr Hf.
  - destruct fuel; cbn [max_loop first_or]; by rewrite Z.eqb_refl.
  - destruct fuel as [|fuel]; [simpl in Hf; lia|]. cbn [max_loop foldl].
    rewrite (at_end h l xs (y :: ys) Hr), bool_decide_eq_false_2 by done. cbn match.
    rewrite (bind_Ok _ _ _ _ _ (list_next_rep _ _ _ _ _ Hr)).
    apply (IH (xs ++ [y])); [by rewrite <-app_assoc|simpl in Hf; lia].
Qed.

Lemma min_loop_run h l xs ys fuel m : rep h l (xs ++ ys) → (length ys ≤ fuel)%nat →
  min_loop less fuel (first_or (tail l) ys) (tail l) m h
    = Ok (foldl (best less) m ys, h).
Proof.
  revert xs fuel m. induction ys as [|y ys IH]; intros xs fuel m Hr Hf.
  - destruct fuel; cbn [min_loop first_or]; by rewrite Z.eqb_refl.
  - destruct fuel as [|fuel]; [simpl in Hf; lia|]. cbn [min_loop foldl].
    rewrite (at_end h l xs (y :: ys) Hr), bool_decide_eq_false_2 by done. cbn match.
    rewrite (bind_Ok _ _ _ _ _ (list_next_rep _ _ _ _ _ Hr)).
    apply (IH (xs ++ [y])); [by rewrite <-app_assoc|simpl in Hf; lia].
Qed.

(** [list_insert_ordered] on a sorted list keeps it sorted: the list then
    holds the old elements and the new one, in order, the new one after the
    elements equal to it; the rest of the memory is as before. *)
Theorem list_insert_ordered_sorted `{!WeakOrder less} h l xs e e0 fuel :
  rep h l xs → sorted less xs →
  e ∉ nodes l xs → e ≠ NULL → h !! e = Some e0 → (length xs ≤ fuel)%nat →
  ∃ h' ys zs, list_insert_ordered less fuel l e h = Ok (tt, h') ∧
    xs = ys ++ zs ∧ rep h' l (ys ++ e :: zs) ∧ sorted less (ys ++ e :: zs) ∧
    Forall (λ x, less e x = false) ys ∧ Forall (λ x, less e x = true) zs ∧
    same_off (nodes l (ys ++ e :: zs)) h h'.
Proof.
  intros Hr Hs He HN Ee Hf.
  destruct (list_insert_ordered_rep _ _ _ _ _ _ Hr He HN Ee Hf) as (h' & E & Hr' & Ho).
  destruct (insert_before_split e xs Hs) as (ys & zs & -> & Ei & Hys & Hzs).
  pose proof (insert_before_sorted e _ Hs) as Hs'. rewrite Ei in *. by exists h', ys, zs.
Qed.

(** ** Duplicates *)

(** The elements [list_unique] keeps after [x], and those it takes out. *)
Fixpoint uniq (x : Z) (l : list Z) : list Z * list Z :=
  match l with
  | [] => ([], [])
  | y :: l =>
      if equal less x y then let '(k, d) := uniq x l in (k, y :: d)
      else let '(k, d) := uniq y l in (y :: k, d)
  end.

Lemma uniq_Permutation x l : (uniq x l).1 ++ (uniq x l).2 ≡ₚ l.
Proof.
  revert x. induction l as [|y l IH]; intros x; simpl; [done|].
  destruct (equal less x y).
  - specialize (IH x). destruct (uniq x l) as [k d]. simpl in *.
    rewrite <-Permutation_middle. by rewrite IH.
  - specialize (IH y). destruct (uniq y l) as [k d]. simpl in *. by rewrite IH.
Qed.

Lemma uniq_distinct x l : Sorted (λ a b, equal less a b = false) (x :: (uniq x l).1).
Proof.
  revert x. induction l as [|y l IH]; intros x; simpl; [repeat constructor|].
  destruct (equal less x y) eqn:E.
  - specialize (IH x). by destruct (uniq x l).
  - specialize (IH y). destruct (uniq y l). simpl in *. constructor; [done|by constructor].
Qed.

Lemma uniq_equal x l :
  Forall (λ d, ∃ k, k ∈ x :: (uniq x l).1 ∧ equal less k d = true) (uniq x l).2.
Proof.
  revert x. induction l as [|y l IH]; intros x; simpl; [constructor|].
  destruct (equal less x y) eqn:E.
  - specialize (IH x). destruct (uniq x l) as [k d]. simpl in *. constructor; [|done].
    exists x. split; [set_solver|done].
  - specialize (IH y). destruct (uniq y l) as [k d]. simpl in *.
    eapply list.Forall_impl; [exact IH|]. intros a (b & Hb & ?). exists b. split; [set_solver|done].
Qed.

(** The list of duplicates, when there is one, holds [ds] and shares no node
    with [ns]. *)
Definition dups_rep (h : heap) (dup : option clist) (ns ds : list Z) : Prop :=
  match dup with
  | None => True
  | Some d => rep h d ds ∧ ∀ a, a ∈ nodes d ds → a ∉ ns
  end.

Lemma nodes_snoc l xs x a : a ∈ nodes l (xs ++ [x]) ↔ a = x ∨ a ∈ nodes l xs.
Proof. unfold nodes. set_solver. Qed.

(** One duplicate taken out of the list and added to the other one. *)
Lemma move_duplicate h l dup xs y ys ds :
  rep h l (xs ++ y :: ys) → dups_rep h dup (nodes l (xs ++ y :: ys)) ds →
  ∃ h', (let! _ := list_remove y in
         match dup with Some d => list_push_back d y | None => ret tt end) h = Ok (tt, h') ∧
        rep h' l (xs ++ ys) ∧ dups_rep h' dup (nodes l (xs ++ ys)) (ds ++ [y]).
Proof.
  intros Hr Hd. destruct (list_remove_rep _ _ _ _ _ Hr) as (h1 & E & Hr1 & Ho).
  rewrite (bind_Ok _ _ _ _ _ E). destruct dup as [d|]; [|by exists h1].
  destruct Hd as [Hd Hdis]. destruct Hr as (HdN & HN & Hc).
  assert (y ∉ nodes l (xs ++ ys)) as Hy.
  { rewrite nodes_app in *. simpl in HdN. split_nodup. set_solver. }
  assert (∀ a, a ∈ nodes l (xs ++ ys) → a ∈ nodes l (xs ++ y :: ys)) as Hsub
    by (intros a; rewrite !nodes_app; set_solver).
  assert (y ∈ nodes l (xs ++ y :: ys)) as Hyin by (rewrite nodes_app; set_solver).
  destruct (chain_alloc _ _ _ _ _ Hc Hyin) as [e0 Ee].
  destruct (list_push_back_rep h1 d ds y e0) as (h2 & E2 & Hr2 & Ho2).
  - eapply ring_off; [|exact Hd]. intros a Ha. apply Ho. intros Ha'. exact (Hdis a Ha (Hsub a Ha')).
  - intros Hyd. exact (Hdis y Hyd Hyin).
  - intros ->. exact (HN Hyin).
  - rewrite Ho by exact Hy. exact Ee.
  - assert (∀ a, a ∈ nodes d (ds ++ [y]) → a ∉ nodes l (xs ++ ys)) as Hdis'.
    { intros a. rewrite nodes_snoc. intros [->|Ha] Ha'; [exact (Hy Ha')|].
      exact (Hdis a Ha (Hsub a Ha')). }
    exists h2. split_and!; [done| |by split].
    eapply ring_off; [|exact Hr1]. intros a Ha. apply Ho2. intros Ha'. exact (Hdis' a Ha' Ha).
Qed.

Lemma unique_loop_run h l dup xs x ys ds fuel :
  rep h l (xs ++ x :: ys) → dups_rep h dup (nodes l (xs ++ x :: ys)) ds → (length ys < fuel)%nat →
  ∃ h', unique_loop less fuel l dup x h = Ok (tt, h') ∧
        rep h' l (xs ++ x :: (uniq x ys).1) ∧
        dups_rep h' dup (nodes l (xs ++ x :: (uniq x ys).1)) (ds ++ (uniq x ys).2).
Proof.
  revert h xs x ds fuel. induction ys as [|y ys IH]; intros h xs x ds fuel Hr Hd Hf;
    (destruct fuel as [|fuel]; [lia|]); cbn [unique_loop];
    rewrite (bind_Ok _ _ _ _ _ (list_next_rep _ _ _ _ _ Hr)); unfold list_end.
  - simpl. rewrite Z.eqb_refl, app_nil_r. by exists h.
  - rewrite (cons_middle x), app_assoc in Hr, Hd.
    rewrite (at_end h l (xs ++ [x]) (y :: ys) Hr), bool_decide_eq_false_2 by done. cbn match.
    cbn [first_or uniq]. change (negb (less x y) && negb (less y x)) with (equal less x y).
    destruct (equal less x y) eqn:Exy.
    + destruct (move_duplicate _ _ _ _ _ _ _ Hr Hd) as (h1 & E & Hr1 & Hd1).
      rewrite <-app_assoc in Hr1, Hd1. apply bind_inv in E as (z & h0 & E1 & E2).
      rewrite (bind_Ok _ _ _ _ _ E1), (bind_Ok _ _ _ _ _ E2).
      destruct (IH h1 xs x (ds ++ [y]) fuel) as (h' & E & Hr' & Hd'); [done..|simpl in Hf; lia|].
      exists h'. rewrite <-app_assoc in Hd'. by destruct (uniq x ys).
    + destruct (IH h (xs ++ [x]) y ds fuel) as (h' & E & Hr' & Hd'); [done..|simpl in Hf; lia|].
      exists h'. rewrite <-app_assoc in Hr', Hd'. by destruct (uniq y ys).
Qed.

(** [list_unique] leaves no two neighbouring elements equal; the elements it
    takes out are equal to one that stays and, when a list for the duplicates
    is given, they are appended to it; nothing is lost. *)
Theorem list_unique_correct h l dup xs ds fuel :
  rep h l xs → dups_rep h dup (nodes l xs) ds → (length xs ≤ fuel)%nat →
  ∃ h' kept gone, list_unique less fuel l dup h = Ok (tt, h') ∧ rep h' l kept ∧
    dups_rep h' dup (nodes l kept) (ds ++ gone) ∧ kept ++ gone ≡ₚ xs ∧
    Sorted (λ a b, equal less a b = false) kept ∧
    Forall (λ d, ∃ k, k ∈ kept ∧ equal less k d = true) gone.
Proof.
  intros Hr Hd Hf. unfold list_unique. rewrite (bind_Ok _ _ _ _ _ (list_empty_run _ _ _ Hr)).
  destruct xs as [|x xs]; simpl.
  - exists h, [], []. rewrite app_nil_r. split_and!; [done..|constructor|constructor].
  - rewrite (bind_Ok _ _ _ _ _ (list_begin_run _ _ _ Hr)).
    destruct (unique_loop_run h l dup [] x xs ds fuel Hr Hd Hf) as (h' & E & Hr' & Hd').
    exists h', (x :: (uniq x xs).1), (uniq x xs).2. split_and!; [done..| | |].
    + simpl. by rewrite uniq_Permutation.
    + apply uniq_distinct.
    + apply uniq_equal.
Qed.

(** [list_max] and [list_min] of a list that is not empty return an element
    that no other one exceeds, respectively is less than, and of several such
    elements the one that comes first; of an empty list they return its tail. *)
Theorem list_max_min_correct `{!WeakOrder less} h l xs fuel :
  rep h l xs → (length xs ≤ fuel)%nat →
  ∃ max min, list_max less fuel l h = Ok (max, h) ∧ list_min less fuel l h = Ok (min, h) ∧
    match xs with
    | [] => max = tail l ∧ min = tail l
    | _ =>
        Forall (λ x, less max x = false ∧ less x min = false) xs ∧
        (∃ pre post, xs = pre ++ max :: post ∧ Forall (λ x, less x max = true) pre) ∧
        (∃ pre post, xs = pre ++ min :: post ∧ Forall (λ x, less min x = true) pre)
    end.
Proof.
  intros Hr Hf. unfold list_max, list_min, list_end.
  rewrite !(bind_Ok _ _ _ _ _ (list_begin_run _ _ _ Hr)), !(at_end h l [] xs Hr).
  destruct xs as [|x xs]; simpl; [by exists (tail l), (tail l)|].
  rewrite !(bind_Ok _ _ _ _ _ (list_next_rep h l [] x xs Hr)). simpl in Hf.
  rewrite (max_loop_run h l [x]), (min_loop_run h l [x]) by (done || lia).
  do 2 eexists. split_and!; [done..| | |].
  - destruct (best_correct (flip less) x xs) as (_ & _ & _ & _ & Hmax).
    destruct (best_correct less x xs) as (_ & _ & _ & _ & Hmin).
    rewrite list.Forall_forall in Hmax, Hmin |- *. naive_solver.
  - destruct (best_correct (flip less) x xs) as (pre & post & ? & ? & _). eauto.
  - destruct (best_correct less x xs) as (pre & post & ? & ? & _). eauto.
Qed.
End Less.

(** ** Examples *)

(** The memory that holds a list. *)
Fixpoint layout (p : Z) (l : list Z) (n : Z) : heap :=
  match l with
  | [] => ∅
  | a :: l => <[a := mk_elem p (first_or n l)]> (layout a l n)
  end.

Lemma layout_chain p l n : NoDup l → chain (layout p l n) p l n.
Proof.
  revert p. induction l as [|a l IH]; intros p Hd; simpl; [done|]. split_nodup. split.
  - apply lookup_insert_eq.
  - apply chain_insert_ne; auto.
Qed.

Lemma layout_rep l xs :
  bool_decide (NoDup (nodes l xs)) = true → bool_decide (NULL ∉ nodes l xs) = true →
  rep (layout NULL (nodes l xs) NULL) l xs.
Proof.
  intros Hd%bool_decide_eq_true Hn%bool_decide_eq_true. split_and!; try done.
  by apply layout_chain.
Qed.

(** Elements compared by their last decimal digit. *)
Definition by_digit (a b : Z) : bool := a `mod` 10 <? b `mod` 10.

#[export] Instance by_digit_order : WeakOrder by_digit.
Proof. split; unfold by_digit; intros; rewrite ?Z.ltb_lt, ?Z.ltb_ge in *; lia. Qed.

Definition sample_layout (xs : list Z) : heap := layout NULL (nodes sample_list xs) NULL.

Lemma list_insert_ordered_sorted_witness :
  ∃ h', list_insert_ordered by_digit 4 sample_list 23 (<[23 := mk_elem 0 0]> (sample_layout [11; 13; 15]))
        = Ok (tt, h') ∧ rep h' sample_list [11; 13; 23; 15].
Proof.
  destruct (list_insert_ordered_sorted by_digit (<[23 := mk_elem 0 0]> (sample_layout [11; 13; 15]))
    sample_list [11; 13; 15] 23 (mk_elem 0 0) 4) as (h' & ys & zs & E & Hx & Hr & _ & Hy & Hz & _).
  - apply (ring_off _ (sample_layout [11; 13; 15])); [|apply layout_rep; vm_compute; reflexivity].
    intros a Ha. apply lookup_insert_ne. intros <-.
    by apply (bool_decide_eq_true_2 _) in Ha; vm_compute in Ha.
  - repeat constructor.
  - by apply (bool_decide_eq_true_1 _).
  - done.
  - done.
  - simpl; lia.
  - exists h'. split; [done|].
    destruct ys as [|? [|? [|? [|? ys]]]]; simplify_eq/=; try done;
      repeat match goal with F : Forall _ (_ :: _) |- _ => inversion_clear F end;
      try done; by destruct ys.
Defined.

Lemma list_unique_correct_witness :
  ∃ h' kept gone, list_unique by_digit 4 sample_list None (sample_layout [11; 21; 15]) = Ok (tt, h') ∧
    rep h' sample_list kept ∧ kept ++ gone ≡ₚ [11; 21; 15].
Proof.
  destruct (list_unique_correct by_digit (sample_layout [11; 21; 15]) sample_list None
    [11; 21; 15] [] 4) as (h' & kept & gone & E & Hr & _ & Hp & _).
  - apply layout_rep; vm_compute; reflexivity.
  - done.
  - simpl; lia.
  - exists h', kept, gone. exact (conj E (conj Hr Hp)).
Defined.

Lemma list_max_min_correct_witness : ∃ max min,
  list_max by_digit 4 sample_list (sample_layout [13; 15; 25; 11]) = Ok (max, sample_layout [13; 15; 25; 11]) ∧
  list_min by_digit 4 sample_list (sample_layout [13; 15; 25; 11]) = Ok (min, sample_layout [13; 15; 25; 11]).
Proof.
  destruct (list_max_min_correct by_digit (sample_layout [13; 15; 25; 11]) sample_list
    [13; 15; 25; 11] 4) as (max & min & E1 & E2 & _).
  - apply layout_rep; vm_compute; reflexivity.
  - simpl; lia.
  - exists max, min. exact (conj E1 E2).
Defined.
