(* ===== verification/CListSort.v ===== *)
(** * The merge sort of lib/kernel/list.c

    [list_sort] is a natural merge sort on a linked list: every pass merges
    neighbouring runs in place.  It is shown to terminate, to sort, and to be
    stable. *)

From S2P Require Import Prelude FsState CList CListSpec CListOps.

(** ** Runs and merges of sequences *)

Section Pure.
Context (less : Z → Z → bool).

(** The rest of the run that starts at [x], and what follows it. *)
Fixpoint run_of (x : Z) (l : list Z) : list Z * list Z :=
  match l with
  | [] => ([], [])
  | y :: l' =>
      if less y x then ([], l) else let '(r, s) := run_of y l' in (y :: r, s)
  end.

(** The number of runs. *)
Fixpoint runs_from (x : Z) (l : list Z) : nat :=
  match l with
  | [] => 1
  | y :: l => (if less y x then 1 else 0) + runs_from y l
  end.
Definition runs (l : list Z) : nat := match l with [] => 0 | x :: l => runs_from x l end.

Fixpoint merge (xs : list Z) : list Z → list Z :=
  fix go ys :=
  match xs, ys with
  | [], _ => ys
  | _, [] => xs
  | x :: xs', y :: ys' => if less y x then y :: go ys' else x :: merge xs' ys
  end.

(** One pass over the list: the runs it leaves. *)
Inductive pass : list Z → list (list Z) → Prop :=
| pass_nil : pass [] []
| pass_last x xs r : run_of x xs = (r, []) → pass (x :: xs) [x :: r]
| pass_pair x xs r y s r' s' out :
    run_of x xs = (r, y :: s) → run_of y s = (r', s') → pass s' out →
    pass (x :: xs) (merge (x :: r) (y :: r') :: out).

Lemma merge_nil_r xs : merge xs [] = xs.
Proof. by destruct xs. Qed.

Lemma merge_Permutation xs ys : merge xs ys ≡ₚ xs ++ ys.
Proof.
  revert ys. induction xs as [|x xs IHx]; [by destruct ys|].
  induction ys as [|y ys IHy]; [by rewrite app_nil_r|]. simpl. destruct (less y x).
  - change (y :: merge (x :: xs) ys ≡ₚ x :: xs ++ y :: ys).
    rewrite IHy. simpl. rewrite <-Permutation_middle. apply perm_swap.
  - by rewrite IHx.
Qed.

Lemma run_of_app x l r s : run_of x l = (r, s) → l = r ++ s.
Proof.
  revert x r s. induction l as [|y l IH]; intros x r s; simpl; [by intros [= <- <-]|].
  destruct (less y x); [by intros [= <- <-]|]. destruct (run_of y l) eqn:E.
  intros [= <- <-]. simpl. by rewrite (IH _ _ _ E).
Qed.

Lemma run_of_runs x l r s : run_of x l = (r, s) → runs (x :: l) = S (runs s).
Proof.
  revert x r s. induction l as [|y l IH]; intros x r s; simpl; [by intros [= <- <-]|].
  destruct (less y x); [by intros [= <- <-]|]. destruct (run_of y l) eqn:E.
  intros [= <- <-]. exact (IH y _ _ E).
Qed.

Lemma runs_length l : (runs l ≤ length l)%nat.
Proof.
  destruct l as [|x l]; [done|]. revert x. induction l as [|y l IH]; intros x; [done|].
  specialize (IH y). simpl in *. destruct (less y x); lia.
Qed.

Context `{!WeakOrder less}.

Lemma sorted_cons x y l : may_precede less x y → sorted less (y :: l) → sorted less (x :: y :: l).
Proof.
  intros Hxy Hs. constructor; [done|]. inversion_clear Hs as [|?? ? Hy]. constructor; [done|].
  eapply list.Forall_impl; [exact Hy|]. intros z. by apply le_trans.
Qed.

Lemma run_of_sorted x l r s : run_of x l = (r, s) → sorted less (x :: r).
Proof.
  revert x r s. induction l as [|y l IH]; intros x r s; simpl; [intros [= <- <-]; repeat constructor|].
  destruct (less y x) eqn:Hyx; [intros [= <- <-]; repeat constructor|].
  destruct (run_of y l) eqn:E. intros [= <- <-]. apply sorted_cons; [done|]. by eapply IH.
Qed.

Lemma merge_sorted xs ys : sorted less xs → sorted less ys → sorted less (merge xs ys).
Proof.
  revert ys. induction xs as [|x xs IHx]; [by destruct ys|].
  intros ys Hx Hy. induction ys as [|y ys IHy]; [done|]. simpl.
  inversion_clear Hx as [|?? Hxs Fx]. inversion_clear Hy as [|?? Hys Fy].
  destruct (less y x) eqn:Hyx.
  - change (sorted less (y :: merge (x :: xs) ys)). constructor; [by apply IHy|].
    rewrite merge_Permutation. apply Forall_app. split; [|done].
    assert (may_precede less y x) as Hp by (by apply less_asym).
    constructor; [done|]. eapply list.Forall_impl; [exact Fx|]. intros z. by apply le_trans.
  - constructor; [apply IHx; [done|by constructor]|].
    rewrite merge_Permutation. apply Forall_app. split; [done|].
    constructor; [done|]. eapply list.Forall_impl; [exact Fy|]. intros z. by apply le_trans.
Qed.

(** The elements equal to [z], in order. *)
Definition equals (z : Z) : list Z → list Z := filter (λ a, equal less z a = true).

Lemma equals_above x y z xs : less y x = true → equal less z y = true →
  sorted less (x :: xs) → equals z (x :: xs) = [].
Proof.
  intros Hyx Hz Hs. unfold equal in Hz. apply andb_true_iff in Hz as [Hzy Hyz].
  apply negb_true_iff in Hzy, Hyz.
  assert (∀ a, a ∈ x :: xs → equal less z a = false) as Ha.
  { intros a Ha. assert (less a x = false) as Hax.
    { inversion_clear Hs as [|?? _ Fx]. rewrite list.Forall_forall in Fx.
      apply elem_of_cons in Ha as [->|Ha]; [apply less_irrefl, _|by apply Fx]. }
    unfold equal. destruct (less z a) eqn:Hza; [done|]. simpl.
    destruct (less a z) eqn:Haz; [done|].
    assert (less y a = false) as Hya by (by eapply le_trans).
    by rewrite (le_trans _ _ _ Hax Hya) in Hyx. }
  clear Hs. induction (x :: xs) as [|a l IH]; [done|]. unfold equals.
  rewrite filter_cons_False; [apply IH|rewrite Ha]; set_solver.
Qed.

Lemma equals_app z xs ys : equals z (xs ++ ys) = equals z xs ++ equals z ys.
Proof. apply list.filter_app. Qed.

Lemma equals_cons z x xs :
  equals z (x :: xs) = if equal less z x then x :: equals z xs else equals z xs.
Proof. unfold equals. rewrite filter_cons. by destruct (equal less z x). Qed.

Lemma merge_stable z xs ys :
  sorted less xs → equals z (merge xs ys) = equals z xs ++ equals z ys.
Proof.
  revert ys. induction xs as [|x xs IHx]; [by destruct ys|].
  intros ys Hx. induction ys as [|y ys IHy]; [by rewrite app_nil_r|].
  simpl. destruct (less y x) eqn:Hyx.
  - change (equals z (y :: merge (x :: xs) ys) = equals z (x :: xs) ++ equals z (y :: ys)).
    rewrite (equals_cons z y), (equals_cons z y ys), IHy.
    destruct (equal less z y) eqn:Hz; [|done]. by rewrite (equals_above x y).
  - inversion_clear Hx. rewrite !(equals_cons z x), IHx by done. by destruct (equal less z x).
Qed.

Lemma pass_Permutation xs out : pass xs out → concat out ≡ₚ xs.
Proof.
  induction 1 as [|x xs r E|x xs r y s r' s' out E E' _ IH]; simpl; [done| |].
  - by rewrite (run_of_app _ _ _ _ E).
  - change (merge (x :: r) (y :: r') ++ concat out ≡ₚ x :: xs).
    rewrite (run_of_app _ _ _ _ E), (run_of_app _ _ _ _ E'), merge_Permutation, IH.
    simpl. by rewrite <-app_assoc.
Qed.

Lemma pass_sorted xs out : pass xs out → Forall (sorted less) out.
Proof.
  induction 1 as [|x xs r E|x xs r y s r' s' out E E' _ IH].
  - constructor.
  - constructor; [by eapply run_of_sorted|constructor].
  - constructor; [|done]. apply merge_sorted; by eapply run_of_sorted.
Qed.

Lemma pass_stable z xs out : pass xs out → equals z (concat out) = equals z xs.
Proof.
  induction 1 as [|x xs r E|x xs r y s r' s' out E E' _ IH]; [done| |].
  - simpl. by rewrite (run_of_app _ _ _ _ E).
  - change (equals z (merge (x :: r) (y :: r') ++ concat out) = equals z (x :: xs)).
    rewrite equals_app, merge_stable, IH by (by eapply run_of_sorted).
    rewrite (run_of_app _ _ _ _ E), (run_of_app _ _ _ _ E').
    rewrite <-!equals_app. f_equal. simpl. by rewrite <-app_assoc.
Qed.

Lemma pass_count xs out : pass xs out → (2 * length out ≤ runs xs + 1)%nat.
Proof.
  induction 1 as [|x xs r E|x xs r y s r' s' out E E' _ IH]; [simpl; lia| |].
  - rewrite (run_of_runs _ _ _ _ E). simpl. lia.
  - rewrite (run_of_runs _ _ _ _ E), (run_of_runs _ _ _ _ E'). simpl length. lia.
Qed.

Lemma runs_app r l : sorted less r → (runs (r ++ l) ≤ S (runs l))%nat.
Proof.
  destruct r as [|x r]; [simpl; lia|]. revert x. induction r as [|y r IH]; intros x Hs.
  - destruct l as [|y l]; simpl; [lia|]. destruct (less y x); lia.
  - inversion_clear Hs as [|?? Hs' Fx]. specialize (IH y Hs'). simpl in *.
    apply Forall_cons_1 in Fx as [-> _]. lia.
Qed.

Lemma runs_concat out : Forall (sorted less) out → (runs (concat out) ≤ length out)%nat.
Proof.
  induction 1 as [|r out Hr _ IH]; [done|]. simpl. pose proof (runs_app r (concat out) Hr). lia.
Qed.
End Pure.

(** ** The functions on memory *)

(** The start of what follows [ys] is reached when [ys] is used up. *)
Lemma at_stop h l xs ys zs : rep h l (xs ++ ys ++ zs) →
  (first_or (tail l) (ys ++ zs) =? first_or (tail l) zs) = bool_decide (ys = []).
Proof.
  intros Hr. destruct ys as [|y ys]; simpl; [apply Z.eqb_refl|].
  apply Z.eqb_neq. destruct (rep_distinct _ _ _ Hr) as (Hd & Ht & _).
  destruct zs as [|z zs]; simpl; [set_solver|]. split_nodup. set_solver.
Qed.

Lemma node_not_NULL h l xs ys : rep h l (xs ++ ys) → first_or (tail l) ys ≠ NULL.
Proof.
  intros Hr E. destruct (rep_distinct _ _ _ Hr) as (_ & _ & _ & _ & Hn). apply Hn.
  rewrite <-E. apply first_or_nodes.
Qed.

Lemma load_inv p h e h' : load p h = Ok (e, h') → h' = h.
Proof. unfold load. destruct (h !! p); [|done]. by intros [= _ <-]. Qed.

Lemma list_prev_tail h l xs : rep h l xs → list_prev (tail l) h = Ok (last_or (head l) xs, h).
Proof.
  intros Hr. destruct (rep_distinct _ _ _ Hr) as (_ & _ & _ & _ & Hn).
  eapply list_prev_run; [by apply rep_tail| |].
  - intros E. apply Hn. rewrite <-E. unfold nodes. set_solver.
  - intros E. apply Hn. rewrite <-E. pose proof (last_or_nodes l xs []). by rewrite app_nil_r in *.
Qed.

Lemma list_prev_first h l xs ys :
  rep h l (xs ++ ys) → list_prev (first_or (tail l) ys) h = Ok (last_or (head l) xs, h).
Proof.
  intros Hr. destruct ys as [|y ys]; simpl; [|by eapply list_prev_rep].
  rewrite app_nil_r in Hr. by apply list_prev_tail.
Qed.

Lemma rep_not_NULL h l xs a ys : rep h l (xs ++ a :: ys) →
  a ≠ NULL ∧ last_or (head l) xs ≠ NULL ∧ first_or (tail l) ys ≠ NULL.
Proof.
  intros Hr. destruct (rep_distinct _ _ _ Hr) as (_ & _ & _ & _ & Hn). split_and!.
  - by apply (node_not_NULL h l xs (a :: ys)).
  - intros E. apply Hn. rewrite <-E. apply last_or_nodes.
  - apply (node_not_NULL h l (xs ++ [a]) ys). by rewrite <-app_assoc.
Qed.

(** The stores of [list_remove], on the way to the memory it leaves. *)
Lemma list_remove_inv h e n h' : list_remove e h = Ok (n, h') →
  ∃ x y h1, load e h = Ok (x, h) ∧ set_next (prev x) (next x) h = Ok (tt, h1) ∧
    load e h1 = Ok (y, h1) ∧ set_prev (next y) (prev y) h1 = Ok (tt, h').
Proof.
  unfold list_remove. intros ([] & h0 & E0 & E)%bind_inv; [|by apply bind_inv in E as (? & ? & [=] & _)].
  assert (h0 = h) as ->.
  { unfold is_interior in E0. destruct (e =? NULL); [by simplify_eq|].
    apply bind_inv in E0 as (? & ? & ->%load_inv & [= _ <-]). done. }
  rewrite (bind_Ok _ _ _ _ _ (ASSERT_true _)) in E.
  apply bind_inv in E as (x & h1 & Ex & E). pose proof (load_inv _ _ _ _ Ex) as ->.
  apply bind_inv in E as ([] & h1 & E1 & E). apply bind_inv in E as (y & h2 & Ey & E).
  pose proof (load_inv _ _ _ _ Ey) as ->. apply bind_inv in E as ([] & h3 & E2 & E).
  apply bind_inv in E as (z & h4 & ->%load_inv & [= _ <-]). by exists x, y, h1.
Qed.

(** Moving one element back in its list, before [x]: [list_splice] removes and
    inserts it. *)
Lemma list_splice_rep h l A x B y C :
  rep h l (A ++ x :: B ++ y :: C) →
  ∃ h', list_splice x y (first_or (tail l) C) h = Ok (tt, h') ∧
        rep h' l (A ++ y :: x :: B ++ C) ∧ same_off (nodes l (A ++ x :: B ++ y :: C)) h h'.
Proof.
  intros Hr. assert (rep h l ((A ++ x :: B) ++ y :: C)) as Hy by (by rewrite <-app_assoc).
  destruct (list_remove_rep _ _ _ _ _ Hy) as (h1 & E & Hr1 & Ho).
  destruct (rep_not_NULL _ _ _ _ _ Hr) as (HxN & HpN & _).
  destruct (rep_not_NULL _ _ _ _ _ Hy) as (HyN & HqN & HcN).
  assert (y ∉ nodes l ((A ++ x :: B) ++ C)) as Hyn.
  { destruct Hy as [Hd _]. rewrite nodes_app in *. simpl in Hd. split_nodup. set_solver. }
  rewrite <-app_assoc in Hr1, Ho, Hyn. simpl in Hr1, Ho, Hyn.
  pose proof (rep_node _ _ _ _ _ Hy) as Ey. rewrite <-(Ho y Hyn) in Ey.
  destruct (list_insert_rep h1 l A (x :: B ++ C) y _ Hr1 Hyn HyN Ey) as (h' & E' & Hr2 & Ho2).
  exists h'. split_and!; [|done|].
  - destruct (list_remove_inv _ _ _ _ E) as (f & b & h0 & Ef & E1 & Eb & E2).
    unfold list_splice, list_insert in *. cbn [first_or] in E'.
    rewrite (bind_Ok _ _ _ _ _ (prev_assert_run _ _ _ _ (rep_node _ _ _ _ _ Hr) HxN HpN)).
    rewrite (bind_Ok _ _ _ _ _ (prev_assert_run _ _ _ _ (rep_node _ _ _ _ _ Hr1) HxN HpN)) in E'.
    rewrite (bind_Ok _ _ _ _ _ (ASSERT_true _)).
    rewrite (bind_Ok _ _ _ _ _ (ASSERT_true _)), (neq_NULL y), (bind_Ok _ _ _ _ _ (ASSERT_true _)) in E' by done.
    pose proof (at_stop h l (A ++ x :: B) [y] C) as Hs. cbn [app first_or] in Hs. rewrite Hs by done.
    rewrite bool_decide_eq_false_2 by done.
    assert (list_prev (first_or (tail l) C) h = Ok (y, h)) as El.
    { rewrite (cons_middle y), app_assoc in Hy.
      rewrite (list_prev_first _ _ _ _ Hy). by rewrite last_or_snoc. }
    rewrite (bind_Ok _ _ _ _ _ El).
    rewrite !(bind_Ok _ _ _ _ _ (interior_run _ _ _ _ (rep_node _ _ _ _ _ Hy) HyN HqN HcN)).
    rewrite (bind_Ok _ _ _ _ _ (ASSERT_true _)).
    rewrite !(bind_Ok _ _ _ _ _ (interior_run _ _ _ _ (rep_node _ _ _ _ _ Hy) HyN HqN HcN)).
    rewrite (bind_Ok _ _ _ _ _ (ASSERT_true _)).
    rewrite !(bind_Ok _ _ _ _ _ Ef), (bind_Ok _ _ _ _ _ E1), !(bind_Ok _ _ _ _ _ Eb).
    by rewrite (bind_Ok _ _ _ _ _ E2).
  - apply (same_off_trans _ _ h1).
    + eapply same_off_weaken; [|exact Ho]. intros a. rewrite !nodes_app. set_solver.
    + eapply same_off_weaken; [|exact Ho2]. intros a. rewrite !nodes_app. set_solver.
Qed.

Section Memory.
Context (less : Z → Z → bool) `{!WeakOrder less}.

Lemma sorted_loop_run h l xs x r s fuel : rep h l (xs ++ x :: r ++ s) →
  sorted less (x :: r) → (length r < fuel)%nat →
  sorted_loop less fuel x (first_or (tail l) s) h = Ok (true, h).
Proof.
  revert xs x fuel. induction r as [|y r IH]; intros xs x fuel Hr Hs Hf;
    (destruct fuel as [|fuel]; [lia|]); cbn [sorted_loop];
    rewrite (bind_Ok _ _ _ _ _ (list_next_rep _ _ _ _ _ Hr)).
  - simpl. by rewrite Z.eqb_refl.
  - rewrite (cons_middle x), app_assoc in Hr.
    rewrite (at_stop h l (xs ++ [x]) (y :: r) s) by done.
    rewrite bool_decide_eq_false_2 by done. cbn match. cbn [first_or app].
    rewrite (bind_Ok _ _ _ _ _ (list_prev_rep _ _ _ _ _ Hr)), last_or_snoc.
    inversion_clear Hs as [|?? Hs' Fx]. apply Forall_cons_1 in Fx as [-> _].
    apply (IH (xs ++ [x])); [done..|simpl in Hf; lia].
Qed.

Lemma is_sorted_run h l xs r s fuel : rep h l (xs ++ r ++ s) →
  sorted less r → (length r ≤ fuel)%nat →
  is_sorted less fuel (first_or (tail l) (r ++ s)) (first_or (tail l) s) h = Ok (true, h).
Proof.
  intros Hr Hs Hf. unfold is_sorted. rewrite (at_stop h l xs r s Hr).
  case_bool_decide; [done|]. destruct r as [|x r]; [done|]. simpl.
  by apply (sorted_loop_run h l xs x r s).
Qed.

Lemma run_loop_run h l xs x ys r s fuel : rep h l (xs ++ x :: ys) →
  run_of less x ys = (r, s) → (length ys < fuel)%nat →
  run_loop less fuel x (tail l) h = Ok (first_or (tail l) s, h).
Proof.
  revert xs x r fuel. induction ys as [|y ys IH]; intros xs x r fuel Hr Hrun Hf;
    (destruct fuel as [|fuel]; [lia|]); cbn [run_loop];
    rewrite (bind_Ok _ _ _ _ _ (list_next_rep _ _ _ _ _ Hr)).
  - simpl in *. rewrite Z.eqb_refl. by simplify_eq.
  - rewrite (cons_middle x), app_assoc in Hr.
    rewrite (at_end h l (xs ++ [x]) (y :: ys)) by done.
    rewrite bool_decide_eq_false_2 by done. cbn match. cbn [first_or].
    rewrite (bind_Ok _ _ _ _ _ (list_prev_rep _ _ _ _ _ Hr)), last_or_snoc. simpl in Hrun.
    destruct (less y x); [by simplify_eq|]. destruct (run_of less y ys) as [r' s'] eqn:E.
    simplify_eq. apply (IH (xs ++ [x]) y r'); [done..|simpl in Hf; lia].
Qed.

Lemma find_end_of_run_run h l xs x ys r s fuel : rep h l (xs ++ x :: ys) →
  run_of less x ys = (r, s) → (length ys < fuel)%nat →
  find_end_of_run less fuel x (tail l) h = Ok (first_or (tail l) s, h).
Proof.
  intros Hr Hrun Hf. unfold find_end_of_run.
  rewrite (neq_NULL x) by (by apply (node_not_NULL h l xs (x :: ys))).
  rewrite (neq_NULL (tail l)).
  2:{ apply (node_not_NULL h l (xs ++ x :: ys) []). by rewrite app_nil_r. }
  pose proof (at_end h l xs (x :: ys) Hr) as He. cbn [first_or] in He.
  rewrite He, bool_decide_eq_false_2 by done.
  by apply (run_loop_run h l xs x ys r).
Qed.

Lemma merge_loop_run h l A r1 r2 D fuel : rep h l (A ++ r1 ++ r2 ++ D) →
  (length r1 + length r2 ≤ fuel)%nat →
  ∃ h', merge_loop less fuel (first_or (tail l) (r1 ++ r2 ++ D)) (first_or (tail l) (r2 ++ D))
          (first_or (tail l) D) h = Ok (tt, h') ∧
        rep h' l (A ++ merge less r1 r2 ++ D) ∧ same_off (nodes l (A ++ r1 ++ r2 ++ D)) h h'.
Proof.
  revert h A r1 r2. induction fuel as [|fuel IH]; intros h A r1 r2 Hr Hf; cbn [merge_loop];
    (rewrite (at_stop h l A r1 (r2 ++ D) Hr), (at_stop h l (A ++ r1) r2 D) by (by rewrite <-app_assoc));
    (destruct r1 as [|x r1]; [exists h; by destruct r2|]);
    (destruct r2 as [|y r2]; [exists h; by rewrite merge_nil_r|]); simpl in Hf; [lia|].
  cbn -[nodes list_splice list_next list_prev merge_loop]. destruct (less y x) eqn:Hyx.
  - assert (rep h l ((A ++ x :: r1) ++ y :: r2 ++ D)) as Hy by (by rewrite <-app_assoc).
    cbn [negb]. rewrite (bind_Ok _ _ _ _ _ (list_next_rep _ _ _ _ _ Hy)).
    rewrite (cons_middle y), app_assoc in Hy.
    rewrite (bind_Ok _ _ _ _ _ (list_prev_first _ _ _ _ Hy)), last_or_snoc.
    destruct (list_splice_rep h l A x r1 y (r2 ++ D) Hr) as (h1 & E & Hr1 & Ho).
    rewrite (bind_Ok _ _ _ _ _ E).
    destruct (IH h1 (A ++ [y]) (x :: r1) r2) as (h' & E' & Hr' & Ho');
      [by rewrite <-app_assoc|simpl; lia|].
    exists h'. rewrite <-app_assoc in Hr', Ho'. split_and!; [done..|].
    eapply same_off_trans; [exact Ho|]. eapply same_off_weaken; [|exact Ho'].
    intros a. rewrite !nodes_app. set_solver.
  - cbn [negb]. rewrite (bind_Ok _ _ _ _ _ (list_next_rep _ _ _ _ _ Hr)).
    destruct (IH h (A ++ [x]) r1 (y :: r2)) as (h' & E' & Hr' & Ho');
      [by rewrite <-app_assoc|simpl; lia|].
    exists h'. by rewrite <-app_assoc in Hr', Ho'.
Qed.

Lemma inplace_merge_run h l A r1 r2 D fuel : rep h l (A ++ r1 ++ r2 ++ D) →
  sorted less r1 → sorted less r2 → (length r1 + length r2 ≤ fuel)%nat →
  ∃ h', inplace_merge less fuel (first_or (tail l) (r1 ++ r2 ++ D)) (first_or (tail l) (r2 ++ D))
          (first_or (tail l) D) h = Ok (tt, h') ∧
        rep h' l (A ++ merge less r1 r2 ++ D) ∧ same_off (nodes l (A ++ r1 ++ r2 ++ D)) h h'.
Proof.
  intros Hr Hs1 Hs2 Hf. unfold inplace_merge.
  rewrite (neq_NULL (first_or _ (r1 ++ r2 ++ D))) by (by eapply node_not_NULL).
  rewrite app_assoc in Hr. rewrite (neq_NULL (first_or _ (r2 ++ D))) by (by eapply node_not_NULL).
  rewrite app_assoc in Hr. rewrite (neq_NULL (first_or _ D)) by (by eapply node_not_NULL).
  rewrite <-!app_assoc in Hr. rewrite !(bind_Ok _ _ _ _ _ (ASSERT_true _)).
  erewrite (bind_Ok (is_sorted _ _ _ _)) by (eapply is_sorted_run; [exact Hr|done|lia]).
  rewrite app_assoc in Hr.
  erewrite (bind_Ok (ASSERT _)), (bind_Ok (is_sorted _ _ _ _))
    by (done || (eapply is_sorted_run; [exact Hr|done|lia])).
  rewrite <-app_assoc in Hr. by apply merge_loop_run.
Qed.

Lemma sort_pass_run n h l A xs fuel c : rep h l (A ++ xs) →
  (length xs ≤ n)%nat → (length xs < fuel)%nat → 0 ≤ c → c + Z.of_nat (length xs) < 2 ^ 32 →
  ∃ h' out, pass less xs out ∧
    sort_pass less n fuel (tail l) (first_or (tail l) xs) c h = Ok (c + Z.of_nat (length out), h') ∧
    rep h' l (A ++ concat out) ∧ same_off (nodes l (A ++ xs)) h h'.
Proof.
  revert h A xs c. induction n as [|n IH]; intros h A xs c Hr Hn Hf Hc Hl;
    cbn [sort_pass]; rewrite (at_end h l A xs Hr);
    (destruct xs as [|x xs]; [exists h, []; rewrite Z.add_0_r; by split_and!; [apply pass_nil|..]|]);
    simpl in Hn; [lia|]. simpl length in Hf, Hl. rewrite bool_decide_eq_false_2 by done. cbn match.
  rewrite (uwrap_id 32) by (unfold in_u; lia).
  destruct (run_of less x xs) as [r s] eqn:E.
  erewrite (bind_Ok (find_end_of_run _ _ _ _)) by (eapply find_end_of_run_run; [exact Hr|exact E|lia]).
  pose proof (run_of_app _ _ _ _ _ E) as Exs.
  assert (rep h l ((A ++ x :: r) ++ s)) as Hr1 by (subst; by rewrite <-app_assoc).
  rewrite (at_end h l _ s Hr1). destruct s as [|y s]; cbn match.
  - exists h, [x :: r]. rewrite app_nil_r in *. subst. simpl. rewrite app_nil_r.
    split_and!; [by constructor|done..].
  - rewrite bool_decide_eq_false_2 by done. destruct (run_of less y s) as [r' s'] eqn:E'.
    pose proof (run_of_app _ _ _ _ _ E') as Es. pose proof (f_equal length Exs) as Hlen.
    pose proof (f_equal length Es) as Hlen'. rewrite length_app in Hlen, Hlen'. simpl in Hlen, Hlen'.
    erewrite (bind_Ok (find_end_of_run _ _ _ _))
      by (eapply find_end_of_run_run; [exact Hr1|exact E'|lia]).
    destruct (inplace_merge_run h l A (x :: r) (y :: r') s' fuel) as (h1 & E1 & Hr2 & Ho1);
      [subst; by rewrite <-app_assoc in Hr1| |..]; [by eapply run_of_sorted..|simpl; lia|].
    erewrite (bind_Ok (inplace_merge _ _ _ _ _)) by exact E1. rewrite app_assoc in Hr2.
    destruct (IH h1 _ s' (c + 1) Hr2) as (h' & out & Hp & E2 & Hr3 & Ho2); [lia..|].
    exists h', (merge less (x :: r) (y :: r') :: out). rewrite E2. simpl concat. simpl length.
    rewrite <-app_assoc in Hr3, Ho2. split_and!; [by econstructor|do 2 f_equal; lia|done|].
    assert (nodes l (A ++ x :: xs) ≡ₚ nodes l (A ++ merge less (x :: r) (y :: r') ++ s')) as Hperm.
    { unfold nodes. rewrite merge_Permutation, Exs, Es. simpl. by rewrite <-!app_assoc. }
    apply (same_off_trans _ _ h1); [|eapply same_off_weaken; [|exact Ho2]; by rewrite Hperm].
    by rewrite Exs, Es.
Qed.

Lemma sort_loop_run n h l xs fuel : rep h l xs →
  (0 < n)%nat → (runs less xs ≤ n)%nat → (length xs < fuel)%nat → Z.of_nat (length xs) < 2 ^ 32 →
  ∃ h' ys, sort_loop less n fuel l h = Ok (tt, h') ∧ rep h' l ys ∧ ys ≡ₚ xs ∧ sorted less ys ∧
    (∀ z, equals less z ys = equals less z xs) ∧ same_off (nodes l xs) h h'.
Proof.
  revert h xs. induction n as [|n IH]; intros h xs Hr H0 Hn Hf Hl; [lia|].
  cbn [sort_loop]. rewrite (bind_Ok _ _ _ _ _ (list_begin_run _ _ _ Hr)). unfold list_end.
  destruct (sort_pass_run fuel h l [] xs fuel 0 Hr) as (h1 & out & Hp & E & Hr1 & Ho1); [lia..|].
  rewrite (bind_Ok _ _ _ _ _ E). simpl app in *.
  pose proof (pass_Permutation _ _ _ Hp) as HP. pose proof (pass_sorted _ _ _ Hp) as HS.
  pose proof (pass_count _ _ _ Hp) as HC. pose proof (runs_concat _ _ HS) as HR.
  destruct (1 <? 0 + Z.of_nat (length out)) eqn:E1.
  - apply Z.ltb_lt in E1. pose proof (Permutation_length HP) as HL.
    destruct (IH h1 (concat out) Hr1) as (h' & ys & E' & Hr' & HP' & HS' & Heq & Ho'); [lia..|].
    exists h', ys. split_and!; [done..|by rewrite HP'|done| |].
    + intros z. rewrite Heq. by apply pass_stable.
    + eapply same_off_trans; [exact Ho1|]. eapply same_off_weaken; [|exact Ho'].
      unfold nodes. by rewrite HP.
  - apply Z.ltb_ge in E1. exists h1, (concat out). split_and!; try done.
    + destruct out as [|r [|? ?]]; simpl in *; [constructor| |lia].
      rewrite app_nil_r. by inversion_clear HS.
    + intros z. by apply pass_stable.
Qed.
End Memory.

(** C9. [list_sort] sorts.  On a list that holds [xs] it terminates, with every
    assertion of the sort true, and leaves the list holding a permutation of [xs]
    that is sorted; elements that are equal according to [less] stay in the
    order they had, and no memory outside the list changes. *)
Theorem list_sort_correct less `{!WeakOrder less} h l xs fuel :
  rep h l xs → (length xs < fuel)%nat → Z.of_nat (length xs) < 2 ^ 32 →
  ∃ h' ys, list_sort less fuel l h = Ok (tt, h') ∧ rep h' l ys ∧ ys ≡ₚ xs ∧ sorted less ys ∧
    (∀ z, filter (λ a, equal less z a = true) ys = filter (λ a, equal less z a = true) xs) ∧
    same_off (nodes l xs) h h'.
Proof.
  intros Hr Hf Hl. unfold list_sort. pose proof (runs_length less xs) as HR.
  destruct (sort_loop_run less fuel h l xs fuel Hr) as (h' & ys & E & Hr' & HP & HS & Heq & Ho); [lia..|].
  rewrite (bind_Ok _ _ _ _ _ E), (bind_Ok _ _ _ _ _ (list_begin_run _ _ _ Hr')). unfold list_end.
  pose proof (is_sorted_run less h' l [] ys [] fuel) as Hs. rewrite app_nil_r in Hs.
  pose proof (Permutation_length HP) as HL. rewrite (bind_Ok _ _ _ _ _ (Hs Hr' HS ltac:(lia))).
  by exists h', ys.
Qed.

Lemma list_sort_correct_witness : ∃ h' ys,
  list_sort by_digit 8 sample_list (sample_layout [15; 13; 11; 21; 25; 12; 23]) = Ok (tt, h') ∧
  rep h' sample_list ys ∧ ys ≡ₚ [15; 13; 11; 21; 25; 12; 23] ∧ sorted by_digit ys.
Proof.
  destruct (list_sort_correct by_digit (sample_layout [15; 13; 11; 21; 25; 12; 23]) sample_list
    [15; 13; 11; 21; 25; 12; 23] 8) as (h' & ys & E & Hr & HP & HS & _).
  - apply layout_rep; vm_compute; reflexivity.
  - simpl; lia.
  - vm_compute; reflexivity.
  - exists h', ys. exact (conj E (conj Hr (conj HP HS))).
Defined.
