(* ===== verification/CListArray.v ===== *)
(** * Arrays of lists

    Several lists of list.c whose sentinels are in an array of structures, as the
    buckets of a hash table and the free lists of the memory allocator are. *)

From S2P Require Import Prelude FsState CList CListSpec CListOps.

(** ** Lists of lists *)

Lemma elem_of_join_lookup (ls : list (list Z)) e :
  e ∈ mjoin ls ↔ ∃ i xs, ls !! i = Some xs ∧ e ∈ xs.
Proof.
  rewrite list_elem_of_join. split.
  - intros (xs & He & [i Hi]%list_elem_of_lookup). eauto.
  - intros (i & xs & Hi & He). exists xs. split; [done|]. by eapply list_elem_of_lookup_2.
Qed.

Lemma join_insert (ls : list (list Z)) i xs xs' : ls !! i = Some xs →
  ∃ rest, mjoin ls ≡ₚ xs ++ rest ∧ mjoin (<[i := xs']> ls) ≡ₚ xs' ++ rest.
Proof.
  intros Hi. apply list_elem_of_split_length in Hi as (l1 & l2 & -> & ->).
  rewrite insert_app_r_alt, Nat.sub_diag by lia. simpl. rewrite !join_app. simpl.
  exists (mjoin l1 ++ mjoin l2). split; rewrite !(Permutation_app_comm (mjoin l1)), <-!app_assoc;
    by rewrite (Permutation_app_comm (mjoin l2)).
Qed.

(** The distance between neighbouring lists leaves room for the sentinels. *)
Class Stride (stride : Z) : Prop := wide_enough : 16 ≤ stride.

Section Slots.
Context {stride : Z} `{!Stride stride}.

(** The [i]-th list of the array at [b]. *)
Definition slot (b i : Z) : clist := mk_clist (b + stride * i) (b + stride * i + 8).

(** The lists hold what [ls] says. *)
Definition slots_rep (h : heap) (b : Z) (ls : list (list Z)) : Prop :=
  ∀ i xs, ls !! i = Some xs → rep h (slot b (Z.of_nat i)) xs.

(** The address is in an array of [n] lists at [b]. *)
Definition inside (b n x : Z) : Prop := b ≤ x < b + stride * n.

Definition apart (b : Z) (ls : list (list Z)) : Prop :=
  NoDup (mjoin ls) ∧ ∀ e, e ∈ mjoin ls → ¬ inside b (Z.of_nat (length ls)) e.

Lemma slot_room i j : (i < j)%nat →
  0 ≤ stride * Z.of_nat i ∧ stride * Z.of_nat i + 16 ≤ stride * Z.of_nat j.
Proof. intros Hij. pose proof wide_enough. nia. Qed.

Lemma apart_other b ls i xs j ys a : apart b ls → ls !! i = Some xs → ls !! j = Some ys → i ≠ j →
  a ∈ nodes (slot b (Z.of_nat i)) xs → a ∉ nodes (slot b (Z.of_nat j)) ys.
Proof.
  intros [Hd Ho] Hi Hj Hij. pose proof (lookup_lt_Some _ _ _ Hi). pose proof (lookup_lt_Some _ _ _ Hj).
  assert (∀ k zs e, ls !! k = Some zs → e ∈ zs → ¬ inside b (Z.of_nat (length ls)) e) as Hout.
  { intros k zs e Hk He. apply Ho, elem_of_join_lookup. eauto. }
  unfold nodes, inside in *. simpl. rewrite !elem_of_cons, !elem_of_app, !list_elem_of_singleton.
  intros Ha Hb. pose proof (slot_room i (length ls) ltac:(done)). pose proof (slot_room j (length ls) ltac:(done)).
  assert (stride * Z.of_nat i + 16 ≤ stride * Z.of_nat j ∨ stride * Z.of_nat j + 16 ≤ stride * Z.of_nat i) as Hfar.
  { destruct (Nat.lt_total i j) as [Hlt|[->|Hlt]]; [left|done|right]; by apply slot_room. }
  assert (a ∈ xs → a ∈ ys → False) as Hxy.
  { intros Hax Hay. destruct (join_insert ls i xs [] Hi) as (rest & Hp & Hp').
    rewrite Hp in Hd. apply list.NoDup_app in Hd as (_ & Hd & _). apply (Hd a Hax).
    simpl in Hp'. rewrite <-Hp'. apply elem_of_join_lookup. exists j, ys.
    by rewrite list_lookup_insert_ne. }
  destruct Ha as [->|[Ha| ->]], Hb as [Hb|[Hb|Hb]]; try lia; try (by apply Hxy);
    try (apply (Hout _ _ _ Hj Hb); lia); apply (Hout _ _ _ Hi Ha); lia.
Qed.

(** One list changes. *)
Lemma slots_store h h' b ls i xs xs' : slots_rep h b ls → ls !! i = Some xs →
  apart b (<[i := xs']> ls) → rep h' (slot b (Z.of_nat i)) xs' →
  same_off (nodes (slot b (Z.of_nat i)) xs') h h' → slots_rep h' b (<[i := xs']> ls).
Proof.
  intros Hr Hi Ha Hx Hs j ys Hj. pose proof (lookup_lt_Some _ _ _ Hi).
  destruct (decide (i = j)) as [<-|Hij].
  - rewrite list_lookup_insert_eq in Hj by done. by injection Hj as <-.
  - assert (ls !! j = Some ys) as Hj' by (by rewrite list_lookup_insert_ne in Hj).
    apply (ring_off _ h); [|by apply Hr]. intros a Hin. apply Hs.
    apply (apart_other b (<[i := xs']> ls) j ys i xs' a Ha Hj); [by apply list_lookup_insert_eq|done|done].
Qed.

(** One list loses elements, which may be destroyed. *)
Lemma slots_shrink h h' b ls i xs xs' : slots_rep h b ls → ls !! i = Some xs → apart b ls →
  rep h' (slot b (Z.of_nat i)) xs' → same_off (nodes (slot b (Z.of_nat i)) xs) h h' →
  slots_rep h' b (<[i := xs']> ls).
Proof.
  intros Hr Hi Ha Hx Hs j ys Hj. pose proof (lookup_lt_Some _ _ _ Hi).
  destruct (decide (i = j)) as [<-|Hij].
  - rewrite list_lookup_insert_eq in Hj by done. by injection Hj as <-.
  - rewrite list_lookup_insert_ne in Hj by done. apply (ring_off _ h); [|by apply Hr]. intros a Hin. apply Hs.
    by apply (apart_other b ls j ys i xs a Ha Hj Hi).
Qed.

(** Memory that no list is in changes. *)
Lemma slots_off h h' b ls : slots_rep h b ls →
  (∀ a, a ∈ mjoin ls ∨ inside b (Z.of_nat (length ls)) a → h' !! a = h !! a) → slots_rep h' b ls.
Proof.
  intros Hr Hs i xs Hi. pose proof (lookup_lt_Some _ _ _ Hi). apply (ring_off _ h); [|by apply Hr].
  intros a. unfold nodes. simpl. rewrite elem_of_cons, elem_of_app, list_elem_of_singleton. intros Ha.
  pose proof (slot_room i (length ls) ltac:(done)). apply Hs. unfold inside. destruct Ha as [->|[Ha| ->]]; [right; lia|left|right; lia].
  apply elem_of_join_lookup. eauto.
Qed.

Lemma keep_some h h' l xs a : rep h' l xs → same_off (nodes l xs) h h' → is_Some (h !! a) → is_Some (h' !! a).
Proof.
  intros (_ & _ & Hc) Hs Ha. destruct (decide (a ∈ nodes l xs)); [by eapply chain_alloc|]. by rewrite Hs.
Qed.
End Slots.
