(* ===== verification/Allocator.v ===== *)
(** * What malloc promises (threads/malloc.h)

    The interface between the memory allocator and the code that uses it, and a
    simple allocator that keeps the promise. *)

From S2P Require Import Prelude FsState.

(** [in_use] says which addresses belong to somebody, [block] which blocks of which
    sizes have been handed out. *)
Class Allocator (A : Type) := {
  malloc : Z → A → outcome (Z * A);
  free : Z → A → outcome A;
  arena_ok : A → Prop;
  in_use : A → Z → Prop;
  block : A → Z → Z → Prop }.

(** [malloc] fails or returns memory that nobody uses; [free] gives back exactly
    the block. *)
Class AllocatorOk (A : Type) `{!Allocator A} : Prop := {
  malloc_ok a n : arena_ok a → 0 < n ≤ 2 ^ 31 →
    ∃ p a', malloc n a = Ok (p, a') ∧ arena_ok a' ∧
      (p = NULL ∧ (∀ x, in_use a' x ↔ in_use a x) ∧ (∀ q m, block a' q m ↔ block a q m) ∨
       0 < p ∧ p + n ≤ 2 ^ 32 ∧ (∀ x, p ≤ x < p + n → ¬ in_use a x) ∧
         (∀ x, in_use a' x ↔ in_use a x ∨ p ≤ x < p + n) ∧
         (∀ q m, block a' q m ↔ block a q m ∨ q = p ∧ m = n));
  free_ok a p n : arena_ok a → block a p n →
    ∃ a', free p a = Ok a' ∧ arena_ok a' ∧
      (∀ x, in_use a' x ↔ in_use a x ∧ ¬ p ≤ x < p + n) ∧
      (∀ q m, q ≠ p → block a' q m ↔ block a q m);
  block_in_use a p n x : arena_ok a → block a p n → p ≤ x < p + n → in_use a x }.

(** ** An example *)

(** An allocator that hands out addresses in increasing order, from 4096 on; the
    addresses below belong to the caller. *)
Record bump := mk_bump { brk : Z; live_blocks : gmap Z Z }.

#[export] Instance bump_allocator : Allocator bump := {
  malloc n a := if brk a + n <=? 2 ^ 32 then Ok (brk a, mk_bump (brk a + n) (<[brk a := n]> (live_blocks a)))
                else Ok (NULL, a);
  free p a := match live_blocks a !! p with
              | Some _ => Ok (mk_bump (brk a) (delete p (live_blocks a)))
              | None => Panic
              end;
  arena_ok a := 4096 ≤ brk a ∧
    (∀ p n, live_blocks a !! p = Some n → 4096 ≤ p ∧ 0 < n ∧ p + n ≤ brk a) ∧
    (∀ p n q m, live_blocks a !! p = Some n → live_blocks a !! q = Some m → p < q → p + n ≤ q);
  in_use a x := x < 4096 ∨ ∃ p n, live_blocks a !! p = Some n ∧ p ≤ x < p + n;
  block a p n := live_blocks a !! p = Some n }.

#[export] Instance bump_allocator_ok : AllocatorOk bump.
Proof.
  split.
  - intros a n (Hb & Hl & Hd) Hn. simpl. destruct (Z.leb_spec (brk a + n) (2 ^ 32)) as [Hle|Hgt].
    2:{ exists NULL, a. split_and!; try done. by left. }
    assert (live_blocks a !! brk a = None) as Hfresh.
    { destruct (live_blocks a !! brk a) eqn:E; [|done]. destruct (Hl _ _ E). lia. }
    exists (brk a), (mk_bump (brk a + n) (<[brk a := n]> (live_blocks a))). simpl. split_and!; [done|lia|..].
    + intros p m. rewrite lookup_insert_Some. intros [[<- <-]|[_ H]]; [lia|]. destruct (Hl _ _ H). lia.
    + intros p m q m'. rewrite !lookup_insert_Some. intros [[<- <-]|[_ H]] [[<- <-]|[_ H']] Hpq; try lia.
      * destruct (Hl _ _ H'). lia.
      * destruct (Hl _ _ H). lia.
      * by apply (Hd p m q m').
    + right. split_and!; [lia|lia| | |].
      * intros x Hx [?|(p & m & H & ?)]; [lia|]. destruct (Hl _ _ H). lia.
      * intros x. split.
        -- intros [?|(p & m & H & ?)]; [by left; left|]. apply lookup_insert_Some in H as [[<- <-]|[_ H]]; [by right|].
           left. right. eauto.
        -- intros [[?|(p & m & H & ?)]|?]; [by left|right; exists p, m|right; exists (brk a), n].
           ++ rewrite lookup_insert_ne by congruence. done.
           ++ by rewrite lookup_insert_eq.
      * intros q m. rewrite lookup_insert_Some. split; [naive_solver|]. intros [H|[-> ->]]; [right|by left].
        split; [congruence|done].
  - intros a p n (Hb & Hl & Hd) H. simpl in *. rewrite H. eexists. split; [done|]. simpl. split_and!; try done.
    + intros q m [_ H']%lookup_delete_Some. by apply Hl.
    + intros q m q' m' [_ H1]%lookup_delete_Some [_ H2]%lookup_delete_Some. by apply (Hd q m q' m').
    + intros x. destruct (Hl _ _ H) as (? & ? & ?). split.
      * intros [?|(q & m & [Hne H']%lookup_delete_Some & ?)]; [split; [by left|lia]|]. split; [right; eauto|].
        destruct (Z.lt_total p q) as [Hlt|[->|Hlt]]; [pose proof (Hd p n q m H H' Hlt); lia|done|].
        pose proof (Hd q m p n H' H Hlt). lia.
      * intros [[?|(q & m & H' & ?)] Hn]; [by left|right]. exists q, m. split; [|done].
        apply lookup_delete_Some. split; [|done]. intros ->. assert (m = n) as -> by congruence. lia.
    + intros q m Hne. by rewrite lookup_delete_ne.
  - intros a p n x _ H Hx. right. by exists p, n.
Qed.
