(* ===== verification/Malloc.v ===== *)
(** * The memory allocator (threads/malloc.c)

    Requests of up to 1 kB are served from arenas: pages divided into blocks of one
    size, the free ones on the list of the descriptor for that size.  Larger ones
    get whole pages.  Arena headers and the links of free blocks, which the
    allocator keeps inside the pages, are their own maps here; the bytes of blocks
    are in the memory of the page allocator.  A call is one step: the descriptors'
    locks, held while the lists change, carry no data. *)

From S2P Require Import Prelude Bitmap FsState Palloc CList.

(** [struct desc] and [struct arena]; a pointer to a descriptor is its index. *)
Record desc := mk_desc { d_block_size : Z; d_blocks_per_arena : Z; d_free_list : clist }.
Record arena := mk_arena { a_magic : Z; a_desc : option nat; a_free_cnt : Z }.

Definition ARENA_MAGIC : Z := 0x9a548eed.
Definition SIZEOF_ARENA : Z := 12.
Definition SIZEOF_DESC : Z := 48.

(** The links of free blocks, the headers of arenas by page, [descs], and memory. *)
Record mstate := mk_mstate { links : heap; arenas : gmap Z arena; descs : list desc; mpools : pools }.
Abbreviation A := (M mstate).

Definition set_links (h : heap) (s : mstate) : mstate := mk_mstate h (arenas s) (descs s) (mpools s).
Definition set_arenas (m : gmap Z arena) (s : mstate) : mstate := mk_mstate (links s) m (descs s) (mpools s).
Definition set_descs (d : list desc) (s : mstate) : mstate := mk_mstate (links s) (arenas s) d (mpools s).
Definition set_mpools (p : pools) (s : mstate) : mstate := mk_mstate (links s) (arenas s) (descs s) p.

Definition on_links {X} (m : H X) : A X := λ s, let? '(x, h) := m (links s) in Ok (x, set_links h s).
Definition on_pools {X} (m : pools → outcome (X * pools)) : A X := λ s,
  let? '(x, p) := m (mpools s) in Ok (x, set_mpools p s).

Definition load_desc (i : nat) : A desc := λ s,
  match descs s !! i with Some d => Ok (d, s) | None => Undef end.
Definition load_arena (a : Z) : A arena := λ s,
  match arenas s !! a with Some x => Ok (x, s) | None => Undef end.
Definition store_arena (a : Z) (x : arena) : A unit := modify (λ s, set_arenas (<[a := x]> (arenas s)) s).

(** The memory of the block [b] becomes, or is no longer, a free list element. *)
Definition claim_link (b : Z) (e : list_elem) : A unit := modify (λ s, set_links (<[b := e]> (links s)) s).
Definition drop_link (b : Z) : A unit := modify (λ s, set_links (delete b (links s)) s).

Section Malloc.
(** The address of [descs], and what unused memory holds. *)
Context (descs_addr : Z) (junk : Z → list_elem).

Definition free_list_of (i : Z) : clist :=
  mk_clist (descs_addr + SIZEOF_DESC * i + 8) (descs_addr + SIZEOF_DESC * i + 16).

Fixpoint init_loop (fuel : nat) (size : Z) : A unit :=
  if size <? PGSIZE / 2 then
    match fuel with
    | O => out_of_fuel
    | S fuel =>
        let! ds := gets descs in
        let i := Z.of_nat (length ds) in
        let! _ := ASSERT (i + 1 <=? 10) in
        let! _ := modify (set_descs (ds ++ [mk_desc size ((PGSIZE - SIZEOF_ARENA) / size) (free_list_of i)])) in
        let! _ := on_links (list_init (free_list_of i)) in
        init_loop fuel (u32 (size * 2))
    end
  else ret tt.
Definition malloc_init : A unit := init_loop 10 16.

(** ** Blocks and arenas *)

Definition block_to_arena (b : Z) : A Z :=
  let a := pg_round_down b in
  let! _ := ASSERT (negb (a =? NULL)) in
  let! x := load_arena a in
  let! _ := ASSERT (a_magic x =? ARENA_MAGIC) in
  let! _ := (match a_desc x with
             | None => ret tt
             | Some i => let! d := load_desc i in
                         ASSERT (u32 (pg_ofs b - SIZEOF_ARENA) `mod` d_block_size d =? 0)
             end) in
  let! _ := ASSERT (bool_decide (a_desc x ≠ None) || (pg_ofs b =? SIZEOF_ARENA)) in
  ret a.

Definition arena_to_block (a idx : Z) : A Z :=
  let! _ := ASSERT (negb (a =? NULL)) in
  let! x := load_arena a in
  let! _ := ASSERT (a_magic x =? ARENA_MAGIC) in
  match a_desc x with
  | None => undef
  | Some i =>
      let! d := load_desc i in
      let! _ := ASSERT (idx <? d_blocks_per_arena d) in
      ret (u32 (a + SIZEOF_ARENA + idx * d_block_size d))
  end.

(** The smallest descriptor for [size] bytes. *)
Fixpoint find_desc (ds : list desc) (i : nat) (size : Z) : option nat :=
  match ds with
  | [] => None
  | d :: ds => if size <=? d_block_size d then Some i else find_desc ds (S i) size
  end.

(** The blocks of a new arena, from [idx] on, join the free list. *)
Fixpoint add_blocks (cnt : nat) (d : desc) (a idx : Z) : A unit :=
  match cnt with
  | O => ret tt
  | S cnt =>
      let! b := arena_to_block a idx in
      let! _ := claim_link b (junk b) in
      let! _ := on_links (list_push_back (d_free_list d) b) in
      add_blocks cnt d a (idx + 1)
  end.
Definition new_arena (i : nat) (d : desc) : A bool :=
  let! a := on_pools (palloc_get_page 0) in
  if a =? NULL then ret false
  else
    let! _ := store_arena a (mk_arena ARENA_MAGIC (Some i) (d_blocks_per_arena d)) in
    let! _ := add_blocks (Z.to_nat (d_blocks_per_arena d)) d a 0 in
    ret true.

(** The first free block. *)
Definition take_block (d : desc) : A Z :=
  let! b := on_links (list_pop_front (d_free_list d)) in
  let! a := block_to_arena b in
  let! x := load_arena a in
  let! _ := store_arena a (mk_arena (a_magic x) (a_desc x) (u32 (a_free_cnt x - 1))) in
  let! _ := drop_link b in
  ret b.

Definition malloc (size : Z) : A Z :=
  if size =? 0 then ret NULL
  else
    let! ds := gets descs in
    match find_desc ds 0 size with
    | None =>
        let page_cnt := DIV_ROUND_UP (u32 (size + SIZEOF_ARENA)) PGSIZE in
        let! a := on_pools (palloc_get_multiple 0 page_cnt) in
        if a =? NULL then ret NULL
        else
          let! _ := store_arena a (mk_arena ARENA_MAGIC None page_cnt) in
          ret (a + SIZEOF_ARENA)
    | Some i =>
        let! d := load_desc i in
        let! empty := on_links (list_empty (d_free_list d)) in
        let! ok := (if empty then new_arena i d else ret true) in
        if negb ok then ret NULL else take_block d
    end.

Definition fill (p v n : Z) : A unit :=
  modify (λ s, set_mpools (set_ram (memset (ram (mpools s)) p v n) (mpools s)) s).

Definition calloc (a b : Z) : A Z :=
  let size := u32 (a * b) in
  if (size <? a) || (size <? b) then ret NULL
  else
    let! p := malloc size in
    let! _ := (if negb (p =? NULL) then fill p 0 size else ret tt) in
    ret p.

(** Returns the number of bytes allocated for a block. *)
Definition block_size (block : Z) : A Z :=
  let! a := block_to_arena block in
  let! x := load_arena a in
  match a_desc x with
  | Some i => let! d := load_desc i in ret (d_block_size d)
  | None => ret (u32 (u32 (PGSIZE * a_free_cnt x) - pg_ofs block))
  end.

(** The blocks of an unused arena, from [idx] on, leave the free list. *)
Fixpoint remove_blocks (cnt : nat) (a idx : Z) : A unit :=
  match cnt with
  | O => ret tt
  | S cnt =>
      let! b := arena_to_block a idx in
      let! _ := on_links (list_remove b) in
      let! _ := drop_link b in
      remove_blocks cnt a (idx + 1)
  end.

Definition free (p : Z) : A unit :=
  if negb (p =? NULL) then
    let! a := block_to_arena p in
    let! x := load_arena a in
    match a_desc x with
    | Some i =>
        let! d := load_desc i in
        let! _ := fill p 0xcc (d_block_size d) in
        let! _ := claim_link p (mk_elem 0xcccccccc 0xcccccccc) in
        let! _ := on_links (list_push_front (d_free_list d) p) in
        let n := u32 (a_free_cnt x + 1) in
        let! _ := store_arena a (mk_arena (a_magic x) (a_desc x) n) in
        if d_blocks_per_arena d <=? n then
          let! _ := ASSERT (n =? d_blocks_per_arena d) in
          let! _ := remove_blocks (Z.to_nat (d_blocks_per_arena d)) a 0 in
          let! _ := on_pools (λ q, let? q := palloc_free_page a q in Ok (tt, q)) in
          modify (λ s, set_arenas (delete a (arenas s)) s)
        else ret tt
    | None =>
        let! _ := on_pools (λ q, let? q := palloc_free_multiple a (a_free_cnt x) q in Ok (tt, q)) in
        modify (λ s, set_arenas (delete a (arenas s)) s)
    end
  else ret tt.

(** [memcpy] between blocks that do not overlap. *)
Definition copy (dst src n : Z) : A unit :=
  modify (λ s, set_mpools (set_ram (λ x, if (dst <=? x) && (x <? dst + n) then ram (mpools s) (src + (x - dst))
                                         else ram (mpools s) x) (mpools s)) s).

Definition realloc (old_block new_size : Z) : A Z :=
  if new_size =? 0 then let! _ := free old_block in ret NULL
  else
    let! new_block := malloc new_size in
    let! _ := (if negb (old_block =? NULL) && negb (new_block =? NULL) then
                 let! old_size := block_size old_block in
                 let min_size := if new_size <? old_size then new_size else old_size in
                 let! _ := copy new_block old_block min_size in
                 free old_block
               else ret tt) in
    ret new_block.
End Malloc.
