(* ===== verification/MallocSpec.v ===== *)
(** * malloc hands out memory nobody uses

    The invariant of the memory allocator, the effect of [malloc] and [free] on it,
    and that malloc.c keeps the promise of Allocator. *)

From S2P Require Import Prelude Bitmap FsState Palloc CList CListSpec CListOps CListArray Allocator Malloc.

#[export] Instance desc_stride : Stride 48.
Proof. unfold Stride. lia. Qed.

(** ** Addresses *)

(** The sizes of the descriptors. *)
Definition bsize (i : nat) : Z := 16 * 2 ^ Z.of_nat i.
Definition bcount (i : nat) : Z := 4084 / bsize i.
Definition blk (a : Z) (i : nat) (idx : Z) : Z := a + 12 + idx * bsize i.

Lemma small_cases (P : nat → Prop) : P 0%nat → P 1%nat → P 2%nat → P 3%nat → P 4%nat → P 5%nat → P 6%nat →
  ∀ i, (i < 7)%nat → P i.
Proof. intros. do 7 (destruct i as [|i]; [done|]). lia. Qed.

Lemma bsize_bounds i : (i < 7)%nat → 16 ≤ bsize i ≤ 1024 ∧ 0 < bcount i ∧ bcount i * bsize i ≤ 4084.
Proof. revert i. apply small_cases; split_and!; vm_compute; congruence. Qed.

Lemma blk_bounds a i idx : (i < 7)%nat → 0 ≤ idx < bcount i →
  a + 12 ≤ blk a i idx ∧ blk a i idx + bsize i ≤ a + 4096.
Proof. intros Hi Hx. destruct (bsize_bounds i Hi) as (? & ? & ?). unfold blk. nia. Qed.

Lemma blk_far a i idx idx' : (i < 7)%nat → idx < idx' → blk a i idx + bsize i ≤ blk a i idx'.
Proof. intros Hi Hx. destruct (bsize_bounds i Hi) as (? & ? & ?). unfold blk. nia. Qed.

Lemma blk_inj a i idx idx' : (i < 7)%nat → blk a i idx = blk a i idx' → idx = idx'.
Proof. intros Hi Hx. destruct (bsize_bounds i Hi) as (? & ? & ?). unfold blk in Hx. nia. Qed.

Section Spec.
Context (descs_addr : Z).

Definition std_desc (i : Z) : desc :=
  mk_desc (16 * 2 ^ i) (4084 / (16 * 2 ^ i)) (free_list_of descs_addr i).
Definition std_descs : list desc := std_desc <$> seqZ 0 7.

Lemma std_lookup i : (i < 7)%nat → std_descs !! i = Some (std_desc (Z.of_nat i)).
Proof. revert i. by apply small_cases. Qed.

Lemma free_list_slot i : free_list_of descs_addr i = slot (stride := 48) (descs_addr + 8) i.
Proof. unfold free_list_of, slot, SIZEOF_DESC. f_equal; lia. Qed.

(** ** The invariant *)

Definition npages (y : arena) : Z := match a_desc y with Some _ => 1 | None => a_free_cnt y end.

Definition in_page (a b : Z) : Prop := a ≤ b < a + 4096.
#[local] Instance in_page_dec a b : Decision (in_page a b).
Proof. unfold in_page. apply _. Defined.

(** [frees] are the free lists, [live] the blocks handed out with the sizes asked for. *)
Record minv (s : mstate) (frees : list (list Z)) (live : gmap Z Z) : Prop := {
  mi_pools : pools_ok (mpools s);
  mi_descs : descs s = std_descs;
  mi_len : length frees = 7%nat;
  mi_rep : slots_rep (stride := 48) (links s) (descs_addr + 8) frees;
  mi_nodup : NoDup (mjoin frees);
  mi_static x : inside (stride := 48) (descs_addr + 8) 7 x → ¬ 
    base (kernel_pool (mpools s)) ≤ x < base (kernel_pool (mpools s)) + 4096 * bit_cnt (used_map (kernel_pool (mpools s)));
  mi_free i fs b : frees !! i = Some fs → b ∈ fs →
    ∃ a y idx, arenas s !! a = Some y ∧ a_desc y = Some i ∧ 0 ≤ idx < bcount i ∧ b = blk a i idx;
  mi_arena a y : arenas s !! a = Some y →
    a_magic y = ARENA_MAGIC ∧ 0 < npages y < 2 ^ 20 ∧
    (∀ k, 0 ≤ k < npages y → allocated false (mpools s) (a + 4096 * k)) ∧
    match a_desc y with
    | Some i => ∃ fs, frees !! i = Some fs ∧ a_free_cnt y = Z.of_nat (length (filter (in_page a) fs))
    | None => True
    end;
  mi_disjoint a y a' y' : arenas s !! a = Some y → arenas s !! a' = Some y' → a ≠ a' →
    a + 4096 * npages y ≤ a' ∨ a' + 4096 * npages y' ≤ a;
  mi_live p n : live !! p = Some n → 0 < n ∧
    ((∃ a y i idx, arenas s !! a = Some y ∧ a_desc y = Some i ∧ 0 ≤ idx < bcount i ∧ p = blk a i idx ∧
        n ≤ bsize i ∧ ∀ fs, frees !! i = Some fs → p ∉ fs) ∨
     (∃ a y, arenas s !! a = Some y ∧ a_desc y = None ∧ p = a + 12 ∧ n + 12 ≤ 4096 * a_free_cnt y)) }.

(** The page of an arena. *)
Lemma arena_page s frees live a y : minv s frees live → arenas s !! a = Some y →
  0 < a ∧ a `mod` 4096 = 0 ∧ base (kernel_pool (mpools s)) ≤ a ∧
  a + 4096 * npages y ≤ base (kernel_pool (mpools s)) + 4096 * bit_cnt (used_map (kernel_pool (mpools s))) ∧
  a + 4096 * npages y ≤ 2 ^ 32.
Proof.
  intros Hm Ha. pose proof (mi_pools _ _ _ Hm) as Hp. pose proof (kernel_ok _ Hp) as [Hwf Hal Hst Hend].
  destruct (mi_arena _ _ _ Hm a y Ha) as (_ & Hn & Hpg & _).
  destruct (Hpg 0 ltac:(lia)) as (i & Hi & Ea & _). destruct (Hpg (npages y - 1) ltac:(lia)) as (j & Hj & Eb & _).
  simpl in *. unfold page in *. split_and!; try lia.
  replace a with (base (kernel_pool (mpools s)) + i * 4096) by lia.
  rewrite Z.mod_add by lia. done.
Qed.

Lemma desc_lt s frees live a y i : minv s frees live → arenas s !! a = Some y → a_desc y = Some i →
  (i < 7)%nat ∧ npages y = 1.
Proof.
  intros Hm Ha Hd. destruct (mi_arena _ _ _ Hm a y Ha) as (_ & _ & _ & Hc). unfold npages. rewrite Hd in *.
  destruct Hc as (fs & Hfs & _). apply lookup_lt_Some in Hfs. by rewrite (mi_len _ _ _ Hm) in Hfs.
Qed.

Lemma small_block_arena s frees live a y i idx : minv s frees live → arenas s !! a = Some y →
  a_desc y = Some i → 0 ≤ idx < bcount i →
  ∀ s', arenas s' = arenas s → descs s' = descs s → block_to_arena (blk a i idx) s' = Ok (a, s').
Proof.
  intros Hm Ha Hd Hx s' Ea Eds. destruct (desc_lt _ _ _ _ _ _ Hm Ha Hd) as [Hi Hnp].
  destruct (arena_page _ _ _ _ _ Hm Ha) as (Ha0 & Hal & _ & _ & Hend). rewrite Hnp in Hend.
  destruct (mi_arena _ _ _ Hm a y Ha) as (Hmg & _). destruct (bsize_bounds i Hi) as (Hbs & Hbc & Hbb).
  destruct (blk_bounds a i idx Hi Hx) as [Hb1 Hb2].
  assert (blk a i idx `mod` 4096 = 12 + idx * bsize i) as Eofs.
  { unfold blk in *. rewrite <-Z.add_assoc. rewrite <-(Z.add_mod_idemp_l a) by lia. rewrite Hal.
    apply Z.mod_small. nia. }
  unfold block_to_arena. rewrite pg_round_down_eq, Eofs by lia.
  replace (blk a i idx - (12 + idx * bsize i)) with a by (unfold blk; lia).
  rewrite (proj2 (Z.eqb_neq a NULL)) by (unfold NULL; lia).
  rewrite (bind_Ok (ASSERT _) _ s' tt s') by done.
  rewrite (bind_Ok (load_arena a) _ s' y s') by (unfold load_arena; by rewrite Ea, Ha).
  rewrite (bind_Ok (ASSERT _) _ s' tt s') by (rewrite Hmg; done). rewrite Hd.
  rewrite (bind_Ok _ _ s' tt s').
  - by rewrite (bind_Ok (ASSERT _) _ s' tt s').
  - rewrite (bind_Ok (load_desc i) _ s' (std_desc (Z.of_nat i)) s')
      by (unfold load_desc; rewrite Eds, (mi_descs _ _ _ Hm), std_lookup by done; done).
    simpl. rewrite pg_ofs_mod, Eofs. unfold SIZEOF_ARENA. fold (bsize i).
    replace (12 + idx * bsize i - 12) with (idx * bsize i) by lia.
    rewrite (uwrap_id 32) by (unfold in_u; nia). rewrite Z.mod_mul by lia. done.
Qed.

Lemma big_block_arena s frees live a y : minv s frees live → arenas s !! a = Some y →
  a_desc y = None → ∀ s', arenas s' = arenas s → block_to_arena (a + 12) s' = Ok (a, s').
Proof.
  intros Hm Ha Hd s' Ea. destruct (arena_page _ _ _ _ _ Hm Ha) as (Ha0 & Hal & _ & _ & Hend).
  destruct (mi_arena _ _ _ Hm a y Ha) as (Hmg & Hnp & _).
  assert ((a + 12) `mod` 4096 = 12) as Eofs by (rewrite <-Z.add_mod_idemp_l, Hal by lia; done).
  unfold block_to_arena. rewrite pg_round_down_eq, Eofs by lia. replace (a + 12 - 12) with a by lia.
  rewrite (proj2 (Z.eqb_neq a NULL)) by (unfold NULL; lia).
  rewrite (bind_Ok (ASSERT _) _ s' tt s') by done.
  rewrite (bind_Ok (load_arena a) _ s' y s') by (unfold load_arena; by rewrite Ea, Ha).
  rewrite (bind_Ok (ASSERT _) _ s' tt s') by (rewrite Hmg; done). rewrite Hd.
  rewrite (bind_Ok (ret tt) _ s' tt s') by done. rewrite pg_ofs_mod, Eofs. done.
Qed.

(** ** Free blocks of an arena *)

Definition blocks_of (a : Z) (i : nat) : list Z := blk a i <$> seqZ 0 (bcount i).

Lemma elem_of_blocks a i b : b ∈ blocks_of a i ↔ ∃ idx, 0 ≤ idx < bcount i ∧ b = blk a i idx.
Proof.
  unfold blocks_of. rewrite list_elem_of_fmap. setoid_rewrite elem_of_seqZ.
  split; intros (idx & ? & ?); exists idx; split; (done || lia).
Qed.

Lemma blocks_nodup a i : (i < 7)%nat → NoDup (blocks_of a i).
Proof.
  intros Hi. apply NoDup_fmap_2_strong; [|apply NoDup_seqZ]. intros x y _ _. by apply blk_inj.
Qed.

Lemma blocks_length a i : (i < 7)%nat → Z.of_nat (length (blocks_of a i)) = bcount i.
Proof.
  intros Hi. destruct (bsize_bounds i Hi) as (_ & ? & _). unfold blocks_of.
  rewrite length_fmap, length_seqZ. lia.
Qed.

(** Two arenas that share an address are the same. *)
Lemma same_arena s frees live a y a' y' x : minv s frees live → arenas s !! a = Some y → arenas s !! a' = Some y' →
  a ≤ x < a + 4096 * npages y → a' ≤ x < a' + 4096 * npages y' → a = a'.
Proof.
  intros Hm Ha Ha' Hx Hx'. destruct (decide (a = a')); [done|].
  destruct (mi_disjoint _ _ _ Hm a y a' y' Ha Ha'); [done|lia|lia].
Qed.

Lemma free_block_arena s frees live i fs b a y : minv s frees live → frees !! i = Some fs → b ∈ fs →
  arenas s !! a = Some y → a ≤ b < a + 4096 * npages y → a_desc y = Some i ∧ b ∈ blocks_of a i.
Proof.
  intros Hm Hfs Hb Ha Hin. destruct (mi_free _ _ _ Hm i fs b Hfs Hb) as (a' & y' & idx & Ha' & Hd' & Hx & ->).
  destruct (desc_lt _ _ _ _ _ _ Hm Ha' Hd') as [Hi Hnp]. destruct (blk_bounds a' i idx Hi Hx).
  pose proof (bsize_bounds i Hi).
  assert (a = a') as -> by (apply (same_arena s frees live a y a' y' (blk a' i idx)); try done; lia).
  split; [congruence|]. apply elem_of_blocks. eauto.
Qed.

Lemma join_nodup (frees : list (list Z)) i fs : NoDup (mjoin frees) → frees !! i = Some fs → NoDup fs.
Proof.
  intros Hd Hi. destruct (join_insert frees i fs [] Hi) as (rest & Hp & _). rewrite Hp in Hd.
  by apply list.NoDup_app in Hd as (? & _).
Qed.

Lemma free_count s frees live i fs a y : minv s frees live → frees !! i = Some fs →
  arenas s !! a = Some y → a_desc y = Some i →
  filter (in_page a) fs ⊆ blocks_of a i ∧ Z.of_nat (length (filter (in_page a) fs)) ≤ bcount i.
Proof.
  intros Hm Hfs Ha Hd. destruct (desc_lt _ _ _ _ _ _ Hm Ha Hd) as [Hi Hnp].
  assert (filter (in_page a) fs ⊆ blocks_of a i) as Hsub.
  { intros b [Hin Hb]%list_elem_of_filter. unfold in_page in Hin.
    apply (free_block_arena s frees live i fs b a y); try done. lia. }
  split; [done|]. rewrite <-(blocks_length a i) by done. apply inj_le, submseteq_length, NoDup_submseteq; [|done].
  apply list.NoDup_filter. eapply join_nodup; [apply Hm|done].
Qed.

(** ** Free lists *)

Lemma free_not_header s frees live i fs b : minv s frees live → frees !! i = Some fs → b ∈ fs →
  ¬ inside (stride := 48) (descs_addr + 8) 7 b ∧ b ≠ NULL.
Proof.
  intros Hm Hfs Hb. destruct (mi_free _ _ _ Hm i fs b Hfs Hb) as (a & y & idx & Ha & Hd & Hx & ->).
  destruct (desc_lt _ _ _ _ _ _ Hm Ha Hd) as [Hi Hnp]. destruct (blk_bounds a i idx Hi Hx).
  destruct (arena_page _ _ _ _ _ Hm Ha) as (? & _ & ? & ? & _). pose proof (bsize_bounds i Hi).
  split; [|unfold NULL; lia]. intros Hin. apply (mi_static _ _ _ Hm _ Hin). lia.
Qed.

Lemma minv_apart s frees live : minv s frees live → apart (stride := 48) (descs_addr + 8) frees.
Proof.
  intros Hm. split; [apply Hm|]. intros e (i & fs & Hi & He)%elem_of_join_lookup. rewrite (mi_len _ _ _ Hm).
  by apply (free_not_header s frees live i fs e).
Qed.

(** The addresses in the allocator's pages. *)
Definition owns (s : mstate) (x : Z) : Prop :=
  ∃ a y, arenas s !! a = Some y ∧ a ≤ x < a + 4096 * npages y.

(** One block of a small arena changes state: its arena's count and one free list. *)
Lemma minv_update s frees live i fs fs' a y c h live' : minv s frees live →
  frees !! i = Some fs → arenas s !! a = Some y → a_desc y = Some i →
  slots_rep (stride := 48) h (descs_addr + 8) (<[i := fs']> frees) → NoDup (mjoin (<[i := fs']> frees)) →
  (∀ b, b ∈ fs' → b ∈ fs ∨ b ∈ blocks_of a i) →
  c = Z.of_nat (length (filter (in_page a) fs')) →
  (∀ a', a' ≠ a → filter (in_page a') fs' = filter (in_page a') fs ∨ arenas s !! a' = None) →
  (∀ p n, live' !! p = Some n → 0 < n ∧
     (live !! p = Some n ∧ (∀ fs, frees !! i = Some fs → p ∉ fs → p ∉ fs') ∨
      p ∈ blocks_of a i ∧ n ≤ bsize i ∧ p ∉ fs')) →
  minv (mk_mstate h (<[a := mk_arena (a_magic y) (a_desc y) c]> (arenas s)) (descs s) (mpools s))
    (<[i := fs']> frees) live'.
Proof.
  intros Hm Hfs Ha Hd Hrep Hnd Hsub Hc Hother Hlive. pose proof Hm as [].
  pose proof (lookup_lt_Some _ _ _ Hfs) as Hi.
  set (y1 := mk_arena (a_magic y) (a_desc y) c).
  assert (npages y1 = npages y) as Hnp by (unfold npages, y1; simpl; by rewrite Hd).
  assert (∀ a' y', <[a := y1]> (arenas s) !! a' = Some y' →
    ∃ y0, arenas s !! a' = Some y0 ∧ a_desc y0 = a_desc y' ∧ npages y0 = npages y' ∧ a_magic y0 = a_magic y') as Hold.
  { intros a' y'. rewrite lookup_insert_Some. intros [[<- <-]|[_ H]]; [exists y|exists y']; done. }
  assert (∀ a' y0, arenas s !! a' = Some y0 → ∃ y', <[a := y1]> (arenas s) !! a' = Some y' ∧ a_desc y' = a_desc y0 ∧
    (a_desc y0 = None → y' = y0)) as Hnew.
  { intros a' y0 H. destruct (decide (a' = a)) as [->|Hne].
    - exists y1. rewrite lookup_insert_eq. assert (y0 = y) as -> by congruence. split_and!; [done|done|intros ?; congruence].
    - exists y0. by rewrite lookup_insert_ne. }
  split; simpl; try done.
  - by rewrite length_insert.
  - intros j fj b. destruct (decide (i = j)) as [<-|Hij].
    + rewrite list_lookup_insert_eq by done. intros [= <-] Hb. destruct (Hsub b Hb) as [Hb'|Hb'].
      * destruct (mi_free0 i fs b Hfs Hb') as (a' & y' & idx & Ha' & Hd' & ? & ?).
        destruct (Hnew _ _ Ha') as (y2 & ? & ? & _). exists a', y2, idx. split_and!; try done; (congruence || lia).
      * apply elem_of_blocks in Hb' as (idx & ? & ?). exists a, y1, idx. by rewrite lookup_insert_eq.
    + rewrite list_lookup_insert_ne by done. intros Hj Hb.
      destruct (mi_free0 j fj b Hj Hb) as (a' & y' & idx & Ha' & Hd' & ? & ?).
      destruct (Hnew _ _ Ha') as (y2 & ? & ? & _). exists a', y2, idx. split_and!; try done; (congruence || lia).
  - intros a' y' Ha'. destruct (Hold a' y' Ha') as (y0 & Ha0 & Ed & En & Em).
    destruct (mi_arena0 a' y0 Ha0) as (? & ? & ? & Hcount). rewrite Ed, En, Em in *. do 3 (split; [done|]).
    destruct (a_desc y') as [j|] eqn:Hj; [|done]. destruct (decide (a' = a)) as [->|Hne].
    + rewrite lookup_insert_eq in Ha'. injection Ha' as <-. simpl in Hj. assert (j = i) as -> by congruence.
      exists fs'. by rewrite list_lookup_insert_eq.
    + rewrite lookup_insert_ne in Ha' by done. assert (y' = y0) as -> by congruence.
      destruct Hcount as (fj & Hfj & Ec). destruct (decide (i = j)) as [<-|Hij].
      * exists fs'. rewrite list_lookup_insert_eq by done. split; [done|]. assert (fj = fs) as -> by congruence.
        destruct (Hother a' Hne) as [->|?]; [done|congruence].
      * exists fj. by rewrite list_lookup_insert_ne.
  - intros a1 y2 a2 y3 H1 H2 Hne. destruct (Hold _ _ H1) as (y4 & ? & _ & <- & _).
    destruct (Hold _ _ H2) as (y5 & ? & _ & <- & _). by apply mi_disjoint0.
  - intros p n Hp. destruct (Hlive p n Hp) as (Hn & [[Hl Hnf]|(Hb & Hle & Hnf)]); (split; [done|]).
    + destruct (mi_live0 p n Hl) as (_ & [(a' & y' & j & idx & Ha' & Hd' & ? & ? & ? & Hfree)|(a' & y' & Ha' & Hd' & ? & ?)]).
      * left. destruct (Hnew _ _ Ha') as (y2 & ? & ? & _). exists a', y2, j, idx. split_and!; try done; try (congruence || lia).
        intros fj. destruct (decide (i = j)) as [<-|Hij].
        -- rewrite list_lookup_insert_eq by done. intros [= <-]. apply (Hnf fs Hfs). by apply Hfree.
        -- rewrite list_lookup_insert_ne by done. apply Hfree.
      * right. destruct (Hnew _ _ Ha') as (y2 & ? & ? & E). rewrite (E Hd') in *. exists a', y'. done.
    + left. apply elem_of_blocks in Hb as (idx & ? & ?). exists a, y1, i, idx. rewrite lookup_insert_eq.
      split_and!; try done; try lia. intros fj. rewrite list_lookup_insert_eq by done. by intros [= <-].
Qed.

Lemma owns_update s h ar y a y1 x : arenas s !! a = Some y → npages y1 = npages y →
  ar = <[a := y1]> (arenas s) → owns (mk_mstate h ar (descs s) (mpools s)) x ↔ owns s x.
Proof.
  intros Ha Hn ->. unfold owns. simpl. split; intros (a' & y' & H & Hx).
  - apply lookup_insert_Some in H as [[<- <-]|[_ H]]; [|eauto]. exists a, y. by rewrite <-Hn.
  - destruct (decide (a' = a)) as [->|Hne].
    + exists a, y1. rewrite lookup_insert_eq, Hn. by replace y with y' by congruence.
    + exists a', y'. by rewrite lookup_insert_ne.
Qed.

Lemma on_links_run {X} (m : H X) s x h : m (links s) = Ok (x, h) → on_links m s = Ok (x, set_links h s).
Proof. intros E. unfold on_links. by rewrite E. Qed.

Lemma take_block_run s frees live i b fs n : minv s frees live → frees !! i = Some (b :: fs) → 0 < n ≤ bsize i →
  ∃ s', take_block (std_desc (Z.of_nat i)) s = Ok (b, s') ∧
    minv s' (<[i := fs]> frees) (<[b := n]> live) ∧ mpools s' = mpools s ∧ ∀ x, owns s' x ↔ owns s x.
Proof.
  intros Hm Hfs Hn. pose proof (minv_apart _ _ _ Hm) as [Hnd Hout]. pose proof (lookup_lt_Some _ _ _ Hfs) as Hlen.
  destruct (free_not_header _ _ _ _ _ b Hm Hfs ltac:(set_solver)) as [Hbh _].
  destruct (mi_free _ _ _ Hm i _ b Hfs ltac:(set_solver)) as (a & y & idx & Ha & Hd & Hx & Eb).
  destruct (desc_lt _ _ _ _ _ _ Hm Ha Hd) as [Hi Hnp]. destruct (blk_bounds a i idx Hi Hx) as [Hb1 Hb2].
  destruct (bsize_bounds i Hi) as (Hbs & _ & _).
  destruct (join_insert frees i (b :: fs) fs Hfs) as (rest & Hp1 & Hp2).
  assert (mjoin frees ≡ₚ b :: mjoin (<[i := fs]> frees)) as Hp by (by rewrite Hp1, Hp2).
  rewrite Hp in Hnd. apply list.NoDup_cons in Hnd as [Hbn Hnd].
  destruct (list_pop_front_rep _ _ _ _ (mi_rep _ _ _ Hm i _ Hfs)) as (h1 & E1 & Hr1 & Hs1).
  assert (apart (stride := 48) (descs_addr + 8) (<[i := fs]> frees)) as Hap.
  { split; [done|]. intros e He. rewrite length_insert. apply Hout. rewrite Hp. set_solver. }
  assert (slots_rep (stride := 48) (delete b h1) (descs_addr + 8) (<[i := fs]> frees)) as Hrep.
  { apply (slots_off h1); [by apply (slots_store (links s) _ _ _ _ (b :: fs)); try apply Hm|].
    intros x [Hin|Hin]; apply lookup_delete_ne; [by intros ->|]. rewrite length_insert, (mi_len _ _ _ Hm) in Hin.
    intros ->. by apply Hbh. }
  destruct (mi_arena _ _ _ Hm a y Ha) as (_ & _ & _ & Hcnt). rewrite Hd in Hcnt.
  destruct Hcnt as (fs0 & Hfs0 & Ec). assert (fs0 = b :: fs) as -> by congruence.
  destruct (free_count _ _ _ i _ a y Hm Hfs Ha Hd) as [_ Hle]. pose proof (bsize_bounds i Hi) as (_ & ? & Hbb).
  rewrite filter_cons_True in Ec, Hle by (unfold in_page; lia). simpl in Ec, Hle.
  set (y1 := mk_arena (a_magic y) (a_desc y) (a_free_cnt y - 1)).
  exists (mk_mstate (delete b h1) (<[a := y1]> (arenas s)) (descs s) (mpools s)). split_and!.
  - unfold take_block. simpl. rewrite free_list_slot. rewrite (bind_Ok _ _ _ _ _ (on_links_run _ _ _ _ E1)).
    rewrite Eb at 1. erewrite (bind_Ok (block_to_arena _)) by (by eapply small_block_arena).
    erewrite (bind_Ok (load_arena _)) by (unfold load_arena; simpl; rewrite Ha; done).
    rewrite (uwrap_id 32) by (unfold in_u; nia). done.
  - apply (minv_update s frees live i (b :: fs)); try done.
    + set_solver.
    + simpl. lia.
    + intros a' Hne. destruct (arenas s !! a') as [y'|] eqn:Ha'; [left|by right].
      rewrite filter_cons_False; [done|]. intros Hin. apply Hne. symmetry.
      pose proof (proj1 (proj2 (mi_arena _ _ _ Hm a' y' Ha'))).
      apply (same_arena s frees live a y a' y' b); try done; [lia|]. unfold in_page in Hin. lia.
    + intros p m. rewrite lookup_insert_Some. intros [[<- <-]|[_ Hl]].
      * split; [lia|]. right. split_and!; [apply elem_of_blocks; eauto|lia|].
        intros Hin. apply Hbn. rewrite Hp2. set_solver.
      * split; [by apply (mi_live _ _ _ Hm p)|]. left. split; [done|]. intros fs1 Hf1 Hnin Hin. apply Hnin.
        assert (fs1 = b :: fs) as -> by congruence. set_solver.
  - done.
  - intros x. apply (owns_update s _ _ y a y1); try done. unfold npages, y1. simpl. by rewrite Hd.
Qed.

(** ** New pages *)

(** The address is in a page of the kernel pool that nobody has. *)
Definition free_page (p : pools) (x : Z) : Prop :=
  ∃ a, pg_ofs a = 0 ∧ a ≤ x < a + 4096 ∧ page_from_pool (kernel_pool p) a = true ∧ ¬ allocated false p a.

(** The address belongs to somebody else than the allocators. *)
Definition foreign (s : mstate) (x : Z) : Prop := ¬ owns s x ∧ ¬ free_page (mpools s) x.

(** Fresh pages from the page allocator. *)
Record fresh_pages (p : pools) (a cnt : Z) (p' : pools) : Prop := {
  fp_ok : pools_ok p';
  fp_same : same_pools p p';
  fp_align : pg_ofs a = 0;
  fp_free k : 0 ≤ k < cnt → ¬ allocated false p (a + 4096 * k) ∧
                           page_from_pool (kernel_pool p) (a + 4096 * k) = true;
  fp_alloc b : allocated false p' b ↔ allocated false p b ∨ ∃ k, 0 ≤ k < cnt ∧ b = a + 4096 * k }.

Lemma palloc_fresh p cnt : pools_ok p → 0 < cnt < 2 ^ 20 →
  palloc_get_multiple 0 cnt p = Ok (NULL, p) ∨
  ∃ a p', palloc_get_multiple 0 cnt p = Ok (a, p') ∧ a ≠ NULL ∧ fresh_pages p a cnt p' ∧ (∀ x, ram p' x = ram p x).
Proof.
  intros Hp Hc.
  destruct (palloc_get_multiple_ok 0 cnt p Hp Hc) as [(a & p' & E & Hok & Hs & Hn & Hal & Hf & Ha & Hram)|[_ E]]; [right|by left].
  exists a, p'. split; [done|]. split; [done|]. split; [|done]. split; try done.
  intros b. rewrite Ha. naive_solver.
Qed.

Lemma aligned_between a x : a `mod` 4096 = 0 → ∀ b, b `mod` 4096 = 0 → a ≤ x < a + 4096 → b ≤ x < b + 4096 → a = b.
Proof.
  intros Ha b Hb Hax Hbx. pose proof (Z.div_mod a 4096 ltac:(lia)). pose proof (Z.div_mod b 4096 ltac:(lia)). lia.
Qed.

(** The fresh pages hold nothing of the allocator's. *)
Lemma fresh_apart s frees live a cnt p' a' y' : minv s frees live → fresh_pages (mpools s) a cnt p' → 0 < cnt →
  arenas s !! a' = Some y' → a + 4096 * cnt ≤ a' ∨ a' + 4096 * npages y' ≤ a.
Proof.
  intros Hm Hf Hc Ha'. destruct (mi_arena _ _ _ Hm a' y' Ha') as (_ & Hnp & Hpg & _).
  destruct (arena_page _ _ _ _ _ Hm Ha') as (_ & Hal' & _). pose proof (fp_align _ _ _ _ Hf) as Hal.
  rewrite pg_ofs_mod in Hal. pose proof (Z.div_mod a 4096 ltac:(lia)). pose proof (Z.div_mod a' 4096 ltac:(lia)).
  destruct (Z.le_gt_cases (a + 4096 * cnt) a') as [|H1]; [by left|].
  destruct (Z.le_gt_cases (a' + 4096 * npages y') a) as [|H2]; [by right|]. exfalso.
  destruct (Z.le_gt_cases a a') as [Hle|Hgt].
  - destruct (fp_free _ _ _ _ Hf (a' / 4096 - a / 4096)) as [Hno _]; [lia|]. apply Hno.
    replace (a + 4096 * (a' / 4096 - a / 4096)) with (a' + 4096 * 0) by lia. apply Hpg. lia.
  - destruct (fp_free _ _ _ _ Hf 0) as [Hno _]; [lia|]. apply Hno.
    replace (a + 4096 * 0) with (a' + 4096 * (a / 4096 - a' / 4096)) by lia. apply Hpg. lia.
Qed.

Lemma fresh_free_page p a cnt p' x : fresh_pages p a cnt p' → 0 < cnt →
  free_page p' x ↔ free_page p x ∧ ¬ a ≤ x < a + 4096 * cnt.
Proof.
  intros Hf Hc. pose proof (fp_align _ _ _ _ Hf) as Hal. unfold free_page.
  assert (∀ b, page_from_pool (kernel_pool p') b = page_from_pool (kernel_pool p) b) as Hpf
    by (intros b; apply (page_from_same_pools p p' false), Hf).
  rewrite pg_ofs_mod in Hal. setoid_rewrite Hpf. split.
  - intros (b & Hb & Hx & Hpool & Hno). rewrite (fp_alloc _ _ _ _ Hf) in Hno. split; [naive_solver|].
    intros Hin. apply Hno. right. rewrite pg_ofs_mod in Hb.
    pose proof (Z.div_mod a 4096 ltac:(lia)). pose proof (Z.div_mod b 4096 ltac:(lia)).
    exists (b / 4096 - a / 4096). lia.
  - intros [(b & Hb & Hx & Hpool & Hno) Hout]. exists b. split_and!; try done; try lia.
    rewrite (fp_alloc _ _ _ _ Hf). intros [?|(k & Hk & ->)]; [done|]. apply Hout. lia.
Qed.

Lemma fresh_in_pool p a cnt p' : pools_ok p → fresh_pages p a cnt p' → 0 < cnt →
  base (kernel_pool p) ≤ a ∧ a + 4096 * cnt ≤ base (kernel_pool p) + 4096 * bit_cnt (used_map (kernel_pool p)) ∧
  ∀ x, a ≤ x < a + 4096 * cnt → free_page p x.
Proof.
  intros Hp Hf Hc. pose proof (fp_align _ _ _ _ Hf) as Hal. rewrite pg_ofs_mod in Hal.
  assert (∀ k, pg_ofs (a + 4096 * k) = 0) as Halk.
  { intros k. rewrite pg_ofs_mod. replace (a + 4096 * k) with (a + k * 4096) by lia. by rewrite Z.mod_add. }
  assert (∀ k, 0 ≤ k < cnt → ∃ i, 0 ≤ i < bit_cnt (used_map (kernel_pool p)) ∧ a + 4096 * k = page (kernel_pool p) i) as Hin.
  { intros k Hk. destruct (fp_free _ _ _ _ Hf k Hk) as [_ Hpf].
    by apply page_from_pool_page in Hpf; [|apply Hp|apply Halk]. }
  destruct (Hin 0 ltac:(lia)) as (i & Hi & Ei). destruct (Hin (cnt - 1) ltac:(lia)) as (j & Hj & Ej). unfold page in *.
  split_and!; [lia|lia|]. intros x Hx. exists (a + 4096 * ((x - a) / 4096)).
  pose proof (Z.div_mod (x - a) 4096 ltac:(lia)). pose proof (Z.mod_pos_bound (x - a) 4096 ltac:(lia)).
  destruct (fp_free _ _ _ _ Hf ((x - a) / 4096)) as [? ?]; [lia|]. split_and!; try done; try lia.
Qed.

(** The allocator takes over fresh pages as an arena without free blocks. *)
Lemma minv_new_arena s frees live a y p' : minv s frees live → fresh_pages (mpools s) a (npages y) p' →
  a_magic y = ARENA_MAGIC → 0 < npages y < 2 ^ 20 →
  (∀ i, a_desc y = Some i → (i < 7)%nat ∧ a_free_cnt y = 0) →
  minv (mk_mstate (links s) (<[a := y]> (arenas s)) (descs s) p') frees live ∧ arenas s !! a = None ∧
  ∀ h, ∀ x, foreign (mk_mstate h (<[a := y]> (arenas s)) (descs s) p') x ↔ foreign s x.
Proof.
  intros Hm Hf Hmg Hnp Hd. pose proof Hm as [].
  destruct (fresh_in_pool _ _ _ _ mi_pools0 Hf ltac:(lia)) as (Hlo & Hhi & Hfp).
  assert (∀ a' y', arenas s !! a' = Some y' → a + 4096 * npages y ≤ a' ∨ a' + 4096 * npages y' ≤ a) as Hap.
  { intros a' y' Ha'. apply (fresh_apart s frees live a _ p' a' y'); try done. lia. }
  assert (arenas s !! a = None) as Hnone.
  { destruct (arenas s !! a) as [y'|] eqn:E; [|done]. destruct (mi_arena0 _ _ E) as (_ & ? & _). destruct (Hap _ _ E); lia. }
  assert (∀ a' y', arenas s !! a' = Some y' → <[a := y]> (arenas s) !! a' = Some y') as Hkeep.
  { intros a' y' Ha'. rewrite lookup_insert_ne; [done|]. congruence. }
  assert (same_pools (mpools s) p') as Hsame by apply Hf. destruct (Hsame false) as [Eb Ec]. simpl in Eb, Ec.
  split_and!; [|done|].
  - split; simpl; try done.
    + apply Hf.
    + intros x Hx. rewrite Eb, Ec. by apply mi_static0.
    + intros i fs b Hi Hb. destruct (mi_free0 i fs b Hi Hb) as (a' & y' & idx & Ha' & ? & ? & ?). exists a', y', idx. auto.
    + intros a' y'. rewrite lookup_insert_Some. intros [[<- <-]|[Hne Ha']].
      * split; [done|]. split; [done|]. split; [intros k Hk; apply (fp_alloc _ _ _ _ Hf); eauto|].
        destruct (a_desc y) as [i|] eqn:Ed; [|done]. destruct (Hd i eq_refl) as [Hi ->].
        destruct (lookup_lt_is_Some_2 frees i) as [fs Hfs]; [lia|]. exists fs. split; [done|].
        rewrite filter_none; [done|]. intros b Hb Hin. destruct (mi_free0 i fs b Hfs Hb) as (a' & y' & idx & Ha' & Hd' & Hx & ->).
        destruct (desc_lt _ _ _ _ _ _ Hm Ha' Hd') as [Hi' Hnp']. destruct (blk_bounds a' i idx Hi' Hx).
        pose proof (bsize_bounds i Hi). unfold in_page in Hin. destruct (Hap _ _ Ha'); unfold npages in *; rewrite ?Ed in *; lia.
      * destruct (mi_arena0 a' y' Ha') as (? & ? & Hal & ?). split; [done|]. split; [done|]. split; [|done].
        intros k Hk. apply (fp_alloc _ _ _ _ Hf). left. by apply Hal.
    + intros a1 y1 a2 y2. rewrite !lookup_insert_Some. intros [[<- <-]|[_ H1]] [[<- <-]|[_ H2]] Hne; try done.
      * by apply Hap.
      * destruct (Hap _ _ H1); [by right|by left].
      * by apply mi_disjoint0.
    + intros q n Hq. destruct (mi_live0 q n Hq) as (? & [(a' & y' & i & idx & Ha' & ?)|(a' & y' & Ha' & ?)]); (split; [done|]).
      * left. exists a', y', i, idx. auto.
      * right. exists a', y'. auto.
  - intros h x. unfold foreign. simpl. rewrite (fresh_free_page _ _ _ _ x Hf) by lia. unfold owns. simpl. split.
    + intros [Hno Hnf]. split.
      * intros (a' & y' & Ha' & Hx). apply Hno. exists a', y'. auto.
      * intros Hfx. apply Hnf. split; [done|]. intros Hx. apply Hno. exists a, y. by rewrite lookup_insert_eq.
    + intros [Hno Hnf]. split; [|tauto]. intros (a' & y' & [[<- <-]|[_ Ha']]%lookup_insert_Some & Hx).
      * by apply Hnf, Hfp.
      * apply Hno. eauto.
Qed.

Lemma arena_to_block_run s a y i idx : arenas s !! a = Some y → a_magic y = ARENA_MAGIC → a_desc y = Some i →
  descs s = std_descs → (i < 7)%nat → 0 < a → a + 4096 ≤ 2 ^ 32 → 0 ≤ idx < bcount i →
  arena_to_block a idx s = Ok (blk a i idx, s).
Proof.
  intros Ha Hmg Hd Hds Hi Ha0 Hend Hx. destruct (blk_bounds a i idx Hi Hx) as [Hb1 Hb2].
  pose proof (bsize_bounds i Hi). unfold arena_to_block.
  rewrite (proj2 (Z.eqb_neq a NULL)) by (unfold NULL; lia). rewrite (bind_Ok (ASSERT _) _ s tt s) by done.
  rewrite (bind_Ok (load_arena a) _ s y s) by (unfold load_arena; by rewrite Ha).
  rewrite (bind_Ok (ASSERT _) _ s tt s) by (rewrite Hmg; done). rewrite Hd.
  rewrite (bind_Ok (load_desc i) _ s (std_desc (Z.of_nat i)) s)
    by (unfold load_desc; rewrite Hds, std_lookup by done; done).
  simpl. fold (bsize i) (bcount i). rewrite (proj2 (Z.ltb_lt idx (bcount i))) by lia.
  rewrite (bind_Ok (ASSERT _) _ s tt s) by done. unfold SIZEOF_ARENA. fold (blk a i idx).
  rewrite (uwrap_id 32) by (unfold in_u; lia). done.
Qed.

Lemma seqZ_step idx cnt : seqZ idx (Z.of_nat (S cnt)) = idx :: seqZ (idx + 1) (Z.of_nat cnt).
Proof. rewrite seqZ_cons by lia. f_equal. f_equal; lia. Qed.

Lemma add_blocks_run junk cnt s a y i idx fs : arenas s !! a = Some y → a_magic y = ARENA_MAGIC → a_desc y = Some i →
  descs s = std_descs → (i < 7)%nat → 0 < a → a + 4096 ≤ 2 ^ 32 → 0 ≤ idx → idx + Z.of_nat cnt ≤ bcount i →
  let fl := slot (stride := 48) (descs_addr + 8) (Z.of_nat i) in
  rep (links s) fl fs → (∀ k, idx ≤ k < idx + Z.of_nat cnt → blk a i k ∉ nodes fl fs) →
  ∃ h, add_blocks junk cnt (std_desc (Z.of_nat i)) a idx s = Ok (tt, set_links h s) ∧
    let fs' := fs ++ (blk a i <$> seqZ idx (Z.of_nat cnt)) in
    rep h fl fs' ∧ same_off (nodes fl fs') (links s) h.
Proof.
  intros Ha Hmg Hd Hds Hi Ha0 Hend. cbv zeta.
  revert s idx fs Ha Hds. induction cnt as [|cnt IH]; intros s idx fs Ha Hds Hidx Hle Hr Hnew.
  - exists (links s). rewrite app_nil_r. split_and!; [by destruct s|done|done].
  - cbn [add_blocks].
    erewrite (bind_Ok (arena_to_block _ _)) by (eapply arena_to_block_run; try done; lia).
    erewrite (bind_Ok (claim_link _ _)) by done.
    set (b := blk a i idx). set (fl := slot _ _) in *.
    assert (b ∉ nodes fl fs) as Hb by (apply Hnew; lia).
    assert (rep (<[b := junk b]> (links s)) fl fs) as Hr0.
    { apply (ring_off _ (links s)); [|done]. intros x Hx. apply lookup_insert_ne. by intros ->. }
    assert (b ≠ NULL) as HbN.
    { destruct (blk_bounds a i idx Hi) as [? _]; [lia|]. unfold b, NULL. lia. }
    destruct (list_push_back_rep _ _ _ b (junk b) Hr0 Hb HbN) as (h1 & E1 & Hr1 & Hs1); [apply lookup_insert_eq|].
    rewrite (bind_Ok _ _ _ tt (set_links h1 s)).
    2:{ simpl. rewrite free_list_slot. exact (on_links_run _ (set_links (<[b := junk b]> (links s)) s) tt h1 E1). }
    destruct (IH (set_links h1 s) (idx + 1) (fs ++ [b])) as (h & E & Hr' & Hs'); try done; try lia.
    { intros k Hk. assert (blk a i k ∉ nodes fl fs) as Hk' by (apply Hnew; lia).
      assert (blk a i k ≠ b) by (intros Heq%blk_inj; [lia|done]). unfold nodes in *. set_solver. }
    exists h. rewrite seqZ_step. cbn [fmap list_fmap]. fold b. rewrite <-app_assoc in Hr', Hs'. simpl app in Hr', Hs'.
    split_and!; [by rewrite E|done|]. intros x Hx. rewrite Hs' by done. simpl.
    rewrite Hs1; [apply lookup_insert_ne|]; unfold nodes in *; set_solver.
Qed.

Lemma on_pools_run {X} (m : pools → outcome (X * pools)) s x q : m (mpools s) = Ok (x, q) →
  on_pools m s = Ok (x, set_mpools q s).
Proof. intros E. unfold on_pools. by rewrite E. Qed.

(** A block that was handed out is in a page of the allocator. *)
Lemma live_owned s frees live p n : minv s frees live → live !! p = Some n →
  ∃ a y, arenas s !! a = Some y ∧ a < p ∧ p + n ≤ a + 4096 * npages y.
Proof.
  intros Hm Hl.
  destruct (mi_live _ _ _ Hm p n Hl) as (Hn & [(a & y & i & idx & Ha & Hd & Hx & -> & Hle & _)|(a & y & Ha & Hd & -> & Hle)]);
    exists a, y.
  - destruct (desc_lt _ _ _ _ _ _ Hm Ha Hd) as [Hi Hnp]. destruct (blk_bounds a i idx Hi Hx). split_and!; [done|lia|lia].
  - split_and!; [done|lia|]. unfold npages. rewrite Hd. lia.
Qed.

(** The blocks of a new arena, whose page was fresh, join the empty free list. *)
Lemma minv_fill_arena s frees live i a h : minv s frees live → frees !! i = Some [] →
  arenas s !! a = Some (mk_arena ARENA_MAGIC (Some i) 0) → (∀ p n, live !! p = Some n → p ∉ blocks_of a i) →
  rep h (slot (stride := 48) (descs_addr + 8) (Z.of_nat i)) (blocks_of a i) →
  same_off (nodes (slot (stride := 48) (descs_addr + 8) (Z.of_nat i)) (blocks_of a i)) (links s) h →
  minv (mk_mstate h (<[a := mk_arena ARENA_MAGIC (Some i) (bcount i)]> (arenas s)) (descs s) (mpools s))
    (<[i := blocks_of a i]> frees) live.
Proof.
  intros Hm Hfs Ha Hlive Hr Hs. destruct (desc_lt _ _ _ _ _ i Hm Ha eq_refl) as [Hi Hnp].
  pose proof (minv_apart _ _ _ Hm) as [Hnd Hout]. pose proof (bsize_bounds i Hi).
  destruct (arena_page _ _ _ _ _ Hm Ha) as (_ & _ & Hlo & Hhi & _). rewrite Hnp in Hhi.
  assert (∀ b, b ∈ blocks_of a i → a ≤ b < a + 4096) as Hbl.
  { intros b (idx & Hx & ->)%elem_of_blocks. destruct (blk_bounds a i idx Hi Hx). lia. }
  destruct (join_insert frees i [] (blocks_of a i) Hfs) as (rest & Hp1 & Hp2). simpl in Hp1.
  assert (∀ b, b ∈ mjoin frees → b ∉ blocks_of a i) as Hdis.
  { intros b (j & fj & Hj & Hb)%elem_of_join_lookup Hin. pose proof (Hbl b Hin).
    destruct (free_block_arena _ _ _ j fj b a _ Hm Hj Hb Ha) as [Hji _]; [lia|]. simpl in Hji.
    injection Hji as <-. rewrite Hfs in Hj. injection Hj as <-. set_solver. }
  assert (NoDup (mjoin (<[i := blocks_of a i]> frees))) as Hnd'.
  { rewrite Hp2. apply list.NoDup_app. split_and!; [by apply blocks_nodup| |by rewrite <-Hp1].
    intros b Hb Hin. rewrite <-Hp1 in Hin. by apply (Hdis b). }
  apply (minv_update s frees live i [] _ a (mk_arena ARENA_MAGIC (Some i) 0)); try done.
  - apply (slots_store (links s) _ _ _ _ []); try done; [apply Hm|]. split; [done|]. rewrite length_insert.
    intros e He. rewrite Hp2 in He. apply elem_of_app in He as [He|He]; [|apply Hout; by rewrite Hp1].
    rewrite (mi_len _ _ _ Hm). intros Hin. apply (mi_static _ _ _ Hm e Hin). pose proof (Hbl e He). lia.
  - intros b Hb. by right.
  - rewrite filter_all; [by rewrite blocks_length|]. intros b Hb. by apply Hbl.
  - intros a' Hne. destruct (arenas s !! a') as [y'|] eqn:Ha'; [left|by right]. apply filter_none.
    intros b Hb Hin. pose proof (Hbl b Hb). apply Hne. symmetry.
    pose proof (proj1 (proj2 (mi_arena _ _ _ Hm a' y' Ha'))). unfold in_page in Hin.
    apply (same_arena s frees live a _ a' y' b Hm Ha Ha'); lia.
  - intros p n Hl. split; [by apply (mi_live _ _ _ Hm p)|]. left. split; [done|]. intros _ _ _. by apply (Hlive p n).
Qed.

Lemma new_arena_run junk s frees live i : minv s frees live → frees !! i = Some [] →
  new_arena junk i (std_desc (Z.of_nat i)) s = Ok (false, s) ∧ palloc_get_multiple 0 1 (mpools s) = Ok (NULL, mpools s) ∨
  ∃ a s', new_arena junk i (std_desc (Z.of_nat i)) s = Ok (true, s') ∧
    minv s' (<[i := blocks_of a i]> frees) live ∧ (∀ x, foreign s' x ↔ foreign s x) ∧ blocks_of a i ≠ [] ∧
    (∀ x, ram (mpools s') x = ram (mpools s) x).
Proof.
  intros Hm Hfs. pose proof (lookup_lt_Some _ _ _ Hfs) as Hi. rewrite (mi_len _ _ _ Hm) in Hi.
  destruct (bsize_bounds i Hi) as (_ & Hbc & Hbb). unfold new_arena, palloc_get_page.
  destruct (palloc_fresh (mpools s) 1 (mi_pools _ _ _ Hm) ltac:(lia)) as [E|(a & p' & E & Hn & Hf & Hram)].
  { left. split; [|done]. rewrite (bind_Ok _ _ _ _ _ (on_pools_run _ _ _ _ E)). simpl. by destruct s. }
  right. rewrite (bind_Ok _ _ _ _ _ (on_pools_run _ _ _ _ E)), (proj2 (Z.eqb_neq a NULL)) by done.
  set (y0 := mk_arena ARENA_MAGIC (Some i) 0). set (y := mk_arena ARENA_MAGIC (Some i) (bcount i)).
  destruct (minv_new_arena s frees live a y0 p' Hm Hf) as (Hm0 & Hnone & Hfor); [done|done|..].
  { intros j [= <-]. done. }
  assert (0 < a ∧ a + 4096 ≤ 2 ^ 32) as [Ha0 Hend].
  { destruct (arena_page _ _ _ a y0 Hm0) as (? & _ & _ & _ & ?); [apply lookup_insert_eq|]. split; [done|]. unfold npages in *. simpl in *. lia. }
  erewrite (bind_Ok (store_arena _ _)) by done. simpl. fold (bsize i) (bcount i). fold y.
  set (s1 := set_arenas _ _).
  destruct (add_blocks_run junk (Z.to_nat (bcount i)) s1 a y i 0 []) as (h & Eh & Hr & Hs); try done; try lia.
  { simpl. apply lookup_insert_eq. } { apply Hm. } { by apply (mi_rep _ _ _ Hm). }
  { intros k Hk Hin. destruct (fresh_in_pool _ _ _ _ (mi_pools _ _ _ Hm) Hf ltac:(lia)) as (Hlo & Hhi & _).
    destruct (blk_bounds a i k Hi ltac:(lia)). pose proof (bsize_bounds i Hi).
    apply (mi_static _ _ _ Hm (blk a i k)); [|lia]. unfold nodes, slot in Hin. simpl in Hin. unfold inside.
    rewrite !elem_of_cons, elem_of_nil in Hin. lia. }
  rewrite Z2Nat.id in * by lia. cbv zeta in Hr, Hs. simpl app in Hr, Hs. fold (blocks_of a i) in Hr, Hs.
  rewrite (bind_Ok _ _ _ _ _ Eh). exists a. eexists. split; [done|]. split_and!.
  - pose proof (minv_fill_arena _ frees live i a h Hm0 Hfs) as Hfill. simpl in Hfill.
    rewrite insert_insert_eq in Hfill. apply Hfill; try done; [apply lookup_insert_eq|].
    intros p n Hl Hin. destruct (live_owned _ _ _ _ _ Hm Hl) as (a' & y' & Ha' & Hlt & Hle).
    pose proof (mi_live _ _ _ Hm p n Hl) as [Hn0 _].
    apply elem_of_blocks in Hin as (idx & Hx & ->). destruct (blk_bounds a i idx Hi Hx).
    pose proof (bsize_bounds i Hi).
    destruct (fresh_apart _ _ _ _ _ _ _ _ Hm Hf ltac:(lia) Ha'); lia.
  - intros x. rewrite <-(Hfor h x). unfold foreign, owns. simpl.
    split; intros [H1 H2]; (split; [|done]); intros (a' & y' & Ha' & Hx); apply H1;
      apply lookup_insert_Some in Ha' as [[<- <-]|[Hne Ha']].
    + exists a, y. by rewrite lookup_insert_eq.
    + exists a', y'. by rewrite lookup_insert_ne.
    + exists a, y0. by rewrite lookup_insert_eq.
    + exists a', y'. by rewrite lookup_insert_ne.
  - intros Hnil. pose proof (blocks_length a i Hi) as Hl. rewrite Hnil in Hl. simpl in Hl. lia.
  - apply Hram.
Qed.

(** ** malloc *)

Lemma find_desc_std n :
  match find_desc std_descs 0 n with
  | Some i => (i < 7)%nat ∧ n ≤ bsize i
  | None => 1024 < n
  end.
Proof.
  unfold std_descs. change (seqZ 0 7) with [0; 1; 2; 3; 4; 5; 6]. cbn [fmap list_fmap find_desc].
  do 7 (match goal with |- context [n <=? ?m] => destruct (n <=? m) eqn:? end; cbv iota;
        [split; [lia|]; by apply Z.leb_le|]).
  match goal with H : (n <=? d_block_size (std_desc 6)) = false |- _ => by apply Z.leb_gt in H end.
Qed.

(** A free block shares no address with a block that was handed out. *)
Lemma free_not_live s frees live i fs b q m x : minv s frees live → frees !! i = Some fs → b ∈ fs →
  live !! q = Some m → b ≤ x < b + bsize i → ¬ q ≤ x < q + m.
Proof.
  intros Hm Hfs Hb Hq Hx Hqx. destruct (mi_free _ _ _ Hm i fs b Hfs Hb) as (a & y & idx & Ha & Hd & Hidx & ->).
  destruct (desc_lt _ _ _ _ _ _ Hm Ha Hd) as [Hi Hnp]. destruct (blk_bounds a i idx Hi Hidx) as [Hb1 Hb2].
  destruct (live_owned _ _ _ _ _ Hm Hq) as (a1 & y1 & Ha1 & Hlt & Hle).
  assert (a1 = a) as -> by (apply (same_arena s frees live a1 y1 a y x Hm Ha1 Ha); lia).
  destruct (mi_live _ _ _ Hm q m Hq) as (Hn & [(a' & y' & j & idx' & Ha' & Hd' & Hx' & -> & Hle' & Hnf)|(a' & y' & Ha' & Hd' & -> & Hle')]).
  - destruct (desc_lt _ _ _ _ _ _ Hm Ha' Hd') as [Hj Hnp']. destruct (blk_bounds a' j idx' Hj Hx') as [Hb1' Hb2'].
    assert (a' = a) as -> by (apply (same_arena s frees live a' y' a y x Hm Ha' Ha); lia).
    assert (j = i) as -> by congruence.
    destruct (Z.lt_total idx idx') as [Hl|[->|Hl]]; [pose proof (blk_far a i _ _ Hi Hl); lia|by apply (Hnf fs)|].
    pose proof (blk_far a i _ _ Hi Hl). lia.
  - assert (a' = a) as ->; [|congruence].
    apply (same_arena s frees live a' y' a y x Hm Ha' Ha); [unfold npages; rewrite Hd'|]; lia.
Qed.

(** What a successful request for [n] bytes does. *)
Record granted (s : mstate) (live : gmap Z Z) (p n : Z) (s' : mstate) : Prop := {
  gr_range : 0 < p ∧ p + n ≤ 2 ^ 32;
  gr_fresh x : p ≤ x < p + n → ¬ foreign s x ∧ ∀ q m, live !! q = Some m → ¬ q ≤ x < q + m;
  gr_foreign x : foreign s' x ↔ foreign s x;
  gr_ram x : ram (mpools s') x = ram (mpools s) x;
  gr_inv : ∃ frees, minv s' frees (<[p := n]> live) }.

Lemma take_granted s frees live i b fs n : minv s frees live → frees !! i = Some (b :: fs) → 0 < n ≤ bsize i →
  ∃ s', take_block (std_desc (Z.of_nat i)) s = Ok (b, s') ∧ granted s live b n s'.
Proof.
  intros Hm Hfs Hn. destruct (take_block_run s frees live i b fs n Hm Hfs Hn) as (s' & E & Hm' & Ep & Ho).
  exists s'. split; [done|]. assert (b ∈ b :: fs) as Hb by set_solver.
  destruct (mi_free _ _ _ Hm i _ b Hfs Hb) as (a & y & idx & Ha & Hd & Hx & Eb).
  destruct (desc_lt _ _ _ _ _ _ Hm Ha Hd) as [Hi Hnp]. destruct (blk_bounds a i idx Hi Hx) as [Hb1 Hb2].
  destruct (arena_page _ _ _ _ _ Hm Ha) as (Ha0 & _ & _ & _ & Hend). rewrite Hnp in Hend. split.
  - lia.
  - intros x Hxx. split; [|intros q m Hq; apply (free_not_live s frees live i (b :: fs) b q m x Hm Hfs Hb Hq); lia].
    intros [Hno _]. apply Hno. exists a, y. split; [done|]. lia.
  - intros x. unfold foreign. by rewrite Ho, Ep.
  - intros x. by rewrite Ep.
  - eauto.
Qed.

Lemma big_pages n : 1024 < n ≤ 2 ^ 31 →
  let c := DIV_ROUND_UP (u32 (n + SIZEOF_ARENA)) PGSIZE in
  c = (n + 12 + 4095) / 4096 ∧ 0 < c < 2 ^ 20 ∧ n + 12 ≤ 4096 * c.
Proof.
  intros Hn. unfold DIV_ROUND_UP, SIZEOF_ARENA. change PGSIZE with 4096.
  rewrite (uwrap_id 32 (n + 12)) by (unfold in_u; lia). rewrite (uwrap_id 32 (n + 12 + 4096)) by (unfold in_u; lia).
  rewrite (uwrap_id 32) by (unfold in_u; lia). simpl.
  pose proof (Z.div_mod (n + 12 + 4096 - 1) 4096 ltac:(lia)).
  pose proof (Z.mod_pos_bound (n + 12 + 4096 - 1) 4096 ltac:(lia)).
  split; [f_equal; lia|lia].
Qed.

Lemma big_granted s frees live a c n p' : minv s frees live → fresh_pages (mpools s) a c p' → 0 < c < 2 ^ 20 →
  0 < n → n + 12 ≤ 4096 * c → (∀ x, ram p' x = ram (mpools s) x) →
  granted s live (a + 12) n (mk_mstate (links s) (<[a := mk_arena ARENA_MAGIC None c]> (arenas s)) (descs s) p').
Proof.
  intros Hm Hf Hc Hn Hle Hram. set (y := mk_arena ARENA_MAGIC None c).
  destruct (minv_new_arena s frees live a y p' Hm Hf) as (Hm' & Hnone & Hfor); [done|done|done|].
  destruct (fresh_in_pool _ _ _ _ (mi_pools _ _ _ Hm) Hf ltac:(lia)) as (_ & _ & Hfp).
  destruct (arena_page _ _ _ a y Hm') as (Ha0 & _ & _ & _ & Hend); [apply lookup_insert_eq|]. simpl in Hend.
  change (npages y) with c in Hend. split.
  - lia.
  - intros x Hx. split; [intros [_ Hno]; apply Hno, Hfp; lia|]. intros q m Hq Hqx.
    destruct (live_owned _ _ _ _ _ Hm Hq) as (a1 & y1 & Ha1 & Hlt & Hle1).
    destruct (fresh_apart _ _ _ _ _ _ _ _ Hm Hf ltac:(lia) Ha1); lia.
  - apply Hfor.
  - apply Hram.
  - exists frees. pose proof Hm' as []. split; try done. intros q m. rewrite lookup_insert_Some.
    intros [[<- <-]|[_ Hq]]; [|by apply mi_live0]. split; [done|]. right. exists a, y. simpl.
    rewrite lookup_insert_eq. done.
Qed.

(** The pages a request for [n] bytes may need. *)
Definition pages_for (n : Z) : Z := if n <=? 1024 then 1 else (n + 12 + 4095) / 4096.

Lemma malloc_run junk s frees live n : minv s frees live → 0 < n ≤ 2 ^ 31 →
  malloc junk n s = Ok (NULL, s) ∧ palloc_get_multiple 0 (pages_for n) (mpools s) = Ok (NULL, mpools s) ∨
  ∃ p s', malloc junk n s = Ok (p, s') ∧ p ≠ NULL ∧ granted s live p n s'.
Proof.
  intros Hm Hn. unfold malloc. rewrite (proj2 (Z.eqb_neq n 0)) by lia. erewrite (bind_Ok (gets descs)) by done.
  rewrite (mi_descs _ _ _ Hm). pose proof (find_desc_std n) as Hfd. destruct (find_desc std_descs 0 n) as [i|].
  - destruct Hfd as [Hi Hle].
    rewrite (bind_Ok (load_desc i) _ s (std_desc (Z.of_nat i)) s)
      by (unfold load_desc; rewrite (mi_descs _ _ _ Hm), std_lookup by done; done).
    destruct (lookup_lt_is_Some_2 frees i) as [fs Hfs]; [by rewrite (mi_len _ _ _ Hm)|].
    pose proof (mi_rep _ _ _ Hm i fs Hfs) as Hr. rewrite <-free_list_slot in Hr.
    rewrite (bind_Ok _ _ _ _ _ (on_links_run _ _ _ _ (list_empty_run _ _ _ Hr))).
    assert (set_links (links s) s = s) as -> by (by destruct s).
    destruct fs as [|b fs].
    + rewrite bool_decide_eq_true_2 by done.
      destruct (new_arena_run junk s frees live i Hm Hfs) as [[E En]|(a & s1 & E & Hm1 & Hfor & Hne & Hram)];
        rewrite (bind_Ok _ _ _ _ _ E); [left|right].
      { split; [done|]. unfold pages_for. pose proof (bsize_bounds i Hi). by rewrite (proj2 (Z.leb_le n 1024)) by lia. } cbn [negb].
      destruct (blocks_of a i) as [|b fs] eqn:Eb; [done|].
      destruct (take_granted s1 _ live i b fs n Hm1) as (s' & E' & []); [|lia|].
      { apply list_lookup_insert_eq. by rewrite (mi_len _ _ _ Hm). }
      exists b, s'. split_and!; [done|unfold NULL; lia|]. split; [done| | | |done].
      * intros x Hx. destruct (gr_fresh0 x Hx) as [Hnf ?]. split; [|done]. by rewrite <-Hfor.
      * intros x. by rewrite gr_foreign0, Hfor.
      * intros x. by rewrite gr_ram0, Hram.
    + rewrite bool_decide_eq_false_2 by done. rewrite (bind_Ok (ret true) _ s true s) by done. cbn [negb]. right.
      destruct (take_granted s frees live i b fs n Hm Hfs) as (s' & E' & Hg); [lia|]. exists b, s'. split_and!; try done.
      destruct (gr_range _ _ _ _ _ Hg). unfold NULL. lia.
  - destruct (big_pages n ltac:(lia)) as (Ec & Hc & Hcn). cbv zeta in *. set (c := DIV_ROUND_UP _ _) in *.
    destruct (palloc_fresh (mpools s) c (mi_pools _ _ _ Hm) Hc) as [E|(a & p' & E & HN & Hf & Hram)];
      rewrite (bind_Ok _ _ _ _ _ (on_pools_run _ _ _ _ E)).
    + left. unfold pages_for. rewrite (proj2 (Z.leb_gt n 1024)), <-Ec by done. split; [by destruct s|done].
    + right. rewrite (proj2 (Z.eqb_neq a NULL)) by done. erewrite (bind_Ok (store_arena _ _)) by done.
      pose proof (big_granted s frees live a c n p' Hm Hf Hc ltac:(lia) Hcn Hram) as Hg.
      eexists _, _. split; [done|]. split; [|exact Hg]. destruct (gr_range _ _ _ _ _ Hg). unfold NULL, SIZEOF_ARENA. lia.
Qed.

(** ** free *)

Lemma minv_ram s frees live m : minv s frees live → minv (set_mpools (set_ram m (mpools s)) s) frees live.
Proof. intros []. split; try done. by apply set_ram_ok. Qed.

Lemma owned_not_static s frees live a y x : minv s frees live → arenas s !! a = Some y →
  a ≤ x < a + 4096 * npages y → ¬ inside (stride := 48) (descs_addr + 8) 7 x ∧ x ≠ NULL.
Proof.
  intros Hm Ha Hx. destruct (arena_page _ _ _ _ _ Hm Ha) as (? & _ & ? & ? & _).
  split; [|unfold NULL; lia]. intros Hin. apply (mi_static _ _ _ Hm x Hin). lia.
Qed.

(** A block that was handed out goes back to the front of its free list. *)
Lemma push_free s frees live a y i fs p e : minv s frees live → arenas s !! a = Some y → a_desc y = Some i →
  p ∈ blocks_of a i → frees !! i = Some fs → p ∉ fs →
  ∃ h, list_push_front (slot (stride := 48) (descs_addr + 8) (Z.of_nat i)) p (<[p := e]> (links s)) = Ok (tt, h) ∧
    minv (mk_mstate h (<[a := mk_arena (a_magic y) (a_desc y) (a_free_cnt y + 1)]> (arenas s)) (descs s) (mpools s))
      (<[i := p :: fs]> frees) (delete p live).
Proof.
  intros Hm Ha Hd Hpb Hfs Hpf. destruct (desc_lt _ _ _ _ _ _ Hm Ha Hd) as [Hi Hnp].
  pose proof (minv_apart _ _ _ Hm) as [Hnd Hout]. pose proof (bsize_bounds i Hi).
  assert (a ≤ p < a + 4096) as Hin.
  { apply elem_of_blocks in Hpb as (idx & Hx & ->). destruct (blk_bounds a i idx Hi Hx). lia. }
  destruct (owned_not_static _ _ _ _ _ p Hm Ha) as [Hps HpN]; [lia|].
  assert (p ∉ mjoin frees) as Hpj.
  { intros (j & fj & Hj & Hb)%elem_of_join_lookup.
    destruct (free_block_arena _ _ _ j fj p a _ Hm Hj Hb Ha) as [Hji _]; [lia|]. congruence. }
  assert (slots_rep (stride := 48) (<[p := e]> (links s)) (descs_addr + 8) frees) as Hr0.
  { apply (slots_off (links s)); [apply Hm|]. intros x Hx. apply lookup_insert_ne. intros ->.
    rewrite (mi_len _ _ _ Hm) in Hx. tauto. }
  assert (p ∉ nodes (slot (stride := 48) (descs_addr + 8) (Z.of_nat i)) fs) as Hpn.
  { unfold nodes, slot, inside in *. simpl. rewrite elem_of_cons, elem_of_app, list_elem_of_singleton.
    intros [?|[?|?]]; [|done|]; apply Hps; lia. }
  destruct (list_push_front_rep _ _ _ p e (Hr0 i fs Hfs) Hpn HpN) as (h & E & Hr & Hs); [apply lookup_insert_eq|].
  destruct (join_insert frees i fs (p :: fs) Hfs) as (rest & Hp1 & Hp2).
  assert (mjoin (<[i := p :: fs]> frees) ≡ₚ p :: mjoin frees) as Hp by (by rewrite Hp1, Hp2).
  assert (NoDup (mjoin (<[i := p :: fs]> frees))) as Hnd' by (rewrite Hp; by apply list.NoDup_cons).
  destruct (mi_arena _ _ _ Hm a y Ha) as (_ & _ & _ & Hcnt). rewrite Hd in Hcnt.
  destruct Hcnt as (fs0 & Hfs0 & Ec). assert (fs0 = fs) as -> by congruence.
  exists h. split; [done|]. apply (minv_update s frees live i fs); try done.
  - apply (slots_store (<[p := e]> (links s)) _ _ _ _ fs); try done. split; [done|]. rewrite length_insert.
    intros x Hx. rewrite Hp in Hx. apply elem_of_cons in Hx as [->|Hx]; [by rewrite (mi_len _ _ _ Hm)|by apply Hout].
  - set_solver.
  - rewrite filter_cons_True by done. simpl. lia.
  - intros a' Hne. destruct (arenas s !! a') as [y'|] eqn:Ha'; [left|by right].
    apply filter_cons_False. intros Hin'. apply Hne. symmetry. unfold in_page in Hin'.
    pose proof (proj1 (proj2 (mi_arena _ _ _ Hm a' y' Ha'))).
    apply (same_arena s frees live a y a' y' p Hm Ha Ha'); lia.
  - intros q m [Hne Hq]%lookup_delete_Some. split; [by apply (mi_live _ _ _ Hm q)|]. left. split; [done|].
    intros fs1 Hf1 Hq1. assert (fs1 = fs) as -> by congruence. set_solver.
Qed.

(** The blocks of an arena leave the free list they are on. *)
Lemma remove_blocks_run cnt s a y i idx fs : arenas s !! a = Some y → a_magic y = ARENA_MAGIC → a_desc y = Some i →
  descs s = std_descs → (i < 7)%nat → 0 < a → a + 4096 ≤ 2 ^ 32 → 0 ≤ idx → idx + Z.of_nat cnt ≤ bcount i →
  let fl := slot (stride := 48) (descs_addr + 8) (Z.of_nat i) in
  rep (links s) fl fs → (∀ k, idx ≤ k < idx + Z.of_nat cnt → blk a i k ∈ fs) →
  ∃ h fs', remove_blocks cnt a idx s = Ok (tt, set_links h s) ∧
    fs ≡ₚ (blk a i <$> seqZ idx (Z.of_nat cnt)) ++ fs' ∧ rep h fl fs' ∧ same_off (nodes fl fs) (links s) h.
Proof.
  intros Ha Hmg Hd Hds Hi Ha0 Hend. cbv zeta.
  revert s idx fs Ha Hds. induction cnt as [|cnt IH]; intros s idx fs Ha Hds Hidx Hle Hr Hin.
  - exists (links s), fs. split_and!; [by destruct s|done|done|done].
  - cbn [remove_blocks].
    erewrite (bind_Ok (arena_to_block _ _)) by (eapply arena_to_block_run; try done; lia).
    set (b := blk a i idx). set (fl := slot _ _) in *.
    destruct (list_elem_of_split fs b) as (xs & ys & ->); [apply Hin; lia|].
    destruct (list_remove_rep _ _ _ _ _ Hr) as (h1 & E1 & Hr1 & Hs1).
    rewrite (bind_Ok _ _ _ _ _ (on_links_run _ _ _ _ E1)). erewrite (bind_Ok (drop_link _)) by done. simpl.
    assert (b ∉ nodes fl (xs ++ ys)) as Hb.
    { destruct Hr as (Hnd & _). unfold nodes in *. rewrite <-app_assoc in *. simpl in Hnd.
      rewrite <-Permutation_middle in Hnd. rewrite Permutation_swap in Hnd. by apply list.NoDup_cons in Hnd as [? _]. }
    destruct (IH (set_links (delete b h1) s) (idx + 1) (xs ++ ys)) as (h & fs' & E & Hp & Hr' & Hs'); try done; try lia.
    { apply (ring_off _ h1); [|done]. intros x Hx. apply lookup_delete_ne. by intros ->. }
    { intros k Hk. assert (blk a i k ∈ xs ++ b :: ys) as Hk' by (apply Hin; lia).
      assert (blk a i k ≠ b) by (intros Heq%blk_inj; [lia|done]). set_solver. }
    exists h, fs'. rewrite seqZ_step. cbn [fmap list_fmap app]. fold b. split_and!; try done.
    + by rewrite <-Permutation_middle, Hp.
    + intros x Hx. rewrite Hs' by (unfold nodes in *; set_solver). simpl.
      rewrite lookup_delete_ne by (unfold nodes in *; set_solver). apply Hs1. unfold nodes in *. set_solver.
Qed.

(** The pages of an arena go back to the page allocator. *)
Lemma pages_released s frees live a y : minv s frees live → arenas s !! a = Some y →
  ∃ p', palloc_free_multiple a (npages y) (mpools s) = Ok p' ∧ pools_ok p' ∧ fresh_pages p' a (npages y) (mpools s) ∧
    (∀ x, ¬ a ≤ x < a + 4096 * npages y → ram p' x = ram (mpools s) x).
Proof.
  intros Hm Ha. destruct (mi_arena _ _ _ Hm a y Ha) as (_ & Hnp & Hpg & _). pose proof (mi_pools _ _ _ Hm) as Hp.
  destruct (palloc_free_multiple_ok false _ a (npages y) Hp Hnp Hpg) as (p' & E & Hp' & Hs & Hal & Hram & _).
  assert (∀ k, 0 ≤ k < npages y → pg_ofs (a + 4096 * k) = 0 ∧ page_from_pool (kernel_pool p') (a + 4096 * k) = true) as Hpage.
  { intros k Hk. destruct (Hpg k Hk) as (j & Hj & Ej & _).
    destruct (page_props _ j (kernel_ok _ Hp) Hj) as (_ & Ho & _). change (kernel_pool (mpools s)) with (get_pool false (mpools s)) in Ho.
    rewrite <-Ej in Ho. split; [done|]. change (kernel_pool p') with (get_pool false p').
    rewrite (page_from_same_pools _ _ _ _ Hs). apply page_from_pool_page; [apply Hp|done|]. eauto. }
  exists p'. split; [done|]. split; [done|].
  split; [|intros x Hx; rewrite Hram; by rewrite bool_decide_eq_false_2]. split; [done|..].
  - intros u. destruct (Hs u) as [-> ->]. done.
  - destruct (Hpage 0 ltac:(lia)) as [Ho _]. by replace (a + 4096 * 0) with a in Ho by lia.
  - intros k Hk. split; [|by apply Hpage]. rewrite Hal. intros [_ Hno]. apply Hno. eauto.
  - intros b. rewrite Hal. split.
    + intros Hb. destruct (decide (Exists (λ k, b = a + 4096 * k) (seqZ 0 (npages y)))) as [Hk|Hk].
      * right. apply list.Exists_exists in Hk as (k & Hk%elem_of_seqZ & ->). exists k. split; [lia|done].
      * left. split; [done|]. intros (_ & k & Hk' & ->). apply Hk, list.Exists_exists. exists k. split; [|done].
        apply elem_of_seqZ. lia.
    + intros [[Hb _]|(k & Hk & ->)]; [done|]. by apply Hpg.
Qed.

(** An arena without blocks in use is given up. *)
Lemma minv_retire s frees live a y h frees' p' : minv s frees live → arenas s !! a = Some y →
  length frees' = 7%nat → slots_rep (stride := 48) h (descs_addr + 8) frees' → NoDup (mjoin frees') →
  (∀ j fj', frees' !! j = Some fj' → ∃ fj gone, frees !! j = Some fj ∧ fj ≡ₚ gone ++ fj' ∧
     (∀ b, b ∈ gone → a ≤ b < a + 4096 * npages y) ∧ (∀ b, b ∈ fj' → ¬ a ≤ b < a + 4096 * npages y)) →
  (∀ q m, live !! q = Some m → ¬ a ≤ q < a + 4096 * npages y) →
  pools_ok p' → fresh_pages p' a (npages y) (mpools s) →
  minv (mk_mstate h (delete a (arenas s)) (descs s) p') frees' live ∧
  ∀ x, foreign (mk_mstate h (delete a (arenas s)) (descs s) p') x ↔ foreign s x.
Proof.
  intros Hm Ha Hlen Hrep Hnd Hfr Hlive Hp' Hf. pose proof Hm as [].
  destruct (mi_arena0 a y Ha) as (_ & Hnp & _).
  destruct (fp_same _ _ _ _ Hf false) as [Eb Ec]. simpl in Eb, Ec.
  assert (∀ a' y' x, arenas s !! a' = Some y' → a' ≠ a → a' ≤ x < a' + 4096 * npages y' → ¬ a ≤ x < a + 4096 * npages y) as Hap.
  { intros a' y' x Ha' Hne Hx Hx'. destruct (mi_disjoint0 a' y' a y Ha' Ha Hne); lia. }
  split.
  - split; simpl; try done.
    + intros x Hx. rewrite <-Eb, <-Ec. by apply mi_static0.
    + intros i fi b Hi Hb. destruct (Hfr i fi Hi) as (fj & gone & Hj & Hp & _ & Hout).
      destruct (mi_free0 i fj b Hj) as (a' & y' & idx & Ha' & Hd & Hx & ->); [rewrite Hp; set_solver|].
      exists a', y', idx. split; [|done]. apply lookup_delete_Some. split; [|done]. intros <-.
      assert (y' = y) as -> by congruence. destruct (desc_lt _ _ _ _ _ _ Hm Ha Hd) as [Hi' Hn'].
      destruct (blk_bounds a i idx Hi' Hx). pose proof (bsize_bounds i Hi'). apply (Hout _ Hb). lia.
    + intros a' y' [Hne Ha']%lookup_delete_Some. destruct (mi_arena0 a' y' Ha') as (? & Hn' & Hal & Hc).
      split; [done|]. split; [done|]. split.
      * intros k Hk. pose proof (Hal k Hk) as Hk'. apply (fp_alloc _ _ _ _ Hf) in Hk' as [?|(k' & Hk' & E)]; [done|].
        exfalso. apply (Hap a' y' (a' + 4096 * k)); try done; lia.
      * destruct (a_desc y') as [i|] eqn:Hd; [|done]. destruct Hc as (fs & Hfs & ->).
        destruct (desc_lt _ _ _ _ _ _ Hm Ha' Hd) as [Hi Hn1].
        destruct (lookup_lt_is_Some_2 frees' i) as [fs' Hfs']; [lia|]. exists fs'. split; [done|].
        destruct (Hfr i fs' Hfs') as (fj & gone & Hj & Hp & Hg & _). assert (fj = fs) as -> by congruence.
        rewrite Hp, list.filter_app, filter_none; [done|]. intros b Hb Hin.
        apply (Hap a' y' b); try done; [unfold in_page in Hin; lia|by apply Hg].
    + intros a1 y1 a2 y2 [_ H1]%lookup_delete_Some [_ H2]%lookup_delete_Some. by apply mi_disjoint0.
    + intros q m Hq. pose proof (Hlive q m Hq) as Hno.
      destruct (mi_live0 q m Hq) as (Hm0 & [(a' & y' & i & idx & Ha' & Hd & Hx & -> & Hle & Hnf)|(a' & y' & Ha' & Hd & -> & Hle)]);
        (split; [done|]); (assert (a' ≠ a) as Hne; [intros ->; assert (y' = y) as -> by congruence; apply Hno|]).
      * destruct (desc_lt _ _ _ _ _ _ Hm Ha Hd) as [Hi Hn1]. destruct (blk_bounds a i idx Hi Hx).
        pose proof (bsize_bounds i Hi). lia.
      * left. exists a', y', i, idx. rewrite lookup_delete_ne by done. split_and!; try done; try lia.
        intros fs Hfs. destruct (Hfr i fs Hfs) as (fj & gone & Hj & Hp & _). intros Hin. apply (Hnf fj Hj).
        rewrite Hp. set_solver.
      * lia.
      * right. exists a', y'. by rewrite lookup_delete_ne.
  - intros x. unfold foreign. simpl. rewrite (fresh_free_page _ _ _ _ x Hf) by lia.
    destruct (fresh_in_pool _ _ _ _ Hp' Hf ltac:(lia)) as (_ & _ & Hfp). unfold owns. simpl. split.
    + intros [Hno Hnf]. split; [|tauto]. intros (a' & y' & Ha' & Hx). destruct (decide (a' = a)) as [->|Hne].
      * assert (y' = y) as -> by congruence. by apply Hnf, Hfp.
      * apply Hno. exists a', y'. by rewrite lookup_delete_ne.
    + intros [Hno Hnf]. split; [intros (a' & y' & [_ Ha']%lookup_delete_Some & Hx); apply Hno; eauto|].
      intros Hfx. apply Hnf. split; [done|]. intros Hx. apply Hno. eauto.
Qed.

(** When all blocks of an arena are free, they are all on the list. *)
Lemma all_free s frees live a y i fs : minv s frees live → arenas s !! a = Some y → a_desc y = Some i →
  frees !! i = Some fs → a_free_cnt y = bcount i → blocks_of a i ⊆ fs.
Proof.
  intros Hm Ha Hd Hfs Hc. destruct (desc_lt _ _ _ _ _ _ Hm Ha Hd) as [Hi Hnp].
  destruct (mi_arena _ _ _ Hm a y Ha) as (_ & _ & _ & Hcnt). rewrite Hd in Hcnt. destruct Hcnt as (fs0 & Hfs0 & Ec).
  assert (fs0 = fs) as -> by congruence. destruct (free_count _ _ _ _ _ _ _ Hm Hfs Ha Hd) as [Hsub _].
  assert (filter (in_page a) fs ≡ₚ blocks_of a i) as Hp.
  { apply submseteq_length_Permutation.
    - apply NoDup_submseteq; [|done]. apply list.NoDup_filter. eapply join_nodup; [apply Hm|done].
    - pose proof (blocks_length a i Hi). lia. }
  intros b Hb. rewrite <-Hp in Hb. by apply list_elem_of_filter in Hb as [_ ?].
Qed.

(** Blocks that were handed out share no address. *)
Lemma live_disjoint s frees live p n q m x : minv s frees live → live !! p = Some n → live !! q = Some m →
  p ≤ x < p + n → q ≤ x < q + m → p = q.
Proof.
  intros Hm Hp Hq Hx Hx'.
  destruct (live_owned _ _ _ _ _ Hm Hp) as (a1 & y1 & Ha1 & Hl1 & Hh1).
  destruct (live_owned _ _ _ _ _ Hm Hq) as (a2 & y2 & Ha2 & Hl2 & Hh2).
  assert (∀ a y, arenas s !! a = Some y → a ≤ x < a + 4096 * npages y → a = a1 ∧ y = y1) as Huniq.
  { intros a y Ha Hin. assert (a = a1) as -> by (apply (same_arena s frees live a y a1 y1 x Hm Ha Ha1); lia).
    split; [done|congruence]. }
  destruct (mi_live _ _ _ Hm p n Hp) as (_ & [(a & y & i & idx & Ha & Hd & Hi & -> & Hle & _)|(a & y & Ha & Hd & -> & Hle)]);
    destruct (mi_live _ _ _ Hm q m Hq) as (_ & [(b & z & j & jdx & Hb & He & Hj & -> & Hle' & _)|(b & z & Hb & He & -> & Hle')]).
  - destruct (desc_lt _ _ _ _ _ _ Hm Ha Hd) as [Hi7 Hn1]. destruct (desc_lt _ _ _ _ _ _ Hm Hb He) as [Hj7 Hn2].
    destruct (blk_bounds a i idx Hi7 Hi). destruct (blk_bounds b j jdx Hj7 Hj).
    destruct (Huniq a y Ha) as [-> ->]; [lia|]. destruct (Huniq b z Hb) as [-> ->]; [lia|].
    assert (j = i) as -> by congruence.
    destruct (Z.lt_total idx jdx) as [Hl|[->|Hl]]; [pose proof (blk_far a1 i _ _ Hi7 Hl); lia|done|].
    pose proof (blk_far a1 i _ _ Hi7 Hl). lia.
  - destruct (desc_lt _ _ _ _ _ _ Hm Ha Hd) as [Hi7 Hn1]. destruct (blk_bounds a i idx Hi7 Hi).
    destruct (Huniq a y Ha) as [-> ->]; [lia|]. destruct (Huniq b z Hb) as [-> ->]; [|congruence].
    unfold npages. rewrite He. lia.
  - destruct (desc_lt _ _ _ _ _ _ Hm Hb He) as [Hj7 Hn2]. destruct (blk_bounds b j jdx Hj7 Hj).
    destruct (Huniq b z Hb) as [-> ->]; [lia|]. destruct (Huniq a y Ha) as [-> ->]; [|congruence].
    unfold npages. rewrite Hd. lia.
  - destruct (Huniq a y Ha) as [-> ->]; [unfold npages; rewrite Hd; lia|].
    destruct (Huniq b z Hb) as [-> ->]; [unfold npages; rewrite He; lia|done].
Qed.

(** What releasing the block [p] does: memory in use by others stays as it was. *)
Record released (s : mstate) (live : gmap Z Z) (p : Z) (s' : mstate) : Prop := {
  re_foreign x : foreign s' x ↔ foreign s x;
  re_ram x : foreign s x ∨ (∃ q m, live !! q = Some m ∧ q ≠ p ∧ q ≤ x < q + m) → ram (mpools s') x = ram (mpools s) x;
  re_inv : ∃ frees, minv s' frees (delete p live) }.

(** A large block: its pages go back. *)
Lemma free_big_run s frees live a y n : minv s frees live → live !! (a + 12) = Some n → arenas s !! a = Some y →
  a_desc y = None → ∃ s', free (a + 12) s = Ok (tt, s') ∧ released s live (a + 12) s'.
Proof.
  intros Hm Hp Ha Hd. destruct (arena_page _ _ _ _ _ Hm Ha) as (Ha0 & _).
  destruct (pages_released _ _ _ _ _ Hm Ha) as (p' & E & Hp' & Hf & Hram).
  assert (npages y = a_free_cnt y) as Hnp by (unfold npages; by rewrite Hd).
  destruct (live_owned _ _ _ _ _ Hm Hp) as (a1 & y1 & Ha1 & Hl1 & Hh1).
  destruct (mi_live _ _ _ Hm _ _ Hp) as [Hn _]. destruct (mi_arena _ _ _ Hm a y Ha) as (_ & Hnp0 & _).
  assert (∀ q m, live !! q = Some m → q ≠ a + 12 → ∀ x, q ≤ x < q + m → ¬ a ≤ x < a + 4096 * npages y) as Hothers.
  { intros q m Hq Hne x Hx Hin. apply Hne.
    destruct (mi_live _ _ _ Hm q m Hq) as (_ & [(b & z & j & jdx & Hb & He & Hj & -> & Hle' & _)|(b & z & Hb & He & -> & Hle')]).
    - destruct (desc_lt _ _ _ _ _ _ Hm Hb He) as [Hj7 Hn2]. destruct (blk_bounds b j jdx Hj7 Hj).
      assert (b = a) as -> by (apply (same_arena s frees live b z a y x Hm Hb Ha); lia). congruence.
    - assert (b = a) as -> by (apply (same_arena s frees live b z a y x Hm Hb Ha); [unfold npages; rewrite He|]; lia). done. }
  destruct (minv_retire s frees (delete (a + 12) live) a y (links s) frees p') as [Hm' Hfor]; try done.
  { pose proof Hm as []. split; try done. intros q m [_ Hq]%lookup_delete_Some. by apply mi_live0. }
  { apply Hm. } { apply Hm. } { apply Hm. }
  { intros j fj Hj. exists fj, []. split_and!; try done; [set_solver|]. intros b Hb Hin.
    destruct (free_block_arena _ _ _ j fj b a _ Hm Hj Hb Ha Hin). congruence. }
  { intros q m [Hne Hq]%lookup_delete_Some. destruct (mi_live _ _ _ Hm q m Hq) as [? _].
    apply (Hothers q m Hq); [done|lia]. }
  eexists. split; [|split; [apply Hfor| |exists frees; exact Hm']].
  - unfold free. rewrite (proj2 (Z.eqb_neq (a + 12) NULL)) by (unfold NULL; lia). cbn [negb].
    rewrite (bind_Ok (block_to_arena _) _ s a s) by (by apply (big_block_arena s frees live a y)).
    rewrite (bind_Ok (load_arena a) _ s y s) by (unfold load_arena; by rewrite Ha). rewrite Hd.
    rewrite Hnp in E. rewrite (bind_Ok (on_pools _) _ s tt (set_mpools p' s)); [done|]. apply on_pools_run. by rewrite E.
  - intros x Hx. simpl. apply Hram. destruct Hx as [[Hno _]|(q & m & Hq & Hne & Hx)]; [|by apply (Hothers q m)].
    intros Hin. apply Hno. exists a, y. done.
Qed.

(** An arena all of whose blocks are free is given up. *)
Lemma retire_run s frees live a y i fs : minv s frees live → arenas s !! a = Some y → a_desc y = Some i →
  frees !! i = Some fs → a_free_cnt y = bcount i →
  ∃ h p', remove_blocks (Z.to_nat (bcount i)) a 0 s = Ok (tt, set_links h s) ∧
    palloc_free_page a (mpools s) = Ok p' ∧ (∀ x, ¬ a ≤ x < a + 4096 → ram p' x = ram (mpools s) x) ∧
    let s' := mk_mstate h (delete a (arenas s)) (descs s) p' in
    (∃ frees', minv s' frees' live) ∧ (∀ x, foreign s' x ↔ foreign s x) ∧
    ∀ q m, live !! q = Some m → ∀ x, q ≤ x < q + m → ¬ a ≤ x < a + 4096.
Proof.
  intros Hm Ha Hd Hfs Hc. destruct (desc_lt _ _ _ _ _ _ Hm Ha Hd) as [Hi Hnp]. pose proof (bsize_bounds i Hi) as (_ & Hbc & _).
  destruct (arena_page _ _ _ _ _ Hm Ha) as (Ha0 & _ & _ & _ & Hend). rewrite Hnp in Hend.
  destruct (mi_arena _ _ _ Hm a y Ha) as (Hmg & _). pose proof (all_free _ _ _ _ _ _ _ Hm Ha Hd Hfs Hc) as Hall.
  destruct (remove_blocks_run (Z.to_nat (bcount i)) s a y i 0 fs Ha Hmg Hd (mi_descs _ _ _ Hm) Hi)
    as (h & fs' & Eh & Hp & Hr & Hs); try lia.
  { by apply (mi_rep _ _ _ Hm). } { intros k Hk. apply Hall, elem_of_blocks. exists k. split; [lia|done]. }
  rewrite Z2Nat.id in Hp by lia. fold (blocks_of a i) in Hp.
  destruct (pages_released _ _ _ _ _ Hm Ha) as (p' & E & Hp' & Hf & Hram). rewrite Hnp in E, Hram.
  assert (∀ b, b ∈ blocks_of a i → a ≤ b < a + 4096) as Hin.
  { intros b (idx & Hx & ->)%elem_of_blocks. destruct (blk_bounds a i idx Hi Hx). pose proof (bsize_bounds i Hi). lia. }
  assert (NoDup fs) as Hnd by (eapply join_nodup; [apply Hm|done]).
  assert (∀ q m, live !! q = Some m → ∀ x, q ≤ x < q + m → ¬ a ≤ x < a + 4096) as Hlive.
  { intros q m Hq x Hx Hxa.
    destruct (mi_live _ _ _ Hm q m Hq) as (_ & [(b & z & j & jdx & Hb & He & Hj & -> & Hle' & Hnf)|(b & z & Hb & He & -> & Hle')]).
    - destruct (desc_lt _ _ _ _ _ _ Hm Hb He) as [Hj7 Hn2]. destruct (blk_bounds b j jdx Hj7 Hj).
      assert (b = a) as -> by (apply (same_arena s frees live b z a y x Hm Hb Ha); lia).
      assert (j = i) as -> by congruence. apply (Hnf fs Hfs), Hall, elem_of_blocks. eauto.
    - assert (b = a) as -> by (apply (same_arena s frees live b z a y x Hm Hb Ha); [unfold npages; rewrite He|]; lia). congruence. }
  destruct (join_insert frees i fs fs' Hfs) as (rest & Hp1 & Hp2).
  pose proof (lookup_lt_Some _ _ _ Hfs) as Hlt.
  destruct (minv_retire s frees live a y h (<[i := fs']> frees) p') as [Hm' Hfor]; try done.
  { rewrite length_insert. apply Hm. }
  { apply (slots_shrink (links s) _ _ _ _ fs); try done; [apply Hm|by eapply minv_apart]. }
  { pose proof (mi_nodup _ _ _ Hm) as Hj. rewrite Hp1, Hp, <-app_assoc, <-Hp2 in Hj. by apply list.NoDup_app in Hj as (_ & _ & ?). }
  { intros j fj Hj. rewrite Hnp. destruct (decide (i = j)) as [<-|Hij].
    - rewrite list_lookup_insert_eq in Hj by done. injection Hj as <-. exists fs, (blocks_of a i).
      split_and!; try done. intros b Hb Hba. rewrite Hp in Hnd. apply list.NoDup_app in Hnd as (_ & Hnd & _).
      apply (Hnd b); [|done]. apply (free_block_arena s frees live i fs b a y Hm Hfs); [rewrite Hp; set_solver|done|lia].
    - rewrite list_lookup_insert_ne in Hj by done. exists fj, []. split_and!; try done; [set_solver|].
      intros b Hb Hba. destruct (free_block_arena _ _ _ j fj b a _ Hm Hj Hb Ha) as [Hd' _]; [lia|]. congruence. }
  { intros q m Hq. rewrite Hnp. apply (Hlive q m Hq). destruct (mi_live _ _ _ Hm q m Hq) as [? _]. lia. }
  exists h, p'. split_and!; try done. eauto.
Qed.

(** A block of an arena: it goes on the free list, and the arena goes when it is unused. *)
(** [free] of a small block up to the test for an arena with no block in use. *)
Lemma free_small_start s frees live a y i idx h : minv s frees live → arenas s !! a = Some y → a_desc y = Some i →
  0 ≤ idx < bcount i → 0 ≤ a_free_cnt y → a_free_cnt y + 1 ≤ bcount i →
  let p := blk a i idx in
  let mem := memset (ram (mpools s)) p 0xcc (bsize i) in
  let y1 := mk_arena (a_magic y) (a_desc y) (a_free_cnt y + 1) in
  list_push_front (slot (stride := 48) (descs_addr + 8) (Z.of_nat i)) p
    (<[p := mk_elem 0xcccccccc 0xcccccccc]> (links s)) = Ok (tt, h) →
  free p s = (if bcount i <=? a_free_cnt y1 then
      let! _ := ASSERT (a_free_cnt y1 =? bcount i) in
      let! _ := remove_blocks (Z.to_nat (bcount i)) a 0 in
      let! _ := on_pools (λ q, let? q := palloc_free_page a q in Ok (tt, q)) in
      modify (λ s, set_arenas (delete a (arenas s)) s) else ret tt)
    (mk_mstate h (<[a := y1]> (arenas s)) (descs s) (set_ram mem (mpools s))).
Proof.
  intros Hm Ha Hd Hx Hc0 Hc1 p mem y1 Eh. destruct (desc_lt _ _ _ _ _ _ Hm Ha Hd) as [Hi Hnp].
  destruct (bsize_bounds i Hi) as (Hbs & Hbc & Hbb). destruct (blk_bounds a i idx Hi Hx) as [Hb1 Hb2]. fold p in Hb1, Hb2.
  destruct (arena_page _ _ _ _ _ Hm Ha) as (Ha0 & _). set (s0 := set_mpools (set_ram mem (mpools s)) s).
  unfold free. rewrite (proj2 (Z.eqb_neq p NULL)) by (unfold NULL; lia). cbn [negb].
  rewrite (bind_Ok (block_to_arena _) _ s a s) by (by apply (small_block_arena s frees live a y)).
  rewrite (bind_Ok (load_arena a) _ s y s) by (unfold load_arena; by rewrite Ha). rewrite Hd.
  rewrite (bind_Ok (load_desc i) _ s (std_desc (Z.of_nat i)) s)
    by (unfold load_desc; rewrite (mi_descs _ _ _ Hm), std_lookup by done; done).
  rewrite (bind_Ok (fill _ _ _) _ s tt s0) by done. erewrite (bind_Ok (claim_link _ _)) by done.
  rewrite (bind_Ok (on_links _) _ _ tt (set_links h s0)).
  2:{ simpl. rewrite free_list_slot.
      exact (on_links_run _ (set_links (<[p := mk_elem 0xcccccccc 0xcccccccc]> (links s0)) s0) tt h Eh). }
  rewrite (uwrap_id 32) by (unfold in_u; nia).
  rewrite (bind_Ok (store_arena _ _) _ _ tt (mk_mstate h (<[a := y1]> (arenas s)) (descs s) (set_ram mem (mpools s))))
    by (unfold y1; rewrite Hd; done). done.
Qed.

Lemma free_small_run s frees live a y i idx n : minv s frees live → live !! blk a i idx = Some n →
  arenas s !! a = Some y → a_desc y = Some i → 0 ≤ idx < bcount i →
  (∀ fs, frees !! i = Some fs → blk a i idx ∉ fs) →
  ∃ s', free (blk a i idx) s = Ok (tt, s') ∧ released s live (blk a i idx) s'.
Proof.
  intros Hm Hp Ha Hd Hx Hnf. set (p := blk a i idx) in *.
  destruct (desc_lt _ _ _ _ _ _ Hm Ha Hd) as [Hi Hnp]. destruct (bsize_bounds i Hi) as (Hbs & Hbc & Hbb).
  destruct (blk_bounds a i idx Hi Hx) as [Hb1 Hb2]. fold p in Hb1, Hb2.
  destruct (arena_page _ _ _ _ _ Hm Ha) as (Ha0 & _). pose proof (lookup_lt_is_Some_2 frees i) as [fs Hfs]; [by rewrite (mi_len _ _ _ Hm)|].
  set (d := std_desc (Z.of_nat i)). set (mem := memset (ram (mpools s)) p 0xcc (bsize i)).
  set (s0 := set_mpools (set_ram mem (mpools s)) s).
  assert (minv s0 frees live) as Hm0 by (by apply minv_ram).
  set (e := mk_elem 0xcccccccc 0xcccccccc).
  destruct (push_free s0 frees live a y i fs p e Hm0 Ha Hd) as (h & Eh & Hm1); [apply elem_of_blocks; eauto|done|by apply Hnf|].
  set (y1 := mk_arena (a_magic y) (a_desc y) (a_free_cnt y + 1)) in *.
  set (s1 := mk_mstate h (<[a := y1]> (arenas s0)) (descs s0) (mpools s0)) in *.
  assert (arenas s1 !! a = Some y1) as Ha1 by apply lookup_insert_eq.
  assert (a_free_cnt y1 ≤ bcount i ∧ 0 ≤ a_free_cnt y) as [Hc1 Hc0].
  { destruct (mi_arena _ _ _ Hm1 a y1 Ha1) as (_ & _ & _ & Hc). destruct (mi_arena _ _ _ Hm a y Ha) as (_ & _ & _ & Hc').
    change (a_desc y1) with (a_desc y) in Hc. rewrite Hd in Hc, Hc'. destruct Hc as (f1 & Hf1 & ->), Hc' as (f0 & _ & ->).
    split; [|lia]. by eapply (free_count s1). }
  pose proof (free_small_start s frees live a y i idx h Hm Ha Hd Hx Hc0 Hc1 Eh) as Efree.
  assert (∀ x, foreign s1 x ↔ foreign s x) as Hfor1.
  { intros x. assert (owns s1 x ↔ owns s x) as Hown.
    { apply (owns_update s0 h _ y a y1 x); [done|unfold npages, y1; simpl; by rewrite Hd|done]. }
    split; intros [H1 H2]; (split; [tauto|exact H2]). }
  assert (∀ x, (foreign s x ∨ ∃ q m, live !! q = Some m ∧ q ≠ p ∧ q ≤ x < q + m) → mem x = ram (mpools s) x) as Hmem.
  { intros x Hxx. unfold mem, memset. destruct ((p <=? x) && (x <? p + bsize i)) eqn:Ein; [exfalso|done].
    apply andb_true_iff in Ein as [?%Z.leb_le ?%Z.ltb_lt]. destruct Hxx as [[Hno _]|(q & m & Hq & Hne & Hqx)].
    - apply Hno. exists a, y. split; [done|lia].
    - eapply (free_not_live s1 _ _ i (p :: fs) p q m x Hm1); try done; [|by left|by apply lookup_delete_Some].
      apply list_lookup_insert_eq. by rewrite (mi_len _ _ _ Hm). }
  match type of Efree with _ = ?f _ => change (free p s = f s1) in Efree end. fold p y1 in Efree. rewrite Efree.
  destruct (Z.leb_spec (bcount i) (a_free_cnt y1)) as [Hfull|Hpart].
  - destruct (retire_run s1 _ _ a y1 i (p :: fs) Hm1 Ha1 Hd) as (h2 & p' & E2 & Ep & Hram & Hm2 & Hfor2 & Hlive2).
    { apply list_lookup_insert_eq. by rewrite (mi_len _ _ _ Hm). } { lia. }
    rewrite (bind_Ok (ASSERT _) _ s1 tt s1) by (rewrite (proj2 (Z.eqb_eq _ _)) by lia; done).
    rewrite (bind_Ok _ _ _ _ _ E2). rewrite (bind_Ok (on_pools _) _ _ tt (set_mpools p' (set_links h2 s1)))
      by (apply on_pools_run; cbn [mpools set_links]; by rewrite Ep).
    eexists. split; [done|]. split; [intros x; rewrite <-Hfor1; apply Hfor2| |exact Hm2].
    intros x Hxx. change (ram p' x = ram (mpools s) x). rewrite Hram; [by apply Hmem|].
    destruct Hxx as [[Hno _]|(q & m & Hq & Hne & Hqx)]; [|by apply (Hlive2 q m); [apply lookup_delete_Some|]].
    intros Hin. apply Hno. exists a, y. split; [done|lia].
  - exists s1. split; [done|]. split; [done|done|eauto].
Qed.

Lemma free_run s frees live p n : minv s frees live → live !! p = Some n →
  ∃ s', free p s = Ok (tt, s') ∧ released s live p s'.
Proof.
  intros Hm Hp.
  destruct (mi_live _ _ _ Hm p n Hp) as (_ & [(a & y & i & idx & Ha & Hd & Hx & -> & _ & Hnf)|(a & y & Ha & Hd & -> & _)]).
  - by apply (free_small_run s frees live a y i idx n).
  - by apply (free_big_run s frees live a y n).
Qed.
End Spec.
