(* ===== verification/MallocHeap.v ===== *)
(** * The memory allocator keeps its promises (threads/malloc.c)

    Start-up establishes the invariant of MallocSpec; [malloc], [free] and [realloc]
    keep it; and the allocator is one the interface of Allocator describes, so that
    what is proved of its clients holds on top of it. *)

From S2P Require Import Prelude Bitmap FsState Palloc CList CListSpec CListArray Allocator Malloc MallocSpec.

(** ** Start-up *)

Section Init.
Context (descs_addr : Z).

(** The array of descriptors, in the kernel's data, is apart from the pool of pages. *)
Record boot_ok (s : mstate) : Prop := {
  bo_pools : pools_ok (mpools s);
  bo_arenas : arenas s = ∅;
  bo_descs : descs s = [];
  bo_addr : 0 ≤ descs_addr;
  bo_cells x : inside (stride := 48) (descs_addr + 8) 7 x → is_Some (links s !! x);
  bo_static x : inside (stride := 48) (descs_addr + 8) 7 x → ¬
    base (kernel_pool (mpools s)) ≤ x < base (kernel_pool (mpools s)) + 4096 * bit_cnt (used_map (kernel_pool (mpools s))) }.

Lemma bsize_step j : (j < 7)%nat → u32 (bsize j * 2) = bsize (S j) ∧ (bsize j <? PGSIZE / 2) = true ∧
  (PGSIZE - SIZEOF_ARENA) / bsize j = bcount j.
Proof. revert j. apply small_cases; done. Qed.

Lemma std_descs_snoc j : std_desc descs_addr <$> seqZ 0 (Z.of_nat (S j)) =
  (std_desc descs_addr <$> seqZ 0 (Z.of_nat j)) ++ [std_desc descs_addr (Z.of_nat j)].
Proof. by rewrite Nat2Z.inj_succ, <-Z.add_1_r, seqZ_app, fmap_app by lia. Qed.

Lemma descs_loop_run m j s : (j + m = 7)%nat → 0 ≤ descs_addr →
  descs s = std_desc descs_addr <$> seqZ 0 (Z.of_nat j) →
  slots_rep (stride := 48) (links s) (descs_addr + 8) (replicate j []) →
  (∀ x, inside (stride := 48) (descs_addr + 8) 7 x → is_Some (links s !! x)) →
  ∃ h, init_loop descs_addr (m + 3) (bsize j) s = Ok (tt, mk_mstate h (arenas s) (std_descs descs_addr) (mpools s)) ∧
    slots_rep (stride := 48) h (descs_addr + 8) (replicate 7 []).
Proof.
  revert j s. induction m as [|m IH]; intros j s Hj Haddr Hds Hr Hcells.
  - assert (j = 7%nat) as -> by lia. exists (links s). split; [|done]. destruct s. simpl in *. by rewrite Hds.
  - destruct (bsize_step j) as (Ed & El & Ec); [lia|]. cbn [Nat.add init_loop]. rewrite El.
    erewrite (bind_Ok (gets _)) by done.
    assert (length (descs s) = j) as Elen by (rewrite Hds, length_fmap, length_seqZ; lia). rewrite Elen, Ec.
    rewrite (bind_Ok (ASSERT _) _ s tt s) by (rewrite (proj2 (Z.leb_le _ _)) by lia; done).
    erewrite (bind_Ok (modify _)) by done. set (s1 := set_descs _ s).
    set (l := slot (stride := 48) (descs_addr + 8) (Z.of_nat j)).
    destruct (list_init_rep (links s1) l) as (h & E & Hrep & Hs).
    { simpl. apply list.NoDup_cons. split; [|apply NoDup_singleton]. rewrite list_elem_of_singleton. lia. }
    { simpl. rewrite !elem_of_cons, elem_of_nil. unfold NULL. lia. }
    { apply Hcells. unfold inside, l, slot. simpl. lia. } { apply Hcells. unfold inside, l, slot. simpl. lia. }
    rewrite (bind_Ok (on_links _) _ s1 tt (set_links h s1))
      by (rewrite free_list_slot; by apply on_links_run). rewrite Ed.
    apply (IH (S j) (set_links h s1)); try done; [lia| | |].
    + simpl. rewrite std_descs_snoc, <-Hds. done.
    + rewrite replicate_S_end. intros i xs Hi. destruct (decide (i = j)) as [->|Hne].
      * rewrite lookup_app_r, length_replicate, Nat.sub_diag in Hi by (by rewrite length_replicate).
        injection Hi as <-. done.
      * assert (i < j)%nat as Hlt. { apply lookup_lt_Some in Hi. rewrite length_app, length_replicate in Hi. simpl in Hi. lia. }
        rewrite lookup_app_l in Hi by (by rewrite length_replicate).
        apply (ring_off _ (links s)); [|by apply Hr]. intros x Hx. apply Hs.
        apply lookup_replicate_1 in Hi as [-> _]. unfold nodes, l, slot in *. simpl in *.
        rewrite !elem_of_cons, elem_of_nil in *. lia.
    + intros x Hx. eapply keep_some; [exact Hrep|exact Hs|by apply Hcells].
Qed.

Lemma malloc_init_run s : boot_ok s →
  ∃ s', malloc_init descs_addr s = Ok (tt, s') ∧ minv descs_addr s' (replicate 7 []) ∅ ∧ mpools s' = mpools s.
Proof.
  intros [Hp Ha Hd Haddr Hc Hs].
  destruct (descs_loop_run 7 0 s eq_refl Haddr) as (h & E & Hr); [done|by intros i xs Hi|done|].
  eexists. split; [exact E|]. split; [|done]. rewrite Ha. split; simpl; try done; [apply NoDup_nil_2|].
  intros i fs b Hi Hb. apply (lookup_replicate_1 7) in Hi as [-> _]. set_solver.
Qed.
End Init.

(** ** Block sizes *)

Section Heap.
Context (descs_addr : Z) (junk : Z → list_elem).

Lemma block_size_run s frees live p n : minv descs_addr s frees live → live !! p = Some n →
  ∃ bs, block_size p s = Ok (bs, s) ∧ n ≤ bs.
Proof.
  intros Hm Hp. unfold block_size.
  destruct (mi_live _ _ _ _ Hm p n Hp) as (_ & [(a & y & i & idx & Ha & Hd & Hx & -> & Hle & Hnf)|(a & y & Ha & Hd & -> & Hle)]).
  - destruct (desc_lt _ _ _ _ _ _ _ Hm Ha Hd) as [Hi _]. exists (bsize i). split; [|done].
    rewrite (bind_Ok (block_to_arena _) _ s a s) by (by apply (small_block_arena descs_addr s frees live a y)).
    rewrite (bind_Ok (load_arena a) _ s y s) by (unfold load_arena; by rewrite Ha). rewrite Hd.
    rewrite (bind_Ok (load_desc i) _ s (std_desc descs_addr (Z.of_nat i)) s); [done|].
    unfold load_desc. by rewrite (mi_descs _ _ _ _ Hm), std_lookup.
  - destruct (arena_page _ _ _ _ _ _ Hm Ha) as (Ha0 & Hal & _ & _ & Hend). unfold npages in Hend. rewrite Hd in Hend.
    rewrite (bind_Ok (block_to_arena _) _ s a s) by (by apply (big_block_arena descs_addr s frees live a y)).
    rewrite (bind_Ok (load_arena a) _ s y s) by (unfold load_arena; by rewrite Ha). rewrite Hd.
    assert (pg_ofs (a + 12) = 12) as -> by (rewrite pg_ofs_mod, <-Z.add_mod_idemp_l, Hal by lia; done).
    destruct (mi_arena _ _ _ _ Hm a y Ha) as (_ & Hnp & _). unfold npages in Hnp. rewrite Hd in Hnp.
    exists (4096 * a_free_cnt y - 12). split; [|lia]. change PGSIZE with 4096.
    rewrite (uwrap_id 32 (4096 * _)), (uwrap_id 32) by (unfold in_u; lia). done.
Qed.

(** ** realloc *)

Lemma copy_run dst src n s :
  copy dst src n s = Ok (tt, set_mpools (set_ram (λ x, if (dst <=? x) && (x <? dst + n) then ram (mpools s) (src + (x - dst))
                                                      else ram (mpools s) x) (mpools s)) s).
Proof. done. Qed.

(** What moving the block [old] of [n] bytes to a new block [p] of [m] bytes does. *)
Record moved (s : mstate) (live : gmap Z Z) (old n p m : Z) (s' : mstate) : Prop := {
  mv_data k : 0 ≤ k < n → k < m → ram (mpools s') (p + k) = ram (mpools s) (old + k);
  mv_others x : foreign s x ∨ (∃ q l, live !! q = Some l ∧ q ≠ old ∧ q ≤ x < q + l) →
    ram (mpools s') x = ram (mpools s) x;
  mv_foreign x : foreign s' x ↔ foreign s x;
  mv_inv : ∃ frees, minv descs_addr s' frees (delete old (<[p := m]> live)) }.

Lemma realloc_run s frees live old n m : minv descs_addr s frees live → live !! old = Some n → 0 < m ≤ 2 ^ 31 →
  realloc junk old m s = Ok (NULL, s) ∨
  ∃ p s', realloc junk old m s = Ok (p, s') ∧ p ≠ NULL ∧ p ≠ old ∧ moved s live old n p m s'.
Proof.
  intros Hm Hold Hmr. destruct (live_owned _ _ _ _ _ _ Hm Hold) as (a & y & Ha & Hlo & _).
  destruct (mi_live _ _ _ _ Hm old n Hold) as [Hn _].
  destruct (arena_page _ _ _ _ _ _ Hm Ha) as (Ha0 & _). unfold realloc. rewrite (proj2 (Z.eqb_neq m 0)) by lia.
  destruct (malloc_run descs_addr junk s frees live m Hm Hmr) as [[E _]|(p & s1 & E & HpN & Hg)];
    rewrite (bind_Ok _ _ _ _ _ E).
  { left. by rewrite Z.eqb_refl, andb_false_r. }
  right. rewrite (proj2 (Z.eqb_neq old NULL)), (proj2 (Z.eqb_neq p NULL)) by (done || unfold NULL; lia). cbn [negb andb].
  destruct Hg as [_ Hfresh Hfor Hram [frees1 Hm1]].
  assert (p ≠ old) as Hne. { intros ->. destruct (Hfresh old ltac:(lia)) as [_ Hno]. apply (Hno _ _ Hold). lia. }
  assert (<[p := m]> live !! old = Some n) as Hold1 by (by rewrite lookup_insert_ne).
  destruct (block_size_run _ _ _ _ _ Hm1 Hold1) as (bs & Eb & Hbs).
  set (c := if m <? bs then m else bs).
  assert (c = Z.min m bs) as Hc by (unfold c; destruct (Z.ltb_spec m bs); lia).
  set (mem := λ x, if (p <=? x) && (x <? p + c) then ram (mpools s1) (old + (x - p)) else ram (mpools s1) x).
  set (s2 := set_mpools (set_ram mem (mpools s1)) s1).
  destruct (free_run descs_addr s2 frees1 _ old n (minv_ram _ _ _ _ mem Hm1) Hold1) as (s' & Ef & [Hfor' Hram' Hinv']).
  assert (∀ x, p ≤ x < p + m → ram (mpools s') x = mem x) as Hnew.
  { intros x Hx. rewrite Hram'; [done|]. right. exists p, m. by rewrite lookup_insert_eq. }
  assert (∀ x, foreign s2 x ↔ foreign s x) as Hfor2 by (intros x; rewrite <-Hfor; done).
  exists p, s'. split_and!; [|done|done|split].
  - rewrite (bind_Ok _ _ s1 tt s'); [done|]. rewrite (bind_Ok _ _ _ _ _ Eb). fold c.
    rewrite (bind_Ok _ _ _ _ _ (copy_run _ _ _ _)). exact Ef.
  - intros k Hk Hkm. rewrite Hnew by lia. unfold mem.
    rewrite (proj2 (Z.leb_le _ _)), (proj2 (Z.ltb_lt _ _)) by lia. simpl. rewrite Hram. f_equal. lia.
  - intros x Hx. assert (¬ p ≤ x < p + m) as Hnp.
    { intros Hin. destruct (Hfresh x Hin) as [Hnf Hnl]. destruct Hx as [?|(q & l & Hq & _ & ?)]; [done|]. by apply (Hnl q l). }
    rewrite Hram'.
    + simpl. unfold mem. destruct ((p <=? x) && (x <? p + c)) eqn:Ein; [|apply Hram]. exfalso. apply Hnp.
      apply andb_true_iff in Ein as [?%Z.leb_le ?%Z.ltb_lt]. lia.
    + destruct Hx as [?|(q & l & Hq & Hqo & Hx)]; [left; by apply Hfor2|right].
      exists q, l. rewrite lookup_insert_ne; [done|]. intros ->.
      destruct (mi_live _ _ _ _ Hm q l Hq) as [? _]. destruct (Hfresh q ltac:(lia)) as [_ Hnl]. apply (Hnl _ _ Hq). lia.
  - intros x. by rewrite Hfor', Hfor2.
  - done.
Qed.

(** ** The interface *)

(** The allocator, with the sizes asked for in the requests that were granted. *)
#[local] Instance kernel_heap : Allocator (mstate * gmap Z Z) := {
  malloc n '(s, live) := let? '(p, s') := Malloc.malloc junk n s in
                         Ok (p, (s', if p =? NULL then live else <[p := n]> live));
  free p '(s, live) := let? '(_, s') := Malloc.free p s in Ok (s', delete p live);
  arena_ok '(s, live) := ∃ frees, minv descs_addr s frees live;
  in_use '(s, live) x := foreign s x ∨ ∃ q m, live !! q = Some m ∧ q ≤ x < q + m;
  block '(s, live) p n := live !! p = Some n }.

Lemma kernel_heap_ok : AllocatorOk (mstate * gmap Z Z).
Proof.
  split.
  - intros [s live] n [frees Hm] Hn. simpl.
    destruct (malloc_run descs_addr junk s frees live n Hm Hn) as [[E _]|(p & s' & E & HpN & [Hr Hfresh Hfor _ Hm'])];
      rewrite E; cbn [obind].
    + rewrite Z.eqb_refl. exists NULL, (s, live). split; [done|]. split; [eauto|]. left. done.
    + rewrite (proj2 (Z.eqb_neq p NULL)) by done. exists p, (s', <[p := n]> live). split; [done|]. split; [done|]. right.
      destruct Hr as [Hp0 Hpn]. split_and!; [done|done| | |].
      * intros x Hx. destruct (Hfresh x Hx) as [Hnf Hnl]. intros [?|(q & m & Hq & ?)]; [done|]. by apply (Hnl q m).
      * intros x. rewrite Hfor. split.
        -- intros [?|(q & m & [[<- <-]|[_ Hq]]%lookup_insert_Some & ?)]; [by left; left|by right|]. left. right. eauto.
        -- intros [[?|(q & m & Hq & Hx)]|?]; [by left|right; exists q, m|right; exists p, n; by rewrite lookup_insert_eq].
           rewrite lookup_insert_ne; [done|]. intros ->. destruct (mi_live _ _ _ _ Hm q m Hq) as [? _].
           destruct (Hfresh q ltac:(lia)) as [_ Hnl]. apply (Hnl _ _ Hq). lia.
      * intros q m. rewrite lookup_insert_Some. split; [naive_solver|]. intros [Hq|[-> ->]]; [right|by left].
        split; [|done]. intros ->. destruct (mi_live _ _ _ _ Hm q m Hq) as [? _].
        destruct (Hfresh q ltac:(lia)) as [_ Hnl]. apply (Hnl _ _ Hq). lia.
  - intros [s live] p n [frees Hm] Hp. simpl in *.
    destruct (free_run descs_addr s frees live p n Hm Hp) as (s' & E & [Hfor _ Hinv]). rewrite E. cbn [obind].
    exists (s', delete p live). split; [done|]. split; [done|]. split.
    + intros x. rewrite Hfor. split.
      * intros [Hf|(q & m & [Hne Hq]%lookup_delete_Some & Hx)].
        -- split; [by left|]. intros Hin. destruct (live_owned _ _ _ _ _ _ Hm Hp) as (a & y & Ha & ? & ?).
           destruct Hf as [Hno _]. apply Hno. exists a, y. split; [done|lia].
        -- split; [right; eauto|]. intros Hin. apply Hne. by apply (live_disjoint descs_addr s frees live p n q m x).
      * intros [[Hf|(q & m & Hq & Hx)] Hn]; [by left|]. right. exists q, m. split; [|done]. apply lookup_delete_Some.
        split; [|done]. intros ->. assert (m = n) as -> by congruence. done.
    + intros q m Hne. by rewrite lookup_delete_ne.
  - intros [s live] p n x _ Hp Hx. right. by exists p, n.
Qed.

(** C14. [malloc] of at most 2 GB succeeds or, when the page allocator has no free run
    of the pages the request may need, returns a null pointer and changes nothing.  On
    success no byte of the block belongs to anybody else, the bytes of memory are as
    they were, and the allocator's invariant holds with the block added. *)
Theorem malloc_correct s frees live n : minv descs_addr s frees live → 0 < n ≤ 2 ^ 31 →
  Malloc.malloc junk n s = Ok (NULL, s) ∧ palloc_get_multiple 0 (pages_for n) (mpools s) = Ok (NULL, mpools s) ∨
  ∃ p s', Malloc.malloc junk n s = Ok (p, s') ∧ p ≠ NULL ∧ granted descs_addr s live p n s'.
Proof. apply malloc_run. Qed.


(** [realloc] of a block to a new size fails and changes nothing, or returns
    another block that starts with the bytes of the old one, which is released. *)
Theorem realloc_correct s frees live old n m : minv descs_addr s frees live → live !! old = Some n → 0 < m ≤ 2 ^ 31 →
  realloc junk old m s = Ok (NULL, s) ∨
  ∃ p s', realloc junk old m s = Ok (p, s') ∧ p ≠ NULL ∧ p ≠ old ∧ moved s live old n p m s'.
Proof. apply realloc_run. Qed.

(** C34. After [malloc_init] the allocator is ready, and from then on it is an allocator
    as the interface describes it, with every address but its own and the free pages'
    in use. *)
Theorem malloc_keeps_promise : AllocatorOk (mstate * gmap Z Z) ∧
  ∀ s, boot_ok descs_addr s → ∃ s', malloc_init descs_addr s = Ok (tt, s') ∧ arena_ok (s', ∅).
Proof.
  split; [apply kernel_heap_ok|]. intros s Hs. destruct (malloc_init_run descs_addr s Hs) as (s' & E & Hm & _).
  exists s'. split; [done|]. simpl. eauto.
Qed.

(** The overflow check of [calloc] misses some products: this request is for more
    than 4 GB, and gets 131073 bytes. *)
Lemma calloc_overflow s : calloc junk 65537 65537 s = calloc junk 1 131073 s ∧ 131073 < 65537 * 65537.
Proof.
  unfold calloc. change (u32 (65537 * 65537)) with 131073. change (u32 (1 * 131073)) with 131073. split; [reflexivity|lia].
Qed.

(** Nor does [malloc] notice when the size of the header wraps around: this request,
    for all but 11 bytes of the address space, gets a single page. *)
Lemma malloc_wraps s : descs s = std_descs descs_addr →
  Malloc.malloc junk (2 ^ 32 - 11) s =
    (let! a := on_pools (palloc_get_multiple 0 1) in
     if a =? NULL then ret NULL
     else let! _ := store_arena a (mk_arena ARENA_MAGIC None 1) in ret (a + SIZEOF_ARENA)) s.
Proof. intros Hd. unfold Malloc.malloc. change (2 ^ 32 - 11 =? 0) with false. cbv iota.
  rewrite (bind_Ok (gets descs) _ s (std_descs descs_addr) s) by (unfold gets; by rewrite Hd).
  change (find_desc (std_descs descs_addr) 0 (2 ^ 32 - 11)) with (@None nat). cbv iota zeta.
  change (DIV_ROUND_UP (u32 (2 ^ 32 - 11 + SIZEOF_ARENA)) PGSIZE) with 1. reflexivity. Qed.
End Heap.

(** ** Examples *)

(** The descriptors at 4096, and four pages, two of them in use. *)
Definition sample_boot : mstate :=
  mk_mstate (gset_to_gmap (mk_elem 0 0) (list_to_set (seqZ 4104 336))) ∅ [] sample_pools.

Lemma sample_boot_ok : boot_ok 4096 sample_boot.
Proof.
  split; [apply sample_pools_ok|reflexivity|reflexivity|lia| |].
  - intros x Hx. unfold inside in Hx. exists (mk_elem 0 0).
    apply lookup_gset_to_gmap_Some. split; [|done]. apply elem_of_list_to_set, elem_of_seqZ. lia.
  - intros x Hx. unfold inside in Hx. simpl. lia.
Qed.

Definition sample_junk : Z → list_elem := λ _, mk_elem 0 0.

Lemma malloc_correct_witness :
  ∃ s frees, malloc_init 4096 sample_boot = Ok (tt, s) ∧ minv 4096 s frees ∅ ∧
    ∃ p s', Malloc.malloc sample_junk 100 s = Ok (p, s') ∧ granted 4096 s ∅ p 100 s'.
Proof.
  destruct (malloc_init_run 4096 sample_boot sample_boot_ok) as (s & E & Hm & Ep).
  exists s, (replicate 7 []). split; [exact E|]. split; [exact Hm|].
  destruct (malloc_correct 4096 sample_junk s _ ∅ 100 Hm ltac:(lia)) as [[_ En]|(p & s' & E' & _ & Hg)].
  - rewrite Ep in En. vm_compute in En. discriminate En.
  - exists p, s'. exact (conj E' Hg).
Defined.

(** A state after [malloc (100)]. *)
Lemma sample_live : ∃ s frees p, minv 4096 s frees {[p := 100]}.
Proof.
  destruct (malloc_init_run 4096 sample_boot sample_boot_ok) as (s & _ & Hm & Ep).
  destruct (malloc_run 4096 sample_junk s _ ∅ 100 Hm ltac:(lia)) as [[_ En]|(p & s' & _ & _ & [_ _ _ _ [frees Hm']])].
  - rewrite Ep in En. vm_compute in En. discriminate En.
  - exists s', frees, p. exact Hm'.
Qed.


Lemma realloc_correct_witness :
  ∃ s old, realloc sample_junk old 50 s = Ok (NULL, s) ∨
    ∃ p s', realloc sample_junk old 50 s = Ok (p, s') ∧ p ≠ NULL ∧ p ≠ old ∧ moved 4096 s {[old := 100]} old 100 p 50 s'.
Proof.
  destruct sample_live as (s & frees & p & Hm). exists s, p.
  exact (realloc_correct 4096 sample_junk s frees _ p 100 50 Hm (lookup_singleton_eq _ _) ltac:(lia)).
Defined.

Lemma malloc_keeps_promise_witness :
  ∃ s, malloc_init 4096 sample_boot = Ok (tt, s) ∧ arena_ok (Allocator := kernel_heap 4096 sample_junk) (s, ∅).
Proof. exact (proj2 (malloc_keeps_promise 4096 sample_junk) sample_boot sample_boot_ok). Defined.
