(* ===== verification/Hash.v ===== *)
(** * Hash tables (lib/kernel/hash.c)

    A table is an array of lists of list.c in memory that comes from an
    allocator.  [hash] and [less] are the functions the table was initialised
    with, applied to the auxiliary data; they depend on the values of elements
    and not on the links. *)

From S2P Require Import Prelude FsState CList Allocator.

(** ** Tables *)

(** [struct hash], without the functions. *)
Record hash_table := mk_hash { elem_cnt : Z; bucket_cnt : Z; buckets : Z }.

(** [struct hash_iterator]. *)
Record hash_iterator := mk_iterator { it_bucket : Z; it_elem : Z }.

(** Element [i] of the array [b]; a [struct list] is two [struct list_elem]. *)
Definition bucket (b i : Z) : clist := mk_clist (b + 16 * i) (b + 16 * i + 8).

(** The list elements in the [n] bytes at [p]. *)
Definition cells (p n : Z) : list Z := (λ i, p + 8 * i) <$> seqZ 0 (n / 8).

Definition MIN_ELEMS_PER_BUCKET : Z := 1.
Definition BEST_ELEMS_PER_BUCKET : Z := 2.
Definition MAX_ELEMS_PER_BUCKET : Z := 4.

Section Hash.
Context {A : Type} `{!Allocator A}.
Context (hash : Z → Z) (less : Z → Z → bool).

(** The contents of memory that was not written yet. *)
Context (junk : Z → list_elem).

Record hstate := mk_hstate { mem : heap; tab : hash_table; arena : A }.
Abbreviation T := (M hstate).

Definition set_mem (h : heap) (s : hstate) : hstate := mk_hstate h (tab s) (arena s).
Definition set_tab (t : hash_table) (s : hstate) : hstate := mk_hstate (mem s) t (arena s).
Definition set_arena (a : A) (s : hstate) : hstate := mk_hstate (mem s) (tab s) a.

Definition on_mem {X} (m : H X) : T X := λ s, let? '(x, h) := m (mem s) in Ok (x, set_mem h s).

Definition store_elem_cnt (n : Z) : T unit :=
  modify (λ s, set_tab (mk_hash n (bucket_cnt (tab s)) (buckets (tab s))) s).
Definition store_buckets (n b : Z) : T unit :=
  modify (λ s, set_tab (mk_hash (elem_cnt (tab s)) n b) s).

(** [malloc] and [free], with the memory that comes and goes. *)
Definition alloc (n : Z) : T Z := λ s,
  let? '(p, a) := malloc n (arena s) in
  Ok (p, mk_hstate (if p =? NULL then mem s
                    else foldr (λ c, <[c := junk c]>) (mem s) (cells p n)) (tab s) a).
Definition dealloc (p n : Z) : T unit := λ s,
  let? a := free p (arena s) in
  Ok (tt, mk_hstate (foldr (λ c, delete c) (mem s) (cells p n)) (tab s) a).

(** ** Buckets *)

Definition find_bucket (e : Z) : T clist := λ s,
  Ok (bucket (buckets (tab s)) (Z.land (hash e) (bucket_cnt (tab s) - 1)), s).

Fixpoint find_loop (fuel : nat) (i stop e : Z) : H Z :=
  if i =? stop then ret NULL
  else match fuel with
  | O => out_of_fuel
  | S fuel =>
      if negb (less i e) && negb (less e i) then ret i
      else let! i := list_next i in find_loop fuel i stop e
  end.
Definition find_elem (fuel : nat) (b : clist) (e : Z) : T Z :=
  on_mem (let! i := list_begin b in find_loop fuel i (list_end b) e).

Definition insert_elem (b : clist) (e : Z) : T unit :=
  let! n := gets (λ s, elem_cnt (tab s)) in
  let! _ := store_elem_cnt (u32 (n + 1)) in
  on_mem (list_push_front b e).
Definition remove_elem (e : Z) : T unit :=
  let! n := gets (λ s, elem_cnt (tab s)) in
  let! _ := store_elem_cnt (u32 (n - 1)) in
  let! _ := on_mem (list_remove e) in ret tt.

Definition turn_off_least_1bit (x : Z) : Z := Z.land x (u32 (x - 1)).
Definition is_power_of_2 (x : Z) : bool := negb (x =? 0) && (turn_off_least_1bit x =? 0).

(** The loop that rounds the number of buckets down to a power of two. *)
Fixpoint power_loop (fuel : nat) (n : Z) : outcome Z :=
  if is_power_of_2 n then Ok n
  else match fuel with
  | O => OutOfFuel
  | S fuel => power_loop fuel (turn_off_least_1bit n)
  end.

(** [list_init] of the buckets from [i] on. *)
Fixpoint init_loop (cnt : nat) (b i : Z) : T unit :=
  match cnt with
  | O => ret tt
  | S cnt => let! _ := on_mem (list_init (bucket b i)) in init_loop cnt b (i + 1)
  end.

(** The elements of one old bucket, from [e] on, go to their new buckets. *)
Fixpoint move_loop (fuel : nat) (e stop : Z) : T unit :=
  if e =? stop then ret tt
  else match fuel with
  | O => out_of_fuel
  | S fuel =>
      let! new_bucket := find_bucket e in
      let! nxt := on_mem (list_next e) in
      let! _ := on_mem (list_remove e) in
      let! _ := on_mem (list_push_front new_bucket e) in
      move_loop fuel nxt stop
  end.
Fixpoint move_buckets (cnt : nat) (fuel : nat) (b i : Z) : T unit :=
  match cnt with
  | O => ret tt
  | S cnt =>
      let! e := on_mem (list_begin (bucket b i)) in
      let! _ := move_loop fuel e (list_end (bucket b i)) in
      move_buckets cnt fuel b (i + 1)
  end.

(** The number of buckets for [n] elements. *)
Definition ideal_bucket_cnt (n : Z) : outcome Z :=
  let c := n / BEST_ELEMS_PER_BUCKET in
  power_loop 32 (if c <? 4 then 4 else c).

Definition rehash (fuel : nat) : T unit :=
  let! t := gets tab in
  let! n := lift (ideal_bucket_cnt (elem_cnt t)) in
  if n =? bucket_cnt t then ret tt
  else
    let! new_buckets := alloc (u32 (16 * n)) in
    if new_buckets =? NULL then ret tt
    else
      let! _ := init_loop (Z.to_nat n) new_buckets 0 in
      let! _ := store_buckets n new_buckets in
      let! _ := move_buckets (Z.to_nat (bucket_cnt t)) fuel (buckets t) 0 in
      dealloc (buckets t) (16 * bucket_cnt t).

(** ** Operations *)

(** The [while] loop of [hash_clear]. *)
Fixpoint destroy_loop (fuel : nat) (destructor : Z → T unit) (b : clist) : T unit :=
  let! empty := on_mem (list_empty b) in
  if empty then ret tt
  else match fuel with
  | O => out_of_fuel
  | S fuel =>
      let! e := on_mem (list_pop_front b) in
      let! _ := destructor e in
      destroy_loop fuel destructor b
  end.
Fixpoint clear_loop (cnt : nat) (fuel : nat) (destructor : option (Z → T unit)) (i : Z) : T unit :=
  match cnt with
  | O => ret tt
  | S cnt =>
      let! b := gets (λ s, bucket (buckets (tab s)) i) in
      let! _ := (match destructor with
                 | Some d => destroy_loop fuel d b
                 | None => ret tt
                 end) in
      let! _ := on_mem (list_init b) in
      clear_loop cnt fuel destructor (i + 1)
  end.
Definition hash_clear (fuel : nat) (destructor : option (Z → T unit)) : T unit :=
  let! n := gets (λ s, bucket_cnt (tab s)) in
  let! _ := clear_loop (Z.to_nat n) fuel destructor 0 in
  store_elem_cnt 0.

Definition hash_init (fuel : nat) : T bool :=
  let! _ := store_elem_cnt 0 in
  let! p := alloc (u32 (16 * 4)) in
  let! _ := store_buckets 4 p in
  if negb (p =? NULL) then
    let! _ := hash_clear fuel None in ret true
  else ret false.

Definition hash_destroy (fuel : nat) (destructor : option (Z → T unit)) : T unit :=
  let! _ := (match destructor with
             | Some _ => hash_clear fuel destructor
             | None => ret tt
             end) in
  let! t := gets tab in
  dealloc (buckets t) (16 * bucket_cnt t).

Definition hash_insert (fuel : nat) (new : Z) : T Z :=
  let! b := find_bucket new in
  let! old := find_elem fuel b new in
  let! _ := (if old =? NULL then insert_elem b new else ret tt) in
  let! _ := rehash fuel in
  ret old.

Definition hash_replace (fuel : nat) (new : Z) : T Z :=
  let! b := find_bucket new in
  let! old := find_elem fuel b new in
  let! _ := (if negb (old =? NULL) then remove_elem old else ret tt) in
  let! _ := insert_elem b new in
  let! _ := rehash fuel in
  ret old.

Definition hash_find (fuel : nat) (e : Z) : T Z :=
  let! b := find_bucket e in find_elem fuel b e.

Definition hash_delete (fuel : nat) (e : Z) : T Z :=
  let! b := find_bucket e in
  let! found := find_elem fuel b e in
  let! _ := (if negb (found =? NULL) then
               let! _ := remove_elem found in rehash fuel
             else ret tt) in
  ret found.

Definition hash_size : T Z := gets (λ s, elem_cnt (tab s)).
Definition hash_empty : T bool := gets (λ s, elem_cnt (tab s) =? 0).

(** ** Iteration *)

Fixpoint apply_loop (fuel : nat) (action : Z → T unit) (e stop : Z) : T unit :=
  if e =? stop then ret tt
  else match fuel with
  | O => out_of_fuel
  | S fuel =>
      let! nxt := on_mem (list_next e) in
      let! _ := action e in
      apply_loop fuel action nxt stop
  end.
Fixpoint apply_buckets (cnt : nat) (fuel : nat) (action : Z → T unit) (i : Z) : T unit :=
  match cnt with
  | O => ret tt
  | S cnt =>
      let! b := gets (λ s, bucket (buckets (tab s)) i) in
      let! e := on_mem (list_begin b) in
      let! _ := apply_loop fuel action e (list_end b) in
      apply_buckets cnt fuel action (i + 1)
  end.
Definition hash_apply (fuel : nat) (action : Z → T unit) : T unit :=
  let! n := gets (λ s, bucket_cnt (tab s)) in
  apply_buckets (Z.to_nat n) fuel action 0.

(** The [struct list] at [p]. *)
Definition list_at (p : Z) : clist := mk_clist p (p + 8).

Definition hash_first : T hash_iterator :=
  let! b := gets (λ s, buckets (tab s)) in
  ret (mk_iterator b (list_head (list_at b))).

(** The [while] loop of [hash_next]. *)
Fixpoint next_loop (fuel : nat) (i : hash_iterator) : T hash_iterator :=
  if it_elem i =? list_end (list_at (it_bucket i)) then
    match fuel with
    | O => out_of_fuel
    | S fuel =>
        let b := it_bucket i + 16 in
        let! t := gets tab in
        if buckets t + 16 * bucket_cnt t <=? b then ret (mk_iterator b NULL)
        else
          let! e := on_mem (list_begin (list_at b)) in
          next_loop fuel (mk_iterator b e)
    end
  else ret i.
Definition hash_next (fuel : nat) (i : hash_iterator) : T (hash_iterator * Z) :=
  let! e := on_mem (list_next (it_elem i)) in
  let! i := next_loop fuel (mk_iterator (it_bucket i) e) in
  ret (i, it_elem i).
Definition hash_cur (i : hash_iterator) : Z := it_elem i.
End Hash.

Arguments hstate A : clear implicits.
Arguments mk_hstate {A} mem tab arena.

(** ** Hash functions *)

Definition FNV_32_PRIME : Z := 16777619.
Definition FNV_32_BASIS : Z := 2166136261.

Definition fnv_step (h b : Z) : Z := Z.lxor (u32 (h * FNV_32_PRIME)) b.
Definition hash_bytes (buf : list Z) : Z := foldl fnv_step FNV_32_BASIS buf.

(** The string ends before its first null byte. *)
Fixpoint hash_string_loop (h : Z) (s : list Z) : outcome Z :=
  match s with
  | [] => Undef
  | c :: s => if c =? 0 then Ok h else hash_string_loop (fnv_step h c) s
  end.
Definition hash_string (s : list Z) : outcome Z := hash_string_loop FNV_32_BASIS s.
Definition hash_int (i : Z) : Z := hash_bytes (Z_to_little_endian 4 8 (u32 i)).
