(* ===== verification/HashSpec.v ===== *)
(** * Hash tables implement sets

    The representation of a set of elements by the buckets of a hash table, the
    effect of each operation on it, and the refinement of a set. *)

From S2P Require Import Prelude FsState CList CListSpec CListOps CListArray Allocator Hash.

#[export] Instance bucket_stride : Stride 16.
Proof. unfold Stride. lia. Qed.

Abbreviation inside := (CListArray.inside (stride := 16)).
Abbreviation buckets_rep := (slots_rep (stride := 16)).
Abbreviation apart := (CListArray.apart (stride := 16)).

(** ** Memory from the allocator *)

Lemma elem_of_cells p n a : 0 ≤ n → a ∈ cells p (16 * n) ↔ ∃ i, 0 ≤ i < 2 * n ∧ a = p + 8 * i.
Proof.
  intros Hn. unfold cells. replace (16 * n / 8) with (2 * n) by (apply Z.div_unique_exact; lia).
  rewrite list_elem_of_fmap. setoid_rewrite elem_of_seqZ. split; intros (i & H1 & H2); exists i; split; lia.
Qed.

Lemma claim_lookup (junk : Z → list_elem) (h : heap) cs a :
  foldr (λ c, <[c := junk c]>) h cs !! a = if bool_decide (a ∈ cs) then Some (junk a) else h !! a.
Proof.
  induction cs as [|c cs IH]; simpl; [done|]. destruct (decide (a = c)) as [->|Hne].
  - rewrite lookup_insert_eq, bool_decide_eq_true_2; [done|set_solver].
  - rewrite lookup_insert_ne, IH by done. case_bool_decide as H1; case_bool_decide as H2; set_solver.
Qed.

Lemma release_lookup (h : heap) cs a :
  foldr (λ c, delete c) h cs !! a = if bool_decide (a ∈ cs) then None else h !! a.
Proof.
  induction cs as [|c cs IH]; simpl; [done|]. destruct (decide (a = c)) as [->|Hne].
  - rewrite lookup_delete_eq, bool_decide_eq_true_2; [done|set_solver].
  - rewrite lookup_delete_ne, IH by done. case_bool_decide as H1; case_bool_decide as H2; set_solver.
Qed.

(** ** Powers of two *)

Lemma two_power_split x : 0 < x → ∃ a c, 0 ≤ a ∧ 0 ≤ c ∧ x = 2 ^ a * (2 * c + 1).
Proof.
  intros Hx. induction x as [x IH] using (well_founded_induction (Z.lt_wf 0)).
  destruct (Z.even x) eqn:Ev.
  - apply Z.even_spec in Ev as [y ->]. destruct (IH y) as (a & c & Ha & Hc & ->); [lia..|].
    exists (a + 1), c. rewrite Z.pow_add_r by lia. split_and!; lia.
  - assert (Z.odd x = true) as Ho by (rewrite <-Z.negb_even, Ev; done).
    apply Z.odd_spec in Ho as [c ->]. exists 0, c. lia.
Qed.

Lemma turn_off_split a c : 0 ≤ a → 0 ≤ c → 2 ^ a * (2 * c + 1) < 2 ^ 32 →
  turn_off_least_1bit (2 ^ a * (2 * c + 1)) = 2 ^ (a + 1) * c.
Proof.
  intros Ha Hc Hb. unfold turn_off_least_1bit. pose proof (Z.pow_pos_nonneg 2 a ltac:(lia) Ha).
  rewrite (uwrap_id 32) by (unfold in_u; nia).
  assert (2 ^ (a + 1) = 2 * 2 ^ a) as E by (rewrite Z.pow_add_r; lia).
  apply Z.bits_inj'. intros n Hn. rewrite Z.land_spec, (Z.mul_comm (2 ^ (a + 1))).
  destruct (Z.lt_ge_cases n (a + 1)) as [Hlt|Hge].
  - rewrite Z.mul_pow2_bits_low by lia. destruct (Z.eq_dec n a) as [->|Hna].
    + apply andb_false_iff. right. apply Z.testbit_false; [done|].
      replace (2 ^ a * (2 * c + 1) - 1) with ((2 * c) * 2 ^ a + (2 ^ a - 1)) by lia.
      rewrite Z.div_add_l, (Z.div_small (2 ^ a - 1)) by lia. rewrite Z.add_0_r, Z.mul_comm. apply Z.mod_mul. lia.
    + rewrite Z.mul_comm, Z.mul_pow2_bits_low by lia. done.
  - replace n with ((n - (a + 1)) + (a + 1)) by lia.
    assert (∀ r, 0 ≤ r < 2 ^ (a + 1) → Z.testbit (c * 2 ^ (a + 1) + r) (n - (a + 1) + (a + 1)) = Z.testbit c (n - (a + 1))) as Hbit.
    { intros r Hr. rewrite <-Z.div_pow2_bits by lia. f_equal. rewrite Z.div_add_l, Z.div_small by lia. lia. }
    replace (2 ^ a * (2 * c + 1)) with (c * 2 ^ (a + 1) + 2 ^ a) by lia.
    replace (c * 2 ^ (a + 1) + 2 ^ a - 1) with (c * 2 ^ (a + 1) + (2 ^ a - 1)) by lia.
    rewrite <-(Z.add_0_r (c * 2 ^ (a + 1))) at 3. rewrite !Hbit by lia. apply andb_diag.
Qed.

Lemma power_loop_run fuel a c : 0 ≤ a → 0 ≤ c → 4 ≤ 2 ^ a * (2 * c + 1) < 2 ^ 32 → 32 ≤ Z.of_nat fuel + a →
  ∃ k, 2 ≤ k ∧ 2 ^ k ≤ 2 ^ a * (2 * c + 1) ∧ power_loop fuel (2 ^ a * (2 * c + 1)) = Ok (2 ^ k).
Proof.
  revert a c. induction fuel as [|fuel IH]; intros a c Ha Hc Hb Hf.
  - pose proof (Z.pow_le_mono_r 2 32 a ltac:(lia) ltac:(lia)). nia.
  - cbn [power_loop]. unfold is_power_of_2. rewrite turn_off_split by lia.
    pose proof (Z.pow_pos_nonneg 2 a ltac:(lia) Ha). rewrite (proj2 (Z.eqb_neq (2 ^ a * (2 * c + 1)) 0)) by nia.
    cbn [negb andb]. assert (2 ^ (a + 1) = 2 * 2 ^ a) as E by (rewrite Z.pow_add_r; lia).
    destruct (Z.eq_dec c 0) as [->|Hc0].
    + rewrite (Z.mul_0_r (2 ^ (a + 1))), Z.eqb_refl. exists a. replace (2 ^ a * (2 * 0 + 1)) with (2 ^ a) in * by lia.
      split_and!; try done. destruct (Z.lt_ge_cases a 2) as [Hlt|]; [|done].
      assert (a = 0 ∨ a = 1) as [-> | ->] by lia; simpl in Hb; lia.
    + rewrite (proj2 (Z.eqb_neq _ 0)) by nia.
      destruct (two_power_split c) as (a' & c' & Ha' & Hc' & ->); [lia|].
      replace (2 ^ (a + 1) * (2 ^ a' * (2 * c' + 1))) with (2 ^ (a + 1 + a') * (2 * c' + 1))
        by (rewrite (Z.pow_add_r 2 (a + 1) a') by lia; lia).
      set (y := 2 ^ a' * (2 * c' + 1)) in *. 
      assert (2 ^ (a + 1 + a') * (2 * c' + 1) = 2 ^ (a + 1) * y) as Ey
        by (unfold y; rewrite (Z.pow_add_r 2 (a + 1) a') by lia; lia).
      destruct (IH (a + 1 + a') c') as (k & Hk & Hle & Ek); [lia|lia| |lia|].
      * rewrite Ey. destruct (Z.eq_dec a 0) as [->|]; [simpl in *; lia|].
        assert (2 ≤ 2 ^ a) by (apply (Z.pow_le_mono_r 2 1 a); lia). nia.
      * exists k. rewrite Ey in *. split_and!; [done|nia|done].
Qed.

Lemma ideal_bucket_cnt_run n : 0 ≤ n < 2 ^ 29 →
  ∃ k, 2 ≤ k ∧ 2 ^ k < 2 ^ 28 ∧ ideal_bucket_cnt n = Ok (2 ^ k).
Proof.
  intros Hn. unfold ideal_bucket_cnt, BEST_ELEMS_PER_BUCKET.
  assert (0 ≤ n / 2 < 2 ^ 28) as Hc.
  { split; [apply Z.div_pos; lia|]. apply Z.div_lt_upper_bound; lia. }
  set (c := if n / 2 <? 4 then 4 else n / 2).
  assert (4 ≤ c < 2 ^ 28) as Hcr by (unfold c; destruct (Z.ltb_spec (n / 2) 4); lia).
  destruct (two_power_split c) as (a & d & Ha & Hd & Ec); [lia|]. rewrite Ec in *.
  destruct (power_loop_run 32 a d) as (k & Hk & Hle & Ek); [lia..|]. exists k. split_and!; [done|lia|done].
Qed.

(** ** Tables *)

Section Table.
Context {A : Type} `{!Allocator A} `{!AllocatorOk A}.
Context (hash : Z → Z) (less : Z → Z → bool) (junk : Z → list_elem).

(** Equal elements have the same hash value, which is an unsigned integer. *)
Class HashOk : Prop := {
  hash_equal a b : equal less a b = true → hash a = hash b;
  hash_range a : 0 ≤ hash a < 2 ^ 32 }.
Context `{!WeakOrder less} `{!HashOk}.

(** The elements that may be in the table: objects of the caller. *)
Context (pool : list Z) (Hpool : Z.of_nat (length pool) < 2 ^ 29).

Local Abbreviation state := (hstate A).

Record table_ok (s : state) (ls : list (list Z)) : Prop := {
  t_arena : arena_ok (arena s);
  t_cnt : bucket_cnt (tab s) = Z.of_nat (length ls);
  t_pow : ∃ k, 2 ≤ k ∧ 2 ^ k < 2 ^ 28 ∧ bucket_cnt (tab s) = 2 ^ k;
  t_start : 0 < buckets (tab s);
  t_block : block (arena s) (buckets (tab s)) (16 * bucket_cnt (tab s));
  t_rep : buckets_rep (mem s) (buckets (tab s)) ls;
  t_nodup : NoDup (mjoin ls);
  t_pool e : e ∈ pool → e ≠ NULL ∧ is_Some (mem s !! e) ∧ in_use (arena s) e ∧
                        ¬ inside (buckets (tab s)) (bucket_cnt (tab s)) e;
  t_sub e : e ∈ mjoin ls → e ∈ pool;
  t_hash i xs e : ls !! i = Some xs → e ∈ xs → Z.land (hash e) (bucket_cnt (tab s) - 1) = Z.of_nat i;
  t_count : elem_cnt (tab s) = Z.of_nat (length (mjoin ls));
  t_distinct a b : a ∈ mjoin ls → b ∈ mjoin ls → equal less a b = true → a = b }.

Lemma on_mem_run {X} (m : H X) (s : state) x h : m (mem s) = Ok (x, h) → on_mem m s = Ok (x, set_mem h s).
Proof. intros E. unfold on_mem. by rewrite E. Qed.

Lemma set_mem_same (s : state) : set_mem (mem s) s = s.
Proof. by destruct s. Qed.

Lemma table_apart s ls : table_ok s ls → apart (buckets (tab s)) ls.
Proof.
  intros []. split; [done|]. intros e He. rewrite <-t_cnt0. by apply t_pool0, t_sub0.
Qed.

Lemma table_length s ls : table_ok s ls → Z.of_nat (length (mjoin ls)) < 2 ^ 29.
Proof.
  intros []. assert (length (mjoin ls) ≤ length pool)%nat; [|lia].
  apply submseteq_length, NoDup_submseteq; [done|]. intros e. apply t_sub0.
Qed.

(** The bucket of an element. *)
Lemma index_of x k : 0 ≤ k → Z.land x (2 ^ k - 1) = x `mod` 2 ^ k.
Proof. intros Hk. rewrite <-Z.land_ones by done. f_equal. rewrite Z.ones_equiv. lia. Qed.

Lemma bucket_of s ls e : table_ok s ls →
  ∃ i xs, ls !! i = Some xs ∧ Z.land (hash e) (bucket_cnt (tab s) - 1) = Z.of_nat i ∧
    find_bucket hash e s = Ok (bucket (buckets (tab s)) (Z.of_nat i), s) ∧
    (length xs ≤ length (mjoin ls))%nat.
Proof.
  intros []. destruct t_pow0 as (k & Hk & Hk' & Ek).
  assert (0 ≤ Z.land (hash e) (bucket_cnt (tab s) - 1) < bucket_cnt (tab s)) as Hr.
  { rewrite Ek, index_of by lia. apply Z.mod_pos_bound. lia. }
  set (i := Z.to_nat (Z.land (hash e) (bucket_cnt (tab s) - 1))).
  destruct (lookup_lt_is_Some_2 ls i) as [xs Hi]; [lia|].
  exists i, xs. assert (Z.of_nat i = Z.land (hash e) (bucket_cnt (tab s) - 1)) as Ei by lia.
  split_and!; [done|done| |].
  - unfold find_bucket. by rewrite Ei.
  - destruct (join_insert ls i xs [] Hi) as (rest & Hp & _). rewrite Hp, length_app. lia.
Qed.

(** ** Searching *)

Fixpoint find_in (xs : list Z) (e : Z) : Z :=
  match xs with [] => NULL | x :: xs => if equal less x e then x else find_in xs e end.

Lemma find_loop_run h l pre xs e fuel : rep h l (pre ++ xs) → (length xs ≤ fuel)%nat →
  find_loop less fuel (first_or (tail l) xs) (tail l) e h = Ok (find_in xs e, h).
Proof.
  revert pre fuel. induction xs as [|x xs IH]; intros pre fuel Hr Hf.
  - destruct fuel; cbn [find_loop first_or]; by rewrite Z.eqb_refl.
  - destruct fuel as [|fuel]; [simpl in Hf; lia|]. cbn [find_loop].
    rewrite (at_end h l pre (x :: xs)), bool_decide_eq_false_2 by done. cbn [first_or find_in].
    unfold equal. destruct (negb (less x e) && negb (less e x)); [done|].
    rewrite (bind_Ok _ _ _ _ _ (list_next_rep _ _ _ _ _ Hr)).
    apply (IH (pre ++ [x])); [by rewrite <-app_assoc|simpl in Hf; lia].
Qed.

Lemma find_elem_run s ls i xs e fuel : table_ok s ls → ls !! i = Some xs → (length xs ≤ fuel)%nat →
  find_elem less fuel (bucket (buckets (tab s)) (Z.of_nat i)) e s = Ok (find_in xs e, s).
Proof.
  intros Ht Hi Hf. pose proof (t_rep _ _ Ht i xs Hi) as Hr. unfold find_elem.
  rewrite (on_mem_run _ s (find_in xs e) (mem s)); [by rewrite set_mem_same|].
  rewrite (bind_Ok _ _ _ _ _ (list_begin_run _ _ _ Hr)). by apply (find_loop_run _ _ []).
Qed.

Lemma find_in_cases xs e :
  (find_in xs e = NULL ∧ ∀ x, x ∈ xs → equal less x e = false ∨ x = NULL) ∨
  (find_in xs e ∈ xs ∧ equal less (find_in xs e) e = true).
Proof.
  induction xs as [|x xs IH]; simpl; [left; set_solver|].
  destruct (equal less x e) eqn:E; [right; set_solver|].
  destruct IH as [[E' H]|[H1 H2]]; [left|right; set_solver]. split; [done|].
  intros y [->|Hy]%elem_of_cons; auto.
Qed.

Lemma equal_common a b e : equal less a e = true → equal less b e = true → equal less a b = true.
Proof.
  unfold equal. rewrite !andb_true_iff, !negb_true_iff. intros [H1 H2] [H3 H4].
  split; eapply le_trans; eauto.
Qed.

(** The search in the bucket of [e] is a search in the whole table. *)
Lemma find_in_table s ls i xs els e : table_ok s ls → ls !! i = Some xs → mjoin ls ≡ₚ els →
  Z.land (hash e) (bucket_cnt (tab s) - 1) = Z.of_nat i →
  find_in els e = find_in xs e ∧
  (find_in xs e = NULL → ∀ x, x ∈ els → equal less x e = false) ∧
  (find_in xs e ≠ NULL → find_in xs e ∈ xs ∧ equal less (find_in xs e) e = true).
Proof.
  intros Ht Hi Hp Hh. assert (∀ x, x ∈ els → x ≠ NULL) as Hn.
  { intros x Hx. rewrite <-Hp in Hx. by apply (t_pool _ _ Ht), (t_sub _ _ Ht). }
  assert (∀ x, x ∈ xs → x ∈ els) as Hsub.
  { intros x Hx. rewrite <-Hp. apply elem_of_join_lookup. eauto. }
  assert (∀ x, x ∈ els → equal less x e = true → x ∈ xs) as Hin.
  { intros x Hx He. rewrite <-Hp in Hx. apply elem_of_join_lookup in Hx as (j & ys & Hj & Hx).
    pose proof (t_hash _ _ Ht j ys x Hj Hx) as Hxh. rewrite (hash_equal x e He), Hh in Hxh.
    assert (i = j) as <- by lia. congruence. }
  destruct (find_in_cases xs e) as [[E1 H1]|[H1 E1]], (find_in_cases els e) as [[E2 H2]|[H2 E2]].
  - split_and!; [congruence| |congruence]. intros _ x Hx. destruct (H2 x Hx); [done|]. by destruct (Hn x).
  - destruct (H1 _ (Hin _ H2 E2)) as [?|?]; [congruence|]. by destruct (Hn _ H2).
  - destruct (H2 _ (Hsub _ H1)) as [?|?]; [congruence|]. by destruct (Hn _ (Hsub _ H1)).
  - split_and!; [|intros E; by destruct (Hn _ (Hsub _ H1))|done].
    assert (∀ x, x ∈ els → x ∈ mjoin ls) as Hj by (intros x; by rewrite Hp).
    apply (t_distinct _ _ Ht); [by apply Hj|by apply Hj, Hsub|]. by apply (equal_common _ _ e).
Qed.

(** ** Adding and removing an element *)

(** The table that holds [ls'] after one bucket has changed. *)
Lemma table_update s ls i xs xs' h n : table_ok s ls → ls !! i = Some xs →
  NoDup (mjoin (<[i := xs']> ls)) → (∀ e, e ∈ mjoin (<[i := xs']> ls) → e ∈ pool) →
  (∀ e, e ∈ xs' → Z.land (hash e) (bucket_cnt (tab s) - 1) = Z.of_nat i) →
  n = Z.of_nat (length (mjoin (<[i := xs']> ls))) →
  (∀ a b, a ∈ mjoin (<[i := xs']> ls) → b ∈ mjoin (<[i := xs']> ls) → equal less a b = true → a = b) →
  rep h (bucket (buckets (tab s)) (Z.of_nat i)) xs' →
  same_off (nodes (bucket (buckets (tab s)) (Z.of_nat i)) xs') (mem s) h →
  table_ok (set_mem h (set_tab (mk_hash n (bucket_cnt (tab s)) (buckets (tab s))) s)) (<[i := xs']> ls).
Proof.
  intros [] Hi Hnd Hsub Hh Hn Hds Hr Hs. pose proof (lookup_lt_Some _ _ _ Hi).
  split; simpl; try done.
  - by rewrite length_insert.
  - apply (slots_store (mem s) _ _ _ _ xs); try done. split; [done|].
    intros e He. rewrite length_insert, <-t_cnt0. by apply t_pool0, Hsub.
  - intros e He. destruct (t_pool0 e He) as (? & ? & ? & ?). split_and!; try done. by eapply keep_some.
  - intros j ys e. destruct (decide (i = j)) as [<-|Hij].
    + rewrite list_lookup_insert_eq by done. intros [= <-]. apply Hh.
    + rewrite list_lookup_insert_ne by done. apply t_hash0.
Qed.

Lemma insert_elem_run s ls i xs e els : table_ok s ls → ls !! i = Some xs → mjoin ls ≡ₚ els →
  Z.land (hash e) (bucket_cnt (tab s) - 1) = Z.of_nat i → e ∈ pool → e ∉ els →
  (∀ x, x ∈ els → equal less x e = false) →
  ∃ s' ls', insert_elem (bucket (buckets (tab s)) (Z.of_nat i)) e s = Ok (tt, s') ∧
    table_ok s' ls' ∧ mjoin ls' ≡ₚ e :: els.
Proof.
  intros Ht Hi Hp Hh He Hnew Heq. pose proof Ht as []. destruct (t_pool0 e He) as (HN & [e0 Ee] & _ & Hout).
  destruct (join_insert ls i xs (e :: xs) Hi) as (rest & Hp1 & Hp2). simpl in Hp2.
  assert (mjoin (<[i := e :: xs]> ls) ≡ₚ e :: els) as Hp3 by (by rewrite Hp2, <-Hp1, Hp).
  pose proof (t_rep0 i xs Hi) as Hr. pose proof (lookup_lt_Some _ _ _ Hi).
  assert (e ∉ nodes (bucket (buckets (tab s)) (Z.of_nat i)) xs) as Hfresh.
  { unfold nodes. simpl. rewrite elem_of_cons, elem_of_app, list_elem_of_singleton. unfold inside in Hout.
    intros [->|[Hx| ->]]; [lia| |lia]. apply Hnew. rewrite <-Hp. apply elem_of_join_lookup. eauto. }
  destruct (list_push_front_rep _ _ _ _ _ Hr Hfresh HN Ee) as (h' & E & Hr' & Hs).
  pose proof (table_length _ _ Ht).
  eexists _, (<[i := e :: xs]> ls). split; [|split; [|done]].
  - unfold insert_elem. erewrite (bind_Ok (gets _)) by done. erewrite (bind_Ok (store_elem_cnt _)) by done.
    by apply on_mem_run.
  - apply (table_update s ls i xs); try done.
    + rewrite Hp3. apply list.NoDup_cons. split; [done|]. by rewrite <-Hp.
    + intros a. rewrite Hp3. intros [->|Ha]%elem_of_cons; [done|]. apply t_sub0. by rewrite Hp.
    + intros a [->|Ha]%elem_of_cons; [done|]. by apply (t_hash0 i xs).
    + rewrite Hp3, t_count0, Hp. simpl. rewrite (uwrap_id 32); [lia|]. rewrite Hp in *. unfold in_u. lia.
    + intros a b. rewrite Hp3. intros [->|Ha]%elem_of_cons [->|Hb]%elem_of_cons Hab; [done|..].
      * unfold equal in Hab, Heq. rewrite andb_comm in Hab. by rewrite Heq in Hab.
      * by rewrite Heq in Hab.
      * apply t_distinct0; [by rewrite Hp|by rewrite Hp|done].
Qed.

Lemma filter_ne_perm (xs ys rest : list Z) e : NoDup (xs ++ e :: ys ++ rest) →
  filter (λ x, x ≠ e) (xs ++ e :: ys ++ rest) = xs ++ ys ++ rest.
Proof.
  intros Hd. apply list.NoDup_app in Hd as (_ & Hx & Hd). apply list.NoDup_cons in Hd as [He _].
  rewrite list.filter_app, filter_cons_False by naive_solver.
  rewrite !filter_ne_id; [done|done|]. intros Hin. apply (Hx e Hin). constructor.
Qed.

Lemma remove_elem_run s ls i xs e els : table_ok s ls → ls !! i = Some xs → mjoin ls ≡ₚ els → e ∈ xs →
  ∃ s' ls' xs', remove_elem e s = Ok (tt, s') ∧ table_ok s' ls' ∧ mjoin ls' ≡ₚ filter (λ x, x ≠ e) els ∧
    ls' !! i = Some xs' ∧ bucket_cnt (tab s') = bucket_cnt (tab s) ∧ buckets (tab s') = buckets (tab s).
Proof.
  intros Ht Hi Hp He. pose proof Ht as []. pose proof (lookup_lt_Some _ _ _ Hi).
  apply list_elem_of_split in He as (pre & post & ->).
  destruct (join_insert ls i _ (pre ++ post) Hi) as (rest & Hp1 & Hp2).
  destruct (list_remove_rep _ _ _ _ _ (t_rep0 i _ Hi)) as (h' & E & Hr' & Hs).
  assert (mjoin (<[i := pre ++ post]> ls) ≡ₚ filter (λ x, x ≠ e) els) as Hp3.
  { rewrite Hp2, <-Hp, Hp1, <-!app_assoc. simpl. rewrite filter_ne_perm; [done|].
    rewrite Hp1, <-app_assoc in t_nodup0. done. }
  assert (mjoin ls ≡ₚ e :: mjoin (<[i := pre ++ post]> ls)) as Hp4.
  { rewrite Hp1, Hp2. by rewrite <-Permutation_middle. }
  assert (∀ a, a ∈ mjoin (<[i := pre ++ post]> ls) → a ∈ mjoin ls) as Hsub by (intros a; rewrite Hp4; set_solver).
  pose proof (table_length _ _ Ht).
  eexists _, (<[i := pre ++ post]> ls), (pre ++ post). split; [|split_and!; [|done|by apply list_lookup_insert_eq|..]].
  - unfold remove_elem. erewrite (bind_Ok (gets _)) by done. erewrite (bind_Ok (store_elem_cnt _)) by done.
    by erewrite (bind_Ok (on_mem _)) by (by apply on_mem_run).
  - apply (table_update s ls i (pre ++ e :: post)); try done.
    + rewrite Hp4 in t_nodup0. by apply list.NoDup_cons in t_nodup0 as [_ ?].
    + intros a Ha. by apply t_sub0, Hsub.
    + intros a Ha. apply (t_hash0 i _ a Hi). set_solver.
    + rewrite t_count0, Hp4. simpl. rewrite (uwrap_id 32); [lia|]. rewrite Hp4 in *. unfold in_u. simpl in *. lia.
    + intros a b Ha Hb. apply t_distinct0; by apply Hsub.
  - done.
  - done.
Qed.

(** ** Changing the number of buckets *)

Lemma init_loop_run cnt (s : state) b i : 0 < b → 0 ≤ i →
  (∀ j, i ≤ j < i + Z.of_nat cnt → is_Some (mem s !! (b + 16 * j)) ∧ is_Some (mem s !! (b + 16 * j + 8))) →
  ∃ h, init_loop cnt b i s = Ok (tt, set_mem h s) ∧
    (∀ j, i ≤ j < i + Z.of_nat cnt → rep h (bucket b j) []) ∧
    (∀ a, ¬ b + 16 * i ≤ a < b + 16 * (i + Z.of_nat cnt) → h !! a = mem s !! a).
Proof.
  revert s i. induction cnt as [|cnt IH]; intros s i Hb Hi Hc.
  - exists (mem s). rewrite set_mem_same. split_and!; [done|lia|done].
  - cbn [init_loop]. destruct (list_init_rep (mem s) (bucket b i)) as (h1 & E1 & Hr1 & Hs1).
    + simpl. repeat constructor; set_solver by lia.
    + simpl. unfold NULL. rewrite !elem_of_cons, elem_of_nil. lia.
    + apply Hc. lia.
    + apply Hc. lia.
    + rewrite (bind_Ok _ _ _ _ _ (on_mem_run _ _ _ _ E1)).
      assert (∀ a, a ≠ b + 16 * i → a ≠ b + 16 * i + 8 → h1 !! a = mem s !! a) as Hs1'.
      { intros a H1 H2. apply Hs1. unfold nodes. simpl. set_solver. }
      destruct (IH (set_mem h1 s) (i + 1)) as (h & E & Hr & Hs); [done|lia| |].
      { intros j Hj. simpl. rewrite !Hs1' by lia. apply Hc. lia. }
      exists h. split_and!.
      * by rewrite E.
      * intros j Hj. destruct (decide (j = i)) as [->|]; [|apply Hr; lia].
        apply (ring_off _ h1); [|done]. intros a Ha. rewrite Hs; [done|]. unfold nodes in Ha. simpl in Ha.
        rewrite !elem_of_cons, elem_of_nil in Ha. lia.
      * intros a Ha. rewrite Hs by lia. simpl. apply Hs1'; lia.
Qed.

(** The elements are on their way from the buckets at [b] to those of the table. *)
Record moving (s : state) (b : Z) (lo ln : list (list Z)) : Prop := {
  mv_old : buckets_rep (mem s) b lo;
  mv_new : buckets_rep (mem s) (buckets (tab s)) ln;
  mv_nodup : NoDup (mjoin lo ++ mjoin ln);
  mv_out e : e ∈ mjoin lo ∨ e ∈ mjoin ln →
    ¬ inside b (Z.of_nat (length lo)) e ∧ ¬ inside (buckets (tab s)) (Z.of_nat (length ln)) e;
  mv_apart a : inside b (Z.of_nat (length lo)) a → ¬ inside (buckets (tab s)) (Z.of_nat (length ln)) a;
  mv_cnt : bucket_cnt (tab s) = Z.of_nat (length ln);
  mv_pow : ∃ k, 0 ≤ k ∧ bucket_cnt (tab s) = 2 ^ k;
  mv_hash i xs e : ln !! i = Some xs → e ∈ xs → Z.land (hash e) (bucket_cnt (tab s) - 1) = Z.of_nat i }.

(** What moving does to the rest of the state. *)
Definition moved (s s' : state) : Prop :=
  tab s' = tab s ∧ arena s' = arena s ∧ ∀ a, is_Some (mem s !! a) → is_Some (mem s' !! a).

(** An element that has left the old buckets and is not yet in the new ones. *)
Record carried (s : state) (b : Z) (lo ln : list (list Z)) (e : Z) : Prop := {
  ca_lo : e ∉ mjoin lo;
  ca_ln : e ∉ mjoin ln;
  ca_out : ¬ inside b (Z.of_nat (length lo)) e ∧ ¬ inside (buckets (tab s)) (Z.of_nat (length ln)) e;
  ca_null : e ≠ NULL;
  ca_mem : is_Some (mem s !! e) }.

Lemma slot_inside b (ls : list (list Z)) i xs : ls !! i = Some xs →
  inside b (Z.of_nat (length ls)) (b + 16 * Z.of_nat i) ∧
  inside b (Z.of_nat (length ls)) (b + 16 * Z.of_nat i + 8).
Proof. intros Hi%lookup_lt_Some. unfold inside. lia. Qed.

Lemma take_one s b lo ln i e xs : moving s b lo ln → lo !! i = Some (e :: xs) →
  ∃ h1, list_next e (mem s) = Ok (first_or (b + 16 * Z.of_nat i + 8) xs, mem s) ∧
    list_remove e (mem s) = Ok (first_or (b + 16 * Z.of_nat i + 8) xs, h1) ∧
    moving (set_mem h1 s) b (<[i := xs]> lo) ln ∧ carried (set_mem h1 s) b (<[i := xs]> lo) ln e ∧
    ∀ a, is_Some (mem s !! a) → is_Some (h1 !! a).
Proof.
  intros [] Hi. destruct (slot_inside b lo i _ Hi) as [Hih Hit].
  destruct (join_insert lo i (e :: xs) xs Hi) as (ro & Ho1 & Ho2).
  assert (mjoin lo ≡ₚ e :: mjoin (<[i := xs]> lo)) as Ho by (by rewrite Ho1, Ho2).
  assert (NoDup (e :: mjoin (<[i := xs]> lo) ++ mjoin ln)) as [Hfr Hnd]%list.NoDup_cons.
  { by rewrite Ho in mv_nodup0. }
  rewrite elem_of_app in Hfr. pose proof Hnd as (Hnd1 & Hdis & _)%list.NoDup_app.
  pose proof (mv_old0 i _ Hi) as Hrep.
  destruct (list_remove_rep (mem s) (bucket b (Z.of_nat i)) [] e xs Hrep) as (h1 & E1 & Hr1 & Hs1).
  assert (e ∉ nodes (bucket b (Z.of_nat i)) xs) as Hex.
  { destruct Hrep as (Hd & _ & _). unfold nodes in *. simpl in *.
    apply list.NoDup_cons in Hd as [Hh Hd]. apply list.NoDup_cons in Hd as [Hx _]. set_solver. }
  assert (∀ a, a ∈ mjoin (<[i := xs]> lo) → a ∈ mjoin lo) as Hsub by (intros a; rewrite Ho; set_solver).
  assert (∀ a, a ∈ xs → a ∈ mjoin (<[i := xs]> lo)) as Hxs by (intros a; rewrite Ho2; set_solver).
  exists h1. split_and!; [by apply (list_next_rep _ (bucket b (Z.of_nat i)) [] e xs)|done| | |].
  - split; simpl; rewrite ?length_insert; try done.
    + apply (slots_store (mem s) _ _ _ _ (e :: xs)); try done. split; [done|].
      intros a Ha. rewrite length_insert. apply mv_out0. left. by apply Hsub.
    + apply (slots_off (mem s)); [done|]. intros a Ha. apply Hs1. unfold nodes. simpl.
      rewrite elem_of_cons, elem_of_app, list_elem_of_singleton. intros Hin.
      destruct Ha as [Ha|Ha], Hin as [->|[Hin| ->]]; try (by destruct (mv_out0 _ (or_intror Ha)));
        try (by apply (mv_apart0 _ Hih)); try (by apply (mv_apart0 _ Hit)).
      * by apply (Hdis a); [apply Hxs|].
      * by destruct (mv_out0 a (or_introl (Hsub _ (Hxs _ Hin)))).
    + intros a [Ha|Ha]; apply mv_out0; auto.
  - split; simpl; rewrite ?length_insert; try tauto.
    + apply mv_out0. left. rewrite Ho. set_solver.
    + destruct (rep_distinct _ _ _ Hrep) as (_ & _ & _ & _ & HN). unfold nodes in HN. set_solver.
    + rewrite Hs1 by done. rewrite (rep_node _ _ [] e xs Hrep). eauto.
  - intros a Ha. by eapply keep_some.
Qed.

Lemma put_one s b lo ln e : moving s b lo ln → carried s b lo ln e →
  ∃ ln' nb h2, find_bucket hash e s = Ok (nb, s) ∧ list_push_front nb e (mem s) = Ok (tt, h2) ∧
    moving (set_mem h2 s) b lo ln' ∧ mjoin ln' ≡ₚ e :: mjoin ln ∧ length ln' = length ln ∧
    ∀ a, is_Some (mem s !! a) → is_Some (h2 !! a).
Proof.
  intros [] [? ? [Hob Hon] HN [e0 Ee]]. destruct mv_pow0 as (k & Hk & Ek).
  assert (0 ≤ Z.land (hash e) (bucket_cnt (tab s) - 1) < bucket_cnt (tab s)) as Hrange.
  { rewrite Ek, index_of by lia. apply Z.mod_pos_bound. lia. }
  set (j := Z.to_nat (Z.land (hash e) (bucket_cnt (tab s) - 1))).
  assert (Z.land (hash e) (bucket_cnt (tab s) - 1) = Z.of_nat j) as Ej by lia.
  destruct (lookup_lt_is_Some_2 ln j) as [ys Hj]; [lia|].
  destruct (slot_inside (buckets (tab s)) ln j _ Hj) as [Hjh Hjt].
  destruct (join_insert ln j ys (e :: ys) Hj) as (rn & Hn1 & Hn2).
  assert (mjoin (<[j := e :: ys]> ln) ≡ₚ e :: mjoin ln) as Hn by (by rewrite Hn1, Hn2).
  assert (∀ a, a ∈ mjoin (<[j := e :: ys]> ln) → a = e ∨ a ∈ mjoin ln) as Hln by (intros a; rewrite Hn; set_solver).
  assert (∀ a, a ∈ ys → a ∈ mjoin ln) as Hys by (intros a Ha; apply elem_of_join_lookup; eauto).
  pose proof mv_nodup0 as (Hndo & Hdis & Hndn)%list.NoDup_app.
  set (nb := bucket (buckets (tab s)) (Z.of_nat j)).
  assert (e ∉ nodes nb ys) as Hfresh.
  { unfold nodes, nb. simpl. rewrite elem_of_cons, elem_of_app, list_elem_of_singleton.
    intros [Heq|[Hy|Heq]]; [|auto|]; apply Hon; by rewrite Heq. }
  destruct (list_push_front_rep _ _ _ _ _ (mv_new0 j ys Hj) Hfresh HN Ee) as (h2 & E2 & Hr2 & Hs2).
  exists (<[j := e :: ys]> ln), nb, h2. rewrite length_insert. split_and!; try done.
  - unfold find_bucket. by rewrite Ej.
  - split; simpl; rewrite ?length_insert; try done.
    + apply (slots_off (mem s)); [done|]. intros a Ha. apply Hs2.
      unfold nodes, nb. simpl. rewrite !elem_of_cons, elem_of_app, list_elem_of_singleton.
      intros Hin. destruct Ha as [Ha|Ha], Hin as [->|[->|[Hin| ->]]]; try done;
        try (by destruct (mv_out0 _ (or_introl Ha))); try (by apply (mv_apart0 _ Ha)).
      * by apply (Hdis a Ha), Hys.
      * by destruct (mv_out0 a (or_intror (Hys _ Hin))).
    + apply (slots_store (mem s) _ _ _ _ ys); try done. split; [rewrite Hn; by apply list.NoDup_cons|].
      intros a Ha. rewrite length_insert. destruct (Hln a Ha) as [->|Ha']; [done|apply mv_out0; auto].
    + rewrite Hn, <-Permutation_middle. apply list.NoDup_cons. rewrite elem_of_app. tauto.
    + intros a [Ha|Ha]; [auto|]. destruct (Hln a Ha) as [->|Ha']; auto.
    + eauto.
    + intros j' zs a. destruct (decide (j = j')) as [<-|Hne].
      * rewrite list_lookup_insert_eq by (by eapply lookup_lt_Some). intros [= <-] [->|Ha]%elem_of_cons; [done|eauto].
      * rewrite list_lookup_insert_ne by done. eauto.
  - intros a Ha. by eapply keep_some.
Qed.

Lemma move_one s b lo ln i e xs : moving s b lo ln → lo !! i = Some (e :: xs) →
  ∃ s' ln' nb h1 h2, find_bucket hash e s = Ok (nb, s) ∧
    list_next e (mem s) = Ok (first_or (b + 16 * Z.of_nat i + 8) xs, mem s) ∧
    list_remove e (mem s) = Ok (first_or (b + 16 * Z.of_nat i + 8) xs, h1) ∧
    list_push_front nb e h1 = Ok (tt, h2) ∧ s' = set_mem h2 s ∧
    moving s' b (<[i := xs]> lo) ln' ∧ moved s s' ∧ mjoin ln' ≡ₚ e :: mjoin ln ∧ length ln' = length ln.
Proof.
  intros Hm Hi. destruct (take_one _ _ _ _ _ _ _ Hm Hi) as (h1 & En & E1 & Hm1 & Hc & K1).
  destruct (put_one _ _ _ _ _ Hm1 Hc) as (ln' & nb & h2 & Ef & E2 & Hm2 & Hp & Hl & K2).
  exists (set_mem h2 s), ln', nb, h1, h2. split_and!; try done.
  - unfold find_bucket in *. simpl in Ef. by simplify_eq.
  - split_and!; [done|done|]. simpl in *. auto.
Qed.

Lemma moved_trans s1 s2 s3 : moved s1 s2 → moved s2 s3 → moved s1 s3.
Proof. intros (? & ? & Hm1) (? & ? & Hm2). split_and!; [congruence..|]. auto. Qed.

Lemma move_loop_run fuel s b lo ln i xs : moving s b lo ln → lo !! i = Some xs → (length xs ≤ fuel)%nat →
  ∃ s' ln', move_loop hash fuel (first_or (b + 16 * Z.of_nat i + 8) xs) (b + 16 * Z.of_nat i + 8) s = Ok (tt, s') ∧
    moving s' b (<[i := []]> lo) ln' ∧ moved s s' ∧ mjoin ln' ≡ₚ xs ++ mjoin ln ∧ length ln' = length ln.
Proof.
  revert s lo ln xs. induction fuel as [|fuel IH]; intros s lo ln xs Hm Hi Hf.
  - destruct xs; [|simpl in Hf; lia]. simpl. rewrite Z.eqb_refl. exists s, ln.
    rewrite list_insert_id by done. done.
  - destruct xs as [|e xs].
    + simpl. rewrite Z.eqb_refl. exists s, ln. rewrite list_insert_id by done. done.
    + cbn [move_loop first_or]. pose proof (mv_old _ _ _ _ Hm i _ Hi) as Hr.
      assert ((e =? b + 16 * Z.of_nat i + 8) = false) as ->.
      { apply Z.eqb_neq. intros ->. by destruct (rep_distinct _ _ _ Hr) as (_ & Ht & _); set_solver. }
      destruct (move_one s b lo ln i e xs Hm Hi) as (s1 & ln1 & nb & h1 & h2 & E1 & E2 & E3 & E4 & -> & Hm1 & Hmv & Hp & Hl).
      rewrite (bind_Ok _ _ _ _ _ E1), (bind_Ok _ _ _ _ _ (on_mem_run _ _ _ _ E2)), set_mem_same.
      rewrite (bind_Ok _ _ _ _ _ (on_mem_run _ _ _ _ E3)).
      rewrite (bind_Ok _ _ _ tt (set_mem h2 s)) by (by rewrite (on_mem_run _ (set_mem h1 s) tt h2)).
      destruct (IH (set_mem h2 s) (<[i := xs]> lo) ln1 xs) as (s' & ln' & E & Hm' & Hmv' & Hp' & Hl'); [done| |simpl in Hf; lia|].
      { apply list_lookup_insert_eq. by eapply lookup_lt_Some. }
      exists s', ln'. rewrite list_insert_insert_eq in Hm'. split_and!; [done|done|by eapply moved_trans| |congruence].
      rewrite Hp', Hp. by rewrite <-Permutation_middle.
Qed.

Lemma move_buckets_run cnt fuel s b lo ln i : moving s b lo ln → (i + cnt)%nat = length lo →
  (length (mjoin lo) ≤ fuel)%nat →
  ∃ s' lo' ln', move_buckets hash cnt fuel b (Z.of_nat i) s = Ok (tt, s') ∧
    moving s' b lo' ln' ∧ moved s s' ∧ length lo' = length lo ∧ length ln' = length ln ∧
    mjoin ln' ≡ₚ mjoin (drop i lo) ++ mjoin ln.
Proof.
  revert s lo ln i. induction cnt as [|cnt IH]; intros s lo ln i Hm Hlen Hf.
  - exists s, lo, ln. rewrite drop_ge by lia. done.
  - cbn [move_buckets]. destruct (lookup_lt_is_Some_2 lo i) as [xs Hi]; [lia|].
    pose proof (mv_old _ _ _ _ Hm i _ Hi) as Hr.
    rewrite (bind_Ok _ _ _ _ _ (on_mem_run _ _ _ _ (list_begin_run _ _ _ Hr))), set_mem_same.
    destruct (join_insert lo i xs [] Hi) as (rest & Hp1 & Hp2).
    destruct (move_loop_run fuel s b lo ln i xs Hm Hi) as (s1 & ln1 & E1 & Hm1 & Hmv1 & Hp & Hl1).
    { rewrite Hp1, length_app in Hf. lia. }
    rewrite (bind_Ok _ _ _ _ _ E1).
    destruct (IH s1 (<[i := []]> lo) ln1 (S i) Hm1) as (s' & lo' & ln' & E & Hm' & Hmv' & Hlo & Hln & Hp').
    { rewrite length_insert. lia. }
    { rewrite Hp2. rewrite Hp1, length_app in Hf. simpl. lia. }
    exists s', lo', ln'. replace (Z.of_nat i + 1) with (Z.of_nat (S i)) by lia.
    rewrite length_insert in Hlo. split_and!; [done|done|by eapply moved_trans|done|congruence|].
    rewrite Hp', Hp, drop_insert_lt by lia. rewrite (drop_S _ _ _ Hi). simpl.
    rewrite !app_assoc. by rewrite (Permutation_app_comm (mjoin (drop (S i) lo))).
Qed.

(** The allocator's answer changes nothing for a table when it fails. *)
Lemma table_arena s ls a : table_ok s ls → arena_ok a →
  (∀ x, in_use a x ↔ in_use (arena s) x) → (∀ q m, block a q m ↔ block (arena s) q m) →
  table_ok (mk_hstate (mem s) (tab s) a) ls.
Proof.
  intros [] Ha Hu Hb. split; simpl; try done.
  - by apply Hb.
  - intros e He. destruct (t_pool0 e He) as (? & ? & ? & ?). split_and!; try done. by apply Hu.
Qed.

(** New, empty buckets at [p] for a table, in memory nobody used. *)
Lemma start_moving s ls n k p a' h : table_ok s ls → 0 ≤ k → n = 2 ^ k → 0 < p →
  (∀ x, inside p n x → ¬ in_use (arena s) x) →
  (∀ j, 0 ≤ j < n → rep h (bucket p j) []) →
  (∀ a, ¬ inside p n a → h !! a = mem s !! a) →
  moving (mk_hstate h (mk_hash (elem_cnt (tab s)) n p) a') (buckets (tab s)) ls (replicate (Z.to_nat n) []).
Proof.
  intros Ht Hk En Hp Hfree Hr Hs. pose proof Ht as [].
  assert (0 < n) by (rewrite En; apply Z.pow_pos_nonneg; lia).
  assert (∀ e, e ∈ mjoin ls → ¬ inside p n e) as Hel.
  { intros e He Hin. apply (Hfree e Hin). by apply t_pool0, t_sub0. }
  assert (∀ a, inside (buckets (tab s)) (bucket_cnt (tab s)) a → ¬ inside p n a) as Hold.
  { intros a Ha Hin. apply (Hfree a Hin). by eapply block_in_use. }
  assert (mjoin (replicate (Z.to_nat n) []) = ([] : list Z)) as Ej by (by induction (Z.to_nat n)).
  split; simpl; rewrite ?length_replicate, ?Z2Nat.id, <-?t_cnt0 by lia; try done.
  - apply (slots_off (mem s)); [done|]. intros a Ha. apply Hs. rewrite <-t_cnt0 in Ha. destruct Ha; auto.
  - intros i xs Hi. apply lookup_replicate in Hi as [-> Hi]. apply Hr. lia.
  - by rewrite Ej, app_nil_r.
  - rewrite Ej. intros e [He|He]; [|set_solver]. split; [by apply t_pool0, t_sub0|by apply Hel].
  - eauto.
  - intros i xs e Hi. apply lookup_replicate in Hi as [-> _]. set_solver.
Qed.

(** The old array is given back. *)
Lemma finish_moving s ls s3 s4 lo ln k a : table_ok s ls →
  moving s4 (buckets (tab s)) lo ln → moved s3 s4 → length lo = length ls → mjoin ln ≡ₚ mjoin ls →
  2 ≤ k → 2 ^ k < 2 ^ 28 → bucket_cnt (tab s3) = 2 ^ k → 0 < buckets (tab s3) →
  elem_cnt (tab s3) = elem_cnt (tab s) → arena_ok a →
  block a (buckets (tab s3)) (16 * bucket_cnt (tab s3)) →
  (∀ e, e ∈ pool → is_Some (mem s3 !! e) ∧ in_use a e ∧ ¬ inside (buckets (tab s3)) (bucket_cnt (tab s3)) e) →
  table_ok (mk_hstate (foldr (λ c, delete c) (mem s4) (cells (buckets (tab s)) (16 * bucket_cnt (tab s))))
              (tab s4) a) ln.
Proof.
  intros Ht [] (Etab & _ & Hsome) Hlo Hp Hk Hk' Ek Hst Hec Ha Hb Hpl. pose proof Ht as [].
  rewrite Etab in *. rewrite Hlo, <-t_cnt0 in *.
  assert (∀ e, e ∈ cells (buckets (tab s)) (16 * bucket_cnt (tab s)) → inside (buckets (tab s)) (bucket_cnt (tab s)) e) as Hcell.
  { intros e He. apply elem_of_cells in He as (i & Hi & ->); [unfold inside; lia|lia]. }
  split; simpl; rewrite ?Etab; try done.
  - eauto.
  - apply (slots_off (mem s4)); [done|]. intros x Hx. rewrite release_lookup, bool_decide_eq_false_2; [done|].
    intros Hc%Hcell. destruct Hx as [Hx|Hx]; [by destruct (mv_out0 x (or_intror Hx))|by apply (mv_apart0 x)].
  - by rewrite Hp.
  - intros e He. destruct (t_pool0 e He) as (? & ? & ? & Hout). destruct (Hpl e He) as (Hs & ? & ?).
    split_and!; try done. rewrite release_lookup, bool_decide_eq_false_2 by (intros Hc%Hcell; done). auto.
  - intros e. rewrite Hp. apply t_sub0.
  - by rewrite Hec, Hp.
  - intros x y. rewrite Hp. apply t_distinct0.
Qed.

(** A freshly allocated array of buckets after the initialising loop. *)
Lemma fresh_buckets_run n (s : state) h0 p : 0 < p → 0 ≤ n →
  mem s = foldr (λ c, <[c := junk c]>) h0 (cells p (16 * n)) →
  ∃ h, init_loop (Z.to_nat n) p 0 s = Ok (tt, set_mem h s) ∧
    (∀ j, 0 ≤ j < n → rep h (bucket p j) []) ∧ (∀ a, ¬ inside p n a → h !! a = h0 !! a).
Proof.
  intros Hp Hn Es. destruct (init_loop_run (Z.to_nat n) s p 0 Hp ltac:(lia)) as (h & E & Hr & Hs).
  { intros j Hj. rewrite Es, !claim_lookup, !bool_decide_eq_true_2; [eauto|..];
      apply elem_of_cells; try lia; [exists (2 * j + 1)|exists (2 * j)]; lia. }
  rewrite Z2Nat.id in * by lia. rewrite Z.add_0_l in *. exists h. split_and!; [done|done|].
  intros a Ha. rewrite Hs by (unfold inside in Ha; lia). rewrite Es, claim_lookup, bool_decide_eq_false_2; [done|].
  intros (j & Hj & ->)%elem_of_cells; [|lia]. apply Ha. unfold inside. lia.
Qed.

Lemma rehash_run fuel s ls : table_ok s ls → (length (mjoin ls) ≤ fuel)%nat →
  ∃ s' ls', rehash hash junk fuel s = Ok (tt, s') ∧ table_ok s' ls' ∧ mjoin ls' ≡ₚ mjoin ls.
Proof.
  intros Ht Hf. pose proof Ht as []. pose proof (table_length _ _ Ht).
  destruct (ideal_bucket_cnt_run (elem_cnt (tab s))) as (k & Hk & Hk' & Ek); [lia|].
  assert (0 < bucket_cnt (tab s)).
  { destruct t_pow0 as (k0 & ? & _ & ->). apply Z.pow_pos_nonneg; lia. }
  unfold rehash. erewrite (bind_Ok (gets tab)) by done.
  erewrite (bind_Ok (lift _)) by (unfold lift; rewrite Ek; done).
  destruct (Z.eqb_spec (2 ^ k) (bucket_cnt (tab s))) as [|Hne]; [by exists s, ls|].
  assert (0 < 2 ^ k) by (apply Z.pow_pos_nonneg; lia). rewrite (uwrap_id 32) by (unfold in_u; lia).
  assert (2 ^ k ≤ 2 ^ 27).
  { apply Z.pow_le_mono_r; [lia|]. apply Z.lt_succ_r, (Z.pow_lt_mono_r_iff 2); [lia|lia|]. exact Hk'. }
  destruct (malloc_ok (arena s) (16 * 2 ^ k) t_arena0 ltac:(lia)) as (p & a1 & Em & Ha1 & [(-> & Hu & Hb)|(Hp & Hend & Hfree & Hu & Hb)]).
  { erewrite (bind_Ok (alloc _ _)) by (unfold alloc; rewrite Em; done). simpl.
    exists (mk_hstate (mem s) (tab s) a1), ls. split_and!; [done| |done]. by apply table_arena. }
  assert ((p =? NULL) = false) as EN by (apply Z.eqb_neq; unfold NULL; lia).
  erewrite (bind_Ok (alloc _ _)) by (unfold alloc; rewrite Em; done). rewrite EN.
  set (h1 := foldr _ _ _).
  destruct (fresh_buckets_run (2 ^ k) (mk_hstate h1 (tab s) a1) (mem s) p Hp ltac:(lia) eq_refl) as (h2 & E2 & Hr2 & Hs3).
  rewrite (bind_Ok _ _ _ _ _ E2). erewrite (bind_Ok (store_buckets _ _)) by done. simpl.
  set (s3 := set_tab _ _).
  assert (moving s3 (buckets (tab s)) ls (replicate (Z.to_nat (2 ^ k)) [])) as Hm3.
  { apply (start_moving s ls (2 ^ k) k); try done; lia. }
  destruct (move_buckets_run (Z.to_nat (bucket_cnt (tab s))) fuel s3 _ _ _ 0 Hm3)
    as (s4 & lo & ln & E4 & Hm4 & Hmv & Hlo & _ & Hperm); [lia|done|].
  change (Z.of_nat 0) with 0 in E4. rewrite (bind_Ok _ _ _ _ _ E4).
  destruct (free_ok a1 (buckets (tab s)) (16 * bucket_cnt (tab s)) Ha1) as (a5 & E5 & Ha5 & Hu5 & Hb5);
    [apply Hb; by left|].
  assert (mjoin ln ≡ₚ mjoin ls) as Hperm'.
  { rewrite Hperm, drop_0, (join_nil_2 (replicate _ _)); [by rewrite app_nil_r|]. by apply Forall_replicate. }
  assert (∀ e, e ∈ pool → ¬ inside p (2 ^ k) e) as Hpe.
  { intros e He Hin. apply (Hfree e); [unfold inside in Hin; lia|]. by apply t_pool0. }
  eexists _, ln. split_and!.
  - unfold dealloc. rewrite (proj1 (proj2 Hmv)). simpl. rewrite E5. done.
  - apply (finish_moving s ls s3 s4 lo ln k); try done.
    + simpl. apply Hb5.
      * intros ->. apply (Hfree (buckets (tab s))); [lia|]. eapply block_in_use; [done|done|lia].
      * apply Hb. right. done.
    + intros e He. destruct (t_pool0 e He) as (? & Hse & Hue & Hout). simpl. split_and!.
      * rewrite Hs3; [done|]. by apply Hpe.
      * apply Hu5. split; [apply Hu; by left|]. unfold inside in Hout. lia.
      * by apply Hpe.
  - done.
Qed.

(** ** Sets of elements *)

(** The table holds the elements [els], in some order. *)
Definition implements (s : state) (els : list Z) : Prop := ∃ ls, table_ok s ls ∧ mjoin ls ≡ₚ els.

Inductive hop := Insert (e : Z) | Replace (e : Z) | Find (e : Z) | Delete (e : Z).

(** The operation on the table, and on a set with at most one element of each
    value; the result is the element of the set equal to the argument, if any. *)
Definition run_hop (fuel : nat) (o : hop) : M state Z :=
  match o with
  | Insert e => hash_insert hash less junk fuel e
  | Replace e => hash_replace hash less junk fuel e
  | Find e => hash_find hash less fuel e
  | Delete e => hash_delete hash less junk fuel e
  end.
Definition abs_hop (o : hop) (els : list Z) : Z * list Z :=
  match o with
  | Insert e => let old := find_in els e in (old, if old =? NULL then e :: els else els)
  | Replace e => let old := find_in els e in (old, e :: filter (λ x, x ≠ old) els)
  | Find e => (find_in els e, els)
  | Delete e => let old := find_in els e in (old, filter (λ x, x ≠ old) els)
  end.

(** A new element is an object of the caller that is not in the table. *)
Definition hop_ok (o : hop) (els : list Z) : bool :=
  match o with
  | Insert e | Replace e => bool_decide (e ∈ pool) && bool_decide (e ∉ els)
  | Find _ | Delete _ => true
  end.

Lemma implements_find fuel s els e : implements s els → (length pool ≤ fuel)%nat →
  ∃ ls i xs, table_ok s ls ∧ mjoin ls ≡ₚ els ∧ ls !! i = Some xs ∧ (length (mjoin ls) ≤ fuel)%nat ∧
    Z.land (hash e) (bucket_cnt (tab s) - 1) = Z.of_nat i ∧
    find_bucket hash e s = Ok (bucket (buckets (tab s)) (Z.of_nat i), s) ∧
    find_elem less fuel (bucket (buckets (tab s)) (Z.of_nat i)) e s = Ok (find_in els e, s) ∧
    (find_in els e = NULL → ∀ x, x ∈ els → equal less x e = false) ∧
    (find_in els e ≠ NULL → find_in els e ∈ xs ∧ equal less (find_in els e) e = true).
Proof.
  intros (ls & Ht & Hp) Hf. destruct (bucket_of s ls e Ht) as (i & xs & Hi & Hh & Eb & Hlen).
  assert (length (mjoin ls) ≤ fuel)%nat as Hl.
  { pose proof Ht as []. etrans; [|exact Hf]. apply submseteq_length, NoDup_submseteq; [done|]. intros x. apply t_sub0. }
  destruct (find_in_table s ls i xs els e Ht Hi Hp Hh) as (Ef & H1 & H2). rewrite Ef.
  exists ls, i, xs. split_and!; try done. apply (find_elem_run s ls); [done|done|lia].
Qed.

Lemma rehash_implements fuel s els : implements s els → (length pool ≤ fuel)%nat →
  ∃ s', rehash hash junk fuel s = Ok (tt, s') ∧ implements s' els.
Proof.
  intros Hs Hf. destruct (implements_find fuel s els 0 Hs Hf) as (ls & _ & _ & Ht & Hp & _ & Hl & _).
  destruct (rehash_run fuel s ls Ht Hl) as (s' & ls' & E & Ht' & Hp'). exists s'. split; [done|].
  exists ls'. split; [done|]. by rewrite Hp'.
Qed.

Lemma els_distinct s els a b : implements s els → a ∈ els → b ∈ els → equal less a b = true → a = b.
Proof. intros (ls & Ht & Hp). rewrite <-Hp. apply (t_distinct _ _ Ht). Qed.

Lemma els_not_NULL s els a : implements s els → a ∈ els → a ≠ NULL.
Proof. intros (ls & Ht & Hp). rewrite <-Hp. intros Ha. by apply (t_pool _ _ Ht), (t_sub _ _ Ht). Qed.

Lemma insert_run fuel s els e : implements s els → e ∈ pool → e ∉ els → (length pool ≤ fuel)%nat →
  ∃ s', run_hop fuel (Insert e) s = Ok ((abs_hop (Insert e) els).1, s') ∧
        implements s' (abs_hop (Insert e) els).2.
Proof.
  intros Hs He Hne Hf.
  destruct (implements_find fuel s els e Hs Hf) as (ls & i & xs & Ht & Hp & Hi & _ & Hh & Eb & Ef & Hno & _).
  simpl. unfold hash_insert. rewrite (bind_Ok _ _ _ _ _ Eb), (bind_Ok _ _ _ _ _ Ef).
  destruct (Z.eqb_spec (find_in els e) NULL) as [E|E].
  - destruct (insert_elem_run s ls i xs e els) as (s1 & ls1 & E1 & Ht1 & Hp1); try done; [by apply Hno|].
    rewrite (bind_Ok _ _ _ _ _ E1).
    destruct (rehash_implements fuel s1 (e :: els)) as (s2 & E2 & Hs2); [by exists ls1|done|].
    rewrite (bind_Ok _ _ _ _ _ E2). by exists s2.
  - rewrite (bind_Ok (ret tt) _ s tt s) by done.
    destruct (rehash_implements fuel s els Hs Hf) as (s2 & E2 & Hs2).
    rewrite (bind_Ok _ _ _ _ _ E2). by exists s2.
Qed.

Lemma replace_run fuel s els e : implements s els → e ∈ pool → e ∉ els → (length pool ≤ fuel)%nat →
  ∃ s', run_hop fuel (Replace e) s = Ok ((abs_hop (Replace e) els).1, s') ∧
        implements s' (abs_hop (Replace e) els).2.
Proof.
  intros Hs He Hne Hf.
  destruct (implements_find fuel s els e Hs Hf) as (ls & i & xs & Ht & Hp & Hi & _ & Hh & Eb & Ef & Hno & Hyes).
  simpl. unfold hash_replace. rewrite (bind_Ok _ _ _ _ _ Eb), (bind_Ok _ _ _ _ _ Ef).
  set (old := find_in els e) in *.
  assert (∃ s1 ls1 xs1, (if negb (old =? NULL) then remove_elem old else ret tt) s = Ok (tt, s1) ∧
    table_ok s1 ls1 ∧ mjoin ls1 ≡ₚ filter (λ x, x ≠ old) els ∧ ls1 !! i = Some xs1 ∧
    bucket_cnt (tab s1) = bucket_cnt (tab s) ∧ buckets (tab s1) = buckets (tab s) ∧
    ∀ x, x ∈ filter (λ x, x ≠ old) els → equal less x e = false)
    as (s1 & ls1 & xs1 & E1 & Ht1 & Hp1 & Hi1 & Hc1 & Hb1 & Hno1).
  { destruct (Z.eqb_spec old NULL) as [E|E]; simpl.
    - exists s, ls, xs. rewrite filter_ne_id by (intros Hin; by apply (els_not_NULL s els old Hs Hin)).
      split_and!; try done. by apply Hno.
    - destruct (Hyes E) as [Hin Heq].
      destruct (remove_elem_run s ls i xs old els Ht Hi Hp Hin) as (s1 & ls1 & xs1 & E1 & Ht1 & Hp1 & Hi1 & ? & ?).
      exists s1, ls1, xs1. split_and!; try done. intros x [Hx Hin']%list_elem_of_filter.
      destruct (equal less x e) eqn:Ex; [|done]. exfalso. apply Hx.
      apply (els_distinct s els); [done|done| |by apply (equal_common _ _ e)].
      rewrite <-Hp. apply elem_of_join_lookup. eauto. }
  rewrite (bind_Ok _ _ _ _ _ E1), <-Hb1.
  destruct (insert_elem_run s1 ls1 i xs1 e (filter (λ x, x ≠ old) els)) as (s2 & ls2 & E2 & Ht2 & Hp2); try done.
  { by rewrite Hc1. } { rewrite list_elem_of_filter. naive_solver. }
  rewrite (bind_Ok _ _ _ _ _ E2).
  destruct (rehash_implements fuel s2 (e :: filter (λ x, x ≠ old) els)) as (s3 & E3 & Hs3); [by exists ls2|done|].
  rewrite (bind_Ok _ _ _ _ _ E3). by exists s3.
Qed.

Lemma delete_run fuel s els e : implements s els → (length pool ≤ fuel)%nat →
  ∃ s', run_hop fuel (Delete e) s = Ok ((abs_hop (Delete e) els).1, s') ∧
        implements s' (abs_hop (Delete e) els).2.
Proof.
  intros Hs Hf.
  destruct (implements_find fuel s els e Hs Hf) as (ls & i & xs & Ht & Hp & Hi & _ & Hh & Eb & Ef & Hno & Hyes).
  simpl. unfold hash_delete. rewrite (bind_Ok _ _ _ _ _ Eb), (bind_Ok _ _ _ _ _ Ef).
  destruct (Z.eqb_spec (find_in els e) NULL) as [E|E]; simpl.
  - rewrite (bind_Ok (ret tt) _ s tt s) by done. exists s. split; [done|].
    rewrite filter_ne_id; [done|]. intros Hin. by apply (els_not_NULL s els _ Hs Hin).
  - destruct (Hyes E) as [Hin _].
    destruct (remove_elem_run s ls i xs _ els Ht Hi Hp Hin) as (s1 & ls1 & xs1 & E1 & Ht1 & Hp1 & _).
    destruct (rehash_implements fuel s1 (filter (λ x, x ≠ find_in els e) els)) as (s2 & E2 & Hs2); [by exists ls1|done|].
    rewrite (bind_Ok _ _ _ tt s2) by (by rewrite (bind_Ok _ _ _ _ _ E1)). by exists s2.
Qed.

Lemma run_hop_ok fuel s els o : implements s els → hop_ok o els = true → (length pool ≤ fuel)%nat →
  ∃ s', run_hop fuel o s = Ok ((abs_hop o els).1, s') ∧ implements s' (abs_hop o els).2.
Proof.
  intros Hs Ho Hf. destruct o as [e|e|e|e]; simpl in Ho.
  - apply andb_true_iff in Ho as [He Hn]. apply bool_decide_eq_true in He, Hn. by apply insert_run.
  - apply andb_true_iff in Ho as [He Hn]. apply bool_decide_eq_true in He, Hn. by apply replace_run.
  - destruct (implements_find fuel s els e Hs Hf) as (ls & i & xs & _ & _ & _ & _ & _ & Eb & Ef & _).
    exists s. simpl. unfold hash_find. by rewrite (bind_Ok _ _ _ _ _ Eb), Ef.
  - by apply delete_run.
Qed.

(** ** A new table *)

(** The caller's objects exist. *)
Definition objects_exist (s : state) : Prop :=
  ∀ e, e ∈ pool → e ≠ NULL ∧ is_Some (mem s !! e) ∧ in_use (arena s) e.

Lemma clear_loop_init cnt fuel i (s : state) :
  clear_loop cnt fuel None i s = init_loop cnt (buckets (tab s)) i s.
Proof.
  revert i s. induction cnt as [|cnt IH]; intros i s; [done|]. cbn [clear_loop init_loop].
  erewrite (bind_Ok (gets _)) by done. erewrite (bind_Ok (ret tt)) by done.
  unfold bind, on_mem. destruct (list_init _ (mem s)) as [[[] h]| | |]; simpl; [|done..]. exact (IH _ (set_mem h s)).
Qed.

Lemma hash_init_run fuel (s : state) : arena_ok (arena s) → objects_exist s →
  ∃ b s', hash_init junk fuel s = Ok (b, s') ∧ (b = true → implements s' []).
Proof.
  intros Ha He. unfold hash_init. erewrite (bind_Ok (store_elem_cnt _)) by done. change (u32 (16 * 4)) with 64.
  destruct (malloc_ok (arena s) 64 Ha ltac:(lia)) as (p & a1 & Em & Ha1 & Hor).
  erewrite (bind_Ok (alloc _ _)) by (unfold alloc; cbn [mem tab arena set_tab]; rewrite Em; cbn [obind]; reflexivity).
  erewrite (bind_Ok (store_buckets _ _)) by done.
  cbn [mem tab arena set_tab elem_cnt bucket_cnt buckets].
  destruct Hor as [(-> & _)|(Hp & Hend & Hfree & Hu & Hb)]; [by eexists _, _|].
  assert ((p =? NULL) = false) as -> by (apply Z.eqb_neq; unfold NULL; lia). cbn [negb].
  set (h1 := foldr _ (mem s) (cells p 64)).
  destruct (fresh_buckets_run 4 (mk_hstate h1 (mk_hash 0 4 p) a1) (mem s) p Hp ltac:(lia) eq_refl) as (h2 & E2 & Hr2 & Hs2).
  unfold hash_clear. erewrite (bind_Ok (bind _ _)).
  2:{ erewrite (bind_Ok (gets _)) by done. erewrite (bind_Ok (clear_loop _ _ _ _)) by (by rewrite clear_loop_init).
      done. }
  eexists true, _. split; [done|]. intros _. exists (replicate 4 []). split; [|done].
  split; simpl; try done; try lia.
  - by exists 2.
  - apply Hb. by right.
  - intros i xs [-> Hi]%(lookup_replicate 4). apply Hr2. lia.
  - apply NoDup_nil_2.
  - intros e Hin. destruct (He e Hin) as (? & ? & Hue).
    assert (¬ inside p 4 e) as Hne by (intros Hc; by apply (Hfree e Hc)).
    split_and!; try done.
    + by rewrite Hs2.
    + apply Hu. by left.
  - set_solver.
  - intros i xs e [-> Hi]%(lookup_replicate 4). set_solver.
  - set_solver.
Qed.

(** ** Sequences of operations *)

Fixpoint run_hops (fuel : nat) (os : list hop) : M state (list Z) :=
  match os with
  | [] => ret []
  | o :: os => let! r := run_hop fuel o in let! rs := run_hops fuel os in ret (r :: rs)
  end.
Fixpoint abs_hops (os : list hop) (els : list Z) : list Z * list Z :=
  match os with
  | [] => ([], els)
  | o :: os => let '(r, els) := abs_hop o els in let '(rs, els) := abs_hops os els in (r :: rs, els)
  end.
Fixpoint hops_ok (os : list hop) (els : list Z) : bool :=
  match os with [] => true | o :: os => hop_ok o els && hops_ok os (abs_hop o els).2 end.

Lemma run_hops_ok fuel os s els : implements s els → hops_ok os els = true → (length pool ≤ fuel)%nat →
  ∃ s', run_hops fuel os s = Ok ((abs_hops os els).1, s') ∧ implements s' (abs_hops os els).2.
Proof.
  revert s els. induction os as [|o os IH]; intros s els Hs Ho Hf; [by exists s|].
  simpl in Ho. apply andb_true_iff in Ho as [Ho Hos].
  destruct (run_hop_ok fuel s els o Hs Ho Hf) as (s1 & E1 & Hs1). simpl.
  destruct (abs_hop o els) as [r els1]. simpl in *.
  destruct (IH s1 els1 Hs1 Hos Hf) as (s2 & E2 & Hs2). destruct (abs_hops os els1) as [rs els2]. simpl in *.
  rewrite (bind_Ok _ _ _ _ _ E1), (bind_Ok _ _ _ _ _ E2). by exists s2.
Qed.

(** C13. A hash table is a set.  After [hash_init] succeeds, any sequence of
    insertions, replacements, searches and deletions returns what it returns on a
    set that has at most one element of each value, and [hash_size] is the number
    of elements, however the allocator answers when the number of buckets has to
    change; no list operation fails an assertion or leaves its memory. *)
Theorem hash_refines_set fuel os s : arena_ok (arena s) → objects_exist s → (length pool ≤ fuel)%nat →
  hops_ok os [] = true →
  ∃ b s1, hash_init junk fuel s = Ok (b, s1) ∧
    (b = true → ∃ s2, run_hops fuel os s1 = Ok ((abs_hops os []).1, s2) ∧
       hash_size s2 = Ok (Z.of_nat (length (abs_hops os []).2), s2)).
Proof.
  intros Ha He Hf Ho. destruct (hash_init_run fuel s Ha He) as (b & s1 & E1 & Hb). exists b, s1. split; [done|].
  intros Hbt. destruct (run_hops_ok fuel os s1 [] (Hb Hbt) Ho Hf) as (s2 & E2 & ls & Ht & Hp).
  exists s2. split; [done|]. unfold hash_size, gets. by rewrite (t_count _ _ Ht), Hp.
Qed.

(** ** Iteration *)

(** The loop of the iteration idiom, collecting [hash_cur]. *)
Fixpoint iterate (n fuel : nat) (i : hash_iterator) : M state (list Z) :=
  let! ie := hash_next fuel i in
  if ie.2 =? NULL then ret []
  else match n with
  | O => out_of_fuel
  | S n => let! r := iterate n fuel ie.1 in ret (hash_cur ie.1 :: r)
  end.

Lemma list_at_bucket b j : list_at (b + 16 * j) = bucket b j.
Proof. done. Qed.

(** The elements from a place in the table on. *)
Definition rest_from (ls : list (list Z)) (j : nat) (ys : list Z) : list Z := ys ++ mjoin (drop (S j) ls).

Lemma next_loop_run fuel s ls j pre ys : table_ok s ls → ls !! j = Some (pre ++ ys) →
  (length ls < j + fuel + 1)%nat →
  ∃ i, next_loop fuel (mk_iterator (buckets (tab s) + 16 * Z.of_nat j)
          (first_or (buckets (tab s) + 16 * Z.of_nat j + 8) ys)) s = Ok (i, s) ∧
    match rest_from ls j ys with
    | [] => it_elem i = NULL
    | y :: r => it_elem i = y ∧ ∃ j' pre' ys', it_bucket i = buckets (tab s) + 16 * Z.of_nat j' ∧
        ls !! j' = Some (pre' ++ y :: ys') ∧ r = rest_from ls j' ys'
    end.
Proof.
  intros Ht. revert j pre ys. induction fuel as [|fuel IH]; intros j pre ys Hj Hf;
    pose proof (lookup_lt_Some _ _ _ Hj); [lia|].
  cbn [next_loop it_elem it_bucket]. rewrite list_at_bucket. unfold list_end.
  pose proof (at_end (mem s) (bucket (buckets (tab s)) (Z.of_nat j)) pre ys (t_rep _ _ Ht _ _ Hj)) as Hat.
  simpl in Hat |- *. rewrite Hat. destruct ys as [|y ys].
  - rewrite bool_decide_eq_true_2 by done. erewrite (bind_Ok (gets tab)) by done.
    rewrite (t_cnt _ _ Ht). unfold rest_from. simpl app.
    destruct (Z.leb_spec (buckets (tab s) + 16 * Z.of_nat (length ls)) (buckets (tab s) + 16 * Z.of_nat j + 16)) as [Hle|Hgt].
    + eexists. split; [done|]. by rewrite drop_ge by lia.
    + destruct (lookup_lt_is_Some_2 ls (S j)) as [zs Hz]; [lia|].
      replace (buckets (tab s) + 16 * Z.of_nat j + 16) with (buckets (tab s) + 16 * Z.of_nat (S j)) by lia.
      rewrite list_at_bucket.
      rewrite (bind_Ok _ _ _ _ _ (on_mem_run _ _ _ _ (list_begin_run _ _ _ (t_rep _ _ Ht _ _ Hz)))), set_mem_same.
      destruct (IH (S j) [] zs Hz) as (i & Ei & Hi); [lia|]. exists i. split; [done|].
      by rewrite (drop_S _ _ _ Hz).
  - rewrite bool_decide_eq_false_2 by done. eexists. split; [done|]. simpl. split; [done|]. by exists j, pre, ys.
Qed.

Lemma iterate_run n fuel s ls j pre ys p : table_ok s ls → ls !! j = Some (pre ++ ys) →
  list_next p (mem s) = Ok (first_or (buckets (tab s) + 16 * Z.of_nat j + 8) ys, mem s) →
  (length ls < j + fuel + 1)%nat → (length (rest_from ls j ys) ≤ n)%nat → (length ls ≤ fuel)%nat →
  iterate n fuel (mk_iterator (buckets (tab s) + 16 * Z.of_nat j) p) s = Ok (rest_from ls j ys, s).
Proof.
  intros Ht. revert j pre ys p. induction n as [|n IH]; intros j pre ys p Hj Hp Hf Hn Hl;
    destruct (next_loop_run fuel s ls j pre ys Ht Hj Hf) as (i & Ei & Hi); cbn [iterate];
    (rewrite (bind_Ok (hash_next _ _) _ s (i, it_elem i) s);
      [|unfold hash_next; cbn [it_elem it_bucket]; rewrite (bind_Ok _ _ _ _ _ (on_mem_run _ _ _ _ Hp)), set_mem_same;
        by rewrite (bind_Ok _ _ _ _ _ Ei)]); cbn [fst snd].
  - destruct (rest_from ls j ys); [|simpl in Hn; lia]. by rewrite Hi.
  - destruct (rest_from ls j ys) as [|y r]; [by rewrite Hi|]. destruct Hi as (Ey & j' & pre' & ys' & Eb & Hj' & ->).
    pose proof (t_rep _ _ Ht _ _ Hj') as Hr.
    assert (y ≠ NULL) as HN.
    { destruct (rep_distinct _ _ _ Hr) as (_ & _ & _ & _ & Hnn). intros ->. apply Hnn. rewrite nodes_app. set_solver. }
    rewrite Ey, (proj2 (Z.eqb_neq _ _) HN). destruct i as [ib ie]. simpl in Eb, Ey. subst ib ie.
    rewrite (bind_Ok _ _ _ _ _ (IH j' (pre' ++ [y]) ys' y ltac:(by rewrite <-app_assoc)
      (list_next_rep _ _ _ _ _ Hr) ltac:(lia) ltac:(simpl in Hn; lia) Hl)). done.
Qed.

(** Iterating over a table with [hash_first], [hash_next] and [hash_cur] visits
    every element exactly once and then returns a null pointer. *)
Theorem hash_iteration_complete fuel n s els : implements s els → (length els ≤ n)%nat →
  (Z.to_nat (bucket_cnt (tab s)) ≤ fuel)%nat →
  ∃ xs, (let! i := hash_first in iterate n fuel i) s = Ok (xs, s) ∧ xs ≡ₚ els.
Proof.
  intros (ls & Ht & Hp) Hn Hf. pose proof (t_cnt _ _ Ht) as Hc. destruct (t_pow _ _ Ht) as (k & Hk & _ & Ek).
  assert (0 < 2 ^ k) by (apply Z.pow_pos_nonneg; lia).
  destruct ls as [|xs ls]; [simpl in Hc; lia|]. exists (mjoin (xs :: ls)). split; [|done].
  unfold hash_first. rewrite (bind_Ok _ _ s (mk_iterator (buckets (tab s)) (buckets (tab s))) s) by done.
  pose proof (t_rep _ _ Ht 0%nat xs eq_refl) as Hr. destruct (rep_distinct _ _ _ Hr) as (_ & _ & _ & _ & HN).
  pose proof (iterate_run n fuel s (xs :: ls) 0 [] xs (buckets (tab s)) Ht eq_refl) as Hi.
  simpl Z.of_nat in Hi. rewrite Z.mul_0_r, Z.add_0_r in Hi. apply Hi.
  - eapply list_next_run.
    + pose proof (rep_head _ _ _ Hr) as Hh. simpl in Hh. rewrite Z.add_0_r in Hh. exact Hh.
    + pose proof (t_start _ _ Ht). unfold NULL. lia.
    + intros E. apply HN. rewrite <-E. replace (buckets (tab s) + 8) with (tail (bucket (buckets (tab s)) 0)) by (simpl; lia).
      apply (first_or_nodes _ []).
  - simpl in *. lia.
  - unfold rest_from. simpl. rewrite drop_0. apply Permutation_length in Hp. simpl in Hp. lia.
  - lia.
Qed.
End Table.

(** ** An example *)

(** Objects of 16 bytes; four consecutive ones have the same value. *)
Definition sample_hash (e : Z) : Z := u32 (e / 64).
Definition sample_less (a b : Z) : bool := a / 64 <? b / 64.
Definition sample_objects_pool : list Z := [64; 80; 128; 192; 256; 320; 384; 448; 512; 576; 640; 704; 768; 832].
Definition sample_table : hstate bump :=
  mk_hstate (foldr (λ e, <[e := mk_elem 0 0]>) ∅ sample_objects_pool) (mk_hash 0 0 0) (mk_bump 4096 ∅).

#[export] Instance sample_less_order : WeakOrder sample_less.
Proof. split; unfold sample_less; intros; rewrite ?Z.ltb_lt, ?Z.ltb_ge in *; lia. Qed.

#[export] Instance sample_hash_ok : HashOk sample_hash sample_less.
Proof.
  split; [|intros a; by apply uwrap_range]. intros a b. unfold equal, sample_less, sample_hash.
  rewrite andb_true_iff, !negb_true_iff, !Z.ltb_ge. intros [? ?]. by replace (a / 64) with (b / 64) by lia.
Qed.

Lemma sample_table_ok : arena_ok (arena sample_table) ∧ objects_exist sample_objects_pool sample_table.
Proof.
  split; [split_and!; [done|intros p n H|intros p n q m H]; simpl in H; by apply lookup_empty_Some in H|].
  intros e He. simpl in He. repeat (apply elem_of_cons in He as [->|He]; [split_and!; [done|by eexists|by left]|]).
  set_solver.
Qed.

Definition sample_hops : list hop := [Insert 64; Insert 80; Replace 80; Find 100; Insert 128; Insert 192].

Lemma hash_refines_set_witness :
  ∃ b s1, hash_init (λ _, mk_elem 0 0) 20 sample_table = Ok (b, s1) ∧
    (b = true → ∃ s2,
       run_hops sample_hash sample_less (λ _, mk_elem 0 0) 20 sample_hops s1
         = Ok ([0; 64; 64; 80; 0; 0], s2) ∧ hash_size s2 = Ok (3, s2)).
Proof.
  exact (hash_refines_set sample_hash sample_less (λ _, mk_elem 0 0) sample_objects_pool eq_refl 20
    sample_hops sample_table (proj1 sample_table_ok) (proj2 sample_table_ok) ltac:(simpl; lia) eq_refl).
Defined.

(** A table with three elements. *)
Lemma sample_table_filled : ∃ s, implements sample_hash sample_less sample_objects_pool s [192; 128; 80] ∧
  Z.to_nat (bucket_cnt (tab s)) = 4%nat.
Proof.
  destruct (hash_init_run sample_hash sample_less (λ _, mk_elem 0 0) sample_objects_pool eq_refl 20 sample_table
    (proj1 sample_table_ok) (proj2 sample_table_ok)) as (b & s1 & E1 & Hb).
  assert (match hash_init (λ _, mk_elem 0 0) 20 sample_table with Ok (b, _) => b | _ => false end = true) as Hbt
    by (vm_compute; reflexivity).
  rewrite E1 in Hbt. specialize (Hb Hbt).
  destruct (run_hops_ok sample_hash sample_less (λ _, mk_elem 0 0) sample_objects_pool eq_refl 20
    sample_hops s1 [] Hb) as (s2 & E2 & Hs2); [done|simpl; lia|].
  exists s2. split; [done|].
  assert (match hash_init (λ _, mk_elem 0 0) 20 sample_table with
          | Ok (_, s) => match run_hops sample_hash sample_less (λ _, mk_elem 0 0) 20 sample_hops s with
                         | Ok (_, s) => bucket_cnt (tab s) | _ => 0 end
          | _ => 0 end = 4) as Hc by (vm_compute; reflexivity).
  rewrite E1, E2 in Hc. by rewrite Hc.
Qed.

Lemma hash_iteration_complete_witness :
  ∃ (s : hstate bump) xs, (let! i := hash_first in iterate 3 4 i) s = Ok (xs, s) ∧ xs ≡ₚ [192; 128; 80].
Proof.
  destruct sample_table_filled as (s & Hs & Hc). exists s.
  exact (hash_iteration_complete sample_hash sample_less (λ _, mk_elem 0 0) sample_objects_pool eq_refl 4 3 s [192; 128; 80] Hs
    ltac:(simpl; lia) ltac:(rewrite Hc; lia)).
Defined.
