(* ===== verification/Directory.v ===== *)
(** * Directories (filesys/directory.c)

    A directory is a file of 32-byte entries.  [struct dir_entry] is kept as
    its bytes: [inode_sector] at 0, [name] at 4 (15 bytes and one of padding),
    [parent_dir] at 20, [type] at 24, [in_use] at 28, padding to 32.  Names and
    paths are C strings, lists of non-zero bytes without the terminator.

    The arguments [allocate] and [release] are those of Inode; [fuel] bounds
    the rounds of the loops over the entries. *)

From S2P Require Import Prelude Bitmap Block Cache FsState Inode.

Definition NAME_MAX : Z := 14.
Definition IS_DIR : Z := 1.
Definition IS_REG : Z := 0.

Definition SLASH : Z := 47.
Definition DOT : list Z := [46].
Definition DOTDOT : list Z := [46; 46].

(** ** Strings *)

(** [strcmp (name, mem) == 0], for the string [name] and a string in [mem]. *)
Fixpoint strcmp_eq (name mem : list Z) : outcome bool :=
  match mem with
  | [] => Undef
  | c :: mem =>
      match name with
      | [] => Ok (c =? 0)
      | x :: name => if x =? c then strcmp_eq name mem else Ok false
      end
  end.

(** The string at the start of [mem]. *)
Fixpoint cstring (mem : list Z) : outcome (list Z) :=
  match mem with
  | [] => Undef
  | c :: mem => if c =? 0 then Ok [] else let? s := cstring mem in Ok (c :: s)
  end.

Inductive part_result :=
| EndOfString
| TooLong
| Part (part rest : list Z).

Fixpoint skip_slashes (src : list Z) : list Z :=
  match src with
  | c :: src' => if c =? SLASH then skip_slashes src' else src
  | [] => []
  end.

(** The copying loop of [get_next_part], with room for [n] more bytes. *)
Fixpoint copy_part (n : nat) (src : list Z) {struct src} : option (list Z * list Z) :=
  match src with
  | [] => Some ([], [])
  | c :: src' =>
      if c =? SLASH then Some ([], src)
      else match n with
      | O => None
      | S n =>
          match copy_part n src' with
          | Some (part, rest) => Some (c :: part, rest)
          | None => None
          end
      end
  end.

Definition get_next_part (src : list Z) : part_result :=
  match skip_slashes src with
  | [] => EndOfString
  | src =>
      match copy_part (Z.to_nat NAME_MAX) src with
      | Some (part, rest) => Part part rest
      | None => TooLong
      end
  end.

(** ** Entries *)

Abbreviation dir_entry := (list Z).
Definition SIZEOF_ENTRY : Z := 32.

Definition e_inode_sector (e : dir_entry) : Z := little_endian_to_Z 8 (take 4 e).
Definition e_type (e : dir_entry) : Z := s32 (little_endian_to_Z 8 (take 4 (drop 24 e))).
Definition e_in_use (e : dir_entry) : bool := negb (default 0 (e !! 28%nat) =? 0).
Definition e_name (e : dir_entry) : list Z := drop 4 e.

Definition set_in_use (v : bool) (e : dir_entry) : outcome dir_entry :=
  memcpy_at e 28 [if v then 1 else 0].
Definition set_type (t : Z) (e : dir_entry) : outcome dir_entry :=
  memcpy_at e 24 (Z_to_little_endian 4 8 (u32 t)).
(** [strlcpy (e.name, name, sizeof e.name)]. *)
Definition set_name (name : list Z) (e : dir_entry) : outcome dir_entry :=
  memcpy_at e 4 (take 14 name ++ [0]).
Definition set_inode_sector (n : Z) (e : dir_entry) : outcome dir_entry :=
  memcpy_at e 0 (Z_to_little_endian 4 8 n).

Section Directory.
Context {St : Type} {SS : SectorStore St} {mach : Machine}.

Abbreviation K := (M (fs St)).

Variable allocate : K (option Z).
Variable release : Z → K unit.
Variable fuel : nat.

(** A [struct dir_entry] on the stack. *)
Definition stack_entry : dir_entry := take 32 (words_to_bytes stack_words).

Definition dir_create (sec entry_cnt : Z) : K bool :=
  inode_create allocate sec (s32 (u32 (entry_cnt * SIZEOF_ENTRY))).

Definition dir_open (inode : Z) : K Z :=
  let! p := malloc in
  if negb (inode =? NULL) && negb (p =? NULL) then
    let! _ := modify (λ s, set_dirs (<[p := mk_dir inode 0]> (dirs s)) s) in
    ret p
  else
    let! _ := inode_close release inode in
    ret NULL.

Definition dir_open_root : K Z :=
  let! inode := inode_open ROOT_DIR_SECTOR in
  dir_open inode.

Definition dir_reopen (dir : Z) : K Z :=
  let! d := load_dir dir in
  let! inode := inode_reopen (d_inode d) in
  dir_open inode.

Definition dir_close (dir : Z) : K unit :=
  if dir =? NULL then ret tt
  else
    let! d := load_dir dir in
    let! _ := inode_close release (d_inode d) in
    modify (λ s, set_dirs (delete dir (dirs s)) s).

Definition dir_get_inode (dir : Z) : K Z :=
  let! d := load_dir dir in ret (d_inode d).

(** The loop of [lookup], at offset [ofs]; [e] is the local. *)
Fixpoint lookup_loop (n : nat) (inode : Z) (name : list Z) (e : dir_entry) (ofs : Z)
    : K (option (dir_entry * Z)) :=
  match n with
  | O => out_of_fuel
  | S n =>
      let! '(r, e) := inode_read_at inode e SIZEOF_ENTRY (s32 ofs) in
      if r =? SIZEOF_ENTRY then
        let! same := (if e_in_use e then lift (strcmp_eq name (e_name e)) else ret false) in
        if same then ret (Some (e, ofs))
        else lookup_loop n inode name e (u32 (ofs + SIZEOF_ENTRY))
      else ret None
  end.

(** [lookup]: what it stores in [*EP] and [*OFSP] when it returns true. *)
Definition lookup (dir : Z) (name : list Z) : K (option (dir_entry * Z)) :=
  let! _ := ASSERT (negb (dir =? NULL)) in
  let! d := load_dir dir in
  lookup_loop fuel (d_inode d) name stack_entry 0.

(** [dir_lookup] returns [*INODE], null when it returns false. *)
Definition dir_lookup (dir : Z) (name : list Z) : K Z :=
  let! _ := ASSERT (negb (dir =? NULL)) in
  let! r := lookup dir name in
  match r with
  | Some (e, _) => inode_open (e_inode_sector e)
  | None => ret NULL
  end.

(** The loop of [dir_add] that finds a free slot or the end of the file. *)
Fixpoint free_slot_loop (n : nat) (inode : Z) (e : dir_entry) (ofs : Z) : K (dir_entry * Z) :=
  match n with
  | O => out_of_fuel
  | S n =>
      let! '(r, e) := inode_read_at inode e SIZEOF_ENTRY ofs in
      if (r =? SIZEOF_ENTRY) && e_in_use e
      then free_slot_loop n inode e (s32 (ofs + SIZEOF_ENTRY))
      else ret (e, ofs)
  end.

Definition dir_add (dir : Z) (name : list Z) (inode_sector type : Z) : K bool :=
  let! _ := ASSERT (negb (dir =? NULL)) in
  if bool_decide (name = []) || (NAME_MAX <? Z.of_nat (length name)) then ret false
  else
    let! r := lookup dir name in
    match r with
    | Some _ => ret false
    | None =>
        let! d := load_dir dir in
        let! '(e, ofs) := free_slot_loop fuel (d_inode d) stack_entry 0 in
        let! e := lift (set_in_use true e) in
        let! e := lift (set_type type e) in
        let! e := lift (set_name name e) in
        let! e := lift (set_inode_sector inode_sector e) in
        let! n := inode_write_at allocate (d_inode d) e SIZEOF_ENTRY ofs in
        ret (n =? SIZEOF_ENTRY)
    end.

(** [dir_readdir] returns the name it found. *)
Fixpoint readdir_loop (n : nat) (dir : Z) (e : dir_entry) : K (option (list Z)) :=
  match n with
  | O => out_of_fuel
  | S n =>
      let! d := load_dir dir in
      let! '(r, e) := inode_read_at (d_inode d) e SIZEOF_ENTRY (d_pos d) in
      if r =? SIZEOF_ENTRY then
        let! _ := store_dir dir (mk_dir (d_inode d) (s32 (d_pos d + SIZEOF_ENTRY))) in
        let! dot := lift (strcmp_eq DOT (e_name e)) in
        let! dots := (if dot then ret true else lift (strcmp_eq DOTDOT (e_name e))) in
        if dots then readdir_loop n dir e
        else if e_in_use e then
          let! name := lift (cstring (e_name e)) in
          ret (Some (take 14 name))
        else readdir_loop n dir e
      else ret None
  end.
Definition dir_readdir (dir : Z) : K (option (list Z)) := readdir_loop fuel dir stack_entry.

(** The check of [dir_remove] on an entry of type [IS_DIR]: the directory must
    have no entry but [.] and [..].  The two lookups after it store into a
    variable that shadows the entry. *)
Definition remove_allowed (dir : Z) (e : dir_entry) : K bool :=
  if e_type e =? IS_DIR then
    let! inode := inode_open (e_inode_sector e) in
    let! dying_dir := dir_open inode in
    let! r := dir_readdir dying_dir in
    match r with
    | Some _ => let! _ := dir_close dying_dir in ret false
    | None =>
        let! _ := lookup dir DOT in
        let! _ := lookup dir DOTDOT in
        let! _ := dir_close dying_dir in
        ret true
    end
  else ret true.

Definition dir_remove (dir : Z) (name : list Z) : K bool :=
  let! _ := ASSERT (negb (dir =? NULL)) in
  let! r := lookup dir name in
  match r with
  | None => ret false
  | Some (e, ofs) =>
      let! ok := remove_allowed dir e in
      if negb ok then ret false
      else
        let! inode := inode_open (e_inode_sector e) in
        if inode =? NULL then ret false
        else
          let! e := lift (set_in_use false e) in
          let! d := load_dir dir in
          let! n := inode_write_at allocate (d_inode d) e SIZEOF_ENTRY (s32 ofs) in
          if n =? SIZEOF_ENTRY then
            let! _ := inode_remove inode in
            let! _ := inode_close release inode in
            ret true
          else
            let! _ := inode_close release inode in
            ret false
  end.

(** ** Paths *)

(** [work_dir] is that of the running thread. *)
Definition dir_open_current (work_dir : Z) : K Z :=
  if work_dir =? NULL then
    let! dir := dir_open_root in
    let! _ := dir_open_root in
    ret dir
  else
    let! d := load_dir work_dir in
    let! inode := inode_reopen (d_inode d) in
    dir_open inode.

(** The loop of [find_path]; [file_name] is [None] until it is first stored to.
    A round takes at least one byte of [name], so its length bounds them. *)
Fixpoint path_loop (n : nat) (dir now_dir : Z) (name : list Z) (file_name : option (list Z))
    : K (option (list Z * Z)) :=
  match n with
  | O => out_of_fuel
  | S n =>
      match get_next_part name with
      | EndOfString =>
          match file_name with Some part => ret (Some (part, now_dir)) | None => undef end
      | TooLong => ret None
      | Part part rest =>
          if bool_decide (rest = []) then ret (Some (part, now_dir))
          else
            let! inode := dir_lookup now_dir part in
            if inode =? NULL then ret None
            else
              let! _ := (if now_dir =? dir then ret tt else dir_close now_dir) in
              let! now_dir := dir_open inode in
              path_loop n dir now_dir rest (Some part)
      end
  end.

(** [find_path] returns the tail name and the contents of [*file_dir]. *)
Definition find_path (work_dir dir : Z) (name : list Z) : K (option (list Z * FsState.dir)) :=
  let! dir := (if dir =? NULL then dir_open_current work_dir else ret dir) in
  let! d := load_dir dir in
  let! gone := inode_removed (d_inode d) in
  if gone then ret None
  else if bool_decide (name = [SLASH]) then
    let! root := dir_open_root in
    let! r := load_dir root in
    ret (Some (DOT, r))
  else
    let! now_dir := (if bool_decide (head name = Some SLASH) then dir_open_root else ret dir) in
    let! r := path_loop (S (length name)) dir now_dir name None in
    match r with
    | None => ret None
    | Some (tail, now_dir) => let! d := load_dir now_dir in ret (Some (tail, d))
    end.

(** [dir_getdirent]: the entry it returns a pointer to.  The result of
    [find_path] is ignored; when it fails, [now_dir] was never stored to. *)
Definition dir_getdirent (work_dir dir : Z) (name : list Z) : K (option dir_entry) :=
  let! ent := malloc in
  let! now_dir := malloc in
  let! r := find_path work_dir dir name in
  match r with
  | None => undef
  | Some (tail, d) =>
      if now_dir =? NULL then undef
      else
        let! _ := modify (λ s, set_dirs (<[now_dir := d]> (dirs s)) s) in
        let! r := lookup now_dir tail in
        match r with
        | None => ret None
        | Some (e, _) => if ent =? NULL then undef else ret (Some e)
        end
  end.
End Directory.
