(* ===== verification/DirectorySpec.v ===== *)
(** * Directories as maps from names

    The entries of a directory file, what [lookup], [dir_lookup], [dir_add] and
    [dir_readdir] compute from them, and the string functions under them. *)

From S2P Require Import Prelude Bitmap Block Cache FsState Inode InodeView InodeGrow File FreeMap FreeMapSpec FileSpec InodeRefs Directory.

(** ** Strings *)

(** The string at the start of [mem], all of it when there is no terminator. *)
Fixpoint upto_nul (mem : list Z) : list Z :=
  match mem with
  | [] => []
  | c :: mem => if c =? 0 then [] else c :: upto_nul mem
  end.

Definition c_string (name : list Z) : Prop := Forall (λ c, c ≠ 0) name.

Lemma strcmp_eq_ok name mem :
  c_string name → (length name < length mem)%nat →
  strcmp_eq name mem = Ok (bool_decide (upto_nul mem = name)).
Proof.
  intros Hn. revert mem. induction Hn as [|x name Hx _ IH]; intros [|c mem] Hl; cbn in Hl; try lia.
  - cbn. destruct (Z.eqb_spec c 0); [done|]. by rewrite bool_decide_eq_false_2.
  - cbn [strcmp_eq upto_nul]. destruct (Z.eqb_spec x c) as [->|Hne].
    + rewrite IH by lia. rewrite (proj2 (Z.eqb_neq _ _)) by done. f_equal.
      apply bool_decide_ext. split; [by intros ->|by intros [=]].
    + symmetry. f_equal. apply bool_decide_eq_false_2. by destruct (Z.eqb_spec c 0); intros [=].
Qed.

Lemma upto_nul_app name mem : c_string name → upto_nul (name ++ 0 :: mem) = name.
Proof.
  induction 1 as [|x name Hx _ IH]; [done|]. cbn. rewrite (proj2 (Z.eqb_neq _ _)) by done. by rewrite IH.
Qed.

Lemma cstring_ok mem : 0 ∈ mem → cstring mem = Ok (upto_nul mem).
Proof.
  induction mem as [|c mem IH]; [by intros ?%elem_of_nil|]. cbn. intros [<-|H]%elem_of_cons; [done|].
  destruct (c =? 0); [done|]. by rewrite IH.
Qed.

(** ** Path components *)

Definition no_slash (part : list Z) : Prop := Forall (λ c, c ≠ SLASH) part.

Lemma skip_slashes_ok src :
  ∃ k, src = replicate k SLASH ++ skip_slashes src ∧ head (skip_slashes src) ≠ Some SLASH.
Proof.
  induction src as [|c src (k & E & Hh)]; [by exists 0%nat|].
  cbn [skip_slashes].
  destruct (Z.eqb_spec c SLASH) as [->|Hne].
  - exists (S k). split; [|done]. cbn. by rewrite <-E.
  - exists 0%nat. split; [done|]. cbn. by intros [=].
Qed.

Lemma copy_part_ok n src part rest :
  copy_part n src = Some (part, rest) →
  src = part ++ rest ∧ no_slash part ∧ (length part ≤ n)%nat ∧ (rest = [] ∨ head rest = Some SLASH).
Proof.
  revert n part rest. induction src as [|c src IH]; intros n part rest E; cbn in E.
  { simplify_eq. split_and!; [done|constructor|cbn; lia|by left]. }
  destruct (Z.eqb_spec c SLASH) as [->|Hne].
  { simplify_eq. split_and!; [done|constructor|cbn; lia|by right]. }
  destruct n as [|n]; [done|]. destruct (copy_part n src) as [[p r]|] eqn:Ec; [|done]. simplify_eq.
  destruct (IH _ _ _ Ec) as (-> & ? & ? & ?). split_and!; [done|by constructor|cbn; lia|done].
Qed.

Lemma copy_part_complete n part rest :
  no_slash part → (length part ≤ n)%nat → rest = [] ∨ head rest = Some SLASH →
  copy_part n (part ++ rest) = Some (part, rest).
Proof.
  intros Hp. revert n. induction Hp as [|c part Hc _ IH]; intros n Hl Hr; cbn in *.
  - destruct rest as [|c rest]; [done|]. destruct Hr as [?|[= ->]]; [done|]. done.
  - rewrite (proj2 (Z.eqb_neq _ _)) by done. destruct n as [|n]; [lia|]. by rewrite IH by (done || lia).
Qed.

Lemma copy_part_long n part rest :
  no_slash part → (n < length part)%nat → copy_part n (part ++ rest) = None.
Proof.
  intros Hp. revert n. induction Hp as [|c part Hc _ IH]; intros n Hl; cbn in *; [lia|].
  rewrite (proj2 (Z.eqb_neq _ _)) by done. destruct n as [|n]; [done|]. by rewrite IH by lia.
Qed.

(** [get_next_part] splits a path at its slashes: on leading slashes, a
    component and the rest it returns the component and the rest when the
    component has at most 14 characters, and reports it as too long otherwise;
    on slashes alone it reports the end. *)
Theorem get_next_part_splits k part rest :
  no_slash part → rest = [] ∨ part ≠ [] ∧ head rest = Some SLASH →
  get_next_part (replicate k SLASH ++ part ++ rest) =
    if bool_decide (part = []) then EndOfString
    else if bool_decide (length part ≤ 14)%nat then Part part rest else TooLong.
Proof.
  intros Hp Hr. unfold get_next_part.
  assert (skip_slashes (replicate k SLASH ++ part ++ rest) = part ++ rest) as ->.
  { induction k as [|k IH]; [|done]. cbn [replicate app]. destruct part as [|c part].
    - by destruct Hr as [->|[? _]].
    - apply Forall_cons_1 in Hp as [Hc _]. cbn [app skip_slashes]. by rewrite (proj2 (Z.eqb_neq _ _)). }
  change (Z.to_nat NAME_MAX) with 14%nat. destruct part as [|c part].
  - by destruct Hr as [->|[? _]].
  - rewrite bool_decide_eq_false_2 by done. change ((c :: part) ++ rest) with (c :: part ++ rest) at 1.
    cbv iota. change (c :: part ++ rest) with ((c :: part) ++ rest). case_bool_decide as Hl.
    + rewrite copy_part_complete; [done|done|done|]. destruct Hr as [?|[_ ?]]; tauto.
    + by rewrite copy_part_long by (done || lia).
Qed.

Lemma get_next_part_splits_witness :
  get_next_part (replicate 2 SLASH ++ [97; 98] ++ [SLASH; 99]) = Part [97; 98] [SLASH; 99].
Proof.
  apply (get_next_part_splits 2 [97; 98] [SLASH; 99]); [repeat constructor; done|by right].
Defined.

(** ** Entries *)

Definition entry (c : list Z) (k : nat) : dir_entry := take 32 (drop (32 * k) c).
Definition entry_cnt (c : list Z) : nat := (length c / 32)%nat.

(** Entry [k] is in use under [name]. *)
Definition live (c name : list Z) (k : nat) : Prop :=
  (k < entry_cnt c)%nat ∧ e_in_use (entry c k) = true ∧ upto_nul (e_name (entry c k)) = name.

#[global] Instance live_dec c name k : Decision (live c name k).
Proof. unfold live. apply _. Defined.

Lemma entry_cnt_bound c : (32 * entry_cnt c ≤ length c < 32 * entry_cnt c + 32)%nat.
Proof.
  unfold entry_cnt. pose proof (Nat.div_mod_eq (length c) 32).
  pose proof (Nat.mod_upper_bound (length c) 32). lia.
Qed.

Lemma length_entry c k : (k < entry_cnt c)%nat → length (entry c k) = 32%nat.
Proof.
  intros. unfold entry. rewrite length_take, length_drop. pose proof (entry_cnt_bound c). lia.
Qed.

Section Entries.
Context {mach : Machine}.
Implicit Types s : fs store.

Lemma read_entry_ok s p i d e k :
  opened s p i d → sector i ≤ 20000000 → length e = 32%nat →
  (k < entry_cnt (content (dview s) d))%nat →
  ∃ s', inode_read_at p e SIZEOF_ENTRY (32 * Z.of_nat k) s
        = Ok ((SIZEOF_ENTRY, entry (content (dview s) d) k), s') ∧ evolves s s' (dview s).
Proof.
  intros H Hs He Hk. pose proof (length_content (op_ok _ _ _ _ H) (λ x, dview_length s x (op_inv _ _ _ _ H))) as Hl.
  pose proof (entry_cnt_bound (content (dview s) d)). pose proof (io_len _ _ _ _ (op_ok _ _ _ _ H)).
  destruct (inode_read_at_ok s p i d e 32 (32 * Z.of_nat k)) as (s' & E & Hev); [done|done|lia..|].
  exists s'. split; [|done]. rewrite Z.min_l in E by lia. unfold SIZEOF_ENTRY. rewrite E. do 3 f_equal.
  rewrite splice_full.
  - unfold entry. do 2 f_equal. lia.
  - rewrite length_take, length_drop. lia.
Qed.

Lemma read_entry_end s p i d e k :
  opened s p i d → sector i ≤ 20000000 → length e = 32%nat →
  k = entry_cnt (content (dview s) d) →
  ∃ r e' s', inode_read_at p e SIZEOF_ENTRY (32 * Z.of_nat k) s = Ok ((r, e'), s') ∧
    r ≠ SIZEOF_ENTRY ∧ length e' = 32%nat ∧ evolves s s' (dview s).
Proof.
  intros H Hs He ->. pose proof (length_content (op_ok _ _ _ _ H) (λ x, dview_length s x (op_inv _ _ _ _ H))) as Hl.
  pose proof (entry_cnt_bound (content (dview s) d)) as Hb. pose proof (io_len _ _ _ _ (op_ok _ _ _ _ H)).
  set (k := entry_cnt _) in *. destruct (Z.le_gt_cases (length_ d) (32 * Z.of_nat k)) as [Hp|Hp].
  - destruct (inode_read_at_past s p i d e 32 (32 * Z.of_nat k)) as (s' & E & Hev);
      [done|done|split; [done|eval_pow2; lia]|lia|lia|].
    eexists _, _, s'. split; [done|]. split; [done|]. split; [|done].
    rewrite length_app, length_replicate, length_drop. lia.
  - destruct (inode_read_at_ok s p i d e 32 (32 * Z.of_nat k)) as (s' & E & Hev); [done|done|lia..|].
    eexists _, _, s'. split; [done|]. split; [unfold SIZEOF_ENTRY; lia|]. split; [|done].
    rewrite length_splice; rewrite ?length_take, ?length_drop; lia.
Qed.

(** The entry that [lookup] finds: the first one in use under [name]. *)
Definition found (c name : list Z) (from : nat) (r : option (dir_entry * Z)) : Prop :=
  match r with
  | Some (e, ofs) => ∃ k, (from ≤ k)%nat ∧ ofs = 32 * Z.of_nat k ∧ e = entry c k ∧ live c name k ∧
      ∀ j, (from ≤ j < k)%nat → ¬ live c name j
  | None => ∀ j, (from ≤ j)%nat → ¬ live c name j
  end.

Lemma lookup_loop_ok n : ∀ s p i d name e k,
  opened s p i d → sector i ≤ 20000000 → c_string name → (length name ≤ 14)%nat →
  length e = 32%nat → (k ≤ entry_cnt (content (dview s) d))%nat →
  (entry_cnt (content (dview s) d) - k < n)%nat →
  ∃ r s', lookup_loop n p name e (32 * Z.of_nat k) s = Ok (r, s') ∧ evolves s s' (dview s) ∧
    found (content (dview s) d) name k r.
Proof.
  induction n as [|n IH]; intros s p i d name e k H Hs Hn Hnl He Hk Hfuel; [lia|].
  pose proof (length_content (op_ok _ _ _ _ H) (λ x, dview_length s x (op_inv _ _ _ _ H))) as Hl.
  pose proof (entry_cnt_bound (content (dview s) d)) as Hb. pose proof (io_len _ _ _ _ (op_ok _ _ _ _ H)).
  cbn [lookup_loop]. rewrite swrap_id by (unfold in_s; eval_pow2; lia).
  destruct (decide (k = entry_cnt (content (dview s) d))) as [Hend|Hend].
  { destruct (read_entry_end s p i d e k) as (r & e' & s' & E & Hr & _ & Hev); [done..|].
    rewrite (bind_Ok _ _ _ _ _ E), (proj2 (Z.eqb_neq _ _)) by done.
    exists None, s'. split; [done|]. split; [done|]. intros j ? [? _]. lia. }
  destruct (read_entry_ok s p i d e k) as (s1 & E & Hev1); [done|done|done|lia|].
  rewrite (bind_Ok _ _ _ _ _ E), Z.eqb_refl. set (ek := entry (content (dview s) d) k).
  assert (length ek = 32%nat) as Hek by (apply length_entry; lia).
  assert ((if e_in_use ek then lift (strcmp_eq name (e_name ek)) else ret false) s1
    = Ok (bool_decide (live (content (dview s) d) name k), s1)) as Es.
  { assert (live (content (dview s) d) name k ↔ e_in_use ek = true ∧ upto_nul (e_name ek) = name) as Hiff
      by (unfold live; fold ek; split; [tauto|split; [lia|done]]).
    rewrite (bool_decide_ext _ _ Hiff). destruct (e_in_use ek).
    - unfold lift. rewrite strcmp_eq_ok by (done || unfold e_name; rewrite length_drop; lia). cbn [obind].
      do 3 f_equal. apply bool_decide_ext. tauto.
    - unfold ret. by rewrite bool_decide_eq_false_2 by (by intros []). }
  rewrite (bind_Ok _ _ _ _ _ Es). case_bool_decide as Hlive.
  - exists (Some (ek, 32 * Z.of_nat k)), s1. split; [done|]. split; [done|].
    exists k. split_and!; [lia|done|done|apply Hlive..|intros; lia].
  - rewrite uwrap_id by (unfold in_u, SIZEOF_ENTRY; eval_pow2; lia).
    replace (32 * Z.of_nat k + SIZEOF_ENTRY) with (32 * Z.of_nat (S k)) by (unfold SIZEOF_ENTRY; lia).
    pose proof (opened_quiet _ _ _ _ _ H Hev1) as H1. pose proof (ev_view _ _ _ Hev1) as Hv1.
    destruct (IH s1 p i d name ek (S k)) as (r & s2 & E2 & Hev2 & Hf);
      [done..|rewrite Hv1; lia|rewrite Hv1; lia|].
    rewrite Hv1 in Hev2, Hf. exists r, s2. split; [done|]. split; [by eapply evolves_trans|].
    destruct r as [[e' ofs]|].
    + destruct Hf as (j & ? & ? & ? & ? & Hfirst). exists j. split_and!; [lia|done..|].
      intros j' Hj'. destruct (decide (j' = k)) as [->|]; [done|]. apply Hfirst. lia.
    + intros j Hj. destruct (decide (j = k)) as [->|]; [done|]. apply Hf. lia.
Qed.

(** The slot that [dir_add] writes: the first free one, or the end. *)
Lemma free_slot_loop_ok n : ∀ s p i d e k,
  opened s p i d → sector i ≤ 20000000 → length e = 32%nat →
  (k ≤ entry_cnt (content (dview s) d))%nat → (entry_cnt (content (dview s) d) - k < n)%nat →
  ∃ e' j s', free_slot_loop n p e (32 * Z.of_nat k) s = Ok ((e', 32 * Z.of_nat j), s') ∧
    evolves s s' (dview s) ∧ length e' = 32%nat ∧ (j ≤ entry_cnt (content (dview s) d))%nat ∧
    ((j < entry_cnt (content (dview s) d))%nat → e_in_use (entry (content (dview s) d) j) = false).
Proof.
  induction n as [|n IH]; intros s p i d e k H Hs He Hk Hfuel; [lia|]. cbn [free_slot_loop].
  destruct (decide (k = entry_cnt (content (dview s) d))) as [Hend|Hend].
  { destruct (read_entry_end s p i d e k) as (r & e' & s' & E & Hr & He' & Hev); [done..|].
    rewrite (bind_Ok _ _ _ _ _ E), (proj2 (Z.eqb_neq _ _)) by done.
    exists e', k, s'. split_and!; try done. intros; lia. }
  destruct (read_entry_ok s p i d e k) as (s1 & E & Hev1); [done|done|done|lia|].
  rewrite (bind_Ok _ _ _ _ _ E), Z.eqb_refl. set (ek := entry (content (dview s) d) k).
  assert (length ek = 32%nat) as Hek by (apply length_entry; lia). cbn [andb].
  destruct (e_in_use ek) eqn:Eu.
  - pose proof (length_content (op_ok _ _ _ _ H) (λ x, dview_length s x (op_inv _ _ _ _ H))) as Hl.
    pose proof (entry_cnt_bound (content (dview s) d)) as Hb. pose proof (io_len _ _ _ _ (op_ok _ _ _ _ H)).
    rewrite swrap_id by (unfold in_s, SIZEOF_ENTRY; eval_pow2; lia).
    replace (32 * Z.of_nat k + SIZEOF_ENTRY) with (32 * Z.of_nat (S k)) by (unfold SIZEOF_ENTRY; lia).
    pose proof (opened_quiet _ _ _ _ _ H Hev1) as H1. pose proof (ev_view _ _ _ Hev1) as Hv1.
    destruct (IH s1 p i d ek (S k)) as (e' & j & s2 & E2 & Hev2 & Hrest);
      [done..|rewrite Hv1; lia|rewrite Hv1; lia|].
    rewrite Hv1 in Hev2, Hrest. exists e', j, s2. split; [done|].
    split; [by eapply evolves_trans|done].
  - exists ek, k, s1. split_and!; done.
Qed.
End Entries.

(** ** The entry that is written *)

Definition new_entry (e : dir_entry) (name : list Z) (sec type : Z) : dir_entry :=
  splice 0 (Z_to_little_endian 4 8 sec) (splice 4 (name ++ [0])
    (splice 24 (Z_to_little_endian 4 8 (u32 type)) (splice 28 [1] e))).

Lemma new_entry_ok e name sec type :
  length e = 32%nat → c_string name → (length name ≤ 14)%nat → in_u 32 sec → in_s 32 type →
  length (new_entry e name sec type) = 32%nat ∧
  e_in_use (new_entry e name sec type) = true ∧
  upto_nul (e_name (new_entry e name sec type)) = name ∧
  e_inode_sector (new_entry e name sec type) = sec ∧ e_type (new_entry e name sec type) = type.
Proof.
  intros He Hn Hl Hs Ht. unfold new_entry.
  set (e1 := splice 28 [1] e). set (e2 := splice 24 _ e1). set (e3 := splice 4 _ e2).
  pose proof (length_le4 sec) as Hls. pose proof (length_le4 (u32 type)) as Hlt.
  assert (length (name ++ [0]) = S (length name)) as Hln by (rewrite length_app; cbn; lia).
  assert (length e1 = 32%nat) as H1 by (subst e1; rewrite length_splice; cbn; lia).
  assert (length e2 = 32%nat) as H2 by (subst e2; rewrite length_splice; lia).
  assert (length e3 = 32%nat) as H3 by (subst e3; rewrite length_splice; lia).
  split_and!.
  - rewrite length_splice; lia.
  - unfold e_in_use. rewrite lookup_splice, decide_False by lia.
    subst e3. rewrite lookup_splice, decide_False by lia.
    subst e2. rewrite lookup_splice, decide_False by lia.
    subst e1. by rewrite lookup_splice, decide_True by (cbn; lia).
  - unfold e_name. rewrite drop_splice_after by lia. subst e3. unfold splice.
    rewrite drop_app_length' by (rewrite length_take; lia). rewrite <-app_assoc. by apply upto_nul_app.
  - unfold e_inode_sector. pose proof (slice_splice 0 (Z_to_little_endian 4 8 sec) e3 ltac:(lia)) as E.
    rewrite drop_0, Hls in E. rewrite E, little_endian_to_Z_to_little_endian by lia.
    change (2 ^ (4 * 8)) with (2 ^ 32). by apply uwrap_id.
  - unfold e_type. rewrite drop_splice_after by lia. subst e3. rewrite drop_splice_after by lia.
    pose proof (slice_splice 24 (Z_to_little_endian 4 8 (u32 type)) e1 ltac:(lia)) as E.
    rewrite Hlt in E. fold e2 in E. rewrite E, little_endian_to_Z_to_little_endian by lia.
    change (2 ^ (4 * 8)) with (2 ^ 32). fold (u32 (u32 type)).
    rewrite (uwrap_id 32 (u32 type)) by (by apply uwrap_range). by apply swrap_uwrap.
Qed.

(** ** The directory after a write of one entry *)

Lemma entry_written c e k :
  length e = 32%nat → (k ≤ entry_cnt c)%nat →
  entry_cnt (written c e (32 * k)) = (entry_cnt c `max` S k)%nat ∧
  entry (written c e (32 * k)) k = e ∧
  ∀ j, (j < entry_cnt c)%nat → j ≠ k → entry (written c e (32 * k)) j = entry c j.
Proof.
  intros He Hk. pose proof (entry_cnt_bound c) as Hb.
  pose proof (entry_cnt_bound (written c e (32 * k))) as Hb'.
  rewrite length_written, He in Hb'. split_and!.
  - nia.
  - unfold entry. rewrite <-He. apply slice_written.
  - intros j Hj Hne. unfold entry. apply list_eq. intros x. destruct (decide (x < 32)%nat) as [Hx|Hx].
    + rewrite !lookup_take_lt, !lookup_drop, lookup_written, He by done.
      rewrite decide_False by nia. rewrite decide_True by nia. done.
    + by rewrite !lookup_take_ge by lia.
Qed.

(** [name] is bound to the inode at [sec], of type [type]. *)
Definition holds (c name : list Z) (sec type : Z) : Prop :=
  ∃ k, live c name k ∧ e_inode_sector (entry c k) = sec ∧ e_type (entry c k) = type.

(** No name is bound twice. *)
Definition unique_names (c : list Z) : Prop := ∀ name j k, live c name j → live c name k → j = k.

Lemma holding_written c e k name' :
  length e = 32%nat → (k ≤ entry_cnt c)%nat →
  ((k < entry_cnt c)%nat → e_in_use (entry c k) = false) →
  e_in_use e = true → ∀ j, live (written c e (32 * k)) name' j ↔
    (j = k ∧ upto_nul (e_name e) = name') ∨ (j ≠ k ∧ live c name' j).
Proof.
  intros He Hk Hfree Hu j. destruct (entry_written c e k He Hk) as (Hc & Ek & Ej). unfold live. rewrite Hc.
  destruct (decide (j = k)) as [->|Hne].
  - rewrite Ek, Hu. split; [tauto|]. intros [[_ ?]|[? _]]; [|done]. split; [lia|done].
  - split.
    + intros (Hj & Hrest). assert (j < entry_cnt c)%nat by lia. rewrite Ej in Hrest by done. tauto.
    + intros [[? _]|[_ (Hj & Hrest)]]; [done|]. rewrite Ej by done. split; [lia|done].
Qed.

Lemma holds_written c e k name sec type :
  length e = 32%nat → (k ≤ entry_cnt c)%nat →
  ((k < entry_cnt c)%nat → e_in_use (entry c k) = false) →
  e_in_use e = true → upto_nul (e_name e) = name → e_inode_sector e = sec → e_type e = type →
  ∀ n x t, holds (written c e (32 * k)) n x t ↔ (n = name ∧ x = sec ∧ t = type) ∨ holds c n x t.
Proof.
  intros He Hk Hfree Hu Hn Hs Ht n x t. destruct (entry_written c e k He Hk) as (_ & Ek & Ej).
  unfold holds. split.
  - intros (j & Hj & Hx & Hty). apply holding_written in Hj as [[-> Hjn]|[Hne Hj]]; try done.
    + left. rewrite Ek in Hx, Hty. split_and!; congruence.
    + right. exists j. rewrite Ej in Hx, Hty by (done || apply Hj). done.
  - intros [(-> & -> & ->)|(j & Hj & Hx & Hty)].
    + exists k. rewrite Ek. split; [|done]. apply holding_written; try done. by left.
    + assert (j ≠ k) as Hne. { intros ->. destruct Hj as (? & Hju & _). rewrite Hfree in Hju by done. done. }
      exists j. rewrite Ej by (done || apply Hj). split; [|done]. apply holding_written; try done. by right.
Qed.

Lemma unique_written c e k :
  length e = 32%nat → (k ≤ entry_cnt c)%nat →
  ((k < entry_cnt c)%nat → e_in_use (entry c k) = false) →
  e_in_use e = true → unique_names c → (∀ j, ¬ live c (upto_nul (e_name e)) j) →
  unique_names (written c e (32 * k)).
Proof.
  intros He Hk Hfree Hu Huniq Hno name j j' Hj Hj'.
  apply holding_written in Hj as [[-> Hjn]|[Hne Hj]]; try done;
  apply holding_written in Hj' as [[-> Hjn']|[Hne' Hj']]; try done.
  - subst name. by apply Hno in Hj'.
  - subst name. by apply Hno in Hj.
  - by eapply Huniq.
Qed.

Section Operations.
Context {mach : Machine}.
Implicit Types s : fs store.

(** [dir] is an open directory with inode [i] at [p] and contents [d]. *)
Record dir_ok s (dir p : Z) (i : inode) (d : inode_disk) : Prop := {
  do_null : dir ≠ NULL;
  do_dir : ∃ pos, dirs s !! dir = Some (mk_dir p pos);
  do_file : file_ok s p i d }.

Abbreviation listing s d := (content (dview s) d).

Lemma load_dir_ok s dir x : dirs s !! dir = Some x → load_dir dir s = Ok (x, s).
Proof. unfold load_dir. by intros ->. Qed.

Lemma stack_entry_length : machine_ok → length stack_entry = 32%nat.
Proof.
  intros [Hl _]. unfold stack_entry. rewrite length_take, length_words_to_bytes, Hl. done.
Qed.

Lemma lookup_ok fuel s dir p i d name :
  machine_ok → dir_ok s dir p i d → c_string name → (length name ≤ 14)%nat →
  (entry_cnt (listing s d) < fuel)%nat →
  ∃ r s', lookup fuel dir name s = Ok (r, s') ∧ evolves s s' (dview s) ∧ found (listing s d) name 0 r.
Proof.
  intros Hm [Hn [pos Hd] Hf] Hs Hl Hfuel. unfold lookup.
  rewrite (proj2 (Z.eqb_neq _ _)) by done. cbn [negb]. rewrite (bind_Ok _ _ s tt s) by done.
  rewrite (bind_Ok _ _ _ _ _ (load_dir_ok _ _ _ Hd)). cbn [d_inode].
  destruct (lookup_loop_ok fuel s p i d name stack_entry 0) as (r & s' & E & ? & ?);
    [apply Hf|apply Hf|done|done|by apply stack_entry_length|lia|lia|]. eauto.
Qed.

Lemma dir_ok_quiet s s' dir p i d : dir_ok s dir p i d → evolves s s' (dview s) → dir_ok s' dir p i d.
Proof.
  intros [Hn [pos Hd] Hf] Hev. split; [done| |by eapply file_ok_quiet]. exists pos.
  pose proof (ev_memory _ _ _ Hev) as Hmem. unfold memory in Hmem. assert (dirs s' = dirs s) as -> by congruence. done.
Qed.

Lemma build_entry_ok e name sec type s :
  length e = 32%nat → (length name ≤ 14)%nat →
  ∀ B (k : dir_entry → M (fs store) B),
    (let! e := lift (set_in_use true e) in
     let! e := lift (set_type type e) in
     let! e := lift (set_name name e) in
     let! e := lift (set_inode_sector sec e) in k e) s = k (new_entry e name sec type) s.
Proof.
  intros He Hl B k. unfold set_in_use, set_type, set_name, set_inode_sector, lift.
  pose proof (length_le4 sec) as Hls. pose proof (length_le4 (u32 type)) as Hlt.
  rewrite memcpy_at_ok by (cbn; lia). cbn [obind]. unfold bind at 1.
  rewrite memcpy_at_ok by (rewrite ?length_splice; cbn; lia). cbn [obind]. unfold bind at 1.
  rewrite (take_ge name 14) by lia.
  rewrite memcpy_at_ok by (rewrite ?length_app, ?length_splice; cbn; rewrite ?length_splice; cbn; lia).
  cbn [obind]. unfold bind at 1.
  rewrite memcpy_at_ok; [done|lia|].
  rewrite !length_splice; rewrite ?length_splice, ?length_app; cbn; rewrite ?length_splice; cbn; lia.
Qed.

(** [dir_lookup] finds a file exactly when its name is bound: it returns
    the inode object of the sector the name is bound to, and a null pointer
    when no entry in use has the name. *)
Theorem dir_lookup_correct fuel s dir p i d name :
  machine_ok → dir_ok s dir p i d → unique_names (listing s d) →
  c_string name → (length name ≤ 14)%nat → (entry_cnt (listing s d) < fuel)%nat →
  open_inv s → (∀ sec, ∃ n, opens s sec n ∧ n < 2 ^ 31 - 1) →
  ∃ q s', dir_lookup fuel dir name s = Ok (q, s') ∧ dview s' = dview s ∧
    (q ≠ NULL ↔ ∃ sec type, holds (listing s d) name sec type) ∧
    ∀ sec type, holds (listing s d) name sec type → ∃ j, inodes s' !! q = Some j ∧ sector j = sec.
Proof.
  intros Hm Hd Hu Hs Hl Hfuel Hopen Hcnt. unfold dir_lookup.
  rewrite (proj2 (Z.eqb_neq _ _)) by apply Hd. cbn [negb]. rewrite (bind_Ok _ _ s tt s) by done.
  destruct (lookup_ok fuel s dir p i d name) as (r & s1 & E & Hev & Hf); [done..|].
  rewrite (bind_Ok _ _ _ _ _ E). destruct r as [[e ofs]|].
  - destruct Hf as (k & _ & _ & -> & Hk & _). set (sec := e_inode_sector _).
    assert (open_inv s1) as Hopen1.
    { pose proof (ev_count _ _ _ Hev). pose proof (ev_memory _ _ _ Hev) as Em. unfold memory in Em.
      assert (inodes s1 = inodes s ∧ open_inodes s1 = open_inodes s) as [Ei El] by (split; congruence).
      destruct Hopen as [Hq1 Hq2 Hq3 Hq4 Ha]. split; rewrite ?Ei, ?El; try done.
      intros q j Hq. pose proof (Ha _ _ Hq). lia. }
    destruct (Hcnt sec) as (n & Hn & Hb). destruct (inode_open_ok s1 sec n) as (q & j & s2 & E2 & R);
      [done|eapply evolves_memory_left; [done|apply Hd]| |done|].
    { unfold opens in *. by rewrite (evolves_inodes _ _ _ Hev). }
    exists q, s2. split; [done|]. split; [unfold dview; rewrite (or_disk _ _ _ _ _ _ R); apply Hev|].
    split; [split; [intros _; eexists _, _; exists k; done|intros _; apply R]|].
    intros x t (k' & Hk' & <- & _). assert (k' = k) as -> by (by eapply Hu).
    exists j. split; apply R.
  - exists NULL, s1. split; [done|]. split; [apply Hev|]. split.
    + split; [done|]. intros (x & t & k & Hk & _). by destruct (Hf k ltac:(lia) Hk).
    + intros x t (k & Hk & _). by destruct (Hf k ltac:(lia) Hk).
Qed.

(** C30. [dir_add] binds a new name and nothing else: with room for one more
    entry it succeeds exactly when the name is valid and not bound yet; the
    directory then binds the name to the given inode and keeps every other
    binding, each name once. *)
Theorem dir_add_correct fuel s dir p i d name sec type :
  machine_ok → dir_ok s dir p i d → unique_names (listing s d) → deny_write_cnt i = 0 →
  c_string name → in_u 32 sec → in_s 32 type → (entry_cnt (listing s d) < fuel)%nat →
  32 * (Z.of_nat (entry_cnt (listing s d)) + 1) ≤ (124 + 128) * 512 →
  room s d (32 * (Z.of_nat (entry_cnt (listing s d)) + 1)) →
  ∃ b s', dir_add allocate1 fuel dir name sec type s = Ok (b, s') ∧
    (b = true ↔ name ≠ [] ∧ (length name ≤ 14)%nat ∧ ∀ x t, ¬ holds (listing s d) name x t) ∧
    (b = false → dview s' = dview s) ∧
    (b = true → ∃ d', dir_ok s' dir p i d' ∧ unique_names (listing s' d') ∧
       ∀ n x t, holds (listing s' d') n x t ↔
         (n = name ∧ x = sec ∧ t = type) ∨ holds (listing s d) n x t).
Proof.
  intros Hm Hd Hu Hdeny Hs Hsec Htype Hfuel Hmax Hroom. unfold dir_add.
  rewrite (proj2 (Z.eqb_neq _ _)) by apply Hd. cbn [negb]. rewrite (bind_Ok _ _ s tt s) by done.
  destruct (bool_decide (name = []) || (NAME_MAX <? Z.of_nat (length name))) eqn:Ev.
  { exists false, s. split; [done|]. split; [|done]. split; [done|]. intros (Hne & Hl & _).
    apply orb_true_iff in Ev as [?%bool_decide_eq_true|?%Z.ltb_lt]; [done|]. unfold NAME_MAX in *. lia. }
  apply orb_false_iff in Ev as [Hne%bool_decide_eq_false Hl%Z.ltb_ge]. unfold NAME_MAX in Hl.
  destruct (lookup_ok fuel s dir p i d name) as (r & s1 & E & Hev & Hf); [done..|lia|done|].
  rewrite (bind_Ok _ _ _ _ _ E). destruct r as [[e ofs]|].
  { destruct Hf as (k & _ & _ & _ & Hk & _). exists false, s1. split; [done|].
    split; [|split; [intros _; apply Hev|done]]. split; [done|]. intros (_ & _ & Hno). exfalso.
    eapply Hno. by exists k. }
  pose proof (dir_ok_quiet _ _ _ _ _ _ Hd Hev) as Hd1. pose proof (ev_view _ _ _ Hev) as Hv1.
  pose proof Hd1 as [_ [pos Hdir] Hfile]. rewrite (bind_Ok _ _ _ _ _ (load_dir_ok _ _ _ Hdir)). cbn [d_inode].
  destruct (free_slot_loop_ok fuel s1 p i d stack_entry 0) as (e & k & s2 & E2 & Hev2 & He & Hk & Hfree);
    [apply Hfile|apply Hfile|by apply stack_entry_length|lia|rewrite Hv1; lia|].
  rewrite (bind_Ok _ _ _ _ _ E2), build_entry_ok by (done || lia). rewrite Hv1 in *.
  pose proof (evolves_trans _ _ _ _ _ Hev Hev2) as Hev02. pose proof (dir_ok_quiet _ _ _ _ _ _ Hd Hev02) as Hd2.
  destruct (new_entry_ok e name sec type) as (Hel & Heu & Hen & Hes & Het); [done|done|lia|done|done|].
  set (ne := new_entry e name sec type) in *. pose proof (ev_view _ _ _ Hev02) as Hv2.
  destruct (file_write_ok s2 p i d ne (32 * Z.of_nat k)) as (s3 & d' & E3 & Hf3 & _ & Hc3 & Hpr & _);
    [done|apply Hd2|done|lia|lia| |].
  { destruct (al_quiet s s2 (sector i) d) as (_ & _ & Hmono & _); [apply Hd|done|apply Hd|].
    apply Hmono. eapply has_free_mono; [done|]. apply sectors_needed_mono. lia. }
  rewrite Hel in E3. change (Z.of_nat 32) with SIZEOF_ENTRY in E3. rewrite (bind_Ok _ _ _ _ _ E3), Z.eqb_refl.
  exists true, s3. split; [done|]. split; [|split; [done|intros _; exists d']].
  - split; [|done]. intros _. split; [done|]. split; [lia|]. intros x t (j & Hj & _). by destruct (Hf j ltac:(lia) Hj).
  - rewrite Hc3, Hv2. replace (Z.to_nat (32 * Z.of_nat k)) with (32 * k)%nat by lia. split_and!.
    + split; [apply Hd2| |done]. pose proof (pr_objects _ _ _ _ Hpr) as Ho. unfold objects in Ho.
      destruct Hd2 as [_ [pos2 ?] _]. exists pos2. assert (dirs s3 = dirs s2) as -> by congruence. done.
    + apply unique_written; try done. intros j Hj. rewrite Hen in Hj. by destruct (Hf j ltac:(lia) Hj).
    + by apply holds_written.
Qed.
End Operations.

(** ** A concrete directory

    The directory at sector 1 has two entries in sector 3: [.] and the file [a]
    at sector 5. *)

Definition blank_entry : dir_entry := replicate 32 0.
Definition sample_listing : list Z :=
  new_entry blank_entry DOT 1 IS_DIR ++ new_entry blank_entry [97] 5 IS_REG.
Definition dir_map : bitmap := mk_bitmap 64 [0xef; 0].
Definition dir_inode : inode_disk := sample_inode [3] 64.
Definition dir_disk (n : Z) : sector_data :=
  if n =? 0 then encode_inode map_inode
  else if n =? 1 then encode_inode dir_inode
  else if n =? 2 then words_to_bytes (bits dir_map) ++ replicate 504 0
  else if n =? 3 then sample_listing ++ replicate 448 0
  else if n =? 5 then encode_inode inode_a
  else zeros.
Definition dir_objects : gmap Z inode := {[ 2 := mk_inode 1 1 false 0; 3 := mk_inode 5 1 false 0 ]}.
Definition dir_sample : fs store :=
  set_dirs {[ 1000 := mk_dir 2 0 ]} (sample_fs dir_disk dir_map dir_objects).

Lemma dir_disk_length n : length (dir_disk n) = 512%nat.
Proof. unfold dir_disk. repeat case_match; vm_compute; done. Qed.

Lemma dir_sample_ok : dir_ok dir_sample 1000 2 (mk_inode 1 1 false 0) dir_inode.
Proof.
  split; [done|by exists 0|]. apply file_ok_dirs.
  by apply (sample_file_ok _ dir_disk_length _ map_inode) with 448%nat; vm_compute.
Qed.

Lemma dir_sample_content : content (dview dir_sample) dir_inode = sample_listing.
Proof. by vm_compute. Qed.

Lemma dir_sample_unique : unique_names (content (dview dir_sample) dir_inode).
Proof.
  rewrite dir_sample_content. intros name j k (Hj & _ & Ej) (Hk & _ & Ek).
  change (entry_cnt sample_listing) with 2%nat in *.
  destruct j as [|[|j]], k as [|[|k]]; try lia; exfalso; subst name; by vm_compute in Ek.
Qed.

Lemma dir_sample_room len : 0 ≤ len ≤ 96 → room dir_sample dir_inode len.
Proof.
  intros H. apply has_free_mono with 0%nat.
  - exists []. split_and!; [constructor|done|]. by intros x ?%elem_of_nil.
  - etrans; [apply (sectors_needed_mono _ len 96); lia|]. by vm_compute.
Qed.

Lemma dir_sample_open : open_inv dir_sample.
Proof.
  split.
  - by apply (bool_decide_unpack _); vm_compute.
  - intros p. cbn. unfold dir_objects. rewrite !elem_of_cons, elem_of_nil, !lookup_insert_is_Some', lookup_singleton_is_Some.
    naive_solver.
  - intros p q i j Hp Hq Hs.
    apply elem_of_map_to_list in Hp, Hq. vm_compute in Hp, Hq. set_unfold. naive_solver.
  - intros p i Hp. apply elem_of_map_to_list in Hp. vm_compute in Hp. set_unfold. naive_solver lia.
  - intros p i Hp. apply elem_of_map_to_list in Hp. vm_compute in Hp. set_unfold. naive_solver lia.
Qed.

Lemma dir_sample_opens sec : ∃ n, opens dir_sample sec n ∧ n < 2 ^ 31 - 1.
Proof.
  destruct (decide (sec = 0)) as [->|]; [exists 1; split; [right; by exists 1, (mk_inode 0 1 false 0)|lia]|].
  destruct (decide (sec = 1)) as [->|]; [exists 1; split; [right; by exists 2, (mk_inode 1 1 false 0)|lia]|].
  destruct (decide (sec = 5)) as [->|]; [exists 1; split; [right; by exists 3, (mk_inode 5 1 false 0)|lia]|].
  exists 0. split; [|lia]. left. split; [done|]. intros p i Hp.
  apply elem_of_map_to_list in Hp. vm_compute in Hp. set_unfold. naive_solver.
Qed.

Lemma dir_lookup_correct_witness :
  ∃ q s', dir_lookup 10 1000 [97] dir_sample = Ok (q, s') ∧ dview s' = dview dir_sample ∧
    (q ≠ NULL ↔ ∃ sec type, holds (content (dview dir_sample) dir_inode) [97] sec type) ∧
    ∀ sec type, holds (content (dview dir_sample) dir_inode) [97] sec type →
      ∃ j, inodes s' !! q = Some j ∧ sector j = sec.
Proof.
  apply (dir_lookup_correct 10 dir_sample 1000 2 (mk_inode 1 1 false 0) dir_inode [97]);
    [apply sample_machine_ok|apply dir_sample_ok|apply dir_sample_unique|by repeat constructor|cbn; lia|
     by rewrite dir_sample_content; vm_compute; lia|apply dir_sample_open|apply dir_sample_opens].
Defined.

Lemma dir_add_correct_witness :
  ∃ b s', dir_add allocate1 10 1000 [98] 9 IS_REG dir_sample = Ok (b, s') ∧
    (b = true ↔ [98] ≠ [] ∧ (length [98] ≤ 14)%nat ∧
       ∀ x t, ¬ holds (content (dview dir_sample) dir_inode) [98] x t) ∧
    (b = false → dview s' = dview dir_sample) ∧
    (b = true → ∃ d', dir_ok s' 1000 2 (mk_inode 1 1 false 0) d' ∧ unique_names (content (dview s') d') ∧
       ∀ n x t, holds (content (dview s') d') n x t ↔
         (n = [98] ∧ x = 9 ∧ t = IS_REG) ∨ holds (content (dview dir_sample) dir_inode) n x t).
Proof.
  apply (dir_add_correct 10 dir_sample 1000 2 (mk_inode 1 1 false 0) dir_inode [98] 9 IS_REG);
    [apply sample_machine_ok|apply dir_sample_ok|apply dir_sample_unique|done|by repeat constructor|
     split; vm_compute; done|split; vm_compute; done|rewrite dir_sample_content; vm_compute; lia|
     rewrite dir_sample_content; vm_compute; done|].
  rewrite dir_sample_content. apply dir_sample_room. vm_compute. done.
Defined.
