(* ===== verification/Filesys.v ===== *)
(** * The file system (filesys/filesys.c)

    Creating, opening and removing files in the working directory, start-up
    with formatting, and shutdown, over the buffer cache. *)

From S2P Require Import Prelude Bitmap Block Cache FsState Inode File FreeMap Directory.

Section Filesys.
Context {mach : Machine}.
Variable fuel : nat.

Abbreviation K := (M (fs store)).

(** [&&] of the code: the right operand runs when the left one is true. *)
Definition andM (a : K bool) (b : K bool) : K bool :=
  let! x := a in if x then b else ret false.

Definition filesys_create (work_dir : Z) (name : list Z) (initial_size type : Z) : K bool :=
  let! dir := dir_open_current release1 work_dir in
  let! r := (if dir =? NULL then ret None else allocate1) in
  let inode_sector := default 0 r in
  let! success :=
    (match r with
     | None => ret false
     | Some _ =>
         andM (inode_create allocate1 inode_sector initial_size)
              (dir_add allocate1 fuel dir name inode_sector type)
     end) in
  let! _ := (if negb success && negb (inode_sector =? 0) then release1 inode_sector else ret tt) in
  let! _ := dir_close release1 dir in
  ret success.

Definition filesys_open (work_dir : Z) (name : list Z) : K Z :=
  let! dir := dir_open_current release1 work_dir in
  let! inode := (if dir =? NULL then ret NULL else dir_lookup fuel dir name) in
  let! _ := dir_close release1 dir in
  file_open release1 inode.

Definition filesys_remove (work_dir : Z) (name : list Z) : K bool :=
  let! dir := dir_open_current release1 work_dir in
  let! success := (if dir =? NULL then ret false
                   else dir_remove allocate1 release1 fuel dir name) in
  let! _ := dir_close release1 dir in
  ret success.

Definition do_format : K unit :=
  let! _ := free_map_create in
  let! ok := dir_create allocate1 ROOT_DIR_SECTOR 16 in
  let! _ := ASSERT ok in
  let! root := dir_open_root release1 in
  let! _ := dir_add allocate1 fuel root DOT ROOT_DIR_SECTOR IS_DIR in
  let! _ := dir_add allocate1 fuel root DOTDOT ROOT_DIR_SECTOR IS_DIR in
  let! _ := dir_close release1 root in
  free_map_close.

(** [fs_device] is the device of the store; that there is one is the guard of
    the source. *)
Definition filesys_init (format : bool) : K unit :=
  let! _ := inode_init in
  let! size := gets (λ s, block_size (fs_device (disk s))) in
  let! _ := free_map_init size in
  let! _ := (if format then do_format else ret tt) in
  free_map_open.

Definition filesys_done : K unit :=
  let! _ := free_map_close in
  on_disk cache_sync.
End Filesys.
