(* ===== verification/Process.v ===== *)
(** * Loading user programs (userprog/process.c, [tss_update] of userprog/tss.c)

    The ELF loader and the arguments of a new process.  The state joins the memory of
    the machine, the file system and the members of the current thread the loader uses.
    The initial contents of the variables [ehdr] and [phdr], which are on the stack, are
    those of the stack.  What [printf] writes to the console is left out. *)

From S2P Require Import Prelude Bitmap Palloc Pagedir CString.
From S2P Require Import Block Cache FsState Inode File FreeMap Directory Filesys.

(** ** State *)

Record process := mk_process {
  machine : vm;
  fsys : fs store;
  pagedir : Z;
  exec_file : Z;
  tss_esp0 : Z }.

Abbreviation P := (M process).

Definition set_machine (v : vm) (s : process) : process :=
  mk_process v (fsys s) (pagedir s) (exec_file s) (tss_esp0 s).
Definition set_fsys (v : fs store) (s : process) : process :=
  mk_process (machine s) v (pagedir s) (exec_file s) (tss_esp0 s).

(** The parts of the state other components work on. *)
Definition on_ram {A} (f : B A) : V A := λ s,
  let? '(a, m) := f (ram (phys s)) in Ok (a, set_phys (set_ram m (phys s)) s).
Definition on_vm {A} (f : V A) : P A := λ s,
  let? '(a, v) := f (machine s) in Ok (a, set_machine v s).
Definition on_fs {A} (f : M (fs store) A) : P A := λ s,
  let? '(a, v) := f (fsys s) in Ok (a, set_fsys v s).

(** ** Memory of the current process

    The processor translates a user address with the directory that [cr3] points to,
    and records the access in the entry and in its cache.  A page that is not there or,
    as [CR0_WP] is set, not writable faults; [page_fault] calls [kill], which stops the
    kernel for a fault in its own code. *)

Definition page_fault {A} : V A := panic.

Definition user_page (va : Z) : V Z :=
  let! p := gets cr3 in
  let! pd := lift (ptov p) in
  let! pde := load32 (pd + 4 * pd_no va) in
  if Z.land pde PTE_P =? 0 then page_fault
  else
    let! pt := lift (ptov (Z.land pde PTE_ADDR)) in
    let pte := pt + 4 * pt_no va in
    let! e := load32 pte in
    if (Z.land e PTE_P =? 0) || (Z.land e PTE_W =? 0) then page_fault
    else
      let e := Z.lor (Z.lor e PTE_A) PTE_D in
      let! _ := store32 pte e in
      let! _ := modify (λ s, mk_vm (phys s) (init_page_dir s) (cr3 s) (<[pg_no va := e]> (tlb s))) in
      lift (ptov (Z.land e PTE_ADDR)).

Definition user_store (va v : Z) : V unit :=
  let! page := user_page va in
  on_ram (CString.store (page + pg_ofs va) v).

(** [memcpy] and [memmove] to the user address [dst] from a kernel address, which is
    above it: the bytes are copied upwards. *)
Fixpoint copy_to_user (n : nat) (dst src : Z) : V unit :=
  match n with
  | O => ret tt
  | S n =>
      let! c := on_ram (CString.load src) in
      let! _ := user_store dst c in
      copy_to_user n (dst + 1) (src + 1)
  end.

(** The same from a variable that holds the 32-bit number [v]. *)
Fixpoint bytes_to_user (n : nat) (dst v : Z) : V unit :=
  match n with
  | O => ret tt
  | S n =>
      let! _ := user_store dst (v `mod` 2 ^ 8) in
      bytes_to_user n (dst + 1) (Z.shiftr v 8)
  end.

(** ** ELF headers *)

Definition half_of (l : list Z) (k : nat) : Z := little_endian_to_Z 8 (take 2 (drop k l)).
Definition word_of (l : list Z) (k : nat) : Z := little_endian_to_Z 8 (take 4 (drop k l)).

Record Elf32_Ehdr := mk_ehdr {
  e_ident : list Z; e_type : Z; e_machine : Z; e_version : Z; e_entry : Z; e_phoff : Z;
  e_shoff : Z; e_flags : Z; e_ehsize : Z; e_phentsize : Z; e_phnum : Z; e_shentsize : Z;
  e_shnum : Z; e_shstrndx : Z }.

Definition decode_ehdr (l : list Z) : Elf32_Ehdr :=
  mk_ehdr (take 16 l) (half_of l 16) (half_of l 18) (word_of l 20) (word_of l 24) (word_of l 28)
    (word_of l 32) (word_of l 36) (half_of l 40) (half_of l 42) (half_of l 44) (half_of l 46)
    (half_of l 48) (half_of l 50).

Record Elf32_Phdr := mk_phdr {
  p_type : Z; p_offset : Z; p_vaddr : Z; p_paddr : Z; p_filesz : Z; p_memsz : Z; p_flags : Z; p_align : Z }.

Definition decode_phdr (l : list Z) : Elf32_Phdr :=
  mk_phdr (word_of l 0) (word_of l 4) (word_of l 8) (word_of l 12) (word_of l 16) (word_of l 20)
    (word_of l 24) (word_of l 28).

Definition SIZEOF_EHDR : Z := 52.
Definition SIZEOF_PHDR : Z := 32.

Definition PT_LOAD : Z := 1.
Definition PT_DYNAMIC : Z := 2.
Definition PT_INTERP : Z := 3.
Definition PT_SHLIB : Z := 5.
Definition PF_W : Z := 2.

Definition ELF_IDENT : list Z := [127; 69; 76; 70; 1; 1; 1].

Definition ehdr_valid (e : Elf32_Ehdr) : bool :=
  bool_decide (take 7 (e_ident e) = ELF_IDENT) && (e_type e =? 2) && (e_machine e =? 3) &&
  (e_version e =? 1) && (e_phentsize e =? SIZEOF_PHDR) && (e_phnum e <=? 1024).

Definition ROUND_UP (x step : Z) : Z := u32 (u32 (u32 (x + step) - 1) / step * step).

Section Process.
Context {mach : Machine}.
(** Bounds for the loops of the file system and of the strings. *)
Variable fuel : nat.
(** The amount of physical memory in pages, the page of the current thread and its
    working directory. *)
Variables init_ram_pages cur work_dir : Z.
(** Where [argument_maxlength] and the string literal " " are. *)
Variables argument_maxlength blank : Z.

(** ** The address space *)

Definition tss_update : P unit :=
  modify (λ s, mk_process (machine s) (fsys s) (pagedir s) (exec_file s) (u32 (cur + PGSIZE))).

Definition process_activate : P unit :=
  let! pd := gets pagedir in
  let! _ := on_vm (pagedir_activate pd) in
  tss_update.

Definition process_exit : P unit :=
  let! file := gets exec_file in
  let! _ := on_fs (file_close release1 file) in
  let! _ := on_fs (dir_close release1 work_dir) in
  let! pd := gets pagedir in
  if negb (pd =? NULL) then
    let! _ := modify (λ s, mk_process (machine s) (fsys s) NULL (exec_file s) (tss_esp0 s)) in
    let! _ := on_vm (pagedir_activate NULL) in
    on_vm (pagedir_destroy pd)
  else ret tt.

Definition install_page (upage kpage : Z) (writable : bool) : P bool :=
  let! pd := gets pagedir in
  let! page := on_vm (pagedir_get_page pd upage) in
  if page =? NULL then on_vm (pagedir_set_page init_ram_pages pd upage kpage writable)
  else ret false.

(** Returns the new stack pointer. *)
Definition setup_stack : P (option Z) :=
  let! kpage := on_vm (get_page (Z.lor PAL_USER PAL_ZERO)) in
  if negb (kpage =? NULL) then
    let! success := install_page (PHYS_BASE - PGSIZE) kpage true in
    if success then ret (Some PHYS_BASE)
    else
      let! _ := on_vm (free_page kpage) in
      ret None
  else ret None.

(** ** Segments *)

(** [file_read (file, a, size)] for memory at [a]. *)
Definition bytes_at (m : memory) (a n : Z) : list Z := m <$> seqZ a n.
Definition put_bytes (m : memory) (a : Z) (l : list Z) : memory :=
  λ x, if (a <=? x) && (x <? a + Z.of_nat (length l)) then default 0 (l !! Z.to_nat (x - a)) else m x.

Definition file_read_to (file a size : Z) : P Z :=
  let! buffer := gets (λ s, bytes_at (ram (phys (machine s))) a size) in
  let! '(n, buffer) := on_fs (file_read file buffer size) in
  let! _ := on_vm (modify (λ s, set_phys (set_ram (put_bytes (ram (phys s)) a buffer) (phys s)) s)) in
  ret n.

Fixpoint segment_loop (n : nat) (file upage read_bytes zero_bytes : Z) (writable : bool) : P bool :=
  match n with
  | O => out_of_fuel
  | S n =>
      if (0 <? read_bytes) || (0 <? zero_bytes) then
        let page_read_bytes := if read_bytes <? PGSIZE then read_bytes else PGSIZE in
        let page_zero_bytes := PGSIZE - page_read_bytes in
        let! kpage := on_vm (get_page PAL_USER) in
        if kpage =? NULL then ret false
        else
          let! r := file_read_to file kpage page_read_bytes in
          if negb (r =? page_read_bytes) then
            let! _ := on_vm (free_page kpage) in
            ret false
          else
            let! _ := on_vm (on_ram (CString.memset (kpage + page_read_bytes) 0 page_zero_bytes)) in
            let! ok := install_page upage kpage writable in
            if negb ok then
              let! _ := on_vm (free_page kpage) in
              ret false
            else
              segment_loop n file (u32 (upage + PGSIZE)) (u32 (read_bytes - page_read_bytes))
                (u32 (zero_bytes - page_zero_bytes)) writable
      else ret true
  end.

(** There are 2^20 pages. *)
Definition load_segment (file ofs upage read_bytes zero_bytes : Z) (writable : bool) : P bool :=
  let! _ := ASSERT (u32 (read_bytes + zero_bytes) `mod` PGSIZE =? 0) in
  let! _ := ASSERT (pg_ofs upage =? 0) in
  let! _ := ASSERT (ofs `rem` PGSIZE =? 0) in
  let! _ := on_fs (file_seek file ofs) in
  segment_loop (Z.to_nat (u32 (read_bytes + zero_bytes) / PGSIZE + 1)) file upage read_bytes zero_bytes writable.

Definition validate_segment (phdr : Elf32_Phdr) (file : Z) : P bool :=
  if negb (Z.land (p_offset phdr) PGMASK =? Z.land (p_vaddr phdr) PGMASK) then ret false
  else
    let! len := on_fs (file_length file) in
    if u32 len <? p_offset phdr then ret false
    else if p_memsz phdr <? p_filesz phdr then ret false
    else if p_memsz phdr =? 0 then ret false
    else if negb (is_user_vaddr (p_vaddr phdr)) then ret false
    else if negb (is_user_vaddr (u32 (p_vaddr phdr + p_memsz phdr))) then ret false
    else if u32 (p_vaddr phdr + p_memsz phdr) <? p_vaddr phdr then ret false
    else if p_vaddr phdr <? PGSIZE then ret false
    else ret true.

(** The [switch] of [load]; false stands for [goto done]. *)
Definition load_phdr (file : Z) (phdr : Elf32_Phdr) : P bool :=
  if (p_type phdr =? PT_DYNAMIC) || (p_type phdr =? PT_INTERP) || (p_type phdr =? PT_SHLIB) then ret false
  else if p_type phdr =? PT_LOAD then
    let! valid := validate_segment phdr file in
    if valid then
      let writable := negb (Z.land (p_flags phdr) PF_W =? 0) in
      let file_page := Z.land (p_offset phdr) (2 ^ 32 - 1 - PGMASK) in
      let mem_page := Z.land (p_vaddr phdr) (2 ^ 32 - 1 - PGMASK) in
      let page_offset := Z.land (p_vaddr phdr) PGMASK in
      let total := ROUND_UP (u32 (page_offset + p_memsz phdr)) PGSIZE in
      let read_bytes := if 0 <? p_filesz phdr then u32 (page_offset + p_filesz phdr) else 0 in
      let zero_bytes := if 0 <? p_filesz phdr then u32 (total - read_bytes) else total in
      load_segment file (s32 file_page) mem_page read_bytes zero_bytes writable
    else ret false
  else ret true.

Definition stack_bytes (n : nat) : list Z := take n (words_to_bytes stack_words).

Fixpoint phdr_loop (n : nat) (file file_ofs : Z) : P bool :=
  match n with
  | O => ret true
  | S n =>
      let! len := (if file_ofs <? 0 then ret 0 else on_fs (file_length file)) in
      if (file_ofs <? 0) || (len <? file_ofs) then ret false
      else
        let! _ := on_fs (file_seek file file_ofs) in
        let! '(r, buffer) := on_fs (file_read file (stack_bytes 32) SIZEOF_PHDR) in
        if negb (r =? SIZEOF_PHDR) then ret false
        else
          let! ok := load_phdr file (decode_phdr buffer) in
          if ok then phdr_loop n file (s32 (file_ofs + SIZEOF_PHDR)) else ret false
  end.

(** ** Arguments *)

Definition ARGUMENT_MAX_NUM : Z := 20.

(** The loop over the words; [args] is [argument_address], in order. *)
Fixpoint push_words (n : nat) (token save esp : Z) (args : list Z) : V (Z * list Z) :=
  match n with
  | O => out_of_fuel
  | S n =>
      if negb (token =? NULL) then
        let! len := on_ram (strlen fuel token) in
        let esp := u32 (esp - (len + 1)) in
        if ARGUMENT_MAX_NUM <=? Z.of_nat (length args) then undef
        else
          let! len := on_ram (strlen fuel token) in
          let! _ := copy_to_user (Z.to_nat (len + 1)) esp token in
          let! '(token, save) := on_ram (strtok_r fuel NULL blank save) in
          push_words n token save esp (args ++ [esp])
      else ret (esp, args)
  end.

(** The loop over [argument_address], from the last to the first. *)
Fixpoint push_pointers (rargs : list Z) (esp : Z) : V Z :=
  match rargs with
  | [] => ret esp
  | a :: rargs =>
      let esp := u32 (esp - 4) in
      let! _ := bytes_to_user 4 esp a in
      push_pointers rargs esp
  end.

Definition push_arguments (esp : Z) : V Z :=
  let! '(token, save) := on_ram (strtok_r fuel argument_maxlength blank NULL) in
  let! '(esp, args) := push_words fuel token save esp [] in
  let! esp := push_pointers (reverse args) (u32 (esp - 4)) in
  let l := esp in
  let esp := u32 (esp - 4) in
  let! _ := bytes_to_user 4 esp l in
  let esp := u32 (esp - 4) in
  let! _ := bytes_to_user 4 esp (Z.of_nat (length args)) in
  ret (u32 (esp - 4)).

(** ** [load] *)

(** The copy of the command line, in an array of 100 bytes. *)
Definition copy_command (file_name : Z) : V unit :=
  let! _ := on_ram (CString.memset argument_maxlength 0 100) in
  let! len := on_ram (strlen fuel file_name) in
  if 100 <? len then undef
  else
    let! _ := on_ram (CString.memcpy argument_maxlength file_name len) in
    ret tt.

(** The string at [a], for the file system. *)
Fixpoint string_at (n : nat) (a : Z) : B (list Z) :=
  match n with
  | O => out_of_fuel
  | S n =>
      let! c := CString.load a in
      if c =? 0 then ret []
      else let! s := string_at n (a + 1) in ret (c :: s)
  end.

(** [filesys_open] of the first word; [dir_lookup] asserts that the name is not null. *)
Definition open_executable (file_name : Z) : P Z :=
  let! '(token, _) := on_vm (on_ram (strtok_r fuel file_name blank NULL)) in
  if token =? NULL then
    let! dir := on_fs (dir_open_current release1 work_dir) in
    if dir =? NULL then on_fs (file_open release1 NULL) else panic
  else
    let! name := on_vm (on_ram (string_at fuel token)) in
    on_fs (filesys_open fuel work_dir name).

(** From the executable header on; returns the entry point and the stack pointer. *)
Definition load_file (file : Z) : P (option (Z * Z)) :=
  let! '(r, buffer) := on_fs (file_read file (stack_bytes 52) SIZEOF_EHDR) in
  let ehdr := decode_ehdr buffer in
  if negb (r =? SIZEOF_EHDR) || negb (ehdr_valid ehdr) then ret None
  else
    let! ok := phdr_loop (Z.to_nat (e_phnum ehdr)) file (s32 (e_phoff ehdr)) in
    if negb ok then ret None
    else
      let! esp := setup_stack in
      match esp with
      | None => ret None
      | Some esp =>
          let! esp := on_vm (push_arguments esp) in
          ret (Some (e_entry ehdr, esp))
      end.

Definition load_body (file_name : Z) : P (Z * option (Z * Z)) :=
  let! _ := on_vm (copy_command file_name) in
  let! pd := on_vm pagedir_create in
  let! _ := modify (λ s, mk_process (machine s) (fsys s) pd (exec_file s) (tss_esp0 s)) in
  if pd =? NULL then ret (NULL, None)
  else
    let! _ := process_activate in
    let! file := open_executable file_name in
    if file =? NULL then ret (NULL, None)
    else
      let! _ := on_fs (file_deny_write file) in
      let! r := load_file file in
      ret (file, r).

Definition load (file_name : Z) : P (option (Z * Z)) :=
  let! '(file, r) := load_body file_name in
  let! _ := modify (λ s, mk_process (machine s) (fsys s) (pagedir s) file (tss_esp0 s)) in
  ret r.
End Process.
