(* ===== verification/ProcessSpec.v ===== *)
(** * Loading a segment (userprog/process.c)

    A user page is taken from the allocator, filled from the executable and mapped:
    the bytes the new process sees at the addresses of a segment are those of the
    file, followed by zeros. *)

From S2P Require Import Prelude Bitmap Block Cache FsState Inode InodeView File FreeMap FileSpec Filesys.
From S2P Require Import Palloc Pagedir PagedirSpec PagedirLife CString CStringSpec Process.

(** ** Files that are read *)

(** The executable is open as [file], at position [pos] of the inode [d] at [p]. *)
Record executable (f : fs Cache.store) (file p : Z) (i : inode) (d : inode_disk) (pos : Z) : Prop := {
  ex_null : file ≠ NULL;
  ex_file : ∃ deny, files f !! file = Some (mk_file p pos deny);
  ex_opened : opened f p i d;
  ex_sector : sector i ≤ 20000000;
  ex_bytes : Forall (in_u 8) (content (dview f) d) }.

Lemma executable_length f file p i d pos : executable f file p i d pos →
  Z.of_nat (length (content (dview f) d)) = length_ d.
Proof.
  intros He. pose proof (ex_opened _ _ _ _ _ _ He) as Ho. pose proof (io_len _ _ _ _ (op_ok _ _ _ _ Ho)).
  rewrite (length_content (op_ok _ _ _ _ Ho) (λ x, dview_length f x (op_inv _ _ _ _ Ho))). lia.
Qed.

(** A change of the cache and of the position. *)
Lemma executable_moves f f1 file p i d pos pos' deny : executable f file p i d pos → evolves f f1 (dview f) →
  executable (set_files (<[file := mk_file p pos' deny]> (files f1)) f1) file p i d pos' ∧
  dview (set_files (<[file := mk_file p pos' deny]> (files f1)) f1) = dview f.
Proof.
  intros [Hn [dn Hf] Ho Hs Hb] Hev. pose proof (opened_quiet _ _ _ _ _ Ho Hev) as Ho1. pose proof (ev_view _ _ _ Hev) as Ev.
  split; [|done]. split; [done|exists deny; apply lookup_insert_eq| |done|by rewrite <-Ev in Hb]. by destruct Ho1.
Qed.

Lemma evolves_files f f1 g : evolves f f1 g → files f1 = files f.
Proof. intros Hev. pose proof (ev_memory _ _ _ Hev) as E. unfold InodeView.memory in E. congruence. Qed.

Lemma executable_quiet f f1 file p i d pos : executable f file p i d pos → evolves f f1 (dview f) →
  executable f1 file p i d pos.
Proof.
  intros [Hn Hf Ho Hs Hb] Hev. split; [done| |by eapply opened_quiet|done|by rewrite (ev_view _ _ _ Hev)].
  by rewrite (evolves_files _ _ _ Hev).
Qed.

Lemma file_seek_run f file p i d pos new : executable f file p i d pos → 0 ≤ new →
  ∃ f', file_seek file new f = Ok (tt, f') ∧ executable f' file p i d new ∧ dview f' = dview f.
Proof.
  intros [Hn [dn Hf] Ho Hs Hb] H0. unfold file_seek. rewrite (proj2 (Z.eqb_neq file NULL)), (proj2 (Z.leb_le 0 new)) by done.
  do 2 rewrite (bind_Ok (ASSERT _) _ f tt f) by done. unfold FsState.load_file.
  rewrite (bind_Ok _ _ f (mk_file p pos dn) f) by (by rewrite Hf). unfold store_file. rewrite Hf. simpl.
  eexists. split; [done|]. split; [|done]. split; [done|exists dn; apply lookup_insert_eq| |done|done]. by destruct Ho.
Qed.

Lemma file_length_run f file p i d pos : executable f file p i d pos →
  ∃ f', file_length file f = Ok (length_ d, f') ∧ executable f' file p i d pos ∧ dview f' = dview f.
Proof.
  intros He. pose proof He as [Hn [dn Hf] Ho Hs Hb]. unfold file_length. rewrite (proj2 (Z.eqb_neq file NULL)) by done.
  rewrite (bind_Ok (ASSERT _) _ f tt f) by done. unfold FsState.load_file.
  rewrite (bind_Ok _ _ f (mk_file p pos dn) f) by (by rewrite Hf).
  destruct (inode_length_ok _ _ _ _ Ho) as (f1 & E & Hev). exists f1. split; [done|].
  split; [by eapply executable_quiet|apply Hev].
Qed.

(** A read that the file is long enough for. *)
Lemma file_read_run f file p i d pos buf size : executable f file p i d pos →
  0 ≤ pos → 0 ≤ size ≤ Z.of_nat (length buf) → pos + size ≤ length_ d →
  ∃ f', file_read file buf size f
    = Ok ((size, take (Z.to_nat size) (drop (Z.to_nat pos) (content (dview f) d)) ++ drop (Z.to_nat size) buf), f') ∧
    executable f' file p i d (pos + size) ∧ dview f' = dview f.
Proof.
  intros He H0 Hsz Hlen. pose proof He as [Hn [dn Hf] Ho Hs Hb]. unfold file_read, FsState.load_file.
  rewrite (bind_Ok _ _ f (mk_file p pos dn) f) by (by rewrite Hf). simpl.
  pose proof (io_len _ _ _ _ (op_ok _ _ _ _ Ho)) as Hl.
  assert (∃ f1, inode_read_at p buf size pos f
    = Ok ((size, take (Z.to_nat size) (drop (Z.to_nat pos) (content (dview f) d)) ++ drop (Z.to_nat size) buf), f1) ∧
    evolves f f1 (dview f)) as (f1 & E & Hev).
  { destruct (decide (pos < length_ d)).
    - destruct (inode_read_at_ok f p i d buf size pos Ho Hs ltac:(lia) ltac:(lia) ltac:(lia)) as (f1 & E & Hev).
      exists f1. rewrite Z.min_l in E by lia. split; [|done]. rewrite E. unfold splice. rewrite take_0, app_nil_l, Nat.add_0_l.
      do 4 f_equal. f_equal. rewrite length_take, length_drop. pose proof (executable_length _ _ _ _ _ _ He). lia.
    - assert (size = 0) as -> by lia.
      destruct (inode_read_at_past f p i d buf 0 pos Ho Hs) as (f1 & E & Hev); [lia|lia|lia|].
      exists f1. split; [|done]. rewrite E. done. }
  rewrite (bind_Ok _ _ _ _ _ E). rewrite (bind_Ok _ _ f1 (mk_file p pos dn) f1) by (by rewrite (evolves_files _ _ _ Hev), Hf).
  simpl. unfold store_file. rewrite (bind_Ok _ _ f1 tt (set_files (<[file := mk_file p (pos + size) dn]> (files f1)) f1)).
  2:{ rewrite (evolves_files _ _ _ Hev), Hf. by rewrite swrap_id by (unfold in_s; lia). }
  eexists. split; [done|]. by apply (executable_moves f f1 file p i d pos).
Qed.

(** ** Memory of the user *)

(** Every page of the pool is in use. *)
Definition full (user : bool) (p : pools) : Prop :=
  ∀ i, 0 ≤ i < bit_cnt (used_map (get_pool user p)) → allocated user p (page (get_pool user p) i).

(** A page [a] of the user pool is taken. *)
Record taken (p : pools) (a : Z) (q : pools) : Prop := {
  tk_pools : pools_ok q;
  tk_same : same_pools p q;
  tk_new : ¬ allocated true p a;
  tk_alloc u b : allocated u q b ↔ allocated u p b ∨ u = true ∧ b = a;
  tk_ram x : ¬ a ≤ x < a + 4096 → ram q x = ram p x;
  tk_bytes : bytes_ok (ram p) → bytes_ok (ram q) }.

Lemma take_page v flags : pools_ok (phys v) → has_flag flags PAL_USER = true → has_flag flags PAL_ASSERT = false →
  full true (phys v) ∧ get_page flags v = Ok (NULL, v) ∨
  ∃ a q, get_page flags v = Ok (a, set_phys q v) ∧ a ≠ NULL ∧ taken (phys v) a q ∧
    ∀ x, a ≤ x < a + 4096 → ram q x = if has_flag flags PAL_ZERO then 0 else ram (phys v) x.
Proof.
  intros Hp Hu Hn. pose proof (palloc_get_multiple_ok flags 1 (phys v) Hp ltac:(lia)) as H. cbv zeta in H.
  rewrite Hu, Hn in H. unfold get_page, palloc_get_page.
  destruct H as [(a & q & E & Hq & Hs & Ha & _ & Hf & Hal & Hr)|[Hall E]]; rewrite E; [right|left].
  - exists a, q. split; [done|]. split; [done|]. destruct (Hf 0 ltac:(lia)) as [Hnew _].
    replace (a + 4096 * 0) with a in Hnew by lia. split; [split; try done|].
    + intros u b. rewrite Hal. assert ((∃ k, 0 ≤ k < 1 ∧ b = a + 4096 * k) ↔ b = a) as ->; [|done].
      split; [intros (k & ? & ->); lia|intros ->; exists 0; lia].
    + intros x Hx. by rewrite Hr, bool_decide_eq_false_2, andb_false_r by lia.
    + intros Hb x. rewrite Hr. by destruct (_ && _).
    + intros x Hx. rewrite Hr, bool_decide_eq_true_2, andb_true_r by lia. done.
  - split; [|cbn [obind]; by rewrite set_phys_id]. intros i Hi. destruct (Hall i ltac:(lia) ltac:(lia)) as (k & Hk & H).
    by replace (i + k) with i in H by lia.
Qed.

Section Segments.
Context (init_ram_pages : Z).

(** The address space [A] of a process: its pages come from the user pool, and no page
    is mapped twice. *)
Record user_space (v : vm) (pd : Z) (tabs : gmap Z Z) (A : gmap Z mapping) : Prop := {
  us_space : space v pd tabs A;
  us_tlb : tlb_ok v pd A;
  us_owned vp p : A !! vp = Some p → allocated true (phys v) (mp_kpage p);
  us_inj vp vp' p p' : A !! vp = Some p → A !! vp' = Some p' → mp_kpage p = mp_kpage p' → vp = vp';
  us_ram : base (user_pool (phys v)) + 4096 * bit_cnt (used_map (user_pool (phys v))) ≤ PHYS_BASE + 4096 * init_ram_pages }.

(** The byte the process reads at an address. *)
Definition user_byte (v : vm) (A : gmap Z mapping) (va : Z) : option Z :=
  (λ p, ram (phys v) (mp_kpage p + va `mod` 4096)) <$> A !! (va / 4096).

(** Pages may have been taken and tables added; all else is as it was. *)
Record grows (v v' : vm) (pd : Z) (tabs tabs' : gmap Z Z) : Prop := {
  gr_keeps : keeps v v' pd tabs;
  gr_tabs i pt : tabs' !! i = Some pt → tabs !! i = Some pt ∨ ¬ allocated false (phys v) pt;
  gr_regs : cr3 v' = cr3 v ∧ init_page_dir v' = init_page_dir v;
  gr_same : same_pools (phys v) (phys v');
  gr_low : low_same v v' }.

Lemma same_pools_trans p q r : same_pools p q → same_pools q r → same_pools p r.
Proof. intros H1 H2 u. destruct (H1 u), (H2 u). split; congruence. Qed.

Lemma grows_refl v pd tabs : grows v v pd tabs tabs.
Proof. split; try done. by left. Qed.

Lemma grows_trans v1 v2 v3 pd t1 t2 t3 A2 : space v2 pd t2 A2 →
  grows v1 v2 pd t1 t2 → grows v2 v3 pd t2 t3 → grows v1 v3 pd t1 t3.
Proof.
  intros Hs [K1 T1 [C1 I1] S1 L1] [K2 T2 [C2 I2] S2 L2]. pose proof (sp_ok _ _ _ _ Hs) as Hp. split.
  - intros u b Hb. destruct (K1 u b Hb) as [Hb2 R1]. destruct (K2 u b Hb2) as [Hb3 R2]. split; [done|].
    intros Hbd Hbt x Hx. rewrite R2; [by apply R1|done| |done]. intros i pt Hi ->.
    destruct (T1 i b Hi) as [?|Hn]; [by eapply Hbt|].
    assert (u = false) as -> by (eapply (allocated_once (phys v2)); [apply Hp|done|by destruct (po_table _ _ _ Hp _ _ Hi) as (_ & ? & _)]).
    done.
  - intros i pt Hi. destruct (T2 i pt Hi) as [Hi2|Hn]; [by apply T1|]. right. intros Hal. by destruct (K1 _ _ Hal).
  - split; congruence.
  - by eapply same_pools_trans.
  - intros x Hx. rewrite L2; [by apply L1|]. destruct (S1 false) as [E _]. simpl in E. lia.
Qed.

(** A page of the user is not the directory's own. *)
Lemma user_not_table v pd tabs A a : space v pd tabs A → allocated true (phys v) a →
  a ≠ pd ∧ ∀ i pt, tabs !! i = Some pt → pt ≠ a.
Proof.
  intros Hs Ha. pose proof (sp_ok _ _ _ _ Hs) as Hp. split.
  - intros ->. by pose proof (allocated_once _ _ _ _ (po_pools _ _ _ Hp) Ha (po_pd _ _ _ Hp)).
  - intros i pt Hi ->. destruct (po_table _ _ _ Hp _ _ Hi) as (_ & Hpt & _).
    by pose proof (allocated_once _ _ _ _ (po_pools _ _ _ Hp) Ha Hpt).
Qed.

(** Pages of the user keep their contents. *)
Lemma grows_byte v v' pd tabs tabs' A A' va b : user_space v pd tabs A → grows v v' pd tabs tabs' → A ⊆ A' →
  user_byte v A va = Some b → user_byte v' A' va = Some b.
Proof.
  intros Hus [Hk _ _ _ _] HA. unfold user_byte. intros (p & Hp & ->)%fmap_Some. apply fmap_Some. exists p.
  split; [by eapply lookup_weaken|]. pose proof (us_owned _ _ _ _ Hus _ _ Hp) as Hal. destruct (Hk true _ Hal) as [_ Hr].
  destruct (user_not_table _ _ _ _ _ (us_space _ _ _ _ Hus) Hal) as [Hd Htb]. symmetry. apply Hr; [done|done|].
  pose proof (Z.mod_pos_bound va 4096 ltac:(lia)). lia.
Qed.

(** A page of the user pool is a page that may be mapped. *)
Lemma user_page_props v pd tabs A a : user_space v pd tabs A → allocated true (phys v) a →
  kernel_page a ∧ (a - PHYS_BASE) / 4096 < init_ram_pages.
Proof.
  intros Hus Ha. pose proof (sp_ok _ _ _ _ (us_space _ _ _ _ Hus)) as Hp.
  destruct (allocated_page _ a (po_pools _ _ _ Hp) (po_base _ _ _ Hp) _ Ha) as [Hk _]. split; [done|].
  pose proof (us_ram _ _ _ _ Hus). destruct Ha as (i & Hi & -> & _). simpl in *. unfold page in *.
  apply Z.div_lt_upper_bound; lia.
Qed.

(** The state in which a page was taken and written to. *)
Lemma taken_space v pd tabs A a q m : user_space v pd tabs A → taken (phys v) a q → bytes_ok m →
  (∀ x, ¬ a ≤ x < a + 4096 → m x = ram (phys v) x) →
  let v' := set_phys (set_ram m q) v in
  user_space v' pd tabs A ∧ grows v v' pd tabs tabs ∧ allocated true (phys v') a ∧
  ∀ vp p, A !! vp = Some p → mp_kpage p ≠ a.
Proof.
  intros Hus [Hq Hs Hn Hal _ _] Hm Hmr v'. pose proof Hus as [Hsp Ht Ho Hi Hr]. pose proof (sp_ok _ _ _ _ Hsp) as Hp.
  assert (∀ u b, allocated u (phys v') b ↔ allocated u (phys v) b ∨ u = true ∧ b = a) as Hal'
    by (intros u b; simpl; rewrite allocated_ram; apply Hal).
  assert (allocated true (phys v') a) as Ha by (apply Hal'; by right).
  assert (PHYS_BASE ≤ base (kernel_pool (phys v'))) as Hb by (destruct (Hs false) as [E _]; simpl in *; rewrite E; apply Hp).
  assert (pools_ok (phys v')) as Hpo by (by apply set_ram_ok).
  destruct (allocated_page _ a Hpo Hb _ Ha) as [[Haa _] _].
  assert (∀ u b, allocated u (phys v) b → ∀ x, b ≤ x < b + 4096 → ram (phys v') x = ram (phys v) x) as Hram.
  { intros u b Hbal x Hx. apply Hmr. intros Hax. destruct (allocated_page _ b (po_pools _ _ _ Hp) (po_base _ _ _ Hp) _ Hbal) as [[Hba _] _].
    assert (b = a) as -> by (by apply (page_overlap b a x)).
    assert (u = true) as -> by (apply (allocated_once (phys v') a); [done|apply Hal'; by left|done]). done. }
  assert (∀ vp p, A !! vp = Some p → mp_kpage p ≠ a) as Hne by (intros vp p Hvp E; apply Ho in Hvp; by rewrite E in Hvp).
  split_and!; [|split|done|done].
  - split; [|done| |done|].
    + apply (space_kept v); try done; [by destruct (Hs false)|]. intros b Hb'.
      assert (allocated false (phys v) b) as Hbal.
      { destruct Hb' as [->|[i Hi']]; [apply Hp|]. by destruct (po_table _ _ _ Hp _ _ Hi') as (_ & ? & _). }
      split; [apply Hal'; by left|]. by apply (Hram false).
    + intros vp p Hvp. apply Hal'. left. by eapply Ho.
    + destruct (Hs true) as [E1 E2]. simpl in *. by rewrite E1, E2.
  - intros u b Hbal. split; [apply Hal'; by left|]. intros _ _. by apply (Hram u).
  - by left.
  - done.
  - intros u. destruct (Hs u). by destruct u.
  - intros x Hx. apply Hmr. pose proof (allocated_low _ _ _ Hpo Ha) as Hlow. destruct (Hs false) as [E _]. simpl in *. lia.
Qed.

(** ** One page *)

Lemma on_vm_Ok {X} (f : V X) s r v : f (machine s) = Ok (r, v) → on_vm f s = Ok (r, set_machine v s).
Proof. unfold on_vm. by intros ->. Qed.

Lemma on_fs_Ok {X} (g : M (fs Cache.store) X) s r f : g (fsys s) = Ok (r, f) → on_fs g s = Ok (r, set_fsys f s).
Proof. unfold on_fs. by intros ->. Qed.

Lemma on_ram_Ok {X} (f : B X) v r m : f (ram (phys v)) = Ok (r, m) → on_ram f v = Ok (r, set_phys (set_ram m (phys v)) v).
Proof. unfold on_ram. by intros ->. Qed.

Lemma set_machine_id s : set_machine (machine s) s = s.
Proof. by destruct s. Qed.

Lemma install_run s tabs A u a wr : user_space (machine s) (pagedir s) tabs A →
  allocated true (phys (machine s)) a → (∀ vp p, A !! vp = Some p → mp_kpage p ≠ a) →
  user_addr u → pg_ofs u = 0 → A !! (u / 4096) = None →
  full false (phys (machine s)) ∧ install_page init_ram_pages u a wr s = Ok (false, s) ∨
  ∃ v tabs', install_page init_ram_pages u a wr s = Ok (true, set_machine v s) ∧
    user_space v (pagedir s) tabs' (<[u / 4096 := mk_mapping a wr false false]> A) ∧
    grows (machine s) v (pagedir s) tabs tabs'.
Proof.
  intros Hus Ha Hne Hu Ho HA. pose proof Hus as [Hs Ht Hown Hinj Hr]. destruct (user_page_props _ _ _ _ _ Hus Ha) as [Hk Hlt].
  unfold install_page. erewrite (bind_Ok (gets pagedir)) by done.
  pose proof (get_run _ _ _ _ u Hs Hu) as E. rewrite HA in E. rewrite (bind_Ok _ _ _ _ _ (on_vm_Ok _ _ _ _ E)).
  rewrite set_machine_id, Z.eqb_refl.
  destruct (set_page_run init_ram_pages _ _ _ A u a wr Hs Ht) as [[E' En]|(v & tabs' & E' & Haf)]; [done|left|right].
  - rewrite (on_vm_Ok _ _ _ _ E'), set_machine_id. split; [|done]. pose proof (sp_ok _ _ _ _ Hs) as Hp.
    destruct (get_zero_page (phys (machine s)) PAL_ZERO (po_pools _ _ _ Hp)) as [(b & q & Eb & Hb & _)|[Hall _]]; [done|done| |].
    + rewrite Eb in En. congruence.
    + intros i Hi. by apply Hall.
  - exists v, tabs'. rewrite (on_vm_Ok _ _ _ _ E'). split; [done|]. destruct Haf as [Hs' Ht' Hk' Htb Hrg _ Hsm Hlow].
    assert (∀ b, allocated true (phys (machine s)) b → allocated true (phys v) b) as Hal by (intros b Hb; by apply (Hk' true)).
    split; [split; try done|by split].
    + intros vp p [[<- <-]|[_ Hvp]]%lookup_insert_Some; [by apply Hal|]. apply Hal. by eapply Hown.
    + intros vp vp' p p' [[<- <-]|[_ Hvp]]%lookup_insert_Some [[<- <-]|[_ Hvp']]%lookup_insert_Some E0; try done.
      * simpl in E0. by destruct (Hne _ _ Hvp').
      * by destruct (Hne _ _ Hvp).
      * by eapply Hinj.
    + destruct (Hsm true) as [E1 E2]. simpl in *. by rewrite E1, E2.
Qed.

(** A page that was taken and is not mapped is given back. *)
Lemma release_run v v0 pd tabs A a q : user_space v pd tabs A → grows v0 v pd tabs tabs → taken (phys v0) a q →
  allocated true (phys v) a → (∀ vp p, A !! vp = Some p → mp_kpage p ≠ a) →
  ∃ v', free_page a v = Ok (tt, v') ∧ user_space v' pd tabs A ∧ grows v0 v' pd tabs tabs ∧
    (full false (phys v) → full false (phys v')).
Proof.
  intros Hus Hg Htk Ha Hne. pose proof Hus as [Hs Ht Hown Hinj Hr]. pose proof (sp_ok _ _ _ _ Hs) as Hp.
  destruct (palloc_free_multiple_ok true (phys v) a 1 (po_pools _ _ _ Hp) ltac:(lia)) as (r & E & Hrp & Hsm & Hal & Hram & _).
  { intros k Hk. by replace (a + 4096 * k) with a by lia. }
  assert (∀ u b, allocated u r b ↔ allocated u (phys v) b ∧ ¬ (u = true ∧ b = a)) as Hal'.
  { intros u b. rewrite Hal. assert ((∃ k, 0 ≤ k < 1 ∧ b = a + 4096 * k) ↔ b = a) as ->; [|done].
    split; [intros (k & ? & ->); lia|intros ->; exists 0; lia]. }
  destruct (allocated_page _ a (po_pools _ _ _ Hp) (po_base _ _ _ Hp) _ Ha) as [[Haa _] _].
  assert (∀ u b, allocated u (phys v) b → b ≠ a → ∀ x, b ≤ x < b + 4096 → ram r x = ram (phys v) x) as Hrr.
  { intros u b Hb Hba x Hx. rewrite Hram. rewrite bool_decide_eq_false_2; [done|]. intros Hx'. apply Hba.
    destruct (allocated_page _ b (po_pools _ _ _ Hp) (po_base _ _ _ Hp) _ Hb) as [[Hbb _] _]. apply (page_overlap b a x); try done; lia. }
  assert (∀ b, allocated false (phys v) b → b ≠ a) as Hka
    by (intros b Hb ->; by pose proof (allocated_once _ _ _ _ (po_pools _ _ _ Hp) Hb Ha)).
  exists (set_phys r v). split; [unfold free_page, palloc_free_page; by rewrite E|]. split_and!.
  - split; [|done| |done|].
    + apply (space_kept v); try done; [|by destruct (Hsm false)|].
      { intros x. simpl. rewrite Hram. case_bool_decide; [done|]. apply Hp. }
      intros b Hb. assert (allocated false (phys v) b) as Hbal.
      { destruct Hb as [->|[i Hi]]; [apply Hp|]. by destruct (po_table _ _ _ Hp _ _ Hi) as (_ & ? & _). }
      split; [apply Hal'; split; [done|by intros [? _]]|]. apply (Hrr false); [done|by apply Hka].
    + intros vp p Hvp. apply Hal'. split; [by eapply Hown|]. intros [_ E']. by destruct (Hne _ _ Hvp).
    + destruct (Hsm true) as [E1 E2]. simpl in *. by rewrite E1, E2.
  - destruct Hg as [Hk Htb Hrg Hsm0 Hlow]. split; try done; [|by eapply same_pools_trans|].
    2:{ intros x Hx. simpl. rewrite <-(Hlow x Hx), Hram, bool_decide_eq_false_2; [done|].
        pose proof (allocated_low _ _ _ (po_pools _ _ _ Hp) Ha). destruct (Hsm0 false) as [E0 _]. simpl in E0. lia. }
    intros u b Hb.
    destruct (Hk u b Hb) as [Hbv Hbr].
    assert (b ≠ a) as Hba.
    { intros ->. assert (u = true) as -> by (eapply (allocated_once (phys v)); [apply Hp|done|done]). by apply (tk_new _ _ _ Htk). }
    split; [apply Hal'; split; [done|tauto]|]. intros H1 H2 x Hx. simpl. rewrite (Hrr u b) by done. by apply Hbr.
  - intros Hf i Hi. simpl. destruct (Hsm false) as [E1 E2]. simpl in *. rewrite E2 in Hi. apply Hal'.
    specialize (Hf i Hi). simpl in Hf. unfold page in *. rewrite E1. split; [done|by intros [? _]].
Qed.

(** ** Filling a page *)

Lemma put_bytes_in m a l x : a ≤ x < a + Z.of_nat (length l) → put_bytes m a l x = default 0 (l !! Z.to_nat (x - a)).
Proof. intros H. unfold put_bytes. by rewrite (proj2 (Z.leb_le _ _)), (proj2 (Z.ltb_lt _ _)) by lia. Qed.

Lemma put_bytes_out m a l x : ¬ a ≤ x < a + Z.of_nat (length l) → put_bytes m a l x = m x.
Proof.
  intros H. unfold put_bytes. destruct ((a <=? x) && (x <? a + Z.of_nat (length l))) eqn:E; [|done].
  apply andb_true_iff in E as [?%Z.leb_le ?%Z.ltb_lt]. lia.
Qed.

Lemma put_bytes_ok m a l : bytes_ok m → Forall (in_u 8) l → bytes_ok (put_bytes m a l).
Proof.
  intros Hm Hl x. destruct (decide (a ≤ x < a + Z.of_nat (length l))); [rewrite put_bytes_in by done|by rewrite put_bytes_out].
  destruct (l !! Z.to_nat (x - a)) as [b|] eqn:E; [|done]. by eapply Forall_lookup_1 in Hl.
Qed.

Lemma length_bytes_at m a n : 0 ≤ n → Z.of_nat (length (bytes_at m a n)) = n.
Proof. intros. unfold bytes_at. rewrite length_fmap, length_seqZ. lia. Qed.

Section File.
Context (file p : Z) (i : inode) (d : inode_disk).

(** The bytes [data] from position [pos] on, [n] of them and then zeros. *)
Definition image (data : list Z) (pos n k : Z) : Z :=
  if k <? n then default 0 (data !! Z.to_nat (pos + k)) else 0.

Lemma file_read_to_run s a n pos : executable (fsys s) file p i d pos → 0 ≤ pos → 0 ≤ n → pos + n ≤ length_ d →
  bytes_ok (ram (phys (machine s))) →
  ∃ f m, file_read_to file a n s = Ok (n, set_fsys f (set_machine (set_phys (set_ram m (phys (machine s))) (machine s)) s)) ∧
    executable f file p i d (pos + n) ∧ dview f = dview (fsys s) ∧ bytes_ok m ∧
    (∀ k, 0 ≤ k < n → m (a + k) = image (content (dview (fsys s)) d) pos n k) ∧
    (∀ x, ¬ a ≤ x < a + n → m x = ram (phys (machine s)) x).
Proof.
  intros He Hpos Hn Hlen Hm. unfold file_read_to. erewrite (bind_Ok (gets _)) by done.
  set (buf := bytes_at _ a n). pose proof (length_bytes_at (ram (phys (machine s))) a n Hn) as Hb. fold buf in Hb.
  destruct (file_read_run _ _ _ _ _ _ buf n He Hpos ltac:(lia) Hlen) as (f & E & He' & Ev).
  rewrite (bind_Ok _ _ _ _ _ (on_fs_Ok _ _ _ _ E)). rewrite (drop_ge buf) by lia. rewrite app_nil_r.
  set (l := take _ _). pose proof (executable_length _ _ _ _ _ _ He) as Hl.
  assert (Z.of_nat (length l) = n) as Hll by (unfold l; rewrite length_take, length_drop; lia).
  erewrite (bind_Ok (on_vm _)) by (by apply on_vm_Ok). eexists f, (put_bytes _ a l). split; [done|].
  split; [done|]. split; [done|]. split_and!.
  - apply put_bytes_ok; [done|]. apply Forall_take, Forall_drop. apply He.
  - intros k Hk. simpl. rewrite put_bytes_in by lia. unfold l, image. rewrite (proj2 (Z.ltb_lt k n)) by lia.
    rewrite lookup_take_lt, lookup_drop by lia. do 2 f_equal. lia.
  - intros x Hx. simpl. by rewrite put_bytes_out by lia.
Qed.

(** A round of the loop either ends it, for want of memory, or maps one more page. *)
Lemma segment_step m s tabs A upage rb zb pos wr n : user_space (machine s) (pagedir s) tabs A →
  executable (fsys s) file p i d pos → 0 ≤ pos → pos + rb ≤ length_ d → 0 ≤ rb → 0 ≤ zb → n = rb `min` 4096 →
  4096 ≤ rb + zb ≤ PHYS_BASE → user_addr upage → upage `mod` 4096 = 0 → A !! (upage / 4096) = None →
  (∃ v f pos', segment_loop init_ram_pages (S m) file upage rb zb wr s = Ok (false, set_fsys f (set_machine v s)) ∧
     user_space v (pagedir s) tabs A ∧ grows (machine s) v (pagedir s) tabs tabs ∧ executable f file p i d pos' ∧
     dview f = dview (fsys s) ∧ (full true (phys v) ∨ full false (phys v))) ∨
  ∃ v f tabs' a, segment_loop init_ram_pages (S m) file upage rb zb wr s
      = segment_loop init_ram_pages m file (upage + 4096) (rb - n) (zb - (4096 - n)) wr (set_fsys f (set_machine v s)) ∧
    user_space v (pagedir s) tabs' (<[upage / 4096 := mk_mapping a wr false false]> A) ∧
    grows (machine s) v (pagedir s) tabs tabs' ∧ executable f file p i d (pos + n) ∧ dview f = dview (fsys s) ∧
    ∀ k, 0 ≤ k < 4096 → ram (phys v) (a + k) = image (content (dview (fsys s)) d) pos n k.
Proof.
  intros Hus He H0 Hlen Hrb Hzb Hn Hsum Hu Hal HA. pose proof Hus as [Hs _ _ _ _]. pose proof (sp_ok _ _ _ _ Hs) as Hp.
  cbn [segment_loop]. assert ((0 <? rb) || (0 <? zb) = true) as ->.
  { destruct (Z.ltb_spec 0 rb); [done|]. apply Z.ltb_lt. lia. }
  change PGSIZE with 4096. assert ((if rb <? 4096 then rb else 4096) = n) as ->.
  { destruct (Z.ltb_spec rb 4096); lia. }
  destruct (take_page (machine s) PAL_USER (po_pools _ _ _ Hp)) as [[Hfull E]|(a & q & E & Ha & Htk & _)]; [done|done|left|].
  { exists (machine s), (fsys s), pos. rewrite (bind_Ok _ _ _ _ _ (on_vm_Ok _ _ _ _ E)), Z.eqb_refl.
    split; [by destruct s|]. split_and!; try done; [apply grows_refl|by left]. }
  rewrite (bind_Ok _ _ _ _ _ (on_vm_Ok _ _ _ _ E)), (proj2 (Z.eqb_neq a NULL)) by done.
  set (s1 := set_machine _ s). pose proof (tk_bytes _ _ _ Htk (po_bytes _ _ _ Hp)) as Hq.
  destruct (file_read_to_run s1 a n pos He H0 ltac:(lia) ltac:(lia) Hq) as (f & m1 & E1 & He1 & Ev1 & Hm1 & Hin & Hout).
  rewrite (bind_Ok _ _ _ _ _ E1), Z.eqb_refl. cbn [negb]. set (s2 := set_fsys f _).
  assert (0 < a) as Hpos by (pose proof (tk_pools _ _ _ Htk) as Hpo;
    destruct (proj2 (tk_alloc _ _ _ Htk true a) (or_intror (conj eq_refl eq_refl))) as (j & Hj & -> & _);
    pose proof (pool_start _ (get_pool_ok true q Hpo)); unfold page; lia).
  destruct (memset_run m1 (a + n) 0 (4096 - n) Hm1) as (m2 & E2 & Hm2 & Hmem); [unfold NULL; lia|lia|].
  erewrite (bind_Ok (on_vm _)) by (by apply on_vm_Ok, on_ram_Ok). set (s3 := set_machine _ s2).
  destruct (taken_space (machine s) (pagedir s) tabs A a q m2 Hus Htk Hm2) as (Hus3 & Hg3 & Ha3 & Hne).
  { intros x Hx. rewrite Hmem, bool_decide_eq_false_2 by lia. rewrite Hout by lia. by apply (tk_ram _ _ _ Htk). }
  assert (∀ k, 0 ≤ k < 4096 → m2 (a + k) = image (content (dview (fsys s)) d) pos n k) as Himg.
  { intros k Hk. rewrite Hmem. case_bool_decide.
    - unfold image. by rewrite (proj2 (Z.ltb_ge k n)) by lia.
    - apply Hin. lia. }
  assert (pg_ofs upage = 0) as Hofs by (by rewrite pg_ofs_mod).
  destruct (install_run s3 tabs A upage a wr Hus3 Ha3 Hne Hu Hofs HA) as [[Hf E3]|(v & tabs' & E3 & Hus4 & Hg4)];
    rewrite (bind_Ok _ _ _ _ _ E3); cbn [negb]; [left|right].
  - destruct (release_run (machine s3) (machine s) (pagedir s) tabs A a q Hus3 Hg3 Htk Ha3 Hne) as (v & E4 & Hus4 & Hg4 & Hf4).
    rewrite (bind_Ok _ _ _ _ _ (on_vm_Ok _ _ _ _ E4)). exists v, f, (pos + n). split; [done|]. split_and!; try done. right. by apply Hf4.
  - exists v, f, tabs', a. pose proof (us_space _ _ _ _ Hus3) as Hs3. split.
    { rewrite !uwrap_id; [done|unfold in_u, PHYS_BASE in *; lia..|].
      destruct Hu as [? Hu%Z.ltb_lt]. unfold in_u, PHYS_BASE in *. lia. }
    split_and!; try done; [by eapply grows_trans|]. intros k Hk. rewrite <-Himg by done.
    destruct (gr_keeps _ _ _ _ _ Hg4 true a Ha3) as [_ Hr].
    destruct (user_not_table _ _ _ _ _ Hs3 Ha3) as [Hd Htb]. apply Hr; [done|done|lia].
Qed.

(** ** The whole segment *)

(** What the pages from [upage] on hold when [n] bytes from [pos] on and then zeros were loaded. *)
Definition loaded (v : vm) (A : gmap Z mapping) (data : list Z) (upage size pos n : Z) (wr : bool) : Prop :=
  ∀ k, 0 ≤ k < size → user_byte v A (upage + k) = Some (image data pos n k) ∧
    mp_writable <$> A !! ((upage + k) / 4096) = Some wr.

(** The state after [size] bytes of memory from [upage] on were to be loaded. *)
Record seg_result (s : process) (tabs : gmap Z Z) (A : gmap Z mapping) (upage size pos n : Z) (wr b : bool)
    (v : vm) (f : fs Cache.store) (tabs' : gmap Z Z) (A' : gmap Z mapping) (pos' : Z) : Prop := {
  sr_space : user_space v (pagedir s) tabs' A';
  sr_grows : grows (machine s) v (pagedir s) tabs tabs';
  sr_file : executable f file p i d pos';
  sr_view : dview f = dview (fsys s);
  sr_map : A ⊆ A';
  sr_other vp : ¬ upage / 4096 ≤ vp < (upage + size) / 4096 → A' !! vp = A !! vp;
  sr_loaded : if b then loaded v A' (content (dview (fsys s)) d) upage size pos n wr
              else full true (phys v) ∨ full false (phys v) }.

Lemma page_div a k : a `mod` 4096 = 0 → (a + 4096 * k) / 4096 = a / 4096 + k.
Proof. intros. Z.to_euclidean_division_equations. lia. Qed.

Lemma page_split a x : a `mod` 4096 = 0 → 0 ≤ x < 4096 → (a + x) / 4096 = a / 4096 ∧ (a + x) `mod` 4096 = x.
Proof. intros. split; Z.to_euclidean_division_equations; lia. Qed.

Lemma segment_loop_run wr N : ∀ s tabs A upage rb zb pos, user_space (machine s) (pagedir s) tabs A →
  executable (fsys s) file p i d pos → 0 ≤ pos → pos + rb ≤ length_ d → 0 ≤ rb → 0 ≤ zb → rb + zb = 4096 * Z.of_nat N →
  0 ≤ upage → upage `mod` 4096 = 0 → upage + 4096 * Z.of_nat N ≤ PHYS_BASE →
  (∀ vp, upage / 4096 ≤ vp < upage / 4096 + Z.of_nat N → A !! vp = None) →
  ∃ b v f tabs' A' pos', segment_loop init_ram_pages (S N) file upage rb zb wr s = Ok (b, set_fsys f (set_machine v s)) ∧
    seg_result s tabs A upage (4096 * Z.of_nat N) pos rb wr b v f tabs' A' pos'.
Proof.
  induction N as [|N IH]; intros s tabs A upage rb zb pos Hus He H0 Hlen Hrb Hzb Hsum Hu0 Hua Hend HA.
  { assert (rb = 0) as -> by lia. assert (zb = 0) as -> by lia. exists true, (machine s), (fsys s), tabs, A, pos.
    split; [by destruct s|]. split; try done; [apply grows_refl|]. intros k Hk. lia. }
  set (n := rb `min` 4096). assert (user_addr upage) as Hu by (split; [done|]; apply Z.ltb_lt; lia).
  destruct (segment_step (S N) s tabs A upage rb zb pos wr n Hus He H0 Hlen Hrb Hzb eq_refl ltac:(lia) Hu Hua (HA (upage / 4096) ltac:(lia)))
    as [(v & f & pos' & E & H1 & H2 & H3 & H4 & H5)|(v & f & tabs1 & a & E & Hus1 & Hg1 & He1 & Ev1 & Himg)]; rewrite E.
  { exists false, v, f, tabs, A, pos'. split; [done|]. by split. }
  set (A1 := <[upage / 4096 := _]> A) in *. set (s1 := set_fsys f (set_machine v s)).
  destruct (IH s1 tabs1 A1 (upage + 4096) (rb - n) (zb - (4096 - n)) (pos + n) Hus1 He1)
    as (b & v' & f' & tabs' & A' & pos' & E' & [R1 R2 R3 R4 R5 R6 R7]); try lia.
  { by rewrite <-Z.add_mod_idemp_l, Hua by lia. }
  { replace (upage + 4096) with (upage + 4096 * 1) by lia. rewrite page_div by done. intros vp Hvp.
    unfold A1. rewrite lookup_insert_ne by lia. apply HA. lia. }
  exists b, v', f', tabs', A', pos'. split; [exact E'|]. change (pagedir s1) with (pagedir s) in *.
  change (machine s1) with v in *. change (fsys s1) with f in *. rewrite Ev1 in *.
  assert (A ⊆ A1) as HAA by (apply insert_subseteq, HA; lia).
  split; try done; [eapply grows_trans; [apply Hus1|done..]|by etrans| |].
  - intros vp Hvp. replace (upage + 4096 * Z.of_nat (S N)) with (upage + 4096 * (1 + Z.of_nat N)) in Hvp by lia.
    replace (upage + 4096 + 4096 * Z.of_nat N) with (upage + 4096 * (1 + Z.of_nat N)) in R6 by lia.
    replace (upage + 4096) with (upage + 4096 * 1) in R6 by lia. rewrite !page_div in * by done.
    rewrite R6 by lia. unfold A1. by rewrite lookup_insert_ne by lia.
  - destruct b; [|done]. intros k Hk. destruct (decide (k < 4096)) as [Hlt|Hge].
    + destruct (page_split upage k Hua ltac:(lia)) as [Ed Em].
      assert (A1 !! ((upage + k) / 4096) = Some (mk_mapping a wr false false)) as Hl by (rewrite Ed; apply lookup_insert_eq).
      split; [|by rewrite (lookup_weaken _ _ _ _ Hl R5)]. apply (grows_byte v v' (pagedir s) tabs1 tabs' A1 A'); try done.
      unfold user_byte. rewrite Hl, Em. simpl. rewrite Himg by lia. unfold image, n. f_equal.
      destruct (Z.ltb_spec k (rb `min` 4096)), (Z.ltb_spec k rb); try done; lia.
    + destruct (R7 (k - 4096) ltac:(lia)) as [B1 B2]. replace (upage + 4096 + (k - 4096)) with (upage + k) in * by lia.
      split; [|done]. rewrite B1. unfold image, n. f_equal.
      destruct (Z.ltb_spec (k - 4096) (rb - rb `min` 4096)), (Z.ltb_spec k rb); try done; try lia. do 2 f_equal. lia.
Qed.

Lemma load_segment_run s tabs A upage rb zb pos pos0 wr N : user_space (machine s) (pagedir s) tabs A →
  executable (fsys s) file p i d pos0 → 0 ≤ pos → pos `mod` 4096 = 0 → pos + rb ≤ length_ d → 0 ≤ rb → 0 ≤ zb →
  rb + zb = 4096 * Z.of_nat N → 0 ≤ upage → upage `mod` 4096 = 0 → upage + 4096 * Z.of_nat N ≤ PHYS_BASE →
  (∀ vp, upage / 4096 ≤ vp < upage / 4096 + Z.of_nat N → A !! vp = None) →
  ∃ b v f tabs' A' pos', load_segment init_ram_pages file pos upage rb zb wr s = Ok (b, set_fsys f (set_machine v s)) ∧
    seg_result s tabs A upage (4096 * Z.of_nat N) pos rb wr b v f tabs' A' pos'.
Proof.
  intros Hus He H0 Hpa Hlen Hrb Hzb Hsum Hu0 Hua Hend HA. unfold load_segment.
  rewrite (uwrap_id 32 (rb + zb)) by (unfold in_u, PHYS_BASE in *; lia). change PGSIZE with 4096. rewrite Hsum, pg_ofs_mod, Hua.
  rewrite Z.rem_mod_nonneg, Hpa by lia. rewrite (Z.mul_comm 4096), Z.mod_mul by lia.
  do 3 rewrite (bind_Ok (ASSERT _) _ s tt s) by done.
  destruct (file_seek_run _ _ _ _ _ _ pos He H0) as (f0 & E0 & He0 & Ev0).
  rewrite (bind_Ok _ _ _ _ _ (on_fs_Ok _ _ _ _ E0)). rewrite Z.div_mul by lia.
  replace (Z.to_nat (Z.of_nat N + 1)) with (S N) by lia.
  destruct (segment_loop_run wr N (set_fsys f0 s) tabs A upage rb zb pos) as (b & v & f & tabs' & A' & pos' & E & HR); try done.
  exists b, v, f, tabs', A', pos'. split; [by rewrite E|]. rewrite (Z.mul_comm _ 4096). destruct HR as [R1 R2 R3 R4 R5 R6 R7].
  simpl in *. rewrite Ev0 in *. by split.
Qed.

(** ** Program headers *)

(** What a header must satisfy to be loaded from a file of [len] bytes. *)
Definition seg_ok (len : Z) (h : Elf32_Phdr) : Prop :=
  p_offset h `mod` 4096 = p_vaddr h `mod` 4096 ∧ p_offset h ≤ len ∧ p_filesz h ≤ p_memsz h ∧ 0 < p_memsz h ∧
  4096 ≤ p_vaddr h ∧ p_vaddr h + p_memsz h < PHYS_BASE.

#[global] Instance seg_ok_dec len h : Decision (seg_ok len h).
Proof. unfold seg_ok. apply _. Defined.

(** The members are 32-bit numbers. *)
Definition phdr_wf (h : Elf32_Phdr) : Prop :=
  in_u 32 (p_offset h) ∧ in_u 32 (p_vaddr h) ∧ in_u 32 (p_filesz h) ∧ in_u 32 (p_memsz h).

Lemma validate_run s pos h : executable (fsys s) file p i d pos → phdr_wf h →
  ∃ f, validate_segment h file s = Ok (bool_decide (seg_ok (length_ d) h), set_fsys f s) ∧
    executable f file p i d pos ∧ dview f = dview (fsys s).
Proof.
  intros He (Ho & Hv & Hf & Hm). destruct (file_length_run _ _ _ _ _ _ He) as (f & E & He' & Ev).
  pose proof (io_len _ _ _ _ (op_ok _ _ _ _ (ex_opened _ _ _ _ _ _ He))) as Hlen.
  unfold validate_segment. change (Z.land (p_offset h) PGMASK) with (pg_ofs (p_offset h)).
  change (Z.land (p_vaddr h) PGMASK) with (pg_ofs (p_vaddr h)). rewrite !pg_ofs_mod.
  destruct (Z.eqb_spec (p_offset h `mod` 4096) (p_vaddr h `mod` 4096)) as [Ea|Ha]; cbn [negb].
  2:{ exists (fsys s). rewrite bool_decide_eq_false_2 by (intros (? & _); done). split; [by destruct s|done]. }
  rewrite (bind_Ok _ _ _ _ _ (on_fs_Ok _ _ _ _ E)). exists f. split; [|done].
  rewrite (uwrap_id 32 (length_ d)) by (unfold in_u; lia). unfold is_user_vaddr. change PGSIZE with 4096.
  assert (∀ b, bool_decide (seg_ok (length_ d) h) = b →
    ret b (set_fsys f s) = Ok (bool_decide (seg_ok (length_ d) h), set_fsys f s)) as Hret by (by intros b ->).
  unfold seg_ok in Hret at 1.
  unfold in_u in *. destruct (Z.ltb_spec (length_ d) (p_offset h)); [apply Hret, bool_decide_eq_false_2; lia|].
  destruct (Z.ltb_spec (p_memsz h) (p_filesz h)); [apply Hret, bool_decide_eq_false_2; lia|].
  destruct (Z.eqb_spec (p_memsz h) 0); [apply Hret, bool_decide_eq_false_2; lia|].
  destruct (Z.ltb_spec (p_vaddr h) PHYS_BASE); cbn [negb]; [|apply Hret, bool_decide_eq_false_2; lia].
  assert (u32 (p_vaddr h + p_memsz h) = p_vaddr h + p_memsz h ∨
    2 ^ 32 ≤ p_vaddr h + p_memsz h ∧ u32 (p_vaddr h + p_memsz h) < p_vaddr h) as [-> | [Hw Hlt]].
  { unfold uwrap. destruct (decide (p_vaddr h + p_memsz h < 2 ^ 32)); [left; apply Z.mod_small; lia|right].
    split; [lia|]. rewrite <-(Z.mod_unique_pos _ _ 1 (p_vaddr h + p_memsz h - 2 ^ 32)) by lia. lia. }
  - destruct (Z.ltb_spec (p_vaddr h + p_memsz h) PHYS_BASE); cbn [negb]; [|apply Hret, bool_decide_eq_false_2; lia].
    rewrite (proj2 (Z.ltb_ge _ _)) by lia.
    destruct (Z.ltb_spec (p_vaddr h) 4096); [apply Hret, bool_decide_eq_false_2; lia|].
    apply Hret, bool_decide_eq_true_2. lia.
  - rewrite (proj2 (Z.ltb_lt (u32 _) (p_vaddr h))) by done. rewrite (proj2 (Z.ltb_lt _ PHYS_BASE)) by lia. cbn [negb].
    apply Hret, bool_decide_eq_false_2. unfold PHYS_BASE. lia.
Qed.

Lemma round_up_eq x : 0 ≤ x → x + 4096 < 2 ^ 32 → ROUND_UP x 4096 = 4096 * ((x + 4095) / 4096).
Proof.
  intros H0 Hx. unfold ROUND_UP. rewrite (uwrap_id 32 (x + 4096)) by (unfold in_u; lia).
  rewrite (uwrap_id 32 (x + 4096 - 1)) by (unfold in_u; lia). replace (x + 4096 - 1) with (x + 4095) by lia.
  rewrite uwrap_id by (unfold in_u; Z.to_euclidean_division_equations; lia). lia.
Qed.

(** The bytes of a segment as its header describes them: those of the file, then zeros. *)
Definition segment_loaded (v : vm) (A : gmap Z mapping) (data : list Z) (h : Elf32_Phdr) : Prop :=
  ∀ k, 0 ≤ k < p_memsz h →
    user_byte v A (p_vaddr h + k) = Some (if k <? p_filesz h then default 0 (data !! Z.to_nat (p_offset h + k)) else 0) ∧
    mp_writable <$> A !! ((p_vaddr h + k) / 4096) = Some (negb (Z.land (p_flags h) PF_W =? 0)).

(** The pages of a segment. *)
Definition seg_page (h : Elf32_Phdr) (vp : Z) : Prop :=
  p_vaddr h / 4096 ≤ vp ≤ (p_vaddr h + p_memsz h - 1) / 4096.

(** The page-aligned area around a segment. *)
Lemma seg_layout h len : phdr_wf h → seg_ok len h → let o := p_vaddr h `mod` 4096 in
  ∃ N, 0 ≤ o < 4096 ∧ o ≤ p_offset h ∧ o ≤ p_vaddr h ∧ 0 ≤ N ∧ o + p_memsz h ≤ 4096 * N < o + p_memsz h + 4096 ∧
    ROUND_UP (u32 (o + p_memsz h)) PGSIZE = 4096 * N ∧ (p_vaddr h - o) `mod` 4096 = 0 ∧ (p_offset h - o) `mod` 4096 = 0 ∧
    (p_vaddr h - o) / 4096 = p_vaddr h / 4096 ∧ (p_vaddr h + p_memsz h - 1) / 4096 = p_vaddr h / 4096 + N - 1 ∧
    p_vaddr h - o + 4096 * N ≤ PHYS_BASE.
Proof.
  intros (Ho & Hv & Hf & Hm) (Ha & Hol & Hfm & Hm0 & Hv4 & Hend) o. unfold in_u, PHYS_BASE in *.
  exists ((o + p_memsz h + 4095) / 4096). assert (0 ≤ o < 4096) as Hor by (by apply Z.mod_pos_bound).
  assert (o ≤ p_vaddr h) as Hov by (apply Z.mod_le; lia).
  assert (o ≤ p_offset h) as Hoo by (unfold o; rewrite <-Ha; apply Z.mod_le; lia).
  rewrite (uwrap_id 32 (o + p_memsz h)) by (unfold in_u; lia). rewrite round_up_eq by lia. unfold o in *.
  split_and!; try done; clear Ho Hv Hf Hm; Z.to_euclidean_division_equations; lia.
Qed.

Lemma load_phdr_run s tabs A pos h : user_space (machine s) (pagedir s) tabs A → executable (fsys s) file p i d pos →
  phdr_wf h → p_type h = PT_LOAD → seg_ok (length_ d) h → (0 < p_filesz h → p_offset h + p_filesz h ≤ length_ d) →
  (∀ vp, seg_page h vp → A !! vp = None) →
  ∃ b v f tabs' A' pos', load_phdr init_ram_pages file h s = Ok (b, set_fsys f (set_machine v s)) ∧
    user_space v (pagedir s) tabs' A' ∧ grows (machine s) v (pagedir s) tabs tabs' ∧ executable f file p i d pos' ∧
    dview f = dview (fsys s) ∧ A ⊆ A' ∧ (∀ vp, ¬ seg_page h vp → A' !! vp = A !! vp) ∧
    if b then segment_loaded v A' (content (dview (fsys s)) d) h else full true (phys v) ∨ full false (phys v).
Proof.
  intros Hus He Hwf Ht Hok Hfs HA. destruct (validate_run s pos h He Hwf) as (f0 & E0 & He0 & Ev0).
  rewrite bool_decide_eq_true_2 in E0 by done. unfold load_phdr. rewrite Ht. cbn [Z.eqb orb PT_LOAD PT_DYNAMIC PT_INTERP PT_SHLIB Pos.eqb].
  rewrite (bind_Ok _ _ _ _ _ E0). destruct (seg_layout h _ Hwf Hok) as (N & Hor & Hoo & Hov & HN & Hbnd & ERU & Hup & Hop & Eup & Elast & Hend).
  destruct Hwf as (Ho & Hv & Hf & Hm). destruct Hok as (Ha & Hol & Hfm & Hm0 & Hv4 & Hend').
  change (Z.land (p_offset h) (2 ^ 32 - 1 - PGMASK)) with (pg_round_down (p_offset h)).
  change (Z.land (p_vaddr h) (2 ^ 32 - 1 - PGMASK)) with (pg_round_down (p_vaddr h)).
  change (Z.land (p_vaddr h) PGMASK) with (pg_ofs (p_vaddr h)). rewrite pg_ofs_mod, !pg_round_down_eq by done. rewrite Ha, ERU.
  set (o := p_vaddr h `mod` 4096) in *. set (n := if 0 <? p_filesz h then o + p_filesz h else 0).
  assert (0 ≤ n ≤ o + p_memsz h ∧ p_offset h - o + n ≤ length_ d) as [Hn Hnl]
    by (unfold n, in_u in *; destruct (Z.ltb_spec 0 (p_filesz h)); lia).
  assert ((if 0 <? p_filesz h then u32 (o + p_filesz h) else 0) = n) as ->.
  { unfold n. destruct (0 <? _); [|done]. apply uwrap_id. unfold in_u, PHYS_BASE in *. lia. }
  assert ((if 0 <? p_filesz h then u32 (4096 * N - n) else 4096 * N) = 4096 * N - n) as ->.
  { unfold n. destruct (Z.ltb_spec 0 (p_filesz h)); [|lia]. apply uwrap_id. unfold in_u, PHYS_BASE in *. lia. }
  rewrite (swrap_id 32 (p_offset h - o)) by (pose proof (io_len _ _ _ _ (op_ok _ _ _ _ (ex_opened _ _ _ _ _ _ He))); unfold in_s; lia).
  destruct (load_segment_run (set_fsys f0 s) tabs A (p_vaddr h - o) n (4096 * N - n) (p_offset h - o) pos
    (negb (Z.land (p_flags h) PF_W =? 0)) (Z.to_nat N)) as (b & v & f & tabs' & A' & pos' & E & [R1 R2 R3 R4 R5 R6 R7]);
    try done; rewrite ?Z2Nat.id by done; try lia.
  { rewrite Eup. intros vp Hvp. apply HA. unfold seg_page. lia. }
  rewrite Z2Nat.id in * by done. exists b, v, f, tabs', A', pos'. split; [exact E|]. change (fsys (set_fsys f0 s)) with f0 in *. rewrite Ev0 in *.
  split_and!; try done.
  - intros vp Hvp. apply R6. rewrite page_div, Eup by done. unfold seg_page in Hvp. lia.
  - destruct b; [|done]. intros k Hk. destruct (R7 (o + k) ltac:(lia)) as [B1 B2].
    replace (p_vaddr h - o + (o + k)) with (p_vaddr h + k) in * by lia. split; [|done]. rewrite B1. unfold image, n.
    destruct (Z.ltb_spec 0 (p_filesz h)), (Z.ltb_spec k (p_filesz h)); repeat case_match; try done; try lia. do 3 f_equal. lia.
Qed.

(** ** All segments *)

(** The header at an offset of the file. *)
Definition phdr_at (data : list Z) (off : Z) : Elf32_Phdr := decode_phdr (take 32 (drop (Z.to_nat off) data)).

Lemma word_of_u32 l k : Forall (in_u 8) l → in_u 32 (word_of l k).
Proof.
  intros Hl. unfold word_of. set (w := take 4 _). assert (Forall (λ b, 0 ≤ b < 2 ^ 8) w) as Hw by (apply Forall_take, Forall_drop; done).
  pose proof (little_endian_to_Z_bound 8 w ltac:(lia) Hw) as Hb. assert (length w ≤ 4)%nat as Hlen by (unfold w; rewrite length_take; lia).
  assert (2 ^ (Z.of_nat (length w) * 8) ≤ 2 ^ 32) by (apply Z.pow_le_mono_r; lia). unfold in_u. lia.
Qed.

Lemma phdr_at_wf data off : Forall (in_u 8) data → phdr_wf (phdr_at data off).
Proof. intros H. repeat split; apply word_of_u32, Forall_take, Forall_drop, H. Qed.

Definition load_page (h : Elf32_Phdr) (vp : Z) : Prop := p_type h = PT_LOAD ∧ seg_page h vp.

#[global] Instance load_page_dec h vp : Decision (load_page h vp).
Proof. unfold load_page, seg_page. apply _. Defined.

(** Every header is ignored or describes a segment of the file, and the segments have no
    page in common. *)
Definition phdr_ok (h : Elf32_Phdr) : Prop :=
  (p_type h ∉ [PT_DYNAMIC; PT_INTERP; PT_SHLIB]) ∧
  (p_type h = PT_LOAD → seg_ok (length_ d) h ∧ (0 < p_filesz h → p_offset h + p_filesz h ≤ length_ d)).
Fixpoint apart (hs : list Elf32_Phdr) : Prop :=
  match hs with
  | [] => True
  | h :: hs => (∀ vp, load_page h vp → ∀ h', h' ∈ hs → ¬ load_page h' vp) ∧ apart hs
  end.

Lemma segment_loaded_grows v v' pd tabs tabs' A A' data h : user_space v pd tabs A → grows v v' pd tabs tabs' → A ⊆ A' →
  segment_loaded v A data h → segment_loaded v' A' data h.
Proof.
  intros Hus Hg HA H k Hk. destruct (H k Hk) as [H1 H2]. split; [by eapply grows_byte|].
  destruct (A !! ((p_vaddr h + k) / 4096)) as [m|] eqn:E; [|done]. by rewrite (lookup_weaken _ _ _ _ E HA).
Qed.

(** Everything a run of the loader keeps, and what it achieved. *)
Record load_result (s : process) (tabs : gmap Z Z) (A : gmap Z mapping) (hs : list Elf32_Phdr) (data : list Z) (b : bool)
    (v : vm) (f : fs Cache.store) (tabs' : gmap Z Z) (A' : gmap Z mapping) : Prop := {
  lr_space : user_space v (pagedir s) tabs' A';
  lr_grows : grows (machine s) v (pagedir s) tabs tabs';
  lr_view : dview f = dview (fsys s);
  lr_map : A ⊆ A';
  lr_other vp : (∀ h, h ∈ hs → ¬ load_page h vp) → A' !! vp = A !! vp;
  lr_loaded : if b then ∀ h, h ∈ hs → p_type h = PT_LOAD → segment_loaded v A' data h
              else full true (phys v) ∨ full false (phys v) }.

Lemma load_result_nil s tabs A data : user_space (machine s) (pagedir s) tabs A →
  load_result s tabs A [] data true (machine s) (fsys s) tabs A.
Proof. intros Hus. split; try done; [apply grows_refl|]. by intros h ?%not_elem_of_nil. Qed.

Lemma phdr_step s tabs A pos h : user_space (machine s) (pagedir s) tabs A → executable (fsys s) file p i d pos →
  phdr_wf h → phdr_ok h → (∀ vp, load_page h vp → A !! vp = None) →
  ∃ b v f tabs' A' pos', load_phdr init_ram_pages file h s = Ok (b, set_fsys f (set_machine v s)) ∧
    executable f file p i d pos' ∧ load_result s tabs A [h] (content (dview (fsys s)) d) b v f tabs' A'.
Proof.
  intros Hus He Hwf [Hty Hld] HA. destruct (decide (p_type h = PT_LOAD)) as [Ht|Ht].
  - destruct (Hld Ht) as [Hok Hfs].
    destruct (load_phdr_run s tabs A pos h Hus He Hwf Ht Hok Hfs) as (b & v & f & tabs' & A' & pos' & E & R1 & R2 & R3 & R4 & R5 & R6 & R7).
    { intros vp Hvp. by apply HA. }
    exists b, v, f, tabs', A', pos'. split; [done|]. split; [done|]. split; try done.
    + intros vp Hvp. apply R6. intros Hs. apply (Hvp h); [set_solver|done].
    + destruct b; [|done]. by intros h' ->%list_elem_of_singleton _.
  - exists true, (machine s), (fsys s), tabs, A, pos. split; [|split; [done|]].
    + unfold load_phdr. rewrite (proj2 (Z.eqb_neq _ PT_LOAD)) by done.
      rewrite !(proj2 (Z.eqb_neq _ _)) by (intros E; apply Hty; rewrite E; set_solver). by destruct s.
    + split; try done; [apply grows_refl|]. by intros h' ->%list_elem_of_singleton.
Qed.

Lemma load_result_cons s tabs A h hs data v f tabs1 A1 b v' f' tabs' A' :
  load_result s tabs A [h] data true v f tabs1 A1 →
  load_result (set_fsys f (set_machine v s)) tabs1 A1 hs data b v' f' tabs' A' →
  load_result s tabs A (h :: hs) data b v' f' tabs' A'.
Proof.
  intros [R1 R2 R3 R4 R5 R6] [T1 T2 T3 T4 T5 T6]. split; try done.
  - eapply grows_trans; [apply R1|done..].
  - etrans; [exact T3|exact R3].
  - by etrans.
  - intros vp Hvp. rewrite T5 by (intros h' Hh'; apply Hvp; by right). apply R5. intros h' ->%list_elem_of_singleton. apply Hvp. by left.
  - destruct b; [|done]. intros h' [->|Hh']%elem_of_cons Ht; [|by apply T6].
    eapply segment_loaded_grows; [exact R1|exact T2|done|]. apply R6; [set_solver|done].
Qed.

Context {mach : Machine}.

Lemma read_header f pos off n : executable f file p i d pos → (n ≤ length (words_to_bytes stack_words))%nat → 0 ≤ off →
  off + Z.of_nat n ≤ length_ d → pos = off →
  ∃ f', file_read file (stack_bytes n) (Z.of_nat n) f = Ok ((Z.of_nat n, take n (drop (Z.to_nat off) (content (dview f) d))), f') ∧
    executable f' file p i d (off + Z.of_nat n) ∧ dview f' = dview f.
Proof.
  intros He Hst H0 Hlen ->. assert (length (stack_bytes n) = n) as Hsb by (unfold stack_bytes; rewrite length_take; lia).
  destruct (file_read_run f _ _ _ _ _ (stack_bytes n) (Z.of_nat n) He H0) as (f' & E & He' & Ev); [rewrite Hsb; lia|lia|].
  exists f'. split; [|done]. rewrite E, Nat2Z.id. rewrite (drop_ge (stack_bytes n)) by lia. by rewrite app_nil_r.
Qed.

Lemma phdr_loop_run data hs : (32 ≤ length (words_to_bytes stack_words))%nat → ∀ s tabs A off pos,
  user_space (machine s) (pagedir s) tabs A → executable (fsys s) file p i d pos → content (dview (fsys s)) d = data →
  0 ≤ off → off + 32 * Z.of_nat (length hs) ≤ length_ d →
  (∀ j h, hs !! j = Some h → h = phdr_at data (off + 32 * Z.of_nat j)) → Forall phdr_ok hs → apart hs →
  (∀ h vp, h ∈ hs → load_page h vp → A !! vp = None) →
  ∃ b v f tabs' A' pos', phdr_loop init_ram_pages (length hs) file off s = Ok (b, set_fsys f (set_machine v s)) ∧
    executable f file p i d pos' ∧ load_result s tabs A hs data b v f tabs' A'.
Proof.
  intros Hst. induction hs as [|h hs IH]; intros s tabs A off pos Hus He Hd H0 Hlen Hat Hok Hap HA.
  { exists true, (machine s), (fsys s), tabs, A, pos. split; [by destruct s|]. split; [done|by apply load_result_nil]. }
  cbn [length] in *. apply list.Forall_cons in Hok as [Hok1 Hok]. destruct Hap as [Hap1 Hap].
  pose proof (io_len _ _ _ _ (op_ok _ _ _ _ (ex_opened _ _ _ _ _ _ He))) as Hl.
  cbn [phdr_loop]. rewrite (proj2 (Z.ltb_ge off 0)) by lia.
  destruct (file_length_run _ _ _ _ _ _ He) as (f1 & E1 & He1 & Ev1). rewrite (bind_Ok _ _ _ _ _ (on_fs_Ok _ _ _ _ E1)).
  rewrite (proj2 (Z.ltb_ge (length_ d) off)) by lia. cbn [orb].
  destruct (file_seek_run f1 _ _ _ _ _ off He1 H0) as (f2 & E2 & He2 & Ev2). erewrite (bind_Ok (on_fs (file_seek _ _))) by (by apply on_fs_Ok).
  destruct (read_header f2 off off 32 He2 Hst H0 ltac:(lia) eq_refl) as (f3 & E3 & He3 & Ev3).
  erewrite (bind_Ok (on_fs (file_read _ _ _))) by (apply on_fs_Ok; exact E3).
  cbv beta iota. change (negb (Z.of_nat 32 =? SIZEOF_PHDR)) with false. cbv iota.
  assert (content (dview f3) d = data) as Hd3 by (by rewrite Ev3, Ev2, Ev1).
  rewrite Ev2, Ev1, Hd. change (decode_phdr (take 32 (drop (Z.to_nat off) data))) with (phdr_at data off).
  pose proof (Hat O h eq_refl) as Eh. rewrite Z.add_0_r in Eh. rewrite <-Eh. set (s3 := set_fsys f3 _).
  destruct (phdr_step s3 tabs A (off + 32) h Hus He3) as (b & v & f & tabs1 & A1 & pos1 & E & He4 & HR); [|done| |].
  { rewrite Eh. apply phdr_at_wf. rewrite <-Hd. apply He. } { intros vp Hvp. apply (HA h); [by left|done]. }
  rewrite (bind_Ok _ _ _ _ _ E). change (fsys s3) with f3 in *. rewrite Hd3 in HR.
  assert (load_result s tabs A [h] data b v f tabs1 A1) as HR'.
  { destruct HR as [R1 R2 R3 R4 R5 R6]. split; try done. rewrite R3. etrans; [exact Ev3|]. by rewrite Ev2, Ev1. }
  destruct b.
  2:{ exists false, v, f, tabs1, A1, pos1. split; [done|]. split; [done|]. destruct HR' as [R1 R2 R3 R4 R5 R6]. split; try done.
      intros vp Hvp. apply R5. intros h' ->%list_elem_of_singleton. apply Hvp. by left. }
  rewrite swrap_id by (unfold in_s, SIZEOF_PHDR; lia).
  destruct (IH (set_fsys f (set_machine v s3)) tabs1 A1 (off + 32) pos1) as (b & v' & f' & tabs' & A' & pos' & E' & He' & HR2); try done.
  { apply HR'. } { etrans; [|exact Hd]. f_equal. apply HR'. } { lia. } { lia. }
  { intros j h' Hj. rewrite (Hat (S j) h' Hj). f_equal. lia. }
  { intros h' vp Hh' Hlp. rewrite (lr_other _ _ _ _ _ _ _ _ _ _ HR').
    - apply (HA h'); [by right|done].
    - intros h'' ->%list_elem_of_singleton Hlp'. by apply (Hap1 vp Hlp' h'). }
  exists b, v', f', tabs', A', pos'. split; [exact E'|]. split; [done|]. by eapply load_result_cons.
Qed.
End File.

(** ** The stack page *)

Lemma setup_stack_run s tabs A : user_space (machine s) (pagedir s) tabs A → A !! (USER_PAGES - 1) = None →
  (∃ v, setup_stack init_ram_pages s = Ok (None, set_machine v s) ∧ user_space v (pagedir s) tabs A ∧
     grows (machine s) v (pagedir s) tabs tabs ∧ (full true (phys v) ∨ full false (phys v))) ∨
  ∃ v tabs' a, setup_stack init_ram_pages s = Ok (Some PHYS_BASE, set_machine v s) ∧
    user_space v (pagedir s) tabs' (<[USER_PAGES - 1 := mk_mapping a true false false]> A) ∧
    grows (machine s) v (pagedir s) tabs tabs' ∧ ∀ k, 0 ≤ k < 4096 → ram (phys v) (a + k) = 0.
Proof.
  intros Hus HA. pose proof Hus as [Hs _ _ _ _]. pose proof (sp_ok _ _ _ _ Hs) as Hp. unfold setup_stack.
  destruct (take_page (machine s) (Z.lor PAL_USER PAL_ZERO) (po_pools _ _ _ Hp)) as [[Hf E]|(a & q & E & Ha & Htk & Hz)]; [done|done|left|].
  { exists (machine s). rewrite (bind_Ok _ _ _ _ _ (on_vm_Ok _ _ _ _ E)). split; [done|]. split_and!; try done; [apply grows_refl|by left]. }
  rewrite (bind_Ok _ _ _ _ _ (on_vm_Ok _ _ _ _ E)), (proj2 (Z.eqb_neq a NULL)) by done. cbn [negb].
  destruct (taken_space (machine s) (pagedir s) tabs A a q (ram q) Hus Htk (tk_bytes _ _ _ Htk (po_bytes _ _ _ Hp)) (tk_ram _ _ _ Htk))
    as (Hus1 & Hg1 & Ha1 & Hne).
  assert (set_ram (ram q) q = q) as Eq by (by destruct q). rewrite Eq in *. set (s1 := set_machine (set_phys q (machine s)) s).
  destruct (install_run s1 tabs A (PHYS_BASE - PGSIZE) a true Hus1 Ha1 Hne) as [[Hf E1]|(v & tabs' & E1 & Hus2 & Hg2)];
    [done|done|done|rewrite (bind_Ok _ _ _ _ _ E1); left|rewrite (bind_Ok _ _ _ _ _ E1); right].
  - destruct (release_run (machine s1) (machine s) (pagedir s) tabs A a q Hus1 Hg1 Htk Ha1 Hne) as (v & E2 & Hus2 & Hg2 & Hf2).
    rewrite (bind_Ok _ _ _ _ _ (on_vm_Ok _ _ _ _ E2)). exists v. split; [done|]. split_and!; try done. right. by apply Hf2.
  - exists v, tabs', a. split; [done|]. split; [exact Hus2|]. split; [eapply grows_trans; [apply Hus1|done..]|].
    intros k Hk. destruct (gr_keeps _ _ _ _ _ Hg2 true a Ha1) as [_ Hr].
    destruct (user_not_table _ _ _ _ _ (us_space _ _ _ _ Hus1) Ha1) as [Hd Htb]. rewrite Hr by (done || lia). apply Hz. lia.
Qed.
End Segments.
