(* ===== verification/ProcessArgs.v ===== *)
(** * The arguments of a new process (userprog/process.c)

    The bytes the loader writes through the page tables, and the initial stack they
    make up: the words of the command line, the pointers to them, and the two arguments
    of [main]. *)

From S2P Require Import Prelude Bitmap Block Cache FsState Inode InodeView File FreeMap FileSpec Filesys.
From S2P Require Import Palloc Pagedir PagedirSpec PagedirLife CString CStringSpec Process ProcessSpec.

(** ** Writing to user memory *)

Section Args.
Context (init_ram_pages pd : Z) (tabs : gmap Z Z) (A0 : gmap Z mapping).

(** Memory that is neither a table nor a page of the process. *)
Definition quiet (x : Z) : Prop :=
  ¬ pd ≤ x < pd + 4096 ∧ (∀ i pt, tabs !! i = Some pt → ¬ pt ≤ x < pt + 4096) ∧
  ∀ vp p, A0 !! vp = Some p → ¬ mp_kpage p ≤ x < mp_kpage p + 4096.

(** The mappings up to their status bits. *)
Definition same_maps (A : gmap Z mapping) : Prop :=
  ∀ vp, (λ p, (mp_kpage p, mp_writable p)) <$> A !! vp = (λ p, (mp_kpage p, mp_writable p)) <$> A0 !! vp.

(** The directory is active, and the process sees the memory [f]. *)
Record sees (v : vm) (f : Z → option Z) (A : gmap Z mapping) : Prop := {
  se_space : user_space init_ram_pages v pd tabs A;
  se_maps : same_maps A;
  se_active : cr3 v = pd - PHYS_BASE;
  se_bytes y : user_byte v A y = f y }.

Definition overlay (lo : Z) (bs : list Z) (f : Z → option Z) : Z → option Z :=
  λ y, if bool_decide (lo ≤ y < lo + Z.of_nat (length bs)) then bs !! Z.to_nat (y - lo) else f y.

(** Only memory of the process and its tables changes. *)
Definition calm (v v' : vm) : Prop :=
  (∀ x, quiet x → ram (phys v') x = ram (phys v) x) ∧ (∀ u b, allocated u (phys v') b ↔ allocated u (phys v) b) ∧
  init_page_dir v' = init_page_dir v ∧ same_pools (phys v) (phys v').

Lemma calm_refl v : calm v v.
Proof. done. Qed.

Lemma calm_trans v1 v2 v3 : calm v1 v2 → calm v2 v3 → calm v1 v3.
Proof.
  intros (R1 & L1 & I1 & S1) (R2 & L2 & I2 & S2). split_and!; [|intros u b; by rewrite L2|congruence|by eapply same_pools_trans].
  intros x Hx. rewrite R2 by done. by apply R1.
Qed.

Lemma ptov_addr w p : kernel_page p → Z.land w PTE_ADDR + PHYS_BASE = p → ptov (Z.land w PTE_ADDR) = Ok p.
Proof.
  intros [_ Hp] E. unfold ptov. rewrite (proj2 (Z.ltb_lt _ _)) by (unfold PHYS_BASE in *; lia). cbn [assert_ok obind].
  rewrite uwrap_id by (unfold in_u, PHYS_BASE in *; lia). by rewrite E.
Qed.

Definition touched (p : mapping) : mapping := set_dirty true (set_accessed true p).

Lemma touched_entry e q : in_u 32 e → decode e = Some q →
  let e' := Z.lor (Z.lor e PTE_A) PTE_D in in_u 32 e' ∧ decode e' = Some (touched q).
Proof.
  intros He Hd. cbv zeta. destruct (decode_flag e q 5 true He Hd ltac:(lia)) as (H1 & H2 & _).
  destruct (decode_flag _ _ 6 true H1 H2 ltac:(lia)) as (H3 & H4 & _). split; [exact H3|exact H4].
Qed.

(** The walk finds the page, and changes its entry and the cache. *)
Lemma user_page_run v A va q : user_space init_ram_pages v pd tabs A → cr3 v = pd - PHYS_BASE → user_addr va →
  A !! (va / 4096) = Some q → mp_writable q = true →
  ∃ v1, user_page va v = Ok (mp_kpage q, v1) ∧ user_space init_ram_pages v1 pd tabs (alter touched (va / 4096) A) ∧
    cr3 v1 = cr3 v ∧ init_page_dir v1 = init_page_dir v ∧ phys v1 = set_ram (ram (phys v1)) (phys v) ∧
    ∀ x, (∀ i pt, tabs !! i = Some pt → ¬ pt ≤ x < pt + 4096) → ram (phys v1) x = ram (phys v) x.
Proof.
  intros Hus Hc Hua HA Hw. pose proof Hus as [Hs Ht Hown Hinj Hr]. pose proof (sp_ok _ _ _ _ Hs) as Hp. pose proof Hua as [H0 Hu].
  destruct (mapped_table v pd tabs A va q Hs Hua HA) as (pt & Et & _ & _ & Hw32 & Hd).
  destruct (po_table _ _ _ Hp _ _ Et) as (Hi & Hal & _ & Hbit & Hpt).
  destruct (allocated_page _ pt (po_pools _ _ _ Hp) (po_base _ _ _ Hp) _ Hal) as [Hkp _].
  destruct (allocated_page _ pd (po_pools _ _ _ Hp) (po_base _ _ _ Hp) _ (po_pd _ _ _ Hp)) as [Hkd _].
  assert (ptov (cr3 v) = Ok pd) as Ecr.
  { unfold ptov. destruct Hkd as [_ Hkd]. rewrite (proj2 (Z.ltb_lt _ _)) by (unfold PHYS_BASE in *; lia). cbn [assert_ok obind].
    rewrite uwrap_id by (unfold in_u, PHYS_BASE in *; lia). f_equal. lia. }
  unfold user_page. erewrite (bind_Ok (gets cr3)) by done. rewrite (bind_Ok (lift _) _ v pd v) by (unfold lift; by rewrite Ecr).
  erewrite (bind_Ok (load32 _)) by done. rewrite pd_no_div, pt_no_mod. set (pde := word_at _ (pd + _)) in *.
  assert ((Z.land pde PTE_P =? 0) = false) as -> by (apply negb_true_iff; change PTE_P with (2 ^ 0); by rewrite flag_test).
  rewrite (bind_Ok (lift _) _ v pt v) by (unfold lift; by rewrite (ptov_addr _ pt Hkp Hpt)).
  erewrite (bind_Ok (load32 _)) by done. set (e := word_at _ (pt + _)) in *.
  assert (Z.testbit e 0 = true ∧ Z.testbit e 1 = true) as [He0 He1].
  { unfold decode in Hd. destruct (Z.testbit e 0); [|done]. injection Hd as <-. done. }
  assert ((Z.land e PTE_P =? 0) || (Z.land e PTE_W =? 0) = false) as ->.
  { apply orb_false_iff. split; apply negb_true_iff; [change PTE_P with (2 ^ 0)|change PTE_W with (2 ^ 1)]; by rewrite flag_test. }
  destruct (touched_entry e q Hw32 Hd) as [He' Hd'].
  destruct (status_change v pd tabs A va q pt _ touched Hs Hua HA Et He' Hd' eq_refl) as [Hs1 Hk1].
  erewrite (bind_Ok (store32 _ _)) by done. erewrite (bind_Ok (modify _)) by done. set (e' := Z.lor (Z.lor e PTE_A) PTE_D) in *.
  set (v1 := mk_vm _ _ _ _). exists v1. split.
  { unfold lift. rewrite (ptov_addr e' (mp_kpage q)); [done| |].
    - by apply (sp_dom _ _ _ _ Hs) in HA as [_ ?].
    - unfold decode in Hd'. destruct (Z.testbit e' 0); [|done]. by injection Hd' as ?. }
  assert (∀ vp p, alter touched (va / 4096) A !! vp = Some p → ∃ p0, A !! vp = Some p0 ∧ mp_kpage p0 = mp_kpage p) as Halt.
  { intros vp p. rewrite lookup_alter_Some. intros [(<- & p0 & ? & ->)|[_ ?]]; eauto. }
  split_and!; try done.
  - split; [by apply space_tlb| | | |done].
    + intros _ vp w Hv Hl. simpl in Hl. assert (pg_no va = va / 4096) as Epg by (unfold pg_no; by rewrite Z.shiftr_div_pow2).
      rewrite Epg in Hl. apply lookup_insert_Some in Hl as [[<- <-]|[Hne Hl]].
      * exists (touched q), (touched q). rewrite lookup_alter_eq, HA. split_and!; done.
      * destruct (Ht Hc vp w Hv Hl) as (p1 & q1 & HAp & Hrest). exists p1, q1. by rewrite lookup_alter_ne.
    + intros vp p (p0 & Hp0 & <-)%Halt. by eapply Hown.
    + intros vp vp' p p' (p1 & H1 & <-)%Halt (p2 & H2 & <-)%Halt E0. by eapply Hinj.
  - intros x Hx. simpl. apply store_word_other. intros Hin. apply (Hx _ _ Et).
    pose proof (proj2 (index_bounds _ (user_index va Hu H0))). lia.
Qed.

(** Memory other than the tables may be written to. *)
Lemma ram_space v A m : user_space init_ram_pages v pd tabs A → bytes_ok m →
  (∀ x, (pd ≤ x < pd + 4096 ∨ ∃ i pt, tabs !! i = Some pt ∧ pt ≤ x < pt + 4096) → m x = ram (phys v) x) →
  user_space init_ram_pages (set_phys (set_ram m (phys v)) v) pd tabs A.
Proof.
  intros [Hs Ht Hown Hinj Hr] Hm Hx. pose proof (sp_ok _ _ _ _ Hs) as Hp. split; try done.
  apply (space_kept v); try done; [apply set_ram_ok, Hp|]. intros b Hb. simpl. split.
  - rewrite allocated_ram. destruct Hb as [->|[i Hi]]; [apply Hp|]. by destruct (po_table _ _ _ Hp _ _ Hi) as (_ & ? & _).
  - intros x Hbx. apply Hx. destruct Hb as [->|[i Hi]]; [by left|right; eauto].
Qed.

Lemma same_maps_lookup A vp q : same_maps A → A0 !! vp = Some q → ∃ q', A !! vp = Some q' ∧ mp_kpage q' = mp_kpage q ∧ mp_writable q' = mp_writable q.
Proof. intros Hm Hq. specialize (Hm vp). rewrite Hq in Hm. apply fmap_Some in Hm as (q' & ? & [= ? ?]). eauto. Qed.

Lemma same_maps_back A vp q : same_maps A → A !! vp = Some q → ∃ q', A0 !! vp = Some q' ∧ mp_kpage q' = mp_kpage q.
Proof. intros Hm Hq. specialize (Hm vp). rewrite Hq in Hm. symmetry in Hm. apply fmap_Some in Hm as (q' & ? & [= ? ?]). eauto. Qed.

(** The page of the user that holds an address is not a table. *)
Lemma page_not_table v A vp q x : user_space init_ram_pages v pd tabs A → A !! vp = Some q → mp_kpage q ≤ x < mp_kpage q + 4096 →
  ¬ pd ≤ x < pd + 4096 ∧ ∀ i pt, tabs !! i = Some pt → ¬ pt ≤ x < pt + 4096.
Proof.
  intros Hus HA Hx. pose proof (us_owned _ _ _ _ _ Hus _ _ HA) as Hal. pose proof (us_space _ _ _ _ _ Hus) as Hs.
  destruct (user_not_table _ _ _ _ _ Hs Hal) as [Hd Htb]. pose proof (sp_ok _ _ _ _ Hs) as Hp.
  destruct (allocated_page _ _ (po_pools _ _ _ Hp) (po_base _ _ _ Hp) _ Hal) as [[Ha _] _]. split.
  - intros Hx'. apply Hd. destruct (allocated_page _ _ (po_pools _ _ _ Hp) (po_base _ _ _ Hp) _ (po_pd _ _ _ Hp)) as [[Ha' _] _].
    by apply (page_overlap _ _ x).
  - intros i pt Hi Hx'. apply (Htb i pt Hi). destruct (po_table _ _ _ Hp _ _ Hi) as (_ & Hpt & _).
    destruct (allocated_page _ _ (po_pools _ _ _ Hp) (po_base _ _ _ Hp) _ Hpt) as [[Ha' _] _]. by apply (page_overlap _ _ x).
Qed.

Lemma user_store_run v f A va x q : sees v f A → user_addr va → A0 !! (va / 4096) = Some q → mp_writable q = true →
  ∃ v' A', user_store va x v = Ok (tt, v') ∧ sees v' (overlay va [u8 x] f) A' ∧ calm v v'.
Proof.
  intros [Hus Hm Hc Hf] Hua HA0 Hw0. destruct (same_maps_lookup A _ q Hm HA0) as (q' & HA & Ek & Ew). rewrite Hw0 in Ew.
  destruct (user_page_run v A va q' Hus Hc Hua HA Ew) as (v1 & E & Hus1 & Hc1 & Hi1 & Hph & Hr1). set (A1 := alter _ _ A) in *.
  unfold user_store. rewrite (bind_Ok _ _ _ _ _ E). erewrite on_ram_Ok by done. rewrite pg_ofs_mod.
  pose proof (Z.mod_pos_bound va 4096 ltac:(lia)) as Hmod. set (a := mp_kpage q' + va `mod` 4096). set (m := λ y, if y =? a then u8 x else _).
  assert (A1 !! (va / 4096) = Some (touched q')) as HA1 by (unfold A1; by rewrite lookup_alter_eq, HA).
  destruct (page_not_table v1 A1 (va / 4096) _ a Hus1 HA1) as [Hnd Hnt]; [unfold a; simpl; lia|].
  assert (∀ y, y ≠ a → m y = ram (phys v1) y) as Hmy by (intros y Hy; unfold m; by rewrite (proj2 (Z.eqb_neq y a))).
  eexists _, A1. split; [done|]. split; [split|].
  - apply ram_space; [done|apply store_ok; apply Hus1|]. intros y Hy. apply Hmy. intros ->. destruct Hy as [?|(i & pt & Hi & ?)]; [done|by eapply Hnt].
  - intros vp. rewrite <-Hm. unfold A1. destruct (decide (vp = va / 4096)) as [->|Hne]; [by rewrite lookup_alter_eq, HA|by rewrite lookup_alter_ne].
  - simpl. congruence.
  - intros y. unfold overlay. cbn [length]. unfold user_byte. change (ram (phys (set_phys _ _))) with m. case_bool_decide as Hy.
    + assert (y = va) as -> by lia. rewrite HA1, Z.sub_diag. simpl. unfold m. by rewrite Z.eqb_refl.
    + rewrite <-Hf. unfold user_byte. destruct (A1 !! (y / 4096)) as [p|] eqn:Ey; unfold A1 in Ey.
      * apply lookup_alter_Some in Ey as Ey'.
        assert (∃ p0, A !! (y / 4096) = Some p0 ∧ mp_kpage p0 = mp_kpage p) as (p0 & Hp0 & Ekp).
        { destruct Ey' as [(<- & p0 & ? & ->)|[_ ?]]; eauto. }
        rewrite Hp0. simpl. f_equal. rewrite Ekp. pose proof (Z.mod_pos_bound y 4096 ltac:(lia)).
        rewrite Hmy; [apply Hr1; apply (page_not_table v1 A1 (y / 4096) p); [done|done|lia]|].
        unfold a. intros Ea. assert (mp_kpage p = mp_kpage q') as Ekk.
        { apply (sp_dom _ _ _ _ (us_space _ _ _ _ _ Hus)) in Hp0 as [_ [Hp0 _]], HA as [_ [HA _]]. rewrite Ekp in Hp0.
          apply (page_overlap _ _ (mp_kpage p + y `mod` 4096)); try done; lia. }
        assert (y / 4096 = va / 4096) by (eapply (us_inj _ _ _ _ _ Hus); [exact Hp0|exact HA|congruence]).
        pose proof (Z.div_mod y 4096). pose proof (Z.div_mod va 4096). lia.
      * apply lookup_alter_None in Ey. by rewrite Ey.
  - split_and!; [|intros u b; simpl; rewrite allocated_ram, Hph; apply allocated_ram|done|intros u; simpl; rewrite Hph; by destruct u].
    intros y (_ & Hy2 & Hy3). simpl. rewrite Hmy; [by apply Hr1|]. intros ->. apply (Hy3 _ _ HA0). unfold a. lia.
Qed.

Lemma sees_ext v f g A : sees v f A → (∀ y, f y = g y) → sees v g A.
Proof. intros [? ? ? H] E. split; try done. intros y. by rewrite H. Qed.

Lemma overlay_cons lo b bs f y : overlay (lo + 1) bs (overlay lo [b] f) y = overlay lo (b :: bs) f y.
Proof.
  clear. unfold overlay. cbn [length]. repeat case_bool_decide; try done; try lia.
  - by replace (Z.to_nat (y - lo)) with (S (Z.to_nat (y - (lo + 1)))) by lia.
  - by replace (Z.to_nat (y - lo)) with 0%nat by lia.
Qed.

(** ** The stack page *)

Context (stk : mapping) (Hstk : A0 !! (USER_PAGES - 1) = Some stk) (Hwr : mp_writable stk = true).

Definition on_stack (lo hi : Z) : Prop := PHYS_BASE - 4096 ≤ lo ∧ hi ≤ PHYS_BASE.

Lemma stack_addr va : PHYS_BASE - 4096 ≤ va < PHYS_BASE → user_addr va ∧ va / 4096 = USER_PAGES - 1.
Proof.
  clear. unfold PHYS_BASE, USER_PAGES. intros H. split; [split; [lia|apply Z.ltb_lt; unfold PHYS_BASE; lia]|].
  Z.to_euclidean_division_equations. lia.
Qed.

Lemma stack_store v f A va x : sees v f A → PHYS_BASE - 4096 ≤ va < PHYS_BASE →
  ∃ v' A', user_store va x v = Ok (tt, v') ∧ sees v' (overlay va [u8 x] f) A' ∧ calm v v'.
Proof.
  intros Hs Hva. destruct (stack_addr va Hva) as [Hu Ed]. apply (user_store_run v f A va x stk); try done. by rewrite Ed.
Qed.

Lemma copy_to_user_run bs : ∀ v f A dst src, sees v f A → on_stack dst (dst + Z.of_nat (length bs)) → Forall (in_u 8) bs →
  (∀ k b, bs !! k = Some b → ram (phys v) (src + Z.of_nat k) = b ∧ quiet (src + Z.of_nat k)) →
  ∃ v' A', copy_to_user (length bs) dst src v = Ok (tt, v') ∧ sees v' (overlay dst bs f) A' ∧ calm v v'.
Proof.
  induction bs as [|b bs IH]; intros v f A dst src Hs [Hlo Hhi] Hbs Hsrc; cbn [length copy_to_user] in *.
  { exists v, A. split; [done|]. split; [|done]. eapply sees_ext; [done|]. intros y. unfold overlay. simpl. by rewrite bool_decide_eq_false_2 by lia. }
  apply list.Forall_cons in Hbs as [Hb Hbs]. destruct (Hsrc O b eq_refl) as [Eb Hq]. rewrite Z.add_0_r in Eb, Hq.
  rewrite (bind_Ok _ _ v b v).
  2:{ unfold on_ram, CString.load, gets. cbn [obind]. rewrite Eb. by destruct v as [[] ? ? ?]. }
  destruct (stack_store v f A dst b Hs ltac:(lia)) as (v1 & A1 & E1 & Hs1 & Hc1). rewrite (bind_Ok _ _ _ _ _ E1).
  rewrite uwrap_id in Hs1 by done.
  destruct (IH v1 _ A1 (dst + 1) (src + 1) Hs1) as (v' & A' & E' & Hs' & Hc'); [split; lia|done| |].
  { intros k c Hk. destruct (Hsrc (S k) c Hk) as [Ec Hqc]. replace (src + 1 + Z.of_nat k) with (src + Z.of_nat (S k)) by lia.
    split; [|done]. by rewrite (proj1 Hc1). }
  exists v', A'. split; [done|]. split; [|by eapply calm_trans]. eapply sees_ext; [done|]. apply overlay_cons.
Qed.

(** The bytes of a 32-bit number. *)
Fixpoint le_bytes (n : nat) (v : Z) : list Z :=
  match n with
  | O => []
  | S n => v `mod` 2 ^ 8 :: le_bytes n (Z.shiftr v 8)
  end.

Lemma length_le_bytes n v : length (le_bytes n v) = n.
Proof. clear. revert v. induction n as [|n IH]; intros v; [done|]. simpl. by rewrite IH. Qed.

Lemma bytes_to_user_run n : ∀ v f A dst x, sees v f A → on_stack dst (dst + Z.of_nat n) →
  ∃ v' A', bytes_to_user n dst x v = Ok (tt, v') ∧ sees v' (overlay dst (le_bytes n x) f) A' ∧ calm v v'.
Proof.
  induction n as [|n IH]; intros v f A dst x Hs [Hlo Hhi]; cbn [bytes_to_user le_bytes].
  { exists v, A. split; [done|]. split; [|done]. eapply sees_ext; [done|]. intros y. unfold overlay. simpl. by rewrite bool_decide_eq_false_2 by lia. }
  destruct (stack_store v f A dst (x `mod` 2 ^ 8) Hs ltac:(lia)) as (v1 & A1 & E1 & Hs1 & Hc1). rewrite (bind_Ok _ _ _ _ _ E1).
  rewrite uwrap_id in Hs1 by (by apply Z.mod_pos_bound).
  destruct (IH v1 _ A1 (dst + 1) (Z.shiftr x 8) Hs1) as (v' & A' & E' & Hs' & Hc'); [split; lia|].
  exists v', A'. split; [done|]. split; [|by eapply calm_trans]. eapply sees_ext; [done|]. apply overlay_cons.
Qed.

(** ** The words *)

(** Where the words go, and the memory they make. *)
Fixpoint pointers (esp : Z) (ws : list (list Z)) : list Z :=
  match ws with
  | [] => []
  | w :: ws => let e := esp - (Z.of_nat (length w) + 1) in e :: pointers e ws
  end.
Fixpoint below (esp : Z) (ws : list (list Z)) : Z :=
  match ws with
  | [] => esp
  | w :: ws => below (esp - (Z.of_nat (length w) + 1)) ws
  end.
Fixpoint with_words (esp : Z) (ws : list (list Z)) (f : Z → option Z) : Z → option Z :=
  match ws with
  | [] => f
  | w :: ws => let e := esp - (Z.of_nat (length w) + 1) in with_words e ws (overlay e (w ++ [0]) f)
  end.

(** Memory [f] holds the bytes [bs] from [a] on. *)
Definition holds (f : Z → option Z) (a : Z) (bs : list Z) : Prop :=
  ∀ k b, bs !! k = Some b → f (a + Z.of_nat k) = Some b.

Lemma below_le ws : ∀ esp, below esp ws ≤ esp.
Proof. clear. induction ws as [|w ws IH]; intros esp; simpl; [lia|]. specialize (IH (esp - (Z.of_nat (length w) + 1))). lia. Qed.

Lemma with_words_other ws : ∀ esp f y, ¬ below esp ws ≤ y < esp → with_words esp ws f y = f y.
Proof.
  clear. induction ws as [|w ws IH]; intros esp f y Hy; [done|]. simpl in *. set (e := esp - (Z.of_nat (length w) + 1)) in *.
  pose proof (below_le ws e). rewrite IH by lia. unfold overlay. rewrite length_app. simpl. by rewrite bool_decide_eq_false_2 by lia.
Qed.

Lemma with_words_holds ws : ∀ esp f j w a, ws !! j = Some w → pointers esp ws !! j = Some a → holds (with_words esp ws f) a (w ++ [0]).
Proof.
  clear. induction ws as [|w0 ws IH]; intros esp f j w a Hw Ha; [done|]. simpl in *. set (e := esp - _) in *. destruct j as [|j]; [|by eapply IH].
  simpl in Hw, Ha. injection Hw as ->. injection Ha as <-. intros k b Hk. pose proof (lookup_lt_Some _ _ _ Hk).
  rewrite with_words_other by lia. unfold overlay. rewrite bool_decide_eq_true_2 by lia.
  by replace (Z.to_nat (e + Z.of_nat k - e)) with k by lia.
Qed.

Lemma length_pointers ws : ∀ esp, length (pointers esp ws) = length ws.
Proof. clear. induction ws as [|w ws IH]; intros esp; [done|]. simpl. by rewrite IH. Qed.

(** ** The command line *)

Context (fuel : nat) (buf blank : Z) (Hfuel : (100 ≤ fuel)%nat) (Hblank : 0 < blank) (Hbuf : 0 < buf).
Context (Hqbuf : ∀ x, buf ≤ x < buf + 100 → quiet x) (Hqblank : ∀ x, blank ≤ x < blank + 2 → quiet x ∧ ¬ buf ≤ x < buf + 100).

(** Pools and registers stay, and the literal. *)
Record steady (v v' : vm) : Prop := {
  st_alloc u b : allocated u (phys v') b ↔ allocated u (phys v) b;
  st_init : init_page_dir v' = init_page_dir v;
  st_same : same_pools (phys v) (phys v');
  st_ram x : quiet x → ¬ buf ≤ x < buf + 100 → ram (phys v') x = ram (phys v) x }.

Lemma steady_refl v : steady v v.
Proof. done. Qed.

Lemma steady_trans v1 v2 v3 : steady v1 v2 → steady v2 v3 → steady v1 v3.
Proof.
  intros [L1 I1 S1 R1] [L2 I2 S2 R2]. split; [intros u b; by rewrite L2|congruence|by eapply same_pools_trans|].
  intros x Hx Hb. rewrite R2 by done. by apply R1.
Qed.

Lemma calm_steady v v' : calm v v' → steady v v'.
Proof. intros (R & L & I & S). split; auto. Qed.

Lemma steady_blank v v' : steady v v' → cstr (ram (phys v)) blank [32] → cstr (ram (phys v')) blank [32].
Proof. intros H. apply cstr_ext. intros x Hx. simpl in Hx. destruct (Hqblank x ltac:(lia)). by apply (st_ram _ _ H). Qed.

(** A change of memory that is not the process's. *)
Lemma ram_sees v f A m : sees v f A → bytes_ok m → (∀ x, ¬ quiet x → m x = ram (phys v) x) →
  sees (set_phys (set_ram m (phys v)) v) f A.
Proof.
  intros [Hus Hm Hc Hf] Hb Hq. split; [|done|done|].
  - apply ram_space; [done|done|]. intros x Hx. apply Hq. intros (H1 & H2 & _). destruct Hx as [?|(i & pt & Hi & ?)]; [done|by eapply H2].
  - intros y. rewrite <-Hf. unfold user_byte. destruct (A !! (y / 4096)) as [p|] eqn:E; [|done]. simpl. f_equal. apply Hq.
    intros (_ & _ & H3). destruct (same_maps_back A _ p Hm E) as (q & Hq' & Ek). apply (H3 _ _ Hq'). rewrite Ek.
    pose proof (Z.mod_pos_bound y 4096 ltac:(lia)). lia.
Qed.

(** A string in the buffer. *)
Definition in_buf (m : memory) (a : Z) (s : list Z) : Prop :=
  cstr m a s ∧ buf ≤ a ∧ a + Z.of_nat (length s) < buf + 100.

(** The variables of the loop over the words [ws]. *)
Definition at_words (v : vm) (ws : list (list Z)) (token save : Z) : Prop :=
  ws = [] ∧ token = NULL ∨
  ∃ tok rest, ws = tok :: words [32] rest ∧ in_buf (ram (phys v)) token tok ∧ in_buf (ram (phys v)) save rest.

Lemma strtok_words v f A a s s0 save : sees v f A → in_buf (ram (phys v)) a s → cstr (ram (phys v)) blank [32] →
  a = (if s0 =? NULL then save else s0) →
  ∃ token save' v', on_ram (strtok_r fuel s0 blank save) v = Ok ((token, save'), v') ∧ sees v' f A ∧
    at_words v' (words [32] s) token save' ∧ steady v v'.
Proof.
  intros Hs (Hcs & Hlo & Hhi) Hbl Ea. pose proof (po_bytes _ _ _ (sp_ok _ _ _ _ (us_space _ _ _ _ _ (se_space _ _ _ Hs)))) as Hby.
  destruct (strtok_r_run (ram (phys v)) a s blank [32] fuel s0 save Hby Hcs Hbl ltac:(lia) Hblank Ea ltac:(lia) ltac:(simpl; lia))
    as [[Hw E]|(tok & rest & t & save' & m' & E & Hfd)].
  - exists NULL, (a + Z.of_nat (length s)), v. split; [|split; [done|split; [by left|apply steady_refl]]].
    erewrite on_ram_Ok by done. by destruct v as [[] ? ? ?].
  - destruct Hfd as [Hw Hne Ht Hr (Hp1 & Hp2 & Hp3) Hfr Hby']. exists t, save'. erewrite on_ram_Ok by done. eexists. split; [done|].
    assert (∀ x, ¬ buf ≤ x < buf + 100 → m' x = ram (phys v) x) as Hout by (intros x Hx; apply Hfr; lia).
    split; [|split; [|split]].
    + apply ram_sees; [done|done|]. intros x Hx. apply Hout. intros Hb. by apply Hx, Hqbuf.
    + right. exists tok, rest. split; [done|]. split; [split; [done|lia]|split; [done|lia]].
    + intros u b. simpl. apply allocated_ram.
    + done.
    + by intros [].
    + intros x _ Hb. by apply Hout.
Qed.

Lemma in_buf_calm v v' a s : calm v v' → in_buf (ram (phys v)) a s → in_buf (ram (phys v')) a s.
Proof.
  intros Hc (Hs & Hlo & Hhi). split; [|done]. eapply cstr_ext; [|done]. intros x Hx. apply Hc, Hqbuf. lia.
Qed.

Lemma cstr_lookup m s : ∀ a, cstr m a s → ∀ k b, (s ++ [0]) !! k = Some b → m (a + Z.of_nat k) = b.
Proof.
  clear. induction s as [|c s IH]; intros a Hs k b Hk; simpl in *.
  - destruct k as [|k]; [|done]. injection Hk as <-. by rewrite Z.add_0_r.
  - destruct Hs as (_ & Ha & Hs). destruct k as [|k]; [injection Hk as <-; by rewrite Z.add_0_r|].
    rewrite <-(IH _ Hs k b Hk). f_equal. lia.
Qed.

Lemma cstr_in_u8 m s : ∀ a, cstr m a s → Forall (in_u 8) (s ++ [0]).
Proof.
  clear. induction s as [|c s IH]; intros a Hs; simpl in *; [by repeat constructor|]. destruct Hs as (Hc & _ & Hs).
  constructor; [unfold in_u; lia|by eapply IH].
Qed.

Lemma push_words_run ws : ∀ n v f A token save esp args, sees v f A → at_words v ws token save → cstr (ram (phys v)) blank [32] →
  (length ws < n)%nat → Z.of_nat (length args) + Z.of_nat (length ws) ≤ 20 → on_stack (below esp ws) esp →
  ∃ v' A', push_words fuel blank n token save esp args v = Ok ((below esp ws, args ++ pointers esp ws), v') ∧
    sees v' (with_words esp ws f) A' ∧ steady v v'.
Proof.
  induction ws as [|w ws IH]; intros n v f A token save esp args Hs Hat Hbl Hn Harg [Hlo Hhi];
    (destruct n as [|n]; [lia|]); cbn [push_words].
  { destruct Hat as [[_ ->]|(tok & rest & ? & _)]; [|done]. exists v, A. rewrite app_nil_r. done. }
  destruct Hat as [[? _]|(tok & rest & [= -> ->] & Htok & Hrest)]; [done|]. cbn [below pointers with_words length] in *.
  pose proof Htok as (Hc & Htl & Hth). set (e := esp - (Z.of_nat (length tok) + 1)) in *.
  pose proof (below_le (words [32] rest) e) as Hbe. unfold PHYS_BASE in Hlo, Hhi.
  rewrite (proj2 (Z.eqb_neq token NULL)) by (unfold NULL; lia). cbn [negb].
  assert (on_ram (strlen fuel token) v = Ok (Z.of_nat (length tok), v)) as El.
  { erewrite on_ram_Ok by (apply strlen_run; [done|unfold NULL; lia|lia]). by destruct v as [[] ? ? ?]. }
  rewrite (bind_Ok _ _ _ _ _ El). rewrite uwrap_id by (unfold in_u; lia). fold e.
  rewrite (proj2 (Z.leb_gt ARGUMENT_MAX_NUM _)) by (unfold ARGUMENT_MAX_NUM; lia). rewrite (bind_Ok _ _ _ _ _ El).
  replace (Z.to_nat (Z.of_nat (length tok) + 1)) with (length (tok ++ [0])) by (rewrite length_app; simpl; lia).
  destruct (copy_to_user_run (tok ++ [0]) v f A e token Hs) as (v1 & A1 & E1 & Hs1 & Hc1).
  { rewrite length_app. simpl. unfold on_stack, PHYS_BASE. lia. } { by eapply cstr_in_u8. }
  { intros k b Hk. split; [by eapply cstr_lookup|]. pose proof (lookup_lt_Some _ _ _ Hk) as Hkl. rewrite length_app in Hkl. simpl in Hkl.
    apply Hqbuf. lia. }
  rewrite (bind_Ok _ _ _ _ _ E1).
  destruct (strtok_words v1 _ A1 save rest NULL save Hs1 (in_buf_calm _ _ _ _ Hc1 Hrest)) as (token' & save' & v2 & E2 & Hs2 & Hat2 & Hst2); [|done|].
  { eapply steady_blank; [by apply calm_steady|done]. }
  rewrite (bind_Ok _ _ _ _ _ E2). assert (steady v v2) as Hst by (eapply steady_trans; [by apply calm_steady|done]).
  destruct (IH n v2 _ A1 token' save' e (args ++ [e]) Hs2 Hat2) as (v' & A' & E' & Hs' & Hst').
  { by eapply steady_blank. } { lia. } { rewrite length_app. simpl. lia. } { unfold on_stack, PHYS_BASE. lia. }
  exists v', A'. split; [|split; [done|by eapply steady_trans]]. rewrite E'. by rewrite <-app_assoc.
Qed.

Lemma below_words ds s : ∀ cur esp, esp - (Z.of_nat (length cur) + Z.of_nat (length s) + 1) ≤ below esp (words_from ds cur s).
Proof.
  clear. induction s as [|c s IH]; intros cur esp; simpl.
  - destruct cur; simpl; lia.
  - case_bool_decide.
    + destruct cur as [|x cur]; [specialize (IH [] esp); simpl in *; lia|].
      cbn [below]. specialize (IH [] (esp - (Z.of_nat (length (x :: cur)) + 1))). simpl in *. lia.
    + specialize (IH (cur ++ [c]) esp). rewrite length_app in IH. simpl in IH. lia.
Qed.

(** ** The pointers *)

Fixpoint with_pointers (esp : Z) (rargs : list Z) (f : Z → option Z) : Z → option Z :=
  match rargs with
  | [] => f
  | a :: rargs => with_pointers (esp - 4) rargs (overlay (esp - 4) (le_bytes 4 a) f)
  end.

Lemma overlay_other lo bs f y : ¬ lo ≤ y < lo + Z.of_nat (length bs) → overlay lo bs f y = f y.
Proof. clear. intros H. unfold overlay. by rewrite bool_decide_eq_false_2. Qed.

Lemma overlay_holds lo bs f : holds (overlay lo bs f) lo bs.
Proof.
  clear. intros k b Hk. pose proof (lookup_lt_Some _ _ _ Hk). unfold overlay. rewrite bool_decide_eq_true_2 by lia.
  by replace (Z.to_nat (lo + Z.of_nat k - lo)) with k by lia.
Qed.

Lemma holds_ext f g a bs : holds f a bs → (∀ y, a ≤ y < a + Z.of_nat (length bs) → g y = f y) → holds g a bs.
Proof. clear. intros H E k b Hk. pose proof (lookup_lt_Some _ _ _ Hk). rewrite E by lia. by apply H. Qed.

Lemma with_pointers_other rargs : ∀ esp f y, ¬ esp - 4 * Z.of_nat (length rargs) ≤ y < esp → with_pointers esp rargs f y = f y.
Proof.
  clear. induction rargs as [|a rargs IH]; intros esp f y Hy; [done|]. cbn [with_pointers length] in *. rewrite IH by lia.
  apply overlay_other. rewrite length_le_bytes. lia.
Qed.

Lemma with_pointers_holds rargs : ∀ esp f j a, rargs !! j = Some a →
  holds (with_pointers esp rargs f) (esp - 4 * (Z.of_nat j + 1)) (le_bytes 4 a).
Proof.
  clear. induction rargs as [|x rargs IH]; intros esp f j a Hj; [done|]. cbn [with_pointers]. destruct j as [|j].
  - injection Hj as ->. replace (esp - 4 * (Z.of_nat 0 + 1)) with (esp - 4) by lia. eapply holds_ext; [apply overlay_holds|].
    intros y Hy. apply with_pointers_other. lia.
  - replace (esp - 4 * (Z.of_nat (S j) + 1)) with (esp - 4 - 4 * (Z.of_nat j + 1)) by lia. by apply IH.
Qed.

Lemma push_pointers_run rargs : ∀ v f A esp, sees v f A → on_stack (esp - 4 * Z.of_nat (length rargs)) esp →
  ∃ v' A', push_pointers rargs esp v = Ok (esp - 4 * Z.of_nat (length rargs), v') ∧ sees v' (with_pointers esp rargs f) A' ∧ calm v v'.
Proof.
  induction rargs as [|a rargs IH]; intros v f A esp Hs [Hlo Hhi]; cbn [push_pointers length with_pointers] in *.
  { exists v, A. split; [|done]. unfold ret. do 2 f_equal. lia. }
  unfold PHYS_BASE in Hlo, Hhi. rewrite uwrap_id by (unfold in_u; lia).
  destruct (bytes_to_user_run 4 v f A (esp - 4) a Hs) as (v1 & A1 & E1 & Hs1 & Hc1); [unfold on_stack, PHYS_BASE; lia|].
  rewrite (bind_Ok _ _ _ _ _ E1). destruct (IH v1 _ A1 (esp - 4) Hs1) as (v' & A' & E' & Hs' & Hc'); [unfold on_stack, PHYS_BASE; lia|].
  exists v', A'. split; [|split; [done|by eapply calm_trans]]. rewrite E'. do 2 f_equal. lia.
Qed.

(** ** The whole stack *)

(** The stack the C start-up code expects at [esp]: a return address, [argc], [argv], the
    array [argv] ended by a null pointer, and the strings. *)
Record argument_stack (f : Z → option Z) (esp : Z) (ws : list (list Z)) : Prop := {
  as_return : holds f esp (le_bytes 4 0);
  as_argc : holds f (esp + 4) (le_bytes 4 (Z.of_nat (length ws)));
  as_argv : holds f (esp + 8) (le_bytes 4 (esp + 12));
  as_arg j w : ws !! j = Some w → ∃ a, esp < a < PHYS_BASE ∧
    holds f (esp + 12 + 4 * Z.of_nat j) (le_bytes 4 a) ∧ holds f a (w ++ [0]);
  as_null : holds f (esp + 12 + 4 * Z.of_nat (length ws)) (le_bytes 4 0) }.

Lemma pointers_range ws : ∀ esp j a, pointers esp ws !! j = Some a → below esp ws ≤ a < esp.
Proof.
  clear. induction ws as [|w ws IH]; intros esp j a Hj; [done|]. simpl in *. set (e := esp - _) in *. pose proof (below_le ws e).
  destruct j as [|j]; [injection Hj as <-; lia|]. apply IH in Hj. lia.
Qed.

(** The memory after all writes of [push_arguments]. *)
Definition stack_memory (f : Z → option Z) (ws : list (list Z)) : Z → option Z :=
  let e := below PHYS_BASE ws in
  let e2 := e - 4 - 4 * Z.of_nat (length ws) in
  overlay (e2 - 8) (le_bytes 4 (Z.of_nat (length ws))) (overlay (e2 - 4) (le_bytes 4 e2)
    (with_pointers (e - 4) (reverse (pointers PHYS_BASE ws)) (with_words PHYS_BASE ws f))).

Lemma le_bytes_zero : le_bytes 4 0 = [0; 0; 0; 0].
Proof. clear. done. Qed.

Lemma stack_memory_ok f ws : let e2 := below PHYS_BASE ws - 4 - 4 * Z.of_nat (length ws) in PHYS_BASE - 4096 ≤ e2 - 12 →
  (∀ y, PHYS_BASE - 4096 ≤ y < PHYS_BASE → f y = Some 0) →
  argument_stack (stack_memory f ws) (e2 - 12) ws ∧ ∀ y, y < PHYS_BASE - 4096 → stack_memory f ws y = f y.
Proof.
  clear. intros e2 Hlo Hz. unfold stack_memory. fold e2. set (e := below PHYS_BASE ws) in *. pose proof (below_le ws PHYS_BASE) as Hbe. fold e in Hbe.
  set (g1 := with_words _ _ _). set (g2 := with_pointers _ _ g1). set (g3 := overlay _ _ g2). set (g4 := overlay _ _ g3).
  assert (Z.of_nat (length (reverse (pointers PHYS_BASE ws))) = Z.of_nat (length ws)) as Hlr by (by rewrite length_reverse, length_pointers).
  assert (∀ y, ¬ e2 - 8 ≤ y < e2 → g4 y = g2 y) as H42.
  { intros y Hy. unfold g4, g3. rewrite !overlay_other; rewrite ?length_le_bytes; done || lia. }
  assert (∀ y, ¬ e2 ≤ y < e - 4 → g2 y = g1 y) as H21 by (intros y Hy; apply with_pointers_other; lia).
  assert (∀ y, ¬ e ≤ y < PHYS_BASE → g1 y = f y) as H10 by (intros y Hy; by apply with_words_other).
  assert (∀ y, PHYS_BASE - 4096 ≤ y < e2 - 8 ∨ e - 4 ≤ y < e → g4 y = Some 0) as Hzero
    by (intros y Hy; rewrite H42, H21, H10 by lia; apply Hz; lia).
  split; [split|intros y Hy; rewrite H42, H21, H10 by lia; done].
  - rewrite le_bytes_zero. intros k b Hk. pose proof (lookup_lt_Some _ _ _ Hk) as Hl. simpl in Hl.
    rewrite Hzero by lia. do 4 (destruct k as [|k]; [by injection Hk as <-|]). done.
  - replace (e2 - 12 + 4) with (e2 - 8) by lia. apply overlay_holds.
  - replace (e2 - 12 + 8) with (e2 - 4) by lia. replace (e2 - 12 + 12) with e2 by lia.
    eapply holds_ext; [apply (overlay_holds (e2 - 4) (le_bytes 4 e2) g2)|]. intros y Hy. rewrite length_le_bytes in Hy.
    apply overlay_other. rewrite length_le_bytes. lia.
  - intros j w Hj. pose proof (lookup_lt_Some _ _ _ Hj) as Hjl.
    destruct (lookup_lt_is_Some_2 (pointers PHYS_BASE ws) j) as [a Ha]; [by rewrite length_pointers|].
    pose proof (pointers_range ws PHYS_BASE j a Ha) as Har. fold e in Har. exists a. split; [lia|]. split.
    + assert (reverse (pointers PHYS_BASE ws) !! (length ws - S j)%nat = Some a) as Hr.
      { rewrite reverse_lookup by (rewrite length_pointers; lia). rewrite length_pointers, <-Ha. f_equal. lia. }
      apply (with_pointers_holds _ (e - 4) g1) in Hr.
      replace (e - 4 - 4 * (Z.of_nat (length ws - S j) + 1)) with (e2 - 12 + 12 + 4 * Z.of_nat j) in Hr by (unfold e2; lia).
      eapply holds_ext; [exact Hr|]. intros y Hy. rewrite length_le_bytes in Hy. apply H42. lia.
    + pose proof (with_words_holds ws PHYS_BASE f j w a Hj Ha) as Hh. eapply holds_ext; [exact Hh|].
      intros y Hy. rewrite H42, H21 by lia. done.
  - rewrite le_bytes_zero. intros k b Hk. pose proof (lookup_lt_Some _ _ _ Hk) as Hl. simpl in Hl.
    rewrite Hzero by (unfold e2; lia). do 4 (destruct k as [|k]; [by injection Hk as <-|]). done.
Qed.

Lemma push_arguments_run v f A s : sees v f A → in_buf (ram (phys v)) buf s → cstr (ram (phys v)) blank [32] →
  Z.of_nat (length (words [32] s)) ≤ 20 → (∀ y, PHYS_BASE - 4096 ≤ y < PHYS_BASE → f y = Some 0) →
  ∃ esp v' f' A', push_arguments fuel buf blank PHYS_BASE v = Ok (esp, v') ∧ sees v' f' A' ∧ steady v v' ∧
    argument_stack f' esp (words [32] s) ∧ (∀ y, y < PHYS_BASE - 4096 → f' y = f y) ∧ PHYS_BASE - 4096 ≤ esp < PHYS_BASE.
Proof.
  intros Hs Hb Hbl Hn Hz. unfold push_arguments. set (ws := words [32] s) in *.
  destruct (strtok_words v f A buf s buf NULL Hs Hb Hbl) as (token & save & v1 & E1 & Hs1 & Hat & St1).
  { by rewrite (proj2 (Z.eqb_neq buf NULL)) by (unfold NULL; lia). }
  rewrite (bind_Ok _ _ _ _ _ E1). pose proof (below_words [32] s [] PHYS_BASE) as Hbw. fold (words [32] s) in Hbw. fold ws in Hbw.
  cbn [length] in Hbw. pose proof (below_le ws PHYS_BASE) as Hle. destruct Hb as (_ & _ & Hbl2).
  destruct (push_words_run ws fuel v1 f A token save PHYS_BASE [] Hs1 Hat) as (v2 & A2 & E2 & Hs2 & St2).
  { by eapply steady_blank. } { lia. } { simpl. lia. } { split; lia. }
  rewrite (bind_Ok _ _ _ _ _ E2). cbn [app]. set (e := below PHYS_BASE ws) in *. unfold PHYS_BASE in Hbw, Hle.
  rewrite (uwrap_id 32 (e - 4)) by (unfold in_u; lia).
  assert (Z.of_nat (length (reverse (pointers PHYS_BASE ws))) = Z.of_nat (length ws)) as Hlr by (by rewrite length_reverse, length_pointers).
  destruct (push_pointers_run (reverse (pointers PHYS_BASE ws)) v2 _ A2 (e - 4) Hs2) as (v3 & A3 & E3 & Hs3 & C3).
  { rewrite Hlr. unfold on_stack, PHYS_BASE. lia. }
  rewrite (bind_Ok _ _ _ _ _ E3). rewrite Hlr, length_pointers. set (e2 := e - 4 - 4 * Z.of_nat (length ws)) in *.
  rewrite (uwrap_id 32 (e2 - 4)) by (unfold in_u; lia).
  destruct (bytes_to_user_run 4 v3 _ A3 (e2 - 4) e2 Hs3) as (v4 & A4 & E4 & Hs4 & C4); [unfold on_stack, PHYS_BASE; lia|].
  rewrite (bind_Ok _ _ _ _ _ E4). rewrite (uwrap_id 32 (e2 - 4 - 4)) by (unfold in_u; lia).
  destruct (bytes_to_user_run 4 v4 _ A4 (e2 - 4 - 4) (Z.of_nat (length ws)) Hs4) as (v5 & A5 & E5 & Hs5 & C5); [unfold on_stack, PHYS_BASE; lia|].
  rewrite (bind_Ok _ _ _ _ _ E5). rewrite uwrap_id by (unfold in_u; lia).
  destruct (stack_memory_ok f ws) as [Hok Hoth]; [fold e; fold e2; unfold PHYS_BASE; lia|done|]. fold e in Hok. fold e2 in Hok.
  exists (e2 - 12), v5, (stack_memory f ws), A5. split; [unfold ret; do 2 f_equal; lia|]. split.
  { eapply sees_ext; [exact Hs5|]. intros y. unfold stack_memory. fold e. fold e2. by replace (e2 - 4 - 4) with (e2 - 8) by lia. }
  split_and!; [|exact Hok|exact Hoth|unfold PHYS_BASE; lia..].
  eapply steady_trans; [exact St1|]. eapply steady_trans; [exact St2|]. apply calm_steady.
  eapply calm_trans; [exact C3|]. by eapply calm_trans.
Qed.
End Args.
