(* ===== verification/ProcessLoad.v ===== *)
(** * Loading a program (userprog/process.c)

    From a valid executable and a command line to the address space of the new process:
    every segment is in place, the stack holds the arguments, and nothing else is mapped. *)

From S2P Require Import Prelude Bitmap Block Cache FsState Inode InodeView File FreeMap FileSpec Directory DirectorySpec Filesys.
From S2P Require Import Palloc Pagedir PagedirSpec PagedirLife CString CStringSpec Process ProcessSpec ProcessArgs.

(** ** Memory of the kernel *)

(** Memory that belongs neither to the page allocator's free pages nor to the directory. *)
Definition kernel_memory (v : vm) (pd : Z) (tabs : gmap Z Z) (x : Z) : Prop :=
  (∃ b, allocated false (phys v) b ∧ b ≠ pd ∧ (∀ i pt, tabs !! i = Some pt → pt ≠ b) ∧ b ≤ x < b + 4096) ∨
  x < base (kernel_pool (phys v)).

Lemma kernel_memory_grows init v v' pd tabs tabs' A x : kernel_memory v pd tabs x → grows v v' pd tabs tabs' →
  user_space init v' pd tabs' A → ram (phys v') x = ram (phys v) x ∧ quiet pd tabs' A x.
Proof.
  intros Hk [K T _ S L] Hus. pose proof (us_space _ _ _ _ _ Hus) as Hs. pose proof (sp_ok _ _ _ _ Hs) as Hp.
  assert (∀ u c, allocated u (phys v') c → c `mod` 4096 = 0 ∧ base (kernel_pool (phys v')) ≤ c) as Hal.
  { intros u c Hc. destruct (allocated_page _ c (po_pools _ _ _ Hp) (po_base _ _ _ Hp) _ Hc) as [[? _] _].
    split; [done|]. by eapply allocated_low; [apply Hp|]. }
  assert (∀ i pt, tabs' !! i = Some pt → allocated false (phys v') pt) as Htb
    by (intros i pt Hi; by destruct (po_table _ _ _ Hp _ _ Hi) as (_ & ? & _)).
  destruct Hk as [(b & Hb & Hd & Ht & Hx)|Hx].
  - destruct (K false b Hb) as [Hb' Hr]. destruct (Hal _ _ Hb') as [Hba _]. split; [by apply Hr|]. split_and!.
    + intros Hx'. apply Hd. apply (page_overlap b pd x); try done. apply (Hal false), Hp.
    + intros i pt Hi Hx'. assert (pt = b) as -> by (apply (page_overlap pt b x); try done; eapply Hal; eauto).
      destruct (T i b Hi) as [?|?]; [by eapply Ht|done].
    + intros vp p Hvp Hx'. pose proof (us_owned _ _ _ _ _ Hus _ _ Hvp) as Ho.
      assert (mp_kpage p = b) as E by (apply (page_overlap _ b x); try done; by eapply Hal). rewrite E in Ho.
      by pose proof (allocated_once _ _ _ _ (po_pools _ _ _ Hp) Ho Hb').
  - split; [by apply L|]. destruct (S false) as [E _]. simpl in E. split_and!.
    + destruct (Hal _ _ (po_pd _ _ _ Hp)). lia.
    + intros i pt Hi. destruct (Hal _ _ (Htb i pt Hi)). lia.
    + intros vp p Hvp. destruct (Hal _ _ (us_owned _ _ _ _ _ Hus _ _ Hvp)). lia.
Qed.

(** ** Executables *)

(** The image [data] of an executable with the program headers [hs]. *)
Record elf_ok (d : inode_disk) (data : list Z) (hs : list Elf32_Phdr) : Prop := {
  elf_length : 52 ≤ length_ d;
  elf_valid : ehdr_valid (decode_ehdr (take 52 data)) = true;
  elf_phnum : e_phnum (decode_ehdr (take 52 data)) = Z.of_nat (length hs);
  elf_phoff : e_phoff (decode_ehdr (take 52 data)) + 32 * Z.of_nat (length hs) ≤ length_ d;
  elf_phdr j h : hs !! j = Some h → h = phdr_at data (e_phoff (decode_ehdr (take 52 data)) + 32 * Z.of_nat j);
  elf_segments : Forall (phdr_ok d) hs;
  elf_apart : apart hs;
  elf_stack h : h ∈ hs → ¬ load_page h (USER_PAGES - 1) }.

(** The memory of the new process: the segments, the arguments on the stack, and no more. *)
Record program_loaded (v : vm) (A : gmap Z mapping) (data : list Z) (hs : list Elf32_Phdr) (esp : Z) (ws : list (list Z)) : Prop := {
  pl_segments h : h ∈ hs → p_type h = PT_LOAD → segment_loaded v A data h;
  pl_stack : argument_stack (user_byte v A) esp ws;
  pl_esp : PHYS_BASE - 4096 ≤ esp < PHYS_BASE;
  pl_writable : mp_writable <$> A !! (USER_PAGES - 1) = Some true;
  pl_only vp : is_Some (A !! vp) → vp = USER_PAGES - 1 ∨ ∃ h, h ∈ hs ∧ load_page h vp }.

Section Load.
Context {mach : Machine}.
Context (init_ram_pages : Z) (fuel : nat) (buf blank : Z) (Hfuel : (100 ≤ fuel)%nat).
Context (Hstack : (52 ≤ length (words_to_bytes stack_words))%nat).

(** The command line [cmd] is in the buffer, and the literal in place. *)
Record command (v : vm) (pd : Z) (tabs : gmap Z Z) (cmd : list Z) : Prop := {
  cm_buf : 0 < buf;
  cm_blank : 0 < blank;
  cm_text : cstr (ram (phys v)) buf cmd;
  cm_length : Z.of_nat (length cmd) < 100;
  cm_delim : cstr (ram (phys v)) blank [32];
  cm_kbuf x : buf ≤ x < buf + 100 → kernel_memory v pd tabs x;
  cm_kblank x : blank ≤ x < blank + 2 → kernel_memory v pd tabs x ∧ ¬ buf ≤ x < buf + 100 }.

Lemma segment_page h k : 0 ≤ k < p_memsz h → seg_page h ((p_vaddr h + k) / 4096).
Proof. intros Hk. unfold seg_page. split; apply Z.div_le_mono; lia. Qed.

(** The arguments go on a fresh stack page. *)
Lemma arguments_run v0 v pd tabs0 tabs A a data hs cmd : command v0 pd tabs0 cmd → grows v0 v pd tabs0 tabs →
  user_space init_ram_pages v pd tabs (<[USER_PAGES - 1 := mk_mapping a true false false]> A) → cr3 v = pd - PHYS_BASE →
  (∀ k, 0 ≤ k < 4096 → ram (phys v) (a + k) = 0) → Z.of_nat (length (words [32] cmd)) ≤ 20 →
  A !! (USER_PAGES - 1) = None → (∀ h, h ∈ hs → ¬ load_page h (USER_PAGES - 1)) →
  (∀ h, h ∈ hs → p_type h = PT_LOAD → segment_loaded v (<[USER_PAGES - 1 := mk_mapping a true false false]> A) data h) →
  (∀ vp, is_Some (A !! vp) → ∃ h, h ∈ hs ∧ load_page h vp) →
  ∃ esp v' A', push_arguments fuel buf blank PHYS_BASE v = Ok (esp, v') ∧ user_space init_ram_pages v' pd tabs A' ∧
    program_loaded v' A' data hs esp (words [32] cmd).
Proof.
  intros [Hb Hbl Htx Hcl Hdl Hkb Hkbl] Hg Hus Hc Hz Hn HA Hst Hseg Honly. set (A1 := <[USER_PAGES - 1 := _]> A) in *.
  assert (A1 !! (USER_PAGES - 1) = Some (mk_mapping a true false false)) as Hl by apply lookup_insert_eq.
  assert (sees init_ram_pages pd tabs A1 v (user_byte v A1) A1) as Hsee by done.
  destruct (push_arguments_run init_ram_pages pd tabs A1 _ Hl eq_refl fuel buf blank Hfuel Hbl Hb) with (v := v) (f := user_byte v A1) (A := A1) (s := cmd)
    as (esp & v' & f' & A' & E & [Hus' Hm' _ Hf'] & _ & Has & Hot & Hesp); try done.
  - intros x Hx. by eapply kernel_memory_grows; [apply Hkb| |].
  - intros x Hx. destruct (Hkbl x Hx) as [Hk ?]. split; [|done]. by eapply kernel_memory_grows.
  - split; [|lia]. eapply cstr_ext; [|exact Htx]. intros x Hx. eapply kernel_memory_grows; [apply Hkb; lia|done|done].
  - eapply cstr_ext; [|exact Hdl]. intros x Hx. simpl in Hx. destruct (Hkbl x ltac:(lia)) as [Hk _]. by eapply kernel_memory_grows.
  - intros y Hy. destruct (stack_addr y Hy) as [_ Ed]. unfold user_byte. rewrite Ed, Hl. simpl. f_equal. apply Hz. by apply Z.mod_pos_bound.
  - exists esp, v', A'. split; [done|]. split; [done|].
    assert (∀ vp, mp_writable <$> A' !! vp = mp_writable <$> A1 !! vp) as Hwr.
    { intros vp. specialize (Hm' vp). destruct (A' !! vp), (A1 !! vp); simpl in *; congruence. }
    split; [| |done|by rewrite Hwr, Hl|].
    + intros h Hh Ht k Hk. destruct (Hseg h Hh Ht k Hk) as [H1 H2]. rewrite Hwr. split; [|done]. rewrite Hf', Hot; [done|].
      unfold user_byte in H1. apply fmap_Some in H1 as (q & Hq & _). apply (sp_dom _ _ _ _ (us_space _ _ _ _ _ Hus)) in Hq as [Hr _].
      assert ((p_vaddr h + k) / 4096 ≠ USER_PAGES - 1) as Hne.
      { intros E'. apply (Hst h Hh). split; [done|]. rewrite <-E'. by apply segment_page. }
      unfold PHYS_BASE, USER_PAGES in *. Z.to_euclidean_division_equations. lia.
    + assert (∀ x bs, holds f' x bs → holds (user_byte v' A') x bs) as Hh.
      { intros x bs Hx. eapply holds_ext; [done|]. intros y _. apply Hf'. }
      destruct Has as [H1 H2 H3 H4 H5]. split; [by apply Hh|by apply Hh|by apply Hh| |by apply Hh].
      intros j w Hj. destruct (H4 j w Hj) as (b & Hr & Hp & Hw). exists b. split; [done|]. split; by apply Hh.
    + intros vp Hvp. destruct (decide (vp = USER_PAGES - 1)) as [->|Hne]; [by left|right]. apply Honly.
      assert (A1 !! vp = A !! vp) as <- by (by apply lookup_insert_ne). specialize (Hm' vp).
      by destruct (A' !! vp), (A1 !! vp).
Qed.

Lemma load_file_run s tabs file p i d hs cmd : let data := content (dview (fsys s)) d in let pd := pagedir s in
  user_space init_ram_pages (machine s) pd tabs ∅ → cr3 (machine s) = pd - PHYS_BASE → executable (fsys s) file p i d 0 →
  elf_ok d data hs → command (machine s) pd tabs cmd → Z.of_nat (length (words [32] cmd)) ≤ 20 →
  ∃ r v f tabs' A', load_file fuel init_ram_pages buf blank file s = Ok (r, set_fsys f (set_machine v s)) ∧
    user_space init_ram_pages v pd tabs' A' ∧
    match r with
    | Some (eip, esp) => eip = e_entry (decode_ehdr (take 52 data)) ∧ program_loaded v A' data hs esp (words [32] cmd)
    | None => full true (phys v) ∨ full false (phys v)
    end.
Proof.
  intros data pd Hus Hc He [Hl Hv Hn Ho Hph Hsg Hap Hst] Hcm Hw. unfold load_file. set (eh := decode_ehdr (take 52 data)) in *.
  destruct (read_header file p i d (fsys s) 0 0 52 He Hstack ltac:(lia) ltac:(lia) eq_refl) as (f1 & E1 & He1 & Ev1).
  erewrite (bind_Ok (on_fs _)) by (apply on_fs_Ok; exact E1). change (Z.to_nat 0) with 0%nat. rewrite drop_0.
  cbv beta iota zeta. fold data. fold eh. rewrite Hv. change (negb (Z.of_nat 52 =? SIZEOF_EHDR) || negb true) with false. cbv iota.
  rewrite Hn, Nat2Z.id. pose proof (io_len _ _ _ _ (op_ok _ _ _ _ (ex_opened _ _ _ _ _ _ He))) as Hlen.
  assert (in_u 32 (e_phoff eh)) as Hpo by (apply word_of_u32, Forall_take, He).
  rewrite (swrap_id 32 (e_phoff eh)) by (unfold in_s, in_u in *; lia). set (s1 := set_fsys f1 s).
  destruct (phdr_loop_run init_ram_pages file p i d data hs ltac:(lia) s1 tabs ∅ (e_phoff eh) 52 Hus He1) as (b & v & f2 & tabs2 & A2 & pos2 & E2 & He2 & HR);
    try done; [exact (f_equal (λ g, content g d) Ev1)|apply Hpo|].
  rewrite (bind_Ok _ _ _ _ _ E2). destruct HR as [R1 R2 R3 R4 R5 R6].
  destruct b; cbn [negb]; [|by exists None, v, f2, tabs2, A2].
  set (s2 := set_fsys f2 (set_machine v s1)). assert (A2 !! (USER_PAGES - 1) = None) as HA2 by (by rewrite R5).
  destruct (setup_stack_run init_ram_pages s2 tabs2 A2 R1 HA2) as [(v3 & E3 & Hus3 & Hg3 & Hf3)|(v3 & tabs3 & a & E3 & Hus3 & Hg3 & Hz)];
    rewrite (bind_Ok _ _ _ _ _ E3); [by exists None, v3, f2, tabs2, A2|].
  assert (grows (machine s) v3 pd tabs tabs3) as Hg by (eapply grows_trans; [apply R1|exact R2|exact Hg3]).
  destruct (arguments_run (machine s) v3 pd tabs tabs3 A2 a data hs cmd Hcm Hg Hus3) as (esp & v4 & A4 & E4 & Hus4 & Hpl); try done.
  { by destruct (gr_regs _ _ _ _ _ Hg) as [-> _]. }
  { intros h Hh Ht. eapply segment_loaded_grows; [exact R1|exact Hg3|by apply insert_subseteq|by apply R6]. }
  { intros vp [q Hq]. destruct (decide (Exists (λ h, load_page h vp) hs)) as [Hex|Hno]; [by apply list.Exists_exists in Hex|].
    rewrite R5 in Hq; [done|]. intros h Hh Hlp. apply Hno, list.Exists_exists. eauto. }
  cbv iota. erewrite (bind_Ok (on_vm _)) by (apply on_vm_Ok; exact E4). exists (Some (e_entry eh, esp)), v4, f2, tabs3, A4. done.
Qed.

(** ** [load] *)

Lemma deny_write_run f file p i d pos : executable f file p i d pos → 0 ≤ deny_write_cnt i < open_cnt i → open_cnt i < 2 ^ 31 →
  files f !! file = Some (mk_file p pos false) →
  ∃ f', file_deny_write file f = Ok (tt, f') ∧ dview f' = dview f ∧
    executable f' file p (mk_inode (sector i) (open_cnt i) (removed i) (deny_write_cnt i + 1)) d pos.
Proof.
  intros [Hn _ Ho Hs Hb] Hd Hop Hf. unfold file_deny_write. rewrite (proj2 (Z.eqb_neq file NULL)) by done.
  rewrite (bind_Ok (ASSERT _) _ f tt f) by done. unfold FsState.load_file.
  rewrite (bind_Ok _ _ f (mk_file p pos false) f) by (by rewrite Hf). simpl. unfold store_file.
  rewrite (bind_Ok _ _ f tt (set_files (<[file := mk_file p pos true]> (files f)) f)) by (by rewrite Hf).
  pose proof (op_inode _ _ _ _ Ho) as Hi. unfold inode_deny_write, load_inode, store_inode.
  rewrite (bind_Ok _ _ _ i (set_files (<[file := mk_file p pos true]> (files f)) f)) by (simpl; by rewrite Hi).
  rewrite swrap_id by (unfold in_s; lia). erewrite (bind_Ok _ _ _ tt) by (simpl; by rewrite Hi).
  rewrite (proj2 (Z.leb_le _ _)) by lia. eexists. split; [done|]. split; [done|].
  destruct Ho. split; try done; [exists true; apply lookup_insert_eq|]. split; try done. apply lookup_insert_eq.
Qed.

Lemma copy_command_run v file_name cmd : bytes_ok (ram (phys v)) → 0 < buf → 0 < file_name → cstr (ram (phys v)) file_name cmd →
  Z.of_nat (length cmd) < 100 → buf + 100 ≤ file_name ∨ file_name + Z.of_nat (length cmd) < buf →
  ∃ m, copy_command fuel buf file_name v = Ok (tt, set_phys (set_ram m (phys v)) v) ∧ bytes_ok m ∧ cstr m buf cmd ∧
    ∀ x, ¬ buf ≤ x < buf + 100 → m x = ram (phys v) x.
Proof.
  intros Hb Hbuf Hfn Hs Hl Hap. unfold copy_command.
  destruct (memset_run (ram (phys v)) buf 0 100 Hb) as (m1 & E1 & Hb1 & Hm1); [unfold NULL; lia|lia|].
  erewrite (bind_Ok (on_ram _)) by (by apply on_ram_Ok). set (v1 := set_phys _ v).
  assert (cstr m1 file_name cmd) as Hs1 by (eapply cstr_ext; [|done]; intros x Hx; rewrite Hm1, bool_decide_eq_false_2 by lia; done).
  pose proof (strlen_run m1 file_name cmd fuel Hs1 ltac:(unfold NULL; lia) ltac:(lia)) as El.
  erewrite (bind_Ok (on_ram _)) by (apply on_ram_Ok; exact El). rewrite (proj2 (Z.ltb_ge 100 _)) by lia.
  destruct (memcpy_run buf file_name (Z.of_nat (length cmd)) m1 Hb1) as (m2 & E2 & Hm2); [lia|unfold NULL; lia|unfold NULL; lia|lia|].
  erewrite (bind_Ok (on_ram _)) by (apply on_ram_Ok; exact E2). exists m2. split; [done|]. split; [by eapply copied_ok|]. split.
  - rewrite <-(take_ge cmd (length cmd)) by done. apply (cstr_copied m1 m2 buf file_name cmd); [done|done| |].
    + intros x Hx. by rewrite Hm2, bool_decide_eq_true_2 by lia.
    + rewrite Hm2, bool_decide_eq_false_2, Hm1, bool_decide_eq_true_2 by lia. done.
  - intros x Hx. rewrite Hm2, bool_decide_eq_false_2, Hm1, bool_decide_eq_false_2 by lia. done.
Qed.

Lemma string_at_run m s : ∀ n a, cstr m a s → (length s < n)%nat → string_at n a m = Ok (s, m).
Proof.
  induction s as [|c s IH]; intros n a Hs Hn; (destruct n as [|n]; [lia|]); cbn [string_at]; erewrite (bind_Ok (CString.load _)) by done; simpl in Hs.
  - by rewrite Hs.
  - destruct Hs as (Hc & -> & Hs). rewrite (proj2 (Z.eqb_neq c 0)) by lia. simpl in Hn.
    by rewrite (bind_Ok _ _ _ _ _ (IH n (a + 1) Hs ltac:(lia))).
Qed.

(** What [start_process] hands to [load]. *)
Record loadable (v : vm) (file_name : Z) (cmd : list Z) : Prop := {
  ld_base : base_ok v;
  ld_ram : base (user_pool (phys v)) + 4096 * bit_cnt (used_map (user_pool (phys v))) ≤ PHYS_BASE + 4096 * init_ram_pages;
  ld_addrs : 0 < file_name ∧ 0 < buf ∧ 0 < blank;
  ld_text : cstr (ram (phys v)) file_name cmd;
  ld_length : Z.of_nat (length cmd) < 100;
  ld_delim : cstr (ram (phys v)) blank [32];
  ld_name_mem x : file_name ≤ x ≤ file_name + Z.of_nat (length cmd) → kernel_memory v (init_page_dir v) ∅ x;
  ld_buf_mem x : buf ≤ x < buf + 100 → kernel_memory v (init_page_dir v) ∅ x;
  ld_blank_mem x : blank ≤ x < blank + 2 → kernel_memory v (init_page_dir v) ∅ x ∧ ¬ buf ≤ x < buf + 100 ∧
    ¬ file_name ≤ x ≤ file_name + Z.of_nat (length cmd);
  ld_apart : buf + 100 ≤ file_name ∨ file_name + Z.of_nat (length cmd) < buf }.

(** The base directory is not in such memory. *)
Lemma base_ok_ram v m : base_ok v → bytes_ok m → (∀ x, ¬ kernel_memory v (init_page_dir v) ∅ x → m x = ram (phys v) x) →
  base_ok (set_phys (set_ram m (phys v)) v).
Proof.
  clear Hfuel Hstack. intros [Hp Hb Hba Hd Hu Hc] Hm Hx. split; try done; [by apply set_ram_ok|].
  intros i Hi. rewrite <-(Hu i Hi). apply word_at_ext. intros x Hxi. simpl in *. apply Hx. intros [(b & Hbal & Hne & _ & Hbx)|Hlow].
  - apply Hne. destruct (allocated_page _ b Hp Hba _ Hbal) as [[Hb4 _] _]. destruct (allocated_page _ _ Hp Hba _ Hd) as [[Hd4 _] _].
    apply (page_overlap _ _ x); try done. lia.
  - pose proof (allocated_low _ _ _ Hp Hd). lia.
Qed.

(** The directory of the new process, active and empty. *)
Lemma activate_run s pd v cur : machine s = v → pagedir s = pd → space v pd ∅ ∅ →
  base (user_pool (phys v)) + 4096 * bit_cnt (used_map (user_pool (phys v))) ≤ PHYS_BASE + 4096 * init_ram_pages →
  let v' := mk_vm (phys v) (init_page_dir v) (pd - PHYS_BASE) ∅ in
  process_activate cur s = Ok (tt, mk_process v' (fsys s) pd (exec_file s) (u32 (cur + PGSIZE))) ∧
  user_space init_ram_pages v' pd ∅ ∅.
Proof.
  intros Em Ep Hs Hr v'. pose proof (sp_ok _ _ _ _ Hs) as Hp.
  destruct (allocated_page _ pd (po_pools _ _ _ Hp) (po_base _ _ _ Hp) _ (po_pd _ _ _ Hp)) as [Hk _].
  destruct (kernel_page_phys pd Hk) as (Ev & _ & _). destruct Hk as [_ Hk]. split.
  - unfold process_activate. erewrite (bind_Ok (gets pagedir)) by done. rewrite Ep. erewrite (bind_Ok (on_vm _)).
    2:{ apply on_vm_Ok. rewrite Em. unfold pagedir_activate. erewrite (bind_Ok (gets _)) by done.
        rewrite (proj2 (Z.eqb_neq pd NULL)) by (unfold NULL, PHYS_BASE in *; lia).
        rewrite (bind_Ok (lift _) _ v (pd - PHYS_BASE) v) by (unfold lift; by rewrite Ev). done. }
    unfold tss_update, modify. simpl. by rewrite Ep.
  - destruct Hs as [_ Hm Hd Hc Hi]. split; try done. split; try done; [by destruct Hp|]. simpl. unfold PHYS_BASE in *. lia.
Qed.

Lemma kernel_memory_fresh v v' pd x : kernel_memory v (init_page_dir v) ∅ x → ¬ allocated false (phys v) pd →
  (∀ b, allocated false (phys v) b → allocated false (phys v') b) → same_pools (phys v) (phys v') →
  kernel_memory v' pd ∅ x.
Proof.
  intros [(b & Hb & _ & _ & Hx)|Hx] Hn Hal Hsm.
  - left. exists b. split; [by apply Hal|]. split; [by intros ->|]. split; [by intros i pt|done].
  - right. destruct (Hsm false) as [E _]. simpl in E. lia.
Qed.

Lemma get_null_full q : pools_ok q → palloc_get_page 0 q = Ok (NULL, q) → full false q.
Proof.
  intros Hp E. destruct (palloc_get_multiple_ok 0 1 q Hp ltac:(lia)) as [(a & q' & E' & _ & _ & Ha & _)|[Hall _]].
  - unfold palloc_get_page in E. congruence.
  - intros j Hj. destruct (Hall j ltac:(lia)) as (k & Hk & H); [change (has_flag 0 PAL_USER) with false; lia|].
    by replace (j + k) with j in H by lia.
Qed.

(** The first word of the command line is opened. *)
Lemma open_first v pd file_name cmd w0 ws f file f1 work_dir s : machine s = v → fsys s = f →
  user_space init_ram_pages v pd ∅ ∅ → cstr (ram (phys v)) file_name cmd → Z.of_nat (length cmd) < 100 → 0 < file_name → 0 < blank →
  cstr (ram (phys v)) blank [32] → words [32] cmd = w0 :: ws → (∀ x, file_name ≤ x ≤ file_name + Z.of_nat (length cmd) → kernel_memory v pd ∅ x) →
  filesys_open fuel work_dir w0 f = Ok (file, f1) →
  ∃ m, open_executable fuel work_dir blank file_name s = Ok (file, set_fsys f1 (set_machine (set_phys (set_ram m (phys v)) v) s)) ∧
    user_space init_ram_pages (set_phys (set_ram m (phys v)) v) pd ∅ ∅ ∧
    ∀ x, ¬ file_name ≤ x ≤ file_name + Z.of_nat (length cmd) → m x = ram (phys v) x.
Proof.
  intros <- <- Hus Hs Hl Hfn Hbl Hd Hw Hk Ho. pose proof (po_bytes _ _ _ (sp_ok _ _ _ _ (us_space _ _ _ _ _ Hus))) as Hb.
  destruct (strtok_r_run _ file_name cmd blank [32] fuel file_name NULL Hb Hs Hd Hfn Hbl) as [[Hn _]|(tok & rest & t & save & m & E & Hfd)];
    [by rewrite (proj2 (Z.eqb_neq file_name NULL)) by (unfold NULL; lia)|lia|simpl; lia|congruence|].
  destruct Hfd as [Hw' _ Htok _ (H1 & H2 & H3) Hfr Hb']. rewrite Hw in Hw'. injection Hw' as <- _.
  assert (∀ x, ¬ file_name ≤ x ≤ file_name + Z.of_nat (length cmd) → m x = ram (phys (machine s)) x) as Hout by (intros x Hx; apply Hfr; lia).
  exists m. unfold open_executable. erewrite (bind_Ok (on_vm _)) by (apply on_vm_Ok, on_ram_Ok; exact E). split; [|split; [|done]].
  - rewrite (proj2 (Z.eqb_neq t NULL)) by (unfold NULL; lia).
    erewrite (bind_Ok (on_vm _)) by (apply on_vm_Ok, on_ram_Ok, string_at_run; [exact Htok|lia]).
    erewrite on_fs_Ok by exact Ho. by destruct s as [[[] ? ? ?] ? ? ? ?].
  - apply ram_space; [done|done|]. intros x Hx. apply Hout. intros Hin.
    destruct (kernel_memory_grows _ _ _ _ _ _ _ x (Hk x Hin) (grows_refl _ _ _) Hus) as [_ (Hq1 & Hq2 & _)].
    destruct Hx as [?|(j & pt & Hj & ?)]; [done|by eapply Hq2].
Qed.

(** A result of the loader: a program, or no memory left. *)
Definition load_post (v : vm) (pd : Z) (data : list Z) (hs : list Elf32_Phdr) (ws : list (list Z)) (r : option (Z * Z)) : Prop :=
  match r with
  | Some (eip, esp) => eip = e_entry (decode_ehdr (take 52 data)) ∧
      ∃ tabs A, user_space init_ram_pages v pd tabs A ∧ program_loaded v A data hs esp ws
  | None => full true (phys v) ∨ full false (phys v)
  end.

Lemma load_body_run s cur work_dir file_name cmd w0 ws file f1 p i d hs : loadable (machine s) file_name cmd →
  words [32] cmd = w0 :: ws → Z.of_nat (length (words [32] cmd)) ≤ 20 → filesys_open fuel work_dir w0 (fsys s) = Ok (file, f1) →
  executable f1 file p i d 0 → files f1 !! file = Some (mk_file p 0 false) → 0 ≤ deny_write_cnt i < open_cnt i → open_cnt i < 2 ^ 31 →
  let data := content (dview f1) d in elf_ok d data hs →
  ∃ fl r s', load_body fuel init_ram_pages cur work_dir buf blank file_name s = Ok ((fl, r), s') ∧
    load_post (machine s') (pagedir s') data hs (words [32] cmd) r ∧ (is_Some r → fl = file).
Proof.
  intros [Hba Hram (Hfn & Hbuf & Hbl) Htx Hln Hdl Hm1 Hm2 Hm3 Hap] Hw Hn Ho He Hfl Hdn Hop data Helf. unfold load_body.
  destruct (copy_command_run (machine s) file_name cmd (ba_bytes _ Hba) Hbuf Hfn Htx Hln Hap) as (m & E1 & Hmb & Hmt & Hmo).
  rewrite (bind_Ok _ _ _ _ _ (on_vm_Ok _ _ _ _ E1)). set (v1 := set_phys _ _) in *.
  assert (base_ok v1) as Hba1 by (apply base_ok_ram; [done|done|]; intros x Hx; apply Hmo; intros ?; by apply Hx, Hm2).
  destruct (create_run v1 Hba1) as [[E2 Efull]|(pd & v2 & E2 & Hs2 & Hnew & _ & Hk2 & Hc2 & Hi2 & _ & Hsm2 & Hlow2)];
    erewrite (bind_Ok (on_vm _)) by (apply on_vm_Ok; exact E2); erewrite (bind_Ok (modify _)) by done.
  { rewrite Z.eqb_refl. eexists NULL, None, _. split; [done|]. split; [|by intros []]. right. apply get_null_full; [apply Hba1|done]. }
  pose proof (sp_ok _ _ _ _ Hs2) as Hp2.
  destruct (allocated_page _ pd (po_pools _ _ _ Hp2) (po_base _ _ _ Hp2) _ (po_pd _ _ _ Hp2)) as [[_ Hkd] _].
  rewrite (proj2 (Z.eqb_neq pd NULL)) by (unfold NULL, PHYS_BASE in *; lia). set (s2 := mk_process _ _ pd _ _).
  destruct (activate_run s2 pd v2 cur eq_refl eq_refl Hs2) as [E3 Hus3].
  { destruct (Hsm2 true) as [Eb Ec]. simpl in Eb, Ec. rewrite Eb, Ec. exact Hram. }
  rewrite (bind_Ok _ _ _ _ _ E3). set (v3 := mk_vm _ _ _ _) in *. set (s3 := mk_process v3 _ _ _ _).
  assert (∀ x, kernel_memory (machine s) (init_page_dir (machine s)) ∅ x → kernel_memory v3 pd ∅ x ∧ ram (phys v3) x = m x) as Hkm.
  { intros x Hx. split.
    - apply (kernel_memory_fresh v1 v3); [exact Hx|done|intros b Hb; by apply Hk2|done].
    - destruct Hx as [(b & Hb & _ & _ & Hbx)|Hx]; [by apply (Hk2 false b)|by apply Hlow2]. }
  assert (∀ x, kernel_memory (machine s) (init_page_dir (machine s)) ∅ x → ¬ buf ≤ x < buf + 100 →
    ram (phys v3) x = ram (phys (machine s)) x) as Hkr by (intros x Hx Hb; rewrite (proj2 (Hkm x Hx)); by apply Hmo).
  destruct (open_first v3 pd file_name cmd w0 ws (fsys s) file f1 work_dir s3 eq_refl eq_refl Hus3) as (m4 & E4 & Hus4 & Hm4); try done.
  { eapply cstr_ext; [|exact Htx]. intros x Hx. apply Hkr; [by apply Hm1|lia]. }
  { eapply cstr_ext; [|exact Hdl]. intros x Hx. simpl in Hx. destruct (Hm3 x ltac:(lia)) as (? & ? & _). by apply Hkr. }
  { intros x Hx. by apply Hkm, Hm1. }
  rewrite (bind_Ok _ _ _ _ _ E4), (proj2 (Z.eqb_neq file NULL)) by apply He. set (v4 := set_phys _ v3) in *.
  destruct (deny_write_run f1 file p i d 0 He Hdn Hop Hfl) as (f5 & E5 & Ev5 & He5).
  erewrite (bind_Ok (on_fs _)) by (apply on_fs_Ok; exact E5). set (s5 := set_fsys f5 _).
  assert (command v4 pd ∅ cmd) as Hcm.
  { split; try done.
    - eapply cstr_ext; [|exact Hmt]. intros x Hx. simpl. rewrite Hm4 by lia. apply Hkm, Hm2. lia.
    - eapply cstr_ext; [|exact Hdl]. intros x Hx. simpl in Hx |- *. destruct (Hm3 x ltac:(lia)) as (? & ? & ?). rewrite Hm4 by done. by apply Hkr.
    - intros x Hx. by apply Hkm, Hm2.
    - intros x Hx. destruct (Hm3 x Hx) as (? & ? & _). split; [by apply Hkm|done]. }
  assert (content (dview (fsys s5)) d = data) as Hd5 by exact (f_equal (λ g, content g d) Ev5).
  destruct (load_file_run s5 ∅ file p _ d hs cmd Hus4 eq_refl He5) as (r & v & f & tabs & A & E6 & Hus6 & Hpost); try done; [by rewrite Hd5|].
  rewrite (bind_Ok _ _ _ _ _ E6). eexists file, r, _. split; [done|]. split; [|done]. rewrite Hd5 in Hpost.
  destruct r as [[eip esp]|]; [|done]. destruct Hpost as [? ?]. split; [done|]. by exists tabs, A.
Qed.

Lemma load_program_run s cur work_dir file_name cmd w0 ws file f1 p i d hs : loadable (machine s) file_name cmd →
  words [32] cmd = w0 :: ws → Z.of_nat (length (words [32] cmd)) ≤ 20 → filesys_open fuel work_dir w0 (fsys s) = Ok (file, f1) →
  executable f1 file p i d 0 → files f1 !! file = Some (mk_file p 0 false) → 0 ≤ deny_write_cnt i < open_cnt i → open_cnt i < 2 ^ 31 →
  let data := content (dview f1) d in elf_ok d data hs →
  ∃ r s', load fuel init_ram_pages cur work_dir buf blank file_name s = Ok (r, s') ∧
    load_post (machine s') (pagedir s') data hs (words [32] cmd) r ∧ (is_Some r → exec_file s' = file).
Proof.
  intros H1 H2 H3 H4 H5 H6 H7 H8 data H9.
  destruct (load_body_run s cur work_dir file_name cmd w0 ws file f1 p i d hs H1 H2 H3 H4 H5 H6 H7 H8 H9) as (fl & r & s' & E & Hp & Hf).
  unfold load. rewrite (bind_Ok _ _ _ _ _ E). erewrite (bind_Ok (modify _)) by done. by eexists r, _.
Qed.
End Load.

(** ** Theorems *)

(** C1. [load] loads the program its command line names: when the first word opens a valid
    executable, the call returns the entry point of the executable and a stack pointer, and in
    the address space of the new process every loadable segment is at its address with the
    bytes of the file followed by zeros and the access its flags say, the stack holds the
    arguments of [main] (a null return address, the number of words, a pointer to an array of
    pointers to the words, ended by a null pointer), and no other page is mapped; the only way
    to fail is that one of the two page pools is exhausted. *)
Theorem load_correct {mach : Machine} init_ram_pages fuel buf blank s cur work_dir file_name cmd w0 ws file f1 p i d hs :
  (100 ≤ fuel)%nat → (52 ≤ length (words_to_bytes stack_words))%nat →
  loadable init_ram_pages buf blank (machine s) file_name cmd →
  words [32] cmd = w0 :: ws → Z.of_nat (length (words [32] cmd)) ≤ 20 → filesys_open fuel work_dir w0 (fsys s) = Ok (file, f1) →
  executable f1 file p i d 0 → files f1 !! file = Some (mk_file p 0 false) → 0 ≤ deny_write_cnt i < open_cnt i → open_cnt i < 2 ^ 31 →
  let data := content (dview f1) d in elf_ok d data hs →
  ∃ r s', load fuel init_ram_pages cur work_dir buf blank file_name s = Ok (r, s') ∧
    load_post init_ram_pages (machine s') (pagedir s') data hs (words [32] cmd) r ∧ (is_Some r → exec_file s' = file).
Proof. intros Hf Hs. apply (load_program_run init_ram_pages fuel buf blank Hf Hs). Qed.

(** [validate_segment] accepts a program header exactly when the segment can be loaded: its
    offset in the file and its address agree modulo the page size, it starts within the file,
    it is not empty and at least as long in memory as in the file, and it lies, without
    wrapping around, above the first page and below the kernel. *)
Theorem validate_segment_correct s file p i d pos h : executable (fsys s) file p i d pos → phdr_wf h →
  ∃ f, validate_segment h file s = Ok (bool_decide (seg_ok (length_ d) h), set_fsys f s) ∧
    executable f file p i d pos ∧ dview f = dview (fsys s).
Proof. apply validate_run. Qed.

(** The array [argument_maxlength] has 100 bytes, but a command line of more than 100
    characters is copied into it. *)
Theorem load_overflow {mach : Machine} fuel init_ram_pages cur work_dir buf blank s file_name cmd :
  bytes_ok (ram (phys (machine s))) → 0 < buf → 0 < file_name → cstr (ram (phys (machine s))) file_name cmd →
  buf + 100 ≤ file_name ∨ file_name + Z.of_nat (length cmd) < buf → (length cmd ≤ fuel)%nat → 100 < Z.of_nat (length cmd) →
  load fuel init_ram_pages cur work_dir buf blank file_name s = Undef.
Proof.
  intros Hb Hbuf Hfn Hs Hap Hf Hl.
  assert (copy_command fuel buf file_name (machine s) = Undef) as E.
  { unfold copy_command. destruct (memset_run (ram (phys (machine s))) buf 0 100 Hb) as (m1 & E1 & Hb1 & Hm1); [unfold NULL; lia|lia|].
    erewrite (bind_Ok (on_ram _)) by (by apply on_ram_Ok).
    assert (cstr m1 file_name cmd) as Hs1 by (eapply cstr_ext; [|done]; intros x Hx; rewrite Hm1, bool_decide_eq_false_2 by lia; done).
    pose proof (strlen_run m1 file_name cmd fuel Hs1 ltac:(unfold NULL; lia) Hf) as El.
    erewrite (bind_Ok (on_ram _)) by (apply on_ram_Ok; exact El). by rewrite (proj2 (Z.ltb_lt 100 _)) by lia. }
  unfold load, load_body, bind at 1 2. unfold on_vm at 1. by rewrite E.
Qed.

(** ** An executable on a disk

    The directory of the example of DirectorySpec with an executable as the file [a]: one
    segment of 200 bytes, 84 of them, the headers themselves, from the file. *)

Definition elf_bytes : list Z :=
  ELF_IDENT ++ replicate 9 0 ++ [2; 0; 3; 0; 1; 0; 0; 0; 0x54; 0x80; 4; 8; 52; 0; 0; 0] ++ replicate 8 0 ++
  [52; 0; 32; 0; 1; 0; 0; 0; 0; 0; 0; 0] ++
  [1; 0; 0; 0; 0; 0; 0; 0; 0; 0x80; 4; 8; 0; 0x80; 4; 8; 84; 0; 0; 0; 200; 0; 0; 0; 5; 0; 0; 0; 0; 16; 0; 0].
Definition elf_inode : inode_disk := sample_inode [6] 84.
Definition elf_disk (n : Z) : sector_data :=
  if n =? 5 then encode_inode elf_inode else if n =? 6 then elf_bytes ++ replicate 428 0 else dir_disk n.
Definition elf_fs : fs Cache.store :=
  mk_fs (sample_store elf_disk 64) {[ 1 := mk_inode 0 1 false 0; 2 := mk_inode 1 1 false 0; 3 := mk_inode 5 1 false 0 ]}
    [3; 2; 1] {[ 4 := mk_file 1 0 false ]} ∅ dir_map 4 (λ _, true) 4.

(** The file system after the executable was opened. *)
Definition opened_fs : outcome (Z * fs Cache.store) := filesys_open 100 NULL [97] elf_fs.
Definition elf_file : Z := match opened_fs with Ok (x, _) => x | _ => 0 end.
Definition elf_fs1 : fs Cache.store := match opened_fs with Ok (_, f) => f | _ => elf_fs end.

Lemma elf_opens : filesys_open 100 NULL [97] elf_fs = Ok (elf_file, elf_fs1).
Proof.
  change (opened_fs = Ok (elf_file, elf_fs1)). unfold elf_file, elf_fs1.
  assert (match opened_fs with Ok _ => true | _ => false end = true) by (by vm_compute). by destruct opened_fs as [[]| | |].
Qed.

(** The invariant of the cache, checked by computation. *)
Definition entry_fits (size : Z) (e : cache_entry) : bool :=
  bool_decide (0 ≤ ce_sector e < size) && ce_write e && bool_decide (length (ce_data e) = 512%nat).
Definition cache_fits (s : Cache.store) : bool :=
  bool_decide (length (cache_entrys (cache s)) = 32%nat) && bool_decide (0 ≤ entry_num (cache s) ≤ 32) &&
  forallb (entry_fits (blk_size (fs_device s))) (Cache.live s) && bool_decide (NoDup (ce_sector <$> Cache.live s)).

Lemma cache_fits_sound s : block_wf (fs_device s) → cache_fits s = true → cache_inv s.
Proof.
  unfold cache_fits. rewrite !andb_true_iff, !bool_decide_eq_true. intros Hd (((Hl & Hn) & Hf) & Hnd). split; try done.
  - eapply forallb_Forall_1; [|exact Hf]. intros e. unfold entry_fits. rewrite !andb_true_iff, !bool_decide_eq_true. by intros [[? ?] ?].
  - intros j k e e' Hj Hk E. assert (j = k) as ->; [|congruence].
    apply (NoDup_lookup _ j k (ce_sector e) Hnd); rewrite list_lookup_fmap; [by rewrite Hj|by rewrite Hk, E].
Qed.

Lemma elf_executable : executable elf_fs1 elf_file 3 (mk_inode 5 2 false 0) elf_inode 0.
Proof.
  assert (cache_inv (disk elf_fs1)) as Hc.
  { apply cache_fits_sound; [|by vm_compute]. split; [by vm_compute|split; by vm_compute|].
    assert (contents (fs_device (disk elf_fs1)) = elf_disk) as -> by (by vm_compute).
    intros n. unfold elf_disk. repeat case_match; [by vm_compute|by vm_compute|apply dir_disk_length]. }
  split; [by vm_compute|exists false; by vm_compute| |done|].
  - split; [exact Hc|intros n; by vm_compute|done|by vm_compute|]. apply sample_inode_ok_sound. by vm_compute.
  - assert (content (dview elf_fs1) elf_inode = elf_bytes) as -> by (by vm_compute).
    eapply (forallb_Forall_1 _ (λ b, bool_decide (0 ≤ b < 256))); [|by vm_compute]. by intros x ?%bool_decide_eq_true.
Qed.

Definition elf_phdr0 : Elf32_Phdr := phdr_at elf_bytes 52.

Lemma elf_bytes_ok : elf_ok elf_inode (content (dview elf_fs1) elf_inode) [elf_phdr0].
Proof.
  assert (content (dview elf_fs1) elf_inode = elf_bytes) as -> by (by vm_compute).
  split; [by vm_compute|by vm_compute|by vm_compute|by vm_compute| | | |].
  - intros [|j] h; [|done]. intros [= <-]. done.
  - constructor; [|done]. split; [eapply bool_decide_eq_false_1; by vm_compute|]. intros _. split; [eapply bool_decide_eq_true_1; by vm_compute|by vm_compute].
  - split; [|done]. by intros vp _ h ?%not_elem_of_nil.
  - intros h ->%list_elem_of_singleton. eapply bool_decide_eq_false_1. by vm_compute.
Qed.

(** The machine of the example of PagedirLife with the command line "a b" at 1000 and the
    literal " " at 3000; [argument_maxlength] is at 2000. *)
Definition command_ram : memory := λ x,
  if x =? 1000 then 97 else if x =? 1001 then 32 else if x =? 1002 then 98 else if x =? 3000 then 32 else 0.
Definition command_vm : vm := set_phys (set_ram command_ram (phys sample_vm)) sample_vm.

Lemma command_low x : x < 4000 → kernel_memory command_vm (init_page_dir command_vm) ∅ x.
Proof. intros Hx. right. simpl. lia. Qed.

Lemma command_loadable : loadable 1024 2000 3000 command_vm 1000 [97; 32; 98].
Proof.
  split; [| |lia|by vm_compute|simpl; lia|by vm_compute|..|simpl; lia].
  - apply base_ok_ram; [apply sample_base_ok| |].
    + intros x. unfold command_ram. repeat case_match; done.
    + intros x Hx. unfold command_ram. simpl. repeat case_match; try done; exfalso; apply Hx; right; simpl; lia.
  - unfold PHYS_BASE. simpl. lia.
  - intros x Hx. simpl in Hx. apply command_low. lia.
  - intros x Hx. apply command_low. lia.
  - intros x Hx. simpl. split; [apply command_low; lia|lia].
Qed.

Lemma load_correct_witness :
  ∃ r s', load 100 1024 0xc0108000 NULL 2000 3000 1000 (mk_process command_vm elf_fs NULL NULL 0) = Ok (r, s') ∧
    load_post 1024 (machine s') (pagedir s') elf_bytes [elf_phdr0] [[97]; [98]] r.
Proof.
  destruct (load_correct 1024 100 2000 3000 (mk_process command_vm elf_fs NULL NULL 0) 0xc0108000 NULL 1000 [97; 32; 98] [97] [[98]]
    elf_file elf_fs1 3 (mk_inode 5 2 false 0) elf_inode [elf_phdr0]) as (r & s' & E & Hpost & _).
  - lia.
  - vm_compute. lia.
  - exact command_loadable.
  - reflexivity.
  - simpl. lia.
  - exact elf_opens.
  - exact elf_executable.
  - by vm_compute.
  - simpl. lia.
  - reflexivity.
  - exact elf_bytes_ok.
  - exists r, s'. split; [exact E|]. change [[97]; [98]] with (words [32] [97; 32; 98]).
    assert (content (dview elf_fs1) elf_inode = elf_bytes) as Eb by (by vm_compute). by rewrite Eb in Hpost.
Defined.

Lemma validate_segment_correct_witness :
  ∃ f, validate_segment elf_phdr0 elf_file (mk_process command_vm elf_fs1 NULL NULL 0)
      = Ok (bool_decide (seg_ok (length_ elf_inode) elf_phdr0), mk_process command_vm f NULL NULL 0) ∧
    executable f elf_file 3 (mk_inode 5 2 false 0) elf_inode 0 ∧ dview f = dview elf_fs1.
Proof.
  apply (validate_segment_correct (mk_process command_vm elf_fs1 NULL NULL 0) elf_file 3 (mk_inode 5 2 false 0) elf_inode 0).
  - exact elf_executable.
  - repeat split; by vm_compute.
Defined.
