(* ===== verification/Syscall.v ===== *)
(** * System calls (userprog/syscall.c, [find_fd] of userprog/process.c)

    The file descriptors of a process and the calls that use them.  An open file is a
    [struct file_info] in the list [open_list] of the thread.  The handler is modelled from
    the point where the arguments were fetched: names are C strings, buffers lists of bytes.
    The calls that start, end or wait for processes are returned as actions. *)

From S2P Require Import Prelude Bitmap Palloc Pagedir CString.
From S2P Require Import CList.
From S2P Require Import Block Cache FsState Inode File FreeMap Directory Filesys Process.

(** ** State *)

(** [struct file_info]; its list element is at offset 16, and [dirent] is the entry the
    pointer leads to, which no other structure shares. *)
Record file_info := mk_info {
  reader_count : Z;
  file_descriptor : Z;
  fi_file : Z;
  dirent : dir_entry;
  fi_removed : bool }.

Record syscalls := mk_sys {
  proc : process;
  cells : CList.heap;
  infos : gmap Z file_info;
  fd_count : Z;
  work_dir : Z }.

Abbreviation Y := (M syscalls).

Definition set_proc (p : process) (s : syscalls) : syscalls := mk_sys p (cells s) (infos s) (fd_count s) (work_dir s).
Definition set_cells (h : CList.heap) (s : syscalls) : syscalls := mk_sys (proc s) h (infos s) (fd_count s) (work_dir s).
Definition set_infos (m : gmap Z file_info) (s : syscalls) : syscalls := mk_sys (proc s) (cells s) m (fd_count s) (work_dir s).
Definition set_fd_count (n : Z) (s : syscalls) : syscalls := mk_sys (proc s) (cells s) (infos s) n (work_dir s).
Definition set_work_dir (d : Z) (s : syscalls) : syscalls := mk_sys (proc s) (cells s) (infos s) (fd_count s) d.

Definition on_proc {A} (f : P A) : Y A := λ s, let? '(a, p) := f (proc s) in Ok (a, set_proc p s).
Definition on_cells {A} (f : H A) : Y A := λ s, let? '(a, h) := f (cells s) in Ok (a, set_cells h s).
Definition on_files {A} (f : M (fs store) A) : Y A := on_proc (on_fs f).

Definition ELEM_OFFSET : Z := 16.
Definition list_entry (e : Z) : Z := e - ELEM_OFFSET.

(** What a call does: it returns, with [eax] set or not and possibly with data for the
    caller, or it ends the process, or it starts or waits for another. *)
Inductive action :=
  | Return (eax : option Z)
  | ReturnData (eax : Z) (data : list Z)
  | Exit (code : Z)
  | Exec (cmd : list Z)
  | Wait (pid : Z)
  | PowerOff.

Section Syscall.
Context {mach : Machine}.
(** A bound for the loops of lists, paths and directories. *)
Variable fuel : nat.
(** [open_list] of the current thread, and where [files_helper] has its copy of it. *)
Variables (open_list : clist) (copy : Z).

(** ** File descriptors *)

Definition find_fd : Y Z :=
  let! n := gets fd_count in
  let! _ := modify (set_fd_count (s32 (n + 1))) in
  gets fd_count.

(** The member of a structure whose address is not checked: a fault for a null pointer. *)
Definition load_info (f : Z) : Y file_info := λ s,
  match infos s !! f with Some i => Ok (i, s) | None => if f =? NULL then Panic else Undef end.
Definition store_info (f : Z) (i : file_info) : Y unit := λ s,
  match infos s !! f with Some _ => Ok (tt, set_infos (<[f := i]> (infos s)) s) | None => if f =? NULL then Panic else Undef end.

(** [f->file_descriptor].  In [struct thread] the member [fd_count] is right in front of
    [open_list], so it is the descriptor of the structure that the tail of the list would be
    an element of. *)
Definition load_descriptor (f : Z) : Y Z := λ s,
  match infos s !! f with
  | Some i => Ok (file_descriptor i, s)
  | None => if f =? list_entry (tail open_list) then Ok (fd_count s, s) else Undef
  end.

Definition create_files_struct (open_file : Z) (e : dir_entry) : Y Z :=
  let! f1 := on_files malloc in
  if f1 =? NULL then panic
  else
    let! fd := find_fd in
    let! _ := modify (λ s, set_infos (<[f1 := mk_info 0 fd open_file e false]> (infos s)) s) in
    ret f1.

(** [struct list open_list = thread_current ()->open_list]. *)
Definition copy_list : Y clist :=
  let! h := on_cells (CList.load (head open_list)) in
  let! t := on_cells (CList.load (tail open_list)) in
  let! _ := modify (λ s, set_cells (<[copy + 8 := t]> (<[copy := h]> (cells s))) s) in
  ret (mk_clist copy (copy + 8)).

Fixpoint helper_loop (n : nat) (l : clist) (e fd maxfd : Z) : Y Z :=
  match n with
  | O => out_of_fuel
  | S n =>
      if e =? list_end l then ret NULL
      else
        let f := list_entry e in
        let! d := load_descriptor f in
        if d =? fd then ret f
        else if maxfd <=? d then ret NULL
        else
          let! e := on_cells (list_next e) in
          helper_loop n l e fd maxfd
  end.

Definition files_helper (fd : Z) : Y Z :=
  let! l := copy_list in
  let! maxfd := gets fd_count in
  let! empty := on_cells (list_empty l) in
  if empty then ret NULL
  else
    let! e := on_cells (list_begin l) in
    helper_loop fuel l e fd maxfd.

(** [free (fi)]. *)
Definition free_info (f : Z) : Y unit := modify (λ s, set_infos (delete f (infos s)) s).

Fixpoint clear_loop (n : nat) : Y unit :=
  match n with
  | O => out_of_fuel
  | S n =>
      let! size := on_cells (list_size fuel open_list) in
      if size =? 0 then ret tt
      else
        let! e := on_cells (list_pop_front open_list) in
        let f := list_entry e in
        let! i := load_info f in
        let! _ := on_files (file_close release1 (fi_file i)) in
        let! _ := free_info f in
        clear_loop n
  end.
Definition clear_all_file : Y unit := clear_loop fuel.

(** ** Reading and writing *)

(** [read] for a descriptor other than 0; [buffer] is the user's, at [addr]. *)
Definition read (fd addr : Z) (buffer : list Z) (length : Z) : Y action :=
  if negb (is_user_vaddr addr) || (addr =? NULL) then ret (Exit (-1))
  else
    let! f := files_helper fd in
    if f =? NULL then ret (Return (Some (-1)))
    else
      let! i := load_info f in
      if Directory.e_type (dirent i) =? IS_DIR then ret (Return (Some (-1)))
      else
        let! '(n, buffer) := on_files (file_read (fi_file i) buffer (s32 length)) in
        ret (ReturnData n buffer).

Definition write (fd addr : Z) (buffer : list Z) (length : Z) : Y action :=
  if fd =? 1 then ret (ReturnData (s32 length) buffer)
  else
    let! pd := gets (λ s, pagedir (proc s)) in
    let! page := on_proc (on_vm (pagedir_get_page pd addr)) in
    if page =? NULL then ret (Exit (-1))
    else
      let! f := files_helper fd in
      if f =? NULL then ret (Return (Some (-1)))
      else
        let! i := load_info f in
        if Directory.e_type (dirent i) =? IS_DIR then ret (Return (Some (-1)))
        else
          let! n := on_files (file_write allocate1 (fi_file i) buffer (s32 length)) in
          ret (Return (Some n)).

(** Reading the keyboard; [input] are the characters [input_getc] returns. *)
Fixpoint read_keys (input : list Z) (length : nat) : outcome (list Z) :=
  match length with
  | O => Ok []
  | S length =>
      match input with
      | [] => OutOfFuel
      | c :: input => if c =? 10 then Ok [c] else let? l := read_keys input length in Ok (c :: l)
      end
  end.

(** ** The handler *)

Inductive syscall :=
  | Sys_halt
  | Sys_exit (status : Z)
  | Sys_exec (addr : Z) (cmd : list Z)
  | Sys_wait (pid : Z)
  | Sys_create (addr : Z) (name : list Z) (size : Z)
  | Sys_remove (name : list Z)
  | Sys_open (addr : Z) (name : list Z)
  | Sys_filesize (fd : Z)
  | Sys_read (fd addr : Z) (buffer : list Z) (length : Z) (input : list Z)
  | Sys_write (fd addr : Z) (buffer : list Z) (length : Z)
  | Sys_seek (fd pos : Z)
  | Sys_tell (fd : Z)
  | Sys_close (fd : Z)
  | Sys_practice (n : Z)
  | Sys_chdir (addr : Z) (name : list Z)
  | Sys_mkdir (addr : Z) (name : list Z)
  | Sys_readdir (fd : Z)
  | Sys_isdir (fd : Z)
  | Sys_inumber (fd : Z)
  | Sys_buffer_readcnt
  | Sys_buffer_writecnt
  | Sys_other (arg : Z).

(** The two checks of the stack pointer. *)
Definition check_esp (esp : Z) : Y bool :=
  if (esp <=? 0x08048000) || (PHYS_BASE <=? u32 (esp + 4)) then ret false
  else
    let! pd := gets (λ s, pagedir (proc s)) in
    let! page := on_proc (on_vm (pagedir_get_page pd esp)) in
    ret (negb (page =? NULL)).

Definition mapped (addr : Z) : Y bool :=
  let! pd := gets (λ s, pagedir (proc s)) in
  let! page := on_proc (on_vm (pagedir_get_page pd addr)) in
  ret (negb (page =? NULL)).

Definition ensure_work_dir : Y unit :=
  let! w := gets work_dir in
  if w =? NULL then
    let! d := on_files (dir_open_root release1) in
    modify (set_work_dir d)
  else ret tt.

(** [find_path (dir, name, tail_name, next_dir)], which fills [*next_dir]. *)
Definition resolve (dir next_dir : Z) (name : list Z) : Y (option (list Z)) :=
  let! w := gets work_dir in
  let! r := on_files (find_path release1 fuel w dir name) in
  match r with
  | None => ret None
  | Some (tail_name, d) =>
      if next_dir =? NULL then panic
      else
        let! _ := on_files (modify (λ s, set_dirs (<[next_dir := d]> (dirs s)) s)) in
        ret (Some tail_name)
  end.

Definition sys_create (addr next_dir : Z) (name : list Z) (size : Z) : Y action :=
  if addr =? 0 then ret (Exit (-1))
  else
    let! ok := mapped addr in
    if negb ok then ret (Exit (-1))
    else if bool_decide (name = []) then ret (Return (Some 0))
    else
      let! _ := ensure_work_dir in
      let! w := gets work_dir in
      let! r := resolve w next_dir name in
      match r with
      | None => ret (Return (Some 0))
      | Some tail_name =>
          let! b := on_files (filesys_create fuel next_dir tail_name (s32 size) IS_REG) in
          ret (Return (Some (Z.b2z b)))
      end.

(** The result of [find_path] is not looked at; [tail_name] and [*next_dir] are then what
    the stack and the heap held. *)
Definition sys_remove (next_dir : Z) (name : list Z) : Y action :=
  let! w := gets work_dir in
  let! r := resolve w next_dir name in
  match r with
  | None => undef
  | Some tail_name =>
      let! b := on_files (filesys_remove fuel next_dir tail_name) in
      ret (Return (Some (Z.b2z b)))
  end.

Definition sys_open (addr : Z) (name : list Z) : Y action :=
  if negb (is_user_vaddr addr) then ret (Exit (-1))
  else
    let! ok := mapped addr in
    if negb ok then ret (Exit (-1))
    else if (addr =? NULL) || bool_decide (name = []) then ret (Return (Some (-1)))
    else
      let! w := gets work_dir in
      let! dir := on_files (dir_open_current release1 w) in
      let! r := on_files (dir_getdirent release1 fuel w dir name) in
      match r with
      | None => ret (Return (Some (-1)))
      | Some e =>
          let! inode := on_files (inode_open (e_inode_sector e)) in
          let! open_file := on_files (file_open release1 inode) in
          if negb (open_file =? NULL) then
            let! f := create_files_struct open_file e in
            let! _ := modify (λ s, set_cells (<[f + ELEM_OFFSET := mk_elem NULL NULL]> (cells s)) s) in
            let! _ := on_cells (list_push_back open_list (f + ELEM_OFFSET)) in
            let! i := load_info f in
            let! _ := (if Directory.e_type e =? IS_DIR then
                         let! _ := on_files (file_close release1 (fi_file i)) in
                         store_info f (mk_info (reader_count i) (file_descriptor i) NULL (dirent i) (fi_removed i))
                       else ret tt) in
            ret (Return (Some (file_descriptor i)))
          else ret (Return (Some (-1)))
      end.

Definition sys_chdir (addr next_dir : Z) (name : list Z) : Y action :=
  if (addr =? NULL) || bool_decide (name = []) then ret (Return (Some 0))
  else
    let! _ := ensure_work_dir in
    let! w := gets work_dir in
    let! r := resolve w next_dir name in
    match r with
    | None => ret (Return (Some 0))
    | Some tail_name =>
        let! d := on_files (load_dir w) in
        let! n := on_files (load_dir next_dir) in
        let! _ := (if negb (d_inode d =? d_inode n) then on_files (dir_close release1 w) else ret tt) in
        let! inode := on_files (dir_lookup fuel next_dir tail_name) in
        let! _ := on_files (dir_close release1 next_dir) in
        if negb (inode =? NULL) then
          let! d := on_files (dir_open release1 inode) in
          let! _ := modify (set_work_dir d) in
          ret (Return (Some 1))
        else ret (Return (Some 0))
    end.

Definition sys_mkdir (addr next_dir : Z) (name : list Z) : Y action :=
  if (addr =? NULL) || bool_decide (name = []) then ret (Return (Some 0))
  else
    let! w := gets work_dir in
    let! dir := on_files (dir_open_current release1 w) in
    let! r := resolve dir next_dir name in
    match r with
    | None => ret (Return (Some 0))
    | Some tail_name =>
        let! inode := on_files (dir_lookup fuel next_dir tail_name) in
        if negb (inode =? NULL) then
          let! _ := on_files (dir_close release1 next_dir) in
          ret (Return (Some 0))
        else
          let! success := on_files (filesys_create fuel next_dir tail_name 512 IS_DIR) in
          if negb success then
            let! _ := on_files (dir_close release1 next_dir) in
            ret (Return (Some 0))
          else
            let! new_inode := on_files (dir_lookup fuel next_dir tail_name) in
            let! new_dir := on_files (dir_open release1 new_inode) in
            let! n := on_files (load_dir next_dir) in
            let! up := on_files (inode_get_inumber (d_inode n)) in
            let! a := on_files (dir_add allocate1 fuel new_dir DOTDOT up IS_DIR) in
            let! b := (if a then
                         let! m := on_files (load_dir new_dir) in
                         let! self := on_files (inode_get_inumber (d_inode m)) in
                         on_files (dir_add allocate1 fuel new_dir DOT self IS_DIR)
                       else ret false) in
            let! eax := (if b then ret 1
                         else
                           let! _ := on_files (dir_close release1 new_dir) in
                           let! _ := on_files (dir_remove allocate1 release1 fuel next_dir tail_name) in
                           ret 0) in
            let! _ := on_files (dir_close release1 next_dir) in
            ret (Return (Some eax))
    end.

Definition sys_readdir (fd : Z) : Y action :=
  let! f := files_helper fd in
  let! i := load_info f in
  let! _ := (if fi_file i =? NULL then
               let! inode := on_files (inode_open (e_inode_sector (dirent i))) in
               let! d := on_files (dir_open release1 inode) in
               store_info f (mk_info (reader_count i) (file_descriptor i) d (dirent i) (fi_removed i))
             else ret tt) in
  let! i := load_info f in
  let! r := on_files (dir_readdir fuel (fi_file i)) in
  match r with
  | Some name => ret (ReturnData 1 name)
  | None => ret (Return (Some 0))
  end.

(** Does not set [eax] when it closes a file. *)
Definition sys_close (fd : Z) : Y action :=
  let! f := files_helper fd in
  if f =? NULL then ret (Return (Some (-1)))
  else if (fd =? 1) || (fd =? 2) then ret (Return (Some (-1)))
  else
    let! d := load_descriptor f in
    let! n := gets fd_count in
    let! _ := (if d =? n then modify (set_fd_count (s32 (n - 1))) else ret tt) in
    let! _ := on_cells (list_remove (f + ELEM_OFFSET)) in
    let! i := load_info f in
    let! _ := (if Directory.e_type (dirent i) =? IS_REG then on_files (file_close release1 (fi_file i))
               else on_files (dir_close release1 (fi_file i))) in
    let! _ := free_info f in
    ret (Return None).

(** The calls of the [default] case that need an open file. *)
Definition with_file (fd : Z) (k : Z → M (fs store) (option Z)) : Y action :=
  let! f := files_helper fd in
  if f =? NULL then ret (Return (Some (-1)))
  else
    let! i := load_info f in
    let! r := on_files (k (fi_file i)) in
    ret (Return r).

Definition syscall_handler (esp : Z) (c : syscall) : Y action :=
  let! ok := check_esp esp in
  if negb ok then ret (Exit (-1))
  else
    let! next_dir := on_files malloc in
    match c with
    | Sys_exit status => ret (Exit (s32 status))
    | Sys_exec addr cmd =>
        let! ok := mapped addr in
        if negb ok then ret (Exit (-1))
        else if PHYS_BASE <? addr then ret (Return (Some (-1)))
        else ret (Exec cmd)
    | Sys_wait pid => ret (Wait pid)
    | Sys_practice n => ret (Return (Some (u32 (n + 1))))
    | Sys_halt => ret PowerOff
    | Sys_read fd addr buffer length input =>
        if fd =? 0 then
          let! l := lift (read_keys input (Z.to_nat length)) in
          ret (ReturnData (Z.of_nat (List.length l)) l)
        else read fd addr buffer length
    | Sys_create addr name size => sys_create addr next_dir name size
    | Sys_remove name => sys_remove next_dir name
    | Sys_open addr name => sys_open addr name
    | Sys_write fd addr buffer length => write fd addr buffer length
    | Sys_chdir addr name => sys_chdir addr next_dir name
    | Sys_mkdir addr name => sys_mkdir addr next_dir name
    | Sys_readdir fd => sys_readdir fd
    | Sys_isdir fd =>
        let! f := files_helper fd in
        let! i := load_info f in
        ret (Return (Some (Z.b2z (Directory.e_type (dirent i) =? IS_DIR))))
    | Sys_inumber fd =>
        let! f := files_helper fd in
        let! i := load_info f in
        ret (Return (Some (e_inode_sector (dirent i))))
    | Sys_buffer_readcnt =>
        let! b := gets (λ s, fs_device (disk (fsys (proc s)))) in
        ret (Return (Some (u32 (block_print_read_cnt b))))
    | Sys_buffer_writecnt =>
        let! b := gets (λ s, fs_device (disk (fsys (proc s)))) in
        ret (Return (Some (u32 (block_print_write_cnt b))))
    | Sys_filesize fd => with_file fd (λ file, let! n := file_length file in ret (Some n))
    | Sys_seek fd pos => with_file fd (λ file, let! _ := file_seek file (s32 pos) in ret None)
    | Sys_tell fd => with_file fd (λ file, let! n := file_tell file in ret (Some n))
    | Sys_close fd => sys_close fd
    | Sys_other fd =>
        let! f := files_helper fd in
        ret (Return (if f =? NULL then Some (-1) else None))
    end.
End Syscall.
