(* ===== verification/SyscallSpec.v ===== *)
(** * File descriptors and the calls that use them

    The descriptor table of a process as a list of open files, what [files_helper] makes of
    a descriptor, and reading and writing through descriptors. *)

From S2P Require Import Prelude Bitmap Palloc Pagedir PagedirSpec PagedirLife CString.
From S2P Require Import CList CListSpec.
From S2P Require Import Block Cache FsState Inode InodeView InodeGrow File FreeMap FreeMapSpec FileSpec Directory DirectorySpec Filesys Process Syscall.

(** ** Increasing numbers *)

Fixpoint increasing (l : list Z) : Prop :=
  match l with [] => True | x :: l => Forall (Z.lt x) l ∧ increasing l end.

Lemma increasing_app l l' : increasing (l ++ l') ↔ increasing l ∧ increasing l' ∧ ∀ x y, x ∈ l → y ∈ l' → x < y.
Proof.
  induction l as [|a l IH]; simpl; [split; [intros; split_and!; try done; by intros ? ? ?%not_elem_of_nil|tauto]|].
  rewrite Forall_app, IH, !list.Forall_forall. split.
  - intros ((H1 & H2) & H3 & H4 & H5). split_and!; try done. intros x y [->|Hx]%elem_of_cons Hy; auto.
  - intros ((H1 & H2) & H3 & H4). split_and!; try done; intros; apply H4; try done; set_solver.
Qed.

Section Descriptors.
Context {mach : Machine}.
Context (fuel : nat) (open_list : clist) (copy : Z).

(** ** The table *)

Definition elem_of (y : Z * file_info) : Z := y.1 + ELEM_OFFSET.
Definition fd_of (y : Z * file_info) : Z := file_descriptor y.2.

(** The open files [ys], in the order of their descriptors. *)
Record fd_inv (s : syscalls) (ys : list (Z * file_info)) : Prop := {
  fd_rep : rep (cells s) open_list (elem_of <$> ys);
  fd_infos y : y ∈ ys → infos s !! y.1 = Some y.2;
  fd_sorted : increasing (fd_of <$> ys);
  fd_bound y : y ∈ ys → fd_of y ≤ fd_count s;
  fd_sentinel : infos s !! list_entry (tail open_list) = None;
  fd_copy : (copy ∉ nodes open_list (elem_of <$> ys)) ∧ (copy + 8 ∉ nodes open_list (elem_of <$> ys)) }.

(** The state after the copy of the list head was made. *)
Definition copied_state (s : syscalls) (h t : list_elem) : syscalls :=
  set_cells (<[copy + 8 := t]> (<[copy := h]> (cells s))) s.

Lemma copied_inv s ys h t : fd_inv s ys → fd_inv (copied_state s h t) ys.
Proof.
  intros [Hr Hi Hs Hb Hn [Hc Hc8]]. split; try done. eapply ring_off; [|exact Hr]. intros a Ha. simpl.
  rewrite !lookup_insert_ne by (intros <-; done). done.
Qed.

(** What [files_helper] returns: the open file, or null; but for [fd_count] itself, when it
    is not open, the address of the part of [struct thread] before [open_list.tail]. *)
Definition find_descriptor (c : Z) (ys : list (Z * file_info)) (fd : Z) : Z :=
  match list_find (λ y, fd_of y = fd) ys with
  | Some (_, y) => y.1
  | None => if fd =? c then list_entry (tail open_list) else NULL
  end.

Lemma helper_loop_run s fd n : ∀ xs ys, fd_inv s (xs ++ ys) → (length ys < n)%nat →
  helper_loop open_list n (mk_clist copy (copy + 8)) (first_or (tail open_list) (elem_of <$> ys)) fd (fd_count s) s
    = Ok (find_descriptor (fd_count s) ys fd, s).
Proof.
  induction n as [|n IH]; intros xs ys Hinv Hn; [lia|]. cbn [helper_loop].
  pose proof Hinv as [Hr Hi Hs Hb Hsen [_ Hc8]]. rewrite fmap_app in Hr, Hc8, Hs.
  unfold list_end. simpl. rewrite (proj2 (Z.eqb_neq _ (copy + 8))).
  2:{ intros E. apply Hc8. rewrite <-E. apply first_or_nodes. }
  unfold load_descriptor, find_descriptor. destruct ys as [|y ys]; simpl.
  - rewrite (bind_Ok _ _ s (fd_count s) s) by (by rewrite Hsen, Z.eqb_refl). rewrite (Z.eqb_sym fd).
    destruct (Z.eqb_spec (fd_count s) fd); [done|]. by rewrite (proj2 (Z.leb_le _ _)).
  - assert (list_entry (elem_of y) = y.1) as -> by (unfold list_entry, elem_of; lia).
    rewrite (bind_Ok _ _ s (fd_of y) s) by (by rewrite (Hi y) by set_solver). fold (fd_of y).
    destruct (Z.eqb_spec (fd_of y) fd) as [Efd|Hfd]; [by rewrite decide_True|]. rewrite (decide_False _ _ Hfd).
    destruct (Z.leb_spec (fd_count s) (fd_of y)) as [Hle|Hlt].
    + pose proof (Hb y ltac:(set_solver)) as Hby. assert (fd_of y = fd_count s) as Ec by lia.
      assert (ys = []) as ->.
      { destruct ys as [|z ys]; [done|]. apply increasing_app in Hs as (_ & [Hall _] & _). simpl in Hall.
        apply list.Forall_cons in Hall as [Hyz _]. pose proof (Hb z ltac:(set_solver)). lia. }
      simpl. by rewrite (proj2 (Z.eqb_neq fd (fd_count s))) by lia.
    + erewrite (bind_Ok (on_cells _)).
      2:{ unfold on_cells. rewrite (list_next_rep (cells s) open_list (elem_of <$> xs) (elem_of y) (elem_of <$> ys)) by done. done. }
      assert (set_cells (cells s) s = s) as -> by (by destruct s). simpl in Hn.
      rewrite (IH (xs ++ [y]) ys) by (rewrite <-?app_assoc; done || lia). do 2 f_equal. unfold find_descriptor.
      by destruct (list_find (λ y, fd_of y = fd) ys) as [[]|].
Qed.

(** Only the stack changes. *)
Definition same_table (s s' : syscalls) : Prop := ∃ h t, s' = copied_state s h t.

Lemma files_helper_run s ys fd : fd_inv s ys → (length ys < fuel)%nat →
  ∃ s', files_helper fuel open_list copy fd s = Ok (find_descriptor (fd_count s) ys fd, s') ∧ same_table s s' ∧ fd_inv s' ys.
Proof.
  intros Hinv Hf. pose proof Hinv as [Hr _ _ _ _ [Hc Hc8]]. pose proof (rep_head _ _ _ Hr) as Hh. pose proof (rep_tail _ _ _ Hr) as Ht.
  set (h := mk_elem NULL _) in Hh. set (t := mk_elem _ NULL) in Ht. set (s' := copied_state s h t).
  pose proof (copied_inv s ys h t Hinv) as Hinv'. exists s'. split; [|split; [by exists h, t|done]].
  unfold files_helper. rewrite (bind_Ok (copy_list _ _) _ s (mk_clist copy (copy + 8)) s').
  2:{ unfold copy_list. assert (∀ a e, cells s !! a = Some e → on_cells (CList.load a) s = Ok (e, s)) as Hl.
      { intros a e Ha. unfold on_cells. rewrite (load_run _ _ _ Ha). by destruct s. }
      rewrite (bind_Ok _ _ _ _ _ (Hl _ _ Hh)), (bind_Ok _ _ _ _ _ (Hl _ _ Ht)). done. }
  erewrite (bind_Ok (gets _)) by done.
  assert (cells s' !! copy = Some h) as Hcp by (simpl; rewrite lookup_insert_ne by lia; apply lookup_insert_eq).
  assert (set_cells (cells s') s' = s') as Eid by (by destruct s).
  assert (list_begin (mk_clist copy (copy + 8)) (cells s') = Ok (first_or (tail open_list) (elem_of <$> ys), cells s')) as Eb.
  { unfold list_begin. by rewrite (bind_Ok _ _ _ _ _ (load_run _ _ _ Hcp)). }
  rewrite (bind_Ok _ _ s' false s').
  2:{ unfold on_cells, list_empty. rewrite (bind_Ok _ _ _ _ _ Eb). unfold ret. cbn [obind]. rewrite Eid. do 2 f_equal.
      apply Z.eqb_neq. intros E. simpl in E. apply Hc8. rewrite <-E. apply (first_or_nodes open_list []). }
  rewrite (bind_Ok _ _ s' (first_or (tail open_list) (elem_of <$> ys)) s') by (unfold on_cells; rewrite Eb; cbn [obind]; by rewrite Eid).
  change (fd_count s) with (fd_count s'). by rewrite (helper_loop_run s' fd fuel [] ys).
Qed.

Lemma find_descriptor_open c ys y fd : increasing (fd_of <$> ys) → y ∈ ys → fd_of y = fd → find_descriptor c ys fd = y.1.
Proof.
  intros Hs Hy <-. unfold find_descriptor. destruct (list_find_elem_of (λ z, fd_of z = fd_of y) ys y Hy eq_refl) as [[k z] E].
  rewrite E. apply list_find_Some in E as (Hk & Ez & _). assert (z = y) as ->; [|done]. revert k Hk. induction ys as [|a ys IH]; intros k Hk; [done|].
  simpl in Hs. destruct Hs as [Hall Hs]. rewrite list.Forall_forall in Hall.
  assert (∀ b, b ∈ ys → fd_of a < fd_of b) as Hlt by (intros b Hb; apply Hall, list_elem_of_fmap; eauto).
  destruct k as [|k]; simpl in Hk.
  - injection Hk as ->. apply elem_of_cons in Hy as [->|Hy]; [done|]. apply Hlt in Hy. lia.
  - apply elem_of_cons in Hy as [->|Hy]; [|by eapply IH]. pose proof (Hlt z (list_elem_of_lookup_2 _ _ _ Hk)). lia.
Qed.

Lemma find_descriptor_closed c ys fd : (∀ y, y ∈ ys → fd_of y ≠ fd) → fd ≠ c → find_descriptor c ys fd = NULL.
Proof.
  intros Hn Hc. unfold find_descriptor. rewrite (proj2 (list_find_None _ _)); [by rewrite (proj2 (Z.eqb_neq fd c))|].
  apply list.Forall_forall. exact Hn.
Qed.

Lemma find_descriptor_sentinel c ys : (∀ y, y ∈ ys → fd_of y ≠ c) → find_descriptor c ys c = list_entry (tail open_list).
Proof.
  intros Hn. unfold find_descriptor. rewrite (proj2 (list_find_None _ _)); [by rewrite Z.eqb_refl|].
  apply list.Forall_forall. exact Hn.
Qed.

(** [files_helper] finds the open file with a descriptor and returns null for a
    descriptor that is not open, with one exception: as it walks a copy of the list head, it
    does not stop at the end of the list, and when the greatest descriptor handed out is not
    open any more it returns the address of a part of [struct thread] for it. *)
Theorem files_helper_correct s ys fd : fd_inv s ys → (length ys < fuel)%nat →
  ∃ f s', files_helper fuel open_list copy fd s = Ok (f, s') ∧ fd_inv s' ys ∧
    (∀ y, y ∈ ys → fd_of y = fd → f = y.1) ∧
    ((∀ y, y ∈ ys → fd_of y ≠ fd) → f = if fd =? fd_count s then list_entry (tail open_list) else NULL).
Proof.
  intros Hinv Hf. destruct (files_helper_run s ys fd Hinv Hf) as (s' & E & _ & Hinv'). eexists _, s'. split; [exact E|]. split; [done|]. split.
  - intros y Hy Hfd. apply find_descriptor_open; [apply Hinv|done|done].
  - intros Hn. destruct (Z.eqb_spec fd (fd_count s)) as [->|Hne]; [by apply find_descriptor_sentinel|by apply find_descriptor_closed].
Qed.

(** ** Opening and closing *)

(** A new file goes to the end of the table, with the next descriptor. *)
Lemma new_descriptor_run s ys open_file e : fd_inv s ys → 0 ≤ fd_count s < 2 ^ 31 - 1 →
  let f1 := Z.of_nat (malloc_cnt (fsys (proc s))) + 1 in
  malloc_ok (fsys (proc s)) (malloc_cnt (fsys (proc s))) = true → infos s !! f1 = None → list_entry (tail open_list) ≠ f1 →
  f1 + ELEM_OFFSET ∉ copy :: (copy + 8) :: nodes open_list (elem_of <$> ys) →
  ∃ s', (let! f := create_files_struct open_file e in
         let! _ := modify (λ s, set_cells (<[f + ELEM_OFFSET := mk_elem NULL NULL]> (cells s)) s) in
         let! _ := on_cells (list_push_back open_list (f + ELEM_OFFSET)) in
         ret f) s = Ok (f1, s') ∧
    fd_count s' = fd_count s + 1 ∧ fd_inv s' (ys ++ [(f1, mk_info 0 (fd_count s + 1) open_file e false)]).
Proof.
  intros Hinv Hc f1 Hok Hnew Hsen Hel. pose proof Hinv as [Hr Hi Hs Hb Hn [Hc1 Hc2]].
  apply not_elem_of_cons in Hel as [Hel1 Hel]. apply not_elem_of_cons in Hel as [Hel2 Hel].
  set (fi := mk_info 0 (fd_count s + 1) open_file e false). set (a := f1 + ELEM_OFFSET) in *.
  set (p1 := set_fsys (set_malloc_cnt (S (malloc_cnt (fsys (proc s)))) (fsys (proc s))) (proc s)).
  set (s1 := mk_sys p1 (cells s) (<[f1 := fi]> (infos s)) (fd_count s + 1) (work_dir s)).
  assert (create_files_struct open_file e s = Ok (f1, s1)) as E1.
  { unfold create_files_struct. erewrite (bind_Ok (on_files malloc)) by (unfold on_files, on_proc, on_fs, malloc; by rewrite Hok).
    fold f1. rewrite (proj2 (Z.eqb_neq f1 NULL)) by (unfold f1, NULL; lia).
    unfold find_fd. erewrite (bind_Ok _ _ _ (fd_count s + 1)).
    2:{ erewrite (bind_Ok (gets _)) by done. erewrite (bind_Ok (modify _)) by done. unfold gets. simpl.
        by rewrite swrap_id by (unfold in_s; lia). }
    done. }
  rewrite (bind_Ok _ _ _ _ _ E1). erewrite (bind_Ok (modify _)) by done. fold a.
  set (h1 := <[a := mk_elem NULL NULL]> (cells s)). assert (rep h1 open_list (elem_of <$> ys)) as Hr1.
  { eapply ring_off; [|exact Hr]. intros x Hx. unfold h1. rewrite lookup_insert_ne; [done|]. by intros <-. }
  destruct (list_push_back_rep h1 open_list _ a (mk_elem NULL NULL) Hr1 Hel) as (h2 & E2 & Hr2 & _);
    [unfold a, f1, ELEM_OFFSET, NULL; lia|apply lookup_insert_eq|].
  erewrite (bind_Ok (on_cells _)) by (unfold on_cells; simpl; fold h1; by rewrite E2). eexists. split; [done|]. split; [done|].
  assert (elem_of <$> ys ++ [(f1, fi)] = (elem_of <$> ys) ++ [a]) as Ee by (by rewrite fmap_app). split; simpl.
  - by rewrite Ee.
  - intros y [Hy| ->%list_elem_of_singleton]%elem_of_app; [|apply lookup_insert_eq]. rewrite lookup_insert_ne; [by apply Hi|].
    intros E. by rewrite E, (Hi y Hy) in Hnew.
  - rewrite fmap_app. apply increasing_app. split; [done|]. split; [done|].
    intros x y [z [-> Hz]]%list_elem_of_fmap ->%list_elem_of_singleton. unfold fd_of at 2. simpl. pose proof (Hb z Hz). lia.
  - intros y [Hy| ->%list_elem_of_singleton]%elem_of_app; [pose proof (Hb y Hy); lia|done].
  - by rewrite lookup_insert_ne.
  - rewrite Ee. unfold nodes in *. set_solver.
Qed.

(** Closing a regular file takes it out of the table, and gives the descriptor back when
    it was the last one handed out. *)
Lemma close_run s xs y zs f' : fd_inv s (xs ++ y :: zs) → (length (xs ++ y :: zs) < fuel)%nat → 2 < fd_of y → fd_count s < 2 ^ 31 →
  y.1 ≠ NULL → Directory.e_type (dirent y.2) = IS_REG → NoDup ((xs ++ y :: zs).*1) →
  file_close release1 (fi_file y.2) (fsys (proc s)) = Ok (tt, f') →
  ∃ s', sys_close fuel open_list copy (fd_of y) s = Ok (Return None, s') ∧ fd_inv s' (xs ++ zs) ∧ fsys (proc s') = f' ∧
    fd_count s' = if fd_of y =? fd_count s then fd_count s - 1 else fd_count s.
Proof.
  intros Hinv Hf Hfd Hcnt Hn Hreg Hnd Hcl. unfold sys_close.
  destruct (files_helper_run s _ (fd_of y) Hinv Hf) as (s1 & E1 & (h & t & ->) & Hinv1). rewrite (bind_Ok _ _ _ _ _ E1).
  rewrite (find_descriptor_open _ _ y) by (apply Hinv || done || set_solver). rewrite (proj2 (Z.eqb_neq y.1 NULL)) by done.
  rewrite !(proj2 (Z.eqb_neq (fd_of y) _)) by lia. cbn [orb]. set (s1 := copied_state s h t) in *.
  pose proof Hinv1 as [Hr Hi Hs Hb Hsen Hcp]. pose proof (Hi y ltac:(set_solver)) as Hy. rewrite fmap_app, fmap_cons in Hr, Hs.
  erewrite (bind_Ok (load_descriptor _ _)) by (unfold load_descriptor; by rewrite Hy). fold (fd_of y).
  erewrite (bind_Ok (gets _)) by done. change (fd_count s1) with (fd_count s).
  set (c := if fd_of y =? fd_count s then fd_count s - 1 else fd_count s).
  rewrite (bind_Ok _ _ s1 tt (set_fd_count c s1)).
  2:{ unfold c. destruct (Z.eqb_spec (fd_of y) (fd_count s)) as [E|E]; [|by destruct s].
      unfold modify. by rewrite swrap_id by (unfold in_s; lia). }
  destruct (list_remove_rep _ _ _ _ _ Hr) as (h2 & E2 & Hr2 & _).
  erewrite (bind_Ok (on_cells _)) by (unfold on_cells; simpl in *; fold (elem_of y); by rewrite E2).
  erewrite (bind_Ok (load_info _)) by (unfold load_info; simpl in *; by rewrite Hy).
  rewrite Hreg. change (IS_REG =? IS_REG) with true. cbv iota.
  erewrite (bind_Ok (on_files _)) by (unfold on_files, on_proc, on_fs; simpl; by rewrite Hcl).
  erewrite (bind_Ok (free_info _)) by done. eexists. split; [done|]. split; [|done].
  rewrite fmap_app, fmap_cons in Hnd. apply list.NoDup_app in Hnd as (_ & Hx & [Hz _]%list.NoDup_cons).
  assert (∀ z, z ∈ xs ++ zs → z.1 ≠ y.1) as Hne.
  { intros z [Hz'|Hz']%elem_of_app E.
    - apply (Hx z.1); [apply list_elem_of_fmap; eauto|rewrite E; by left].
    - apply Hz. rewrite <-E. apply list_elem_of_fmap. eauto. }
  apply increasing_app in Hs as (Hs1 & [Hs2 Hs3] & Hs4). rewrite list.Forall_forall in Hs2.
  assert (∀ z, z ∈ xs → fd_of z < fd_of y) as Hlx by (intros z Hz'; apply Hs4; [apply list_elem_of_fmap; eauto|by left]).
  assert (∀ z, z ∈ zs → fd_of y < fd_of z) as Hlz by (intros z Hz'; apply Hs2, list_elem_of_fmap; eauto).
  split; simpl.
  - by rewrite fmap_app.
  - intros z Hz'. rewrite lookup_delete_ne by (apply not_eq_sym; by apply Hne). apply Hi. set_solver.
  - rewrite fmap_app. apply increasing_app. split; [done|]. split; [done|]. intros a b Ha Hb'. apply Hs4; [done|by right].
  - intros z Hz'. pose proof (Hb z ltac:(set_solver)) as Hbz. simpl in Hbz. unfold c.
    destruct (Z.eqb_spec (fd_of y) (fd_count s)) as [E|E]; [|done].
    apply elem_of_app in Hz' as [Hz'|Hz']; [pose proof (Hlx z Hz'); lia|pose proof (Hlz z Hz'); lia].
  - by rewrite lookup_delete_None; right.
  - rewrite fmap_app in Hcp |- *. unfold nodes in *. set_solver.
Qed.

(** Closing a regular file closes its [struct file] and takes it out of the table: its
    descriptor is not found any more, every other descriptor still leads to its file, and
    the greatest descriptor is given back when it was the one closed. *)
Theorem sys_close_correct s xs y zs f' : fd_inv s (xs ++ y :: zs) → (length (xs ++ y :: zs) < fuel)%nat → 2 < fd_of y →
  fd_count s < 2 ^ 31 → NoDup ((xs ++ y :: zs).*1) → y.1 ≠ NULL → Directory.e_type (dirent y.2) = IS_REG →
  file_close release1 (fi_file y.2) (fsys (proc s)) = Ok (tt, f') →
  ∃ s', sys_close fuel open_list copy (fd_of y) s = Ok (Return None, s') ∧ fd_inv s' (xs ++ zs) ∧ fsys (proc s') = f' ∧
    fd_count s' = (if fd_of y =? fd_count s then fd_count s - 1 else fd_count s) ∧
    (∃ t, files_helper fuel open_list copy (fd_of y) s' = Ok (NULL, t)) ∧
    ∀ z, z ∈ xs ++ zs → ∃ t, files_helper fuel open_list copy (fd_of z) s' = Ok (z.1, t).
Proof.
  intros Hinv Hf Hfd Hcnt Hnd Hn Hreg Hcl. destruct (close_run s xs y zs f') as (s' & E & Hinv' & Ef & Ec); try done.
  assert (length (xs ++ zs) < fuel)%nat as Hf' by (rewrite length_app in *; simpl in Hf; lia).
  exists s'. do 4 (split; [done|]). split.
  - destruct (files_helper_run s' _ (fd_of y) Hinv' Hf') as (t & E' & _). exists t. rewrite E'. do 2 f_equal.
    pose proof Hinv as [_ _ Hs Hb _ _]. rewrite fmap_app in Hs. apply increasing_app in Hs as (_ & [Hs2 _] & Hs4).
    rewrite list.Forall_forall in Hs2. apply find_descriptor_closed.
    + intros z [Hz|Hz]%elem_of_app Ez.
      * assert (fd_of z < fd_of y); [apply Hs4; [apply list_elem_of_fmap; eauto|by left]|lia].
      * assert (fd_of y < fd_of z); [apply Hs2, list_elem_of_fmap; eauto|lia].
    + rewrite Ec. destruct (Z.eqb_spec (fd_of y) (fd_count s)); lia.
  - intros z Hz. destruct (files_helper_run s' _ (fd_of z) Hinv' Hf') as (t & E' & _). exists t. rewrite E'. do 2 f_equal.
    by apply find_descriptor_open; [apply Hinv'|..].
Qed.
End Descriptors.

(** ** A table with two open files *)

(** A regular file in use, at sector [n]. *)
Definition sample_entry (n : Z) : dir_entry := Z_to_little_endian 4 8 n ++ 97 :: replicate 19 0 ++ [0; 0; 0; 0; 1; 0; 0; 0].
Definition sample_table : list (Z * file_info) :=
  [(1000, mk_info 0 3 7 (sample_entry 5) false); (1100, mk_info 0 4 8 (sample_entry 8) false)].
Definition table_list : clist := mk_clist 5000 5008.
Definition table_cells : CList.heap :=
  list_to_map [(5000, mk_elem 0 1016); (1016, mk_elem 5000 1116); (1116, mk_elem 1016 5008); (5008, mk_elem 1116 0)].
Definition table_state (p : process) : syscalls := mk_sys p table_cells (list_to_map sample_table) 4 NULL.

(** The files of the file system sample, open at positions 0. *)
Definition table_fs1 : fs Cache.store := set_files (<[7 := mk_file 2 0 false]> (files sample)) sample.
Definition table_fs : fs Cache.store := set_files (<[8 := mk_file 3 0 false]> (files table_fs1)) table_fs1.
Definition table_sample : syscalls := table_state (mk_process sample_vm table_fs NULL NULL 0).

Lemma sample_table_inv p : fd_inv table_list 6000 (table_state p) sample_table.
Proof.
  split.
  - split_and!; [apply (bool_decide_eq_true_1 _); vm_compute; reflexivity..|]. by repeat split.
  - intros y [->|[->|[]%elem_of_nil]%elem_of_cons]%elem_of_cons; reflexivity.
  - repeat constructor.
  - intros y [->|[->|[]%elem_of_nil]%elem_of_cons]%elem_of_cons; by vm_compute.
  - reflexivity.
  - split; apply (bool_decide_eq_true_1 _); vm_compute; reflexivity.
Qed.

Lemma files_helper_correct_witness :
  ∃ f s', files_helper 3 table_list 6000 4 table_sample = Ok (f, s') ∧ f = 1100.
Proof.
  destruct (files_helper_correct 3 table_list 6000 table_sample sample_table 4) as (f & s' & E & _ & H & _).
  - apply sample_table_inv.
  - simpl. lia.
  - exists f, s'. split; [exact E|]. apply (H (1100, mk_info 0 4 8 (sample_entry 8) false)); [by right; left|reflexivity].
Defined.

Lemma sys_close_correct_witness :
  ∃ s', sys_close 3 table_list 6000 4 table_sample = Ok (Return None, s') ∧ fd_count s' = 3 ∧
    (∃ t, files_helper 3 table_list 6000 4 s' = Ok (NULL, t)) ∧ ∃ t, files_helper 3 table_list 6000 3 s' = Ok (1000, t).
Proof.
  set (y := (1100, mk_info 0 4 8 (sample_entry 8) false)). set (x := (1000, mk_info 0 3 7 (sample_entry 5) false)).
  destruct (file_close release1 8 table_fs) as [[[] f']| | |] eqn:E; [|vm_compute in E; discriminate E..].
  destruct (sys_close_correct 3 table_list 6000 table_sample [x] y [] f') as (s' & E1 & _ & _ & Ec & Hy & Hx).
  - apply sample_table_inv.
  - simpl. lia.
  - reflexivity.
  - reflexivity.
  - apply (bool_decide_eq_true_1 _). reflexivity.
  - discriminate.
  - reflexivity.
  - exact E.
  - exists s'. split; [exact E1|]. split; [exact Ec|]. split; [exact Hy|]. apply (Hx x). by left.
Defined.
