(* ===== verification/SyscallFiles.v ===== *)
(** * Reading and writing through file descriptors

    A descriptor of an open file as its bytes and a position, and the calls of the handler
    on it: [write], [read], [seek], [tell] and [filesize] do what the model says, in any
    order. *)

From S2P Require Import Prelude Bitmap Palloc Pagedir PagedirSpec PagedirLife CString.
From S2P Require Import CList CListSpec.
From S2P Require Import Block Cache FsState Inode InodeView InodeGrow File FreeMap FreeMapSpec FileSpec Directory Filesys Process ProcessSpec Syscall SyscallSpec.

(** ** The model *)

Record descriptor := mk_descriptor { bytes : list Z; pos : Z }.

Inductive call :=
  | Write (addr : Z) (data : list Z)
  | Read (addr : Z) (buffer : list Z) (size : Z)
  | Seek (new_pos : Z)
  | Tell
  | Filesize.

Definition size_of (a : descriptor) : Z := Z.of_nat (length (bytes a)).

(** What a call returns and makes of the file.  A read at or past the end returns 0, and
    clears the buffer. *)
Definition answer (c : call) (a : descriptor) : action * descriptor :=
  match c with
  | Write _ data =>
      (Return (Some (Z.of_nat (length data))),
       mk_descriptor (written (bytes a) data (Z.to_nat (pos a))) (pos a + Z.of_nat (length data)))
  | Read _ buffer size =>
      if pos a <? size_of a then
        let n := size `min` (size_of a - pos a) in
        (ReturnData n (take (Z.to_nat n) (drop (Z.to_nat (pos a)) (bytes a)) ++ drop (Z.to_nat n) buffer),
         mk_descriptor (bytes a) (pos a + n))
      else (ReturnData 0 (replicate (Z.to_nat size) 0 ++ drop (Z.to_nat size) buffer), a)
  | Seek new_pos => (Return None, mk_descriptor (bytes a) new_pos)
  | Tell => (Return (Some (pos a)), a)
  | Filesize => (Return (Some (size_of a)), a)
  end.

Fixpoint answers (cs : list call) (a : descriptor) : list action :=
  match cs with [] => [] | c :: cs => (answer c a).1 :: answers cs (answer c a).2 end.

Definition to_syscall (fd : Z) (c : call) : syscall :=
  match c with
  | Write addr data => Sys_write fd addr data (Z.of_nat (length data))
  | Read addr buffer size => Sys_read fd addr buffer size []
  | Seek new_pos => Sys_seek fd new_pos
  | Tell => Sys_tell fd
  | Filesize => Sys_filesize fd
  end.

(** Buffers of the user are mapped; a write stays below [cap] bytes; a read past the end is
    of at most a sector. *)
Definition legal (A : gmap Z mapping) (cap : Z) (c : call) (a : descriptor) : Prop :=
  match c with
  | Write addr data => user_addr addr ∧ is_Some (A !! (addr / 4096)) ∧ pos a + Z.of_nat (length data) ≤ cap
  | Read addr buffer size =>
      user_addr addr ∧ addr ≠ NULL ∧ 0 ≤ size < 2 ^ 31 ∧ size ≤ Z.of_nat (length buffer) ∧ (pos a < size_of a ∨ size ≤ 512)
  | Seek new_pos => 0 ≤ new_pos < 2 ^ 31
  | Tell | Filesize => True
  end.

Fixpoint all_legal (A : gmap Z mapping) (cap : Z) (cs : list call) (a : descriptor) : Prop :=
  match cs with [] => True | c :: cs => legal A cap c a ∧ all_legal A cap cs (answer c a).2 end.

(** ** The open file *)

Section Files.
Context {mach : Machine} (Hmach : machine_ok).
Context (file p cap : Z) (i : inode).

(** The [struct file] at [file] is open on the inode at [p], has the bytes and the position
    of [a], and the disk has room for [cap] bytes. *)
Record at_file (f : fs Cache.store) (d : inode_disk) (a : descriptor) : Prop := {
  af_null : file ≠ NULL;
  af_map : file ≠ free_map_file f;
  af_file : ∃ deny, files f !! file = Some (mk_file p (pos a) deny);
  af_ok : file_ok f p i d;
  af_deny : deny_write_cnt i = 0;
  af_bytes : content (dview f) d = bytes a;
  af_pos : 0 ≤ pos a < 2 ^ 31;
  af_cap : length_ d ≤ cap ≤ (124 + 128) * 512;
  af_room : room f d cap }.

Lemma at_size f d a : at_file f d a → size_of a = length_ d.
Proof.
  intros [_ _ _ [_ Ho _ _ _] _ Hb _ _ _]. unfold size_of. rewrite <-Hb. pose proof (io_len _ _ _ _ (op_ok _ _ _ _ Ho)).
  rewrite (length_content (op_ok _ _ _ _ Ho) (λ x, dview_length f x (op_inv _ _ _ _ Ho))). lia.
Qed.

Lemma map_file_files s x g j e : file ≠ free_map_file s → map_file s g j e →
  map_file (set_files (<[file := x]> (files s)) s) g j e.
Proof. intros Hne [Hf Ho ? ? ? ?]. split; try done; [simpl; by rewrite lookup_insert_ne by done|by destruct Ho]. Qed.

(** A change of the position. *)
Lemma file_ok_files s x d : file ≠ free_map_file s → file_ok s p i d → file_ok (set_files (<[file := x]> (files s)) s) p i d.
Proof.
  intros Hne [Hm Ho Hz Hs ?]. set (s' := set_files _ s).
  assert (∀ y, map_private s' y → map_private s y) as Hp.
  { intros y [Hn (g & j & e & [Hf Ho' ? ? ? ?] & Hy)]. split; [done|]. exists g, j, e. split; [|done].
    split; try done; [simpl in Hf; by rewrite lookup_insert_ne in Hf|by destruct Ho']. }
  split; [|by destruct Ho|done| |done].
  - destruct Hm as [? ? ? ? Hf]. split; try done.
    destruct Hf as [?|(g & j & e & Hf)]; [by left|right]. exists g, j, e. by apply map_file_files.
  - intros y [Hy Hy']%Hs. split; [|done]. by intros ?%Hp.
Qed.

Lemma at_moves f d a new_pos deny : at_file f d a → 0 ≤ new_pos < 2 ^ 31 →
  at_file (set_files (<[file := mk_file p new_pos deny]> (files f)) f) d (mk_descriptor (bytes a) new_pos).
Proof.
  intros [Hn Hm [dn Hf] Hok Hd Hb Hp Hc Hr] Hnew. split; try done; [exists deny; apply lookup_insert_eq|by apply file_ok_files].
Qed.

Lemma at_quiet f f' d a : at_file f d a → evolves f f' (dview f) → at_file f' d a.
Proof.
  intros [Hn Hm [dn Hf] Hok Hd Hb Hp Hc Hr] Hev. pose proof (ev_memory _ _ _ Hev) as E. unfold InodeView.memory in E.
  split; try done; [congruence|exists dn; by rewrite (evolves_files _ _ _ Hev)|by eapply file_ok_quiet|by rewrite (ev_view _ _ _ Hev)|].
  destruct (al_quiet f f' (sector i) d) as (_ & _ & Hmono & _); [apply Hok|done|apply Hok|by apply Hmono].
Qed.

(** ** The operations of filesys/file.c *)

Lemma write_run f d a data : at_file f d a → pos a + Z.of_nat (length data) ≤ cap →
  ∃ f' d', file_write allocate1 file data (Z.of_nat (length data)) f = Ok (Z.of_nat (length data), f') ∧
    at_file f' d' (mk_descriptor (written (bytes a) data (Z.to_nat (pos a))) (pos a + Z.of_nat (length data))).
Proof.
  intros Ha Hcap. pose proof Ha as [Hn Hm [dn Hf] Hok Hd Hb Hp Hc Hr]. unfold file_write, FsState.load_file.
  rewrite (bind_Ok _ _ f (mk_file p (pos a) dn) f) by (by rewrite Hf). simpl.
  destruct (file_write_ok f p i d data (pos a)) as (f1 & d' & E & Hok' & Hl & Hcon & Hpr & Hlv); [done..|lia|lia| |].
  { eapply has_free_mono; [exact Hr|]. apply sectors_needed_mono. lia. }
  rewrite (bind_Ok _ _ _ _ _ E). pose proof (pr_objects _ _ _ _ Hpr) as Eo. unfold objects in Eo.
  assert (files f1 = files f) as Ef by congruence. assert (free_map_file f1 = free_map_file f) as Efm by congruence.
  rewrite (bind_Ok _ _ f1 (mk_file p (pos a) dn) f1) by (by rewrite Ef, Hf). simpl. unfold store_file.
  erewrite (bind_Ok (λ s : fs Cache.store, _)) by (rewrite Ef, Hf; done). eexists _, d'. split; [done|].
  rewrite swrap_id by (unfold in_s; lia). rewrite <-Ef.
  apply (at_moves f1 d' (mk_descriptor (written (bytes a) data (Z.to_nat (pos a))) (pos a))); [|lia].
  split; try done; [congruence|exists dn; by rewrite Ef|by rewrite Hcon, Hb|lia|].
  apply Hlv; [lia|exact Hr].
Qed.

Lemma read_run f d a buffer size : at_file f d a → 0 ≤ size < 2 ^ 31 → size ≤ Z.of_nat (length buffer) →
  pos a < size_of a ∨ size ≤ 512 →
  ∃ n data f' a', file_read file buffer size f = Ok ((n, data), f') ∧
    answer (Read 0 buffer size) a = (ReturnData n data, a') ∧ at_file f' d a'.
Proof.
  intros Ha H0 Hbuf Hpast. pose proof Ha as [Hn Hm [dn Hf] Hok Hd Hb Hp Hc Hr]. pose proof (at_size _ _ _ Ha) as Es.
  pose proof Hok as [_ Ho _ _ Hsec].
  set (n := if pos a <? size_of a then size `min` (size_of a - pos a) else 0).
  set (data := if pos a <? size_of a then take (Z.to_nat n) (drop (Z.to_nat (pos a)) (bytes a)) ++ drop (Z.to_nat n) buffer
               else replicate (Z.to_nat size) 0 ++ drop (Z.to_nat size) buffer).
  assert (∃ f1, inode_read_at p buffer size (pos a) f = Ok ((n, data), f1) ∧ evolves f f1 (dview f)) as (f1 & E & Hev).
  { unfold data, n. destruct (Z.ltb_spec (pos a) (size_of a)).
    - destruct (inode_read_at_ok f p i d buffer size (pos a) Ho Hsec ltac:(lia) ltac:(lia) Hbuf) as (f1 & E & Hev).
      exists f1. split; [|done]. rewrite E, Es, Hb. unfold splice. rewrite take_0, app_nil_l, Nat.add_0_l.
      rewrite length_take, length_drop, Nat.min_l by (unfold size_of in *; lia). done.
    - by apply (inode_read_at_past f p i d); [| |lia..]. }
  exists n, data. unfold file_read, FsState.load_file.
  rewrite (bind_Ok _ _ f (mk_file p (pos a) dn) f) by (by rewrite Hf). simpl. rewrite (bind_Ok _ _ _ _ _ E).
  rewrite (bind_Ok _ _ f1 (mk_file p (pos a) dn) f1) by (by rewrite (evolves_files _ _ _ Hev), Hf). simpl. unfold store_file.
  assert (0 ≤ n ∧ pos a + n < 2 ^ 31) as [Hn0 Hn1].
  { unfold n. destruct (Z.ltb_spec (pos a) (size_of a)); lia. }
  rewrite (bind_Ok _ _ f1 tt (set_files (<[file := mk_file p (pos a + n) dn]> (files f1)) f1)).
  2:{ rewrite (evolves_files _ _ _ Hev), Hf. by rewrite swrap_id by (unfold in_s; lia). }
  exists (set_files (<[file := mk_file p (pos a + n) dn]> (files f1)) f1), (mk_descriptor (bytes a) (pos a + n)).
  split; [done|]. split; [|apply at_moves; [by eapply at_quiet|lia]].
  unfold answer, data, n. destruct (Z.ltb_spec (pos a) (size_of a)); [done|]. f_equal. destruct a. simpl. f_equal. lia.
Qed.

Lemma seek_run f d a new_pos : at_file f d a → 0 ≤ new_pos < 2 ^ 31 →
  ∃ f', file_seek file new_pos f = Ok (tt, f') ∧ at_file f' d (mk_descriptor (bytes a) new_pos).
Proof.
  intros Ha H0. pose proof Ha as [Hn _ [dn Hf] _ _ _ _ _ _]. unfold file_seek. rewrite (proj2 (Z.eqb_neq file NULL)), (proj2 (Z.leb_le 0 new_pos)) by (done || lia).
  do 2 rewrite (bind_Ok (ASSERT _) _ f tt f) by done. unfold FsState.load_file.
  rewrite (bind_Ok _ _ f (mk_file p (pos a) dn) f) by (by rewrite Hf). unfold store_file. rewrite Hf. simpl.
  eexists. split; [done|]. by apply at_moves.
Qed.

Lemma tell_run f d a : at_file f d a → file_tell file f = Ok (pos a, f).
Proof.
  intros [Hn _ [dn Hf] _ _ _ _ _ _]. unfold file_tell, FsState.load_file. rewrite (proj2 (Z.eqb_neq file NULL)) by done.
  rewrite (bind_Ok (ASSERT _) _ f tt f) by done. by rewrite (bind_Ok _ _ f (mk_file p (pos a) dn) f) by (by rewrite Hf).
Qed.

Lemma filesize_run f d a : at_file f d a → ∃ f', file_length file f = Ok (size_of a, f') ∧ at_file f' d a.
Proof.
  intros Ha. pose proof Ha as [Hn _ [dn Hf] [_ Ho _ _ _] _ _ _ _ _]. unfold file_length, FsState.load_file.
  rewrite (proj2 (Z.eqb_neq file NULL)) by done. rewrite (bind_Ok (ASSERT _) _ f tt f) by done.
  rewrite (bind_Ok _ _ f (mk_file p (pos a) dn) f) by (by rewrite Hf). rewrite (at_size _ _ _ Ha).
  destruct (inode_length_ok _ _ _ _ Ho) as (f1 & E & Hev). exists f1. split; [done|by eapply at_quiet].
Qed.
End Files.

(** ** The handler *)

Section Handler.
Context {mach : Machine} (Hmach : machine_ok).
Context (fuel : nat) (open_list : clist) (copy esp cap p : Z) (i : inode).
Context (tabs : gmap Z Z) (A : gmap Z mapping) (ys : list (Z * file_info)) (y : Z * file_info).

(** The process has the file [y] open, with the model [a], and a valid stack pointer. *)
Record ready (s : syscalls) (d : inode_disk) (a : descriptor) : Prop := {
  rd_table : fd_inv open_list copy s ys;
  rd_fuel : (length ys < fuel)%nat;
  rd_in : y ∈ ys;
  rd_fd : 2 < fd_of y;
  rd_null : y.1 ≠ NULL;
  rd_kind : Directory.e_type (dirent y.2) ≠ IS_DIR;
  rd_space : space (machine (proc s)) (pagedir (proc s)) tabs A;
  rd_esp : 0x08048000 < esp ∧ esp + 4 < PHYS_BASE ∧ is_Some (A !! (esp / 4096));
  rd_file : at_file (fi_file y.2) p cap i (fsys (proc s)) d a }.

Lemma ready_moves s s' d a d' a' f' : ready s d a → proc s' = set_fsys f' (proc s) → fd_inv open_list copy s' ys →
  at_file (fi_file y.2) p cap i f' d' a' → ready s' d' a'.
Proof. intros [] Hp Ht Hf. split; try done; rewrite Hp; done. Qed.

Lemma on_files_run {B} (g : M (fs Cache.store) B) s x f' : g (fsys (proc s)) = Ok (x, f') →
  on_files g s = Ok (x, set_proc (set_fsys f' (proc s)) s).
Proof. intros E. unfold on_files, on_proc, on_fs. by rewrite E. Qed.

Lemma mapped_page_run s d a u : ready s d a → user_addr u → is_Some (A !! (u / 4096)) →
  ∃ k, on_proc (on_vm (pagedir_get_page (pagedir (proc s)) u)) s = Ok (k, s) ∧ (k =? NULL) = false.
Proof.
  intros Hr Hu [m Hm]. pose proof (rd_space _ _ _ Hr) as Hs. exists (mp_kpage m + u `mod` 4096). split.
  - unfold on_proc, on_vm. rewrite (get_run _ _ _ _ _ Hs Hu), Hm. simpl. by destruct s as [[] ? ? ? ?].
  - apply Z.eqb_neq. apply (sp_dom _ _ _ _ Hs) in Hm as [_ [_ Hk]]. pose proof (Z.mod_pos_bound u 4096).
    unfold PHYS_BASE, NULL in *. lia.
Qed.

Lemma check_esp_run s d a : ready s d a → check_esp esp s = Ok (true, s).
Proof.
  intros Hr. destruct (rd_esp _ _ _ Hr) as (H1 & H2 & H3). unfold check_esp.
  rewrite uwrap_id, (proj2 (Z.leb_gt _ _)), (proj2 (Z.leb_gt _ _)) by (unfold in_u, PHYS_BASE in *; lia). cbn [orb].
  erewrite (bind_Ok (gets _)) by done. destruct (mapped_page_run s d a esp Hr) as (k & E & Hk); [|done|].
  { split; [lia|]. unfold is_user_vaddr. apply Z.ltb_lt. lia. }
  by rewrite (bind_Ok _ _ _ _ _ E), Hk.
Qed.

(** The block for [next_dir], which no call frees. *)
Lemma next_dir_run s d a : ready s d a → ∃ next_dir s', on_files malloc s = Ok (next_dir, s') ∧ ready s' d a.
Proof.
  intros Hr. set (f' := set_malloc_cnt (S (malloc_cnt (fsys (proc s)))) (fsys (proc s))).
  eexists _, _. split; [by apply (on_files_run malloc s _ f')|].
  eapply (ready_moves s); [done|done|by destruct (rd_table _ _ _ Hr)|]. pose proof (rd_file _ _ _ Hr) as Hf.
  eapply at_quiet; [exact Hf|]. split; try done; [apply Hf|simpl; lia].
Qed.

Lemma lookup_descriptor_run s d a : ready s d a →
  ∃ s', files_helper fuel open_list copy (fd_of y) s = Ok (y.1, s') ∧ load_info y.1 s' = Ok (y.2, s') ∧ ready s' d a.
Proof.
  intros Hr. pose proof Hr as [Ht Hfu Hin _ _ _ _ _ _].
  destruct (files_helper_run fuel open_list copy s ys (fd_of y) Ht Hfu) as (s' & E & (h & t & ->) & Ht').
  rewrite (find_descriptor_open open_list _ _ y) in E by (done || apply Ht). eexists. split; [exact E|].
  split; [unfold load_info; by rewrite (fd_infos _ _ _ _ Ht' _ Hin)|].
  eapply ready_moves; [done| |done|apply Hr]. by destruct s as [[] ? ? ? ?].
Qed.

Lemma ready_files s d a d' a' f' : ready s d a → at_file (fi_file y.2) p cap i f' d' a' →
  ready (set_proc (set_fsys f' (proc s)) s) d' a'.
Proof. intros Hr Hf. eapply ready_moves; [done|done| |done]. by destruct (rd_table _ _ _ Hr). Qed.

(** A call that only needs the file. *)
Lemma with_file_run {B} (g : Z → M (fs Cache.store) B) k s d a r a' : ready s d a →
  (∀ f, at_file (fi_file y.2) p cap i f d a →
     ∃ f', g (fi_file y.2) f = Ok (r, f') ∧ at_file (fi_file y.2) p cap i f' d a') →
  ∃ s', with_file fuel open_list copy (fd_of y) (λ file, let! x := g file in ret (k x)) s = Ok (Return (k r), s') ∧ ready s' d a'.
Proof.
  intros Hr Hg. destruct (lookup_descriptor_run _ _ _ Hr) as (s1 & E1 & E2 & Hr1). unfold with_file.
  rewrite (bind_Ok _ _ _ _ _ E1), (proj2 (Z.eqb_neq _ _) (rd_null _ _ _ Hr)), (bind_Ok _ _ _ _ _ E2).
  destruct (Hg _ (rd_file _ _ _ Hr1)) as (f' & Eg & Hf').
  erewrite (bind_Ok (on_files _)) by (apply on_files_run; by rewrite (bind_Ok _ _ _ _ _ Eg)).
  eexists. split; [done|]. by eapply ready_files.
Qed.

Lemma not_directory : Directory.e_type (dirent y.2) ≠ IS_DIR → (Directory.e_type (dirent y.2) =? IS_DIR) = false.
Proof. apply Z.eqb_neq. Qed.

Lemma sys_write_run s d a addr data : ready s d a → legal A cap (Write addr data) a →
  ∃ s' d', write fuel open_list copy (fd_of y) addr data (Z.of_nat (length data)) s = Ok ((answer (Write addr data) a).1, s') ∧
    ready s' d' (answer (Write addr data) a).2.
Proof.
  intros Hr (Hu & Hm & Hc). unfold write. rewrite (proj2 (Z.eqb_neq (fd_of y) 1)) by (pose proof (rd_fd _ _ _ Hr); lia).
  erewrite (bind_Ok (gets _)) by done. destruct (mapped_page_run s d a addr Hr Hu Hm) as (k & Ek & Hk). rewrite (bind_Ok _ _ _ _ _ Ek), Hk.
  destruct (lookup_descriptor_run _ _ _ Hr) as (s1 & E1 & E2 & Hr1).
  rewrite (bind_Ok _ _ _ _ _ E1), (proj2 (Z.eqb_neq _ _) (rd_null _ _ _ Hr)), (bind_Ok _ _ _ _ _ E2), (not_directory (rd_kind _ _ _ Hr)).
  pose proof (rd_file _ _ _ Hr1) as Hf. rewrite swrap_id by (pose proof (af_cap _ _ _ _ _ _ _ Hf); pose proof (af_pos _ _ _ _ _ _ _ Hf); unfold in_s; lia).
  destruct (write_run Hmach _ _ _ _ _ _ _ data Hf Hc) as (f' & d' & Ew & Hf').
  erewrite (bind_Ok (on_files _)) by (apply on_files_run; exact Ew). eexists _, d'. split; [done|]. by eapply ready_files.
Qed.

Lemma sys_read_run s d a addr buffer size : ready s d a → legal A cap (Read addr buffer size) a →
  ∃ s', read fuel open_list copy (fd_of y) addr buffer size s = Ok ((answer (Read addr buffer size) a).1, s') ∧
    ready s' d (answer (Read addr buffer size) a).2.
Proof.
  intros Hr ([_ Hu] & Hn & H0 & Hb & Hp). unfold read. rewrite Hu, (proj2 (Z.eqb_neq addr NULL) Hn). cbn [negb orb].
  destruct (lookup_descriptor_run _ _ _ Hr) as (s1 & E1 & E2 & Hr1).
  rewrite (bind_Ok _ _ _ _ _ E1), (proj2 (Z.eqb_neq _ _) (rd_null _ _ _ Hr)), (bind_Ok _ _ _ _ _ E2), (not_directory (rd_kind _ _ _ Hr)).
  rewrite swrap_id by (unfold in_s; lia).
  destruct (read_run _ _ _ _ _ _ _ buffer size (rd_file _ _ _ Hr1) H0 Hb Hp) as (n & data & f' & a' & Er & Ea & Hf').
  change (answer (Read 0 buffer size) a) with (answer (Read addr buffer size) a) in Ea. rewrite Ea.
  erewrite (bind_Ok (on_files _)) by (apply on_files_run; exact Er). eexists. split; [done|]. by eapply ready_files.
Qed.

(** A call of the handler is a step of the model. *)
Lemma handler_step s d a c : ready s d a → legal A cap c a →
  ∃ s' d', syscall_handler fuel open_list copy esp (to_syscall (fd_of y) c) s = Ok ((answer c a).1, s') ∧ ready s' d' (answer c a).2.
Proof.
  intros Hr Hl. unfold syscall_handler. rewrite (bind_Ok _ _ _ _ _ (check_esp_run _ _ _ Hr)). cbn [negb].
  destruct (next_dir_run _ _ _ Hr) as (nd & s1 & E1 & Hr1). rewrite (bind_Ok _ _ _ _ _ E1). clear E1.
  destruct c as [addr data|addr buffer size|new_pos| |]; unfold to_syscall; cbv beta iota.
  - by apply (sys_write_run s1 d).
  - rewrite (proj2 (Z.eqb_neq (fd_of y) 0)) by (pose proof (rd_fd _ _ _ Hr); lia).
    destruct (sys_read_run _ _ _ _ _ _ Hr1 Hl) as (s' & E & Hr'). exists s', d. by split.
  - simpl in Hl. rewrite swrap_id by (unfold in_s; lia).
    destruct (with_file_run (λ file, file_seek file new_pos) (λ _, None) _ _ _ tt _ Hr1 (λ f Hf, seek_run _ _ _ _ f d a new_pos Hf Hl)) as (s' & E & Hr').
    exists s', d. by split.
  - destruct (with_file_run file_tell Some _ _ _ (pos a) a Hr1) as (s' & E & Hr'); [|exists s', d; by split].
    intros f Hf. exists f. by rewrite (tell_run _ _ _ _ _ _ _ Hf).
  - destruct (with_file_run file_length Some _ _ _ (size_of a) a Hr1) as (s' & E & Hr'); [|exists s', d; by split].
    intros f Hf. by apply filesize_run.
Qed.

(** The calls of a process, one after the other. *)
Fixpoint handle_all (cs : list syscall) : Y (list action) :=
  match cs with
  | [] => ret []
  | c :: cs =>
      let! r := syscall_handler fuel open_list copy esp c in
      let! rs := handle_all cs in
      ret (r :: rs)
  end.

End Handler.

(** ** Calls that stop the kernel *)

Section Stops.
Context {mach : Machine} (fuel : nat) (open_list : clist) (copy : Z).

(** [pagedir_get_page] asserts that the address is one of user space. *)
Lemma get_page_kernel s addr : is_user_vaddr addr = false →
  on_proc (on_vm (pagedir_get_page (pagedir (proc s)) addr)) s = Panic.
Proof. intros H. unfold on_proc, on_vm, pagedir_get_page, bind. by rewrite H. Qed.

(** The end of the word at the top of memory wraps around and passes the first check. *)
Lemma check_esp_wraps s : check_esp 0xfffffffc s = Panic.
Proof.
  unfold check_esp. change ((0xfffffffc <=? 0x08048000) || (PHYS_BASE <=? u32 (0xfffffffc + 4))) with false. cbv iota.
  erewrite (bind_Ok (gets _)) by done. unfold bind. by rewrite get_page_kernel.
Qed.

Lemma mapped_kernel s addr : is_user_vaddr addr = false → mapped addr s = Panic.
Proof. intros H. unfold mapped. erewrite (bind_Ok (gets _)) by done. unfold bind. by rewrite get_page_kernel. Qed.

Lemma write_kernel s fd addr data n : fd ≠ 1 → is_user_vaddr addr = false → write fuel open_list copy fd addr data n s = Panic.
Proof.
  intros Hfd H. unfold write. rewrite (proj2 (Z.eqb_neq fd 1)) by done. erewrite (bind_Ok (gets _)) by done.
  unfold bind. by rewrite get_page_kernel.
Qed.

(** C39. A process can stop the kernel: [write], [create] and [exec] pass the address of
    their argument to [pagedir_get_page] without looking whether it is one of user space,
    and [isdir], [inumber] and [readdir] follow the null pointer for a descriptor that is
    not open. *)
Theorem syscall_handler_panics s esp ys fd addr data n name : check_esp esp s = Ok (true, s) →
  fd_inv open_list copy s ys → (length ys < fuel)%nat → fd ≠ 1 → is_user_vaddr addr = false →
  (∀ y, y ∈ ys → fd_of y ≠ fd) → fd ≠ fd_count s → infos s !! NULL = None →
  Forall (λ c, syscall_handler fuel open_list copy esp c s = Panic)
    [Sys_write fd addr data n; Sys_create addr name n; Sys_exec addr name; Sys_isdir fd; Sys_inumber fd; Sys_readdir fd].
Proof.
  intros Hesp Hinv Hf Hfd Haddr Hno Hc Hnull.
  set (s1 := set_proc (set_fsys (set_malloc_cnt (S (malloc_cnt (fsys (proc s)))) (fsys (proc s))) (proc s)) s).
  assert (∃ nd, on_files malloc s = Ok (nd, s1)) as [nd Em] by (by eexists).
  assert (fd_inv open_list copy s1 ys) as Hinv1 by (by destruct Hinv).
  destruct (files_helper_run _ _ _ s1 ys fd Hinv1 Hf) as (s2 & E2 & (h & t & ->) & _).
  rewrite (find_descriptor_closed _ _ _ fd) in E2 by done.
  assert (addr ≠ 0) as Ha by (intros ->; vm_compute in Haddr; discriminate).
  assert (load_info NULL (copied_state copy s1 h t) = Panic) as El by (unfold load_info; simpl; by rewrite Hnull).
  repeat apply list.Forall_cons_2; [..|by apply Forall_nil]; unfold syscall_handler;
    rewrite (bind_Ok _ _ _ _ _ Hesp); cbn [negb]; rewrite (bind_Ok _ _ _ _ _ Em).
  - by apply write_kernel.
  - unfold sys_create. rewrite (proj2 (Z.eqb_neq addr 0)) by done. unfold bind. by rewrite mapped_kernel.
  - unfold bind. by rewrite mapped_kernel.
  - rewrite (bind_Ok _ _ _ _ _ E2). unfold bind. by rewrite El.
  - rewrite (bind_Ok _ _ _ _ _ E2). unfold bind. by rewrite El.
  - unfold sys_readdir. rewrite (bind_Ok _ _ _ _ _ E2). unfold bind. by rewrite El.
Qed.
End Stops.

(** A process with one mapped page, its stack. *)
Lemma sample_stack : ∃ v pd tabs, space v pd tabs {[ 0xbffff := mk_mapping 0xc010a000 true false false ]}.
Proof.
  destruct (create_run sample_vm sample_base_ok) as [[E _]|(pd & s & E & Hs & _ & _ & _ & _ & _ & Et & _)].
  { apply (f_equal (λ o, match o with Ok (p, _) => p | _ => 1 end)) in E. vm_compute in E. discriminate E. }
  destruct (set_page_run 1024 s pd ∅ ∅ 0xbffff000 0xc010a000 true Hs) as [[E' _]|(s' & tabs & _ & Ha)].
  - intros _ vp w _ Hw. rewrite Et in Hw. discriminate Hw.
  - split; [split; [lia|reflexivity]|]. split; [reflexivity|]. split; [split; [reflexivity|unfold PHYS_BASE; lia]|]. split; reflexivity.
  - exfalso. assert ((let! pd := pagedir_create in pagedir_set_page 1024 pd 0xbffff000 0xc010a000 true) sample_vm = Ok (false, s)) as E2
      by (by rewrite (bind_Ok _ _ _ _ _ E)).
    apply (f_equal (λ o, match o with Ok (p, _) => p | _ => true end)) in E2. vm_compute in E2. discriminate E2.
  - exists s', pd, tabs. apply Ha.
Qed.

Lemma table_file_ok : at_file 7 2 2000 (mk_inode 5 1 false 0) table_fs inode_a (mk_descriptor (content (dview table_fs) inode_a) 0).
Proof.
  split; try done; [eexists; reflexivity| |].
  { apply (file_ok_files 8 2 (mk_inode 5 1 false 0) table_fs1); [done|].
    apply (file_ok_files 7 2 (mk_inode 5 1 false 0) sample); [done|apply sample_a_ok]. }
  apply sample_room. vm_compute. lia.
Qed.

Lemma table_ready v pd tabs : space v pd tabs {[ 0xbffff := mk_mapping 0xc010a000 true false false ]} →
  ready 3 table_list 6000 0xbffffe00 2000 2 (mk_inode 5 1 false 0) tabs {[ 0xbffff := mk_mapping 0xc010a000 true false false ]}
    sample_table (1000, mk_info 0 3 7 (sample_entry 5) false) (table_state (mk_process v table_fs pd NULL 0)) inode_a
    (mk_descriptor (content (dview table_fs) inode_a) 0).
Proof.
  intros Hs. split; [apply sample_table_inv|simpl; lia|by left|done|done|by vm_compute|exact Hs| |exact table_file_ok].
  split; [lia|]. split; [unfold PHYS_BASE; lia|]. eexists. reflexivity.
Qed.


Lemma syscall_handler_panics_witness :
  ∃ v pd, syscall_handler 3 table_list 6000 0xbffffe00 (Sys_write 2 0xc0000000 [1] 1)
      (table_state (mk_process v table_fs pd NULL 0)) = Panic.
Proof.
  destruct sample_stack as (v & pd & tabs & Hs). exists v, pd.
  refine (proj1 (proj1 (list.Forall_cons _ _ _) (syscall_handler_panics 3 table_list 6000
    (table_state (mk_process v table_fs pd NULL 0)) 0xbffffe00 sample_table 2 0xc0000000 [1] 1 [] _ _ _ _ _ _ _ _))).
  - exact (check_esp_run _ _ _ _ _ _ _ _ _ _ _ _ _ _ (table_ready v pd tabs Hs)).
  - apply sample_table_inv.
  - simpl. lia.
  - lia.
  - reflexivity.
  - intros y [->|[->|[]%elem_of_nil]%elem_of_cons]%elem_of_cons; by vm_compute.
  - done.
  - reflexivity.
Defined.
