(* ===== verification/Fsutil.v ===== *)
(** * Files in and out of the file system (filesys/fsutil.c)

    The actions of the kernel command line that copy files between the file system and a tar archive on
    the scratch device, list, print and delete files.  The state joins memory, the file system,
    the scratch device and the two static variables [sector].  Buffers are at the addresses that
    [malloc] and [palloc_get_page] returned, arguments of the definitions here; file names in memory are
    C strings, which the file system gets as lists.  What is printed is left out, except that
    [fsutil_ls] and [fsutil_cat] return what they print. *)

From S2P Require Import Prelude Bitmap Palloc CString CStringSpec CStdlib CStdio CStdioSpec Ustar UstarSpec.
From S2P Require Import Block Cache FsState Inode InodeView InodeGrow File FreeMap FreeMapSpec FileSpec InodeLimits Directory Filesys.
From S2P Require Import SyscallSpec SyscallFiles.

Record util := mk_util {
  mem : Palloc.memory;
  fsys : fs Cache.store;
  scratch : option block;
  extract_sector : Z;
  append_sector : Z }.

Section Fsutil.
Context {mach : Machine} (L : literals) (fuel : nat) (work_dir : Z).

Abbreviation X := (M util).

Definition on_mem {A} (f : B A) : X A := λ s,
  let? '(a, m) := f (mem s) in Ok (a, mk_util m (fsys s) (scratch s) (extract_sector s) (append_sector s)).
Definition on_fsys {A} (f : M (fs Cache.store) A) : X A := λ s,
  let? '(a, f) := f (fsys s) in Ok (a, mk_util (mem s) f (scratch s) (extract_sector s) (append_sector s)).
Definition set_scratch (b : block) : X unit := modify (λ s, mk_util (mem s) (fsys s) (Some b) (extract_sector s) (append_sector s)).
Definition set_extract_sector (n : Z) : X unit := modify (λ s, mk_util (mem s) (fsys s) (scratch s) n (append_sector s)).
Definition set_append_sector (n : Z) : X unit := modify (λ s, mk_util (mem s) (fsys s) (scratch s) (extract_sector s) n).

(** The [n] bytes at [a], and bytes put there. *)
Definition get_bytes (a n : Z) : X (list Z) := gets (λ s, mem s <$> seqZ a n).
Definition put_bytes (a : Z) (bs : list Z) : X unit :=
  on_mem (modify (λ m x, if (a <=? x) && (x <? a + Z.of_nat (length bs)) then default 0 (bs !! Z.to_nat (x - a)) else m x)).

(** The string at [a]. *)
Fixpoint chars (n : nat) (m : Palloc.memory) (a : Z) : option (list Z) :=
  if m a =? 0 then Some []
  else match n with O => None | S n => s ← chars n m (a + 1); Some (m a :: s) end.
Definition get_string (a : Z) : X (list Z) := λ s,
  match chars fuel (mem s) a with Some t => Ok (t, s) | None => OutOfFuel end.

(** [block_get_role (BLOCK_SCRATCH)], and [block_read] and [block_write] on it. *)
Definition get_scratch : X block := λ s, match scratch s with Some b => Ok (b, s) | None => Panic end.
Definition scratch_read (sector buffer : Z) : X unit :=
  let! b := get_scratch in
  let! '(data, b) := lift (block_read b sector) in
  let! _ := set_scratch b in
  put_bytes buffer data.
Definition scratch_write (sector buffer : Z) : X unit :=
  let! b := get_scratch in
  let! data := get_bytes buffer BLOCK_SECTOR_SIZE in
  let! b := lift (block_write b sector data) in
  set_scratch b.

(** ** Listing, printing and deleting *)

Fixpoint ls_loop (n : nat) (dir : Z) : X (list (list Z)) :=
  match n with
  | O => out_of_fuel
  | S n =>
      let! r := on_fsys (dir_readdir fuel dir) in
      match r with
      | Some name => let! names := ls_loop n dir in ret (name :: names)
      | None => ret []
      end
  end.
Definition fsutil_ls : X (list (list Z)) :=
  let! dir := on_fsys (dir_open_root release1) in
  if dir =? NULL then panic else ls_loop fuel dir.

(** The offsets and the bytes that [hex_dump] is called with. *)
Fixpoint cat_loop (n : nat) (file buffer : Z) : X (list (Z * list Z)) :=
  match n with
  | O => out_of_fuel
  | S n =>
      let! pos := on_fsys (file_tell file) in
      let! old := get_bytes buffer PGSIZE in
      let! '(r, data) := on_fsys (file_read file old PGSIZE) in
      let! _ := put_bytes buffer data in
      if r =? 0 then ret []
      else
        let! shown := get_bytes buffer r in
        let! rest := cat_loop n file buffer in
        ret ((pos, shown) :: rest)
  end.
Definition fsutil_cat (file_name buffer : Z) : X (list (Z * list Z)) :=
  let! name := get_string file_name in
  let! file := on_fsys (filesys_open fuel work_dir name) in
  if file =? NULL then panic
  else
    let! r := cat_loop fuel file buffer in
    let! _ := on_fsys (file_close release1 file) in
    ret r.

Definition fsutil_rm (file_name : Z) : X unit :=
  let! name := get_string file_name in
  let! ok := on_fsys (filesys_remove fuel work_dir name) in
  if ok : bool then ret tt else panic.

(** ** Extracting an archive *)

(** [block_read (src, sector++, buffer)]. *)
Definition next_sector (buffer : Z) : X unit :=
  let! n := gets extract_sector in
  let! _ := set_extract_sector (u32 (n + 1)) in
  scratch_read n buffer.

Fixpoint copy_in (n : nat) (dst data size : Z) : X unit :=
  if 0 <? size then
    match n with
    | O => out_of_fuel
    | S n =>
        let chunk_size := if BLOCK_SECTOR_SIZE <? size then BLOCK_SECTOR_SIZE else size in
        let! _ := next_sector data in
        let! bs := get_bytes data chunk_size in
        let! r := on_fsys (file_write allocate1 dst bs chunk_size) in
        if negb (r =? chunk_size) then panic else copy_in n dst data (size - chunk_size)
    end
  else ret tt.

Fixpoint extract_loop (n : nat) (header data : Z) : X unit :=
  match n with
  | O => out_of_fuel
  | S n =>
      let! _ := next_sector header in
      let! r := on_mem (ustar_parse_header L fuel header) in
      match r with
      | Failed _ => panic
      | Parsed file_name type size =>
          if type =? USTAR_EOF then ret tt
          else if type =? USTAR_DIRECTORY then extract_loop n header data
          else if type =? USTAR_REGULAR then
            let! name := get_string file_name in
            let! ok := on_fsys (filesys_create fuel work_dir name size IS_REG) in
            if negb ok then panic
            else
              let! dst := on_fsys (filesys_open fuel work_dir name) in
              if dst =? NULL then panic
              else
                let! _ := copy_in fuel dst data size in
                let! _ := on_fsys (on_disk cache_sync) in
                let! _ := on_fsys (file_close release1 dst) in
                extract_loop n header data
          else extract_loop n header data
      end
  end.

Definition fsutil_extract (header data : Z) : X unit :=
  if (header =? NULL) || (data =? NULL) then panic
  else
    let! _ := get_scratch in
    let! _ := extract_loop fuel header data in
    let! _ := on_mem (memset header 0 BLOCK_SECTOR_SIZE) in
    let! _ := scratch_write 0 header in
    scratch_write 1 header.

(** ** Appending to an archive *)

(** [block_write (dst, sector++, buffer)]. *)
Definition put_sector (buffer : Z) : X unit :=
  let! n := gets append_sector in
  let! _ := set_append_sector (u32 (n + 1)) in
  scratch_write n buffer.

Fixpoint copy_out (n : nat) (src buffer size : Z) : X unit :=
  if 0 <? size then
    match n with
    | O => out_of_fuel
    | S n =>
        let chunk_size := if BLOCK_SECTOR_SIZE <? size then BLOCK_SECTOR_SIZE else size in
        let! sector := gets append_sector in
        let! b := get_scratch in
        if block_size b <=? sector then panic
        else
          let! old := get_bytes buffer chunk_size in
          let! '(r, data) := on_fsys (file_read src old chunk_size) in
          let! _ := put_bytes buffer data in
          if negb (r =? chunk_size) then panic
          else
            let! _ := on_mem (memset (buffer + chunk_size) 0 (BLOCK_SECTOR_SIZE - chunk_size)) in
            let! _ := put_sector buffer in
            copy_out n src buffer (size - chunk_size)
    end
  else ret tt.

(** From the header to the end marker, with the file open. *)
Definition append_file (src file_name buffer : Z) : X unit :=
  let! size := on_fsys (file_length src) in
  let! _ := get_scratch in
  let! ok := on_mem (ustar_make_header L fuel file_name USTAR_REGULAR size buffer) in
  if negb ok then panic
  else
    let! _ := put_sector buffer in
    let! _ := copy_out fuel src buffer size in
    let! _ := on_mem (memset buffer 0 BLOCK_SECTOR_SIZE) in
    let! sector := gets append_sector in
    let! _ := scratch_write sector buffer in
    scratch_write sector (buffer + 1).

Definition fsutil_append (file_name buffer : Z) : X unit :=
  if buffer =? NULL then panic
  else
    let! name := get_string file_name in
    let! src := on_fsys (filesys_open fuel work_dir name) in
    if src =? NULL then panic
    else
      let! _ := append_file src file_name buffer in
      on_fsys (file_close release1 src).
End Fsutil.

(** ** Bytes in memory *)

Definition poke (a : Z) (bs : list Z) (m : Palloc.memory) : Palloc.memory :=
  λ x, if (a <=? x) && (x <? a + Z.of_nat (length bs)) then default 0 (bs !! Z.to_nat (x - a)) else m x.

Lemma poke_outside a bs m : same_outside m (poke a bs m) a (a + Z.of_nat (length bs)).
Proof. intros x Hx. unfold poke. destruct (Z.leb_spec a x), (Z.ltb_spec x (a + Z.of_nat (length bs))); try done. lia. Qed.

Lemma poke_at a bs m k c : bs !! k = Some c → poke a bs m (a + Z.of_nat k) = c.
Proof.
  intros Hk. apply lookup_lt_Some in Hk as Hl. unfold poke. rewrite (proj2 (Z.leb_le _ _)), (proj2 (Z.ltb_lt _ _)) by lia. cbn [andb].
  replace (Z.to_nat (a + Z.of_nat k - a)) with k by lia. by rewrite Hk.
Qed.

Lemma poke_ok a bs m : Forall (in_u 8) bs → bytes_ok m → bytes_ok (poke a bs m).
Proof.
  intros Hb Hm x. unfold poke. destruct (_ && _); [|apply Hm]. destruct (bs !! _) as [c|] eqn:E; [|done].
  by apply (Forall_lookup_1 _ _ _ _ Hb E).
Qed.

(** What was put somewhere is found there. *)
Lemma get_poke a bs m n : 0 ≤ n ≤ Z.of_nat (length bs) → (poke a bs m) <$> seqZ a n = take (Z.to_nat n) bs.
Proof.
  intros Hn. apply list_eq. intros k. rewrite list_lookup_fmap. destruct (decide (Z.of_nat k < n)) as [Hk|Hk].
  - rewrite lookup_seqZ_lt by lia. rewrite lookup_take_lt by lia. destruct (lookup_lt_is_Some_2 bs k) as [c Hc]; [lia|].
    rewrite Hc. simpl. f_equal. by apply poke_at.
  - rewrite lookup_seqZ_ge by lia. by rewrite lookup_take_ge by lia.
Qed.

(** ** The sectors of a file *)

Definition pad (bs : list Z) : list Z := bs ++ replicate (512 - length bs) 0.
Fixpoint chunks (n : nat) (bs : list Z) : list (list Z) :=
  match n, bs with
  | S n, _ :: _ => pad (take 512 bs) :: chunks n (drop 512 bs)
  | _, _ => []
  end.
Definition file_blocks (bs : list Z) : list (list Z) := chunks (length bs) bs.

Lemma chunks_more n k bs : (length bs ≤ n)%nat → (length bs ≤ k)%nat → chunks n bs = chunks k bs.
Proof.
  revert k bs. induction n as [|n IH]; intros k bs Hn Hk; [by destruct bs, k; simpl in *; try lia|].
  destruct bs as [|c bs]; [by destruct k|]. destruct k as [|k]; [simpl in Hk; lia|]. cbn [chunks]. f_equal.
  apply IH; rewrite length_drop; simpl in *; lia.
Qed.
Lemma file_blocks_cons bs : bs ≠ [] → file_blocks bs = pad (take 512 bs) :: file_blocks (drop 512 bs).
Proof.
  intros Hb. unfold file_blocks. destruct bs as [|c bs]; [done|]. cbn [length chunks]. f_equal.
  apply chunks_more; rewrite length_drop; simpl; lia.
Qed.
Lemma length_pad bs : (length bs ≤ 512)%nat → length (pad bs) = 512%nat.
Proof. intros. unfold pad. rewrite length_app, length_replicate. lia. Qed.

(** The sectors [l] are on the device from [q] on. *)
Definition laid (b : block) (q : Z) (l : list (list Z)) : Prop := ∀ k sec, l !! k = Some sec → contents b (q + Z.of_nat k) = sec.
(** Nothing else changed. *)
Definition only (b b' : block) (q n : Z) : Prop := ∀ j, ¬ q ≤ j < q + n → contents b' j = contents b j.

Lemma laid_cons b q sec l : contents b q = sec → laid b (q + 1) l → laid b q (sec :: l).
Proof.
  intros H0 Hl [|k] x Hk; simpl in Hk; [injection Hk as <-; by rewrite Z.add_0_r|].
  rewrite <-(Hl k x Hk). f_equal. lia.
Qed.
Lemma laid_only b b' q l p n : laid b q l → only b b' p n → p + n ≤ q ∨ q + Z.of_nat (length l) ≤ p → laid b' q l.
Proof. intros Hl Ho Hd k sec Hk. apply lookup_lt_Some in Hk as Hlt. rewrite (Ho (q + Z.of_nat k)) by lia. by apply Hl. Qed.

(** ** Copying out *)

(** The state with the device [b]. *)
Definition with_scratch (b : block) (s : util) : util := mk_util (mem s) (fsys s) (Some b) (extract_sector s) (append_sector s).

Lemma scratch_write_run s b q buffer : scratch s = Some b → block_wf b → q < blk_size b →
  ∃ b', scratch_write q buffer s = Ok (tt, with_scratch b' s) ∧ block_wf b' ∧ blk_size b' = blk_size b ∧
    contents b' q = mem s <$> seqZ buffer 512 ∧ only b b' q 1.
Proof.
  intros Hs Hwf Hq. unfold scratch_write. rewrite (bind_Ok _ _ s b s) by (unfold get_scratch; by rewrite Hs).
  rewrite (bind_Ok (get_bytes _ _) _ s _ s eq_refl).
  destruct (block_write_ok b q (mem s <$> seqZ buffer BLOCK_SECTOR_SIZE) Hwf Hq) as (b' & E & Hc & Hz & Hwf'); [by rewrite length_fmap, length_seqZ|].
  rewrite (bind_Ok (lift _) _ s b' s) by (unfold lift; by rewrite E). exists b'. split; [done|]. split; [done|]. split; [done|]. rewrite Hc.
  split; [by rewrite fn_lookup_insert|]. intros j Hj. rewrite Hc. by rewrite fn_lookup_insert_ne by lia.
Qed.

Lemma put_sector_run s b q buffer : scratch s = Some b → block_wf b → append_sector s = q → 0 ≤ q < blk_size b →
  ∃ b', put_sector buffer s = Ok (tt, mk_util (mem s) (fsys s) (Some b') (extract_sector s) (q + 1)) ∧ block_wf b' ∧ blk_size b' = blk_size b ∧
    contents b' q = mem s <$> seqZ buffer 512 ∧ only b b' q 1.
Proof.
  intros Hs Hwf Hq Hb. unfold put_sector. rewrite (bind_Ok (gets _) _ s q s) by (unfold gets; by rewrite Hq).
  pose proof (block_wf_size _ Hwf) as Hz. unfold in_u in Hz. erewrite (bind_Ok (set_append_sector _)) by done. rewrite uwrap_id by (unfold in_u; lia).
  apply (scratch_write_run (mk_util (mem s) (fsys s) (scratch s) (extract_sector s) (q + 1)) b q buffer Hs Hwf). lia.
Qed.

Section Out.
Context {mach : Machine} (Hmach : machine_ok) (src p cap : Z) (i : inode) (buffer : Z) (Hbuf : 0 < buffer).
Context (bs : list Z) (Hbytes : Forall (in_u 8) bs).

Lemma read_chunk f d pos n old : at_file src p cap i f d (mk_descriptor bs pos) → 0 ≤ n ≤ 512 → n = Z.of_nat (length old) →
  pos + n ≤ Z.of_nat (length bs) → 0 < n →
  ∃ f', file_read src old n f = Ok ((n, take (Z.to_nat n) (drop (Z.to_nat pos) bs)), f') ∧ at_file src p cap i f' d (mk_descriptor bs (pos + n)).
Proof.
  intros Hf Hn Ho Hp H0. destruct (read_run src p cap i f d (mk_descriptor bs pos) old n Hf) as (r & data & f' & a' & E & Ha & Hf');
    [lia|lia|right; lia|]. unfold answer in Ha. cbn in Ha. unfold size_of in Ha. cbn in Ha.
  rewrite (proj2 (Z.ltb_lt _ _)) in Ha by lia. rewrite Z.min_l in Ha by lia. injection Ha as <- <- <-.
  exists f'. split; [|done]. rewrite E. by rewrite (drop_ge old), app_nil_r by lia.
Qed.

(** One round of the loop: a sector of the file, filled up with zeros, is on the device. *)
Lemma copy_out_round n s d b pre rest : bs = pre ++ rest → rest ≠ [] → at_file src p cap i (fsys s) d (mk_descriptor bs (Z.of_nat (length pre))) →
  scratch s = Some b → block_wf b → 0 ≤ append_sector s < blk_size b → bytes_ok (mem s) →
  let c := take 512 rest in
  ∃ s' b', copy_out (S n) src buffer (Z.of_nat (length rest)) s = copy_out n src buffer (Z.of_nat (length (drop 512 rest))) s' ∧
    at_file src p cap i (fsys s') d (mk_descriptor bs (Z.of_nat (length (pre ++ c)))) ∧ scratch s' = Some b' ∧ block_wf b' ∧ blk_size b' = blk_size b ∧
    append_sector s' = append_sector s + 1 ∧ extract_sector s' = extract_sector s ∧ bytes_ok (mem s') ∧
    same_outside (mem s) (mem s') buffer (buffer + 512) ∧ contents b' (append_sector s) = pad c ∧ only b b' (append_sector s) 1.
Proof.
  intros Hbs Hne Hf Hs Hwf Hq Hm c. assert (0 < length rest)%nat as Hr by (destruct rest; simpl; lia || done).
  assert (length c = length rest `min` 512)%nat as Hlc by (unfold c; rewrite length_take; lia).
  cbn [copy_out]. rewrite (proj2 (Z.ltb_lt 0 _)) by lia. set (chunk := if BLOCK_SECTOR_SIZE <? _ then _ else _).
  assert (chunk = Z.of_nat (length c)) as Ec by (unfold chunk, BLOCK_SECTOR_SIZE; destruct (Z.ltb_spec 512 (Z.of_nat (length rest))); lia).
  rewrite (bind_Ok (gets append_sector) _ s _ s eq_refl), (bind_Ok _ _ s b s) by (unfold get_scratch; by rewrite Hs).
  unfold block_size. rewrite (proj2 (Z.leb_gt _ _)) by lia. rewrite (bind_Ok (get_bytes _ _) _ s _ s eq_refl).
  destruct (read_chunk (fsys s) d (Z.of_nat (length pre)) chunk (mem s <$> seqZ buffer chunk) Hf) as (f' & E & Hf');
    [lia|rewrite length_fmap, length_seqZ; lia|rewrite Hbs, length_app; lia|lia|].
  assert (take (Z.to_nat chunk) (drop (Z.to_nat (Z.of_nat (length pre))) bs) = c) as Ed.
  { rewrite Nat2Z.id, Hbs, drop_app_length, Ec, Nat2Z.id, Hlc. unfold c. destruct (decide (length rest ≤ 512)%nat); [rewrite !take_ge by lia; done|f_equal; lia]. }
  rewrite Ed in E. erewrite (bind_Ok (on_fsys _)) by (unfold on_fsys; by rewrite E). cbv iota beta.
  erewrite (bind_Ok (put_bytes _ _)) by done. rewrite Z.eqb_refl. cbn [negb mem fsys scratch extract_sector append_sector]. fold (poke buffer c (mem s)).
  assert (Forall (in_u 8) c) as Hcb by (rewrite Hbs in Hbytes; apply Forall_app in Hbytes as [_ ?]; by apply Forall_take).
  destruct (memset_run (poke buffer c (mem s)) (buffer + chunk) 0 (BLOCK_SECTOR_SIZE - chunk)) as (m2 & E2 & Hm2 & Hx2);
    [by apply poke_ok|unfold NULL; lia|unfold BLOCK_SECTOR_SIZE; lia|].
  erewrite (bind_Ok (on_mem _)) by (unfold on_mem; cbn [mem]; by rewrite E2). cbn [mem fsys scratch extract_sector append_sector].
  set (s2 := mk_util m2 f' (scratch s) (extract_sector s) (append_sector s)).
  destruct (put_sector_run s2 b (append_sector s) buffer Hs Hwf eq_refl Hq) as (b' & E3 & Hwf' & Hz & Hc & Ho). rewrite (bind_Ok _ _ _ _ _ E3).
  assert (same_outside (mem s) m2 buffer (buffer + 512)) as Hso.
  { intros x Hx. rewrite Hx2, bool_decide_eq_false_2 by (unfold BLOCK_SECTOR_SIZE; lia). apply poke_outside. lia. }
  eexists _, b'. split; [f_equal; rewrite length_drop; lia|]. cbn [mem fsys scratch extract_sector append_sector]. split_and!; try done.
  { rewrite length_app. replace (Z.of_nat (length pre + length c)) with (Z.of_nat (length pre) + chunk) by lia. done. }
  rewrite Hc. cbn [mem s2]. apply list_eq. intros k. rewrite list_lookup_fmap. unfold pad.
  destruct (decide (k < 512)%nat); [|rewrite lookup_seqZ_ge by lia; symmetry; apply lookup_ge_None_2; fold (pad c); rewrite length_pad by lia; lia].
  rewrite lookup_seqZ_lt by lia. cbn [fmap option_fmap option_map]. rewrite Hx2. unfold BLOCK_SECTOR_SIZE. destruct (decide (k < length c)%nat) as [Hk|Hk].
  - rewrite bool_decide_eq_false_2 by lia. rewrite lookup_app_l by done. destruct (lookup_lt_is_Some_2 c k Hk) as [x Hkx]. rewrite Hkx. f_equal. by apply poke_at.
  - rewrite bool_decide_eq_true_2 by lia. rewrite lookup_app_r by lia. by rewrite lookup_replicate_2 by lia.
Qed.

Lemma copy_out_run n : ∀ s d b pre rest, bs = pre ++ rest → (length rest ≤ n)%nat → at_file src p cap i (fsys s) d (mk_descriptor bs (Z.of_nat (length pre))) →
  scratch s = Some b → block_wf b → 0 ≤ append_sector s → append_sector s + Z.of_nat (length (file_blocks rest)) ≤ blk_size b → bytes_ok (mem s) →
  let nsec := Z.of_nat (length (file_blocks rest)) in
  ∃ s' b', copy_out n src buffer (Z.of_nat (length rest)) s = Ok (tt, s') ∧
    at_file src p cap i (fsys s') d (mk_descriptor bs (Z.of_nat (length bs))) ∧ scratch s' = Some b' ∧ block_wf b' ∧ blk_size b' = blk_size b ∧
    append_sector s' = append_sector s + nsec ∧ extract_sector s' = extract_sector s ∧ bytes_ok (mem s') ∧
    same_outside (mem s) (mem s') buffer (buffer + 512) ∧ laid b' (append_sector s) (file_blocks rest) ∧ only b b' (append_sector s) nsec.
Proof.
  induction n as [|n IH]; intros s d b pre rest Hbs Hn Hf Hs Hwf Hq Hroom Hm nsec.
  all: destruct (decide (rest = [])) as [->|Hne].
  1, 3: rewrite app_nil_r in Hbs; subst pre; exists s, b; cbn [copy_out length Z.of_nat Z.ltb Z.compare file_blocks chunks]; split_and!; try done;
    by rewrite Z.add_0_r.
  1: destruct rest; [done|simpl in Hn; lia].
  unfold nsec. clear nsec. rewrite (file_blocks_cons rest Hne) in Hroom |- *. cbn [length] in Hroom |- *.
  destruct (copy_out_round n s d b pre rest Hbs Hne Hf Hs Hwf ltac:(lia) Hm) as (s1 & b1 & E1 & Hf1 & Hs1 & Hwf1 & Hz1 & Ha1 & He1 & Hm1 & Hso1 & Hc1 & Ho1).
  destruct (IH s1 d b1 (pre ++ take 512 rest) (drop 512 rest)) as (s' & b' & E & Hf' & Hs' & Hwf' & Hz' & Ha' & He' & Hm' & Hso' & Hl' & Ho'); try done.
  { by rewrite <-app_assoc, take_drop. } { rewrite length_drop. destruct rest; simpl in *; [done|lia]. } { lia. } { lia. }
  exists s', b'. rewrite E1. split_and!; try done; [lia|lia|lia|..].
  - intros x Hx. rewrite Hso', Hso1 by lia. done.
  - apply laid_cons; [|by rewrite Ha1 in Hl'].
    rewrite (Ho' (append_sector s)) by lia. done.
  - intros j Hj. rewrite (Ho' j), (Ho1 j) by lia. done.
Qed.
End Out.

(** ** Copying in *)

Lemma next_sector_run s b e buffer : scratch s = Some b → extract_sector s = e → 0 ≤ e < blk_size b → in_u 32 (blk_size b) →
  ∃ b', next_sector buffer s = Ok (tt, mk_util (poke buffer (contents b e) (mem s)) (fsys s) (Some b') (e + 1) (append_sector s)) ∧
    contents b' = contents b ∧ blk_size b' = blk_size b ∧ (block_wf b → block_wf b').
Proof.
  intros Hs He Hb Hz. unfold in_u in Hz. destruct (block_read_ok b e ltac:(lia)) as (b' & E & Hc & Hz' & Hwf). exists b'. split; [|done].
  unfold next_sector. rewrite (bind_Ok (gets _) _ s e s) by (unfold gets; by rewrite He). erewrite (bind_Ok (set_extract_sector _)) by done.
  rewrite uwrap_id by (unfold in_u; lia). unfold scratch_read. erewrite (bind_Ok get_scratch) by (unfold get_scratch; cbn; by rewrite Hs).
  erewrite (bind_Ok (lift _)) by (unfold lift; by rewrite E). done.
Qed.

Section In.
Context {mach : Machine} (Hmach : machine_ok) (dst p cap : Z) (i : inode) (data : Z).

Lemma written_chunk (pre old c : list Z) : (length c ≤ length old)%nat → written (pre ++ old) c (length pre) = (pre ++ c) ++ drop (length c) old.
Proof.
  intros Hc. unfold written, splice. rewrite length_app. replace (length pre + length c - (length pre + length old))%nat with 0%nat by lia.
  rewrite app_nil_r, take_app_length, <-app_assoc. do 2 f_equal. rewrite drop_app_ge by lia. f_equal. lia.
Qed.

Lemma copy_in_round n s d b pre old rest : rest ≠ [] → length old = length rest → at_file dst p cap i (fsys s) d (mk_descriptor (pre ++ old) (Z.of_nat (length pre))) →
  Z.of_nat (length (pre ++ rest)) ≤ cap → scratch s = Some b → in_u 32 (blk_size b) → 0 ≤ extract_sector s < blk_size b →
  contents b (extract_sector s) = pad (take 512 rest) →
  let c := take 512 rest in
  ∃ s' d' b', copy_in (S n) dst data (Z.of_nat (length rest)) s = copy_in n dst data (Z.of_nat (length (drop 512 rest))) s' ∧
    at_file dst p cap i (fsys s') d' (mk_descriptor ((pre ++ c) ++ drop 512 old) (Z.of_nat (length (pre ++ c)))) ∧
    scratch s' = Some b' ∧ blk_size b' = blk_size b ∧ contents b' = contents b ∧ extract_sector s' = extract_sector s + 1.
Proof.
  intros Hne Hlo Hf Hcap Hs Hz He Hc c. assert (0 < length rest)%nat as Hr by (destruct rest; simpl; lia || done).
  assert (length c = length rest `min` 512)%nat as Hlc by (unfold c; rewrite length_take; lia).
  cbn [copy_in]. rewrite (proj2 (Z.ltb_lt 0 _)) by lia. set (chunk := if BLOCK_SECTOR_SIZE <? _ then _ else _).
  assert (chunk = Z.of_nat (length c)) as Ec by (unfold chunk, BLOCK_SECTOR_SIZE; destruct (Z.ltb_spec 512 (Z.of_nat (length rest))); lia).
  destruct (next_sector_run s b (extract_sector s) data Hs eq_refl He Hz) as (b' & E & Hcb & Hzb & _). rewrite (bind_Ok _ _ _ _ _ E).
  erewrite (bind_Ok (get_bytes _ _)) by done. cbn [mem]. rewrite Hc. fold c.
  rewrite get_poke by (rewrite length_pad by lia; lia). rewrite Ec, Nat2Z.id. unfold pad. rewrite take_app_length.
  rewrite length_app in Hcap.
  destruct (write_run Hmach dst p cap i (fsys s) d _ c Hf) as (f' & d' & E2 & Hf'); [cbn; lia|]. cbn [bytes pos] in Hf'. rewrite Nat2Z.id in Hf'.
  erewrite (bind_Ok (on_fsys _)) by (unfold on_fsys; cbn [fsys]; by rewrite E2). rewrite Z.eqb_refl. cbn [negb].
  eexists _, d', b'. split; [f_equal; rewrite length_drop; lia|]. cbn [mem fsys scratch extract_sector]. split; [|done].
  rewrite written_chunk in Hf' by lia. rewrite length_app, Nat2Z.inj_add.
  replace (drop 512 old) with (drop (length c) old); [done|]. destruct (decide (length rest ≤ 512)%nat); [by rewrite !drop_ge by lia|]. f_equal. lia.
Qed.

Lemma copy_in_run n : ∀ s d b pre old rest, (length rest ≤ n)%nat → length old = length rest →
  at_file dst p cap i (fsys s) d (mk_descriptor (pre ++ old) (Z.of_nat (length pre))) →
  Z.of_nat (length (pre ++ rest)) ≤ cap → scratch s = Some b → in_u 32 (blk_size b) → 0 ≤ extract_sector s →
  extract_sector s + Z.of_nat (length (file_blocks rest)) ≤ blk_size b → laid b (extract_sector s) (file_blocks rest) →
  ∃ s' d' b', copy_in n dst data (Z.of_nat (length rest)) s = Ok (tt, s') ∧
    at_file dst p cap i (fsys s') d' (mk_descriptor (pre ++ rest) (Z.of_nat (length (pre ++ rest)))) ∧
    scratch s' = Some b' ∧ contents b' = contents b ∧ extract_sector s' = extract_sector s + Z.of_nat (length (file_blocks rest)).
Proof.
  induction n as [|n IH]; intros s d b pre old rest Hn Hlo Hf Hcap Hs Hz He Hroom Hl.
  all: destruct (decide (rest = [])) as [->|Hne].
  1, 3: destruct old; [|done]; exists s, d, b; cbn [copy_in length Z.of_nat Z.ltb Z.compare file_blocks chunks]; rewrite !app_nil_r, Z.add_0_r in *; by split_and!.
  1: destruct rest; [done|simpl in Hn; lia].
  rewrite (file_blocks_cons rest Hne) in Hroom, Hl |- *. cbn [length] in Hroom |- *.
  destruct (copy_in_round n s d b pre old rest Hne Hlo Hf Hcap Hs Hz ltac:(lia)) as (s1 & d1 & b1 & E1 & Hf1 & Hs1 & Hz1 & Hc1 & He1).
  { rewrite <-(Hl 0%nat _ eq_refl). f_equal. lia. }
  destruct (IH s1 d1 b1 (pre ++ take 512 rest) (drop 512 old) (drop 512 rest)) as (s' & d' & b' & E & Hf' & Hs' & Hc' & He'); try done.
  { rewrite length_drop. destruct rest; simpl in *; [done|lia]. } { rewrite !length_drop. lia. } { by rewrite <-app_assoc, take_drop. }
  { by rewrite Hz1. } { lia. } { lia. }
  { intros k sec Hk. rewrite Hc1, He1, <-(Hl (S k) sec Hk). f_equal. lia. }
  exists s', d', b'. rewrite E1. split; [done|]. rewrite <-app_assoc, take_drop in Hf'. split; [done|]. split; [done|]. split; [congruence|lia].
Qed.
End In.

(** ** The archive *)

Lemma cstr_move m m' s : ∀ a b, (∀ j, 0 ≤ j ≤ Z.of_nat (length s) → m' (b + j) = m (a + j)) → cstr m a s → cstr m' b s.
Proof.
  induction s as [|c s IH]; intros a b Hj Hs; simpl in *.
  - specialize (Hj 0 ltac:(lia)). rewrite !Z.add_0_r in Hj. congruence.
  - destruct Hs as (Hc & Ha & Hs). split; [done|]. split.
    + specialize (Hj 0 ltac:(lia)). rewrite !Z.add_0_r in Hj. congruence.
    + apply (IH (a + 1)); [|done]. intros j Hj'. specialize (Hj (j + 1) ltac:(lia)).
      replace (b + 1 + j) with (b + (j + 1)) by lia. by replace (a + 1 + j) with (a + (j + 1)) by lia.
Qed.

(** A header is one wherever it is in memory. *)
Lemma header_move m h m' h' name type size : (∀ k, 0 ≤ k < 512 → m' (h' + k) = m (h + k)) → (length name ≤ 99)%nat →
  header_holds m h name type size → header_holds m' h' name type size.
Proof.
  intros Hk Hn [Hname Hend Hsize Htype Hmagic [Hv0 Hv1] Hprefix Hsum].
  assert (∀ o s, 0 ≤ o → o + Z.of_nat (length s) < 512 → cstr m (h + o) s → cstr m' (h' + o) s) as Hs.
  { intros o s H0 Ho Hc. apply (cstr_move m m' s (h + o)); [|done]. intros j Hj. rewrite <-!Z.add_assoc. apply Hk. lia. }
  assert (∀ o w v, 0 ≤ o → o + w < 512 → octal_at m (h + o) w v → octal_at m' (h' + o) w v) as Ho.
  { intros o w v H0 Ho (ds & Hc & Hds). exists ds. split; [|done]. apply Hs; [done|lia|done]. }
  assert (chksum_of m' h' = chksum_of m h) as Ec.
  { unfold chksum_of. assert (∀ n i, 0 ≤ i → i + Z.of_nat n ≤ 512 → byte_sum m' h' n i = byte_sum m h n i) as H.
    { induction n as [|n IH]; intros i Hi Hn'; [done|]. cbn [byte_sum]. rewrite IH by lia. f_equal. unfold chksum_byte. by rewrite Hk by lia. }
    apply H; unfold USTAR_HEADER_SIZE; lia. }
  unfold NAME, SIZE, TYPEFLAG, MAGIC, VERSION, PREFIX, CHKSUM in *. split; unfold NAME, SIZE, TYPEFLAG, MAGIC, VERSION, PREFIX, CHKSUM.
  - apply Hs; [lia|lia|done].
  - rewrite <-Z.add_assoc, Hk by lia. by rewrite Z.add_assoc.
  - apply Ho; [lia|lia|done].
  - by rewrite Hk by lia.
  - apply Hs; [lia|simpl; lia|done].
  - split; [by rewrite Hk by lia|]. rewrite <-Z.add_assoc, Hk by lia. by rewrite Z.add_assoc.
  - by rewrite Hk by lia.
  - rewrite Ec. apply Ho; [lia|lia|done].
Qed.

(** The sector [hdr] is the header of a regular file. *)
Definition is_header (hdr : list Z) (name : list Z) (size : Z) : Prop :=
  length hdr = 512%nat ∧ Forall (in_u 8) hdr ∧
  ∀ m h, (∀ k c, hdr !! k = Some c → m (h + Z.of_nat k) = c) → header_holds m h name USTAR_REGULAR size.

Lemma is_header_of m h name size : bytes_ok m → (length name ≤ 99)%nat → header_holds m h name USTAR_REGULAR size →
  is_header (m <$> seqZ h 512) name size.
Proof.
  intros Hm Hn Hh. split; [by rewrite length_fmap, length_seqZ|]. split.
  - apply Forall_fmap, list.Forall_forall. intros x _. apply Hm.
  - intros m' h' Hk. apply (header_move m h); [|done|done]. intros k Hk'. rewrite <-(Z2Nat.id k) by lia. apply Hk.
    rewrite list_lookup_fmap, lookup_seqZ_lt by lia. simpl. f_equal.
Qed.

Section Archive.
Context {mach : Machine} (Hmach : machine_ok) (L : literals) (fuel : nat) (Hfuel : (99 ≤ fuel)%nat).

(** What [append_file] leaves on the device. *)
Record appended (b b' : block) (q : Z) (name bs : list Z) (last : Z) : Prop := {
  ap_header : is_header (contents b' q) name (Z.of_nat (length bs));
  ap_data : laid b' (q + 1) (file_blocks bs);
  ap_end : contents b' (q + 1 + Z.of_nat (length (file_blocks bs))) = replicate 511 0 ++ [last];
  ap_only : only b b' q (2 + Z.of_nat (length (file_blocks bs))) }.

Lemma append_file_run src p cap i s d b q file_name buffer name bs :
  at_file src p cap i (fsys s) d (mk_descriptor bs 0) → Forall (in_u 8) bs → (length bs ≤ fuel)%nat → 0 < buffer →
  bytes_ok (mem s) → lits_ok L (mem s) buffer → lit_at (mem s) buffer file_name name → (length name ≤ fuel)%nat → (length (safe_name name) ≤ 99)%nat →
  scratch s = Some b → block_wf b → append_sector s = q → 0 ≤ q → q + 1 + Z.of_nat (length (file_blocks bs)) < blk_size b →
  ∃ s' b', append_file L fuel src file_name buffer s = Ok (tt, s') ∧ at_file src p cap i (fsys s') d (mk_descriptor bs (Z.of_nat (length bs))) ∧
    scratch s' = Some b' ∧ block_wf b' ∧ blk_size b' = blk_size b ∧ append_sector s' = q + 1 + Z.of_nat (length (file_blocks bs)) ∧
    appended b b' q (safe_name name) bs (mem s (buffer + 512)).
Proof.
  intros Hf Hbs Hfb Hbuf Hm HL Hlit Hfn Hsn Hs Hwf Hq H0 Hroom. unfold append_file.
  destruct (filesize_run src p cap i (fsys s) d _ Hf) as (f1 & E1 & Hf1). unfold size_of in E1. cbn [bytes] in E1.
  erewrite (bind_Ok (on_fsys _)) by (unfold on_fsys; by rewrite E1). erewrite (bind_Ok get_scratch) by (unfold get_scratch; cbn [scratch]; by rewrite Hs).
  assert (Z.of_nat (length bs) < 2 ^ 31) as Hlb by (pose proof (at_size _ _ _ _ _ _ _ Hf); pose proof (af_cap _ _ _ _ _ _ _ Hf); unfold size_of in *; cbn in *; lia).
  destruct (make_header_safe L fuel (mem s) buffer file_name name USTAR_REGULAR (Z.of_nat (length bs))) as (m2 & E2 & Hh & Hso2 & Hm2 & _); try done; [by left|lia|].
  erewrite (bind_Ok (on_mem _)) by (unfold on_mem; cbn [mem]; by rewrite E2). cbn [negb mem fsys scratch extract_sector append_sector].
  destruct (put_sector_run (mk_util m2 f1 (Some b) (extract_sector s) (append_sector s)) b q buffer eq_refl Hwf Hq ltac:(lia)) as (b1 & E3 & Hwf1 & Hz1 & Hc1 & Ho1).
  rewrite (bind_Ok _ _ _ _ _ E3). cbn [mem fsys extract_sector] in Hc1 |- *.
  destruct (copy_out_run src p cap i buffer Hbuf bs Hbs fuel (mk_util m2 f1 (Some b1) (extract_sector s) (q + 1)) d b1 [] bs) as
    (s4 & b4 & E4 & Hf4 & Hs4 & Hwf4 & Hz4 & Ha4 & _ & Hm4 & Hso4 & Hl4 & Ho4); try done; [cbn; lia|cbn; lia|].
  rewrite (bind_Ok _ _ _ _ _ E4). cbn [append_sector mem] in Ha4, Hl4, Ho4, Hso4. set (n := Z.of_nat (length (file_blocks bs))) in *.
  destruct (memset_run (mem s4) buffer 0 BLOCK_SECTOR_SIZE Hm4) as (m5 & E5 & Hm5 & Hx5); [unfold NULL; lia|unfold BLOCK_SECTOR_SIZE; lia|].
  erewrite (bind_Ok (on_mem _)) by (unfold on_mem; by rewrite E5). 
  set (s5 := mk_util m5 (fsys s4) (scratch s4) (extract_sector s4) (append_sector s4)).
  rewrite (bind_Ok (gets append_sector) _ s5 (q + 1 + n) s5) by (unfold gets; change (append_sector s5) with (append_sector s4); by rewrite Ha4).
  destruct (scratch_write_run s5 b4 (q + 1 + n) buffer Hs4 Hwf4 ltac:(lia)) as (b5 & E6 & Hwf5 & Hz5 & _ & Ho5). rewrite (bind_Ok _ _ _ _ _ E6).
  destruct (scratch_write_run (with_scratch b5 s5) b5 (q + 1 + n) (buffer + 1) eq_refl Hwf5 ltac:(lia)) as (b6 & E7 & Hwf6 & Hz6 & Hc6 & Ho6).
  eexists _, b6. split; [exact E7|]. cbn [fsys scratch append_sector with_scratch s5]. split; [done|]. split; [done|]. split; [done|]. split; [congruence|]. split; [done|].
  split.
  - rewrite (Ho6 q), (Ho5 q), (Ho4 q), Hc1 by lia. by apply is_header_of.
  - eapply (laid_only b5); [|exact Ho6|lia]. eapply (laid_only b4); [|exact Ho5|lia]. done.
  - fold n. rewrite Hc6. cbn [mem with_scratch s5]. unfold BLOCK_SECTOR_SIZE in Hx5. change 512 with (511 + 1) at 1. rewrite (seqZ_app (buffer + 1) 511 1) by lia. rewrite fmap_app. f_equal.
    + apply list_eq. intros k. rewrite list_lookup_fmap. destruct (decide (k < 511)%nat).
      * rewrite lookup_seqZ_lt, lookup_replicate_2 by lia. simpl. rewrite Hx5, bool_decide_eq_true_2 by lia. done.
      * rewrite lookup_seqZ_ge by lia. symmetry. apply lookup_ge_None_2. rewrite length_replicate. lia.
    + change (seqZ (buffer + 1 + 511) 1) with [buffer + 1 + 511]. cbn [fmap list_fmap]. rewrite Hx5, bool_decide_eq_false_2 by lia.
      replace (buffer + 1 + 511) with (buffer + 512) by lia. rewrite Hso4, (Hso2 (buffer + 512)) by (unfold USTAR_HEADER_SIZE; lia). done.
  - fold n. intros j Hj. rewrite (Ho6 j), (Ho5 j), (Ho4 j), (Ho1 j) by lia. done.
Qed.

(** The header on the device is parsed when it is read back. *)
Lemma parse_back s b q header name size : scratch s = Some b → in_u 32 (blk_size b) → extract_sector s = q → 0 ≤ q < blk_size b →
  is_header (contents b q) (safe_name name) size → 0 ≤ size < 2 ^ 31 → (length (safe_name name) ≤ 99)%nat →
  0 < header → bytes_ok (mem s) → lits_ok L (mem s) header →
  ∃ s' b', (let! _ := next_sector header in on_mem (ustar_parse_header L fuel header)) s = Ok (Parsed (header + NAME) USTAR_REGULAR size, s') ∧
    cstr (mem s') (header + NAME) (safe_name name) ∧ fsys s' = fsys s ∧ scratch s' = Some b' ∧ contents b' = contents b ∧ blk_size b' = blk_size b ∧
    extract_sector s' = q + 1.
Proof.
  intros Hs Hz He Hq (Hl & Hb & Hh) Hsz Hn Hh0 Hm HL. destruct (next_sector_run s b q header Hs He Hq Hz) as (b' & E & Hc & Hz' & _).
  rewrite (bind_Ok _ _ _ _ _ E). set (m := poke header (contents b q) (mem s)).
  assert (header_holds m header (safe_name name) USTAR_REGULAR size) as Hhm by (apply Hh; intros k c Hk; by apply poke_at).
  assert (lits_ok L m header) as HLm.
  { eapply lits_keep; [|exact HL]. pose proof (poke_outside header (contents b q) (mem s)) as Ho. by rewrite Hl in Ho. }
  destruct (safe_name_safe name) as (H1 & H2 & H3).
  pose proof (parse_header_run L fuel header Hh0 Hfuel m (safe_name name) USTAR_REGULAR size ltac:(by apply poke_ok) HLm Hhm ltac:(by left) Hsz Hn
    ltac:(by apply safe_name_id) H1) as Ep. rewrite Z.eqb_refl in Ep.
  unfold on_mem. cbn [mem]. rewrite Ep. eexists _, b'. split; [done|]. cbn [mem fsys scratch extract_sector]. split; [apply Hhm|]. done.
Qed.

End Archive.

(** ** The end of a printed file *)

(** [fsutil_cat] always asks for a page at the end of the file, and so copies memory from behind the array of
    zeros: printing a file never ends in a defined way. *)
Theorem fsutil_cat_undefined {mach : Machine} file p cap i d bs buffer n :
  ∀ s pos, at_file file p cap i (fsys s) d (mk_descriptor bs pos) → pos ≤ Z.of_nat (length bs) →
  Z.of_nat (length bs) - pos < Z.of_nat n → cat_loop n file buffer s = Undef.
Proof.
  induction n as [|n IH]; intros s pos Hf Hp Hn; [lia|]. cbn [cat_loop]. pose proof (af_pos _ _ _ _ _ _ _ Hf) as Hpos. cbn in Hpos.
  erewrite (bind_Ok (on_fsys _)) by (unfold on_fsys; by rewrite (tell_run _ _ _ _ _ _ _ Hf)).
  erewrite (bind_Ok (get_bytes _ _)) by done. cbn [mem fsys scratch extract_sector append_sector].
  set (old := mem s <$> seqZ buffer PGSIZE). assert (length old = 4096%nat) as Hlo by (unfold old; by rewrite length_fmap, length_seqZ).
  destruct (decide (pos = Z.of_nat (length bs))) as [->|Hne].
  - assert (file_read file old PGSIZE (fsys s) = Undef) as E.
    { pose proof Hf as [_ _ [dn Hx] Hok _ _ _ _ _]. unfold file_read, FsState.load_file. cbn [pos] in Hx.
      rewrite (bind_Ok _ _ (fsys s) (mk_file p (Z.of_nat (length bs)) dn) (fsys s)) by (by rewrite Hx). cbn [f_inode f_pos].
      pose proof (at_size _ _ _ _ _ _ _ Hf) as Es. unfold size_of in Es. cbn [bytes] in Es.
      pose proof (inode_read_at_eof (fsys s) p i d old PGSIZE (Z.of_nat (length bs)) Hok ltac:(lia) ltac:(done) ltac:(rewrite Hlo; done)) as H.
      destruct (decide (PGSIZE ≤ 512)) as [Hd|_]; [by vm_compute in Hd|].
      unfold bind. by rewrite H. }
    unfold bind at 1. unfold on_fsys. cbn [fsys]. by rewrite E.
  - destruct (read_run file p cap i (fsys s) d (mk_descriptor bs pos) old PGSIZE Hf) as (r & data & f' & a' & E & Ha & Hf');
      [done|rewrite Hlo; done|left; unfold size_of; cbn; lia|].
    unfold answer in Ha. cbn in Ha. unfold size_of in Ha. cbn in Ha. rewrite (proj2 (Z.ltb_lt _ _)) in Ha by lia. injection Ha as <- <- <-.
    erewrite (bind_Ok (on_fsys _)) by (unfold on_fsys; cbn [fsys]; by rewrite E). cbv iota beta. erewrite (bind_Ok (put_bytes _ _)) by done.
    assert (0 < PGSIZE) by done. rewrite (proj2 (Z.eqb_neq _ 0)) by lia. erewrite (bind_Ok (get_bytes _ _)) by done. unfold bind at 1.
    erewrite IH; [done|exact Hf'|lia|lia].
Qed.

(** ** An example *)

(** The file of 600 bytes of the sample file system, the name "../a" at 2100, and a device of 64 empty sectors. *)
Definition sample_scratch : block := mk_block BLOCK_SCRATCH 64 (λ _, replicate 512 0) 0 0.
Definition sample_bytes : list Z := content (dview table_fs) inode_a.
Definition sample_util (b : block) : util := mk_util (strings_at sample_strings) table_fs (Some b) 0 0.

Lemma sample_mem_ok : bytes_ok (strings_at sample_strings).
Proof. apply strings_at_ok. repeat constructor; simpl; lia. Qed.
Lemma sample_bytes_ok : Forall (in_u 8) sample_bytes ∧ length sample_bytes = 600%nat ∧ length (file_blocks sample_bytes) = 2%nat.
Proof.
  assert (forallb (λ x, (0 <=? x) && (x <? 256)) sample_bytes = true ∧ length sample_bytes = 600%nat ∧ length (file_blocks sample_bytes) = 2%nat) as (Hb & Hl)
    by (vm_compute; done).
  split; [|exact Hl]. eapply forallb_Forall_1; [|exact Hb]. intros x [H1%Z.leb_le H2%Z.ltb_lt]%andb_true_iff. unfold in_u. lia.
Qed.

