(* ===== verification/Wait.v ===== *)
(** * Waiting for processes (userprog/process.c, [handle_exit] of userprog/syscall.c)

    Every started process has a [struct wait_status] in the global list [wait_list], through
    which it leaves its exit code to its parent.  A process that has to wait stops in
    [sema_down]: [process_wait] then returns the status it waits for, and [wait_resume] is
    the rest of it. *)

From S2P Require Import Prelude FsState Inode Syscall CList.

(** ** State *)

(** [end_p] is the value of the semaphore. *)
Record wait_status := mk_status {
  return_val : Z;
  child_pid : Z;
  parent_pid : Z;
  end_p : Z;
  ref_cnt : Z }.

(** The list elements and the statuses of the heap. *)
Record waits := mk_waits { cells : heap; statuses : gmap Z wait_status }.
Abbreviation W := (M waits).

Definition set_cells (h : heap) (s : waits) : waits := mk_waits h (statuses s).
Definition set_statuses (m : gmap Z wait_status) (s : waits) : waits := mk_waits (cells s) m.
Definition on_cells {A} (f : H A) : W A := λ s, let? '(a, h) := f (cells s) in Ok (a, set_cells h s).

(** The offset of [elem]. *)
Definition ELEM_OFFSET : Z := 60.
Definition list_entry (e : Z) : Z := e - ELEM_OFFSET.

Definition load_status (p : Z) : W wait_status := λ s,
  match statuses s !! p with Some x => Ok (x, s) | None => Undef end.
Definition store_status (p : Z) (x : wait_status) : W unit := λ s,
  match statuses s !! p with Some _ => Ok (tt, set_statuses (<[p := x]> (statuses s)) s) | None => Undef end.
Definition free_status (p : Z) : W unit := modify (λ s, set_statuses (delete p (statuses s)) s).

Inductive wait_result :=
  | Done (value : Z)
  | Blocks (status : Z).

Section Wait.
Variable fuel : nat.
Variable wait_list : clist.

(** The part of [process_execute] that registers the child; [p] is the block [malloc]
    returned, with [junk] in it. *)
Definition register (p junk tid parent_tid : Z) : W unit :=
  let! _ := modify (λ s, set_statuses (<[p := mk_status junk tid parent_tid 0 2]> (statuses s)) s) in
  let! _ := modify (λ s, set_cells (<[p + ELEM_OFFSET := mk_elem junk junk]> (cells s)) s) in
  on_cells (list_push_back wait_list (p + ELEM_OFFSET)).

(** [process_wait] after [sema_down], which leaves the semaphore one lower. *)
Definition wait_resume (p : Z) : W Z :=
  let! x := load_status p in
  let! _ := store_status p (mk_status (return_val x) (child_pid x) (parent_pid x) (end_p x - 1) (ref_cnt x)) in
  let! _ := on_cells (list_remove (p + ELEM_OFFSET)) in
  let! x := load_status p in
  let! _ := free_status p in
  ret (return_val x).

Fixpoint wait_loop (n : nat) (now_tid child_tid e : Z) : W wait_result :=
  match n with
  | O => out_of_fuel
  | S n =>
      if e =? list_end wait_list then ret (Done (-1))
      else
        let! x := load_status (list_entry e) in
        if (child_pid x =? child_tid) && (parent_pid x =? now_tid) then
          if end_p x =? 0 then ret (Blocks (list_entry e))
          else let! v := wait_resume (list_entry e) in ret (Done v)
        else
          let! e := on_cells (list_next e) in
          wait_loop n now_tid child_tid e
  end.

Definition process_wait (now_tid child_tid : Z) : W wait_result :=
  let! e := on_cells (list_begin wait_list) in
  wait_loop fuel now_tid child_tid e.

(** What [handle_exit] does to one status, the removal apart. *)
Definition note_exit (now_tid ret_val : Z) (x : wait_status) : wait_status :=
  if child_pid x =? now_tid then mk_status ret_val (child_pid x) (parent_pid x) (u32 (end_p x + 1)) (s32 (ref_cnt x - 1))
  else if parent_pid x =? now_tid then mk_status (return_val x) (child_pid x) (parent_pid x) (end_p x) (s32 (ref_cnt x - 1))
  else x.

Fixpoint exit_loop (n : nat) (now_tid ret_val e : Z) : W unit :=
  match n with
  | O => out_of_fuel
  | S n =>
      if e =? list_end wait_list then ret tt
      else
        let p := list_entry e in
        let! x := load_status p in
        let! _ := store_status p (note_exit now_tid ret_val x) in
        let! x := load_status p in
        let! e := (if ref_cnt x =? 0 then
                     let! e := on_cells (list_remove e) in
                     let! _ := free_status p in
                     ret e
                   else ret e) in
        if e =? list_end wait_list then ret tt
        else
          let! e := on_cells (list_next e) in
          exit_loop n now_tid ret_val e
  end.

(** The loop of [handle_exit]. *)
Definition exit_statuses (now_tid ret_val : Z) : W unit :=
  let! e := on_cells (list_begin wait_list) in
  exit_loop fuel now_tid ret_val e.
End Wait.

(** The end of a process: the statuses, then its open files.  The message on the console is
    left out. *)
Definition on_first {S T A} (f : M S A) : M (S * T) A := λ s, let? '(a, x) := f s.1 in Ok (a, (x, s.2)).
Definition on_second {S T A} (f : M T A) : M (S * T) A := λ s, let? '(a, x) := f s.2 in Ok (a, (s.1, x)).
Definition handle_exit {mach : Machine} (fuel : nat) (wait_list open_list : clist) (now_tid ret_val : Z) : M (waits * syscalls) unit :=
  let! _ := on_first (exit_statuses fuel wait_list now_tid ret_val) in
  on_second (clear_all_file fuel open_list).
