(* ===== verification/WaitSpec.v ===== *)
(** * What a process leaves to its parent

    The list of wait statuses as a list, what [handle_exit] makes of it, and when
    [process_wait] returns the exit code of a child. *)

From S2P Require Import Prelude FsState Inode Syscall CList CListSpec Wait.

Section WaitSpec.
Context (fuel : nat) (wait_list : clist).

Definition node_of (x : Z * wait_status) : Z := x.1 + ELEM_OFFSET.

(** The statuses [xs], in the order of the list. *)
Record wait_inv (s : waits) (xs : list (Z * wait_status)) : Prop := {
  wi_rep : rep (cells s) wait_list (node_of <$> xs);
  wi_status x : x ∈ xs → statuses s !! x.1 = Some x.2;
  wi_nodup : NoDup xs.*1 }.

Lemma node_entry x : list_entry (node_of x) = x.1.
Proof. unfold list_entry, node_of. lia. Qed.

Lemma load_status_run s xs x : wait_inv s xs → x ∈ xs → load_status x.1 s = Ok (x.2, s).
Proof. intros Hi Hx. unfold load_status. by rewrite (wi_status _ _ Hi x Hx). Qed.

Lemma nodup_middle (xs : list (Z * wait_status)) x zs : NoDup (xs ++ x :: zs).*1 →
  NoDup (xs ++ zs).*1 ∧ ∀ z, z ∈ xs ++ zs → z.1 ≠ x.1.
Proof.
  rewrite !fmap_app, fmap_cons. intros (H1 & H2 & [H3 H4]%list.NoDup_cons)%list.NoDup_app. split.
  - apply list.NoDup_app. split; [done|]. split; [|done]. intros a Ha Hb. apply (H2 a Ha). by right.
  - intros z [Hz|Hz]%elem_of_app E.
    + apply (H2 z.1); [apply list_elem_of_fmap; eauto|rewrite E; by left].
    + apply H3. rewrite <-E. apply list_elem_of_fmap. eauto.
Qed.

(** A new value of a status. *)
Lemma store_status_run s xs x zs v : wait_inv s (xs ++ x :: zs) →
  ∃ s', store_status x.1 v s = Ok (tt, s') ∧ wait_inv s' (xs ++ (x.1, v) :: zs).
Proof.
  intros [Hr Hs Hn]. unfold store_status. rewrite (Hs x) by set_solver. eexists. split; [done|].
  destruct (nodup_middle _ _ _ Hn) as [_ Hne]. split; simpl.
  - rewrite fmap_app, fmap_cons in *. exact Hr.
  - intros z [Hz|[->|Hz]%elem_of_cons]%elem_of_app.
    + rewrite lookup_insert_ne; [apply Hs; set_solver|]. apply not_eq_sym, Hne. set_solver.
    + apply lookup_insert_eq.
    + rewrite lookup_insert_ne; [apply Hs; set_solver|]. apply not_eq_sym, Hne. set_solver.
  - rewrite fmap_app, fmap_cons in *. exact Hn.
Qed.

(** The removal of a status from the list and from memory. *)
Lemma remove_status_run s xs x zs : wait_inv s (xs ++ x :: zs) →
  ∃ s' s'', on_cells (list_remove (node_of x)) s = Ok (first_or (tail wait_list) (node_of <$> zs), s') ∧
    statuses s' = statuses s ∧ free_status x.1 s' = Ok (tt, s'') ∧ wait_inv s'' (xs ++ zs).
Proof.
  intros [Hr Hs Hn]. rewrite fmap_app, fmap_cons in Hr. destruct (list_remove_rep _ _ _ _ _ Hr) as (h & E & Hr' & _).
  destruct (nodup_middle _ _ _ Hn) as [Hn' Hne]. eexists _, _. split; [unfold on_cells; by rewrite E|].
  split; [done|]. split; [done|]. split; simpl; [by rewrite fmap_app| |done].
  intros z Hz. rewrite lookup_delete_ne by (apply not_eq_sym; by apply Hne). apply Hs. set_solver.
Qed.

Lemma on_next_run s xs x zs : wait_inv s (xs ++ x :: zs) →
  on_cells (list_next (node_of x)) s = Ok (first_or (tail wait_list) (node_of <$> zs), s).
Proof.
  intros [Hr _ _]. rewrite fmap_app, fmap_cons in Hr. unfold on_cells. rewrite (list_next_rep _ _ _ _ _ Hr). by destruct s.
Qed.

Lemma on_begin_run s xs : wait_inv s xs → on_cells (list_begin wait_list) s = Ok (first_or (tail wait_list) (node_of <$> xs), s).
Proof. intros [Hr _ _]. unfold on_cells. rewrite (list_begin_run _ _ _ Hr). by destruct s. Qed.

Lemma at_wait_end s xs ys : wait_inv s (xs ++ ys) →
  (first_or (tail wait_list) (node_of <$> ys) =? tail wait_list) = bool_decide (ys = []).
Proof.
  intros [Hr _ _]. rewrite fmap_app in Hr. rewrite (at_end _ _ _ _ Hr). by destruct ys.
Qed.

(** ** The end of a process *)

(** The list [handle_exit] leaves: after it removes a status it goes on with the one after
    the next. *)
Fixpoint exit_list (now_tid ret_val : Z) (xs : list (Z * wait_status)) : list (Z * wait_status) :=
  match xs with
  | [] => []
  | x :: xs =>
      let v := note_exit now_tid ret_val x.2 in
      if ref_cnt v =? 0 then match xs with [] => [] | y :: xs => y :: exit_list now_tid ret_val xs end
      else (x.1, v) :: exit_list now_tid ret_val xs
  end.

Lemma exit_loop_run now_tid ret_val n : ∀ s xs ys, wait_inv s (xs ++ ys) → (length ys < n)%nat →
  ∃ s', exit_loop wait_list n now_tid ret_val (first_or (tail wait_list) (node_of <$> ys)) s = Ok (tt, s') ∧
    wait_inv s' (xs ++ exit_list now_tid ret_val ys).
Proof.
  induction n as [|n IH]; intros s xs ys Hi Hn; [lia|]. cbn [exit_loop]. unfold list_end. rewrite (at_wait_end _ _ _ Hi).
  destruct ys as [|x ys]; [by exists s|]. change (bool_decide (x :: ys = [])) with false. cbv iota.
  change (first_or (tail wait_list) (node_of <$> x :: ys)) with (node_of x). rewrite node_entry.
  rewrite (bind_Ok _ _ _ _ _ (load_status_run _ _ x Hi ltac:(set_solver))). cbn [exit_list].
  set (v := note_exit now_tid ret_val x.2). destruct (store_status_run s xs x ys v Hi) as (s1 & E1 & Hi1).
  rewrite (bind_Ok _ _ _ _ _ E1), (bind_Ok _ _ s1 v s1) by (apply (load_status_run s1 _ (x.1, v) Hi1); set_solver).
  simpl in Hn. destruct (Z.eqb_spec (ref_cnt v) 0) as [Hv|Hv].
  - destruct (remove_status_run _ _ _ _ Hi1) as (s2 & s3 & E2 & _ & E3 & Hi3). change (node_of (x.1, v)) with (node_of x) in E2.
    rewrite (bind_Ok _ _ s1 (first_or (tail wait_list) (node_of <$> ys)) s3)
      by (by rewrite (bind_Ok _ _ _ _ _ E2), (bind_Ok _ _ _ _ _ E3)).
    rewrite (at_wait_end _ _ _ Hi3). destruct ys as [|y ys]; [by exists s3|].
    change (bool_decide (y :: ys = [])) with false. cbv iota. change (first_or (tail wait_list) (node_of <$> y :: ys)) with (node_of y).
    rewrite (bind_Ok _ _ _ _ _ (on_next_run _ _ _ _ Hi3)). replace (xs ++ y :: ys) with ((xs ++ [y]) ++ ys) in Hi3 by (by rewrite <-app_assoc).
    simpl in Hn. destruct (IH s3 _ ys Hi3 ltac:(lia)) as (s' & E' & Hi'). exists s'. split; [done|].
    by rewrite <-app_assoc in Hi'.
  - rewrite (bind_Ok (ret _) _ s1 (node_of x) s1) by done.
    pose proof (at_wait_end s1 xs ((x.1, v) :: ys) Hi1) as Ee. change (first_or (tail wait_list) (node_of <$> (x.1, v) :: ys)) with (node_of x) in Ee.
    rewrite Ee. change (bool_decide ((x.1, v) :: ys = [])) with false. cbv iota.
    rewrite (bind_Ok _ _ _ _ _ (on_next_run s1 xs (x.1, v) ys Hi1)).
    replace (xs ++ (x.1, v) :: ys) with ((xs ++ [(x.1, v)]) ++ ys) in Hi1 by (by rewrite <-app_assoc).
    destruct (IH s1 _ ys Hi1 ltac:(lia)) as (s' & E' & Hi'). exists s'. split; [done|]. by rewrite <-app_assoc in Hi'.
Qed.

Lemma exit_run s xs now_tid ret_val : wait_inv s xs → (length xs < fuel)%nat →
  ∃ s', exit_statuses fuel wait_list now_tid ret_val s = Ok (tt, s') ∧ wait_inv s' (exit_list now_tid ret_val xs).
Proof.
  intros Hi Hf. unfold exit_statuses. rewrite (bind_Ok _ _ _ _ _ (on_begin_run _ _ Hi)). by apply (exit_loop_run _ _ _ s [] xs).
Qed.

(** ** Waiting *)

Definition awaited (now_tid child_tid : Z) (x : Z * wait_status) : Prop := child_pid x.2 = child_tid ∧ parent_pid x.2 = now_tid.

Lemma awaited_test now_tid child_tid x : reflect (awaited now_tid child_tid x)
  ((child_pid x.2 =? child_tid) && (parent_pid x.2 =? now_tid)).
Proof. unfold awaited. destruct (Z.eqb_spec (child_pid x.2) child_tid), (Z.eqb_spec (parent_pid x.2) now_tid); constructor; tauto. Qed.

Lemma wait_resume_run s xs x zs : wait_inv s (xs ++ x :: zs) →
  ∃ s', wait_resume x.1 s = Ok (return_val x.2, s') ∧ wait_inv s' (xs ++ zs).
Proof.
  intros Hi. unfold wait_resume. rewrite (bind_Ok _ _ _ _ _ (load_status_run _ _ x Hi ltac:(set_solver))).
  set (v := mk_status _ _ _ _ _). destruct (store_status_run _ _ _ _ v Hi) as (s1 & E1 & Hi1). rewrite (bind_Ok _ _ _ _ _ E1).
  destruct (remove_status_run _ _ _ _ Hi1) as (s2 & s3 & E2 & Es & E3 & Hi3). unfold node_of in E2. simpl in E2, E3.
  rewrite (bind_Ok _ _ _ _ _ E2), (bind_Ok _ _ s2 v s2), (bind_Ok _ _ _ _ _ E3); [by exists s3|].
  pose proof (wi_status _ _ Hi1 (x.1, v) ltac:(set_solver)) as Ev. simpl in Ev. unfold load_status. by rewrite Es, Ev.
Qed.

(** The first status that is waited for decides. *)
Lemma wait_loop_found now_tid child_tid x vs n : ∀ s xs us, wait_inv s (xs ++ us ++ x :: vs) → (length us < n)%nat →
  Forall (λ z, ¬ awaited now_tid child_tid z) us → awaited now_tid child_tid x →
  let e := first_or (tail wait_list) (node_of <$> us ++ x :: vs) in
  if end_p x.2 =? 0 then wait_loop wait_list n now_tid child_tid e s = Ok (Blocks x.1, s)
  else ∃ s', wait_loop wait_list n now_tid child_tid e s = Ok (Done (return_val x.2), s') ∧ wait_inv s' (xs ++ us ++ vs).
Proof.
  induction n as [|n IH]; intros s xs us Hi Hn Hus Hx e; [lia|]. cbn [wait_loop]. unfold list_end, e. rewrite (at_wait_end _ _ _ Hi).
  destruct us as [|u us].
  - rewrite app_nil_l. change (bool_decide (x :: vs = [])) with false. cbv iota. rewrite fmap_cons. cbn [first_or]. rewrite node_entry.
    rewrite (bind_Ok _ _ _ _ _ (load_status_run _ _ x Hi ltac:(set_solver))). destruct (awaited_test now_tid child_tid x); [|done].
    destruct (Z.eqb_spec (end_p x.2) 0) as [E|E]; [done|]. destruct (wait_resume_run _ _ _ _ Hi) as (s' & E' & Hi').
    exists s'. by rewrite (bind_Ok _ _ _ _ _ E').
  - change (bool_decide ((u :: us) ++ x :: vs = [])) with false. cbv iota. rewrite <-app_comm_cons, fmap_cons. cbn [first_or]. rewrite node_entry.
    apply list.Forall_cons in Hus as [Hu Hus]. rewrite (bind_Ok _ _ _ _ _ (load_status_run _ _ u Hi ltac:(set_solver))).
    destruct (awaited_test now_tid child_tid u); [done|]. rewrite <-app_comm_cons in Hi. rewrite (bind_Ok _ _ _ _ _ (on_next_run _ _ _ _ Hi)).
    replace (xs ++ u :: us ++ x :: vs) with ((xs ++ [u]) ++ us ++ x :: vs) in Hi by (by rewrite <-app_assoc).
    simpl in Hn. specialize (IH s (xs ++ [u]) us Hi ltac:(lia) Hus Hx). cbv zeta in IH. destruct (end_p x.2 =? 0); [done|].
    by rewrite <-app_assoc in IH.
Qed.

Lemma wait_loop_none now_tid child_tid n : ∀ s xs ys, wait_inv s (xs ++ ys) → (length ys < n)%nat →
  Forall (λ z, ¬ awaited now_tid child_tid z) ys →
  wait_loop wait_list n now_tid child_tid (first_or (tail wait_list) (node_of <$> ys)) s = Ok (Done (-1), s).
Proof.
  induction n as [|n IH]; intros s xs ys Hi Hn Hys; [lia|]. cbn [wait_loop]. unfold list_end. rewrite (at_wait_end _ _ _ Hi).
  destruct ys as [|y ys]; [done|]. change (bool_decide (y :: ys = [])) with false. cbv iota. rewrite fmap_cons. cbn [first_or]. rewrite node_entry.
  apply list.Forall_cons in Hys as [Hy Hys]. rewrite (bind_Ok _ _ _ _ _ (load_status_run _ _ y Hi ltac:(set_solver))).
  destruct (awaited_test now_tid child_tid y); [done|]. rewrite (bind_Ok _ _ _ _ _ (on_next_run _ _ _ _ Hi)).
  replace (xs ++ y :: ys) with ((xs ++ [y]) ++ ys) in Hi by (by rewrite <-app_assoc). simpl in Hn. by apply (IH s (xs ++ [y])); [|lia|].
Qed.

Lemma wait_found s xs x zs now_tid child_tid : wait_inv s (xs ++ x :: zs) → (length xs < fuel)%nat →
  Forall (λ z, ¬ awaited now_tid child_tid z) xs → awaited now_tid child_tid x →
  if end_p x.2 =? 0 then process_wait fuel wait_list now_tid child_tid s = Ok (Blocks x.1, s)
  else ∃ s', process_wait fuel wait_list now_tid child_tid s = Ok (Done (return_val x.2), s') ∧ wait_inv s' (xs ++ zs).
Proof.
  intros Hi Hf Hxs Hx. unfold process_wait. rewrite (bind_Ok _ _ _ _ _ (on_begin_run _ _ Hi)).
  exact (wait_loop_found now_tid child_tid x zs fuel s [] xs Hi Hf Hxs Hx).
Qed.

Lemma wait_none s xs now_tid child_tid : wait_inv s xs → (length xs < fuel)%nat →
  Forall (λ z, ¬ awaited now_tid child_tid z) xs → process_wait fuel wait_list now_tid child_tid s = Ok (Done (-1), s).
Proof.
  intros Hi Hf Hxs. unfold process_wait. rewrite (bind_Ok _ _ _ _ _ (on_begin_run _ _ Hi)). by apply (wait_loop_none _ _ _ s []).
Qed.

(** ** A child and its parent *)

(** The child [c] of [p] runs: nobody ended, and no other status is for it. *)
Definition running (p c : Z) (x : Z * wait_status) : Prop := awaited p c x ∧ end_p x.2 = 0.

(** The exit of [tid] removes no status. *)
Definition no_removal (tid : Z) (xs : list (Z * wait_status)) : Prop :=
  Forall (λ x, 0 < ref_cnt x.2 < 2 ^ 31 ∧ (child_pid x.2 = tid ∨ parent_pid x.2 = tid → ref_cnt x.2 ≠ 1)) xs.

Lemma exit_list_map tid v xs : no_removal tid xs → exit_list tid v xs = (λ x, (x.1, note_exit tid v x.2)) <$> xs.
Proof.
  induction xs as [|x xs IH]; [done|]. intros [[Hr Hx] Hxs]%list.Forall_cons. cbn [exit_list]. rewrite IH by done.
  assert (ref_cnt (note_exit tid v x.2) ≠ 0) as Hne; [|by rewrite (proj2 (Z.eqb_neq _ _))]. unfold note_exit.
  destruct (Z.eqb_spec (child_pid x.2) tid); [|destruct (Z.eqb_spec (parent_pid x.2) tid)]; simpl; [..|lia];
    rewrite swrap_id by (unfold in_s; lia); specialize (Hx ltac:(auto)); lia.
Qed.

Lemma note_exit_awaited tid v p c x : awaited p c (x.1, note_exit tid v x.2) ↔ awaited p c x.
Proof. unfold awaited, note_exit. by repeat case_match. Qed.

Lemma wait_exit_run s xs x zs parent child v : wait_inv s (xs ++ x :: zs) → (length (xs ++ x :: zs) < fuel)%nat →
  running parent child x → Forall (λ z, ¬ awaited parent child z) (xs ++ zs) → no_removal child (xs ++ x :: zs) →
  process_wait fuel wait_list parent child s = Ok (Blocks x.1, s) ∧
  ∃ s1, exit_statuses fuel wait_list child v s = Ok (tt, s1) ∧
  ∃ s2, process_wait fuel wait_list parent child s1 = Ok (Done v, s2) ∧
        process_wait fuel wait_list parent child s2 = Ok (Done (-1), s2).
Proof.
  intros Hi Hf [Hx He] [Hxs Hzs]%Forall_app Hno. rewrite length_app in Hf. simpl in Hf. split.
  { pose proof (wait_found s xs x zs parent child Hi ltac:(lia) Hxs Hx) as E. by rewrite He in E. }
  destruct (exit_run s _ child v Hi) as (s1 & E1 & Hi1); [rewrite length_app; simpl; lia|]. exists s1. split; [done|].
  rewrite (exit_list_map _ _ _ Hno) in Hi1. rewrite fmap_app, fmap_cons in Hi1. set (f := λ y : Z * wait_status, (y.1, note_exit child v y.2)) in Hi1.
  assert (∀ ys, Forall (λ z, ¬ awaited parent child z) ys → Forall (λ z, ¬ awaited parent child z) (f <$> ys)) as Hf'.
  { intros ys. rewrite !list.Forall_forall. intros H z (y & -> & Hy)%list_elem_of_fmap. unfold f. rewrite note_exit_awaited. by apply H. }
  pose proof (wait_found s1 _ (f x) _ parent child Hi1) as E. rewrite length_fmap in E.
  specialize (E ltac:(lia) (Hf' _ Hxs) (proj2 (note_exit_awaited _ _ _ _ _) Hx)).
  assert (end_p (f x).2 = 1 ∧ return_val (f x).2 = v) as [Ee Ev].
  { unfold f, note_exit. destruct Hx as [-> _]. rewrite Z.eqb_refl. simpl. by rewrite He. }
  rewrite Ee, Ev in E. destruct E as (s2 & E2 & Hi2). exists s2. split; [done|]. eapply wait_none; [exact Hi2| |].
  - rewrite length_app, !length_fmap. lia.
  - apply Forall_app. split; by apply Hf'.
Qed.



(** Starting a process puts its status at the end. *)
Lemma register_run s xs p junk tid parent : wait_inv s xs → p ∉ xs.*1 → p + ELEM_OFFSET ∉ nodes wait_list (node_of <$> xs) →
  p + ELEM_OFFSET ≠ NULL →
  ∃ s', register wait_list p junk tid parent s = Ok (tt, s') ∧ wait_inv s' (xs ++ [(p, mk_status junk tid parent 0 2)]).
Proof.
  intros [Hr Hs Hn] Hp Hnode Hnull. unfold register. do 2 erewrite (bind_Ok (modify _)) by done. simpl.
  set (a := p + ELEM_OFFSET) in *. set (h := <[a := mk_elem junk junk]> (cells s)).
  assert (rep h wait_list (node_of <$> xs)) as Hr1.
  { eapply ring_off; [|exact Hr]. intros b Hb. unfold h. rewrite lookup_insert_ne; [done|]. by intros <-. }
  destruct (list_push_back_rep h wait_list _ a (mk_elem junk junk) Hr1) as (h' & E & Hr' & _); [done|done|apply lookup_insert_eq|].
  eexists. split; [unfold on_cells; simpl; unfold set_cells, set_statuses; simpl; fold h; by rewrite E|].
  split; simpl; [by rewrite fmap_app| |].
  - intros z [Hz|Hz%list_elem_of_singleton]%elem_of_app.
    + rewrite lookup_insert_ne; [by apply Hs|]. intros ->. apply Hp, list_elem_of_fmap. eauto.
    + subst z. apply lookup_insert_eq.
  - rewrite fmap_app. apply list.NoDup_app. split; [done|]. split; [|by apply NoDup_singleton].
    intros b Hb ->%list_elem_of_singleton. done.
Qed.
End WaitSpec.

(** ** Three processes: 1 started 2, which started 3 *)

Definition wait_sample (a b : wait_status) : waits :=
  mk_waits (list_to_map [(10, mk_elem 0 160); (160, mk_elem 10 360); (360, mk_elem 160 18); (18, mk_elem 360 0)])
    (list_to_map [(100, a); (300, b)]).

Lemma wait_sample_inv a b : wait_inv (mk_clist 10 18) (wait_sample a b) [(100, a); (300, b)].
Proof.
  split.
  - split_and!; [apply (bool_decide_eq_true_1 _); vm_compute; reflexivity..|]. by repeat split.
  - intros x [->|[->|[]%elem_of_nil]%elem_of_cons]%elem_of_cons; reflexivity.
  - apply (bool_decide_eq_true_1 _). reflexivity.
Qed.


