(* ===== verification/Start.v ===== *)
(** * The start of a process (userprog/process.c)

    The handshake of [process_execute] with the thread it creates: the lock [exec_lock], the semaphore
    [temporary] and the variable [load_val] are shared by all calls.  Any number of calls run at the same time; a
    step is one statement that touches what they share, of the calling thread or of its child.
    Whether [thread_create] and [load] succeed in the [k]-th call is a parameter. *)

From S2P Require Import Prelude FsState Inode Syscall CList CListSpec Wait WaitSpec.

(** ** Steps *)

(** Where the caller of [process_execute] is: before [lock_acquire], [sema_init], [thread_create], the
    registration of the status, [set_work_dir], [sema_down], [lock_release], the test of [load_val], and
    after it. *)
Inductive parent_pc :=
  | PStart | PLocked | PInited | PCreated | PRegistered | PWaiting | PWoken | PReleased
  | PDone (result : Z).

(** Where the child is: not created, in [load], before the assignment to [load_val], before
    [sema_up], running or on its way to [thread_exit], and ended. *)
Inductive child_pc := CNone | CLoading | CLoaded | CSet | CUp | CExited.

Record execs := mk_execs {
  exec_lock : option nat;
  temporary : Z;
  load_val : Z;
  parents : nat → parent_pc;
  children : nat → child_pc }.

Section Start.
Context (created load_ok : nat → bool) (tid : nat → Z).

Definition set_parent (k : nat) (p : parent_pc) (s : execs) : execs :=
  mk_execs (exec_lock s) (temporary s) (load_val s) (<[k := p]> (parents s)) (children s).
Definition set_child (k : nat) (c : child_pc) (s : execs) : execs :=
  mk_execs (exec_lock s) (temporary s) (load_val s) (parents s) (<[k := c]> (children s)).

(** The next step of the [k]-th caller of [process_execute]; none when it has to wait. *)
Definition process_execute (k : nat) (s : execs) : option execs :=
  match parents s k with
  | PStart =>
      match exec_lock s with
      | None => Some (set_parent k PLocked (mk_execs (Some k) (temporary s) (load_val s) (parents s) (children s)))
      | Some _ => None
      end
  | PLocked => Some (set_parent k PInited (mk_execs (exec_lock s) 0 (load_val s) (parents s) (children s)))
  | PInited => Some (set_parent k PCreated (if created k then set_child k CLoading s else s))
  | PCreated => Some (set_parent k PRegistered s)
  | PRegistered => Some (set_parent k PWaiting s)
  | PWaiting =>
      if 0 <? temporary s
      then Some (set_parent k PWoken (mk_execs (exec_lock s) (temporary s - 1) (load_val s) (parents s) (children s)))
      else None
  | PWoken => Some (set_parent k PReleased (mk_execs None (temporary s) (load_val s) (parents s) (children s)))
  | PReleased => Some (set_parent k (PDone (if negb (load_val s =? 0) then -1 else if created k then tid k else -1)) s)
  | PDone _ => None
  end.

(** The next step of its child; the last one stands for the process running and ending. *)
Definition start_process (k : nat) (s : execs) : option execs :=
  match children s k with
  | CLoading => Some (set_child k CLoaded s)
  | CLoaded =>
      Some (set_child k CSet (mk_execs (exec_lock s) (temporary s) (if load_ok k then 0 else -1) (parents s) (children s)))
  | CSet => Some (set_child k CUp (mk_execs (exec_lock s) (temporary s + 1) (load_val s) (parents s) (children s)))
  | CUp => Some (set_child k CExited s)
  | CNone | CExited => None
  end.

Inductive exec_step (s s' : execs) : Prop :=
  | step_parent k : process_execute k s = Some s' → exec_step s s'
  | step_child k : start_process k s = Some s' → exec_step s s'.

Definition boot : execs := mk_execs None 0 0 (λ _, PStart) (λ _, CNone).

Inductive reachable (s : execs) : execs → Prop :=
  | reach_refl : reachable s s
  | reach_step s1 s2 : reachable s s1 → exec_step s1 s2 → reachable s s2.

(** ** The invariant *)

Definition outcome_of (k : nat) : Z := if load_ok k then 0 else -1.

(** A call that does not have the lock. *)
Definition outside (p : parent_pc) (c : child_pc) : Prop :=
  match p, c with
  | PStart, CNone => True
  | (PReleased | PDone _), (CUp | CExited) => True
  | _, _ => False
  end.

(** The call that has it. *)
Definition inside (k : nat) (p : parent_pc) (c : child_pc) (tmp val : Z) : Prop :=
  match p, c with
  | PLocked, CNone => True
  | PInited, CNone => tmp = 0
  | (PCreated | PRegistered | PWaiting), CNone => created k = false ∧ tmp = 0
  | (PCreated | PRegistered | PWaiting), (CLoading | CLoaded) => created k = true ∧ tmp = 0
  | (PCreated | PRegistered | PWaiting), CSet => created k = true ∧ tmp = 0 ∧ val = outcome_of k
  | (PCreated | PRegistered | PWaiting), (CUp | CExited) => created k = true ∧ tmp = 1 ∧ val = outcome_of k
  | PWoken, (CUp | CExited) => val = outcome_of k
  | _, _ => False
  end.

Definition inv (s : execs) : Prop := ∀ k,
  if bool_decide (exec_lock s = Some k) then inside k (parents s k) (children s k) (temporary s) (load_val s)
  else outside (parents s k) (children s k).

Lemma inv_boot : inv boot.
Proof. intros k. by rewrite bool_decide_eq_false_2. Qed.

(** The call [k] changes, alone or with what is shared. *)
Lemma inv_change s s' k : inv s →
  (∀ j, j ≠ k → parents s' j = parents s j ∧ children s' j = children s j) →
  (∀ j, j ≠ k → (exec_lock s' = Some j ↔ exec_lock s = Some j)) →
  (∀ j, j ≠ k → exec_lock s = Some j → temporary s' = temporary s ∧ load_val s' = load_val s) →
  (if bool_decide (exec_lock s' = Some k) then inside k (parents s' k) (children s' k) (temporary s') (load_val s')
   else outside (parents s' k) (children s' k)) → inv s'.
Proof.
  intros Hi Hpc Hl Hsh Hk j. destruct (decide (j = k)) as [->|Hne]; [done|]. specialize (Hi j). destruct (Hpc j Hne) as [-> ->].
  rewrite (bool_decide_ext _ _ (Hl j Hne)). destruct (bool_decide_reflect (exec_lock s = Some j)) as [Hj|]; [|done].
  by destruct (Hsh j Hne Hj) as [-> ->].
Qed.

Ltac changed s k := apply (inv_change s _ k); [done|by intros j Hj; cbn; rewrite ?fn_lookup_insert_ne by done|..]; cbn; rewrite ?fn_lookup_insert.

Lemma inv_parent s s' k : inv s → process_execute k s = Some s' → inv s'.
Proof.
  intros Hi Hs. pose proof (Hi k) as Hk. unfold process_execute in Hs. destruct (parents s k) eqn:Ep; [destruct (exec_lock s) eqn:El; [done|]|..];
    try (case_bool_decide as Ek; [|by destruct (children s k)]).
  - injection Hs as <-. changed s k; [intros j Hj; split; congruence|done|]. rewrite bool_decide_eq_true_2 by done.
    rewrite bool_decide_eq_false_2 in Hk by done. by destruct (children s k).
  - injection Hs as <-. changed s k; [done|intros j Hj E; congruence|]. rewrite bool_decide_eq_true_2 by done. by destruct (children s k).
  - injection Hs as <-. destruct (children s k) eqn:Ec; try done.
    destruct (created k) eqn:Ed; changed s k; try done; rewrite bool_decide_eq_true_2 by done; rewrite ?Ec; done.
  - injection Hs as <-. changed s k; try done. rewrite bool_decide_eq_true_2 by done. by destruct (children s k).
  - injection Hs as <-. changed s k; try done. rewrite bool_decide_eq_true_2 by done. by destruct (children s k).
  - destruct (Z.ltb_spec 0 (temporary s)) as [Ht|]; [|done]. injection Hs as <-. changed s k; [done|intros j Hj E; congruence|].
    rewrite bool_decide_eq_true_2 by done. destruct (children s k); simpl in *; try done; lia.
  - injection Hs as <-. changed s k; [intros j Hj; split; congruence|done|]. rewrite bool_decide_eq_false_2 by done. by destruct (children s k).
  - injection Hs as <-. case_bool_decide as Ek; [by destruct (children s k)|]. changed s k; try done. rewrite bool_decide_eq_false_2 by done. by destruct (children s k).
  - done.
Qed.

Lemma inv_child s s' k : inv s → start_process k s = Some s' → inv s'.
Proof.
  intros Hi Hs. pose proof (Hi k) as Hk. unfold start_process in Hs. destruct (children s k) eqn:Ec; try done;
    (case_bool_decide as Ek; [|try by destruct (parents s k)]).
  all: injection Hs as <-; changed s k; try done; try (intros j Hj E; congruence).
  all: try (rewrite bool_decide_eq_true_2 by done); try (rewrite bool_decide_eq_false_2 by done); destruct (parents s k); simpl in *; try done.
  all: destruct_and!; split_and?; done || lia.
Qed.

Lemma inv_reachable s : reachable boot s → inv s.
Proof.
  induction 1 as [|s1 s2 _ IH [k Hk|k Hk]]; [exact inv_boot|by eapply inv_parent|by eapply inv_child].
Qed.

(** ** What the handshake guarantees *)

(** Between [lock_acquire] and [lock_release]. *)
Definition in_section (p : parent_pc) : bool :=
  match p with PStart | PReleased | PDone _ => false | _ => true end.

Lemma in_section_lock s k : inv s → in_section (parents s k) = true → exec_lock s = Some k.
Proof. intros Hi Hp. specialize (Hi k). case_bool_decide; [done|]. by destruct (parents s k). Qed.

Fixpoint child_steps (n : nat) (k : nat) (s : execs) : option execs :=
  match n with O => Some s | S n => s ← start_process k s; child_steps n k s end.


(** ** What goes wrong *)

(** When the thread cannot be created, the call waits for a child that does not exist, with the lock: it
    never returns, and no later call gets beyond [lock_acquire]. *)
Theorem exec_waits_forever s k : reachable boot s → parents s k = PWaiting → created k = false → ∀ s', reachable s s' →
  parents s' k = PWaiting ∧ process_execute k s' = None ∧ ∀ j, parents s' j = PStart → process_execute j s' = None.
Proof.
  intros Hr Hk Hc s' Hr'. assert (inv s' ∧ parents s' k = PWaiting ∧ children s' k = CNone ∧ exec_lock s' = Some k ∧ temporary s' = 0) as (Hi & Hp & _ & Hl & Ht).
  { induction Hr' as [|s1 s2 _ (Hi & Hp & Hn & Hl & Ht) Hs].
    - pose proof (inv_reachable s Hr) as Hi. pose proof (in_section_lock s k Hi ltac:(by rewrite Hk)) as Hl. pose proof (Hi k) as Hin.
      rewrite bool_decide_eq_true_2, Hk in Hin by done. destruct (children s k) eqn:Ec; simpl in Hin; destruct Hin; [done|congruence..].
    - assert (inv s2) as Hi2 by (destruct Hs; [by eapply inv_parent|by eapply inv_child]).
      assert (parents s2 k = PWaiting ∧ children s2 k = CNone) as [Hp2 Hn2].
      { destruct Hs as [j Hj|j Hj]; (destruct (decide (j = k)) as [->|Hne];
          [unfold process_execute, start_process in Hj; rewrite ?Hp, ?Hn, ?Ht in Hj; done|]).
        - unfold process_execute in Hj. repeat case_match; simplify_eq; cbn; rewrite ?fn_lookup_insert_ne by done; done.
        - unfold start_process in Hj. repeat case_match; simplify_eq; cbn; rewrite ?fn_lookup_insert_ne by done; done. }
      pose proof (in_section_lock s2 k Hi2 ltac:(by rewrite Hp2)) as Hl2. pose proof (Hi2 k) as Hin. rewrite bool_decide_eq_true_2, Hp2, Hn2 in Hin by done.
      by destruct Hin. }
  split; [done|]. split; [unfold process_execute; by rewrite Hp, Ht|]. intros j Hj. unfold process_execute. by rewrite Hj, Hl.
Qed.

(** A sequence of steps: of a caller ([true]) or of a child. *)
Fixpoint steps (l : list (bool * nat)) (s : execs) : option execs :=
  match l with
  | [] => Some s
  | (b, k) :: l => s ← (if b : bool then process_execute k s else start_process k s); steps l s
  end.
Lemma steps_reachable l : ∀ s0 s s', reachable s0 s → steps l s = Some s' → reachable s0 s'.
Proof.
  induction l as [|[b k] l IH]; intros s0 s s' Hr Hs; cbn [steps] in Hs; [by injection Hs as <-|].
  apply bind_Some in Hs as (s1 & E & Hs). eapply IH; [|exact Hs]. eapply reach_step; [exact Hr|].
  destruct b; [by eapply step_parent|by eapply step_child].
Qed.

End Start.

(** The result is read after the lock was released: when another call fails to load its program in between, a
    call whose program was loaded returns [TID_ERROR].  Here only the program of the call 0 can be loaded. *)
Theorem exec_result_race tid : ∃ s, reachable (λ _, true) (λ k, (k =? 0)%nat) tid boot s ∧ parents s 0%nat = PDone (-1).
Proof.
  set (l := [(true, 0); (true, 0); (true, 0); (false, 0); (false, 0); (false, 0); (true, 0); (true, 0); (true, 0); (true, 0);
    (true, 1); (true, 1); (true, 1); (false, 1); (false, 1); (true, 0)]%nat).
  assert (match steps (λ _, true) (λ k, (k =? 0)%nat) tid l boot with Some s => parents s 0%nat = PDone (-1) | None => False end) as Hs by (by vm_compute).
  destruct (steps _ _ _ l boot) as [s|] eqn:E; [|done]. exists s. split; [|done]. eapply steps_reachable; [apply reach_refl|exact E].
Qed.


(** ** A child that is faster *)

(** The list of statuses after the end of a process has no new entries. *)
Lemma exit_list_sub tid v xs z : z ∈ exit_list tid v xs →
  ∃ x, x ∈ xs ∧ z.1 = x.1 ∧ child_pid z.2 = child_pid x.2 ∧ parent_pid z.2 = parent_pid x.2.
Proof.
  assert (∀ n xs, (length xs ≤ n)%nat → z ∈ exit_list tid v xs →
    ∃ x, x ∈ xs ∧ z.1 = x.1 ∧ child_pid z.2 = child_pid x.2 ∧ parent_pid z.2 = parent_pid x.2) as H; [|by apply (H (length xs))].
  clear xs. induction n as [|n IH]; intros [|x xs] Hn Hz; cbn [exit_list] in Hz; try (by apply elem_of_nil in Hz); [simpl in Hn; lia|].
  destruct (ref_cnt (note_exit tid v x.2) =? 0).
  - destruct xs as [|y xs]; [by apply elem_of_nil in Hz|]. apply elem_of_cons in Hz as [->|Hz]; [exists y; set_solver|].
    destruct (IH xs ltac:(simpl in Hn; lia) Hz) as (w & Hw & Heq). exists w. split; [set_solver|done].
  - apply elem_of_cons in Hz as [->|Hz]; [exists x; split; [set_solver|]; unfold note_exit; by repeat case_match|].
    destruct (IH xs ltac:(simpl in Hn; lia) Hz) as (w & Hw & Heq). exists w. split; [set_solver|done].
Qed.

Lemma exit_list_length tid v xs : (length (exit_list tid v xs) ≤ length xs)%nat.
Proof.
  assert (∀ n xs, (length xs ≤ n)%nat → (length (exit_list tid v xs) ≤ length xs)%nat) as H; [|by apply (H (length xs))].
  clear xs. induction n as [|n IH]; intros [|x xs] Hn; cbn [exit_list length] in *; try lia. destruct (ref_cnt _ =? 0).
  - destruct xs as [|y xs]; cbn [length] in *; [lia|]. specialize (IH xs ltac:(lia)). lia.
  - cbn [length]. specialize (IH xs ltac:(lia)). lia.
Qed.

(** The status of a child is registered after the child was created: when the child ends before that, its exit
    code is lost and a parent that waits for it waits forever. *)
Theorem early_exit_lost fuel wait_list s xs p junk child parent v : wait_inv wait_list s xs → (length xs < fuel)%nat →
  Forall (λ x, child_pid x.2 ≠ child) xs → p ∉ xs.*1 → p + ELEM_OFFSET ∉ nodes wait_list (node_of <$> xs) → p + ELEM_OFFSET ≠ NULL →
  ∃ s1 s2, exit_statuses fuel wait_list child v s = Ok (tt, s1) ∧ register wait_list p junk child parent s1 = Ok (tt, s2) ∧
    process_wait fuel wait_list parent child s2 = Ok (Blocks p, s2).
Proof.
  intros Hi Hf Hc Hp Hn Hnull. destruct (exit_run fuel wait_list s xs child v Hi Hf) as (s1 & E1 & Hi1). pose proof (exit_list_sub child v xs) as Hsub.
  pose proof (exit_list_length child v xs) as Hlen.
  destruct (register_run wait_list s1 _ p junk child parent Hi1) as (s2 & E2 & Hi2); [| |done|].
  - intros (z & Ez & Hz)%list_elem_of_fmap. destruct (Hsub z Hz) as (x & Hx & E & _). apply Hp. apply list_elem_of_fmap. exists x. split; [congruence|done].
  - intros Hin. apply Hn. unfold nodes in *. apply elem_of_cons in Hin as [->|[Hin|Hin]%elem_of_app]; [by left|right|right; apply elem_of_app; by right].
    apply list_elem_of_fmap in Hin as (z & Ez & Hz). destruct (Hsub z Hz) as (x & Hx & E & _). apply elem_of_app. left. apply list_elem_of_fmap.
    exists x. split; [rewrite Ez; unfold node_of; by rewrite E|done].
  - exists s1, s2. split; [done|]. split; [done|].
    pose proof (wait_found fuel wait_list s2 _ (p, mk_status junk child parent 0 2) [] parent child Hi2 ltac:(lia)) as H. apply H; [|done].
    apply list.Forall_forall. intros z Hz [Hz1 _]. destruct (Hsub z Hz) as (x & Hx & _ & E & _).
    apply (proj1 (list.Forall_forall _ _) Hc x Hx). congruence.
Qed.
