(* ===== verification/Exception.v ===== *)
(** * Exceptions of the processor (userprog/exception.c)

    The handlers of the exceptions: an exception of a user program ends the process with exit
    code -1.  [thread_exit] does not return; it is the end of the definitions here.  Messages on the
    console are left out. *)

From S2P Require Import Prelude FsState CList Inode Syscall Descriptors Wait WaitSpec.

Section Exception.
Context {mach : Machine} (fuel : nat) (wait_list open_list : clist).

(** [cs] is the code segment of the interrupt frame, [now_tid] the current thread. *)
Definition kill (now_tid cs : Z) : M (waits * syscalls) unit :=
  if cs =? SEL_UCSEG then handle_exit fuel wait_list open_list now_tid (-1)
  else if cs =? SEL_KCSEG then panic
  else ret tt.

(** With [page_fault_cnt]; the causes in the error code are only printed. *)
Definition page_fault (now_tid cs : Z) : M (Z * (waits * syscalls)) unit :=
  let! _ := on_first (modify (λ cnt, s64 (cnt + 1))) in
  on_second (kill now_tid cs).

(** A page fault in a user program ends it: its files are closed, and a parent that waits for it
    gets -1. In the kernel it is the end of the system. *)
Theorem page_fault_correct cnt s f f' xs x zs parent child :
  wait_inv wait_list s (xs ++ x :: zs) → (length (xs ++ x :: zs) < fuel)%nat →
  running parent child x → Forall (λ z, ¬ awaited parent child z) (xs ++ zs) → no_removal child (xs ++ x :: zs) →
  clear_all_file fuel open_list f = Ok (tt, f') → in_s 64 (cnt + 1) →
  page_fault child SEL_KCSEG (cnt, (s, f)) = Panic ∧
  ∃ s1, page_fault child SEL_UCSEG (cnt, (s, f)) = Ok (tt, (cnt + 1, (s1, f'))) ∧
  ∃ s2, process_wait fuel wait_list parent child s1 = Ok (Done (-1), s2).
Proof.
  intros Hi Hf Hr Ha Hn Hc Hcnt. split; [done|].
  destruct (wait_exit_run fuel wait_list s xs x zs parent child (-1) Hi Hf Hr Ha Hn) as (_ & s1 & E1 & s2 & E2 & _).
  exists s1. split; [|by exists s2]. unfold page_fault, on_first, on_second, modify, bind, kill, handle_exit. cbn.
  unfold bind, on_first, on_second. cbn. rewrite E1. cbn. rewrite Hc. cbn. by rewrite swrap_id.
Qed.
End Exception.
