(* ===== verification/Exec.v ===== *)
(** * Starting processes (userprog/process.c)

    [process_execute] copies the command line twice, cuts the second copy down to the name
    of the program, and gives the new thread the working directory of its parent. *)

From S2P Require Import Prelude Block Cache Palloc CString CStringSpec.
From S2P Require Import FsState Inode InodeView InodeGrow FreeMap FreeMapSpec FileSpec Directory.

(** ** The copies of the command line *)

Section Names.
Variable fuel : nat.

Fixpoint name_loop (n : nat) (fn_copy_name i : Z) : B unit :=
  match n with
  | O => out_of_fuel
  | S n =>
      let! len := strlen fuel fn_copy_name in
      if i <? len then
        let! c := CString.load (fn_copy_name + i) in
        if c =? 32 then CString.store (fn_copy_name + i) 0
        else name_loop n fn_copy_name (i + 1)
      else ret tt
  end.

(** [fn_copy] is a page, [fn_copy_name] an array of 256 bytes on the stack. *)
Definition copy_names (fn_copy fn_copy_name file_name : Z) : B unit :=
  let! _ := strlcpy fuel fn_copy file_name PGSIZE in
  let! _ := strlcpy fuel fn_copy_name file_name 256 in
  name_loop fuel fn_copy_name 0.

Fixpoint until_space (s : list Z) : list Z :=
  match s with [] => [] | c :: s => if c =? 32 then [] else c :: until_space s end.

Lemma until_space_app pre s : 32 ∉ pre → until_space (pre ++ s) = pre ++ until_space s.
Proof.
  induction pre as [|c pre IH]; [done|]. intros [Hc Hp]%not_elem_of_cons. simpl.
  rewrite (proj2 (Z.eqb_neq c 32)) by done. by rewrite IH.
Qed.

Lemma name_loop_run a s : a ≠ NULL → (length s < fuel)%nat → ∀ r pre m n, s = pre ++ r → 32 ∉ pre → cstr m a s → bytes_ok m →
  (length r < n)%nat →
  ∃ m', name_loop n a (Z.of_nat (length pre)) m = Ok (tt, m') ∧ cstr m' a (until_space s) ∧ bytes_ok m' ∧
    same_outside m m' a (a + Z.of_nat (length s)).
Proof.
  intros Ha Hf r. induction r as [|c r IH]; intros pre m n Es Hpre Hs Hm Hn; (destruct n as [|n]; [simpl in Hn; lia|]); cbn [name_loop];
    rewrite (bind_Ok _ _ _ _ _ (strlen_run m a s fuel Hs Ha ltac:(lia))).
  - rewrite app_nil_r in Es. subst s. rewrite Z.ltb_irrefl. exists m. split; [done|].
    pose proof (until_space_app pre [] Hpre) as Eu. rewrite !app_nil_r in Eu. by rewrite Eu.
  - assert (length s = (length pre + S (length r))%nat) as El by (by rewrite Es, length_app).
    rewrite (proj2 (Z.ltb_lt _ _)) by lia. rewrite Es in Hs. pose proof (cstr_app m pre (c :: r) a Hs) as Hc. rewrite <-Es in Hs.
    rewrite (bind_Ok _ _ m c m) by (unfold CString.load, gets; by rewrite (cstr_head _ _ _ Hc)).
    destruct (Z.eqb_spec c 32) as [Ec|Hne].
    + assert (until_space s = pre) as -> by (rewrite Es, until_space_app by done; simpl; by rewrite (proj2 (Z.eqb_eq c 32) Ec), app_nil_r).
      eexists. split; [done|].
      split; [|split; [by apply CStringSpec.store_ok|]].
      * pose proof (cstr_take m (λ x, if x =? a + Z.of_nat (length pre) then u8 0 else m x) s a (length pre)) as Ht.
        assert (take (length pre) s = pre) as Et by (by rewrite Es, take_app_length). rewrite Et in Ht. apply Ht; [lia|done| |by rewrite Z.eqb_refl].
        intros x Hx. by rewrite (proj2 (Z.eqb_neq _ _)) by lia.
      * intros x Hx. rewrite (proj2 (Z.eqb_neq _ _)); [done|lia].
    + simpl in Hn. destruct (IH (pre ++ [c]) m n) as (m' & E & H'); [by rewrite <-app_assoc|set_solver|done|done|lia|].
      exists m'. split; [|done]. rewrite <-E. f_equal. rewrite length_app. simpl. lia.
Qed.

(** The thread is named after the first word of the command line, at most 255 characters of
    it, and the page holds the command line, at most 4095 characters. *)
Theorem copy_names_correct fn_copy fn_copy_name file_name s m : cstr m file_name s → bytes_ok m → (length s < fuel)%nat →
  fn_copy ≠ NULL → fn_copy_name ≠ NULL → file_name ≠ NULL →
  fn_copy + 4096 ≤ file_name ∨ file_name + Z.of_nat (length s) < fn_copy →
  fn_copy_name + 256 ≤ file_name ∨ file_name + Z.of_nat (length s) < fn_copy_name →
  fn_copy + 4096 ≤ fn_copy_name ∨ fn_copy_name + 256 ≤ fn_copy →
  ∃ m', copy_names fn_copy fn_copy_name file_name m = Ok (tt, m') ∧ bytes_ok m' ∧
    cstr m' fn_copy (take 4095 s) ∧ cstr m' fn_copy_name (until_space (take 255 s)) ∧ cstr m' file_name s.
Proof.
  intros Hs Hm Hf H1 H2 H3 D1 D2 D3. unfold copy_names.
  destruct (strlcpy_run m fn_copy file_name s PGSIZE fuel Hm Hs H1 H3) as (m1 & E1 & Hso1 & Hm1 & Hc1);
    [done|unfold PGSIZE, PGBITS; simpl; lia|lia|]. rewrite (bind_Ok _ _ _ _ _ E1). specialize (Hc1 eq_refl).
  change PGSIZE with 4096 in Hso1. change (Z.to_nat (PGSIZE - 1)) with 4095%nat in Hc1.
  assert (cstr m1 file_name s) as Hs1 by (eapply cstr_ext; [|exact Hs]; intros x Hx; apply Hso1; lia).
  destruct (strlcpy_run m1 fn_copy_name file_name s 256 fuel Hm1 Hs1 H2 H3) as (m2 & E2 & Hso2 & Hm2 & Hc2); [done|lia|lia|].
  rewrite (bind_Ok _ _ _ _ _ E2). specialize (Hc2 eq_refl). change (Z.to_nat (256 - 1)) with 255%nat in Hc2.
  pose proof (length_take s 255) as Lt.
  destruct (name_loop_run fn_copy_name (take 255 s) H2 ltac:(lia) (take 255 s) [] m2 fuel) as (m3 & E3 & Hu & Hm3 & Hso3);
    [done|set_solver|done|done|lia|].
  exists m3. split; [exact E3|]. split; [done|]. split; [|split; [done|]].
  - eapply cstr_ext; [|exact Hc1]. rewrite length_take. intros x Hx. rewrite Hso3, Hso2 by lia. done.
  - eapply cstr_ext; [|exact Hs1]. intros x Hx. rewrite Hso3, Hso2 by lia. done.
Qed.
End Names.

(** ** The working directory *)

(** The file system and the field [work_dir] of every thread. *)
Record starter := mk_starter { files_ : fs Cache.store; work_dirs : gmap Z Z }.

Section WorkDir.
Context {mach : Machine}.
(** [all_list]: the tid and the address of every thread. *)
Variable all_list : list (Z * Z).

Definition on_files {A} (f : M (fs Cache.store) A) : M starter A := λ s, let? '(a, x) := f (files_ s) in Ok (a, mk_starter x (work_dirs s)).

Fixpoint get_thread (l : list (Z * Z)) (tid : Z) : Z :=
  match l with [] => u32 (-1) | (x, t) :: l => if x =? tid then t else get_thread l tid end.

Definition load_work_dir (t : Z) : M starter Z := λ s,
  match work_dirs s !! t with Some d => Ok (d, s) | None => Undef end.
Definition store_work_dir (t d : Z) : M starter unit := λ s,
  match work_dirs s !! t with Some _ => Ok (tt, mk_starter (files_ s) (<[t := d]> (work_dirs s))) | None => Undef end.

Definition set_work_dir (ptid ctid : Z) : M starter unit :=
  let ct := get_thread all_list ctid in
  let pt := get_thread all_list ptid in
  let! w := load_work_dir pt in
  if w =? NULL then ret tt
  else
    let! d := on_files (load_dir w) in
    let! d := on_files (dir_open release1 (d_inode d)) in
    store_work_dir ct d.

(** [dir_close (cur->work_dir)] of [process_exit]. *)
Definition close_work_dir (tid : Z) : M starter unit :=
  let! d := load_work_dir (get_thread all_list tid) in
  on_files (dir_close release1 d).

Lemma close_last f p sec : p ≠ NULL → inodes f !! p = Some (mk_inode sec 1 false 0) →
  inode_close release1 p f = Ok (tt, set_inodes (delete p (inodes f)) (set_open_inodes (filter (λ q, q ≠ p) (open_inodes f)) f)).
Proof.
  intros Hp Hi. unfold inode_close. rewrite (proj2 (Z.eqb_neq p NULL)) by done.
  erewrite (bind_Ok (load_inode _)) by (unfold load_inode; by rewrite Hi). cbn [open_cnt sector removed deny_write_cnt].
  change (s32 (1 - 1)) with 0. erewrite (bind_Ok (store_inode _ _)) by (unfold store_inode; by rewrite Hi).
  change (0 =? 0) with true. cbv iota. erewrite (bind_Ok (modify _)) by done. erewrite (bind_Ok (ret tt)) by done.
  unfold modify, set_inodes, set_open_inodes. cbn [inodes open_inodes disk files dirs free_map free_map_file malloc_ok malloc_cnt].
  by rewrite delete_insert_eq.
Qed.

Lemma close_dangling f p : p ≠ NULL → inodes f !! p = None → inode_close release1 p f = Undef.
Proof.
  intros Hp Hi. unfold inode_close. rewrite (proj2 (Z.eqb_neq p NULL)) by done. unfold bind at 1, load_inode. by rewrite Hi.
Qed.

(** A process that is started shares the inode of its parent's working directory without
    being counted as an opener of it: when the child ends the inode is freed, and the parent
    closes it again when it ends. *)
Theorem work_dir_closed_twice s ptid ctid pt ct w p ofs sec : get_thread all_list ptid = pt → get_thread all_list ctid = ct →
  pt ≠ ct → work_dirs s !! pt = Some w → is_Some (work_dirs s !! ct) → w ≠ NULL → p ≠ NULL →
  dirs (files_ s) !! w = Some (mk_dir p ofs) → inodes (files_ s) !! p = Some (mk_inode sec 1 false 0) →
  malloc_ok (files_ s) (malloc_cnt (files_ s)) = true → dirs (files_ s) !! (Z.of_nat (malloc_cnt (files_ s)) + 1) = None →
  (let! _ := set_work_dir ptid ctid in
   let! _ := close_work_dir ctid in
   close_work_dir ptid) s = Undef.
Proof.
  intros Ept Ect Hne Hw [c Hc] Hwn Hp Hd Hi Hok Hfresh. set (n := Z.of_nat (malloc_cnt (files_ s)) + 1) in *.
  set (f1 := set_dirs (<[n := mk_dir p 0]> (dirs (files_ s))) (set_malloc_cnt (S (malloc_cnt (files_ s))) (files_ s))).
  assert (set_work_dir ptid ctid s = Ok (tt, mk_starter f1 (<[ct := n]> (work_dirs s)))) as E1.
  { unfold set_work_dir. rewrite Ept, Ect. erewrite (bind_Ok (load_work_dir _)) by (unfold load_work_dir; by rewrite Hw).
    rewrite (proj2 (Z.eqb_neq w NULL)) by done. erewrite (bind_Ok (on_files (load_dir _))) by (unfold on_files, load_dir; by rewrite Hd).
    erewrite (bind_Ok (on_files (dir_open _ _))).
    2:{ unfold on_files, dir_open. erewrite (bind_Ok malloc) by done. simpl. rewrite Hok.
        rewrite (proj2 (Z.eqb_neq p NULL)), (proj2 (Z.eqb_neq _ NULL)) by (done || (unfold NULL; lia)). done. }
    unfold store_work_dir. simpl. by rewrite Hc. }
  rewrite (bind_Ok _ _ _ _ _ E1).
  set (f2 := set_dirs (dirs (files_ s)) (set_inodes (delete p (inodes (files_ s)))
    (set_open_inodes (filter (λ q, q ≠ p) (open_inodes (files_ s))) (set_malloc_cnt (S (malloc_cnt (files_ s))) (files_ s))))).
  assert (close_work_dir ctid (mk_starter f1 (<[ct := n]> (work_dirs s))) = Ok (tt, mk_starter f2 (<[ct := n]> (work_dirs s)))) as E2.
  { unfold close_work_dir. rewrite Ect. erewrite (bind_Ok (load_work_dir _)) by (unfold load_work_dir; simpl; by rewrite lookup_insert_eq).
    unfold on_files, dir_close. rewrite (proj2 (Z.eqb_neq n NULL)) by (unfold n, NULL; lia).
    erewrite (bind_Ok (load_dir _)) by (unfold load_dir, f1; simpl; by rewrite lookup_insert_eq).
    rewrite (bind_Ok _ _ _ _ _ (close_last f1 p sec Hp Hi)). unfold modify, f1, f2, set_dirs, set_inodes, set_open_inodes.
    cbn [inodes open_inodes disk files dirs free_map free_map_file malloc_ok malloc_cnt obind]. by rewrite delete_insert_id. }
  rewrite (bind_Ok _ _ _ _ _ E2). unfold close_work_dir. rewrite Ept.
  erewrite (bind_Ok (load_work_dir _)) by (unfold load_work_dir; simpl; rewrite lookup_insert_ne by done; by rewrite Hw).
  unfold on_files, dir_close. rewrite (proj2 (Z.eqb_neq w NULL)) by done.
  erewrite (bind_Ok (load_dir _)) by (unfold load_dir, f2; simpl; by rewrite Hd).
  unfold bind at 1. cbn [d_inode]. rewrite close_dangling; [done|done|]. unfold f2. cbn. apply lookup_delete_eq.
Qed.
End WorkDir.

(** Thread 1 at 100 has a directory open, thread 2 at 200 is its child. *)
Definition start_sample : starter :=
  mk_starter (set_dirs {[ 6 := mk_dir 2 0 ]} sample) (list_to_map [(100, 6); (200, NULL)]).

Lemma work_dir_closed_twice_witness :
  (let! _ := set_work_dir [(1, 100); (2, 200)] 1 2 in
   let! _ := close_work_dir [(1, 100); (2, 200)] 2 in
   close_work_dir [(1, 100); (2, 200)] 1) start_sample = Undef.
Proof.
  apply (work_dir_closed_twice [(1, 100); (2, 200)] start_sample 1 2 100 200 6 2 0 5); try reflexivity; try discriminate.
  by exists NULL.
Defined.
